(* ===== verification/_CoqProject ===== *)
-Q . S2P
Prelude.v
Core.v
Model.v
Environment.v
State.v
Queries.v
Buffers.v
Focus.v
Tree.v
Layout.v
Moves.v
Validate.v
Persist.v
Protocol.v
Wire.v
ClientCodec.v
RecordCodec.v
ServerCodec.v
RequestCodec.v
ResponseCodec.v
Snapshot.v
Runtimes.v
Restore.v
Keepers.v
Saving.v
Server.v
RuntimeEvents.v
Dispatch.v
BufferRequests.v
Requests.v
Startup.v
Concurrency.v
ClientState.v
Presentation.v
Resize.v
PtySizes.v
CopyMode.v
Keys.v
TerminalInput.v
Prompt.v
Ids.v
Forest.v
Invariant.v
QueriesSpec.v
FocusSpec.v
Settle.v
Surgery.v
Owners.v
Cosmetic.v
Normalize.v
Closing.v
Opening.v
Popups.v
Splitting.v
Moving.v
Exits.v
Zooming.v
SnapshotSpec.v
PersistSpec.v
Keeps.v
Serves.v
Serving.v
ConcurrencySpec.v
EnvironmentSpec.v
LayoutTheorems.v
Delivery.v
Frames.v
ReplyHold.v
ClientSpec.v
ProjectSpec.v
DrawSpec.v
ResizeSpec.v
ClientTheorems.v
Pickers.v
KeysSpec.v
TerminalSpec.v
SavingSpec.v
ServerTheorems.v
WorkspaceTheorems.v
RestoreSpec.v
