(* ===== verification/Prelude.v ===== *)
(** * Embers: a verification of the terminal multiplexer

    Embers runs programs in buffers and shows them in panes. A server keeps the
    layout and talks to clients; each local buffer's program is run by a process
    of its own, a keeper, and a buffer may run on another host. A client copies a
    session, draws it, and turns what is typed into requests and bytes. This
    library models the server, crates/embers-server/src with the types it takes
    from embers-core and embers-protocol, and the parts of the client that decide
    what is shown and what a key means, and proves what keeps them right. File
    names below are those of the repository's crates/*/src.

    ** The parts and their files

    - [Prelude] (this file): outcomes, the state monad [ST], [Vec] operations with
      their panics, machine integers, sorted maps, strings, Hoare triples [wp];
      numbers in decimal;
    - [Core], [Model]: embers-core (ids.rs, geometry.rs, metadata.rs) and model.rs;
    - [Environment]: environment.rs;
    - [State], [Queries], [Buffers], [Focus], [Tree], [Layout], [Moves],
      [Validate]: state.rs, one Definition per method of [ServerState];
    - [Persist]: persist.rs, with [to_persisted] and [from_persisted] of state.rs;
    - [Protocol], [Snapshot]: the wire types (embers-protocol types.rs) and the
      records made from the state (protocol.rs);
    - [Runtimes]: what runtimes report (buffer_runtime.rs), the calls to them
      ([HostCall]: runtimes.rs, runtime_handle.rs, the clock, the socket), and
      [proc], code that takes locks in turn and awaits calls;
    - [Restore]: restore.rs, what a pane whose keeper is gone runs again;
    - [Keepers], [Saving]: which runtime runs which buffer and which keepers wait
      for a save (runtimes.rs), and the save (server.rs);
    - [Server], [RuntimeEvents], [Dispatch], [BufferRequests], [Requests],
      [Startup]: server.rs: clients and delivery, reports of runtimes, the handlers
      of requests, one turn of a connection, and the start of a server;
    - [Concurrency]: the tasks connections and runtimes start, interleaved;
    - [Wire], [ClientCodec], [RecordCodec], [ServerCodec]: the tables messages are sent
      as (embers_generated.rs) and codec.rs, which makes and reads them; what the
      FlatBuffers crate makes of a table is a parameter, given back its bytes;
    - [Frames], [ReplyHold]: framing.rs and reply_hold.rs, each with its theorems;
    - [ClientState], [Presentation], [Resize]: the client's copy of the server's
      state, where it is drawn, and dividers moved (embers-client state.rs,
      presentation.rs, split_resize.rs);
    - [PtySizes]: the sizes panes are asked to have and new panes will have
      (pty_sizes.rs, spawn_size.rs), with its theorem; [CopyMode]: motions of the copy
      mode cursor, jumps, clicks and counts (copy_mode.rs), with its theorems;
    - [Prompt], [Pickers], with their theorems: the line typed at the command prompt
      (command_prompt.rs); window numbers, labels of matches on the screen, and the tree
      of sessions, windows and panes (numbering.rs, hints.rs, chooser.rs), and
      formats (format.rs);
    - [Keys], [TerminalInput]: the names, bindings and bytes of keys (embers-client
      input/ and the conversions of configured_client.rs), and the keys, clicks and
      pastes read from the host terminal (embers-cli interactive.rs).

    ** How the model runs

    A method of [&mut ServerState] is a function [SM A], from a state to an
    [outcome] (a value, an [Err], a panic, or the end of the recursion budget) and
    a state: an error leaves the state as it was when it was raised. A method of the
    server that locks the state once is a section, [RT A], over [Runtime], which
    holds the state, the clients, the subscriptions and their queues. One that
    locks several times, or calls a runtime, is a [proc]: sections and calls in
    sequence. Other tasks may run between two of its sections, and a call may get
    any answer. Walks over the layout take as budget the number of nodes and one
    more ([Queries.budget]); [walks_end] shows that it is enough, and
    [copied_session_is_drawn] the same of the client's walks, whose budget is the
    number of nodes it knows and one more. A parser's fuel is the length of its
    input, of which each turn takes some.

    ** What is shown

    - the invariant ([Forest], [Ids], [Invariant], [Settle]): [consistent] says that
      the layout is a forest of trees, each owned by a session or a popup, that
      buffers and the panes showing them name each other, that focus is on a visible
      pane of its session, and that ids are fresh;
    - each operation of the layout keeps it and does what it should ([QueriesSpec]
      to [Zooming], [LayoutTheorems]), errors included;
    - [SnapshotSpec] ends with an abstract account: panes open, close and change
      buffer, one buffer in one pane at most. [Keeps] shows that the operations
      follow it;
    - saving and loading, validation, snapshots, the disposal of exited buffers,
      ids ([PersistSpec], [SnapshotSpec], [WorkspaceTheorems]);
    - [Serves], [Serving]: every section of every handler keeps the state consistent
      and does not fail; [ConcurrencySpec] and [ServerTheorems] lift this to all
      interleavings: the server's workspace stays consistent, any task can be run to
      its end, and a buffer that has ended does not run again. These leave out five
      requests (below). Each request gets one reply, its own, whatever the requests
      and whatever the state ([ConcurrencySpec.all_answered]);
    - [SavingSpec], with the last theorems of [ServerTheorems]: wherever the server
      is stopped, a keeper that was let go is recorded as ended in the file, as long
      as no write failed once its file was in place: a write that fails may leave the
      old file or the new one, and [WorkspaceTheorems.late_failure_forgets_exit] has a
      run in which that loses an exit;
    - [RestoreSpec]: the line typed into a restored shell reads back as the words of
      the command, by a shell, a parameter, that shares the quoting the line is made
      for ([shares_quoting]); a shell made by its rules shows that one can;
    - delivery of events ([Delivery]), environments ([EnvironmentSpec]), frames
      read back whatever way the stream is cut ([Frames]), replies of a pane in
      order ([ReplyHold]);
    - the codec ([RequestCodec], [ResponseCodec]): requests that pass the
      checks are read back as they were sent, and what is read passes them; responses
      and events arrive but for what [ResponseCodec.received] leaves out, unless a node
      lacks the part of its kind;
    - the client ([ClientSpec], [ProjectSpec], [DrawSpec], [ClientTheorems],
      [ResizeSpec]): its copy of a session is the server's, can be drawn once it
      has a window, panes tile their rectangle, and a divider moves by the cells asked for;
    - sizes of panes ([PtySizes]): several clients at rest leave the sizes alone, and the
      one whose user acts takes its panes back; copy mode ([CopyMode]): words and
      paragraphs are found as a search of all positions finds them, and motions keep the
      cursor in the text and in view;
    - prompts and pickers ([Prompt], [Pickers]): a line is edited as the text before and
      after its cursor, and never read outside; labels are told apart; the tree lists
      what the server has;
    - keys ([KeysSpec], [TerminalSpec]): what is typed is resolved once and in
      order, names are read back as the keys they spell, and the bytes sent for keys
      are read as those keys;
    - [WorkspaceTheorems] also runs, on concrete workspaces, requests after which
      the code breaks its own invariant. They need [NodeRequest]s that put a layout
      together by hand ([Serves.assembles]) or a zoomed pane, so the theorems that
      need the invariant leave those five requests out.

    The bounds: ids are 64-bit and wrap; a tab index fits the protocol's 32 bits.
    Theorems ask for room for the ids an operation hands out ([Keeps.roomy]), and
    the client's for rectangles whose corners fit [i32].

    ** Not modelled

    The texts of errors, log messages; locks held together are taken at once, so a
    deadlock between them is not. A path is its text. [BTreeMap]s are [gmap]s, read
    in key order. The JSON of workspace files and keepers (serde), and the bytes
    of a FlatBuffers table; PTYs, sockets, SSH and keepers as processes, whose
    answers are arbitrary; the terminal emulator; of the client, the Rhai engine, the
    text and colours it draws, and its session loop; the command line. *)

From stdpp Require Export base gmap sets list sorting numbers strings.
From Stdlib Require Export Lia.

Declare Scope mux_scope.
Delimit Scope mux_scope with mux.

(** The lemmas that close the common side conditions. *)
Create HintDb mux.

(** ** Errors and outcomes

    [MuxError] is [embers_core::MuxError] with the message texts left out; the
    variant is what callers branch on.  An [outcome] is what running a piece of
    the code gives: a value, an [Err] of the code's own [Result], a panic, or
    the end of the recursion budget of a definition that recurses on a graph. *)

Inductive ErrorCode : Set :=
  | EcUnknown | EcInvalidRequest | EcProtocolViolation | EcTransport | EcNotFound
  | EcConflict | EcUnsupported | EcTimeout | EcInternal.

Inductive MuxError : Set :=
  | Wire (code : ErrorCode)
  | Io
  | Protocol
  | Transport
  | InvalidInput
  | NotFound
  | Conflict
  | Unsupported
  | Timeout
  | Pty
  | Internal.

#[export] Instance ErrorCode_eq_dec : EqDecision ErrorCode.
Proof. solve_decision. Defined.
#[export] Instance MuxError_eq_dec : EqDecision MuxError.
Proof. solve_decision. Defined.

Definition is_not_found (e : MuxError) : bool :=
  match e with
  | NotFound => true
  | Wire code => bool_decide (code = EcNotFound)
  | _ => false
  end.

Definition is_conflict (e : MuxError) : bool :=
  match e with
  | Conflict => true
  | Wire code => bool_decide (code = EcConflict)
  | _ => false
  end.

Inductive outcome (A : Type) : Type :=
  | Ok (a : A)
  | Err (e : MuxError)
  | Panic
  | OutOfFuel.
Arguments Ok {A} a.
Arguments Err {A} e.
Arguments Panic {A}.
Arguments OutOfFuel {A}.

#[export] Instance outcome_ret : MRet outcome := λ A x, Ok x.
#[export] Instance outcome_bind : MBind outcome := λ A B f m,
  match m with
  | Ok a => f a
  | Err e => Err e
  | Panic => Panic
  | OutOfFuel => OutOfFuel
  end.
#[export] Instance outcome_fmap : FMap outcome := λ A B f m, m ≫= λ a, Ok (f a).

(** [option.ok_or(e)] and [if !b { return Err(e) }]. *)
Definition ok_or {A} (o : option A) (e : MuxError) : outcome A :=
  match o with Some a => Ok a | None => Err e end.

Definition ensure (b : bool) (e : MuxError) : outcome unit :=
  if b then Ok () else Err e.

Definition is_ok {A} (m : outcome A) : bool :=
  match m with Ok _ => true | _ => false end.

(** ** The state and error monad

    A method taking [&mut self] runs in [ST]: an [Err] leaves the state as it
    was when the error was raised, exactly as an early [return Err(..)] does. *)

Definition ST (S A : Type) : Type := S → outcome A * S.

#[export] Instance ST_ret S : MRet (ST S) := λ A x s, (Ok x, s).
#[export] Instance ST_bind S : MBind (ST S) := λ A B f m s,
  match m s with
  | (Ok a, s') => f a s'
  | (Err e, s') => (Err e, s')
  | (Panic, s') => (Panic, s')
  | (OutOfFuel, s') => (OutOfFuel, s')
  end.

Section st_ops.
Context {S : Type}.

(** Run a [&self] method. *)
Definition reads {A} (f : S → outcome A) : ST S A := λ s, (f s, s).
(** Look at the state with an infallible function. *)
Definition gets {A} (f : S → A) : ST S A := λ s, (Ok (f s), s).
Definition modify (f : S → S) : ST S unit := λ s, (Ok (), f s).
Definition throw {A} (e : MuxError) : ST S A := λ s, (Err e, s).
Definition lift {A} (m : outcome A) : ST S A := λ s, (m, s).

(** Run [m] and hand its [Result] to the caller, as [match self.m() { .. }]
    does; a panic or the end of the budget is not a [Result]. *)
Definition attempt {A} (m : ST S A) : ST S (A + MuxError) := λ s,
  match m s with
  | (Ok a, s') => (Ok (inl a), s')
  | (Err e, s') => (Ok (inr e), s')
  | (Panic, s') => (Panic, s')
  | (OutOfFuel, s') => (OutOfFuel, s')
  end.

(** [for x in l { f(x)?; }] *)
Fixpoint for_each {A} (f : A → ST S unit) (l : list A) : ST S unit :=
  match l with
  | [] => mret ()
  | x :: l => f x ≫= λ _, for_each f l
  end.

(** [for x in l { acc = f(acc, x)?; }] *)
Fixpoint fold_st {A B} (f : B → A → ST S B) (acc : B) (l : list A) : ST S B :=
  match l with
  | [] => mret acc
  | x :: l => f acc x ≫= λ acc, fold_st f acc l
  end.

(** [if b { m }], and a step whose [Result] is dropped: [let _ = m]. *)
Definition when (b : bool) (m : ST S unit) : ST S unit := if b then m else mret ().
Definition ignore {A} (m : ST S A) : ST S unit := attempt m ≫= λ _, mret ().
Definition out_of_fuel {A} : ST S A := λ s, (OutOfFuel, s).
End st_ops.

(** [x.is_ok_and(p)] on the value of a [&self] method, and [.ok()]. *)
Definition ok_option {A} (m : outcome A) : outcome (option A) :=
  match m with
  | Ok a => Ok (Some a)
  | Err _ => Ok None
  | Panic => Panic
  | OutOfFuel => OutOfFuel
  end.

Section outcome_lists.
Context {A B : Type}.

(** [for x in l { if let Some(y) = f(x)? { return Ok(Some(y)); } } Ok(None)] *)
Fixpoint first_some (f : A → outcome (option B)) (l : list A) : outcome (option B) :=
  match l with
  | [] => Ok None
  | x :: l =>
      r ← f x;
      match r with Some y => Ok (Some y) | None => first_some f l end
  end.

(** [for x in l { if f(x)? { return Ok(true); } } Ok(false)] *)
Fixpoint any_ok (f : A → outcome bool) (l : list A) : outcome bool :=
  match l with
  | [] => Ok false
  | x :: l => b ← f x; if b : bool then Ok true else any_ok f l
  end.

(** [l.iter().map(f).collect::<Result<Vec<_>>>()] *)
Fixpoint collect (f : A → outcome B) (l : list A) : outcome (list B) :=
  match l with
  | [] => Ok []
  | x :: l => y ← f x; ys ← collect f l; Ok (y :: ys)
  end.

(** [for x in l { acc = f(acc, x)?; }] *)
Fixpoint fold_ok (f : B → A → outcome B) (acc : B) (l : list A) : outcome B :=
  match l with
  | [] => Ok acc
  | x :: l => acc' ← f acc x; fold_ok f acc' l
  end.
End outcome_lists.

(** ** [Vec] operations, with the panics Rust's have *)

Section vec.
Context {A : Type}.

(** [iter().position(p)] *)
Fixpoint position (p : A → bool) (l : list A) : option nat :=
  match l with
  | [] => None
  | x :: l => if p x then Some 0 else S <$> position p l
  end.

(** [iter().find(p)] *)
Fixpoint find_first (p : A → bool) (l : list A) : option A :=
  match l with
  | [] => None
  | x :: l => if p x then Some x else find_first p l
  end.

(** [iter_mut().find(p)] followed by an update of the element found. *)
Fixpoint update_first (p : A → bool) (f : A → A) (l : list A) : list A :=
  match l with
  | [] => []
  | x :: l => if p x then f x :: l else x :: update_first p f l
  end.

(** [Vec::insert], [Vec::remove], [slice::swap] and indexing. *)
Definition insert_at (i : nat) (x : A) (l : list A) : list A :=
  take i l ++ x :: drop i l.
Definition vec_insert (i : nat) (x : A) (l : list A) : outcome (list A) :=
  if i <=? length l then Ok (insert_at i x l) else Panic.
Definition vec_remove (i : nat) (l : list A) : outcome (A * list A) :=
  match l !! i with Some x => Ok (x, delete i l) | None => Panic end.
Definition vec_swap (i j : nat) (l : list A) : outcome (list A) :=
  match l !! i, l !! j with
  | Some x, Some y => Ok (<[i := y]> (<[j := x]> l))
  | _, _ => Panic
  end.
Definition vec_index (i : nat) (l : list A) : outcome A :=
  match l !! i with Some x => Ok x | None => Panic end.
End vec.

(** [str::split] and [slice::split] at each element satisfying [p]. *)
Fixpoint split_where (p : N → bool) (s : list N) : list (list N) :=
  match s with
  | [] => [[]]
  | c :: s =>
      if p c then [] :: split_where p s
      else match split_where p s with
           | w :: ws => (c :: w) :: ws
           | [] => [[c]]
           end
  end.

(** ** Integers at their width

    Unsigned machine integers are [N]; subtraction on [N] saturates at zero as
    [saturating_sub] does. *)

Definition u16_max : N := 65535.
Definition u32_modulus : N := 4294967296.
Definition u64_modulus : N := 18446744073709551616.
Definition u64_max : N := 18446744073709551615.

Definition sat_add16 (a b : N) : N := N.min u16_max (a + b).
Definition sat_mul16 (a b : N) : N := N.min u16_max (a * b).
Definition sat_add64 (a b : N) : N := N.min u64_max (a + b).
(** [u64::checked_add(1)] and [AtomicU64::fetch_add(1)], which wraps. *)
Definition checked_succ64 (a : N) : option N :=
  if (a <? u64_max)%N then Some (a + 1)%N else None.
Definition wrap_succ64 (a : N) : N := ((a + 1) mod u64_modulus)%N.

(** ** [BTreeMap] iteration, in key order *)

Section btree.
Context {V : Type}.

Definition entry_le (a b : N * V) : Prop := (a.1 ≤ b.1)%N.
#[export] Instance entry_le_dec a b : Decision (entry_le a b).
Proof. unfold entry_le. apply _. Defined.

Definition entries (m : gmap N V) : list (N * V) := merge_sort entry_le (map_to_list m).
Definition keys_of (m : gmap N V) : list N := (entries m).*1.
Definition values_of (m : gmap N V) : list V := (entries m).*2.
End btree.

(** [BTreeSet::into_iter] *)
Definition set_to_sorted (s : gset N) : list N := merge_sort N.le (elements s).

(** ** Text

    A Rust [String] is the list of its Unicode scalar values. *)

Definition rstring : Type := list N.

Fixpoint lit (s : string) : rstring :=
  match s with
  | EmptyString => []
  | String c s => Ascii.N_of_ascii c :: lit s
  end.

(** [char::is_control]: the characters of the category Cc. *)
Definition is_control (c : N) : bool := ((c <=? 31) || ((127 <=? c) && (c <=? 159)))%N.
(** [char::is_whitespace]: the characters with the [White_Space] property. *)
Definition is_whitespace (c : N) : bool :=
  (((9 <=? c) && (c <=? 13)) || (c =? 32) || (c =? 133) || (c =? 160) || (c =? 5760)
   || ((8192 <=? c) && (c <=? 8202)) || (c =? 8232) || (c =? 8233) || (c =? 8239)
   || (c =? 8287) || (c =? 12288))%N.

Fixpoint trim_start (s : rstring) : rstring :=
  match s with
  | [] => []
  | c :: s' => if is_whitespace c then trim_start s' else s
  end.
Definition trim_end (s : rstring) : rstring := reverse (trim_start (reverse s)).
Definition trim (s : rstring) : rstring := trim_end (trim_start s).

Definition to_ascii_lowercase (s : rstring) : rstring :=
  (λ c, if ((65 <=? c) && (c <=? 90))%N then (c + 32)%N else c) <$> s.

(** ** Reasoning about outcomes and stateful code *)

(** [returns o P E]: [o] is a value satisfying [P] or an error satisfying [E];
    in particular not a panic and not an exhausted budget. *)
Definition returns {A} (o : outcome A) (P : A → Prop) (E : MuxError → Prop) : Prop :=
  match o with Ok a => P a | Err e => E e | Panic | OutOfFuel => False end.

(** [safe o]: [o] is a [Result]. *)
Definition safe {A} (o : outcome A) : Prop := returns o (λ _, True) (λ _, True).

(** [wp m Q E s]: run from [s], [m] returns [Ok a] in a state related to [a] by
    [Q], or [Err e] in a state related to [e] by [E]. *)
Definition wp {S A} (m : ST S A) (Q : A → S → Prop) (E : MuxError → S → Prop) (s : S) : Prop :=
  match m s with (Ok a, s') => Q a s' | (Err e, s') => E e s' | _ => False end.

Section outcome_facts.
Context {A B : Type}.
Implicit Types (o : outcome A) (P : A → Prop) (E : MuxError → Prop).

Lemma returns_mono o P P' E E' :
  returns o P E → (∀ a, P a → P' a) → (∀ e, E e → E' e) → returns o P' E'.
Proof. destruct o; simpl; naive_solver. Qed.

Lemma returns_bind o (f : A → outcome B) (P : B → Prop) E :
  returns o (λ a, returns (f a) P E) E → returns (o ≫= f) P E.
Proof. by destruct o. Qed.

Lemma returns_safe o P E : returns o P E → safe o.
Proof. by destruct o. Qed.

Lemma returns_ok o P : returns o P (λ _, False) ↔ ∃ a, o = Ok a ∧ P a.
Proof. destruct o; simpl; naive_solver. Qed.

Lemma ensure_Ok b e : ensure b e = Ok () ↔ b = true.
Proof. destruct b; simpl; naive_solver. Qed.

Lemma bind_Ok o (f : A → outcome B) b :
  (o ≫= f) = Ok b ↔ ∃ a, o = Ok a ∧ f a = Ok b.
Proof. destruct o; simpl; naive_solver. Qed.

Lemma ok_or_Ok (x : option A) e a : ok_or x e = Ok a ↔ x = Some a.
Proof. destruct x; simpl; naive_solver. Qed.

End outcome_facts.

Section outcome_loops.
Context {A B : Type}.

Lemma first_some_returns (f : A → outcome (option B)) (l : list A) (P : B → Prop)
    (N0 : A → Prop) E :
  (∀ x, x ∈ l → returns (f x) (λ r, match r with Some y => P y | None => N0 x end) E) →
  returns (first_some f l)
    (λ r, match r with Some y => P y | None => ∀ x, x ∈ l → N0 x end) E.
Proof.
  induction l as [|x l IH]; intros Hf; cbn [first_some].
  { by intros x ?%elem_of_nil. }
  apply returns_bind. eapply returns_mono; [apply (Hf x); by left| |done].
  intros [y|] Hx; [done|].
  eapply returns_mono; [apply IH; intros; apply Hf; by right| |done].
  intros [y|]; [done|]. intros Hl z [->|?]%elem_of_cons; auto.
Qed.

Lemma any_ok_returns (f : A → outcome bool) (l : list A) (P : A → Prop) E :
  (∀ x, x ∈ l → returns (f x) (λ b, b = true ↔ P x) E) →
  returns (any_ok f l) (λ b, b = true ↔ ∃ x, x ∈ l ∧ P x) E.
Proof.
  induction l as [|x l IH]; intros Hf; cbn [any_ok].
  { split; [done|]. intros (y & ?%elem_of_nil & _). done. }
  apply returns_bind. eapply returns_mono; [apply (Hf x); by left| |done].
  intros [] Hx; cbn.
  - split; [|done]. intros _. exists x. split; [by left|]. by apply Hx.
  - eapply returns_mono; [apply IH; intros; apply Hf; by right| |done].
    intros b ->. split.
    + intros (y & ? & ?). exists y. split; [by right|done].
    + intros (y & [->|?]%elem_of_cons & Hy); [|by exists y]. by apply Hx in Hy.
Qed.

(** A loop with an invariant on the elements done so far. *)
Lemma fold_ok_returns (f : B → A → outcome B) (I : list A → B → Prop) (l : list A) E :
  (∀ done x rest b, l = done ++ x :: rest → I done b → returns (f b x) (I (done ++ [x])) E) →
  ∀ b, I [] b → returns (fold_ok f b l) (I l) E.
Proof.
  intros Hf. assert (∀ rest done b, l = done ++ rest → I done b →
    returns (fold_ok f b rest) (I l) E) as Hgen.
  { induction rest as [|x rest IH]; intros done b Hl Hb; simpl.
    - by rewrite app_nil_r in Hl; subst.
    - apply returns_bind. eapply returns_mono; [by eapply Hf| |done].
      intros b' Hb'. apply (IH (done ++ [x])); [|done]. by rewrite <-app_assoc. }
  intros b Hb. by apply (Hgen l []).
Qed.

Lemma collect_returns (f : A → outcome B) (P : A → B → Prop) (l : list A) E :
  (∀ x, x ∈ l → returns (f x) (P x) E) → returns (collect f l) (Forall2 P l) E.
Proof.
  induction l as [|x l IH]; intros Hf; simpl; [done|].
  pose proof (Hf x (list_elem_of_here _ _)) as Hx. destruct (f x); simpl in *; try done.
  assert (returns (collect f l) (Forall2 P l) E) as Hl. { apply IH. intros. apply Hf. by right. }
  destruct (collect f l); simpl in *; auto.
Qed.
End outcome_loops.

Section wp_rules.
Context {S A B : Type}.
Implicit Types (m : ST S A) (Q : A → S → Prop) (E : MuxError → S → Prop).

Lemma wp_mono m Q Q' E E' s :
  wp m Q E s → (∀ a s', Q a s' → Q' a s') → (∀ e s', E e s' → E' e s') → wp m Q' E' s.
Proof. unfold wp. destruct (m s) as [[]]; naive_solver. Qed.

Lemma wp_bind m (f : A → ST S B) (Q : B → S → Prop) E s :
  wp m (λ a, wp (f a) Q E) E s → wp (m ≫= f) Q E s.
Proof. unfold wp, mbind, ST_bind. by destruct (m s) as [[]]. Qed.

Lemma wp_ret a Q E s : Q a s → wp (mret a) Q E s.
Proof. done. Qed.

Lemma wp_throw e Q E s : E e s → wp (throw e) Q E s.
Proof. done. Qed.

Lemma wp_reads f Q E s : returns (f s) (λ a, Q a s) (λ e, E e s) → wp (reads f) Q E s.
Proof. unfold wp, reads. by destruct (f s). Qed.

Lemma wp_lift o Q E s : returns o (λ a, Q a s) (λ e, E e s) → wp (lift o) Q E s.
Proof. unfold wp, lift. by destruct o. Qed.

Lemma wp_gets f Q E s : Q (f s) s → wp (gets f) Q E s.
Proof. done. Qed.

Lemma wp_modify f (Q : unit → S → Prop) E s : Q () (f s) → wp (modify f) Q E s.
Proof. done. Qed.

Lemma wp_attempt m (Q : A + MuxError → S → Prop) E s :
  wp m (λ a, Q (inl a)) (λ e, Q (inr e)) s → wp (attempt m) Q E s.
Proof. unfold wp, attempt. by destruct (m s) as [[]]. Qed.

Lemma wp_ignore m (Q : unit → S → Prop) E s :
  wp m (λ _, Q ()) (λ _, Q ()) s → wp (ignore m) Q E s.
Proof. unfold wp, ignore, attempt, mbind, ST_bind, mret, ST_ret. by destruct (m s) as [[]]. Qed.

Lemma wp_when b (m : ST S unit) (Q : unit → S → Prop) E s :
  (b = true → wp m Q E s) → (b = false → Q () s) → wp (when b m) Q E s.
Proof. destruct b; naive_solver. Qed.

End wp_rules.

Lemma wp_assoc {S A B C} (m : ST S A) (f : A → ST S B) (g : B → ST S C) Q E s :
  wp ((m ≫= f) ≫= g) Q E s → wp (m ≫= λ a, f a ≫= g) Q E s.
Proof. unfold wp, mbind, ST_bind. by destruct (m s) as [[]]. Qed.

Section wp_loops.
Context {S A B : Type}.
Implicit Types (E : MuxError → S → Prop).

Lemma wp_for_each (f : A → ST S unit) (l : list A) (I : list A → S → Prop) E s :
  (∀ done x rest s, l = done ++ x :: rest → I done s →
     wp (f x) (λ _, I (done ++ [x])) E s) →
  I [] s → wp (for_each f l) (λ _, I l) E s.
Proof.
  intros Hf. assert (∀ rest done s, l = done ++ rest → I done s →
    wp (for_each f rest) (λ _, I l) E s) as Hgen.
  { induction rest as [|x rest IH]; intros done s' Hl Hs; simpl.
    - rewrite app_nil_r in Hl; by subst.
    - change (wp (f x ≫= λ _, for_each f rest) (λ _, I l) E s').
      unfold wp, mbind, ST_bind. pose proof (Hf _ _ _ _ Hl Hs) as Hx. unfold wp in Hx.
      destruct (f x s') as [[]]; try done.
      apply (IH (done ++ [x])); [|done]. by rewrite <-app_assoc. }
  intros Hs. by apply (Hgen l []).
Qed.

Lemma wp_fold_st (f : B → A → ST S B) (l : list A) (I : B → S → Prop) E b s :
  (∀ x b s, x ∈ l → I b s → wp (f b x) I E s) → I b s → wp (fold_st f b l) I E s.
Proof.
  revert b s. induction l as [|x l IH]; intros b s Hf Hs; simpl; [done|].
  unfold wp, mbind, ST_bind. pose proof (Hf x b s (list_elem_of_here _ _) Hs) as Hx.
  unfold wp in Hx. destruct (f b x s) as [[]]; try done.
  apply IH; [|done]. intros. apply Hf; [by right|done].
Qed.
End wp_loops.

(** ** Lists and iteration order *)

Section search_facts.
Context {A : Type} (p : A → bool).

Lemma find_first_Some l x : find_first p l = Some x → x ∈ l ∧ p x = true.
Proof.
  induction l as [|y l IH]; simpl; [done|]. destruct (p y) eqn:Hy.
  - intros [= ->]. split; [by left|done].
  - intros [? ?]%IH. split; [by right|done].
Qed.

Lemma find_first_None l : find_first p l = None ↔ ∀ x, x ∈ l → p x = false.
Proof.
  induction l as [|y l IH]; simpl.
  - split; [by intros _ x ?%elem_of_nil|done].
  - destruct (p y) eqn:Hy; setoid_rewrite elem_of_cons; naive_solver congruence.
Qed.

Lemma position_Some l i : position p l = Some i →
  ∃ x, l !! i = Some x ∧ p x = true ∧ ∀ j y, j < i → l !! j = Some y → p y = false.
Proof.
  revert i. induction l as [|y l IH]; intros i; simpl; [done|]. destruct (p y) eqn:Hy.
  - intros [= <-]. exists y. split_and!; [done..|]. intros; lia.
  - intros (j & Hj & ->)%fmap_Some. destruct (IH j Hj) as (x & ? & ? & Hlt). exists x.
    split_and!; [done..|]. intros [|k] z Hk Hz; simplify_eq/=; [done|]. apply (Hlt k); [lia|done].
Qed.

Lemma position_None l : position p l = None ↔ ∀ x, x ∈ l → p x = false.
Proof.
  induction l as [|y l IH]; simpl.
  - split; [by intros _ x ?%elem_of_nil|done].
  - destruct (p y) eqn:Hy; setoid_rewrite elem_of_cons; rewrite ?fmap_None, ?IH;
      naive_solver congruence.
Qed.
End search_facts.

Section btree_facts.
Context {V : Type} (m : gmap N V).

Lemma entries_perm : entries m ≡ₚ map_to_list m.
Proof. apply merge_sort_Permutation. Qed.
Lemma elem_of_entries k x : (k, x) ∈ entries m ↔ m !! k = Some x.
Proof. by rewrite entries_perm, elem_of_map_to_list. Qed.
Lemma length_values_of : length (values_of m) = size m.
Proof.
  unfold values_of, entries. rewrite length_fmap, merge_sort_Permutation. apply length_map_to_list.
Qed.

Lemma elem_of_values_of x : x ∈ values_of m ↔ ∃ k, m !! k = Some x.
Proof.
  unfold values_of. rewrite list_elem_of_fmap. split.
  - intros ([k y] & -> & ?%elem_of_entries). by exists k.
  - intros (k & Hk). exists (k, x). by rewrite elem_of_entries.
Qed.
Lemma elem_of_keys_of k : k ∈ keys_of m ↔ is_Some (m !! k).
Proof.
  unfold keys_of. rewrite list_elem_of_fmap. split.
  - intros ([k' y] & -> & ?%elem_of_entries). by exists y.
  - intros [y Hk]. exists (k, y). by rewrite elem_of_entries.
Qed.
Lemma NoDup_keys_of : NoDup (keys_of m).
Proof. unfold keys_of. rewrite entries_perm. apply NoDup_fst_map_to_list. Qed.
End btree_facts.

Lemma elem_of_set_to_sorted (s : gset N) x : x ∈ set_to_sorted s ↔ x ∈ s.
Proof. unfold set_to_sorted. by rewrite merge_sort_Permutation, elem_of_elements. Qed.
Lemma NoDup_set_to_sorted (s : gset N) : NoDup (set_to_sorted s).
Proof. unfold set_to_sorted. rewrite merge_sort_Permutation. apply NoDup_elements. Qed.

(** [wp_step] applies the rule of the head of a [wp] goal. *)
Ltac wp_step :=
  cbn beta iota zeta;
  lazymatch goal with
  | |- wp (mbind _ _) _ _ _ => apply wp_bind
  | |- wp (_ ≫= _) _ _ _ => apply wp_bind
  | |- wp (mret _) _ _ _ => apply wp_ret
  | |- wp (throw _) _ _ _ => apply wp_throw
  | |- wp (reads _) _ _ _ => apply wp_reads
  | |- wp (lift _) _ _ _ => apply wp_lift
  | |- wp (gets _) _ _ _ => apply wp_gets
  | |- wp (modify _) _ _ _ => apply wp_modify
  | |- wp (attempt _) _ _ _ => apply wp_attempt
  | |- wp (ignore _) _ _ _ => apply wp_ignore
  | |- wp (when _ _) _ _ _ => apply wp_when
  end.

(** [retain] with a condition every element meets. *)
Lemma filter_all {A} (P : A → Prop) `{!∀ x, Decision (P x)} (l : list A) :
  (∀ x, x ∈ l → P x) → base.filter P l = l.
Proof.
  induction l as [|x l IH]; intros HP; [done|]. rewrite filter_cons_True by (apply HP; by left).
  f_equal. apply IH. intros y Hy. apply HP. by right.
Qed.

(** ** Integers *)

Lemma wrap_succ64_small a : (a + 1 < u64_modulus)%N → wrap_succ64 a = (a + 1)%N.
Proof. intros. unfold wrap_succ64. by rewrite N.mod_small. Qed.

(** ** Numbers in decimal

    As [format!] and [str::parse] have them. Digits are ASCII, so one reading serves bytes and
    characters. *)

Fixpoint decimal_in (fuel : nat) (n : N) : list N :=
  match fuel with
  | 0 => []
  | S fuel => (if (n <? 10)%N then [] else decimal_in fuel (n / 10)) ++ [(48 + n mod 10)%N]
  end.
Definition decimal (n : N) : list N := decimal_in (S (N.to_nat (N.size n))) n.

Definition digit_value (c : N) : option N :=
  if (48 <=? c)%N && (c <=? 57)%N then Some (c - 48)%N else None.
Definition push_digit (bound : N) (value : option N) (c : N) : option N :=
  value ← value;
  d ← digit_value c;
  let value := (value * 10 + d)%N in
  if (value <? bound)%N then Some value else None.
(** [str::parse] for an unsigned type of values below [bound]: digits, after a plus
    sign if there is one. *)
Definition parse_uint (bound : N) (s : list N) : option N :=
  let digits := match s with c :: s' => if (c =? 43)%N then s' else s | [] => [] end in
  match digits with [] => None | _ => foldl (push_digit bound) (Some 0%N) digits end.
Definition parse_u32 : list N → option N := parse_uint u32_modulus.
Definition parse_u16 : list N → option N := parse_uint (u16_max + 1).
Definition parse_u8 : list N → option N := parse_uint 256.

Definition is_digit (c : N) : Prop := (48 ≤ c ≤ 57)%N.

Lemma div_ten n : ∃ q m, (n / 10 = q ∧ n mod 10 = m ∧ n = 10 * q + m ∧ m < 10)%N.
Proof. eexists _, _. split_and!; [done|done|apply N.div_mod'|by apply N.mod_lt]. Qed.
Lemma decimal_in_digits fuel : ∀ n, Forall is_digit (decimal_in fuel n).
Proof.
  induction fuel as [|fuel IH]; intros n; [constructor|]. cbn [decimal_in]. apply Forall_app.
  destruct (div_ten n) as (q & m & -> & -> & _ & Hm).
  split; [destruct (_ <? _)%N; [done|apply IH]|]. apply Forall_singleton. unfold is_digit. lia.
Qed.
Lemma decimal_digits n : Forall is_digit (decimal n).
Proof. apply decimal_in_digits. Qed.
Lemma decimal_not_nil n : decimal n ≠ [].
Proof. unfold decimal. cbn [decimal_in]. by intros [_ ?]%app_eq_nil. Qed.
Lemma push_decimal bound fuel : ∀ n, (n < bound)%N → (n < 2 ^ N.of_nat fuel)%N → 0 < fuel →
  foldl (push_digit bound) (Some 0%N) (decimal_in fuel n) = Some n.
Proof.
  induction fuel as [|fuel IH]; intros n Hn Hf H0; [lia|]. cbn [decimal_in].
  rewrite Nat2N.inj_succ, N.pow_succ_r' in Hf.
  destruct (div_ten n) as (q & m & -> & -> & Hqm & Hm).
  rewrite foldl_app. cbn [foldl].
  assert (foldl (push_digit bound) (Some 0%N) (if (n <? 10)%N then [] else decimal_in fuel q) = Some q) as ->.
  { destruct (N.ltb_spec n 10) as [Hs|Hs]; [simpl; f_equal; lia|]. apply IH; [lia|lia|].
    destruct fuel; [simpl in Hf; lia|lia]. }
  unfold push_digit, digit_value. cbn [mbind option_bind].
  rewrite (proj2 (N.leb_le _ _)), (proj2 (N.leb_le _ _)) by lia. cbn [andb mbind option_bind].
  replace (q * 10 + (48 + m - 48))%N with n by lia. by rewrite (proj2 (N.ltb_lt _ _)).
Qed.
Lemma decimal_fuel n : (n < 2 ^ N.of_nat (S (N.to_nat (N.size n))))%N.
Proof.
  rewrite Nat2N.inj_succ, N2Nat.id, N.pow_succ_r'. pose proof (N.size_gt n). lia.
Qed.
Lemma parse_decimal bound n : (n < bound)%N → parse_uint bound (decimal n) = Some n.
Proof.
  intros Hn. unfold parse_uint. pose proof (decimal_not_nil n) as Hd.
  pose proof (decimal_digits n) as Hdig.
  pose proof (push_decimal bound _ n Hn (decimal_fuel n) ltac:(lia)) as Hp. unfold decimal in *.
  destruct (decimal_in _ n) as [|c cs]; [done|]. apply Forall_cons in Hdig as [[? ?] _].
  by rewrite (proj2 (N.eqb_neq c 43)) by lia.
Qed.

(** Splitting at a separator. *)
Lemma split_where_none p w : Forall (λ c, p c = false) w → split_where p w = [w].
Proof. induction 1 as [|c w Hc _ IH]; [done|]. simpl. by rewrite Hc, IH. Qed.
Lemma split_where_app p w c s : Forall (λ c, p c = false) w → p c = true →
  split_where p (w ++ c :: s) = w :: split_where p s.
Proof. intros Hw Hc. induction Hw as [|d w Hd _ IH]; simpl; [by rewrite Hc|]. by rewrite Hd, IH. Qed.
