(* ===== verification/Core.v ===== *)
(** Types of the [embers-core] crate: identifiers and their allocator
    (ids.rs), sizes and rectangles (geometry.rs), activity and timestamps
    (metadata.rs). *)

From S2P Require Import Prelude.

(** ** Identifiers (ids.rs)

    Every id type is a newtype around [u64]. *)

Abbreviation SessionId := N (only parsing).
Abbreviation BufferId := N (only parsing).
Abbreviation NodeId := N (only parsing).
Abbreviation FloatingId := N (only parsing).

(** [IdAllocator]: the next value to hand out. [next] is an atomic
    [fetch_add(1)], which wraps at 64 bits. *)
Abbreviation IdAllocator := N (only parsing).
Definition IdAllocator_next (next : IdAllocator) : N * IdAllocator :=
  (next, wrap_succ64 next).

(** ** Geometry (geometry.rs) *)

Record CellSize : Set := mkCellSize { cell_width : N; cell_height : N }.
Record Point : Set := mkPoint { px : Z; py : Z }.
Record Size : Set := mkSize { width : N; height : N }.
Record Rect : Set := mkRect { origin : Point; size_ : Size }.
Record FloatGeometry : Set := mkFloatGeometry { fx : N; fy : N; fwidth : N; fheight : N }.
Inductive SplitDirection : Set := Horizontal | Vertical.

Record PtySize : Set := mkPtySize {
  cols : N; rows : N; pixel_width : N; pixel_height : N
}.

#[export] Instance CellSize_eq_dec : EqDecision CellSize.
Proof. solve_decision. Defined.
#[export] Instance Size_eq_dec : EqDecision Size.
Proof. solve_decision. Defined.
#[export] Instance FloatGeometry_eq_dec : EqDecision FloatGeometry.
Proof. solve_decision. Defined.
#[export] Instance SplitDirection_eq_dec : EqDecision SplitDirection.
Proof. solve_decision. Defined.
#[export] Instance PtySize_eq_dec : EqDecision PtySize.
Proof. solve_decision. Defined.

Definition PtySize_new (c r : N) : PtySize := mkPtySize c r 0 0.

(** [u16::checked_div] *)
Definition checked_div (a b : N) : option N :=
  if (b =? 0)%N then None else Some (a / b)%N.

Definition of_text_area (cols rows pixel_width pixel_height : N) : option CellSize :=
  w ← checked_div pixel_width cols;
  h ← checked_div pixel_height rows;
  if ((0 <? w) && (0 <? h))%N then Some (mkCellSize w h) else None.

Definition cell_size (s : PtySize) : option CellSize :=
  of_text_area (cols s) (rows s) (pixel_width s) (pixel_height s).

Definition with_cell_size (s : PtySize) (cell : option CellSize) : PtySize :=
  let cell := default (mkCellSize 0 0) cell in
  mkPtySize (cols s) (rows s) (sat_mul16 (cols s) (cell_width cell))
    (sat_mul16 (rows s) (cell_height cell)).

(** The additions are on [i32]: a debug build panics when one overflows. *)
Definition i32_in_range (z : Z) : bool := ((-2147483648 <=? z) && (z <=? 2147483647))%Z.
Definition Rect_contains (r : Rect) (p : Point) : outcome bool :=
  let max_x := (px (origin r) + Z.of_N (width (size_ r)))%Z in
  let max_y := (py (origin r) + Z.of_N (height (size_ r)))%Z in
  if i32_in_range max_x && i32_in_range max_y then
    Ok ((px (origin r) <=? px p) && (py (origin r) <=? py p)
        && (px p <? max_x) && (py p <? max_y))%Z
  else Panic.

(** ** Metadata (metadata.rs) *)

(** [SystemTime] as nanoseconds relative to the Unix epoch. *)
Definition Timestamp : Type := Z.

Inductive ActivityState : Set := Idle | Activity | Bell.
#[export] Instance ActivityState_eq_dec : EqDecision ActivityState.
Proof. solve_decision. Defined.
