(* ===== verification/Model.v ===== *)
(** The server's data model, [crates/embers-server/src/model.rs]: sessions,
    buffers, layout nodes and floating windows. *)

From S2P Require Import Prelude Core.

(** ** Sessions *)

Record Session : Type := mkSession {
  s_id : SessionId;
  s_name : rstring;
  s_root_node : NodeId;
  s_floating : list FloatingId;
  s_focused_leaf : option NodeId;
  s_focused_floating : option FloatingId;
  s_zoomed_node : option NodeId;
  s_viewport : option Size;
  s_pane_titles : bool;
  s_base_index : option N;
  s_focus_history : list NodeId;
  s_created_at : Timestamp
}.

(** ** Buffers *)

Inductive HelperBufferScope : Set := Full | Visible.

Record HelperBuffer : Type := mkHelperBuffer {
  source_buffer_id : BufferId;
  scope : HelperBufferScope;
  lines : list rstring
}.

Inductive BufferKind : Type := KPty | KHelper (helper : HelperBuffer).

Inductive BufferPipeStopReason : Set :=
  | Requested | PipeExited | WriteFailed | BufferExited | RuntimeInterrupted.

Inductive BufferPipeState : Set :=
  | PipeRunning (pid : option N)
  | PipeStopped (exit_code : option Z) (reason : BufferPipeStopReason).

Record BufferPipe : Type := mkBufferPipe {
  pipe_command : list rstring;
  pipe_state : BufferPipeState
}.

Inductive BufferState : Type :=
  | Created
  | Running (pid : option N)
  | Interrupted (last_known_pid : option N)
  | Exited (exit_code : option Z) (exited_at : Timestamp).

Inductive BufferAttachment : Set := Attached (node : NodeId) | Detached.

Inductive Placement : Type :=
  | Local (socket_path : option rstring)
  | Remote (host : rstring) (buffer_id : option BufferId).

Record Buffer : Type := mkBuffer {
  b_id : BufferId;
  b_title : rstring;
  b_command : list rstring;
  b_cwd : option rstring;
  b_env : gmap rstring rstring;
  b_user_options : gmap rstring rstring;
  b_foreground_command : option (list rstring);
  b_placement : Placement;
  b_state : BufferState;
  b_attachment : BufferAttachment;
  b_pty_size : PtySize;
  b_activity : ActivityState;
  b_last_snapshot_seq : N;
  b_kind : BufferKind;
  b_pipe : option BufferPipe;
  b_created_at : Timestamp;
  b_ever_attached : bool;
  b_runtime_bell_sequence : N;
  b_watched : bool
}.

Inductive RemainOnExit : Set := RoeOff | RoeOn | RoeFailed.

#[export] Instance HelperBufferScope_eq_dec : EqDecision HelperBufferScope.
Proof. solve_decision. Defined.
#[export] Instance HelperBuffer_eq_dec : EqDecision HelperBuffer.
Proof. solve_decision. Defined.
#[export] Instance BufferKind_eq_dec : EqDecision BufferKind.
Proof. solve_decision. Defined.
#[export] Instance BufferPipeStopReason_eq_dec : EqDecision BufferPipeStopReason.
Proof. solve_decision. Defined.
#[export] Instance BufferPipeState_eq_dec : EqDecision BufferPipeState.
Proof. solve_decision. Defined.
#[export] Instance BufferPipe_eq_dec : EqDecision BufferPipe.
Proof. solve_decision. Defined.
#[export] Instance BufferState_eq_dec : EqDecision BufferState.
Proof. solve_decision. Defined.
#[export] Instance BufferAttachment_eq_dec : EqDecision BufferAttachment.
Proof. solve_decision. Defined.
#[export] Instance Placement_eq_dec : EqDecision Placement.
Proof. solve_decision. Defined.

Definition REMAIN_ON_EXIT_OPTION : rstring := lit "remain-on-exit".

Definition RemainOnExit_parse (value : rstring) : RemainOnExit :=
  let v := to_ascii_lowercase (trim value) in
  if bool_decide (v = lit "on") then RoeOn
  else if bool_decide (v = lit "failed") then RoeFailed
  else RoeOff.

(** [Buffer::new]; [now] is [Timestamp::now()]. *)
Definition Buffer_new (now : Timestamp) (id : BufferId) (title : rstring)
    (command : list rstring) (cwd : option rstring) (env : gmap rstring rstring) : Buffer := {|
  b_id := id;
  b_title := title;
  b_command := command;
  b_cwd := cwd;
  b_env := env;
  b_user_options := ∅;
  b_foreground_command := None;
  b_placement := Local None;
  b_state := Created;
  b_attachment := Detached;
  b_pty_size := PtySize_new 80 24;
  b_activity := Idle;
  b_last_snapshot_seq := 0;
  b_kind := KPty;
  b_pipe := None;
  b_created_at := now;
  b_ever_attached := false;
  b_runtime_bell_sequence := 0;
  b_watched := false
|}.

Definition remains_on_exit (b : Buffer) (default_ : RemainOnExit) : bool :=
  let setting :=
    match b_user_options b !! REMAIN_ON_EXIT_OPTION with
    | Some value => RemainOnExit_parse value
    | None => default_
    end in
  match setting with
  | RoeOn => true
  | RoeFailed =>
      match b_state b with
      | Exited exit_code _ => bool_decide (exit_code ≠ Some 0%Z)
      | _ => true
      end
  | RoeOff => false
  end.

Definition Placement_host (p : Placement) : option rstring :=
  match p with Local _ => None | Remote host _ => Some host end.
Definition Placement_socket_path (p : Placement) : option rstring :=
  match p with Local socket_path => socket_path | Remote _ _ => None end.
Definition same_place (a b : Placement) : bool :=
  match a, b with
  | Local _, Local _ => true
  | _, _ => bool_decide (a = b)
  end.

(** [PartialEq for Buffer]: [foreground_command], [ever_attached],
    [runtime_bell_sequence] and [watched] are not compared. *)
Definition Buffer_eqb (a b : Buffer) : bool :=
  bool_decide (b_id a = b_id b)
  && bool_decide (b_title a = b_title b)
  && bool_decide (b_command a = b_command b)
  && bool_decide (b_cwd a = b_cwd b)
  && bool_decide (b_env a = b_env b)
  && bool_decide (b_user_options a = b_user_options b)
  && same_place (b_placement a) (b_placement b)
  && bool_decide (b_state a = b_state b)
  && bool_decide (b_attachment a = b_attachment b)
  && bool_decide (b_pty_size a = b_pty_size b)
  && bool_decide (b_activity a = b_activity b)
  && bool_decide (b_last_snapshot_seq a = b_last_snapshot_seq b)
  && bool_decide (b_kind a = b_kind b)
  && bool_decide (b_pipe a = b_pipe b)
  && bool_decide (b_created_at a = b_created_at b).

(** ** Layout nodes *)

Record BufferViewState : Set := mkBufferViewState {
  focused : bool;
  zoomed : bool;
  follow_output : bool;
  last_render_size : PtySize
}.

Definition BufferViewState_default : BufferViewState :=
  mkBufferViewState false false true (PtySize_new 80 24).

Record BufferViewNode : Set := mkBufferViewNode {
  v_id : NodeId;
  v_session_id : SessionId;
  v_parent : option NodeId;
  v_buffer_id : BufferId;
  v_view : BufferViewState
}.

Record SplitNode : Set := mkSplitNode {
  sp_id : NodeId;
  sp_session_id : SessionId;
  sp_parent : option NodeId;
  sp_direction : SplitDirection;
  sp_children : list NodeId;
  sp_sizes : list N;
  sp_last_focused_descendant : option NodeId
}.

Record TabEntry : Type := mkTabEntry {
  te_title : rstring;
  te_child : NodeId;
  te_synchronize_panes : bool
}.
Definition TabEntry_new (title : rstring) (child : NodeId) : TabEntry :=
  mkTabEntry title child false.

Record TabsNode : Type := mkTabsNode {
  t_id : NodeId;
  t_session_id : SessionId;
  t_parent : option NodeId;
  t_tabs : list TabEntry;
  t_active : nat;
  t_last_focused_descendant : option NodeId
}.

Inductive Node : Type :=
  | BufferView (node : BufferViewNode)
  | Split (node : SplitNode)
  | Tabs (node : TabsNode).

#[export] Instance BufferViewState_eq_dec : EqDecision BufferViewState.
Proof. solve_decision. Defined.
#[export] Instance BufferViewNode_eq_dec : EqDecision BufferViewNode.
Proof. solve_decision. Defined.
#[export] Instance SplitNode_eq_dec : EqDecision SplitNode.
Proof. solve_decision. Defined.
#[export] Instance TabEntry_eq_dec : EqDecision TabEntry.
Proof. solve_decision. Defined.
#[export] Instance TabsNode_eq_dec : EqDecision TabsNode.
Proof. solve_decision. Defined.
#[export] Instance Node_eq_dec : EqDecision Node.
Proof. solve_decision. Defined.

Definition node_id (n : Node) : NodeId :=
  match n with BufferView v => v_id v | Split s => sp_id s | Tabs t => t_id t end.
Definition node_session (n : Node) : SessionId :=
  match n with
  | BufferView v => v_session_id v | Split s => sp_session_id s | Tabs t => t_session_id t
  end.
Definition parent (n : Node) : option NodeId :=
  match n with BufferView v => v_parent v | Split s => sp_parent s | Tabs t => t_parent t end.

Definition node_set_parent (p : option NodeId) (n : Node) : Node :=
  match n with
  | BufferView v =>
      BufferView (mkBufferViewNode (v_id v) (v_session_id v) p (v_buffer_id v) (v_view v))
  | Split s =>
      Split (mkSplitNode (sp_id s) (sp_session_id s) p (sp_direction s) (sp_children s)
               (sp_sizes s) (sp_last_focused_descendant s))
  | Tabs t =>
      Tabs (mkTabsNode (t_id t) (t_session_id t) p (t_tabs t) (t_active t)
              (t_last_focused_descendant t))
  end.

Definition child_ids (n : Node) : list NodeId :=
  match n with
  | BufferView _ => []
  | Split s => sp_children s
  | Tabs t => te_child <$> t_tabs t
  end.

Definition last_focused_descendant (n : Node) : option NodeId :=
  match n with
  | BufferView v => if focused (v_view v) then Some (v_id v) else None
  | Split s => sp_last_focused_descendant s
  | Tabs t => t_last_focused_descendant t
  end.

Definition set_last_focused_descendant (leaf : option NodeId) (n : Node) : Node :=
  match n with
  | BufferView _ => n
  | Split s =>
      Split (mkSplitNode (sp_id s) (sp_session_id s) (sp_parent s) (sp_direction s)
               (sp_children s) (sp_sizes s) leaf)
  | Tabs t =>
      Tabs (mkTabsNode (t_id t) (t_session_id t) (t_parent t) (t_tabs t) (t_active t) leaf)
  end.

Definition as_buffer_view (n : Node) : option BufferViewNode :=
  match n with BufferView v => Some v | _ => None end.
Definition as_split (n : Node) : option SplitNode :=
  match n with Split s => Some s | _ => None end.
Definition as_tabs (n : Node) : option TabsNode :=
  match n with Tabs t => Some t | _ => None end.

Definition is_buffer_view (n : Node) : bool :=
  match n with BufferView _ => true | _ => false end.
Definition is_tabs (n : Node) : bool :=
  match n with Tabs _ => true | _ => false end.

(** ** Floating windows *)

Record FloatingWindow : Type := mkFloatingWindow {
  f_id : FloatingId;
  f_session_id : SessionId;
  f_root_node : NodeId;
  f_title : option rstring;
  f_geometry : FloatGeometry;
  f_focused : bool;
  f_visible : bool;
  f_close_on_empty : bool;
  f_border : bool;
  f_last_focused_leaf : option NodeId
}.
