(* ===== verification/Environment.v ===== *)
(** Session and global environments, [crates/embers-server/src/environment.rs]. *)

From S2P Require Import Prelude Core.

Record EnvironmentStore : Type := mkEnvironmentStore {
  global : gmap rstring rstring;
  env_sessions : gmap N (gmap rstring rstring)
}.

Definition EnvironmentStore_default : EnvironmentStore := mkEnvironmentStore ∅ ∅.

(** [str::contains(char)] *)
Definition contains_char (c : N) (s : rstring) : bool := existsb (N.eqb c) s.

(** ['='] is 61 and ['\0'] is 0. *)
Definition validate_name (name : rstring) : outcome unit :=
  if bool_decide (name = []) || contains_char 61 name || contains_char 0 name
  then Err InvalidInput else Ok ().

Definition env_get (store : EnvironmentStore) (session_id : option SessionId)
    : gmap rstring rstring :=
  match session_id with
  | None => global store
  | Some session_id => default ∅ (env_sessions store !! session_id)
  end.

(** [env.insert(name, value)] or [env.remove(name)]. *)
Definition apply_variable (name : rstring) (value : option rstring)
    (env : gmap rstring rstring) : gmap rstring rstring :=
  match value with Some value => <[name := value]> env | None => delete name env end.

Definition env_set (session_id : option SessionId) (name : rstring) (value : option rstring)
    (store : EnvironmentStore) : outcome EnvironmentStore :=
  validate_name name ;;
  ensure (negb match value with Some value => contains_char 0 value | None => false end)
    InvalidInput ;;
  Ok match session_id with
     | None => mkEnvironmentStore (apply_variable name value (global store)) (env_sessions store)
     | Some session_id =>
         let env := apply_variable name value (default ∅ (env_sessions store !! session_id)) in
         let sessions := <[session_id := env]> (env_sessions store) in
         mkEnvironmentStore (global store)
           (if bool_decide (env = ∅) then delete session_id sessions else sessions)
     end.

Definition for_new_buffer (store : EnvironmentStore) (session_id : option SessionId)
    : gmap rstring rstring :=
  match session_id ≫= λ session_id, env_sessions store !! session_id with
  | Some session => session ∪ global store
  | None => global store
  end.

Definition retain_sessions (is_live : SessionId → bool) (store : EnvironmentStore)
    : EnvironmentStore :=
  mkEnvironmentStore (global store)
    (filter (λ entry, is_live entry.1 = true) (env_sessions store)).

(** No session keeps an empty environment. *)
Definition env_wf (store : EnvironmentStore) : Prop :=
  ∀ session_id env, env_sessions store !! session_id = Some env → env ≠ ∅.
