(* ===== verification/State.v ===== *)
(** The server state of [crates/embers-server/src/state.rs]: its record, the
    accessors that report an unknown id, and the writes handlers are made of. *)

From S2P Require Import Prelude Core Model Environment.

Record ServerState : Type := mkServerState {
  sessions : gmap N Session;
  buffers : gmap N Buffer;
  nodes : gmap N Node;
  floating : gmap N FloatingWindow;
  environment : EnvironmentStore;
  last_viewport : option Size;
  last_pane_titles : bool;
  last_base_index : option N;
  remain_on_exit : RemainOnExit;
  session_ids : IdAllocator;
  buffer_ids : IdAllocator;
  node_ids : IdAllocator;
  floating_ids : IdAllocator
}.

(** [ServerState::new] *)
Definition ServerState_new : ServerState :=
  mkServerState ∅ ∅ ∅ ∅ EnvironmentStore_default None false None RoeOff 1%N 1%N 1%N 1%N.

Definition set_sessions (f : gmap N Session → gmap N Session) (st : ServerState) : ServerState :=
  mkServerState (f (sessions st)) (buffers st) (nodes st) (floating st) (environment st)
    (last_viewport st) (last_pane_titles st) (last_base_index st) (remain_on_exit st)
    (session_ids st) (buffer_ids st) (node_ids st) (floating_ids st).
Definition set_buffers (f : gmap N Buffer → gmap N Buffer) (st : ServerState) : ServerState :=
  mkServerState (sessions st) (f (buffers st)) (nodes st) (floating st) (environment st)
    (last_viewport st) (last_pane_titles st) (last_base_index st) (remain_on_exit st)
    (session_ids st) (buffer_ids st) (node_ids st) (floating_ids st).
Definition set_nodes (f : gmap N Node → gmap N Node) (st : ServerState) : ServerState :=
  mkServerState (sessions st) (buffers st) (f (nodes st)) (floating st) (environment st)
    (last_viewport st) (last_pane_titles st) (last_base_index st) (remain_on_exit st)
    (session_ids st) (buffer_ids st) (node_ids st) (floating_ids st).
Definition set_floating (f : gmap N FloatingWindow → gmap N FloatingWindow) (st : ServerState)
    : ServerState :=
  mkServerState (sessions st) (buffers st) (nodes st) (f (floating st)) (environment st)
    (last_viewport st) (last_pane_titles st) (last_base_index st) (remain_on_exit st)
    (session_ids st) (buffer_ids st) (node_ids st) (floating_ids st).
Definition set_last_base_index (b : option N) (st : ServerState) : ServerState :=
  mkServerState (sessions st) (buffers st) (nodes st) (floating st) (environment st)
    (last_viewport st) (last_pane_titles st) b (remain_on_exit st)
    (session_ids st) (buffer_ids st) (node_ids st) (floating_ids st).
Definition set_last_viewport (v : option Size) (p : bool) (st : ServerState) : ServerState :=
  mkServerState (sessions st) (buffers st) (nodes st) (floating st) (environment st)
    v p (last_base_index st) (remain_on_exit st)
    (session_ids st) (buffer_ids st) (node_ids st) (floating_ids st).

Abbreviation SM := (ST ServerState).

(** ** Allocation *)

Definition next_session_id : SM SessionId := λ st,
  let '(id, next) := IdAllocator_next (session_ids st) in
  (Ok id, mkServerState (sessions st) (buffers st) (nodes st) (floating st) (environment st)
    (last_viewport st) (last_pane_titles st) (last_base_index st) (remain_on_exit st)
    next (buffer_ids st) (node_ids st) (floating_ids st)).
Definition next_buffer_id : SM BufferId := λ st,
  let '(id, next) := IdAllocator_next (buffer_ids st) in
  (Ok id, mkServerState (sessions st) (buffers st) (nodes st) (floating st) (environment st)
    (last_viewport st) (last_pane_titles st) (last_base_index st) (remain_on_exit st)
    (session_ids st) next (node_ids st) (floating_ids st)).
Definition next_node_id : SM NodeId := λ st,
  let '(id, next) := IdAllocator_next (node_ids st) in
  (Ok id, mkServerState (sessions st) (buffers st) (nodes st) (floating st) (environment st)
    (last_viewport st) (last_pane_titles st) (last_base_index st) (remain_on_exit st)
    (session_ids st) (buffer_ids st) next (floating_ids st)).
Definition next_floating_id : SM FloatingId := λ st,
  let '(id, next) := IdAllocator_next (floating_ids st) in
  (Ok id, mkServerState (sessions st) (buffers st) (nodes st) (floating st) (environment st)
    (last_viewport st) (last_pane_titles st) (last_base_index st) (remain_on_exit st)
    (session_ids st) (buffer_ids st) (node_ids st) next).

(** ** Accessors: [session], [buffer], [node], [floating_window] and their
    [_mut] counterparts report an unknown id as [NotFound]. *)

Definition session (st : ServerState) (id : SessionId) : outcome Session :=
  ok_or (sessions st !! id) NotFound.
Definition buffer (st : ServerState) (id : BufferId) : outcome Buffer :=
  ok_or (buffers st !! id) NotFound.
Definition node (st : ServerState) (id : NodeId) : outcome Node :=
  ok_or (nodes st !! id) NotFound.
Definition floating_window (st : ServerState) (id : FloatingId) : outcome FloatingWindow :=
  ok_or (floating st !! id) NotFound.

(** [let x = self.session_mut(id)?; *x = f(x)] and its siblings. *)
Definition session_mut (id : SessionId) (f : Session → Session) : SM unit :=
  s ← reads (λ st, session st id);
  modify (set_sessions (insert id (f s))).
Definition buffer_mut (id : BufferId) (f : Buffer → Buffer) : SM unit :=
  b ← reads (λ st, buffer st id);
  modify (set_buffers (insert id (f b))).
Definition node_mut (id : NodeId) (f : Node → Node) : SM unit :=
  n ← reads (λ st, node st id);
  modify (set_nodes (insert id (f n))).
Definition floating_mut (id : FloatingId) (f : FloatingWindow → FloatingWindow) : SM unit :=
  w ← reads (λ st, floating_window st id);
  modify (set_floating (insert id (f w))).

Definition insert_node (id : NodeId) (n : Node) : SM unit :=
  modify (set_nodes (insert id n)).
Definition remove_node (id : NodeId) : SM unit := modify (set_nodes (delete id)).

(** ** Field updates *)

Definition s_set_name (name : rstring) (s : Session) : Session :=
  mkSession (s_id s) name (s_root_node s) (s_floating s) (s_focused_leaf s)
    (s_focused_floating s) (s_zoomed_node s) (s_viewport s) (s_pane_titles s) (s_base_index s)
    (s_focus_history s) (s_created_at s).
Definition s_set_root_node (root : NodeId) (s : Session) : Session :=
  mkSession (s_id s) (s_name s) root (s_floating s) (s_focused_leaf s)
    (s_focused_floating s) (s_zoomed_node s) (s_viewport s) (s_pane_titles s) (s_base_index s)
    (s_focus_history s) (s_created_at s).
Definition s_set_floating (l : list FloatingId) (s : Session) : Session :=
  mkSession (s_id s) (s_name s) (s_root_node s) l (s_focused_leaf s)
    (s_focused_floating s) (s_zoomed_node s) (s_viewport s) (s_pane_titles s) (s_base_index s)
    (s_focus_history s) (s_created_at s).
Definition s_set_focus (leaf : option NodeId) (window : option FloatingId) (s : Session)
    : Session :=
  mkSession (s_id s) (s_name s) (s_root_node s) (s_floating s) leaf
    window (s_zoomed_node s) (s_viewport s) (s_pane_titles s) (s_base_index s)
    (s_focus_history s) (s_created_at s).
Definition s_set_zoomed_node (z : option NodeId) (s : Session) : Session :=
  mkSession (s_id s) (s_name s) (s_root_node s) (s_floating s) (s_focused_leaf s)
    (s_focused_floating s) z (s_viewport s) (s_pane_titles s) (s_base_index s)
    (s_focus_history s) (s_created_at s).
Definition s_set_viewport (v : option Size) (titles : bool) (s : Session) : Session :=
  mkSession (s_id s) (s_name s) (s_root_node s) (s_floating s) (s_focused_leaf s)
    (s_focused_floating s) (s_zoomed_node s) v titles (s_base_index s)
    (s_focus_history s) (s_created_at s).
Definition s_set_base_index (b : option N) (s : Session) : Session :=
  mkSession (s_id s) (s_name s) (s_root_node s) (s_floating s) (s_focused_leaf s)
    (s_focused_floating s) (s_zoomed_node s) (s_viewport s) (s_pane_titles s) b
    (s_focus_history s) (s_created_at s).
Definition s_set_focus_history (h : list NodeId) (s : Session) : Session :=
  mkSession (s_id s) (s_name s) (s_root_node s) (s_floating s) (s_focused_leaf s)
    (s_focused_floating s) (s_zoomed_node s) (s_viewport s) (s_pane_titles s) (s_base_index s)
    h (s_created_at s).

Definition b_set_title (title : rstring) (b : Buffer) : Buffer :=
  mkBuffer (b_id b) title (b_command b) (b_cwd b) (b_env b) (b_user_options b)
    (b_foreground_command b) (b_placement b) (b_state b) (b_attachment b) (b_pty_size b)
    (b_activity b) (b_last_snapshot_seq b) (b_kind b) (b_pipe b) (b_created_at b)
    (b_ever_attached b) (b_runtime_bell_sequence b) (b_watched b).
Definition b_set_placement (p : Placement) (b : Buffer) : Buffer :=
  mkBuffer (b_id b) (b_title b) (b_command b) (b_cwd b) (b_env b) (b_user_options b)
    (b_foreground_command b) p (b_state b) (b_attachment b) (b_pty_size b)
    (b_activity b) (b_last_snapshot_seq b) (b_kind b) (b_pipe b) (b_created_at b)
    (b_ever_attached b) (b_runtime_bell_sequence b) (b_watched b).
Definition b_set_state (s : BufferState) (b : Buffer) : Buffer :=
  mkBuffer (b_id b) (b_title b) (b_command b) (b_cwd b) (b_env b) (b_user_options b)
    (b_foreground_command b) (b_placement b) s (b_attachment b) (b_pty_size b)
    (b_activity b) (b_last_snapshot_seq b) (b_kind b) (b_pipe b) (b_created_at b)
    (b_ever_attached b) (b_runtime_bell_sequence b) (b_watched b).
Definition b_set_attachment (a : BufferAttachment) (ever : bool) (b : Buffer) : Buffer :=
  mkBuffer (b_id b) (b_title b) (b_command b) (b_cwd b) (b_env b) (b_user_options b)
    (b_foreground_command b) (b_placement b) (b_state b) a (b_pty_size b)
    (b_activity b) (b_last_snapshot_seq b) (b_kind b) (b_pipe b) (b_created_at b)
    ever (b_runtime_bell_sequence b) (b_watched b).
Definition b_set_pty_size (sz : PtySize) (b : Buffer) : Buffer :=
  mkBuffer (b_id b) (b_title b) (b_command b) (b_cwd b) (b_env b) (b_user_options b)
    (b_foreground_command b) (b_placement b) (b_state b) (b_attachment b) sz
    (b_activity b) (b_last_snapshot_seq b) (b_kind b) (b_pipe b) (b_created_at b)
    (b_ever_attached b) (b_runtime_bell_sequence b) (b_watched b).
Definition b_set_activity (a : ActivityState) (seq : N) (b : Buffer) : Buffer :=
  mkBuffer (b_id b) (b_title b) (b_command b) (b_cwd b) (b_env b) (b_user_options b)
    (b_foreground_command b) (b_placement b) (b_state b) (b_attachment b) (b_pty_size b)
    a seq (b_kind b) (b_pipe b) (b_created_at b)
    (b_ever_attached b) (b_runtime_bell_sequence b) (b_watched b).
Definition b_set_helper (h : HelperBuffer) (b : Buffer) : Buffer :=
  mkBuffer (b_id b) (b_title b) (b_command b) (b_cwd b) (b_env b) (b_user_options b)
    (b_foreground_command b) (b_placement b) (b_state b) (b_attachment b) (b_pty_size b)
    (b_activity b) 1%N (KHelper h) (b_pipe b) (b_created_at b)
    (b_ever_attached b) (b_runtime_bell_sequence b) (b_watched b).

Definition v_set_buffer_id (id : BufferId) (v : BufferViewNode) : BufferViewNode :=
  mkBufferViewNode (v_id v) (v_session_id v) (v_parent v) id (v_view v).
Definition v_set_focused (f : bool) (v : BufferViewNode) : BufferViewNode :=
  mkBufferViewNode (v_id v) (v_session_id v) (v_parent v) (v_buffer_id v)
    (mkBufferViewState f (zoomed (v_view v)) (follow_output (v_view v))
       (last_render_size (v_view v))).
Definition v_set_render_size (sz : PtySize) (v : BufferViewNode) : BufferViewNode :=
  mkBufferViewNode (v_id v) (v_session_id v) (v_parent v) (v_buffer_id v)
    (mkBufferViewState (focused (v_view v)) (zoomed (v_view v)) (follow_output (v_view v)) sz).

Definition sp_set_children (cs : list NodeId) (sizes : list N) (s : SplitNode) : SplitNode :=
  mkSplitNode (sp_id s) (sp_session_id s) (sp_parent s) (sp_direction s) cs sizes
    (sp_last_focused_descendant s).
Definition sp_set_last (leaf : option NodeId) (s : SplitNode) : SplitNode :=
  mkSplitNode (sp_id s) (sp_session_id s) (sp_parent s) (sp_direction s) (sp_children s)
    (sp_sizes s) leaf.
Definition t_set_tabs (ts : list TabEntry) (active : nat) (t : TabsNode) : TabsNode :=
  mkTabsNode (t_id t) (t_session_id t) (t_parent t) ts active (t_last_focused_descendant t).
Definition t_set_last (leaf : option NodeId) (t : TabsNode) : TabsNode :=
  mkTabsNode (t_id t) (t_session_id t) (t_parent t) (t_tabs t) (t_active t) leaf.

Definition te_set_title (title : rstring) (e : TabEntry) : TabEntry :=
  mkTabEntry title (te_child e) (te_synchronize_panes e).
Definition te_set_child (child : NodeId) (e : TabEntry) : TabEntry :=
  mkTabEntry (te_title e) child (te_synchronize_panes e).
Definition te_set_synchronize (b : bool) (e : TabEntry) : TabEntry :=
  mkTabEntry (te_title e) (te_child e) b.

Definition f_set_geometry (g : FloatGeometry) (w : FloatingWindow) : FloatingWindow :=
  mkFloatingWindow (f_id w) (f_session_id w) (f_root_node w) (f_title w) g (f_focused w)
    (f_visible w) (f_close_on_empty w) (f_border w) (f_last_focused_leaf w).
Definition f_set_border (b : bool) (w : FloatingWindow) : FloatingWindow :=
  mkFloatingWindow (f_id w) (f_session_id w) (f_root_node w) (f_title w) (f_geometry w)
    (f_focused w) (f_visible w) (f_close_on_empty w) b (f_last_focused_leaf w).
Definition f_set_root_node (root : NodeId) (w : FloatingWindow) : FloatingWindow :=
  mkFloatingWindow (f_id w) (f_session_id w) root (f_title w) (f_geometry w) (f_focused w)
    (f_visible w) (f_close_on_empty w) (f_border w) (f_last_focused_leaf w).
Definition f_set_focus (focused : bool) (leaf : option NodeId) (w : FloatingWindow)
    : FloatingWindow :=
  mkFloatingWindow (f_id w) (f_session_id w) (f_root_node w) (f_title w) (f_geometry w) focused
    (f_visible w) (f_close_on_empty w) (f_border w) leaf.
