(* ===== verification/Queries.v ===== *)
(** The methods of [ServerState] taking [&self], [crates/embers-server/src/state.rs].

    The layout is a graph of node ids, so the methods that walk it recurse on a
    budget: [budget st] is one more than the number of nodes. A walk that
    exceeds it ends in [OutOfFuel]; on a forest it never does. *)

From S2P Require Import Prelude Core Model Environment State.

Definition budget (st : ServerState) : nat := S (size (nodes st)).

Definition root_node (st : ServerState) (sid : SessionId) : outcome NodeId :=
  s ← session st sid; Ok (s_root_node s).

Definition root_tabs (st : ServerState) (sid : SessionId) : outcome NodeId :=
  root ← root_node st sid;
  n ← node st root;
  if is_tabs n then Ok root else Err Conflict.

Definition node_parent (st : ServerState) (id : NodeId) : outcome (option NodeId) :=
  n ← node st id; Ok (parent n).
Definition node_session_id (st : ServerState) (id : NodeId) : outcome SessionId :=
  n ← node st id; Ok (node_session n).

Definition buffer_view_buffer_id (st : ServerState) (id : NodeId) : outcome BufferId :=
  n ← node st id;
  match n with BufferView v => Ok (v_buffer_id v) | _ => Err InvalidInput end.

(** ** Guards *)

Definition ensure_session_exists (st : ServerState) (sid : SessionId) : outcome unit :=
  session st sid ;; Ok ().
Definition ensure_node_belongs_to (st : ServerState) (id : NodeId) (sid : SessionId)
    : outcome unit :=
  n ← node st id; ensure (node_session n =? sid)%N Conflict.
Definition ensure_leaf (st : ServerState) (id : NodeId) : outcome unit :=
  n ← node st id; ensure (is_buffer_view n) InvalidInput.
Definition ensure_leaf_belongs_to (st : ServerState) (id : NodeId) (sid : SessionId)
    : outcome unit :=
  ensure_node_belongs_to st id sid ;; ensure_leaf st id.

Definition is_session_root (st : ServerState) (id : NodeId) : bool :=
  existsb (λ s, s_root_node s =? id)%N (values_of (sessions st)).
Definition floating_id_by_root (st : ServerState) (root : NodeId) : option FloatingId :=
  f_id <$> find_first (λ w, f_root_node w =? root)%N (values_of (floating st)).

(** ** Walks toward the leaves *)

Definition active_child (t : TabsNode) : option NodeId := te_child <$> (t_tabs t !! t_active t).
(** [tabs.tabs.get(tabs.active).or_else(|| tabs.tabs.first())] *)
Definition active_or_first_child (t : TabsNode) : option NodeId :=
  match t_tabs t !! t_active t with
  | Some tab => Some (te_child tab)
  | None => te_child <$> head (t_tabs t)
  end.

Fixpoint resolve_first_leaf_in (fuel : nat) (st : ServerState) (id : NodeId)
    : outcome (option NodeId) :=
  match fuel with
  | 0 => OutOfFuel
  | S fuel =>
      n ← node st id;
      match n with
      | BufferView _ => Ok (Some id)
      | Split s => first_some (resolve_first_leaf_in fuel st) (sp_children s)
      | Tabs t => first_some (λ tab, resolve_first_leaf_in fuel st (te_child tab)) (t_tabs t)
      end
  end.
Definition resolve_first_leaf (st : ServerState) (id : NodeId) : outcome (option NodeId) :=
  resolve_first_leaf_in (budget st) st id.

Fixpoint resolve_visible_leaf_in (fuel : nat) (st : ServerState) (id : NodeId)
    : outcome (option NodeId) :=
  match fuel with
  | 0 => OutOfFuel
  | S fuel =>
      n ← node st id;
      match n with
      | BufferView _ => Ok (Some id)
      | Split s => first_some (resolve_visible_leaf_in fuel st) (sp_children s)
      | Tabs t =>
          match active_or_first_child t with
          | Some child => resolve_visible_leaf_in fuel st child
          | None => Ok None
          end
      end
  end.
Definition resolve_visible_leaf (st : ServerState) (id : NodeId) : outcome (option NodeId) :=
  resolve_visible_leaf_in (budget st) st id.

Fixpoint collect_visible_leaf_ids (fuel : nat) (st : ServerState) (leaves : list NodeId)
    (id : NodeId) : outcome (list NodeId) :=
  match fuel with
  | 0 => OutOfFuel
  | S fuel =>
      n ← node st id;
      match n with
      | BufferView _ => Ok (leaves ++ [id])
      | Split s => fold_ok (collect_visible_leaf_ids fuel st) leaves (sp_children s)
      | Tabs t =>
          match active_or_first_child t with
          | Some child => collect_visible_leaf_ids fuel st leaves child
          | None => Ok leaves
          end
      end
  end.
Definition visible_leaf_ids (st : ServerState) (id : NodeId) : outcome (list NodeId) :=
  collect_visible_leaf_ids (budget st) st [] id.
Definition visible_session_leaves (st : ServerState) (sid : SessionId)
    : outcome (list NodeId) :=
  root ← root_node st sid; visible_leaf_ids st root.

Definition find_last_focused_descendant (st : ServerState) (id : NodeId)
    : outcome (option NodeId) :=
  n ← node st id; Ok (last_focused_descendant n).

Fixpoint collect_subtree_nodes (fuel : nat) (st : ServerState) (seen : gset N) (id : NodeId)
    : outcome (gset N) :=
  if bool_decide (id ∈ seen) then Ok seen
  else
    match fuel with
    | 0 => OutOfFuel
    | S fuel =>
        n ← node st id;
        fold_ok (collect_subtree_nodes fuel st) ({[id]} ∪ seen) (child_ids n)
    end.

Fixpoint subtree_contains_in (fuel : nat) (st : ServerState) (root needle : NodeId)
    : outcome bool :=
  if (root =? needle)%N then Ok true
  else
    match fuel with
    | 0 => OutOfFuel
    | S fuel =>
        n ← node st root;
        any_ok (λ child, subtree_contains_in fuel st child needle) (child_ids n)
    end.
Definition subtree_contains (st : ServerState) (root needle : NodeId) : outcome bool :=
  subtree_contains_in (budget st) st root needle.

Definition max_list_N (l : list N) : N := foldr N.max 0%N l.

Fixpoint visible_node_size_in (fuel : nat) (st : ServerState) (id : NodeId)
    : outcome (option PtySize) :=
  match fuel with
  | 0 => OutOfFuel
  | S fuel =>
      n ← node st id;
      match n with
      | BufferView v => Ok (Some (last_render_size (v_view v)))
      | Split s =>
          sizes ← collect (visible_node_size_in fuel st) (sp_children s);
          let child_sizes := omap (λ size, size) sizes in
          match child_sizes with
          | [] => Ok None
          | _ =>
              (* [u16::try_from(len - 1).unwrap_or(u16::MAX)] *)
              let divider_count := N.min u16_max (N.of_nat (length child_sizes - 1)) in
              let total (f : PtySize → N) :=
                sat_add16 (foldl (λ total sz, sat_add16 total (f sz)) 0%N child_sizes)
                  divider_count in
              let largest (f : PtySize → N) := max_list_N (f <$> child_sizes) in
              Ok (Some match sp_direction s with
                       | Horizontal => mkPtySize (largest cols) (total rows) 0 0
                       | Vertical => mkPtySize (total cols) (largest rows) 0 0
                       end)
          end
      | Tabs t =>
          match active_child t with
          | Some child => visible_node_size_in fuel st child
          | None => Ok None
          end
      end
  end.
Definition visible_node_size (st : ServerState) (id : NodeId) : outcome (option PtySize) :=
  visible_node_size_in (budget st) st id.

(** ** Walks toward the root *)

Fixpoint top_root_in (fuel : nat) (st : ServerState) (current : NodeId) : outcome NodeId :=
  match fuel with
  | 0 => OutOfFuel
  | S fuel =>
      p ← node_parent st current;
      match p with Some parent => top_root_in fuel st parent | None => Ok current end
  end.
Definition top_root_for_node (st : ServerState) (id : NodeId) : outcome NodeId :=
  top_root_in (budget st) st id.

Definition floating_id_for_node (st : ServerState) (id : NodeId) : outcome (option FloatingId) :=
  root ← top_root_for_node st id; Ok (floating_id_by_root st root).

(** The loop of [is_node_visible_from]. *)
Fixpoint shown_up_to (fuel : nat) (st : ServerState) (root current : NodeId) : outcome bool :=
  if (current =? root)%N then Ok true
  else
    match fuel with
    | 0 => OutOfFuel
    | S fuel =>
        p ← node_parent st current;
        parent ← ok_or p Conflict;
        n ← node st parent;
        match n with
        | Tabs t =>
            if bool_decide (active_child t = Some current) then shown_up_to fuel st root parent
            else Ok false
        | _ => shown_up_to fuel st root parent
        end
    end.
Definition is_node_visible_from (st : ServerState) (root id : NodeId) : outcome bool :=
  contained ← subtree_contains st root id;
  if negb contained then Ok false else shown_up_to (budget st) st root id.

Definition is_node_visible_in_session (st : ServerState) (sid : SessionId) (id : NodeId)
    : outcome bool :=
  ensure_node_belongs_to st id sid ;;
  root ← top_root_for_node st id;
  s ← session st sid;
  if (root =? s_root_node s)%N then is_node_visible_from st root id
  else
    match floating_id_by_root st root with
    | Some fid =>
        w ← floating_window st fid;
        if f_visible w then is_node_visible_from st root id else Ok false
    | None => Ok false
    end.

Definition ensure_node_visible_in_session (st : ServerState) (sid : SessionId) (id : NodeId)
    : outcome unit :=
  b ← is_node_visible_in_session st sid id; ensure b InvalidInput.

Fixpoint node_is_descendant_in (fuel : nat) (st : ServerState) (candidate ancestor : NodeId)
    : outcome bool :=
  if (candidate =? ancestor)%N then Ok true
  else
    match fuel with
    | 0 => OutOfFuel
    | S fuel =>
        p ← node_parent st candidate;
        match p with
        | Some parent => node_is_descendant_in fuel st parent ancestor
        | None => Ok false
        end
    end.
Definition node_is_descendant_of (st : ServerState) (id ancestor : NodeId) : outcome bool :=
  node_is_descendant_in (budget st) st id ancestor.

Fixpoint nearest_tabs_ancestor_in (fuel : nat) (st : ServerState) (id : option NodeId)
    : outcome (option NodeId) :=
  match id with
  | None => Ok None
  | Some current =>
      match fuel with
      | 0 => OutOfFuel
      | S fuel =>
          n ← node st current;
          if is_tabs n then Ok (Some current) else nearest_tabs_ancestor_in fuel st (parent n)
      end
  end.
Definition nearest_tabs_ancestor (st : ServerState) (id : option NodeId)
    : outcome (option NodeId) :=
  nearest_tabs_ancestor_in (budget st) st id.

Fixpoint window_of_leaf_in (fuel : nat) (st : ServerState) (root current : NodeId)
    : outcome (option NodeId) :=
  match fuel with
  | 0 => OutOfFuel
  | S fuel =>
      p ← node_parent st current;
      match p with
      | Some parent =>
          if (parent =? root)%N then Ok (Some current)
          else window_of_leaf_in fuel st root parent
      | None => Ok None
      end
  end.
Definition window_of_leaf (st : ServerState) (sid : SessionId) (leaf : NodeId)
    : outcome (option NodeId) :=
  s ← session st sid; window_of_leaf_in (budget st) st (s_root_node s) leaf.

(** ** Focus candidates *)

(** [last_focused_descendant] of a split, when it still exists and is visible
    from the split. *)
Definition visible_last_focused (st : ServerState) (id : NodeId) (last : option NodeId)
    : outcome (option NodeId) :=
  match last with
  | Some leaf =>
      if bool_decide (is_Some (nodes st !! leaf)) then
        visible ← is_node_visible_from st id leaf;
        Ok (if visible : bool then Some leaf else None)
      else Ok None
  | None => Ok None
  end.

Fixpoint resolve_focus_candidate_in (fuel : nat) (st : ServerState) (id : NodeId)
    : outcome (option NodeId) :=
  match fuel with
  | 0 => OutOfFuel
  | S fuel =>
      n ← node st id;
      match n with
      | BufferView _ => Ok (Some id)
      | Split s =>
          last ← visible_last_focused st id (sp_last_focused_descendant s);
          match last with
          | Some leaf => Ok (Some leaf)
          | None => first_some (resolve_focus_candidate_in fuel st) (sp_children s)
          end
      | Tabs t =>
          match active_or_first_child t with
          | Some child => resolve_focus_candidate_in fuel st child
          | None => Ok None
          end
      end
  end.
Definition resolve_focus_candidate (st : ServerState) (id : NodeId) : outcome (option NodeId) :=
  resolve_focus_candidate_in (budget st) st id.

Definition resolve_floating_focus (st : ServerState) (fid : FloatingId)
    : outcome (option NodeId) :=
  w ← floating_window st fid;
  if negb (f_visible w) then Ok None
  else
    last ← match f_last_focused_leaf w with
           | Some leaf =>
               if bool_decide (is_Some (nodes st !! leaf)) then
                 root ← top_root_for_node st leaf;
                 if (root =? f_root_node w)%N then
                   visible ← is_node_visible_from st (f_root_node w) leaf;
                   Ok (if visible : bool then Some leaf else None)
                 else Ok None
               else Ok None
           | None => Ok None
           end;
    match last with
    | Some leaf => Ok (Some leaf)
    | None => resolve_focus_candidate st (f_root_node w)
    end.

Definition default_tab_title (st : ServerState) (id : NodeId) : outcome rstring :=
  candidate ← resolve_focus_candidate st id;
  match candidate with
  | Some leaf =>
      bid ← buffer_view_buffer_id st leaf;
      b ← buffer st bid;
      Ok (b_title b)
  | None => Ok (lit "window")
  end.

Definition shared_parent (st : ServerState) (first second : NodeId) : outcome NodeId :=
  ensure (negb (first =? second)%N) InvalidInput ;;
  p1 ← node_parent st first;
  first_parent ← ok_or p1 InvalidInput;
  p2 ← node_parent st second;
  second_parent ← ok_or p2 InvalidInput;
  ensure (first_parent =? second_parent)%N Conflict ;;
  Ok first_parent.

Definition ensure_leaf_is_focusable (st : ServerState) (sid : SessionId) (leaf : NodeId)
    : outcome unit :=
  root ← top_root_for_node st leaf;
  s ← session st sid;
  if (root =? s_root_node s)%N then Ok ()
  else
    fid ← ok_or (floating_id_by_root st root) InvalidInput;
    w ← floating_window st fid;
    ensure (f_visible w) InvalidInput.

(** ** Sessions and their panes *)

Definition session_node_ids (st : ServerState) (sid : SessionId) : outcome (list NodeId) :=
  s ← session st sid;
  seen ← collect_subtree_nodes (budget st) st ∅ (s_root_node s);
  seen ← fold_ok (λ seen fid,
      w ← floating_window st fid;
      collect_subtree_nodes (budget st) st seen (f_root_node w)) seen (s_floating s);
  Ok (set_to_sorted seen).

Definition session_has_panes (st : ServerState) (sid : SessionId) : outcome bool :=
  ids ← ok_option (session_node_ids st sid);
  Ok match ids with
     | Some ids =>
         existsb (λ id, match nodes st !! id with
                        | Some (BufferView _) => true
                        | _ => false
                        end) ids
     | None => false
     end.

Definition sessions_with_panes (st : ServerState) : outcome (list SessionId) :=
  flags ← collect (λ sid : SessionId, (b ← session_has_panes st sid; Ok (sid, b)) : outcome _)
            (keys_of (sessions st));
  Ok (omap (M:=list) (λ p : SessionId * bool, if p.2 then Some p.1 else None) flags).

Definition session_buffer_ids (st : ServerState) (sid : SessionId) : outcome (list BufferId) :=
  ids ← session_node_ids st sid;
  seen ← fold_ok (λ seen id,
      n ← node st id;
      Ok match n with BufferView v => {[v_buffer_id v]} ∪ seen | _ => seen end)
    (∅ : gset N) ids;
  Ok (set_to_sorted seen).

Definition session_showing_buffer (st : ServerState) (bid : BufferId)
    : outcome (option SessionId) :=
  match buffers st !! bid with
  | Some b =>
      match b_attachment b with
      | Attached id =>
          match nodes st !! id with
          | Some n =>
              shown ← ok_option (is_node_visible_in_session st (node_session n) id);
              Ok match shown with
                 | Some true => Some (node_session n)
                 | _ => None
                 end
          | None => Ok None
          end
      | Detached => Ok None
      end
  | None => Ok None
  end.

(** [last_pane]: the newest entry of the focus history that is another pane of
    the focused pane's window. *)
Definition last_pane (st : ServerState) (sid : SessionId) : outcome (option NodeId) :=
  s ← session st sid;
  match s_focused_leaf s with
  | None => Ok None
  | Some focused =>
      window ← window_of_leaf st sid focused;
      match window with
      | None => Ok None
      | Some window =>
          first_some (λ candidate,
              if (candidate =? focused)%N
                 || negb match nodes st !! candidate with
                         | Some (BufferView _) => true
                         | _ => false
                         end
              then Ok None
              else
                w ← window_of_leaf st sid candidate;
                Ok (if bool_decide (w = Some window) then Some candidate else None))
            (reverse (s_focus_history s))
      end
  end.

(** ** Default popup geometry *)

Definition DEFAULT_FLOATING_WIDTH_PADDING : N := 8.
Definition DEFAULT_FLOATING_HEIGHT_PADDING : N := 4.
Definition DEFAULT_FLOATING_MIN_WIDTH : N := 40.
Definition DEFAULT_FLOATING_MAX_WIDTH : N := 120.
Definition DEFAULT_FLOATING_MIN_HEIGHT : N := 10.
Definition DEFAULT_FLOATING_MAX_HEIGHT : N := 40.

Definition default_floating_dimension (total padding min_ max_ : N) : N :=
  let available := N.max (total - padding) 1 in
  N.max (N.min available max_) (N.min min_ (N.max total 1)).

(** The arguments of [Option::or] are evaluated whether or not they are used,
    so an error in one is returned either way. *)
Definition default_floating_geometry (st : ServerState) (sid : SessionId)
    : outcome FloatGeometry :=
  s ← session st sid;
  visible ← resolve_visible_leaf st (s_root_node s);
  first ← resolve_first_leaf st (s_root_node s);
  let anchor_leaf :=
    match s_focused_leaf s with
    | Some leaf => Some leaf
    | None => match visible with Some leaf => Some leaf | None => first end
    end in
  drawn ← visible_node_size st (s_root_node s);
  anchor_size ← match anchor_leaf with
                | Some leaf =>
                    n ← node st leaf;
                    match n with
                    | BufferView v => Ok (Some (last_render_size (v_view v)))
                    | _ => Err Internal
                    end
                | None => Ok None
                end;
  let sz :=
    match drawn with
    | Some sz => sz
    | None => default (PtySize_new 80 24) anchor_size
    end in
  let w := default_floating_dimension (cols sz) DEFAULT_FLOATING_WIDTH_PADDING
             DEFAULT_FLOATING_MIN_WIDTH DEFAULT_FLOATING_MAX_WIDTH in
  let h := default_floating_dimension (rows sz) DEFAULT_FLOATING_HEIGHT_PADDING
             DEFAULT_FLOATING_MIN_HEIGHT DEFAULT_FLOATING_MAX_HEIGHT in
  Ok (mkFloatGeometry ((cols sz - w) / 2) ((rows sz - h) / 2) w h).
