(* ===== verification/Buffers.v ===== *)
(** Buffer records, [crates/embers-server/src/state.rs]: creating and removing
    them, their lifecycle, and attaching them to views. *)

From S2P Require Import Prelude Core Model Environment State Queries.

(** ** Creation and removal *)

Definition create_buffer_with_env (now : Timestamp) (title : rstring) (command : list rstring)
    (cwd : option rstring) (env : gmap rstring rstring) : SM BufferId :=
  id ← next_buffer_id;
  modify (set_buffers (insert id (Buffer_new now id title command cwd env))) ;;
  mret id.

Definition create_buffer (now : Timestamp) (title : rstring) (command : list rstring)
    (cwd : option rstring) : SM BufferId :=
  create_buffer_with_env now title command cwd ∅.

Definition create_helper_buffer (now : Timestamp) (title : rstring) (source : BufferId)
    (scope : HelperBufferScope) (cwd : option rstring) (lines : list rstring) : SM BufferId :=
  src ← reads (λ st, buffer st source);
  id ← next_buffer_id;
  let b := b_set_helper (mkHelperBuffer source scope lines)
             (b_set_pty_size (b_pty_size src) (Buffer_new now id title [] cwd ∅)) in
  modify (set_buffers (insert id b)) ;;
  mret id.

Definition remove_buffer (id : BufferId) : SM Buffer :=
  b ← reads (λ st, buffer st id);
  if bool_decide (b_attachment b = Detached) then
    modify (set_buffers (delete id)) ;; mret b
  else throw Conflict.

(** ** Lifecycle *)

Definition is_exited (s : BufferState) : bool :=
  match s with Exited _ _ => true | _ => false end.

Definition mark_buffer_running (id : BufferId) (pid : option N) : SM unit :=
  b ← reads (λ st, buffer st id);
  if is_exited (b_state b) then throw Conflict
  else buffer_mut id (b_set_state (Running pid)).

Definition set_buffer_placement (id : BufferId) (p : Placement) : SM unit :=
  buffer_mut id (b_set_placement p).

Definition mark_buffer_interrupted (id : BufferId) (pid : option N) : SM unit :=
  b ← reads (λ st, buffer st id);
  if is_exited (b_state b) then mret ()
  else buffer_mut id (b_set_state (Interrupted pid)).

Definition mark_buffer_exited (now : Timestamp) (id : BufferId) (exit_code : option Z) : SM unit :=
  buffer_mut id (b_set_state (Exited exit_code now)).

Definition interrupted_state (s : BufferState) : BufferState :=
  match s with
  | Exited exit_code exited_at => Exited exit_code exited_at
  | Running pid => Interrupted pid
  | Interrupted pid => Interrupted pid
  | Created => Interrupted None
  end.
Definition interrupt_unrecoverable_buffers : SM unit :=
  modify (set_buffers (fmap (λ b, b_set_state (interrupted_state (b_state b)) b))).

Definition set_buffer_size (id : BufferId) (sz : PtySize) : SM unit :=
  buffer_mut id (b_set_pty_size sz).

Definition sync_buffer_view_size (id : BufferId) : SM (option SessionId) :=
  b ← reads (λ st, buffer st id);
  match b_attachment b with
  | Detached => mret None
  | Attached view =>
      let sz := b_pty_size b in
      n ← reads (λ st, node st view);
      match n with
      | BufferView v =>
          if bool_decide (last_render_size (v_view v) ≠ sz) then
            insert_node view (BufferView (v_set_render_size sz v)) ;;
            mret (Some (v_session_id v))
          else mret None
      | _ => mret None
      end
  end.

Definition note_buffer_output (id : BufferId) : SM N :=
  b ← reads (λ st, buffer st id);
  let seq := sat_add64 (b_last_snapshot_seq b) 1 in
  buffer_mut id (b_set_activity Activity seq) ;;
  mret seq.

Definition set_buffer_title (id : BufferId) (title : rstring) : SM unit :=
  buffer_mut id (b_set_title title).

Definition set_buffer_activity (id : BufferId) (a : ActivityState) : SM unit :=
  buffer_mut id (λ b, b_set_activity a (b_last_snapshot_seq b) b).

(** ** Attachment *)

Definition set_buffer_attached (id : BufferId) (view : NodeId) : SM unit :=
  buffer_mut id (b_set_attachment (Attached view) true).

(** Detach [id] if it is attached to [view]; a missing buffer is left alone. *)
Definition detach_if_attached (id : BufferId) (view : NodeId) (m : gmap N Buffer) : gmap N Buffer :=
  match m !! id with
  | Some b =>
      if bool_decide (b_attachment b = Attached view)
      then <[id := b_set_attachment Detached (b_ever_attached b) b]> m
      else m
  | None => m
  end.

Definition detach_buffer_raw (id : BufferId) : SM unit :=
  buffer_mut id (λ b, b_set_attachment Detached (b_ever_attached b) b).

Definition detach_buffer_if_attached_to (id : BufferId) (view : NodeId) : SM unit :=
  b ← gets (λ st, buffers st !! id);
  match b with
  | Some b => when (bool_decide (b_attachment b = Attached view)) (detach_buffer_raw id)
  | None => mret ()
  end.

Definition attach_buffer (bid : BufferId) (id : NodeId) : SM unit :=
  b ← reads (λ st, buffer st bid);
  match b_attachment b with
  | Attached existing =>
      if (existing =? id)%N then mret () else throw Conflict
  | Detached => mret ()
  end ;;
  current ← reads (λ st, buffer_view_buffer_id st id);
  when (negb (current =? bid)%N)
    (modify (set_buffers (detach_if_attached current id)) ;;
     n ← reads (λ st, node st id);
     match n with
     | BufferView v => insert_node id (BufferView (v_set_buffer_id bid v))
     | _ => throw InvalidInput
     end) ;;
  set_buffer_attached bid id.

Definition create_unattached_buffer_view (sid : SessionId) (bid : BufferId) : SM NodeId :=
  reads (λ st, ensure_session_exists st sid) ;;
  b ← reads (λ st, buffer st bid);
  id ← next_node_id;
  insert_node id (BufferView {|
    v_id := id;
    v_session_id := sid;
    v_parent := None;
    v_buffer_id := bid;
    v_view := mkBufferViewState false false true (b_pty_size b)
  |}) ;;
  mret id.

Definition create_buffer_view (sid : SessionId) (bid : BufferId) : SM NodeId :=
  id ← create_unattached_buffer_view sid bid;
  r ← attempt (attach_buffer bid id);
  match r with
  | inl _ => mret id
  | inr e => remove_node id ;; throw e
  end.

(** ** Activity *)

Definition acknowledge_shown_activity (sid : SessionId) : SM bool :=
  s ← reads (λ st, session st sid);
  leaves ← reads (λ st, collect_visible_leaf_ids (budget st) st [] (s_root_node s));
  leaves ← reads (λ st, fold_ok (λ leaves fid,
      match floating st !! fid with
      | Some w =>
          if f_visible w then collect_visible_leaf_ids (budget st) st leaves (f_root_node w)
          else Ok leaves
      | None => Ok leaves
      end) leaves (s_floating s));
  fold_st (λ changed leaf,
      bid ← reads (λ st, buffer_view_buffer_id st leaf);
      b ← reads (λ st, buffer st bid);
      if bool_decide (b_activity b ≠ Idle) then set_buffer_activity bid Idle ;; mret true
      else mret changed) false leaves.
