(* ===== verification/Focus.v ===== *)
(** Focus and zoom, [crates/embers-server/src/state.rs]. *)

From S2P Require Import Prelude Core Model Environment State Queries Buffers.

Definition set_leaf_focus (leaf : NodeId) (f : bool) : SM unit :=
  n ← reads (λ st, node st leaf);
  match n with
  | BufferView v => insert_node leaf (BufferView (v_set_focused f v))
  | _ => throw InvalidInput
  end.

(** [for id in ids { if let Some(w) = self.floating.get_mut(&id) { w = f(w) } }] *)
Definition update_windows (f : FloatingId → FloatingWindow → FloatingWindow)
    (ids : list FloatingId) (m : gmap N FloatingWindow) : gmap N FloatingWindow :=
  foldl (λ m id, match m !! id with Some w => <[id := f id w]> m | None => m end) m ids.

Definition clear_session_focus (sid : SessionId) : SM unit :=
  s ← reads (λ st, session st sid);
  match s_focused_leaf s with
  | Some previous => ignore (set_leaf_focus previous false)
  | None => mret ()
  end ;;
  s ← reads (λ st, session st sid);
  modify (set_floating
    (update_windows (λ _ w, f_set_focus false (f_last_focused_leaf w) w) (s_floating s))) ;;
  session_mut sid (s_set_focus None None).

Definition FOCUS_HISTORY_LIMIT : nat := 64.

(** The history with [leaf] as its newest entry, without repeats and without
    nodes that no longer exist, cut to the newest [FOCUS_HISTORY_LIMIT]. *)
Definition push_history (exists_ : NodeId → bool) (leaf : NodeId) (history : list NodeId)
    : list NodeId :=
  let kept := base.filter (λ entry, (negb (entry =? leaf)%N && exists_ entry) = true) history in
  let pushed := kept ++ [leaf] in
  drop (length pushed - FOCUS_HISTORY_LIMIT) pushed.

Definition remember_focus (sid : SessionId) (leaf : NodeId) : SM unit :=
  s ← reads (λ st, session st sid);
  exists_ ← gets (λ st id, bool_decide (is_Some (nodes st !! id)));
  session_mut sid (s_set_focus_history (push_history exists_ leaf (s_focus_history s))).

(** What [focus_leaf] writes to a container on the way up from [child]. *)
Definition mark_focused (leaf child : NodeId) (n : Node) : Node :=
  match n with
  | BufferView _ => n
  | Split s => Split (sp_set_last (Some leaf) s)
  | Tabs t =>
      Tabs (t_set_last (Some leaf)
        match position (λ tab, te_child tab =? child)%N (t_tabs t) with
        | Some index => t_set_tabs (t_tabs t) index t
        | None => t
        end)
  end.

(** [while let Some(parent) = self.node_parent(child)? { .. child = parent; }] *)
Fixpoint mark_focus_path (fuel : nat) (leaf child : NodeId) : SM unit :=
  match fuel with
  | 0 => out_of_fuel
  | S fuel =>
      p ← reads (λ st, node_parent st child);
      match p with
      | Some parent =>
          node_mut parent (mark_focused leaf child) ;;
          mark_focus_path fuel leaf parent
      | None => mret ()
      end
  end.

Definition focus_leaf (sid : SessionId) (leaf : NodeId) : SM unit :=
  reads (λ st, ensure_leaf_belongs_to st leaf sid) ;;
  reads (λ st, ensure_leaf_is_focusable st sid leaf) ;;
  bid ← reads (λ st, buffer_view_buffer_id st leaf);
  s ← reads (λ st, session st sid);
  let previous := s_focused_leaf s in
  clear_session_focus sid ;;
  set_leaf_focus leaf true ;;
  match previous with
  | Some previous => when (negb (previous =? leaf)%N) (remember_focus sid previous)
  | None => mret ()
  end ;;
  owner ← reads (λ st, floating_id_for_node st leaf);
  session_mut sid (s_set_focus (Some leaf) owner) ;;
  s ← reads (λ st, session st sid);
  modify (set_floating (update_windows (λ fid w,
      let focused := bool_decide (Some fid = owner) in
      f_set_focus focused (if focused then Some leaf else f_last_focused_leaf w) w)
    (s_floating s))) ;;
  fuel ← gets budget;
  mark_focus_path fuel leaf leaf ;;
  set_buffer_activity bid Idle ;;
  acknowledge_shown_activity sid ;;
  mret ().

Fixpoint mark_pane_path (fuel : nat) (leaf window child : NodeId) : SM unit :=
  if (child =? window)%N then mret ()
  else
    match fuel with
    | 0 => out_of_fuel
    | S fuel =>
        p ← reads (λ st, node_parent st child);
        parent ← lift (ok_or p Conflict);
        node_mut parent (mark_focused leaf child) ;;
        mark_pane_path fuel leaf window parent
    end.

Definition select_pane (sid : SessionId) (leaf : NodeId) : SM unit :=
  reads (λ st, ensure_leaf_belongs_to st leaf sid) ;;
  reads (λ st, ensure_leaf_is_focusable st sid leaf) ;;
  s ← reads (λ st, session st sid);
  let root := s_root_node s in
  window ← reads (λ st, window_of_leaf st sid leaf);
  hidden ← match window with
           | Some window =>
               if negb (window =? root)%N then
                 visible ← reads (λ st, is_node_visible_from st root window);
                 mret (if visible : bool then None else Some window)
               else mret None
           | None => mret None
           end;
  match hidden with
  | Some window =>
      fuel ← gets budget;
      mark_pane_path fuel leaf window leaf
  | None => focus_leaf sid leaf
  end.

Definition show_node (sid : SessionId) (id : NodeId) : SM unit :=
  reads (λ st, ensure_node_belongs_to st id sid) ;;
  candidate ← reads (λ st, resolve_focus_candidate st id);
  leaf ← lift (ok_or candidate InvalidInput);
  focus_leaf sid leaf.

Definition focus_last_pane (sid : SessionId) : SM unit :=
  leaf ← reads (λ st, last_pane st sid);
  match leaf with
  | Some leaf => focus_leaf sid leaf
  | None => throw NotFound
  end.

Definition focus_floating (fid : FloatingId) : SM unit :=
  w ← reads (λ st, floating_window st fid);
  leaf ← reads (λ st, resolve_floating_focus st fid);
  match leaf with
  | Some leaf => focus_leaf (f_session_id w) leaf
  | None => throw NotFound
  end.

(** ** Healing the focus after the layout changed *)

Definition heal_focus (sid : SessionId) : SM unit :=
  s ← reads (λ st, session st sid);
  in_popup ← reads (λ st,
    match s_focused_floating s with
    | Some fid =>
        if bool_decide (is_Some (floating st !! fid)) then resolve_floating_focus st fid
        else Ok None
    | None => Ok None
    end);
  match in_popup with
  | Some leaf => focus_leaf sid leaf
  | None =>
      root ← reads (λ st, root_node st sid);
      in_root ← reads (λ st, resolve_focus_candidate st root);
      match in_root with
      | Some leaf => focus_leaf sid leaf
      | None =>
          s ← reads (λ st, session st sid);
          other ← reads (λ st, first_some (resolve_floating_focus st) (s_floating s));
          match other with
          | Some leaf => focus_leaf sid leaf
          | None => clear_session_focus sid
          end
      end
  end.

(** ** Zoom *)

Definition refocus_zoomed_subtree (sid : SessionId) (id : NodeId) : SM unit :=
  reads (λ st, ensure_node_visible_in_session st sid id) ;;
  s ← reads (λ st, session st sid);
  inside ← reads (λ st,
    match s_focused_leaf s with
    | Some leaf => node_is_descendant_of st leaf id
    | None => Ok false
    end);
  if inside : bool then mret ()
  else
    candidate ← reads (λ st, resolve_focus_candidate st id);
    match candidate with
    | Some leaf => focus_leaf sid leaf
    | None => clear_session_focus sid
    end.

Definition zoom_node (id : NodeId) : SM unit :=
  sid ← reads (λ st, node_session_id st id);
  reads (λ st, ensure_node_visible_in_session st sid id) ;;
  refocus_zoomed_subtree sid id ;;
  session_mut sid (s_set_zoomed_node (Some id)).

Definition unzoom_session (sid : SessionId) : SM unit :=
  session_mut sid (s_set_zoomed_node None).

Definition toggle_zoom_node (id : NodeId) : SM unit :=
  sid ← reads (λ st, node_session_id st id);
  s ← reads (λ st, session st sid);
  if bool_decide (s_zoomed_node s = Some id) then
    session_mut sid (s_set_zoomed_node None)
  else
    reads (λ st, ensure_node_visible_in_session st sid id) ;;
    refocus_zoomed_subtree sid id ;;
    session_mut sid (s_set_zoomed_node (Some id)).

Definition normalize_zoomed_node (sid : SessionId) : SM unit :=
  s ← reads (λ st, session st sid);
  keep ← reads (λ st,
    match s_zoomed_node s with
    | Some id =>
        match nodes st !! id with
        | Some n =>
            if (node_session n =? sid)%N then
              visible ← is_node_visible_in_session st sid id;
              Ok (if visible : bool then Some id else None)
            else Ok None
        | None => Ok None
        end
    | None => Ok None
    end);
  session_mut sid (s_set_zoomed_node keep).
