(* ===== verification/Tree.v ===== *)
(** The tree surgery of [crates/embers-server/src/state.rs]: linking and
    unlinking nodes, snapshots of a node's owner and rolling back to one, and
    the normalization that runs after a node was removed. *)

From S2P Require Import Prelude Core Model Environment State Queries Buffers Focus.

Definition set_parent (id : NodeId) (p : option NodeId) : SM unit :=
  node_mut id (node_set_parent p).

(** [split.children[index] = new], or the tab holding [old] pointed at [new];
    [None] when [old] is not a child. *)
Definition replace_child_in (old new : NodeId) (n : Node) : option Node :=
  match n with
  | BufferView _ => None
  | Split s =>
      index ← position (λ child, child =? old)%N (sp_children s);
      Some (Split (sp_set_children (<[index := new]> (sp_children s)) (sp_sizes s) s))
  | Tabs t =>
      index ← position (λ tab, te_child tab =? old)%N (t_tabs t);
      Some (Tabs (t_set_tabs
        (update_first (λ tab, te_child tab =? old)%N (te_set_child new) (t_tabs t))
        (t_active t) t))
  end.

Definition replace_child (parent_id old new : NodeId) : SM unit :=
  sid ← reads (λ st, node_session_id st parent_id);
  reads (λ st, ensure_node_belongs_to st old sid) ;;
  reads (λ st, ensure_node_belongs_to st new sid) ;;
  n ← reads (λ st, node st parent_id);
  match n with
  | BufferView _ => throw InvalidInput
  | _ =>
      match replace_child_in old new n with
      | Some n' => insert_node parent_id n'
      | None => throw NotFound
      end
  end ;;
  set_parent old None ;;
  set_parent new (Some parent_id).

(** The active index after the tab at [index] is gone; [len] tabs are left. *)
Definition active_after_removal (active index len : nat) : nat :=
  if len =? 0 then 0
  else if index <? active then active - 1
  else if len <=? active then len - 1
  else active.

Definition remove_child_in (child : NodeId) (n : Node) : option Node :=
  match n with
  | BufferView _ => None
  | Split s =>
      index ← position (λ c, c =? child)%N (sp_children s);
      (* the size is only removed when there is one at [index] *)
      Some (Split (sp_set_children (delete index (sp_children s))
                     (delete index (sp_sizes s)) s))
  | Tabs t =>
      index ← position (λ tab, te_child tab =? child)%N (t_tabs t);
      let tabs := delete index (t_tabs t) in
      Some (Tabs (t_set_tabs tabs (active_after_removal (t_active t) index (length tabs)) t))
  end.

Definition remove_child (parent_id child : NodeId) : SM unit :=
  n ← reads (λ st, node st parent_id);
  match n with
  | BufferView _ => throw InvalidInput
  | _ =>
      match remove_child_in child n with
      | Some n' => insert_node parent_id n'
      | None => throw NotFound
      end
  end ;;
  set_parent child None.

Definition remove_floating_window (fid : FloatingId) : SM FloatingWindow :=
  w ← reads (λ st, floating_window st fid);
  modify (set_floating (delete fid)) ;;
  modify (set_sessions (alter (λ s,
    let s := s_set_floating (base.filter (λ id, id ≠ fid) (s_floating s)) s in
    if bool_decide (s_focused_floating s = Some fid)
    then s_set_focus (s_focused_leaf s) None s else s) (f_session_id w))) ;;
  mret w.

Fixpoint remove_subtree_nodes_in (fuel : nat) (id : NodeId) : SM unit :=
  match fuel with
  | 0 => out_of_fuel
  | S fuel =>
      n ← reads (λ st, node st id);
      for_each (remove_subtree_nodes_in fuel) (child_ids n) ;;
      n ← reads (λ st, node st id);
      match n with
      | BufferView v => detach_buffer_if_attached_to (v_buffer_id v) (v_id v)
      | _ => mret ()
      end ;;
      remove_node id
  end.
Definition remove_subtree_nodes (id : NodeId) : SM unit :=
  fuel ← gets budget; remove_subtree_nodes_in fuel id.

(** ** Owners: a parent container, a session root or a floating window *)

Definition repoint_owner_reference (sid : SessionId) (owner : option NodeId) (old new : NodeId)
    : SM unit :=
  match owner with
  | Some parent_id =>
      n ← reads (λ st, node st parent_id);
      match n with
      | BufferView _ => throw InvalidInput
      | _ =>
          match replace_child_in old new n with
          | Some n' => insert_node parent_id n'
          | None => throw NotFound
          end
      end ;;
      set_parent new (Some parent_id)
  | None =>
      root ← gets (λ st, is_session_root st old);
      if root : bool then
        session_mut sid (s_set_root_node new) ;;
        set_parent new None
      else
        fid ← gets (λ st, floating_id_by_root st old);
        match fid with
        | Some fid =>
            floating_mut fid (f_set_root_node new) ;;
            set_parent new None
        | None => throw Conflict
        end
  end.

Definition replace_node_in_owner (old new : NodeId) : SM unit :=
  sid ← reads (λ st, node_session_id st old);
  owner ← reads (λ st, node_parent st old);
  replacement_focus ← reads (λ st, resolve_focus_candidate st new);
  match owner with
  | Some parent_id =>
      p ← reads (λ st, node st parent_id);
      should_update_focus ← reads (λ st,
        match last_focused_descendant p with
        | Some leaf =>
            if bool_decide (is_Some (nodes st !! leaf)) then subtree_contains st old leaf
            else Ok true
        | None => Ok false
        end);
      replace_child parent_id old new ;;
      when should_update_focus
        (node_mut parent_id (set_last_focused_descendant replacement_focus))
  | None =>
      root ← gets (λ st, is_session_root st old);
      if root : bool then
        session_mut sid (s_set_root_node new) ;;
        set_parent new None ;;
        set_parent old None
      else
        fid ← gets (λ st, floating_id_by_root st old);
        match fid with
        | Some fid =>
            floating_mut fid (f_set_root_node new) ;;
            set_parent new None ;;
            set_parent old None
        | None => throw Conflict
        end
  end.

Definition detach_node_from_owner (id : NodeId) : SM (option NodeId * option FloatingId) :=
  root ← gets (λ st, is_session_root st id);
  if root : bool then throw Conflict
  else
    p ← reads (λ st, node_parent st id);
    match p with
    | Some parent_id =>
        remove_child parent_id id ;;
        mret (Some parent_id, None)
    | None =>
        fid ← gets (λ st, floating_id_by_root st id);
        match fid with
        | Some fid => remove_floating_window fid ;; mret (None, Some fid)
        | None => throw InvalidInput
        end
    end.

Inductive ParentSlotSnapshot : Type :=
  | SlotSplit (index : nat) (size : N) (last : option NodeId)
  | SlotTabs (index : nat) (tab : TabEntry) (active : nat) (last : option NodeId).

Inductive NodeOwnerSnapshot : Type :=
  | OwnerParent (parent_id : NodeId) (slot : ParentSlotSnapshot)
  | OwnerFloating (window : FloatingWindow) (index : nat) (focused_floating : option FloatingId).

Definition capture_node_owner_snapshot (st : ServerState) (id : NodeId)
    : outcome NodeOwnerSnapshot :=
  p ← node_parent st id;
  match p with
  | Some parent_id =>
      n ← node st parent_id;
      slot ← match n with
             | Split s =>
                 index ← ok_or (position (λ child, child =? id)%N (sp_children s)) NotFound;
                 Ok (SlotSplit index (default 1%N (sp_sizes s !! index))
                       (sp_last_focused_descendant s))
             | Tabs t =>
                 index ← ok_or (position (λ tab, te_child tab =? id)%N (t_tabs t)) NotFound;
                 tab ← vec_index index (t_tabs t);
                 Ok (SlotTabs index tab (t_active t) (t_last_focused_descendant t))
             | BufferView _ => Err InvalidInput
             end;
      Ok (OwnerParent parent_id slot)
  | None =>
      match floating_id_by_root st id with
      | Some fid =>
          w ← floating_window st fid;
          s ← session st (f_session_id w);
          index ← ok_or (position (λ c, c =? fid)%N (s_floating s)) NotFound;
          Ok (OwnerFloating w index (s_focused_floating s))
      | None => Err InvalidInput
      end
  end.

(** Put the slot back; the inserts are clamped to the current lengths. *)
Definition restore_slot (id : NodeId) (slot : ParentSlotSnapshot) (n : Node) : option Node :=
  match slot, n with
  | SlotSplit index size last, Split s =>
      let insert_index := Nat.min index (length (sp_children s)) in
      Some (Split (sp_set_last last (sp_set_children
        (insert_at insert_index id (sp_children s))
        (insert_at (Nat.min insert_index (length (sp_sizes s))) size (sp_sizes s)) s)))
  | SlotTabs index tab active last, Tabs t =>
      let tabs := insert_at (Nat.min index (length (t_tabs t))) tab (t_tabs t) in
      Some (Tabs (t_set_last last (t_set_tabs tabs (Nat.min active (length tabs - 1)) t)))
  | _, _ => None
  end.

Definition restore_node_owner (id : NodeId) (owner : NodeOwnerSnapshot) : SM unit :=
  match owner with
  | OwnerParent parent_id slot =>
      n ← reads (λ st, node st parent_id);
      match restore_slot id slot n with
      | Some n' => insert_node parent_id n'
      | None => throw InvalidInput
      end ;;
      set_parent id (Some parent_id)
  | OwnerFloating w index focused_floating =>
      modify (set_floating (insert (f_id w) w)) ;;
      session_mut (f_session_id w) (λ s,
        s_set_focus (s_focused_leaf s) focused_floating
          (s_set_floating (insert_at (Nat.min index (length (s_floating s))) (f_id w)
             (s_floating s)) s)) ;;
      set_parent id None
  end.

Definition rollback_detached_node (id : NodeId) (owner : NodeOwnerSnapshot) : SM unit :=
  p ← reads (λ st, node_parent st id);
  fid ← gets (λ st, floating_id_by_root st id);
  when (bool_decide (is_Some p) || bool_decide (is_Some fid))
    (detach_node_from_owner id ;; mret ()) ;;
  restore_node_owner id owner.

(** ** Normalization *)

Definition normalize_split_node (id : NodeId) : SM (option NodeId) :=
  n ← reads (λ st, node st id);
  match n with
  | Split s =>
      match sp_children s with
      | [] => throw Conflict
      | [child] =>
          replace_node_in_owner id child ;;
          remove_node id ;;
          mret (Some child)
      | children =>
          when (negb (length (sp_sizes s) =? length children)
                || existsb (N.eqb 0) (sp_sizes s))
            (insert_node id (Split (sp_set_children children
               (replicate (length children) 1%N) s))) ;;
          mret (sp_parent s)
      end
  | _ => reads (λ st, node_parent st id)
  end.

Definition normalize_tabs_node (id : NodeId) : SM (option NodeId) :=
  n ← reads (λ st, node st id);
  match n with
  | Tabs t =>
      is_root ← gets (λ st, is_session_root st id);
      floating_owner ← gets (λ st, floating_id_by_root st id);
      match t_tabs t with
      | [] =>
          if is_root : bool then
            insert_node id (Tabs (t_set_last None (t_set_tabs [] 0 t))) ;;
            mret (t_parent t)
          else
            match floating_owner with
            | Some fid =>
                w ← remove_floating_window fid;
                remove_node (f_root_node w) ;;
                mret None
            | None => remove_node id ;; mret (t_parent t)
            end
      | tab :: rest =>
          if bool_decide (rest = []) && bool_decide (floating_owner = None) && negb is_root then
            replace_node_in_owner id (te_child tab) ;;
            remove_node id ;;
            mret (Some (te_child tab))
          else
            when (length (t_tabs t) <=? t_active t)
              (insert_node id (Tabs (t_set_tabs (t_tabs t) (length (t_tabs t) - 1) t))) ;;
            mret (t_parent t)
      end
  | _ => reads (λ st, node_parent st id)
  end.

Fixpoint normalize_upwards_in (fuel : nat) (current : option NodeId) : SM unit :=
  match current with
  | None => mret ()
  | Some id =>
      match fuel with
      | 0 => out_of_fuel
      | S fuel =>
          n ← gets (λ st, nodes st !! id);
          match n with
          | None => mret ()
          | Some n =>
              next ← match n with
                     | BufferView _ => reads (λ st, node_parent st id)
                     | Split _ => normalize_split_node id
                     | Tabs _ => normalize_tabs_node id
                     end;
              normalize_upwards_in fuel next
          end
      end
  end.
(** Each step moves up to a parent or replaces a container by its only child,
    which removes a node: twice the number of nodes is enough. *)
Definition normalize_upwards (start : NodeId) : SM unit :=
  fuel ← gets (λ st, 2 * budget st);
  normalize_upwards_in fuel (Some start).

(** Replace the session's root by a new empty tabs node. *)
Definition empty_tabs (id : NodeId) (sid : SessionId) : Node :=
  Tabs (mkTabsNode id sid None [] 0 None).

Definition clear_session_root (sid : SessionId) : SM unit :=
  old_root ← reads (λ st, root_node st sid);
  remove_subtree_nodes old_root ;;
  new_root ← next_node_id;
  insert_node new_root (empty_tabs new_root sid) ;;
  session_mut sid (s_set_root_node new_root) ;;
  session_mut sid (s_set_zoomed_node None) ;;
  heal_focus sid.

Definition close_node (id : NodeId) : SM unit :=
  sid ← reads (λ st, node_session_id st id);
  root ← gets (λ st, is_session_root st id);
  if root : bool then clear_session_root sid
  else
    p ← reads (λ st, node_parent st id);
    match p with
    | Some parent_id =>
        remove_child parent_id id ;;
        remove_subtree_nodes id ;;
        normalize_upwards parent_id
    | None =>
        fid ← gets (λ st, floating_id_by_root st id);
        match fid with
        | Some fid =>
            w ← remove_floating_window fid;
            remove_subtree_nodes (f_root_node w)
        | None => throw InvalidInput
        end
    end ;;
    normalize_zoomed_node sid ;;
    heal_focus sid.

Definition detach_buffer (bid : BufferId) : SM unit :=
  b ← reads (λ st, buffer st bid);
  match b_attachment b with
  | Attached id => close_node id
  | Detached => mret ()
  end.

Definition discard_buffer_view (id : NodeId) : SM unit :=
  parented ← gets (λ st,
    match nodes st !! id with Some n => bool_decide (is_Some (parent n)) | None => false end);
  closed ← (if parented : bool then
              r ← attempt (close_node id);
              mret match r with inl _ => true | inr _ => false end
            else mret false);
  if closed : bool then mret ()
  else
    n ← gets (λ st, nodes st !! id);
    match n with
    | Some (BufferView v) => ignore (detach_buffer_if_attached_to (v_buffer_id v) (v_id v))
    | _ => mret ()
    end ;;
    remove_node id.
