(* ===== verification/Layout.v ===== *)
(** The layout operations clients request, [crates/embers-server/src/state.rs]:
    sessions, windows (root tabs), tabs, splits, popups, moving and joining
    nodes, and the disposal of exited buffers. *)

From S2P Require Import Prelude Core Model Environment State Queries Buffers Focus Tree.

(** ** Sessions *)

Definition create_session (now : Timestamp) (name : rstring) : SM SessionId :=
  sid ← next_session_id;
  root ← next_node_id;
  insert_node root (empty_tabs root sid) ;;
  viewport ← gets last_viewport;
  pane_titles ← gets last_pane_titles;
  base_index ← gets last_base_index;
  modify (set_sessions (insert sid
    (mkSession sid name root [] None None None viewport pane_titles base_index [] now))) ;;
  mret sid.

Definition rename_session (sid : SessionId) (name : rstring) : SM unit :=
  let name := trim name in
  if bool_decide (name = []) then throw InvalidInput
  else session_mut sid (s_set_name name).

Definition set_session_base_index (sid : SessionId) (base_index : option N) : SM unit :=
  session_mut sid (s_set_base_index base_index) ;;
  modify (set_last_base_index base_index).

Definition set_session_viewport (sid : SessionId) (viewport : Size) (pane_titles : bool)
    : SM unit :=
  session_mut sid (s_set_viewport (Some viewport) pane_titles) ;;
  modify (set_last_viewport (Some viewport) pane_titles).

Definition close_floating (fid : FloatingId) : SM unit :=
  w ← remove_floating_window fid;
  remove_subtree_nodes (f_root_node w) ;;
  normalize_zoomed_node (f_session_id w) ;;
  heal_focus (f_session_id w).

Definition close_session (sid : SessionId) : SM unit :=
  s ← reads (λ st, session st sid);
  for_each close_floating (s_floating s) ;;
  remove_subtree_nodes (s_root_node s) ;;
  modify (set_sessions (delete sid)).

(** ** Tabs *)

Definition tabs_of (st : ServerState) (id : NodeId) : outcome TabsNode :=
  n ← node st id;
  match n with Tabs t => Ok t | _ => Err InvalidInput end.

Definition add_tab_sibling_at_with_focus (tabs_id : NodeId) (index : nat) (title : rstring)
    (child : NodeId) (do_focus : bool) : SM nat :=
  sid ← reads (λ st, node_session_id st tabs_id);
  reads (λ st, ensure_node_belongs_to st child sid) ;;
  lift (ensure (negb (child =? tabs_id)%N) InvalidInput) ;;
  reads (λ st, tabs_of st tabs_id) ;;
  p ← reads (λ st, node_parent st child);
  lift (ensure (bool_decide (p = None)) InvalidInput) ;;
  root ← gets (λ st, is_session_root st child);
  lift (ensure (negb root) Conflict) ;;
  popup ← gets (λ st, floating_id_by_root st child);
  lift (ensure (bool_decide (popup = None)) Conflict) ;;
  t ← reads (λ st, tabs_of st tabs_id);
  lift (ensure (index <=? length (t_tabs t)) NotFound) ;;
  set_parent child (Some tabs_id) ;;
  t ← reads (λ st, tabs_of st tabs_id);
  tabs ← lift (vec_insert index (TabEntry_new title child) (t_tabs t));
  insert_node tabs_id (Tabs (t_set_tabs tabs index t)) ;;
  when do_focus
    (candidate ← reads (λ st, resolve_focus_candidate st child);
     match candidate with
     | Some leaf => focus_leaf sid leaf
     | None => heal_focus sid
     end) ;;
  mret index.

Definition add_tab_sibling_at (tabs_id : NodeId) (index : nat) (title : rstring)
    (child : NodeId) : SM nat :=
  add_tab_sibling_at_with_focus tabs_id index title child true.

Definition add_tab_sibling (tabs_id : NodeId) (title : rstring) (child : NodeId) : SM nat :=
  t ← reads (λ st, tabs_of st tabs_id);
  add_tab_sibling_at_with_focus tabs_id (length (t_tabs t)) title child true.

(** Run [m]; when it fails, discard the view made for it. *)
Definition or_discard {A} (view : NodeId) (m : SM A) : SM A :=
  r ← attempt m;
  match r with
  | inl a => mret a
  | inr e => discard_buffer_view view ;; throw e
  end.

Definition add_tab_from_buffer_at (tabs_id : NodeId) (index : nat) (title : rstring)
    (bid : BufferId) : SM nat :=
  reads (λ st, tabs_of st tabs_id) ;;
  sid ← reads (λ st, node_session_id st tabs_id);
  child ← create_buffer_view sid bid;
  or_discard child (add_tab_sibling_at tabs_id index title child).

Definition add_tab_from_buffer (tabs_id : NodeId) (title : rstring) (bid : BufferId) : SM nat :=
  t ← reads (λ st, tabs_of st tabs_id);
  add_tab_from_buffer_at tabs_id (length (t_tabs t)) title bid.

Definition rename_tab (tabs_id : NodeId) (index : nat) (title : rstring) : SM unit :=
  t ← reads (λ st, tabs_of st tabs_id);
  match t_tabs t !! index with
  | Some tab =>
      insert_node tabs_id
        (Tabs (t_set_tabs (<[index := te_set_title title tab]> (t_tabs t)) (t_active t) t))
  | None => throw NotFound
  end.

Definition switch_tab (tabs_id : NodeId) (index : nat) : SM unit :=
  sid ← reads (λ st, node_session_id st tabs_id);
  t ← reads (λ st, tabs_of st tabs_id);
  child ← match t_tabs t !! index with
          | Some tab =>
              insert_node tabs_id (Tabs (t_set_tabs (t_tabs t) index t)) ;;
              mret (te_child tab)
          | None => throw NotFound
          end;
  visible ← reads (λ st, is_node_visible_in_session st sid tabs_id);
  when visible
    (candidate ← reads (λ st, resolve_focus_candidate st child);
     match candidate with
     | Some leaf => focus_leaf sid leaf
     | None => heal_focus sid
     end).

Definition close_tab (tabs_id : NodeId) (index : nat) : SM unit :=
  sid ← reads (λ st, node_session_id st tabs_id);
  t ← reads (λ st, tabs_of st tabs_id);
  child ← match t_tabs t !! index with
          | Some tab =>
              let tabs := delete index (t_tabs t) in
              let last := if length tabs =? 0 then None else t_last_focused_descendant t in
              insert_node tabs_id (Tabs (t_set_last last (t_set_tabs tabs
                (active_after_removal (t_active t) index (length tabs)) t))) ;;
              mret (te_child tab)
          | None => throw NotFound
          end;
  set_parent child None ;;
  remove_subtree_nodes child ;;
  normalize_upwards tabs_id ;;
  normalize_zoomed_node sid ;;
  heal_focus sid.

(** ** Windows: the root tabs of a session *)

Definition add_root_tab_from_buffer (sid : SessionId) (title : rstring) (bid : BufferId)
    : SM nat :=
  tabs_id ← reads (λ st, root_tabs st sid);
  child ← create_buffer_view sid bid;
  or_discard child (add_tab_sibling tabs_id title child).

Definition add_root_tab_from_subtree (sid : SessionId) (title : rstring) (child : NodeId)
    : SM nat :=
  tabs_id ← reads (λ st, root_tabs st sid);
  add_tab_sibling tabs_id title child.

Definition add_root_tab (sid : SessionId) (title : rstring) (child : NodeId) : SM nat :=
  add_root_tab_from_subtree sid title child.

Definition select_root_tab (sid : SessionId) (index : nat) : SM unit :=
  tabs_id ← reads (λ st, root_tabs st sid); switch_tab tabs_id index.

Definition rename_root_tab (sid : SessionId) (index : nat) (title : rstring) : SM unit :=
  tabs_id ← reads (λ st, root_tabs st sid); rename_tab tabs_id index title.

Definition set_root_tab_synchronize_panes (sid : SessionId) (index : nat)
    (enabled : option bool) : SM bool :=
  tabs_id ← reads (λ st, root_tabs st sid);
  t ← reads (λ st, tabs_of st tabs_id);
  match t_tabs t !! index with
  | Some tab =>
      let b := default (negb (te_synchronize_panes tab)) enabled in
      insert_node tabs_id (Tabs
        (t_set_tabs (<[index := te_set_synchronize b tab]> (t_tabs t)) (t_active t) t)) ;;
      mret b
  | None => throw NotFound
  end.

Definition close_root_tab (sid : SessionId) (index : nat) : SM unit :=
  tabs_id ← reads (λ st, root_tabs st sid); close_tab tabs_id index.

(** ** Containers *)

(** The checks on the children of a new container, in order. *)
Fixpoint check_new_children (st : ServerState) (sid : SessionId) (seen : gset N)
    (children : list NodeId) : outcome unit :=
  match children with
  | [] => Ok ()
  | child :: children =>
      ensure_node_belongs_to st child sid ;;
      ensure (negb (bool_decide (child ∈ seen))) InvalidInput ;;
      p ← node_parent st child;
      ensure (bool_decide (p = None)) InvalidInput ;;
      check_new_children st sid ({[child]} ∪ seen) children
  end.

Definition create_split_node (sid : SessionId) (direction : SplitDirection)
    (children : list NodeId) : SM NodeId :=
  reads (λ st, ensure_session_exists st sid) ;;
  lift (ensure (2 <=? length children) InvalidInput) ;;
  id ← next_node_id;
  reads (λ st, check_new_children st sid ∅ children) ;;
  for_each (λ child, set_parent child (Some id)) children ;;
  insert_node id (Split (mkSplitNode id sid None direction children
    (replicate (length children) 1%N) None)) ;;
  mret id.

Definition create_tabs_node (sid : SessionId) (tabs : list TabEntry) (active : nat)
    : SM NodeId :=
  reads (λ st, ensure_session_exists st sid) ;;
  id ← next_node_id;
  reads (λ st, check_new_children st sid ∅ (te_child <$> tabs)) ;;
  for_each (λ tab, set_parent (te_child tab) (Some id)) tabs ;;
  insert_node id (Tabs (mkTabsNode id sid None tabs active None)) ;;
  node_mut id (λ n, match n with
    | Tabs t =>
        if bool_decide (t_tabs t = []) then Tabs (t_set_tabs (t_tabs t) 0 t)
        else Tabs (t_set_tabs (t_tabs t) (Nat.min active (length (t_tabs t) - 1)) t)
    | _ => n
    end) ;;
  mret id.

Definition wrap_node_in_tabs (id : NodeId) (title : rstring) : SM NodeId :=
  sid ← reads (λ st, node_session_id st id);
  old_parent ← reads (λ st, node_parent st id);
  tabs_id ← next_node_id;
  n ← reads (λ st, node st id);
  insert_node tabs_id (Tabs (mkTabsNode tabs_id sid old_parent [TabEntry_new title id] 0
    (last_focused_descendant n))) ;;
  set_parent id (Some tabs_id) ;;
  repoint_owner_reference sid old_parent id tabs_id ;;
  mret tabs_id.

Definition wrap_node_in_split_with_focus (id : NodeId) (direction : SplitDirection)
    (sibling : NodeId) (insert_before do_focus : bool) : SM NodeId :=
  sid ← reads (λ st, node_session_id st id);
  reads (λ st, ensure_node_belongs_to st sibling sid) ;;
  lift (ensure (negb (id =? sibling)%N) InvalidInput) ;;
  p ← reads (λ st, node_parent st sibling);
  lift (ensure (bool_decide (p = None)) InvalidInput) ;;
  root ← gets (λ st, is_session_root st sibling);
  lift (ensure (negb root) Conflict) ;;
  popup ← gets (λ st, floating_id_by_root st sibling);
  lift (ensure (bool_decide (popup = None)) Conflict) ;;
  root ← gets (λ st, is_session_root st id);
  lift (ensure (negb root) Conflict) ;;
  old_parent ← reads (λ st, node_parent st id);
  split_id ← next_node_id;
  let children := if insert_before then [sibling; id] else [id; sibling] in
  last ← reads (λ st, resolve_focus_candidate st sibling);
  insert_node split_id (Split (mkSplitNode split_id sid old_parent direction children
    (replicate (length children) 1%N) last)) ;;
  set_parent id (Some split_id) ;;
  set_parent sibling (Some split_id) ;;
  repoint_owner_reference sid old_parent id split_id ;;
  when do_focus
    (candidate ← reads (λ st, resolve_focus_candidate st sibling);
     match candidate with
     | Some leaf => focus_leaf sid leaf
     | None => heal_focus sid
     end) ;;
  mret split_id.

Definition wrap_node_in_split (id : NodeId) (direction : SplitDirection) (sibling : NodeId)
    (insert_before : bool) : SM NodeId :=
  wrap_node_in_split_with_focus id direction sibling insert_before true.

Definition split_leaf_with_new_buffer (leaf : NodeId) (direction : SplitDirection)
    (new_buffer : BufferId) : SM NodeId :=
  reads (λ st, ensure_leaf st leaf) ;;
  sid ← reads (λ st, node_session_id st leaf);
  old_parent ← reads (λ st, node_parent st leaf);
  new_leaf ← create_buffer_view sid new_buffer;
  split_id ← next_node_id;
  insert_node split_id (Split (mkSplitNode split_id sid old_parent direction [leaf; new_leaf]
    [1%N; 1%N] (Some new_leaf))) ;;
  set_parent leaf (Some split_id) ;;
  set_parent new_leaf (Some split_id) ;;
  repoint_owner_reference sid old_parent leaf split_id ;;
  focus_leaf sid new_leaf ;;
  mret split_id.

Definition resize_split_children (id : NodeId) (sizes : list N) : SM unit :=
  n ← reads (λ st, node st id);
  match n with
  | Split s =>
      if negb (length sizes =? length (sp_children s)) then throw InvalidInput
      else if existsb (N.eqb 0) sizes then throw InvalidInput
      else insert_node id (Split (sp_set_children (sp_children s) sizes s))
  | _ => throw InvalidInput
  end.

(** ** Popups *)

Definition focus_or_rollback (sid : SessionId) (fid : FloatingId) : SM unit :=
  r ← attempt (focus_floating fid);
  match r with
  | inl _ => mret ()
  | inr e =>
      modify (set_floating (delete fid)) ;;
      modify (set_sessions (alter (λ s,
        s_set_floating (base.filter (λ id, id ≠ fid) (s_floating s)) s) sid)) ;;
      throw e
  end.

Definition create_floating_window_with_options (sid : SessionId) (root : NodeId)
    (geometry : FloatGeometry) (title : option rstring) (focus close_on_empty : bool)
    : SM FloatingId :=
  reads (λ st, ensure_session_exists st sid) ;;
  reads (λ st, ensure_node_belongs_to st root sid) ;;
  p ← reads (λ st, node_parent st root);
  lift (ensure (bool_decide (p = None)) InvalidInput) ;;
  is_root ← gets (λ st, is_session_root st root);
  lift (ensure (negb is_root) InvalidInput) ;;
  popup ← gets (λ st, floating_id_by_root st root);
  lift (ensure (bool_decide (popup = None)) InvalidInput) ;;
  fid ← next_floating_id;
  modify (set_floating (insert fid
    (mkFloatingWindow fid sid root title geometry false true close_on_empty true None))) ;;
  session_mut sid (λ s, s_set_floating (s_floating s ++ [fid]) s) ;;
  when focus (focus_or_rollback sid fid) ;;
  mret fid.

Definition create_floating_window (sid : SessionId) (root : NodeId) (geometry : FloatGeometry)
    (title : option rstring) : SM FloatingId :=
  create_floating_window_with_options sid root geometry title true true.

Definition create_floating_from_buffer_with_options (sid : SessionId) (bid : BufferId)
    (geometry : FloatGeometry) (title : option rstring) (focus close_on_empty : bool)
    : SM FloatingId :=
  root ← create_buffer_view sid bid;
  or_discard root
    (create_floating_window_with_options sid root geometry title focus close_on_empty).

Definition create_floating_from_buffer (sid : SessionId) (bid : BufferId)
    (geometry : FloatGeometry) (title : option rstring) : SM FloatingId :=
  create_floating_from_buffer_with_options sid bid geometry title true true.

Definition set_floating_border (fid : FloatingId) (border : bool) : SM unit :=
  floating_mut fid (f_set_border border).

Definition move_floating (fid : FloatingId) (geometry : FloatGeometry) : SM unit :=
  floating_mut fid (f_set_geometry geometry).
