(* ===== verification/Moves.v ===== *)
(** Moving nodes and buffers, and disposing of exited buffers,
    [crates/embers-server/src/state.rs]. *)

From S2P Require Import Prelude Core Model Environment State Queries Buffers Focus Tree Layout.

(** ** Siblings *)

(** The active index after the entries at [first] and [second] swapped places. *)
Definition active_after_swap (active first second : nat) : nat :=
  if active =? first then second
  else if active =? second then first
  else active.

Definition swap_children (first_id second_id : NodeId) (n : Node) : outcome Node :=
  match n with
  | Split s =>
      first ← ok_or (position (λ c, c =? first_id)%N (sp_children s)) NotFound;
      second ← ok_or (position (λ c, c =? second_id)%N (sp_children s)) NotFound;
      children ← vec_swap first second (sp_children s);
      sizes ← vec_swap first second (sp_sizes s);
      Ok (Split (sp_set_children children sizes s))
  | Tabs t =>
      first ← ok_or (position (λ tab, te_child tab =? first_id)%N (t_tabs t)) NotFound;
      second ← ok_or (position (λ tab, te_child tab =? second_id)%N (t_tabs t)) NotFound;
      tabs ← vec_swap first second (t_tabs t);
      Ok (Tabs (t_set_tabs tabs (active_after_swap (t_active t) first second) t))
  | BufferView _ => Err InvalidInput
  end.

Definition swap_sibling_nodes (first_id second_id : NodeId) : SM unit :=
  if (first_id =? second_id)%N then mret ()
  else
    parent_id ← reads (λ st, shared_parent st first_id second_id);
    n ← reads (λ st, node st parent_id);
    n' ← lift (swap_children first_id second_id n);
    insert_node parent_id n'.

(** Where the entry removed from [from] is inserted to end up next to the one
    that was at [target]. *)
Definition reorder_index (from target : nat) (before : bool) : nat :=
  let insert_at := if from <? target then target - 1 else target in
  if before then insert_at else insert_at + 1.

Definition active_after_reorder (active from insert_at : nat) : nat :=
  if active =? from then insert_at
  else if (from <? active) && (active <=? insert_at) then active - 1
  else if (active <? from) && (insert_at <=? active) then active + 1
  else active.

Definition reorder_children (id sibling : NodeId) (before : bool) (n : Node) : outcome Node :=
  match n with
  | Split s =>
      from ← ok_or (position (λ c, c =? id)%N (sp_children s)) NotFound;
      target ← ok_or (position (λ c, c =? sibling)%N (sp_children s)) NotFound;
      removed ← vec_remove from (sp_children s);
      removed_size ← vec_remove from (sp_sizes s);
      let insert_at := reorder_index from target before in
      children ← vec_insert insert_at removed.1 removed.2;
      sizes ← vec_insert insert_at removed_size.1 removed_size.2;
      Ok (Split (sp_set_children children sizes s))
  | Tabs t =>
      from ← ok_or (position (λ tab, te_child tab =? id)%N (t_tabs t)) NotFound;
      target ← ok_or (position (λ tab, te_child tab =? sibling)%N (t_tabs t)) NotFound;
      removed ← vec_remove from (t_tabs t);
      let insert_at := reorder_index from target before in
      tabs ← vec_insert insert_at removed.1 removed.2;
      Ok (Tabs (t_set_tabs tabs (active_after_reorder (t_active t) from insert_at) t))
  | BufferView _ => Err InvalidInput
  end.

(** A panic leaves the vectors half updated; nothing runs on the state after it. *)
Definition reorder_sibling_node (id sibling : NodeId) (before : bool) : SM unit :=
  if (id =? sibling)%N then mret ()
  else
    parent_id ← reads (λ st, shared_parent st id sibling);
    n ← reads (λ st, node st parent_id);
    n' ← lift (reorder_children id sibling before n);
    insert_node parent_id n'.

Definition move_node_before (id sibling : NodeId) : SM unit := reorder_sibling_node id sibling true.
Definition move_node_after (id sibling : NodeId) : SM unit := reorder_sibling_node id sibling false.

(** ** Replacing, breaking out and joining *)

Definition replace_node (id replacement : NodeId) : SM unit :=
  sid ← reads (λ st, node_session_id st id);
  reads (λ st, ensure_node_belongs_to st replacement sid) ;;
  if (id =? replacement)%N then mret ()
  else
    root ← gets (λ st, is_session_root st id);
    lift (ensure (negb root) Conflict) ;;
    p ← reads (λ st, node_parent st replacement);
    lift (ensure (bool_decide (p = None)) InvalidInput) ;;
    root ← gets (λ st, is_session_root st replacement);
    lift (ensure (negb root) Conflict) ;;
    popup ← gets (λ st, floating_id_by_root st replacement);
    lift (ensure (bool_decide (popup = None)) Conflict) ;;
    replace_node_in_owner id replacement ;;
    remove_subtree_nodes id ;;
    candidate ← reads (λ st, resolve_focus_candidate st replacement);
    match candidate with
    | Some leaf => focus_leaf sid leaf
    | None => heal_focus sid
    end ;;
    normalize_zoomed_node sid.

Definition break_node (id : NodeId) (to_floating : bool) : SM unit :=
  p ← reads (λ st, node_parent st id);
  fid ← gets (λ st, floating_id_by_root st id);
  if to_floating && bool_decide (p = None) && bool_decide (is_Some fid) then mret ()
  else
    in_tabs ← match p with
              | Some parent_id =>
                  if to_floating then mret false
                  else (n ← reads (λ st, node st parent_id); mret (is_tabs n))
              | None => mret false
              end;
    if in_tabs : bool then mret ()
    else
      sid ← reads (λ st, node_session_id st id);
      title ← reads (λ st, default_tab_title st id);
      do_focus ← reads (λ st, is_node_visible_in_session st sid id);
      snapshot ← reads (λ st, capture_node_owner_snapshot st id);
      owner ← detach_node_from_owner id;
      let old_parent := owner.1 in
      result ←
        (if to_floating then
           geometry ← reads (λ st, default_floating_geometry st sid);
           attempt (create_floating_window_with_options sid id geometry (Some title) true true ;;
                    mret ())
         else
           tabs_ancestor ← reads (λ st, nearest_tabs_ancestor st old_parent);
           tabs_id ← match tabs_ancestor with
                     | Some tabs_id => mret tabs_id
                     | None => reads (λ st, root_tabs st sid)
                     end;
           t ← reads (λ st, tabs_of st tabs_id);
           attempt (add_tab_sibling_at_with_focus tabs_id (length (t_tabs t)) title id do_focus ;;
                    mret ()));
      match result with
      | inr e =>
          r ← attempt (rollback_detached_node id snapshot);
          match r with
          | inl _ => throw e
          | inr _ => throw Internal
          end
      | inl _ =>
          match old_parent with
          | Some parent_id => normalize_upwards parent_id
          | None => mret ()
          end ;;
          normalize_zoomed_node sid
      end.

(** [NodeJoinPlacement] of [crates/embers-protocol/src/types.rs]. *)
Inductive NodeJoinPlacement : Set := JLeft | JRight | JUp | JDown | JTabBefore | JTabAfter.

(** The tabs node a buffer joins next to [id], and the wrapper made for it. *)
Definition join_tabs_target (id : NodeId) : SM (NodeId * option NodeId) :=
  n ← reads (λ st, node st id);
  if is_tabs n then mret (id, None)
  else
    parent_id ← reads (λ st, node_parent st id);
    tabs_parent ← match parent_id with
                  | Some parent_id =>
                      pn ← reads (λ st, node st parent_id);
                      mret (if is_tabs pn then Some parent_id else None)
                  | None => mret None
                  end;
    match tabs_parent with
    | Some parent_id => mret (parent_id, None)
    | None =>
        title ← reads (λ st, default_tab_title st id);
        tabs_id ← wrap_node_in_tabs id title;
        mret (tabs_id, Some tabs_id)
    end.

Definition join_tab_index (id tabs_id : NodeId) (t : TabsNode) (after : bool) : outcome nat :=
  let len := length (t_tabs t) in
  current ← (if (tabs_id =? id)%N then Ok (Nat.min (t_active t) len)
             else ok_or (position (λ tab, te_child tab =? id)%N (t_tabs t)) NotFound);
  Ok (if after then Nat.min (current + 1) len else current).

Definition join_view (id : NodeId) (bid : BufferId) (placement : NodeJoinPlacement)
    (new_view : NodeId) (do_focus : bool) : SM ((unit + MuxError) * option NodeId) :=
  let split direction before :=
    r ← attempt (wrap_node_in_split_with_focus id direction new_view before do_focus ;; mret ());
    mret (r, None) in
  let tab after :=
    b ← reads (λ st, buffer st bid);
    target ← join_tabs_target id;
    let '(tabs_id, wrapper) := target in
    t ← reads (λ st, tabs_of st tabs_id);
    index ← lift (join_tab_index id tabs_id t after);
    r ← attempt (add_tab_sibling_at_with_focus tabs_id index (b_title b) new_view do_focus ;;
                 mret ());
    mret (r, wrapper) in
  match placement with
  | JLeft => split Vertical true
  | JRight => split Vertical false
  | JUp => split Horizontal true
  | JDown => split Horizontal false
  | JTabBefore => tab false
  | JTabAfter => tab true
  end.

Definition join_buffer_at_node (id : NodeId) (bid : BufferId) (placement : NodeJoinPlacement)
    : SM unit :=
  target_session ← reads (λ st, node_session_id st id);
  do_focus ← reads (λ st, is_node_visible_in_session st target_session id);
  b ← reads (λ st, buffer st bid);
  source_view ←
    match b_attachment b with
    | Attached source_view =>
        source_session ← reads (λ st, node_session_id st source_view);
        lift (ensure (source_session =? target_session)%N Conflict) ;;
        inside ← (if (source_view =? id)%N then mret true
                  else reads (λ st, node_is_descendant_of st source_view id));
        lift (ensure (negb inside) Conflict) ;;
        mret (Some source_view)
    | Detached => mret None
    end;
  new_view ← match source_view with
             | Some _ => create_unattached_buffer_view target_session bid
             | None => create_buffer_view target_session bid
             end;
  joined ← join_view id bid placement new_view do_focus;
  match joined with
  | (inr e, created_tabs_wrapper) =>
      discard_buffer_view new_view ;;
      match created_tabs_wrapper with
      | Some tabs_id =>
          still ← gets (λ st, bool_decide (is_Some (nodes st !! tabs_id)));
          when still (ignore (normalize_upwards tabs_id))
      | None => mret ()
      end ;;
      throw e
  | (inl _, _) =>
      match source_view with
      | Some source_view =>
          r ← attempt (close_node source_view);
          match r with
          | inr e =>
              r' ← attempt (close_node new_view);
              match r' with
              | inl _ => throw e
              | inr _ => throw Internal
              end
          | inl _ => set_buffer_attached bid new_view
          end
      | None => mret ()
      end ;;
      normalize_zoomed_node target_session
  end.

Definition move_buffer_to_leaf (bid : BufferId) (target_leaf : NodeId) : SM unit :=
  reads (λ st, ensure_leaf st target_leaf) ;;
  target_session ← reads (λ st, node_session_id st target_leaf);
  b ← reads (λ st, buffer st bid);
  let source_view := match b_attachment b with Attached id => Some id | Detached => None end in
  if bool_decide (source_view = Some target_leaf) then focus_leaf target_session target_leaf
  else
    match source_view with
    | Some source_view =>
        source_session ← reads (λ st, node_session_id st source_view);
        lift (ensure (source_session =? target_session)%N Conflict) ;;
        close_node source_view
    | None => mret ()
    end ;;
    attach_buffer bid target_leaf ;;
    focus_leaf target_session target_leaf.

(** ** Exited buffers *)

Record DisposedBuffers : Type := mkDisposedBuffers {
  removed_buffers : list BufferId;
  changed_sessions : gset N
}.
Definition disposed_is_empty (d : DisposedBuffers) : bool :=
  bool_decide (removed_buffers d = []) && bool_decide (changed_sessions d = ∅).

(** Remove the record of [id] when that succeeds, noting it. *)
Definition dispose_record (d : DisposedBuffers) (id : BufferId) : SM DisposedBuffers :=
  r ← attempt (remove_buffer id);
  mret match r with
       | inl _ => mkDisposedBuffers (removed_buffers d ++ [id]) (changed_sessions d)
       | inr _ => d
       end.

Definition is_closed_helper (b : Buffer) : bool :=
  match b_kind b with
  | KHelper _ => bool_decide (b_attachment b = Detached)
  | KPty => false
  end.
Definition is_exited_pty (b : Buffer) : bool :=
  match b_kind b with KPty => is_exited (b_state b) | KHelper _ => false end.

(** One exited buffer, as it was when the list was taken. *)
Definition dispose_exited (default_ : RemainOnExit) (d : DisposedBuffers) (b : Buffer)
    : SM DisposedBuffers :=
  let done_with := b_ever_attached b && negb (b_watched b) in
  match b_attachment b with
  | Attached view =>
      if remains_on_exit b default_ then mret d
      else
        n ← gets (λ st, nodes st !! view);
        match n with
        | None => mret d
        | Some n =>
            r ← attempt (close_node view);
            match r with
            | inr _ => mret d
            | inl _ =>
                dispose_record (mkDisposedBuffers (removed_buffers d)
                  ({[node_session n]} ∪ changed_sessions d)) (b_id b)
            end
        end
  | Detached => if done_with then dispose_record d (b_id b) else mret d
  end.

Definition dispose_exited_buffers : SM DisposedBuffers :=
  closed_helpers ← gets (λ st,
    b_id <$> base.filter (λ b, is_closed_helper b = true) (values_of (buffers st)));
  disposed ← fold_st dispose_record (mkDisposedBuffers [] ∅) closed_helpers;
  exited ← gets (λ st,
    base.filter (λ b, is_exited_pty b = true) (values_of (buffers st)));
  default_ ← gets remain_on_exit;
  fold_st (dispose_exited default_) disposed exited.
