(* ===== verification/Validate.v ===== *)
(** [ServerState::validate], [crates/embers-server/src/state.rs]: the check a
    restored workspace has to pass, and the id arithmetic of a restore. *)

From S2P Require Import Prelude Core Model Environment State Queries.

(** [validate_subtree]: returns the nodes seen so far. *)
Fixpoint validate_subtree_in (fuel : nat) (st : ServerState) (sid : SessionId)
    (expected_parent : option NodeId) (seen : gset N) (id : NodeId) : outcome (gset N) :=
  match fuel with
  | 0 => OutOfFuel
  | S fuel =>
      n ← node st id;
      ensure (node_session n =? sid)%N Conflict ;;
      ensure (bool_decide (parent n = expected_parent)) Conflict ;;
      ensure (negb (bool_decide (id ∈ seen))) Conflict ;;
      let seen := {[id]} ∪ seen in
      match n with
      | BufferView _ => Ok seen
      | Split s =>
          ensure (2 <=? length (sp_children s)) Conflict ;;
          ensure (length (sp_sizes s) =? length (sp_children s)) Conflict ;;
          fold_ok (validate_subtree_in fuel st sid (Some id)) seen (sp_children s)
      | Tabs t =>
          ensure (match t_tabs t with
                  | [] => t_active t =? 0
                  | _ => t_active t <? length (t_tabs t)
                  end) Conflict ;;
          fold_ok (λ seen tab, validate_subtree_in fuel st sid (Some id) seen (te_child tab))
            seen (t_tabs t)
      end
  end.
Definition validate_subtree (st : ServerState) (sid : SessionId)
    (expected_parent : option NodeId) (seen : gset N) (id : NodeId) : outcome (gset N) :=
  validate_subtree_in (budget st) st sid expected_parent seen id.

Definition is_detached_empty_tabs_node (st : ServerState) (id : NodeId) : bool :=
  match nodes st !! id with
  | Some (Tabs t) =>
      bool_decide (t_parent t = None) && bool_decide (t_tabs t = [])
      && bool_decide (floating_id_by_root st id = None) && negb (is_session_root st id)
  | _ => false
  end.

Definition validate_window (st : ServerState) (s : Session) (seen : gset N) (fid : FloatingId)
    : outcome (gset N) :=
  w ← floating_window st fid;
  ensure (f_session_id w =? s_id s)%N Conflict ;;
  ensure (negb (f_root_node w =? s_root_node s)%N) Conflict ;;
  p ← node_parent st (f_root_node w);
  ensure (bool_decide (p = None)) Conflict ;;
  validate_subtree st (s_id s) None seen (f_root_node w).

Definition validate_focus (st : ServerState) (s : Session) : outcome unit :=
  match s_focused_leaf s with
  | Some leaf =>
      n ← node st leaf;
      ensure (is_buffer_view n) Conflict ;;
      visible ← is_node_visible_in_session st (s_id s) leaf;
      ensure visible Conflict
  | None => Ok ()
  end.

Definition validate_zoom (st : ServerState) (s : Session) : outcome unit :=
  match s_zoomed_node s with
  | Some id =>
      ensure (bool_decide (is_Some (nodes st !! id))) Conflict ;;
      n ← node st id;
      ensure (node_session n =? s_id s)%N Conflict ;;
      visible ← is_node_visible_in_session st (s_id s) id;
      ensure visible Conflict
  | None => Ok ()
  end.

Definition validate_session (st : ServerState) (seen : gset N) (s : Session)
    : outcome (gset N) :=
  root ← node st (s_root_node s);
  ensure (bool_decide (parent root = None)) Conflict ;;
  ensure (is_tabs root) Conflict ;;
  seen ← validate_subtree st (s_id s) None seen (s_root_node s);
  seen ← fold_ok (validate_window st s) seen (s_floating s);
  validate_focus st s ;;
  validate_zoom st s ;;
  Ok seen.

Definition validate_attachment (st : ServerState) (entry : BufferId * Buffer) : outcome unit :=
  match b_attachment entry.2 with
  | Attached id =>
      n ← node st id;
      match n with
      | BufferView v => ensure (v_buffer_id v =? entry.1)%N Conflict
      | _ => Err Conflict
      end
  | Detached => Ok ()
  end.

Definition validate_view (st : ServerState) (n : Node) : outcome unit :=
  match n with
  | BufferView v =>
      b ← buffer st (v_buffer_id v);
      ensure (bool_decide (b_attachment b = Attached (v_id v))) Conflict
  | _ => Ok ()
  end.

Definition validate (st : ServerState) : outcome unit :=
  seen ← fold_ok (validate_session st) ∅ (values_of (sessions st));
  ensure (forallb (λ id, bool_decide (id ∈ seen) || is_detached_empty_tabs_node st id)
            (keys_of (nodes st))) Conflict ;;
  fold_ok (λ _ entry, validate_attachment st entry) () (entries (buffers st)) ;;
  fold_ok (λ _ n, validate_view st n) () (values_of (nodes st)).

(** ** The next id of a restored workspace *)

Definition next_id_after_max (ids : list N) : option N :=
  match ids with
  | [] => Some 1%N
  | _ => checked_succ64 (max_list_N ids)
  end.

Definition checked_next_id (ids : list N) : outcome N := ok_or (next_id_after_max ids) Internal.
