(* ===== verification/Persist.v ===== *)
(** Saving and restoring the workspace, [crates/embers-server/src/persist.rs]
    and [ServerState::{from,to}_persisted] of [state.rs]: the saved records, the
    conversions both ways, format migration and the restore itself. *)

From S2P Require Import Prelude Core Model Environment State Queries Buffers Focus Tree Layout.
From S2P Require Import Validate.

Definition LEGACY_FORMAT_VERSION : N := 0.
Definition FIRST_VERSIONED_FORMAT_VERSION : N := 1.
Definition CURRENT_FORMAT_VERSION : N := 2.

(** ** The saved records *)

Record PersistedSession : Type := mkPersistedSession {
  ps_id : N;
  ps_name : rstring;
  ps_root_node : N;
  ps_floating : list N;
  ps_focused_leaf : option N;
  ps_focused_floating : option N;
  ps_zoomed_node : option N;
  ps_viewport : option Size;
  ps_pane_titles : bool;
  ps_base_index : option N;
  ps_created_at_ms : N
}.

Record PersistedRemoteBuffer : Type := mkPersistedRemoteBuffer {
  pr_host : rstring;
  pr_buffer_id : option N
}.

Inductive PersistedBufferKind : Type :=
  | PPty
  | PHelper (source_buffer_id : N) (scope : HelperBufferScope) (lines : list rstring).

Inductive PersistedBufferState : Type :=
  | PCreated
  | PRunning (pid : option N)
  | PInterrupted (last_known_pid : option N)
  | PExited (exit_code : option Z) (exited_at_ms : N).

Inductive PersistedBufferAttachment : Type := PAttached (node_id : N) | PDetached.

(** [last_snapshot_seq] is the constant [LegacySnapshotSeq]; it is left out. *)
Record PersistedBuffer : Type := mkPersistedBuffer {
  pb_id : N;
  pb_title : rstring;
  pb_command : list rstring;
  pb_cwd : option rstring;
  pb_env : gmap rstring rstring;
  pb_user_options : gmap rstring rstring;
  pb_foreground_command : option (list rstring);
  pb_runtime_socket_path : option rstring;
  pb_remote : option PersistedRemoteBuffer;
  pb_state : PersistedBufferState;
  pb_attachment : PersistedBufferAttachment;
  pb_pty_size : PtySize;
  pb_activity : ActivityState;
  pb_kind : PersistedBufferKind;
  pb_created_at_ms : N
}.

Record PersistedTabEntry : Type := mkPersistedTabEntry { pt_title : rstring; pt_child : N }.

Inductive PersistedNode : Type :=
  | PBufferView (id session_id : N) (parent : option N) (buffer_id : N)
      (focused zoomed follow_output : bool) (last_render_size : PtySize)
  | PSplit (id session_id : N) (parent : option N) (direction : SplitDirection)
      (children : list N) (sizes : list N) (last_focused_descendant : option N)
  | PTabs (id session_id : N) (parent : option N) (tabs : list PersistedTabEntry)
      (active : nat) (last_focused_descendant : option N).

Record PersistedFloatingWindow : Type := mkPersistedFloatingWindow {
  pf_id : N;
  pf_session_id : N;
  pf_root_node : N;
  pf_title : option rstring;
  pf_geometry : FloatGeometry;
  pf_focused : bool;
  pf_visible : bool;
  pf_close_on_empty : bool;
  pf_border : bool;
  pf_last_focused_leaf : option N
}.

Record PersistedWorkspace : Type := mkPersistedWorkspace {
  format_version : option N;
  pw_sessions : list PersistedSession;
  pw_buffers : list PersistedBuffer;
  pw_nodes : list PersistedNode;
  pw_floating : list PersistedFloatingWindow;
  pw_next_session_id : N;
  pw_next_buffer_id : N;
  pw_next_node_id : N;
  pw_next_floating_id : N
}.

#[export] Instance PersistedSession_eq_dec : EqDecision PersistedSession.
Proof. solve_decision. Defined.
#[export] Instance PersistedRemoteBuffer_eq_dec : EqDecision PersistedRemoteBuffer.
Proof. solve_decision. Defined.
#[export] Instance PersistedBufferKind_eq_dec : EqDecision PersistedBufferKind.
Proof. solve_decision. Defined.
#[export] Instance PersistedBufferState_eq_dec : EqDecision PersistedBufferState.
Proof. solve_decision. Defined.
#[export] Instance PersistedBufferAttachment_eq_dec : EqDecision PersistedBufferAttachment.
Proof. solve_decision. Defined.
#[export] Instance PersistedBuffer_eq_dec : EqDecision PersistedBuffer.
Proof. solve_decision. Defined.
#[export] Instance PersistedTabEntry_eq_dec : EqDecision PersistedTabEntry.
Proof. solve_decision. Defined.
#[export] Instance PersistedNode_eq_dec : EqDecision PersistedNode.
Proof. solve_decision. Defined.
#[export] Instance PersistedFloatingWindow_eq_dec : EqDecision PersistedFloatingWindow.
Proof. solve_decision. Defined.

(** ** Timestamps *)

Definition nanos_per_milli : Z := 1000000.
Definition i64_max : N := 9223372036854775807.

Definition timestamp_to_millis (t : Timestamp) : N :=
  N.min (Z.to_N (t / nanos_per_milli)) u64_max.
(** [SystemTime] holds its seconds in an [i64]. *)
Definition timestamp_from_millis (millis : N) : outcome Timestamp :=
  if (millis / 1000 <=? i64_max)%N then Ok (Z.of_N millis * nanos_per_milli)%Z
  else Err Internal.

(** ** Conversions *)

Definition persisted_session (s : Session) : PersistedSession := {|
  ps_id := s_id s;
  ps_name := s_name s;
  ps_root_node := s_root_node s;
  ps_floating := s_floating s;
  ps_focused_leaf := s_focused_leaf s;
  ps_focused_floating := s_focused_floating s;
  ps_zoomed_node := s_zoomed_node s;
  ps_viewport := s_viewport s;
  ps_pane_titles := s_pane_titles s;
  ps_base_index := s_base_index s;
  ps_created_at_ms := timestamp_to_millis (s_created_at s)
|}.

Definition restored_session (p : PersistedSession) : outcome Session :=
  created_at ← timestamp_from_millis (ps_created_at_ms p);
  Ok (mkSession (ps_id p) (ps_name p) (ps_root_node p) (ps_floating p) (ps_focused_leaf p)
    (ps_focused_floating p) (ps_zoomed_node p) (ps_viewport p) (ps_pane_titles p)
    (ps_base_index p) [] created_at).

Definition persisted_buffer_state (s : BufferState) : PersistedBufferState :=
  match s with
  | Created => PCreated
  | Running pid => PRunning pid
  | Interrupted last_known_pid => PInterrupted last_known_pid
  | Exited exit_code exited_at => PExited exit_code (timestamp_to_millis exited_at)
  end.
Definition restored_buffer_state (p : PersistedBufferState) : outcome BufferState :=
  match p with
  | PCreated => Ok Created
  | PRunning pid => Ok (Interrupted pid)
  | PInterrupted last_known_pid => Ok (Interrupted last_known_pid)
  | PExited exit_code exited_at_ms =>
      exited_at ← timestamp_from_millis exited_at_ms; Ok (Exited exit_code exited_at)
  end.

Definition persisted_buffer_attachment (a : BufferAttachment) : PersistedBufferAttachment :=
  match a with Attached id => PAttached id | Detached => PDetached end.
Definition restored_buffer_attachment (p : PersistedBufferAttachment) : BufferAttachment :=
  match p with PAttached id => Attached id | PDetached => Detached end.

(** The lines of a helper buffer are not saved. *)
Definition persisted_buffer_kind (k : BufferKind) : PersistedBufferKind :=
  match k with KPty => PPty | KHelper h => PHelper (source_buffer_id h) (scope h) [] end.
Definition restored_buffer_kind (p : PersistedBufferKind) : BufferKind :=
  match p with
  | PPty => KPty
  | PHelper source scope lines => KHelper (mkHelperBuffer source scope lines)
  end.

Definition persisted_buffer (b : Buffer) : PersistedBuffer := {|
  pb_id := b_id b;
  pb_title := b_title b;
  pb_command := b_command b;
  pb_cwd := b_cwd b;
  pb_env := b_env b;
  pb_user_options := b_user_options b;
  pb_foreground_command := b_foreground_command b;
  pb_runtime_socket_path := Placement_socket_path (b_placement b);
  pb_remote :=
    match b_placement b with
    | Local _ => None
    | Remote host buffer_id => Some (mkPersistedRemoteBuffer host buffer_id)
    end;
  pb_state := persisted_buffer_state (b_state b);
  pb_attachment := persisted_buffer_attachment (b_attachment b);
  pb_pty_size := b_pty_size b;
  pb_activity := b_activity b;
  pb_kind := persisted_buffer_kind (b_kind b);
  pb_created_at_ms := timestamp_to_millis (b_created_at b)
|}.

(** The fields not listed keep the values [Buffer::new] gave them. *)
Definition restored_buffer (p : PersistedBuffer) : outcome Buffer :=
  state ← restored_buffer_state (pb_state p);
  created_at ← timestamp_from_millis (pb_created_at_ms p);
  Ok {|
    b_id := pb_id p;
    b_title := pb_title p;
    b_command := pb_command p;
    b_cwd := pb_cwd p;
    b_env := pb_env p;
    b_user_options := pb_user_options p;
    b_foreground_command := pb_foreground_command p;
    b_placement :=
      match pb_remote p with
      | Some remote => Remote (pr_host remote) (pr_buffer_id remote)
      | None => Local (pb_runtime_socket_path p)
      end;
    b_state := state;
    b_attachment := restored_buffer_attachment (pb_attachment p);
    b_pty_size := pb_pty_size p;
    b_activity := pb_activity p;
    b_last_snapshot_seq := 0;
    b_kind := restored_buffer_kind (pb_kind p);
    b_pipe := None;
    b_created_at := created_at;
    b_ever_attached := true;
    b_runtime_bell_sequence := 0;
    b_watched := false
  |}.

Definition persisted_node (n : Node) : PersistedNode :=
  match n with
  | BufferView v =>
      PBufferView (v_id v) (v_session_id v) (v_parent v) (v_buffer_id v) (focused (v_view v))
        (zoomed (v_view v)) (follow_output (v_view v)) (last_render_size (v_view v))
  | Split s =>
      PSplit (sp_id s) (sp_session_id s) (sp_parent s) (sp_direction s) (sp_children s)
        (sp_sizes s) (sp_last_focused_descendant s)
  | Tabs t =>
      PTabs (t_id t) (t_session_id t) (t_parent t)
        ((λ tab, mkPersistedTabEntry (te_title tab) (te_child tab)) <$> t_tabs t)
        (t_active t) (t_last_focused_descendant t)
  end.

Definition restored_node (p : PersistedNode) : Node :=
  match p with
  | PBufferView id sid parent bid focused zoomed follow_output sz =>
      BufferView (mkBufferViewNode id sid parent bid
        (mkBufferViewState focused zoomed follow_output sz))
  | PSplit id sid parent direction children sizes last =>
      Split (mkSplitNode id sid parent direction children sizes last)
  | PTabs id sid parent tabs active last =>
      Tabs (mkTabsNode id sid parent
        ((λ tab, TabEntry_new (pt_title tab) (pt_child tab)) <$> tabs) active last)
  end.

Definition persisted_floating (w : FloatingWindow) : PersistedFloatingWindow :=
  mkPersistedFloatingWindow (f_id w) (f_session_id w) (f_root_node w) (f_title w)
    (f_geometry w) (f_focused w) (f_visible w) (f_close_on_empty w) (f_border w)
    (f_last_focused_leaf w).
Definition restored_floating (p : PersistedFloatingWindow) : FloatingWindow :=
  mkFloatingWindow (pf_id p) (pf_session_id p) (pf_root_node p) (pf_title p)
    (pf_geometry p) (pf_focused p) (pf_visible p) (pf_close_on_empty p) (pf_border p)
    (pf_last_focused_leaf p).

(** ** Migration *)

Definition legacy_zoomed_nodes (ns : list PersistedNode) : gmap N (list N) :=
  foldl (λ m n,
    match n with
    | PBufferView id sid _ _ _ true _ _ => <[sid := default [] (m !! sid) ++ [id]]> m
    | _ => m
    end) ∅ ns.

Definition ps_set_zoomed_node (z : option N) (p : PersistedSession) : PersistedSession :=
  mkPersistedSession (ps_id p) (ps_name p) (ps_root_node p) (ps_floating p) (ps_focused_leaf p)
    (ps_focused_floating p) z (ps_viewport p) (ps_pane_titles p) (ps_base_index p)
    (ps_created_at_ms p).

Definition migrate_zoom (zoomed : gmap N (list N)) (p : PersistedSession)
    : outcome PersistedSession :=
  match ps_zoomed_node p with
  | Some _ => Ok p
  | None =>
      match zoomed !! ps_id p with
      | None | Some [] => Ok p
      | Some [id] => Ok (ps_set_zoomed_node (Some id) p)
      | Some _ => Err Internal
      end
  end.

Definition pw_set_current (ss : list PersistedSession) (w : PersistedWorkspace)
    : PersistedWorkspace :=
  mkPersistedWorkspace (Some CURRENT_FORMAT_VERSION) ss (pw_buffers w) (pw_nodes w)
    (pw_floating w) (pw_next_session_id w) (pw_next_buffer_id w) (pw_next_node_id w)
    (pw_next_floating_id w).

Definition migrate_workspace (w : PersistedWorkspace) (version : N)
    : outcome PersistedWorkspace :=
  if ((version =? LEGACY_FORMAT_VERSION) || (version =? FIRST_VERSIONED_FORMAT_VERSION))%N then
    ss ← collect (migrate_zoom (legacy_zoomed_nodes (pw_nodes w))) (pw_sessions w);
    Ok (pw_set_current ss w)
  else Err Internal.

Definition load_current_workspace (w : PersistedWorkspace) : outcome PersistedWorkspace :=
  let version := default LEGACY_FORMAT_VERSION (format_version w) in
  if (version =? CURRENT_FORMAT_VERSION)%N then Ok (pw_set_current (pw_sessions w) w)
  else migrate_workspace w version.

(** ** Saving *)

Definition to_persisted (st : ServerState) : PersistedWorkspace :=
  let hint (ids : list N) := default u64_max (next_id_after_max ids) in
  mkPersistedWorkspace (Some CURRENT_FORMAT_VERSION)
    (persisted_session <$> values_of (sessions st))
    (persisted_buffer <$> values_of (buffers st))
    (persisted_node <$> values_of (nodes st))
    (persisted_floating <$> values_of (floating st))
    (hint (keys_of (sessions st))) (hint (keys_of (buffers st)))
    (hint (keys_of (nodes st))) (hint (keys_of (floating st))).

Definition pb_set_activity (a : ActivityState) (p : PersistedBuffer) : PersistedBuffer :=
  mkPersistedBuffer (pb_id p) (pb_title p) (pb_command p) (pb_cwd p) (pb_env p)
    (pb_user_options p) (pb_foreground_command p) (pb_runtime_socket_path p) (pb_remote p)
    (pb_state p) (pb_attachment p) (pb_pty_size p) a (pb_kind p) (pb_created_at_ms p).

Definition same_saved_state (a b : PersistedWorkspace) : bool :=
  bool_decide (format_version a = format_version b)
  && bool_decide (pw_sessions a = pw_sessions b)
  && bool_decide (pw_nodes a = pw_nodes b)
  && bool_decide (pw_floating a = pw_floating b)
  && (pw_next_session_id a =? pw_next_session_id b)%N
  && (pw_next_buffer_id a =? pw_next_buffer_id b)%N
  && (pw_next_node_id a =? pw_next_node_id b)%N
  && (pw_next_floating_id a =? pw_next_floating_id b)%N
  && (length (pw_buffers a) =? length (pw_buffers b))
  && forallb (λ p, bool_decide (pb_set_activity (pb_activity p.2) p.1 = p.2))
       (zip (pw_buffers a) (pw_buffers b)).

(** ** Restoring *)

(** Restore the records in order into a map; a repeated id is an error. *)
Definition restore_all {P V} (restore : P → outcome V) (key : V → N) (l : list P)
    : outcome (gmap N V) :=
  fold_ok (λ m p,
    x ← restore p;
    match m !! key x with
    | Some _ => Err Internal
    | None => Ok (<[key x := x]> m)
    end) ∅ l.

Definition check_window_listed (ss : gmap N Session) (entry : N * FloatingWindow)
    : outcome unit :=
  match ss !! f_session_id entry.2 with
  | Some s => ensure (bool_decide (entry.1 ∈ s_floating s)) Internal
  | None => Err Internal
  end.

(** The roots of sessions that are not tabs nodes. *)
Definition untabbed_roots (st : ServerState) : list NodeId :=
  omap (λ s, match nodes st !! s_root_node s with
             | Some (Tabs _) | None => None
             | Some _ => Some (s_root_node s)
             end) (values_of (sessions st)).

Definition wrap_untabbed_session_roots : SM unit :=
  untabbed ← gets untabbed_roots;
  for_each (λ root,
    title ← reads (λ st, default_tab_title st root);
    wrap_node_in_tabs root title ;;
    mret ()) untabbed.

Definition from_persisted (w : PersistedWorkspace) : outcome ServerState :=
  ss ← restore_all restored_session s_id (pw_sessions w);
  bs ← restore_all restored_buffer b_id (pw_buffers w);
  ns ← restore_all (λ p, Ok (restored_node p)) node_id (pw_nodes w);
  fs ← restore_all (λ p, Ok (restored_floating p)) f_id (pw_floating w);
  fold_ok (λ _ entry, check_window_listed ss entry) () (entries fs) ;;
  safe_next_session_id ← checked_next_id (keys_of ss);
  safe_next_buffer_id ← checked_next_id (keys_of bs);
  safe_next_node_id ← checked_next_id (keys_of ns);
  safe_next_floating_id ← checked_next_id (keys_of fs);
  let st := mkServerState ss bs ns fs EnvironmentStore_default None false None RoeOff
    (N.max (pw_next_session_id w) safe_next_session_id)
    (N.max (pw_next_buffer_id w) safe_next_buffer_id)
    (N.max (pw_next_node_id w) safe_next_node_id)
    (N.max (pw_next_floating_id w) safe_next_floating_id) in
  match wrap_untabbed_session_roots st with
  | (Ok _, st) => validate st ;; Ok st
  | (Err e, _) => Err e
  | (Panic, _) => Panic
  | (OutOfFuel, _) => OutOfFuel
  end.

(** [load_workspace], from the parsed workspace. *)
Definition load_workspace (w : PersistedWorkspace) : outcome ServerState :=
  current ← load_current_workspace w; from_persisted current.
