(* ===== verification/Protocol.v ===== *)
(** The wire types of [crates/embers-protocol/src/types.rs] the server answers
    with: records of its state, requests, responses and events, their ids and
    the checks on records. *)

From S2P Require Import Prelude Core Model Moves.

Abbreviation RequestId := N (only parsing).
Abbreviation ClientId := N (only parsing).

(** [String::len], the length in UTF-8 bytes. *)
Definition char_len (c : N) : N :=
  (if c <? 128 then 1 else if c <? 2048 then 2 else if c <? 65536 then 3 else 4)%N.
Definition sum_N (l : list N) : N := foldr N.add 0%N l.
Definition byte_len (s : rstring) : N := sum_N (char_len <$> s).

(** ** Records *)

Record SessionRecord : Type := mkSessionRecord {
  sr_id : SessionId;
  sr_name : rstring;
  sr_root_node_id : NodeId;
  sr_floating_ids : list FloatingId;
  sr_focused_leaf_id : option NodeId;
  sr_focused_floating_id : option FloatingId;
  sr_zoomed_node_id : option NodeId;
  sr_viewport : option Size;
  sr_base_index : option N;
  sr_pane_titles : bool
}.

Inductive BufferRecordState : Set := RCreated | RRunning | RInterrupted | RExited.
Inductive BufferRecordKind : Set := RPty | RHelper.
Inductive BufferHistoryScope : Set := HsFull | HsVisible.
Inductive BufferHistoryPlacement : Set := HpTab | HpFloating.
Inductive PipeRecordState : Set := PrRunning | PrStopped.

Record BufferPipeRecord : Type := mkBufferPipeRecord {
  pr_command : list rstring;
  pr_state : PipeRecordState;
  pr_pid : option N;
  pr_exit_code : option Z;
  pr_stop_reason : option BufferPipeStopReason
}.

Record BufferRecord : Type := mkBufferRecord {
  br_id : BufferId;
  br_title : rstring;
  br_command : list rstring;
  br_cwd : option rstring;
  br_pipe : option BufferPipeRecord;
  br_kind : BufferRecordKind;
  br_state : BufferRecordState;
  br_pid : option N;
  br_attachment_node_id : option NodeId;
  br_read_only : bool;
  br_helper_source_buffer_id : option BufferId;
  br_helper_scope : option BufferHistoryScope;
  br_pty_size : PtySize;
  br_activity : ActivityState;
  br_last_snapshot_seq : N;
  br_exit_code : option Z;
  br_env : gmap rstring rstring;
  br_user_options : gmap rstring rstring;
  br_foreground_command : option (list rstring);
  br_bell_sequence : N;
  br_host : option rstring
}.

Inductive NodeRecordKind : Set := NkBufferView | NkSplit | NkTabs.

Record BufferViewRecord : Type := mkBufferViewRecord {
  bv_buffer_id : BufferId;
  bv_focused : bool;
  bv_zoomed : bool;
  bv_follow_output : bool;
  bv_last_render_size : PtySize
}.
Record SplitRecord : Type := mkSplitRecord {
  spr_direction : SplitDirection;
  spr_child_ids : list NodeId;
  spr_sizes : list N
}.
Record TabRecord : Type := mkTabRecord {
  tr_title : rstring;
  tr_child_id : NodeId;
  tr_synchronize_panes : bool
}.
Record TabsRecord : Type := mkTabsRecord { tsr_active : N; tsr_tabs : list TabRecord }.

Record NodeRecord : Type := mkNodeRecord {
  nr_id : NodeId;
  nr_session_id : SessionId;
  nr_parent_id : option NodeId;
  nr_kind : NodeRecordKind;
  nr_buffer_view : option BufferViewRecord;
  nr_split : option SplitRecord;
  nr_tabs : option TabsRecord;
  nr_focus_leaf_id : option NodeId
}.

Record FloatingRecord : Type := mkFloatingRecord {
  fr_id : FloatingId;
  fr_session_id : SessionId;
  fr_root_node_id : NodeId;
  fr_title : option rstring;
  fr_geometry : FloatGeometry;
  fr_focused : bool;
  fr_visible : bool;
  fr_close_on_empty : bool;
  fr_border : bool
}.

Record ClientRecord : Type := mkClientRecord {
  cr_id : ClientId;
  cr_current_session_id : option SessionId;
  cr_subscribed_all_sessions : bool;
  cr_subscribed_session_ids : list SessionId
}.

Record SessionSnapshot : Type := mkSessionSnapshot {
  ss_session : SessionRecord;
  ss_nodes : list NodeRecord;
  ss_buffers : list BufferRecord;
  ss_floating : list FloatingRecord
}.

Inductive BufferLocationAttachment : Set :=
  | LocDetached
  | LocSession (session_id : SessionId) (node_id : NodeId)
  | LocFloating (session_id : SessionId) (node_id : NodeId) (floating_id : FloatingId).

Record BufferLocation : Set := mkBufferLocation {
  loc_buffer_id : BufferId;
  loc_attachment : BufferLocationAttachment
}.

Definition loc_session_id (a : BufferLocationAttachment) : option SessionId :=
  match a with
  | LocDetached => None
  | LocSession session_id _ | LocFloating session_id _ _ => Some session_id
  end.
Definition loc_node_id (a : BufferLocationAttachment) : option NodeId :=
  match a with
  | LocDetached => None
  | LocSession _ node_id | LocFloating _ node_id _ => Some node_id
  end.
Definition loc_floating_id (a : BufferLocationAttachment) : option FloatingId :=
  match a with LocFloating _ _ floating_id => Some floating_id | _ => None end.

(** ** Terminal contents ([embers-core/src/snapshot.rs], [passthrough.rs]) *)

Record CursorPosition : Set := mkCursorPosition { cp_row : N; cp_col : N }.
Inductive CursorShape : Set := Block | Underline | Beam.
Record CursorState : Set := mkCursorState { cursor_position : CursorPosition; cursor_shape : CursorShape }.
Record TerminalModes : Set := mkTerminalModes {
  alternate_screen : bool;
  mouse_reporting : bool;
  focus_reporting : bool;
  bracketed_paste : bool;
  keyboard_mode : N
}.
Inductive TermColor : Set := ColorDefault | Indexed (i : N) | Rgb (r g b : N).
Record StyledRun : Set := mkStyledRun {
  run_len : N;
  run_fg : TermColor;
  run_bg : TermColor;
  run_attrs : N;
  run_underline_color : TermColor;
  run_link : N
}.
Record Hyperlink : Type := mkHyperlink { link_id : option rstring; link_uri : rstring }.
Record CellSpan : Set := mkCellSpan { span_len : N; span_width : N }.
Record SnapshotLine : Type := mkSnapshotLine {
  line_text : rstring;
  line_runs : list StyledRun;
  line_links : list Hyperlink;
  line_cell_spans : list CellSpan
}.
Definition SnapshotLine_plain (s : rstring) : SnapshotLine := mkSnapshotLine s [] [] [].

Record PassthroughWrite : Type := mkPassthroughWrite {
  write_bytes : list N;
  write_cursor : CursorPosition
}.

(** ** Checks on records; the [Err(String)] of the source is [false] *)

Definition BufferPipeRecord_validate (p : BufferPipeRecord) : bool :=
  match pr_command p with
  | [] | [] :: _ => false
  | _ =>
      match pr_state p with
      | PrRunning => bool_decide (pr_stop_reason p = None) && bool_decide (pr_exit_code p = None)
      | PrStopped => bool_decide (is_Some (pr_stop_reason p))
      end
  end.

Definition BufferRecord_validate (b : BufferRecord) : bool :=
  match br_pipe b with Some pipe => BufferPipeRecord_validate pipe | None => true end
  && match br_kind b with
     | RPty =>
         match br_helper_source_buffer_id b, br_helper_scope b with
         | None, None => true
         | _, _ => false
         end
     | RHelper =>
         match br_pipe b with
         | Some _ => false
         | None =>
             match br_helper_source_buffer_id b, br_helper_scope b with
             | Some _, None | None, Some _ => false
             | _, _ => true
             end
         end
     end.

(** [buffer_ids_in_subtree]: the climb from a node is bounded by the number of
    parents recorded, and gives up as "not below" there. *)
Fixpoint in_subtree (steps : nat) (parents : gmap N (option NodeId)) (root id : NodeId) : bool :=
  match steps with
  | 0 => false
  | S steps =>
      if (id =? root)%N then true
      else match parents !! id with
           | Some (Some parent) => in_subtree steps parents root parent
           | _ => false
           end
  end.
Definition parents_of (ns : list NodeRecord) : gmap N (option NodeId) :=
  foldl (λ m n, <[nr_id n := nr_parent_id n]> m) ∅ ns.
Definition buffer_ids_in_subtree (ns : list NodeRecord) (root : NodeId) : list BufferId :=
  let parents := parents_of ns in
  omap (λ n, view ← nr_buffer_view n;
             if in_subtree (S (size parents)) parents root (nr_id n)
             then Some (bv_buffer_id view) else None) ns.

(** ** Requests *)

Inductive SynchronizePanesMode : Set := SyncToggle | SyncOn | SyncOff.

Inductive SessionRequest : Type :=
  | SrCreate (request_id : RequestId) (name : rstring)
  | SrList (request_id : RequestId)
  | SrGet (request_id : RequestId) (session_id : SessionId)
  | SrClose (request_id : RequestId) (session_id : SessionId) (force : bool)
  | SrRename (request_id : RequestId) (session_id : SessionId) (name : rstring)
  | SrAddRootTab (request_id : RequestId) (session_id : SessionId) (title : rstring)
      (buffer_id : option BufferId) (child_node_id : option NodeId)
  | SrSelectRootTab (request_id : RequestId) (session_id : SessionId) (index : N)
  | SrRenameRootTab (request_id : RequestId) (session_id : SessionId) (index : N)
      (title : rstring)
  | SrCloseRootTab (request_id : RequestId) (session_id : SessionId) (index : N)
  | SrSetRootTabSynchronizePanes (request_id : RequestId) (session_id : SessionId) (index : N)
      (mode : SynchronizePanesMode)
  | SrSetViewport (request_id : RequestId) (session_id : SessionId) (viewport : Size)
      (pane_titles : bool)
  | SrSetBaseIndex (request_id : RequestId) (session_id : SessionId) (base_index : option N)
  | SrSetEnvironment (request_id : RequestId) (session_id : option SessionId) (name : rstring)
      (value : option rstring)
  | SrShowEnvironment (request_id : RequestId) (session_id : option SessionId).

Inductive NodeBreakDestination : Set := BreakTab | BreakFloating.

Inductive NodeRequest : Type :=
  | NrGetTree (request_id : RequestId) (session_id : SessionId)
  | NrSplit (request_id : RequestId) (leaf_node_id : NodeId) (direction : SplitDirection)
      (new_buffer_id : BufferId)
  | NrCreateSplit (request_id : RequestId) (session_id : SessionId) (direction : SplitDirection)
      (child_node_ids : list NodeId) (sizes : list N)
  | NrCreateTabs (request_id : RequestId) (session_id : SessionId)
      (child_node_ids : list NodeId) (titles : list rstring) (active : N)
  | NrReplaceNode (request_id : RequestId) (node_id child_node_id : NodeId)
  | NrWrapInSplit (request_id : RequestId) (node_id child_node_id : NodeId)
      (direction : SplitDirection) (insert_before : bool)
  | NrWrapInTabs (request_id : RequestId) (node_id : NodeId) (title : rstring)
  | NrAddTab (request_id : RequestId) (tabs_node_id : NodeId) (title : rstring)
      (buffer_id : option BufferId) (child_node_id : option NodeId) (index : N)
  | NrSelectTab (request_id : RequestId) (tabs_node_id : NodeId) (index : N)
  | NrFocus (request_id : RequestId) (session_id : SessionId) (node_id : NodeId)
  | NrFocusLast (request_id : RequestId) (session_id : SessionId)
  | NrSelectPane (request_id : RequestId) (session_id : SessionId) (node_id : NodeId)
  | NrClose (request_id : RequestId) (node_id : NodeId)
  | NrMoveBufferToNode (request_id : RequestId) (buffer_id : BufferId)
      (target_leaf_node_id : NodeId)
  | NrResize (request_id : RequestId) (node_id : NodeId) (sizes : list N)
  | NrZoom (request_id : RequestId) (node_id : NodeId)
  | NrUnzoom (request_id : RequestId) (session_id : SessionId)
  | NrToggleZoom (request_id : RequestId) (node_id : NodeId)
  | NrSwapSiblings (request_id : RequestId) (first_node_id second_node_id : NodeId)
  | NrBreakNode (request_id : RequestId) (node_id : NodeId) (destination : NodeBreakDestination)
  | NrJoinBufferAtNode (request_id : RequestId) (node_id : NodeId) (buffer_id : BufferId)
      (placement : NodeJoinPlacement)
  | NrMoveNodeBefore (request_id : RequestId) (node_id sibling_node_id : NodeId)
  | NrMoveNodeAfter (request_id : RequestId) (node_id sibling_node_id : NodeId).

Inductive FloatingRequest : Type :=
  | FrCreate (request_id : RequestId) (session_id : SessionId) (root_node_id : option NodeId)
      (buffer_id : option BufferId) (geometry : FloatGeometry) (title : option rstring)
      (focus close_on_empty border : bool)
  | FrClose (request_id : RequestId) (floating_id : FloatingId)
  | FrMove (request_id : RequestId) (floating_id : FloatingId) (geometry : FloatGeometry)
  | FrFocus (request_id : RequestId) (floating_id : FloatingId).

Inductive ClientRequest : Type :=
  | CrList (request_id : RequestId)
  | CrGet (request_id : RequestId) (client_id : option ClientId)
  | CrDetach (request_id : RequestId) (client_id : option ClientId)
  | CrSwitch (request_id : RequestId) (client_id : option ClientId) (session_id : SessionId)
      (node_id : option NodeId)
  | CrDisplayMessage (request_id : RequestId) (client_id : option ClientId)
      (session_id : option SessionId) (message : rstring) (duration_ms : N)
  | CrSetHostGraphics (request_id : RequestId) (enabled : bool).

Inductive BufferRequest : Type :=
  | BrCreate (request_id : RequestId) (title : option rstring) (command : list rstring)
      (cwd : option rstring) (env : gmap rstring rstring) (size : option PtySize)
      (session_id : option SessionId) (host : option rstring)
  | BrList (request_id : RequestId) (session_id : option SessionId)
      (attached_only detached_only : bool)
  | BrGet (request_id : RequestId) (buffer_id : BufferId)
  | BrInspect (request_id : RequestId) (buffer_id : BufferId)
  | BrWatch (request_id : RequestId) (buffer_id : BufferId)
  | BrUnwatch (request_id : RequestId) (buffer_id : BufferId)
  | BrDetach (request_id : RequestId) (buffer_id : BufferId)
  | BrKill (request_id : RequestId) (buffer_id : BufferId) (force : bool)
  | BrCapture (request_id : RequestId) (buffer_id : BufferId)
  | BrCaptureVisible (request_id : RequestId) (buffer_id : BufferId)
  | BrScrollbackSlice (request_id : RequestId) (buffer_id : BufferId) (start_line line_count : N)
  | BrGetLocation (request_id : RequestId) (buffer_id : BufferId)
  | BrReveal (request_id : RequestId) (buffer_id : BufferId) (client_id : option ClientId)
  | BrOpenHistory (request_id : RequestId) (buffer_id : BufferId) (scope : BufferHistoryScope)
      (placement : BufferHistoryPlacement) (client_id : option ClientId)
  | BrStartPipe (request_id : RequestId) (buffer_id : BufferId) (command : list rstring)
      (cwd : option rstring) (env : gmap rstring rstring)
  | BrStopPipe (request_id : RequestId) (buffer_id : BufferId)
  | BrSetUserOption (request_id : RequestId) (buffer_id : BufferId) (key : rstring)
      (value : option rstring).

Inductive InputRequest : Type :=
  | IrSend (request_id : RequestId) (buffer_id : BufferId) (data : list N)
  | IrResize (request_id : RequestId) (buffer_id : BufferId) (size : PtySize).

Definition SessionRequest_request_id (r : SessionRequest) : RequestId :=
  match r with
  | SrCreate id _ | SrList id | SrGet id _ | SrClose id _ _ | SrRename id _ _
  | SrAddRootTab id _ _ _ _ | SrSelectRootTab id _ _ | SrRenameRootTab id _ _ _
  | SrCloseRootTab id _ _ | SrSetRootTabSynchronizePanes id _ _ _ | SrSetViewport id _ _ _
  | SrSetBaseIndex id _ _ | SrSetEnvironment id _ _ _ | SrShowEnvironment id _ => id
  end.
Definition NodeRequest_request_id (r : NodeRequest) : RequestId :=
  match r with
  | NrGetTree id _ | NrSplit id _ _ _ | NrCreateSplit id _ _ _ _ | NrCreateTabs id _ _ _ _
  | NrReplaceNode id _ _ | NrWrapInSplit id _ _ _ _ | NrWrapInTabs id _ _
  | NrAddTab id _ _ _ _ _ | NrSelectTab id _ _ | NrFocus id _ _ | NrFocusLast id _
  | NrSelectPane id _ _ | NrClose id _ | NrMoveBufferToNode id _ _ | NrResize id _ _
  | NrZoom id _ | NrUnzoom id _ | NrToggleZoom id _ | NrSwapSiblings id _ _
  | NrBreakNode id _ _ | NrJoinBufferAtNode id _ _ _ | NrMoveNodeBefore id _ _
  | NrMoveNodeAfter id _ _ => id
  end.
Definition FloatingRequest_request_id (r : FloatingRequest) : RequestId :=
  match r with FrCreate id _ _ _ _ _ _ _ _ | FrClose id _ | FrMove id _ _ | FrFocus id _ => id end.
Definition ClientRequest_request_id (r : ClientRequest) : RequestId :=
  match r with
  | CrList id | CrGet id _ | CrDetach id _ | CrSwitch id _ _ _ | CrDisplayMessage id _ _ _ _
  | CrSetHostGraphics id _ => id
  end.

Definition BufferRequest_request_id (r : BufferRequest) : RequestId :=
  match r with
  | BrCreate id _ _ _ _ _ _ _ | BrList id _ _ _ | BrGet id _ | BrInspect id _ | BrWatch id _
  | BrUnwatch id _ | BrDetach id _ | BrKill id _ _ | BrCapture id _ | BrCaptureVisible id _
  | BrScrollbackSlice id _ _ _ | BrGetLocation id _ | BrReveal id _ _ | BrOpenHistory id _ _ _ _
  | BrStartPipe id _ _ _ _ | BrStopPipe id _ | BrSetUserOption id _ _ _ => id
  end.
Definition InputRequest_request_id (r : InputRequest) : RequestId :=
  match r with IrSend id _ _ | IrResize id _ _ => id end.

Inductive ClientMessage : Type :=
  | Hello (request_id : RequestId) (protocol_version : N) (software_version : rstring)
  | Ping (request_id : RequestId) (payload : rstring)
  | CmSession (request : SessionRequest)
  | CmBuffer (request : BufferRequest)
  | CmNode (request : NodeRequest)
  | CmFloating (request : FloatingRequest)
  | CmInput (request : InputRequest)
  | CmSubscribe (request_id : RequestId) (session_id : option SessionId)
  | CmUnsubscribe (request_id : RequestId) (subscription_id : N)
  | CmClient (request : ClientRequest)
  | CmKillServer (request_id : RequestId).

Definition ClientMessage_request_id (m : ClientMessage) : RequestId :=
  match m with
  | Hello id _ _ | Ping id _ | CmSubscribe id _ | CmUnsubscribe id _ | CmKillServer id => id
  | CmSession request => SessionRequest_request_id request
  | CmBuffer request => BufferRequest_request_id request
  | CmNode request => NodeRequest_request_id request
  | CmFloating request => FloatingRequest_request_id request
  | CmInput request => InputRequest_request_id request
  | CmClient request => ClientRequest_request_id request
  end.

(** [PROTOCOL_VERSION] ([lib.rs]). *)
Definition PROTOCOL_VERSION : N := 1.

(** ** Responses; an error keeps its code, not its text *)

Record SnapshotResponse : Type := mkSnapshotResponse {
  sn_request_id : RequestId;
  sn_buffer_id : BufferId;
  sn_sequence : N;
  sn_size : PtySize;
  sn_lines : list rstring;
  sn_title : option rstring;
  sn_cwd : option rstring
}.
Record VisibleSnapshotResponse : Type := mkVisibleSnapshotResponse {
  vs_request_id : RequestId;
  vs_buffer_id : BufferId;
  vs_sequence : N;
  vs_size : PtySize;
  vs_lines : list SnapshotLine;
  vs_title : option rstring;
  vs_cwd : option rstring;
  vs_viewport_top_line : N;
  vs_total_lines : N;
  vs_modes : TerminalModes;
  vs_cursor : option CursorState
}.
Record ScrollbackSliceResponse : Type := mkScrollbackSliceResponse {
  sl_request_id : RequestId;
  sl_buffer_id : BufferId;
  sl_start_line : N;
  sl_total_lines : N;
  sl_lines : list SnapshotLine
}.

Inductive ServerResponse : Type :=
  | RHello (request_id : RequestId) (protocol_version : N) (software_version : rstring)
  | RPong (request_id : RequestId) (payload : rstring)
  | ROk (request_id : RequestId)
  | RError (request_id : option RequestId) (code : ErrorCode)
  | RSessions (request_id : RequestId) (sessions : list SessionRecord)
  | RSessionSnapshot (request_id : RequestId) (snapshot : SessionSnapshot)
  | RBuffers (request_id : RequestId) (buffers : list BufferRecord)
  | RBuffer (request_id : RequestId) (buffer : BufferRecord)
  | RFloatingList (request_id : RequestId) (floating : list FloatingRecord)
  | RFloating (request_id : RequestId) (floating : FloatingRecord)
  | RSubscriptionAck (request_id : RequestId) (subscription_id : N)
  | RClients (request_id : RequestId) (clients : list ClientRecord)
  | RClient (request_id : RequestId) (client : ClientRecord)
  | RBufferLocation (request_id : RequestId) (location : BufferLocation)
  | RBufferWithLocation (request_id : RequestId) (buffer : BufferRecord)
      (location : BufferLocation) (at_root_tab : bool)
  | REnvironment (request_id : RequestId) (env : gmap rstring rstring)
  | RSnapshot (snapshot : SnapshotResponse)
  | RVisibleSnapshot (snapshot : VisibleSnapshotResponse)
  | RScrollbackSlice (slice : ScrollbackSliceResponse).

Definition ServerResponse_request_id (r : ServerResponse) : option RequestId :=
  match r with
  | RError id _ => id
  | RHello id _ _ | RPong id _ | ROk id | RSessions id _ | RSessionSnapshot id _ | RBuffers id _
  | RBuffer id _ | RFloatingList id _ | RFloating id _ | RSubscriptionAck id _ | RClients id _ | RClient id _
  | RBufferLocation id _ | RBufferWithLocation id _ _ _ | REnvironment id _ => Some id
  | RSnapshot snapshot => Some (sn_request_id snapshot)
  | RVisibleSnapshot snapshot => Some (vs_request_id snapshot)
  | RScrollbackSlice slice => Some (sl_request_id slice)
  end.

(** [BufferWithLocationResponse::new] *)
Definition BufferWithLocationResponse_new (request_id : RequestId) (b : BufferRecord)
    (location : BufferLocation) (at_root_tab : bool) : option ServerResponse :=
  if negb (br_id b =? loc_buffer_id location)%N then None
  else if negb (BufferRecord_validate b) then None
  else if negb (bool_decide (br_attachment_node_id b = loc_node_id (loc_attachment location)))
       then None
  else if at_root_tab
          && negb match loc_attachment location with LocSession _ _ => true | _ => false end
       then None
  else Some (RBufferWithLocation request_id b location at_root_tab).

(** ** Events *)

Inductive ClipboardSelection : Set := Clipboard | Primary.

Inductive ServerEvent : Type :=
  | EvSessionCreated (session : SessionRecord)
  | EvSessionClosed (session_id : SessionId)
  | EvSessionRenamed (session_id : SessionId) (name : rstring)
  | EvBufferCreated (buffer : BufferRecord)
  | EvBufferPipeChanged (session_id : option SessionId) (buffer : BufferRecord)
  | EvBufferDetached (buffer_id : BufferId)
  | EvNodeChanged (session_id : SessionId)
  | EvFloatingChanged (session_id : SessionId) (floating_id : option FloatingId)
  | EvFocusChanged (session_id : SessionId) (focused_leaf_id : option NodeId)
      (focused_floating_id : option FloatingId)
  | EvRenderInvalidated (buffer_id : BufferId)
  | EvClientChanged (client : ClientRecord) (previous_session_id : option SessionId)
  | EvClipboard (buffer_id : BufferId) (selection : ClipboardSelection) (text : rstring)
  | EvDisplayMessage (message : rstring) (duration_ms : N)
  | EvPassthrough (buffer_id : BufferId) (writes : list PassthroughWrite)
  | EvServerShutdown.

Definition ServerEvent_session_id (e : ServerEvent) : option SessionId :=
  match e with
  | EvSessionCreated session => Some (sr_id session)
  | EvSessionClosed session_id | EvSessionRenamed session_id _ | EvNodeChanged session_id
  | EvFloatingChanged session_id _ | EvFocusChanged session_id _ _ => Some session_id
  | EvBufferPipeChanged session_id _ => session_id
  | EvClientChanged client _ => cr_current_session_id client
  | EvBufferCreated _ | EvBufferDetached _ | EvRenderInvalidated _ | EvClipboard _ _ _
  | EvDisplayMessage _ _ | EvPassthrough _ _ | EvServerShutdown => None
  end.

Definition all_session_ids (e : ServerEvent) : list SessionId :=
  match e with
  | EvClientChanged client previous =>
      option_list previous ++ option_list (cr_current_session_id client)
  | _ => option_list (ServerEvent_session_id e)
  end.

Inductive ServerEnvelope : Type :=
  | SeResponse (response : ServerResponse)
  | SeEvent (event : ServerEvent).
