(* ===== verification/Wire.v ===== *)
(** The tables of a message, [crates/embers-protocol/schema/embers.fbs], as the accessors
    of the generated code read them: a number or a flag is there, with the default of the
    schema when it was not written; a string, a vector or a table may be absent. *)

From S2P Require Import Prelude Core Model Moves Protocol.

(** ** Enumerations

    On the wire an enumeration is a byte, and a byte may name no variant. *)

Class WireEnum (A : Type) : Type := {
  to_wire : A → N;
  variants : list A;
  variant_of_wire a : find_first (λ b, to_wire b =? to_wire a)%N variants = Some a
}.
Definition of_wire `{WireEnum A} (n : N) : option A := find_first (λ a, to_wire a =? n)%N variants.

Inductive MessageKind : Set :=
  | MkPingRequest | MkSessionRequest | MkBufferRequest | MkNodeRequest | MkFloatingRequest
  | MkInputRequest | MkSubscribeRequest | MkUnsubscribeRequest | MkClientRequest
  | MkKillServerRequest | MkHelloRequest
  | MkPingResponse | MkOkResponse | MkErrorResponse | MkSessionsResponse
  | MkSessionSnapshotResponse | MkBuffersResponse | MkBufferResponse | MkFloatingListResponse
  | MkFloatingResponse | MkSubscriptionAckResponse | MkSnapshotResponse
  | MkVisibleSnapshotResponse | MkScrollbackSliceResponse | MkClientsResponse | MkClientResponse
  | MkBufferLocationResponse | MkBufferWithLocationResponse | MkEnvironmentResponse
  | MkHelloResponse
  | MkSessionCreatedEvent | MkSessionClosedEvent | MkBufferCreatedEvent | MkBufferDetachedEvent
  | MkNodeChangedEvent | MkFloatingChangedEvent | MkFocusChangedEvent | MkRenderInvalidatedEvent
  | MkSessionRenamedEvent | MkClientChangedEvent | MkBufferPipeChangedEvent | MkClipboardEvent
  | MkDisplayMessageEvent | MkPassthroughEvent | MkServerShutdownEvent.
#[export] Instance MessageKind_eq_dec : EqDecision MessageKind.
Proof. solve_decision. Defined.
Definition MessageKind_wire (k : MessageKind) : N :=
  match k with
  | MkPingRequest => 1 | MkSessionRequest => 2 | MkBufferRequest => 3 | MkNodeRequest => 4
  | MkFloatingRequest => 5 | MkInputRequest => 6 | MkSubscribeRequest => 7
  | MkUnsubscribeRequest => 8 | MkClientRequest => 9 | MkKillServerRequest => 10
  | MkHelloRequest => 11
  | MkPingResponse => 20 | MkOkResponse => 21 | MkErrorResponse => 22 | MkSessionsResponse => 23
  | MkSessionSnapshotResponse => 24 | MkBuffersResponse => 25 | MkBufferResponse => 26
  | MkFloatingListResponse => 27 | MkFloatingResponse => 28 | MkSubscriptionAckResponse => 29
  | MkSnapshotResponse => 30 | MkVisibleSnapshotResponse => 31 | MkScrollbackSliceResponse => 32
  | MkClientsResponse => 33 | MkClientResponse => 34 | MkBufferLocationResponse => 35
  | MkBufferWithLocationResponse => 36 | MkEnvironmentResponse => 37 | MkHelloResponse => 38
  | MkSessionCreatedEvent => 40 | MkSessionClosedEvent => 41 | MkBufferCreatedEvent => 42
  | MkBufferDetachedEvent => 43 | MkNodeChangedEvent => 44 | MkFloatingChangedEvent => 45
  | MkFocusChangedEvent => 46 | MkRenderInvalidatedEvent => 47 | MkSessionRenamedEvent => 48
  | MkClientChangedEvent => 49 | MkBufferPipeChangedEvent => 50 | MkClipboardEvent => 51
  | MkDisplayMessageEvent => 52 | MkPassthroughEvent => 53 | MkServerShutdownEvent => 54
  end.
#[export] Instance MessageKind_enum : WireEnum MessageKind.
Proof.
  refine {| to_wire := MessageKind_wire; variants :=
    [MkPingRequest; MkSessionRequest; MkBufferRequest; MkNodeRequest; MkFloatingRequest;
     MkInputRequest; MkSubscribeRequest; MkUnsubscribeRequest; MkClientRequest;
     MkKillServerRequest; MkHelloRequest;
     MkPingResponse; MkOkResponse; MkErrorResponse; MkSessionsResponse; MkSessionSnapshotResponse;
     MkBuffersResponse; MkBufferResponse; MkFloatingListResponse; MkFloatingResponse;
     MkSubscriptionAckResponse; MkSnapshotResponse; MkVisibleSnapshotResponse;
     MkScrollbackSliceResponse; MkClientsResponse; MkClientResponse; MkBufferLocationResponse;
     MkBufferWithLocationResponse; MkEnvironmentResponse; MkHelloResponse;
     MkSessionCreatedEvent; MkSessionClosedEvent; MkBufferCreatedEvent; MkBufferDetachedEvent;
     MkNodeChangedEvent; MkFloatingChangedEvent; MkFocusChangedEvent; MkRenderInvalidatedEvent;
     MkSessionRenamedEvent; MkClientChangedEvent; MkBufferPipeChangedEvent; MkClipboardEvent;
     MkDisplayMessageEvent; MkPassthroughEvent; MkServerShutdownEvent] |}.
  by intros [].
Defined.

Inductive SessionOp : Set :=
  | SoCreate | SoList | SoGet | SoClose | SoAddRootTab | SoSelectRootTab | SoRenameRootTab
  | SoCloseRootTab | SoRename | SoSetRootTabSynchronizePanes | SoSetViewport | SoSetEnvironment
  | SoShowEnvironment | SoSetBaseIndex.
Definition SessionOp_wire (op : SessionOp) : N :=
  match op with
  | SoCreate => 0 | SoList => 1 | SoGet => 2 | SoClose => 3 | SoAddRootTab => 4
  | SoSelectRootTab => 5 | SoRenameRootTab => 6 | SoCloseRootTab => 7 | SoRename => 8
  | SoSetRootTabSynchronizePanes => 9 | SoSetViewport => 10 | SoSetEnvironment => 11
  | SoShowEnvironment => 12 | SoSetBaseIndex => 13
  end.
#[export] Instance SessionOp_enum : WireEnum SessionOp.
Proof.
  refine {| to_wire := SessionOp_wire; variants :=
    [SoCreate; SoList; SoGet; SoClose; SoAddRootTab; SoSelectRootTab; SoRenameRootTab; SoCloseRootTab;
     SoRename; SoSetRootTabSynchronizePanes; SoSetViewport; SoSetEnvironment; SoShowEnvironment;
     SoSetBaseIndex] |}.
  by intros [].
Defined.

Inductive BufferOp : Set :=
  | BoCreate | BoList | BoGet | BoDetach | BoKill | BoCapture | BoCaptureVisible | BoScrollbackSlice
  | BoGetLocation | BoReveal | BoOpenHistory | BoInspect | BoStartPipe | BoStopPipe | BoSetUserOption
  | BoWatch | BoUnwatch.
Definition BufferOp_wire (op : BufferOp) : N :=
  match op with
  | BoCreate => 0 | BoList => 1 | BoGet => 2 | BoDetach => 3 | BoKill => 4 | BoCapture => 5
  | BoCaptureVisible => 6 | BoScrollbackSlice => 7 | BoGetLocation => 8 | BoReveal => 9
  | BoOpenHistory => 10 | BoInspect => 11 | BoStartPipe => 12 | BoStopPipe => 13
  | BoSetUserOption => 14 | BoWatch => 15 | BoUnwatch => 16
  end.
#[export] Instance BufferOp_enum : WireEnum BufferOp.
Proof.
  refine {| to_wire := BufferOp_wire; variants :=
    [BoCreate; BoList; BoGet; BoDetach; BoKill; BoCapture; BoCaptureVisible; BoScrollbackSlice;
     BoGetLocation; BoReveal; BoOpenHistory; BoInspect; BoStartPipe; BoStopPipe; BoSetUserOption;
     BoWatch; BoUnwatch] |}.
  by intros [].
Defined.

Inductive NodeOp : Set :=
  | NoGetTree | NoSplit | NoWrapInTabs | NoAddTab | NoSelectTab | NoFocus | NoClose
  | NoMoveBufferToNode | NoResize | NoCreateSplit | NoCreateTabs | NoReplaceNode | NoWrapInSplit
  | NoZoom | NoUnzoom | NoToggleZoom | NoSwapSiblings | NoBreakNode | NoJoinBufferAtNode
  | NoMoveNodeBefore | NoMoveNodeAfter | NoFocusLast | NoSelectPane.
Definition NodeOp_wire (op : NodeOp) : N :=
  match op with
  | NoGetTree => 0 | NoSplit => 1 | NoWrapInTabs => 2 | NoAddTab => 3 | NoSelectTab => 4
  | NoFocus => 5 | NoClose => 6 | NoMoveBufferToNode => 7 | NoResize => 8 | NoCreateSplit => 9
  | NoCreateTabs => 10 | NoReplaceNode => 11 | NoWrapInSplit => 12 | NoZoom => 13 | NoUnzoom => 14
  | NoToggleZoom => 15 | NoSwapSiblings => 16 | NoBreakNode => 17 | NoJoinBufferAtNode => 18
  | NoMoveNodeBefore => 19 | NoMoveNodeAfter => 20 | NoFocusLast => 21 | NoSelectPane => 22
  end.
#[export] Instance NodeOp_enum : WireEnum NodeOp.
Proof.
  refine {| to_wire := NodeOp_wire; variants :=
    [NoGetTree; NoSplit; NoWrapInTabs; NoAddTab; NoSelectTab; NoFocus; NoClose; NoMoveBufferToNode;
     NoResize; NoCreateSplit; NoCreateTabs; NoReplaceNode; NoWrapInSplit; NoZoom; NoUnzoom;
     NoToggleZoom; NoSwapSiblings; NoBreakNode; NoJoinBufferAtNode; NoMoveNodeBefore;
     NoMoveNodeAfter; NoFocusLast; NoSelectPane] |}.
  by intros [].
Defined.

Inductive FloatingOp : Set := FoCreate | FoClose | FoMove | FoFocus.
Definition FloatingOp_wire (op : FloatingOp) : N :=
  match op with FoCreate => 0 | FoClose => 1 | FoMove => 2 | FoFocus => 3 end.
#[export] Instance FloatingOp_enum : WireEnum FloatingOp.
Proof.
  refine {| to_wire := FloatingOp_wire; variants := [FoCreate; FoClose; FoMove; FoFocus] |}.
  by intros [].
Defined.
Inductive InputOp : Set := IoSend | IoResize.
Definition InputOp_wire (op : InputOp) : N := match op with IoSend => 0 | IoResize => 1 end.
#[export] Instance InputOp_enum : WireEnum InputOp.
Proof. refine {| to_wire := InputOp_wire; variants := [IoSend; IoResize] |}. by intros []. Defined.
Inductive ClientOp : Set := CoList | CoGet | CoDetach | CoSwitch | CoDisplayMessage | CoSetHostGraphics.
Definition ClientOp_wire (op : ClientOp) : N :=
  match op with
  | CoList => 0 | CoGet => 1 | CoDetach => 2 | CoSwitch => 3 | CoDisplayMessage => 4
  | CoSetHostGraphics => 5
  end.
#[export] Instance ClientOp_enum : WireEnum ClientOp.
Proof.
  refine {| to_wire := ClientOp_wire; variants :=
    [CoList; CoGet; CoDetach; CoSwitch; CoDisplayMessage; CoSetHostGraphics] |}.
  by intros [].
Defined.

Definition ErrorCode_wire (c : ErrorCode) : N :=
  match c with
  | EcUnknown => 0 | EcInvalidRequest => 1 | EcProtocolViolation => 2 | EcTransport => 3
  | EcNotFound => 4 | EcConflict => 5 | EcUnsupported => 6 | EcTimeout => 7 | EcInternal => 8
  end.
#[export] Instance ErrorCode_enum : WireEnum ErrorCode.
Proof.
  refine {| to_wire := ErrorCode_wire; variants :=
    [EcUnknown; EcInvalidRequest; EcProtocolViolation; EcTransport; EcNotFound; EcConflict;
     EcUnsupported; EcTimeout; EcInternal] |}.
  by intros [].
Defined.
Definition SynchronizePanesMode_wire (m : SynchronizePanesMode) : N :=
  match m with SyncToggle => 0 | SyncOn => 1 | SyncOff => 2 end.
#[export] Instance SynchronizePanesMode_enum : WireEnum SynchronizePanesMode.
Proof.
  refine {| to_wire := SynchronizePanesMode_wire; variants := [SyncToggle; SyncOn; SyncOff] |}.
  by intros [].
Defined.
Definition SplitDirection_wire (d : SplitDirection) : N :=
  match d with Horizontal => 0 | Vertical => 1 end.
#[export] Instance SplitDirection_enum : WireEnum SplitDirection.
Proof.
  refine {| to_wire := SplitDirection_wire; variants := [Horizontal; Vertical] |}. by intros [].
Defined.
Definition ActivityState_wire (a : ActivityState) : N :=
  match a with Idle => 0 | Activity => 1 | Bell => 2 end.
#[export] Instance ActivityState_enum : WireEnum ActivityState.
Proof.
  refine {| to_wire := ActivityState_wire; variants := [Idle; Activity; Bell] |}. by intros [].
Defined.
(** Value 3 is reserved. *)
Definition BufferState_wire (s : BufferRecordState) : N :=
  match s with RCreated => 0 | RRunning => 1 | RExited => 2 | RInterrupted => 4 end.
#[export] Instance BufferState_enum : WireEnum BufferRecordState.
Proof.
  refine {| to_wire := BufferState_wire; variants := [RCreated; RRunning; RExited; RInterrupted] |}.
  by intros [].
Defined.
Definition BufferKind_wire (k : BufferRecordKind) : N := match k with RPty => 0 | RHelper => 1 end.
#[export] Instance BufferKind_enum : WireEnum BufferRecordKind.
Proof. refine {| to_wire := BufferKind_wire; variants := [RPty; RHelper] |}. by intros []. Defined.
Definition encode_buffer_history_scope (s : BufferHistoryScope) : N :=
  match s with HsFull => 0 | HsVisible => 1 end.
#[export] Instance BufferHistoryScope_enum : WireEnum BufferHistoryScope.
Proof.
  refine {| to_wire := encode_buffer_history_scope; variants := [HsFull; HsVisible] |}. by intros [].
Defined.
Definition encode_buffer_history_placement (p : BufferHistoryPlacement) : N :=
  match p with HpTab => 0 | HpFloating => 1 end.
#[export] Instance BufferHistoryPlacement_enum : WireEnum BufferHistoryPlacement.
Proof.
  refine {| to_wire := encode_buffer_history_placement; variants := [HpTab; HpFloating] |}.
  by intros [].
Defined.
Definition PipeState_wire (s : PipeRecordState) : N := match s with PrRunning => 0 | PrStopped => 1 end.
#[export] Instance PipeState_enum : WireEnum PipeRecordState.
Proof. refine {| to_wire := PipeState_wire; variants := [PrRunning; PrStopped] |}. by intros []. Defined.
Definition encode_buffer_pipe_stop_reason (r : BufferPipeStopReason) : N :=
  match r with
  | Requested => 0 | PipeExited => 1 | WriteFailed => 2 | BufferExited => 3 | RuntimeInterrupted => 4
  end.
#[export] Instance PipeStopReason_enum : WireEnum BufferPipeStopReason.
Proof.
  refine {| to_wire := encode_buffer_pipe_stop_reason; variants :=
    [Requested; PipeExited; WriteFailed; BufferExited; RuntimeInterrupted] |}.
  by intros [].
Defined.
Definition encode_node_break_destination (d : NodeBreakDestination) : N :=
  match d with BreakTab => 0 | BreakFloating => 1 end.
#[export] Instance NodeBreakDestination_enum : WireEnum NodeBreakDestination.
Proof.
  refine {| to_wire := encode_node_break_destination; variants := [BreakTab; BreakFloating] |}.
  by intros [].
Defined.
Definition encode_node_join_placement (p : NodeJoinPlacement) : N :=
  match p with
  | JLeft => 0 | JRight => 1 | JUp => 2 | JDown => 3 | JTabBefore => 4 | JTabAfter => 5
  end.
#[export] Instance NodeJoinPlacement_enum : WireEnum NodeJoinPlacement.
Proof.
  refine {| to_wire := encode_node_join_placement; variants :=
    [JLeft; JRight; JUp; JDown; JTabBefore; JTabAfter] |}.
  by intros [].
Defined.
Definition NodeKind_wire (k : NodeRecordKind) : N :=
  match k with NkBufferView => 0 | NkSplit => 1 | NkTabs => 2 end.
#[export] Instance NodeKind_enum : WireEnum NodeRecordKind.
Proof.
  refine {| to_wire := NodeKind_wire; variants := [NkBufferView; NkSplit; NkTabs] |}. by intros [].
Defined.
Definition ClipboardSelection_wire (s : ClipboardSelection) : N :=
  match s with Clipboard => 0 | Primary => 1 end.
#[export] Instance ClipboardSelection_enum : WireEnum ClipboardSelection.
Proof.
  refine {| to_wire := ClipboardSelection_wire; variants := [Clipboard; Primary] |}. by intros [].
Defined.
Definition CursorShape_wire (s : CursorShape) : N :=
  match s with Block => 0 | Underline => 1 | Beam => 2 end.
#[export] Instance CursorShape_enum : WireEnum CursorShape.
Proof.
  refine {| to_wire := CursorShape_wire; variants := [Block; Underline; Beam] |}. by intros [].
Defined.

(** ** Tables of requests *)

Record HelloTable : Type := mkHelloTable { ht_protocol_version : N; ht_software_version : option rstring }.
Record SessionRequestTable : Type := mkSessionRequestTable {
  sqt_op : N;
  sqt_session_id : N;
  sqt_buffer_id : N;
  sqt_child_node_id : N;
  sqt_name : option rstring;
  sqt_title : option rstring;
  sqt_force : bool;
  sqt_index : N;
  sqt_synchronize_panes : N;
  sqt_viewport_cols : N;
  sqt_viewport_rows : N;
  sqt_env_value : option rstring;
  sqt_base_index : N;
  sqt_has_base_index : bool;
  sqt_pane_titles : bool
}.
Record BufferRequestTable : Type := mkBufferRequestTable {
  bqt_op : N;
  bqt_buffer_id : N;
  bqt_session_id : N;
  bqt_client_id : N;
  bqt_attached_only : bool;
  bqt_detached_only : bool;
  bqt_force : bool;
  bqt_start_line : N;
  bqt_line_count : N;
  bqt_history_scope : N;
  bqt_history_placement : N;
  bqt_title : option rstring;
  bqt_command : option (list rstring);
  bqt_cwd : option rstring;
  bqt_env_keys : option (list rstring);
  bqt_env_values : option (list rstring);
  bqt_user_option_key : option rstring;
  bqt_user_option_value : option rstring;
  bqt_pty_cols : N;
  bqt_pty_rows : N;
  bqt_pty_pixel_width : N;
  bqt_pty_pixel_height : N;
  bqt_host : option rstring
}.
Record NodeRequestTable : Type := mkNodeRequestTable {
  nqt_op : N;
  nqt_session_id : N;
  nqt_node_id : N;
  nqt_leaf_node_id : N;
  nqt_tabs_node_id : N;
  nqt_child_node_id : N;
  nqt_target_leaf_node_id : N;
  nqt_buffer_id : N;
  nqt_new_buffer_id : N;
  nqt_title : option rstring;
  nqt_index : N;
  nqt_active : N;
  nqt_direction : N;
  nqt_break_destination : N;
  nqt_join_placement : N;
  nqt_sizes : option (list N);
  nqt_child_node_ids : option (list N);
  nqt_titles : option (list rstring);
  nqt_insert_before : bool;
  nqt_first_node_id : N;
  nqt_second_node_id : N;
  nqt_sibling_node_id : N
}.
Record FloatingRequestTable : Type := mkFloatingRequestTable {
  fqt_op : N;
  fqt_floating_id : N;
  fqt_session_id : N;
  fqt_root_node_id : N;
  fqt_buffer_id : N;
  fqt_title : option rstring;
  fqt_x : N;
  fqt_y : N;
  fqt_width : N;
  fqt_height : N;
  fqt_focus : bool;
  fqt_close_on_empty : bool;
  fqt_border : bool
}.
Record InputRequestTable : Type := mkInputRequestTable {
  iqt_op : N;
  iqt_buffer_id : N;
  iqt_bytes : option (list N);
  iqt_cols : N;
  iqt_rows : N;
  iqt_pixel_width : N;
  iqt_pixel_height : N
}.
Record ClientRequestTable : Type := mkClientRequestTable {
  cqt_op : N;
  cqt_client_id : N;
  cqt_session_id : N;
  cqt_message : option rstring;
  cqt_duration_ms : N;
  cqt_node_id : N;
  cqt_enabled : bool
}.

(** ** Tables of records *)

Record SessionTable : Type := mkSessionTable {
  st_id : N;
  st_name : option rstring;
  st_root_node_id : N;
  st_floating_ids : option (list N);
  st_focused_leaf_id : N;
  st_focused_floating_id : N;
  st_zoomed_node_id : N;
  st_viewport_cols : N;
  st_viewport_rows : N;
  st_base_index : N;
  st_has_base_index : bool;
  st_pane_titles : bool
}.
Record PipeTable : Type := mkPipeTable {
  pt_command : option (list rstring);
  pt_state : N;
  pt_pid : N;
  pt_has_pid : bool;
  pt_exit_code : Z;
  pt_has_exit_code : bool;
  pt_stop_reason : N;
  pt_has_stop_reason : bool
}.
Record BufferTable : Type := mkBufferTable {
  bt_id : N;
  bt_title : option rstring;
  bt_command : option (list rstring);
  bt_cwd : option rstring;
  bt_pipe : option PipeTable;
  bt_kind : N;
  bt_state : N;
  bt_pid : N;
  bt_has_pid : bool;
  bt_attachment_node_id : N;
  bt_read_only : bool;
  bt_helper_source_buffer_id : N;
  bt_helper_scope : N;
  bt_has_helper_scope : bool;
  bt_pty_cols : N;
  bt_pty_rows : N;
  bt_pty_pixel_width : N;
  bt_pty_pixel_height : N;
  bt_activity : N;
  bt_last_snapshot_seq : N;
  bt_exit_code : Z;
  bt_has_exit_code : bool;
  bt_env_keys : option (list rstring);
  bt_env_values : option (list rstring);
  bt_user_option_keys : option (list rstring);
  bt_user_option_values : option (list rstring);
  bt_foreground_command : option (list rstring);
  bt_bell_sequence : N;
  bt_host : option rstring
}.
Record BufferViewTable : Type := mkBufferViewTable {
  vt_buffer_id : N;
  vt_focused : bool;
  vt_zoomed : bool;
  vt_follow_output : bool;
  vt_last_render_cols : N;
  vt_last_render_rows : N
}.
Record SplitTable : Type := mkSplitTable {
  splt_direction : N;
  splt_child_ids : option (list N);
  splt_sizes : option (list N)
}.
Record TabTable : Type := mkTabTable {
  tt_title : option rstring;
  tt_child_id : N;
  tt_synchronize_panes : bool
}.
Record TabsTable : Type := mkTabsTable { tst_active : N; tst_tabs : option (list TabTable) }.
Record NodeTable : Type := mkNodeTable {
  nt_id : N;
  nt_session_id : N;
  nt_parent_id : N;
  nt_kind : N;
  nt_buffer_view : option BufferViewTable;
  nt_split : option SplitTable;
  nt_tabs : option TabsTable;
  nt_focus_leaf_id : N
}.
Record FloatingTable : Type := mkFloatingTable {
  ft_id : N;
  ft_session_id : N;
  ft_root_node_id : N;
  ft_title : option rstring;
  ft_x : N;
  ft_y : N;
  ft_width : N;
  ft_height : N;
  ft_focused : bool;
  ft_visible : bool;
  ft_close_on_empty : bool;
  ft_border : bool
}.
Record SnapshotTable : Type := mkSnapshotTable {
  sst_session : option SessionTable;
  sst_nodes : option (list NodeTable);
  sst_buffers : option (list BufferTable);
  sst_floating : option (list FloatingTable)
}.
Record ClientTable : Type := mkClientTable {
  ct_id : N;
  ct_current_session_id : N;
  ct_subscribed_all_sessions : bool;
  ct_subscribed_session_ids : option (list N)
}.
Record LocationTable : Type := mkLocationTable {
  lt_buffer_id : N;
  lt_session_id : N;
  lt_node_id : N;
  lt_floating_id : N
}.

(** ** Tables of terminal contents *)

Record CursorTable : Set := mkCursorTable { cut_row : N; cut_col : N; cut_shape : N }.
(** Structs, whose fields are all there. *)
Record StyledRunWire : Set := mkStyledRunWire {
  rw_len : N;
  rw_fg_kind : N; rw_fg_r : N; rw_fg_g : N; rw_fg_b : N;
  rw_bg_kind : N; rw_bg_r : N; rw_bg_g : N; rw_bg_b : N;
  rw_attrs : N
}.
Record RunColorWire : Set := mkRunColorWire {
  cw_run_index : N; cw_kind : N; cw_r : N; cw_g : N; cw_b : N
}.
Record CellSpanWire : Set := mkCellSpanWire { sw_len : N; sw_width : N }.
Record HyperlinkTable : Type := mkHyperlinkTable { hlt_id : option rstring; hlt_uri : option rstring }.
Record StyledLineTable : Type := mkStyledLineTable {
  slt_line_index : N;
  slt_runs : option (list StyledRunWire);
  slt_underline_colors : option (list RunColorWire);
  slt_links : option (list HyperlinkTable);
  slt_run_links : option (list N);
  slt_cells : option (list CellSpanWire)
}.

(** ** Tables of responses and events *)

Record ErrorTable : Type := mkErrorTable { et_code : N; et_message : option rstring }.
Record BufferWithLocationTable : Type := mkBufferWithLocationTable {
  blt_buffer : option BufferTable;
  blt_location : option LocationTable;
  blt_at_root_tab : bool
}.
Record EnvironmentTable : Type := mkEnvironmentTable {
  envt_keys : option (list rstring);
  envt_values : option (list rstring)
}.
Record SnapshotResponseTable : Type := mkSnapshotResponseTable {
  srt_buffer_id : N;
  srt_sequence : N;
  srt_cols : N;
  srt_rows : N;
  srt_lines : option (list rstring);
  srt_title : option rstring;
  srt_cwd : option rstring
}.
Record VisibleSnapshotTable : Type := mkVisibleSnapshotTable {
  vst_buffer_id : N;
  vst_sequence : N;
  vst_cols : N;
  vst_rows : N;
  vst_lines : option (list rstring);
  vst_title : option rstring;
  vst_cwd : option rstring;
  vst_viewport_top_line : N;
  vst_total_lines : N;
  vst_alternate_screen : bool;
  vst_mouse_reporting : bool;
  vst_focus_reporting : bool;
  vst_bracketed_paste : bool;
  vst_cursor : option CursorTable;
  vst_styles : option (list StyledLineTable);
  vst_keyboard_mode : N;
  vst_pixel_width : N;
  vst_pixel_height : N
}.
Record ScrollbackTable : Type := mkScrollbackTable {
  sbt_buffer_id : N;
  sbt_start_line : N;
  sbt_total_lines : N;
  sbt_lines : option (list rstring);
  sbt_styles : option (list StyledLineTable)
}.
Record SessionRenamedTable : Type := mkSessionRenamedTable {
  srnt_session_id : N; srnt_name : option rstring
}.
Record PipeChangedTable : Type := mkPipeChangedTable {
  pct_session_id : N; pct_buffer : option BufferTable
}.
Record FloatingChangedTable : Type := mkFloatingChangedTable {
  fct_session_id : N; fct_floating_id : N
}.
Record FocusChangedTable : Type := mkFocusChangedTable {
  foct_session_id : N; foct_focused_leaf_id : N; foct_focused_floating_id : N
}.
Record ClientChangedTable : Type := mkClientChangedTable {
  cct_client : option ClientTable; cct_previous_session_id : N
}.
Record ClipboardTable : Type := mkClipboardTable {
  cbt_buffer_id : N; cbt_selection : N; cbt_text : option rstring
}.
Record DisplayMessageTable : Type := mkDisplayMessageTable {
  dmt_message : option rstring; dmt_duration_ms : N
}.
Record PassthroughWriteTable : Type := mkPassthroughWriteTable {
  pwt_data : option (list N); pwt_cursor_row : N; pwt_cursor_col : N
}.
Record PassthroughTable : Type := mkPassthroughTable {
  pat_buffer_id : N; pat_writes : option (list PassthroughWriteTable)
}.

(** ** The envelope

    It has one field per kind of message, holding that message's table. A table of one
    field is that field. *)

Definition table_of (k : MessageKind) : Type :=
  match k with
  | MkHelloRequest | MkHelloResponse => HelloTable
  | MkPingRequest | MkPingResponse => option rstring
  | MkSessionRequest => SessionRequestTable
  | MkBufferRequest => BufferRequestTable
  | MkNodeRequest => NodeRequestTable
  | MkFloatingRequest => FloatingRequestTable
  | MkInputRequest => InputRequestTable
  | MkSubscribeRequest | MkUnsubscribeRequest => N
  | MkClientRequest => ClientRequestTable
  | MkKillServerRequest | MkServerShutdownEvent => Empty_set
  | MkOkResponse => unit
  | MkErrorResponse => ErrorTable
  | MkSessionsResponse => option (list SessionTable)
  | MkSessionSnapshotResponse => option SnapshotTable
  | MkBuffersResponse => option (list BufferTable)
  | MkBufferResponse => option BufferTable
  | MkFloatingListResponse => option (list FloatingTable)
  | MkFloatingResponse => option FloatingTable
  | MkSubscriptionAckResponse => N
  | MkSnapshotResponse => SnapshotResponseTable
  | MkVisibleSnapshotResponse => VisibleSnapshotTable
  | MkScrollbackSliceResponse => ScrollbackTable
  | MkClientsResponse => option (list ClientTable)
  | MkClientResponse => option ClientTable
  | MkBufferLocationResponse => option LocationTable
  | MkBufferWithLocationResponse => BufferWithLocationTable
  | MkEnvironmentResponse => EnvironmentTable
  | MkSessionCreatedEvent => option SessionTable
  | MkSessionClosedEvent | MkBufferDetachedEvent | MkNodeChangedEvent | MkRenderInvalidatedEvent => N
  | MkBufferCreatedEvent => option BufferTable
  | MkFloatingChangedEvent => FloatingChangedTable
  | MkFocusChangedEvent => FocusChangedTable
  | MkSessionRenamedEvent => SessionRenamedTable
  | MkClientChangedEvent => ClientChangedTable
  | MkBufferPipeChangedEvent => PipeChangedTable
  | MkClipboardEvent => ClipboardTable
  | MkDisplayMessageEvent => DisplayMessageTable
  | MkPassthroughEvent => PassthroughTable
  end.

Record Envelope : Type := mkEnvelope {
  env_request_id : N;
  env_kind : N;
  env_tables : list { k : MessageKind & table_of k }
}.
(** The accessor of the field that goes with a kind. *)
Definition env_field (k : MessageKind) (e : Envelope) : option (table_of k) :=
  head (omap (λ f : { k : MessageKind & table_of k },
    match decide (projT1 f = k) with
    | left H => Some (eq_rect _ table_of (projT2 f) _ H)
    | right _ => None
    end) (env_tables e)).
(** [EnvelopeArgs { request_id, kind, <the field of the kind>, ..Default::default() }] *)
Definition envelope (request_id : N) (k : MessageKind) (t : table_of k) : Envelope :=
  mkEnvelope request_id (to_wire k) [existT k t].
Definition bare_envelope (request_id : N) (k : MessageKind) : Envelope :=
  mkEnvelope request_id (to_wire k) [].

Lemma env_field_envelope request_id k t : env_field k (envelope request_id k t) = Some t.
Proof.
  unfold env_field, envelope. cbn. destruct (decide (k = k)) as [H|]; [|done]. cbn.
  by rewrite (proof_irrel H eq_refl).
Qed.
Lemma of_wire_to_wire `{WireEnum A} (a : A) : of_wire (to_wire a) = Some a.
Proof. apply variant_of_wire. Qed.
Lemma of_wire_Some `{WireEnum A} n (a : A) : of_wire n = Some a → to_wire a = n.
Proof. by intros [_ ?%N.eqb_eq]%find_first_Some. Qed.
