(* ===== verification/ClientCodec.v ===== *)
(** Requests on the wire, [crates/embers-protocol/src/codec.rs]: the checks on a request,
    the tables it is sent as, and the request read from an envelope. Every error here is a
    [ProtocolError] about the message, [Protocol]; its text is left out. *)

From S2P Require Import Prelude Core Model Moves Protocol Wire.

(** ** Checks on ids, sizes and commands *)

Definition required {A} (value : option A) : outcome A := ok_or value Protocol.
(** [decode_required_session_id] and the like *)
Definition decode_required_id (id : N) : outcome N := if (id =? 0)%N then Err Protocol else Ok id.
Definition validate_nonzero_id (id : N) : outcome unit := if (id =? 0)%N then Err Protocol else Ok ().
Definition validate_optional_id (id : option N) : outcome unit :=
  match id with Some id => validate_nonzero_id id | None => Ok () end.
Fixpoint validate_required_ids (ids : list N) : outcome unit :=
  match ids with
  | [] => Ok ()
  | id :: ids => validate_nonzero_id id ;; validate_required_ids ids
  end.
Definition validate_cells (cols rows : N) : outcome unit :=
  if ((cols =? 0) || (rows =? 0))%N then Err Protocol else Ok ().
Definition decode_optional_cells (cols rows : N) : outcome (option (N * N)) :=
  if ((cols =? 0) && (rows =? 0))%N then Ok None
  else validate_cells cols rows ;; Ok (Some (cols, rows)).
Definition validate_non_empty_command (command : list rstring) : outcome unit :=
  match command with
  | [] | [] :: _ => Err Protocol
  | _ => Ok ()
  end.
(** [map_or(0, u64::from)] and [(id != 0).then(..)]; [NonZeroU64::get] and [new]. *)
Definition id_or_zero (id : option N) : N := default 0%N id.
Definition nonzero (id : N) : option N := if (id =? 0)%N then None else Some id.

(** ** Checks on requests *)

Definition validate_session_request (r : SessionRequest) : outcome unit :=
  match r with
  | SrCreate _ _ | SrList _ => Ok ()
  | SrAddRootTab _ session_id _ buffer_id child_node_id =>
      validate_nonzero_id session_id ;; validate_optional_id buffer_id ;;
      validate_optional_id child_node_id
  | SrGet _ session_id | SrClose _ session_id _ | SrRename _ session_id _
  | SrSelectRootTab _ session_id _ | SrRenameRootTab _ session_id _ _ | SrCloseRootTab _ session_id _
  | SrSetRootTabSynchronizePanes _ session_id _ _ | SrSetBaseIndex _ session_id _ =>
      validate_nonzero_id session_id
  | SrSetViewport _ session_id viewport _ =>
      validate_nonzero_id session_id ;; validate_cells (width viewport) (height viewport)
  | SrSetEnvironment _ session_id name _ =>
      validate_optional_id session_id ;;
      match name with [] => Err Protocol | _ => Ok () end
  | SrShowEnvironment _ session_id => validate_optional_id session_id
  end.
Definition validate_buffer_request (r : BufferRequest) : outcome unit :=
  match r with
  | BrCreate _ _ _ _ _ size session_id _ =>
      validate_optional_id session_id ;;
      match size with Some size => validate_cells (cols size) (rows size) | None => Ok () end
  | BrList _ session_id _ _ => validate_optional_id session_id
  | BrStartPipe _ buffer_id command _ _ =>
      validate_nonzero_id buffer_id ;; validate_non_empty_command command
  | BrGet _ buffer_id | BrInspect _ buffer_id | BrWatch _ buffer_id | BrUnwatch _ buffer_id
  | BrDetach _ buffer_id | BrKill _ buffer_id _ | BrCapture _ buffer_id | BrCaptureVisible _ buffer_id
  | BrScrollbackSlice _ buffer_id _ _ | BrGetLocation _ buffer_id | BrReveal _ buffer_id _
  | BrOpenHistory _ buffer_id _ _ _ | BrStopPipe _ buffer_id => validate_nonzero_id buffer_id
  | BrSetUserOption _ buffer_id key _ =>
      validate_nonzero_id buffer_id ;;
      match key with [] => Err Protocol | _ => Ok () end
  end.
Definition validate_node_request (r : NodeRequest) : outcome unit :=
  match r with
  | NrGetTree _ session_id | NrUnzoom _ session_id | NrFocusLast _ session_id =>
      validate_nonzero_id session_id
  | NrSplit _ leaf_node_id _ new_buffer_id =>
      validate_nonzero_id leaf_node_id ;; validate_nonzero_id new_buffer_id
  | NrCreateSplit _ session_id _ child_node_ids _ | NrCreateTabs _ session_id child_node_ids _ _ =>
      validate_nonzero_id session_id ;; validate_required_ids child_node_ids
  | NrReplaceNode _ node_id child_node_id | NrWrapInSplit _ node_id child_node_id _ _ =>
      validate_nonzero_id node_id ;; validate_nonzero_id child_node_id
  | NrWrapInTabs _ node_id _ | NrClose _ node_id | NrResize _ node_id _ | NrZoom _ node_id
  | NrToggleZoom _ node_id | NrBreakNode _ node_id _ => validate_nonzero_id node_id
  | NrAddTab _ tabs_node_id _ buffer_id child_node_id _ =>
      validate_nonzero_id tabs_node_id ;; validate_optional_id buffer_id ;;
      validate_optional_id child_node_id
  | NrSelectTab _ tabs_node_id _ => validate_nonzero_id tabs_node_id
  | NrFocus _ session_id node_id | NrSelectPane _ session_id node_id =>
      validate_nonzero_id session_id ;; validate_nonzero_id node_id
  | NrMoveBufferToNode _ buffer_id target_leaf_node_id =>
      validate_nonzero_id buffer_id ;; validate_nonzero_id target_leaf_node_id
  | NrSwapSiblings _ first_node_id second_node_id =>
      validate_nonzero_id first_node_id ;; validate_nonzero_id second_node_id
  | NrJoinBufferAtNode _ node_id buffer_id _ =>
      validate_nonzero_id node_id ;; validate_nonzero_id buffer_id
  | NrMoveNodeBefore _ node_id sibling_node_id | NrMoveNodeAfter _ node_id sibling_node_id =>
      validate_nonzero_id node_id ;; validate_nonzero_id sibling_node_id
  end.
Definition validate_client_request (r : ClientRequest) : outcome unit :=
  match r with
  | CrList _ | CrGet _ _ | CrDetach _ _ | CrSetHostGraphics _ _ => Ok ()
  | CrSwitch _ _ session_id node_id =>
      validate_nonzero_id session_id ;; validate_optional_id node_id
  | CrDisplayMessage _ client_id session_id _ _ =>
      validate_optional_id session_id ;;
      match client_id, session_id with None, None => Err Protocol | _, _ => Ok () end
  end.
Definition validate_floating_request (r : FloatingRequest) : outcome unit :=
  match r with
  | FrCreate _ session_id root_node_id buffer_id _ _ _ _ _ =>
      validate_nonzero_id session_id ;; validate_optional_id root_node_id ;;
      validate_optional_id buffer_id
  | FrClose _ floating_id | FrMove _ floating_id _ | FrFocus _ floating_id =>
      validate_nonzero_id floating_id
  end.
Definition validate_input_request (r : InputRequest) : outcome unit :=
  match r with IrSend _ buffer_id _ | IrResize _ buffer_id _ => validate_nonzero_id buffer_id end.

(** ** Maps of strings

    A [BTreeMap] lists its entries by key, and one read from a list keeps the last entry of
    a key. *)

Fixpoint rstring_le (s t : rstring) : bool :=
  match s, t with
  | [], _ => true
  | _ :: _, [] => false
  | c :: s, d :: t => (c <? d)%N || ((c =? d)%N && rstring_le s t)
  end.
Definition string_entries (m : gmap rstring rstring) : list (rstring * rstring) :=
  merge_sort (λ a b, rstring_le a.1 b.1) (map_to_list m).
Definition string_keys (m : gmap rstring rstring) : list rstring := (string_entries m).*1.
Definition string_values (m : gmap rstring rstring) : list rstring := (string_entries m).*2.
Definition decode_string_map (keys values : option (list rstring)) : outcome (gmap rstring rstring) :=
  match keys, values with
  | None, None => Ok ∅
  | None, Some _ | Some _, None => Err Protocol
  | Some keys, Some values =>
      if length keys =? length values
      then Ok (foldl (λ m kv, <[kv.1 := kv.2]> m) ∅ (zip keys values))
      else Err Protocol
  end.

(** ** Sending a request

    The fields of a table are given as the source gives them: the default, but where the
    request has something to put there. *)

Definition session_request_table (r : SessionRequest) : SessionRequestTable := {|
  sqt_op := to_wire match r with
    | SrCreate _ _ => SoCreate | SrList _ => SoList | SrGet _ _ => SoGet | SrClose _ _ _ => SoClose
    | SrRename _ _ _ => SoRename | SrAddRootTab _ _ _ _ _ => SoAddRootTab
    | SrSelectRootTab _ _ _ => SoSelectRootTab | SrRenameRootTab _ _ _ _ => SoRenameRootTab
    | SrCloseRootTab _ _ _ => SoCloseRootTab
    | SrSetRootTabSynchronizePanes _ _ _ _ => SoSetRootTabSynchronizePanes
    | SrSetViewport _ _ _ _ => SoSetViewport | SrSetBaseIndex _ _ _ => SoSetBaseIndex
    | SrSetEnvironment _ _ _ _ => SoSetEnvironment | SrShowEnvironment _ _ => SoShowEnvironment
    end;
  sqt_session_id := match r with
    | SrCreate _ _ | SrList _ => 0%N
    | SrGet _ session_id | SrClose _ session_id _ | SrRename _ session_id _
    | SrAddRootTab _ session_id _ _ _ | SrSelectRootTab _ session_id _ | SrRenameRootTab _ session_id _ _
    | SrCloseRootTab _ session_id _ | SrSetRootTabSynchronizePanes _ session_id _ _
    | SrSetViewport _ session_id _ _ | SrSetBaseIndex _ session_id _ => session_id
    | SrSetEnvironment _ session_id _ _ | SrShowEnvironment _ session_id => id_or_zero session_id
    end;
  sqt_buffer_id := match r with SrAddRootTab _ _ _ buffer_id _ => id_or_zero buffer_id | _ => 0%N end;
  sqt_child_node_id :=
    match r with SrAddRootTab _ _ _ _ child_node_id => id_or_zero child_node_id | _ => 0%N end;
  sqt_name := match r with
    | SrCreate _ name | SrRename _ _ name | SrSetEnvironment _ _ name _ => Some name
    | _ => None
    end;
  sqt_title := match r with
    | SrAddRootTab _ _ title _ _ | SrRenameRootTab _ _ _ title => Some title
    | _ => None
    end;
  sqt_force := match r with SrClose _ _ force => force | _ => false end;
  sqt_index := match r with
    | SrSelectRootTab _ _ index | SrRenameRootTab _ _ index _ | SrCloseRootTab _ _ index
    | SrSetRootTabSynchronizePanes _ _ index _ => index
    | _ => 0%N
    end;
  sqt_synchronize_panes :=
    to_wire match r with SrSetRootTabSynchronizePanes _ _ _ mode => mode | _ => SyncToggle end;
  sqt_viewport_cols := match r with SrSetViewport _ _ viewport _ => width viewport | _ => 0%N end;
  sqt_viewport_rows := match r with SrSetViewport _ _ viewport _ => height viewport | _ => 0%N end;
  sqt_env_value := match r with SrSetEnvironment _ _ _ value => value | _ => None end;
  sqt_base_index := match r with SrSetBaseIndex _ _ (Some base_index) => base_index | _ => 0%N end;
  sqt_has_base_index := match r with SrSetBaseIndex _ _ (Some _) => true | _ => false end;
  sqt_pane_titles := match r with SrSetViewport _ _ _ pane_titles => pane_titles | _ => false end
|}.
Definition encode_session_request (r : SessionRequest) : outcome Envelope :=
  validate_session_request r ;;
  Ok (envelope (SessionRequest_request_id r) MkSessionRequest (session_request_table r)).

Definition buffer_request_table (r : BufferRequest) : BufferRequestTable :=
  let pty_size := match r with BrCreate _ _ _ _ _ (Some size) _ _ => size | _ => PtySize_new 0 0 end in
  let env := match r with
             | BrCreate _ _ _ _ env _ _ _ | BrStartPipe _ _ _ _ env => Some env
             | _ => None
             end in
  {|
  bqt_op := to_wire match r with
    | BrCreate _ _ _ _ _ _ _ _ => BoCreate | BrList _ _ _ _ => BoList | BrGet _ _ => BoGet
    | BrInspect _ _ => BoInspect | BrWatch _ _ => BoWatch | BrUnwatch _ _ => BoUnwatch
    | BrDetach _ _ => BoDetach | BrKill _ _ _ => BoKill | BrCapture _ _ => BoCapture
    | BrCaptureVisible _ _ => BoCaptureVisible | BrScrollbackSlice _ _ _ _ => BoScrollbackSlice
    | BrGetLocation _ _ => BoGetLocation | BrReveal _ _ _ => BoReveal
    | BrOpenHistory _ _ _ _ _ => BoOpenHistory | BrStartPipe _ _ _ _ _ => BoStartPipe
    | BrStopPipe _ _ => BoStopPipe | BrSetUserOption _ _ _ _ => BoSetUserOption
    end;
  bqt_buffer_id := match r with
    | BrCreate _ _ _ _ _ _ _ _ | BrList _ _ _ _ => 0%N
    | BrGet _ buffer_id | BrInspect _ buffer_id | BrWatch _ buffer_id | BrUnwatch _ buffer_id
    | BrDetach _ buffer_id | BrKill _ buffer_id _ | BrCapture _ buffer_id | BrCaptureVisible _ buffer_id
    | BrScrollbackSlice _ buffer_id _ _ | BrGetLocation _ buffer_id | BrReveal _ buffer_id _
    | BrOpenHistory _ buffer_id _ _ _ | BrStartPipe _ buffer_id _ _ _ | BrStopPipe _ buffer_id
    | BrSetUserOption _ buffer_id _ _ => buffer_id
    end;
  bqt_session_id := match r with
    | BrCreate _ _ _ _ _ _ session_id _ | BrList _ session_id _ _ => id_or_zero session_id
    | _ => 0%N
    end;
  bqt_client_id := match r with
    | BrReveal _ _ client_id | BrOpenHistory _ _ _ _ client_id => id_or_zero client_id
    | _ => 0%N
    end;
  bqt_attached_only := match r with BrList _ _ attached_only _ => attached_only | _ => false end;
  bqt_detached_only := match r with BrList _ _ _ detached_only => detached_only | _ => false end;
  bqt_force := match r with BrKill _ _ force => force | _ => false end;
  bqt_start_line := match r with BrScrollbackSlice _ _ start_line _ => start_line | _ => 0%N end;
  bqt_line_count := match r with BrScrollbackSlice _ _ _ line_count => line_count | _ => 0%N end;
  bqt_history_scope := to_wire match r with BrOpenHistory _ _ scope _ _ => scope | _ => HsFull end;
  bqt_history_placement :=
    to_wire match r with BrOpenHistory _ _ _ placement _ => placement | _ => HpTab end;
  bqt_title := match r with BrCreate _ title _ _ _ _ _ _ => title | _ => None end;
  bqt_command := match r with
    | BrCreate _ _ command _ _ _ _ _ | BrStartPipe _ _ command _ _ => Some command
    | _ => None
    end;
  bqt_cwd := match r with
    | BrCreate _ _ _ cwd _ _ _ _ | BrStartPipe _ _ _ cwd _ => cwd
    | _ => None
    end;
  bqt_env_keys := string_keys <$> env;
  bqt_env_values := string_values <$> env;
  bqt_user_option_key := match r with BrSetUserOption _ _ key _ => Some key | _ => None end;
  bqt_user_option_value := match r with BrSetUserOption _ _ _ value => value | _ => None end;
  bqt_pty_cols := cols pty_size;
  bqt_pty_rows := rows pty_size;
  bqt_pty_pixel_width := pixel_width pty_size;
  bqt_pty_pixel_height := pixel_height pty_size;
  bqt_host := match r with BrCreate _ _ _ _ _ _ _ host => host | _ => None end
|}.
Definition encode_buffer_request (r : BufferRequest) : outcome Envelope :=
  validate_buffer_request r ;;
  Ok (envelope (BufferRequest_request_id r) MkBufferRequest (buffer_request_table r)).

Definition node_request_table (r : NodeRequest) : NodeRequestTable := {|
  nqt_op := to_wire match r with
    | NrGetTree _ _ => NoGetTree | NrSplit _ _ _ _ => NoSplit | NrCreateSplit _ _ _ _ _ => NoCreateSplit
    | NrCreateTabs _ _ _ _ _ => NoCreateTabs | NrReplaceNode _ _ _ => NoReplaceNode
    | NrWrapInSplit _ _ _ _ _ => NoWrapInSplit | NrWrapInTabs _ _ _ => NoWrapInTabs
    | NrAddTab _ _ _ _ _ _ => NoAddTab | NrSelectTab _ _ _ => NoSelectTab | NrFocus _ _ _ => NoFocus
    | NrFocusLast _ _ => NoFocusLast | NrSelectPane _ _ _ => NoSelectPane | NrClose _ _ => NoClose
    | NrMoveBufferToNode _ _ _ => NoMoveBufferToNode | NrResize _ _ _ => NoResize
    | NrZoom _ _ => NoZoom | NrUnzoom _ _ => NoUnzoom | NrToggleZoom _ _ => NoToggleZoom
    | NrSwapSiblings _ _ _ => NoSwapSiblings | NrBreakNode _ _ _ => NoBreakNode
    | NrJoinBufferAtNode _ _ _ _ => NoJoinBufferAtNode | NrMoveNodeBefore _ _ _ => NoMoveNodeBefore
    | NrMoveNodeAfter _ _ _ => NoMoveNodeAfter
    end;
  nqt_session_id := match r with
    | NrGetTree _ session_id | NrCreateSplit _ session_id _ _ _ | NrCreateTabs _ session_id _ _ _
    | NrFocus _ session_id _ | NrSelectPane _ session_id _ | NrUnzoom _ session_id
    | NrFocusLast _ session_id => session_id
    | _ => 0%N
    end;
  nqt_node_id := match r with
    | NrReplaceNode _ node_id _ | NrWrapInSplit _ node_id _ _ _ | NrWrapInTabs _ node_id _
    | NrFocus _ _ node_id | NrSelectPane _ _ node_id | NrClose _ node_id | NrResize _ node_id _
    | NrZoom _ node_id | NrToggleZoom _ node_id | NrBreakNode _ node_id _
    | NrJoinBufferAtNode _ node_id _ _ | NrMoveNodeBefore _ node_id _ | NrMoveNodeAfter _ node_id _ =>
        node_id
    | _ => 0%N
    end;
  nqt_leaf_node_id := match r with NrSplit _ leaf_node_id _ _ => leaf_node_id | _ => 0%N end;
  nqt_tabs_node_id := match r with
    | NrAddTab _ tabs_node_id _ _ _ _ | NrSelectTab _ tabs_node_id _ => tabs_node_id
    | _ => 0%N
    end;
  nqt_child_node_id := match r with
    | NrReplaceNode _ _ child_node_id | NrWrapInSplit _ _ child_node_id _ _ => child_node_id
    | NrAddTab _ _ _ _ child_node_id _ => id_or_zero child_node_id
    | _ => 0%N
    end;
  nqt_target_leaf_node_id := match r with NrMoveBufferToNode _ _ target => target | _ => 0%N end;
  nqt_buffer_id := match r with
    | NrAddTab _ _ _ buffer_id _ _ => id_or_zero buffer_id
    | NrMoveBufferToNode _ buffer_id _ | NrJoinBufferAtNode _ _ buffer_id _ => buffer_id
    | _ => 0%N
    end;
  nqt_new_buffer_id := match r with NrSplit _ _ _ new_buffer_id => new_buffer_id | _ => 0%N end;
  nqt_title := match r with
    | NrWrapInTabs _ _ title | NrAddTab _ _ title _ _ _ => Some title
    | _ => None
    end;
  nqt_index := match r with
    | NrAddTab _ _ _ _ _ index | NrSelectTab _ _ index => index
    | _ => 0%N
    end;
  nqt_active := match r with NrCreateTabs _ _ _ _ active => active | _ => 0%N end;
  nqt_direction := to_wire match r with
    | NrSplit _ _ direction _ | NrCreateSplit _ _ direction _ _ | NrWrapInSplit _ _ _ direction _ =>
        direction
    | _ => Horizontal
    end;
  nqt_break_destination :=
    to_wire match r with NrBreakNode _ _ destination => destination | _ => BreakTab end;
  nqt_join_placement :=
    to_wire match r with NrJoinBufferAtNode _ _ _ placement => placement | _ => JLeft end;
  nqt_sizes := match r with
    | NrCreateSplit _ _ _ _ sizes | NrResize _ _ sizes => Some sizes
    | _ => None
    end;
  nqt_child_node_ids := match r with
    | NrCreateSplit _ _ _ child_node_ids _ | NrCreateTabs _ _ child_node_ids _ _ => Some child_node_ids
    | _ => None
    end;
  nqt_titles := match r with NrCreateTabs _ _ _ titles _ => Some titles | _ => None end;
  nqt_insert_before := match r with NrWrapInSplit _ _ _ _ insert_before => insert_before | _ => false end;
  nqt_first_node_id := match r with NrSwapSiblings _ first_node_id _ => first_node_id | _ => 0%N end;
  nqt_second_node_id := match r with NrSwapSiblings _ _ second_node_id => second_node_id | _ => 0%N end;
  nqt_sibling_node_id := match r with
    | NrMoveNodeBefore _ _ sibling_node_id | NrMoveNodeAfter _ _ sibling_node_id => sibling_node_id
    | _ => 0%N
    end
|}.
Definition encode_node_request (r : NodeRequest) : outcome Envelope :=
  validate_node_request r ;;
  Ok (envelope (NodeRequest_request_id r) MkNodeRequest (node_request_table r)).

Definition floating_request_table (r : FloatingRequest) : FloatingRequestTable :=
  let geom := match r with
              | FrCreate _ _ _ _ geometry _ _ _ _ | FrMove _ _ geometry => geometry
              | _ => mkFloatGeometry 0 0 0 0
              end in
  {|
  fqt_op := to_wire match r with
    | FrCreate _ _ _ _ _ _ _ _ _ => FoCreate | FrClose _ _ => FoClose | FrMove _ _ _ => FoMove
    | FrFocus _ _ => FoFocus
    end;
  fqt_floating_id := match r with
    | FrClose _ floating_id | FrMove _ floating_id _ | FrFocus _ floating_id => floating_id
    | _ => 0%N
    end;
  fqt_session_id := match r with FrCreate _ session_id _ _ _ _ _ _ _ => session_id | _ => 0%N end;
  fqt_root_node_id :=
    match r with FrCreate _ _ root_node_id _ _ _ _ _ _ => id_or_zero root_node_id | _ => 0%N end;
  fqt_buffer_id :=
    match r with FrCreate _ _ _ buffer_id _ _ _ _ _ => id_or_zero buffer_id | _ => 0%N end;
  fqt_title := match r with FrCreate _ _ _ _ _ title _ _ _ => title | _ => None end;
  fqt_x := fx geom;
  fqt_y := fy geom;
  fqt_width := fwidth geom;
  fqt_height := fheight geom;
  fqt_focus := match r with FrCreate _ _ _ _ _ _ focus _ _ => focus | _ => true end;
  fqt_close_on_empty :=
    match r with FrCreate _ _ _ _ _ _ _ close_on_empty _ => close_on_empty | _ => true end;
  fqt_border := match r with FrCreate _ _ _ _ _ _ _ _ border => border | _ => true end
|}.
Definition encode_floating_request (r : FloatingRequest) : outcome Envelope :=
  validate_floating_request r ;;
  Ok (envelope (FloatingRequest_request_id r) MkFloatingRequest (floating_request_table r)).

Definition input_request_table (r : InputRequest) : InputRequestTable :=
  let size := match r with IrResize _ _ size => size | _ => PtySize_new 0 0 end in
  {|
  iqt_op := to_wire match r with IrSend _ _ _ => IoSend | IrResize _ _ _ => IoResize end;
  iqt_buffer_id := match r with IrSend _ buffer_id _ | IrResize _ buffer_id _ => buffer_id end;
  iqt_bytes := match r with IrSend _ _ data => Some data | _ => None end;
  iqt_cols := cols size;
  iqt_rows := rows size;
  iqt_pixel_width := pixel_width size;
  iqt_pixel_height := pixel_height size
|}.
Definition encode_input_request (r : InputRequest) : outcome Envelope :=
  validate_input_request r ;;
  Ok (envelope (InputRequest_request_id r) MkInputRequest (input_request_table r)).

Definition client_request_table (r : ClientRequest) : ClientRequestTable := {|
  cqt_op := to_wire match r with
    | CrList _ => CoList | CrGet _ _ => CoGet | CrDetach _ _ => CoDetach | CrSwitch _ _ _ _ => CoSwitch
    | CrDisplayMessage _ _ _ _ _ => CoDisplayMessage | CrSetHostGraphics _ _ => CoSetHostGraphics
    end;
  cqt_client_id := match r with
    | CrGet _ client_id | CrDetach _ client_id | CrSwitch _ client_id _ _
    | CrDisplayMessage _ client_id _ _ _ => id_or_zero client_id
    | _ => 0%N
    end;
  cqt_session_id := match r with
    | CrSwitch _ _ session_id _ => session_id
    | CrDisplayMessage _ _ session_id _ _ => id_or_zero session_id
    | _ => 0%N
    end;
  cqt_message := match r with CrDisplayMessage _ _ _ message _ => Some message | _ => None end;
  cqt_duration_ms := match r with CrDisplayMessage _ _ _ _ duration_ms => duration_ms | _ => 0%N end;
  cqt_node_id := match r with CrSwitch _ _ _ node_id => id_or_zero node_id | _ => 0%N end;
  cqt_enabled := match r with CrSetHostGraphics _ enabled => enabled | _ => false end
|}.
Definition encode_client_request (r : ClientRequest) : outcome Envelope :=
  validate_client_request r ;;
  Ok (envelope (ClientRequest_request_id r) MkClientRequest (client_request_table r)).

Definition encode_hello_request (request_id : RequestId) (protocol_version : N)
    (software_version : rstring) : Envelope :=
  envelope request_id MkHelloRequest (mkHelloTable protocol_version (Some software_version)).
Definition encode_ping_request (request_id : RequestId) (payload : rstring) : Envelope :=
  envelope request_id MkPingRequest (Some payload).
Definition encode_subscribe_request (request_id : RequestId) (session_id : option SessionId) : Envelope :=
  envelope request_id MkSubscribeRequest (id_or_zero session_id).
Definition encode_unsubscribe_request (request_id : RequestId) (subscription_id : N) : Envelope :=
  envelope request_id MkUnsubscribeRequest subscription_id.

(** [encode_client_message], up to [builder.finish]. *)
Definition client_envelope (m : ClientMessage) : outcome Envelope :=
  match m with
  | Hello request_id protocol_version software_version =>
      Ok (encode_hello_request request_id protocol_version software_version)
  | Ping request_id payload => Ok (encode_ping_request request_id payload)
  | CmSession r => encode_session_request r
  | CmBuffer r => encode_buffer_request r
  | CmNode r => encode_node_request r
  | CmFloating r => encode_floating_request r
  | CmInput r => encode_input_request r
  | CmSubscribe request_id session_id => Ok (encode_subscribe_request request_id session_id)
  | CmUnsubscribe request_id subscription_id => Ok (encode_unsubscribe_request request_id subscription_id)
  | CmClient r => encode_client_request r
  | CmKillServer request_id => Ok (bare_envelope request_id MkKillServerRequest)
  end.

(** ** Reading a request *)

(** A byte that names no variant is an error. *)
Definition known `{WireEnum A} (n : N) : outcome A := ok_or (of_wire n) Protocol.
Definition decode_buffer_history_scope (n : N) : outcome BufferHistoryScope := known n.
Definition decode_buffer_history_placement (n : N) : outcome BufferHistoryPlacement := known n.
Definition decode_buffer_pipe_stop_reason (n : N) : outcome BufferPipeStopReason := known n.
Definition decode_node_break_destination (n : N) : outcome NodeBreakDestination := known n.
Definition decode_node_join_placement (n : N) : outcome NodeJoinPlacement := known n.

Definition decode_session_request (id : RequestId) (t : SessionRequestTable) : outcome SessionRequest :=
  op ← known (sqt_op t);
  match op with
  | SoCreate => name ← required (sqt_name t); Ok (SrCreate id name)
  | SoList => Ok (SrList id)
  | SoGet => session_id ← decode_required_id (sqt_session_id t); Ok (SrGet id session_id)
  | SoClose =>
      session_id ← decode_required_id (sqt_session_id t); Ok (SrClose id session_id (sqt_force t))
  | SoRename =>
      session_id ← decode_required_id (sqt_session_id t);
      name ← required (sqt_name t);
      Ok (SrRename id session_id name)
  | SoAddRootTab =>
      session_id ← decode_required_id (sqt_session_id t);
      title ← required (sqt_title t);
      Ok (SrAddRootTab id session_id title (nonzero (sqt_buffer_id t)) (nonzero (sqt_child_node_id t)))
  | SoSelectRootTab =>
      session_id ← decode_required_id (sqt_session_id t);
      Ok (SrSelectRootTab id session_id (sqt_index t))
  | SoRenameRootTab =>
      session_id ← decode_required_id (sqt_session_id t);
      title ← required (sqt_title t);
      Ok (SrRenameRootTab id session_id (sqt_index t) title)
  | SoCloseRootTab =>
      session_id ← decode_required_id (sqt_session_id t);
      Ok (SrCloseRootTab id session_id (sqt_index t))
  | SoSetRootTabSynchronizePanes =>
      session_id ← decode_required_id (sqt_session_id t);
      mode ← known (sqt_synchronize_panes t);
      Ok (SrSetRootTabSynchronizePanes id session_id (sqt_index t) mode)
  | SoSetBaseIndex =>
      session_id ← decode_required_id (sqt_session_id t);
      Ok (SrSetBaseIndex id session_id (if sqt_has_base_index t then Some (sqt_base_index t) else None))
  | SoSetViewport =>
      validate_cells (sqt_viewport_cols t) (sqt_viewport_rows t) ;;
      session_id ← decode_required_id (sqt_session_id t);
      Ok (SrSetViewport id session_id (mkSize (sqt_viewport_cols t) (sqt_viewport_rows t))
            (sqt_pane_titles t))
  | SoSetEnvironment =>
      name ← required (sqt_name t);
      match name with
      | [] => Err Protocol
      | _ => Ok (SrSetEnvironment id (nonzero (sqt_session_id t)) name (sqt_env_value t))
      end
  | SoShowEnvironment => Ok (SrShowEnvironment id (nonzero (sqt_session_id t)))
  end.

Definition decode_buffer_request (id : RequestId) (t : BufferRequestTable) : outcome BufferRequest :=
  op ← known (bqt_op t);
  r ← match op with
      | BoCreate =>
          command ← required (bqt_command t);
          env ← decode_string_map (bqt_env_keys t) (bqt_env_values t);
          size ← decode_optional_cells (bqt_pty_cols t) (bqt_pty_rows t);
          Ok (BrCreate id (bqt_title t) command (bqt_cwd t) env
                ((λ s, mkPtySize s.1 s.2 (bqt_pty_pixel_width t) (bqt_pty_pixel_height t)) <$> size)
                (nonzero (bqt_session_id t)) (bqt_host t))
      | BoList => Ok (BrList id (nonzero (bqt_session_id t)) (bqt_attached_only t) (bqt_detached_only t))
      | BoGet => buffer_id ← decode_required_id (bqt_buffer_id t); Ok (BrGet id buffer_id)
      | BoWatch => buffer_id ← decode_required_id (bqt_buffer_id t); Ok (BrWatch id buffer_id)
      | BoUnwatch => buffer_id ← decode_required_id (bqt_buffer_id t); Ok (BrUnwatch id buffer_id)
      | BoInspect => buffer_id ← decode_required_id (bqt_buffer_id t); Ok (BrInspect id buffer_id)
      | BoDetach => buffer_id ← decode_required_id (bqt_buffer_id t); Ok (BrDetach id buffer_id)
      | BoKill => buffer_id ← decode_required_id (bqt_buffer_id t); Ok (BrKill id buffer_id (bqt_force t))
      | BoCapture => buffer_id ← decode_required_id (bqt_buffer_id t); Ok (BrCapture id buffer_id)
      | BoCaptureVisible =>
          buffer_id ← decode_required_id (bqt_buffer_id t); Ok (BrCaptureVisible id buffer_id)
      | BoScrollbackSlice =>
          buffer_id ← decode_required_id (bqt_buffer_id t);
          Ok (BrScrollbackSlice id buffer_id (bqt_start_line t) (bqt_line_count t))
      | BoGetLocation => buffer_id ← decode_required_id (bqt_buffer_id t); Ok (BrGetLocation id buffer_id)
      | BoReveal =>
          buffer_id ← decode_required_id (bqt_buffer_id t);
          Ok (BrReveal id buffer_id (nonzero (bqt_client_id t)))
      | BoOpenHistory =>
          buffer_id ← decode_required_id (bqt_buffer_id t);
          scope ← decode_buffer_history_scope (bqt_history_scope t);
          placement ← decode_buffer_history_placement (bqt_history_placement t);
          Ok (BrOpenHistory id buffer_id scope placement (nonzero (bqt_client_id t)))
      | BoStartPipe =>
          buffer_id ← decode_required_id (bqt_buffer_id t);
          command ← required (bqt_command t);
          env ← decode_string_map (bqt_env_keys t) (bqt_env_values t);
          Ok (BrStartPipe id buffer_id command (bqt_cwd t) env)
      | BoStopPipe => buffer_id ← decode_required_id (bqt_buffer_id t); Ok (BrStopPipe id buffer_id)
      | BoSetUserOption =>
          buffer_id ← decode_required_id (bqt_buffer_id t);
          key ← required (bqt_user_option_key t);
          Ok (BrSetUserOption id buffer_id key (bqt_user_option_value t))
      end;
  validate_buffer_request r ;;
  Ok r.

Definition decode_node_request (id : RequestId) (t : NodeRequestTable) : outcome NodeRequest :=
  op ← known (nqt_op t);
  match op with
  | NoGetTree => session_id ← decode_required_id (nqt_session_id t); Ok (NrGetTree id session_id)
  | NoSplit =>
      direction ← known (nqt_direction t);
      leaf_node_id ← decode_required_id (nqt_leaf_node_id t);
      new_buffer_id ← decode_required_id (nqt_new_buffer_id t);
      Ok (NrSplit id leaf_node_id direction new_buffer_id)
  | NoCreateSplit =>
      direction ← known (nqt_direction t);
      child_node_ids ← required (nqt_child_node_ids t);
      child_node_ids ← collect decode_required_id child_node_ids;
      session_id ← decode_required_id (nqt_session_id t);
      Ok (NrCreateSplit id session_id direction child_node_ids (default [] (nqt_sizes t)))
  | NoCreateTabs =>
      child_node_ids ← required (nqt_child_node_ids t);
      child_node_ids ← collect decode_required_id child_node_ids;
      titles ← required (nqt_titles t);
      session_id ← decode_required_id (nqt_session_id t);
      Ok (NrCreateTabs id session_id child_node_ids titles (nqt_active t))
  | NoReplaceNode =>
      node_id ← decode_required_id (nqt_node_id t);
      child_node_id ← decode_required_id (nqt_child_node_id t);
      Ok (NrReplaceNode id node_id child_node_id)
  | NoWrapInSplit =>
      direction ← known (nqt_direction t);
      node_id ← decode_required_id (nqt_node_id t);
      child_node_id ← decode_required_id (nqt_child_node_id t);
      Ok (NrWrapInSplit id node_id child_node_id direction (nqt_insert_before t))
  | NoWrapInTabs =>
      title ← required (nqt_title t);
      node_id ← decode_required_id (nqt_node_id t);
      Ok (NrWrapInTabs id node_id title)
  | NoAddTab =>
      title ← required (nqt_title t);
      tabs_node_id ← decode_required_id (nqt_tabs_node_id t);
      Ok (NrAddTab id tabs_node_id title (nonzero (nqt_buffer_id t)) (nonzero (nqt_child_node_id t))
            (nqt_index t))
  | NoSelectTab =>
      tabs_node_id ← decode_required_id (nqt_tabs_node_id t); Ok (NrSelectTab id tabs_node_id (nqt_index t))
  | NoFocus =>
      session_id ← decode_required_id (nqt_session_id t);
      node_id ← decode_required_id (nqt_node_id t);
      Ok (NrFocus id session_id node_id)
  | NoSelectPane =>
      session_id ← decode_required_id (nqt_session_id t);
      node_id ← decode_required_id (nqt_node_id t);
      Ok (NrSelectPane id session_id node_id)
  | NoClose => node_id ← decode_required_id (nqt_node_id t); Ok (NrClose id node_id)
  | NoMoveBufferToNode =>
      buffer_id ← decode_required_id (nqt_buffer_id t);
      target_leaf_node_id ← decode_required_id (nqt_target_leaf_node_id t);
      Ok (NrMoveBufferToNode id buffer_id target_leaf_node_id)
  | NoResize =>
      sizes ← required (nqt_sizes t);
      node_id ← decode_required_id (nqt_node_id t);
      Ok (NrResize id node_id sizes)
  | NoZoom => node_id ← decode_required_id (nqt_node_id t); Ok (NrZoom id node_id)
  | NoUnzoom => session_id ← decode_required_id (nqt_session_id t); Ok (NrUnzoom id session_id)
  | NoFocusLast => session_id ← decode_required_id (nqt_session_id t); Ok (NrFocusLast id session_id)
  | NoToggleZoom => node_id ← decode_required_id (nqt_node_id t); Ok (NrToggleZoom id node_id)
  | NoSwapSiblings =>
      first_node_id ← decode_required_id (nqt_first_node_id t);
      second_node_id ← decode_required_id (nqt_second_node_id t);
      Ok (NrSwapSiblings id first_node_id second_node_id)
  | NoBreakNode =>
      node_id ← decode_required_id (nqt_node_id t);
      destination ← decode_node_break_destination (nqt_break_destination t);
      Ok (NrBreakNode id node_id destination)
  | NoJoinBufferAtNode =>
      node_id ← decode_required_id (nqt_node_id t);
      buffer_id ← decode_required_id (nqt_buffer_id t);
      placement ← decode_node_join_placement (nqt_join_placement t);
      Ok (NrJoinBufferAtNode id node_id buffer_id placement)
  | NoMoveNodeBefore =>
      node_id ← decode_required_id (nqt_node_id t);
      sibling_node_id ← decode_required_id (nqt_sibling_node_id t);
      Ok (NrMoveNodeBefore id node_id sibling_node_id)
  | NoMoveNodeAfter =>
      node_id ← decode_required_id (nqt_node_id t);
      sibling_node_id ← decode_required_id (nqt_sibling_node_id t);
      Ok (NrMoveNodeAfter id node_id sibling_node_id)
  end.

Definition decode_floating_request (id : RequestId) (t : FloatingRequestTable) : outcome FloatingRequest :=
  let geometry := mkFloatGeometry (fqt_x t) (fqt_y t) (fqt_width t) (fqt_height t) in
  op ← known (fqt_op t);
  match op with
  | FoCreate =>
      session_id ← decode_required_id (fqt_session_id t);
      Ok (FrCreate id session_id (nonzero (fqt_root_node_id t)) (nonzero (fqt_buffer_id t)) geometry
            (fqt_title t) (fqt_focus t) (fqt_close_on_empty t) (fqt_border t))
  | FoClose => floating_id ← decode_required_id (fqt_floating_id t); Ok (FrClose id floating_id)
  | FoMove => floating_id ← decode_required_id (fqt_floating_id t); Ok (FrMove id floating_id geometry)
  | FoFocus => floating_id ← decode_required_id (fqt_floating_id t); Ok (FrFocus id floating_id)
  end.
Definition decode_input_request (id : RequestId) (t : InputRequestTable) : outcome InputRequest :=
  op ← known (iqt_op t);
  match op with
  | IoSend =>
      bytes ← required (iqt_bytes t);
      buffer_id ← decode_required_id (iqt_buffer_id t);
      Ok (IrSend id buffer_id bytes)
  | IoResize =>
      buffer_id ← decode_required_id (iqt_buffer_id t);
      Ok (IrResize id buffer_id
            (mkPtySize (iqt_cols t) (iqt_rows t) (iqt_pixel_width t) (iqt_pixel_height t)))
  end.
Definition decode_client_request (id : RequestId) (t : ClientRequestTable) : outcome ClientRequest :=
  let client_id := nonzero (cqt_client_id t) in
  op ← known (cqt_op t);
  match op with
  | CoList => Ok (CrList id)
  | CoGet => Ok (CrGet id client_id)
  | CoDetach => Ok (CrDetach id client_id)
  | CoSwitch =>
      session_id ← decode_required_id (cqt_session_id t);
      Ok (CrSwitch id client_id session_id (nonzero (cqt_node_id t)))
  | CoDisplayMessage =>
      let session_id := nonzero (cqt_session_id t) in
      match client_id, session_id with
      | None, None => Err Protocol
      | _, _ =>
          message ← required (cqt_message t);
          Ok (CrDisplayMessage id client_id session_id message (cqt_duration_ms t))
      end
  | CoSetHostGraphics => Ok (CrSetHostGraphics id (cqt_enabled t))
  end.

(** [decode_client_message], from [root_as_envelope] on. *)
Definition client_message (e : Envelope) : outcome ClientMessage :=
  let id := env_request_id e in
  kind ← known (env_kind e);
  match kind with
  | MkHelloRequest =>
      t ← required (env_field MkHelloRequest e);
      software_version ← required (ht_software_version t);
      Ok (Hello id (ht_protocol_version t) software_version)
  | MkPingRequest =>
      t ← required (env_field MkPingRequest e);
      payload ← required t;
      Ok (Ping id payload)
  | MkSessionRequest =>
      t ← required (env_field MkSessionRequest e); r ← decode_session_request id t; Ok (CmSession r)
  | MkBufferRequest =>
      t ← required (env_field MkBufferRequest e); r ← decode_buffer_request id t; Ok (CmBuffer r)
  | MkNodeRequest =>
      t ← required (env_field MkNodeRequest e); r ← decode_node_request id t; Ok (CmNode r)
  | MkFloatingRequest =>
      t ← required (env_field MkFloatingRequest e); r ← decode_floating_request id t; Ok (CmFloating r)
  | MkInputRequest =>
      t ← required (env_field MkInputRequest e); r ← decode_input_request id t; Ok (CmInput r)
  | MkKillServerRequest => Ok (CmKillServer id)
  | MkSubscribeRequest =>
      session_id ← required (env_field MkSubscribeRequest e); Ok (CmSubscribe id (nonzero session_id))
  | MkUnsubscribeRequest =>
      subscription_id ← required (env_field MkUnsubscribeRequest e); Ok (CmUnsubscribe id subscription_id)
  | MkClientRequest =>
      t ← required (env_field MkClientRequest e); r ← decode_client_request id t; Ok (CmClient r)
  | _ => Err Protocol
  end.

(** ** Bytes

    The FlatBuffers crate turns an envelope into bytes and finds one in them. *)
Section bytes.
Context (finish : Envelope → list N) (root_as_envelope : list N → option Envelope).

Definition encode_client_message (m : ClientMessage) : outcome (list N) :=
  e ← client_envelope m; Ok (finish e).
Definition decode_client_message (bytes : list N) : outcome ClientMessage :=
  e ← ok_or (root_as_envelope bytes) Protocol; client_message e.
End bytes.
