(* ===== verification/RecordCodec.v ===== *)
(** The records a server sends, [crates/embers-protocol/src/codec.rs]: terminal contents, and
    the sessions, buffers, nodes, windows and clients of its state, as tables and back. *)

From S2P Require Import Prelude Core Model Moves Protocol Wire ClientCodec.

(** ** Terminal contents *)

Definition encode_cursor_state (cursor : CursorState) : CursorTable :=
  mkCursorTable (cp_row (cursor_position cursor)) (cp_col (cursor_position cursor))
    (to_wire (cursor_shape cursor)).
Definition decode_cursor_state (t : CursorTable) : outcome CursorState :=
  shape ← known (cut_shape t);
  Ok (mkCursorState (mkCursorPosition (cut_row t) (cut_col t)) shape).

(** Kind, and the index or the three components. *)
Definition encode_term_color (c : TermColor) : N * N * N * N :=
  match c with
  | ColorDefault => (0, 0, 0, 0)
  | Indexed i => (1, i, 0, 0)
  | Rgb r g b => (2, r, g, b)
  end%N.
Definition decode_term_color (kind r g b : N) : TermColor :=
  match kind with
  | 1 => Indexed r
  | 2 => Rgb r g b
  | _ => ColorDefault
  end%N.
Definition TermColor_is_default (c : TermColor) : bool :=
  match c with ColorDefault => true | _ => false end.

Definition encode_styled_run (r : StyledRun) : StyledRunWire :=
  let '(fg_kind, fg_r, fg_g, fg_b) := encode_term_color (run_fg r) in
  let '(bg_kind, bg_r, bg_g, bg_b) := encode_term_color (run_bg r) in
  mkStyledRunWire (run_len r) fg_kind fg_r fg_g fg_b bg_kind bg_r bg_g bg_b (run_attrs r).
Definition decode_styled_run (w : StyledRunWire) : StyledRun :=
  mkStyledRun (rw_len w) (decode_term_color (rw_fg_kind w) (rw_fg_r w) (rw_fg_g w) (rw_fg_b w))
    (decode_term_color (rw_bg_kind w) (rw_bg_r w) (rw_bg_g w) (rw_bg_b w)) (rw_attrs w) ColorDefault 0.

Definition u32_max : N := 4294967295.
(** [u32::try_from(index).unwrap_or(u32::MAX)] *)
Definition index_u32 (index : nat) : N := N.min u32_max (N.of_nat index).

Definition set_underline_color (c : TermColor) (r : StyledRun) : StyledRun :=
  mkStyledRun (run_len r) (run_fg r) (run_bg r) (run_attrs r) c (run_link r).
Definition set_link (link : N) (r : StyledRun) : StyledRun :=
  mkStyledRun (run_len r) (run_fg r) (run_bg r) (run_attrs r) (run_underline_color r) link.

(** [.iter().enumerate().filter(..).map(..)] *)
Definition enumerated {A B} (f : nat → A → option B) (l : list A) : list B :=
  omap (λ ix, f ix.1 ix.2) (imap pair l).

Definition encode_underline_colors (runs : list StyledRun) : option (list RunColorWire) :=
  if forallb (λ r, TermColor_is_default (run_underline_color r)) runs then None
  else Some (enumerated (λ index r,
    if TermColor_is_default (run_underline_color r) then None
    else let '(kind, red, green, blue) := encode_term_color (run_underline_color r) in
         Some (mkRunColorWire (index_u32 index) kind red green blue)) runs).
Definition encode_line_links (l : SnapshotLine) : option (list HyperlinkTable) * option (list N) :=
  match line_links l with
  | [] => (None, None)
  | links =>
      if forallb (λ r, run_link r =? 0)%N (line_runs l) then (None, None)
      else (Some ((λ k, mkHyperlinkTable (link_id k) (Some (link_uri k))) <$> links),
            Some (run_link <$> line_runs l))
  end.
Definition nonempty {A} (l : list A) : bool := match l with [] => false | _ => true end.
Definition annotated (l : SnapshotLine) : bool := nonempty (line_runs l) || nonempty (line_cell_spans l).
Definition encode_styled_line (index : nat) (l : SnapshotLine) : StyledLineTable := {|
  slt_line_index := index_u32 index;
  slt_runs := Some (encode_styled_run <$> line_runs l);
  slt_underline_colors := encode_underline_colors (line_runs l);
  slt_links := (encode_line_links l).1;
  slt_run_links := (encode_line_links l).2;
  slt_cells := if nonempty (line_cell_spans l)
               then Some ((λ s, mkCellSpanWire (span_len s) (span_width s)) <$> line_cell_spans l)
               else None
|}.
Definition encode_styled_lines (lines : list SnapshotLine) : option (list StyledLineTable) :=
  if existsb annotated lines
  then Some (enumerated (λ index l, if annotated l then Some (encode_styled_line index l) else None) lines)
  else None.

(** The runs with the links of the line put on them, and the links. *)
Definition decode_line_links (t : StyledLineTable) (runs : list StyledRun)
    : list StyledRun * list Hyperlink :=
  match slt_links t, slt_run_links t with
  | Some links, Some run_links =>
      if length run_links =? length runs
      then (zip_with (λ r link, set_link link r) runs run_links,
            (λ k, mkHyperlink (hlt_id k) (default [] (hlt_uri k))) <$> links)
      else (runs, [])
  | _, _ => (runs, [])
  end.
Definition decode_underline_colors (t : StyledLineTable) (runs : list StyledRun) : list StyledRun :=
  foldl (λ runs c,
    alter (set_underline_color (decode_term_color (cw_kind c) (cw_r c) (cw_g c) (cw_b c)))
      (N.to_nat (cw_run_index c)) runs)
    runs (default [] (slt_underline_colors t)).
(** One pass of the loop over the entries. *)
Definition styled_entry (per_line : list (list StyledRun * list Hyperlink * list CellSpan))
    (t : StyledLineTable) : list (list StyledRun * list Hyperlink * list CellSpan) :=
  match slt_runs t with
  | Some runs =>
      if (slt_line_index t <? N.of_nat (length per_line))%N
      then <[N.to_nat (slt_line_index t) :=
               (decode_line_links t (decode_underline_colors t (decode_styled_run <$> runs)),
                (λ s, mkCellSpan (sw_len s) (sw_width s)) <$> default [] (slt_cells t))]> per_line
      else per_line
  | None => per_line
  end.
(** The sum is of [u32]s in a [u64], and a line has fewer than 2^32 runs. *)
Definition covers (text : rstring) (runs : list StyledRun) : bool :=
  match runs with [] => true | _ => (sum_N (run_len <$> runs) =? byte_len text)%N end.
Definition styled_line (text : rstring) (style : list StyledRun * list Hyperlink * list CellSpan)
    : SnapshotLine :=
  let '(runs, links, cell_spans) := style in
  if covers text runs then mkSnapshotLine text runs links cell_spans
  else mkSnapshotLine text [] [] cell_spans.
Definition decode_styled_lines (texts : list rstring) (styles : option (list StyledLineTable))
    : list SnapshotLine :=
  zip_with styled_line texts
    (foldl styled_entry (replicate (length texts) ([], [], [])) (default [] styles)).

(** ** Checks on records *)

Definition valid (b : bool) : outcome unit := if b then Ok () else Err Protocol.
(** [for x in l { f(x)?; }] *)
Definition validate_all {A} (f : A → outcome unit) (l : list A) : outcome unit :=
  fold_ok (λ _, f) () l.
Definition validate_buffer_location (location : BufferLocation) : outcome unit :=
  validate_nonzero_id (loc_buffer_id location) ;;
  match loc_attachment location with
  | LocDetached => Ok ()
  | LocSession session_id node_id => validate_nonzero_id session_id ;; validate_nonzero_id node_id
  | LocFloating session_id node_id floating_id =>
      validate_nonzero_id session_id ;; validate_nonzero_id node_id ;; validate_nonzero_id floating_id
  end.
Definition validate_session_record (r : SessionRecord) : outcome unit :=
  validate_nonzero_id (sr_id r) ;;
  validate_nonzero_id (sr_root_node_id r) ;;
  validate_required_ids (sr_floating_ids r) ;;
  validate_optional_id (sr_focused_leaf_id r) ;;
  validate_optional_id (sr_focused_floating_id r) ;;
  validate_optional_id (sr_zoomed_node_id r) ;;
  match sr_viewport r with
  | Some viewport => validate_cells (width viewport) (height viewport)
  | None => Ok ()
  end.
Definition validate_buffer_pipe_record (r : BufferPipeRecord) : outcome unit :=
  valid (BufferPipeRecord_validate r).
Definition validate_buffer_record (r : BufferRecord) : outcome unit :=
  validate_nonzero_id (br_id r) ;;
  validate_optional_id (br_attachment_node_id r) ;;
  validate_optional_id (br_helper_source_buffer_id r) ;;
  match br_pipe r with Some pipe => validate_buffer_pipe_record pipe | None => Ok () end ;;
  valid (BufferRecord_validate r).
Definition validate_node_record (r : NodeRecord) : outcome unit :=
  validate_nonzero_id (nr_id r) ;;
  validate_nonzero_id (nr_session_id r) ;;
  validate_optional_id (nr_parent_id r) ;;
  validate_optional_id (nr_focus_leaf_id r) ;;
  match nr_buffer_view r with Some view => validate_nonzero_id (bv_buffer_id view) | None => Ok () end ;;
  match nr_split r with Some split => validate_required_ids (spr_child_ids split) | None => Ok () end ;;
  match nr_tabs r with
  | Some tabs => validate_all (λ tab, validate_nonzero_id (tr_child_id tab)) (tsr_tabs tabs)
  | None => Ok ()
  end.
Definition validate_floating_record (r : FloatingRecord) : outcome unit :=
  validate_nonzero_id (fr_id r) ;;
  validate_nonzero_id (fr_session_id r) ;;
  validate_nonzero_id (fr_root_node_id r).
Definition validate_client_record (r : ClientRecord) : outcome unit :=
  validate_nonzero_id (cr_id r) ;;
  validate_optional_id (cr_current_session_id r) ;;
  validate_required_ids (cr_subscribed_session_ids r).
Definition validate_session_snapshot (s : SessionSnapshot) : outcome unit :=
  validate_session_record (ss_session s) ;;
  validate_all validate_node_record (ss_nodes s) ;;
  validate_all validate_buffer_record (ss_buffers s) ;;
  validate_all validate_floating_record (ss_floating s).

(** ** Writing records *)

Definition encode_buffer_location_fields (location : BufferLocation) : LocationTable :=
  let b := loc_buffer_id location in
  match loc_attachment location with
  | LocDetached => mkLocationTable b 0 0 0
  | LocSession session_id node_id => mkLocationTable b session_id node_id 0
  | LocFloating session_id node_id floating_id => mkLocationTable b session_id node_id floating_id
  end.
Definition is_some {A} (o : option A) : bool := match o with Some _ => true | None => false end.
Definition encode_session_record (r : SessionRecord) : SessionTable := {|
  st_id := sr_id r;
  st_name := Some (sr_name r);
  st_root_node_id := sr_root_node_id r;
  st_floating_ids := Some (sr_floating_ids r);
  st_focused_leaf_id := id_or_zero (sr_focused_leaf_id r);
  st_focused_floating_id := id_or_zero (sr_focused_floating_id r);
  st_zoomed_node_id := id_or_zero (sr_zoomed_node_id r);
  st_viewport_cols := match sr_viewport r with Some viewport => width viewport | None => 0%N end;
  st_viewport_rows := match sr_viewport r with Some viewport => height viewport | None => 0%N end;
  st_base_index := default 0%N (sr_base_index r);
  st_has_base_index := is_some (sr_base_index r);
  st_pane_titles := sr_pane_titles r
|}.
Definition encode_buffer_pipe_record (r : BufferPipeRecord) : PipeTable := {|
  pt_command := Some (pr_command r);
  pt_state := to_wire (pr_state r);
  pt_pid := default 0%N (pr_pid r);
  pt_has_pid := is_some (pr_pid r);
  pt_exit_code := default 0%Z (pr_exit_code r);
  pt_has_exit_code := is_some (pr_exit_code r);
  pt_stop_reason := to_wire (default Requested (pr_stop_reason r));
  pt_has_stop_reason := is_some (pr_stop_reason r)
|}.
Definition encode_buffer_record (r : BufferRecord) : BufferTable := {|
  bt_id := br_id r;
  bt_title := Some (br_title r);
  bt_command := Some (br_command r);
  bt_cwd := br_cwd r;
  bt_pipe := encode_buffer_pipe_record <$> br_pipe r;
  bt_kind := to_wire (br_kind r);
  bt_state := to_wire (br_state r);
  bt_pid := default 0%N (br_pid r);
  bt_has_pid := is_some (br_pid r);
  bt_attachment_node_id := id_or_zero (br_attachment_node_id r);
  bt_read_only := br_read_only r;
  bt_helper_source_buffer_id := id_or_zero (br_helper_source_buffer_id r);
  bt_helper_scope := to_wire (default HsFull (br_helper_scope r));
  bt_has_helper_scope := is_some (br_helper_scope r);
  bt_pty_cols := cols (br_pty_size r);
  bt_pty_rows := rows (br_pty_size r);
  bt_pty_pixel_width := pixel_width (br_pty_size r);
  bt_pty_pixel_height := pixel_height (br_pty_size r);
  bt_activity := to_wire (br_activity r);
  bt_last_snapshot_seq := br_last_snapshot_seq r;
  bt_exit_code := default 0%Z (br_exit_code r);
  bt_has_exit_code := is_some (br_exit_code r);
  bt_env_keys := Some (string_keys (br_env r));
  bt_env_values := Some (string_values (br_env r));
  bt_user_option_keys := Some (string_keys (br_user_options r));
  bt_user_option_values := Some (string_values (br_user_options r));
  bt_foreground_command := match br_foreground_command r with Some [] => None | command => command end;
  bt_bell_sequence := br_bell_sequence r;
  bt_host := br_host r
|}.
Definition encode_buffer_view (v : BufferViewRecord) : BufferViewTable :=
  mkBufferViewTable (bv_buffer_id v) (bv_focused v) (bv_zoomed v) (bv_follow_output v)
    (cols (bv_last_render_size v)) (rows (bv_last_render_size v)).
Definition encode_split (s : SplitRecord) : SplitTable :=
  mkSplitTable (to_wire (spr_direction s)) (Some (spr_child_ids s)) (Some (spr_sizes s)).
Definition encode_tabs (t : TabsRecord) : TabsTable :=
  mkTabsTable (tsr_active t)
    (Some ((λ tab, mkTabTable (Some (tr_title tab)) (tr_child_id tab) (tr_synchronize_panes tab))
             <$> tsr_tabs t)).
Definition encode_node_record (r : NodeRecord) : NodeTable := {|
  nt_id := nr_id r;
  nt_session_id := nr_session_id r;
  nt_parent_id := id_or_zero (nr_parent_id r);
  nt_kind := to_wire (nr_kind r);
  nt_buffer_view := encode_buffer_view <$> nr_buffer_view r;
  nt_split := encode_split <$> nr_split r;
  nt_tabs := encode_tabs <$> nr_tabs r;
  nt_focus_leaf_id := id_or_zero (nr_focus_leaf_id r)
|}.
Definition encode_floating_record (r : FloatingRecord) : FloatingTable := {|
  ft_id := fr_id r;
  ft_session_id := fr_session_id r;
  ft_root_node_id := fr_root_node_id r;
  ft_title := fr_title r;
  ft_x := fx (fr_geometry r);
  ft_y := fy (fr_geometry r);
  ft_width := fwidth (fr_geometry r);
  ft_height := fheight (fr_geometry r);
  ft_focused := fr_focused r;
  ft_visible := fr_visible r;
  ft_close_on_empty := fr_close_on_empty r;
  ft_border := fr_border r
|}.
Definition encode_client_record (r : ClientRecord) : ClientTable := {|
  ct_id := cr_id r;
  ct_current_session_id := id_or_zero (cr_current_session_id r);
  ct_subscribed_all_sessions := cr_subscribed_all_sessions r;
  ct_subscribed_session_ids := Some (cr_subscribed_session_ids r)
|}.
Definition encode_session_snapshot (s : SessionSnapshot) : SnapshotTable := {|
  sst_session := Some (encode_session_record (ss_session s));
  sst_nodes := Some (encode_node_record <$> ss_nodes s);
  sst_buffers := Some (encode_buffer_record <$> ss_buffers s);
  sst_floating := Some (encode_floating_record <$> ss_floating s)
|}.

(** ** Reading records *)

Definition decode_buffer_location (t : LocationTable) : outcome BufferLocation :=
  let '(mkLocationTable buffer_id session_id node_id floating_id) := t in
  if (buffer_id =? 0)%N then Err Protocol
  else if ((session_id =? 0) && (node_id =? 0) && (floating_id =? 0))%N
  then Ok (mkBufferLocation buffer_id LocDetached)
  else if ((floating_id =? 0) && negb (session_id =? 0) && negb (node_id =? 0))%N
  then Ok (mkBufferLocation buffer_id (LocSession session_id node_id))
  else if (negb (session_id =? 0) && negb (node_id =? 0) && negb (floating_id =? 0))%N
  then Ok (mkBufferLocation buffer_id (LocFloating session_id node_id floating_id))
  else Err Protocol.
(** [flag.then(|| value)] *)
Definition then_some {A} (flag : bool) (value : A) : option A := if flag then Some value else None.
(** [o.map(f).transpose()] *)
Definition transpose {A B} (f : A → outcome B) (o : option A) : outcome (option B) :=
  match o with Some a => b ← f a; Ok (Some b) | None => Ok None end.
Definition decode_session_record (t : SessionTable) : outcome SessionRecord :=
  name ← required (st_name t);
  floating_ids ← required (st_floating_ids t);
  viewport ← decode_optional_cells (st_viewport_cols t) (st_viewport_rows t);
  Ok {|
    sr_id := st_id t;
    sr_name := name;
    sr_root_node_id := st_root_node_id t;
    sr_floating_ids := floating_ids;
    sr_focused_leaf_id := nonzero (st_focused_leaf_id t);
    sr_focused_floating_id := nonzero (st_focused_floating_id t);
    sr_zoomed_node_id := nonzero (st_zoomed_node_id t);
    sr_viewport := (λ s, mkSize s.1 s.2) <$> viewport;
    sr_base_index := then_some (st_has_base_index t) (st_base_index t);
    sr_pane_titles := st_pane_titles t
  |}.
Definition decode_buffer_pipe_record (t : PipeTable) : outcome BufferPipeRecord :=
  command ← required (pt_command t);
  state ← known (pt_state t);
  stop_reason ← (if pt_has_stop_reason t
                 then r ← decode_buffer_pipe_stop_reason (pt_stop_reason t); Ok (Some r)
                 else Ok None);
  let decoded := {|
    pr_command := command;
    pr_state := state;
    pr_pid := then_some (pt_has_pid t) (pt_pid t);
    pr_exit_code := then_some (pt_has_exit_code t) (pt_exit_code t);
    pr_stop_reason := stop_reason
  |} in
  validate_buffer_pipe_record decoded ;;
  Ok decoded.
Definition decode_buffer_record (t : BufferTable) : outcome BufferRecord :=
  title ← required (bt_title t);
  command ← required (bt_command t);
  state ← known (bt_state t);
  activity ← known (bt_activity t);
  env ← decode_string_map (bt_env_keys t) (bt_env_values t);
  user_options ← decode_string_map (bt_user_option_keys t) (bt_user_option_values t);
  kind ← known (bt_kind t);
  helper_scope ← (if bt_has_helper_scope t
                  then scope ← decode_buffer_history_scope (bt_helper_scope t); Ok (Some scope)
                  else Ok None);
  pipe ← transpose decode_buffer_pipe_record (bt_pipe t);
  let record := {|
    br_id := bt_id t;
    br_title := title;
    br_command := command;
    br_cwd := bt_cwd t;
    br_pipe := pipe;
    br_kind := kind;
    br_state := state;
    br_pid := then_some (bt_has_pid t) (bt_pid t);
    br_attachment_node_id := nonzero (bt_attachment_node_id t);
    br_read_only := bt_read_only t;
    br_helper_source_buffer_id := nonzero (bt_helper_source_buffer_id t);
    br_helper_scope := helper_scope;
    br_pty_size := mkPtySize (bt_pty_cols t) (bt_pty_rows t) (bt_pty_pixel_width t)
                     (bt_pty_pixel_height t);
    br_activity := activity;
    br_last_snapshot_seq := bt_last_snapshot_seq t;
    br_exit_code := then_some (bt_has_exit_code t) (bt_exit_code t);
    br_env := env;
    br_user_options := user_options;
    br_foreground_command := match bt_foreground_command t with Some [] => None | command => command end;
    br_bell_sequence := bt_bell_sequence t;
    br_host := bt_host t
  |} in
  valid (BufferRecord_validate record) ;;
  Ok record.
Definition decode_tab (t : TabTable) : outcome TabRecord :=
  title ← required (tt_title t); Ok (mkTabRecord title (tt_child_id t) (tt_synchronize_panes t)).
Definition decode_node_record (t : NodeTable) : outcome NodeRecord :=
  let record kind view split tabs := {|
    nr_id := nt_id t;
    nr_session_id := nt_session_id t;
    nr_parent_id := nonzero (nt_parent_id t);
    nr_kind := kind;
    nr_buffer_view := view;
    nr_split := split;
    nr_tabs := tabs;
    nr_focus_leaf_id := nonzero (nt_focus_leaf_id t)
  |} in
  kind ← known (nt_kind t);
  match kind with
  | NkBufferView =>
      view ← required (nt_buffer_view t);
      Ok (record NkBufferView
            (Some (mkBufferViewRecord (vt_buffer_id view) (vt_focused view) (vt_zoomed view)
                     (vt_follow_output view)
                     (mkPtySize (vt_last_render_cols view) (vt_last_render_rows view) 0 0)))
            None None)
  | NkSplit =>
      split ← required (nt_split t);
      child_ids ← required (splt_child_ids split);
      sizes ← required (splt_sizes split);
      direction ← known (splt_direction split);
      Ok (record NkSplit None (Some (mkSplitRecord direction child_ids sizes)) None)
  | NkTabs =>
      tabs ← required (nt_tabs t);
      tabs_fb ← required (tst_tabs tabs);
      tabs_vec ← collect decode_tab tabs_fb;
      Ok (record NkTabs None None (Some (mkTabsRecord (tst_active tabs) tabs_vec)))
  end.
Definition decode_floating_record (t : FloatingTable) : outcome FloatingRecord :=
  Ok {|
    fr_id := ft_id t;
    fr_session_id := ft_session_id t;
    fr_root_node_id := ft_root_node_id t;
    fr_title := ft_title t;
    fr_geometry := mkFloatGeometry (ft_x t) (ft_y t) (ft_width t) (ft_height t);
    fr_focused := ft_focused t;
    fr_visible := ft_visible t;
    fr_close_on_empty := ft_close_on_empty t;
    fr_border := ft_border t
  |}.
Definition decode_client_record (t : ClientTable) : outcome ClientRecord :=
  validate_nonzero_id (ct_id t) ;;
  subscribed_session_ids ← required (ct_subscribed_session_ids t);
  subscribed_session_ids ← collect decode_required_id subscribed_session_ids;
  Ok {|
    cr_id := ct_id t;
    cr_current_session_id := nonzero (ct_current_session_id t);
    cr_subscribed_all_sessions := ct_subscribed_all_sessions t;
    cr_subscribed_session_ids := subscribed_session_ids
  |}.
Definition decode_session_snapshot (t : SnapshotTable) : outcome SessionSnapshot :=
  session ← required (sst_session t);
  nodes ← required (sst_nodes t);
  buffers ← required (sst_buffers t);
  floating ← required (sst_floating t);
  session ← decode_session_record session;
  nodes ← collect decode_node_record nodes;
  buffers ← collect decode_buffer_record buffers;
  floating ← collect decode_floating_record floating;
  Ok (mkSessionSnapshot session nodes buffers floating).
