(* ===== verification/ServerCodec.v ===== *)
(** Responses and events on the wire, [crates/embers-protocol/src/codec.rs]: the checks a
    server makes before it sends one, the tables it sends, and what a client reads. *)

From S2P Require Import Prelude Core Model Moves Protocol Wire ClientCodec RecordCodec.

(** ** Checks *)

Definition validate_buffer_with_location_response (request_id : RequestId) (buffer : BufferRecord)
    (location : BufferLocation) (at_root_tab : bool) : outcome unit :=
  validate_buffer_location location ;;
  validate_buffer_record buffer ;;
  ok_or (BufferWithLocationResponse_new request_id buffer location at_root_tab) Protocol ;;
  Ok ().
Definition validate_server_response (r : ServerResponse) : outcome unit :=
  match r with
  | RHello _ _ _ | RPong _ _ | ROk _ | RError _ _ => Ok ()
  | RSessions _ sessions => validate_all validate_session_record sessions
  | RSessionSnapshot _ snapshot => validate_session_snapshot snapshot
  | RBuffers _ buffers => validate_all validate_buffer_record buffers
  | RBuffer _ buffer => validate_buffer_record buffer
  | RBufferWithLocation request_id buffer location at_root_tab =>
      validate_buffer_with_location_response request_id buffer location at_root_tab
  | RFloatingList _ floating => validate_all validate_floating_record floating
  | RFloating _ floating => validate_floating_record floating
  | RSubscriptionAck _ _ => Ok ()
  | RClients _ clients => validate_all validate_client_record clients
  | RClient _ client => validate_client_record client
  | REnvironment _ _ => Ok ()
  | RBufferLocation _ location => validate_buffer_location location
  | RSnapshot r => validate_nonzero_id (sn_buffer_id r)
  | RVisibleSnapshot r => validate_nonzero_id (vs_buffer_id r)
  | RScrollbackSlice r => validate_nonzero_id (sl_buffer_id r)
  end.
Definition validate_server_event (e : ServerEvent) : outcome unit :=
  match e with
  | EvSessionCreated session => validate_session_record session
  | EvSessionClosed session_id | EvSessionRenamed session_id _ | EvNodeChanged session_id =>
      validate_nonzero_id session_id
  | EvBufferCreated buffer => validate_buffer_record buffer
  | EvBufferPipeChanged session_id buffer =>
      validate_optional_id session_id ;; validate_buffer_record buffer
  | EvFloatingChanged session_id floating_id =>
      validate_nonzero_id session_id ;; validate_optional_id floating_id
  | EvFocusChanged session_id focused_leaf_id focused_floating_id =>
      validate_nonzero_id session_id ;; validate_optional_id focused_leaf_id ;;
      validate_optional_id focused_floating_id
  | EvBufferDetached buffer_id | EvRenderInvalidated buffer_id | EvClipboard buffer_id _ _
  | EvPassthrough buffer_id _ => validate_nonzero_id buffer_id
  | EvDisplayMessage _ _ | EvServerShutdown => Ok ()
  | EvClientChanged client previous_session_id =>
      validate_client_record client ;; validate_optional_id previous_session_id
  end.
Definition validate_server_envelope (m : ServerEnvelope) : outcome unit :=
  match m with
  | SeResponse response => validate_server_response response
  | SeEvent event => validate_server_event event
  end.

(** ** Writing *)

Definition visible_snapshot_table (r : VisibleSnapshotResponse) : VisibleSnapshotTable := {|
  vst_buffer_id := vs_buffer_id r;
  vst_sequence := vs_sequence r;
  vst_cols := cols (vs_size r);
  vst_rows := rows (vs_size r);
  vst_lines := Some (line_text <$> vs_lines r);
  vst_title := vs_title r;
  vst_cwd := vs_cwd r;
  vst_viewport_top_line := vs_viewport_top_line r;
  vst_total_lines := vs_total_lines r;
  vst_alternate_screen := alternate_screen (vs_modes r);
  vst_mouse_reporting := mouse_reporting (vs_modes r);
  vst_focus_reporting := focus_reporting (vs_modes r);
  vst_bracketed_paste := bracketed_paste (vs_modes r);
  vst_cursor := encode_cursor_state <$> vs_cursor r;
  vst_styles := encode_styled_lines (vs_lines r);
  vst_keyboard_mode := keyboard_mode (vs_modes r);
  vst_pixel_width := pixel_width (vs_size r);
  vst_pixel_height := pixel_height (vs_size r)
|}.

(** The text of an error, which the responses here leave out. *)
Section message.
Context (message : rstring).

Definition encode_server_response (r : ServerResponse) : Envelope :=
  match r with
  | RHello id protocol_version software_version =>
      envelope id MkHelloResponse (mkHelloTable protocol_version (Some software_version))
  | RPong id payload => envelope id MkPingResponse (Some payload)
  | ROk id => envelope id MkOkResponse ()
  | RError id code => envelope (default 0%N id) MkErrorResponse (mkErrorTable (to_wire code) (Some message))
  | RSessions id sessions =>
      envelope id MkSessionsResponse (Some (encode_session_record <$> sessions))
  | RSessionSnapshot id snapshot =>
      envelope id MkSessionSnapshotResponse (Some (encode_session_snapshot snapshot))
  | RBuffers id buffers => envelope id MkBuffersResponse (Some (encode_buffer_record <$> buffers))
  | RBuffer id buffer => envelope id MkBufferResponse (Some (encode_buffer_record buffer))
  | RBufferWithLocation id buffer location at_root_tab =>
      envelope id MkBufferWithLocationResponse
        (mkBufferWithLocationTable (Some (encode_buffer_record buffer))
           (Some (encode_buffer_location_fields location)) at_root_tab)
  | RFloatingList id floating =>
      envelope id MkFloatingListResponse (Some (encode_floating_record <$> floating))
  | RFloating id floating => envelope id MkFloatingResponse (Some (encode_floating_record floating))
  | RSubscriptionAck id subscription_id => envelope id MkSubscriptionAckResponse subscription_id
  | RClients id clients => envelope id MkClientsResponse (Some (encode_client_record <$> clients))
  | REnvironment id env =>
      envelope id MkEnvironmentResponse
        (mkEnvironmentTable (Some (string_keys env)) (Some (string_values env)))
  | RClient id client => envelope id MkClientResponse (Some (encode_client_record client))
  | RBufferLocation id location =>
      envelope id MkBufferLocationResponse (Some (encode_buffer_location_fields location))
  | RSnapshot r =>
      envelope (sn_request_id r) MkSnapshotResponse
        (mkSnapshotResponseTable (sn_buffer_id r) (sn_sequence r) (cols (sn_size r)) (rows (sn_size r))
           (Some (sn_lines r)) (sn_title r) (sn_cwd r))
  | RVisibleSnapshot r =>
      envelope (vs_request_id r) MkVisibleSnapshotResponse (visible_snapshot_table r)
  | RScrollbackSlice r =>
      envelope (sl_request_id r) MkScrollbackSliceResponse
        (mkScrollbackTable (sl_buffer_id r) (sl_start_line r) (sl_total_lines r)
           (Some (line_text <$> sl_lines r)) (encode_styled_lines (sl_lines r)))
  end.
Definition encode_server_event (e : ServerEvent) : Envelope :=
  match e with
  | EvSessionCreated session =>
      envelope 0 MkSessionCreatedEvent (Some (encode_session_record session))
  | EvSessionClosed session_id => envelope 0 MkSessionClosedEvent session_id
  | EvSessionRenamed session_id name =>
      envelope 0 MkSessionRenamedEvent (mkSessionRenamedTable session_id (Some name))
  | EvBufferCreated buffer => envelope 0 MkBufferCreatedEvent (Some (encode_buffer_record buffer))
  | EvBufferPipeChanged session_id buffer =>
      envelope 0 MkBufferPipeChangedEvent
        (mkPipeChangedTable (id_or_zero session_id) (Some (encode_buffer_record buffer)))
  | EvBufferDetached buffer_id => envelope 0 MkBufferDetachedEvent buffer_id
  | EvNodeChanged session_id => envelope 0 MkNodeChangedEvent session_id
  | EvFloatingChanged session_id floating_id =>
      envelope 0 MkFloatingChangedEvent (mkFloatingChangedTable session_id (id_or_zero floating_id))
  | EvFocusChanged session_id focused_leaf_id focused_floating_id =>
      envelope 0 MkFocusChangedEvent
        (mkFocusChangedTable session_id (id_or_zero focused_leaf_id) (id_or_zero focused_floating_id))
  | EvRenderInvalidated buffer_id => envelope 0 MkRenderInvalidatedEvent buffer_id
  | EvClipboard buffer_id selection text =>
      envelope 0 MkClipboardEvent (mkClipboardTable buffer_id (to_wire selection) (Some text))
  | EvPassthrough buffer_id writes =>
      envelope 0 MkPassthroughEvent
        (mkPassthroughTable buffer_id
           (Some ((λ w, mkPassthroughWriteTable (Some (write_bytes w)) (cp_row (write_cursor w))
                          (cp_col (write_cursor w))) <$> writes)))
  | EvDisplayMessage message duration_ms =>
      envelope 0 MkDisplayMessageEvent (mkDisplayMessageTable (Some message) duration_ms)
  | EvServerShutdown => bare_envelope 0 MkServerShutdownEvent
  | EvClientChanged client previous_session_id =>
      envelope 0 MkClientChangedEvent
        (mkClientChangedTable (Some (encode_client_record client)) (id_or_zero previous_session_id))
  end.
(** [encode_server_envelope], up to [builder.finish]. *)
Definition server_envelope (m : ServerEnvelope) : outcome Envelope :=
  validate_server_envelope m ;;
  Ok match m with
     | SeResponse response => encode_server_response response
     | SeEvent event => encode_server_event event
     end.
End message.

(** ** Reading *)

Definition decode_error_code (n : N) : ErrorCode := default EcUnknown (of_wire n).

Definition decode_response (e : Envelope) (kind : MessageKind) : outcome ServerResponse :=
  let id := env_request_id e in
  match kind with
  | MkHelloResponse =>
      t ← required (env_field MkHelloResponse e);
      software_version ← required (ht_software_version t);
      Ok (RHello id (ht_protocol_version t) software_version)
  | MkPingResponse =>
      t ← required (env_field MkPingResponse e);
      payload ← required t;
      Ok (RPong id payload)
  | MkOkResponse => Ok (ROk id)
  | MkErrorResponse =>
      t ← required (env_field MkErrorResponse e);
      required (et_message t) ;;
      Ok (RError (nonzero id) (decode_error_code (et_code t)))
  | MkSessionsResponse =>
      t ← required (env_field MkSessionsResponse e);
      sessions ← required t;
      sessions ← collect decode_session_record sessions;
      Ok (RSessions id sessions)
  | MkSessionSnapshotResponse =>
      t ← required (env_field MkSessionSnapshotResponse e);
      snapshot ← required t;
      snapshot ← decode_session_snapshot snapshot;
      Ok (RSessionSnapshot id snapshot)
  | MkBuffersResponse =>
      t ← required (env_field MkBuffersResponse e);
      buffers ← required t;
      buffers ← collect decode_buffer_record buffers;
      Ok (RBuffers id buffers)
  | MkBufferResponse =>
      t ← required (env_field MkBufferResponse e);
      buffer ← required t;
      buffer ← decode_buffer_record buffer;
      Ok (RBuffer id buffer)
  | MkBufferWithLocationResponse =>
      t ← required (env_field MkBufferWithLocationResponse e);
      buffer ← required (blt_buffer t);
      location ← required (blt_location t);
      validate_nonzero_id (lt_buffer_id location) ;;
      buffer ← decode_buffer_record buffer;
      location ← decode_buffer_location location;
      (if (br_id buffer =? loc_buffer_id location)%N then Ok () else Err Protocol) ;;
      ok_or (BufferWithLocationResponse_new id buffer location (blt_at_root_tab t)) Protocol
  | MkFloatingListResponse =>
      t ← required (env_field MkFloatingListResponse e);
      floating ← required t;
      floating ← collect decode_floating_record floating;
      Ok (RFloatingList id floating)
  | MkFloatingResponse =>
      t ← required (env_field MkFloatingResponse e);
      floating ← required t;
      floating ← decode_floating_record floating;
      Ok (RFloating id floating)
  | MkSubscriptionAckResponse =>
      subscription_id ← required (env_field MkSubscriptionAckResponse e);
      Ok (RSubscriptionAck id subscription_id)
  | MkClientsResponse =>
      t ← required (env_field MkClientsResponse e);
      clients ← required t;
      clients ← collect decode_client_record clients;
      Ok (RClients id clients)
  | MkEnvironmentResponse =>
      t ← required (env_field MkEnvironmentResponse e);
      env ← decode_string_map (envt_keys t) (envt_values t);
      Ok (REnvironment id env)
  | MkClientResponse =>
      t ← required (env_field MkClientResponse e);
      client ← required t;
      client ← decode_client_record client;
      Ok (RClient id client)
  | MkBufferLocationResponse =>
      t ← required (env_field MkBufferLocationResponse e);
      location ← required t;
      validate_nonzero_id (lt_buffer_id location) ;;
      location ← decode_buffer_location location;
      Ok (RBufferLocation id location)
  | MkSnapshotResponse =>
      t ← required (env_field MkSnapshotResponse e);
      lines ← required (srt_lines t);
      Ok (RSnapshot (mkSnapshotResponse id (srt_buffer_id t) (srt_sequence t)
            (mkPtySize (srt_cols t) (srt_rows t) 0 0) lines (srt_title t) (srt_cwd t)))
  | MkVisibleSnapshotResponse =>
      t ← required (env_field MkVisibleSnapshotResponse e);
      lines ← required (vst_lines t);
      cursor ← transpose decode_cursor_state (vst_cursor t);
      Ok (RVisibleSnapshot (mkVisibleSnapshotResponse id (vst_buffer_id t) (vst_sequence t)
            (mkPtySize (vst_cols t) (vst_rows t) (vst_pixel_width t) (vst_pixel_height t))
            (decode_styled_lines lines (vst_styles t)) (vst_title t) (vst_cwd t)
            (vst_viewport_top_line t) (vst_total_lines t)
            (mkTerminalModes (vst_alternate_screen t) (vst_mouse_reporting t) (vst_focus_reporting t)
               (vst_bracketed_paste t) (vst_keyboard_mode t))
            cursor))
  | MkScrollbackSliceResponse =>
      t ← required (env_field MkScrollbackSliceResponse e);
      lines ← required (sbt_lines t);
      Ok (RScrollbackSlice (mkScrollbackSliceResponse id (sbt_buffer_id t) (sbt_start_line t)
            (sbt_total_lines t) (decode_styled_lines lines (sbt_styles t))))
  | _ => Err Protocol
  end.
Definition decode_event (e : Envelope) (kind : MessageKind) : outcome ServerEvent :=
  match kind with
  | MkSessionCreatedEvent =>
      t ← required (env_field MkSessionCreatedEvent e);
      session ← required t;
      session ← decode_session_record session;
      Ok (EvSessionCreated session)
  | MkSessionClosedEvent =>
      session_id ← required (env_field MkSessionClosedEvent e); Ok (EvSessionClosed session_id)
  | MkSessionRenamedEvent =>
      t ← required (env_field MkSessionRenamedEvent e);
      name ← required (srnt_name t);
      Ok (EvSessionRenamed (srnt_session_id t) name)
  | MkBufferCreatedEvent =>
      t ← required (env_field MkBufferCreatedEvent e);
      buffer ← required t;
      buffer ← decode_buffer_record buffer;
      Ok (EvBufferCreated buffer)
  | MkBufferPipeChangedEvent =>
      t ← required (env_field MkBufferPipeChangedEvent e);
      buffer ← required (pct_buffer t);
      buffer ← decode_buffer_record buffer;
      Ok (EvBufferPipeChanged (nonzero (pct_session_id t)) buffer)
  | MkBufferDetachedEvent =>
      buffer_id ← required (env_field MkBufferDetachedEvent e); Ok (EvBufferDetached buffer_id)
  | MkNodeChangedEvent =>
      session_id ← required (env_field MkNodeChangedEvent e); Ok (EvNodeChanged session_id)
  | MkFloatingChangedEvent =>
      t ← required (env_field MkFloatingChangedEvent e);
      Ok (EvFloatingChanged (fct_session_id t) (nonzero (fct_floating_id t)))
  | MkFocusChangedEvent =>
      t ← required (env_field MkFocusChangedEvent e);
      Ok (EvFocusChanged (foct_session_id t) (nonzero (foct_focused_leaf_id t))
            (nonzero (foct_focused_floating_id t)))
  | MkRenderInvalidatedEvent =>
      buffer_id ← required (env_field MkRenderInvalidatedEvent e); Ok (EvRenderInvalidated buffer_id)
  | MkClipboardEvent =>
      t ← required (env_field MkClipboardEvent e);
      selection ← known (cbt_selection t);
      Ok (EvClipboard (cbt_buffer_id t) selection (default [] (cbt_text t)))
  | MkPassthroughEvent =>
      t ← required (env_field MkPassthroughEvent e);
      Ok (EvPassthrough (pat_buffer_id t)
            ((λ w, mkPassthroughWrite (default [] (pwt_data w))
                     (mkCursorPosition (pwt_cursor_row w) (pwt_cursor_col w)))
               <$> default [] (pat_writes t)))
  | MkDisplayMessageEvent =>
      t ← required (env_field MkDisplayMessageEvent e);
      message ← required (dmt_message t);
      Ok (EvDisplayMessage message (dmt_duration_ms t))
  | MkServerShutdownEvent => Ok EvServerShutdown
  | MkClientChangedEvent =>
      t ← required (env_field MkClientChangedEvent e);
      client ← required (cct_client t);
      client ← decode_client_record client;
      Ok (EvClientChanged client (nonzero (cct_previous_session_id t)))
  | _ => Err Protocol
  end.
(** [decode_server_envelope], from [root_as_envelope] on. *)
Definition server_message (e : Envelope) : outcome ServerEnvelope :=
  kind ← known (env_kind e);
  match kind with
  | MkSessionCreatedEvent | MkSessionClosedEvent | MkSessionRenamedEvent | MkBufferCreatedEvent
  | MkBufferPipeChangedEvent | MkBufferDetachedEvent | MkNodeChangedEvent | MkFloatingChangedEvent
  | MkFocusChangedEvent | MkRenderInvalidatedEvent | MkClipboardEvent | MkPassthroughEvent
  | MkDisplayMessageEvent | MkServerShutdownEvent | MkClientChangedEvent =>
      event ← decode_event e kind; Ok (SeEvent event)
  | _ => response ← decode_response e kind; Ok (SeResponse response)
  end.

Section bytes.
Context (finish : Envelope → list N) (root_as_envelope : list N → option Envelope).

Definition encode_server_envelope (message : rstring) (m : ServerEnvelope) : outcome (list N) :=
  e ← server_envelope message m; Ok (finish e).
Definition decode_server_envelope (bytes : list N) : outcome ServerEnvelope :=
  e ← ok_or (root_as_envelope bytes) Protocol; server_message e.
End bytes.
