(* ===== verification/RequestCodec.v ===== *)
(** What the codec promises for requests: a request that passes its checks comes back as it
    was sent, one that does not is not sent, and what is read passes the checks. *)

From S2P Require Import Prelude Core Model Moves Protocol Wire ClientCodec.
Open Scope string_scope.

(** The checks [encode_client_message] makes, by kind of request. *)
Definition validate_client_message (m : ClientMessage) : outcome unit :=
  match m with
  | CmSession r => validate_session_request r
  | CmBuffer r => validate_buffer_request r
  | CmNode r => validate_node_request r
  | CmFloating r => validate_floating_request r
  | CmInput r => validate_input_request r
  | CmClient r => validate_client_request r
  | _ => Ok ()
  end.
(** Zero stands for no id, and these optional ids are not checked: the ones of clients are
    [NonZeroU64]s, and [Subscribe]'s is the caller's to keep from zero. *)
Definition unchecked_id (m : ClientMessage) : option N :=
  match m with
  | CmBuffer (BrReveal _ _ id | BrOpenHistory _ _ _ _ id)
  | CmClient (CrGet _ id | CrDetach _ id | CrSwitch _ id _ _ | CrDisplayMessage _ id _ _ _)
  | CmSubscribe _ id => id
  | _ => None
  end.

(** ** Fields *)

Lemma Ok_bind {A B} (m : outcome A) (f : A → outcome B) b :
  m ≫= f = Ok b → ∃ a, m = Ok a ∧ f a = Ok b.
Proof. destruct m; cbn; intros; simplify_eq; eauto. Qed.
Lemma known_to_wire `{WireEnum A} (a : A) : known (to_wire a) = Ok a.
Proof. unfold known. by rewrite of_wire_to_wire. Qed.
Lemma validate_nonzero_id_Ok id : validate_nonzero_id id = Ok () ↔ id ≠ 0%N.
Proof. unfold validate_nonzero_id. destruct (N.eqb_spec id 0); naive_solver. Qed.
Lemma decode_required_id_Ok id id' : decode_required_id id = Ok id' ↔ id ≠ 0%N ∧ id' = id.
Proof. unfold decode_required_id. destruct (N.eqb_spec id 0); naive_solver. Qed.
Lemma decode_required_nonzero id : id ≠ 0%N → decode_required_id id = Ok id.
Proof. intros. by apply decode_required_id_Ok. Qed.
Lemma validate_optional_id_Ok id : validate_optional_id id = Ok () ↔ id ≠ Some 0%N.
Proof. destruct id; cbn; [rewrite validate_nonzero_id_Ok|]; naive_solver. Qed.
Lemma nonzero_id_or_zero id : id ≠ Some 0%N → nonzero (id_or_zero id) = id.
Proof. unfold nonzero. destruct id as [id|]; cbn; [|done]. destruct (N.eqb_spec id 0); naive_solver. Qed.
Lemma nonzero_not_zero id : nonzero id ≠ Some 0%N.
Proof. unfold nonzero. destruct (N.eqb_spec id 0); naive_solver. Qed.
Lemma validate_required_ids_Ok ids : validate_required_ids ids = Ok () ↔ Forall (.≠ 0%N) ids.
Proof.
  induction ids as [|id ids IH]; cbn; [by split|]. rewrite Forall_cons, <-IH, <-validate_nonzero_id_Ok.
  destruct (validate_nonzero_id id) as [[]| | |]; naive_solver.
Qed.
Lemma collect_required_nonzero ids : Forall (.≠ 0%N) ids → collect decode_required_id ids = Ok ids.
Proof. induction 1; cbn; [done|]. by rewrite decode_required_nonzero, IHForall. Qed.
Lemma collect_required_Ok ids ids' :
  collect decode_required_id ids = Ok ids' → ids' = ids ∧ Forall (.≠ 0%N) ids.
Proof.
  revert ids'. induction ids as [|id ids IH]; cbn; intros ids' H; [naive_solver|].
  apply Ok_bind in H as (id' & [? ->]%decode_required_id_Ok & Hids).
  apply Ok_bind in Hids as (ids'' & [-> ?]%IH & ?). simplify_eq. auto.
Qed.
Lemma validate_cells_Ok c r : validate_cells c r = Ok () ↔ c ≠ 0%N ∧ r ≠ 0%N.
Proof. unfold validate_cells. destruct (N.eqb_spec c 0), (N.eqb_spec r 0); naive_solver. Qed.
Lemma validate_cells_nonzero c r : c ≠ 0%N → r ≠ 0%N → validate_cells c r = Ok ().
Proof. intros. by apply validate_cells_Ok. Qed.
Lemma decode_optional_cells_Ok c r size :
  decode_optional_cells c r = Ok size →
  size = None ∨ size = Some (c, r) ∧ c ≠ 0%N ∧ r ≠ 0%N.
Proof.
  unfold decode_optional_cells, validate_cells.
  destruct (N.eqb_spec c 0), (N.eqb_spec r 0); naive_solver.
Qed.
Lemma decode_cells_nonzero c r :
  c ≠ 0%N → r ≠ 0%N → decode_optional_cells c r = Ok (Some (c, r)).
Proof.
  intros. unfold decode_optional_cells, validate_cells. by rewrite !(proj2 (N.eqb_neq _ _)).
Qed.

Lemma decode_cells_zero : decode_optional_cells 0 0 = Ok None.
Proof. done. Qed.

Lemma string_entries_permutation m : string_entries m ≡ₚ map_to_list m.
Proof. apply merge_sort_Permutation. Qed.
Lemma string_entries_keys_NoDup m : NoDup (string_entries m).*1.
Proof. rewrite string_entries_permutation. apply NoDup_fst_map_to_list. Qed.
Lemma foldl_insert_to_map (l : list (rstring * rstring)) (m : gmap rstring rstring) :
  NoDup l.*1 → (∀ k, k ∈ l.*1 → m !! k = None) →
  foldl (λ m kv, <[kv.1 := kv.2]> m) m l = list_to_map l ∪ m.
Proof.
  revert m. induction l as [|[k v] l IH]; cbn; intros m Hl Hm; [by rewrite (left_id_L ∅ _)|].
  apply NoDup_cons in Hl as [Hk Hl]. rewrite IH; [|done|].
  - rewrite <-insert_union_l. symmetry. rewrite <-insert_union_r; [done|]. by apply not_elem_of_list_to_map.
  - intros k' Hk'. rewrite lookup_insert_ne; [|by intros ->]. apply Hm. by right.
Qed.
Lemma decode_string_entries m :
  decode_string_map (Some (string_keys m)) (Some (string_values m)) = Ok m.
Proof.
  unfold decode_string_map, string_keys, string_values. rewrite !length_fmap, Nat.eqb_refl.
  rewrite zip_fst_snd, foldl_insert_to_map.
  - f_equal. rewrite (right_id_L ∅ _).
    rewrite <-(list_to_map_to_list m) at 2. apply list_to_map_proper; [apply string_entries_keys_NoDup|].
    apply string_entries_permutation.
  - apply string_entries_keys_NoDup.
  - intros. apply lookup_empty.
Qed.

(** ** Requests, one kind at a time *)

#[local] Arguments known : simpl never.
#[local] Arguments to_wire : simpl never.
#[local] Arguments decode_required_id : simpl never.
#[local] Arguments validate_nonzero_id : simpl never.
#[local] Arguments validate_optional_id : simpl never.
#[local] Arguments validate_required_ids : simpl never.
#[local] Arguments validate_cells : simpl never.
#[local] Arguments decode_optional_cells : simpl never.
#[local] Arguments decode_string_map : simpl never.
#[local] Arguments string_keys : simpl never.
#[local] Arguments string_values : simpl never.
#[local] Arguments nonzero : simpl never.
#[local] Arguments validate_buffer_request : simpl never.
#[local] Arguments id_or_zero : simpl never.

(** What a check that was passed says about the ids. *)
Ltac checked :=
  repeat match goal with
  | H : (_ ≫= _) = Ok _ |- _ => apply Ok_bind in H as (? & ? & ?)
  | u : unit |- _ => destruct u
  | H : validate_nonzero_id _ = Ok _ |- _ => apply validate_nonzero_id_Ok in H
  | H : validate_optional_id _ = Ok _ |- _ => apply validate_optional_id_Ok in H
  | H : validate_required_ids _ = Ok _ |- _ => apply validate_required_ids_Ok in H
  | H : validate_cells _ _ = Ok _ |- _ => apply validate_cells_Ok in H as [? ?]
  end.
(** Reading back the table that was just written. *)
Ltac read_back :=
  unfold decode_buffer_history_scope, decode_buffer_history_placement, decode_node_break_destination,
    decode_node_join_placement;
  repeat (progress (cbn;
    rewrite ?known_to_wire, ?decode_string_entries, ?collect_required_nonzero,
      ?decode_required_nonzero, ?nonzero_id_or_zero, ?decode_cells_nonzero,
      ?validate_cells_nonzero, ?decode_cells_zero by done)).

Lemma session_request_back r :
  validate_session_request r = Ok () →
  decode_session_request (SessionRequest_request_id r) (session_request_table r) = Ok r.
Proof.
  intros Hr. unfold decode_session_request.
  destruct r as [| | | | | | | | | |? ? []|? ? []|? ? []|]; cbn in Hr; checked; read_back; done.
Qed.
Lemma buffer_request_back r :
  validate_buffer_request r = Ok () → unchecked_id (CmBuffer r) ≠ Some 0%N →
  decode_buffer_request (BufferRequest_request_id r) (buffer_request_table r) = Ok r.
Proof.
  intros Hr Hid. pose proof Hr as Hv. unfold decode_buffer_request.
  destruct r as [? ? ? ? ? [[]|]| | | | | | | | | | | | | | | |];
    unfold validate_buffer_request in Hr; cbn in Hr, Hid, Hv; checked; read_back; by rewrite ?Hv.
Qed.
Lemma node_request_back r :
  validate_node_request r = Ok () →
  decode_node_request (NodeRequest_request_id r) (node_request_table r) = Ok r.
Proof. intros Hr. unfold decode_node_request. destruct r; cbn in Hr; checked; read_back; done. Qed.
Lemma floating_request_back r :
  validate_floating_request r = Ok () →
  decode_floating_request (FloatingRequest_request_id r) (floating_request_table r) = Ok r.
Proof.
  intros Hr. unfold decode_floating_request.
  destruct r as [? ? ? ? []| |? ? []|]; cbn in Hr; checked; read_back; done.
Qed.
Lemma input_request_back r :
  validate_input_request r = Ok () →
  decode_input_request (InputRequest_request_id r) (input_request_table r) = Ok r.
Proof.
  intros Hr. unfold decode_input_request.
  destruct r as [|? ? []]; cbn in Hr; checked; read_back; done.
Qed.
Lemma client_request_back r :
  validate_client_request r = Ok () → unchecked_id (CmClient r) ≠ Some 0%N →
  decode_client_request (ClientRequest_request_id r) (client_request_table r) = Ok r.
Proof.
  intros Hr Hid. unfold decode_client_request.
  destruct r as [| | | |? client_id session_id|]; cbn in Hr, Hid; checked; read_back; try done.
  destruct client_id, session_id; done.
Qed.

Lemma client_message_back m e :
  unchecked_id m ≠ Some 0%N → client_envelope m = Ok e → client_message e = Ok m.
Proof.
  intros Hid He. unfold client_message.
  unfold client_envelope, encode_subscribe_request in He.
  destruct m as [| |r|r|r|r|r| | |r|]; cbn in He; try apply Ok_bind in He as ([] & Hr & He); simplify_eq;
    cbn [env_request_id env_kind envelope bare_envelope encode_hello_request encode_ping_request
         encode_subscribe_request encode_unsubscribe_request];
    rewrite ?known_to_wire; cbn; rewrite ?env_field_envelope; cbn;
    rewrite ?session_request_back, ?buffer_request_back, ?node_request_back, ?floating_request_back,
      ?input_request_back, ?client_request_back, ?nonzero_id_or_zero by done; done.
Qed.

(** ** What is read *)

Ltac read :=
  repeat match goal with
  | H : (_ ≫= _) = Ok _ |- _ => apply Ok_bind in H as (? & ? & ?)
  | H : Ok _ = Ok _ |- _ => injection H as ?; subst
  | u : unit |- _ => destruct u
  | H : decode_required_id _ = Ok _ |- _ => apply decode_required_id_Ok in H as [? ->]
  | H : collect decode_required_id _ = Ok _ |- _ => apply collect_required_Ok in H as [-> ?]
  | H : validate_cells _ _ = Ok _ |- _ => apply validate_cells_Ok in H as [? ?]
  end.
Ltac accepted :=
  cbn; repeat match goal with
  | |- context [validate_nonzero_id ?i] => rewrite (proj2 (validate_nonzero_id_Ok i)) by done
  | |- context [validate_optional_id ?i] =>
      rewrite (proj2 (validate_optional_id_Ok i)) by (done || apply nonzero_not_zero)
  | |- context [validate_required_ids ?i] => rewrite (proj2 (validate_required_ids_Ok i)) by done
  | |- context [validate_cells ?c ?r] => rewrite (proj2 (validate_cells_Ok c r)) by done
  | _ => progress cbn
  end.

Lemma session_request_valid id t r :
  decode_session_request id t = Ok r → validate_session_request r = Ok ().
Proof.
  intros H. apply Ok_bind in H as (op & _ & H). destruct op; read; try by accepted.
  destruct x; read; by accepted.
Qed.
Lemma buffer_request_valid id t r :
  decode_buffer_request id t = Ok r →
  validate_buffer_request r = Ok () ∧ unchecked_id (CmBuffer r) ≠ Some 0%N.
Proof.
  intros H. apply Ok_bind in H as (op & _ & H). apply Ok_bind in H as (r' & Hr & H).
  apply Ok_bind in H as ([] & Hv & [= ->]). split; [done|]. clear Hv.
  destruct op; read; cbn; done || apply nonzero_not_zero.
Qed.
Lemma node_request_valid id t r :
  decode_node_request id t = Ok r → validate_node_request r = Ok ().
Proof. intros H. apply Ok_bind in H as (op & _ & H). destruct op; read; by accepted. Qed.
Lemma floating_request_valid id t r :
  decode_floating_request id t = Ok r → validate_floating_request r = Ok ().
Proof. intros H. apply Ok_bind in H as (op & _ & H). destruct op; read; by accepted. Qed.
Lemma input_request_valid id t r :
  decode_input_request id t = Ok r → validate_input_request r = Ok ().
Proof. intros H. apply Ok_bind in H as (op & _ & H). destruct op; read; by accepted. Qed.
Lemma client_request_valid id t r :
  decode_client_request id t = Ok r →
  validate_client_request r = Ok () ∧ unchecked_id (CmClient r) ≠ Some 0%N.
Proof.
  intros H. apply Ok_bind in H as (op & _ & H).
  destruct op; read; try (split; [by accepted|done || apply nonzero_not_zero]).
  pose proof (nonzero_not_zero (cqt_client_id t)). pose proof (nonzero_not_zero (cqt_session_id t)).
  destruct (nonzero (cqt_client_id t)), (nonzero (cqt_session_id t)); cbn in H; read; split;
    by accepted.
Qed.
Lemma client_message_valid e m :
  client_message e = Ok m → validate_client_message m = Ok () ∧ unchecked_id m ≠ Some 0%N.
Proof.
  intros H. apply Ok_bind in H as (kind & _ & H). destruct kind; read; try done; cbn;
    eauto using session_request_valid, buffer_request_valid, node_request_valid,
      floating_request_valid, input_request_valid, client_request_valid.
  split; [done|]. apply nonzero_not_zero.
Qed.

(** ** Checking and reading have no other outcome than a result and a protocol error *)

Definition parses {A} (o : outcome A) : Prop := returns o (λ _, True) (eq Protocol).
Create HintDb parses.
Lemma parses_Ok {A} (a : A) : parses (Ok a). Proof. done. Qed.
Lemma parses_Err {A} : parses (@Err A Protocol). Proof. done. Qed.
Lemma parses_bind {A B} (o : outcome A) (f : A → outcome B) :
  parses o → (∀ a, parses (f a)) → parses (o ≫= f).
Proof. unfold parses. destruct o; cbn; auto. Qed.
Lemma parses_returns {A} (o : outcome A) P :
  parses o → (∀ a, o = Ok a → P a) → returns o P (eq Protocol).
Proof. unfold parses. destruct o; cbn; auto. Qed.
#[export] Hint Resolve parses_Ok parses_Err : parses.
Lemma parses_ok_or {A} (o : option A) : parses (ok_or o Protocol).
Proof. by destruct o. Qed.
Lemma parses_required {A} (o : option A) : parses (required o).
Proof. apply parses_ok_or. Qed.
Lemma parses_known `{WireEnum A} n : parses (@known A _ n).
Proof. unfold known. by destruct (of_wire n). Qed.
Lemma parses_decode_id id : parses (decode_required_id id).
Proof. unfold decode_required_id. by destruct (id =? 0)%N. Qed.
Lemma parses_id id : parses (validate_nonzero_id id).
Proof. unfold validate_nonzero_id. by destruct (id =? 0)%N. Qed.
Lemma parses_optional_id id : parses (validate_optional_id id).
Proof. destruct id; [apply parses_id|done]. Qed.
Lemma parses_cells c r : parses (validate_cells c r).
Proof. unfold validate_cells. by destruct (_ || _). Qed.
Lemma parses_command c : parses (validate_non_empty_command c).
Proof. by destruct c as [|[]]. Qed.
#[export] Hint Resolve parses_ok_or parses_required parses_known parses_decode_id parses_id parses_optional_id
  parses_cells parses_command : parses.
Ltac parses := repeat first [solve [auto with parses]|apply parses_bind; [|intros ?]|case_match].
Lemma parses_ids ids : parses (validate_required_ids ids).
Proof. induction ids; unfold validate_required_ids; fold validate_required_ids; parses. Qed.
Lemma parses_decode_ids ids : parses (collect decode_required_id ids).
Proof. induction ids; cbn; parses. Qed.
Lemma parses_optional_cells c r : parses (decode_optional_cells c r).
Proof. unfold decode_optional_cells. parses. Qed.
Lemma parses_string_map keys values : parses (decode_string_map keys values).
Proof. unfold decode_string_map. parses. Qed.
#[export] Hint Resolve parses_ids parses_decode_ids parses_optional_cells parses_string_map : parses.

Lemma validate_buffer_request_parses r : parses (validate_buffer_request r).
Proof. destruct r; cbv beta iota delta [validate_buffer_request]; cbn; parses. Qed.
#[export] Hint Resolve validate_buffer_request_parses : parses.
Lemma validate_client_message_parses m : parses (validate_client_message m).
Proof. destruct m as [| |r|r|r|r|r| | |r|]; cbn; auto with parses; destruct r; cbn; parses. Qed.
Lemma client_envelope_parses m :
  validate_client_message m = Ok () ∧ (∃ e, client_envelope m = Ok e)
  ∨ validate_client_message m = Err Protocol ∧ client_envelope m = Err Protocol.
Proof.
  pose proof (validate_client_message_parses m) as Hm. unfold parses in Hm.
  destruct (validate_client_message m) as [[]|?| |] eqn:Hv; cbn in Hm; try done; subst; [left|right];
    split; try done; destruct m; cbn in *; try done; eauto;
    unfold encode_session_request, encode_buffer_request, encode_node_request, encode_floating_request,
      encode_input_request, encode_client_request; rewrite Hv; cbn; eauto.
Qed.
Lemma client_message_parses e : parses (client_message e).
Proof.
  unfold client_message. apply parses_bind; [auto with parses|]. intros kind.
  destruct kind; auto with parses;
    (apply parses_bind; [auto with parses|]; intros t; parses);
    unfold decode_session_request, decode_buffer_request, decode_node_request, decode_floating_request,
      decode_input_request, decode_client_request, decode_buffer_history_scope,
      decode_buffer_history_placement, decode_node_break_destination, decode_node_join_placement;
    cbv zeta; parses.
Qed.

(** ** Theorems *)

(** C34: a request with nonzero ids that passes the checks of the codec is encoded, and its
    bytes are decoded to that request, whatever the request, when the envelope can be found in
    the bytes made of it; a request that does not pass them is refused and nothing is sent. *)
Theorem requests_round_trip finish root_as_envelope m :
  (∀ e, client_envelope m = Ok e → root_as_envelope (finish e) = Some e) →
  unchecked_id m ≠ Some 0%N →
  match validate_client_message m with
  | Ok _ => ∃ bytes,
      encode_client_message finish m = Ok bytes ∧ decode_client_message root_as_envelope bytes = Ok m
  | _ => encode_client_message finish m = Err Protocol
  end.
Proof.
  intros Hroot Hid. unfold encode_client_message, decode_client_message.
  destruct (client_envelope_parses m) as [[-> [e He]]|[-> ->]]; [|done].
  exists (finish e). rewrite He. cbn. rewrite Hroot by done. split; [done|]. by apply client_message_back.
Qed.

(** C35: whatever the bytes, reading a request gives one whose ids and sizes pass the checks the
    sender makes, so that it can be sent on and is then read the same, or a protocol error. *)
Theorem decoded_requests_are_valid root_as_envelope bytes :
  returns (decode_client_message root_as_envelope bytes) (λ m,
    validate_client_message m = Ok () ∧ unchecked_id m ≠ Some 0%N
    ∧ ∃ e, client_envelope m = Ok e ∧ client_message e = Ok m) (eq Protocol).
Proof.
  unfold decode_client_message. destruct (root_as_envelope bytes) as [e|]; cbn; [|done].
  apply parses_returns; [apply client_message_parses|]. intros m Hm.
  apply client_message_valid in Hm as [Hv Hid].
  destruct (client_envelope_parses m) as [[_ [e' He]]|[Hv' _]]; [|congruence].
  split; [done|]. split; [done|]. exists e'. split; [done|]. by apply client_message_back.
Qed.

(** A request to run a command with an environment, and one on no buffer. *)
Definition start_request (buffer_id : BufferId) : ClientMessage :=
  CmBuffer (BrStartPipe 9 buffer_id [lit "tee"; lit "log"] None {[lit "TERM" := lit "dumb"; lit "A" := lit "b"]}).
Lemma requests_round_trip_witness :
  ∃ e, client_envelope (start_request 4) = Ok e
    ∧ validate_client_message (start_request 4) = Ok ()
    ∧ ∃ bytes, encode_client_message (λ _, [1%N]) (start_request 4) = Ok bytes
        ∧ decode_client_message (λ _, Some e) bytes = Ok (start_request 4).
Proof.
  eexists. split; [reflexivity|]. split; [reflexivity|].
  refine (requests_round_trip (λ _, [1%N]) (λ _, Some _) (start_request 4) _ _).
  - intros e [= <-]. reflexivity.
  - intros [=].
Defined.
