(* ===== verification/ResponseCodec.v ===== *)
(** What the codec promises for responses and events: one that passes the checks of the server
    is read as it was sent, but for the little that [received] leaves out. *)

From S2P Require Import Prelude Core Model Moves Protocol Wire.
From S2P Require Import ClientCodec RecordCodec ServerCodec RequestCodec.
Open Scope list_scope.

(** ** What arrives of terminal contents *)

Definition linked (l : SnapshotLine) : bool :=
  nonempty (line_links l) && existsb (λ r, negb (run_link r =? 0)%N) (line_runs l).
(** Runs may style a line when their lengths add up to the bytes of its text, or when there are
    none. *)
Definition fills_line (l : SnapshotLine) : bool :=
  bool_decide (line_runs l = [] ∨ foldr N.add 0%N (run_len <$> line_runs l) = byte_len (line_text l)).
(** The links of a line without a linked run are left out, and so are runs that do not fill
    the line, with all links. *)
Definition received_line (l : SnapshotLine) : SnapshotLine :=
  if fills_line l then
    if linked l then l
    else mkSnapshotLine (line_text l) (set_link 0 <$> line_runs l) [] (line_cell_spans l)
  else mkSnapshotLine (line_text l) [] [] (line_cell_spans l).
(** Indexes fit a [u32]. *)
Definition fits_u32 {A} (l : list A) : bool := (N.of_nat (length l) <=? u32_max + 1)%N.
Definition line_fits (l : SnapshotLine) : bool := fits_u32 (line_runs l).
Definition lines_fit (lines : list SnapshotLine) : bool := fits_u32 lines && forallb line_fits lines.

(** ** Enumeration *)

Lemma index_u32_small i : (N.of_nat i <= u32_max)%N → N.to_nat (index_u32 i) = i.
Proof. unfold index_u32. lia. Qed.
Lemma fits_u32_index {A} (l : list A) i : fits_u32 l = true → i < length l → (N.of_nat i <= u32_max)%N.
Proof. unfold fits_u32. intros ?%N.leb_le ?. lia. Qed.
Lemma enumerated_from {A B} (f : nat → A → option B) n l x :
  omap (λ ix, f ix.1 ix.2) (imap (λ i, pair (n + i)) (x :: l)) =
  option_list (f n x) ++ omap (λ ix, f ix.1 ix.2) (imap (λ i, pair (S n + i)) l).
Proof.
  cbn. rewrite Nat.add_0_r. rewrite (imap_ext (_ ∘ S) (λ i, pair (S n + i))).
  - by destruct (f n x).
  - intros. cbn. by rewrite Nat.add_succ_r.
Qed.
(** Folding over the entries of an enumeration is folding over the list. *)
Lemma foldl_enumerated {A B C} (g : C → B → C) (f : nat → A → option B) l n (I : nat → C → Prop) c :
  I n c →
  (∀ i x c, l !! i = Some x → I (n + i) c →
    I (S (n + i)) (match f (n + i) x with Some b => g c b | None => c end)) →
  I (n + length l) (foldl g c (omap (λ ix, f ix.1 ix.2) (imap (λ i, pair (n + i)) l))).
Proof.
  revert n c. induction l as [|x l IH]; intros n c Hc Hf.
  - cbn. by rewrite Nat.add_0_r.
  - rewrite enumerated_from, foldl_app.
    replace (n + length (x :: l)) with (S n + length l) by (cbn; lia). apply IH.
    + pose proof (Hf 0 x c eq_refl) as H0. rewrite Nat.add_0_r in H0. specialize (H0 Hc).
      by destruct (f n x).
    + intros i y c' Hy Hc'. rewrite Nat.add_succ_l, <-Nat.add_succ_r in Hc' |- *. by apply (Hf (S i) y).
Qed.
Lemma foldl_enumerated_0 {A B C} (g : C → B → C) (f : nat → A → option B) l (I : nat → C → Prop) c :
  I 0 c →
  (∀ i x c, l !! i = Some x → I i c → I (S i) (match f i x with Some b => g c b | None => c end)) →
  I (length l) (foldl g c (enumerated f l)).
Proof. intros. by apply (foldl_enumerated g f l 0 I c). Qed.

(** ** Runs *)

Lemma decode_encode_term_color c :
  let '(kind, r, g, b) := encode_term_color c in decode_term_color kind r g b = c.
Proof. by destruct c. Qed.
Definition plain_run (r : StyledRun) : StyledRun := set_underline_color ColorDefault (set_link 0 r).
Lemma decode_encode_styled_run r : decode_styled_run (encode_styled_run r) = plain_run r.
Proof.
  unfold encode_styled_run. pose proof (decode_encode_term_color (run_fg r)) as Hfg.
  pose proof (decode_encode_term_color (run_bg r)) as Hbg.
  destruct (encode_term_color (run_fg r)) as [[[? ?] ?] ?], (encode_term_color (run_bg r)) as [[[? ?] ?] ?].
  unfold decode_styled_run, plain_run. cbn. by rewrite Hfg, Hbg.
Qed.
Lemma TermColor_is_default_true c : TermColor_is_default c = true → c = ColorDefault.
Proof. by destruct c. Qed.
Lemma plain_run_default r :
  TermColor_is_default (run_underline_color r) = true → plain_run r = set_link 0 r.
Proof. destruct r. unfold plain_run. cbn. by intros ->%TermColor_is_default_true. Qed.
Lemma set_underline_color_plain r : set_underline_color (run_underline_color r) (plain_run r) = set_link 0 r.
Proof. by destruct r. Qed.

Lemma underline_colors_back t runs :
  fits_u32 runs = true → slt_underline_colors t = encode_underline_colors runs →
  decode_underline_colors t (plain_run <$> runs) = set_link 0 <$> runs.
Proof.
  intros Hfits Ht. unfold decode_underline_colors. rewrite Ht. unfold encode_underline_colors.
  destruct (forallb _ _) eqn:Hall; cbn [from_option id].
  { apply list_fmap_ext. intros i r Hr. apply plain_run_default.
    rewrite forallb_forall in Hall. apply Hall. apply list_elem_of_In. by eapply list_elem_of_lookup_2. }
  clear Ht Hall.
  set (I := λ n (c : list StyledRun), ∀ i,
    c !! i = (λ r, if decide (i < n) then set_link 0 r else plain_run r) <$> runs !! i).
  match goal with |- foldl ?g ?c (enumerated ?f _) = _ => assert (I (length runs) (foldl g c (enumerated f runs))) as H end.
  - apply foldl_enumerated_0; [intros i; by rewrite list_lookup_fmap|].
    intros n r c Hr Hc. assert (n < length runs) as Hn by (by eapply lookup_lt_Some).
    destruct (TermColor_is_default (run_underline_color r)) eqn:Hd; [|destruct (encode_term_color _) as [[[? ?] ?] ?] eqn:He];
      intros i; cbn.
    + rewrite Hc. destruct (decide (i = n)) as [->|].
      * rewrite Hr. cbn. repeat case_decide; try lia. by rewrite plain_run_default.
      * destruct (runs !! i); [|done]. cbn. repeat case_decide; try lia; done.
    + pose proof (decode_encode_term_color (run_underline_color r)) as Hcolor. rewrite He in Hcolor.
      rewrite Hcolor, index_u32_small by (by eapply fits_u32_index). destruct (decide (i = n)) as [->|].
      * rewrite list_lookup_alter, Hc, Hr. cbn. repeat case_decide; try lia. cbn.
        by rewrite set_underline_color_plain.
      * rewrite list_lookup_alter_ne, Hc by done. destruct (runs !! i); [|done]. cbn.
        repeat case_decide; try lia; done.
  - apply list_eq. intros i. rewrite H, list_lookup_fmap. destruct (runs !! i) eqn:Hi; [|done].
    cbn. apply lookup_lt_Some in Hi. by rewrite decide_True.
Qed.

(** ** Lines *)

Definition style_of (l : SnapshotLine) : list StyledRun * list Hyperlink * list CellSpan :=
  (if linked l then (line_runs l, line_links l) else (set_link 0 <$> line_runs l, []), line_cell_spans l).

Lemma relink_runs runs :
  zip_with (λ r link, set_link link r) (set_link 0 <$> runs) (run_link <$> runs) = runs.
Proof. induction runs as [|[] runs IH]; [done|]. cbn. by rewrite IH. Qed.
Lemma line_links_back i l :
  decode_line_links (encode_styled_line i l) (set_link 0 <$> line_runs l) = (style_of l).1.
Proof.
  unfold decode_line_links, encode_styled_line, encode_line_links, style_of, linked.
  cbn [slt_links slt_run_links].
  destruct (line_links l) as [|k links] eqn:Hlinks; [done|]. cbn [nonempty andb].
  assert (existsb (λ r, negb (run_link r =? 0)%N) (line_runs l)
          = negb (forallb (λ r, run_link r =? 0)%N (line_runs l))) as ->.
  { induction (line_runs l) as [|r runs IH]; [done|]. cbn. rewrite IH. by destruct (_ =? _)%N. }
  destruct (forallb _ _); [done|]. cbn [fst snd negb]. rewrite !length_fmap, Nat.eqb_refl, relink_runs.
  rewrite <-list_fmap_compose. f_equal. rewrite <-(list_fmap_id (k :: links)) at 2.
  apply list_fmap_ext. by intros ? [].
Qed.
Lemma cells_back i l :
  (λ s, mkCellSpan (sw_len s) (sw_width s)) <$> default [] (slt_cells (encode_styled_line i l))
  = line_cell_spans l.
Proof.
  cbn. destruct (line_cell_spans l) as [|s spans]; [done|]. cbn [nonempty from_option id].
  rewrite <-list_fmap_compose. rewrite <-(list_fmap_id (s :: spans)) at 2.
  apply list_fmap_ext. by intros ? [].
Qed.
Lemma styled_entry_back i l per_line :
  line_fits l = true → i < length per_line → (N.of_nat i <= u32_max)%N →
  styled_entry per_line (encode_styled_line i l) = <[i := style_of l]> per_line.
Proof.
  intros Hl Hi Hu. pose proof (line_links_back i l) as Hlinks. pose proof (cells_back i l) as Hcells.
  assert (index_u32 i = N.of_nat i) as Hindex by (unfold index_u32; lia).
  unfold styled_entry. rewrite Hcells. cbn [encode_styled_line slt_runs slt_line_index].
  rewrite Hindex, (proj2 (N.ltb_lt _ _)), Nat2N.id by lia.
  rewrite <-list_fmap_compose, (list_fmap_ext _ plain_run) by (intros; apply decode_encode_styled_run).
  rewrite underline_colors_back, Hlinks by done. done.
Qed.

(** The styles of the lines before [n] are in place. *)
Definition styles_placed (lines : list SnapshotLine) (n : nat)
    (per_line : list (list StyledRun * list Hyperlink * list CellSpan)) : Prop :=
  length per_line = length lines ∧
  ∀ i l, lines !! i = Some l →
    per_line !! i = Some (if decide (i < n) then if annotated l then style_of l else ([], [], [])
                          else ([], [], [])).
Lemma styles_placed_none lines : styles_placed lines 0 (replicate (length lines) ([], [], [])).
Proof.
  split; [by rewrite length_replicate|]. intros i l ?%lookup_lt_Some. cbn. by apply lookup_replicate_2.
Qed.
Lemma styles_placed_all lines :
  lines_fit lines = true →
  styles_placed lines (length lines) (foldl styled_entry (replicate (length lines) ([], [], []))
    (default [] (encode_styled_lines lines))).
Proof.
  intros [Hfits Hlines]%andb_true_iff. rewrite forallb_forall in Hlines.
  pose proof (styles_placed_none lines) as H0. unfold encode_styled_lines.
  destruct (existsb annotated lines) eqn:Hany; cbn [from_option id foldl].
  - apply foldl_enumerated_0; [done|]. intros n l per_line Hl [Hlen HI].
    assert (n < length lines) as Hn by (by eapply lookup_lt_Some).
    destruct (annotated l) eqn:Ha; [rewrite styled_entry_back|]; try lia.
    + split; [by rewrite length_insert|]. intros i l' Hi. destruct (decide (i = n)) as [->|].
      * simplify_eq. rewrite list_lookup_insert, Ha by lia. repeat case_decide; (done || lia).
      * rewrite list_lookup_insert_ne, (HI i l') by done. repeat case_decide; try lia; done.
    + apply Hlines. apply list_elem_of_In. by eapply list_elem_of_lookup_2.
    + by eapply fits_u32_index.
    + split; [done|]. intros i l' Hi. rewrite (HI i l') by done. destruct (decide (i = n)) as [->|].
      * simplify_eq. rewrite Ha. by repeat case_decide.
      * repeat case_decide; try lia; done.
  - destruct H0 as [Hlen H0]. split; [done|]. intros i l Hi. rewrite (H0 i l) by done. cbn.
    assert (annotated l = false) as ->; [|by repeat case_decide].
    apply not_true_iff_false. intros Ha. apply not_true_iff_false in Hany. apply Hany, existsb_exists.
    exists l. split; [|done]. apply list_elem_of_In. by eapply list_elem_of_lookup_2.
Qed.
Lemma covers_fills l link : covers (line_text l) (set_link link <$> line_runs l) = fills_line l.
Proof.
  assert (run_len <$> (set_link link <$> line_runs l) = run_len <$> line_runs l) as Hlens.
  { rewrite <-list_fmap_compose. by apply list_fmap_ext; intros ? []. }
  unfold fills_line, covers, sum_N. rewrite Hlens. destruct (line_runs l) as [|r runs].
  - by rewrite bool_decide_eq_true_2 by auto.
  - cbn [fmap list_fmap]. apply eq_true_iff_eq. rewrite N.eqb_eq, bool_decide_eq_true. naive_solver.
Qed.
Lemma covers_same l : covers (line_text l) (line_runs l) = fills_line l.
Proof.
  unfold fills_line, covers, sum_N. destruct (line_runs l) as [|r runs]; [by rewrite bool_decide_eq_true_2 by auto|].
  apply eq_true_iff_eq. rewrite N.eqb_eq, bool_decide_eq_true. naive_solver.
Qed.
Lemma received_styled l : styled_line (line_text l) (style_of l) = received_line l.
Proof.
  unfold style_of, styled_line, received_line. destruct (linked l).
  - rewrite covers_same. by destruct l.
  - by rewrite covers_fills.
Qed.
Lemma received_plain l : annotated l = false → styled_line (line_text l) ([], [], []) = received_line l.
Proof.
  intros Ha. rewrite <-received_styled. unfold annotated, style_of, linked in *.
  destruct (line_runs l), (line_cell_spans l); try done. by rewrite andb_false_r.
Qed.
Lemma lines_back lines :
  lines_fit lines = true →
  decode_styled_lines (line_text <$> lines) (encode_styled_lines lines) = received_line <$> lines.
Proof.
  intros Hfit. unfold decode_styled_lines. rewrite length_fmap.
  destruct (styles_placed_all lines Hfit) as [Hlen Hplaced].
  apply list_eq. intros i. rewrite lookup_zip_with, !list_lookup_fmap.
  destruct (lines !! i) as [l|] eqn:Hl; [|done]. cbn. rewrite (Hplaced i l) by done. cbn.
  apply lookup_lt_Some in Hl. rewrite decide_True by done.
  destruct (annotated l) eqn:Ha; [by rewrite received_styled|by rewrite received_plain].
Qed.

Open Scope string_scope.

(** ** What arrives *)

Definition received_size (s : PtySize) : PtySize := mkPtySize (cols s) (rows s) 0 0.
Definition received_buffer (r : BufferRecord) : BufferRecord := {|
  br_id := br_id r; br_title := br_title r; br_command := br_command r; br_cwd := br_cwd r;
  br_pipe := br_pipe r; br_kind := br_kind r; br_state := br_state r; br_pid := br_pid r;
  br_attachment_node_id := br_attachment_node_id r; br_read_only := br_read_only r;
  br_helper_source_buffer_id := br_helper_source_buffer_id r; br_helper_scope := br_helper_scope r;
  br_pty_size := br_pty_size r; br_activity := br_activity r;
  br_last_snapshot_seq := br_last_snapshot_seq r; br_exit_code := br_exit_code r; br_env := br_env r;
  br_user_options := br_user_options r;
  br_foreground_command := match br_foreground_command r with Some [] => None | command => command end;
  br_bell_sequence := br_bell_sequence r; br_host := br_host r
|}.
Definition received_view (v : BufferViewRecord) : BufferViewRecord :=
  mkBufferViewRecord (bv_buffer_id v) (bv_focused v) (bv_zoomed v) (bv_follow_output v)
    (received_size (bv_last_render_size v)).
(** Of a node, the part that goes with its kind. *)
Definition received_node (r : NodeRecord) : NodeRecord :=
  let part kind view split tabs :=
    mkNodeRecord (nr_id r) (nr_session_id r) (nr_parent_id r) kind view split tabs (nr_focus_leaf_id r) in
  match nr_kind r with
  | NkBufferView => part NkBufferView (received_view <$> nr_buffer_view r) None None
  | NkSplit => part NkSplit None (nr_split r) None
  | NkTabs => part NkTabs None None (nr_tabs r)
  end.
Definition has_part (r : NodeRecord) : bool :=
  match nr_kind r with
  | NkBufferView => is_some (nr_buffer_view r)
  | NkSplit => is_some (nr_split r)
  | NkTabs => is_some (nr_tabs r)
  end.
Definition received_snapshot (s : SessionSnapshot) : SessionSnapshot :=
  mkSessionSnapshot (ss_session s) (received_node <$> ss_nodes s) (received_buffer <$> ss_buffers s)
    (ss_floating s).
Definition received_response (r : ServerResponse) : ServerResponse :=
  match r with
  | RError (Some 0%N) code => RError None code
  | RSessionSnapshot id snapshot => RSessionSnapshot id (received_snapshot snapshot)
  | RBuffers id buffers => RBuffers id (received_buffer <$> buffers)
  | RBuffer id buffer => RBuffer id (received_buffer buffer)
  | RBufferWithLocation id buffer location at_root_tab =>
      RBufferWithLocation id (received_buffer buffer) location at_root_tab
  | RSnapshot r =>
      RSnapshot (mkSnapshotResponse (sn_request_id r) (sn_buffer_id r) (sn_sequence r)
        (received_size (sn_size r)) (sn_lines r) (sn_title r) (sn_cwd r))
  | RVisibleSnapshot r =>
      RVisibleSnapshot (mkVisibleSnapshotResponse (vs_request_id r) (vs_buffer_id r) (vs_sequence r)
        (vs_size r) (received_line <$> vs_lines r) (vs_title r) (vs_cwd r) (vs_viewport_top_line r)
        (vs_total_lines r) (vs_modes r) (vs_cursor r))
  | RScrollbackSlice r =>
      RScrollbackSlice (mkScrollbackSliceResponse (sl_request_id r) (sl_buffer_id r) (sl_start_line r)
        (sl_total_lines r) (received_line <$> sl_lines r))
  | r => r
  end.
Definition received_event (e : ServerEvent) : ServerEvent :=
  match e with
  | EvBufferCreated buffer => EvBufferCreated (received_buffer buffer)
  | EvBufferPipeChanged session_id buffer => EvBufferPipeChanged session_id (received_buffer buffer)
  | e => e
  end.
Definition received (m : ServerEnvelope) : ServerEnvelope :=
  match m with
  | SeResponse response => SeResponse (received_response response)
  | SeEvent event => SeEvent (received_event event)
  end.
(** Every node sent has the part of its kind, which the checks of the codec do not ask for. *)
Definition whole (m : ServerEnvelope) : bool :=
  match m with
  | SeResponse (RSessionSnapshot _ s) => forallb has_part (ss_nodes s)
  | _ => true
  end.
(** The lines of a screen, and the runs of a line, can be counted by a [u32]. *)
Definition counted (m : ServerEnvelope) : bool :=
  match m with
  | SeResponse (RVisibleSnapshot r) => lines_fit (vs_lines r)
  | SeResponse (RScrollbackSlice r) => lines_fit (sl_lines r)
  | _ => true
  end.

(** ** Fields *)

Lemma validate_all_Ok {A} (f : A → outcome unit) l :
  validate_all f l = Ok () ↔ Forall (λ x, f x = Ok ()) l.
Proof.
  unfold validate_all. induction l as [|x l IH]; cbn; [by split|]. rewrite Forall_cons, <-IH.
  destruct (f x) as [[]| | |]; cbn; naive_solver.
Qed.
Lemma valid_Ok b : valid b = Ok () ↔ b = true.
Proof. destruct b; cbn; naive_solver. Qed.
Lemma collect_back {A B C} (f : B → outcome C) (g : A → B) (h : A → C) (P : A → Prop) l :
  (∀ x, P x → f (g x) = Ok (h x)) → Forall P l → collect f (g <$> l) = Ok (h <$> l).
Proof. intros Hf. induction 1; cbn; [done|]. by rewrite Hf, IHForall. Qed.
Lemma collect_back_id {A B} (f : B → outcome A) (g : A → B) (P : A → Prop) l :
  (∀ x, P x → f (g x) = Ok x) → Forall P l → collect f (g <$> l) = Ok l.
Proof. intros Hf Hl. rewrite (collect_back f g id P), list_fmap_id; done. Qed.
Lemma then_some_default {A} (a : A) o : then_some (is_some o) (default a o) = o.
Proof. by destruct o. Qed.

(** A list with an entry that is not read is not read. *)
Lemma collect_refused {A B} (f : A → outcome B) l :
  (∀ x, x ∈ l → (∃ y, f x = Ok y) ∨ f x = Err Protocol) → (∃ x, x ∈ l ∧ f x = Err Protocol) →
  collect f l = Err Protocol.
Proof.
  induction l as [|x l IH]; intros Hf (z & Hz & Hbad); [by apply elem_of_nil in Hz|]. cbn.
  destruct (Hf x ltac:(by left)) as [[y Hy]|Hx]; [rewrite Hy|by rewrite Hx]. cbn.
  apply elem_of_cons in Hz as [->|Hz]; [congruence|]. rewrite IH; [done| |by exists z].
  intros w Hw. apply Hf. by right.
Qed.

(** ** Records *)

#[local] Arguments known : simpl never.
#[local] Arguments to_wire : simpl never.
#[local] Arguments nonzero : simpl never.
#[local] Arguments id_or_zero : simpl never.
#[local] Arguments decode_string_map : simpl never.
#[local] Arguments string_keys : simpl never.
#[local] Arguments string_values : simpl never.
#[local] Arguments validate_nonzero_id : simpl never.
#[local] Arguments validate_optional_id : simpl never.
#[local] Arguments validate_required_ids : simpl never.
#[local] Arguments validate_cells : simpl never.
#[local] Arguments decode_optional_cells : simpl never.
#[local] Arguments then_some : simpl never.

Lemma session_record_back r :
  validate_session_record r = Ok () → decode_session_record (encode_session_record r) = Ok r.
Proof.
  unfold validate_session_record. intros Hr. checked. unfold decode_session_record. cbn.
  destruct r as [? ? ? ? ? ? ? [[]|] base_index]; cbn in *; checked;
    rewrite ?decode_cells_nonzero, ?decode_cells_zero by done; cbn;
    by rewrite !nonzero_id_or_zero, then_some_default by done.
Qed.
Lemma buffer_pipe_record_back p :
  BufferPipeRecord_validate p = true → decode_buffer_pipe_record (encode_buffer_pipe_record p) = Ok p.
Proof.
  intros Hp. unfold decode_buffer_pipe_record, decode_buffer_pipe_stop_reason. cbn.
  rewrite !known_to_wire, !then_some_default. cbn.
  destruct p as [? ? ? ? []]; cbn in *; unfold validate_buffer_pipe_record; by rewrite Hp.
Qed.
Lemma received_buffer_valid r : BufferRecord_validate (received_buffer r) = BufferRecord_validate r.
Proof. by destruct r. Qed.
Lemma buffer_record_back r :
  validate_buffer_record r = Ok () →
  decode_buffer_record (encode_buffer_record r) = Ok (received_buffer r).
Proof.
  unfold validate_buffer_record. intros Hr. checked.
  assert (BufferRecord_validate r = true) as Hvalid by by apply valid_Ok.
  assert (transpose decode_buffer_pipe_record (encode_buffer_pipe_record <$> br_pipe r) = Ok (br_pipe r))
    as Hpipe.
  { unfold validate_buffer_pipe_record in *. destruct (br_pipe r) as [pipe|]; [|done].
    cbn [fmap option_fmap option_map transpose]. rewrite buffer_pipe_record_back; [done|]. by apply valid_Ok. }
  unfold decode_buffer_record, decode_buffer_history_scope. cbn.
  rewrite !known_to_wire, !decode_string_entries, Hpipe. cbn.
  rewrite <-received_buffer_valid in Hvalid. unfold received_buffer in *.
  rewrite !nonzero_id_or_zero, !then_some_default by done.
  replace (mkPtySize _ _ _ _) with (br_pty_size r) by by destruct (br_pty_size r).
  replace (match match br_foreground_command r with Some [] => None | c => c end with
           | Some [] => None | c => c end)
    with (match br_foreground_command r with Some [] => None | c => c end)
    by by destruct (br_foreground_command r) as [[]|].
  destruct (br_helper_scope r); cbn in *; rewrite Hvalid; done.
Qed.
Lemma node_record_back r :
  validate_node_record r = Ok () ∧ has_part r = true →
  decode_node_record (encode_node_record r) = Ok (received_node r).
Proof.
  intros [Hr Hpart]. unfold validate_node_record in Hr. checked.
  unfold decode_node_record, received_node, has_part in *. cbn. rewrite known_to_wire. cbn.
  rewrite !nonzero_id_or_zero by done.
  destruct (nr_kind r).
  - by destruct (nr_buffer_view r).
  - destruct (nr_split r) as [[]|]; [|done]. cbn. by rewrite known_to_wire.
  - destruct (nr_tabs r) as [[active tabs]|]; [|done]. cbn.
    rewrite (collect_back_id _ _ (λ _, True)); [done| |by apply Forall_true]. by intros [] _.
Qed.
Lemma node_record_refused r :
  has_part r = false → decode_node_record (encode_node_record r) = Err Protocol.
Proof.
  intros Hpart. unfold decode_node_record, has_part in *. cbn. rewrite known_to_wire. cbn.
  destruct (nr_kind r); [by destruct (nr_buffer_view r)|by destruct (nr_split r)|by destruct (nr_tabs r)].
Qed.
Lemma floating_record_back r : decode_floating_record (encode_floating_record r) = Ok r.
Proof. by destruct r as [? ? ? ? []]. Qed.
Lemma client_record_back r :
  validate_client_record r = Ok () → decode_client_record (encode_client_record r) = Ok r.
Proof.
  unfold validate_client_record. intros Hr. checked. unfold decode_client_record. cbn.
  rewrite (proj2 (validate_nonzero_id_Ok _)), collect_required_nonzero, nonzero_id_or_zero by done.
  by destruct r.
Qed.
Lemma session_snapshot_back s :
  validate_session_snapshot s = Ok () → forallb has_part (ss_nodes s) = true →
  decode_session_snapshot (encode_session_snapshot s) = Ok (received_snapshot s).
Proof.
  unfold validate_session_snapshot. intros Hs Hparts. checked.
  repeat match goal with H : validate_all _ _ = Ok () |- _ => apply validate_all_Ok in H end.
  unfold decode_session_snapshot. cbn [sst_session sst_nodes sst_buffers sst_floating
    encode_session_snapshot required ok_or mbind outcome_bind].
  rewrite session_record_back by done. cbn [mbind outcome_bind].
  rewrite (collect_back _ _ received_node (λ r, validate_node_record r = Ok () ∧ has_part r = true));
    [|apply node_record_back|].
  - cbn [mbind outcome_bind]. rewrite (collect_back _ _ received_buffer (λ r, validate_buffer_record r = Ok ()));
      [|apply buffer_record_back|done]. cbn [mbind outcome_bind].
    rewrite (collect_back_id _ _ (λ r, validate_floating_record r = Ok ()));
      [done|intros; apply floating_record_back|done].
  - apply Forall_and. split; [done|]. rewrite forallb_forall in Hparts. rewrite Forall_forall.
    intros r Hr. apply Hparts. by apply list_elem_of_In.
Qed.
Lemma session_snapshot_refused s :
  validate_session_snapshot s = Ok () → forallb has_part (ss_nodes s) = false →
  decode_session_snapshot (encode_session_snapshot s) = Err Protocol.
Proof.
  unfold validate_session_snapshot. intros Hs Hparts. checked.
  repeat match goal with H : validate_all _ _ = Ok () |- _ => apply validate_all_Ok in H end.
  unfold decode_session_snapshot. cbn [sst_session sst_nodes sst_buffers sst_floating
    encode_session_snapshot required ok_or mbind outcome_bind].
  rewrite session_record_back by done. cbn [mbind outcome_bind].
  rewrite (collect_refused decode_node_record); cbn [mbind outcome_bind]; [reflexivity| |].
  - intros t (r & -> & Hr)%list_elem_of_fmap. destruct (has_part r) eqn:Hp; [left|right; by apply node_record_refused].
    eexists. apply node_record_back. split; [|done]. by eapply (Forall_forall (λ r, validate_node_record r = Ok ())).
  - apply not_true_iff_false in Hparts. rewrite forallb_forall in Hparts.
    destruct (decide (Exists (λ r, has_part r = false) (ss_nodes s))) as [(r & Hr & Hp)%Exists_exists|Hno].
    + exists (encode_node_record r). split; [by apply list_elem_of_fmap_2|by apply node_record_refused].
    + destruct Hparts. intros r Hr. apply not_false_iff_true. intros Hp. apply Hno, Exists_exists.
      exists r. split; [by apply list_elem_of_In|done].
Qed.
Lemma session_snapshot_read s :
  validate_session_snapshot s = Ok () →
  decode_session_snapshot (encode_session_snapshot s)
  = if forallb has_part (ss_nodes s) then Ok (received_snapshot s) else Err Protocol.
Proof.
  intros Hs. destruct (forallb _ _) eqn:Hp; auto using session_snapshot_back, session_snapshot_refused.
Qed.
Lemma buffer_location_back location :
  validate_buffer_location location = Ok () →
  decode_buffer_location (encode_buffer_location_fields location) = Ok location.
Proof.
  intros Hl. unfold validate_buffer_location in Hl. checked.
  destruct location as [b []]; cbn in *; checked; rewrite ?(proj2 (N.eqb_neq _ _)) by done; done.
Qed.
Lemma cursor_state_back c : decode_cursor_state (encode_cursor_state c) = Ok c.
Proof. unfold decode_cursor_state. cbn. rewrite known_to_wire. by destruct c as [[]]. Qed.

(** ** Messages *)

Lemma server_message_kind id k t :
  server_message (envelope id k t) =
  match k with
  | MkSessionCreatedEvent | MkSessionClosedEvent | MkSessionRenamedEvent | MkBufferCreatedEvent
  | MkBufferPipeChangedEvent | MkBufferDetachedEvent | MkNodeChangedEvent | MkFloatingChangedEvent
  | MkFocusChangedEvent | MkRenderInvalidatedEvent | MkClipboardEvent | MkPassthroughEvent
  | MkDisplayMessageEvent | MkServerShutdownEvent | MkClientChangedEvent =>
      event ← decode_event (envelope id k t) k; Ok (SeEvent event)
  | _ => response ← decode_response (envelope id k t) k; Ok (SeResponse response)
  end.
Proof. unfold server_message. cbn [env_kind envelope]. by rewrite known_to_wire. Qed.

Lemma decode_error_code_back code : decode_error_code (to_wire code) = code.
Proof. unfold decode_error_code. by rewrite of_wire_to_wire. Qed.
Lemma sessions_back l :
  validate_all validate_session_record l = Ok () →
  collect decode_session_record (encode_session_record <$> l) = Ok l.
Proof. intros ?%validate_all_Ok. by apply (collect_back_id _ _ _ _ session_record_back). Qed.
Lemma buffers_back l :
  validate_all validate_buffer_record l = Ok () →
  collect decode_buffer_record (encode_buffer_record <$> l) = Ok (received_buffer <$> l).
Proof. intros ?%validate_all_Ok. by apply (collect_back _ _ _ _ _ buffer_record_back). Qed.
Lemma floatings_back l : collect decode_floating_record (encode_floating_record <$> l) = Ok l.
Proof.
  apply (collect_back_id _ _ (λ _, True)); [intros; apply floating_record_back|by apply Forall_true].
Qed.
Lemma clients_back l :
  validate_all validate_client_record l = Ok () →
  collect decode_client_record (encode_client_record <$> l) = Ok l.
Proof. intros ?%validate_all_Ok. by apply (collect_back_id _ _ _ _ client_record_back). Qed.
Lemma location_id_back location :
  validate_buffer_location location = Ok () →
  validate_nonzero_id (lt_buffer_id (encode_buffer_location_fields location)) = Ok ().
Proof.
  unfold validate_buffer_location. intros H. apply Ok_bind in H as ([] & H & _).
  by destruct location as [? []].
Qed.
Lemma writes_back (l : list PassthroughWrite) :
  (λ w, mkPassthroughWrite (default [] (pwt_data w))
          (mkCursorPosition (pwt_cursor_row w) (pwt_cursor_col w))) <$>
    ((λ w, mkPassthroughWriteTable (Some (write_bytes w)) (cp_row (write_cursor w))
             (cp_col (write_cursor w))) <$> l) = l.
Proof.
  rewrite <-list_fmap_compose. rewrite <-(list_fmap_id l) at 2. apply list_fmap_ext. by intros ? [? []].
Qed.
Lemma cursors_back o : transpose decode_cursor_state (encode_cursor_state <$> o) = Ok o.
Proof. destruct o; [|done]. cbn [fmap option_fmap option_map transpose]. by rewrite cursor_state_back. Qed.

#[local] Arguments decode_session_record : simpl never.
#[local] Arguments encode_session_record : simpl never.
#[local] Arguments decode_buffer_record : simpl never.
#[local] Arguments encode_buffer_record : simpl never.
#[local] Arguments decode_floating_record : simpl never.
#[local] Arguments encode_floating_record : simpl never.
#[local] Arguments decode_client_record : simpl never.
#[local] Arguments encode_client_record : simpl never.
#[local] Arguments decode_session_snapshot : simpl never.
#[local] Arguments encode_session_snapshot : simpl never.
#[local] Arguments decode_buffer_location : simpl never.
#[local] Arguments encode_buffer_location_fields : simpl never.
#[local] Arguments encode_cursor_state : simpl never.
#[local] Arguments decode_styled_lines : simpl never.
#[local] Arguments encode_styled_lines : simpl never.
#[local] Arguments decode_error_code : simpl never.
#[local] Arguments collect : simpl never.
#[local] Arguments transpose : simpl never.
#[local] Arguments env_field : simpl never.
#[local] Arguments validate_session_record : simpl never.
#[local] Arguments validate_buffer_record : simpl never.
#[local] Arguments validate_client_record : simpl never.
#[local] Arguments validate_session_snapshot : simpl never.
#[local] Arguments validate_buffer_location : simpl never.
#[local] Arguments validate_all : simpl never.

(** Reading the message that was just written. *)
Ltac read_message :=
  rewrite ?server_message_kind; cbn;
  repeat (progress (rewrite ?env_field_envelope, ?known_to_wire, ?decode_string_entries,
      ?decode_error_code_back, ?sessions_back, ?buffers_back, ?floatings_back, ?clients_back,
      ?session_record_back, ?buffer_record_back, ?floating_record_back, ?client_record_back,
      ?session_snapshot_read, ?location_id_back, ?buffer_location_back, ?cursors_back, ?lines_back,
      ?nonzero_id_or_zero by done; cbn)).

Lemma located_back id b location at_root_tab :
  validate_buffer_with_location_response id b location at_root_tab = Ok () →
  validate_buffer_location location = Ok () ∧ validate_buffer_record b = Ok ()
  ∧ (br_id b =? loc_buffer_id location)%N = true
  ∧ BufferWithLocationResponse_new id (received_buffer b) location at_root_tab
    = Some (RBufferWithLocation id (received_buffer b) location at_root_tab).
Proof.
  unfold validate_buffer_with_location_response. intros H. checked.
  destruct (BufferWithLocationResponse_new id b location at_root_tab) eqn:Hnew; [|done].
  repeat split; try done; unfold BufferWithLocationResponse_new in *; rewrite ?received_buffer_valid;
    cbn; repeat (case_match; try done); by apply negb_false_iff.
Qed.
Lemma response_back text r :
  validate_server_response r = Ok () → counted (SeResponse r) = true →
  server_message (encode_server_response text r)
  = if whole (SeResponse r) then Ok (SeResponse (received_response r)) else Err Protocol.
Proof.
  intros Hr Hs. destruct r as [| | |[[]|]| | | | | | | | | | |? b location| | |[? ? ? [] ? ? ? ? ? [] ?]|];
    cbn in Hr, Hs; unfold encode_server_response; read_message; try done.
  { by destruct (forallb _ _). }
  apply located_back in Hr as (Hl & Hb & Hid & Hnew).
  rewrite location_id_back by done. cbn. rewrite buffer_record_back by done. cbn.
  rewrite buffer_location_back by done. cbn. by rewrite Hid, Hnew.
Qed.
Lemma event_back e :
  validate_server_event e = Ok () →
  server_message (encode_server_event e) = Ok (SeEvent (received_event e)).
Proof.
  intros He. destruct e; cbn in He; checked; unfold encode_server_event;
    try (apply (server_message_kind 0 MkServerShutdownEvent)); read_message; try done.
  by rewrite writes_back.
Qed.
Lemma server_envelope_back text m e :
  counted m = true → server_envelope text m = Ok e →
  server_message e = if whole m then Ok (received m) else Err Protocol.
Proof.
  intros Hs He. unfold server_envelope in He. apply Ok_bind in He as ([] & Hv & [= <-]).
  destruct m; cbn in *; eauto using response_back, event_back.
Qed.

Lemma parses_valid b : parses (valid b).
Proof. by destruct b. Qed.
#[export] Hint Resolve parses_valid : parses.
Lemma parses_all {A} (f : A → outcome unit) l : (∀ x, parses (f x)) → parses (validate_all f l).
Proof. intros Hf. unfold validate_all. induction l; cbn; [done|]. apply parses_bind; [done|by intros []]. Qed.
Lemma parses_session_record r : parses (validate_session_record r).
Proof. unfold validate_session_record. parses. Qed.
Lemma parses_buffer_record r : parses (validate_buffer_record r).
Proof. unfold validate_buffer_record, validate_buffer_pipe_record. parses. Qed.
Lemma parses_node_record r : parses (validate_node_record r).
Proof. unfold validate_node_record. parses. apply parses_all. auto with parses. Qed.
Lemma parses_floating_record r : parses (validate_floating_record r).
Proof. unfold validate_floating_record. parses. Qed.
Lemma parses_client_record r : parses (validate_client_record r).
Proof. unfold validate_client_record. parses. Qed.
Lemma parses_buffer_location l : parses (validate_buffer_location l).
Proof. unfold validate_buffer_location. parses. Qed.
#[export] Hint Resolve parses_all parses_session_record parses_buffer_record parses_node_record
  parses_floating_record parses_client_record parses_buffer_location : parses.
Lemma parses_session_snapshot s : parses (validate_session_snapshot s).
Proof. unfold validate_session_snapshot. parses. Qed.
Lemma parses_located id b l root : parses (validate_buffer_with_location_response id b l root).
Proof.
  unfold validate_buffer_with_location_response. parses.
Qed.
#[export] Hint Resolve parses_session_snapshot parses_located : parses.
Lemma validate_server_envelope_parses m : parses (validate_server_envelope m).
Proof. destruct m as [[]|[]]; cbn; parses. Qed.

(** ** Theorem *)

(** C36: a response or an event that passes the checks of the codec is encoded, and its bytes are
    decoded to that message, when the envelope can be found in the bytes made of it and a [u32]
    counts the lines of a screen and the runs of each line; one that does not pass them is
    refused. The checks let through a snapshot with a node that lacks the part of its kind,
    such as a split without its children: it is sent, and not decoded. Left out on the way are
    the sizes in pixels of snapshots and panes, an empty foreground command, the part of a node
    that is not of its kind, links of a line no run of which is linked, runs whose lengths do
    not add up to the bytes of their line, with its links, and the request that an error
    answers when it is numbered 0; the text of an error is whatever the server says. *)
Theorem server_messages_round_trip finish root_as_envelope text m :
  (∀ e, server_envelope text m = Ok e → root_as_envelope (finish e) = Some e) →
  counted m = true →
  match validate_server_envelope m with
  | Ok _ => ∃ bytes,
      encode_server_envelope finish text m = Ok bytes
      ∧ decode_server_envelope root_as_envelope bytes
        = if whole m then Ok (received m) else Err Protocol
  | _ => encode_server_envelope finish text m = Err Protocol
  end.
Proof.
  intros Hroot Hs. pose proof (validate_server_envelope_parses m) as Hp.
  destruct (validate_server_envelope m) as [[]|?| |] eqn:Hv; cbn in Hp; try done; subst.
  - assert (∃ e, server_envelope text m = Ok e) as [e He] by (unfold server_envelope; rewrite Hv; by eexists).
    exists (finish e). unfold encode_server_envelope, decode_server_envelope. rewrite He. cbn.
    rewrite Hroot by done. cbn. split; [done|]. by apply (server_envelope_back text).
  - unfold encode_server_envelope, server_envelope. by rewrite Hv.
Qed.

(** A screen of two lines, the first with a red underlined link and a plain tail. *)
Definition screen_message : ServerEnvelope :=
  SeResponse (RVisibleSnapshot (mkVisibleSnapshotResponse 3 8 41 (mkPtySize 80 24 640 480)
    [mkSnapshotLine (lit "see x")
       [mkStyledRun 4 ColorDefault ColorDefault 0 ColorDefault 0;
        mkStyledRun 1 (Indexed 1) (Rgb 1 2 3) 4 (Indexed 9) 1]
       [mkHyperlink None (lit "http://x")] [mkCellSpan 5 5];
     SnapshotLine_plain (lit "$ ")]
    (Some (lit "sh")) None 0 2 (mkTerminalModes false true false true 0)
    (Some (mkCursorState (mkCursorPosition 1 2) Beam)))).
(** A session whose only node is said to be a split, of nothing. *)
Definition partless_message : ServerEnvelope :=
  SeResponse (RSessionSnapshot 3 (mkSessionSnapshot
    (mkSessionRecord 1 (lit "a") 2 [] None None None None None false)
    [mkNodeRecord 2 1 None NkSplit None None None None] [] [])).
Lemma server_messages_round_trip_witness :
  (received screen_message = screen_message
   ∧ ∃ e, server_envelope [] screen_message = Ok e
     ∧ ∃ bytes, encode_server_envelope (λ _, [1%N]) [] screen_message = Ok bytes
         ∧ decode_server_envelope (λ _, Some e) bytes = Ok screen_message)
  ∧ ∃ e, server_envelope [] partless_message = Ok e
    ∧ ∃ bytes, encode_server_envelope (λ _, [1%N]) [] partless_message = Ok bytes
        ∧ decode_server_envelope (λ _, Some e) bytes = Err Protocol.
Proof.
  split; [split; [reflexivity|]|]; eexists; (split; [reflexivity|]).
  - refine (server_messages_round_trip (λ _, [1%N]) (λ _, Some _) [] screen_message _ _).
    + intros e [= <-]. reflexivity.
    + reflexivity.
  - refine (server_messages_round_trip (λ _, [1%N]) (λ _, Some _) [] partless_message _ _).
    + intros e [= <-]. reflexivity.
    + reflexivity.
Defined.
