(* ===== verification/Snapshot.v ===== *)
(** What the server tells clients of its state,
    [crates/embers-server/src/protocol.rs]: records of sessions, buffers, nodes
    and popups, where a buffer is shown, and the snapshot of a session. *)

From S2P Require Import Prelude Core Model Environment State Queries Protocol.

Definition session_record (s : Session) : SessionRecord :=
  mkSessionRecord (s_id s) (s_name s) (s_root_node s) (s_floating s) (s_focused_leaf s)
    (s_focused_floating s) (s_zoomed_node s) (s_viewport s) (s_base_index s) (s_pane_titles s).

Definition pipe_record (p : BufferPipe) : BufferPipeRecord :=
  mkBufferPipeRecord (pipe_command p)
    match pipe_state p with PipeRunning _ => PrRunning | PipeStopped _ _ => PrStopped end
    match pipe_state p with PipeRunning pid => pid | PipeStopped _ _ => None end
    match pipe_state p with PipeRunning _ => None | PipeStopped exit_code _ => exit_code end
    match pipe_state p with PipeRunning _ => None | PipeStopped _ reason => Some reason end.

Definition buffer_record (b : Buffer) : BufferRecord :=
  let '(state, pid, exit_code) :=
    match b_state b with
    | Created => (RCreated, None, None)
    | Running pid => (RRunning, pid, None)
    | Interrupted last_known_pid => (RInterrupted, last_known_pid, None)
    | Exited exit_code _ => (RExited, None, exit_code)
    end in
  let '(kind, read_only, helper_source_buffer_id, helper_scope) :=
    match b_kind b with
    | KPty => (RPty, false, None, None)
    | KHelper helper =>
        (RHelper, true, Some (source_buffer_id helper),
         Some match scope helper with Full => HsFull | Visible => HsVisible end)
    end in
  {|
    br_id := b_id b;
    br_title := b_title b;
    br_command := b_command b;
    br_cwd := b_cwd b;
    br_pipe := pipe_record <$> b_pipe b;
    br_kind := kind;
    br_state := state;
    br_pid := pid;
    br_attachment_node_id :=
      match b_attachment b with Attached node_id => Some node_id | Detached => None end;
    br_read_only := read_only;
    br_helper_source_buffer_id := helper_source_buffer_id;
    br_helper_scope := helper_scope;
    br_pty_size := b_pty_size b;
    br_activity := b_activity b;
    br_last_snapshot_seq := b_last_snapshot_seq b;
    br_exit_code := exit_code;
    br_env := b_env b;
    br_user_options := b_user_options b;
    br_foreground_command := b_foreground_command b;
    br_bell_sequence := b_runtime_bell_sequence b;
    br_host := Placement_host (b_placement b)
  |}.

Definition buffer_location (st : ServerState) (bid : BufferId) : outcome BufferLocation :=
  b ← buffer st bid;
  match b_attachment b with
  | Detached => Ok (mkBufferLocation bid LocDetached)
  | Attached id =>
      n ← node st id;
      floating_id ← floating_id_for_node st id;
      Ok (mkBufferLocation bid
        match floating_id with
        | Some fid => LocFloating (node_session n) id fid
        | None => LocSession (node_session n) id
        end)
  end.

(** [u32::try_from(tabs.active).expect(..)] panics from 2^32 on. *)
Definition node_record (n : Node) (focus_leaf_id : option NodeId) : outcome NodeRecord :=
  match n with
  | BufferView v =>
      Ok (mkNodeRecord (v_id v) (v_session_id v) (v_parent v) NkBufferView
        (Some (mkBufferViewRecord (v_buffer_id v) (focused (v_view v)) (zoomed (v_view v))
                 (follow_output (v_view v)) (last_render_size (v_view v))))
        None None focus_leaf_id)
  | Split s =>
      Ok (mkNodeRecord (sp_id s) (sp_session_id s) (sp_parent s) NkSplit
        None (Some (mkSplitRecord (sp_direction s) (sp_children s) (sp_sizes s)))
        None focus_leaf_id)
  | Tabs t =>
      if (N.of_nat (t_active t) <? u32_modulus)%N then
        Ok (mkNodeRecord (t_id t) (t_session_id t) (t_parent t) NkTabs None None
          (Some (mkTabsRecord (N.of_nat (t_active t))
                   ((λ tab, mkTabRecord (te_title tab) (te_child tab)
                              (te_synchronize_panes tab)) <$> t_tabs t)))
          focus_leaf_id)
      else Panic
  end.

Definition floating_record (w : FloatingWindow) : FloatingRecord :=
  mkFloatingRecord (f_id w) (f_session_id w) (f_root_node w) (f_title w) (f_geometry w)
    (f_focused w) (f_visible w) (f_close_on_empty w) (f_border w).

Definition snapshot_node (st : ServerState) (id : NodeId) : outcome NodeRecord :=
  n ← node st id;
  focus_leaf_id ← resolve_focus_candidate st id;
  node_record n focus_leaf_id.

Definition session_snapshot (st : ServerState) (sid : SessionId) : outcome SessionSnapshot :=
  s ← session st sid;
  node_ids ← session_node_ids st sid;
  ns ← collect (snapshot_node st) node_ids;
  buffer_ids ← session_buffer_ids st sid;
  bs ← collect (λ bid, b ← buffer st bid; Ok (buffer_record b)) buffer_ids;
  fs ← collect (λ fid, w ← floating_window st fid; Ok (floating_record w)) (s_floating s);
  ensure (existsb (λ n, nr_id n =? s_root_node s)%N ns) Conflict ;;
  Ok (mkSessionSnapshot (session_record s) ns bs fs).

(** [location_is_root_tab] (server.rs) *)
Definition location_is_root_tab (st : ServerState) (location : BufferLocation) : outcome bool :=
  match loc_attachment location with
  | LocSession sid id =>
      root ← root_tabs st sid;
      n ← node st root;
      Ok match n with
         | Tabs t => existsb (λ tab, te_child tab =? id)%N (t_tabs t)
         | _ => false
         end
  | _ => Ok false
  end.
