(* ===== verification/Runtimes.v ===== *)
(** The runtimes that run the programs of buffers, as the server sees them: the
    data they report ([crates/embers-server/src/buffer_runtime.rs]), and the calls
    the server makes to them ([runtimes.rs], [runtime_handle.rs]). A call is
    answered from outside: by a keeper process, a host, or the clock. And [proc]: code that takes locks in
    turn and awaits calls, as a sequence of sections and calls. *)

From S2P Require Import Prelude Core Model Protocol.

(** ** What runtimes report *)

Inductive BufferRuntimePipeStopReason : Set :=
  | RtRequested | RtPipeExited | RtWriteFailed | RtBufferExited.

Record BufferRuntimePipeStatus : Type := mkPipeStatus {
  ps_command : list rstring;
  ps_running : bool;
  ps_pid : option N;
  ps_exit_code : option Z;
  ps_stop_reason : option BufferRuntimePipeStopReason
}.

Record BufferRuntimeUpdate : Type := mkUpdate {
  up_sequence : N;
  up_activity : ActivityState;
  up_title : option (option rstring);
  up_pipe : option (option BufferRuntimePipeStatus);
  up_cwd : option (option rstring);
  up_foreground_command : option (option (list rstring));
  up_bell_sequence : N;
  up_user_options : option (gmap rstring (option rstring))
}.

Record BufferRuntimeStatus : Type := mkStatus {
  st_pid : option N;
  st_sequence : N;
  st_activity : ActivityState;
  st_title : option rstring;
  st_running : bool;
  st_exit_code : option Z;
  st_pipe : option BufferRuntimePipeStatus;
  st_cwd : option rstring;
  st_clipboard_sequence : N;
  st_bell_sequence : N;
  st_passthrough_sequence : N;
  st_foreground_command : option (list rstring)
}.

Inductive RuntimeEnd : Set := EndExited (exit_code : option Z) | EndInterrupted.

Record RuntimeSnapshot : Type := mkRuntimeSnapshot {
  rs_sequence : N;
  rs_size : PtySize;
  rs_lines : list rstring;
  rs_title : option rstring;
  rs_cwd : option rstring
}.

Record TerminalSnapshot : Type := mkTerminalSnapshot {
  ts_sequence : N;
  ts_size : PtySize;
  ts_cursor : option CursorState;
  ts_lines : list SnapshotLine;
  ts_title : option rstring;
  ts_cwd : option rstring;
  ts_viewport_top_line : N;
  ts_total_lines : N;
  ts_modes : TerminalModes
}.

(** Scrollback travels as parallel lists, so that older keepers, which send no
    styles, are still understood. *)
Record RuntimeScrollbackSlice : Type := mkSlice {
  slice_start_line : N;
  slice_total_lines : N;
  slice_lines : list rstring;
  slice_styles : list (list StyledRun);
  slice_links : list (list Hyperlink);
  slice_cells : list (list CellSpan)
}.

Definition from_snapshot_lines (start_line total_lines : N) (ls : list SnapshotLine)
    : RuntimeScrollbackSlice :=
  mkSlice start_line total_lines (line_text <$> ls) (line_runs <$> ls) (line_links <$> ls)
    (line_cell_spans <$> ls).

(** [iter.next().unwrap_or_default()] *)
Definition next_or_nil {A} (l : list (list A)) : list A * list (list A) :=
  match l with [] => ([], []) | x :: l => (x, l) end.
Fixpoint zip_lines (ls : list rstring) (styles : list (list StyledRun))
    (links : list (list Hyperlink)) (cells : list (list CellSpan)) : list SnapshotLine :=
  match ls with
  | [] => []
  | text :: ls =>
      let '(line_runs, styles) := next_or_nil styles in
      let '(line_links, links) := next_or_nil links in
      let '(line_cells, cells) := next_or_nil cells in
      mkSnapshotLine text line_runs line_links line_cells :: zip_lines ls styles links cells
  end.
Definition into_snapshot_lines (slice : RuntimeScrollbackSlice) : list SnapshotLine :=
  zip_lines (slice_lines slice) (slice_styles slice) (slice_links slice) (slice_cells slice).

(** Keep a slice's styles, links and cells within a budget, in place of the text;
    cells are given up last. *)
Definition MAX_STYLE_PAYLOAD_BYTES : N := 4194304.
Definition ESTIMATED_STYLED_RUN_JSON_BYTES : N := 64.
Definition ESTIMATED_CELL_SPAN_JSON_BYTES : N := 24.

Definition sat_mul64 (a b : N) : N := N.min u64_max (a * b).
Definition count {A} (l : list (list A)) : N := sum_N ((λ x, N.of_nat (length x)) <$> l).
Definition all_empty {A} (l : list (list A)) : bool :=
  forallb (λ x, bool_decide (length x = 0)) l.
Definition link_size (l : Hyperlink) : N :=
  (byte_len (link_uri l) + match link_id l with Some id => byte_len id | None => 0 end)%N.

Definition fit_slice_payload (slice : RuntimeScrollbackSlice) : RuntimeScrollbackSlice :=
  let run_count := count (slice_styles slice) in
  let link_bytes := sum_N (link_size <$> concat (slice_links slice)) in
  let cell_bytes := sat_mul64 (count (slice_cells slice)) ESTIMATED_CELL_SPAN_JSON_BYTES in
  let cells :=
    if (MAX_STYLE_PAYLOAD_BYTES <? cell_bytes)%N || all_empty (slice_cells slice) then []
    else slice_cells slice in
  let cell_bytes := match cells with [] => 0%N | _ => cell_bytes end in
  let styles :=
    if (MAX_STYLE_PAYLOAD_BYTES <?
          sat_add64 (sat_add64 (sat_mul64 run_count ESTIMATED_STYLED_RUN_JSON_BYTES) link_bytes)
            cell_bytes)%N
       || all_empty (slice_styles slice) then []
    else slice_styles slice in
  let links :=
    if match styles with [] => true | _ => false end || all_empty (slice_links slice) then []
    else slice_links slice in
  mkSlice (slice_start_line slice) (slice_total_lines slice) (slice_lines slice) styles links cells.

(** ** Calls *)

Record StartRequest : Type := mkStartRequest {
  start_command : list rstring;
  start_cwd : option rstring;
  start_env : gmap rstring rstring;
  start_size : PtySize;
  start_title : rstring;
  start_host : option rstring
}.
Record Started : Type := mkStarted { started_placement : Placement; started_status : BufferRuntimeStatus }.

Inductive Restored : Type := RestoredRunning (status : BufferRuntimeStatus) | RestoredGone.

(** What a call that can fail answers. *)
Abbreviation result A := (A + MuxError)%type (only parsing).

(** The calls out of the server. [HcRegistered] is [BufferRuntimes::get], which
    tells whether a runtime runs the buffer; the calls from [HcStatus] on act on
    that runtime. [HcNow] is the clock. [HcRestart] and [HcTypeCommand] start the
    tasks of a restored buffer, and [HcRestarted] waits until the restarts have
    ended; [HcSleep] waits between two looks at a shell. [HcDisconnect] asks another connection to
    stop and waits until it has, and [HcReply] queues a response on a connection,
    unless its writer is gone. *)
Inductive HostCall : Type → Type :=
  | HcNow : HostCall Timestamp
  | HcRegistered (id : BufferId) : HostCall bool
  | HcStart (id : BufferId) (request : StartRequest) : HostCall (result Started)
  | HcRestore (placements : list (BufferId * Placement)) : HostCall (list (BufferId * Restored))
  | HcRelease (id : BufferId) : HostCall unit
  | HcDiscard (id : BufferId) : HostCall unit
  | HcSetHostGraphics (enabled : bool) : HostCall unit
  | HcStatus (id : BufferId) : HostCall (result BufferRuntimeStatus)
  | HcWrite (id : BufferId) (data : list N) : HostCall (result unit)
  | HcResize (id : BufferId) (size : PtySize) : HostCall (result unit)
  | HcKill (id : BufferId) : HostCall (result unit)
  | HcStartPipe (id : BufferId) (command : list rstring) (cwd : option rstring)
      (env : gmap rstring rstring) : HostCall (result BufferRuntimePipeStatus)
  | HcStopPipe (id : BufferId) : HostCall (result BufferRuntimePipeStatus)
  | HcStopPipeAfterExit (id : BufferId) : HostCall (result BufferRuntimePipeStatus)
  | HcCapture (id : BufferId) (cwd : option rstring) : HostCall (result RuntimeSnapshot)
  | HcCaptureVisible (id : BufferId) (cwd : option rstring) : HostCall (result TerminalSnapshot)
  | HcScrollbackSlice (id : BufferId) (start_line line_count : N)
      : HostCall (result RuntimeScrollbackSlice)
  | HcRestart (id : BufferId) : HostCall unit
  | HcRestarted : HostCall unit
  | HcTypeCommand (id : BufferId) (command_line : rstring) : HostCall unit
  | HcSleep : HostCall unit
  | HcDisconnect (id : ClientId) : HostCall unit
  | HcReply (id : ClientId) (response : ServerResponse) : HostCall bool.

(** The reply a call queues, and where. *)
Definition reply_of {A} (c : HostCall A) : option (ClientId * ServerResponse) :=
  match c with HcReply id response => Some (id, response) | _ => None end.

(** An answer for each call: nothing runs, and calls that can fail do. *)
Definition any_answer {A} (c : HostCall A) : A :=
  match c in HostCall A return A with
  | HcNow => 0%Z
  | HcRegistered _ => false
  | HcStart _ _ | HcStatus _ | HcWrite _ _ | HcResize _ _ | HcKill _ | HcStartPipe _ _ _ _
  | HcStopPipe _ | HcStopPipeAfterExit _ | HcCapture _ _ | HcCaptureVisible _ _
  | HcScrollbackSlice _ _ _ => inr Conflict
  | HcRestore _ => []
  | HcRelease _ | HcDiscard _ | HcSetHostGraphics _ | HcRestart _ | HcRestarted
  | HcTypeCommand _ _ | HcSleep | HcDisconnect _ => ()
  | HcReply _ _ => true
  end.

(** Server code that runs concurrently: a sequence of sections, each holding the
    locks it needs, with calls to the outside between them. Other code may run
    between two sections of one sequence. *)

Section proc.
Context {E : Type → Type} {S : Type}.

(** [E] are the calls, and [S] the state under the locks. A section never ends in an
    error: one that can fail hands its [Result] on with [attempt]. *)
Inductive proc (A : Type) : Type :=
  | Done (a : A)
  | Locked {B : Type} (section : ST S B) (next : B → proc A)
  | Await {B : Type} (call : E B) (next : B → proc A).
Arguments Done {A} a.
Arguments Locked {A B} section next.
Arguments Await {A B} call next.

#[export] Instance proc_ret : MRet proc := @Done.
Fixpoint proc_bind_ {A B} (f : A → proc B) (p : proc A) : proc B :=
  match p with
  | Done a => f a
  | Locked m k => Locked m (λ b, proc_bind_ f (k b))
  | Await c k => Await c (λ b, proc_bind_ f (k b))
  end.
#[export] Instance proc_bind : MBind proc := @proc_bind_.

(** [{ let guard = lock().await; m }], for code that cannot fail and for code that
    gives a [Result]. *)
Definition locked {A} (m : ST S A) : proc A := Locked m Done.
Definition section {A} (m : ST S A) : proc (A + MuxError) := Locked (attempt m) Done.
Definition await {A} (c : E A) : proc A := Await c Done.

(** [let a = p.await?; f(a)] *)
Definition try {A B} (p : proc (A + MuxError)) (f : A → proc (B + MuxError))
    : proc (B + MuxError) :=
  r ← p; match r with inl a => f a | inr e => mret (inr e) end.

(** [for x in l { acc = f(acc, x).await; }] *)
Fixpoint fold_proc {A B} (f : B → A → proc B) (acc : B) (l : list A) : proc B :=
  match l with
  | [] => mret acc
  | x :: l => acc ← f acc x; fold_proc f acc l
  end.
End proc.
Arguments proc : clear implicits.
Arguments Done {E S A} a.
Arguments Locked {E S A B} section next.
Arguments Await {E S A B} call next.

(** ** Running a sequence on its own *)

Section run.
Context {E : Type → Type} {S K : Type} (host : ∀ B, E B → K → B * K).

Fixpoint run {A} (p : proc E S A) (s : S) (k : K) : outcome A * S * K :=
  match p with
  | Done a => (Ok a, s, k)
  | Locked m next =>
      match m s with
      | (Ok b, s) => run (next b) s k
      | (Err e, s) => (Err e, s, k)
      | (Panic, s) => (Panic, s, k)
      | (OutOfFuel, s) => (OutOfFuel, s, k)
      end
  | Await c next => let '(b, k) := host _ c k in run (next b) s k
  end.
End run.
