(* ===== verification/Restore.v ===== *)
(** What a pane whose keeper is gone runs when it is restored,
    [crates/embers-server/src/restore.rs] with the settings of [config.rs]: the
    directory, the command, and the line typed into a restored shell. *)

From S2P Require Import Prelude Core Model Buffers.

(** ** Paths, as [std::path] reads them

    A path is its text. Its components are what stands between slashes, less empty
    ones and dots; a dot counts at the start of a relative path. ['/'] is 47, ['.']
    is 46. *)

Definition slash : N := 47.
Fixpoint join_with (sep : N) (ws : list rstring) : rstring :=
  match ws with
  | [] => []
  | [w] => w
  | w :: ws => w ++ sep :: join_with sep ws
  end.

(** A path starts at the root, or is relative; the pieces between its slashes. *)
Definition path_pieces (p : rstring) : bool * list rstring :=
  match p with
  | c :: p' => if (c =? slash)%N then (true, split_where (N.eqb slash) p') else (false, split_where (N.eqb slash) p)
  | [] => (false, [])
  end.
Fixpoint drop_while {A} (p : A → bool) (l : list A) : list A :=
  match l with
  | [] => []
  | x :: l' => if p x then drop_while p l' else l
  end.
Definition no_component (w : rstring) : bool := bool_decide (w = []) || bool_decide (w = lit ".").
(** [Components::as_path] drops what follows the last component. *)
Definition trim_pieces (rooted : bool) (ws : list rstring) : list rstring :=
  match reverse (drop_while no_component (reverse ws)) with
  | [] =>
      match ws with
      | w :: _ => if negb rooted && bool_decide (w = lit ".") then [w] else []
      | [] => []
      end
  | ws => ws
  end.
Definition path_text (rooted : bool) (ws : list rstring) : rstring :=
  (if rooted then [slash] else []) ++ join_with slash ws.

(** [Path::file_name], [Path::parent] and [Path::ancestors]. *)
Definition file_name (p : rstring) : option rstring :=
  let '(rooted, ws) := path_pieces p in
  match last (trim_pieces rooted ws) with
  | Some w => if bool_decide (w = lit "..") || bool_decide (w = lit ".") then None else Some w
  | None => None
  end.
Definition path_parent (p : rstring) : option rstring :=
  let '(rooted, ws) := path_pieces p in
  match trim_pieces rooted ws with
  | [] => None
  | ws => Some (path_text rooted (trim_pieces rooted (removelast ws)))
  end.
Fixpoint ancestors_in (fuel : nat) (p : rstring) : list rstring :=
  match fuel with
  | 0 => []
  | S fuel => p :: match path_parent p with Some p => ancestors_in fuel p | None => [] end
  end.
Definition ancestors (p : rstring) : list rstring := ancestors_in (S (S (length p))) p.

(** ** Settings, [RestoreConfig] *)

Record RestoreConfig : Type := mkRestoreConfig {
  rc_enabled : bool;
  rc_commands : list rstring
}.
Definition DEFAULT_RESTORE_COMMANDS : list rstring :=
  lit <$> ["vi"; "vim"; "nvim"; "emacs"; "man"; "less"; "more"; "tail"; "top"; "htop"; "irssi";
           "weechat"; "mutt"]%string.
Definition RestoreConfig_default : RestoreConfig := mkRestoreConfig true DEFAULT_RESTORE_COMMANDS.

Definition parse_command_list (value : rstring) : list rstring :=
  base.filter (λ w, w ≠ []) (split_where (λ c, (c =? 44)%N || is_whitespace c) value).

(** [from_env]; the arguments are the variables [EMBERS_RESTORE] and
    [EMBERS_RESTORE_COMMANDS], if set. *)
Definition RestoreConfig_from_env (restore commands : option rstring) : RestoreConfig :=
  let d := RestoreConfig_default in
  mkRestoreConfig
    match restore with
    | Some value =>
        negb (bool_decide (to_ascii_lowercase (trim value)
                           ∈ (lit <$> ["0"; "off"; "false"; "no"]%string)))
    | None => rc_enabled d
    end
    match commands with
    | Some value => parse_command_list value
    | None => rc_commands d
    end.

(** ** The plan *)

Definition KNOWN_SHELLS : list rstring :=
  lit <$> ["sh"; "bash"; "zsh"; "fish"; "dash"; "ksh"; "mksh"; "oksh"; "yash"; "tcsh"; "csh";
           "nu"; "elvish"; "xonsh"; "pwsh"]%string.

Record RestorePlan : Type := mkRestorePlan {
  plan_command : list rstring;
  plan_cwd : option rstring;
  plan_typed_command : option rstring
}.

(** [str::strip_prefix('-')] *)
Definition strip_dash (s : rstring) : rstring :=
  match s with c :: s' => if (c =? 45)%N then s' else s | [] => [] end.
Definition program_name (argv : list rstring) : option rstring :=
  match argv with
  | program :: _ => Some (strip_dash (default program (file_name program)))
  | [] => None
  end.
Definition is_shell (argv : list rstring) : bool :=
  match program_name argv with
  | Some name => bool_decide (name ∈ KNOWN_SHELLS)
  | None => false
  end.
Definition is_allowlisted (argv : list rstring) (config : RestoreConfig) : bool :=
  match program_name argv with
  | Some name => existsb (λ allowed, bool_decide (allowed = name)) (rc_commands config)
  | None => false
  end.

(** ** The line typed into a shell *)

Definition is_ascii_alphanumeric (c : N) : bool :=
  (((48 <=? c) && (c <=? 57)) || ((65 <=? c) && (c <=? 90)) || ((97 <=? c) && (c <=? 122)))%N.
Definition plain_char (c : N) : bool :=
  is_ascii_alphanumeric c || bool_decide (c ∈ lit "_-./:=@%+,").
Definition quote : N := 39.
Definition backslash : N := 92.
(** A quote or a backslash closes the quotes, stands escaped, and opens them again. *)
Definition escaped (c : N) : rstring :=
  if ((c =? quote) || (c =? backslash))%N then [quote; backslash; c; quote] else [c].
Definition shell_word (arg : rstring) : rstring :=
  if negb (bool_decide (arg = [])) && forallb plain_char arg then arg
  else quote :: concat (escaped <$> arg) ++ [quote].
Definition shell_command_line (argv : list rstring) : rstring :=
  join_with 32 (shell_word <$> argv).

Section plan.
(** [Path::is_dir], as the file system answers. *)
Context (is_dir : rstring → bool).

Definition nearest_existing_dir (p : rstring) : option rstring := find_first is_dir (ancestors p).

Definition plan_restore (b : Buffer) (config : RestoreConfig) (default_shell : list rstring)
    : RestorePlan :=
  let cwd := b_cwd b ≫= nearest_existing_dir in
  if is_shell (b_command b) then
    let typed := match b_foreground_command b with
                 | Some argv =>
                     if is_allowlisted argv config then Some (shell_command_line argv) else None
                 | None => None
                 end in
    mkRestorePlan (b_command b) cwd typed
  else if is_allowlisted (b_command b) config then mkRestorePlan (b_command b) cwd None
  else mkRestorePlan default_shell cwd None.
End plan.

(** [default_shell]; the argument is the variable [SHELL], if set. *)
Definition default_shell (shell : option rstring) : list rstring := [default (lit "/bin/sh") shell].
