(* ===== verification/Keepers.v ===== *)
(** The buffer runtimes of a server, [crates/embers-server/src/runtimes.rs]: which
    runtime runs which buffer, runtimes started, taken up again and let go, and
    keepers held until a saved workspace no longer needs them. *)

From stdpp Require Import pretty.
From S2P Require Import Prelude Core Model Persist Protocol Runtimes.

(** [BufferRuntimeHandle]: a keeper, here with the process it is, or a buffer of
    another host. *)
Inductive Handle : Type :=
  | HKeeper (process : N) (socket_path : rstring)
  | HRemote (host : rstring) (remote_id : BufferId).
Definition is_keeper (h : Handle) : bool := match h with HKeeper _ _ => true | _ => false end.
Definition handle_placement (h : Handle) : Placement :=
  match h with
  | HKeeper _ socket_path => Local (Some socket_path)
  | HRemote host remote_id => Remote host (Some remote_id)
  end.

Record Inner : Type := mkInner {
  keeper_env : gmap rstring rstring;
  running : gmap N Handle;
  awaiting : gmap N Handle;
  exited_early : gset N;
  shutting_down : gset N;
  held : gmap N (option RuntimeEnd);
  waiting_for_host : gmap rstring (gmap N BufferId);
  reaching : gset rstring;
  inner_stopping : bool;
  host_graphics_on : bool
}.
(** [BufferRuntimes::new] *)
Definition Inner_new (env : gmap rstring rstring) : Inner :=
  mkInner env ∅ ∅ ∅ ∅ ∅ ∅ ∅ false false.

Definition set_running (f : gmap N Handle → gmap N Handle) (i : Inner) : Inner :=
  mkInner (keeper_env i) (f (running i)) (awaiting i) (exited_early i) (shutting_down i) (held i)
    (waiting_for_host i) (reaching i) (inner_stopping i) (host_graphics_on i).
Definition set_awaiting (f : gmap N Handle → gmap N Handle) (i : Inner) : Inner :=
  mkInner (keeper_env i) (running i) (f (awaiting i)) (exited_early i) (shutting_down i) (held i)
    (waiting_for_host i) (reaching i) (inner_stopping i) (host_graphics_on i).
Definition set_exited_early (f : gset N → gset N) (i : Inner) : Inner :=
  mkInner (keeper_env i) (running i) (awaiting i) (f (exited_early i)) (shutting_down i) (held i)
    (waiting_for_host i) (reaching i) (inner_stopping i) (host_graphics_on i).
Definition set_shutting_down (f : gset N → gset N) (i : Inner) : Inner :=
  mkInner (keeper_env i) (running i) (awaiting i) (exited_early i) (f (shutting_down i)) (held i)
    (waiting_for_host i) (reaching i) (inner_stopping i) (host_graphics_on i).
Definition set_held (f : gmap N (option RuntimeEnd) → gmap N (option RuntimeEnd)) (i : Inner)
    : Inner :=
  mkInner (keeper_env i) (running i) (awaiting i) (exited_early i) (shutting_down i) (f (held i))
    (waiting_for_host i) (reaching i) (inner_stopping i) (host_graphics_on i).
Definition set_waiting
    (f : gmap rstring (gmap N BufferId) → gmap rstring (gmap N BufferId)) (i : Inner) : Inner :=
  mkInner (keeper_env i) (running i) (awaiting i) (exited_early i) (shutting_down i) (held i)
    (f (waiting_for_host i)) (reaching i) (inner_stopping i) (host_graphics_on i).
Definition set_reaching (f : gset rstring → gset rstring) (i : Inner) : Inner :=
  mkInner (keeper_env i) (running i) (awaiting i) (exited_early i) (shutting_down i) (held i)
    (waiting_for_host i) (f (reaching i)) (inner_stopping i) (host_graphics_on i).
Definition set_inner_flags (stopping graphics : bool) (i : Inner) : Inner :=
  mkInner (keeper_env i) (running i) (awaiting i) (exited_early i) (shutting_down i) (held i)
    (waiting_for_host i) (reaching i) stopping graphics.

(** The calls to keepers and hosts, to the server's callbacks ([KcReport] is
    [on_ended], [KcTakenUp] is [taken_up]), to the clock, and [write_workspace].
    [KcReach] starts the task that reaches a host again; a delay is in milliseconds. *)
Inductive KeeperCall : Type → Type :=
  | KcKeeperSocket (id : BufferId) : KeeperCall (result rstring)
  | KcSpawnKeeper (id : BufferId) (socket_path : rstring) (command : list rstring)
      (cwd : option rstring) (env : gmap rstring rstring) (size : PtySize)
      : KeeperCall (result Handle)
  | KcSpawnRemote (id : BufferId) (host title : rstring) (command : list rstring)
      (cwd : option rstring) (env : gmap rstring rstring) (size : PtySize)
      : KeeperCall (result Handle)
  | KcSocketExists (socket_path : rstring) : KeeperCall bool
  | KcAttachKeeper (id : BufferId) (socket_path : rstring) : KeeperCall (result Handle)
  | KcAttachRemote (id : BufferId) (host : rstring) (remote_id : BufferId)
      : KeeperCall (result Handle)
  | KcConnect (host : rstring) : KeeperCall (result unit)
  | KcStatus (h : Handle) : KeeperCall (result BufferRuntimeStatus)
  | KcStopPipe (h : Handle) : KeeperCall (result BufferRuntimePipeStatus)
  | KcKill (h : Handle) : KeeperCall (result unit)
  | KcTerminate (h : Handle) : KeeperCall (result unit)
  | KcRelease (h : Handle) : KeeperCall (result unit)
  | KcAcknowledge (id : BufferId) (h : Handle) : KeeperCall (result unit)
  | KcSetHostGraphics (h : Handle) (enabled : bool) : KeeperCall (result unit)
  | KcHostsGraphics (enabled : bool) : KeeperCall unit
  | KcReport (id : BufferId) (ending : RuntimeEnd) : KeeperCall unit
  | KcTakenUp (id : BufferId) (status : option BufferRuntimeStatus) : KeeperCall unit
  | KcReach (host : rstring) (delay : N) : KeeperCall unit
  | KcSleep (delay : N) : KeeperCall unit
  | KcWriteWorkspace (contents : PersistedWorkspace) : KeeperCall (result unit).

Abbreviation PK := (proc KeeperCall Inner).

(** ** Waiting for a save *)

Definition await_save (bid : BufferId) (h : Handle) : PK unit :=
  if is_keeper h then locked (modify (set_awaiting (insert bid h))) else mret ().
Definition stop_unregistered (bid : BufferId) (h : Handle) : PK unit :=
  await (KcRelease h) ;;
  locked (modify (set_exited_early (λ s, s ∖ {[bid]}))) ;;
  await_save bid h.

(** [BTreeSet::remove]: whether it was there. *)
Definition take_exited_early (bid : BufferId) : ST Inner bool :=
  early ← gets (λ i, bool_decide (bid ∈ exited_early i));
  modify (set_exited_early (λ s, s ∖ {[bid]})) ;;
  mret early.

Definition register (bid : BufferId) (h : Handle) (status : option BufferRuntimeStatus)
    : PK bool :=
  stopping ← locked (gets inner_stopping);
  if stopping : bool then stop_unregistered bid h ;; mret false
  else
    locked (modify (set_running (insert bid h))) ;;
    (if is_keeper h then
       graphics ← locked (gets host_graphics_on);
       if graphics : bool then await (KcSetHostGraphics h true) ;; mret () else mret ()
     else mret ()) ;;
    let exited := match status with Some status => negb (st_running status) | None => false end in
    early ← locked (take_exited_early bid);
    (if early || exited then await_save bid h else mret ()) ;;
    mret true.

Definition awaiting_save (i : Inner) : list BufferId := keys_of (awaiting i).

(** The keepers [saved] tells: those of [ids] that still wait. *)
Fixpoint take_awaiting (ids : list BufferId) (waiting : gmap N Handle)
    : list (BufferId * Handle) * gmap N Handle :=
  match ids with
  | [] => ([], waiting)
  | id :: ids =>
      let '(taken, rest) := take_awaiting ids (delete id waiting) in
      (match waiting !! id with Some h => (id, h) :: taken | None => taken end, rest)
  end.
Definition take_saved (ids : list BufferId) : ST Inner (list (BufferId * Handle)) :=
  r ← gets (λ i, take_awaiting ids (awaiting i));
  modify (set_awaiting (λ _, r.2)) ;;
  mret r.1.
Definition saved (ids : list BufferId) : PK unit :=
  keepers ← locked (take_saved ids);
  fold_proc (λ _ k, await (KcAcknowledge k.1 k.2) ;; mret ()) () keepers.

(** ** The end of a runtime *)

Definition take_shutting_down (bid : BufferId) : ST Inner bool :=
  down ← gets (λ i, bool_decide (bid ∈ shutting_down i));
  modify (set_shutting_down (λ s, s ∖ {[bid]})) ;;
  mret down.
Definition take_running (bid : BufferId) : ST Inner (option Handle) :=
  h ← gets (λ i, running i !! bid);
  modify (set_running (delete bid)) ;;
  mret h.
Definition wait_for_host (host : rstring) (bid remote_id : BufferId) (i : Inner) : Inner :=
  set_waiting (λ w, <[host := <[bid := remote_id]> (default ∅ (w !! host))]> w) i.

(** An exit is held for a save, or noted for when its runtime is registered. *)
Definition note_exit (bid : BufferId) : ST Inner unit :=
  h ← gets (λ i, running i !! bid);
  match h with
  | Some h => if is_keeper h then modify (set_awaiting (insert bid h)) else mret ()
  | None => modify (set_exited_early (λ s, {[bid]} ∪ s))
  end.

(** [Inner::ended]: how the server takes the end, and the host lost with it. *)
Definition runtime_ended (bid : BufferId) (ending : RuntimeEnd)
    : PK (RuntimeEnd * option rstring) :=
  down ← locked (take_shutting_down bid);
  let ending := if down : bool then EndInterrupted else ending in
  match ending with
  | EndInterrupted =>
      h ← locked (take_running bid);
      match h with
      | Some (HRemote host remote_id) =>
          if down : bool then mret (ending, None)
          else locked (modify (wait_for_host host bid remote_id)) ;; mret (ending, Some host)
      | _ => mret (ending, None)
      end
  | EndExited _ => locked (note_exit bid) ;; mret (ending, None)
  end.

(** ** Reaching a host again *)

Definition RECONNECT_FIRST_DELAY : N := 1000.
Definition RECONNECT_MAX_DELAY : N := 30000.

(** [BTreeSet::insert]: whether it is new. *)
Definition start_reaching (host : rstring) : ST Inner bool :=
  known ← gets (λ i, bool_decide (host ∈ reaching i));
  modify (set_reaching (λ s, {[host]} ∪ s)) ;;
  mret (negb known).
Definition reach_host (host : rstring) (delay : N) : PK unit :=
  stopping ← locked (gets inner_stopping);
  if stopping : bool then mret ()
  else
    new ← locked (start_reaching host);
    if new : bool then await (KcReach host delay) else mret ().

Definition report_end (bid : BufferId) (ending : RuntimeEnd) : PK unit :=
  r ← runtime_ended bid ending;
  await (KcReport bid r.1) ;;
  match r.2 with
  | Some host => reach_host host RECONNECT_FIRST_DELAY
  | None => mret ()
  end.

(** [on_ended] of [runtime_callbacks]: an end is held while its keeper is taken up. *)
Definition hold_end (bid : BufferId) (ending : RuntimeEnd) : ST Inner bool :=
  h ← gets (λ i, held i !! bid);
  match h with
  | Some _ => modify (set_held (insert bid (Some ending))) ;; mret true
  | None => mret false
  end.
Definition on_ended (bid : BufferId) (ending : RuntimeEnd) : PK unit :=
  waits ← locked (hold_end bid ending);
  if waits : bool then mret () else report_end bid ending.

Definition waits_for (host : rstring) (i : Inner) : bool :=
  match waiting_for_host i !! host with Some bs => negb (bool_decide (bs = ∅)) | None => false end.

(** Whether the buffer still waited for the host. *)
Definition take_waiting (host : rstring) (bid : BufferId) : ST Inner bool :=
  w ← gets (λ i, waiting_for_host i !! host);
  modify (set_waiting (alter (delete bid) host)) ;;
  mret (match w with Some bs => bool_decide (is_Some (bs !! bid)) | None => false end).

Definition take_up_remote (host : rstring) (done : bool) (b : BufferId * BufferId) : PK bool :=
  let '(bid, remote_id) := b in
  attached ← await (KcAttachRemote bid host remote_id);
  waiting ← locked (take_waiting host bid);
  match attached, waiting with
  | inl h, false => await (KcRelease h) ;; mret done
  | inl h, true =>
      status ← await (KcStatus h);
      let status := match status with inl status => Some status | inr _ => None end in
      registered ← register bid h status;
      (if registered : bool then await (KcTakenUp bid status) else mret ()) ;;
      mret done
  | inr _, false => mret done
  | inr e, true =>
      (* Reported to the server alone: there is no runtime whose end to record. *)
      if is_not_found e then await (KcReport bid (EndExited None)) ;; mret done
      else locked (modify (wait_for_host host bid remote_id)) ;; mret false
  end.
Definition take_up_on_host (host : rstring) : PK bool :=
  bs ← locked (gets (λ i, entries (default ∅ (waiting_for_host i !! host))));
  fold_proc (take_up_remote host) true bs.

(** The attempts the task makes, at most [attempts] of them here: it goes on until the
    host answers or nothing waits for it. *)
Definition next_delay (delay : N) : N :=
  N.min (N.max (delay * 2) RECONNECT_FIRST_DELAY) RECONNECT_MAX_DELAY.
Fixpoint reach_until_taken_up (attempts : nat) (host : rstring) (delay : N) : PK unit :=
  match attempts with
  | 0 => mret ()
  | S attempts =>
      await (KcSleep delay) ;;
      waits ← locked (gets (waits_for host));
      if waits : bool then
        connection ← await (KcConnect host);
        done ← match connection with
               | inl _ => take_up_on_host host
               | inr _ => mret false
               end;
        if done : bool then mret ()
        else reach_until_taken_up attempts host (next_delay delay)
      else mret ()
  end.
Definition reach_task (attempts : nat) (host : rstring) (delay : N) : PK unit :=
  reach_until_taken_up attempts host delay ;;
  locked (modify (set_reaching (λ s, s ∖ {[host]}))) ;;
  waits ← locked (gets (waits_for host));
  if waits : bool then reach_host host RECONNECT_FIRST_DELAY else mret ().

(** ** Starting and taking up *)

Definition BUFFER_ENV_VAR : rstring := lit "EMBERS_BUFFER".

Definition spawn_keeper (bid : BufferId) (request : StartRequest) : PK (result Handle) :=
  base ← locked (gets keeper_env);
  let env := <[BUFFER_ENV_VAR := lit (pretty bid)]> (start_env request ∪ base) in
  try (await (KcKeeperSocket bid)) (λ socket_path,
  await (KcSpawnKeeper bid socket_path (start_command request) (start_cwd request) env
           (start_size request))).

Definition start_runtime (bid : BufferId) (request : StartRequest) : PK (result Started) :=
  try (match start_host request with
       | Some host =>
           try (await (KcConnect host)) (λ _,
           await (KcSpawnRemote bid host (start_title request) (start_command request)
                    (start_cwd request) (start_env request) (start_size request)))
       | None => spawn_keeper bid request
       end) (λ h,
  status ← await (KcStatus h);
  match status with
  | inr e => await (KcKill h) ;; stop_unregistered bid h ;; mret (inr e)
  | inl status =>
      registered ← register bid h (Some status);
      mret (if registered : bool then inl (mkStarted (handle_placement h) status) else inr Conflict)
  end).

Definition status_with_pipe (pipe : BufferRuntimePipeStatus) (s : BufferRuntimeStatus)
    : BufferRuntimeStatus :=
  mkStatus (st_pid s) (st_sequence s) (st_activity s) (st_title s) (st_running s)
    (st_exit_code s) (Some pipe) (st_cwd s) (st_clipboard_sequence s) (st_bell_sequence s)
    (st_passthrough_sequence s) (st_foreground_command s).

Definition take_up_keeper (bid : BufferId) (socket_path : rstring) : PK Restored :=
  exists_ ← await (KcSocketExists socket_path);
  if negb exists_ then mret RestoredGone
  else
    attached ← await (KcAttachKeeper bid socket_path);
    match attached with
    | inr _ => mret RestoredGone
    | inl h =>
        status ← await (KcStatus h);
        match status with
        | inr _ => stop_unregistered bid h ;; mret RestoredGone
        | inl status =>
            let pipe_runs := match st_pipe status with Some p => ps_running p | None => false end in
            stopped ← (if pipe_runs : bool then
                         r ← await (KcStopPipe h);
                         mret (match r with
                               | inl pipe => Some (status_with_pipe pipe status)
                               | inr _ => None
                               end)
                       else mret (Some status));
            match stopped with
            | None => await (KcKill h) ;; stop_unregistered bid h ;; mret RestoredGone
            | Some status =>
                registered ← register bid h (Some status);
                mret (if registered : bool then RestoredRunning status else RestoredGone)
            end
        end
    end.

Definition take_held (bid : BufferId) : ST Inner (option RuntimeEnd) :=
  h ← gets (λ i, held i !! bid);
  modify (set_held (delete bid)) ;;
  mret (match h with Some ending => ending | None => None end).
Definition restore_keeper (bid : BufferId) (socket_path : rstring) : PK Restored :=
  locked (modify (set_held (insert bid None))) ;;
  restored ← take_up_keeper bid socket_path;
  report ← locked (take_held bid);
  match restored, report with
  | RestoredRunning _, Some ending => report_end bid ending
  | _, _ => mret ()
  end ;;
  mret restored.

Definition restore_one (acc : list (BufferId * Restored) * gset rstring)
    (p : BufferId * Placement) : PK (list (BufferId * Restored) * gset rstring) :=
  let '(restored, hosts) := acc in
  match p.2 with
  | Local (Some socket_path) =>
      outcome ← restore_keeper p.1 socket_path;
      mret (restored ++ [(p.1, outcome)], hosts)
  | Remote host (Some remote_id) =>
      locked (modify (wait_for_host host p.1 remote_id)) ;;
      mret (restored, {[host]} ∪ hosts)
  | _ => mret acc
  end.
(** Hosts are reached in the background, so their order does not matter. *)
Definition restore (placements : list (BufferId * Placement)) : PK (list (BufferId * Restored)) :=
  r ← fold_proc restore_one ([], ∅) placements;
  fold_proc (λ _ host, reach_host host 0) () (elements r.2) ;;
  mret r.1.

(** ** Letting go *)

Definition discard (bid : BufferId) : PK unit :=
  h ← locked (take_running bid);
  match h with
  | Some h => await (KcKill h) ;; stop_unregistered bid h
  | None => mret ()
  end.
Definition release_runtime (bid : BufferId) : PK unit :=
  locked (modify (set_waiting (fmap (delete bid)))) ;;
  h ← locked (take_running bid);
  match h with
  | Some h => await (KcRelease h) ;; await_save bid h
  | None => mret ()
  end.

(** The lock of [host_graphics] is held until every keeper and host was told. *)
Definition set_host_graphics (enabled : bool) : PK unit :=
  known ← locked (gets host_graphics_on);
  if bool_decide (known = enabled) then mret ()
  else
    locked (modify (λ i, set_inner_flags (inner_stopping i) enabled i)) ;;
    keepers ← locked (gets (λ i, base.filter (λ h, is_keeper h = true) (values_of (running i))));
    fold_proc (λ _ h, await (KcSetHostGraphics h enabled) ;; mret ()) () keepers ;;
    await (KcHostsGraphics enabled).

Definition begin_shut_down : ST Inner (list Handle) :=
  modify (λ i, set_inner_flags true (host_graphics_on i) i) ;;
  modify (set_waiting (λ _, ∅)) ;;
  modify (λ i, set_shutting_down (λ s, dom (running i) ∪ s) i) ;;
  gets (λ i, values_of (running i)).
(** With [kill], a buffer both waiting and running is ended once. *)
Definition take_ending : ST Inner (list Handle) :=
  hs ← gets (λ i, values_of (running i ∪ awaiting i));
  modify (set_awaiting (λ _, ∅)) ;;
  mret hs.
Definition shut_down (kill : bool) : PK unit :=
  runtimes ← locked begin_shut_down;
  (if kill then
     ending ← locked take_ending;
     fold_proc (λ _ h, await (KcTerminate h) ;; mret ()) () ending
   else mret ()) ;;
  fold_proc (λ _ h, await (KcRelease h) ;; mret ()) () runtimes ;;
  locked (modify (set_running (λ _, ∅))).
Definition close : PK unit := locked (modify (set_awaiting (λ _, ∅))).
