(* ===== verification/Saving.v ===== *)
(** Saving the workspace, [persist_workspace] of [crates/embers-server/src/server.rs]:
    a snapshot is taken under the state lock and written outside it, and then the
    keepers the saved workspace no longer needs are let go. *)

From S2P Require Import Prelude Core Model State Buffers Persist Protocol Runtimes.
From S2P Require Import Keepers.

(** What the task sees: the state of the server, its runtimes, and the workspace it
    last wrote. *)
Record Saver : Type := mkSaver {
  sv_state : ServerState;
  sv_inner : Inner;
  last_saved : option PersistedWorkspace
}.
Abbreviation PS := (proc KeeperCall Saver).

(** Whether a save of [st] does without the keeper of [bid]. *)
Definition keeper_unneeded (st : ServerState) (bid : BufferId) : bool :=
  match buffers st !! bid with
  | Some b => is_exited (b_state b) || bool_decide (Placement_socket_path (b_placement b) = None)
  | None => true
  end.
Definition exits_recorded_in (i : Inner) (st : ServerState) : list BufferId :=
  base.filter (λ bid, keeper_unneeded st bid = true) (awaiting_save i).

Record snapshot : Type := mkSnapshot {
  snap_workspace : PersistedWorkspace;
  snap_released : list BufferId;
  snap_unchanged : bool
}.
Definition snapshot_of (s : Saver) : snapshot :=
  let persisted := to_persisted (sv_state s) in
  mkSnapshot persisted (exits_recorded_in (sv_inner s) (sv_state s))
    match last_saved s with
    | Some previous => same_saved_state previous persisted
    | None => false
    end.

Definition on_inner {A} (m : ST Inner A) : ST Saver A := λ s,
  let '(r, i) := m (sv_inner s) in (r, mkSaver (sv_state s) i (last_saved s)).

(** [BufferRuntimes::saved] *)
Definition tell_saved (ids : list BufferId) : PS unit :=
  keepers ← locked (on_inner (take_saved ids));
  fold_proc (λ _ k, await (KcAcknowledge k.1 k.2) ;; mret ()) () keepers.

(** The workspace file is written whole or not at all ([write_workspace]; it can be in
    place although the write reports a failure). One save
    runs at a time: the saver is one task, and the save at the end of the server
    waits for it, so [last_saved] is as this task left it. *)
Definition write_snapshot (snap : snapshot) : PS (result unit) :=
  if snap_unchanged snap then mret (inl ())
  else
    try (await (KcWriteWorkspace (snap_workspace snap))) (λ _,
    locked (modify (λ s, mkSaver (sv_state s) (sv_inner s) (Some (snap_workspace snap)))) ;;
    mret (inl ())).
Definition after_snapshot (snap : snapshot) : PS (result unit) :=
  try (write_snapshot snap) (λ _, tell_saved (snap_released snap) ;; mret (inl ())).
Definition persist_workspace : PS (result unit) :=
  snap ← locked (gets snapshot_of);
  after_snapshot snap.
