(* ===== verification/Server.v ===== *)
(** The server around the state, [crates/embers-server/src/server.rs]: the
    connected clients, their event subscriptions and outbound queues, and the
    steps that tell clients about changes and clean up after them.

    What runs while a lock is held is one section, in [RT]; a function that takes
    locks in turn, or calls a runtime, is a [proc]. The outbound queues are bounded
    channels of the async runtime the source links against, described by the class
    [Channel]. *)

From S2P Require Import Prelude Core Model Environment State Queries Layout Moves.
From S2P Require Import Protocol Runtimes.

(** ** Outbound queues *)

Inductive SendResult : Set := Sent | Full_ | Closed_.

(** [mpsc::Sender::try_send]: the event is queued, the queue is full, or its
    receiver is gone. *)
Class Channel (C : Type) : Type := try_send : ServerEvent → C → SendResult * C.

Record ClientConnection : Type := mkClientConnection {
  current_session_id : option SessionId;
  host_graphics : bool;
  watched_buffers : gset N
}.

(** The sender of a subscription is a clone of its connection's, so the queue
    is named by the connection. *)
Record Subscription : Type := mkSubscription {
  connection_id : ClientId;
  subscribed_session : option SessionId
}.

Record ResourceLimits : Type := mkResourceLimits { max_sessions : nat; max_buffers : nat }.

Section server.
Context {C : Type} {channel : Channel C}.

(** The parts of [Runtime] that requests read and write. *)
Record Runtime : Type := mkRuntime {
  rt_state : ServerState;
  rt_clients : gmap N ClientConnection;
  rt_subscriptions : gmap N Subscription;
  rt_channels : gmap N C;
  next_subscription_id : N;
  kill_on_shutdown : bool;
  stopping : bool;
  workspace_dirty : bool;
  workspace_metadata_dirty : bool
}.

Abbreviation RT := (ST Runtime).
Abbreviation PT := (proc HostCall Runtime).

Definition set_rt_state (st : ServerState) (rt : Runtime) : Runtime :=
  mkRuntime st (rt_clients rt) (rt_subscriptions rt) (rt_channels rt) (next_subscription_id rt)
    (kill_on_shutdown rt) (stopping rt) (workspace_dirty rt) (workspace_metadata_dirty rt).
Definition set_rt_clients (f : gmap N ClientConnection → gmap N ClientConnection)
    (rt : Runtime) : Runtime :=
  mkRuntime (rt_state rt) (f (rt_clients rt)) (rt_subscriptions rt) (rt_channels rt)
    (next_subscription_id rt) (kill_on_shutdown rt) (stopping rt) (workspace_dirty rt)
    (workspace_metadata_dirty rt).
Definition set_rt_subscriptions (subs : gmap N Subscription) (chans : gmap N C)
    (next : N) (rt : Runtime) : Runtime :=
  mkRuntime (rt_state rt) (rt_clients rt) subs chans next (kill_on_shutdown rt) (stopping rt)
    (workspace_dirty rt) (workspace_metadata_dirty rt).
Definition set_rt_flags (kill stop dirty metadata_dirty : bool) (rt : Runtime) : Runtime :=
  mkRuntime (rt_state rt) (rt_clients rt) (rt_subscriptions rt) (rt_channels rt)
    (next_subscription_id rt) kill stop dirty metadata_dirty.

(** [self.state.lock().await.m()] *)
Definition on_state {A} (m : SM A) : RT A := λ rt,
  let '(o, st) := m (rt_state rt) in (o, set_rt_state st rt).
Definition read_state {A} (f : ServerState → outcome A) : RT A := reads (λ rt, f (rt_state rt)).

Definition mark_workspace_dirty : RT unit :=
  modify (λ rt, set_rt_flags (kill_on_shutdown rt) (stopping rt) true
                  (workspace_metadata_dirty rt) rt).
Definition mark_workspace_metadata_dirty : RT unit :=
  modify (λ rt, set_rt_flags (kill_on_shutdown rt) (stopping rt) (workspace_dirty rt) true rt).

(** ** Clients *)

Definition register_client (id : ClientId) : RT unit :=
  modify (set_rt_clients (insert id (mkClientConnection None false ∅))).

(** [Vec::dedup] *)
Fixpoint dedup (l : list N) : list N :=
  match l with
  | x :: ((y :: _) as l') => if (x =? y)%N then dedup l' else x :: dedup l'
  | _ => l
  end.

Definition subscribed_sessions (rt : Runtime) (id : ClientId) : bool * list SessionId :=
  let mine := base.filter (λ s, connection_id s = id) (values_of (rt_subscriptions rt)) in
  (existsb (λ s, bool_decide (subscribed_session s = None)) mine,
   dedup (merge_sort N.le (omap subscribed_session mine))).

Definition record_of_client (rt : Runtime) (id : ClientId) (client : ClientConnection)
    : ClientRecord :=
  let '(all, ids) := subscribed_sessions rt id in
  mkClientRecord id (current_session_id client) all ids.

Definition list_clients (rt : Runtime) : list ClientRecord :=
  (λ entry, record_of_client rt entry.1 entry.2) <$> entries (rt_clients rt).
Definition client_record (rt : Runtime) (id : ClientId) : option ClientRecord :=
  record_of_client rt id <$> rt_clients rt !! id.

Definition drop_subscriptions (id : ClientId) : RT unit :=
  modify (λ rt, set_rt_subscriptions
    (filter (λ entry, connection_id entry.2 ≠ id) (rt_subscriptions rt))
    (rt_channels rt) (next_subscription_id rt) rt).

Definition detach_client (id : ClientId) : PT (result unit) :=
  try (section
    (cs ← gets rt_clients;
     match cs !! id with
     | None => throw NotFound
     | Some _ => modify (set_rt_clients (delete id))
     end)) (λ _,
  locked (drop_subscriptions id) ;;
  mret (inl ())).

Definition c_set_session (sid : option SessionId) (c : ClientConnection) : ClientConnection :=
  mkClientConnection sid (host_graphics c) (watched_buffers c).
Definition c_set_graphics (b : bool) (c : ClientConnection) : ClientConnection :=
  mkClientConnection (current_session_id c) b (watched_buffers c).
Definition c_set_watched (f : gset N → gset N) (c : ClientConnection) : ClientConnection :=
  mkClientConnection (current_session_id c) (host_graphics c) (f (watched_buffers c)).

(** [acknowledge_shown_activity(..).unwrap_or(false)] *)
Definition acknowledge (sid : option SessionId) : RT bool :=
  match sid with
  | None => mret false
  | Some sid =>
      r ← attempt (on_state (Buffers.acknowledge_shown_activity sid));
      mret match r with inl b => b | inr _ => false end
  end.

(** The part of [set_client_session] that holds the state and the clients: the
    session shown before, and whether an activity mark was cleared. *)
Definition show_session (id : ClientId) (sid : option SessionId)
    : RT (option SessionId * bool) :=
  rt ← gets (λ rt, rt);
  lift (ensure match sid with
               | Some sid => bool_decide (is_Some (sessions (rt_state rt) !! sid))
               | None => true
               end NotFound) ;;
  match rt_clients rt !! id with
  | None => throw NotFound
  | Some client =>
      modify (set_rt_clients (insert id (c_set_session sid client))) ;;
      acknowledged ← acknowledge sid;
      mret (current_session_id client, acknowledged)
  end.

Definition set_client_session (id : ClientId) (sid : option SessionId)
    : PT (result (ClientRecord * list ServerEvent)) :=
  try (section (show_session id sid)) (λ r,
  let '(previous, acknowledged) := r in
  record ← locked (gets (λ rt, client_record rt id));
  mret match record with
       | None => inr NotFound
       | Some record =>
           inl (record,
             EvClientChanged record previous
             :: match sid with
                | Some sid => if acknowledged : bool then [EvNodeChanged sid] else []
                | None => []
                end)
       end).

(** The clients of [sid], in id order, no longer show a session. *)
Definition shows (sid : SessionId) (c : ClientConnection) : bool :=
  bool_decide (current_session_id c = Some sid).
Definition clear_client_session (sid : SessionId) : RT (list (ClientId * option SessionId)) :=
  cs ← gets rt_clients;
  modify (set_rt_clients (fmap (λ c, if shows sid c then c_set_session None c else c))) ;;
  mret ((λ entry, (entry.1, Some sid)) <$>
          base.filter (λ entry, shows sid entry.2 = true) (entries cs)).

Definition client_changed_events (changed : list (ClientId * option SessionId))
    : PT (list ServerEvent) :=
  fold_proc (λ events change,
    record ← locked (gets (λ rt, client_record rt change.1));
    mret match record with
         | Some record => events ++ [EvClientChanged record change.2]
         | None => events
         end) [] changed.

(** [sync_host_graphics]; its own lock, which only orders what the runtimes hear,
    is left out. *)
Definition any_host_graphics (rt : Runtime) : bool :=
  existsb host_graphics (values_of (rt_clients rt)).
Definition sync_host_graphics : PT unit :=
  enabled ← locked (gets any_host_graphics);
  await (HcSetHostGraphics enabled).

(** ** Events about a session *)

Definition focus_changed_event (st : ServerState) (sid : SessionId) : option ServerEvent :=
  (λ s, EvFocusChanged sid (s_focused_leaf s) (s_focused_floating s)) <$> sessions st !! sid.

Definition layout_changed_events (st : ServerState) (sid : SessionId)
    : outcome (list ServerEvent) :=
  session st sid ;;
  Ok (EvNodeChanged sid :: option_list (focus_changed_event st sid)).

Definition closed_session_ids (events : list ServerEvent) : list SessionId :=
  set_to_sorted (list_to_set (omap (λ e,
    match e with EvSessionClosed sid => Some sid | _ => None end) events)).

(** ** Cleaning up *)

Definition destroy_if_emptied (acc : list SessionId * list (ClientId * option SessionId))
    (sid : SessionId) : RT (list SessionId * list (ClientId * option SessionId)) :=
  exists_ ← gets (λ rt, bool_decide (is_Some (sessions (rt_state rt) !! sid)));
  if negb exists_ then mret acc
  else
    shown ← read_state (λ st, session_has_panes st sid);
    if shown : bool then mret acc
    else
      r ← attempt (on_state (close_session sid));
      match r with
      | inr _ => mret acc
      | inl _ =>
          changed ← clear_client_session sid;
          mret (acc.1 ++ [sid], acc.2 ++ changed)
      end.

(** [events.retain(..)]: layout and focus events about destroyed sessions go. *)
Definition about_destroyed (destroyed : list SessionId) (e : ServerEvent) : bool :=
  match e with
  | EvNodeChanged sid | EvFocusChanged sid _ _ | EvFloatingChanged sid _ =>
      bool_decide (sid ∈ destroyed)
  | _ => false
  end.

Definition destroy_emptied_sessions (had_panes : list SessionId) (events : list ServerEvent)
    : PT (list ServerEvent) :=
  acc ← locked (fold_st destroy_if_emptied ([], []) had_panes);
  let '(destroyed, changed_clients) := acc in
  if bool_decide (destroyed = []) then mret events
  else
    locked mark_workspace_dirty ;;
    changed ← client_changed_events changed_clients;
    mret (base.filter (λ e, about_destroyed destroyed e = false) events
          ++ (EvSessionClosed <$> destroyed) ++ changed).

Definition session_events (st : ServerState) (sid : SessionId) : list ServerEvent :=
  if bool_decide (is_Some (sessions st !! sid)) then
    EvNodeChanged sid :: option_list (focus_changed_event st sid)
  else [].

(** The part of [dispose_exited_buffers] that holds the state. *)
Definition dispose_section (events : list ServerEvent)
    : RT (list BufferId * list SessionId * list ServerEvent) :=
  disposed ← on_state dispose_exited_buffers;
  st ← gets rt_state;
  let changed := set_to_sorted (changed_sessions disposed) in
  mret (removed_buffers disposed, changed, events ++ (changed ≫= session_events st)).

Definition Runtime_dispose_exited_buffers (events : list ServerEvent) : PT (list ServerEvent) :=
  r ← locked (dispose_section events);
  let '(removed, changed, events) := r in
  events ← destroy_emptied_sessions changed events;
  if bool_decide (removed = []) then mret events
  else
    locked mark_workspace_dirty ;;
    fold_proc (λ _ id, await (HcRelease id)) () removed ;;
    mret events.

Definition sessions_with_panes_if (closes : bool) : RT (list SessionId) :=
  if closes then read_state sessions_with_panes else mret [].

Definition b_set_watched (w : bool) (b : Buffer) : Buffer :=
  mkBuffer (b_id b) (b_title b) (b_command b) (b_cwd b) (b_env b) (b_user_options b)
    (b_foreground_command b) (b_placement b) (b_state b) (b_attachment b) (b_pty_size b)
    (b_activity b) (b_last_snapshot_seq b) (b_kind b) (b_pipe b) (b_created_at b)
    (b_ever_attached b) (b_runtime_bell_sequence b) w.

(** Mark a buffer watched by whether a client still watches it. *)
Definition sync_watched (watched : gset N) (bs : gmap N Buffer) (id : BufferId)
    : gmap N Buffer :=
  alter (b_set_watched (bool_decide (id ∈ watched))) id bs.
Definition sync_watched_buffers (ids : list BufferId) (events : list ServerEvent)
    : PT (list ServerEvent) :=
  watched ← locked (gets (λ rt, ⋃ (watched_buffers <$> values_of (rt_clients rt))));
  locked (on_state (modify (set_buffers (λ bs, foldl (sync_watched watched) bs ids)))) ;;
  Runtime_dispose_exited_buffers events.

(** ** Delivering events *)

Definition matches (event : ServerEvent) (sub : Subscription) : bool :=
  let ids := all_session_ids event in
  bool_decide (ids = [])
  || match subscribed_session sub with
     | None => true
     | Some sid => bool_decide (sid ∈ ids)
     end.

(** Send the events [sub] asked for; [false] once its queue refused one. A
    connection without a queue has hung up. *)
Fixpoint deliver (chans : gmap N C) (sub : Subscription) (events : list ServerEvent)
    : bool * gmap N C :=
  match events with
  | [] => (true, chans)
  | e :: events =>
      if matches e sub then
        match chans !! connection_id sub with
        | None => (false, chans)
        | Some ch =>
            let '(r, ch) := try_send e ch in
            let chans := <[connection_id sub := ch]> chans in
            match r with
            | Sent => deliver chans sub events
            | Full_ | Closed_ => (false, chans)
            end
        end
      else deliver chans sub events
  end.

(** The [retain] over the subscriptions, in key order. *)
Fixpoint deliver_all (chans : gmap N C) (kept : gmap N Subscription)
    (subs : list (N * Subscription)) (events : list ServerEvent)
    : gmap N Subscription * gmap N C :=
  match subs with
  | [] => (kept, chans)
  | (id, sub) :: subs =>
      let '(ok, chans) := deliver chans sub events in
      deliver_all chans (if ok : bool then kept else delete id kept) subs events
  end.

Definition retired (sids : list SessionId) (sub : Subscription) : bool :=
  match subscribed_session sub with Some sid => bool_decide (sid ∈ sids) | None => false end.

Definition broadcast (events : list ServerEvent) (retired_session_ids : list SessionId)
    : RT unit :=
  modify (λ rt,
    let '(subs, chans) :=
      if bool_decide (events = []) then (rt_subscriptions rt, rt_channels rt)
      else deliver_all (rt_channels rt) (rt_subscriptions rt) (entries (rt_subscriptions rt))
             events in
    set_rt_subscriptions
      (filter (λ entry, retired retired_session_ids entry.2 = false) subs) chans
      (next_subscription_id rt) rt).

(** [send_to_clients]: one subscription of each client is used, the first. *)
Fixpoint send_once (chans : gmap N C) (ids delivered : gset N) (subs : list Subscription)
    (event : ServerEvent) : gmap N C :=
  match subs with
  | [] => chans
  | sub :: subs =>
      let id := connection_id sub in
      if bool_decide (id ∈ ids) && negb (bool_decide (id ∈ delivered)) then
        let chans := match chans !! id with
                     | Some ch => <[id := (try_send event ch).2]> chans
                     | None => chans
                     end in
        send_once chans ids ({[id]} ∪ delivered) subs event
      else send_once chans ids delivered subs event
  end.
Definition send_to_clients (ids : gset N) (event : ServerEvent) : RT unit :=
  modify (λ rt, set_rt_subscriptions (rt_subscriptions rt)
    (send_once (rt_channels rt) ids ∅ (values_of (rt_subscriptions rt)) event)
    (next_subscription_id rt) rt).

Definition clients_of (rt : Runtime) (p : ClientConnection → bool) : gset N :=
  dom (filter (λ entry, p entry.2 = true) (rt_clients rt)).

Definition message_clients (rt : Runtime) (client_id : option ClientId)
    (sid : option SessionId) : outcome (gset N) :=
  match client_id, sid with
  | Some id, _ => if bool_decide (is_Some (rt_clients rt !! id)) then Ok {[id]} else Err NotFound
  | None, Some sid => Ok (clients_of rt (shows sid))
  | None, None => Ok ∅
  end.
Definition display_message (client_id : option ClientId) (sid : option SessionId)
    (event : ServerEvent) : PT (result unit) :=
  try (section (reads (λ rt, message_clients rt client_id sid))) (λ ids,
  if bool_decide (ids = ∅) then mret (inr NotFound)
  else locked (send_to_clients ids event) ;; mret (inl ())).

(** [clients_showing_buffer]: first the session the buffer is attached in, then its
    clients and those watching the buffer. *)
Definition attached_session (st : ServerState) (bid : BufferId) : option (option SessionId) :=
  b ← buffers st !! bid;
  match b_attachment b with
  | Attached id => Some ∘ node_session <$> nodes st !! id
  | Detached => Some None
  end.
Definition shown_to (sid : option SessionId) (bid : BufferId) (c : ClientConnection) : bool :=
  match sid with Some sid => shows sid c | None => false end
  || bool_decide (bid ∈ watched_buffers c).
Definition clients_showing_buffer (bid : BufferId) : PT (option (gset N)) :=
  sid ← locked (gets (λ rt, attached_session (rt_state rt) bid));
  match sid with
  | None => mret None
  | Some sid =>
      ids ← locked (gets (λ rt, clients_of rt (shown_to sid bid)));
      mret (if bool_decide (ids = ∅) then None else Some ids)
  end.

Definition forward_clipboard (bid : BufferId) (selection : ClipboardSelection)
    (text : rstring) : PT unit :=
  ids ← clients_showing_buffer bid;
  match ids with
  | None => mret ()
  | Some ids => locked (send_to_clients ids (EvClipboard bid selection text))
  end.

(** Passthrough writes share an event up to a budget. *)
Definition PASSTHROUGH_EVENT_BUDGET : N := 6291456.
Definition WRITE_OVERHEAD : N := 32.
Definition write_cost (w : PassthroughWrite) : N :=
  (N.of_nat (length (write_bytes w)) + WRITE_OVERHEAD)%N.

Fixpoint batch_from (batch : list PassthroughWrite) (batch_bytes : N)
    (writes : list PassthroughWrite) : list (list PassthroughWrite) :=
  match writes with
  | [] => match batch with [] => [] | _ => [batch] end
  | w :: writes =>
      let cost := write_cost w in
      if negb (bool_decide (length batch = 0))
         && (PASSTHROUGH_EVENT_BUDGET <? batch_bytes + cost)%N
      then batch :: batch_from [w] cost writes
      else batch_from (batch ++ [w]) (batch_bytes + cost)%N writes
  end.
Definition batch_passthrough_writes (writes : list PassthroughWrite)
    : list (list PassthroughWrite) := batch_from [] 0%N writes.

Definition forward_passthrough (bid : BufferId) (writes : list PassthroughWrite) : PT unit :=
  ids ← clients_showing_buffer bid;
  match ids with
  | None => mret ()
  | Some ids =>
      fold_proc (λ _ writes, locked (send_to_clients ids (EvPassthrough bid writes))) ()
        (batch_passthrough_writes writes)
  end.

(** ** A connection ends *)

Definition cleanup_connection (id : ClientId) : PT unit :=
  client ← locked (client ← gets (λ rt, rt_clients rt !! id);
                   modify (set_rt_clients (delete id)) ;; mret client);
  locked (drop_subscriptions id) ;;
  sync_host_graphics ;;
  match client with
  | Some client =>
      if bool_decide (watched_buffers client = ∅) then mret ()
      else
        events ← sync_watched_buffers (set_to_sorted (watched_buffers client)) [];
        locked (broadcast events (closed_session_ids events))
  | None => mret ()
  end.

(** ** Replies *)

Definition error_code (e : MuxError) : ErrorCode :=
  match e with
  | Wire code => code
  | Io | Transport | Pty => EcTransport
  | Protocol => EcProtocolViolation
  | InvalidInput => EcInvalidRequest
  | NotFound => EcNotFound
  | Conflict => EcConflict
  | Unsupported => EcUnsupported
  | Timeout => EcTimeout
  | Internal => EcInternal
  end.
Definition mux_error_response (request_id : option RequestId) (e : MuxError) : ServerResponse :=
  RError request_id (error_code e).

End server.
Arguments Runtime : clear implicits.
Abbreviation RT C := (ST (Runtime C)).
Abbreviation PT C := (proc HostCall (Runtime C)).
