(* ===== verification/RuntimeEvents.v ===== *)
(** What the server records when a runtime reports on its buffer,
    [crates/embers-server/src/server.rs]: output and metadata, the end of the
    program, runtimes taken up again, and the restore of runtimes when the server
    starts. *)

From S2P Require Import Prelude Core Model Environment State Queries Buffers Focus.
From S2P Require Import Moves Protocol Snapshot Runtimes Server.

(** ** Buffer fields *)

Definition b_set_pipe (pipe : option BufferPipe) (b : Buffer) : Buffer :=
  mkBuffer (b_id b) (b_title b) (b_command b) (b_cwd b) (b_env b) (b_user_options b)
    (b_foreground_command b) (b_placement b) (b_state b) (b_attachment b) (b_pty_size b)
    (b_activity b) (b_last_snapshot_seq b) (b_kind b) pipe (b_created_at b)
    (b_ever_attached b) (b_runtime_bell_sequence b) (b_watched b).
Definition b_set_cwd (cwd : option rstring) (b : Buffer) : Buffer :=
  mkBuffer (b_id b) (b_title b) (b_command b) cwd (b_env b) (b_user_options b)
    (b_foreground_command b) (b_placement b) (b_state b) (b_attachment b) (b_pty_size b)
    (b_activity b) (b_last_snapshot_seq b) (b_kind b) (b_pipe b) (b_created_at b)
    (b_ever_attached b) (b_runtime_bell_sequence b) (b_watched b).
Definition b_set_command (command : list rstring) (b : Buffer) : Buffer :=
  mkBuffer (b_id b) (b_title b) command (b_cwd b) (b_env b) (b_user_options b)
    (b_foreground_command b) (b_placement b) (b_state b) (b_attachment b) (b_pty_size b)
    (b_activity b) (b_last_snapshot_seq b) (b_kind b) (b_pipe b) (b_created_at b)
    (b_ever_attached b) (b_runtime_bell_sequence b) (b_watched b).
Definition b_set_foreground (command : option (list rstring)) (b : Buffer) : Buffer :=
  mkBuffer (b_id b) (b_title b) (b_command b) (b_cwd b) (b_env b) (b_user_options b)
    command (b_placement b) (b_state b) (b_attachment b) (b_pty_size b)
    (b_activity b) (b_last_snapshot_seq b) (b_kind b) (b_pipe b) (b_created_at b)
    (b_ever_attached b) (b_runtime_bell_sequence b) (b_watched b).
Definition b_set_options (options : gmap rstring rstring) (b : Buffer) : Buffer :=
  mkBuffer (b_id b) (b_title b) (b_command b) (b_cwd b) (b_env b) options
    (b_foreground_command b) (b_placement b) (b_state b) (b_attachment b) (b_pty_size b)
    (b_activity b) (b_last_snapshot_seq b) (b_kind b) (b_pipe b) (b_created_at b)
    (b_ever_attached b) (b_runtime_bell_sequence b) (b_watched b).
Definition b_set_bell (sequence : N) (b : Buffer) : Buffer :=
  mkBuffer (b_id b) (b_title b) (b_command b) (b_cwd b) (b_env b) (b_user_options b)
    (b_foreground_command b) (b_placement b) (b_state b) (b_attachment b) (b_pty_size b)
    (b_activity b) (b_last_snapshot_seq b) (b_kind b) (b_pipe b) (b_created_at b)
    (b_ever_attached b) sequence (b_watched b).

(** ** Pipes *)

Definition model_stop_reason (r : BufferRuntimePipeStopReason) : BufferPipeStopReason :=
  match r with
  | RtRequested => Requested
  | RtPipeExited => PipeExited
  | RtWriteFailed => WriteFailed
  | RtBufferExited => BufferExited
  end.
Definition model_pipe_from_runtime (status : BufferRuntimePipeStatus) : BufferPipe :=
  mkBufferPipe (ps_command status)
    (if ps_running status then PipeRunning (ps_pid status)
     else PipeStopped (ps_exit_code status)
            (model_stop_reason (default RtPipeExited (ps_stop_reason status)))).

(** [stop_buffer_pipe] (the free function): the record, and whether it changed. *)
Definition stop_pipe_record (b : Buffer) (reason : BufferPipeStopReason)
    (exit_code : option Z) : Buffer * bool :=
  match b_pipe b with
  | Some pipe =>
      match pipe_state pipe with
      | PipeStopped _ _ => (b, false)
      | PipeRunning _ =>
          (b_set_pipe (Some (mkBufferPipe (pipe_command pipe) (PipeStopped exit_code reason))) b,
           true)
      end
  | None => (b, false)
  end.

Definition buffer_session (st : ServerState) (b : Buffer) : outcome (option SessionId) :=
  match b_attachment b with
  | Attached id => n ← node st id; Ok (Some (node_session n))
  | Detached => Ok None
  end.
Definition buffer_pipe_changed_event (st : ServerState) (bid : BufferId) : outcome ServerEvent :=
  b ← buffer st bid;
  sid ← buffer_session st b;
  Ok (EvBufferPipeChanged sid (buffer_record b)).

(** ** Status *)

Definition max_activity (left right : ActivityState) : ActivityState :=
  match left, right with
  | Bell, _ | _, Bell => Bell
  | Activity, _ | _, Activity => Activity
  | Idle, Idle => Idle
  end.

Definition buffer_pid_hint (s : BufferState) : option N :=
  match s with
  | Running pid => pid
  | Interrupted last_known_pid => last_known_pid
  | Created | Exited _ _ => None
  end.

Definition status_record (status : BufferRuntimeStatus) (b : Buffer) : Buffer :=
  b_set_foreground (st_foreground_command status)
    (b_set_pipe (model_pipe_from_runtime <$> st_pipe status)
      (b_set_bell (st_bell_sequence status)
        (b_set_activity (b_activity b) (st_sequence status) b))).

Definition apply_runtime_status (now : Timestamp) (bid : BufferId)
    (status : BufferRuntimeStatus) : SM unit :=
  modify (set_buffers (alter (status_record status) bid)) ;;
  match st_title status with
  | Some title => ignore (set_buffer_title bid title)
  | None => mret ()
  end ;;
  b ← gets (λ st, buffers st !! bid);
  match b with
  | Some b => ignore (set_buffer_activity bid (max_activity (b_activity b) (st_activity status)))
  | None => mret ()
  end ;;
  if st_running status then ignore (mark_buffer_running bid (st_pid status))
  else ignore (mark_buffer_exited now bid (st_exit_code status)).

(** ** Updates *)

Definition set_option (key : rstring) (value : option rstring)
    (acc : gmap rstring rstring * bool) : gmap rstring rstring * bool :=
  match value with
  | Some value => (<[key := value]> acc.1, acc.2 || negb (bool_decide (acc.1 !! key = Some value)))
  | None => (delete key acc.1, acc.2 || bool_decide (is_Some (acc.1 !! key)))
  end.

(** The record an update leaves, with what it calls for: clients to redraw, and the
    workspace to be saved. [shown]: a client shows the buffer's window. *)
Record recorded : Type := mkRecorded { rec_buffer : Buffer; rec_render : bool; rec_changed : bool }.

Definition record_bell (shown : bool) (u : BufferRuntimeUpdate) (r : recorded) : recorded :=
  let b := rec_buffer r in
  if (b_runtime_bell_sequence b <? up_bell_sequence u)%N then
    let b := b_set_bell (up_bell_sequence u) b in
    mkRecorded (if shown then b else b_set_activity Bell (b_last_snapshot_seq b) b) true
      (rec_changed r)
  else r.

Definition record_output (shown : bool) (u : BufferRuntimeUpdate) (r : recorded) : recorded :=
  let b := b_set_activity
             (if shown then b_activity (rec_buffer r)
              else max_activity (b_activity (rec_buffer r)) (up_activity u))
             (up_sequence u) (rec_buffer r) in
  match up_title u with
  | Some title =>
      let next_title := default [] title in
      if bool_decide (next_title = b_title b) then mkRecorded b true (rec_changed r)
      else mkRecorded (b_set_title next_title b) true true
  | None => mkRecorded b true (rec_changed r)
  end.

Definition record_cwd (u : BufferRuntimeUpdate) (r : recorded) : recorded :=
  match up_cwd u with
  | Some (Some cwd) =>
      if bool_decide (Some cwd = b_cwd (rec_buffer r)) then r
      else mkRecorded (b_set_cwd (Some cwd) (rec_buffer r)) true true
  | _ => r
  end.

Definition record_foreground (u : BufferRuntimeUpdate) (r : recorded) : recorded :=
  match up_foreground_command u with
  | Some command =>
      if bool_decide (command = b_foreground_command (rec_buffer r)) then r
      else mkRecorded (b_set_foreground command (rec_buffer r)) true true
  | None => r
  end.

Definition record_pipe (u : BufferRuntimeUpdate) (r : recorded) : recorded :=
  match up_pipe u with
  | Some pipe =>
      let next_pipe := model_pipe_from_runtime <$> pipe in
      if bool_decide (next_pipe = b_pipe (rec_buffer r)) then r
      else mkRecorded (b_set_pipe next_pipe (rec_buffer r)) true (rec_changed r)
  | None => r
  end.

Definition record_options (u : BufferRuntimeUpdate) (r : recorded) : recorded :=
  match up_user_options u with
  | Some options =>
      let '(next, changed) := map_fold set_option (b_user_options (rec_buffer r), false) options in
      mkRecorded (b_set_options next (rec_buffer r)) (rec_render r || changed)
        (rec_changed r || changed)
  | None => r
  end.

Definition apply_update (shown : bool) (u : BufferRuntimeUpdate) (b : Buffer) : recorded :=
  let advanced := (b_last_snapshot_seq b <? up_sequence u)%N in
  let current := (b_last_snapshot_seq b <=? up_sequence u)%N in
  let r := record_bell shown u (mkRecorded b false false) in
  let r := if advanced then record_output shown u r else r in
  if current then record_options u (record_pipe u (record_foreground u (record_cwd u r))) else r.

Section events.
Context {C : Type} {channel : Channel C}.
Implicit Types (rt : Runtime C).

Definition shown_sessions (rt : Runtime C) : gset N :=
  list_to_set (omap current_session_id (values_of (rt_clients rt))).

Definition update_section (bid : BufferId) (u : BufferRuntimeUpdate) (shown_sessions : gset N)
    : RT C (option (bool * option ServerEvent * bool)) :=
  showing ← read_state (λ st, session_showing_buffer st bid);
  let shown := match showing with Some sid => bool_decide (sid ∈ shown_sessions) | None => false end in
  b ← gets (λ rt, buffers (rt_state rt) !! bid);
  match b with
  | None => mret None
  | Some b =>
      let r := apply_update shown u b in
      on_state (modify (set_buffers (alter (λ b, rec_buffer (apply_update shown u b)) bid))) ;;
      event ← if bool_decide (b_pipe (rec_buffer r) ≠ b_pipe b)
              then read_state (λ st, ok_option (buffer_pipe_changed_event st bid))
              else mret None;
      mret (Some (rec_render r, event, rec_changed r))
  end.

Definition record_buffer_update (bid : BufferId) (u : BufferRuntimeUpdate) : PT C unit :=
  shown ← locked (gets shown_sessions);
  r ← locked (update_section bid u shown);
  match r with
  | None => mret ()
  | Some (render_invalidated, pipe_event, workspace_changed) =>
      (if workspace_changed : bool then locked mark_workspace_metadata_dirty else mret ()) ;;
      let events := (if render_invalidated : bool then [EvRenderInvalidated bid] else [])
                    ++ option_list pipe_event in
      if bool_decide (events = []) then mret () else locked (broadcast events [])
  end.

(** ** The end of a program *)

Definition end_section (now : Timestamp) (bid : BufferId) (should_interrupt : bool)
    (exit_code : option Z) : SM (bool * bool) :=
  r ← attempt
    (if should_interrupt then
       pid ← gets (λ st, buffers st !! bid ≫= buffer_pid_hint ∘ b_state);
       mark_buffer_interrupted bid pid
     else mark_buffer_exited now bid exit_code);
  match r with
  | inr _ => mret (false, false)
  | inl _ =>
      let reason := if should_interrupt then RuntimeInterrupted else BufferExited in
      b ← gets (λ st, buffers st !! bid);
      match b with
      | Some b =>
          modify (set_buffers (alter (λ b, (stop_pipe_record b reason exit_code).1) bid)) ;;
          mret (true, (stop_pipe_record b reason exit_code).2)
      | None => mret (true, false)
      end
  end.

Definition record_buffer_end (bid : BufferId) (ending : RuntimeEnd) : PT C unit :=
  let '(should_interrupt, exit_code) :=
    match ending with EndExited exit_code => (false, exit_code) | EndInterrupted => (true, None) end in
  registered ← await (HcRegistered bid);
  if should_interrupt && registered then mret ()
  else
    now ← await HcNow;
    r ← locked (on_state (end_section now bid should_interrupt exit_code));
    let '(updated, pipe_changed) := r in
    (if should_interrupt then mret () else locked mark_workspace_dirty) ;;
    (if updated && pipe_changed && negb should_interrupt && registered then
       r ← await (HcStopPipeAfterExit bid);
       match r with
       | inl pipe =>
           locked (on_state (modify (set_buffers
             (alter (b_set_pipe (Some (model_pipe_from_runtime pipe))) bid))))
       | inr _ => mret ()
       end
     else mret ()) ;;
    pipe_event ← if updated && pipe_changed
                 then locked (read_state (λ st, ok_option (buffer_pipe_changed_event st bid)))
                 else mret None;
    if updated : bool then
      locked mark_workspace_dirty ;;
      let events := EvRenderInvalidated bid :: option_list pipe_event in
      events ← if should_interrupt then mret events else Runtime_dispose_exited_buffers events;
      locked (broadcast events (closed_session_ids events))
    else mret ().

(** [sync_buffer_runtime_status] *)
Definition update_of_status (status : BufferRuntimeStatus) : BufferRuntimeUpdate :=
  mkUpdate (st_sequence status) (st_activity status) (Some (st_title status))
    (Some (st_pipe status)) (Some (st_cwd status)) (Some (st_foreground_command status))
    (st_bell_sequence status) None.
Definition sync_buffer_runtime_status (bid : BufferId) : PT C (result unit) :=
  try (await (HcStatus bid)) (λ status,
  record_buffer_update bid (update_of_status status) ;;
  (if st_running status then mret () else record_buffer_end bid (EndExited (st_exit_code status))) ;;
  mret (inl ())).

(** ** Taking runtimes up again *)

Definition record_buffer_taken_up (bid : BufferId) (status : option BufferRuntimeStatus)
    : PT C unit :=
  now ← await HcNow;
  known ← locked (match status with
                  | Some status => on_state (apply_runtime_status now bid status)
                  | None => mret ()
                  end ;;
                  gets (λ rt, bool_decide (is_Some (buffers (rt_state rt) !! bid))));
  if known : bool then
    locked mark_workspace_dirty ;;
    locked (broadcast [EvRenderInvalidated bid] [])
  else await (HcRelease bid).

(** The placements to restore, and the records of what cannot be. *)
Definition restore_placement (placements : list (BufferId * Placement)) (b : Buffer)
    : PT C (list (BufferId * Placement)) :=
  match b_placement b with
  | Remote _ _ =>
      if is_exited (b_state b) then mret placements
      else
        locked (on_state (ignore (mark_buffer_interrupted (b_id b) None))) ;;
        mret (placements ++ [(b_id b, b_placement b)])
  | Local (Some _) => mret (placements ++ [(b_id b, b_placement b)])
  | Local None =>
      match b_state b with
      | Running _ | Created =>
          locked (on_state (ignore (mark_buffer_interrupted (b_id b)
                                      (buffer_pid_hint (b_state b))))) ;;
          mret placements
      | _ => mret placements
      end
  end.

Definition record_restored (hints : gmap N (option N)) (bid : BufferId) (restored : Restored)
    : PT C unit :=
  now ← await HcNow;
  locked (on_state
    match restored with
    | RestoredRunning status => apply_runtime_status now bid status
    | RestoredGone =>
        ignore (set_buffer_placement bid (Local None)) ;;
        ignore (mark_buffer_interrupted bid (default None (hints !! bid)))
    end).

Definition restore_runtimes : PT C unit :=
  bs ← locked (gets (λ rt, values_of (buffers (rt_state rt))));
  let hints := list_to_map ((λ b, (b_id b, buffer_pid_hint (b_state b))) <$> bs) in
  placements ← fold_proc restore_placement [] bs;
  restored ← await (HcRestore placements);
  fold_proc (λ _ r, record_restored hints r.1 r.2) () restored.
End events.
