(* ===== verification/Dispatch.v ===== *)
(** Answering requests, [crates/embers-server/src/server.rs]: [dispatch_session],
    [dispatch_node], [dispatch_floating], [dispatch_client] and the cleanup
    [dispatch_request] runs around them. A handler answers with a response and
    the events to broadcast. *)

From S2P Require Import Prelude Core Model Environment State Queries Buffers Focus.
From S2P Require Import Tree Layout Moves Protocol Snapshot Runtimes Server.

Definition reply : Type := ServerResponse * list ServerEvent.

Definition failed (rid : RequestId) (e : MuxError) : reply :=
  (mux_error_response (Some rid) e, []).

(** [match m { Ok(a) => k(a), Err(error) => return the error response }] *)
Definition answer {S A} (rid : RequestId) (m : ST S A) (k : A → ST S reply) : ST S reply :=
  r ← attempt m;
  match r with inl a => k a | inr e => mret (failed rid e) end.

(** [usize::try_from(index)], with a 64-bit [usize]. *)
Definition usize_max : N := 18446744073709551615.
Definition protocol_tab_index (index : N) : outcome nat :=
  if (index <=? usize_max)%N then Ok (N.to_nat index) else Err InvalidInput.

(** [state.node(id)?.session_id()] *)
Definition session_of (st : ServerState) (id : NodeId) : outcome SessionId :=
  n ← node st id; Ok (node_session n).

Definition layout_ok_response (rid : RequestId) (sid : SessionId) : SM reply :=
  answer rid (reads (λ st, layout_changed_events st sid)) (λ events, mret (ROk rid, events)).

Definition layout_snapshot_response (rid : RequestId) (sid : SessionId) : SM reply :=
  answer rid (reads (λ st, session_snapshot st sid)) (λ snapshot,
  answer rid (reads (λ st, layout_changed_events st sid)) (λ events,
  mret (RSessionSnapshot rid snapshot, events))).

(** The snapshot with the events of a change of focus. *)
Definition focus_snapshot_response (rid : RequestId) (sid : SessionId) : SM reply :=
  answer rid (reads (λ st, session_snapshot st sid)) (λ snapshot,
  st ← gets (λ st, st);
  mret (RSessionSnapshot rid snapshot,
        EvNodeChanged sid :: option_list (focus_changed_event st sid))).

Definition snapshot_response (rid : RequestId) (sid : SessionId) : SM reply :=
  answer rid (reads (λ st, session_snapshot st sid)) (λ snapshot,
  mret (RSessionSnapshot rid snapshot, [])).

(** ** Nodes *)

(** Layout events, and one for the popup [id] ended up in. *)
Definition layout_floating_response (rid : RequestId) (sid : SessionId) (id : NodeId)
    (moved : option FloatingId → bool) : SM reply :=
  answer rid (reads (λ st, floating_id_for_node st id)) (λ current_floating_id,
  r ← layout_ok_response rid sid;
  mret (r.1, r.2 ++ if moved current_floating_id
                    then [EvFloatingChanged sid current_floating_id] else [])).
Definition in_floating (o : option FloatingId) : bool := bool_decide (is_Some o).

(** The leaf [NodeRequest::Focus] lands on. *)
Definition focus_target (st : ServerState) (id : NodeId) : outcome (option NodeId) :=
  n ← node st id;
  match n with
  | BufferView _ => Ok (Some id)
  | _ =>
      match resolve_visible_leaf st id with
      | Ok leaf => Ok leaf
      | Err _ =>
          leaf ← ok_option (resolve_first_leaf st id);
          Ok match leaf with Some leaf => leaf | None => None end
      | Panic => Panic
      | OutOfFuel => OutOfFuel
      end
  end.

Definition dispatch_node (request : NodeRequest) : SM reply :=
  match request with
  | NrGetTree rid sid => snapshot_response rid sid
  | NrSplit rid leaf direction new_buffer_id =>
      answer rid (reads (λ st, session_of st leaf)) (λ sid,
      answer rid (split_leaf_with_new_buffer leaf direction new_buffer_id) (λ _,
      focus_snapshot_response rid sid))
  | NrCreateSplit rid sid direction child_node_ids sizes =>
      answer rid (create_split_node sid direction child_node_ids) (λ split_id,
      answer rid (when (negb (bool_decide (sizes = []))) (resize_split_children split_id sizes))
        (λ _, layout_snapshot_response rid sid))
  | NrCreateTabs rid sid child_node_ids titles active =>
      if negb (length child_node_ids =? length titles) then mret (failed rid InvalidInput)
      else
        answer rid (active ← lift (protocol_tab_index active);
                    create_tabs_node sid (zip_with TabEntry_new titles child_node_ids) active)
          (λ _, layout_snapshot_response rid sid)
  | NrReplaceNode rid id child =>
      answer rid (reads (λ st, session_of st id)) (λ sid,
      answer rid (replace_node id child) (λ _, layout_snapshot_response rid sid))
  | NrWrapInSplit rid id child direction insert_before =>
      answer rid (reads (λ st, session_of st id)) (λ sid,
      answer rid (wrap_node_in_split id direction child insert_before) (λ _,
      layout_snapshot_response rid sid))
  | NrWrapInTabs rid id title =>
      answer rid (reads (λ st, session_of st id)) (λ sid,
      answer rid (wrap_node_in_tabs id title) (λ _, layout_snapshot_response rid sid))
  | NrAddTab rid tabs_id title buffer_id child_node_id index =>
      answer rid (reads (λ st, session_of st tabs_id)) (λ sid,
      answer rid (index ← lift (protocol_tab_index index);
                  match buffer_id, child_node_id with
                  | Some bid, None => add_tab_from_buffer_at tabs_id index title bid
                  | None, Some child => add_tab_sibling_at tabs_id index title child
                  | Some _, Some _ | None, None => throw InvalidInput
                  end) (λ _, layout_snapshot_response rid sid))
  | NrSelectTab rid tabs_id index =>
      answer rid (reads (λ st, session_of st tabs_id)) (λ sid,
      answer rid (lift (protocol_tab_index index)) (λ index,
      answer rid (switch_tab tabs_id index) (λ _, focus_snapshot_response rid sid)))
  | NrFocus rid sid id =>
      answer rid (reads (λ st, focus_target st id)) (λ target_leaf,
      match target_leaf with
      | None => mret (RError (Some rid) EcInvalidRequest, [])
      | Some leaf =>
          answer rid (focus_leaf sid leaf) (λ _, focus_snapshot_response rid sid)
      end)
  | NrSelectPane rid sid id =>
      answer rid (select_pane sid id ;;
                  events ← reads (λ st, layout_changed_events st sid);
                  snapshot ← reads (λ st, session_snapshot st sid);
                  mret (snapshot, events))
        (λ r, mret (RSessionSnapshot rid r.1, r.2))
  | NrFocusLast rid sid =>
      answer rid (focus_last_pane sid) (λ _, focus_snapshot_response rid sid)
  | NrClose rid id =>
      answer rid (reads (λ st, session_of st id)) (λ sid,
      answer rid (close_node id) (λ _, focus_snapshot_response rid sid))
  | NrResize rid id sizes =>
      answer rid (reads (λ st, session_of st id)) (λ sid,
      answer rid (resize_split_children id sizes) (λ _, layout_snapshot_response rid sid))
  | NrMoveBufferToNode rid bid target =>
      answer rid (reads (λ st, session_of st target)) (λ sid,
      answer rid (move_buffer_to_leaf bid target) (λ _, layout_snapshot_response rid sid))
  | NrZoom rid id =>
      answer rid (reads (λ st, session_of st id)) (λ sid,
      answer rid (zoom_node id) (λ _, layout_ok_response rid sid))
  | NrUnzoom rid sid => answer rid (unzoom_session sid) (λ _, layout_ok_response rid sid)
  | NrToggleZoom rid id =>
      answer rid (reads (λ st, session_of st id)) (λ sid,
      answer rid (toggle_zoom_node id) (λ _, layout_ok_response rid sid))
  | NrSwapSiblings rid first second =>
      answer rid (reads (λ st, session_of st first)) (λ sid,
      answer rid (swap_sibling_nodes first second) (λ _,
      layout_floating_response rid sid first in_floating))
  | NrBreakNode rid id destination =>
      answer rid (reads (λ st, session_of st id)) (λ sid,
      answer rid (reads (λ st, floating_id_for_node st id)) (λ previous,
      answer rid (break_node id match destination with BreakFloating => true | _ => false end)
        (λ _, layout_floating_response rid sid id
                (λ current, bool_decide (previous ≠ current) || in_floating current))))
  | NrJoinBufferAtNode rid id bid placement =>
      answer rid (reads (λ st, session_of st id)) (λ sid,
      answer rid (join_buffer_at_node id bid placement) (λ _,
      layout_floating_response rid sid id in_floating))
  | NrMoveNodeBefore rid id sibling =>
      answer rid (reads (λ st, session_of st id)) (λ sid,
      answer rid (move_node_before id sibling) (λ _,
      layout_floating_response rid sid id in_floating))
  | NrMoveNodeAfter rid id sibling =>
      answer rid (reads (λ st, session_of st id)) (λ sid,
      answer rid (move_node_after id sibling) (λ _,
      layout_floating_response rid sid id in_floating))
  end.

(** ** Popups *)

Definition floating_session (st : ServerState) (fid : FloatingId) : outcome SessionId :=
  w ← floating_window st fid; Ok (f_session_id w).

Definition dispatch_floating (request : FloatingRequest) : SM reply :=
  match request with
  | FrCreate rid sid root_node_id buffer_id geometry title focus close_on_empty border =>
      answer rid
        (fid ← match root_node_id, buffer_id with
               | Some root, None =>
                   create_floating_window_with_options sid root geometry title focus
                     close_on_empty
               | None, Some bid =>
                   create_floating_from_buffer_with_options sid bid geometry title focus
                     close_on_empty
               | Some _, Some _ | None, None => throw InvalidInput
               end;
         set_floating_border fid border ;;
         mret fid) (λ fid,
      answer rid (reads (λ st, floating_window st fid)) (λ w,
      st ← gets (λ st, st);
      mret (RFloating rid (floating_record w),
            EvFloatingChanged sid (Some fid) :: option_list (focus_changed_event st sid))))
  | FrClose rid fid =>
      answer rid (reads (λ st, floating_session st fid)) (λ sid,
      answer rid (close_floating fid) (λ _,
      st ← gets (λ st, st);
      mret (ROk rid,
            EvFloatingChanged sid (Some fid) :: option_list (focus_changed_event st sid))))
  | FrMove rid fid geometry =>
      answer rid (move_floating fid geometry) (λ _,
      answer rid (reads (λ st, floating_window st fid)) (λ w,
      mret (RFloating rid (floating_record w), [EvFloatingChanged (f_session_id w) (Some fid)])))
  | FrFocus rid fid =>
      answer rid (reads (λ st, floating_session st fid)) (λ sid,
      answer rid (focus_floating fid) (λ _,
      answer rid (reads (λ st, floating_window st fid)) (λ w,
      st ← gets (λ st, st);
      mret (RFloating rid (floating_record w), option_list (focus_changed_event st sid)))))
  end.

(** ** Sessions *)

Section dispatch.
Context {C : Type} {channel : Channel C}.
Implicit Types (rt : Runtime C).

(** Run a handler of the state alone. *)
Definition sync_mode (mode : SynchronizePanesMode) : option bool :=
  match mode with SyncToggle => None | SyncOn => Some true | SyncOff => Some false end.

(** [state.environment.set] after [retain_sessions]. *)
Definition set_environment (env : EnvironmentStore) (st : ServerState) : ServerState :=
  mkServerState (sessions st) (buffers st) (nodes st) (floating st) env (last_viewport st)
    (last_pane_titles st) (last_base_index st) (remain_on_exit st) (session_ids st)
    (buffer_ids st) (node_ids st) (floating_ids st).
Definition set_session_environment (sid : option SessionId) (name : rstring)
    (value : option rstring) : SM unit :=
  modify (λ st, set_environment
    (retain_sessions (λ sid, bool_decide (is_Some (sessions st !! sid))) (environment st)) st) ;;
  env ← reads (λ st, env_set sid name value (environment st));
  modify (set_environment env).

Definition check_session (sid : option SessionId) : SM unit :=
  match sid with Some sid => reads (λ st, session st sid) ;; mret () | None => mret () end.

(** What holds the state, for the requests that need no more. *)
Definition alone (m : RT C reply) : RT C (reply * list (ClientId * option SessionId)) :=
  r ← m; mret (r, []).

(** The part of a session request that holds the state: the reply, and the clients
    whose session it closed. *)
Definition session_section (limits : ResourceLimits) (now : Timestamp)
    (request : SessionRequest) : RT C (reply * list (ClientId * option SessionId)) :=
  match request with
  | SrClose rid sid _ =>
      r ← attempt (on_state (close_session sid) ;; clear_client_session sid);
      mret match r with
           | inl changed_clients => ((ROk rid, [EvSessionClosed sid]), changed_clients)
           | inr e => (failed rid e, [])
           end
  | SrCreate rid name =>
      alone (
        full ← gets (λ rt, max_sessions limits <=? size (sessions (rt_state rt)));
        if full : bool then mret (RError (Some rid) EcConflict, [])
        else
          sid ← on_state (create_session now name);
          on_state (answer rid (reads (λ st, session_snapshot st sid)) (λ snapshot,
            mret (RSessionSnapshot rid snapshot, [EvSessionCreated (ss_session snapshot)]))))
  | SrList rid => alone (
        st ← gets rt_state;
        mret (RSessions rid (session_record <$> values_of (sessions st)), []))
  | SrGet rid sid => alone (on_state (snapshot_response rid sid))
  | SrRename rid sid name => alone (
        on_state (answer rid (rename_session sid name) (λ _,
          answer rid (reads (λ st, session_snapshot st sid)) (λ snapshot,
          mret (RSessionSnapshot rid snapshot,
                [EvSessionRenamed sid (sr_name (ss_session snapshot))])))))
  | SrAddRootTab rid sid title buffer_id child_node_id => alone (
        on_state (answer rid match buffer_id, child_node_id with
                             | Some bid, None => add_root_tab_from_buffer sid title bid
                             | None, Some child => add_root_tab_from_subtree sid title child
                             | Some _, Some _ | None, None => throw InvalidInput
                             end (λ _, layout_snapshot_response rid sid)))
  | SrSelectRootTab rid sid index => alone (
        on_state (answer rid (index ← lift (protocol_tab_index index); select_root_tab sid index)
          (λ _, layout_snapshot_response rid sid)))
  | SrRenameRootTab rid sid index title => alone (
        on_state (answer rid
          (index ← lift (protocol_tab_index index); rename_root_tab sid index title)
          (λ _, layout_snapshot_response rid sid)))
  | SrCloseRootTab rid sid index => alone (
        on_state (answer rid (index ← lift (protocol_tab_index index); close_root_tab sid index)
          (λ _, layout_snapshot_response rid sid)))
  | SrSetViewport rid sid viewport pane_titles => alone (
        answer rid (on_state (set_session_viewport sid viewport pane_titles)) (λ _,
        mark_workspace_dirty ;; mret (ROk rid, [])))
  | SrSetBaseIndex rid sid base_index => alone (
        answer rid (on_state (set_session_base_index sid base_index)) (λ _,
        mark_workspace_dirty ;; mret (ROk rid, [])))
  | SrSetRootTabSynchronizePanes rid sid index mode => alone (
        on_state (answer rid
          (index ← lift (protocol_tab_index index);
           set_root_tab_synchronize_panes sid index (sync_mode mode))
          (λ _, layout_snapshot_response rid sid)))
  | SrSetEnvironment rid sid name value => alone (
        on_state (answer rid (check_session sid) (λ _,
          answer rid (set_session_environment sid name value) (λ _, mret (ROk rid, [])))))
  | SrShowEnvironment rid sid => alone (
        on_state (answer rid (check_session sid) (λ _,
          st ← gets (λ st, st);
          mret (REnvironment rid (env_get (environment st) sid), []))))
  end.

(** The clock is read before the state is locked. *)
Definition dispatch_session (limits : ResourceLimits) (request : SessionRequest) : PT C reply :=
  now ← await HcNow;
  r ← locked (session_section limits now request);
  events ← client_changed_events r.2;
  mret (r.1.1, r.1.2 ++ events).

(** [match p.await { Ok(a) => k(a), Err(error) => return the error response }] *)
Definition respond {A} (rid : RequestId) (p : PT C (result A)) (k : A → PT C reply)
    : PT C reply :=
  r ← p; match r with inl a => k a | inr e => mret (failed rid e) end.

(** ** Clients *)

(** [CrSwitch] with a node: show it, and tell what changed. *)
Definition switch_node (target : ClientId) (sid : SessionId) (node_id : option NodeId)
    : PT C (result (list ServerEvent)) :=
  match node_id with
  | None => mret (inl [])
  | Some id =>
      record ← locked (gets (λ rt, client_record rt target));
      match record with
      | None => mret (inr NotFound)
      | Some _ =>
          section (on_state (show_node sid id ;; reads (λ st, layout_changed_events st sid)))
      end
  end.

(** The [bool]: the connection ends once the reply is sent. *)
Definition stays (p : PT C reply) : PT C (reply * bool) := r ← p; mret (r, false).

Definition dispatch_client (connection : ClientId) (request : ClientRequest)
    : PT C (reply * bool) :=
  match request with
  | CrList rid => stays (rt ← locked (gets (λ rt, rt)); mret (RClients rid (list_clients rt), []))
  | CrGet rid client_id => stays (
      record ← locked (gets (λ rt, client_record rt (default connection client_id)));
      mret match record with
           | Some client => (RClient rid client, [])
           | None => (RError (Some rid) EcNotFound, [])
           end)
  | CrDetach rid client_id =>
      let target := default connection client_id in
      detached ← detach_client target;
      match detached with
      | inl _ =>
          if (target =? connection)%N then mret ((ROk rid, []), true)
          else await (HcDisconnect target) ;; mret ((ROk rid, []), false)
      | inr e => mret (failed rid e, false)
      end
  | CrDisplayMessage rid client_id sid message duration_ms => stays (
      respond rid (display_message client_id sid (EvDisplayMessage message duration_ms)) (λ _,
      mret (ROk rid, [])))
  | CrSetHostGraphics rid enabled => stays (
      locked (modify (set_rt_clients (alter (c_set_graphics enabled) connection))) ;;
      sync_host_graphics ;;
      mret (ROk rid, []))
  | CrSwitch rid client_id sid node_id => stays (
      let target := default connection client_id in
      respond rid (switch_node target sid node_id) (λ events,
      respond rid (set_client_session target (Some sid)) (λ r,
      mret (RClient rid r.1, events ++ r.2))))
  end.

(** ** Requests *)

Definition subscribe (connection : ClientId) (rid : RequestId) (sid : option SessionId)
    : RT C reply :=
  rt ← gets (λ rt, rt);
  let id := next_subscription_id rt in
  modify (set_rt_subscriptions (<[id := mkSubscription connection sid]> (rt_subscriptions rt))
            (rt_channels rt) (wrap_succ64 id)) ;;
  mret (RSubscriptionAck rid id, []).

Definition unsubscribe (connection : ClientId) (rid : RequestId) (id : N) : RT C reply :=
  rt ← gets (λ rt, rt);
  match rt_subscriptions rt !! id with
  | Some sub =>
      if (connection_id sub =? connection)%N then
        modify (set_rt_subscriptions (delete id (rt_subscriptions rt)) (rt_channels rt)
                  (next_subscription_id rt)) ;;
        mret (ROk rid, [])
      else mret (RError (Some rid) EcConflict, [])
  | None => mret (RError (Some rid) EcNotFound, [])
  end.

(** A request that closes a view destroys the sessions it leaves without one. *)
Definition with_cleanup (closes : bool) (m : PT C reply) : PT C reply :=
  had_panes ← locked (sessions_with_panes_if closes);
  r ← m;
  events ← Runtime_dispose_exited_buffers r.2;
  events ← destroy_emptied_sessions had_panes events;
  mret (r.1, events).

Definition closes_root_tab (r : SessionRequest) : bool :=
  match r with SrCloseRootTab _ _ _ => true | _ => false end.
Definition closes_node (r : NodeRequest) : bool :=
  match r with NrClose _ _ => true | _ => false end.
Definition closes_floating (r : FloatingRequest) : bool :=
  match r with FrClose _ _ => true | _ => false end.

End dispatch.
