(* ===== verification/BufferRequests.v ===== *)
(** Requests about buffers, [crates/embers-server/src/server.rs]: [dispatch_buffer]
    and [dispatch_input] with the methods they call. A path is its text. *)

From S2P Require Import Prelude Core Model Environment State Queries Buffers Focus.
From S2P Require Import Tree Layout Moves Protocol Snapshot Runtimes Server.
From S2P Require Import RuntimeEvents Dispatch.

(** ** Checks *)

(** [validate_host] (remote.rs); ['-'] is 45. *)
Definition validate_host (host : rstring) : outcome unit :=
  match host with
  | [] => Err InvalidInput
  | c :: _ =>
      if (c =? 45)%N || existsb (λ c, is_whitespace c || is_control c) host
      then Err InvalidInput else Ok ()
  end.

Definition is_helper (b : Buffer) : bool :=
  match b_kind b with KHelper _ => true | KPty => false end.
Definition ensure_buffer_accepts_input (st : ServerState) (bid : BufferId) : outcome unit :=
  b ← buffer st bid; ensure (negb (is_helper b)) Conflict.
Definition ensure_buffer_accepts_pipe (st : ServerState) (bid : BufferId) : outcome unit :=
  b ← buffer st bid;
  ensure (negb (is_helper b)) Conflict ;;
  ensure (negb (is_exited (b_state b))) Conflict.

(** ** Listing *)

Definition RECORD_OVERHEAD : N := 256.
Definition FIELD_OVERHEAD : N := 16.
Definition BUFFERS_RESPONSE_BUDGET : N := 7340032.

Definition args_size (args : list rstring) : N :=
  sum_N ((λ arg, (byte_len arg + FIELD_OVERHEAD)%N) <$> args).
Definition options_size (m : gmap rstring rstring) : N :=
  sum_N ((λ kv, (byte_len kv.1 + byte_len kv.2 + 2 * FIELD_OVERHEAD)%N) <$> map_to_list m).
Definition estimated_buffer_record_size (r : BufferRecord) : N :=
  (RECORD_OVERHEAD
   + (byte_len (br_title r) + FIELD_OVERHEAD)
   + (match br_cwd r with Some cwd => byte_len cwd | None => 0 end + FIELD_OVERHEAD)
   + args_size (br_command r)
   + match br_pipe r with Some pipe => args_size (pr_command pipe) | None => 0 end
   + options_size (br_env r)
   + options_size (br_user_options r))%N.

(** At least one record, then as many as the response's budget takes. *)
Fixpoint fit_records (first : bool) (budget : N) (records : list BufferRecord)
    : list BufferRecord :=
  match records with
  | [] => []
  | r :: records =>
      let size := estimated_buffer_record_size r in
      if negb first && (BUFFERS_RESPONSE_BUDGET <? sat_add64 budget size)%N then []
      else r :: fit_records false (budget + size)%N records
  end.

Definition listed (st : ServerState) (sid : option SessionId)
    (attached_only detached_only : bool) (b : Buffer) : bool :=
  let detached := bool_decide (b_attachment b = Detached) in
  if attached_only && detached then false
  else if detached_only && negb detached then false
  else
    match sid with
    | Some sid =>
        match b_attachment b with
        | Attached id =>
            match nodes st !! id with Some n => (node_session n =? sid)%N | None => false end
        | Detached => false
        end
    | None => true
    end.
Definition list_buffers (st : ServerState) (sid : option SessionId)
    (attached_only detached_only : bool) : list BufferRecord :=
  fit_records true 0
    (buffer_record <$> base.filter (λ b, listed st sid attached_only detached_only b = true)
                         (values_of (buffers st))).

(** ** Options *)

Definition MAX_USER_OPTIONS_PER_BUFFER : nat := 256.
Definition MAX_USER_OPTION_KEY_LEN : N := 256.
Definition MAX_USER_OPTION_VALUE_LEN : N := 4096.

(** The options after the request, and whether they changed. *)
Definition set_user_option (key : rstring) (value : option rstring)
    (options : gmap rstring rstring) : outcome (gmap rstring rstring * bool) :=
  match value with
  | Some value =>
      ensure (byte_len key <=? MAX_USER_OPTION_KEY_LEN)%N InvalidInput ;;
      ensure (byte_len value <=? MAX_USER_OPTION_VALUE_LEN)%N InvalidInput ;;
      ensure (negb (bool_decide (options !! key = None)
                    && (MAX_USER_OPTIONS_PER_BUFFER <=? size options))) InvalidInput ;;
      if bool_decide (options !! key = Some value) then Ok (options, false)
      else Ok (<[key := value]> options, true)
  | None => Ok (delete key options, bool_decide (is_Some (options !! key)))
  end.

(** ** Helper buffers *)

(** The last [rows] lines, at least one. *)
Definition visible_start (rows : N) (ls : list rstring) : nat :=
  length ls - N.to_nat (N.max rows 1).

Definition no_modes : TerminalModes := mkTerminalModes false false false false 0.

Definition helper_snapshot (rid : RequestId) (b : Buffer) (h : HelperBuffer) : SnapshotResponse :=
  mkSnapshotResponse rid (b_id b) (b_last_snapshot_seq b) (b_pty_size b) (lines h)
    (Some (b_title b)) (b_cwd b).
Definition helper_visible (rid : RequestId) (b : Buffer) (h : HelperBuffer)
    : VisibleSnapshotResponse :=
  let start := visible_start (rows (b_pty_size b)) (lines h) in
  mkVisibleSnapshotResponse rid (b_id b) (b_last_snapshot_seq b) (b_pty_size b)
    (SnapshotLine_plain <$> drop start (lines h)) (Some (b_title b)) (b_cwd b)
    (N.of_nat start) (N.of_nat (length (lines h))) no_modes None.
Definition helper_slice (rid : RequestId) (bid : BufferId) (start_line line_count : N)
    (h : HelperBuffer) : ScrollbackSliceResponse :=
  let total := N.of_nat (length (lines h)) in
  let start := N.min start_line total in
  let stop := N.min (sat_add64 start line_count) total in
  mkScrollbackSliceResponse rid bid start total
    (SnapshotLine_plain <$>
       take (N.to_nat (stop - start)) (drop (N.to_nat start) (lines h))).

Section buffer_requests.
Context {C : Type} {channel : Channel C}.
Implicit Types (rt : Runtime C).

(** ** Runtimes of buffers *)

(** Why a buffer has no runtime. *)
Definition no_runtime (s : BufferState) : MuxError :=
  match s with Running _ => Internal | Created | Interrupted _ | Exited _ _ => Conflict end.
Definition buffer_runtime (bid : BufferId) : PT C (result unit) :=
  registered ← await (HcRegistered bid);
  if registered : bool then mret (inl ())
  else section (b ← read_state (λ st, buffer st bid); throw (no_runtime (b_state b))).

(** What a started runtime leaves in the record; the error that makes the caller
    give up on it. *)
Definition started_section (now : Timestamp) (bid : BufferId) (command : list rstring)
    (cwd : option rstring) (started : Started) : RT C (option MuxError) :=
  on_state (
    b ← gets (λ st, buffers st !! bid);
    let already_exited := match b with Some b => is_exited (b_state b) | None => false end in
    running ← (if already_exited then mret (inl ())
               else attempt (mark_buffer_running bid (st_pid (started_status started))));
    match running with
    | inr e => mret (Some e)
    | inl _ =>
        set_buffer_placement bid (started_placement started) ;;
        modify (set_buffers (alter (b_set_cwd cwd ∘ b_set_command command) bid)) ;;
        apply_runtime_status now bid (started_status started) ;;
        mret None
    end).

Definition start_request (bid : BufferId) (command : list rstring) (cwd : option rstring)
    (b : Buffer) : StartRequest :=
  mkStartRequest command cwd (b_env b) (b_pty_size b) (b_title b) (Placement_host (b_placement b)).

Definition spawn_buffer_runtime_with (bid : BufferId) (command : list rstring)
    (cwd : option rstring) : PT C (result unit) :=
  try (section (read_state (λ st, buffer st bid))) (λ b,
  started ← await (HcStart bid (start_request bid command cwd b));
  match started with
  | inr e => locked mark_workspace_dirty ;; mret (inr e)
  | inl started =>
      now ← await HcNow;
      try (section (started_section now bid command cwd started)) (λ failure,
      match failure with
      | Some e => await (HcDiscard bid) ;; locked mark_workspace_dirty ;; mret (inr e)
      | None => mret (inl ())
      end)
  end).

Definition spawn_buffer_runtime (bid : BufferId) : PT C (result unit) :=
  try (section (read_state (λ st, buffer st bid))) (λ b,
  spawn_buffer_runtime_with bid (b_command b) (b_cwd b)).

(** [kill_buffer]: whether a buffer without a runtime was ended here. *)
Definition kill_section (now : Timestamp) (bid : BufferId) : SM bool :=
  b ← reads (λ st, buffer st bid);
  match b_state b with
  | Interrupted _ =>
      match b_attachment b with
      | Detached => remove_buffer bid ;; mret true
      | Attached _ => mark_buffer_exited now bid None ;; mret true
      end
  | _ => mret false
  end.
Definition kill_buffer (bid : BufferId) : PT C (result unit) :=
  registered ← await (HcRegistered bid);
  if registered : bool then await (HcKill bid)
  else
    now ← await HcNow;
    try (section (on_state (kill_section now bid))) (λ ended,
    if ended : bool then locked mark_workspace_dirty ;; mret (inl ())
    else try (buffer_runtime bid) (λ _, await (HcKill bid))).

(** ** Pipes *)

Definition pipe_section (bid : BufferId) (pipe : BufferRuntimePipeStatus)
    : SM (BufferRecord * list ServerEvent) :=
  b ← reads (λ st, buffer st bid);
  buffer_mut bid (b_set_pipe (Some (model_pipe_from_runtime pipe))) ;;
  sid ← reads (λ st, buffer_session st b);
  b ← reads (λ st, buffer st bid);
  mret (buffer_record b, [EvBufferPipeChanged sid (buffer_record b)]).

Definition start_buffer_pipe (bid : BufferId) (command : list rstring) (cwd : option rstring)
    (env : gmap rstring rstring) : PT C (result (BufferRecord * list ServerEvent)) :=
  if bool_decide (command = []) then mret (inr InvalidInput)
  else
    try (section (read_state (λ st, ensure_buffer_accepts_pipe st bid))) (λ _,
    try (buffer_runtime bid) (λ _,
    try (await (HcStartPipe bid command cwd env)) (λ pipe,
    section (on_state (pipe_section bid pipe))))).

Definition stop_buffer_pipe (bid : BufferId)
    : PT C (result (BufferRecord * list ServerEvent)) :=
  try (section (read_state (λ st, ensure_buffer_accepts_pipe st bid))) (λ _,
  try (buffer_runtime bid) (λ _,
  try (await (HcStopPipe bid)) (λ pipe,
  section (on_state (pipe_section bid pipe))))).

Definition user_option_section (bid : BufferId) (key : rstring) (value : option rstring)
    : SM (BufferRecord * bool) :=
  b ← reads (λ st, buffer st bid);
  r ← lift (set_user_option key value (b_user_options b));
  buffer_mut bid (b_set_options r.1) ;;
  b ← reads (λ st, buffer st bid);
  mret (buffer_record b, r.2).
Definition set_buffer_user_option (bid : BufferId) (key : rstring) (value : option rstring)
    : PT C (result (BufferRecord * list ServerEvent)) :=
  try (section (on_state (user_option_section bid key value))) (λ r,
  if r.2 : bool then
    locked mark_workspace_dirty ;; mret (inl (r.1, [EvRenderInvalidated bid]))
  else mret (inl (r.1, []))).

(** ** Captures *)

(** The directory after the status was recorded; the one read before if the buffer
    is gone. *)
Definition cwd_after (bid : BufferId) (before : option rstring) : PT C (option rstring) :=
  locked (gets (λ rt, match buffers (rt_state rt) !! bid with
                      | Some b => b_cwd b
                      | None => before
                      end)).

Definition capture_snapshot (rid : RequestId) (bid : BufferId) : PT C (result SnapshotResponse) :=
  try (section (read_state (λ st, buffer st bid))) (λ b,
  match b_kind b with
  | KHelper h => mret (inl (helper_snapshot rid b h))
  | KPty =>
      try (buffer_runtime bid) (λ _,
      try (await (HcCapture bid (b_cwd b))) (λ snapshot,
      try (sync_buffer_runtime_status bid) (λ _,
      cwd ← cwd_after bid (b_cwd b);
      mret (inl (mkSnapshotResponse rid bid (rs_sequence snapshot) (rs_size snapshot)
                   (rs_lines snapshot)
                   match rs_title snapshot with Some title => Some title | None => Some (b_title b) end
                   cwd)))))
  end).

Definition capture_visible_snapshot (rid : RequestId) (bid : BufferId)
    : PT C (result VisibleSnapshotResponse) :=
  try (section (read_state (λ st, buffer st bid))) (λ b,
  match b_kind b with
  | KHelper h => mret (inl (helper_visible rid b h))
  | KPty =>
      try (buffer_runtime bid) (λ _,
      try (await (HcCaptureVisible bid (b_cwd b))) (λ snapshot,
      try (sync_buffer_runtime_status bid) (λ _,
      cwd ← cwd_after bid (b_cwd b);
      mret (inl (mkVisibleSnapshotResponse rid bid (ts_sequence snapshot) (ts_size snapshot)
                   (ts_lines snapshot) (ts_title snapshot) cwd (ts_viewport_top_line snapshot)
                   (ts_total_lines snapshot) (ts_modes snapshot) (ts_cursor snapshot))))))
  end).

Definition capture_scrollback_slice (rid : RequestId) (bid : BufferId)
    (start_line line_count : N) : PT C (result ScrollbackSliceResponse) :=
  try (section (read_state (λ st, buffer st bid))) (λ b,
  match b_kind b with
  | KHelper h => mret (inl (helper_slice rid bid start_line line_count h))
  | KPty =>
      try (buffer_runtime bid) (λ _,
      try (await (HcScrollbackSlice bid start_line line_count)) (λ slice,
      try (sync_buffer_runtime_status bid) (λ _,
      mret (inl (mkScrollbackSliceResponse rid bid (slice_start_line slice)
                   (slice_total_lines slice) (into_snapshot_lines slice))))))
  end).

(** ** Revealing *)

Definition attached_clients (rt : Runtime C) : list ClientId :=
  fst <$> base.filter (λ entry, is_Some (current_session_id entry.2)) (entries (rt_clients rt)).

Definition resolve_reveal_client_id (rt : Runtime C) (connection : ClientId)
    (requested : option ClientId) : outcome ClientId :=
  match requested with
  | Some id => if bool_decide (is_Some (rt_clients rt !! id)) then Ok id else Err NotFound
  | None =>
      if bool_decide (is_Some (rt_clients rt !! connection ≫= current_session_id))
      then Ok connection
      else match attached_clients rt with [id] => Ok id | _ => Err Conflict end
  end.

Definition resolve_optional_reveal_client_id (connection : ClientId)
    (requested : option ClientId) : PT C (result (option ClientId)) :=
  attached ← match requested with
             | Some _ => mret true
             | None => locked (gets (λ rt, existsb (λ c, bool_decide (is_Some (current_session_id c)))
                                             (values_of (rt_clients rt))))
             end;
  if attached : bool then
    try (section (reads (λ rt, resolve_reveal_client_id rt connection requested))) (λ id,
    mret (inl (Some id)))
  else mret (inl None).

Definition place_of (a : BufferLocationAttachment) : option (SessionId * NodeId) :=
  match a with
  | LocDetached => None
  | LocSession sid id | LocFloating sid id _ => Some (sid, id)
  end.

(** [focus_revealed_buffer] holds the state, the clients and the subscriptions
    together. *)
Definition focus_events (st : ServerState) (sid : SessionId) : list ServerEvent :=
  EvNodeChanged sid :: option_list (focus_changed_event st sid).
Definition focus_revealed_section (bid : BufferId) (client_id : option ClientId)
    : RT C (BufferLocation * list ServerEvent) :=
  location ← read_state (λ st, buffer_location st bid);
  match place_of (loc_attachment location), client_id with
  | None, _ => mret (location, [])
  | Some (sid, id), Some client_id =>
      client ← gets (λ rt, rt_clients rt !! client_id);
      match client with
      | None => throw NotFound
      | Some client =>
          on_state (focus_leaf sid id) ;;
          events ← gets (λ rt, focus_events (rt_state rt) sid);
          let client' := c_set_session (Some sid) client in
          modify (set_rt_clients (insert client_id client')) ;;
          record ← gets (λ rt, record_of_client rt client_id client');
          location ← read_state (λ st, buffer_location st bid);
          mret (location, events ++ [EvClientChanged record (current_session_id client)])
      end
  | Some (sid, id), None =>
      on_state (focus_leaf sid id) ;;
      events ← gets (λ rt, focus_events (rt_state rt) sid);
      location ← read_state (λ st, buffer_location st bid);
      mret (location, events)
  end.
Definition focus_revealed_buffer (bid : BufferId) (client_id : option ClientId)
    : PT C (result (BufferLocation * list ServerEvent)) :=
  section (focus_revealed_section bid client_id).

Definition reveal_buffer (connection : ClientId) (requested : option ClientId) (bid : BufferId)
    : PT C (result (BufferLocation * list ServerEvent)) :=
  try (resolve_optional_reveal_client_id connection requested) (λ target,
  try (section (read_state (λ st, buffer_location st bid))) (λ location,
  match loc_attachment location with
  | LocDetached => mret (inl (location, []))
  | _ => focus_revealed_buffer bid target
  end)).

(** ** History *)

Record HistorySource : Type := mkHistorySource {
  source_title : rstring;
  source_cwd : option rstring;
  source_location : BufferLocation;
  helper_lines : option (list rstring)
}.
Definition history_source (st : ServerState) (bid : BufferId) (scope : BufferHistoryScope)
    : outcome HistorySource :=
  b ← buffer st bid;
  location ← buffer_location st bid;
  Ok (mkHistorySource (b_title b) (b_cwd b) location
    match b_kind b with
    | KHelper h =>
        Some match scope with
             | HsFull => lines h
             | HsVisible => drop (visible_start (rows (b_pty_size b)) (lines h)) (lines h)
             end
    | KPty => None
    end).

Definition history_session (location : BufferLocation) (target : option ClientId)
    : PT C (result SessionId) :=
  match place_of (loc_attachment location) with
  | Some (sid, _) => mret (inl sid)
  | None =>
      match target with
      | None => mret (inr Conflict)
      | Some id =>
          section (reads (λ rt, ok_or (rt_clients rt !! id ≫= current_session_id) Conflict))
      end
  end.

Definition history_lines (bid : BufferId) (scope : BufferHistoryScope)
    (helper_lines : option (list rstring)) : PT C (result (list rstring)) :=
  match helper_lines with
  | Some ls => mret (inl ls)
  | None =>
      match scope with
      | HsFull => try (capture_snapshot 0%N bid) (λ snapshot, mret (inl (sn_lines snapshot)))
      | HsVisible =>
          try (capture_visible_snapshot 0%N bid) (λ snapshot,
          mret (inl (line_text <$> vs_lines snapshot)))
      end
  end.

Definition helper_scope (scope : BufferHistoryScope) : HelperBufferScope :=
  match scope with HsFull => Full | HsVisible => Visible end.

(** An error of the placement returns at once: the removal of the helper that
    follows it in the code is never reached. *)
Definition open_helper (limits : ResourceLimits) (now : Timestamp) (title : rstring)
    (source : BufferId) (scope : BufferHistoryScope) (cwd : option rstring)
    (lines : list rstring) (sid : SessionId) (placement : BufferHistoryPlacement)
    : SM BufferId :=
  full ← gets (λ st, max_buffers limits <=? size (buffers st));
  if full : bool then throw Conflict
  else
    helper ← create_helper_buffer now title source (helper_scope scope) cwd lines;
    match placement with
    | HpTab => add_root_tab_from_buffer sid title helper ;; mret helper
    | HpFloating =>
        geometry ← reads (λ st, default_floating_geometry st sid);
        create_floating_from_buffer sid helper geometry (Some title) ;; mret helper
    end.

Definition close_helper (helper : BufferId) : SM unit :=
  location ← reads (λ st, buffer_location st helper);
  match loc_attachment location with
  | LocDetached => mret ()
  | LocSession _ id => close_node id
  | LocFloating _ _ fid => close_floating fid
  end ;;
  remove_buffer helper ;;
  mret ().

Definition open_history_buffer (limits : ResourceLimits) (connection : ClientId)
    (requested : option ClientId) (bid : BufferId) (scope : BufferHistoryScope)
    (placement : BufferHistoryPlacement) : PT C (result (BufferLocation * list ServerEvent)) :=
  try (section (read_state (λ st, history_source st bid scope))) (λ source,
  try (resolve_optional_reveal_client_id connection requested) (λ target,
  try (history_session (source_location source) target) (λ sid,
  try (history_lines bid scope (helper_lines source)) (λ lines,
  now ← await HcNow;
  try (section (on_state (open_helper limits now (source_title source ++ lit " history") bid
                            scope (source_cwd source) lines sid placement))) (λ helper,
  r ← focus_revealed_buffer helper target;
  match r with
  | inl r => mret (inl r)
  | inr e =>
      closed ← section (on_state (close_helper helper));
      mret (inr match closed with inl _ => e | inr _ => Internal end)
  end))))).
End buffer_requests.

(** ** Handlers *)

Section dispatch_buffer.
Context {C : Type} {channel : Channel C}.

Definition create_section (limits : ResourceLimits) (now : Timestamp) (title : option rstring)
    (command : list rstring) (cwd : option rstring) (env : gmap rstring rstring)
    (sz : option PtySize) (sid : option SessionId) (host : option rstring) : SM BufferId :=
  full ← gets (λ st, max_buffers limits <=? size (buffers st));
  if full : bool then throw Conflict
  else
    check_session sid ;;
    base ← gets (λ st, match host with
                       | Some _ => ∅
                       | None => for_new_buffer (environment st) sid
                       end);
    bid ← create_buffer_with_env now (default (lit "buffer") title) command cwd (env ∪ base);
    match host with
    | Some host => ignore (set_buffer_placement bid (Remote host None))
    | None => mret ()
    end ;;
    match sz with
    | Some sz =>
        r ← attempt (set_buffer_size bid sz);
        match r with
        | inl _ => mret bid
        | inr e => ignore (remove_buffer bid) ;; throw e
        end
    | None => mret bid
    end.

Definition create_buffer_runtime (limits : ResourceLimits) (title : option rstring)
    (command : list rstring) (cwd : option rstring) (env : gmap rstring rstring)
    (sz : option PtySize) (sid : option SessionId) (host : option rstring)
    : PT C (result BufferRecord) :=
  now ← await HcNow;
  try (section (on_state (create_section limits now title command cwd env sz sid host))) (λ bid,
  r ← spawn_buffer_runtime bid;
  match r with
  | inl _ => section (read_state (λ st, b ← buffer st bid; Ok (buffer_record b)))
  | inr e => locked (on_state (ignore (remove_buffer bid))) ;; mret (inr e)
  end).

(** [BufferWithLocationResponse::new], an error of which is a protocol error. *)
Definition located (rid : RequestId) (r : BufferRecord) (location : BufferLocation)
    (at_root_tab : bool) (events : list ServerEvent) : reply :=
  match BufferWithLocationResponse_new rid r location at_root_tab with
  | Some response => (response, events)
  | None => failed rid Protocol
  end.

Definition inspect_section (rid : RequestId) (bid : BufferId) : SM reply :=
  answer rid (reads (λ st, b ← buffer st bid;
                           location ← buffer_location st bid;
                           at_root_tab ← location_is_root_tab st location;
                           Ok (buffer_record b, location, at_root_tab))) (λ r,
  let '(record, location, at_root_tab) := r in
  mret (located rid record location at_root_tab [])).

Definition detach_section (rid : RequestId) (bid : BufferId) : SM reply :=
  answer rid (reads (λ st, buffer st bid)) (λ b,
  match b_attachment b with
  | Detached => mret (ROk rid, [EvBufferDetached bid])
  | Attached view =>
      answer rid (reads (λ st, session_of st view)) (λ sid,
      answer rid (close_node view) (λ _,
      st ← gets (λ st, st);
      mret (ROk rid, EvBufferDetached bid
                     :: option_list (focus_changed_event st sid) ++ [EvNodeChanged sid])))
  end).

(** What an opened history is told besides what revealing it changed. *)
Definition history_events (record : BufferRecord) (location : BufferLocation)
    (reveal_events : list ServerEvent) : list ServerEvent :=
  EvBufferCreated record
  :: match loc_attachment location with
     | LocFloating sid _ fid => [EvFloatingChanged sid (Some fid)]
     | LocSession sid _ =>
         if existsb (λ e, match e with EvNodeChanged changed => (changed =? sid)%N | _ => false end)
              reveal_events
         then [] else [EvNodeChanged sid]
     | LocDetached => []
     end
  ++ reveal_events.

Definition history_section (location : BufferLocation) : RT C (BufferRecord * bool) :=
  read_state (λ st, b ← buffer st (loc_buffer_id location);
                    at_root_tab ← location_is_root_tab st location;
                    Ok (buffer_record b, at_root_tab)).

Definition watch_section (bid : BufferId) : SM unit :=
  buffer_mut bid (λ b, b_set_watched true (b_set_attachment (b_attachment b) true b)).

Definition dispatch_buffer (limits : ResourceLimits) (connection : ClientId)
    (request : BufferRequest) : PT C reply :=
  match request with
  | BrCreate rid title command cwd env sz sid host =>
      match match host with Some host => validate_host host | None => Ok () end with
      | Err e => mret (failed rid e)
      | _ =>
          if bool_decide (command = []) then mret (RError (Some rid) EcInvalidRequest, [])
          else
            respond rid (create_buffer_runtime limits title command cwd env sz sid host) (λ record,
            mret (RBuffer rid record, [EvBufferCreated record]))
      end
  | BrList rid sid attached_only detached_only =>
      if attached_only && detached_only then mret (RError (Some rid) EcInvalidRequest, [])
      else
        bs ← locked (gets (λ rt, list_buffers (rt_state rt) sid attached_only detached_only));
        mret (RBuffers rid bs, [])
  | BrGet rid bid =>
      respond rid (section (read_state (λ st, buffer st bid))) (λ b,
      mret (RBuffer rid (buffer_record b), []))
  | BrWatch rid bid =>
      respond rid (section (on_state (watch_section bid))) (λ _,
      locked (modify (set_rt_clients (alter (c_set_watched (union {[bid]})) connection))) ;;
      mret (ROk rid, []))
  | BrUnwatch rid bid =>
      locked (modify (set_rt_clients
        (alter (c_set_watched (λ watched, watched ∖ {[bid]})) connection))) ;;
      events ← sync_watched_buffers [bid] [];
      mret (ROk rid, events)
  | BrInspect rid bid => locked (on_state (inspect_section rid bid))
  | BrDetach rid bid => locked (on_state (detach_section rid bid))
  | BrKill rid bid _ => respond rid (kill_buffer bid) (λ _, mret (ROk rid, []))
  | BrCapture rid bid =>
      respond rid (capture_snapshot rid bid) (λ snapshot, mret (RSnapshot snapshot, []))
  | BrCaptureVisible rid bid =>
      respond rid (capture_visible_snapshot rid bid) (λ snapshot,
      mret (RVisibleSnapshot snapshot, []))
  | BrScrollbackSlice rid bid start_line line_count =>
      respond rid (capture_scrollback_slice rid bid start_line line_count) (λ slice,
      mret (RScrollbackSlice slice, []))
  | BrGetLocation rid bid =>
      respond rid (section (read_state (λ st, buffer_location st bid))) (λ location,
      mret (RBufferLocation rid location, []))
  | BrReveal rid bid client_id =>
      respond rid (reveal_buffer connection client_id bid) (λ r,
      mret (RBufferLocation rid r.1, r.2))
  | BrOpenHistory rid bid scope placement client_id =>
      respond rid (open_history_buffer limits connection client_id bid scope placement) (λ r,
      let '(location, reveal_events) := r in
      respond rid (section (history_section location)) (λ b,
      let '(record, at_root_tab) := b in
      mret (located rid record location at_root_tab
              (history_events record location reveal_events))))
  | BrStartPipe rid bid command cwd env =>
      respond rid (start_buffer_pipe bid command cwd env) (λ r, mret (RBuffer rid r.1, r.2))
  | BrStopPipe rid bid =>
      respond rid (stop_buffer_pipe bid) (λ r, mret (RBuffer rid r.1, r.2))
  | BrSetUserOption rid bid key value =>
      respond rid (set_buffer_user_option bid key value) (λ r, mret (RBuffer rid r.1, r.2))
  end.

(** ** Input *)

Definition resize_section (bid : BufferId) (sz : PtySize) : SM (option SessionId) :=
  set_buffer_size bid sz ;; sync_buffer_view_size bid.

Definition dispatch_input (request : InputRequest) : PT C reply :=
  match request with
  | IrSend rid bid data =>
      respond rid (section (read_state (λ st, ensure_buffer_accepts_input st bid))) (λ _,
      respond rid (buffer_runtime bid) (λ _,
      respond rid (await (HcWrite bid data)) (λ _, mret (ROk rid, []))))
  | IrResize rid bid sz =>
      respond rid (section (read_state (λ st, buffer st bid))) (λ b,
      respond rid (if is_helper b then mret (inl ())
                   else try (buffer_runtime bid) (λ _, await (HcResize bid sz))) (λ _,
      respond rid (section (on_state (resize_section bid sz))) (λ resized,
      match resized with
      | Some sid =>
          locked mark_workspace_metadata_dirty ;;
          mret (ROk rid, [EvRenderInvalidated bid; EvNodeChanged sid])
      | None => mret (ROk rid, [EvRenderInvalidated bid])
      end)))
  end.
End dispatch_buffer.
