(* ===== verification/Requests.v ===== *)
(** A request of a connection from its arrival to its reply and the events it
    causes, [dispatch_request] and [handle_connection] of
    [crates/embers-server/src/server.rs]. *)

From S2P Require Import Prelude Core Model Environment State Queries Protocol Snapshot.
From S2P Require Import Runtimes Server Dispatch BufferRequests.

Section requests.
Context {C : Type} {channel : Channel C}.

(** [SOFTWARE_VERSION], the release the server was built from. *)
Context (software_version : rstring).

(** Buffer requests can make an exited buffer due for cleanup. *)
Definition with_dispose (m : PT C reply) : PT C reply :=
  r ← m;
  events ← Runtime_dispose_exited_buffers r.2;
  mret (r.1, events).

Definition dispatch_request (limits : ResourceLimits) (connection : ClientId)
    (request : ClientMessage) : PT C (reply * bool) :=
  match request with
  | Hello rid _ _ => mret ((RHello rid PROTOCOL_VERSION software_version, []), false)
  | Ping rid payload => mret ((RPong rid payload, []), false)
  | CmKillServer rid =>
      locked (modify (λ rt, set_rt_flags true (stopping rt) (workspace_dirty rt)
                              (workspace_metadata_dirty rt) rt)) ;;
      mret ((ROk rid, []), false)
  | CmSession r => stays (with_cleanup (closes_root_tab r) (dispatch_session limits r))
  | CmBuffer r => stays (with_dispose (dispatch_buffer limits connection r))
  | CmNode r => stays (with_cleanup (closes_node r) (locked (on_state (dispatch_node r))))
  | CmFloating r =>
      stays (with_cleanup (closes_floating r) (locked (on_state (dispatch_floating r))))
  | CmInput r => stays (dispatch_input r)
  | CmSubscribe rid sid => stays (locked (subscribe connection rid sid))
  | CmUnsubscribe rid id => stays (locked (unsubscribe connection rid id))
  | CmClient r => dispatch_client connection r
  end.

(** How a connection ends; one whose turn fails ends as [Closed]. *)
Inductive ConnectionExit : Set := Closed | SelfDetached | ServerStopped.

Definition kills_server (request : ClientMessage) : bool :=
  match request with CmKillServer _ => true | _ => false end.
Definition only_renders (e : ServerEvent) : bool :=
  match e with EvRenderInvalidated _ => true | _ => false end.

(** One turn of [handle_connection]'s loop, on a decoded request; the connection goes
    on unless the turn gives an exit. *)
Definition handle_request (limits : ResourceLimits) (connection : ClientId)
    (request : ClientMessage) : PT C (option ConnectionExit) :=
  r ← dispatch_request limits connection request;
  let '((response, events), deferred_shutdown) := r in
  sent ← await (HcReply connection response);
  if negb sent then mret (Some Closed)
  else
    (if forallb only_renders events then mret () else locked mark_workspace_dirty) ;;
    locked (broadcast events (closed_session_ids events)) ;;
    if deferred_shutdown : bool then mret (Some SelfDetached)
    else if kills_server request then
      locked (modify (λ rt, set_rt_flags (kill_on_shutdown rt) true (workspace_dirty rt)
                              (workspace_metadata_dirty rt) rt)) ;;
      mret (Some SelfDetached)
    else mret None.
End requests.
