(* ===== verification/Startup.v ===== *)
(** The start of a server, [crates/embers-server/src/server.rs]: runtimes are taken
    up again, panes whose keepers are gone are restored, and buffers that are done
    are cleaned up. *)

From S2P Require Import Prelude Core Model State Queries Buffers Protocol Runtimes.
From S2P Require Import Restore Server RuntimeEvents BufferRequests.

Definition IS_VIM_OPTION : rstring := lit "is-vim".

(** A buffer of this server whose keeper is gone. *)
Definition is_restartable (b : Buffer) : bool :=
  match b_state b with Interrupted _ => true | _ => false end
  && match b_kind b with KPty => true | KHelper _ => false end
  && bool_decide (Placement_host (b_placement b) = None).
Definition is_attached (b : Buffer) : bool :=
  match b_attachment b with Attached _ => true | Detached => false end.

(** [String::into_bytes]: UTF-8. *)
Definition utf8_char (c : N) : list N :=
  if (c <? 128)%N then [c]
  else if (c <? 2048)%N then [192 + c / 64; 128 + c mod 64]%N
  else if (c <? 65536)%N then [224 + c / 4096; 128 + c / 64 mod 64; 128 + c mod 64]%N
  else [240 + c / 262144; 128 + c / 4096 mod 64; 128 + c / 64 mod 64; 128 + c mod 64]%N.
Definition utf8 (s : rstring) : list N := concat (utf8_char <$> s).

Section startup.
Context {C : Type} {channel : Channel C}.

(** Detached buffers are dropped; the rest are to be restarted. *)
Definition interrupted_section : RT C (list BufferId) :=
  bs ← gets (λ rt, base.filter (λ b, is_restartable b = true) (values_of (buffers (rt_state rt))));
  on_state (for_each (λ b, if is_attached b then mret () else ignore (remove_buffer (b_id b))) bs) ;;
  mret (b_id <$> base.filter (λ b, is_attached b = true) bs).

Definition restart_interrupted_buffers : PT C unit :=
  ids ← locked interrupted_section;
  fold_proc (λ _ id, await (HcRestart id)) () ids ;;
  await HcRestarted.

(** [restart_buffer]; the file system tells directories, and [shell] is the variable
    [SHELL]. *)
Definition forget_vim (b : Buffer) : Buffer :=
  b_set_options (delete IS_VIM_OPTION (b_user_options b)) b.
Definition restart_buffer (restore : RestoreConfig) (is_dir : rstring → bool)
    (shell : option rstring) (bid : BufferId) : PT C (result unit) :=
  try (section (b ← read_state (λ st, buffer st bid);
                mret (plan_restore is_dir b restore (default_shell shell)))) (λ plan,
  try (spawn_buffer_runtime_with bid (plan_command plan) (plan_cwd plan)) (λ _,
  locked (on_state (modify (set_buffers (alter forget_vim bid)))) ;;
  match plan_typed_command plan with
  | Some command_line =>
      try (buffer_runtime bid) (λ _, await (HcTypeCommand bid command_line) ;; mret (inl ()))
  | None => mret (inl ())
  end)).

(** The task that types the command once the shell has shown something. A look and
    the wait after it take 25 ms, so [RESTORED_SHELL_READY_TIMEOUT], two seconds, is
    over after 81 looks. *)
Definition SHELL_LOOKS : nat := 81.
Fixpoint type_when_ready (looks : nat) (bid : BufferId) (bytes : list N) : PT C unit :=
  let write := await (HcWrite bid bytes) ;; mret () in
  match looks with
  | 0 => write
  | S looks =>
      status ← await (HcStatus bid);
      match status with
      | inl status =>
          if (0 <? st_sequence status)%N || negb (st_running status) then write
          else await HcSleep ;; type_when_ready looks bid bytes
      | inr _ => mret ()
      end
  end.
Definition type_restored_command (bid : BufferId) (command_line : rstring) : PT C unit :=
  type_when_ready SHELL_LOOKS bid (utf8 command_line ++ [13%N]).

(** [Server::start], from the loaded state to the first connection. *)
Definition start_server (restore : RestoreConfig) : PT C unit :=
  restore_runtimes ;;
  (if rc_enabled restore then restart_interrupted_buffers else mret ()) ;;
  Runtime_dispose_exited_buffers [] ;;
  locked mark_workspace_dirty.
End startup.
