(* ===== verification/Concurrency.v ===== *)
(** The server as a whole, [crates/embers-server/src/server.rs]: connections and
    runtimes hand it work, each piece becomes a task, and the sections of running
    tasks interleave in any order. *)

From S2P Require Import Prelude Core Model State Protocol Runtimes Restore Server.
From S2P Require Import RuntimeEvents BufferRequests Requests Startup.

Section concurrency.
Context {C : Type} {channel : Channel C}.

(** [SOFTWARE_VERSION], the release the server was built from. *)
Context (software_version : rstring).

(** What arrives from outside: the start of the server with the restarts it calls for
    ([Server::start], [restart_interrupted_buffers]), a connection, a request on it, its
    end, and what the runtimes report ([buffer_runtime_callbacks], [runtimes]). *)
Inductive arrival : Type :=
  | ArStart (restore : RestoreConfig)
  | ArRestart (restore : RestoreConfig) (is_dir : rstring → bool) (shell : option rstring)
      (bid : BufferId)
  | ArTypeCommand (bid : BufferId) (command_line : rstring)
  | ArConnect (connection : ClientId) (outbound : C)
  | ArRequest (connection : ClientId) (request : ClientMessage)
  | ArHangUp (connection : ClientId)
  | ArOutput (bid : BufferId) (update : BufferRuntimeUpdate)
  | ArEnded (bid : BufferId) (ending : RuntimeEnd)
  | ArTakenUp (bid : BufferId) (status : option BufferRuntimeStatus)
  | ArClipboard (bid : BufferId) (selection : ClipboardSelection) (text : rstring)
  | ArPassthrough (bid : BufferId) (writes : list PassthroughWrite).

Definition connect (connection : ClientId) (outbound : C) : RT C unit :=
  register_client connection ;;
  modify (λ rt, set_rt_subscriptions (rt_subscriptions rt)
                  (<[connection := outbound]> (rt_channels rt)) (next_subscription_id rt) rt).

Definition start_task (limits : ResourceLimits) (a : arrival) : PT C unit :=
  match a with
  | ArStart restore => start_server restore
  | ArRestart restore is_dir shell bid => restart_buffer restore is_dir shell bid ;; mret ()
  | ArTypeCommand bid command_line => type_restored_command bid command_line
  | ArConnect connection outbound => locked (connect connection outbound)
  | ArRequest connection request => handle_request software_version limits connection request ;; mret ()
  | ArHangUp connection => cleanup_connection connection
  | ArOutput bid update => record_buffer_update bid update
  | ArEnded bid ending => record_buffer_end bid ending
  | ArTakenUp bid status => record_buffer_taken_up bid status
  | ArClipboard bid selection text => forward_clipboard bid selection text
  | ArPassthrough bid writes => forward_passthrough bid writes
  end.

(** The request an arrival makes: whom to answer, and under which id. *)
Definition request_of (a : arrival) : option (ClientId * RequestId) :=
  match a with
  | ArRequest connection request => Some (connection, ClientMessage_request_id request)
  | _ => None
  end.

(** A running task, with the request it has not answered yet. *)
Record task : Type := mkTask {
  tk_proc : PT C unit;
  tk_request : option (ClientId * RequestId)
}.

(** The server, its tasks, the requests received and the replies sent. *)
Record config : Type := mkConfig {
  cf_runtime : Runtime C;
  cf_tasks : list task;
  cf_requests : list (ClientId * RequestId);
  cf_replies : list (ClientId * ServerResponse)
}.

(** A task runs its next section, or a call of its is answered, in any way. *)
Inductive task_step : Runtime C → PT C unit → option (ClientId * ServerResponse) →
    Runtime C → PT C unit → Prop :=
  | ts_section rt rt' B (m : RT C B) next b :
      m rt = (Ok b, rt') → task_step rt (Locked m next) None rt' (next b)
  | ts_call rt B (call : HostCall B) next b :
      task_step rt (Await call next) (reply_of call) rt (next b).

Definition arrive (limits : ResourceLimits) (a : arrival) (c : config) : config :=
  mkConfig (cf_runtime c) (cf_tasks c ++ [mkTask (start_task limits a) (request_of a)])
    (cf_requests c ++ option_list (request_of a)) (cf_replies c).
Definition answered (t : task) (reply : option (ClientId * ServerResponse))
    : option (ClientId * RequestId) :=
  match reply with Some _ => None | None => tk_request t end.

(** [reaches admitted limits c0 n c]: from [c0], with [n] more admitted arrivals. *)
Inductive reaches (admitted : arrival → Prop) (limits : ResourceLimits) (c0 : config)
    : N → config → Prop :=
  | reach_start : reaches admitted limits c0 0 c0
  | reach_arrival n c a :
      reaches admitted limits c0 n c → admitted a →
      reaches admitted limits c0 (n + 1) (arrive limits a c)
  | reach_step n c l1 t l2 reply rt p :
      reaches admitted limits c0 n c → cf_tasks c = l1 ++ t :: l2 →
      task_step (cf_runtime c) (tk_proc t) reply rt p →
      reaches admitted limits c0 n
        (mkConfig rt (l1 ++ mkTask p (answered t reply) :: l2) (cf_requests c)
           (cf_replies c ++ option_list reply)).

(** [Runtime::new] on a loaded or empty state, and the server that starts with it. *)
Definition Runtime_new (st : ServerState) : Runtime C :=
  mkRuntime st ∅ ∅ ∅ 1 false false false false.
Definition started (st : ServerState) : config := mkConfig (Runtime_new st) [] [] [].
End concurrency.
Arguments arrival : clear implicits.
Arguments task : clear implicits.
Arguments config : clear implicits.
