(* ===== verification/ClientState.v ===== *)
(** The client's copy of the server's state, [crates/embers-client/src/state.rs]:
    snapshots of sessions and buffers are taken over, events applied, and each pane
    scrolled. *)

From S2P Require Import Prelude Core Protocol.

(** ** Views of panes *)

Record SearchMatch : Type := mkSearchMatch { sm_line : N; sm_start_column : N; sm_end_column : N }.
Record SearchState : Type := mkSearchState {
  sq_query : rstring;
  sq_matches : list SearchMatch;
  sq_active_match_index : option N
}.
Record HintMatch : Type := mkHintMatch {
  hm_label : rstring;
  hm_text : rstring;
  hm_line : N;
  hm_start_col : N;
  hm_end_col : N
}.
Record HintsState : Type := mkHintsState {
  hs_matches : list HintMatch;
  hs_typed : rstring;
  hs_on_select : option rstring
}.
Inductive SelectionKind : Set := SelectCharacter | SelectLine | SelectBlock.
Record SelectionPoint : Type := mkSelectionPoint { sp_line : N; sp_column : N }.
Record SelectionState : Type := mkSelectionState {
  sel_kind : SelectionKind;
  sel_anchor : SelectionPoint;
  sel_cursor : SelectionPoint
}.

(** [BufferViewState] of the client. *)
Record PaneView : Type := mkPaneView {
  pv_buffer_id : BufferId;
  pv_follow_output : bool;
  pv_scroll_top_line : N;
  pv_visible_line_count : N;
  pv_total_line_count : N;
  pv_alternate_screen : bool;
  pv_visible_lines : list SnapshotLine;
  pv_search_state : option SearchState;
  pv_selection_state : option SelectionState;
  pv_hints_state : option HintsState;
  pv_copy_cursor : option SelectionPoint
}.

Definition bottom_top_line (total_line_count visible_line_count : N) : N :=
  (total_line_count - visible_line_count)%N.
Definition clamp_top_line (scroll_top_line total_line_count visible_line_count : N) : N :=
  N.min scroll_top_line (bottom_top_line total_line_count visible_line_count).

(** Where a view is scrolled to, and how much it shows. *)
Definition pv_set_scroll (follow : bool) (top visible total : N) (v : PaneView) : PaneView :=
  mkPaneView (pv_buffer_id v) follow top visible total (pv_alternate_screen v) (pv_visible_lines v)
    (pv_search_state v) (pv_selection_state v) (pv_hints_state v) (pv_copy_cursor v).
Definition pv_set_lines (lines : list SnapshotLine) (v : PaneView) : PaneView :=
  mkPaneView (pv_buffer_id v) (pv_follow_output v) (pv_scroll_top_line v) (pv_visible_line_count v)
    (pv_total_line_count v) (pv_alternate_screen v) lines
    (pv_search_state v) (pv_selection_state v) (pv_hints_state v) (pv_copy_cursor v).
Definition pv_set_screen (alternate : bool) (hints : option HintsState) (v : PaneView) : PaneView :=
  mkPaneView (pv_buffer_id v) (pv_follow_output v) (pv_scroll_top_line v) (pv_visible_line_count v)
    (pv_total_line_count v) alternate (pv_visible_lines v)
    (pv_search_state v) (pv_selection_state v) hints (pv_copy_cursor v).

(** ** The state *)

Record ClientState : Type := mkClientState {
  cl_sessions : gmap N SessionRecord;
  cl_buffers : gmap N BufferRecord;
  cl_nodes : gmap N NodeRecord;
  cl_floating : gmap N FloatingRecord;
  cl_snapshots : gmap N VisibleSnapshotResponse;
  cl_view_state : gmap N PaneView;
  cl_dirty_sessions : gset N;
  cl_invalidated_buffers : gset N;
  cl_drawn_rows : gmap N N
}.
Definition ClientState_default : ClientState := mkClientState ∅ ∅ ∅ ∅ ∅ ∅ ∅ ∅ ∅.

Definition cl_set_sessions (f : gmap N SessionRecord → gmap N SessionRecord) (c : ClientState)
    : ClientState :=
  mkClientState (f (cl_sessions c)) (cl_buffers c) (cl_nodes c) (cl_floating c) (cl_snapshots c)
    (cl_view_state c) (cl_dirty_sessions c) (cl_invalidated_buffers c) (cl_drawn_rows c).
Definition cl_set_buffers (f : gmap N BufferRecord → gmap N BufferRecord) (c : ClientState)
    : ClientState :=
  mkClientState (cl_sessions c) (f (cl_buffers c)) (cl_nodes c) (cl_floating c) (cl_snapshots c)
    (cl_view_state c) (cl_dirty_sessions c) (cl_invalidated_buffers c) (cl_drawn_rows c).
Definition cl_set_nodes (f : gmap N NodeRecord → gmap N NodeRecord) (c : ClientState)
    : ClientState :=
  mkClientState (cl_sessions c) (cl_buffers c) (f (cl_nodes c)) (cl_floating c) (cl_snapshots c)
    (cl_view_state c) (cl_dirty_sessions c) (cl_invalidated_buffers c) (cl_drawn_rows c).
Definition cl_set_floating (f : gmap N FloatingRecord → gmap N FloatingRecord) (c : ClientState)
    : ClientState :=
  mkClientState (cl_sessions c) (cl_buffers c) (cl_nodes c) (f (cl_floating c)) (cl_snapshots c)
    (cl_view_state c) (cl_dirty_sessions c) (cl_invalidated_buffers c) (cl_drawn_rows c).
Definition cl_set_snapshots
    (f : gmap N VisibleSnapshotResponse → gmap N VisibleSnapshotResponse) (c : ClientState)
    : ClientState :=
  mkClientState (cl_sessions c) (cl_buffers c) (cl_nodes c) (cl_floating c) (f (cl_snapshots c))
    (cl_view_state c) (cl_dirty_sessions c) (cl_invalidated_buffers c) (cl_drawn_rows c).
Definition cl_set_views (f : gmap N PaneView → gmap N PaneView) (c : ClientState) : ClientState :=
  mkClientState (cl_sessions c) (cl_buffers c) (cl_nodes c) (cl_floating c) (cl_snapshots c)
    (f (cl_view_state c)) (cl_dirty_sessions c) (cl_invalidated_buffers c) (cl_drawn_rows c).
Definition cl_set_dirty (f : gset N → gset N) (c : ClientState) : ClientState :=
  mkClientState (cl_sessions c) (cl_buffers c) (cl_nodes c) (cl_floating c) (cl_snapshots c)
    (cl_view_state c) (f (cl_dirty_sessions c)) (cl_invalidated_buffers c) (cl_drawn_rows c).
Definition cl_set_invalidated (f : gset N → gset N) (c : ClientState) : ClientState :=
  mkClientState (cl_sessions c) (cl_buffers c) (cl_nodes c) (cl_floating c) (cl_snapshots c)
    (cl_view_state c) (cl_dirty_sessions c) (f (cl_invalidated_buffers c)) (cl_drawn_rows c).
Definition cl_set_drawn_rows (f : gmap N N → gmap N N) (c : ClientState) : ClientState :=
  mkClientState (cl_sessions c) (cl_buffers c) (cl_nodes c) (cl_floating c) (cl_snapshots c)
    (cl_view_state c) (cl_dirty_sessions c) (cl_invalidated_buffers c) (f (cl_drawn_rows c)).

(** ** Views follow their panes *)

Definition client_session_node_ids (c : ClientState) (sid : SessionId) : gset N :=
  list_to_set (nr_id <$> base.filter (λ n, nr_session_id n = sid) (values_of (cl_nodes c))).
Definition attached_to (ids : gset N) (b : BufferRecord) : bool :=
  match br_attachment_node_id b with Some id => bool_decide (id ∈ ids) | None => false end.
Definition attached_buffers_for_nodes (c : ClientState) (ids : gset N) : gset N :=
  list_to_set (br_id <$> base.filter (λ b, attached_to ids b = true) (values_of (cl_buffers c))).

Definition br_set_attachment (a : option NodeId) (b : BufferRecord) : BufferRecord :=
  mkBufferRecord (br_id b) (br_title b) (br_command b) (br_cwd b) (br_pipe b) (br_kind b) (br_state b)
    (br_pid b) a (br_read_only b) (br_helper_source_buffer_id b) (br_helper_scope b) (br_pty_size b)
    (br_activity b) (br_last_snapshot_seq b) (br_exit_code b) (br_env b) (br_user_options b)
    (br_foreground_command b) (br_bell_sequence b) (br_host b).
Definition detach_from (ids : gset N) (b : BufferRecord) : BufferRecord :=
  if attached_to ids b then br_set_attachment None b else b.
Definition detach_buffers_for_nodes (ids : gset N) : ClientState → ClientState :=
  cl_set_buffers (fmap (detach_from ids)).

(** A view made, or made anew, for a pane that shows another buffer. *)
Definition fresh_view (bv : BufferViewRecord) (snap : option VisibleSnapshotResponse)
    (visible total : N) : PaneView :=
  mkPaneView (bv_buffer_id bv) (bv_follow_output bv)
    match snap with Some s => vs_viewport_top_line s | None => bottom_top_line total visible end
    visible total
    match snap with Some s => alternate_screen (vs_modes s) | None => false end
    match snap with Some s => vs_lines s | None => [] end
    None None None None.
Definition resync_view (reset_hints : bool) (snap : option VisibleSnapshotResponse)
    (visible total : N) (v : PaneView) : PaneView :=
  let alternate := match snap with Some s => alternate_screen (vs_modes s) | None => false end in
  let lines := match snap with Some s => vs_lines s | None => [] end in
  let v := pv_set_screen alternate (if reset_hints then None else pv_hints_state v) v in
  if alternate then
    pv_set_lines lines (pv_set_scroll (pv_follow_output v) (pv_scroll_top_line v) visible total v)
  else
    let top := if pv_follow_output v then bottom_top_line total visible
               else clamp_top_line (pv_scroll_top_line v) total visible in
    let live := match snap with Some s => vs_viewport_top_line s | None => top end in
    pv_set_lines
      (if pv_follow_output v || (top =? live)%N || bool_decide (length (pv_visible_lines v) = 0)
       then lines else [])
      (pv_set_scroll (pv_follow_output v) top visible total v).

Definition sync_view (reset_hints : bool) (c : ClientState) (id : NodeId) : ClientState :=
  match cl_nodes c !! id with
  | Some n =>
      match nr_kind n, nr_buffer_view n with
      | NkBufferView, Some bv =>
          let snap := cl_snapshots c !! bv_buffer_id bv in
          let visible := default (rows (bv_last_render_size bv)) (cl_drawn_rows c !! id) in
          let total := match snap with
                       | Some s => N.max (vs_total_lines s) visible
                       | None => visible
                       end in
          let v := match cl_view_state c !! id with
                   | Some v =>
                       if (pv_buffer_id v =? bv_buffer_id bv)%N
                       then resync_view reset_hints snap visible total v
                       else fresh_view bv snap visible total
                   | None => fresh_view bv snap visible total
                   end in
          cl_set_views (insert id v) c
      | _, _ => c
      end
  | None => c
  end.
Definition sync_view_states_for_nodes (ids : gset N) (reset_hints : bool) (c : ClientState)
    : ClientState :=
  foldl (sync_view reset_hints) c (set_to_sorted ids).

Definition shows_buffer (bid : BufferId) (n : NodeRecord) : bool :=
  match nr_kind n, nr_buffer_view n with
  | NkBufferView, Some bv => (bv_buffer_id bv =? bid)%N
  | _, _ => false
  end.
Definition sync_view_states_for_buffer (bid : BufferId) (c : ClientState) : ClientState :=
  sync_view_states_for_nodes
    (list_to_set (nr_id <$> base.filter (λ n, shows_buffer bid n = true) (values_of (cl_nodes c))))
    true c.

(** ** What the server sends *)

(** Entries of [sid] stay only when they are among [ids]. *)
Definition retain_listed {A} (session_of : A → SessionId) (sid : SessionId) (ids : gset N)
    (m : gmap N A) : gmap N A :=
  base.filter (λ e : N * A, session_of e.2 ≠ sid ∨ e.1 ∈ ids) m.
Definition retain_current {A} (previous current : gset N) (m : gmap N A) : gmap N A :=
  base.filter (λ e : N * A, e.1 ∉ previous ∨ e.1 ∈ current) m.
Definition insert_all {A} (key : A → N) (l : list A) (m : gmap N A) : gmap N A :=
  foldl (λ m x, <[key x := x]> m) m l.

Definition apply_session_snapshot (snap : SessionSnapshot) (c : ClientState) : ClientState :=
  let sid := sr_id (ss_session snap) in
  let previous := client_session_node_ids c sid in
  let previous_buffers := attached_buffers_for_nodes c previous in
  let current : gset N := list_to_set (nr_id <$> ss_nodes snap) in
  let current_buffers : gset N := list_to_set (br_id <$> ss_buffers snap) in
  let current_floating : gset N := list_to_set (fr_id <$> ss_floating snap) in
  let c := cl_set_sessions (insert sid (ss_session snap)) c in
  let c := cl_set_nodes (retain_listed nr_session_id sid current) c in
  let c := cl_set_floating (retain_listed fr_session_id sid current_floating) c in
  let c := cl_set_views (retain_current previous current) c in
  let c := cl_set_drawn_rows (retain_current previous current) c in
  let c := cl_set_nodes (insert_all nr_id (ss_nodes snap)) c in
  let c := cl_set_buffers (insert_all br_id (ss_buffers snap)) c in
  let c := cl_set_floating (insert_all fr_id (ss_floating snap)) c in
  let c := cl_set_buffers (λ bs,
             foldl (λ bs bid, alter (detach_from previous) bid bs) bs
               (set_to_sorted (previous_buffers ∖ current_buffers))) c in
  let c := sync_view_states_for_nodes current false c in
  cl_set_dirty (λ s, s ∖ {[sid]}) c.

Definition client_remove_buffer (bid : BufferId) (c : ClientState) : ClientState :=
  cl_set_invalidated (λ s, s ∖ {[bid]})
    (cl_set_views (base.filter (λ e : N * PaneView, pv_buffer_id e.2 ≠ bid))
      (cl_set_snapshots (delete bid) (cl_set_buffers (delete bid) c))).

Definition apply_detached_buffers (bs : list BufferRecord) (c : ClientState) : ClientState :=
  let current : gset N :=
    list_to_set (br_id <$> base.filter (λ b, br_attachment_node_id b = None)
                   (values_of (cl_buffers c))) in
  let incoming : gset N := list_to_set (br_id <$> bs) in
  cl_set_buffers (insert_all br_id bs)
    (foldl (λ c bid, client_remove_buffer bid c) c (set_to_sorted (current ∖ incoming))).
Definition apply_buffer_record (b : BufferRecord) : ClientState → ClientState :=
  cl_set_buffers (insert (br_id b) b).

Definition br_set_shown (seq : N) (size : PtySize) (title cwd : option rstring) (b : BufferRecord)
    : BufferRecord :=
  mkBufferRecord (br_id b) (default (br_title b) title) (br_command b)
    (match cwd with Some cwd => Some cwd | None => br_cwd b end) (br_pipe b) (br_kind b) (br_state b)
    (br_pid b) (br_attachment_node_id b) (br_read_only b) (br_helper_source_buffer_id b)
    (br_helper_scope b) size (br_activity b) seq (br_exit_code b) (br_env b) (br_user_options b)
    (br_foreground_command b) (br_bell_sequence b) (br_host b).
Definition apply_buffer_snapshot (s : VisibleSnapshotResponse) (c : ClientState) : ClientState :=
  let bid := vs_buffer_id s in
  let c := cl_set_buffers
             (alter (br_set_shown (vs_sequence s) (vs_size s) (vs_title s) (vs_cwd s)) bid) c in
  let c := cl_set_invalidated (λ set, set ∖ {[bid]}) c in
  sync_view_states_for_buffer bid (cl_set_snapshots (insert bid s) c).

Definition client_remove_session (sid : SessionId) (c : ClientState) : ClientState :=
  let ids := client_session_node_ids c sid in
  let c := cl_set_sessions (delete sid) c in
  let c := cl_set_nodes (base.filter (λ e : N * NodeRecord, nr_session_id e.2 ≠ sid)) c in
  let c := cl_set_floating (base.filter (λ e : N * FloatingRecord, fr_session_id e.2 ≠ sid)) c in
  let c := cl_set_views (base.filter (λ e : N * PaneView, e.1 ∉ ids)) c in
  let c := cl_set_drawn_rows (base.filter (λ e : N * N, e.1 ∉ ids)) c in
  cl_set_dirty (λ s, s ∖ {[sid]}) (detach_buffers_for_nodes ids c).

Definition sr_set_name (name : rstring) (s : SessionRecord) : SessionRecord :=
  mkSessionRecord (sr_id s) name (sr_root_node_id s) (sr_floating_ids s) (sr_focused_leaf_id s)
    (sr_focused_floating_id s) (sr_zoomed_node_id s) (sr_viewport s) (sr_base_index s)
    (sr_pane_titles s).
Definition sr_set_focus (leaf floating_id : option N) (s : SessionRecord) : SessionRecord :=
  mkSessionRecord (sr_id s) (sr_name s) (sr_root_node_id s) (sr_floating_ids s) leaf floating_id
    (sr_zoomed_node_id s) (sr_viewport s) (sr_base_index s) (sr_pane_titles s).
Definition fr_set_focused (focused : bool) (w : FloatingRecord) : FloatingRecord :=
  mkFloatingRecord (fr_id w) (fr_session_id w) (fr_root_node_id w) (fr_title w) (fr_geometry w)
    focused (fr_visible w) (fr_close_on_empty w) (fr_border w).
Definition apply_focus (sid : SessionId) (leaf floating_id : option N) (c : ClientState)
    : ClientState :=
  match cl_sessions c !! sid with
  | Some s =>
      cl_set_floating (λ fs,
          foldl (λ fs fid, alter (fr_set_focused (bool_decide (Some fid = floating_id))) fid fs) fs
            (sr_floating_ids s))
        (cl_set_sessions (alter (sr_set_focus leaf floating_id) sid) c)
  | None => c
  end.

Definition apply_event (e : ServerEvent) (c : ClientState) : ClientState :=
  match e with
  | EvSessionCreated s =>
      cl_set_dirty (union {[sr_id s]}) (cl_set_sessions (insert (sr_id s) s) c)
  | EvSessionClosed sid => client_remove_session sid c
  | EvSessionRenamed sid name =>
      match cl_sessions c !! sid with
      | Some _ => cl_set_sessions (alter (sr_set_name name) sid) c
      | None => cl_set_dirty (union {[sid]}) c
      end
  | EvBufferCreated b | EvBufferPipeChanged _ b => cl_set_buffers (insert (br_id b) b) c
  | EvBufferDetached bid => cl_set_buffers (alter (br_set_attachment None) bid) c
  | EvNodeChanged sid | EvFloatingChanged sid _ => cl_set_dirty (union {[sid]}) c
  | EvFocusChanged sid leaf floating_id => apply_focus sid leaf floating_id c
  | EvRenderInvalidated bid => cl_set_invalidated (union {[bid]}) c
  | EvClientChanged _ _ | EvClipboard _ _ _ | EvDisplayMessage _ _ | EvPassthrough _ _
  | EvServerShutdown => c
  end.

(** ** Scrolling *)

(** [set_view_follow_output]; [None] without such a view. *)
Definition set_view_follow_output (id : NodeId) (follow : bool) (c : ClientState)
    : option ClientState :=
  v ← cl_view_state c !! id;
  let lines := match cl_snapshots c !! pv_buffer_id v with Some s => vs_lines s | None => [] end in
  let top := if follow then bottom_top_line (pv_total_line_count v) (pv_visible_line_count v)
             else pv_scroll_top_line v in
  let v := pv_set_scroll follow top (pv_visible_line_count v) (pv_total_line_count v) v in
  let v := if follow && negb (bool_decide (length lines = 0)) then pv_set_lines lines v else v in
  Some (cl_set_views (insert id v) c).

Definition draw_rows (rows : N) (v : PaneView) : PaneView :=
  let total := N.max (pv_total_line_count v) rows in
  let top := if pv_follow_output v then bottom_top_line total rows
             else clamp_top_line (pv_scroll_top_line v) total rows in
  pv_set_scroll (pv_follow_output v) top rows total v.
Definition set_view_drawn_rows (id : NodeId) (rows : N) (c : ClientState) : ClientState :=
  let c' := cl_set_drawn_rows (insert id rows) c in
  if bool_decide (cl_drawn_rows c !! id = Some rows) then c'
  else cl_set_views (alter (draw_rows rows) id) c'.

Definition scroll_view (top : N) (v : PaneView) : PaneView :=
  let top := clamp_top_line top (pv_total_line_count v) (pv_visible_line_count v) in
  pv_set_scroll (top =? bottom_top_line (pv_total_line_count v) (pv_visible_line_count v))%N
    top (pv_visible_line_count v) (pv_total_line_count v) v.
Definition set_view_scroll_top (id : NodeId) (top : N) (c : ClientState)
    : option N * ClientState :=
  match cl_view_state c !! id with
  | Some v =>
      (Some (pv_scroll_top_line (scroll_view top v)), cl_set_views (insert id (scroll_view top v)) c)
  | None => (None, c)
  end.
Definition set_view_visible_lines (id : NodeId) (top : N) (lines : list SnapshotLine)
    (c : ClientState) : option ClientState :=
  v ← cl_view_state c !! id;
  Some (cl_set_views (insert id (pv_set_lines lines (scroll_view top v))) c).
