(* ===== verification/Presentation.v ===== *)
(** Laying a session out on the screen, [crates/embers-client/src/presentation.rs]:
    where each pane, tab bar, divider and popup is drawn. *)

From S2P Require Import Prelude Core Protocol Restore ClientState.

(** Coordinates are [i32]: an addition out of range panics. *)
Definition i32_of (z : Z) : outcome Z := if i32_in_range z then Ok z else Panic.
Definition i32_plus (z : Z) (n : N) : outcome Z := i32_of (z + Z.of_N n).
Definition u16_of_bool (b : bool) : N := if b then 1 else 0.

Inductive NavigationDirection : Set := NavLeft | NavRight | NavUp | NavDown.

(** ** Options *)

Inductive TabBarPosition : Set := BarTop | BarBottom.
#[export] Instance TabBarPosition_eq_dec : EqDecision TabBarPosition.
Proof. solve_decision. Defined.
Definition TabBarPosition_parse (value : rstring) : option TabBarPosition :=
  if bool_decide (value = lit "top") then Some BarTop
  else if bool_decide (value = lit "bottom") then Some BarBottom else None.
Record RootTabBar : Type := mkRootTabBar { bar_position : TabBarPosition; bar_visible : bool }.
Definition RootTabBar_default : RootTabBar := mkRootTabBar BarTop true.

Inductive StatusLineMode : Set := StatusOverlay | StatusSeparate.
Definition StatusLineMode_parse (value : rstring) : option StatusLineMode :=
  if bool_decide (value = lit "overlay") then Some StatusOverlay
  else if bool_decide (value = lit "separate") then Some StatusSeparate else None.
Definition content_viewport (mode : StatusLineMode) (terminal : Size) : Size :=
  match mode with
  | StatusSeparate =>
      if (1 <? height terminal)%N then mkSize (width terminal) (height terminal - 1) else terminal
  | StatusOverlay => terminal
  end.

Inductive PaneTitles : Set := TitlesOff | TitlesTop | TitlesBottom.
Definition PaneTitles_parse (value : rstring) : option PaneTitles :=
  if bool_decide (value = lit "off") then Some TitlesOff
  else if bool_decide (value = lit "top") then Some TitlesTop
  else if bool_decide (value = lit "bottom") then Some TitlesBottom else None.
Definition titles_shown (t : PaneTitles) : bool := match t with TitlesOff => false | _ => true end.
Definition titles_reported (s : SessionRecord) : PaneTitles :=
  if sr_pane_titles s then TitlesTop else TitlesOff.

Record LayoutOptions : Type := mkLayoutOptions { lo_tab_bar : RootTabBar; lo_pane_titles : PaneTitles }.
Definition LayoutOptions_default : LayoutOptions := mkLayoutOptions RootTabBar_default TitlesOff.

(** ** Frames *)

Record TabPane : Type := mkTabPane {
  tp_title : rstring;
  tp_process_name : option rstring;
  tp_cwd : option rstring
}.
Record TabItem : Type := mkTabItem {
  ti_title : rstring;
  ti_child_id : NodeId;
  ti_active : bool;
  ti_activity : ActivityState;
  ti_buffer_count : N;
  ti_synchronize_panes : bool;
  ti_pane : option TabPane
}.
Record TabsFrame : Type := mkTabsFrame {
  tf_node_id : NodeId;
  tf_rect : Rect;
  tf_tabs : list TabItem;
  tf_active : nat;
  tf_is_root : bool;
  tf_floating_id : option FloatingId
}.
Record LeafFrame : Type := mkLeafFrame {
  lf_node_id : NodeId;
  lf_buffer_id : BufferId;
  lf_rect : Rect;
  lf_content_rect : Rect;
  lf_title_rect : option Rect;
  lf_title : rstring;
  lf_activity : ActivityState;
  lf_focused : bool;
  lf_floating_id : option FloatingId;
  lf_tabs_path : list NodeId
}.
Definition lf_pty_size (l : LeafFrame) : option PtySize :=
  let s := size_ (lf_content_rect l) in
  if ((0 <? width s) && (0 <? height s))%N then Some (PtySize_new (width s) (height s)) else None.
Record DividerFrame : Type := mkDividerFrame {
  df_direction : SplitDirection;
  df_rect : Rect;
  df_floating_id : option FloatingId;
  df_split_node_id : NodeId;
  df_index : nat
}.
Record SplitFrame : Type := mkSplitFrame {
  sf_node_id : NodeId;
  sf_direction : SplitDirection;
  sf_rect : Rect;
  sf_child_ids : list NodeId;
  sf_lengths : list N;
  sf_min_lengths : list N;
  sf_floating_id : option FloatingId
}.
Record FloatingFrame : Type := mkFloatingFrame {
  ff_floating_id : FloatingId;
  ff_rect : Rect;
  ff_content_rect : Rect;
  ff_title : option rstring;
  ff_focused : bool;
  ff_border : bool
}.

(** ** Rectangles *)

Definition inset_bottom (r : Rect) (amount : N) : Rect :=
  mkRect (origin r) (mkSize (width (size_ r)) (height (size_ r) - amount)).
Definition inset_top (r : Rect) (amount : N) : outcome Rect :=
  let consumed := N.min amount (height (size_ r)) in
  y ← i32_plus (py (origin r)) consumed;
  Ok (mkRect (mkPoint (px (origin r)) y) (mkSize (width (size_ r)) (height (size_ r) - consumed))).
Definition inset_border (r : Rect) : outcome Rect :=
  x ← i32_plus (px (origin r)) 1;
  y ← i32_plus (py (origin r)) 1;
  Ok (mkRect (mkPoint x y) (mkSize (width (size_ r) - 2) (height (size_ r) - 2))).
Definition geometry_rect (g : FloatGeometry) : Rect :=
  mkRect (mkPoint (Z.of_N (fx g)) (Z.of_N (fy g))) (mkSize (fwidth g) (fheight g)).

(** [u16::try_from(z).unwrap_or(0)] *)
Definition u16_or_zero (z : Z) : N :=
  if ((0 <=? z) && (z <=? Z.of_N u16_max))%Z then Z.to_N z else 0.
Definition clip_rect (r bounds : Rect) : outcome Rect :=
  let left := Z.max (px (origin r)) (px (origin bounds)) in
  let top := Z.max (py (origin r)) (py (origin bounds)) in
  r_right ← i32_plus (px (origin r)) (width (size_ r));
  b_right ← i32_plus (px (origin bounds)) (width (size_ bounds));
  let right := Z.min r_right b_right in
  r_bottom ← i32_plus (py (origin r)) (height (size_ r));
  b_bottom ← i32_plus (py (origin bounds)) (height (size_ bounds));
  let bottom := Z.min r_bottom b_bottom in
  Ok (if ((right <=? left) || (bottom <=? top))%Z then mkRect (mkPoint left top) (mkSize 0 0)
      else mkRect (mkPoint left top) (mkSize (u16_or_zero (right - left)) (u16_or_zero (bottom - top)))).

Definition split_title_row (r : Rect) (t : PaneTitles) : outcome (option Rect * Rect) :=
  let title_row y := mkRect (mkPoint (px (origin r)) y) (mkSize (width (size_ r)) 1) in
  match t with
  | TitlesOff => Ok (None, r)
  | TitlesTop =>
      content ← inset_top r 1;
      Ok (Some (title_row (py (origin r))), content)
  | TitlesBottom =>
      let content := inset_bottom r 1 in
      y ← i32_plus (py (origin r)) (height (size_ content));
      Ok (Some (title_row y), content)
  end.

(** ** Splits *)

Definition axis_length (r : Rect) (d : SplitDirection) : N :=
  match d with Horizontal => height (size_ r) | Vertical => width (size_ r) end.

Definition split_weights (sizes : list N) (child_count : nat) : list N :=
  if (length sizes =? child_count) && existsb (λ w, 0 <? w)%N sizes then sizes
  else repeat 1%N child_count.
(** [total] by weight, rounded down; the last child gets what is left. [as u16] keeps
    the lower 16 bits. *)
Fixpoint share_lengths (total weight_sum : N) (weights : list N) (used : N) : list N :=
  match weights with
  | [] => []
  | [_] => [(total - used)%N]
  | w :: weights =>
      let len := ((total * w / weight_sum) mod (u16_max + 1))%N in
      len :: share_lengths total weight_sum weights (sat_add16 used len)
  end.
(** The loop that gives the remainder out, cell by cell. *)
Fixpoint give_remainder (remainder index : nat) (lengths : list N) : list N :=
  match remainder with
  | 0 => lengths
  | S remainder =>
      give_remainder remainder (S index)
        (alter (λ len, sat_add16 len 1) (index mod length lengths) lengths)
  end.
Definition checked_sum (bound : N) (l : list N) : outcome N :=
  let sum := foldr N.add 0%N l in if (sum <=? bound)%N then Ok sum else Panic.
Definition proportional_lengths (total : N) (sizes : list N) (child_count : nat)
    : outcome (list N) :=
  if child_count =? 0 then Ok []
  else if (total =? 0)%N then Ok (repeat 0%N child_count)
  else
    let weights := split_weights sizes child_count in
    weight_sum ← checked_sum (u32_modulus - 1) weights;
    let lengths := share_lengths total (N.max weight_sum 1) weights 0 in
    used ← checked_sum u16_max lengths;
    Ok (give_remainder (N.to_nat (total - used)) 0 lengths).

Fixpoint place_rects (r : Rect) (d : SplitDirection) (x y : Z) (lengths : list N)
    : outcome (list Rect) :=
  match lengths with
  | [] => Ok []
  | len :: lengths =>
      let size := match d with
                  | Horizontal => mkSize (width (size_ r)) len
                  | Vertical => mkSize len (height (size_ r))
                  end in
      x' ← match d with Horizontal => Ok x | Vertical => i32_plus x (len + 1) end;
      y' ← match d with Horizontal => i32_plus y (len + 1) | Vertical => Ok y end;
      rest ← place_rects r d x' y' lengths;
      Ok (mkRect (mkPoint x y) size :: rest)
  end.
Definition divider_count (child_count : nat) : N :=
  let n := N.of_nat (child_count - 1) in if (n <=? u16_max)%N then n else u16_max.
Definition split_rects (r : Rect) (d : SplitDirection) (sizes : list N) (child_count : nat)
    : outcome (list Rect) :=
  if child_count =? 0 then Ok []
  else
    lengths ← proportional_lengths (axis_length r d - divider_count child_count)%N sizes child_count;
    place_rects r d (px (origin r)) (py (origin r)) lengths.

Definition divider_rect_for (d : SplitDirection) (r : Rect) (index child_count : nat)
    : outcome (option Rect) :=
  if S index =? child_count then Ok None
  else
    match d with
    | Horizontal =>
        y ← i32_plus (py (origin r)) (height (size_ r));
        Ok (Some (mkRect (mkPoint (px (origin r)) y) (mkSize (width (size_ r)) 1)))
    | Vertical =>
        x ← i32_plus (px (origin r)) (width (size_ r));
        Ok (Some (mkRect (mkPoint x (py (origin r))) (mkSize 1 (height (size_ r)))))
    end.

(** ** What tabs show *)

Definition activity_rank (a : ActivityState) : N :=
  match a with Idle => 0 | Activity => 1 | Bell => 2 end.
Definition client_max_activity (left right : ActivityState) : ActivityState :=
  if (activity_rank left <? activity_rank right)%N then right else left.

(** The children a node shows in its subtree, tabs or split. *)
Definition nr_children (n : NodeRecord) : list NodeId :=
  match nr_kind n with
  | NkBufferView => []
  | NkTabs => match nr_tabs n with Some t => tr_child_id <$> tsr_tabs t | None => [] end
  | NkSplit => match nr_split n with Some s => spr_child_ids s | None => [] end
  end.

Section subtree.
Context (c : ClientState).

(** Recursion follows the tree, at most as deep as there are nodes; a cycle would
    overflow the stack. *)
Fixpoint subtree_activity_cached (fuel : nat) (id : NodeId) (cache : gmap N ActivityState)
    : outcome (ActivityState * gmap N ActivityState) :=
  match fuel with
  | 0 => OutOfFuel
  | S fuel =>
      match cache !! id with
      | Some activity => Ok (activity, cache)
      | None =>
          match cl_nodes c !! id with
          | None => Ok (Idle, cache)
          | Some n =>
              r ← match nr_kind n with
                  | NkBufferView =>
                      Ok (match nr_buffer_view n with
                          | Some bv => match cl_buffers c !! bv_buffer_id bv with
                                       | Some b => br_activity b
                                       | None => Idle
                                       end
                          | None => Idle
                          end, cache)
                  | _ =>
                      fold_ok (λ (acc : ActivityState * gmap N ActivityState) child,
                          r ← subtree_activity_cached fuel child acc.2;
                          Ok (client_max_activity acc.1 r.1, r.2))
                        (Idle, cache) (nr_children n)
                  end;
              Ok (r.1, <[id := r.1]> r.2)
          end
      end
  end.
Fixpoint subtree_buffer_count_cached (fuel : nat) (id : NodeId) (cache : gmap N N)
    : outcome (N * gmap N N) :=
  match fuel with
  | 0 => OutOfFuel
  | S fuel =>
      match cache !! id with
      | Some count => Ok (count, cache)
      | None =>
          match cl_nodes c !! id with
          | None => Ok (0%N, cache)
          | Some n =>
              r ← match nr_kind n with
                  | NkBufferView => Ok (match nr_buffer_view n with Some _ => 1%N | None => 0%N end, cache)
                  | _ =>
                      fold_ok (λ (acc : N * gmap N N) child,
                          r ← subtree_buffer_count_cached fuel child acc.2;
                          Ok (acc.1 + r.1, r.2)%N)
                        (0%N, cache) (nr_children n)
                  end;
              Ok (r.1, <[id := r.1]> r.2)
          end
      end
  end.

(** [program_name] of the protocol crate. *)
Definition record_program_name (command : list rstring) : option rstring :=
  match command with
  | [] => None
  | program :: _ =>
      let program := strip_dash program in
      let name := default program (file_name program) in
      if bool_decide (length name = 0) then None else Some name
  end.
Definition process_name (b : BufferRecord) : option rstring :=
  record_program_name (default (br_command b) (br_foreground_command b)).

Fixpoint holds_focus (fuel : nat) (child_id current : NodeId) : outcome bool :=
  match fuel with
  | 0 => OutOfFuel
  | S fuel =>
      if (current =? child_id)%N then Ok true
      else match cl_nodes c !! current ≫= nr_parent_id with
           | Some parent_id => holds_focus fuel child_id parent_id
           | None => Ok false
           end
  end.
(** The loop is bounded by the node count. *)
Fixpoint shown_pane (rounds : nat) (leaf_id : NodeId) : option TabPane :=
  match rounds with
  | 0 => None
  | S rounds =>
      n ← cl_nodes c !! leaf_id;
      match nr_kind n with
      | NkBufferView =>
          bv ← nr_buffer_view n;
          b ← cl_buffers c !! bv_buffer_id bv;
          Some (mkTabPane (br_title b) (process_name b) (br_cwd b))
      | NkTabs =>
          t ← nr_tabs n;
          tab ← tsr_tabs t !! N.to_nat (tsr_active t);
          shown_pane rounds (tr_child_id tab)
      | NkSplit =>
          s ← nr_split n;
          child ← head (spr_child_ids s);
          shown_pane rounds child
      end
  end.
Definition client_budget : nat := S (size (cl_nodes c)).
Definition tab_pane (child_id : NodeId) (focused_leaf_id : option NodeId)
    : outcome (option TabPane) :=
  leaf_id ← match focused_leaf_id with
            | Some leaf_id =>
                holds ← holds_focus client_budget child_id leaf_id;
                Ok (if holds : bool then leaf_id else child_id)
            | None => Ok child_id
            end;
  Ok (shown_pane client_budget leaf_id).

(** [u16] additions that do not saturate panic out of range. *)
Definition u16_plus (a b : N) : outcome N := if (a + b <=? u16_max)%N then Ok (a + b)%N else Panic.
Fixpoint min_extent (fuel : nat) (id : NodeId) (d : SplitDirection) (titles : PaneTitles)
    : outcome N :=
  match fuel with
  | 0 => OutOfFuel
  | S fuel =>
      match cl_nodes c !! id with
      | None => Ok 1%N
      | Some n =>
          match nr_kind n with
          | NkBufferView =>
              Ok match d with
                 | Horizontal => 1 + u16_of_bool (titles_shown titles)
                 | Vertical => 1
                 end%N
          | NkTabs =>
              let bar := match d with Horizontal => 1%N | Vertical => 0%N end in
              child ← match nr_tabs n ≫= (λ t, tsr_tabs t !! N.to_nat (tsr_active t)) with
                      | Some tab => min_extent fuel (tr_child_id tab) d titles
                      | None => Ok 1%N
                      end;
              u16_plus bar child
          | NkSplit =>
              match nr_split n with
              | Some s =>
                  if bool_decide (length (spr_child_ids s) = 0) then Ok 1%N
                  else
                    mins ← collect (λ child, min_extent fuel child d titles) (spr_child_ids s);
                    Ok (if decide (spr_direction s = d)
                        then foldl sat_add16 (divider_count (length (spr_child_ids s))) mins
                        else foldr N.max 0%N mins)
              | None => Ok 1%N
              end
          end
      end
  end.
End subtree.

(** ** Projecting *)

Record Projection : Type := mkProjection {
  pj_tab_bars : list TabsFrame;
  pj_leaves : list LeafFrame;
  pj_dividers : list DividerFrame;
  pj_splits : list SplitFrame;
  pj_floating : list FloatingFrame;
  pj_activity : gmap N ActivityState;
  pj_buffer_count : gmap N N
}.
Definition Projection_default : Projection := mkProjection [] [] [] [] [] ∅ ∅.
Definition push_tab_bar (f : TabsFrame) (p : Projection) : Projection :=
  mkProjection (pj_tab_bars p ++ [f]) (pj_leaves p) (pj_dividers p) (pj_splits p) (pj_floating p)
    (pj_activity p) (pj_buffer_count p).
Definition push_leaf (f : LeafFrame) (p : Projection) : Projection :=
  mkProjection (pj_tab_bars p) (pj_leaves p ++ [f]) (pj_dividers p) (pj_splits p) (pj_floating p)
    (pj_activity p) (pj_buffer_count p).
Definition push_divider (f : DividerFrame) (p : Projection) : Projection :=
  mkProjection (pj_tab_bars p) (pj_leaves p) (pj_dividers p ++ [f]) (pj_splits p) (pj_floating p)
    (pj_activity p) (pj_buffer_count p).
Definition push_split (f : SplitFrame) (p : Projection) : Projection :=
  mkProjection (pj_tab_bars p) (pj_leaves p) (pj_dividers p) (pj_splits p ++ [f]) (pj_floating p)
    (pj_activity p) (pj_buffer_count p).
Definition push_floating (f : FloatingFrame) (p : Projection) : Projection :=
  mkProjection (pj_tab_bars p) (pj_leaves p) (pj_dividers p) (pj_splits p) (pj_floating p ++ [f])
    (pj_activity p) (pj_buffer_count p).
Definition set_caches (activity : gmap N ActivityState) (count : gmap N N) (p : Projection)
    : Projection :=
  mkProjection (pj_tab_bars p) (pj_leaves p) (pj_dividers p) (pj_splits p) (pj_floating p)
    activity count.

Section projector.
Context (c : ClientState) (session : SessionRecord) (layout : LayoutOptions).

Definition pane_titles_in (floating_id : option FloatingId) : PaneTitles :=
  let framed := match floating_id ≫= (λ fid, cl_floating c !! fid) with
                | Some w => fr_border w
                | None => false
                end in
  if framed then TitlesOff else lo_pane_titles layout.

Definition tab_item (active : N) (acc : list TabItem * Projection) (tab : nat * TabRecord)
    : outcome (list TabItem * Projection) :=
  let '(items, p) := acc in
  let child := tr_child_id tab.2 in
  a ← subtree_activity_cached c (client_budget c) child (pj_activity p);
  n ← subtree_buffer_count_cached c (client_budget c) child (pj_buffer_count p);
  pane ← tab_pane c child (sr_focused_leaf_id session);
  Ok (items ++ [mkTabItem (tr_title tab.2) child (N.of_nat tab.1 =? active)%N a.1 n.1
                  (tr_synchronize_panes tab.2) pane],
      set_caches a.2 n.2 p).

(** The rows of a tab bar, and the rest. *)
Definition tab_bar_rects (r : Rect) (root_bar : bool) : outcome (Rect * Rect) :=
  let bar_rows := u16_of_bool (negb root_bar || bar_visible (lo_tab_bar layout)) in
  let bar_size := mkSize (width (size_ r)) bar_rows in
  if root_bar && bool_decide (bar_position (lo_tab_bar layout) = BarBottom) then
    let content := inset_bottom r bar_rows in
    y ← i32_plus (py (origin r)) (height (size_ content));
    Ok (mkRect (mkPoint (px (origin r)) y) bar_size, content)
  else
    content ← inset_top r bar_rows;
    Ok (mkRect (origin r) bar_size, content).

Section node.
Context (project_node : NodeId → Rect → option FloatingId → bool → list NodeId → Projection →
          outcome Projection).

Definition project_view (n : NodeRecord) (r : Rect) (floating_id : option FloatingId)
    (tabs_path : list NodeId) (p : Projection) : outcome Projection :=
  bv ← ok_or (nr_buffer_view n) Protocol;
  b ← ok_or (cl_buffers c !! bv_buffer_id bv) NotFound;
  rects ← split_title_row r (pane_titles_in floating_id);
  Ok (push_leaf (mkLeafFrame (nr_id n) (br_id b) r rects.2 rects.1 (br_title b) (br_activity b)
                   (bool_decide (sr_focused_leaf_id session = Some (nr_id n))) floating_id tabs_path) p).

Definition project_tabs (n : NodeRecord) (r : Rect) (floating_id : option FloatingId)
    (is_root : bool) (tabs_path : list NodeId) (p : Projection) : outcome Projection :=
  t ← ok_or (nr_tabs n) Protocol;
  let active := N.to_nat (tsr_active t) in
  active_child ← ok_or (tsr_tabs t !! active) Protocol;
  rects ← tab_bar_rects r (is_root && bool_decide (floating_id = None));
  items ← fold_ok (tab_item (tsr_active t)) ([], p) (zip (seq 0 (length (tsr_tabs t))) (tsr_tabs t));
  let p := push_tab_bar (mkTabsFrame (nr_id n) rects.1 items.1 active is_root floating_id) items.2 in
  project_node (tr_child_id active_child) rects.2 floating_id false (tabs_path ++ [nr_id n]) p.

Definition project_child (s : SplitRecord) (n : NodeRecord) (floating_id : option FloatingId)
    (tabs_path : list NodeId) (p : Projection) (child : nat * (NodeId * Rect)) : outcome Projection :=
  let '(index, (id, r)) := child in
  p ← project_node id r floating_id false tabs_path p;
  divider ← divider_rect_for (spr_direction s) r index (length (spr_child_ids s));
  Ok match divider with
     | Some d => push_divider (mkDividerFrame (spr_direction s) d floating_id (nr_id n) index) p
     | None => p
     end.
Definition project_split (n : NodeRecord) (r : Rect) (floating_id : option FloatingId)
    (tabs_path : list NodeId) (p : Projection) : outcome Projection :=
  s ← ok_or (nr_split n) Protocol;
  let children := spr_child_ids s in
  if bool_decide (length children = 0) then Ok p
  else
    rects ← split_rects r (spr_direction s) (spr_sizes s) (length children);
    mins ← collect (λ id, min_extent c (client_budget c) id (spr_direction s) (pane_titles_in floating_id))
             children;
    let p := push_split (mkSplitFrame (nr_id n) (spr_direction s) r children
                           ((λ r, axis_length r (spr_direction s)) <$> rects) mins floating_id) p in
    fold_ok (project_child s n floating_id tabs_path) p (zip (seq 0 (length children)) (zip children rects)).
End node.

Fixpoint project_node (fuel : nat) (id : NodeId) (r : Rect) (floating_id : option FloatingId)
    (is_root : bool) (tabs_path : list NodeId) (p : Projection) : outcome Projection :=
  match fuel with
  | 0 => OutOfFuel
  | S fuel =>
      if ((width (size_ r) =? 0) || (height (size_ r) =? 0))%N then Ok p
      else
        n ← ok_or (cl_nodes c !! id) NotFound;
        match nr_kind n with
        | NkBufferView => project_view n r floating_id tabs_path p
        | NkTabs => project_tabs (project_node fuel) n r floating_id is_root tabs_path p
        | NkSplit => project_split (project_node fuel) n r floating_id tabs_path p
        end
  end.

Definition project_floating_window (w : FloatingRecord) (bounds : Rect) (id : NodeId) (p : Projection)
    : outcome Projection :=
  if negb (fr_visible w) then Ok p
  else
    r ← clip_rect (geometry_rect (fr_geometry w)) bounds;
    if ((width (size_ r) =? 0) || (height (size_ r) =? 0))%N then Ok p
    else
      content ← (if fr_border w then inset_border r else Ok r);
      let p := push_floating (mkFloatingFrame (fr_id w) r content (fr_title w) (fr_focused w)
                                (fr_border w)) p in
      project_node (client_budget c) id content (Some (fr_id w)) false [] p.

Definition floating_window_for_root (root : NodeId) : option FloatingRecord :=
  find_first (λ w, fr_root_node_id w =? root)%N
    (omap (λ fid, cl_floating c !! fid) (sr_floating_ids session)).
(** Both walk up from a node; a cycle would not end. *)
Fixpoint node_belongs_to_session (fuel : nat) (id : NodeId) : outcome bool :=
  match fuel with
  | 0 => OutOfFuel
  | S fuel =>
      match cl_nodes c !! id with
      | None => Ok false
      | Some n =>
          if negb (nr_session_id n =? sr_id session)%N then Ok false
          else if (id =? sr_root_node_id session)%N then Ok true
          else match floating_window_for_root id with
               | Some _ => Ok true
               | None =>
                   match nr_parent_id n with
                   | Some parent => node_belongs_to_session fuel parent
                   | None => Ok false
                   end
               end
      end
  end.
Fixpoint floating_ancestor_for_node (fuel : nat) (id : NodeId) : outcome (option FloatingRecord) :=
  match fuel with
  | 0 => OutOfFuel
  | S fuel =>
      match floating_window_for_root id with
      | Some w => Ok (Some w)
      | None =>
          match cl_nodes c !! id ≫= nr_parent_id with
          | Some parent => floating_ancestor_for_node fuel parent
          | None => Ok None
          end
      end
  end.

Definition project_popup (bounds : Rect) (p : Projection) (fid : FloatingId) : outcome Projection :=
  match cl_floating c !! fid with
  | None => Ok p
  | Some w =>
      belongs ← node_belongs_to_session (client_budget c) (fr_root_node_id w);
      if belongs : bool then project_floating_window w bounds (fr_root_node_id w) p else Ok p
  end.
(** The zoomed node, while it belongs to the session. *)
Definition projected_zoom : outcome (option NodeId) :=
  match sr_zoomed_node_id session with
  | Some id =>
      belongs ← node_belongs_to_session (client_budget c) id;
      Ok (if belongs : bool then Some id else None)
  | None => Ok None
  end.
Definition project_session (bounds : Rect) : outcome Projection :=
  let p := Projection_default in
  zoomed ← projected_zoom;
  match zoomed with
  | Some id =>
      window ← floating_ancestor_for_node (client_budget c) id;
      match window with
      | Some w => project_floating_window w bounds id p
      | None => project_node (client_budget c) id bounds None (id =? sr_root_node_id session)%N [] p
      end
  | None =>
      p ← project_node (client_budget c) (sr_root_node_id session) bounds None true [] p;
      fold_ok (project_popup bounds) p (sr_floating_ids session)
  end.
End projector.

Record PresentationModel : Type := mkPresentationModel {
  pm_session_id : SessionId;
  pm_viewport : Size;
  pm_root_tabs : option TabsFrame;
  pm_tab_bars : list TabsFrame;
  pm_leaves : list LeafFrame;
  pm_dividers : list DividerFrame;
  pm_splits : list SplitFrame;
  pm_floating : list FloatingFrame
}.
Definition project_with (c : ClientState) (sid : SessionId) (viewport : Size) (layout : LayoutOptions)
    : outcome PresentationModel :=
  session ← ok_or (cl_sessions c !! sid) NotFound;
  p ← project_session c session layout (mkRect (mkPoint 0 0) viewport);
  Ok (mkPresentationModel sid viewport (find_first tf_is_root (pj_tab_bars p)) (pj_tab_bars p)
        (pj_leaves p) (pj_dividers p) (pj_splits p) (pj_floating p)).
Definition project (c : ClientState) (sid : SessionId) (viewport : Size) : outcome PresentationModel :=
  project_with c sid viewport LayoutOptions_default.

(** ** Questions about a projection *)

Section model.
Context (m : PresentationModel).

Definition status_row : option N :=
  let bar_row :=
    bar ← pm_root_tabs m;
    if (0 <? height (size_ (tf_rect bar)))%N then
      let y := py (origin (tf_rect bar)) in
      if ((0 <=? y) && (y <=? Z.of_N u16_max))%Z then Some (Z.to_N y) else None
    else None in
  match bar_row with
  | Some y => Some y
  | None => if (height (pm_viewport m) =? 0)%N then None else Some (height (pm_viewport m) - 1)%N
  end.
Definition layout_viewport : Size :=
  let hidden_bar := match pm_root_tabs m with
                    | Some bar => (height (size_ (tf_rect bar)) =? 0)%N
                    | None => false
                    end in
  mkSize (width (pm_viewport m)) (sat_add16 (height (pm_viewport m)) (u16_of_bool hidden_bar)).
Definition pm_focused_leaf : option LeafFrame := find_first lf_focused (pm_leaves m).
Definition focused_buffer_id : option BufferId := lf_buffer_id <$> pm_focused_leaf.
Definition focused_floating_id : option FloatingId :=
  match pm_focused_leaf ≫= lf_floating_id with
  | Some fid => Some fid
  | None => ff_floating_id <$> find_first ff_focused (pm_floating m)
  end.
Definition focused_tabs : option TabsFrame :=
  leaf ← pm_focused_leaf;
  id ← last (lf_tabs_path leaf);
  find_first (λ bar, tf_node_id bar =? id)%N (pm_tab_bars m).

(** [iter().rev().find] *)
Fixpoint find_ok {A} (p : A → outcome bool) (l : list A) : outcome (option A) :=
  match l with
  | [] => Ok None
  | x :: l => b ← p x; if b : bool then Ok (Some x) else find_ok p l
  end.
Definition leaf_at (point : Point) : outcome (option LeafFrame) :=
  find_ok (λ leaf, Rect_contains (lf_rect leaf) point) (reverse (pm_leaves m)).
Definition floating_at (point : Point) : outcome (option FloatingFrame) :=
  find_ok (λ f, Rect_contains (ff_rect f) point) (reverse (pm_floating m)).
End model.

(** ** Moving the focus by direction *)

(** [FocusScore], ordered by its fields in turn. *)
Record FocusScore : Type := mkFocusScore { fsc_primary : Z; fsc_secondary : Z; fsc_tertiary : Z }.
Definition score_lt (a b : FocusScore) : bool :=
  ((fsc_primary a <? fsc_primary b)
   || ((fsc_primary a =? fsc_primary b)
       && ((fsc_secondary a <? fsc_secondary b)
           || ((fsc_secondary a =? fsc_secondary b) && (fsc_tertiary a <? fsc_tertiary b)))))%Z.

Definition rect_center (r : Rect) : outcome Point :=
  x ← i32_plus (px (origin r)) (width (size_ r) / 2);
  y ← i32_plus (py (origin r)) (height (size_ r) / 2);
  Ok (mkPoint x y).
Definition i32_distance (a b : Z) : outcome Z := d ← i32_of (a - b); Ok (Z.abs d).
Definition direction_score (focused candidate : Rect) (focused_center : Point)
    (d : NavigationDirection) : outcome (option FocusScore) :=
  center ← rect_center candidate;
  let score gap secondary tertiary :=
    if (gap <? 0)%Z then Ok None
    else gap ← i32_of gap; s ← secondary; t ← tertiary; Ok (Some (mkFocusScore gap s t)) in
  let dx := i32_distance (px focused_center) (px center) in
  let dy := i32_distance (py focused_center) (py center) in
  match d with
  | NavLeft =>
      right ← i32_plus (px (origin candidate)) (width (size_ candidate));
      score (px (origin focused) - right)%Z dy dx
  | NavRight =>
      right ← i32_plus (px (origin focused)) (width (size_ focused));
      score (px (origin candidate) - right)%Z dy dx
  | NavUp =>
      bottom ← i32_plus (py (origin candidate)) (height (size_ candidate));
      score (py (origin focused) - bottom)%Z dx dy
  | NavDown =>
      bottom ← i32_plus (py (origin focused)) (height (size_ focused));
      score (py (origin candidate) - bottom)%Z dx dy
  end.

(** [min_by]: the first of the best. *)
Fixpoint best_score (best : option (FocusScore * NodeId)) (l : list (FocusScore * NodeId))
    : option (FocusScore * NodeId) :=
  match l with
  | [] => best
  | x :: l =>
      best_score (match best with
                  | Some y => if score_lt x.1 y.1 then Some x else Some y
                  | None => Some x
                  end) l
  end.
Definition scored_leaf (focused : LeafFrame) (center : Point) (d : NavigationDirection)
    (leaf : LeafFrame) : outcome (option (FocusScore * NodeId)) :=
  s ← direction_score (lf_rect focused) (lf_rect leaf) center d;
  Ok match s with Some s => Some (s, lf_node_id leaf) | None => None end.
Definition focus_target_from (m : PresentationModel) (id : NodeId) (d : NavigationDirection)
    : outcome (option NodeId) :=
  match find_first (λ leaf, lf_node_id leaf =? id)%N (pm_leaves m) with
  | None => Ok None
  | Some focused =>
      center ← rect_center (lf_rect focused);
      scores ← collect (scored_leaf focused center d)
        (base.filter (λ leaf, lf_node_id leaf ≠ lf_node_id focused
                              ∧ lf_floating_id leaf = lf_floating_id focused) (pm_leaves m));
      Ok match best_score None (omap (λ s, s) scores) with
         | Some best => Some best.2
         | None => None
         end
  end.
Definition pm_focus_target (m : PresentationModel) (d : NavigationDirection) : outcome (option NodeId) :=
  match pm_focused_leaf m with
  | Some leaf => focus_target_from m (lf_node_id leaf) d
  | None => Ok None
  end.
