(* ===== verification/Resize.v ===== *)
(** Resizing splits by cells, [crates/embers-client/src/split_resize.rs]: moving a
    divider by keys or with the mouse, and guessing the viewport a session was drawn at. *)

From S2P Require Import Prelude Core Protocol ClientState Presentation.

Record SplitResize : Type := mkSplitResize { sz_split_node_id : NodeId; sz_sizes : list N }.

(** One donor of the loop; nothing is taken once nothing is needed. *)
Definition take_from (mins : list N) (acc : list N * N * N) (donor : nat) : list N * N * N :=
  let '(lengths, needed, moved) := acc in
  if (needed =? 0)%N then acc
  else
    let min := N.max (default 1%N (mins !! donor)) 1 in
    let spare := (default 0 (lengths !! donor) - min)%N in
    let take := N.min spare needed in
    (alter (λ len, len - take)%N donor lengths, (needed - take)%N, (moved + take)%N).
Definition move_divider (lengths mins : list N) (index : nat) (delta : Z) : option (list N) :=
  if (length lengths <=? S index) || (delta =? 0)%Z then None
  else
    let needed := N.min (Z.to_N (Z.abs delta)) u16_max in
    let '(receiver, donors) :=
      if (0 <? delta)%Z then (index, seq (S index) (length lengths - S index))
      else (S index, reverse (seq 0 (S index))) in
    let '(lengths, _, moved) := foldl (take_from mins) (lengths, needed, 0%N) donors in
    if (moved =? 0)%N then None
    else Some (N.max 1 <$> alter (λ len, sat_add16 len moved) receiver lengths).

Definition direction_delta (d : NavigationDirection) (cells : N) : SplitDirection * Z :=
  match d with
  | NavLeft => (Vertical, - Z.of_N cells)
  | NavRight => (Vertical, Z.of_N cells)
  | NavUp => (Horizontal, - Z.of_N cells)
  | NavDown => (Horizontal, Z.of_N cells)
  end%Z.

(** [checked_sub(1)] *)
Definition index_before (index : nat) : option nat :=
  match index with 0 => None | S index => Some index end.

Section resize.
Context (m : PresentationModel) (c : ClientState).

(** The walk up from the pane; a cycle would not end. *)
Fixpoint resize_from (fuel : nat) (child_id : NodeId) (axis : SplitDirection) (delta : Z)
    : outcome (option SplitResize) :=
  match fuel with
  | 0 => OutOfFuel
  | S fuel =>
      match cl_nodes c !! child_id ≫= nr_parent_id with
      | None => Ok None
      | Some parent_id =>
          match find_first (λ split, (sf_node_id split =? parent_id)%N
                                     && bool_decide (sf_direction split = axis)) (pm_splits m) with
          | Some split =>
              Ok (index ← fst <$> list_find (λ id, id = child_id) (sf_child_ids split);
                  index ← (if S index =? length (sf_child_ids split) then index_before index
                           else Some index);
                  sizes ← move_divider (sf_lengths split) (sf_min_lengths split) index delta;
                  Some (mkSplitResize (sf_node_id split) sizes))
          | None => resize_from fuel parent_id axis delta
          end
      end
  end.
Definition resize_leaf (leaf_node_id : NodeId) (direction : NavigationDirection) (cells : N)
    : outcome (option SplitResize) :=
  let '(axis, delta) := direction_delta direction cells in
  resize_from (client_budget c) leaf_node_id axis delta.

Definition divider_at (point : Point) : outcome (option DividerFrame) :=
  floating ← floating_at m point;
  find_ok (λ divider,
      if bool_decide (df_floating_id divider = ff_floating_id <$> floating)
      then Rect_contains (df_rect divider) point else Ok false)
    (reverse (pm_dividers m)).

(** A sum of [i32]; each partial sum is checked. *)
Definition i32_sum (l : list N) : outcome Z := fold_ok i32_plus 0%Z l.
Definition drag_divider (split_node_id : NodeId) (index : nat) (point : Point)
    : outcome (option SplitResize) :=
  match find_first (λ split, sf_node_id split =? split_node_id)%N (pm_splits m) with
  | None => Ok None
  | Some split =>
      if length (sf_lengths split) <=? S index then Ok None
      else
        let '(from, target) := match sf_direction split with
                               | Horizontal => (py (origin (sf_rect split)), py point)
                               | Vertical => (px (origin (sf_rect split)), px point)
                               end in
        leading ← i32_sum (take (S index) (sf_lengths split));
        sum ← i32_of (from + leading);
        if negb (i32_in_range (Z.of_nat index)) then Ok None
        else
          current ← i32_plus sum (N.of_nat index);
          delta ← i32_of (target - current);
          Ok (sizes ← move_divider (sf_lengths split) (sf_min_lengths split) index delta;
              Some (mkSplitResize split_node_id sizes))
  end.
End resize.

(** ** The viewport a session was last drawn at *)

(** [collect::<Option<Vec<_>>>] stops at the first [None]. *)
Fixpoint collect_some {A B} (f : A → outcome (option B)) (l : list A) : outcome (option (list B)) :=
  match l with
  | [] => Ok (Some [])
  | x :: l =>
      y ← f x;
      match y with
      | None => Ok None
      | Some y => ys ← collect_some f l; Ok (option_map (cons y) ys)
      end
  end.

Section extent.
Context (c : ClientState).

Fixpoint drawn_extent (fuel : nat) (node_id : NodeId) (title_rows : N) : outcome (option Size) :=
  match fuel with
  | 0 => OutOfFuel
  | S fuel =>
      match cl_nodes c !! node_id with
      | None => Ok None
      | Some n =>
          match nr_kind n with
          | NkBufferView =>
              Ok (bv ← nr_buffer_view n;
                  b ← cl_buffers c !! bv_buffer_id bv;
                  Some (mkSize (cols (br_pty_size b)) (sat_add16 (rows (br_pty_size b)) title_rows)))
          | NkTabs =>
              match t ← nr_tabs n; tsr_tabs t !! N.to_nat (tsr_active t) with
              | None => Ok None
              | Some active =>
                  child ← drawn_extent fuel (tr_child_id active) title_rows;
                  Ok (child ← child; Some (mkSize (width child) (sat_add16 (height child) 1)))
              end
          | NkSplit =>
              match nr_split n with
              | None => Ok None
              | Some split =>
                  children ← collect_some (λ id, drawn_extent fuel id title_rows) (spr_child_ids split);
                  Ok (children ← children;
                      dividers ← index_before (length children);
                      let sum extent :=
                        foldl sat_add16 (N.of_nat dividers) (extent <$> children) in
                      let max extent := foldr N.max 0%N (extent <$> children) in
                      if (u16_max <? N.of_nat dividers)%N then None
                      else Some match spr_direction split with
                                | Horizontal => mkSize (max width) (sum height)
                                | Vertical => mkSize (sum width) (max height)
                                end)
              end
          end
      end
  end.
Definition drawn_viewport (sid : SessionId) : outcome (option Size) :=
  match cl_sessions c !! sid with
  | None => Ok None
  | Some session =>
      let root :=
        match sr_zoomed_node_id session with
        | Some id => if bool_decide (is_Some (cl_nodes c !! id)) then id else sr_root_node_id session
        | None => sr_root_node_id session
        end in
      drawn_extent (client_budget c) root (u16_of_bool (titles_shown (titles_reported session)))
  end.
End extent.
