(* ===== verification/PtySizes.v ===== *)
(** Sizes of panes, [crates/embers-client/src/pty_sizes.rs] and [spawn_size.rs]: which panes
    a client asks to be resized to what it draws, when several clients show one pane at
    different sizes, and the size a pane about to be made will be drawn at. *)

From S2P Require Import Prelude Core Model Protocol ClientState Presentation.

(** ** Asking for sizes

    Instants are counted in nanoseconds. *)

Definition RETRY_INTERVAL : N := 1000000000.
Record Attempt : Type := mkAttempt { at_server_size : PtySize; at_planned_at : N }.
#[export] Instance Attempt_eq_dec : EqDecision Attempt.
Proof. solve_decision. Defined.
Record PtySizeSync : Type := mkPtySizeSync {
  ps_wanted : gmap BufferId PtySize;
  ps_reclaim : bool;
  ps_planned : gmap BufferId Attempt;
  ps_failed : gmap BufferId Attempt
}.
Definition PtySizeSync_default : PtySizeSync := mkPtySizeSync ∅ false ∅ ∅.

Definition note_user_activity (s : PtySizeSync) : PtySizeSync :=
  mkPtySizeSync (ps_wanted s) true (ps_planned s) (ps_failed s).
Definition resize_failed (b : BufferId) (s : PtySizeSync) : PtySizeSync :=
  match ps_planned s !! b with
  | Some attempt =>
      mkPtySizeSync (ps_wanted s) (ps_reclaim s) (delete b (ps_planned s))
        (<[b := attempt]> (ps_failed s))
  | None => s
  end.
Definition matches_server (current wanted : PtySize) : bool :=
  match cell_size current with
  | None => ((cols current =? cols wanted) && (rows current =? rows wanted))%N
  | Some _ => bool_decide (current = wanted)
  end.

(** A buffer, the size wanted for it, and the one the server reports. *)
Record Target : Type := mkTarget { tg_buffer : BufferId; tg_wanted : PtySize; tg_current : PtySize }.

(** Whether a failed request waits, is to be made again, or stands in no way. *)
Inductive Failure : Set := FailureNone | FailureWaits | FailureRetry.
Definition failure_of (now : N) (t : Target) (s : PtySizeSync) : Failure * PtySizeSync :=
  match ps_failed s !! tg_buffer t with
  | None => (FailureNone, s)
  | Some failure =>
      let forgotten := mkPtySizeSync (ps_wanted s) (ps_reclaim s) (ps_planned s)
                         (delete (tg_buffer t) (ps_failed s)) in
      if negb (bool_decide (at_server_size failure = tg_current t)) then (FailureNone, forgotten)
      else if (now - at_planned_at failure <? RETRY_INTERVAL)%N then (FailureWaits, s)
      else (FailureRetry, forgotten)
  end.
Definition plan_target (reclaim : bool) (now : N) (acc : list (BufferId * PtySize) * PtySizeSync)
    (t : Target) : list (BufferId * PtySize) * PtySizeSync :=
  let '(resizes, s) := acc in
  let '(failure, s) := failure_of now t s in
  match failure with
  | FailureWaits => (resizes, s)
  | FailureNone | FailureRetry =>
      let retry := match failure with FailureRetry => true | _ => false end in
      let changed :=
        match ps_wanted s !! tg_buffer t with
        | Some previous =>
            if negb reclaim && negb retry then negb (bool_decide (previous = tg_wanted t))
            else negb (matches_server (tg_current t) (tg_wanted t))
        | None => negb (bool_decide (tg_current t = tg_wanted t))
        end in
      let wanted := <[tg_buffer t := tg_wanted t]> (ps_wanted s) in
      if changed
      then (resizes ++ [(tg_buffer t, tg_wanted t)],
            mkPtySizeSync wanted (ps_reclaim s)
              (<[tg_buffer t := mkAttempt (tg_current t) now]> (ps_planned s)) (ps_failed s))
      else (resizes, mkPtySizeSync wanted (ps_reclaim s) (ps_planned s) (ps_failed s))
  end.
Definition plan_targets (targets : list Target) (now : N) (s : PtySizeSync)
    : list (BufferId * PtySize) * PtySizeSync :=
  foldl (plan_target (ps_reclaim s) now) ([], mkPtySizeSync (ps_wanted s) false ∅ (ps_failed s)) targets.

(** The panes drawn whose program runs in a PTY. *)
Definition target_of (c : ClientState) (cell : option CellSize) (l : LeafFrame) : option Target :=
  b ← cl_buffers c !! lf_buffer_id l;
  match br_kind b, br_state b with
  | RPty, RRunning =>
      size ← lf_pty_size l;
      Some (mkTarget (lf_buffer_id l) (with_cell_size size cell) (br_pty_size b))
  | _, _ => None
  end.
Definition plan (c : ClientState) (m : PresentationModel) (cell : option CellSize) (now : N)
    (s : PtySizeSync) : list (BufferId * PtySize) * PtySizeSync :=
  let known {A} (l : gmap BufferId A) := filter (λ e, e.1 ∈ dom (cl_buffers c)) l in
  plan_targets (omap (target_of c cell) (pm_leaves m)) now
    (mkPtySizeSync (known (ps_wanted s)) (ps_reclaim s) (ps_planned s) (known (ps_failed s))).

(** ** The size a new pane will have *)

Inductive PanePlacement : Type :=
  | PlaceSplit (leaf_id : NodeId) (direction : SplitDirection)
  | PlaceRootTab
  | PlaceTab (tabs_node_id : NodeId)
  | PlaceFloating (geometry : FloatGeometry) (border : bool)
  | PlaceReplace (leaf_id : NodeId).

Definition NEW_LEAF : NodeId := 18446744073709551615%N.
Definition NEW_CONTAINER : NodeId := 18446744073709551614%N.
Definition NEW_BUFFER : BufferId := 18446744073709551615%N.
Definition NEW_FLOATING : FloatingId := 18446744073709551615%N.

Definition session_cell_size (c : ClientState) (sid : SessionId) : option CellSize :=
  let cell_size_of (id : NodeId) :=
    n ← cl_nodes c !! id;
    view ← nr_buffer_view n;
    b ← cl_buffers c !! bv_buffer_id view;
    cell_size (br_pty_size b) in
  session ← cl_sessions c !! sid;
  match sr_focused_leaf_id session ≫= cell_size_of with
  | Some size => Some size
  | None =>
      head (omap (λ e : N * NodeRecord,
                    if (nr_session_id e.2 =? sid)%N then cell_size_of e.1 else None)
              (entries (cl_nodes c)))
  end.

Definition session_layout (c : ClientState) (sid : SessionId) : option ClientState :=
  session ← cl_sessions c !! sid;
  let ns := filter (λ e : N * NodeRecord, nr_session_id e.2 = sid) (cl_nodes c) in
  let bs := omap (λ n, view ← nr_buffer_view n; cl_buffers c !! bv_buffer_id view) (values_of ns) in
  let ws := filter (λ e : N * FloatingRecord, e.1 ∈ sr_floating_ids session) (cl_floating c) in
  Some (cl_set_sessions (λ _, {[sid := session]})
    (cl_set_nodes (λ _, ns)
    (cl_set_buffers (insert_all br_id bs)
    (cl_set_floating (λ _, ws) ClientState_default)))).

Definition new_leaf_buffer : BufferRecord := {|
  br_id := NEW_BUFFER;
  br_title := [];
  br_command := [];
  br_cwd := None;
  br_pipe := None;
  br_kind := RPty;
  br_state := RCreated;
  br_pid := None;
  br_attachment_node_id := Some NEW_LEAF;
  br_read_only := false;
  br_helper_source_buffer_id := None;
  br_helper_scope := None;
  br_pty_size := mkPtySize 0 0 0 0;
  br_activity := Idle;
  br_last_snapshot_seq := 0;
  br_exit_code := None;
  br_env := ∅;
  br_user_options := ∅;
  br_foreground_command := None;
  br_bell_sequence := 0;
  br_host := None
|}.
Definition new_leaf (sid : SessionId) : NodeRecord :=
  mkNodeRecord NEW_LEAF sid None NkBufferView
    (Some (mkBufferViewRecord NEW_BUFFER false false true (mkPtySize 0 0 0 0))) None None None.
Definition add_new_leaf (sid : SessionId) (c : ClientState) : ClientState :=
  cl_set_nodes <[NEW_LEAF := new_leaf sid]> (cl_set_buffers <[NEW_BUFFER := new_leaf_buffer]> c).

Definition nr_set_parent_id (parent : option NodeId) (n : NodeRecord) : NodeRecord :=
  mkNodeRecord (nr_id n) (nr_session_id n) parent (nr_kind n) (nr_buffer_view n) (nr_split n) (nr_tabs n)
    (nr_focus_leaf_id n).
Definition nr_set_split (split : option SplitRecord) (n : NodeRecord) : NodeRecord :=
  mkNodeRecord (nr_id n) (nr_session_id n) (nr_parent_id n) (nr_kind n) (nr_buffer_view n) split (nr_tabs n)
    (nr_focus_leaf_id n).
Definition nr_set_tabs (tabs : option TabsRecord) (n : NodeRecord) : NodeRecord :=
  mkNodeRecord (nr_id n) (nr_session_id n) (nr_parent_id n) (nr_kind n) (nr_buffer_view n) (nr_split n) tabs
    (nr_focus_leaf_id n).
Definition sr_set_root (root : NodeId) (s : SessionRecord) : SessionRecord :=
  mkSessionRecord (sr_id s) (sr_name s) root (sr_floating_ids s) (sr_focused_leaf_id s)
    (sr_focused_floating_id s) (sr_zoomed_node_id s) (sr_viewport s) (sr_base_index s) (sr_pane_titles s).
Definition sr_set_floating_ids (ids : list FloatingId) (s : SessionRecord) : SessionRecord :=
  mkSessionRecord (sr_id s) (sr_name s) (sr_root_node_id s) ids (sr_focused_leaf_id s)
    (sr_focused_floating_id s) (sr_zoomed_node_id s) (sr_viewport s) (sr_base_index s) (sr_pane_titles s).
Definition fr_set_root (root : NodeId) (w : FloatingRecord) : FloatingRecord :=
  mkFloatingRecord (fr_id w) (fr_session_id w) root (fr_title w) (fr_geometry w) (fr_focused w)
    (fr_visible w) (fr_close_on_empty w) (fr_border w).

Definition layout_set_parent (id parent : NodeId) (c : ClientState) : ClientState :=
  cl_set_nodes (alter (nr_set_parent_id (Some parent)) id) c.
(** [*l.iter_mut().find(..)? = ..] *)
Definition replace_found {A} (p : A → bool) (f : A → A) (l : list A) : option (list A) :=
  if existsb p l then Some (update_first p f l) else None.
Definition layout_replace_child (sid : SessionId) (parent_id : option NodeId) (old new : NodeId)
    (c : ClientState) : option ClientState :=
  match parent_id with
  | None =>
      session ← cl_sessions c !! sid;
      if (sr_root_node_id session =? old)%N
      then Some (cl_set_sessions <[sid := sr_set_root new session]> c)
      else
        e ← find_first (λ e : N * FloatingRecord, fr_root_node_id e.2 =? old)%N (entries (cl_floating c));
        Some (cl_set_floating <[e.1 := fr_set_root new e.2]> c)
  | Some parent_id =>
      parent ← cl_nodes c !! parent_id;
      parent ← match nr_split parent with
               | Some split =>
                   child_ids ← replace_found (λ child, child =? old)%N (λ _, new) (spr_child_ids split);
                   Some (nr_set_split (Some (mkSplitRecord (spr_direction split) child_ids (spr_sizes split)))
                           parent)
               | None =>
                   tabs ← nr_tabs parent;
                   l ← replace_found (λ tab, tr_child_id tab =? old)%N
                         (λ tab, mkTabRecord (tr_title tab) new (tr_synchronize_panes tab)) (tsr_tabs tabs);
                   Some (nr_set_tabs (Some (mkTabsRecord (tsr_active tabs) l)) parent)
               end;
      Some (cl_set_nodes <[parent_id := parent]> c)
  end.
Definition layout_split_leaf (sid : SessionId) (leaf_id : NodeId) (direction : SplitDirection)
    (c : ClientState) : option ClientState :=
  leaf ← cl_nodes c !! leaf_id;
  match nr_kind leaf with
  | NkBufferView =>
      if negb (nr_session_id leaf =? sid)%N then None
      else
        c ← layout_replace_child sid (nr_parent_id leaf) leaf_id NEW_CONTAINER c;
        let container :=
          mkNodeRecord NEW_CONTAINER sid (nr_parent_id leaf) NkSplit None
            (Some (mkSplitRecord direction [leaf_id; NEW_LEAF] [1; 1]%N)) None None in
        Some (layout_set_parent NEW_LEAF NEW_CONTAINER
          (layout_set_parent leaf_id NEW_CONTAINER (cl_set_nodes <[NEW_CONTAINER := container]> c)))
  | _ => None
  end.
Definition layout_root_tabs (c : ClientState) (sid : SessionId) : option NodeId :=
  session ← cl_sessions c !! sid;
  root ← cl_nodes c !! sr_root_node_id session;
  match nr_kind root with NkTabs => Some (sr_root_node_id session) | _ => None end.
Definition add_active_tab (tabs_node_id : NodeId) (c : ClientState) : option ClientState :=
  n ← cl_nodes c !! tabs_node_id;
  tabs ← nr_tabs n;
  let l := tsr_tabs tabs ++ [mkTabRecord [] NEW_LEAF false] in
  if (N.of_nat (length l - 1) <? u32_modulus)%N then
    Some (layout_set_parent NEW_LEAF tabs_node_id
      (cl_set_nodes <[tabs_node_id := nr_set_tabs (Some (mkTabsRecord (N.of_nat (length l - 1)) l)) n]> c))
  else None.
Definition add_floating (sid : SessionId) (geometry : FloatGeometry) (border : bool) (c : ClientState)
    : option ClientState :=
  session ← cl_sessions c !! sid;
  Some (cl_set_sessions
    <[sid := sr_set_floating_ids (sr_floating_ids session ++ [NEW_FLOATING]) session]>
    (cl_set_floating
      <[NEW_FLOATING := mkFloatingRecord NEW_FLOATING sid NEW_LEAF None geometry true true true border]> c)).

(** The layout with the new pane in it, and the pane. *)
Definition placed (sid : SessionId) (placement : PanePlacement) (c : ClientState)
    : option (ClientState * NodeId) :=
  match placement with
  | PlaceSplit leaf_id direction => c ← layout_split_leaf sid leaf_id direction c; Some (c, NEW_LEAF)
  | PlaceRootTab =>
      tabs_node_id ← layout_root_tabs c sid; c ← add_active_tab tabs_node_id c; Some (c, NEW_LEAF)
  | PlaceTab tabs_node_id =>
      n ← cl_nodes c !! tabs_node_id;
      if negb (nr_session_id n =? sid)%N then None
      else c ← add_active_tab tabs_node_id c; Some (c, NEW_LEAF)
  | PlaceFloating geometry border => c ← add_floating sid geometry border c; Some (c, NEW_LEAF)
  | PlaceReplace leaf_id => Some (c, leaf_id)
  end.
(** An error of the projection is [None]; a panic is not. *)
Definition spawn_pty_size_with (c : ClientState) (sid : SessionId) (viewport : Size)
    (layout : LayoutOptions) (placement : PanePlacement) : outcome (option PtySize) :=
  match session_layout c sid ≫= λ l, placed sid placement (add_new_leaf sid l) with
  | None => Ok None
  | Some (l, drawn_leaf) =>
      m ← ok_option (project_with l sid viewport layout);
      Ok (m ← m;
          leaf ← find_first (λ leaf, lf_node_id leaf =? drawn_leaf)%N (pm_leaves m);
          lf_pty_size leaf)
  end.
Definition spawn_pty_size (c : ClientState) (sid : SessionId) (viewport : Size) (titles : PaneTitles)
    (placement : PanePlacement) : outcome (option PtySize) :=
  size ← spawn_pty_size_with c sid viewport (mkLayoutOptions RootTabBar_default titles) placement;
  Ok (match size with
      | Some size => Some (with_cell_size size (session_cell_size c sid))
      | None => None
      end).

(** ** One sync

    Whether a sync asks for a target depends on what is kept for its buffer alone. *)

Definition waits (now : N) (s : PtySizeSync) (t : Target) : bool :=
  match (failure_of now t s).1 with FailureWaits => true | _ => false end.
Definition retries (now : N) (s : PtySizeSync) (t : Target) : bool :=
  match (failure_of now t s).1 with FailureRetry => true | _ => false end.
Definition asks (now : N) (s : PtySizeSync) (t : Target) : bool :=
  negb (waits now s t) &&
  match ps_wanted s !! tg_buffer t with
  | Some previous =>
      if ps_reclaim s || retries now s t then negb (matches_server (tg_current t) (tg_wanted t))
      else negb (bool_decide (previous = tg_wanted t))
  | None => negb (bool_decide (tg_current t = tg_wanted t))
  end.

(** The two states keep the same for a buffer. *)
Definition same_at (b : BufferId) (s s' : PtySizeSync) : Prop :=
  ps_wanted s !! b = ps_wanted s' !! b ∧ ps_failed s !! b = ps_failed s' !! b.
(** What is kept for a target once it was seen to. *)
Definition seen_at (now : N) (s : PtySizeSync) (t : Target) (s' : PtySizeSync) : Prop :=
  ps_wanted s' !! tg_buffer t = (if waits now s t then ps_wanted s !! tg_buffer t else Some (tg_wanted t))
  ∧ ps_failed s' !! tg_buffer t = (if waits now s t then ps_failed s !! tg_buffer t else None)
  ∧ ps_planned s' !! tg_buffer t = (if asks now s t then Some (mkAttempt (tg_current t) now) else None).

Lemma same_at_failure now t s s' :
  same_at (tg_buffer t) s s' → (failure_of now t s).1 = (failure_of now t s').1.
Proof. intros [_ Hf]. unfold failure_of. rewrite Hf. by repeat case_match. Qed.
Lemma same_at_asks now t s s' :
  same_at (tg_buffer t) s s' → ps_reclaim s = ps_reclaim s' → asks now s t = asks now s' t.
Proof.
  intros Hs Hr. unfold asks, waits, retries. by rewrite (same_at_failure _ _ _ _ Hs), Hr, (proj1 Hs).
Qed.

Lemma plan_target_spec now t r s s0 :
  same_at (tg_buffer t) s s0 → ps_planned s !! tg_buffer t = None →
  let '(r', s') := plan_target (ps_reclaim s0) now (r, s) t in
  r' = (if asks now s0 t then r ++ [(tg_buffer t, tg_wanted t)] else r)
  ∧ ps_reclaim s' = ps_reclaim s ∧ seen_at now s0 t s'
  ∧ ∀ b, b ≠ tg_buffer t → same_at b s' s ∧ ps_planned s' !! b = ps_planned s !! b.
Proof.
  intros [Hw Hf] Hp. unfold plan_target, seen_at, asks, waits, retries, failure_of. rewrite <-Hf, <-Hw.
  destruct (ps_reclaim s0), (ps_failed s !! tg_buffer t) as [failure|] eqn:Hfail; cbn;
    try (destruct (bool_decide (at_server_size failure = tg_current t)); cbn;
         [destruct (now - at_planned_at failure <? RETRY_INTERVAL)%N; cbn|]);
    destruct (ps_wanted s !! tg_buffer t) eqn:Hwant; cbn;
    try (destruct (matches_server (tg_current t) (tg_wanted t)); cbn);
    try (destruct (bool_decide _); cbn);
    split_and!; try done; try (by rewrite lookup_insert_eq); try (by rewrite lookup_delete_eq);
    try (by rewrite Hfail);
    intros b Hb; unfold same_at; cbn;
    rewrite ?lookup_insert_ne, ?lookup_delete_ne by done; done.
Qed.

Definition asked (now : N) (s : PtySizeSync) (ts : list Target) : list (BufferId * PtySize) :=
  omap (λ t, if asks now s t then Some (tg_buffer t, tg_wanted t) else None) ts.
Lemma plan_fold_spec now s0 ts r s :
  NoDup (tg_buffer <$> ts) →
  (∀ b, b ∈ tg_buffer <$> ts → same_at b s s0 ∧ ps_planned s !! b = None) →
  let '(r', s') := foldl (plan_target (ps_reclaim s0) now) (r, s) ts in
  r' = r ++ asked now s0 ts ∧ ps_reclaim s' = ps_reclaim s
  ∧ (∀ t, t ∈ ts → seen_at now s0 t s')
  ∧ ∀ b, b ∉ tg_buffer <$> ts → same_at b s' s ∧ ps_planned s' !! b = ps_planned s !! b.
Proof.
  revert r s. induction ts as [|t ts IH]; intros r s Hd Hs.
  { cbn. rewrite app_nil_r. split_and!; [done|done|by intros ? ?%elem_of_nil|done]. }
  rewrite fmap_cons in Hd, Hs. apply NoDup_cons in Hd as [Ht Hd]. cbn [foldl].
  destruct (Hs (tg_buffer t)) as [Hst Hpt]; [by left|].
  pose proof (plan_target_spec now t r s s0 Hst Hpt) as Hstep.
  destruct (plan_target (ps_reclaim s0) now (r, s) t) as [r1 s1]. destruct Hstep as (-> & Hr & Hseen & Hother).
  assert (∀ b, b ∈ tg_buffer <$> ts → same_at b s1 s0 ∧ ps_planned s1 !! b = None) as H1.
  { intros b Hb. destruct (Hother b) as [[Hw Hf] Hp]; [by intros ->|].
    destruct (Hs b) as [[Hw0 Hf0] Hp0]; [by right|]. unfold same_at. rewrite Hw, Hf, Hp. done. }
  specialize (IH (if asks now s0 t then r ++ [(tg_buffer t, tg_wanted t)] else r) s1 Hd H1).
  destruct (foldl _ _ ts) as [r2 s2]. destruct IH as (-> & Hr2 & Hseen2 & Hother2). split_and!.
  - unfold asked. cbn. destruct (asks now s0 t); [by rewrite <-app_assoc|done].
  - by rewrite Hr2.
  - intros t' [->|Hin]%elem_of_cons; [|by apply Hseen2].
    destruct (Hother2 _ Ht) as [[Hw Hf] Hp]. unfold seen_at in *. by rewrite Hw, Hf, Hp.
  - intros b Hb. rewrite fmap_cons, not_elem_of_cons in Hb. destruct Hb as [Hbt Hb].
    destruct (Hother2 _ Hb) as [[Hw Hf] Hp], (Hother _ Hbt) as [[Hw' Hf'] Hp'].
    unfold same_at. by rewrite Hw, Hf, Hp, Hw', Hf', Hp'.
Qed.
Lemma plan_targets_spec ts now s :
  NoDup (tg_buffer <$> ts) →
  let '(r, s') := plan_targets ts now s in
  r = asked now s ts ∧ ps_reclaim s' = false
  ∧ (∀ t, t ∈ ts → seen_at now s t s')
  ∧ ∀ b, b ∉ tg_buffer <$> ts → same_at b s' s ∧ ps_planned s' !! b = None.
Proof.
  intros Hd. unfold plan_targets.
  pose proof (plan_fold_spec now s ts [] (mkPtySizeSync (ps_wanted s) false ∅ (ps_failed s)) Hd) as H.
  destruct (foldl _ _ ts) as [r s']. apply H. intros b _. split; [done|apply lookup_empty].
Qed.

(** ** Clients that show the same buffers *)

(** Every client has drawn its buffers at the sizes it wants. *)
Definition at_rest (drawn : list (BufferId * PtySize)) (s : PtySizeSync) : Prop :=
  ps_reclaim s = false ∧
  ∀ b z, (b, z) ∈ drawn → ps_wanted s !! b = Some z ∧ ps_failed s !! b = None.
Definition unfailed (drawn : list (BufferId * PtySize)) (s : PtySizeSync) : Prop :=
  ∀ b, b ∈ drawn.*1 → ps_failed s !! b = None.
Definition targets_in (sizes : gmap BufferId PtySize) (drawn : list (BufferId * PtySize)) : list Target :=
  (λ bz, mkTarget bz.1 bz.2 (default bz.2 (sizes !! bz.1))) <$> drawn.

Lemma targets_buffers sizes drawn : tg_buffer <$> targets_in sizes drawn = drawn.*1.
Proof. unfold targets_in. by rewrite <-list_fmap_compose. Qed.
Lemma asked_none now s ts : (∀ t, t ∈ ts → asks now s t = false) → asked now s ts = [].
Proof.
  induction ts as [|t ts IH]; intros H; [done|]. unfold asked. cbn. rewrite H by by left.
  apply IH. intros. apply H. by right.
Qed.
Lemma elem_of_asked now s ts b z :
  (b, z) ∈ asked now s ts ↔ ∃ t, t ∈ ts ∧ asks now s t = true ∧ tg_buffer t = b ∧ tg_wanted t = z.
Proof.
  unfold asked. rewrite list_elem_of_omap. split.
  - intros (t & Ht & He). exists t. destruct (asks now s t); naive_solver.
  - intros (t & Ht & He & <- & <-). exists t. by rewrite He.
Qed.
Lemma matches_server_refl z : matches_server z z = true.
Proof. unfold matches_server. destruct (cell_size z); [by apply bool_decide_true|by rewrite !N.eqb_refl]. Qed.
Lemma matches_server_sizes cur z : matches_server cur z = true →
  cols cur = cols z ∧ rows cur = rows z ∧ (cur = z ∨ cell_size cur = None).
Proof.
  unfold matches_server. destruct (cell_size cur).
  - intros ->%bool_decide_eq_true. auto.
  - intros [?%N.eqb_eq ?%N.eqb_eq]%andb_true_iff. auto.
Qed.
Lemma unfailed_failure now s t : ps_failed s !! tg_buffer t = None → (failure_of now t s).1 = FailureNone.
Proof. intros H. unfold failure_of. by rewrite H. Qed.

Lemma sync_settles drawn sizes now s :
  NoDup drawn.*1 → unfailed drawn s → at_rest drawn (plan_targets (targets_in sizes drawn) now s).2.
Proof.
  intros Hd Hf. pose proof (plan_targets_spec (targets_in sizes drawn) now s) as H.
  rewrite targets_buffers in H. specialize (H Hd).
  destruct (plan_targets _ now s) as [r s']. destruct H as (_ & Hr & Hseen & _).
  split; [done|]. intros b z Hb. cbn [snd].
  destruct (Hseen (mkTarget b z (default z (sizes !! b)))) as (Hw & Hfail & _).
  { apply list_elem_of_fmap. by exists (b, z). }
  unfold waits in *. rewrite unfailed_failure in * by (apply Hf, list_elem_of_fmap; by exists (b, z)). done.
Qed.
Lemma settled_sync_quiet drawn sizes now s :
  NoDup drawn.*1 → at_rest drawn s → (plan_targets (targets_in sizes drawn) now s).1 = [].
Proof.
  intros Hd [Hr Hs]. pose proof (plan_targets_spec (targets_in sizes drawn) now s) as H.
  rewrite targets_buffers in H. specialize (H Hd). destruct (plan_targets _ now s) as [r s'].
  destruct H as [-> _]. apply asked_none. intros t ([b z] & -> & Hb)%list_elem_of_fmap.
  destruct (Hs b z Hb) as [Hw Hf]. unfold asks, waits, retries. rewrite unfailed_failure by done. cbn.
  rewrite Hw, Hr. cbn. by rewrite bool_decide_true.
Qed.

(** The server's sizes, and the clients; a client's requests are carried out. *)
Record World : Type := mkWorld { w_sizes : gmap BufferId PtySize; w_clients : gmap N PtySizeSync }.

Section world.
(** What each client draws. *)
Context (drawn : N → list (BufferId * PtySize)).

Definition apply_resizes (resizes : list (BufferId * PtySize)) (sizes : gmap BufferId PtySize)
    : gmap BufferId PtySize :=
  foldl (λ m bz, <[bz.1 := bz.2]> m) sizes resizes.
Definition sync (i now : N) (w : World) : World :=
  match w_clients w !! i with
  | Some s =>
      let '(resizes, s') := plan_targets (targets_in (w_sizes w) (drawn i)) now s in
      mkWorld (apply_resizes resizes (w_sizes w)) (<[i := s']> (w_clients w))
  | None => w
  end.
Definition syncs (l : list (N * N)) (w : World) : World := foldl (λ w e, sync e.1 e.2 w) w l.
Definition user_input (i : N) (w : World) : World :=
  mkWorld (w_sizes w) (alter note_user_activity i (w_clients w)).
Definition all_at_rest (w : World) : Prop :=
  ∀ i s, w_clients w !! i = Some s → NoDup (drawn i).*1 ∧ at_rest (drawn i) s.

Lemma sync_quiet i now w : all_at_rest w → w_sizes (sync i now w) = w_sizes w ∧ all_at_rest (sync i now w).
Proof.
  intros H. unfold sync. destruct (w_clients w !! i) as [s|] eqn:Hi; [|done].
  destruct (H i s Hi) as [Hd Hs].
  pose proof (settled_sync_quiet _ (w_sizes w) now s Hd Hs) as Hq.
  pose proof (sync_settles _ (w_sizes w) now s Hd) as Hn.
  destruct (plan_targets _ now s) as [r s']. cbn in *. subst. split; [done|].
  intros j s2. cbn. destruct (decide (j = i)) as [->|].
  - rewrite lookup_insert_eq. intros [= <-]. split; [done|]. apply Hn.
    intros b ([b' z] & -> & Hb)%list_elem_of_fmap. by apply (proj2 Hs b' z).
  - rewrite lookup_insert_ne by done. apply H.
Qed.
Lemma syncs_quiet l w : all_at_rest w → w_sizes (syncs l w) = w_sizes w ∧ all_at_rest (syncs l w).
Proof.
  revert w. induction l as [|[i now] l IH]; intros w H; [done|]. cbn.
  destruct (sync_quiet i now w H) as [Hw Hs]. destruct (IH _ Hs) as [Hl ?]. split; [|done].
  by rewrite <-Hw.
Qed.

Lemma apply_resizes_lookup resizes sizes b :
  NoDup resizes.*1 →
  apply_resizes resizes sizes !! b =
    match (list_to_map resizes : gmap BufferId PtySize) !! b with Some z => Some z | None => sizes !! b end.
Proof.
  revert sizes. induction resizes as [|[b' z] l IH]; intros sizes Hd; [done|].
  apply NoDup_cons in Hd as [Hb Hd].
  change (apply_resizes ((b', z) :: l) sizes) with (apply_resizes l (<[b' := z]> sizes)).
  rewrite IH by done. cbn. destruct (decide (b' = b)) as [->|].
  - by rewrite lookup_insert_eq, not_elem_of_list_to_map_1, lookup_insert_eq.
  - by rewrite !lookup_insert_ne.
Qed.

Lemma asked_keys_NoDup now s ts : NoDup (tg_buffer <$> ts) → NoDup (asked now s ts).*1.
Proof.
  induction ts as [|t ts IH]; intros Hd; [constructor|]. rewrite fmap_cons in Hd.
  apply NoDup_cons in Hd as [Ht Hd]. unfold asked. cbn. destruct (asks now s t); [|by apply IH].
  cbn. apply NoDup_cons. split; [|by apply IH]. intros ([b z] & He & Hb)%list_elem_of_fmap.
  apply elem_of_asked in Hb as (t' & Ht' & _ & Hbt & _). apply Ht, list_elem_of_fmap.
  exists t'. split; [|done]. cbn in He. congruence.
Qed.
(** What an active client asks for is what does not match. *)
Lemma active_asks sizes now s i b z cur :
  at_rest (drawn i) s → (b, z) ∈ drawn i → (sizes : gmap BufferId PtySize) !! b = Some cur →
  asks now (note_user_activity s) (mkTarget b z (default z (sizes !! b))) = negb (matches_server cur z).
Proof.
  intros [_ Hs] Hb Hcur. destruct (Hs b z Hb) as [Hw Hf]. unfold asks, waits.
  rewrite unfailed_failure by done. rewrite Hcur. cbn. by rewrite Hw.
Qed.
Lemma asked_drawn now s sizes i b z :
  (b, z) ∈ asked now s (targets_in sizes (drawn i)) ↔
  (b, z) ∈ drawn i ∧ asks now s (mkTarget b z (default z (sizes !! b))) = true.
Proof.
  rewrite elem_of_asked. split.
  - intros (t & ([b' z'] & -> & Hin)%list_elem_of_fmap & Ha & Hb & Hz). cbn in Hb, Hz. by subst.
  - intros [Hin Ha]. eexists. split; [|by rewrite Ha]. apply list_elem_of_fmap. by exists (b, z).
Qed.
Lemma resized sizes now s i b z cur :
  NoDup (drawn i).*1 → at_rest (drawn i) s → (b, z) ∈ drawn i → sizes !! b = Some cur →
  let r := asked now (note_user_activity s) (targets_in sizes (drawn i)) in
  apply_resizes r sizes !! b = Some (if matches_server cur z then cur else z).
Proof.
  intros Hd Hs Hb Hcur. cbv zeta. pose proof (active_asks sizes now s i b z cur Hs Hb Hcur) as Ha.
  assert (NoDup (asked now (note_user_activity s) (targets_in sizes (drawn i))).*1) as Hnd
    by (apply asked_keys_NoDup; by rewrite targets_buffers).
  rewrite apply_resizes_lookup by done. destruct (matches_server cur z) eqn:Hm.
  - rewrite not_elem_of_list_to_map_1; [done|].
    intros ([b' z'] & -> & [Hin Hask]%asked_drawn)%list_elem_of_fmap. cbn in *.
    assert (z' = z) as -> by (destruct (proj2 Hs _ _ Hin), (proj2 Hs _ _ Hb); congruence).
    by rewrite Ha in Hask.
  - rewrite (elem_of_list_to_map_1 _ b z); [done|done|]. by apply asked_drawn.
Qed.
Lemma not_resized sizes now s i b :
  NoDup (drawn i).*1 → b ∉ (drawn i).*1 →
  apply_resizes (asked now s (targets_in sizes (drawn i))) sizes !! b = sizes !! b.
Proof.
  intros Hd Hb. rewrite apply_resizes_lookup by (apply asked_keys_NoDup; by rewrite targets_buffers).
  rewrite not_elem_of_list_to_map_1; [done|]. intros ([b' z'] & -> & [Hin _]%asked_drawn)%list_elem_of_fmap.
  apply Hb, list_elem_of_fmap. by exists (b', z').
Qed.
Lemma user_input_sync w i s now :
  NoDup (drawn i).*1 → w_clients w !! i = Some s →
  sync i now (user_input i w) =
    mkWorld (apply_resizes (asked now (note_user_activity s) (targets_in (w_sizes w) (drawn i))) (w_sizes w))
      (<[i := (plan_targets (targets_in (w_sizes w) (drawn i)) now (note_user_activity s)).2]>
         (w_clients (user_input i w))).
Proof.
  intros Hd Hi. unfold sync, user_input. cbn [w_clients w_sizes]. rewrite lookup_alter_eq, Hi.
  cbn [fmap option_fmap option_map].
  pose proof (plan_targets_spec (targets_in (w_sizes w) (drawn i)) now (note_user_activity s)) as Hp.
  rewrite targets_buffers in Hp. specialize (Hp Hd). destruct (plan_targets _ now _) as [r s'].
  by destruct Hp as (-> & _).
Qed.
Lemma active_sync_settles w i s now :
  all_at_rest w → w_clients w !! i = Some s → all_at_rest (sync i now (user_input i w)).
Proof.
  intros H Hi. destruct (H i s Hi) as [Hd Hs]. rewrite (user_input_sync w i s now Hd Hi).
  intros j s2. cbn [w_clients]. destruct (decide (j = i)) as [->|].
  - rewrite lookup_insert_eq. intros [= <-]. split; [done|]. apply sync_settles; [done|].
    intros b ([b' z] & -> & Hb)%list_elem_of_fmap. by apply (proj2 Hs b' z).
  - unfold user_input. cbn [w_clients]. rewrite lookup_insert_ne, lookup_alter_ne by done. apply H.
Qed.
End world.

(** C26: clients that have drawn their panes at the sizes they want leave the sizes of the
    server as they are, however often and in whatever order they draw, so that two of them do
    not resize a shared pane in turn; after input from its user a client's next drawing takes
    its panes back to its own sizes and touches no others, and then all are at rest again.
    Own size means the columns and rows the client wants, and the pixels too unless the
    server has none for the pane. *)
Theorem active_client_wins drawn w i s now :
  all_at_rest drawn w → w_clients w !! i = Some s →
  (∀ b, b ∈ (drawn i).*1 → is_Some (w_sizes w !! b)) →
  let w' := sync drawn i now (user_input i w) in
  (∀ l, w_sizes (syncs drawn l w) = w_sizes w)
  ∧ (∀ b z, (b, z) ∈ drawn i → ∃ cur, w_sizes w' !! b = Some cur ∧ cols cur = cols z ∧ rows cur = rows z
       ∧ (cur = z ∨ cell_size cur = None))
  ∧ (∀ b, b ∉ (drawn i).*1 → w_sizes w' !! b = w_sizes w !! b)
  ∧ ∀ l, w_sizes (syncs drawn l w') = w_sizes w'.
Proof.
  intros H Hi Hknown. cbv zeta. split; [intros l; by apply syncs_quiet|].
  destruct (H i s Hi) as [Hd Hs]. pose proof (active_sync_settles drawn w i s now H Hi) as Hn.
  split; [|split; [|intros l; by apply syncs_quiet]]; rewrite (user_input_sync drawn w i s now Hd Hi);
    cbn [w_sizes].
  - intros b z Hb. destruct (Hknown b) as [cur Hcur]; [apply list_elem_of_fmap; by exists (b, z)|].
    eexists. split; [by apply (resized drawn _ now s i b z cur)|].
    destruct (matches_server cur z) eqn:Hm; [by apply matches_server_sizes|by auto].
  - intros b Hb. by apply not_resized.
Qed.

(** Two clients show pane 1 at different sizes; the second has just taken it, and types. *)
Definition two_screens (i : N) : list (BufferId * PtySize) :=
  if (i =? 1)%N then [(1%N, PtySize_new 80 24); (2%N, PtySize_new 80 10)]
  else if (i =? 2)%N then [(1%N, PtySize_new 100 30)] else [].
Definition two_clients : World :=
  syncs two_screens [(1, 0); (2, 5)]%N
    (mkWorld {[1%N := PtySize_new 80 24; 2%N := PtySize_new 80 24]}
       {[1%N := PtySizeSync_default; 2%N := PtySizeSync_default]}).
Lemma two_clients_settled : all_at_rest two_screens two_clients.
Proof.
  assert (map_Forall (λ i s, NoDup (two_screens i).*1 ∧ ps_reclaim s = false ∧
    Forall (λ bz, ps_wanted s !! bz.1 = Some bz.2 ∧ ps_failed s !! bz.1 = None) (two_screens i))
    (w_clients two_clients)) as H by (eapply bool_decide_unpack; vm_compute; exact I).
  intros i s Hi. destruct (H i s Hi) as (Hd & Hr & Hf). split; [done|]. split; [done|].
  intros b z Hb. rewrite Forall_forall in Hf. by apply (Hf (b, z)).
Qed.
Lemma active_client_wins_witness :
  ∃ s, w_sizes (sync two_screens 1 9 (user_input 1 two_clients)) !! 1%N = Some (PtySize_new 80 24)
    ∧ w_sizes two_clients !! 1%N = Some (PtySize_new 100 30)
    ∧ w_clients two_clients !! 1%N = Some s
    ∧ ∀ l, w_sizes (syncs two_screens l two_clients) = w_sizes two_clients.
Proof.
  eexists. split; [vm_compute; reflexivity|]. split; [vm_compute; reflexivity|].
  split; [vm_compute; reflexivity|].
  refine (proj1 (active_client_wins two_screens two_clients 1 _ 9 two_clients_settled _ _)).
  - vm_compute. reflexivity.
  - intros b Hb. cbv in Hb. apply elem_of_cons in Hb as [->|[->|[]%elem_of_nil]%elem_of_cons];
      vm_compute; eauto.
Defined.

(** A request that failed is made again when a second has passed, if it is still needed and
    the server still has the size it had; before that nothing is asked for the pane. *)
Lemma failed_resize_retried ts now s t now' t' :
  NoDup (tg_buffer <$> ts) → t ∈ ts → asks now s t = true →
  tg_buffer t' = tg_buffer t → tg_wanted t' = tg_wanted t →
  asks now' (resize_failed (tg_buffer t) (plan_targets ts now s).2) t' =
    bool_decide (tg_current t' = tg_current t) && (RETRY_INTERVAL <=? now' - now)%N
    && negb (matches_server (tg_current t') (tg_wanted t')).
Proof.
  intros Hd Ht Ha Hb Hw. pose proof (plan_targets_spec ts now s Hd) as H.
  destruct (plan_targets ts now s) as [r s']. destruct H as (_ & Hr & Hseen & _). cbn [snd].
  destruct (Hseen t Ht) as (Hwant & _ & Hplanned). rewrite Ha in Hplanned.
  assert (waits now s t = false) as Hwaits.
  { unfold asks in Ha. by destruct (waits now s t). }
  rewrite Hwaits in Hwant. unfold resize_failed. rewrite Hplanned.
  unfold asks, waits, retries, failure_of. cbn [ps_failed ps_wanted ps_reclaim].
  rewrite Hb, lookup_insert_eq, Hwant, Hr, Hw. cbn [at_server_size at_planned_at].
  rewrite (bool_decide_ext (tg_current t = tg_current t') (tg_current t' = tg_current t)) by done.
  destruct (bool_decide (tg_current t' = tg_current t)); cbn.
  - rewrite N.ltb_antisym. destruct (RETRY_INTERVAL <=? now' - now)%N; cbn; done.
  - by rewrite bool_decide_true.
Qed.
