(* ===== verification/CopyMode.v ===== *)
(** Moving the copy mode cursor, [crates/embers-client/src/copy_mode.rs], over the text of a
    buffer: motions, jumps to characters, words under the mouse, search matches, clicks and
    counts. Then what motions reach: words are found as a search of all positions finds them,
    and the cursor stays in the text and in view. *)

From S2P Require Import Prelude Core Model ClientState.

Definition MAX_COUNT : N := 99999.
(** In milliseconds, as the instants below. *)
Definition MULTI_CLICK_INTERVAL : N := 300.

Inductive CopyMotion : Set :=
  | MLeft | MRight | MUp | MDown | MNextWord | MPreviousWord | MNextWordEnd | MNextSpace
  | MPreviousSpace | MNextSpaceEnd | MStartOfLine | MBackToIndentation | MEndOfLine | MHistoryTop
  | MHistoryBottom | MTopLine | MMiddleLine | MBottomLine | MPreviousParagraph | MNextParagraph
  | MHalfPageUp | MHalfPageDown | MPageUp | MPageDown.
Definition motion_needs_text (m : CopyMotion) : bool :=
  match m with
  | MNextWord | MPreviousWord | MNextWordEnd | MNextSpace | MPreviousSpace | MNextSpaceEnd
  | MBackToIndentation | MEndOfLine | MPreviousParagraph | MNextParagraph => true
  | _ => false
  end.
Definition motion_repeats (m : CopyMotion) : bool :=
  match m with
  | MStartOfLine | MBackToIndentation | MEndOfLine | MHistoryTop | MHistoryBottom | MTopLine
  | MMiddleLine | MBottomLine => false
  | _ => true
  end.
Inductive JumpKind : Set := JumpForward | JumpBackward | JumpToForward | JumpToBackward.
Definition JumpKind_reversed (k : JumpKind) : JumpKind :=
  match k with
  | JumpForward => JumpBackward
  | JumpBackward => JumpForward
  | JumpToForward => JumpToBackward
  | JumpToBackward => JumpToForward
  end.

Record CopyViewport : Set := mkCopyViewport { cv_top : N; cv_rows : N; cv_total : N; cv_cols : N }.
Definition last_line (v : CopyViewport) : N := cv_total v - 1.
Definition bottom_top (v : CopyViewport) : N := cv_total v - cv_rows v.
Definition reveal (v : CopyViewport) (top line : N) : N :=
  let rows := N.max (cv_rows v) 1 in
  let top := if (line <? top)%N then line
             else if (sat_add64 top rows <=? line)%N then (line - (rows - 1))%N
             else top in
  N.min top (bottom_top v).
Definition page_delta (m : CopyMotion) (rows : N) : N :=
  let rows := N.max rows 1 in
  match m with
  | MHalfPageUp | MHalfPageDown => N.max (rows / 2)%N 1
  | _ => rows
  end.

Inductive CharClass : Set := CBlank | CSeparator | CWord.
#[export] Instance CharClass_eq_dec : EqDecision CharClass.
Proof. solve_decision. Defined.
Definition is_ascii_punctuation (c : N) : bool :=
  (((33 <=? c) && (c <=? 47)) || ((58 <=? c) && (c <=? 64)) || ((91 <=? c) && (c <=? 96))
   || ((123 <=? c) && (c <=? 126)))%N.
Definition class_of (text : rstring) (space_separated : bool) : CharClass :=
  match text with
  | [] => CBlank
  | ch :: _ =>
      if is_whitespace ch then CBlank
      else if negb space_separated && is_ascii_punctuation ch && negb (ch =? 95)%N then CSeparator
      else CWord
  end.

Record Cell : Type := mkCell { c_column : N; c_width : N; c_text : rstring }.
(** The cell covering a column, or the number of cells. *)
Definition cell_index (cells : list Cell) (column : N) : nat :=
  default (length cells)
    (position (λ c, column <? sat_add16 (c_column c) (c_width c))%N cells).
Definition last_column (cells : list Cell) : N :=
  match last cells with Some c => c_column c | None => 0%N end.

Definition point_at (line column : N) : SelectionPoint := mkSelectionPoint line column.

Section text.
(** The crates [unicode_segmentation] and [unicode_width]. *)
Context (graphemes : rstring → list rstring) (str_width : rstring → N).

Fixpoint cells_from (column : N) (l : list rstring) : list Cell :=
  match l with
  | [] => []
  | text :: l =>
      let width := N.max (N.min (str_width text) u16_max) 1 in
      mkCell column width text :: cells_from (sat_add16 column width) l
  end.
Definition cells (line : rstring) : list Cell := cells_from 0 (graphemes line).

(** ** Jumps, words under the mouse and matches *)

(** [range.find(p)] on indexes in a list. *)
Definition is_target (target : N) (cs : list Cell) (i : nat) : bool :=
  match cs !! i with Some c => bool_decide (c_text c = [target]) | None => false end.
Definition jump (kind : JumpKind) (target : N) (cursor : SelectionPoint) (line : rstring) (repeat : bool)
    : outcome (option N) :=
  let cs := cells line in
  let index := Nat.min (cell_index cs (sp_column cursor)) (length cs) in
  let skip := if repeat then 1 else 0 in
  let found :=
    match kind with
    | JumpForward => find_first (is_target target cs) (seq (index + 1) (length cs - (index + 1)))
    | JumpToForward =>
        pred <$> find_first (is_target target cs) (seq (index + 1 + skip) (length cs - (index + 1 + skip)))
    | JumpBackward => find_first (is_target target cs) (reverse (seq 0 index))
    | JumpToBackward => S <$> find_first (is_target target cs) (reverse (seq 0 (index - skip)))
    end in
  match found with
  | None => Ok None
  | Some found => c ← vec_index found cs; Ok (Some (c_column c))
  end.

Definition class_in (ss : bool) (cs : list Cell) (i : nat) : CharClass :=
  match cs !! i with Some c => class_of (c_text c) ss | None => CBlank end.
(** [while i > 0 && p(i - 1) { i -= 1 }] *)
Fixpoint retreat (p : nat → bool) (i : nat) : nat :=
  match i with
  | 0 => 0
  | S j => if p j then retreat p j else i
  end.
(** [while p(i + 1) { i += 1 }] *)
Fixpoint advance (fuel : nat) (p : nat → bool) (i : nat) : outcome nat :=
  match fuel with
  | 0 => OutOfFuel
  | S fuel => if p (i + 1) then advance fuel p (i + 1) else Ok i
  end.
Definition column_of (cs : list Cell) (i : nat) : N :=
  match cs !! i with Some c => c_column c | None => 0%N end.
Definition word_bounds (line : rstring) (column : N) : outcome (option (N * N)) :=
  let cs := cells line in
  let index := cell_index cs column in
  match cs !! index with
  | None => Ok None
  | Some c =>
      let class := class_of (c_text c) false in
      let same i := bool_decide (class_in false cs i = class) in
      let start := retreat same index in
      stop ← advance (length cs) (λ i, (i <? length cs) && same i) index;
      start ← vec_index start cs;
      stop ← vec_index stop cs;
      Ok (Some (c_column start, c_column stop))
  end.

Definition point_lt (a b : N * N) : bool :=
  ((a.1 <? b.1) || ((a.1 =? b.1) && (a.2 <? b.2)))%N.
(** [iter().rposition(p)] *)
Definition rposition {A} (p : A → bool) (l : list A) : option nat :=
  (λ i, length l - 1 - i) <$> position p (reverse l).
Definition next_match_index (matches : list SearchMatch) (cursor : SelectionPoint) (forward : bool)
    : option nat :=
  let at_ m := (sm_line m, sm_start_column m) in
  let cursor := (sp_line cursor, sp_column cursor) in
  match matches with
  | [] => None
  | _ =>
      if forward then Some (default 0 (position (λ m, point_lt cursor (at_ m)) matches))
      else Some (default (length matches - 1) (rposition (λ m, point_lt (at_ m) cursor) matches))
  end.

(** ** The walker *)

Section walk.
Context (lines : list rstring) (last : N) (ss : bool).

Definition line_text (line : N) : rstring := default [] (lines !! N.to_nat line).
Definition line_cells (line : N) : list Cell := cells (line_text line).

Record Walker : Type := mkWalker { w_line : N; w_index : nat }.
Definition Walker_new (at_ : SelectionPoint) : Walker :=
  let line := N.min (sp_line at_) last in
  mkWalker line (cell_index (line_cells line) (sp_column at_)).
Definition w_cells (w : Walker) : list Cell := line_cells (w_line w).
Definition w_class_at (w : Walker) (index : nat) : CharClass := class_in ss (w_cells w) index.
Definition w_class (w : Walker) : CharClass := w_class_at w (w_index w).
Definition on_empty_line (w : Walker) : bool := match w_cells w with [] => true | _ => false end.
(** The walker after the step, [None] for [false]. *)
Definition w_forward (w : Walker) : option Walker :=
  if w_index w <? length (w_cells w) then Some (mkWalker (w_line w) (S (w_index w)))
  else if (w_line w <? last)%N then Some (mkWalker (w_line w + 1) 0)
  else None.
Definition w_backward (w : Walker) : option Walker :=
  match w_index w with
  | S i => Some (mkWalker (w_line w) i)
  | 0 => if (0 <? w_line w)%N
         then Some (mkWalker (w_line w - 1) (length (line_cells (w_line w - 1)))) else None
  end.
Definition w_point (w : Walker) : SelectionPoint :=
  let cs := w_cells w in
  point_at (w_line w) (column_of cs (Nat.min (w_index w) (length cs - 1))).

(** [while p(walker) { if !walker.step() { return walker.point() } }]: where the loop ends,
    and whether it ended because there was no step. *)
Fixpoint walk_while (fuel : nat) (step : Walker → option Walker) (p : Walker → bool) (w : Walker)
    : outcome (Walker * bool) :=
  match fuel with
  | 0 => OutOfFuel
  | S fuel =>
      if p w then
        match step w with
        | Some w => walk_while fuel step p w
        | None => Ok (w, true)
        end
      else Ok (w, false)
  end.
(** The cells of a line and its virtual end, and those of the first [n] lines. *)
Definition line_positions (line : N) : list Walker :=
  mkWalker line <$> seq 0 (S (length (line_cells line))).
Definition positions (n : nat) : list Walker :=
  concat ((λ i, line_positions (N.of_nat i)) <$> seq 0 n).
Definition walk_budget : nat := S (length (positions (S (N.to_nat last)))).
Definition blank_here (w : Walker) : bool := bool_decide (w_class w = CBlank) && negb (on_empty_line w).

Definition next_word_start (at_ : SelectionPoint) : outcome SelectionPoint :=
  let w := Walker_new at_ in
  let start := w_class w in
  match w_forward w with
  | None => Ok (w_point w)
  | Some w =>
      '(w, stuck) ← (if bool_decide (start = CBlank) then Ok (w, false)
                     else walk_while walk_budget w_forward (λ w, bool_decide (w_class w = start)) w);
      if stuck : bool then Ok (w_point w)
      else
        '(w, _) ← walk_while walk_budget w_forward blank_here w;
        Ok (w_point w)
  end.
Definition next_word_end (at_ : SelectionPoint) : outcome SelectionPoint :=
  let w := Walker_new at_ in
  match w_forward w with
  | None => Ok (w_point w)
  | Some w =>
      '(w, stuck) ← walk_while walk_budget w_forward (λ w, bool_decide (w_class w = CBlank)) w;
      if stuck : bool then Ok (w_point w)
      else
        index ← advance walk_budget (λ i, bool_decide (w_class_at w i = w_class w)) (w_index w);
        Ok (w_point (mkWalker (w_line w) index))
  end.
Definition previous_word_start (at_ : SelectionPoint) : outcome SelectionPoint :=
  let w := Walker_new at_ in
  match w_backward w with
  | None => Ok (w_point w)
  | Some w =>
      '(w, stuck) ← walk_while walk_budget w_backward blank_here w;
      if stuck : bool then Ok (w_point w)
      else if on_empty_line w then Ok (w_point w)
      else
        Ok (w_point (mkWalker (w_line w)
              (retreat (λ i, bool_decide (w_class_at w i = w_class w)) (w_index w))))
  end.

(** ** Paragraphs *)

Definition is_blank_line (line : N) : bool := match trim (line_text line) with [] => true | _ => false end.
(** [while p(line) { line -= 1 }] with [p] false of 0, and [while p(line) { line += 1 }]. *)
Fixpoint lines_up (n : nat) : bool * nat :=
  match n with
  | 0 => (false, 0)
  | S m => if is_blank_line (N.of_nat m) then (true, m) else lines_up m
  end.
Fixpoint blank_run_up (n : nat) : nat :=
  match n with
  | 0 => 0
  | S m => if is_blank_line (N.of_nat n) then blank_run_up m else n
  end.
Definition previous_paragraph (cursor : SelectionPoint) : SelectionPoint :=
  let line := blank_run_up (N.to_nat (sp_line cursor)) in
  match lines_up line with
  | (true, line) => point_at (N.of_nat line) 0
  | (false, _) => point_at 0 0
  end.
Fixpoint blank_run_down (fuel : nat) (line : N) : outcome N :=
  match fuel with
  | 0 => OutOfFuel
  | S fuel =>
      if ((line <? last)%N && is_blank_line line) then blank_run_down fuel (line + 1) else Ok line
  end.
Fixpoint next_blank (fuel : nat) (line : N) : outcome (option N) :=
  match fuel with
  | 0 => OutOfFuel
  | S fuel =>
      if (line <? last)%N then
        if is_blank_line (line + 1) then Ok (Some (line + 1)%N) else next_blank fuel (line + 1)
      else Ok None
  end.
Definition next_paragraph (cursor : SelectionPoint) : outcome SelectionPoint :=
  let fuel := S (N.to_nat last) in
  line ← blank_run_down fuel (sp_line cursor);
  found ← next_blank fuel line;
  Ok (match found with
      | Some line => point_at line 0
      | None => point_at last (last_column (line_cells last))
      end).
End walk.

(** ** Applying a motion *)

Record MotionOutcome : Type := mkMotionOutcome { mo_cursor : SelectionPoint; mo_top : N }.
Definition with_column (column : N) (p : SelectionPoint) : SelectionPoint := point_at (sp_line p) column.
Definition with_line (line : N) (p : SelectionPoint) : SelectionPoint := point_at line (sp_column p).
Definition apply_motion (m : CopyMotion) (cursor : SelectionPoint) (v : CopyViewport)
    (lines : list rstring) : outcome MotionOutcome :=
  let last := last_line v in
  let top := cv_top v in
  let delta := page_delta m (cv_rows v) in
  let here := cells (line_text lines (sp_line cursor)) in
  let stay c := Ok (c, top) in
  let read (o : outcome SelectionPoint) := c ← o; Ok (c, top) in
  '(cursor, top) ←
    match m with
    | MLeft => stay (with_column (sp_column cursor - 1) cursor)
    | MRight => stay (with_column (N.min (sat_add16 (sp_column cursor) 1) (cv_cols v - 1)) cursor)
    | MUp => stay (with_line (sp_line cursor - 1) cursor)
    | MDown => stay (with_line (N.min (sat_add64 (sp_line cursor) 1) last) cursor)
    | MNextWord => read (next_word_start lines last false cursor)
    | MNextSpace => read (next_word_start lines last true cursor)
    | MPreviousWord => read (previous_word_start lines last false cursor)
    | MPreviousSpace => read (previous_word_start lines last true cursor)
    | MNextWordEnd => read (next_word_end lines last false cursor)
    | MNextSpaceEnd => read (next_word_end lines last true cursor)
    | MStartOfLine => stay (with_column 0 cursor)
    | MBackToIndentation =>
        let found := find_first (λ c, negb (bool_decide (class_of (c_text c) true = CBlank))) here in
        stay (with_column (match found with Some c => c_column c | None => 0%N end) cursor)
    | MEndOfLine => stay (with_column (last_column here) cursor)
    | MHistoryTop => stay (point_at 0 0)
    | MHistoryBottom => stay (point_at last 0)
    | MTopLine => stay (point_at top 0)
    | MMiddleLine =>
        stay (point_at (N.min (sat_add64 top ((N.max (cv_rows v) 1 - 1) / 2)) last) 0)
    | MBottomLine => stay (point_at (N.min (sat_add64 top (N.max (cv_rows v) 1 - 1)) last) 0)
    | MPreviousParagraph => stay (previous_paragraph lines cursor)
    | MNextParagraph => read (next_paragraph lines last cursor)
    | MHalfPageUp | MPageUp =>
        Ok (with_line (sp_line cursor - delta) cursor, (top - delta)%N)
    | MHalfPageDown | MPageDown =>
        Ok (with_line (N.min (sat_add64 (sp_line cursor) delta) last) cursor,
            N.min (sat_add64 top delta) (bottom_top v))
    end;
  Ok (mkMotionOutcome cursor (reveal v top (sp_line cursor))).
End text.

(** ** Clicks and counts *)

(** The last press: pane, cell, instant and its count. *)
Record ClickTracker : Type := mkClickTracker { ct_last : option (NodeId * SelectionPoint * N * N) }.
Definition press (node_id : NodeId) (p : SelectionPoint) (now : N) (t : ClickTracker) : N * ClickTracker :=
  let count :=
    match ct_last t with
    | Some (last_node, last_point, at_, count) =>
        if ((last_node =? node_id) && (sp_line last_point =? sp_line p)
            && (sp_column last_point =? sp_column p) && (count <? 3)
            && (now - at_ <=? MULTI_CLICK_INTERVAL))%N
        then (count + 1)%N else 1%N
    | None => 1%N
    end in
  (count, mkClickTracker (Some (node_id, p, now, count))).

Record CapturedText : Type := mkCapturedText {
  cap_buffer_id : BufferId; cap_sequence : N; cap_lines : list rstring }.
Record MouseSelection : Type := mkMouseSelection {
  ms_node_id : NodeId; ms_anchor : SelectionPoint; ms_dragging : bool }.
Record CopyModeState : Type := mkCopyModeState {
  cm_pending_count : option N;
  cm_active_count : option N;
  cm_pending_jump : option (JumpKind * N);
  cm_last_jump : option (JumpKind * N);
  cm_search_backward : bool;
  cm_text : option CapturedText;
  cm_clicks : ClickTracker;
  cm_mouse : option MouseSelection;
  cm_exit_at_bottom : bool
}.
Definition set_counts (pending active : option N) (jump : option (JumpKind * N)) (s : CopyModeState)
    : CopyModeState :=
  mkCopyModeState pending active jump (cm_last_jump s) (cm_search_backward s) (cm_text s) (cm_clicks s)
    (cm_mouse s) (cm_exit_at_bottom s).
Definition push_count_digit (digit : N) (s : CopyModeState) : CopyModeState :=
  let count := N.min (N.min (default 0%N (cm_pending_count s) * 10) (u32_modulus - 1) + digit) (u32_modulus - 1) in
  set_counts (Some (N.min count MAX_COUNT)) (cm_active_count s) (cm_pending_jump s) s.
Definition take_count (s : CopyModeState) : N * CopyModeState :=
  (N.max (default 1%N (cm_active_count s)) 1,
   set_counts (cm_pending_count s) None (cm_pending_jump s) s).
Definition clear_pending_counts (s : CopyModeState) : CopyModeState := set_counts None None None s.

(** ** On concrete text

    One character is one column here. *)

Definition each_char (s : rstring) : list rstring := (λ c, [c]) <$> s.
Definition one_column (_ : rstring) : N := 1.
Definition motion_in (l : list rstring) (m : CopyMotion) (line column : N) : outcome (N * N) :=
  o ← apply_motion each_char one_column m (point_at line column)
        (mkCopyViewport 0 (N.of_nat (length l)) (N.of_nat (length l)) 80) l;
  Ok (sp_line (mo_cursor o), sp_column (mo_cursor o)).

Example word_stops :
  motion_in [lit "let x=foo(bar_baz);"] MNextWord 0 0 = Ok (0, 4)%N
  ∧ motion_in [lit "let x=foo(bar_baz);"] MNextWord 0 10 = Ok (0, 17)%N
  ∧ motion_in [lit "let x=foo(bar_baz);"] MNextWord 0 17 = Ok (0, 18)%N
  ∧ motion_in [lit "alpha beta"; lit "  gamma"] MNextWordEnd 0 6 = Ok (0, 9)%N
  ∧ motion_in [lit "alpha beta"; lit "  gamma"] MNextWordEnd 0 9 = Ok (1, 6)%N
  ∧ motion_in [lit "alpha beta"; lit "  gamma"] MPreviousWord 1 2 = Ok (0, 6)%N
  ∧ motion_in [lit "one"; []; lit "two"] MPreviousWord 2 0 = Ok (1, 0)%N
  ∧ motion_in [lit "one"; lit "two"; []; lit "   "; lit "three"; []; lit "four"] MNextParagraph 2 0
    = Ok (5, 0)%N
  ∧ motion_in [lit "one"; lit "two"; []; lit "   "; lit "three"; []; lit "four"] MPreviousParagraph 5 0
    = Ok (3, 0)%N
  ∧ motion_in [lit "ab"; lit "cd"] MNextWord 0 40 = Ok (1, 0)%N.
Proof. by vm_compute. Qed.
Example jumps :
  let j k t c r := jump each_char one_column k t (point_at 0 c) (lit "a,b,c") r in
  j JumpForward 44%N 0%N false = Ok (Some 1%N) ∧ j JumpToForward 99%N 0%N false = Ok (Some 3%N)
  ∧ j JumpBackward 44%N 4%N false = Ok (Some 3%N) ∧ j JumpToBackward 97%N 4%N false = Ok (Some 1%N)
  ∧ j JumpToBackward 44%N 4%N true = Ok (Some 2%N) ∧ j JumpToBackward 44%N 4%N false = Ok (Some 4%N)
  (* Past the end of the line, after a match on its last character. *)
  ∧ j JumpToBackward 99%N 9%N false = Panic.
Proof. by vm_compute. Qed.

(** ** Where words begin and end

    The positions of a text are its cells and, on each line, one past the last. A word motion
    is a search through the positions after the cursor, or before it. *)

(** The first position from [w] on, along [ws], where [stop] holds, or the last one. *)
Fixpoint until (stop : Walker → bool) (w : Walker) (ws : list Walker) : Walker :=
  match ws with
  | [] => w
  | x :: ws => if stop w then w else until stop x ws
  end.
Definition first_or_last (stop : Walker → bool) (w : Walker) (ws : list Walker) : Walker :=
  match find_first stop ws with Some q => q | None => default w (last ws) end.
Lemma until_first_or_last stop w x ws : until stop x ws = first_or_last stop w (x :: ws).
Proof.
  revert w x. induction ws as [|y ws IH]; intros w x; cbn.
  - unfold first_or_last. cbn. by destruct (stop x).
  - unfold first_or_last. cbn [find_first]. destruct (stop x); [done|]. rewrite (IH w).
    unfold first_or_last. cbn [find_first]. destruct (stop y); [done|].
    destruct (find_first stop ws); [done|]. rewrite !last_cons. by destruct (last ws).
Qed.

Section search.
Context (graphemes : rstring → list rstring) (str_width : rstring → N).
Context (lines : list rstring) (last : N) (ss : bool).
Notation w_cells := (w_cells graphemes str_width lines).
Notation w_class := (w_class graphemes str_width lines ss).
Notation w_class_at := (w_class_at graphemes str_width lines ss).
Notation w_forward := (w_forward graphemes str_width lines last).
Notation w_backward := (w_backward graphemes str_width lines).
Notation on_empty_line := (on_empty_line graphemes str_width lines).
Notation blank_here := (blank_here graphemes str_width lines ss).
Notation line_positions := (line_positions graphemes str_width lines).
Notation positions := (positions graphemes str_width lines).
Notation walk_budget := (walk_budget graphemes str_width lines last).

Definition positions_after (w : Walker) : list Walker :=
  (mkWalker (w_line w) <$> seq (S (w_index w)) (length (w_cells w) - w_index w))
  ++ concat ((λ i, line_positions (w_line w + N.of_nat i)%N) <$> seq 1 (N.to_nat (last - w_line w))).
(** The nearest first. *)
Definition positions_before (w : Walker) : list Walker :=
  reverse (positions (N.to_nat (w_line w)) ++ (mkWalker (w_line w) <$> seq 0 (w_index w))).

(** An empty line, or the first cell of a word. *)
Definition starts_word (w : Walker) : bool :=
  on_empty_line w ||
  (negb (bool_decide (w_class w = CBlank)) &&
   match w_index w with
   | 0 => true
   | S i => negb (bool_decide (w_class_at w i = w_class w))
   end).
Definition ends_word (w : Walker) : bool :=
  negb (bool_decide (w_class w = CBlank)) &&
  negb (bool_decide (w_class_at w (S (w_index w)) = w_class w)).

Definition in_text (w : Walker) : Prop := (w_line w ≤ last)%N ∧ w_index w ≤ length (w_cells w).
(** [reach] lists where [step] leads. *)
Definition leads (step : Walker → option Walker) (reach : Walker → list Walker) : Prop :=
  ∀ w, in_text w →
  match step w with
  | Some w' => in_text w' ∧ reach w = w' :: reach w'
  | None => reach w = []
  end.

Lemma forward_leads : leads w_forward positions_after.
Proof.
  intros [l i] [Hl Hi]. cbn [w_line w_index] in *. unfold w_forward. cbn [w_line w_index].
  destruct (Nat.ltb_spec i (length (w_cells (mkWalker l i)))) as [Hlt|Hge].
  - split; [split; cbn; [done|exact Hlt]|]. unfold positions_after. cbn [w_line w_index].
    change (w_cells (mkWalker l (S i))) with (w_cells (mkWalker l i)).
    replace (length (w_cells (mkWalker l i)) - i) with (S (length (w_cells (mkWalker l i)) - S i)) by lia.
    reflexivity.
  - unfold positions_after. cbn [w_line w_index].
    replace (length (w_cells (mkWalker l i)) - i) with 0 by lia.
    destruct (N.ltb_spec l last) as [Hlast|Hlast].
    + split; [split; cbn; lia|]. replace (N.to_nat (last - l)) with (S (N.to_nat (last - (l + 1)))) by lia.
      cbn [seq fmap list_fmap concat w_line w_index]. rewrite Nat.sub_0_r, <-seq_shift, <-list_fmap_compose.
      replace (l + N.of_nat 1)%N with (l + 1)%N by lia.
      change (line_positions (l + 1)) with
        (mkWalker (l + 1) 0 :: (mkWalker (l + 1) <$> seq 1 (length (w_cells (mkWalker (l + 1) 0))))).
      cbn [app]. f_equal. f_equal. f_equal. apply list_fmap_ext. intros _ k _. unfold compose. cbn [w_line]. f_equal. lia.
    + replace (N.to_nat (last - l)) with 0 by lia. done.
Qed.
Lemma positions_S n : positions (S n) = positions n ++ line_positions (N.of_nat n).
Proof.
  unfold CopyMode.positions. rewrite seq_S, fmap_app, concat_app. cbn. by rewrite app_nil_r.
Qed.
Lemma backward_leads : leads w_backward positions_before.
Proof.
  intros [l i] [Hl Hi]. cbn [w_line w_index] in *. unfold w_backward. cbn [w_line w_index].
  unfold positions_before. cbn [w_line w_index]. destruct i as [|i].
  - cbn [seq fmap list_fmap]. rewrite app_nil_r. destruct (N.ltb_spec 0 l) as [Hpos|Hpos].
    + split; [split; cbn; [lia|done]|]. replace (N.to_nat l) with (S (N.to_nat (l - 1))) by lia.
      rewrite positions_S, N2Nat.id. unfold CopyMode.line_positions. rewrite seq_S, fmap_app, app_assoc.
      cbn [fmap list_fmap]. by rewrite reverse_snoc.
    + by replace (N.to_nat l) with 0 by lia.
  - split; [split; [done|apply Nat.lt_le_incl, Hi]|]. rewrite seq_S, fmap_app, app_assoc. cbn [fmap list_fmap].
    by rewrite reverse_snoc.
Qed.

Lemma positions_length n k : length (positions (n + k)) =
  length (positions n) + length (concat ((λ i, line_positions (N.of_nat (n + i))) <$> seq 0 k)).
Proof.
  induction k as [|k IH]; [by rewrite !Nat.add_0_r|].
  rewrite Nat.add_succ_r, positions_S, length_app, IH, seq_S, fmap_app, concat_app, length_app. cbn.
  rewrite app_nil_r. lia.
Qed.
Lemma length_line_positions l i : length (line_positions l) = S (length (w_cells (mkWalker l i))).
Proof. unfold CopyMode.line_positions. by rewrite length_fmap, length_seq. Qed.
Lemma after_budget w : in_text w → length (positions_after w) < walk_budget.
Proof.
  destruct w as [l i]. intros [Hl Hi]. cbn [w_line w_index] in *. unfold CopyMode.walk_budget, positions_after.
  cbn [w_line w_index]. apply Nat.lt_succ_r.
  replace (S (N.to_nat last)) with (S (N.to_nat l) + N.to_nat (last - l)) by lia.
  rewrite positions_length, positions_S, !length_app, N2Nat.id.
  rewrite <-(seq_shift (N.to_nat (last - l)) 0), <-list_fmap_compose.
  assert ((λ k, line_positions (l + N.of_nat k)%N) ∘ S <$> seq 0 (N.to_nat (last - l)) =
    (λ k, line_positions (N.of_nat (S (N.to_nat l) + k))) <$> seq 0 (N.to_nat (last - l))) as ->.
  { apply list_fmap_ext. intros _ k _. unfold compose. f_equal. lia. }
  rewrite (length_line_positions l i), ?length_fmap, ?length_seq. lia.
Qed.
Lemma before_budget w : in_text w → length (positions_before w) < walk_budget.
Proof.
  destruct w as [l i]. intros [Hl Hi]. cbn [w_line w_index] in *. unfold CopyMode.walk_budget, positions_before.
  cbn [w_line w_index]. apply Nat.lt_succ_r. rewrite length_reverse, length_app, length_fmap, length_seq.
  replace (S (N.to_nat last)) with (S (N.to_nat l) + N.to_nat (last - l)) by lia.
  rewrite positions_length, positions_S, length_app, N2Nat.id.
  rewrite (length_line_positions l i), ?length_fmap, ?length_seq. lia.
Qed.

Lemma line_budget w : in_text w → length (w_cells w) - w_index w < walk_budget.
Proof.
  intros Hw. eapply Nat.le_lt_trans; [|by apply (after_budget w)].
  unfold positions_after. rewrite length_app, length_fmap, length_seq. lia.
Qed.

Lemma walk_until step reach p w fuel :
  leads step reach → in_text w → length (reach w) < fuel →
  let q := until (λ w, negb (p w)) w (reach w) in walk_while fuel step p w = Ok (q, p q).
Proof.
  intros Hl. revert w. induction fuel as [|fuel IH]; intros w Hw Hf; [lia|]. cbn [walk_while].
  pose proof (Hl w Hw) as Hs. destruct (step w) as [x|].
  - destruct Hs as [Hx Hr]. rewrite Hr in Hf |- *. cbn [until length] in *.
    destruct (p w) eqn:Hp; cbn [negb]; [|by rewrite Hp]. apply IH; [done|lia].
  - rewrite Hs. cbn [until]. by destruct (p w).
Qed.
Lemma until_in_text step reach stop w :
  leads step reach → in_text w → in_text (until stop w (reach w)).
Proof.
  intros Hl Hw. remember (reach w) as ws eqn:Hr. revert w Hw Hr.
  induction ws as [|x ws IH]; intros w Hw Hr; [done|]. cbn. destruct (stop w); [done|].
  pose proof (Hl w Hw) as Hs. destruct (step w) as [y|]; [|congruence]. destruct Hs as [Hy Hs].
  rewrite Hs in Hr. injection Hr as -> ->. by apply IH.
Qed.

(** Stepping within a line, and what is at its end. *)
Lemma past_end_blank w : length (w_cells w) ≤ w_index w → w_class w = CBlank.
Proof.
  intros H. unfold CopyMode.w_class, CopyMode.w_class_at, class_in. by rewrite (proj2 (lookup_ge_None _ _) H).
Qed.
Lemma word_inside w : w_class w ≠ CBlank → w_index w < length (w_cells w) ∧ on_empty_line w = false.
Proof.
  intros Hc. destruct (Nat.lt_ge_cases (w_index w) (length (w_cells w))) as [Hlt|Hge].
  - split; [done|]. unfold CopyMode.on_empty_line. destruct (w_cells w); [cbn in Hlt; lia|done].
  - by rewrite past_end_blank in Hc.
Qed.
Lemma empty_line_blank w : on_empty_line w = true → w_class w = CBlank.
Proof. intros H. destruct (decide (w_class w = CBlank)); [done|]. by destruct (word_inside w) as [_ ?]; [|congruence]. Qed.
Lemma word_forward w : w_class w ≠ CBlank → w_forward w = Some (mkWalker (w_line w) (S (w_index w))).
Proof.
  intros [Hc _]%word_inside. unfold CopyMode.w_forward. by rewrite (proj2 (Nat.ltb_lt _ _) Hc).
Qed.
(** A word starts where the class changes. *)
Lemma starts_word_after p x :
  in_text p → w_forward p = Some x →
  starts_word x = on_empty_line x ||
    (negb (bool_decide (w_class x = CBlank)) && negb (bool_decide (w_class p = w_class x))).
Proof.
  intros Hp Hx. unfold starts_word. f_equal. unfold CopyMode.w_forward in Hx.
  destruct (Nat.ltb_spec (w_index p) (length (w_cells p))) as [Hlt|Hge].
  - injection Hx as <-. reflexivity.
  - destruct (w_line p <? last)%N; [|done]. injection Hx as <-. cbn [w_index].
    rewrite (past_end_blank p Hge). destruct (decide (w_class (mkWalker (w_line p + 1) 0) = CBlank)) as [->|Hn].
    + by rewrite !bool_decide_true.
    + by rewrite !bool_decide_false.
Qed.

Lemma blank_here_spec w : blank_here w = bool_decide (w_class w = CBlank) && negb (on_empty_line w).
Proof. done. Qed.
Lemma blanks_then_word p x :
  in_text p → w_forward p = Some x → w_class p = CBlank ∨ w_class p ≠ w_class x →
  until (λ w, negb (blank_here w)) x (positions_after x) = until starts_word x (positions_after x).
Proof.
  intros Hp Hx Hc. remember (positions_after x) as ws eqn:Hws. revert p x Hp Hx Hc Hws.
  induction ws as [|y ws IH]; intros p x Hp Hx Hc Hws; [done|]. cbn.
  pose proof (forward_leads p Hp) as Hs. rewrite Hx in Hs. destruct Hs as [Hxt _].
  pose proof (forward_leads x Hxt) as Hs. destruct (w_forward x) as [y'|] eqn:Hy; [|congruence].
  destruct Hs as [_ Hs]. rewrite Hs in Hws. injection Hws as -> ->.
  rewrite (starts_word_after p x Hp Hx), blank_here_spec.
  destruct (on_empty_line x) eqn:He; [by rewrite andb_false_r|].
  destruct (decide (w_class x = CBlank)) as [Hb|Hb].
  - rewrite bool_decide_true by done. cbn. apply (IH x); [done|done|by left|done].
  - rewrite !bool_decide_false by (done || destruct Hc; congruence). done.
Qed.
Lemma word_then_blanks p x :
  in_text p → w_forward p = Some x → w_class p ≠ CBlank →
  let q := until (λ w, negb (bool_decide (w_class w = w_class p))) x (positions_after x) in
  (if decide (w_class q = w_class p) then q else until (λ w, negb (blank_here w)) q (positions_after q))
  = until starts_word x (positions_after x).
Proof.
  intros Hp Hx Hc. cbv zeta. remember (positions_after x) as ws eqn:Hws. revert p x Hp Hx Hc Hws.
  induction ws as [|y ws IH]; intros p x Hp Hx Hc Hws.
  - cbn. destruct (decide _); [done|]. by rewrite <-Hws.
  - pose proof (forward_leads p Hp) as Hs. rewrite Hx in Hs. destruct Hs as [Hxt _].
    pose proof (forward_leads x Hxt) as Hs. destruct (w_forward x) as [y'|] eqn:Hy; [|congruence].
    destruct Hs as [_ Hs]. rewrite Hs in Hws. injection Hws as -> ->. cbn [until].
    destruct (decide (w_class x = w_class p)) as [Heq|Hne].
    + rewrite (bool_decide_true (w_class x = w_class p)) by done. cbn [negb].
      rewrite (starts_word_after p x Hp Hx), (proj2 (word_inside x ltac:(congruence))).
      rewrite (bool_decide_true (w_class p = w_class x)), andb_false_r by done. cbn [orb].
      rewrite <-Heq. apply (IH x); [done|done|congruence|done].
    + rewrite (bool_decide_false (w_class x = w_class p)) by done. cbn [negb].
      rewrite decide_False by done. rewrite (blanks_then_word p x Hp Hx) by (right; congruence).
      by rewrite Hs.
Qed.

Lemma advance_word w fuel :
  in_text w → w_class w ≠ CBlank → length (w_cells w) - w_index w < fuel →
  ∃ j, advance fuel (λ i, bool_decide (w_class_at w i = w_class w)) (w_index w) = Ok j
    ∧ until ends_word w (positions_after w) = mkWalker (w_line w) j.
Proof.
  revert w. induction fuel as [|fuel IH]; intros w Hw Hc Hf; [lia|]. cbn [advance].
  destruct (word_inside w Hc) as [Hlt _]. pose proof (forward_leads w Hw) as Hs.
  rewrite (word_forward w Hc) in Hs. destruct Hs as [Hx Hr]. rewrite Hr. cbn [until]. unfold ends_word at 1.
  rewrite (bool_decide_false (w_class w = CBlank)) by done. rewrite Nat.add_1_r. cbn [negb andb].
  set (x := mkWalker (w_line w) (S (w_index w))) in *. change (w_class_at w (S (w_index w))) with (w_class x).
  destruct (decide (w_class x = w_class w)) as [Heq|Hne].
  - rewrite !bool_decide_true by done. cbn [negb].
    destruct (IH x Hx) as (j & Hj & Hu); [congruence|subst x; cbn -[CopyMode.line_cells]; unfold CopyMode.w_cells in *; cbn [w_line] in *; lia|].
    exists j. split; [|done]. rewrite <-Hj. rewrite Heq. done.
  - rewrite !bool_decide_false by done. cbn [negb]. eexists. split; [done|]. by destruct w.
Qed.
Lemma blanks_then_end x :
  in_text x →
  let q := until (λ w, negb (bool_decide (w_class w = CBlank))) x (positions_after x) in
  (if decide (w_class q = CBlank) then q else until ends_word q (positions_after q))
  = until ends_word x (positions_after x).
Proof.
  intros Hx. cbv zeta. remember (positions_after x) as ws eqn:Hws. revert x Hx Hws.
  induction ws as [|y ws IH]; intros x Hx Hws.
  - cbn. destruct (decide _); [done|]. by rewrite <-Hws.
  - pose proof (forward_leads x Hx) as Hs. destruct (w_forward x) as [y'|] eqn:Hy; [|congruence].
    destruct Hs as [Hyt Hs]. rewrite Hs in Hws. injection Hws as -> ->. cbn [until]. unfold ends_word at 2.
    destruct (decide (w_class x = CBlank)) as [Hb|Hb].
    + rewrite !(bool_decide_true (w_class x = CBlank)) by done. cbn [negb andb]. by apply IH.
    + rewrite !(bool_decide_false (w_class x = CBlank)) by done. cbn [negb]. rewrite decide_False by done.
      rewrite Hs. cbn [until]. unfold ends_word at 1. by rewrite bool_decide_false.
Qed.

Lemma retreat_word w :
  in_text w → w_class w ≠ CBlank →
  until starts_word w (positions_before w) =
    mkWalker (w_line w) (retreat (λ i, bool_decide (w_class_at w i = w_class w)) (w_index w)).
Proof.
  destruct w as [l i]. cbn [w_line w_index]. induction i as [|i IH]; intros Hw Hc.
  - destruct (positions_before (mkWalker l 0)); [done|]. cbn [until]. unfold starts_word.
    by rewrite bool_decide_false, orb_true_r.
  - pose proof (backward_leads _ Hw) as [Hx Hr]. rewrite Hr. cbn [until retreat]. unfold starts_word at 1.
    rewrite (proj2 (word_inside _ Hc)), bool_decide_false by done. cbn [w_index orb negb andb].
    change (w_class_at (mkWalker l (S i)) i) with (w_class (mkWalker l i)).
    destruct (decide (w_class (mkWalker l i) = w_class (mkWalker l (S i)))) as [Heq|Hne].
    + rewrite !bool_decide_true by done. cbn [negb]. cbn [w_line w_index] in *. rewrite IH; [|done|congruence].
      f_equal. by rewrite Heq.
    + by rewrite !bool_decide_false.
Qed.
Lemma blanks_then_start x :
  in_text x →
  let q := until (λ w, negb (blank_here w)) x (positions_before x) in
  (if blank_here q || on_empty_line q then q else until starts_word q (positions_before q))
  = until starts_word x (positions_before x).
Proof.
  intros Hx. cbv zeta. remember (positions_before x) as ws eqn:Hws. revert x Hx Hws.
  induction ws as [|y ws IH]; intros x Hx Hws.
  - cbn. destruct (_ || _); [done|]. by rewrite <-Hws.
  - pose proof (backward_leads x Hx) as Hs. destruct (w_backward x) as [y'|] eqn:Hy; [|congruence].
    destruct Hs as [Hyt Hs]. rewrite Hs in Hws. injection Hws as -> ->. cbn [until].
    destruct (blank_here x) eqn:Hb; cbn [negb].
    + assert (starts_word x = false) as ->; [|by apply IH].
      unfold starts_word. unfold CopyMode.blank_here in Hb. apply andb_true_iff in Hb as [Hb He%negb_true_iff].
      by rewrite Hb, He.
    + rewrite Hb. cbn [orb]. destruct (on_empty_line x) eqn:He.
      * unfold starts_word. by rewrite He.
      * by rewrite Hs.
Qed.

Lemma Walker_new_in_text at_ : in_text (Walker_new graphemes str_width lines last at_).
Proof.
  split; cbn; [lia|]. unfold CopyMode.w_cells. cbn. unfold cell_index.
  destruct (position _ _) as [i|] eqn:Hi; cbn; [|done].
  apply position_Some in Hi as (c & Hc & _). by apply lookup_lt_Some in Hc; apply Nat.lt_le_incl.
Qed.

(** *** Paragraphs *)

Notation is_blank_line := (is_blank_line lines).
(** A blank line that follows text, seen from above and from below. *)
Definition ends_paragraph (l : N) : bool := is_blank_line l && negb (is_blank_line (l - 1)).
Definition precedes_paragraph (l : N) : bool := is_blank_line l && negb (is_blank_line (l + 1)).
Definition lines_after (line : N) : list N :=
  (λ i, line + N.of_nat i)%N <$> seq 1 (N.to_nat (last - line)).
(** The nearest first. *)
Definition lines_before (n : nat) : list N := reverse (N.of_nat <$> seq 0 n).

Lemma lines_after_cons line :
  lines_after line = if (line <? last)%N then (line + 1)%N :: lines_after (line + 1) else [].
Proof.
  unfold lines_after. destruct (N.ltb_spec line last) as [Hlt|Hge].
  - replace (N.to_nat (last - line)) with (S (N.to_nat (last - (line + 1)))) by lia. cbn [seq fmap list_fmap].
    f_equal. rewrite <-seq_shift, <-list_fmap_compose. apply list_fmap_ext. intros _ k _. cbn. lia.
  - by replace (N.to_nat (last - line)) with 0 by lia.
Qed.
Lemma lines_before_S n : lines_before (S n) = N.of_nat n :: lines_before n.
Proof. unfold lines_before. rewrite seq_S, fmap_app. cbn [fmap list_fmap]. by rewrite reverse_snoc. Qed.

Lemma next_blank_finds fuel line :
  is_blank_line line = false → N.to_nat (last - line) < fuel →
  next_blank lines last fuel line = Ok (find_first ends_paragraph (lines_after line)).
Proof.
  revert line. induction fuel as [|fuel IH]; intros line Hb Hf; [lia|]. cbn [next_blank].
  rewrite lines_after_cons. destruct (N.ltb_spec line last); [|done]. cbn [find_first].
  unfold ends_paragraph at 1. rewrite N.add_sub, Hb, andb_true_r.
  destruct (is_blank_line (line + 1)) eqn:Hn; [done|]. apply IH; [done|lia].
Qed.
Lemma next_paragraph_finds f1 f2 line :
  N.to_nat (last - line) < f1 → N.to_nat (last - line) < f2 →
  ∃ q, blank_run_down lines last f1 line = Ok q
    ∧ next_blank lines last f2 q = Ok (find_first ends_paragraph (lines_after line)).
Proof.
  revert line. induction f1 as [|f1 IH]; intros line H1 H2; [lia|]. cbn [blank_run_down].
  destruct (is_blank_line line) eqn:Hb.
  - rewrite andb_true_r. destruct (N.ltb_spec line last) as [Hlt|Hge].
    + destruct (IH (line + 1)%N) as (q & Hq & Hn); [lia|lia|]. exists q. split; [done|]. rewrite Hn.
      rewrite (lines_after_cons line), (proj2 (N.ltb_lt _ _) Hlt). cbn [find_first].
      unfold ends_paragraph at 2. by rewrite N.add_sub, Hb, andb_false_r.
    + exists line. split; [done|]. destruct f2 as [|f2]; [lia|]. cbn [next_blank].
      by rewrite lines_after_cons, (proj2 (N.ltb_ge _ _) Hge).
  - rewrite andb_false_r. exists line. split; [done|]. by apply next_blank_finds.
Qed.
Lemma lines_up_finds n :
  is_blank_line (N.of_nat n) = false →
  lines_up lines n = match find_first precedes_paragraph (lines_before n) with
                     | Some l => (true, N.to_nat l) | None => (false, 0) end.
Proof.
  induction n as [|n IH]; intros Hb; [done|]. cbn [lines_up]. rewrite lines_before_S. cbn [find_first].
  unfold precedes_paragraph at 1. replace (N.of_nat n + 1)%N with (N.of_nat (S n)) by lia.
  rewrite Hb, andb_true_r. destruct (is_blank_line (N.of_nat n)) eqn:Hn; [by rewrite Nat2N.id|by apply IH].
Qed.
Lemma previous_paragraph_finds n :
  lines_up lines (blank_run_up lines n) =
    match find_first precedes_paragraph (lines_before n) with
    | Some l => (true, N.to_nat l) | None => (false, 0) end.
Proof.
  induction n as [|n IH]; [done|]. cbn [blank_run_up]. destruct (is_blank_line (N.of_nat (S n))) eqn:Hb.
  - rewrite IH, lines_before_S. cbn [find_first]. unfold precedes_paragraph at 2.
    replace (N.of_nat n + 1)%N with (N.of_nat (S n)) by lia. by rewrite Hb, andb_false_r.
  - by apply lines_up_finds.
Qed.

Notation w_point := (w_point graphemes str_width lines).
Notation start_of at_ := (Walker_new graphemes str_width lines last at_).

Ltac along_text :=
  first [done | apply forward_leads | apply backward_leads | by apply after_budget | by apply before_budget].
Lemma next_word_start_finds at_ :
  next_word_start graphemes str_width lines last ss at_
  = Ok (w_point (first_or_last starts_word (start_of at_) (positions_after (start_of at_)))).
Proof.
  unfold CopyMode.next_word_start. pose proof (Walker_new_in_text at_) as Hw.
  set (w := start_of at_) in *. pose proof (forward_leads w Hw) as Hs.
  destruct (w_forward w) as [x|] eqn:Hx; [|by rewrite Hs]. destruct Hs as [Hxt ->].
  rewrite <-until_first_or_last.
  destruct (decide (w_class w = CBlank)) as [Hb|Hb].
  - rewrite bool_decide_true by done. cbn [mbind outcome_bind].
    rewrite (walk_until _ positions_after) by along_text.
    cbn [mbind outcome_bind]. by rewrite (blanks_then_word w x) by auto.
  - rewrite bool_decide_false by done. rewrite (walk_until _ positions_after) by along_text.
    cbn [mbind outcome_bind]. rewrite <-(word_then_blanks w x Hw Hx Hb). cbv zeta.
    set (q := until _ x _). assert (in_text q) as Hq by (apply (until_in_text w_forward); [apply forward_leads|done]).
    destruct (decide (w_class q = w_class w)); [by rewrite bool_decide_true|].
    rewrite bool_decide_false by done.
    rewrite (walk_until _ positions_after) by along_text.
    done.
Qed.
Lemma next_word_end_finds at_ :
  next_word_end graphemes str_width lines last ss at_
  = Ok (w_point (first_or_last ends_word (start_of at_) (positions_after (start_of at_)))).
Proof.
  unfold CopyMode.next_word_end. pose proof (Walker_new_in_text at_) as Hw.
  set (w := start_of at_) in *. pose proof (forward_leads w Hw) as Hs.
  destruct (w_forward w) as [x|] eqn:Hx; [|by rewrite Hs]. destruct Hs as [Hxt ->].
  rewrite <-until_first_or_last, <-(blanks_then_end x Hxt). cbv zeta.
  rewrite (walk_until _ positions_after) by along_text.
  cbn [mbind outcome_bind]. set (q := until _ x _).
  assert (in_text q) as Hq by (apply (until_in_text w_forward); [apply forward_leads|done]).
  destruct (decide (w_class q = CBlank)) as [Hc|Hc]; [by rewrite bool_decide_true|].
  rewrite bool_decide_false by done.
  destruct (advance_word q walk_budget Hq Hc) as (j & -> & ->); [|done]. by apply line_budget.
Qed.
Lemma previous_word_start_finds at_ :
  previous_word_start graphemes str_width lines last ss at_
  = Ok (w_point (first_or_last starts_word (start_of at_) (positions_before (start_of at_)))).
Proof.
  unfold CopyMode.previous_word_start. pose proof (Walker_new_in_text at_) as Hw.
  set (w := start_of at_) in *. pose proof (backward_leads w Hw) as Hs.
  destruct (w_backward w) as [x|] eqn:Hx; [|by rewrite Hs]. destruct Hs as [Hxt ->].
  rewrite <-until_first_or_last, <-(blanks_then_start x Hxt). cbv zeta.
  rewrite (walk_until _ positions_before) by along_text.
  cbn [mbind outcome_bind]. set (q := until _ x _).
  assert (in_text q) as Hq by (apply (until_in_text w_backward); [apply backward_leads|done]).
  destruct (blank_here q) eqn:Hb; [done|]. cbn [orb]. destruct (on_empty_line q) eqn:He; [done|].
  rewrite retreat_word; [done|done|]. intros Hc. unfold CopyMode.blank_here in Hb.
  by rewrite Hc, He in Hb.
Qed.
End search.

(** ** Where motions leave the cursor and the view *)

Lemma reveal_shows v top line :
  (line ≤ last_line v)%N → (cv_total v ≤ u64_max)%N →
  (reveal v top line ≤ bottom_top v)%N
  ∧ (reveal v top line ≤ line < reveal v top line + N.max (cv_rows v) 1)%N.
Proof.
  unfold reveal, bottom_top, last_line, sat_add64, u64_max. intros Hl Ht.
  destruct (N.ltb_spec line top); [lia|].
  destruct (N.leb_spec (N.min 18446744073709551615 (top + N.max (cv_rows v) 1)) line); lia.
Qed.

Section landing.
Context (graphemes : rstring → list rstring) (str_width : rstring → N).
Context (lines : list rstring) (last : N) (ss : bool).
Notation cells_at line := (line_cells graphemes str_width lines line).

(** On a character of a line, or at its start. *)
Definition on_text (p : SelectionPoint) : Prop :=
  sp_column p = 0%N ∨ ∃ c, c ∈ cells_at (sp_line p) ∧ c_column c = sp_column p.
Definition lands (p : SelectionPoint) : Prop := (sp_line p ≤ last)%N ∧ on_text p.

Lemma cells_from_column column l c :
  (column ≤ u16_max)%N → c ∈ cells_from str_width column l → (c_column c ≤ u16_max)%N.
Proof.
  revert column. induction l as [|text l IH]; intros column Hc; cbn; [by intros ?%elem_of_nil|].
  intros [->|Hin]%elem_of_cons; [done|]. eapply IH; [|done]. unfold sat_add16. lia.
Qed.
Lemma on_text_column p : on_text p → (sp_column p ≤ u16_max)%N.
Proof.
  intros [->|(c & Hc & <-)]; [done|]. eapply cells_from_column; [|exact Hc]. done.
Qed.
Lemma column_of_on_text line i : on_text (point_at line (column_of (cells_at line) i)).
Proof.
  unfold column_of, on_text. cbn. destruct (cells_at line !! i) as [c|] eqn:Hc; [right|by left].
  exists c. split; [by eapply list_elem_of_lookup_2|done].
Qed.
Lemma last_column_on_text line : on_text (point_at line (last_column (cells_at line))).
Proof.
  unfold last_column, on_text. cbn. destruct (list.last (cells_at line)) as [c|] eqn:Hc; [right|by left].
  exists c. split; [by apply last_Some_elem_of|done].
Qed.
Lemma reach_in_text step reach w :
  leads graphemes str_width lines last step reach → in_text graphemes str_width lines last w →
  Forall (in_text graphemes str_width lines last) (reach w).
Proof.
  intros Hl Hw. remember (reach w) as ws eqn:Hr. revert w Hw Hr.
  induction ws as [|x ws IH]; intros w Hw Hr; [done|]. pose proof (Hl w Hw) as Hs.
  destruct (step w); [|congruence]. destruct Hs as [Hx Hs]. rewrite Hs in Hr. injection Hr as -> ->.
  constructor; [done|]. by eapply IH.
Qed.
Lemma first_or_last_lands step reach stop w :
  leads graphemes str_width lines last step reach → in_text graphemes str_width lines last w →
  lands (w_point graphemes str_width lines (first_or_last stop w (reach w))).
Proof.
  intros Hl Hw. pose proof (reach_in_text step reach w Hl Hw) as Hr. rewrite Forall_forall in Hr.
  assert (in_text graphemes str_width lines last (first_or_last stop w (reach w))) as [Hq _].
  { unfold first_or_last. destruct (find_first stop (reach w)) as [q|] eqn:Hf.
    - apply Hr. by apply find_first_Some in Hf as [? _].
    - destruct (list.last (reach w)) as [q|] eqn:Hq; [|done]. by apply Hr, last_Some_elem_of. }
  split; [done|]. apply column_of_on_text.
Qed.
Lemma paragraphs_land cursor :
  (sp_line cursor ≤ last)%N →
  (∃ p, next_paragraph graphemes str_width lines last cursor = Ok p ∧ lands p)
  ∧ lands (previous_paragraph lines cursor).
Proof.
  intros Hc. split.
  - unfold next_paragraph.
    destruct (next_paragraph_finds lines last (S (N.to_nat last)) (S (N.to_nat last)) (sp_line cursor))
      as (q & Hq & Hn); [lia|lia|]. rewrite Hq. cbn [mbind outcome_bind]. rewrite Hn.
    eexists. split; [done|]. destruct (find_first _ _) as [l|] eqn:Hf.
    + apply find_first_Some in Hf as [(i & -> & Hi)%list_elem_of_fmap _].
      apply elem_of_seq in Hi. split; [cbn; lia|by left].
    + split; [done|]. apply last_column_on_text.
  - unfold previous_paragraph. rewrite previous_paragraph_finds.
    destruct (find_first _ _) as [l|] eqn:Hf; [|split; [cbn; lia|by left]].
    apply find_first_Some in Hf as [Hin _]. unfold lines_before in Hin.
    rewrite elem_of_reverse in Hin. apply list_elem_of_fmap in Hin as (i & -> & Hi).
    apply elem_of_seq in Hi. split; [cbn; lia|by left].
Qed.
Lemma words_land cursor :
  (∃ p, next_word_start graphemes str_width lines last ss cursor = Ok p ∧ lands p)
  ∧ (∃ p, next_word_end graphemes str_width lines last ss cursor = Ok p ∧ lands p)
  ∧ (∃ p, previous_word_start graphemes str_width lines last ss cursor = Ok p ∧ lands p).
Proof.
  pose proof (Walker_new_in_text graphemes str_width lines last cursor) as Hw.
  rewrite next_word_start_finds, next_word_end_finds, previous_word_start_finds.
  split_and!; eexists; (split; [done|]).
  - apply (first_or_last_lands (w_forward graphemes str_width lines last)); [apply forward_leads|done].
  - apply (first_or_last_lands (w_forward graphemes str_width lines last)); [apply forward_leads|done].
  - apply (first_or_last_lands (w_backward graphemes str_width lines)); [apply backward_leads|done].
Qed.
End landing.

(** ** The text under the cursor *)

Lemma trim_start_nil (t : rstring) : trim_start t = [] ↔ Forall (λ c, is_whitespace c = true) t.
Proof.
  induction t as [|c t IH]; cbn; [done|]. destruct (is_whitespace c) eqn:Hc.
  - rewrite IH, Forall_cons. tauto.
  - rewrite Forall_cons, Hc. split; [done|by intros []].
Qed.
Lemma trim_start_suffix (t : rstring) : ∃ blanks,
  t = blanks ++ trim_start t ∧ Forall (λ c, is_whitespace c = true) blanks.
Proof.
  induction t as [|c t (b & E & Hb)]; [by exists []|]. cbn. destruct (is_whitespace c) eqn:Hc; [|by exists []].
  exists (c :: b). split; [cbn; by f_equal|by constructor].
Qed.
Lemma is_blank_line_spec lines line :
  is_blank_line lines line = true ↔
  Forall (λ c, is_whitespace c = true) (default [] (lines !! N.to_nat line)).
Proof.
  unfold is_blank_line, line_text. set (t := default _ _). unfold trim, trim_end.
  assert (reverse (trim_start (reverse (trim_start t))) = [] ↔ Forall (λ c, is_whitespace c = true) t) as <-.
  { assert (∀ l : rstring, reverse l = [] ↔ l = []) as ->
      by (intros l; split; [exact (inj reverse l [])|by intros ->]).
    rewrite trim_start_nil, Forall_reverse.
    destruct (trim_start_suffix t) as (b & E & Hb). rewrite E at 2. rewrite Forall_app. tauto. }
  by destruct (reverse _).
Qed.

Section under_cursor.
Context (graphemes : rstring → list rstring) (str_width : rstring → N).
Context (lines : list rstring) (last : N) (ss : bool).

(** A line as the characters a reader sees, the column each begins at, and what kind
    each is: a line is as wide as its characters, at least one column each, up to 16
    bits. *)
Definition texts (line : N) : list rstring := graphemes (default [] (lines !! N.to_nat line)).
Definition begins_at (line : N) (i : nat) : N :=
  N.min u16_max (foldr N.add 0%N ((λ t, N.max (N.min (str_width t) u16_max) 1) <$> take i (texts line))).
Definition letter_or_digit (c : N) : bool :=
  (((48 <=? c) && (c <=? 57)) || ((65 <=? c) && (c <=? 90)) || ((97 <=? c) && (c <=? 122)))%N.
Definition kind_of (text : option rstring) (k : CharClass) : Prop :=
  match text with
  | Some (c :: _) =>
      if is_whitespace c then k = CBlank
      else if negb ss && ((33 <=? c) && (c <=? 126))%N && negb (letter_or_digit c || (c =? 95)%N)
      then k = CSeparator
      else k = CWord
  | _ => k = CBlank
  end.

Lemma cells_from_lookup l i : ∀ column, (column ≤ u16_max)%N →
  cells_from str_width column l !! i = (λ t, mkCell
    (N.min u16_max (column + foldr N.add 0%N ((λ t, N.max (N.min (str_width t) u16_max) 1) <$> take i l)))
    (N.max (N.min (str_width t) u16_max) 1) t) <$> l !! i.
Proof.
  revert i. induction l as [|t l IH]; intros [|i] column Hc; try done.
  - cbn. do 2 f_equal. lia.
  - cbn [cells_from lookup list_lookup]. etrans; [apply IH; unfold sat_add16; lia|].
    cbn [take fmap list_fmap foldr].
    destruct (l !! i); [|done]. cbn. do 2 f_equal. unfold sat_add16. lia.
Qed.
Lemma line_cells_lookup line i :
  line_cells graphemes str_width lines line !! i =
    (λ t, mkCell (begins_at line i) (N.max (N.min (str_width t) u16_max) 1) t) <$> texts line !! i.
Proof. unfold line_cells, cells. by rewrite cells_from_lookup by done. Qed.
Lemma length_cells line : length (line_cells graphemes str_width lines line) = length (texts line).
Proof.
  unfold line_cells, cells, texts, line_text. generalize 0%N. induction (graphemes _); [done|].
  intros n. cbn. by f_equal.
Qed.
Lemma foldr_add_from l x : foldr N.add x l = (foldr N.add 0%N l + x)%N.
Proof. induction l as [|y l IH]; cbn; [lia|]. rewrite IH. lia. Qed.
Lemma begins_at_S line i t : texts line !! i = Some t →
  begins_at line (S i) = sat_add16 (begins_at line i) (N.max (N.min (str_width t) u16_max) 1).
Proof.
  intros Ht. unfold begins_at. rewrite (take_S_r _ _ t) by done.
  rewrite fmap_app, foldr_app. cbn [fmap list_fmap foldr]. rewrite foldr_add_from. unfold sat_add16. lia.
Qed.

(** The walk starts at the character under the cursor. *)
Lemma Walker_new_spec at_ :
  let w := Walker_new graphemes str_width lines last at_ in
  w_line w = N.min (sp_line at_) last ∧ w_index w ≤ length (texts (w_line w))
  ∧ (∀ i, i < w_index w → (begins_at (w_line w) (S i) ≤ sp_column at_)%N)
  ∧ (w_index w < length (texts (w_line w)) → (sp_column at_ < begins_at (w_line w) (S (w_index w)))%N).
Proof.
  cbv zeta. cbn [w_line w_index Walker_new]. set (line := N.min _ _). split; [done|].
  unfold cell_index. destruct (position _ _) as [i|] eqn:Hi; cbn [default].
  - apply position_Some in Hi as (c & Hc & Hlt & Hbelow). rewrite line_cells_lookup in Hc.
    apply fmap_Some in Hc as (t & Ht & ->). cbn in Hlt. apply N.ltb_lt in Hlt.
    pose proof (lookup_lt_Some _ _ _ Ht). split; [cbn; lia|]. split.
    + intros j Hj. cbn in Hj. destruct (lookup_lt_is_Some_2 (texts line) j) as [u Hu]; [lia|].
      specialize (Hbelow j _ Hj ltac:(by rewrite line_cells_lookup, Hu)). cbn in Hbelow.
      apply N.ltb_ge in Hbelow. by rewrite (begins_at_S _ _ u).
    + intros _. cbn. by rewrite (begins_at_S _ _ t).
  - rewrite position_None in Hi. cbn. rewrite length_cells. split; [done|]. split; [|lia].
    intros j Hj. destruct (lookup_lt_is_Some_2 (texts line) j) as [u Hu]; [lia|].
    specialize (Hi (mkCell (begins_at line j) (N.max (N.min (str_width u) u16_max) 1) u)).
    rewrite (begins_at_S _ _ u) by done. apply N.ltb_ge, Hi.
    apply list_elem_of_lookup. exists j. by rewrite line_cells_lookup, Hu.
Qed.
(** It ends on the column of a character, the last one's past the end of the line. *)
Lemma w_point_spec w :
  w_point graphemes str_width lines w
  = mkSelectionPoint (w_line w) (begins_at (w_line w) (Nat.min (w_index w) (length (texts (w_line w)) - 1))).
Proof.
  unfold w_point, point_at, w_cells. f_equal. unfold column_of. rewrite length_cells, line_cells_lookup.
  set (k := Nat.min _ _). destruct (texts (w_line w) !! k) as [t|] eqn:Hk; [done|]. cbn.
  apply lookup_ge_None in Hk. assert (texts (w_line w) = []) as He.
  { apply nil_length_inv. subst k. lia. }
  unfold begins_at. rewrite He. by rewrite take_nil.
Qed.
Lemma class_in_spec line i :
  kind_of (texts line !! i) (class_in ss (line_cells graphemes str_width lines line) i).
Proof.
  unfold class_in. rewrite line_cells_lookup. destruct (texts line !! i) as [[|c t]|]; [done| |done].
  cbn [fmap option_fmap option_map c_text class_of kind_of]. destruct (is_whitespace c); [done|].
  replace (negb ss && is_ascii_punctuation c && negb (c =? 95)%N)
    with (negb ss && ((33 <=? c) && (c <=? 126))%N && negb (letter_or_digit c || (c =? 95)%N));
    [by destruct (_ && _)|].
  unfold is_ascii_punctuation, letter_or_digit. destruct ss; [done|]. cbn [negb andb].
  apply eq_true_iff_eq. rewrite !andb_true_iff, !orb_true_iff, !andb_true_iff, !negb_true_iff,
    !orb_false_iff, !andb_false_iff, !N.leb_le, !N.leb_gt, !N.eqb_neq. lia.
Qed.
Lemma on_empty_line_spec w : on_empty_line graphemes str_width lines w = bool_decide (texts (w_line w) = []).
Proof.
  unfold on_empty_line, w_cells. pose proof (length_cells (w_line w)) as Hl.
  destruct (line_cells _ _ _ _), (texts (w_line w)); done.
Qed.
Lemma last_column_spec line :
  last_column (line_cells graphemes str_width lines line) = begins_at line (length (texts line) - 1).
Proof.
  unfold last_column. rewrite last_lookup, length_cells, line_cells_lookup.
  destruct (texts line !! _) as [t|] eqn:Ht.
  - cbn. f_equal. lia.
  - apply lookup_ge_None in Ht. assert (texts line = []) as He by (apply nil_length_inv; lia).
    unfold begins_at. by rewrite He.
Qed.
End under_cursor.

(** C27: the motions by words and paragraphs always end, and end where a search finds them: a
    word motion on the nearest start, or end, of a word after the cursor, or before it, over
    line breaks, and where there is none on the last, or first, position of the text; a
    paragraph motion on the nearest blank line that follows text, or else at the end, or the
    start, of the text. The search starts at the character under the cursor's column, past the
    last one if there is none, and a position stands for the column its character begins at
    (the last one's for the end of a line); characters are blank, words, or, unless words are
    told apart by spaces alone, separators, by their first code point; an empty line counts as
    a start; a line is blank when it is all white space. *)
Theorem motions_find_words graphemes str_width lines last ss at_ :
  let w := Walker_new graphemes str_width lines last at_ in
  let stands := w_point graphemes str_width lines in
  let starts := starts_word graphemes str_width lines ss in
  let after := positions_after graphemes str_width lines last w in
  let before := positions_before graphemes str_width lines w in
  let texts := texts graphemes lines in
  let begins_at := begins_at graphemes str_width lines in
  (next_word_start graphemes str_width lines last ss at_ = Ok (stands (first_or_last starts w after))
   ∧ next_word_end graphemes str_width lines last ss at_
     = Ok (stands (first_or_last (ends_word graphemes str_width lines ss) w after))
   ∧ previous_word_start graphemes str_width lines last ss at_
     = Ok (stands (first_or_last starts w before))
   ∧ next_paragraph graphemes str_width lines last at_
     = Ok (match find_first (ends_paragraph lines) (lines_after last (sp_line at_)) with
           | Some l => mkSelectionPoint l 0
           | None => mkSelectionPoint last (begins_at last (length (texts last) - 1))
           end)
   ∧ previous_paragraph lines at_
     = mkSelectionPoint (default 0%N (find_first (precedes_paragraph lines)
                                        (lines_before (N.to_nat (sp_line at_))))) 0)
  ∧ (w_line w = N.min (sp_line at_) last ∧ w_index w ≤ length (texts (w_line w))
     ∧ (∀ i, i < w_index w → (begins_at (w_line w) (S i) ≤ sp_column at_)%N)
     ∧ (w_index w < length (texts (w_line w)) →
        (sp_column at_ < begins_at (w_line w) (S (w_index w)))%N))
  ∧ ∀ x, stands x = mkSelectionPoint (w_line x)
           (begins_at (w_line x) (Nat.min (w_index x) (length (texts (w_line x)) - 1)))
     ∧ kind_of ss (texts (w_line x) !! w_index x) (w_class graphemes str_width lines ss x)
     ∧ (∀ i, kind_of ss (texts (w_line x) !! i) (w_class_at graphemes str_width lines ss x i))
     ∧ on_empty_line graphemes str_width lines x = bool_decide (texts (w_line x) = [])
     ∧ (is_blank_line lines (w_line x) = true ↔
        Forall (λ c, is_whitespace c = true) (default [] (lines !! N.to_nat (w_line x)))).
Proof.
  cbv zeta. split; [split_and!|split; [apply Walker_new_spec|intros x; split_and!]].
  - apply next_word_start_finds.
  - apply next_word_end_finds.
  - apply previous_word_start_finds.
  - unfold next_paragraph.
    destruct (next_paragraph_finds lines last (S (N.to_nat last)) (S (N.to_nat last)) (sp_line at_))
      as (q & Hq & Hn); [lia|lia|]. rewrite Hq. cbn [mbind outcome_bind]. rewrite Hn.
    rewrite last_column_spec. done.
  - unfold previous_paragraph. rewrite previous_paragraph_finds.
    destruct (find_first _ _); cbn; [by rewrite N2Nat.id|done].
  - apply w_point_spec.
  - apply class_in_spec.
  - intros i. apply class_in_spec.
  - apply on_empty_line_spec.
  - apply is_blank_line_spec.
Qed.
(** Two lines of text and the cursor in the first word: the next word is the one after
    the space, and from there the next is on the second line. *)
Definition two_lines : list rstring := [lit "ab, cd"; lit " efg"].
Lemma motions_find_words_witness :
  let letters (t : rstring) := (λ c, [c]) <$> t in
  let one (t : rstring) := 1%N in
  next_word_start letters one two_lines 1 true (mkSelectionPoint 0 1) = Ok (mkSelectionPoint 0 4)
  ∧ next_word_start letters one two_lines 1 true (mkSelectionPoint 0 5) = Ok (mkSelectionPoint 1 1).
Proof.
  intros letters one.
  destruct (motions_find_words letters one two_lines 1 true (mkSelectionPoint 0 1)) as [[H1 _] _].
  destruct (motions_find_words letters one two_lines 1 true (mkSelectionPoint 0 5)) as [[H2 _] _].
  split; [rewrite H1|rewrite H2]; vm_compute; reflexivity.
Defined.

Lemma viewed v c t :
  (cv_total v ≤ u64_max)%N → (sp_line c ≤ last_line v)%N →
  (sp_line c ≤ last_line v)%N
  ∧ (reveal v t (sp_line c) ≤ bottom_top v)%N
  ∧ (reveal v t (sp_line c) ≤ sp_line c < reveal v t (sp_line c) + N.max (cv_rows v) 1)%N.
Proof. intros Ht Hl. split; [done|]. by apply reveal_shows. Qed.

Section applied.
Context (graphemes : rstring → list rstring) (str_width : rstring → N).

(** The motions that read the text, and those that do not. *)
Lemma text_motion_lands m cursor v lines :
  (sp_line cursor ≤ last_line v)%N → motion_needs_text m = true →
  ∃ c, lands graphemes str_width lines (last_line v) c
    ∧ apply_motion graphemes str_width m cursor v lines
      = Ok (mkMotionOutcome c (reveal v (cv_top v) (sp_line c))).
Proof.
  intros Hl Hm.
  pose proof (words_land graphemes str_width lines (last_line v) false cursor) as (Ha & Hb & Hc).
  pose proof (words_land graphemes str_width lines (last_line v) true cursor) as (Ha' & Hb' & Hc').
  pose proof (paragraphs_land graphemes str_width lines (last_line v) cursor Hl) as (Hd & He).
  assert (∀ o : outcome SelectionPoint, (∃ p, o = Ok p ∧ lands graphemes str_width lines (last_line v) p) →
    ∃ c, lands graphemes str_width lines (last_line v) c ∧
      ('(cursor, top) ← (c ← o; Ok (c, cv_top v)); Ok (mkMotionOutcome cursor (reveal v top (sp_line cursor))))
      = Ok (mkMotionOutcome c (reveal v (cv_top v) (sp_line c)))) as Hread.
  { intros o (p & -> & Hp). by exists p. }
  destruct m; try done; unfold apply_motion; try (apply Hread; assumption).
  - eexists. split; [|reflexivity]. split; [done|].
    destruct (find_first _ _) as [c|] eqn:Hf; [right|by left]. exists c. split; [|done].
    by apply find_first_Some in Hf as [? _].
  - eexists. split; [|reflexivity]. split; [done|]. apply (last_column_on_text _ _ _ (sp_line cursor)).
  - by eexists.
Qed.
Lemma plain_motion_stays m cursor v lines :
  (sp_line cursor ≤ last_line v)%N → (cv_top v ≤ last_line v)%N → (sp_column cursor ≤ u16_max)%N →
  motion_needs_text m = false →
  ∃ c t, (sp_line c ≤ last_line v)%N ∧ (sp_column c ≤ u16_max)%N
    ∧ apply_motion graphemes str_width m cursor v lines = Ok (mkMotionOutcome c (reveal v t (sp_line c))).
Proof.
  intros Hl Ht Hc Hm. unfold sat_add16.
  destruct m; try done; eexists _, _; (split; [|split; [|reflexivity]]);
    unfold with_column, with_line, point_at, sat_add16; cbn [sp_line sp_column];
    unfold u16_max in *; lia.
Qed.
End applied.

(** C28: a motion always ends, with the cursor on a line of the buffer and at a column of 16
    bits, on a line that is shown, and with the view not scrolled past the buffer's end; a
    motion that reads the text leaves the cursor on a character, or in the first column. *)
Theorem motions_stay_in_view graphemes str_width m cursor v lines :
  (sp_line cursor ≤ last_line v)%N → (cv_top v ≤ last_line v)%N →
  (cv_total v ≤ u64_max)%N → (sp_column cursor ≤ u16_max)%N →
  ∃ c top, apply_motion graphemes str_width m cursor v lines = Ok (mkMotionOutcome c top)
    ∧ (sp_line c ≤ last_line v)%N ∧ (sp_column c ≤ u16_max)%N
    ∧ (top ≤ bottom_top v)%N ∧ (top ≤ sp_line c < top + N.max (cv_rows v) 1)%N
    ∧ (motion_needs_text m = true → on_text graphemes str_width lines c).
Proof.
  intros Hl Ht Htot Hc. destruct (motion_needs_text m) eqn:Hm.
  - destruct (text_motion_lands graphemes str_width m cursor v lines Hl Hm) as (c & [Hcl Hct] & ->).
    eexists _, _. split; [done|]. destruct (viewed v c (cv_top v) Htot Hcl) as (? & ? & ?).
    split_and!; try done; try lia. by apply (on_text_column graphemes str_width lines).
  - destruct (plain_motion_stays graphemes str_width m cursor v lines Hl Ht Hc Hm) as (c & t & Hcl & Hcc & ->).
    eexists _, _. split; [done|]. destruct (viewed v c t Htot Hcl) as (? & ? & ?). split_and!; done || lia.
Qed.
Lemma motions_stay_in_view_witness :
  ∃ c top, apply_motion each_char one_column MNextWord (point_at 0 6) (mkCopyViewport 0 1 2 80)
      [lit "alpha beta"; lit "  gamma"] = Ok (mkMotionOutcome c top)
    ∧ (sp_line c ≤ 1)%N ∧ (sp_column c ≤ u16_max)%N ∧ (top ≤ 1)%N ∧ (top ≤ sp_line c < top + 1)%N
    ∧ (true = true → on_text each_char one_column [lit "alpha beta"; lit "  gamma"] c).
Proof.
  exact (motions_stay_in_view each_char one_column MNextWord (point_at 0 6) (mkCopyViewport 0 1 2 80)
    [lit "alpha beta"; lit "  gamma"] ltac:(done) ltac:(done) ltac:(done) ltac:(done)).
Defined.

(** ** Words under the mouse, and jumps *)

Lemma retreat_spec p i :
  retreat p i ≤ i ∧ (∀ k, retreat p i ≤ k < i → p k = true)
  ∧ (retreat p i = 0 ∨ p (retreat p i - 1) = false).
Proof.
  induction i as [|i IH]; cbn; [split_and!; [lia|lia|by left]|]. destruct (p i) eqn:Hp.
  - destruct IH as (Hle & Hall & Hend). split_and!; [lia| |done]. intros k Hk.
    destruct (decide (k = i)) as [->|]; [done|]. apply Hall. lia.
  - split_and!; [lia|lia|right; rewrite <-Hp; f_equal; lia].
Qed.
Lemma advance_spec p n fuel i :
  (∀ k, n ≤ k → p k = false) → n - i ≤ fuel → i < n →
  ∃ j, advance fuel p i = Ok j ∧ i ≤ j < n ∧ (∀ k, i < k ≤ j → p k = true) ∧ p (S j) = false.
Proof.
  intros Hn. revert i. induction fuel as [|fuel IH]; intros i Hf Hi; [lia|]. cbn. rewrite Nat.add_1_r.
  destruct (p (S i)) eqn:Hp.
  - assert (S i < n) as Hlt by (destruct (Nat.lt_ge_cases (S i) n) as [|Hge]; [done|by rewrite Hn in Hp]).
    destruct (IH (S i)) as (j & -> & Hj & Hall & Hend); [lia|done|]. exists j. split_and!; [done|lia|lia| |done].
    intros k Hk. destruct (decide (k = S i)) as [->|]; [done|]. apply Hall. lia.
  - exists i. split_and!; [done|lia|lia|lia|done].
Qed.

Section mouse.
Context (graphemes : rstring → list rstring) (str_width : rstring → N).
Notation cells := (cells graphemes str_width).

(** A double click takes the longest run of characters of one class around the cell. *)
Lemma word_bounds_run line column c :
  cells line !! cell_index (cells line) column = Some c →
  let cs := cells line in
  let index := cell_index cs column in
  let same k := class_in false cs k = class_of (c_text c) false in
  ∃ i j, word_bounds graphemes str_width line column = Ok (Some (column_of cs i, column_of cs j))
    ∧ i ≤ index ≤ j ∧ j < length cs ∧ (∀ k, i ≤ k ≤ j → same k)
    ∧ (i = 0 ∨ ¬ same (i - 1)) ∧ (S j = length cs ∨ ¬ same (S j)).
Proof.
  intros Hc. cbv zeta. unfold word_bounds. rewrite Hc. cbn -[CopyMode.cells].
  set (cs := cells line) in *. set (index := cell_index cs column) in *.
  set (p := λ k, bool_decide (class_in false cs k = class_of (c_text c) false)).
  assert (index < length cs) as Hlt by by eapply lookup_lt_Some.
  change (advance (length cs) _ index) with (advance (length cs) (λ k, (k <? length cs) && p k) index).
  destruct (retreat_spec p index) as (Hle & Hall & Hend). set (i := retreat p index) in *.
  destruct (advance_spec (λ k, (k <? length cs) && p k) (length cs) (length cs) index)
    as (j & -> & Hj & Hjall & Hjend); [by intros k ->%Nat.ltb_ge|lia|done|].
  destruct (lookup_lt_is_Some_2 cs i) as [ci Hci]; [lia|].
  destruct (lookup_lt_is_Some_2 cs j) as [cj Hcj]; [lia|].
  exists i, j. cbn. unfold vec_index. rewrite Hci, Hcj. cbn. split.
  { unfold column_of. by rewrite Hci, Hcj. }
  assert (∀ k, p k = true → class_in false cs k = class_of (c_text c) false) as Hp
    by by intros k ?%bool_decide_eq_true.
  split_and!; [done|lia|lia| | |].
  - intros k Hk. destruct (decide (k = index)) as [->|]; [unfold class_in; by rewrite Hc|].
    destruct (Nat.lt_ge_cases k index); [apply Hp, Hall; lia|].
    apply Hp. assert (index < k ≤ j) as H2 by lia. by apply Hjall, andb_true_iff in H2 as [_ ?].
  - destruct Hend as [?|Hend]; [by left|right]. by apply bool_decide_eq_false in Hend.
  - apply andb_false_iff in Hjend as [?%Nat.ltb_ge|?%bool_decide_eq_false]; [left; lia|by right].
Qed.
(** From a character of the line a jump never panics, and lands on a character. *)
Lemma jump_on_line kind target cursor line repeat :
  cell_index (cells line) (sp_column cursor) < length (cells line) →
  jump graphemes str_width kind target cursor line repeat = Ok None
  ∨ ∃ i c, cells line !! i = Some c
      ∧ jump graphemes str_width kind target cursor line repeat = Ok (Some (c_column c)).
Proof.
  intros Hi. unfold jump. set (cs := cells line) in *.
  replace (Nat.min (cell_index cs (sp_column cursor)) (length cs)) with (cell_index cs (sp_column cursor)) by lia.
  set (index := cell_index cs (sp_column cursor)) in *. cbv zeta.
  set (found := match kind with JumpForward => _ | _ => _ end).
  destruct found as [i|] eqn:Hf; [right|by left].
  assert (i < length cs) as [c Hc]%lookup_lt_is_Some_2.
  { subst found. destruct kind; cbn in Hf;
      try (apply fmap_Some in Hf as (k & Hf & ->)); apply find_first_Some in Hf as [Hf _];
      rewrite ?elem_of_reverse in Hf; apply elem_of_seq in Hf; lia. }
  exists i, c. split; [done|]. unfold vec_index. by rewrite Hc.
Qed.
(** Past the end of the line it may: when the line ends in the character sought, [T] would
    stop just after it, where there is no cell. *)
Lemma jump_past_end_panics target cursor line cs c :
  cells line = cs ++ [c] → c_text c = [target] →
  cell_index (cells line) (sp_column cursor) = length (cells line) →
  jump graphemes str_width JumpToBackward target cursor line false = Panic.
Proof.
  intros Hcs Hc Hi. unfold jump. rewrite Hi, Nat.min_id, Hcs, length_app, Nat.sub_0_r. cbn [length].
  rewrite Nat.add_1_r, seq_S, reverse_snoc. cbn [find_first]. unfold is_target at 1.
  rewrite lookup_app_r, Nat.sub_diag by lia. cbn. rewrite bool_decide_true by done. cbn. unfold vec_index.
  by rewrite (proj2 (lookup_ge_None _ _)) by (rewrite length_app; cbn; lia).
Qed.
End mouse.
