(* ===== verification/Keys.v ===== *)
(** Keys: their names in bindings, the bindings they resolve to, and the bytes sent for
    them, [crates/embers-client/src/input/] and the key conversions of
    [crates/embers-client/src/configured_client.rs]. Characters are code points. *)

From S2P Require Import Prelude.

(** ** Keys, [encoding.rs] *)

Record Modifiers : Set := mkModifiers {
  md_shift : bool;
  md_alt : bool;
  md_ctrl : bool;
  md_super : bool
}.
#[export] Instance Modifiers_eq_dec : EqDecision Modifiers.
Proof. solve_decision. Defined.
Definition NO_MODIFIERS : Modifiers := mkModifiers false false false false.
Definition only_shift : Modifiers := mkModifiers true false false false.
Definition only_alt : Modifiers := mkModifiers false true false false.
Definition only_ctrl : Modifiers := mkModifiers false false true false.
Definition mods_empty (m : Modifiers) : bool :=
  negb (md_shift m) && negb (md_alt m) && negb (md_ctrl m) && negb (md_super m).
Definition kitty_code (m : Modifiers) : N :=
  let bit (b : bool) n := if b then n else 0%N in
  (N.lor (N.lor (N.lor (bit (md_shift m) 1) (bit (md_alt m) 2)) (bit (md_ctrl m) 4))
     (bit (md_super m) 8) + 1)%N.

Inductive KeyCode : Set :=
  | KChar (ch : N)
  | KEnter | KTab | KBackspace | KEscape
  | KUp | KDown | KLeft | KRight | KHome | KEnd | KInsert | KDelete | KPageUp | KPageDown
  | KFunction (n : N).
#[export] Instance KeyCode_eq_dec : EqDecision KeyCode.
Proof. solve_decision. Defined.

Definition KITTY_DISAMBIGUATE_ESC_CODES : N := 1.
Definition KITTY_REPORT_ALL_KEYS_AS_ESC : N := 8.
Definition mode_disambiguates (mode : N) : bool :=
  negb (N.land mode KITTY_DISAMBIGUATE_ESC_CODES =? 0)%N.
Definition mode_reports_all_keys (mode : N) : bool :=
  negb (N.land mode KITTY_REPORT_ALL_KEYS_AS_ESC =? 0)%N.

(** [char::encode_utf8] *)
Definition encode_utf8 (ch : N) : list N :=
  if (ch <? 128)%N then [ch]
  else if (ch <? 2048)%N then [192 + ch / 64; 128 + ch mod 64]%N
  else if (ch <? 65536)%N then [224 + ch / 4096; 128 + (ch / 64) mod 64; 128 + ch mod 64]%N
  else [240 + ch / 262144; 128 + (ch / 4096) mod 64; 128 + (ch / 64) mod 64; 128 + ch mod 64]%N.

Definition is_ascii_uppercase (ch : N) : bool := ((65 <=? ch) && (ch <=? 90))%N.
Definition char_to_ascii_lowercase (ch : N) : N := if is_ascii_uppercase ch then ch + 32 else ch.
Definition char_to_ascii_uppercase (ch : N) : N :=
  if ((97 <=? ch) && (ch <=? 122))%N then ch - 32 else ch.

Definition ESC : N := 27.
(** [ESC [ parameters final] *)
Definition csi (params : list N) (final : N) : list N := ESC :: 91%N :: params ++ [final].

Definition function_key_csi (n modifier : N) : option (list N) :=
  let tilde number :=
    Some (if (modifier =? 1)%N then csi (decimal number) 126
          else csi (decimal number ++ 59%N :: decimal modifier) 126) in
  if ((1 <=? n) && (n <=? 4))%N then
    let letter := (79 + n)%N in
    Some (if (modifier =? 1)%N then [ESC; 79; letter]%N
          else if (n =? 3)%N then csi (lit "13;" ++ decimal modifier) 126
          else csi (lit "1;" ++ decimal modifier) letter)
  else if (n =? 5)%N then tilde 15%N else if (n =? 6)%N then tilde 17%N
  else if (n =? 7)%N then tilde 18%N else if (n =? 8)%N then tilde 19%N
  else if (n =? 9)%N then tilde 20%N else if (n =? 10)%N then tilde 21%N
  else if (n =? 11)%N then tilde 23%N else if (n =? 12)%N then tilde 24%N
  else None.
Definition functional_csi (code : KeyCode) (mods : Modifiers) : option (list N) :=
  let modifier := kitty_code mods in
  let with_modifier letter :=
    Some (if (modifier =? 1)%N then csi [] letter else csi (lit "1;" ++ decimal modifier) letter) in
  let tilde number :=
    Some (if (modifier =? 1)%N then csi (decimal number) 126
          else csi (decimal number ++ 59%N :: decimal modifier) 126) in
  match code with
  | KUp => with_modifier 65%N
  | KDown => with_modifier 66%N
  | KRight => with_modifier 67%N
  | KLeft => with_modifier 68%N
  | KHome => with_modifier 72%N
  | KEnd => with_modifier 70%N
  | KInsert => tilde 2%N
  | KDelete => tilde 3%N
  | KPageUp => tilde 5%N
  | KPageDown => tilde 6%N
  | KFunction n => function_key_csi n modifier
  | _ => None
  end.

Definition ctrl_byte (ch : N) : option N :=
  if existsb (N.eqb ch) (lit " 2@") then Some 0%N
  else if (ch =? 51)%N then Some 27%N
  else if (ch =? 52)%N then Some 28%N
  else if (ch =? 53)%N then Some 29%N
  else if (ch =? 54)%N then Some 30%N
  else if existsb (N.eqb ch) (lit "7/-") then Some 31%N
  else if existsb (N.eqb ch) (lit "8?") then Some 127%N
  else if (((97 <=? ch) && (ch <=? 122)) || ((65 <=? ch) && (ch <=? 90)) || ((91 <=? ch) && (ch <=? 95)))%N
  then Some (N.land (char_to_ascii_uppercase ch) 31)
  else None.
Definition encode_legacy (code : KeyCode) (mods : Modifiers) : list N :=
  match functional_csi code mods with
  | Some sequence => sequence
  | None =>
      let prefix := if md_alt mods then [ESC] else [] in
      match code with
      | KChar ch =>
          let ch := if md_shift mods then char_to_ascii_uppercase ch else ch in
          prefix ++ match (if md_ctrl mods then ctrl_byte ch else None) with
                    | Some byte => [byte]
                    | None => encode_utf8 ch
                    end
      | KEnter => prefix ++ [13%N]
      | KTab => prefix ++ (if md_shift mods then csi [] 90 else [9%N])
      | KBackspace => prefix ++ [127%N]
      | KEscape => prefix ++ [ESC]
      | _ => []
      end
  end.

Definition kitty_key_number (code : KeyCode) : option N :=
  match code with
  | KChar ch => Some ch
  | KEnter => Some 13%N
  | KTab => Some 9%N
  | KBackspace => Some 127%N
  | KEscape => Some 27%N
  | _ => None
  end.
Definition is_char (code : KeyCode) : bool := match code with KChar _ => true | _ => false end.
Definition encode_kitty (code : KeyCode) (mods : Modifiers) (mode : N) : list N :=
  match functional_csi code mods with
  | Some sequence => sequence
  | None =>
      match kitty_key_number code with
      | None => encode_legacy code mods
      | Some number =>
          let shift_only_text := is_char code && bool_decide (mods = only_shift) in
          if (mods_empty mods || shift_only_text) && negb (mode_reports_all_keys mode)
          then encode_legacy code mods
          else
            let modifiers := kitty_code mods in
            if (modifiers =? 1)%N then csi (decimal number) 117
            else csi (decimal number ++ 59%N :: decimal modifiers) 117
      end
  end.
Definition encode_key (code : KeyCode) (mods : Modifiers) (mode : N) : list N :=
  if mode_disambiguates mode || mode_reports_all_keys mode then encode_kitty code mods mode
  else encode_legacy code mods.

(** ** Key names, [keyparse.rs] *)

Inductive KeyToken : Set :=
  | TChar (ch : N) | TCtrl (ch : N) | TAlt (ch : N)
  | TEnter | TEscape | TBackspace | TTab | TSpace | TLeader
  | TUp | TDown | TLeft | TRight | THome | TEnd | TInsert | TDelete | TPageUp | TPageDown
  | TKey (code : KeyCode) (mods : Modifiers).
#[export] Instance KeyToken_eq_dec : EqDecision KeyToken.
Proof. solve_decision. Defined.

Inductive KeyParseError : Type :=
  | EmptySequence
  | InvalidToken (token : rstring)
  | InvalidModifier (token : rstring)
  | InvalidModifiedKey (token : rstring)
  | NonAsciiControl (token : rstring)
  | UnterminatedToken (notation : rstring)
  | MissingLeader.

(** A [match] on a string: the value of the first name equal to it. *)
Fixpoint named {A} (table : list (string * A)) (s : rstring) : option A :=
  match table with
  | [] => None
  | (name, value) :: table => if bool_decide (s = lit name) then Some value else named table s
  end.
Fixpoint split_once (sep : N) (s : rstring) : option (rstring * rstring) :=
  match s with
  | [] => None
  | c :: s => if (c =? sep)%N then Some ([], s) else prod_map (cons c) id <$> split_once sep s
  end.

Definition BASE_KEYS : list (string * KeyCode) :=
  [("enter", KEnter); ("return", KEnter); ("cr", KEnter); ("esc", KEscape); ("escape", KEscape);
   ("bs", KBackspace); ("backspace", KBackspace); ("tab", KTab); ("space", KChar 32);
   ("up", KUp); ("down", KDown); ("left", KLeft); ("right", KRight); ("home", KHome); ("end", KEnd);
   ("ins", KInsert); ("insert", KInsert); ("del", KDelete); ("delete", KDelete);
   ("pageup", KPageUp); ("pgup", KPageUp);
   ("pagedown", KPageDown); ("pgdown", KPageDown); ("pgdn", KPageDown)]%string.
Definition single_char_token (token : rstring) : option N :=
  match token with [ch] => Some ch | _ => None end.
Definition function_key (lower : rstring) : option N :=
  match lower with
  | c :: stripped =>
      if (c =? 102)%N then
        number ← parse_u8 stripped;
        if ((1 <=? number) && (number <=? 12))%N then Some number else None
      else None
  | [] => None
  end.
Definition parse_base_key (key : rstring) : option KeyCode :=
  let lower := to_ascii_lowercase key in
  match named BASE_KEYS lower with
  | Some code => Some code
  | None =>
      match function_key lower with
      | Some number => Some (KFunction number)
      | None => KChar <$> single_char_token key
      end
  end.

Inductive modifier : Set := ModCtrl | ModAlt | ModShift | ModSuper.
Definition MODIFIERS : list (string * modifier) :=
  [("c", ModCtrl); ("ctrl", ModCtrl); ("a", ModAlt); ("alt", ModAlt); ("m", ModAlt);
   ("s", ModShift); ("shift", ModShift);
   ("d", ModSuper); ("super", ModSuper); ("cmd", ModSuper); ("win", ModSuper)]%string.
Definition add_modifier (m : modifier) (mods : Modifiers) : Modifiers :=
  match m with
  | ModCtrl => mkModifiers (md_shift mods) (md_alt mods) true (md_super mods)
  | ModAlt => mkModifiers (md_shift mods) true (md_ctrl mods) (md_super mods)
  | ModShift => mkModifiers true (md_alt mods) (md_ctrl mods) (md_super mods)
  | ModSuper => mkModifiers (md_shift mods) (md_alt mods) (md_ctrl mods) true
  end.
(** The loop over the leading modifiers, with what has been read so far. Each turn
    shortens [key], and an empty one ends the loop, so as many turns as it has
    characters are enough. *)
Fixpoint take_modifiers (fuel : nat) (token : rstring) (mods : Modifiers) (had_modifier : bool)
    (key : rstring) : (Modifiers * bool * rstring) + KeyParseError :=
  match fuel with
  | 0 => inl (mods, had_modifier, key)
  | S fuel =>
      match split_once 45 key with
      | None | Some ([], _) => inl (mods, had_modifier, key)
      | Some (head, tail) =>
          match named MODIFIERS (to_ascii_lowercase head) with
          | Some m => take_modifiers fuel token (add_modifier m mods) true tail
          | None => inr (InvalidModifier token)
          end
      end
  end.
Definition modified_token (code : KeyCode) (mods : Modifiers) : KeyToken :=
  let folded mods := TKey match code with
                          | KChar ch => KChar (char_to_ascii_lowercase ch)
                          | other => other
                          end mods in
  let shifted mods := mkModifiers true (md_alt mods) (md_ctrl mods) (md_super mods) in
  match code with
  | KChar ch =>
      if bool_decide (mods = only_ctrl) then
        if is_ascii_uppercase ch then folded (shifted mods) else TCtrl ch
      else if bool_decide (mods = only_alt) then
        if is_ascii_uppercase ch then folded (shifted mods) else TAlt ch
      else folded mods
  | _ => folded mods
  end.
Definition parse_modified_token (token : rstring) : KeyToken + KeyParseError :=
  match take_modifiers (length token) token NO_MODIFIERS false token with
  | inr e => inr e
  | inl (mods, had_modifier, key) =>
      match parse_base_key key with
      | None => inr (if had_modifier : bool then InvalidModifiedKey token else InvalidToken token)
      | Some code =>
          let non_ascii := match code with KChar ch => (128 <=? ch)%N | _ => false end in
          if md_ctrl mods && non_ascii then inr (NonAsciiControl token)
          else if negb had_modifier then
            inl match code with KChar ch => TChar ch | code => TKey code NO_MODIFIERS end
          else inl (modified_token code mods)
      end
  end.
Definition TOKENS : list (string * KeyToken) :=
  [("leader", TLeader); ("enter", TEnter); ("return", TEnter); ("cr", TEnter);
   ("esc", TEscape); ("escape", TEscape); ("bs", TBackspace); ("backspace", TBackspace);
   ("tab", TTab); ("space", TSpace); ("up", TUp); ("down", TDown); ("left", TLeft);
   ("right", TRight); ("home", THome); ("end", TEnd); ("ins", TInsert); ("insert", TInsert);
   ("del", TDelete); ("delete", TDelete); ("pageup", TPageUp); ("pgup", TPageUp);
   ("pagedown", TPageDown); ("pgdown", TPageDown); ("pgdn", TPageDown)]%string.
Definition parse_token (token : rstring) : KeyToken + KeyParseError :=
  match named TOKENS (to_ascii_lowercase token) with
  | Some t => inl t
  | None => parse_modified_token token
  end.

(** The loop over [notation]; each turn takes at least one character. *)
Fixpoint parse_keys (fuel : nat) (notation chars : rstring) (sequence : list KeyToken)
    : list KeyToken + KeyParseError :=
  match fuel with
  | 0 => inl sequence
  | S fuel =>
      match chars with
      | [] => inl sequence
      | c :: rest =>
          if (c =? 60)%N then
            match split_once 62 rest with
            | None => inr (UnterminatedToken notation)
            | Some (token, rest) =>
                match parse_token token with
                | inl t => parse_keys fuel notation rest (sequence ++ [t])
                | inr e => inr e
                end
            end
          else if (c =? 32)%N then parse_keys fuel notation rest (sequence ++ [TSpace])
          else parse_keys fuel notation rest (sequence ++ [TChar c])
      end
  end.
Definition parse_key_sequence (notation : rstring) : list KeyToken + KeyParseError :=
  match notation with
  | [] => inr EmptySequence
  | _ => parse_keys (length notation) notation notation []
  end.

Fixpoint expand_leader (sequence leader : list KeyToken) : list KeyToken + KeyParseError :=
  match sequence with
  | [] => inl []
  | token :: sequence =>
      if bool_decide (token = TLeader) then
        match leader with
        | [] => inr MissingLeader
        | _ => match expand_leader sequence leader with
               | inl expanded => inl (leader ++ expanded)
               | inr e => inr e
               end
        end
      else match expand_leader sequence leader with
           | inl expanded => inl (token :: expanded)
           | inr e => inr e
           end
  end.

(** ** Modes and bindings, [modes.rs] and [keymap.rs] *)

Definition NORMAL_MODE : rstring := lit "normal".
Definition COPY_MODE : rstring := lit "copy".
Definition SEARCH_MODE : rstring := lit "search".
Definition SELECT_MODE : rstring := lit "select".
Definition HINTS_MODE : rstring := lit "hints".
Definition PROMPT_MODE : rstring := lit "prompt".
Definition TREE_MODE : rstring := lit "tree".

Inductive FallbackPolicy : Set := Passthrough | Ignore.
Record ModeSpec : Type := mkModeSpec { mode_name : rstring; fallback_policy : FallbackPolicy }.
Record InputState : Type := mkInputState {
  current_mode : rstring;
  pending_sequence : list KeyToken
}.
Definition InputState_default : InputState := mkInputState NORMAL_MODE [].
Definition set_mode (mode : rstring) (s : InputState) : InputState :=
  if bool_decide (current_mode s = mode) then s else mkInputState mode [].
Definition clear_pending (s : InputState) : InputState := mkInputState (current_mode s) [].
Definition push_pending (key : KeyToken) (s : InputState) : InputState :=
  mkInputState (current_mode s) (pending_sequence s ++ [key]).
Definition builtin_modes : gmap rstring ModeSpec :=
  list_to_map ((λ mode, (mode, mkModeSpec mode (if bool_decide (mode = NORMAL_MODE) then Passthrough else Ignore)))
    <$> [NORMAL_MODE; COPY_MODE; SEARCH_MODE; SELECT_MODE; HINTS_MODE; PROMPT_MODE; TREE_MODE]).

Record BindingSpec (T : Type) : Type := mkBindingSpec {
  bind_notation : rstring;
  bind_sequence : list KeyToken;
  bind_target : T
}.
Arguments mkBindingSpec {T} _ _ _.
Arguments bind_notation {T} _.
Arguments bind_sequence {T} _.
Arguments bind_target {T} _.
Record BindingMatch (T : Type) : Type := mkBindingMatch {
  match_mode : rstring;
  match_sequence : list KeyToken;
  match_target : T
}.
Arguments mkBindingMatch {T} _ _ _.
Arguments match_mode {T} _.
Arguments match_sequence {T} _.
Arguments match_target {T} _.
Inductive InputResolution (T : Type) : Type :=
  | ExactMatch (m : BindingMatch T)
  | PrefixMatch
  | Unmatched (mode : rstring) (sequence : list KeyToken) (policy : FallbackPolicy).
Arguments ExactMatch {T} _.
Arguments PrefixMatch {T}.
Arguments Unmatched {T} _ _ _.

Definition resolve_key {T} (bindings : gmap rstring (list (BindingSpec T)))
    (modes : gmap rstring ModeSpec) (state : InputState) (key : KeyToken)
    : InputResolution T * InputState :=
  let state := push_pending key state in
  let mode := current_mode state in
  let pending := pending_sequence state in
  let mode_bindings := default [] (bindings !! mode) in
  match find_first (λ b, bool_decide (bind_sequence b = pending)) mode_bindings with
  | Some b =>
      (ExactMatch (mkBindingMatch mode (bind_sequence b) (bind_target b)), clear_pending state)
  | None =>
      if existsb (λ b, bool_decide (pending `prefix_of` bind_sequence b)) mode_bindings
      then (PrefixMatch, state)
      else
        let policy := match modes !! mode with Some m => fallback_policy m | None => Ignore end in
        (Unmatched mode pending policy, clear_pending state)
  end.

(** ** Key events, [controller.rs] and [configured_client.rs] *)

Inductive KeyEvent : Type :=
  | EChar (ch : N) | EBytes (bytes : list N)
  | EEnter | ETab | EBackspace | EEscape | ECtrl (ch : N) | EAlt (ch : N)
  | EUp | EDown | ELeft | ERight | EHome | EEnd | EInsert | EDelete | EPageUp | EPageDown
  | EKey (code : KeyCode) (mods : Modifiers).

Definition normalize_text_key (key : KeyEvent) : KeyEvent :=
  match key with
  | EKey code mods =>
      if mods_empty mods then
        match code with
        | KChar ch => EChar ch
        | KTab => ETab
        | KEnter => EEnter
        | KBackspace => EBackspace
        | KEscape => EEscape
        | other => EKey other mods
        end
      else key
  | other => other
  end.
Definition normalize_key_token (code : KeyCode) (mods : Modifiers) : KeyToken :=
  let folded := TKey match code with
                     | KChar ch => KChar (char_to_ascii_lowercase ch)
                     | other => other
                     end mods in
  match code with
  | KChar ch =>
      if bool_decide (mods = only_ctrl) then TCtrl (char_to_ascii_lowercase ch)
      else if bool_decide (mods = only_alt) then TAlt (char_to_ascii_lowercase ch)
      else folded
  | _ => folded
  end.
Definition key_event_to_token (key : KeyEvent) : outcome KeyToken :=
  match key with
  | EChar ch => Ok (if (ch =? 32)%N then TSpace else TChar ch)
  | EEnter => Ok TEnter
  | ETab => Ok TTab
  | EBackspace => Ok TBackspace
  | EEscape => Ok TEscape
  | ECtrl ch => Ok (TCtrl (char_to_ascii_lowercase ch))
  | EAlt ch =>
      Ok (if is_ascii_uppercase ch
          then TKey (KChar (char_to_ascii_lowercase ch)) (mkModifiers true true false false)
          else TAlt ch)
  | EUp => Ok TUp
  | EDown => Ok TDown
  | ELeft => Ok TLeft
  | ERight => Ok TRight
  | EHome => Ok THome
  | EEnd => Ok TEnd
  | EInsert => Ok TInsert
  | EDelete => Ok TDelete
  | EPageUp => Ok TPageUp
  | EPageDown => Ok TPageDown
  | EKey code mods => Ok (normalize_key_token code mods)
  | EBytes _ => Err InvalidInput
  end.
(** The key of a token; the leader has none. *)
Definition token_key (token : KeyToken) : option (KeyCode * Modifiers) :=
  match token with
  | TChar ch => Some (KChar ch, NO_MODIFIERS)
  | TSpace => Some (KChar 32, NO_MODIFIERS)
  | TTab => Some (KTab, NO_MODIFIERS)
  | TEnter => Some (KEnter, NO_MODIFIERS)
  | TBackspace => Some (KBackspace, NO_MODIFIERS)
  | TEscape => Some (KEscape, NO_MODIFIERS)
  | TCtrl ch => Some (KChar ch, only_ctrl)
  | TAlt ch => Some (KChar ch, only_alt)
  | TUp => Some (KUp, NO_MODIFIERS)
  | TDown => Some (KDown, NO_MODIFIERS)
  | TLeft => Some (KLeft, NO_MODIFIERS)
  | TRight => Some (KRight, NO_MODIFIERS)
  | THome => Some (KHome, NO_MODIFIERS)
  | TEnd => Some (KEnd, NO_MODIFIERS)
  | TInsert => Some (KInsert, NO_MODIFIERS)
  | TDelete => Some (KDelete, NO_MODIFIERS)
  | TPageUp => Some (KPageUp, NO_MODIFIERS)
  | TPageDown => Some (KPageDown, NO_MODIFIERS)
  | TKey code mods => Some (code, mods)
  | TLeader => None
  end.
Fixpoint sequence_to_bytes (sequence : list KeyToken) (mode : N) : outcome (list N) :=
  match sequence with
  | [] => Ok []
  | token :: sequence =>
      key ← ok_or (token_key token) InvalidInput;
      rest ← sequence_to_bytes sequence mode;
      Ok (encode_key key.1 key.2 mode ++ rest)
  end.
