(* ===== verification/TerminalInput.v ===== *)
(** What the user types, pastes and clicks, read from the bytes of the host terminal,
    [crates/embers-cli/src/interactive.rs]. The delay of a byte counts from the reading of
    the one before. Errors of the terminal itself are not modelled: they end the thread,
    with [TeInputError]. *)

From S2P Require Import Prelude Keys.

(** ** Bytes arriving *)

(** Each byte with the milliseconds to wait for it; the terminal closes at the end. *)
Definition input : Type := list (N * N).
Definition KEY_SEQUENCE_TIMEOUT : N := 15.
Definition KEY_SEQUENCE_CONTINUATION_TIMEOUT : N := 2.

Definition read_byte (inp : input) : option N * input :=
  match inp with [] => (None, []) | (_, b) :: rest => (Some b, rest) end.
(** [poll_fd], then [read_byte] if something came in time. *)
Definition read_optional_byte (timeout : N) (inp : input) : option N * input :=
  match inp with
  | [] => (None, [])
  | (delay, b) :: rest =>
      if (delay <? timeout)%N then (Some b, rest) else (None, ((delay - timeout)%N, b) :: rest)
  end.
(** Read bytes, each within [timeout], until [stop] holds of those read. *)
Fixpoint read_until (timeout : N) (stop : list N → bool) (bytes : list N) (inp : input)
    : list N * input :=
  match inp with
  | [] => (bytes, [])
  | (delay, b) :: rest =>
      if (delay <? timeout)%N then
        let bytes := bytes ++ [b] in
        if stop bytes then (bytes, rest) else read_until timeout stop bytes rest
      else (bytes, ((delay - timeout)%N, b) :: rest)
  end.

Inductive MouseButton : Set := MouseLeft | MouseMiddle | MouseRight.
Record MouseModifiers : Set := mkMouseModifiers { mm_shift : bool; mm_alt : bool; mm_ctrl : bool }.
Inductive MouseEventKind : Set :=
  | MousePress (button : MouseButton)
  | MouseRelease (button : option MouseButton)
  | MouseDrag (button : MouseButton)
  | WheelUp | WheelDown.
Record MouseEvent : Set := mkMouseEvent {
  me_row : N;
  me_column : N;
  me_modifiers : MouseModifiers;
  me_kind : MouseEventKind
}.
Inductive TerminalEvent : Type :=
  | TeKey (key : KeyEvent)
  | TeMouse (mouse : MouseEvent)
  | TePaste (bytes : list N)
  | TeFocus (focused : bool)
  | TeHostReply (bytes : list N)
  | TeIgnored
  | TeConfigChanged
  | TeInputClosed
  | TeInputError (message : rstring).

(** ** UTF-8 *)

(** [std::str::from_utf8]: the characters, if the bytes are well formed. *)
Definition continuation (b : N) : bool := ((128 <=? b) && (b <=? 191))%N.
Definition is_scalar (ch : N) : bool :=
  ((ch <? 55296) || ((57344 <=? ch) && (ch <=? 1114111)))%N.
Fixpoint decode_utf8 (bytes : list N) : option (list N) :=
  match bytes with
  | [] => Some []
  | b :: bytes =>
      if (b <? 128)%N then cons b <$> decode_utf8 bytes
      else if ((194 <=? b) && (b <=? 223))%N then
        match bytes with
        | c1 :: bytes =>
            if continuation c1 then cons ((b - 192) * 64 + (c1 - 128))%N <$> decode_utf8 bytes
            else None
        | _ => None
        end
      else if ((224 <=? b) && (b <=? 239))%N then
        match bytes with
        | c1 :: c2 :: bytes =>
            let ch := ((b - 224) * 4096 + (c1 - 128) * 64 + (c2 - 128))%N in
            if continuation c1 && continuation c2 && (2048 <=? ch)%N && is_scalar ch
            then cons ch <$> decode_utf8 bytes else None
        | _ => None
        end
      else if ((240 <=? b) && (b <=? 244))%N then
        match bytes with
        | c1 :: c2 :: c3 :: bytes =>
            let ch := ((b - 240) * 262144 + (c1 - 128) * 4096 + (c2 - 128) * 64 + (c3 - 128))%N in
            if continuation c1 && continuation c2 && continuation c3 && (65536 <=? ch)%N && is_scalar ch
            then cons ch <$> decode_utf8 bytes else None
        | _ => None
        end
      else None
  end.
Definition utf8_width (first : N) : nat :=
  if (first <=? 127)%N then 1
  else if ((192 <=? first) && (first <=? 223))%N then 2
  else if ((224 <=? first) && (first <=? 239))%N then 3
  else if ((240 <=? first) && (first <=? 247))%N then 4
  else 0.
(** The rest of a character; a byte that does not come leaves what came. *)
Fixpoint read_character (n : nat) (bytes : list N) (inp : input) : (list N * bool) * input :=
  match n with
  | 0 => ((bytes, true), inp)
  | S n =>
      match read_byte inp with
      | (None, inp) => ((bytes, false), inp)
      | (Some b, inp) => read_character n (bytes ++ [b]) inp
      end
  end.
Definition decode_utf8_key (first : N) (inp : input) : KeyEvent * input :=
  if utf8_width first <=? 1 then (EBytes [first], inp)
  else
    let '((bytes, whole), inp) := read_character (utf8_width first - 1) [first] inp in
    (if whole : bool then
       match decode_utf8 bytes ≫= head with
       | Some ch => EChar ch
       | None => EBytes bytes
       end
     else EBytes bytes, inp).

(** ** Key reports *)

Fixpoint strip_prefix (prefix s : list N) : option (list N) :=
  match prefix, s with
  | [], _ => Some s
  | c :: prefix, d :: s => if (c =? d)%N then strip_prefix prefix s else None
  | _, [] => None
  end.
Definition split_last (s : list N) : option (N * list N) :=
  match reverse s with [] => None | c :: s => Some (c, reverse s) end.
Definition strip_suffix_byte (c : N) (s : list N) : option (list N) :=
  last ← split_last s;
  if (last.1 =? c)%N then Some last.2 else None.
Definition ends_with (suffix s : list N) : bool := bool_decide (suffix `suffix_of` s).
Definition CSI : list N := [ESC; 91%N].
Definition all_digits (s : list N) : bool :=
  match s with [] => false | _ => forallb (λ c, (48 <=? c) && (c <=? 57))%N s end.

Inductive ExtendedKey : Type := ExtendedEvent (key : KeyEvent) | ExtendedConsumed.

Definition decode_kitty_mods (value : N) : option Modifiers :=
  if (value =? 0)%N then None
  else
    let mask := N.ldiff (value - 1) (64 + 128) in
    if negb (N.ldiff mask 15 =? 0)%N then None
    else Some (mkModifiers (N.testbit mask 0) (N.testbit mask 1) (N.testbit mask 2) (N.testbit mask 3)).
(** A parameter that is not UTF-8 is not digits either. *)
Definition modify_other_keys_as_kitty (bytes : list N) : option (list N) :=
  params ← strip_prefix (CSI ++ lit "27;") bytes ≫= strip_suffix_byte 126;
  parts ← split_once 59 params;
  if all_digits parts.1 && all_digits parts.2
  then Some (CSI ++ parts.2 ++ 59%N :: parts.1 ++ [117%N]) else None.

Definition extended_code (final_byte first : N) : option KeyCode :=
  let letter code := if (first =? 1)%N then Some code else None in
  if (final_byte =? 117)%N then
    if (first =? 9)%N then Some KTab
    else if (first =? 13)%N then Some KEnter
    else if (first =? 27)%N then Some KEscape
    else if (first =? 127)%N then Some KBackspace
    else if ((57344 <=? first) && (first <=? 63743))%N then None
    else if is_scalar first then Some (KChar first) else None
  else if (final_byte =? 65)%N then letter KUp
  else if (final_byte =? 66)%N then letter KDown
  else if (final_byte =? 67)%N then letter KRight
  else if (final_byte =? 68)%N then letter KLeft
  else if (final_byte =? 72)%N then letter KHome
  else if (final_byte =? 70)%N then letter KEnd
  else if (final_byte =? 80)%N then letter (KFunction 1)
  else if (final_byte =? 81)%N then letter (KFunction 2)
  else if (final_byte =? 83)%N then letter (KFunction 4)
  else if (final_byte =? 126)%N then
    snd <$> find_first (λ row, row.1 =? first)%N
      [(2, KInsert); (3, KDelete); (5, KPageUp); (6, KPageDown); (13, KFunction 3);
       (15, KFunction 5); (17, KFunction 6); (18, KFunction 7); (19, KFunction 8);
       (20, KFunction 9); (21, KFunction 10); (23, KFunction 11); (24, KFunction 12)]%N
  else None.

(** [CSI first ; modifier : event u] and the like. A report with more fields, or with
    bytes that are not ASCII, is not one. *)
Definition parse_extended_params (params : list N) : option (N * N * option (list N)) :=
  match split_where (N.eqb 59) params with
  | [first] => first ← parse_u32 first; Some (first, 1%N, None)
  | [first; modifier] =>
      first ← parse_u32 first;
      match split_where (N.eqb 58) modifier with
      | [value] => value ← parse_u32 value; Some (first, value, None)
      | [value; event_type] => value ← parse_u32 value; Some (first, value, Some event_type)
      | _ => None
      end
  | _ => None
  end.
Definition parse_plain_extended (bytes : list N) : option ExtendedKey :=
  body ← strip_prefix CSI bytes;
  last ← split_last body;
  fields ← parse_extended_params last.2;
  let '(first, modifier_value, event_type) := fields in
  code ← extended_code last.1 first;
  let pressed := match event_type with
                 | None => Some true
                 | Some t => if bool_decide (t = lit "1") || bool_decide (t = lit "2") then Some true
                             else if bool_decide (t = lit "3") then Some false else None
                 end in
  pressed ← pressed;
  if pressed : bool then
    mods ← decode_kitty_mods modifier_value;
    Some (ExtendedEvent (EKey code mods))
  else Some ExtendedConsumed.
(** The rewritten report ends in [u], so it is not rewritten again. *)
Definition parse_extended_key (bytes : list N) : option ExtendedKey :=
  parse_plain_extended (default bytes (modify_other_keys_as_kitty bytes)).

(** ** Mouse reports *)

Definition mouse_button (code : N) : option MouseButton :=
  if (code =? 0)%N then Some MouseLeft
  else if (code =? 1)%N then Some MouseMiddle
  else if (code =? 2)%N then Some MouseRight
  else None.
Definition strip_mouse_suffix (body : list N) : option (list N) :=
  match strip_suffix_byte 77 body with Some s => Some s | None => strip_suffix_byte 109 body end.
Definition is_sgr_mouse_report (bytes : list N) : bool :=
  match strip_prefix (CSI ++ lit "<") bytes ≫= strip_mouse_suffix with
  | Some params =>
      (length (split_where (N.eqb 59) params) =? 3)
      && forallb (λ c, ((48 <=? c) && (c <=? 57)) || (c =? 59))%N params
  | None => false
  end.
Definition mouse_kind (code suffix : N) : option MouseEventKind :=
  let button_code := N.land code 3 in
  if N.testbit code 6 then
    if (button_code =? 0)%N then Some WheelUp
    else if (button_code =? 1)%N then Some WheelDown else None
  else if N.testbit code 5 then MouseDrag <$> mouse_button button_code
  else if (suffix =? 109)%N then Some (MouseRelease (mouse_button button_code))
  else MousePress <$> mouse_button button_code.
Definition mouse_event (payload : list N) (suffix : N) : option MouseEvent :=
  match split_where (N.eqb 59) payload with
  | [code; column; row] =>
      code ← parse_u16 code;
      column ← parse_u16 column;
      row ← parse_u16 row;
      kind ← mouse_kind code suffix;
      Some (mkMouseEvent (row - 1)%N (column - 1)%N
              (mkMouseModifiers (N.testbit code 2) (N.testbit code 3) (N.testbit code 4)) kind)
  | _ => None
  end.
(** [split_at] panics inside a character: the last byte of the text must be one. *)
Definition parse_sgr_mouse (bytes : list N) : outcome (option MouseEvent) :=
  match decode_utf8 bytes, strip_prefix (CSI ++ lit "<") bytes with
  | Some _, Some body =>
      match split_last body with
      | None => Ok None
      | Some (suffix, payload) =>
          if (128 <=? suffix)%N then Panic
          else if ((suffix =? 77) || (suffix =? 109))%N then Ok (mouse_event payload suffix)
          else Ok None
      end
  | _, _ => Ok None
  end.

(** ** Control sequences *)

Definition is_csi_final_byte (byte : N) : bool := ((64 <=? byte) && (byte <=? 126))%N.
Definition ends_csi (bytes : list N) : bool :=
  match last bytes with Some b => is_csi_final_byte b | None => false end.
Definition PLAIN_CSI : list (string * TerminalEvent) :=
  [("A", TeKey EUp); ("B", TeKey EDown); ("C", TeKey ERight); ("D", TeKey ELeft);
   ("1~", TeKey EHome); ("H", TeKey EHome); ("2~", TeKey EInsert); ("3~", TeKey EDelete);
   ("4~", TeKey EEnd); ("F", TeKey EEnd); ("5~", TeKey EPageUp); ("6~", TeKey EPageDown);
   ("Z", TeKey (EKey KTab only_shift)); ("I", TeFocus true); ("O", TeFocus false)]%string.
Definition parse_csi_event (bytes : list N) : outcome (option TerminalEvent) :=
  match strip_prefix CSI bytes ≫= named PLAIN_CSI with
  | Some event => Ok (Some event)
  | None =>
      match parse_extended_key bytes with
      | Some (ExtendedEvent key) => Ok (Some (TeKey key))
      | Some ExtendedConsumed => Ok (Some TeIgnored)
      | None =>
          mouse ← parse_sgr_mouse bytes;
          Ok match mouse with
             | Some m => Some (TeMouse m)
             | None => if is_sgr_mouse_report bytes then Some TeIgnored else None
             end
      end
  end.
Definition is_csi_report (bytes : list N) : bool :=
  match bytes !! 2 with
  | Some b => existsb (N.eqb b) (lit "?>=")
  | None => false
  end || ((4 <? length bytes) && ends_with (lit "$y") bytes).

Definition BRACKETED_PASTE_END : list N := CSI ++ lit "201~".
(** Reads without a time limit, to the end mark or the end of the input. *)
Fixpoint read_bracketed_paste (bytes : list N) (inp : input) : list N * input :=
  match inp with
  | [] => (bytes, [])
  | (_, b) :: rest =>
      let bytes := bytes ++ [b] in
      if ends_with BRACKETED_PASTE_END bytes
      then (take (length bytes - length BRACKETED_PASTE_END) bytes, rest)
      else read_bracketed_paste bytes rest
  end.
Definition read_csi_event (inp : input) : outcome TerminalEvent * input :=
  let '(bytes, inp) := read_until KEY_SEQUENCE_CONTINUATION_TIMEOUT ends_csi CSI inp in
  if bool_decide (bytes = CSI ++ lit "200~") then
    let '(bytes, inp) := read_bracketed_paste [] inp in (Ok (TePaste bytes), inp)
  else
    (event ← parse_csi_event bytes;
     Ok match event with
        | Some event => event
        | None => if is_csi_report bytes then TeHostReply bytes else TeKey (EBytes bytes)
        end, inp).

Definition read_ss3_event (inp : input) : TerminalEvent * input :=
  match read_optional_byte KEY_SEQUENCE_CONTINUATION_TIMEOUT inp with
  | (None, inp) => (TeKey (EBytes [ESC; 79%N]), inp)
  | (Some final_byte, inp) =>
      (TeKey (if (final_byte =? 65)%N then EUp
              else if (final_byte =? 66)%N then EDown
              else if (final_byte =? 67)%N then ERight
              else if (final_byte =? 68)%N then ELeft
              else if ((80 <=? final_byte) && (final_byte <=? 83))%N
              then EKey (KFunction (final_byte - 80 + 1)) NO_MODIFIERS
              else EBytes [ESC; 79%N; final_byte]), inp)
  end.

Definition MAX_HOST_STRING_LEN : nat := N.to_nat (64 * 1024).
Definition ends_control_string (introducer : N) (bytes : list N) : bool :=
  ((4 <=? length bytes) && ends_with [ESC; 92%N] bytes)
  || ((introducer =? 93)%N && ends_with [7%N] bytes).
Definition read_string_event (introducer : N) (inp : input) : TerminalEvent * input :=
  match read_optional_byte KEY_SEQUENCE_CONTINUATION_TIMEOUT inp with
  | (None, inp) => (TeKey (EAlt introducer), inp)
  | (Some first, inp) =>
      let stop bytes := (MAX_HOST_STRING_LEN <=? length bytes) || ends_control_string introducer bytes in
      let bytes := [ESC; introducer; first] in
      let '(bytes, inp) := if stop bytes then (bytes, inp)
                           else read_until KEY_SEQUENCE_TIMEOUT stop bytes inp in
      (TeHostReply bytes, inp)
  end.

Definition read_escape_event (inp : input) : outcome TerminalEvent * input :=
  match read_optional_byte KEY_SEQUENCE_TIMEOUT inp with
  | (None, inp) => (Ok (TeKey EEscape), inp)
  | (Some next, inp) =>
      if (next =? 91)%N then read_csi_event inp
      else if (next =? 79)%N then let '(event, inp) := read_ss3_event inp in (Ok event, inp)
      else if existsb (N.eqb next) (lit "P_]") then
        let '(event, inp) := read_string_event next inp in (Ok event, inp)
      else if (next <? 128)%N then (Ok (TeKey (EAlt next)), inp)
      else
        let '(bytes, inp) :=
          read_until KEY_SEQUENCE_CONTINUATION_TIMEOUT (λ _, false) [ESC; next] inp in
        (Ok (TeKey (EBytes bytes)), inp)
  end.
Definition read_terminal_event (inp : input) : outcome (option TerminalEvent) * input :=
  match read_byte inp with
  | (None, inp) => (Ok None, inp)
  | (Some first, inp) =>
      let key k := (Ok (Some (TeKey k)), inp) in
      if ((first =? 13) || (first =? 10))%N then key EEnter
      else if (first =? 9)%N then key ETab
      else if (first =? 127)%N then key EBackspace
      else if (first =? 27)%N then
        let '(event, inp) := read_escape_event inp in (event ← event; Ok (Some event), inp)
      else if (first <=? 31)%N then key (ECtrl (char_to_ascii_lowercase (N.lor first 64)))
      else if (first <=? 126)%N then key (EChar first)
      else let '(k, inp) := decode_utf8_key first inp in (Ok (Some (TeKey k)), inp)
  end.
(** The input thread: every event, then that the input has closed. Each turn takes a
    byte, so more turns than bytes are enough. *)
Fixpoint input_thread (fuel : nat) (inp : input) : outcome (list TerminalEvent) :=
  match fuel with
  | 0 => OutOfFuel
  | S fuel =>
      let '(event, inp) := read_terminal_event inp in
      event ← event;
      match event with
      | None => Ok [TeInputClosed]
      | Some event => rest ← input_thread fuel inp; Ok (event :: rest)
      end
  end.
Definition is_quit_key (key : KeyEvent) : bool :=
  match key with
  | ECtrl ch => (ch =? 113)%N
  | EKey (KChar ch) mods => (ch =? 113)%N && bool_decide (mods = only_ctrl)
  | _ => false
  end.
