(* ===== verification/Prompt.v ===== *)
(** The command prompt, [crates/embers-client/src/command_prompt.rs], with the keys that edit it
    ([handle_prompt_key] of [configured_client.rs]): editing a line, as Emacs and vi keys do,
    and recalling lines typed before. Then what editing keeps: the cursor is in the line,
    nothing is read outside of it, and the line is edited as the text before and after
    the cursor. *)

From S2P Require Import Prelude Keys.

Definition PROMPT_HISTORY_LIMIT : nat := 100.
Inductive StatusKeys : Set := SkEmacs | SkVi.
Definition StatusKeys_parse (value : rstring) : option StatusKeys :=
  if decide (value = lit "emacs") then Some SkEmacs
  else if decide (value = lit "vi") then Some SkVi else None.
Inductive ViMode : Set := ViInsert | ViNormal.
Record ViState : Set := mkViState { vi_mode_of : ViMode; vi_pending : option N }.

Inductive PromptClass : Set := PcBlank | PcWord | PcPunctuation.
#[export] Instance PromptClass_eq_dec : EqDecision PromptClass.
Proof. solve_decision. Defined.

Record CommandPrompt : Type := mkCommandPrompt {
  cp_label : rstring;
  cp_input : rstring;
  cp_cursor : nat;
  cp_template : option rstring;
  cp_return_mode : rstring;
  cp_history_index : option nat;
  cp_draft : rstring;
  cp_vi : option ViState
}.
Definition cp_set_line (input : rstring) (cursor : nat) (p : CommandPrompt) : CommandPrompt :=
  mkCommandPrompt (cp_label p) input cursor (cp_template p) (cp_return_mode p) (cp_history_index p)
    (cp_draft p) (cp_vi p).
Definition cp_set_cursor (cursor : nat) (p : CommandPrompt) : CommandPrompt := cp_set_line (cp_input p) cursor p.
Definition cp_set_history (index : option nat) (draft : rstring) (p : CommandPrompt) : CommandPrompt :=
  mkCommandPrompt (cp_label p) (cp_input p) (cp_cursor p) (cp_template p) (cp_return_mode p) index draft
    (cp_vi p).
Definition cp_set_vi (vi : option ViState) (p : CommandPrompt) : CommandPrompt :=
  mkCommandPrompt (cp_label p) (cp_input p) (cp_cursor p) (cp_template p) (cp_return_mode p)
    (cp_history_index p) (cp_draft p) vi.

Definition CommandPrompt_new (label initial : rstring) (template : option rstring) (return_mode : rstring)
    : CommandPrompt :=
  mkCommandPrompt label initial (length initial) template return_mode None [] None.
Definition with_vi_keys (p : CommandPrompt) : CommandPrompt := cp_set_vi (Some (mkViState ViInsert None)) p.
Definition vi_mode (p : CommandPrompt) : option ViMode := vi_mode_of <$> cp_vi p.

(** ** Editing

    The bytes of a line are cut between characters only, so positions count characters. *)

Definition chars (p : CommandPrompt) : nat := length (cp_input p).
Definition char_pos (p : CommandPrompt) (n : nat) : nat := Nat.min n (chars p).
(** [input.replace_range(from..to, "")] *)
Definition remove_range (from to : nat) (s : rstring) : outcome rstring :=
  if from <=? to then Ok (take from s ++ drop to s) else Panic.
Definition one_line (text : rstring) : rstring := (λ ch, if is_control ch then 32%N else ch) <$> text.

Definition prompt_insert (text : rstring) (p : CommandPrompt) : CommandPrompt :=
  let at_ := char_pos p (cp_cursor p) in
  let text := one_line text in
  cp_set_line (take at_ (cp_input p) ++ text ++ drop at_ (cp_input p)) (cp_cursor p + length text) p.
Definition prompt_backspace (p : CommandPrompt) : outcome CommandPrompt :=
  match cp_cursor p with
  | 0 => Ok p
  | S before =>
      input ← remove_range (char_pos p before) (char_pos p (cp_cursor p)) (cp_input p);
      Ok (cp_set_line input before p)
  end.
Definition prompt_delete (p : CommandPrompt) : outcome CommandPrompt :=
  if chars p <=? cp_cursor p then Ok p
  else
    input ← remove_range (char_pos p (cp_cursor p)) (char_pos p (cp_cursor p + 1)) (cp_input p);
    Ok (cp_set_line input (cp_cursor p) p).
Definition prompt_left (p : CommandPrompt) : CommandPrompt := cp_set_cursor (cp_cursor p - 1) p.
Definition prompt_right (p : CommandPrompt) : CommandPrompt :=
  cp_set_cursor (Nat.min (cp_cursor p + 1) (chars p)) p.
Definition prompt_home (p : CommandPrompt) : CommandPrompt := cp_set_cursor 0 p.
Definition prompt_end (p : CommandPrompt) : CommandPrompt := cp_set_cursor (chars p) p.
Definition kill_to_start (p : CommandPrompt) : outcome CommandPrompt :=
  input ← remove_range 0 (char_pos p (cp_cursor p)) (cp_input p);
  Ok (cp_set_line input 0 p).
Definition kill_to_end (p : CommandPrompt) : CommandPrompt :=
  cp_set_line (take (char_pos p (cp_cursor p)) (cp_input p)) (cp_cursor p) p.

(** [while i > 0 && q(chars[i - 1]) { i -= 1 }] *)
Fixpoint back_while (q : N → bool) (s : rstring) (i : nat) : outcome nat :=
  match i with
  | 0 => Ok 0
  | S j => ch ← vec_index j s; if q ch : bool then back_while q s j else Ok i
  end.
(** [while i < chars.len() && q(chars[i]) { i += 1 }], with the characters left to structure it. *)
Fixpoint skip_while (q : N → bool) (l : rstring) (i : nat) : nat :=
  match l with
  | [] => i
  | ch :: l => if q ch then skip_while q l (S i) else i
  end.
Definition forward_while (q : N → bool) (s : rstring) (i : nat) : nat := skip_while q (drop i s) i.

Definition delete_word (p : CommandPrompt) : outcome CommandPrompt :=
  start ← back_while is_whitespace (cp_input p) (cp_cursor p);
  start ← back_while (λ ch, negb (is_whitespace ch)) (cp_input p) start;
  input ← remove_range (char_pos p start) (char_pos p (cp_cursor p)) (cp_input p);
  Ok (cp_set_line input start p).

(** ** History *)

Definition set_input (input : rstring) (p : CommandPrompt) : CommandPrompt :=
  cp_set_line input (length input) p.
Definition history_up (history : list rstring) (p : CommandPrompt) : outcome CommandPrompt :=
  let show next p :=
    line ← vec_index next history; Ok (set_input line (cp_set_history (Some next) (cp_draft p) p)) in
  match cp_history_index p with
  | None =>
      match history with
      | [] => Ok p
      | _ => show (length history - 1) (cp_set_history None (cp_input p) p)
      end
  | Some 0 => Ok p
  | Some (S index) => show index p
  end.
Definition history_down (history : list rstring) (p : CommandPrompt) : outcome CommandPrompt :=
  match cp_history_index p with
  | None => Ok p
  | Some index =>
      if index + 1 <? length history then
        line ← vec_index (index + 1) history;
        Ok (set_input line (cp_set_history (Some (index + 1)) (cp_draft p) p))
      else Ok (set_input (cp_draft p) (cp_set_history None [] p))
  end.
Definition record_history (line : rstring) (history : list rstring) : list rstring :=
  let newest := match last history with Some l => bool_decide (l = line) | None => false end in
  if (match trim line with [] => true | _ => false end) || newest then history
  else
    let history := history ++ [line] in
    drop (length history - PROMPT_HISTORY_LIMIT) history.

(** ** The line to run *)

(** [s.replace(pattern, with)] *)
Fixpoint replace_in (fuel : nat) (pattern with_ s : rstring) : rstring :=
  match fuel, s with
  | 0, _ | _, [] => []
  | S fuel, c :: rest =>
      if decide (take (length pattern) s = pattern)
      then with_ ++ replace_in fuel pattern with_ (drop (length pattern) s)
      else c :: replace_in fuel pattern with_ rest
  end.
Definition replace (pattern with_ s : rstring) : rstring := replace_in (length s) pattern with_ s.
(** With [shell_words::quote], of the crate of that name. *)
Definition command_line (quote : rstring → rstring) (p : CommandPrompt) : rstring :=
  match cp_template p with
  | Some template => replace (lit "%%") (quote (cp_input p)) template
  | None => cp_input p
  end.

Definition prompt_display (p : CommandPrompt) : rstring := cp_label p ++ cp_input p.
(** With [UnicodeWidthStr::width], of the crate unicode_width. *)
Definition cursor_column (str_width : rstring → N) (p : CommandPrompt) : N :=
  (str_width (cp_label p) + str_width (take (cp_cursor p) (cp_input p)))%N.

(** ** Keys of vi *)

Section vi.
(** [char::is_alphanumeric]: the letters and numbers of Unicode. *)
Context (is_alphanumeric : N → bool).

Definition char_class (ch : N) : PromptClass :=
  if is_whitespace ch then PcBlank
  else if is_alphanumeric ch || (ch =? 95)%N then PcWord
  else PcPunctuation.
Definition in_class (c : PromptClass) (ch : N) : bool := bool_decide (char_class ch = c).

Definition line_next_word (p : CommandPrompt) : nat :=
  let s := cp_input p in
  let index :=
    match s !! cp_cursor p with
    | Some ch =>
        if in_class PcBlank ch then cp_cursor p else forward_while (in_class (char_class ch)) s (cp_cursor p)
    | None => cp_cursor p
    end in
  forward_while (in_class PcBlank) s index.
Definition line_previous_word (p : CommandPrompt) : outcome nat :=
  let s := cp_input p in
  index ← back_while (in_class PcBlank) s (Nat.min (cp_cursor p) (length s));
  match index with
  | 0 => Ok 0
  | S before => ch ← vec_index before s; back_while (in_class (char_class ch)) s index
  end.
Definition word_end_from (p : CommandPrompt) (index : nat) : nat :=
  let s := cp_input p in
  match s !! index with
  | Some ch => forward_while (in_class (char_class ch)) s (index + 1) - 1
  | None => index
  end.
Definition line_word_end (p : CommandPrompt) : nat :=
  let s := cp_input p in
  let index := forward_while (in_class PcBlank) s (cp_cursor p + 1) in
  if length s <=? index then length s - 1 else word_end_from p index.

Definition set_vi (mode : ViMode) (p : CommandPrompt) : CommandPrompt := cp_set_vi (Some (mkViState mode None)) p.
Definition vi_operator (operator motion : N) (p : CommandPrompt) : outcome CommandPrompt :=
  let p := set_vi ViNormal p in
  if negb (motion =? 119)%N then Ok p
  else
    let on_word := match cp_input p !! cp_cursor p with Some ch => negb (is_whitespace ch) | None => false end in
    let stop := if (operator =? 99)%N && on_word then word_end_from p (cp_cursor p) + 1 else line_next_word p in
    input ← remove_range (char_pos p (cp_cursor p)) (char_pos p stop) (cp_input p);
    let p := cp_set_line input (cp_cursor p) p in
    Ok (if (operator =? 99)%N then set_vi ViInsert p else p).
Definition vi_command (ch : N) (history : list rstring) (p : CommandPrompt) : outcome CommandPrompt :=
  match ch with
  | 104 => Ok (prompt_left p)
  | 108 => Ok (prompt_right p)
  | 48 => Ok (prompt_home p)
  | 36 => Ok (prompt_end p)
  | 119 => Ok (cp_set_cursor (line_next_word p) p)
  | 98 => cursor ← line_previous_word p; Ok (cp_set_cursor cursor p)
  | 101 => Ok (cp_set_cursor (line_word_end p) p)
  | 120 => prompt_delete p
  | 68 => Ok (kill_to_end p)
  | 67 => Ok (set_vi ViInsert (kill_to_end p))
  | 105 => Ok (set_vi ViInsert p)
  | 97 => Ok (set_vi ViInsert (prompt_right p))
  | 65 => Ok (set_vi ViInsert (prompt_end p))
  | 73 => Ok (set_vi ViInsert (prompt_home p))
  | 107 => history_up history p
  | 106 => history_down history p
  | 100 | 99 => Ok (cp_set_vi (Some (mkViState ViNormal (Some ch))) p)
  | _ => Ok p
  end%N.
Definition clamp_normal_cursor (p : CommandPrompt) : CommandPrompt :=
  match vi_mode p with
  | Some ViNormal => cp_set_cursor (Nat.min (cp_cursor p) (chars p - 1)) p
  | _ => p
  end.
(** Whether the key was taken, and the prompt after it. *)
Definition vi_key (key : KeyEvent) (history : list rstring) (p : CommandPrompt)
    : outcome (bool * CommandPrompt) :=
  match cp_vi p with
  | None => Ok (false, p)
  | Some vi =>
      match vi_mode_of vi, key with
      | ViInsert, EEscape => Ok (true, prompt_left (set_vi ViNormal p))
      | ViInsert, _ => Ok (false, p)
      | ViNormal, EChar ch =>
          p ← match vi_pending vi with
              | Some operator => vi_operator operator ch p
              | None => vi_command ch history p
              end;
          Ok (true, clamp_normal_cursor p)
      | ViNormal, (EEnter | EEscape | ELeft | ERight | EUp | EDown | EHome | EEnd | EBackspace | EDelete) =>
          Ok (false, set_vi ViNormal p)
      | ViNormal, ECtrl ch => Ok (negb ((ch =? 99) || (ch =? 103))%N, set_vi ViNormal p)
      | ViNormal, _ => Ok (true, set_vi ViNormal p)
      end
  end.

(** ** The keys of an open prompt *)

(** [String::from_utf8_lossy]: each longest beginning of a character that is not one becomes
    the replacement character. *)
Definition second_in (b c : N) : bool :=
  (if b =? 224 then (160 <=? c) && (c <=? 191)
   else if b =? 237 then (128 <=? c) && (c <=? 159)
   else if b =? 240 then (144 <=? c) && (c <=? 191)
   else if b =? 244 then (128 <=? c) && (c <=? 143)
   else (128 <=? c) && (c <=? 191))%N.
Definition continues (c : N) : bool := ((128 <=? c) && (c <=? 191))%N.
Fixpoint lossy (fuel : nat) (bytes : list N) : rstring :=
  match fuel, bytes with
  | 0, _ | _, [] => []
  | S fuel, b :: rest =>
      if (b <? 128)%N then b :: lossy fuel rest
      else if negb ((194 <=? b) && (b <=? 244))%N then 65533%N :: lossy fuel rest
      else
        match rest with
        | c1 :: rest1 =>
            if negb (second_in b c1) then 65533%N :: lossy fuel rest
            else if (b <? 224)%N then ((b - 192) * 64 + (c1 - 128))%N :: lossy fuel rest1
            else
              match rest1 with
              | c2 :: rest2 =>
                  if negb (continues c2) then 65533%N :: lossy fuel rest1
                  else if (b <? 240)%N
                  then ((b - 224) * 4096 + (c1 - 128) * 64 + (c2 - 128))%N :: lossy fuel rest2
                  else
                    match rest2 with
                    | c3 :: rest3 =>
                        if negb (continues c3) then 65533%N :: lossy fuel rest2
                        else ((b - 240) * 262144 + (c1 - 128) * 4096 + (c2 - 128) * 64 + (c3 - 128))%N
                               :: lossy fuel rest3
                    | [] => [65533%N]
                    end
              | [] => [65533%N]
              end
        | [] => [65533%N]
        end
  end.
Definition from_utf8_lossy (bytes : list N) : rstring := lossy (length bytes) bytes.

(** The part of the client that prompts use: the open prompt, the lines run before and the
    mode of its keys. *)
Record PromptClient : Type := mkPromptClient {
  pc_prompt : option CommandPrompt; pc_history : list rstring; pc_mode : rstring }.
Definition NORMAL_MODE_NAME : rstring := lit "normal".
(** What the key edits, or [None] for the keys that edit nothing. *)
Definition edit_key (key : KeyEvent) (history : list rstring) (p : CommandPrompt) : outcome CommandPrompt :=
  match key with
  | EChar ch => Ok (prompt_insert [ch] p)
  | EBytes bytes => Ok (prompt_insert (from_utf8_lossy bytes) p)
  | EBackspace => prompt_backspace p
  | EDelete => prompt_delete p
  | ELeft => Ok (prompt_left p)
  | ERight => Ok (prompt_right p)
  | EHome => Ok (prompt_home p)
  | EEnd => Ok (prompt_end p)
  | EUp => history_up history p
  | EDown => history_down history p
  | ECtrl ch =>
      match ch with
      | 104 => prompt_backspace p
      | 100 => prompt_delete p
      | 98 => Ok (prompt_left p)
      | 102 => Ok (prompt_right p)
      | 97 => Ok (prompt_home p)
      | 101 => Ok (prompt_end p)
      | 117 => kill_to_start p
      | 107 => Ok (kill_to_end p)
      | 119 => delete_word p
      | 112 => history_up history p
      | 110 => history_down history p
      | _ => Ok p
      end%N
  | _ => Ok p
  end.
Definition commit_command_prompt (quote : rstring → rstring) (c : PromptClient)
    : PromptClient * option rstring :=
  match pc_prompt c with
  | None => (c, None)
  | Some p =>
      let history := match cp_template p with
                     | None => record_history (cp_input p) (pc_history c) | Some _ => pc_history c end in
      (mkPromptClient None history (cp_return_mode p), Some (command_line quote p))
  end.
(** The client after a key, and the command line it runs. *)
Definition handle_prompt_key (quote : rstring → rstring) (key : KeyEvent) (c : PromptClient)
    : outcome (PromptClient * option rstring) :=
  match pc_prompt c with
  | None => Ok (mkPromptClient None (pc_history c) NORMAL_MODE_NAME, None)
  | Some p =>
      let showing p := mkPromptClient (Some p) (pc_history c) (pc_mode c) in
      '(taken, p) ← vi_key key (pc_history c) p;
      if taken : bool then Ok (showing p, None)
      else
        let cancel := Ok (mkPromptClient None (pc_history c) (cp_return_mode p), None) in
        match key with
        | EEnter => Ok (commit_command_prompt quote (showing p))
        | EEscape => cancel
        | ECtrl ch =>
            if ((ch =? 99) || (ch =? 103))%N then cancel
            else p ← edit_key key (pc_history c) p; Ok (showing p, None)
        | _ => p ← edit_key key (pc_history c) p; Ok (showing p, None)
        end
  end.
End vi.

(** ** The cursor stays in the line *)

Definition prompt_ok (history : list rstring) (p : CommandPrompt) : Prop :=
  cp_cursor p ≤ chars p ∧ ∀ i, cp_history_index p = Some i → i < length history.

(** A text without the characters at its end for which [q] holds. *)
Fixpoint drop_run (q : N → bool) (l : rstring) : rstring :=
  match l with
  | [] => []
  | ch :: rest => if q ch then drop_run q rest else l
  end.
Definition strip_end (q : N → bool) (l : rstring) : rstring := reverse (drop_run q (reverse l)).

Lemma back_while_strips q s i :
  i ≤ length s → ∃ j, back_while q s i = Ok j ∧ j ≤ i ∧ take j s = strip_end q (take i s).
Proof.
  induction i as [|i IH]; intros Hi; [by exists 0|]. cbn [back_while].
  destruct (lookup_lt_is_Some_2 s i) as [ch Hch]; [lia|]. unfold vec_index. rewrite Hch. cbn [mbind outcome_bind].
  rewrite (take_S_r s i ch Hch). unfold strip_end. rewrite reverse_snoc. cbn [drop_run]. destruct (q ch).
  - destruct IH as (j & -> & Hj & Ht); [lia|]. exists j. split_and!; [done|lia|done].
  - exists (S i). split_and!; [done|done|]. by rewrite reverse_cons, reverse_involutive, (take_S_r s i ch Hch).
Qed.
Lemma skip_while_bounds q l i : i ≤ skip_while q l i ≤ i + length l.
Proof.
  revert i. induction l as [|ch l IH]; intros i; cbn; [lia|]. destruct (q ch); [|lia].
  specialize (IH (S i)). lia.
Qed.
Lemma forward_while_bounds q s i : i ≤ forward_while q s i ≤ Nat.max i (length s).
Proof.
  unfold forward_while. pose proof (skip_while_bounds q (drop i s) i) as H. rewrite length_drop in H. lia.
Qed.
Lemma remove_range_ok from to s :
  from ≤ to → to ≤ length s →
  ∃ s', remove_range from to s = Ok s' ∧ s' = take from s ++ drop to s ∧ length s' = length s - (to - from).
Proof.
  intros Hft Ht. unfold remove_range. rewrite (proj2 (Nat.leb_le _ _) Hft). eexists. split_and!; [done|done|].
  rewrite length_app, length_take, length_drop. lia.
Qed.

(** ** The text before and after the cursor *)

Definition around (p : CommandPrompt) : rstring * rstring :=
  (take (cp_cursor p) (cp_input p), drop (cp_cursor p) (cp_input p)).
(** Text as it may stand in the line: a space for each code point of the category Cc, which are
    the first 32 and those from 127 to 159. *)
Definition without_controls (text : rstring) : rstring :=
  (λ ch, if decide (ch ≤ 31 ∨ 127 ≤ ch ≤ 159)%N then 32%N else ch) <$> text.
Lemma one_line_spec text : one_line text = without_controls text.
Proof.
  unfold one_line, without_controls, is_control. apply list_fmap_ext. intros _ ch _.
  destruct (decide _) as [Hc|Hc]; [rewrite (proj2 (orb_true_iff _ _))|rewrite (proj2 (orb_false_iff _ _))];
    rewrite ?andb_true_iff, ?andb_false_iff, ?N.leb_le, ?N.leb_gt; done || lia.
Qed.
(** The editing keys, on the two texts. *)
Definition edit_around (key : KeyEvent) (lr : rstring * rstring) : rstring * rstring :=
  let '(l, r) := lr in
  let last := length l - 1 in
  let backspace := (take last l, r) in
  let delete := (l, tail r) in
  let left := (take last l, drop last l ++ r) in
  let right := (l ++ take 1 r, drop 1 r) in
  let home := ([], l ++ r) in
  let stop := (l ++ r, []) in
  match key with
  | EChar ch => (l ++ without_controls [ch], r)
  | EBytes bytes => (l ++ without_controls (from_utf8_lossy bytes), r)
  | EBackspace => backspace
  | EDelete => delete
  | ELeft => left
  | ERight => right
  | EHome => home
  | EEnd => stop
  | ECtrl ch =>
      match ch with
      | 104 => backspace
      | 100 => delete
      | 98 => left
      | 102 => right
      | 97 => home
      | 101 => stop
      | 117 => ([], r)
      | 107 => (l, [])
      | 119 => (strip_end (λ ch, negb (is_whitespace ch)) (strip_end is_whitespace l), r)
      | _ => lr
      end%N
  | _ => lr
  end.
Definition browses (key : KeyEvent) : bool :=
  match key with
  | EUp | EDown => true
  | ECtrl ch => ((ch =? 112) || (ch =? 110))%N
  | _ => false
  end.

Definition edited (h : list rstring) (o : outcome CommandPrompt) (lr : rstring * rstring) : Prop :=
  ∃ p, o = Ok p ∧ prompt_ok h p ∧ around p = lr.
Lemma set_line_edited h p l r :
  (∀ i, cp_history_index p = Some i → i < length h) →
  edited h (Ok (cp_set_line (l ++ r) (length l) p)) (l, r).
Proof.
  intros Hh. eexists. split; [done|]. split.
  - split; [cbn; rewrite length_app; lia|exact Hh].
  - unfold around. cbn. by rewrite take_app_length, drop_app_length.
Qed.
(** A prompt with the cursor in its line has the two texts. *)
Lemma prompt_cut h p :
  prompt_ok h p →
  ∃ l r, around p = (l, r) ∧ cp_input p = l ++ r ∧ cp_cursor p = length l
    ∧ ∀ i, cp_history_index p = Some i → i < length h.
Proof.
  intros [Hc Hh]. exists (take (cp_cursor p) (cp_input p)), (drop (cp_cursor p) (cp_input p)).
  split_and!; [done|by rewrite take_drop|rewrite length_take; unfold chars in Hc; lia|done].
Qed.
Lemma edited_as h o p l r :
  o = Ok (cp_set_line (l ++ r) (length l) p) → (∀ i, cp_history_index p = Some i → i < length h) →
  edited h o (l, r).
Proof. intros ->. apply set_line_edited. Qed.
Lemma char_pos_in p n : n ≤ chars p → char_pos p n = n.
Proof. unfold char_pos. lia. Qed.

Section edits.
Context (h : list rstring) (p : CommandPrompt) (l r : rstring).
Hypotheses (Hinput : cp_input p = l ++ r) (Hcursor : cp_cursor p = length l).
Hypothesis (Hh : ∀ i, cp_history_index p = Some i → i < length h).

Lemma chars_eq : chars p = length l + length r.
Proof. unfold chars. by rewrite Hinput, length_app. Qed.
Lemma insert_edited text : edited h (Ok (prompt_insert text p)) (l ++ without_controls text, r).
Proof.
  rewrite <-one_line_spec. eapply edited_as; [|exact Hh]. unfold prompt_insert. rewrite char_pos_in by (rewrite chars_eq; lia).
  rewrite Hinput, Hcursor, take_app_length, drop_app_length, length_app, app_assoc. done.
Qed.
Lemma left_edited : edited h (Ok (prompt_left p)) (take (length l - 1) l, drop (length l - 1) l ++ r).
Proof.
  eapply edited_as; [|exact Hh]. unfold prompt_left, cp_set_cursor.
  by rewrite app_assoc, take_drop, Hinput, Hcursor, length_take, Nat.min_l by lia.
Qed.
Lemma right_edited : edited h (Ok (prompt_right p)) (l ++ take 1 r, drop 1 r).
Proof.
  eapply edited_as; [|exact Hh]. unfold prompt_right, cp_set_cursor.
  rewrite <-app_assoc, take_drop, Hinput, Hcursor, chars_eq, length_app, length_take. f_equal. f_equal. lia.
Qed.
Lemma home_edited : edited h (Ok (prompt_home p)) ([], l ++ r).
Proof. eapply edited_as; [|exact Hh]. unfold prompt_home, cp_set_cursor. by rewrite Hinput. Qed.
Lemma end_edited : edited h (Ok (prompt_end p)) (l ++ r, []).
Proof.
  eapply edited_as; [|exact Hh]. unfold prompt_end, cp_set_cursor. by rewrite app_nil_r, chars_eq, Hinput, length_app.
Qed.
Lemma backspace_edited : edited h (prompt_backspace p) (take (length l - 1) l, r).
Proof.
  eapply edited_as; [|exact Hh]. unfold prompt_backspace. rewrite Hcursor.
  destruct (length l) as [|n] eqn:Hl.
  - cbn. apply nil_length_inv in Hl as ->. destruct p; cbn in *. by subst.
  - rewrite !char_pos_in by (rewrite chars_eq; lia). unfold remove_range.
    rewrite (proj2 (Nat.leb_le n (S n))) by lia. cbn [mbind outcome_bind].
    rewrite Hinput, take_app_le, <-Hl, drop_app_length by lia. replace (length l - 1) with n by lia.
    by rewrite length_take, Nat.min_l by lia.
Qed.
Lemma delete_edited : edited h (prompt_delete p) (l, tail r).
Proof.
  eapply edited_as; [|exact Hh]. unfold prompt_delete. pose proof chars_eq as Hchars. rewrite Hchars, Hcursor.
  destruct r as [|ch r'].
  - cbn. rewrite Nat.add_0_r, Nat.leb_refl. destruct p; cbn in *. by subst.
  - cbn [length tail]. rewrite (proj2 (Nat.leb_gt _ _)) by lia.
    rewrite !char_pos_in by (rewrite Hchars; cbn; lia). unfold remove_range.
    rewrite (proj2 (Nat.leb_le _ _)) by lia. cbn [mbind outcome_bind].
    by rewrite Hinput, take_app_length, drop_app_add.
Qed.
Lemma kill_to_start_edited : edited h (kill_to_start p) ([], r).
Proof.
  eapply edited_as; [|exact Hh]. unfold kill_to_start, remove_range. cbn [Nat.leb mbind outcome_bind].
  by rewrite char_pos_in, Hinput, Hcursor, drop_app_length by (rewrite chars_eq; lia).
Qed.
Lemma kill_to_end_edited : edited h (Ok (kill_to_end p)) (l, []).
Proof.
  eapply edited_as; [|exact Hh]. unfold kill_to_end.
  by rewrite char_pos_in, Hinput, Hcursor, take_app_length, app_nil_r by (rewrite chars_eq; lia).
Qed.
Lemma delete_word_edited :
  edited h (delete_word p) (strip_end (λ ch, negb (is_whitespace ch)) (strip_end is_whitespace l), r).
Proof.
  unfold delete_word. rewrite Hinput, Hcursor.
  destruct (back_while_strips is_whitespace (l ++ r) (length l)) as (i & -> & Hi & Hti);
    [rewrite length_app; lia|]. cbn [mbind outcome_bind].
  destruct (back_while_strips (λ ch, negb (is_whitespace ch)) (l ++ r) i) as (j & -> & Hj & Htj);
    [rewrite length_app; lia|]. cbn [mbind outcome_bind].
  rewrite !char_pos_in by (rewrite chars_eq; lia). unfold remove_range.
  rewrite (proj2 (Nat.leb_le _ _)) by lia. cbn [mbind outcome_bind]. rewrite drop_app_length.
  rewrite take_app_length in Hti. rewrite <-Hti, <-Htj. eapply edited_as; [|exact Hh].
  by rewrite length_take, Nat.min_l by (rewrite length_app; lia).
Qed.
End edits.

Lemma edit_key_edits h p key :
  prompt_ok h p → browses key = false → edited h (edit_key key h p) (edit_around key (around p)).
Proof.
  intros Hp Hb. destruct (prompt_cut h p Hp) as (l & r & Ha & Hi & Hc & Hh). rewrite Ha.
  assert (edited h (Ok p) (l, r)) as Hsame by (exists p; done).
  destruct key as [ch|bytes| | | | |ch|ch| | | | | | | | | | |code mods]; try done; cbn [edit_key edit_around].
  4: { repeat (case_match; try done);
        first [by apply backspace_edited | by apply delete_edited | by apply left_edited
          | by apply right_edited | by apply home_edited | by apply end_edited
          | eapply kill_to_start_edited; eassumption | eapply kill_to_end_edited; eassumption
          | by apply delete_word_edited]. }
  all: first [by apply insert_edited | by apply backspace_edited | by apply delete_edited
    | by apply left_edited | by apply right_edited | by apply home_edited | by apply end_edited].
Qed.

(** ** No key leaves the line *)

Definition runs_ok (h : list rstring) (o : outcome CommandPrompt) : Prop := ∃ p : CommandPrompt, o = Ok p ∧ prompt_ok h p.
Lemma edited_runs h o lr : edited h o lr → runs_ok h o.
Proof. intros (p & ? & ? & _). by exists p. Qed.
Lemma ok_runs h p : prompt_ok h p → runs_ok h (Ok p).
Proof. by exists p. Qed.
Lemma set_vi_ok h vi p : prompt_ok h p → prompt_ok h (cp_set_vi vi p).
Proof. done. Qed.
Lemma set_cursor_ok h n p : prompt_ok h p → n ≤ chars p → prompt_ok h (cp_set_cursor n p).
Proof. by intros [_ ?]. Qed.
Lemma set_input_ok h line p : (∀ i, cp_history_index p = Some i → i < length h) → prompt_ok h (set_input line p).
Proof. by split. Qed.
Lemma move_ok h (lr : rstring * rstring) p' : edited h (Ok p') lr → prompt_ok h p'.
Proof. intros (q & Hq & ? & _). by injection Hq as <-. Qed.

Lemma history_up_ok h p : prompt_ok h p → runs_ok h (history_up h p).
Proof.
  intros Hp. unfold history_up, runs_ok. destruct (cp_history_index p) as [[|i]|] eqn:Hi.
  - by exists p.
  - destruct Hp as [_ Hh]. specialize (Hh _ Hi). destruct (lookup_lt_is_Some_2 h i) as [line Hl]; [lia|].
    unfold vec_index. rewrite Hl. eexists. split; [done|]. apply set_input_ok. cbn. intros ? [= <-]. lia.
  - destruct h as [|line h]; [by exists p|].
    destruct (lookup_lt_is_Some_2 (line :: h) (length (line :: h) - 1)) as [l Hl]; [cbn; lia|].
    unfold vec_index. rewrite Hl. eexists. split; [done|]. apply set_input_ok. cbn. intros ? [= <-]. lia.
Qed.
Lemma history_down_ok h p : prompt_ok h p → runs_ok h (history_down h p).
Proof.
  intros Hp. unfold history_down, runs_ok. destruct (cp_history_index p) as [i|] eqn:Hi; [|by exists p].
  destruct (Nat.ltb_spec (i + 1) (length h)) as [Hlt|Hge].
  - destruct (lookup_lt_is_Some_2 h (i + 1) Hlt) as [line Hl]. unfold vec_index. rewrite Hl.
    eexists. split; [done|]. apply set_input_ok. cbn. intros ? [= <-]. done.
  - eexists. split; [done|]. by apply set_input_ok.
Qed.
Lemma edit_key_ok h p key : prompt_ok h p → runs_ok h (edit_key key h p).
Proof.
  intros Hp. destruct (browses key) eqn:Hb; [|by eapply edited_runs, edit_key_edits].
  destruct key; try done; cbn [edit_key].
  - cbn in Hb. apply orb_true_iff in Hb as [Hch%N.eqb_eq|Hch%N.eqb_eq]; rewrite Hch;
      [by apply history_up_ok|by apply history_down_ok].
  - by apply history_up_ok.
  - by apply history_down_ok.
Qed.

Section vi_keys.
Context (is_alphanumeric : N → bool).
Notation line_next_word := (line_next_word is_alphanumeric).
Notation word_end_from := (word_end_from is_alphanumeric).
Notation vi_command := (vi_command is_alphanumeric).
Notation vi_operator := (vi_operator is_alphanumeric).
Notation vi_key := (vi_key is_alphanumeric).

Lemma line_next_word_bounds p : cp_cursor p ≤ chars p → cp_cursor p ≤ line_next_word p ≤ chars p.
Proof.
  intros Hc. unfold Prompt.line_next_word, chars in *.
  destruct (cp_input p !! cp_cursor p) as [ch|]; [destruct (in_class _ _ ch)|].
  - pose proof (forward_while_bounds (in_class is_alphanumeric PcBlank) (cp_input p) (cp_cursor p)). lia.
  - set (i := forward_while _ _ (cp_cursor p)).
    pose proof (forward_while_bounds (in_class is_alphanumeric (char_class is_alphanumeric ch)) (cp_input p) (cp_cursor p)).
    pose proof (forward_while_bounds (in_class is_alphanumeric PcBlank) (cp_input p) i). subst i. lia.
  - pose proof (forward_while_bounds (in_class is_alphanumeric PcBlank) (cp_input p) (cp_cursor p)). lia.
Qed.
Lemma word_end_from_bounds p i : i < chars p → i ≤ word_end_from p i < chars p.
Proof.
  intros Hi. unfold Prompt.word_end_from, chars in *. cbv zeta.
  destruct (cp_input p !! i) as [ch|] eqn:Hch; [|apply lookup_ge_None in Hch; lia].
  pose proof (forward_while_bounds (in_class is_alphanumeric (char_class is_alphanumeric ch)) (cp_input p) (i + 1)).
  lia.
Qed.
Lemma line_word_end_bounds p : line_word_end is_alphanumeric p ≤ chars p.
Proof.
  unfold line_word_end. destruct (Nat.leb_spec (length (cp_input p))
    (forward_while (in_class is_alphanumeric PcBlank) (cp_input p) (cp_cursor p + 1))) as [Hle|Hgt];
    [unfold chars; lia|]. pose proof (word_end_from_bounds p _ Hgt). lia.
Qed.
Lemma line_previous_word_bounds p :
  ∃ i, line_previous_word is_alphanumeric p = Ok i ∧ i ≤ chars p.
Proof.
  unfold line_previous_word, chars.
  destruct (back_while_strips (in_class is_alphanumeric PcBlank) (cp_input p)
    (Nat.min (cp_cursor p) (length (cp_input p)))) as (i & -> & Hi & _); [lia|]. cbn [mbind outcome_bind].
  destruct i as [|i]; [exists 0; split; [done|lia]|].
  destruct (lookup_lt_is_Some_2 (cp_input p) i) as [ch Hch]; [lia|]. unfold vec_index at 1. rewrite Hch.
  cbn [mbind outcome_bind].
  destruct (back_while_strips (in_class is_alphanumeric (char_class is_alphanumeric ch)) (cp_input p) (S i))
    as (j & -> & Hj & _); [lia|]. exists j. split; [done|lia].
Qed.

Lemma cut_edited h p from to :
  prompt_ok h p → from = cp_cursor p → cp_cursor p ≤ to → to ≤ chars p →
  ∃ s, remove_range (char_pos p from) (char_pos p to) (cp_input p) = Ok s
    ∧ prompt_ok h (cp_set_line s (cp_cursor p) p).
Proof.
  intros [Hc Hh] -> Hle Hto. rewrite !char_pos_in by lia.
  destruct (remove_range_ok (cp_cursor p) to (cp_input p) Hle Hto) as (s & -> & _ & Hs).
  exists s. split; [done|]. split; [unfold chars in *; cbn; lia|done].
Qed.
Lemma vi_operator_ok h p operator motion : prompt_ok h p → runs_ok h (vi_operator operator motion p).
Proof.
  intros Hp. unfold Prompt.vi_operator. destruct (negb (motion =? 119)%N); [by eexists|].
  set (q := set_vi ViNormal p). assert (prompt_ok h q) as Hq by done. clearbody q. clear Hp.
  set (stop := if (operator =? 99)%N && _ then _ else line_next_word q).
  assert (cp_cursor q ≤ stop ∧ char_pos q stop = char_pos q (Nat.min stop (chars q)) ∧
          cp_cursor q ≤ Nat.min stop (chars q) ≤ chars q) as (_ & -> & Hs1 & Hs2).
  { destruct Hq as [Hc _]. pose proof (line_next_word_bounds q Hc). subst stop. unfold char_pos.
    destruct (cp_input q !! cp_cursor q) as [ch|] eqn:Hch; cbn; [|rewrite andb_false_r; lia].
    apply lookup_lt_Some in Hch. pose proof (word_end_from_bounds q _ Hch).
    destruct (_ && _); lia. }
  destruct (cut_edited h q (cp_cursor q) (Nat.min stop (chars q)) Hq eq_refl Hs1 Hs2) as (s & -> & Hs).
  cbn [mbind outcome_bind]. destruct (operator =? 99)%N; by apply ok_runs.
Qed.
Lemma vi_command_ok h p ch : prompt_ok h p → runs_ok h (vi_command ch h p).
Proof.
  intros Hp. destruct (prompt_cut h p Hp) as (l & r & _ & Hi & Hc & Hh).
  assert (prompt_ok h (prompt_left p)) by (eapply move_ok, left_edited; eassumption).
  assert (prompt_ok h (prompt_right p)) by (eapply move_ok, right_edited; eassumption).
  assert (prompt_ok h (prompt_home p)) by (eapply move_ok, home_edited; eassumption).
  assert (prompt_ok h (prompt_end p)) by (eapply move_ok, end_edited; eassumption).
  assert (prompt_ok h (kill_to_end p)) by (eapply move_ok, kill_to_end_edited; eassumption).
  destruct (line_previous_word_bounds p) as (i & Hprev & Hi2). pose proof (line_word_end_bounds p).
  pose proof (line_next_word_bounds p (proj1 Hp)) as [_ Hnext].
  unfold Prompt.vi_command. rewrite Hprev. cbn [mbind outcome_bind].
  repeat (case_match;
    try first [by apply ok_runs | by apply ok_runs, set_vi_ok | by apply ok_runs, set_cursor_ok
      | by apply history_up_ok | by apply history_down_ok
      | eapply edited_runs, delete_edited; eassumption]).
Qed.
Lemma clamp_ok h p : prompt_ok h p → prompt_ok h (clamp_normal_cursor p).
Proof.
  intros Hp. unfold clamp_normal_cursor. destruct (vi_mode p) as [[]|]; [done| |done].
  apply set_cursor_ok; [done|lia].
Qed.
Lemma vi_key_ok h p key :
  prompt_ok h p → ∃ taken p', vi_key key h p = Ok (taken, p') ∧ prompt_ok h p'.
Proof.
  intros Hp. unfold Prompt.vi_key. destruct (cp_vi p) as [vi|]; [|by eexists _, _].
  destruct (vi_mode_of vi).
  - assert (prompt_ok h (prompt_left (set_vi ViNormal p))) as Hl.
    { apply set_cursor_ok; [done|]. destruct Hp. cbn. unfold chars in *. cbn. lia. }
    destruct key; by eexists _, _.
  - destruct key; try (by eexists _, _).
    set (o := match vi_pending vi with Some _ => _ | None => _ end).
    assert (runs_ok h o) as (q & -> & Hq) by (subst o; case_match; [by apply vi_operator_ok|by apply vi_command_ok]).
    eexists _, _. split; [done|]. by apply clamp_ok.
Qed.
End vi_keys.

(** ** The lines recalled *)

Definition blank (line : rstring) : bool := match trim line with [] => true | _ => false end.
(** Neither blank lines nor the same line twice in a row, and no more than the limit. *)
Definition history_ok (h : list rstring) : Prop :=
  length h ≤ PROMPT_HISTORY_LIMIT ∧ Forall (λ line, blank line = false) h
  ∧ ∀ i a b, h !! i = Some a → h !! S i = Some b → a ≠ b.
Lemma record_history_ok line h : history_ok h → history_ok (record_history line h).
Proof.
  intros (Hlen & Hb & Hn). unfold record_history. fold (blank line).
  destruct (blank line) eqn:Hbl; [done|]. cbn [orb].
  assert (∀ n h, Forall (λ line, blank line = false) h →
    (∀ i a b, h !! i = Some a → h !! S i = Some b → a ≠ b) → n = length h - PROMPT_HISTORY_LIMIT →
    history_ok (drop n h)) as Hdrop.
  { intros n h' Hb' Hn' ->. split_and!; [rewrite length_drop; lia|by apply Forall_drop|].
    intros i a b. rewrite !lookup_drop, Nat.add_succ_r. apply Hn'. }
  destruct (last h) as [newest|] eqn:Hl; [case_bool_decide as Hd; [done|]|]; (apply Hdrop; [|..|done]).
  1,3: apply Forall_app; split; [done|by constructor].
  - intros i a b Ha Hb'. apply lookup_app_Some in Hb' as [Hb'|[Hge Hb']].
    + eapply Hn; [|exact Hb']. rewrite lookup_app_l in Ha; [done|]. apply lookup_lt_Some in Hb'. lia.
    + apply list_lookup_singleton_Some in Hb' as [Hz ->]. rewrite lookup_app_l in Ha by lia.
      rewrite last_lookup in Hl. replace (pred (length h)) with i in Hl by lia. congruence.
  - apply last_None in Hl as ->. intros i a b Ha Hb'. destruct i; done.
Qed.

(** ** The client's keys *)

Definition client_ok (c : PromptClient) : Prop :=
  history_ok (pc_history c) ∧ ∀ p, pc_prompt c = Some p → prompt_ok (pc_history c) p.
Lemma opened_ok label initial template mode (vi : bool) h :
  prompt_ok h (let p := CommandPrompt_new label initial template mode in if vi then with_vi_keys p else p).
Proof. destruct vi; split; done. Qed.

Lemma handle_prompt_key_ok is_alphanumeric quote key c :
  client_ok c → ∃ c' run, handle_prompt_key is_alphanumeric quote key c = Ok (c', run) ∧ client_ok c'.
Proof.
  intros [Hh Hc]. unfold handle_prompt_key. destruct (pc_prompt c) as [p|] eqn:Hp.
  2: { eexists _, _. split; [done|]. by split. }
  destruct (vi_key_ok is_alphanumeric (pc_history c) p key (Hc p eq_refl)) as (taken & p' & -> & Hp').
  cbn [mbind outcome_bind].
  assert (client_ok (mkPromptClient (Some p') (pc_history c) (pc_mode c))) as Hshow by (split; [done|by intros ? [= <-]]).
  assert (∀ m, client_ok (mkPromptClient None (pc_history c) m)) as Hgone by done.
  destruct taken; [by eexists _, _|].
  destruct (edit_key_ok (pc_history c) p' key Hp') as (q & Hq & Hqok).
  assert (client_ok (mkPromptClient (Some q) (pc_history c) (pc_mode c))) as Hedit by (split; [done|by intros ? [= <-]]).
  destruct key; rewrite ?Hq; try (by eexists _, _).
  - eexists _, _. split; [reflexivity|]. split; [|done]. cbn. destruct (cp_template p'); [done|].
    by apply record_history_ok.
  - destruct (_ || _); by eexists _, _.
Qed.

(** A prompt opened, or a key typed while prompts have the keys. *)
Inductive PromptEvent : Type :=
  | PeOpen (label initial : rstring) (template : option rstring) (return_mode : rstring) (vi : bool)
  | PeKey (key : KeyEvent).
Definition prompt_step (is_alphanumeric : N → bool) (quote : rstring → rstring) (e : PromptEvent)
    (c : PromptClient) : outcome (PromptClient * option rstring) :=
  match e with
  | PeOpen label initial template return_mode vi =>
      let p := CommandPrompt_new label initial template return_mode in
      Ok (mkPromptClient (Some (if vi then with_vi_keys p else p)) (pc_history c) (lit "prompt"), None)
  | PeKey key => handle_prompt_key is_alphanumeric quote key c
  end.
(** The client after the events, and the lines run. *)
Fixpoint prompt_run (is_alphanumeric : N → bool) (quote : rstring → rstring) (es : list PromptEvent)
    (c : PromptClient) : outcome (PromptClient * list rstring) :=
  match es with
  | [] => Ok (c, [])
  | e :: es =>
      '(c, line) ← prompt_step is_alphanumeric quote e c;
      '(c, lines) ← prompt_run is_alphanumeric quote es c;
      Ok (c, match line with Some l => l :: lines | None => lines end)
  end.

(** C29: whatever prompts are opened and whatever keys are typed into them, with the keys of
    Emacs or of vi, nothing is read or cut outside of the line: the cursor stays in it, the
    line recalled is one of those remembered, and of these there are at most the limit, none
    blank and none twice in a row. *)
Theorem prompts_keep_to_the_line is_alphanumeric quote es mode :
  ∃ c lines, prompt_run is_alphanumeric quote es (mkPromptClient None [] mode) = Ok (c, lines) ∧ client_ok c.
Proof.
  assert (client_ok (mkPromptClient None [] mode)) as Hok.
  { split; [split_and!; [cbn; unfold PROMPT_HISTORY_LIMIT; lia|constructor|by intros [] ? ?]|done]. }
  revert Hok. generalize (mkPromptClient None [] mode) as c.
  induction es as [|e es IH]; intros c Hok; [by eexists _, _|]. cbn [prompt_run].
  assert (∃ c' run, prompt_step is_alphanumeric quote e c = Ok (c', run) ∧ client_ok c')
    as (c' & run & -> & Hok').
  { destruct e as [label initial template m vi|key]; cbn [prompt_step]; [|by apply handle_prompt_key_ok].
    eexists _, _. split; [done|]. destruct Hok as [Hh _]. split; [done|]. intros ? [= <-]. apply opened_ok. }
  cbn [mbind outcome_bind]. destruct (IH c' Hok') as (c2 & lines & -> & Hok2). by eexists _, _.
Qed.

(** C30: a key that edits does to the line what it says to the text before the cursor and the
    text after it: the characters of a key go in between, with spaces for control characters;
    backspace takes the last character before, delete the first one after; moves pass
    characters from one side to the other, and keys that kill drop one side, or the word that
    ends the text before. *)
Theorem prompt_edits_around_cursor h p key :
  prompt_ok h p → browses key = false →
  ∃ p', edit_key key h p = Ok p' ∧ prompt_ok h p' ∧ around p' = edit_around key (around p).
Proof. intros Hp Hb. by apply edit_key_edits. Qed.
Lemma prompt_edits_around_cursor_witness :
  let p := cp_set_cursor 11 (CommandPrompt_new (lit ":") (lit "kill-pane x -t 1") None (lit "normal")) in
  (∃ p', edit_key (ECtrl 119) [] p = Ok p' ∧ prompt_ok [] p' ∧ around p' = (lit "kill-pane ", lit " -t 1"))
  ∧ ∃ p', edit_key (EBytes [121; 10; 122]%N) [] p = Ok p' ∧ prompt_ok [] p'
      ∧ around p' = (lit "kill-pane xy z", lit " -t 1").
Proof.
  cbv zeta. split.
  1: apply (prompt_edits_around_cursor []
    (cp_set_cursor 11 (CommandPrompt_new (lit ":") (lit "kill-pane x -t 1") None (lit "normal"))) (ECtrl 119));
    [split; [vm_compute; lia|done]|reflexivity].
  apply (prompt_edits_around_cursor []
    (cp_set_cursor 11 (CommandPrompt_new (lit ":") (lit "kill-pane x -t 1") None (lit "normal")))
    (EBytes [121; 10; 122]%N)); [split; [vm_compute; lia|done]|reflexivity].
Defined.

(** ** Browsing the lines typed before *)

Fixpoint times (n : nat) (f : CommandPrompt → outcome CommandPrompt) (p : CommandPrompt)
    : outcome CommandPrompt :=
  match n with 0 => Ok p | S n => p ← f p; times n f p end.
(** [p], [n] lines up from where it was with [draft] typed. *)
Definition browsing (h : list rstring) (draft : rstring) (n : nat) (p : CommandPrompt) : Prop :=
  match n with
  | 0 => cp_history_index p = None ∧ cp_input p = draft
  | S _ => cp_history_index p = Some (length h - n) ∧ cp_draft p = draft
           ∧ h !! (length h - n) = Some (cp_input p) ∧ cp_cursor p = chars p
  end.
Lemma browsing_up h draft n p :
  browsing h draft n p → n < length h → ∃ q, history_up h p = Ok q ∧ browsing h draft (S n) q.
Proof.
  intros Hb Hn. unfold history_up.
  assert (∃ line, h !! (length h - S n) = Some line) as [line Hl] by (apply lookup_lt_is_Some_2; lia).
  destruct n as [|n]; cbn [browsing] in Hb.
  - destruct Hb as [-> <-]. destruct h as [|l h]; [cbn in Hn; lia|]. unfold vec_index. rewrite Hl.
    eexists. split; [done|]. by split_and!.
  - destruct Hb as (-> & Hd & _). replace (length h - S n) with (S (length h - S (S n))) by lia.
    unfold vec_index. rewrite Hl. eexists. split; [done|]. by split_and!.
Qed.
Lemma browsing_down h draft n p :
  browsing h draft (S n) p → S n ≤ length h →
  ∃ q, history_down h p = Ok q ∧ browsing h draft n q ∧ cp_cursor q = chars q.
Proof.
  intros (Hi & Hd & Hl & _) Hn. unfold history_down. rewrite Hi. destruct n as [|n].
  - rewrite (proj2 (Nat.ltb_ge _ _)) by lia. eexists. split; [done|]. by split_and!.
  - rewrite (proj2 (Nat.ltb_lt _ _)) by lia.
    replace (length h - S (S n) + 1) with (length h - S n) by lia.
    destruct (lookup_lt_is_Some_2 h (length h - S n)) as [line Hline]; [lia|]. unfold vec_index. rewrite Hline.
    eexists. split; [done|]. by split_and!.
Qed.
(** Up and as often down again, the line is the one being typed; in between it is the one
    typed so many lines ago. *)
Theorem history_comes_back h p n :
  cp_history_index p = None → 1 ≤ n ≤ length h →
  ∃ q p', times n (history_up h) p = Ok q ∧ h !! (length h - n) = Some (cp_input q)
    ∧ times n (history_down h) q = Ok p'
    ∧ cp_input p' = cp_input p ∧ cp_cursor p' = chars p' ∧ cp_history_index p' = None.
Proof.
  intros Hi Hn.
  assert (∀ m k q, browsing h (cp_input p) k q → k + m ≤ length h →
    ∃ q', times m (history_up h) q = Ok q' ∧ browsing h (cp_input p) (k + m) q') as Hup.
  { induction m as [|m IH]; intros k q Hq Hk; [by exists q; rewrite Nat.add_0_r|]. cbn.
    destruct (browsing_up h (cp_input p) k q Hq) as (q' & -> & Hq'); [lia|]. cbn.
    rewrite Nat.add_succ_r. apply (IH (S k)); [done|lia]. }
  assert (∀ m q, browsing h (cp_input p) (S m) q → S m ≤ length h →
    ∃ q', times (S m) (history_down h) q = Ok q' ∧ browsing h (cp_input p) 0 q' ∧ cp_cursor q' = chars q') as Hdown.
  { induction m as [|m IH]; intros q Hq Hm; cbn [times];
      destruct (browsing_down h (cp_input p) _ q Hq Hm) as (q' & -> & Hq' & Hc); cbn [mbind outcome_bind];
      [by exists q'|]. by apply IH; [|lia]. }
  destruct n as [|n]; [lia|].
  destruct (Hup (S n) 0 p) as (q & Hq & Hbq); [done|lia|].
  destruct (Hdown n q Hbq) as (p' & Hp' & [Hnone Hin] & Hcur); [lia|].
  destruct Hbq as (_ & _ & Hl & _). by exists q, p'.
Qed.

(** In vi's normal mode commands leave the cursor on a character, but End and the arrow keys,
    which are left to the keys of Emacs, may move it past the last one. *)
Example end_key_leaves_the_line :
  let alnum ch := negb (is_whitespace ch) in
  let typed := [PeOpen (lit ":") [] None (lit "normal") true; PeKey (EChar 97); PeKey (EChar 98); PeKey EEscape] in
  let cursor es := '(c, _) ← prompt_run alnum id es (mkPromptClient None [] []);
                   Ok (cp_cursor <$> pc_prompt c) in
  cursor typed = Ok (Some 1) ∧ cursor (typed ++ [PeKey (EChar 36)]) = Ok (Some 1)
  ∧ cursor (typed ++ [PeKey EEnd]) = Ok (Some 2).
Proof. by vm_compute. Qed.
