(* ===== verification/Ids.v ===== *)
(** How many ids an operation can hand out: each takes at most a few from each
    allocator, whatever the state, so that ids are exhausted only after a number
    of requests no server sees. And what no operation undoes: a buffer that has
    exited, or is gone, stays so, and its id is not used again. *)

From S2P Require Import Prelude Core Model Environment State Queries Buffers Focus Tree Layout Moves.

(** The program of [id] has run for the last time: its buffer has exited or is gone. *)
Definition ended (st : ServerState) (id : BufferId) : Prop :=
  match buffers st !! id with Some b => is_exited (b_state b) = true | None => True end.

(** [st'] follows [st] with at most [k] more ids of each kind handed out, and no
    buffer that has ended runs again. *)
Record ids_within (k : N) (st st' : ServerState) : Prop := {
  iw_sessions : (session_ids st' ≤ session_ids st + k)%N;
  iw_buffers : (buffer_ids st' ≤ buffer_ids st + k)%N;
  iw_nodes : (node_ids st' ≤ node_ids st + k)%N;
  iw_floating : (floating_ids st' ≤ floating_ids st + k)%N;
  iw_ended : (buffer_ids st + k < u64_modulus)%N →
    (buffer_ids st ≤ buffer_ids st')%N
    ∧ ∀ id, (id < buffer_ids st)%N → ended st id → ended st' id
}.

Lemma ids_within_trans k1 k2 st1 st2 st3 :
  ids_within k1 st1 st2 → ids_within k2 st2 st3 → ids_within (k1 + k2) st1 st3.
Proof.
  intros [? H1 ? ? E1] [? H2 ? ? E2]. split; [lia..|]. intros Hk.
  destruct E1 as [L1 E1], E2 as [L2 E2]; [lia..|]. split; [lia|].
  intros id Hi He. apply E2; [lia|]. by apply E1.
Qed.
Lemma ids_within_weaken k k' st st' : (k ≤ k')%N → ids_within k st st' → ids_within k' st st'.
Proof. intros ? [? ? ? ? E]. split; [lia..|]. intros ?. apply E. lia. Qed.
Lemma ids_within_same k st st' :
  session_ids st' = session_ids st → buffer_ids st' = buffer_ids st →
  node_ids st' = node_ids st → floating_ids st' = floating_ids st →
  (∀ id, ended st id → ended st' id) → ids_within k st st'.
Proof. intros Es Eb En Ef He. split; [lia..|]. intros _. split; [lia|auto]. Qed.
Lemma ids_within_refl k st : ids_within k st st.
Proof. by apply ids_within_same. Qed.

Definition spends {A} (k : N) (m : SM A) : Prop := ∀ st, ids_within k st (m st).2.

Create HintDb ids.

(** ** The rules of the monad *)

Section spends_rules.
Context {A B : Type}.
Implicit Types (m : SM A) (f : A → SM B).

Lemma spends_weaken k k' m : spends k m → (k ≤ k')%N → spends k' m.
Proof. intros Hm Hk st. eapply ids_within_weaken; [exact Hk|apply Hm]. Qed.

Lemma spends_bind k1 k2 m f : spends k1 m → (∀ a, spends k2 (f a)) → spends (k1 + k2) (m ≫= f).
Proof.
  intros Hm Hf st. unfold mbind, ST_bind. specialize (Hm st).
  destruct (m st) as [[a|e| |] st1]; simpl in *.
  - eapply ids_within_trans; [exact Hm|apply Hf].
  - eapply ids_within_weaken; [|exact Hm]. lia.
  - eapply ids_within_weaken; [|exact Hm]. lia.
  - eapply ids_within_weaken; [|exact Hm]. lia.
Qed.

Lemma spends_pay k1 k m f :
  (k1 ≤ k)%N → spends k1 m → (∀ a, spends (k - k1) (f a)) → spends k (m ≫= f).
Proof. intros Hk Hm Hf. replace k with (k1 + (k - k1))%N by lia. by apply spends_bind. Qed.

Lemma spends_free k m f : spends 0 m → (∀ a, spends k (f a)) → spends k (m ≫= f).
Proof. intros Hm Hf. replace k with (0 + k)%N by lia. by apply spends_bind. Qed.

Lemma spends_ret k (a : A) : spends k (mret a : SM A).
Proof. intros st. apply ids_within_refl. Qed.
Lemma spends_throw k e : spends k (throw e : SM A).
Proof. intros st. apply ids_within_refl. Qed.
Lemma spends_reads k (g : ServerState → outcome A) : spends k (reads g).
Proof. intros st. apply ids_within_refl. Qed.
Lemma spends_gets k (g : ServerState → A) : spends k (gets g).
Proof. intros st. apply ids_within_refl. Qed.
Lemma spends_lift k (o : outcome A) : spends k (lift o : SM A).
Proof. intros st. apply ids_within_refl. Qed.
Lemma spends_out_of_fuel k : spends k (out_of_fuel : SM A).
Proof. intros st. apply ids_within_refl. Qed.
Lemma spends_modify k g : (∀ st, ids_within k st (g st)) → spends k (modify g).
Proof. intros Hg st. apply Hg. Qed.

Lemma spends_attempt k m : spends k m → spends k (attempt m).
Proof. intros Hm st. unfold attempt. specialize (Hm st). by destruct (m st) as [[] ?]. Qed.
Lemma spends_when k b (m : SM unit) : spends k m → spends k (when b m).
Proof. intros Hm. destruct b; [exact Hm|intros st; apply ids_within_refl]. Qed.
End spends_rules.

Lemma spends_ignore {A} k (m : SM A) : spends k m → spends k (ignore m).
Proof.
  intros Hm. unfold ignore. replace k with (k + 0)%N by lia.
  apply spends_bind; [by apply spends_attempt|intros; apply spends_ret].
Qed.
Lemma spends_for_each {A} (f : A → SM unit) l : (∀ x, spends 0 (f x)) → spends 0 (for_each f l).
Proof.
  intros Hf. induction l as [|x l IH]; simpl; [apply spends_ret|].
  apply spends_free; [apply Hf|intros; exact IH].
Qed.
Lemma spends_fold {A B} (f : B → A → SM B) l b :
  (∀ b x, spends 0 (f b x)) → spends 0 (fold_st f b l).
Proof.
  intros Hf. revert b. induction l as [|x l IH]; intros b; simpl; [apply spends_ret|].
  apply spends_free; [apply Hf|intros; apply IH].
Qed.

(** [spend] proves [spends k m] for a number [k], trying the hints of [ids] on
    the operations [m] calls; a step of a sequence is tried for free, then for
    one id, then for two. *)
Ltac spend :=
  cbn beta iota zeta;
  lazymatch goal with
  | |- ∀ _, _ => intro; spend
  | |- spends _ (mret _) => apply spends_ret
  | |- spends _ (throw _) => apply spends_throw
  | |- spends _ (reads _) => apply spends_reads
  | |- spends _ (gets _) => apply spends_gets
  | |- spends _ (lift _) => apply spends_lift
  | |- spends _ out_of_fuel => apply spends_out_of_fuel
  | |- spends _ (modify _) =>
      first [ solve [eauto with ids nocore]
            | apply spends_modify; intro; apply ids_within_same; solve [reflexivity|auto] ]
  | |- spends _ (attempt _) => apply spends_attempt; spend
  | |- spends _ (ignore _) => apply spends_ignore; spend
  | |- spends _ (when _ _) => apply spends_when; spend
  | |- spends 0 (for_each _ _) => apply spends_for_each; spend
  | |- spends 0 (fold_st _ _ _) => apply spends_fold; spend
  | |- spends _ (mbind _ _) =>
      first
        [ apply spends_free; [solve [spend]|spend]
        | apply (spends_pay 1); [lia|solve [spend]|cbn; spend]
        | apply (spends_pay 2); [lia|solve [spend]|cbn; spend] ]
  | |- spends _ (match ?x with _ => _ end) => destruct x; spend
  | |- _ => eapply spends_weaken; [solve [eauto with ids nocore]|lia]
  end.

(** ** The operations *)

Lemma next_within a : (wrap_succ64 a ≤ a + 1)%N.
Proof. unfold wrap_succ64. apply N.Div0.mod_le. Qed.


(** An operation that only hands out ids, and one that also makes a buffer. *)
Lemma handed_out k st st' :
  (session_ids st' ≤ session_ids st + k)%N → buffer_ids st' = buffer_ids st →
  (node_ids st' ≤ node_ids st + k)%N → (floating_ids st' ≤ floating_ids st + k)%N →
  buffers st' = buffers st → ids_within k st st'.
Proof.
  intros ? Hb ? ? Hs. split; [lia..|]. intros _. split; [lia|].
  intros id _. unfold ended. by rewrite Hs.
Qed.
Lemma next_session_id_spends : spends 1 next_session_id.
Proof. intros st. pose proof (next_within (session_ids st)). apply handed_out; simpl; lia || done. Qed.
Lemma next_node_id_spends : spends 1 next_node_id.
Proof. intros st. pose proof (next_within (node_ids st)). apply handed_out; simpl; lia || done. Qed.
Lemma next_floating_id_spends : spends 1 next_floating_id.
Proof. intros st. pose proof (next_within (floating_ids st)). apply handed_out; simpl; lia || done. Qed.
Lemma new_buffer_spends (b : BufferId → Buffer) :
  spends 1 (id ← next_buffer_id; modify (set_buffers (insert id (b id))) ;; mret id).
Proof.
  intros st. pose proof (next_within (buffer_ids st)) as Hn. split; simpl; [lia..|].
  intros Hk. rewrite wrap_succ64_small by exact Hk. split; [lia|].
  intros id Hi. unfold ended. simpl. rewrite lookup_insert_ne by lia. done.
Qed.
#[export] Hint Resolve next_session_id_spends next_node_id_spends next_floating_id_spends : ids.

Lemma session_mut_spends sid f : spends 0 (session_mut sid f).
Proof. unfold session_mut. spend. Qed.
Lemma set_buffer_spends st id b b' k :
  buffers st !! id = Some b → (is_exited (b_state b) = true → is_exited (b_state b') = true) →
  ids_within k st (set_buffers (insert id b') st).
Proof.
  intros Hb Hf. apply ids_within_same; [done..|]. intros i. unfold ended. simpl.
  destruct (decide (id = i)) as [->|Hi]; [|by rewrite lookup_insert_ne].
  by rewrite lookup_insert_eq, Hb.
Qed.
Lemma buffer_mut_spends id f :
  (∀ b, is_exited (b_state b) = true → is_exited (b_state (f b)) = true) →
  spends 0 (buffer_mut id f).
Proof.
  intros Hf st. unfold buffer_mut, mbind, ST_bind, reads, buffer.
  destruct (buffers st !! id) as [b|] eqn:Hb; simpl; [|apply ids_within_refl].
  apply (set_buffer_spends st id b); auto.
Qed.
Lemma mark_buffer_running_spends id pid : spends 0 (mark_buffer_running id pid).
Proof.
  intros st. unfold mark_buffer_running, buffer_mut, mbind, ST_bind, reads, buffer.
  destruct (buffers st !! id) as [b|] eqn:Hb; simpl; [|apply ids_within_refl].
  destruct (is_exited (b_state b)) eqn:He; [apply ids_within_refl|]. simpl.
  unfold mbind, ST_bind. simpl. rewrite Hb. simpl. apply (set_buffer_spends st id b); [done|]. by rewrite He.
Qed.
Lemma mark_buffer_interrupted_spends id pid : spends 0 (mark_buffer_interrupted id pid).
Proof.
  intros st. unfold mark_buffer_interrupted, buffer_mut, mbind, ST_bind, reads, buffer.
  destruct (buffers st !! id) as [b|] eqn:Hb; simpl; [|apply ids_within_refl].
  destruct (is_exited (b_state b)) eqn:He; [apply ids_within_refl|]. simpl.
  unfold mbind, ST_bind. simpl. rewrite Hb. simpl. apply (set_buffer_spends st id b); [done|]. by rewrite He.
Qed.
Lemma node_mut_spends id f : spends 0 (node_mut id f).
Proof. unfold node_mut. spend. Qed.
Lemma floating_mut_spends id f : spends 0 (floating_mut id f).
Proof. unfold floating_mut. spend. Qed.
Lemma insert_node_spends id n : spends 0 (insert_node id n).
Proof. unfold insert_node. spend. Qed.
Lemma remove_node_spends id : spends 0 (remove_node id).
Proof. unfold remove_node. spend. Qed.
#[export] Hint Extern 1 (spends _ (buffer_mut _ _)) =>
  apply buffer_mut_spends; solve [done|by intros []] : ids.
#[export] Hint Resolve session_mut_spends node_mut_spends floating_mut_spends
  insert_node_spends remove_node_spends : ids.

(** *** Buffers *)

Lemma create_buffer_with_env_spends now title command cwd env :
  spends 1 (create_buffer_with_env now title command cwd env).
Proof. exact (new_buffer_spends (λ id, Buffer_new now id title command cwd env)). Qed.
Lemma create_helper_buffer_spends now title source scope cwd lines :
  spends 1 (create_helper_buffer now title source scope cwd lines).
Proof.
  unfold create_helper_buffer. apply spends_free; [spend|]. intros src.
  exact (new_buffer_spends (λ id, b_set_helper (mkHelperBuffer source scope lines)
    (b_set_pty_size (b_pty_size src) (Buffer_new now id title [] cwd ∅)))).
Qed.
Lemma remove_buffer_spends id : spends 0 (remove_buffer id).
Proof.
  unfold remove_buffer. apply spends_free; [spend|]. intros b. case_bool_decide; [|spend].
  apply spends_free; [|spend]. apply spends_modify. intros st. apply ids_within_same; [done..|].
  intros i. unfold ended. simpl. rewrite lookup_delete. by case_decide.
Qed.
Lemma set_buffer_size_spends id sz : spends 0 (set_buffer_size id sz).
Proof. unfold set_buffer_size. spend. Qed.
Lemma set_buffer_placement_spends id p : spends 0 (set_buffer_placement id p).
Proof. unfold set_buffer_placement. spend. Qed.
Lemma set_buffer_title_spends id t : spends 0 (set_buffer_title id t).
Proof. unfold set_buffer_title. spend. Qed.
Lemma set_buffer_activity_spends id a : spends 0 (set_buffer_activity id a).
Proof. unfold set_buffer_activity. spend. Qed.
Lemma mark_buffer_exited_spends now id c : spends 0 (mark_buffer_exited now id c).
Proof. unfold mark_buffer_exited. spend. Qed.
Lemma sync_buffer_view_size_spends id : spends 0 (sync_buffer_view_size id).
Proof. unfold sync_buffer_view_size. spend. Qed.
Lemma set_buffer_attached_spends id view : spends 0 (set_buffer_attached id view).
Proof. unfold set_buffer_attached. spend. Qed.
Lemma detach_buffer_raw_spends id : spends 0 (detach_buffer_raw id).
Proof. unfold detach_buffer_raw. spend. Qed.
Lemma detach_buffer_if_spends id view : spends 0 (detach_buffer_if_attached_to id view).
Proof. unfold detach_buffer_if_attached_to, detach_buffer_raw. spend. Qed.
#[export] Hint Resolve create_buffer_with_env_spends create_helper_buffer_spends
  remove_buffer_spends set_buffer_size_spends set_buffer_placement_spends
  set_buffer_title_spends set_buffer_activity_spends mark_buffer_running_spends
  mark_buffer_interrupted_spends mark_buffer_exited_spends sync_buffer_view_size_spends
  set_buffer_attached_spends detach_buffer_raw_spends detach_buffer_if_spends : ids.
Lemma detach_attached_spends bid id : spends 0 (modify (set_buffers (detach_if_attached bid id))).
Proof.
  apply spends_modify. intros st. unfold set_buffers, detach_if_attached.
  destruct (buffers st !! bid) as [b|] eqn:Hb; [|by apply ids_within_same].
  case_bool_decide; [|by apply ids_within_same]. by apply (set_buffer_spends st bid b).
Qed.
#[export] Hint Resolve detach_attached_spends : ids.
Lemma attach_buffer_spends bid id : spends 0 (attach_buffer bid id).
Proof. unfold attach_buffer. spend. Qed.
Lemma create_unattached_view_spends sid bid : spends 1 (create_unattached_buffer_view sid bid).
Proof. unfold create_unattached_buffer_view. spend. Qed.
#[export] Hint Resolve attach_buffer_spends create_unattached_view_spends : ids.
Lemma create_buffer_view_spends sid bid : spends 1 (create_buffer_view sid bid).
Proof. unfold create_buffer_view. spend. Qed.
Lemma acknowledge_spends sid : spends 0 (acknowledge_shown_activity sid).
Proof. unfold acknowledge_shown_activity. spend. Qed.
#[export] Hint Resolve create_buffer_view_spends acknowledge_spends : ids.

(** *** Focus and zoom *)

Lemma set_leaf_focus_spends leaf f : spends 0 (set_leaf_focus leaf f).
Proof. unfold set_leaf_focus. spend. Qed.
Lemma remember_focus_spends sid leaf : spends 0 (remember_focus sid leaf).
Proof. unfold remember_focus. spend. Qed.
#[export] Hint Resolve set_leaf_focus_spends remember_focus_spends : ids.
Lemma clear_session_focus_spends sid : spends 0 (clear_session_focus sid).
Proof. unfold clear_session_focus. spend. Qed.
Lemma mark_focus_path_spends fuel leaf : ∀ child, spends 0 (mark_focus_path fuel leaf child).
Proof. induction fuel; intros child; simpl; spend. Qed.
Lemma mark_pane_path_spends fuel leaf window :
  ∀ child, spends 0 (mark_pane_path fuel leaf window child).
Proof. induction fuel; intros child; simpl; spend. Qed.
#[export] Hint Resolve clear_session_focus_spends mark_focus_path_spends
  mark_pane_path_spends : ids.
Lemma focus_leaf_spends sid leaf : spends 0 (focus_leaf sid leaf).
Proof. unfold focus_leaf. spend. Qed.
#[export] Hint Resolve focus_leaf_spends : ids.
Lemma select_pane_spends sid leaf : spends 0 (select_pane sid leaf).
Proof. unfold select_pane. spend. Qed.
Lemma show_node_spends sid id : spends 0 (show_node sid id).
Proof. unfold show_node. spend. Qed.
Lemma focus_last_pane_spends sid : spends 0 (focus_last_pane sid).
Proof. unfold focus_last_pane. spend. Qed.
Lemma focus_floating_spends fid : spends 0 (focus_floating fid).
Proof. unfold focus_floating. spend. Qed.
Lemma heal_focus_spends sid : spends 0 (heal_focus sid).
Proof. unfold heal_focus. spend. Qed.
Lemma normalize_zoomed_node_spends sid : spends 0 (normalize_zoomed_node sid).
Proof. unfold normalize_zoomed_node. spend. Qed.
Lemma refocus_zoomed_spends sid id : spends 0 (refocus_zoomed_subtree sid id).
Proof. unfold refocus_zoomed_subtree. spend. Qed.
#[export] Hint Resolve select_pane_spends show_node_spends focus_last_pane_spends
  focus_floating_spends heal_focus_spends normalize_zoomed_node_spends
  refocus_zoomed_spends : ids.
Lemma zoom_node_spends id : spends 0 (zoom_node id).
Proof. unfold zoom_node. spend. Qed.
Lemma unzoom_session_spends sid : spends 0 (unzoom_session sid).
Proof. unfold unzoom_session. spend. Qed.
Lemma toggle_zoom_node_spends id : spends 0 (toggle_zoom_node id).
Proof. unfold toggle_zoom_node. spend. Qed.
#[export] Hint Resolve zoom_node_spends unzoom_session_spends toggle_zoom_node_spends : ids.

(** *** The tree *)

Lemma set_parent_spends id p : spends 0 (set_parent id p).
Proof. unfold set_parent. spend. Qed.
#[export] Hint Resolve set_parent_spends : ids.
Lemma replace_child_spends p old new : spends 0 (replace_child p old new).
Proof. unfold replace_child. spend. Qed.
Lemma remove_child_spends p c : spends 0 (remove_child p c).
Proof. unfold remove_child. spend. Qed.
Lemma remove_floating_window_spends fid : spends 0 (remove_floating_window fid).
Proof. unfold remove_floating_window. spend. Qed.
Lemma remove_subtree_in_spends fuel : ∀ id, spends 0 (remove_subtree_nodes_in fuel id).
Proof. induction fuel; intros id; simpl; spend; by apply spends_ret. Qed.
#[export] Hint Resolve replace_child_spends remove_child_spends remove_floating_window_spends
  remove_subtree_in_spends : ids.
Lemma remove_subtree_spends id : spends 0 (remove_subtree_nodes id).
Proof. unfold remove_subtree_nodes. spend. Qed.
Lemma repoint_spends sid owner old new : spends 0 (repoint_owner_reference sid owner old new).
Proof. unfold repoint_owner_reference. spend. Qed.
Lemma replace_in_owner_spends old new : spends 0 (replace_node_in_owner old new).
Proof. unfold replace_node_in_owner. spend. Qed.
Lemma detach_from_owner_spends id : spends 0 (detach_node_from_owner id).
Proof. unfold detach_node_from_owner. spend. Qed.
Lemma restore_node_owner_spends id owner : spends 0 (restore_node_owner id owner).
Proof. unfold restore_node_owner. spend. Qed.
#[export] Hint Resolve remove_subtree_spends repoint_spends replace_in_owner_spends
  detach_from_owner_spends restore_node_owner_spends : ids.
Lemma rollback_spends id owner : spends 0 (rollback_detached_node id owner).
Proof. unfold rollback_detached_node. spend. Qed.
Lemma normalize_split_spends id : spends 0 (normalize_split_node id).
Proof. unfold normalize_split_node. spend. Qed.
Lemma normalize_tabs_spends id : spends 0 (normalize_tabs_node id).
Proof. unfold normalize_tabs_node. spend. Qed.
#[export] Hint Resolve rollback_spends normalize_split_spends normalize_tabs_spends : ids.
Lemma normalize_upwards_in_spends fuel : ∀ id, spends 0 (normalize_upwards_in fuel id).
Proof. induction fuel; intros [id|]; simpl; spend. Qed.
#[export] Hint Resolve normalize_upwards_in_spends : ids.
Lemma normalize_upwards_spends id : spends 0 (normalize_upwards id).
Proof. unfold normalize_upwards. spend. Qed.
#[export] Hint Resolve normalize_upwards_spends : ids.
Lemma clear_session_root_spends sid : spends 1 (clear_session_root sid).
Proof. unfold clear_session_root. spend. Qed.
#[export] Hint Resolve clear_session_root_spends : ids.
Lemma close_node_spends id : spends 1 (close_node id).
Proof. unfold close_node. spend. Qed.
#[export] Hint Resolve close_node_spends : ids.
Lemma discard_buffer_view_spends id : spends 1 (discard_buffer_view id).
Proof. unfold discard_buffer_view. spend. Qed.
#[export] Hint Resolve discard_buffer_view_spends : ids.

(** *** The layout *)

Lemma create_session_spends now name : spends 1 (create_session now name).
Proof.
  intros st. pose proof (next_within (session_ids st)). pose proof (next_within (node_ids st)).
  apply handed_out; simpl; lia || done.
Qed.
Lemma rename_session_spends sid name : spends 0 (rename_session sid name).
Proof. unfold rename_session. spend. Qed.
Lemma set_base_index_spends sid b : spends 0 (set_session_base_index sid b).
Proof. unfold set_session_base_index. spend. Qed.
Lemma set_viewport_spends sid v t : spends 0 (set_session_viewport sid v t).
Proof. unfold set_session_viewport. spend. Qed.
Lemma close_floating_spends fid : spends 0 (close_floating fid).
Proof. unfold close_floating. spend. Qed.
#[export] Hint Resolve create_session_spends rename_session_spends set_base_index_spends
  set_viewport_spends close_floating_spends : ids.
Lemma close_session_spends sid : spends 0 (close_session sid).
Proof. unfold close_session. spend. Qed.
Lemma add_tab_at_spends p i title child f :
  spends 0 (add_tab_sibling_at_with_focus p i title child f).
Proof. unfold add_tab_sibling_at_with_focus. spend. Qed.
#[export] Hint Resolve close_session_spends add_tab_at_spends : ids.
Lemma add_tab_sibling_at_spends p i title child : spends 0 (add_tab_sibling_at p i title child).
Proof. unfold add_tab_sibling_at. spend. Qed.
Lemma add_tab_sibling_spends p title child : spends 0 (add_tab_sibling p title child).
Proof. unfold add_tab_sibling. spend. Qed.
#[export] Hint Resolve add_tab_sibling_at_spends add_tab_sibling_spends : ids.
Lemma or_discard_spends {A} view (m : SM A) : spends 0 m → spends 1 (or_discard view m).
Proof. intros Hm. unfold or_discard. apply spends_free; [by apply spends_attempt|]. spend. Qed.
Lemma or_discard_spends1 {A} view (m : SM A) : spends 1 m → spends 2 (or_discard view m).
Proof.
  intros Hm. unfold or_discard. apply (spends_pay 1); [lia|by apply spends_attempt|]. spend.
Qed.
Lemma add_tab_from_buffer_at_spends p i title bid :
  spends 2 (add_tab_from_buffer_at p i title bid).
Proof.
  unfold add_tab_from_buffer_at. apply spends_free; [spend|intros ?]. apply spends_free; [spend|].
  intros sid. apply (spends_pay 1); [lia|spend|]. intros c. apply or_discard_spends. spend.
Qed.
Lemma add_root_tab_from_buffer_spends sid title bid :
  spends 2 (add_root_tab_from_buffer sid title bid).
Proof.
  unfold add_root_tab_from_buffer. apply spends_free; [spend|intros ?].
  apply (spends_pay 1); [lia|spend|]. intros c. apply or_discard_spends. spend.
Qed.
Lemma add_root_tab_from_subtree_spends sid title c :
  spends 0 (add_root_tab_from_subtree sid title c).
Proof. unfold add_root_tab_from_subtree. spend. Qed.
Lemma rename_tab_spends p i title : spends 0 (rename_tab p i title).
Proof. unfold rename_tab. spend. Qed.
Lemma switch_tab_spends p i : spends 0 (switch_tab p i).
Proof. unfold switch_tab. spend. Qed.
Lemma close_tab_spends p i : spends 0 (close_tab p i).
Proof. unfold close_tab. spend. Qed.
#[export] Hint Resolve add_tab_from_buffer_at_spends add_root_tab_from_buffer_spends
  add_root_tab_from_subtree_spends rename_tab_spends switch_tab_spends close_tab_spends : ids.
Lemma select_root_tab_spends sid i : spends 0 (select_root_tab sid i).
Proof. unfold select_root_tab. spend. Qed.
Lemma rename_root_tab_spends sid i title : spends 0 (rename_root_tab sid i title).
Proof. unfold rename_root_tab. spend. Qed.
Lemma set_synchronize_spends sid i e : spends 0 (set_root_tab_synchronize_panes sid i e).
Proof. unfold set_root_tab_synchronize_panes. spend. Qed.
Lemma close_root_tab_spends sid i : spends 0 (close_root_tab sid i).
Proof. unfold close_root_tab. spend. Qed.
Lemma create_split_node_spends sid d cs : spends 1 (create_split_node sid d cs).
Proof. unfold create_split_node. spend. Qed.
Lemma create_tabs_node_spends sid tabs active : spends 1 (create_tabs_node sid tabs active).
Proof. unfold create_tabs_node. spend. Qed.
Lemma wrap_in_tabs_spends id title : spends 1 (wrap_node_in_tabs id title).
Proof. unfold wrap_node_in_tabs. spend. Qed.
Lemma wrap_in_split_focus_spends id d sibling before f :
  spends 1 (wrap_node_in_split_with_focus id d sibling before f).
Proof. unfold wrap_node_in_split_with_focus. spend. Qed.
#[export] Hint Resolve select_root_tab_spends rename_root_tab_spends set_synchronize_spends
  close_root_tab_spends create_split_node_spends create_tabs_node_spends wrap_in_tabs_spends
  wrap_in_split_focus_spends : ids.
Lemma wrap_in_split_spends id d sibling before : spends 1 (wrap_node_in_split id d sibling before).
Proof. unfold wrap_node_in_split. spend. Qed.
Lemma split_leaf_spends leaf d bid : spends 2 (split_leaf_with_new_buffer leaf d bid).
Proof. unfold split_leaf_with_new_buffer. spend. Qed.
Lemma resize_split_spends id sizes : spends 0 (resize_split_children id sizes).
Proof. unfold resize_split_children. spend. Qed.
Lemma focus_or_rollback_spends sid fid : spends 0 (focus_or_rollback sid fid).
Proof. unfold focus_or_rollback. spend. Qed.
#[export] Hint Resolve wrap_in_split_spends split_leaf_spends resize_split_spends
  focus_or_rollback_spends : ids.
Lemma create_floating_window_spends sid root g title f c :
  spends 1 (create_floating_window_with_options sid root g title f c).
Proof. unfold create_floating_window_with_options. spend. Qed.
#[export] Hint Resolve create_floating_window_spends : ids.
Lemma create_floating_from_buffer_spends sid bid g title f c :
  spends 3 (create_floating_from_buffer_with_options sid bid g title f c).
Proof.
  unfold create_floating_from_buffer_with_options. apply (spends_pay 1); [lia|spend|].
  intros root. apply or_discard_spends1. spend.
Qed.
Lemma set_floating_border_spends fid b : spends 0 (set_floating_border fid b).
Proof. unfold set_floating_border. spend. Qed.
Lemma move_floating_spends fid g : spends 0 (move_floating fid g).
Proof. unfold move_floating. spend. Qed.
Lemma swap_siblings_spends a b : spends 0 (swap_sibling_nodes a b).
Proof. unfold swap_sibling_nodes. spend. Qed.
Lemma reorder_sibling_spends a b before : spends 0 (reorder_sibling_node a b before).
Proof. unfold reorder_sibling_node. spend. Qed.
Lemma replace_node_spends id r : spends 0 (replace_node id r).
Proof. unfold replace_node. spend. Qed.
Lemma move_buffer_to_leaf_spends bid leaf : spends 1 (move_buffer_to_leaf bid leaf).
Proof. unfold move_buffer_to_leaf. spend. Qed.
#[export] Hint Resolve create_floating_from_buffer_spends set_floating_border_spends
  move_floating_spends swap_siblings_spends reorder_sibling_spends replace_node_spends
  move_buffer_to_leaf_spends : ids.
