(* ===== verification/Forest.v ===== *)
(** Forests over node ids: the abstract structure the layout is kept in. A node
    has a session, a parent pointer and a child list; in a forest pointers and
    lists agree and no node is its own descendant. The primitive edits the
    server's operations are made of keep a forest a forest. *)

From stdpp Require Import relations well_founded.
From S2P Require Import Prelude.

Record shape : Type := mkShape {
  sh_session : N;
  sh_parent : option N;
  sh_children : list N
}.

Definition sh_set_parent (p : option N) (x : shape) : shape :=
  mkShape (sh_session x) p (sh_children x).
Definition sh_set_children (cs : list N) (x : shape) : shape :=
  mkShape (sh_session x) (sh_parent x) cs.

Abbreviation graph := (gmap N shape).
Implicit Types g : graph.

Definition edge g (p c : N) : Prop := ∃ x, g !! p = Some x ∧ c ∈ sh_children x.
(** [i] is [r] or below it. *)
Definition reach g (r i : N) : Prop := rtc (edge g) r i.
#[export] Instance reach_preorder g : PreOrder (reach g).
Proof. apply rtc_po. Qed.

Record forest g : Prop := mkForest {
  fo_down : ∀ p x c, g !! p = Some x → c ∈ sh_children x →
    ∃ y, g !! c = Some y ∧ sh_parent y = Some p ∧ sh_session y = sh_session x;
  fo_up : ∀ c y p, g !! c = Some y → sh_parent y = Some p →
    ∃ x, g !! p = Some x ∧ c ∈ sh_children x;
  fo_nodup : ∀ p x, g !! p = Some x → NoDup (sh_children x);
  fo_wf : ∀ i, Acc (λ c p, edge g p c) i
}.

(** ** Recursion on a budget

    On a finite set, a relation without infinite descending chains has no chain
    longer than the set, so a walk along it ends within one step per element. *)

Lemma acc_irrefl (R : N → N → Prop) x : Acc (λ y x, R x y) x → ¬ tc R x x.
Proof.
  induction 1 as [x _ IH]. intros Hc.
  assert (∃ y, R x y ∧ tc R y y) as (y & Hxy & Hyy).
  { inversion Hc as [? ? Hxx|? y ? Hxy Hyx]; subst; [by exists x|].
    exists y. split; [done|]. eapply tc_r; eauto. }
  by apply (IH y).
Qed.

Lemma tc_flip (R : N → N → Prop) x y : tc (flip R) x y → tc R y x.
Proof. induction 1; [by constructor|eapply tc_r; eauto]. Qed.

Section budget.
Context (D : gset N) (R : N → N → Prop).
Hypothesis R_dom : ∀ x y, R x y → y ∈ D.
Hypothesis R_acyclic : ∀ x, ¬ tc R x x.

(** [chain x l]: [l] are the elements met on the way to [x], newest first. *)
Inductive chain : N → list N → Prop :=
  | chain_nil x : chain x []
  | chain_cons x y l : R y x → chain y l → chain x (y :: l).

Lemma chain_tc x l z : chain x l → z ∈ l → tc R z x.
Proof.
  induction 1 as [|x y l Hyx _ IH]; [by intros ?%elem_of_nil|].
  intros [->|Hz]%elem_of_cons; [by constructor|].
  eapply tc_r; eauto.
Qed.

Lemma chain_NoDup x l : chain x l → NoDup (x :: l).
Proof.
  intros Hc. apply NoDup_cons. split.
  - intros Hin. by eapply (R_acyclic x), chain_tc.
  - induction Hc as [|x y l Hyx Hc IH]; [constructor|].
    apply NoDup_cons. split; [|done].
    intros Hin. by eapply (R_acyclic y), chain_tc.
Qed.

Lemma chain_length x l : chain x l → x ∈ D → (∀ z, z ∈ l → z ∈ D) → length l < size D.
Proof.
  intros Hc Hx Hl.
  assert (length (x :: l) ≤ length (elements D)) as Hlen.
  { apply submseteq_length, NoDup_submseteq; [by apply chain_NoDup|].
    intros z. rewrite elem_of_elements, elem_of_cons. intros [->|?]; auto. }
  unfold size, set_size. simpl in *. unfold compose. lia.
Qed.

Lemma budget_ind (P : nat → N → Prop) :
  (∀ fuel x, x ∈ D → (∀ y, R x y → P fuel y) → P (S fuel) x) →
  ∀ x, x ∈ D → P (S (size D)) x.
Proof.
  intros Hstep.
  assert (∀ fuel x l, chain x l → x ∈ D → (∀ z, z ∈ l → z ∈ D) →
            size D < fuel + length l → P fuel x) as Hgen.
  { induction fuel as [|fuel IH]; intros x l Hc Hx Hl Hlt.
    - pose proof (chain_length x l Hc Hx Hl). lia.
    - apply Hstep; [done|]. intros y Hxy. apply (IH y (x :: l)).
      + by constructor.
      + eauto.
      + intros z [->|?]%elem_of_cons; auto.
      + simpl. lia. }
  intros x Hx. apply (Hgen _ x []); [constructor|done|by intros z ?%elem_of_nil|simpl; lia].
Qed.
End budget.

(** ** Facts about forests *)

Section forest_facts.
Context {g : graph} (F : forest g).

Lemma edge_parent p c :
  edge g p c ↔ ∃ y, g !! c = Some y ∧ sh_parent y = Some p.
Proof.
  split.
  - intros (x & Hp & Hc). destruct (fo_down _ F p x c Hp Hc) as (y & ? & ? & _). eauto.
  - intros (y & Hc & Hp). destruct (fo_up _ F c y p Hc Hp) as (x & ? & ?). exists x; eauto.
Qed.

Lemma edge_fun p q c : edge g p c → edge g q c → p = q.
Proof.
  rewrite !edge_parent. intros (y & Hc & Hp) (z & Hc' & Hq). congruence.
Qed.

Lemma edge_dom_r p c : edge g p c → c ∈ dom g.
Proof. rewrite edge_parent. intros (y & Hc & _). by apply elem_of_dom. Qed.
Lemma edge_dom_l p c : edge g p c → p ∈ dom g.
Proof. intros (x & Hp & _). by apply elem_of_dom. Qed.

Lemma edge_session p c x y :
  g !! p = Some x → g !! c = Some y → edge g p c → sh_session y = sh_session x.
Proof.
  intros Hp Hc (x' & Hp' & Hin). destruct (fo_down _ F p x' c Hp' Hin) as (y' & ? & _ & ?).
  congruence.
Qed.

Lemma reach_dom r i : r ∈ dom g → reach g r i → i ∈ dom g.
Proof.
  intros Hr Hri. apply rtc_inv_r in Hri as [->|(j & _ & Hji)]; [done|].
  by eapply edge_dom_r.
Qed.

Lemma reach_session r i x y :
  g !! r = Some x → g !! i = Some y → reach g r i → sh_session y = sh_session x.
Proof.
  intros Hr Hi Hri. revert y Hi.
  induction Hri as [i|r j i Hrj _ IH] in x, Hr |- *; intros y Hi; [congruence|].
  destruct (proj1 (elem_of_dom _ _) (edge_dom_r _ _ Hrj)) as [z Hz].
  rewrite (IH _ Hz _ Hi). by eapply edge_session.
Qed.

(** Ancestors of one node are comparable. *)
Lemma reach_comparable r q i : reach g r i → reach g q i → reach g r q ∨ reach g q r.
Proof.
  intros Hri Hqi. revert Hri. unfold reach in *.
  induction Hqi as [q|q j i Hqj Hji IH]; intros Hri; [by left|].
  destruct (IH Hri) as [Hrj|Hjr].
  - apply rtc_inv_r in Hrj as [->|(k & Hrk & Hkj)].
    + right. by apply rtc_once.
    + left. by rewrite (edge_fun q k j Hqj Hkj).
  - right. by eapply rtc_l.
Qed.

Lemma reach_antisym r q : reach g r q → reach g q r → r = q.
Proof.
  intros Hrq Hqr. destruct (decide (r = q)) as [|Hne]; [done|]. exfalso.
  apply (acc_irrefl (edge g) r (fo_wf _ F r)).
  apply rtc_inv in Hrq as [->|(j & Hrj & Hjq)]; [done|].
  eapply tc_rtc_r; [by constructor|]. by etrans.
Qed.

Lemma acyclic i : ¬ tc (edge g) i i.
Proof. apply acc_irrefl, (fo_wf _ F). Qed.

Lemma edge_irrefl i : ¬ edge g i i.
Proof. intros He. apply (acyclic i). by constructor. Qed.

(** Recursion toward the leaves, and toward the root. *)
Lemma down_ind (P : nat → N → Prop) :
  (∀ fuel i x, g !! i = Some x → (∀ c, c ∈ sh_children x → P fuel c) → P (S fuel) i) →
  ∀ i, i ∈ dom g → P (S (size g)) i.
Proof.
  intros Hstep i Hi. rewrite <-size_dom.
  apply (budget_ind (dom g) (edge g)); [apply edge_dom_r|apply acyclic| |done].
  intros fuel j [x Hx]%elem_of_dom IH. apply (Hstep fuel j x Hx).
  intros c Hc. apply IH. by exists x.
Qed.

Lemma up_ind (P : nat → N → Prop) :
  (∀ fuel i x, g !! i = Some x → (∀ p, sh_parent x = Some p → P fuel p) → P (S fuel) i) →
  ∀ i, i ∈ dom g → P (S (size g)) i.
Proof.
  intros Hstep i Hi. rewrite <-size_dom.
  apply (budget_ind (dom g) (flip (edge g))); [..|done].
  - intros c p. apply edge_dom_l.
  - intros x Hx. by apply (acyclic x), tc_flip.
  - intros fuel j [x Hx]%elem_of_dom IH. apply (Hstep fuel j x Hx).
    intros p Hp. apply IH. apply edge_parent. eauto.
Qed.

(** Every node is below exactly one root. *)
Definition is_root g (r : N) : Prop := ∃ x, g !! r = Some x ∧ sh_parent x = None.

Lemma root_no_edge r p : is_root g r → ¬ edge g p r.
Proof. intros (x & Hx & Hn). rewrite edge_parent. intros (y & Hy & Hp). congruence. Qed.

Lemma reach_to_root r i : is_root g i → reach g r i → r = i.
Proof.
  intros Hi Hri. apply rtc_inv_r in Hri as [|(j & _ & Hji)]; [done|].
  by apply root_no_edge in Hji.
Qed.

Lemma top_exists i : i ∈ dom g → ∃ r, is_root g r ∧ reach g r i.
Proof.
  apply (up_ind (λ _ i, ∃ r, is_root g r ∧ reach g r i)).
  intros _ j x Hx IH. destruct (sh_parent x) as [p|] eqn:Hp; cycle 1.
  { exists j. split; [by exists x|]. reflexivity. }
  destruct (IH p eq_refl) as (r & Hr & Hrp). exists r. split; [done|].
  eapply rtc_r; [done|]. apply edge_parent. eauto.
Qed.

Lemma top_unique r q i : is_root g r → is_root g q → reach g r i → reach g q i → r = q.
Proof.
  intros Hr Hq Hri Hqi. destruct (reach_comparable r q i Hri Hqi).
  - by apply reach_to_root.
  - symmetry. by apply reach_to_root.
Qed.
End forest_facts.

(** ** Primitive edits *)

(** Give [c] the parent pointer [par] and [p] the child list [cs]. *)
Definition g_edit (c : N) (par : option N) (p : N) (cs : list N) (g : graph) : graph :=
  alter (sh_set_children cs) p (alter (sh_set_parent par) c g).

Lemma g_edit_lookup c par p cs g i :
  g_edit c par p cs g !! i =
    (λ x, mkShape (sh_session x) (if decide (i = c) then par else sh_parent x)
            (if decide (i = p) then cs else sh_children x)) <$> g !! i.
Proof.
  unfold g_edit. rewrite !lookup_alter.
  destruct (g !! i) as [[s q l]|] eqn:Hi;
    repeat case_decide; simplify_eq; rewrite ?Hi; simpl; try done.
Qed.

Lemma g_edit_dom c par p cs g : dom (g_edit c par p cs g) = dom g.
Proof. unfold g_edit. by rewrite !dom_alter_L. Qed.

Lemma g_edit_edge c par p cs g x a b :
  g !! p = Some x →
  edge (g_edit c par p cs g) a b ↔ if decide (a = p) then b ∈ cs else edge g a b.
Proof.
  intros Hp. unfold edge. setoid_rewrite g_edit_lookup. destruct (decide (a = p)) as [Ha|Ha].
  - subst a. rewrite Hp. simpl. split.
    + by intros (y & [= <-] & Hb).
    + intros Hb. by eexists.
  - split.
    + intros (y & Hy & Hb). destruct (g !! a) as [z|] eqn:Hz; simplify_eq/=.
      eauto.
    + intros (y & Hy & Hb). rewrite Hy. by eexists.
Qed.

Section edits.
Context {g : graph} (F : forest g).

(** A new node without parent or children. *)
Lemma forest_leaf i sid :
  g !! i = None → forest (<[i := mkShape sid None []]> g).
Proof.
  intros Hi.
  assert (∀ a b, edge (<[i := mkShape sid None []]> g) a b ↔ edge g a b) as He.
  { intros a b. unfold edge. split.
    - intros (x & Hx & Hb). rewrite lookup_insert in Hx. case_decide; simplify_eq/=.
      + by apply elem_of_nil in Hb.
      + eauto.
    - intros (x & Hx & Hb). exists x. split; [|done].
      rewrite lookup_insert_ne; [done|]. intros ->. congruence. }
  assert (∀ a b, edge g a b → a ≠ i ∧ b ≠ i) as Hne.
  { intros a b Hab. split; intros ->.
    - apply edge_dom_l, elem_of_dom in Hab as [??]. congruence.
    - apply (edge_dom_r F), elem_of_dom in Hab as [??]. congruence. }
  split.
  - intros p x c Hp Hc. destruct (Hne p c) as [Hp' Hc'].
    { apply He. by exists x. }
    rewrite lookup_insert_ne in Hp by done. rewrite lookup_insert_ne by done.
    by apply (fo_down _ F p x c).
  - intros c y p Hc Hp. rewrite lookup_insert in Hc. case_decide; simplify_eq/=.
    destruct (fo_up _ F c y p Hc Hp) as (x & Hx & Hin).
    exists x. rewrite lookup_insert_ne; [done|]. intros ->. congruence.
  - intros p x Hp. rewrite lookup_insert in Hp. case_decide; simplify_eq/=.
    + constructor.
    + by apply (fo_nodup _ F p x).
  - intros j. induction (fo_wf _ F j) as [j _ IH]. constructor.
    intros c Hc. apply IH, He, Hc.
Qed.

Lemma forest_permute p x cs :
  g !! p = Some x → cs ≡ₚ sh_children x → forest (alter (sh_set_children cs) p g).
Proof.
  intros Hp Hcs.
  assert (alter (sh_set_children cs) p g = g_edit p (sh_parent x) p cs g) as ->.
  { apply map_eq. intros i. rewrite g_edit_lookup, lookup_alter.
    case_decide as Hi; subst; rewrite ?Hp; simpl.
    - by rewrite !decide_True.
    - destruct (g !! i) as [[]|]; simpl; [|done]. by rewrite !decide_False by done. }
  assert (∀ a b, edge (g_edit p (sh_parent x) p cs g) a b ↔ edge g a b) as He.
  { intros a b. rewrite (g_edit_edge _ _ _ _ _ x) by done. case_decide; [|done].
    subst a. unfold edge. setoid_rewrite Hp. split; [|intros (? & ? & ?)]; simplify_eq;
      [exists x; by rewrite <-Hcs|by rewrite Hcs]. }
  split.
  - intros q y c Hq Hc. assert (edge g q c) as Hqc.
    { apply He. eexists; eauto. }
    rewrite g_edit_lookup in Hq. destruct (g !! q) as [z|] eqn:Hz; simplify_eq/=.
    assert (c ∈ sh_children z) as Hcz.
    { destruct Hqc as (z' & ? & ?). congruence. }
    destruct (fo_down _ F q z c Hz Hcz) as (w & Hw & Hpw & Hsw).
    rewrite g_edit_lookup, Hw. eexists. split; [done|]. simpl. split; [|done].
    destruct (decide (c = p)); congruence.
  - intros c y q Hc Hq. rewrite g_edit_lookup in Hc.
    destruct (g !! c) as [z|] eqn:Hz; simplify_eq/=.
    assert (edge g q c) as Hqc.
    { apply (edge_parent F). exists z. split; [done|]. case_decide; congruence. }
    apply He in Hqc. done.
  - intros q y Hq. rewrite g_edit_lookup in Hq.
    destruct (g !! q) as [z|] eqn:Hz; simplify_eq/=. case_decide.
    + subst. rewrite Hcs. apply (fo_nodup _ F p x). congruence.
    + by apply (fo_nodup _ F q z).
  - intros j. induction (fo_wf _ F j) as [j _ IH]. constructor.
    intros c Hc. apply IH, He, Hc.
Qed.

(** Unlink [c] from its parent [p]. *)
Lemma forest_detach p c x cs :
  g !! p = Some x → sh_children x ≡ₚ c :: cs → forest (g_edit c None p cs g).
Proof.
  intros Hp Hx.
  assert (edge g p c) as Hpc. { exists x. split; [done|]. rewrite Hx. by left. }
  assert (p ≠ c) as Hne. { intros ->. by eapply edge_irrefl. }
  assert ((c ∉ cs) ∧ NoDup cs) as [Hncs Hdcs].
  { apply NoDup_cons. rewrite <-Hx. by apply (fo_nodup _ F p). }
  assert (∀ a b, edge (g_edit c None p cs g) a b ↔ edge g a b ∧ b ≠ c) as He.
  { intros a b. rewrite (g_edit_edge _ _ _ _ _ x) by done. case_decide.
    - subst a. unfold edge. rewrite Hp. split.
      + intros Hb. split; [|congruence]. exists x. split; [done|]. rewrite Hx. by right.
      + intros [(y & [= <-] & Hb) Hbc]. rewrite Hx in Hb. by apply elem_of_cons in Hb as [|].
    - split; [|by intros [??]]. intros Hab. split; [done|]. intros ->.
      by pose proof (edge_fun F _ _ _ Hab Hpc). }
  split.
  - intros q y d Hq Hd. assert (edge g q d ∧ d ≠ c) as [Hqd Hdc].
    { apply He. eexists; eauto. }
    rewrite g_edit_lookup in Hq. destruct (g !! q) as [z|] eqn:Hz; simplify_eq/=.
    destruct Hqd as (z' & Hz' & Hin). simplify_eq.
    destruct (fo_down _ F q z d Hz Hin) as (w & Hw & Hpw & Hsw).
    rewrite g_edit_lookup, Hw. eexists. split; [done|]. simpl. split; [|done].
    by rewrite decide_False.
  - intros d y q Hd Hq. rewrite g_edit_lookup in Hd.
    destruct (g !! d) as [z|] eqn:Hz; simplify_eq/=. case_decide; [done|].
    change (edge (g_edit c None p cs g) q d). apply He. split; [|done].
    apply (edge_parent F). eauto.
  - intros q y Hq. rewrite g_edit_lookup in Hq.
    destruct (g !! q) as [z|] eqn:Hz; simplify_eq/=. case_decide; [done|].
    by apply (fo_nodup _ F q z).
  - intros j. induction (fo_wf _ F j) as [j _ IH]. constructor.
    intros d Hd. apply IH, He, Hd.
Qed.

(** Link the root [c] below [p], which is not below it. *)
Lemma forest_attach p c x y cs :
  g !! p = Some x → g !! c = Some y → sh_parent y = None →
  sh_session y = sh_session x → ¬ reach g c p → cs ≡ₚ c :: sh_children x →
  forest (g_edit c (Some p) p cs g).
Proof.
  intros Hp Hc Hroot Hs Hncp Hcs.
  assert (p ≠ c) as Hne. { intros ->. by apply Hncp. }
  assert (c ∉ sh_children x) as Hnin.
  { intros Hin. destruct (fo_down _ F p x c Hp Hin) as (y' & ? & ? & _). congruence. }
  assert (∀ a b, edge (g_edit c (Some p) p cs g) a b ↔ edge g a b ∨ (a = p ∧ b = c)) as He.
  { intros a b. rewrite (g_edit_edge _ _ _ _ _ x) by done. case_decide.
    - subst a. rewrite Hcs, elem_of_cons. unfold edge. rewrite Hp. naive_solver.
    - naive_solver. }
  assert (∀ i, reach g c i → Acc (λ d q, edge (g_edit c (Some p) p cs g) q d) i) as Hsub.
  { intros i. induction (fo_wf _ F i) as [i _ IH]. intros Hci. constructor.
    intros d Hd. apply He in Hd as [Hd|[-> ->]]; [|done].
    apply IH; [done|]. by eapply rtc_r. }
  split.
  - intros q z d Hq Hd. assert (edge g q d ∨ (q = p ∧ d = c)) as Hqd.
    { apply He. eexists; eauto. }
    rewrite g_edit_lookup in Hq. destruct (g !! q) as [z'|] eqn:Hz; simplify_eq/=.
    destruct Hqd as [(z0 & Hz0 & Hin)|[-> ->]].
    + simplify_eq. destruct (fo_down _ F q _ d Hz Hin) as (w & Hw & Hpw & Hsw).
      rewrite g_edit_lookup, Hw. eexists. split; [done|]. simpl. split; [|done].
      rewrite decide_False; [done|]. intros ->. congruence.
    + simplify_eq. rewrite g_edit_lookup, Hc. eexists. split; [done|]. simpl.
      by rewrite decide_True.
  - intros d z q Hd Hq. rewrite g_edit_lookup in Hd.
    destruct (g !! d) as [z'|] eqn:Hz; simplify_eq/=.
    change (edge (g_edit c (Some p) p cs g) q d). apply He. case_decide.
    + right. split; congruence.
    + left. apply (edge_parent F). eauto.
  - intros q z Hq. rewrite g_edit_lookup in Hq.
    destruct (g !! q) as [z'|] eqn:Hz; simplify_eq/=. case_decide.
    + rewrite Hcs. apply NoDup_cons. split; [done|]. by apply (fo_nodup _ F p).
    + by apply (fo_nodup _ F q z').
  - intros j. induction (fo_wf _ F j) as [j _ IH]. constructor.
    intros d [Hd|[-> ->]]%He; [by apply IH|]. by apply Hsub.
Qed.

(** Drop a whole tree: every node at or below the root [r]. *)
Lemma forest_prune r (g' : graph) :
  is_root g r →
  (∀ i, reach g r i → g' !! i = None) → (∀ i, ¬ reach g r i → g' !! i = g !! i) →
  (∀ i, reach g r i ∨ ¬ reach g r i) → forest g'.
Proof.
  intros Hr Hin Hout Hdec.
  assert (∀ i x, g' !! i = Some x → g !! i = Some x ∧ ¬ reach g r i) as Hinv.
  { intros i x Hi. destruct (Hdec i) as [Hri|Hri].
    - rewrite Hin in Hi by done. done.
    - by rewrite <-Hout. }
  assert (∀ a b, edge g' a b → edge g a b) as He.
  { intros a b (x & Hx & Hb). apply Hinv in Hx as [Hx _]. by exists x. }
  split.
  - intros p x c Hp Hc. apply Hinv in Hp as [Hp Hnp].
    destruct (fo_down _ F p x c Hp Hc) as (y & Hy & Hpy & Hsy).
    exists y. rewrite Hout; [done|]. intros Hrc.
    apply rtc_inv_r in Hrc as [<-|(q & Hrq & Hqc)].
    + apply (root_no_edge F r p Hr). by exists x.
    + assert (edge g p c) as Hpc by by exists x. by rewrite (edge_fun F _ _ _ Hpc Hqc) in Hnp.
  - intros c y p Hc Hp. apply Hinv in Hc as [Hc Hnc].
    destruct (fo_up _ F c y p Hc Hp) as (x & Hx & Hcx). exists x. split; [|done].
    rewrite Hout; [done|]. intros Hrp. apply Hnc. eapply rtc_r; [done|]. by exists x.
  - intros p x Hp. apply Hinv in Hp as [Hp _]. by apply (fo_nodup _ F p).
  - intros j. induction (fo_wf _ F j) as [j _ IH]. constructor. intros c Hc. by apply IH, He.
Qed.
End edits.

Lemma forest_empty : forest ∅.
Proof.
  split; intros ?; try (intros; simplify_map_eq).
  constructor. intros c (x & ? & _). simplify_map_eq.
Qed.

(** ** Composite edits *)

(** A childless root goes. *)
Lemma forest_delete_root {g} (F : forest g) i y :
  g !! i = Some y → sh_parent y = None → sh_children y = [] → forest (delete i g).
Proof.
  intros Hi Hp Hc. assert (∀ j, reach g i j ↔ j = i) as Hreach.
  { intros j. split; [|intros ->; reflexivity].
    intros [->|(k & (z & Hz & Hk) & _)]%rtc_inv; [done|].
    simplify_eq. rewrite Hc in Hk. by apply elem_of_nil in Hk. }
  apply (forest_prune F i).
  - by exists y.
  - intros j ->%Hreach. apply lookup_delete_eq.
  - intros j Hj. apply lookup_delete_ne. intros ->. by apply Hj, Hreach.
  - intros j. rewrite Hreach. destruct (decide (j = i)); auto.
Qed.

Section composite.
Context {g : graph} (F : forest g).

Lemma detach_edges c p x cs a b :
  g !! p = Some x → sh_children x ≡ₚ c :: cs → edge (g_edit c None p cs g) a b → edge g a b.
Proof.
  intros Hp Hx. rewrite (g_edit_edge _ _ _ _ _ x) by done. case_decide; [|done].
  subst a. intros Hb. exists x. split; [done|]. rewrite Hx. by right.
Qed.

(** A root with one child goes; the child becomes a root. *)
Lemma forest_unroot i y c z g' :
  g !! i = Some y → sh_parent y = None → sh_children y = [c] → g !! c = Some z →
  (∀ j, g' !! j = if decide (j = i) then None
     else if decide (j = c) then Some (sh_set_parent None z) else g !! j) →
  forest g'.
Proof.
  intros Hi Hp Hc Hz Hg'.
  assert (forest (g_edit c None i [] g)) as F1.
  { apply (forest_detach F i c y); [done|]. by rewrite Hc. }
  assert (i ≠ c) as Hne.
  { intros ->. apply (edge_irrefl F c). exists y. rewrite Hc. split; [done|by left]. }
  assert (g_edit c None i [] g !! i = Some (mkShape (sh_session y) None [])) as Hi1.
  { rewrite g_edit_lookup, Hi. simpl. by rewrite Hp, decide_False, decide_True. }
  assert (∀ f : forest (g_edit c None i [] g), g' = delete i (g_edit c None i [] g)) as Heq.
  { intros _. apply map_eq. intros j. rewrite Hg', lookup_delete, g_edit_lookup.
    repeat case_decide; subst; rewrite ?Hz; simpl; try done.
    by destruct (g !! j) as [[]|]. }
  rewrite (Heq F1). apply (forest_delete_root F1 _ _ Hi1); done.
Qed.
End composite.

Section splice.
Context {g : graph} (F : forest g).
Context {p i c : N} {x y z : shape} {rest : list N}.
Context (Hp : g !! p = Some x) (Hi : g !! i = Some y) (Hc : g !! c = Some z).
Context (Hx : sh_children x ≡ₚ i :: rest) (Hy : sh_children y = [c]).

Lemma splice_edges : edge g p i ∧ edge g i c.
Proof.
  split; [exists x|exists y]; (split; [done|]); rewrite ?Hx, ?Hy; by left.
Qed.

Lemma splice_ne : p ≠ i ∧ i ≠ c ∧ p ≠ c.
Proof.
  destruct splice_edges as [Hpi Hic]. split_and!; intros He.
  - apply (edge_irrefl F p). by rewrite He at 2.
  - apply (edge_irrefl F i). by rewrite He at 2.
  - apply (acyclic F p). eapply tc_l; [done|]. rewrite He. by constructor.
Qed.

(** [i], with the only child [c], is taken out from between [p] and [c]. *)
Lemma forest_splice cs g' :
  cs ≡ₚ c :: rest →
  (∀ j, g' !! j =
     if decide (j = i) then None
     else if decide (j = c) then Some (sh_set_parent (Some p) z)
     else if decide (j = p) then Some (sh_set_children cs x) else g !! j) →
  forest g'.
Proof.
  intros Hcs Hg'. destruct splice_edges as [Hpi Hic]. destruct splice_ne as (N1 & N2 & N3).
  set (g1 := g_edit i None p rest g).
  assert (forest g1) as F1 by by apply (forest_detach F p i x).
  assert (g1 !! i = Some (mkShape (sh_session y) None [c])) as Hi1.
  { unfold g1. rewrite g_edit_lookup, Hi. simpl. by rewrite Hy, decide_True, decide_False. }
  set (g2 := g_edit c None i [] g1).
  assert (forest g2) as F2 by by eapply (forest_detach F1 i c).
  assert (∀ a b, edge g2 a b → edge g a b) as Hsub.
  { intros a b Hab. apply (detach_edges i p x rest); [done..|].
    by eapply (detach_edges c i); [exact Hi1| |exact Hab]. }
  assert (g2 !! p = Some (mkShape (sh_session x) (sh_parent x) rest)) as Hp2.
  { unfold g2, g1. rewrite !g_edit_lookup, Hp. simpl.
    by rewrite !decide_False, decide_True by congruence. }
  assert (g2 !! c = Some (mkShape (sh_session z) None (sh_children z))) as Hc2.
  { unfold g2, g1. rewrite !g_edit_lookup, Hc. simpl.
    by rewrite decide_True, !decide_False by congruence. }
  set (g3 := g_edit c (Some p) p cs g2).
  assert (forest g3) as F3.
  { eapply (forest_attach F2 p c _ _ cs); [done..| | |done].
    - simpl. rewrite (edge_session F i c y z), (edge_session F p i x y); done.
    - intros Hr. apply (acyclic F p). eapply tc_l; [exact Hpi|].
      eapply tc_rtc_r; [by constructor|]. revert Hr. by apply rtc_subrel. }
  assert (g3 !! i = Some (mkShape (sh_session y) None [])) as Hi3.
  { unfold g3, g2, g1. rewrite !g_edit_lookup, Hi. simpl. do 3 f_equal.
    - by rewrite !decide_False, decide_True by congruence.
    - by rewrite decide_False, decide_True by congruence. }
  assert (g' = delete i g3) as ->; [|by apply (forest_delete_root F3 i _ Hi3)].
  apply map_eq. intros j. rewrite Hg', lookup_delete. symmetry.
  case_decide as E1; [by subst; rewrite decide_True|]. rewrite (decide_False (P := j = i)) by done.
  unfold g3, g2, g1. rewrite !g_edit_lookup. repeat case_decide; subst; try done;
    rewrite ?Hp, ?Hc; simpl; try done.
  by destruct (g !! j) as [[]|].
Qed.
End splice.
