(* ===== verification/Invariant.v ===== *)
(** What a consistent server state is. [wired] relates the node map to the
    forest of [Forest.v] and the sessions and popups to its roots; [shaped]
    bounds the containers' own fields; [attached_but] ties buffers and views to
    each other; [remembers] bounds the leaves that containers and popups
    remember. [refocused] relates two states that differ in the focus only. *)

From S2P Require Import Prelude Core Model Environment State Queries Forest.

(** ** The layout as a forest *)

Definition shape_of (n : Node) : shape :=
  mkShape (node_session n) (parent n) (child_ids n).

Abbreviation layout m := (shape_of <$> (m : gmap N Node)).

Lemma layout_lookup m i : layout m !! i = shape_of <$> m !! i.
Proof. apply lookup_fmap. Qed.

Lemma layout_Some m i x : layout m !! i = Some x ↔ ∃ n, m !! i = Some n ∧ x = shape_of n.
Proof. rewrite layout_lookup, fmap_Some. done. Qed.

Lemma layout_dom m i : i ∈ dom (layout m) ↔ is_Some (m !! i).
Proof. by rewrite dom_fmap, elem_of_dom. Qed.

Lemma layout_edge m p c : edge (layout m) p c ↔ ∃ n, m !! p = Some n ∧ c ∈ child_ids n.
Proof. unfold edge. setoid_rewrite layout_Some. naive_solver. Qed.

Lemma layout_is_root m r : is_root (layout m) r ↔ ∃ n, m !! r = Some n ∧ parent n = None.
Proof. unfold is_root. setoid_rewrite layout_Some. naive_solver. Qed.

(** Writing a node without changing its place in the tree. *)
Lemma layout_insert_same m i n n' :
  m !! i = Some n → shape_of n' = shape_of n → layout (<[i := n']> m) = layout m.
Proof.
  intros Hi Hs. rewrite fmap_insert, Hs. apply insert_id. by rewrite layout_lookup, Hi.
Qed.

Lemma layout_size m : size (layout m) = size m.
Proof. apply map_size_fmap. Qed.

(** ** Well-formedness *)

Definition node_ok (n : Node) : Prop :=
  match n with
  | BufferView _ => True
  | Split s => 2 ≤ length (sp_children s) ∧ length (sp_sizes s) = length (sp_children s)
  | Tabs t => t_active t < length (t_tabs t) ∨ t_tabs t = [] ∧ t_active t = 0
  end.

Record session_ok (st : ServerState) (sid : N) (s : Session) : Prop := {
  so_id : s_id s = sid;
  so_root : ∃ t, nodes st !! s_root_node s = Some (Tabs t)
                 ∧ t_parent t = None ∧ t_session_id t = sid;
  so_nodup : NoDup (s_floating s);
  so_floating : ∀ fid, fid ∈ s_floating s →
    ∃ w, floating st !! fid = Some w ∧ f_session_id w = sid
}.

Record window_ok (st : ServerState) (fid : N) (w : FloatingWindow) : Prop := {
  wo_id : f_id w = fid;
  wo_root : ∃ n, nodes st !! f_root_node w = Some n
                 ∧ parent n = None ∧ node_session n = f_session_id w;
  wo_listed : ∃ s, sessions st !! f_session_id w = Some s
                   ∧ fid ∈ s_floating s ∧ f_root_node w ≠ s_root_node s;
  wo_visible : f_visible w = true
}.

(** Every id is below its allocator's next value. *)
Record fresh_ids (st : ServerState) : Prop := {
  fi_sessions : ∀ i, is_Some (sessions st !! i) → (i < session_ids st)%N;
  fi_buffers : ∀ i, is_Some (buffers st !! i) → (i < buffer_ids st)%N;
  fi_nodes : ∀ i, is_Some (nodes st !! i) → (i < node_ids st)%N;
  fi_floating : ∀ i, is_Some (floating st !! i) → (i < floating_ids st)%N
}.

Record wired (st : ServerState) : Prop := {
  wi_forest : forest (layout (nodes st));
  wi_node_id : ∀ i n, nodes st !! i = Some n → node_id n = i;
  wi_buffer_id : ∀ i b, buffers st !! i = Some b → b_id b = i;
  wi_session : ∀ sid s, sessions st !! sid = Some s → session_ok st sid s;
  wi_window : ∀ fid w, floating st !! fid = Some w → window_ok st fid w;
  wi_roots : ∀ fid fid' w w', floating st !! fid = Some w → floating st !! fid' = Some w' →
    f_root_node w = f_root_node w' → fid = fid';
  wi_fresh : fresh_ids st
}.

(** All containers but those in [D] are well shaped. *)
Definition shaped (D : gset N) (st : ServerState) : Prop :=
  ∀ i n, nodes st !! i = Some n → i ∉ D → node_ok n.

(** A buffer is attached to the view that shows it; every view but those in [U]
    has its buffer attached to it. *)
Record attached_but (U : gset N) (st : ServerState) : Prop := {
  at_backed : ∀ i v, nodes st !! i = Some (BufferView v) → is_Some (buffers st !! v_buffer_id v);
  at_view : ∀ i v, nodes st !! i = Some (BufferView v) → i ∉ U →
    ∃ b, buffers st !! v_buffer_id v = Some b ∧ b_attachment b = Attached i;
  at_buffer : ∀ bid b i, buffers st !! bid = Some b → b_attachment b = Attached i →
    ∃ v, nodes st !! i = Some (BufferView v) ∧ v_buffer_id v = bid
}.

(** A remembered leaf is an id handed out before; if the node still exists, it
    is a view. *)
Definition leaf_memory (st : ServerState) (leaf : N) : Prop :=
  (leaf < node_ids st)%N ∧ ∀ n, nodes st !! leaf = Some n → is_buffer_view n = true.

(** Likewise for the popup a session remembers as focused. *)
Definition popup_memory (st : ServerState) (sid fid : N) : Prop :=
  (fid < floating_ids st)%N ∧
  ∀ w, floating st !! fid = Some w → f_session_id w = sid.

Record remembers (st : ServerState) : Prop := {
  re_node : ∀ i n leaf, nodes st !! i = Some n → last_focused_descendant n = Some leaf →
    leaf_memory st leaf;
  re_window : ∀ fid w leaf, floating st !! fid = Some w → f_last_focused_leaf w = Some leaf →
    leaf_memory st leaf;
  re_session : ∀ sid s leaf, sessions st !! sid = Some s → s_focused_leaf s = Some leaf →
    leaf_memory st leaf;
  re_popup : ∀ sid s fid, sessions st !! sid = Some s → s_focused_floating s = Some fid →
    popup_memory st sid fid
}.

(** The invariant with exceptions, and the invariant every request keeps. *)
Record inv_but (D U : gset N) (st : ServerState) : Prop := {
  in_wired : wired st;
  in_shaped : shaped D st;
  in_attached : attached_but U st;
  in_remembers : remembers st
}.
Abbreviation inv := (inv_but ∅ ∅).

(** No container below another has a single tab or none; [normalize_tabs_node]
    relies on it. *)
Definition compact_but (D : gset N) (st : ServerState) : Prop :=
  ∀ i t, nodes st !! i = Some (Tabs t) → t_parent t ≠ None → i ∉ D → 2 ≤ length (t_tabs t).
Abbreviation compact := (compact_but ∅).

(** Every tree but those of the roots in [X] is a session's or a popup's. *)
Definition owned_root (st : ServerState) (i : N) : Prop :=
  (∃ sid s, sessions st !! sid = Some s ∧ s_root_node s = i)
  ∨ (∃ fid w, floating st !! fid = Some w ∧ f_root_node w = i).
Definition anchored_but (X : gset N) (st : ServerState) : Prop :=
  ∀ i n, nodes st !! i = Some n → parent n = None → i ∉ X → owned_root st i.
Abbreviation anchored := (anchored_but ∅).

Lemma inv_weaken D U D' U' st : D ⊆ D' → U ⊆ U' → inv_but D U st → inv_but D' U' st.
Proof.
  intros HD HU [Hw Hs Ha Hr]. split; [done| |split; try apply Ha|done].
  - intros i n Hi Hn. apply (Hs i n Hi). set_solver.
  - intros i v Hi Hn. apply (at_view _ _ Ha i v Hi). set_solver.
Qed.

(** ** States that differ in the focus only *)

Definition scrub_node (n : Node) : Node :=
  match n with
  | BufferView v => BufferView (v_set_focused false v)
  | Split s => Split (sp_set_last None s)
  | Tabs t => Tabs (t_set_last None (t_set_tabs (t_tabs t) 0 t))
  end.
Definition scrub_session (s : Session) : Session :=
  s_set_focus_history [] (s_set_focus None None s).
Definition scrub_window (w : FloatingWindow) : FloatingWindow := f_set_focus false None w.
Definition scrub_buffer (b : Buffer) : Buffer := b_set_activity Idle (b_last_snapshot_seq b) b.

Definition scrub (st : ServerState) : ServerState :=
  mkServerState (scrub_session <$> sessions st) (scrub_buffer <$> buffers st)
    (scrub_node <$> nodes st) (scrub_window <$> floating st) (environment st)
    (last_viewport st) (last_pane_titles st) (last_base_index st) (remain_on_exit st)
    (session_ids st) (buffer_ids st) (node_ids st) (floating_ids st).

Definition keeps_shape (st st' : ServerState) : Prop :=
  ∀ i n n', nodes st !! i = Some n → nodes st' !! i = Some n' → node_ok n → node_ok n'.

Record refocused (st st' : ServerState) : Prop := {
  rf_scrub : scrub st' = scrub st;
  rf_shape : keeps_shape st st';
  rf_remembers : remembers st → remembers st'
}.

Section same_scrub.
Context {st st' : ServerState} (H : scrub st' = scrub st).

Lemma scrub_parts :
  scrub_session <$> sessions st' = scrub_session <$> sessions st
  ∧ scrub_buffer <$> buffers st' = scrub_buffer <$> buffers st
  ∧ scrub_node <$> nodes st' = scrub_node <$> nodes st
  ∧ scrub_window <$> floating st' = scrub_window <$> floating st
  ∧ session_ids st' = session_ids st ∧ buffer_ids st' = buffer_ids st
  ∧ node_ids st' = node_ids st ∧ floating_ids st' = floating_ids st.
Proof. unfold scrub in H. by injection H. Qed.

Lemma scrub_lookup_session sid s :
  sessions st !! sid = Some s →
  ∃ s', sessions st' !! sid = Some s' ∧ scrub_session s' = scrub_session s.
Proof.
  intros Hs. destruct scrub_parts as (Hp & _). apply (f_equal (lookup sid)) in Hp.
  rewrite !lookup_fmap, Hs in Hp. apply fmap_Some in Hp as (s' & ? & ?). eauto.
Qed.
Lemma scrub_lookup_buffer bid b :
  buffers st !! bid = Some b →
  ∃ b', buffers st' !! bid = Some b' ∧ scrub_buffer b' = scrub_buffer b.
Proof.
  intros Hs. destruct scrub_parts as (_ & Hp & _). apply (f_equal (lookup bid)) in Hp.
  rewrite !lookup_fmap, Hs in Hp. apply fmap_Some in Hp as (s' & ? & ?). eauto.
Qed.
Lemma scrub_lookup_node i n :
  nodes st !! i = Some n →
  ∃ n', nodes st' !! i = Some n' ∧ scrub_node n' = scrub_node n.
Proof.
  intros Hs. destruct scrub_parts as (_ & _ & Hp & _). apply (f_equal (lookup i)) in Hp.
  rewrite !lookup_fmap, Hs in Hp. apply fmap_Some in Hp as (s' & ? & ?). eauto.
Qed.
Lemma scrub_lookup_window fid w :
  floating st !! fid = Some w →
  ∃ w', floating st' !! fid = Some w' ∧ scrub_window w' = scrub_window w.
Proof.
  intros Hs. destruct scrub_parts as (_ & _ & _ & Hp & _). apply (f_equal (lookup fid)) in Hp.
  rewrite !lookup_fmap, Hs in Hp. apply fmap_Some in Hp as (s' & ? & ?). eauto.
Qed.

Lemma scrub_layout : layout (nodes st') = layout (nodes st).
Proof.
  destruct scrub_parts as (_ & _ & Hp & _).
  assert (∀ m : gmap N Node, layout m = shape_of <$> (scrub_node <$> m)) as Hl.
  { intros m. rewrite <-map_fmap_compose. apply map_fmap_ext. by intros i []. }
  by rewrite (Hl (nodes st')), Hp, <-Hl.
Qed.
End same_scrub.

(** What [scrub] keeps of each record. *)
Lemma scrub_session_eq s s' : scrub_session s' = scrub_session s →
  s_id s' = s_id s ∧ s_root_node s' = s_root_node s ∧ s_floating s' = s_floating s
  ∧ s_zoomed_node s' = s_zoomed_node s.
Proof. destruct s, s'. by intros [=]. Qed.
Lemma scrub_window_eq w w' : scrub_window w' = scrub_window w →
  f_id w' = f_id w ∧ f_session_id w' = f_session_id w ∧ f_root_node w' = f_root_node w
  ∧ f_visible w' = f_visible w.
Proof. destruct w, w'. by intros [=]. Qed.
Lemma scrub_buffer_eq b b' : scrub_buffer b' = scrub_buffer b →
  b_id b' = b_id b ∧ b_attachment b' = b_attachment b ∧ b_title b' = b_title b.
Proof. destruct b, b'. by intros [=]. Qed.
Lemma scrub_view_eq n v : scrub_node n = scrub_node (BufferView v) →
  ∃ v', n = BufferView v' ∧ v_id v' = v_id v ∧ v_session_id v' = v_session_id v
        ∧ v_parent v' = v_parent v ∧ v_buffer_id v' = v_buffer_id v.
Proof. destruct n; try done. intros [=]. eexists. by split_and!. Qed.
Lemma scrub_tabs_eq n t : scrub_node n = scrub_node (Tabs t) →
  ∃ t', n = Tabs t' ∧ t_id t' = t_id t ∧ t_session_id t' = t_session_id t
        ∧ t_parent t' = t_parent t ∧ t_tabs t' = t_tabs t.
Proof. destruct n; try done. intros [=]. eexists. by split_and!. Qed.
Lemma scrub_node_eq n n' : scrub_node n' = scrub_node n →
  node_id n' = node_id n ∧ shape_of n' = shape_of n ∧ is_buffer_view n' = is_buffer_view n.
Proof. destruct n, n'; try done; unfold shape_of; simpl; intros [=]; repeat split; congruence. Qed.

Lemma refocused_refl st : refocused st st.
Proof. split; [done| |done]. intros i n n' ? ?. by simplify_eq. Qed.

Lemma refocused_trans st1 st2 st3 : refocused st1 st2 → refocused st2 st3 → refocused st1 st3.
Proof.
  intros [H1 K1 R1] [H2 K2 R2]. split; [congruence| |auto].
  intros i n n3 Hn Hn3 Hok. destruct (scrub_lookup_node H1 _ _ Hn) as (n2 & Hn2 & _). eauto.
Qed.

#[export] Instance refocused_preorder : PreOrder refocused.
Proof. split; [exact refocused_refl|exact refocused_trans]. Qed.

(** ** States with the same structure

    [embeds st st'] holds when every record of [st] has a counterpart in [st']
    that agrees on the fields the invariant reads; [like] is both directions. *)

Definition view_buffer (n : Node) : option N := v_buffer_id <$> as_buffer_view n.

Definition same_session (s s' : Session) : Prop :=
  s_id s' = s_id s ∧ s_root_node s' = s_root_node s ∧ s_floating s' = s_floating s.
Definition same_buffer (b b' : Buffer) : Prop :=
  b_id b' = b_id b ∧ b_attachment b' = b_attachment b.
Definition same_node (n n' : Node) : Prop :=
  node_id n' = node_id n ∧ shape_of n' = shape_of n ∧ view_buffer n' = view_buffer n
  ∧ is_tabs n' = is_tabs n.
Definition same_window (w w' : FloatingWindow) : Prop :=
  f_id w' = f_id w ∧ f_session_id w' = f_session_id w ∧ f_root_node w' = f_root_node w
  ∧ f_visible w' = f_visible w.

Record embeds (st st' : ServerState) : Prop := {
  em_session : ∀ i s, sessions st !! i = Some s →
    ∃ s', sessions st' !! i = Some s' ∧ same_session s s';
  em_buffer : ∀ i b, buffers st !! i = Some b →
    ∃ b', buffers st' !! i = Some b' ∧ same_buffer b b';
  em_node : ∀ i n, nodes st !! i = Some n → ∃ n', nodes st' !! i = Some n' ∧ same_node n n';
  em_window : ∀ i w, floating st !! i = Some w →
    ∃ w', floating st' !! i = Some w' ∧ same_window w w'
}.
Record like (st st' : ServerState) : Prop := {
  lk_fwd : embeds st st';
  lk_bwd : embeds st' st;
  lk_ids : session_ids st' = session_ids st ∧ buffer_ids st' = buffer_ids st
           ∧ node_ids st' = node_ids st ∧ floating_ids st' = floating_ids st
}.

Lemma like_sym st st' : like st st' → like st' st.
Proof. intros [Ef Eb (? & ? & ? & ?)]. split; [done..|]. by split_and!. Qed.

Lemma embeds_trans st1 st2 st3 : embeds st1 st2 → embeds st2 st3 → embeds st1 st3.
Proof.
  intros [S1 B1 N1 W1] [S2 B2 N2 W2].
  split; intros i x Hx;
    [destruct (S1 i x Hx) as (y & Hy & Hxy), (S2 i y Hy) as (z & Hz & Hyz)
    |destruct (B1 i x Hx) as (y & Hy & Hxy), (B2 i y Hy) as (z & Hz & Hyz)
    |destruct (N1 i x Hx) as (y & Hy & Hxy), (N2 i y Hy) as (z & Hz & Hyz)
    |destruct (W1 i x Hx) as (y & Hy & Hxy), (W2 i y Hy) as (z & Hz & Hyz)];
    exists z; (split; [done|]); revert Hxy Hyz;
    unfold same_session, same_buffer, same_node, same_window; intuition congruence.
Qed.

#[export] Instance like_preorder : PreOrder like.
Proof.
  split.
  - intros st. split; [split; intros i x Hx; exists x; by split_and!..|]. by split_and!.
  - intros st1 st2 st3 [F1 B1 (? & ? & ? & ?)] [F2 B2 (? & ? & ? & ?)].
    split; [by eapply embeds_trans..|]. split_and!; congruence.
Qed.

Lemma same_view n n' v :
  same_node n n' → n = BufferView v → ∃ v', n' = BufferView v' ∧ v_buffer_id v' = v_buffer_id v.
Proof.
  intros (_ & _ & Hv & _) ->. destruct n' as [v'|s|t]; try done. injection Hv. eauto.
Qed.
Lemma same_tabs n n' t :
  same_node n n' → n = Tabs t → ∃ t', n' = Tabs t' ∧ t_parent t' = t_parent t
    ∧ t_session_id t' = t_session_id t ∧ (te_child <$> t_tabs t') = (te_child <$> t_tabs t).
Proof.
  intros (_ & Hs & _ & Ht) ->. destruct n' as [v'|s|t']; try done. injection Hs. eauto.
Qed.

Lemma like_layout st st' : like st st' → layout (nodes st') = layout (nodes st).
Proof.
  intros [Ef Eb _]. apply map_eq. intros i. rewrite !layout_lookup.
  destruct (nodes st !! i) as [n|] eqn:Hn.
  - destruct (em_node _ _ Ef _ _ Hn) as (n' & -> & _ & Hs & _). simpl. by rewrite Hs.
  - destruct (nodes st' !! i) as [n'|] eqn:Hn'; [|done].
    destruct (em_node _ _ Eb _ _ Hn') as (? & ? & _). congruence.
Qed.

Section like_facts.
Context {st st' : ServerState} (H : like st st').
Let Ef : embeds st st' := lk_fwd _ _ H.
Let Eb : embeds st' st := lk_bwd _ _ H.

Lemma like_session_ok sid s s' :
  same_session s s' → session_ok st sid s → session_ok st' sid s'.
Proof.
  intros (Hid & Hroot & Hfl) [Sid (t & Ht & Hp & Hst) Snd Sfl].
  split; [congruence| |congruence|].
  - destruct (em_node _ _ Ef _ _ Ht) as (n' & Hn' & Hs).
    destruct (same_tabs _ _ _ Hs eq_refl) as (t' & -> & ? & ? & _).
    exists t'. rewrite Hroot. split_and!; congruence.
  - rewrite Hfl. intros fid Hin. destruct (Sfl fid Hin) as (w & Hw & Hws).
    destruct (em_window _ _ Ef _ _ Hw) as (w' & Hw' & _ & ? & _). exists w'. split; congruence.
Qed.

Lemma like_window_ok fid w w' : same_window w w' → window_ok st fid w → window_ok st' fid w'.
Proof.
  intros (Hid & Hws & Hwr & Hvis) [Wid (n & Hn & Hp & Hns) (s & Hs & Hin & Hne) Wv].
  split; [congruence| | |congruence].
  - destruct (em_node _ _ Ef _ _ Hn) as (n' & Hn' & _ & [= Hs1 Hs2 _] & _).
    exists n'. rewrite Hwr, Hws. split_and!; congruence.
  - destruct (em_session _ _ Ef _ _ Hs) as (s' & Hs' & _ & Hroot & Hfl).
    exists s'. by rewrite Hwr, Hws, Hroot, Hfl.
Qed.

Lemma like_wired : wired st → wired st'.
Proof.
  intros W. split.
  - rewrite (like_layout _ _ H). apply W.
  - intros i n' Hn'. destruct (em_node _ _ Eb _ _ Hn') as (n & Hn & He & _).
    rewrite <-He. by apply (wi_node_id _ W).
  - intros i b' Hb'. destruct (em_buffer _ _ Eb _ _ Hb') as (b & Hb & He & _).
    rewrite <-He. by apply (wi_buffer_id _ W).
  - intros sid s' Hs'. destruct (em_session _ _ Eb _ _ Hs') as (s & Hs & E1 & E2 & E3).
    apply (like_session_ok sid s); [by split_and!|]. by apply (wi_session _ W).
  - intros fid w' Hw'. destruct (em_window _ _ Eb _ _ Hw') as (w & Hw & E1 & E2 & E3 & E4).
    apply (like_window_ok fid w); [by split_and!|]. by apply (wi_window _ W).
  - intros fid fid' w w' Hw Hw' Hr.
    destruct (em_window _ _ Eb _ _ Hw) as (u & Hu & _ & _ & ? & _).
    destruct (em_window _ _ Eb _ _ Hw') as (u' & Hu' & _ & _ & ? & _).
    apply (wi_roots _ W fid fid' u u' Hu Hu'). congruence.
  - destruct (lk_ids _ _ H) as (E1 & E2 & E3 & E4).
    destruct (wi_fresh _ W) as [F1 F2 F3 F4].
    split; intros i [x Hx]; rewrite ?E1, ?E2, ?E3, ?E4.
    + destruct (em_session _ _ Eb _ _ Hx) as (? & ? & _). eauto.
    + destruct (em_buffer _ _ Eb _ _ Hx) as (? & ? & _). eauto.
    + destruct (em_node _ _ Eb _ _ Hx) as (? & ? & _). eauto.
    + destruct (em_window _ _ Eb _ _ Hx) as (? & ? & _). eauto.
Qed.

Lemma like_attached U : attached_but U st → attached_but U st'.
Proof.
  intros A. assert (∀ i v', nodes st' !! i = Some (BufferView v') →
    ∃ v, nodes st !! i = Some (BufferView v) ∧ v_buffer_id v = v_buffer_id v') as Hv.
  { intros i v' Hv'. destruct (em_node _ _ Eb _ _ Hv') as (n & Hn & He).
    destruct (same_view _ _ _ He eq_refl) as (v & -> & ?). eauto. }
  split.
  - intros i v' Hv'. destruct (Hv _ _ Hv') as (v & Hn & <-).
    destruct (at_backed _ _ A i v Hn) as [b Hb].
    destruct (em_buffer _ _ Ef _ _ Hb) as (? & ? & _). eauto.
  - intros i v' Hv' HU. destruct (Hv _ _ Hv') as (v & Hn & <-).
    destruct (at_view _ _ A i v Hn HU) as (b & Hb & Hat).
    destruct (em_buffer _ _ Ef _ _ Hb) as (b' & ? & _ & ?). exists b'. split; congruence.
  - intros bid b' i Hb' Hat. destruct (em_buffer _ _ Eb _ _ Hb') as (b & Hb & _ & He).
    destruct (at_buffer _ _ A bid b i Hb) as (v & Hn & Hvb); [congruence|].
    destruct (em_node _ _ Ef _ _ Hn) as (n & ? & Hen).
    destruct (same_view _ _ _ Hen eq_refl) as (v' & -> & ?). exists v'. split; congruence.
Qed.

Lemma like_compact D : compact_but D st → compact_but D st'.
Proof.
  intros C i t' Ht' Hp Hi. destruct (em_node _ _ Eb _ _ Ht') as (n & Hn & He).
  destruct (same_tabs _ _ _ He eq_refl) as (t & -> & Htp & _ & Htt).
  rewrite <-(length_fmap te_child (t_tabs t')), <-Htt, length_fmap. apply (C i t Hn); congruence.
Qed.

Lemma like_anchored X : anchored_but X st → anchored_but X st'.
Proof.
  intros A i n' Hn' Hp HX. destruct (em_node _ _ Eb _ _ Hn') as (n & Hn & _ & [= _ He _] & _).
  destruct (A i n Hn) as [(sid & s & Hsid & Hr)|(fid & w & Hw & Hr)]; [congruence|done|..].
  - left. destruct (em_session _ _ Ef _ _ Hsid) as (s' & ? & _ & ? & _).
    exists sid, s'. split; congruence.
  - right. destruct (em_window _ _ Ef _ _ Hw) as (w' & ? & _ & _ & ? & _).
    exists fid, w'. split; congruence.
Qed.

Lemma like_leaf_memory leaf : leaf_memory st leaf → leaf_memory st' leaf.
Proof.
  intros [Hlt Hv]. destruct (lk_ids _ _ H) as (_ & _ & E & _). split; [by rewrite E|].
  intros n' Hn'. destruct (em_node _ _ Eb _ _ Hn') as (n & Hn & _ & _ & He & _).
  specialize (Hv n Hn). by destruct n, n'.
Qed.

Lemma like_popup_memory sid fid : popup_memory st sid fid → popup_memory st' sid fid.
Proof.
  intros [Hlt Hv]. destruct (lk_ids _ _ H) as (_ & _ & _ & E). split; [by rewrite E|].
  intros w' Hw'. destruct (em_window _ _ Eb _ _ Hw') as (w & Hw & _ & <- & _). by apply Hv.
Qed.
End like_facts.

Lemma scrub_embeds st st' : scrub st' = scrub st → embeds st st'.
Proof.
  intros Hs. split.
  - intros i s Hi. destruct (scrub_lookup_session Hs _ _ Hi) as (s' & Hi' & He).
    exists s'. split; [done|]. apply scrub_session_eq in He as (? & ? & ? & _). by split_and!.
  - intros i b Hi. destruct (scrub_lookup_buffer Hs _ _ Hi) as (b' & Hi' & He).
    exists b'. split; [done|]. apply scrub_buffer_eq in He as (? & ? & _). by split.
  - intros i n Hi. destruct (scrub_lookup_node Hs _ _ Hi) as (n' & Hi' & He).
    exists n'. split; [done|]. pose proof (scrub_node_eq _ _ He) as (? & ? & _).
    destruct n, n'; try done; split_and!; try done.
    apply scrub_view_eq in He as (v' & [= <-] & _ & _ & _ & Hb).
    unfold view_buffer. simpl. by rewrite Hb.
  - intros i w Hi. destruct (scrub_lookup_window Hs _ _ Hi) as (w' & Hi' & He).
    exists w'. split; [done|]. by apply scrub_window_eq.
Qed.

Lemma scrub_like st st' : scrub st' = scrub st → like st st'.
Proof.
  intros Hs. split; [by apply scrub_embeds|by apply scrub_embeds|].
  destruct (scrub_parts Hs) as (_ & _ & _ & _ & ? & ? & ? & ?). by split_and!.
Qed.

Section refocused_facts.
Context {st st' : ServerState} (H : refocused st st').

Lemma refocused_wired : wired st → wired st'.
Proof. apply like_wired, scrub_like, H. Qed.

Lemma refocused_shaped D : shaped D st → shaped D st'.
Proof.
  destruct H as [Hs Hk _]. intros S i n' Hn' Hi.
  destruct (scrub_lookup_node (eq_sym Hs) _ _ Hn') as (n & Hn & _). eauto.
Qed.

Lemma refocused_attached U : attached_but U st → attached_but U st'.
Proof. apply like_attached, scrub_like, H. Qed.

Lemma refocused_inv D U : inv_but D U st → inv_but D U st'.
Proof.
  intros [W S A R]. split.
  - by apply refocused_wired.
  - by apply refocused_shaped.
  - by apply refocused_attached.
  - by apply (rf_remembers _ _ H).
Qed.

Lemma refocused_compact D : compact_but D st → compact_but D st'.
Proof. apply like_compact, scrub_like, H. Qed.

Lemma refocused_anchored X : anchored_but X st → anchored_but X st'.
Proof. apply like_anchored, scrub_like, H. Qed.
End refocused_facts.

(** Rules for the accessors and writes of [State.v] in stateful code. *)

Section rules.
Context (st : ServerState).
Implicit Types (E : MuxError → ServerState → Prop).

Lemma wp_reads_ok {A} (f : ServerState → outcome A) (a : A) (Q : A → ServerState → Prop) E :
  f st = Ok a → Q a st → wp (reads f) Q E st.
Proof. intros Hf HQ. apply wp_reads. by rewrite Hf. Qed.

Lemma wp_reads_err {A} (f : ServerState → outcome A) e (Q : A → ServerState → Prop) E :
  f st = Err e → E e st → wp (reads f) Q E st.
Proof. intros Hf HQ. apply wp_reads. by rewrite Hf. Qed.

(** Reading with a guard: an error leaves the state alone. *)
Lemma wp_reads_returns {A} (f : ServerState → outcome A) P R (Q : A → ServerState → Prop) E :
  returns (f st) P R → (∀ a, P a → Q a st) → (∀ e, R e → E e st) → wp (reads f) Q E st.
Proof. intros Hf HQ HE. apply wp_reads. by eapply returns_mono. Qed.

Lemma wp_session_mut sid f s (Q : unit → ServerState → Prop) E :
  sessions st !! sid = Some s → Q () (set_sessions (insert sid (f s)) st) →
  wp (session_mut sid f) Q E st.
Proof.
  intros Hs HQ. apply wp_bind, (wp_reads_ok _ s); [|done]. unfold session. by rewrite Hs.
Qed.

Lemma wp_buffer_mut bid f b (Q : unit → ServerState → Prop) E :
  buffers st !! bid = Some b → Q () (set_buffers (insert bid (f b)) st) →
  wp (buffer_mut bid f) Q E st.
Proof.
  intros Hs HQ. apply wp_bind, (wp_reads_ok _ b); [|done]. unfold buffer. by rewrite Hs.
Qed.

Lemma wp_node_mut i f n (Q : unit → ServerState → Prop) E :
  nodes st !! i = Some n → Q () (set_nodes (insert i (f n)) st) → wp (node_mut i f) Q E st.
Proof.
  intros Hs HQ. apply wp_bind, (wp_reads_ok _ n); [|done]. unfold node. by rewrite Hs.
Qed.

Lemma wp_floating_mut fid f w (Q : unit → ServerState → Prop) E :
  floating st !! fid = Some w → Q () (set_floating (insert fid (f w)) st) →
  wp (floating_mut fid f) Q E st.
Proof.
  intros Hs HQ. apply wp_bind, (wp_reads_ok _ w); [|done].
  unfold floating_window. by rewrite Hs.
Qed.

(** A [_mut] access to an unknown id changes nothing. *)
Lemma wp_session_mut_any sid f (Q : unit → ServerState → Prop) E :
  (∀ s, sessions st !! sid = Some s → Q () (set_sessions (insert sid (f s)) st)) →
  (sessions st !! sid = None → E NotFound st) → wp (session_mut sid f) Q E st.
Proof.
  intros HQ HE. destruct (sessions st !! sid) as [s|] eqn:Hs.
  - apply (wp_session_mut _ _ s); auto.
  - apply wp_bind, (wp_reads_err _ NotFound); [|auto]. unfold session. by rewrite Hs.
Qed.

Lemma wp_buffer_mut_any bid f (Q : unit → ServerState → Prop) E :
  (∀ b, buffers st !! bid = Some b → Q () (set_buffers (insert bid (f b)) st)) →
  (buffers st !! bid = None → E NotFound st) → wp (buffer_mut bid f) Q E st.
Proof.
  intros HQ HE. destruct (buffers st !! bid) as [b|] eqn:Hs.
  - apply (wp_buffer_mut _ _ b); auto.
  - apply wp_bind, (wp_reads_err _ NotFound); [|auto]. unfold buffer. by rewrite Hs.
Qed.

Lemma wp_floating_mut_any fid f (Q : unit → ServerState → Prop) E :
  (∀ w, floating st !! fid = Some w → Q () (set_floating (insert fid (f w)) st)) →
  (floating st !! fid = None → E NotFound st) → wp (floating_mut fid f) Q E st.
Proof.
  intros HQ HE. destruct (floating st !! fid) as [w|] eqn:Hs.
  - apply (wp_floating_mut _ _ w); auto.
  - apply wp_bind, (wp_reads_err _ NotFound); [|auto]. unfold floating_window. by rewrite Hs.
Qed.
End rules.

(** Lookups through the writes of one map. *)
Lemma ensure_returns b e : returns (ensure b e) (λ _, b = true) (λ e', e' = e ∧ b = false).
Proof. by destruct b. Qed.

Lemma ok_or_returns {A} (o : option A) e :
  returns (ok_or o e) (λ a, o = Some a) (λ e', e' = e ∧ o = None).
Proof. by destruct o. Qed.

Lemma wp_ensure {S} b e (Q : unit → S → Prop) (E : MuxError → S → Prop) s :
  (b = true → Q () s) → (b = false → E e s) → wp (lift (ensure b e)) Q E s.
Proof. intros HQ HE. apply wp_lift. destruct b; simpl; auto. Qed.

(** Run a guarded read by the specification [L] of the method it calls. *)
Ltac read_by L := wp_step; eapply wp_reads_returns; [apply L|cbn beta..].

Lemma wp_passes b e (Q : unit → ServerState → Prop) E st :
  b = true → Q () st → wp (lift (ensure b e)) Q E st.
Proof. by intros ->. Qed.

Lemma wp_lift_ok {A} (m : outcome A) a (Q : A → ServerState → Prop) E st :
  m = Ok a → Q a st → wp (lift m) Q E st.
Proof. by intros ->. Qed.
