(* ===== verification/QueriesSpec.v ===== *)
(** What the walks of [Queries.v] compute on a forest: every one of them ends
    within its budget and none of them panics. *)

From stdpp Require Import relations.
From S2P Require Import Prelude Core Model Environment State Queries Forest Invariant.

(** ** Relations the walks decide *)

(** The child [c] of [p] that is drawn: the active one of a tabs node, any one
    of a split. *)
Definition visible_edge (m : gmap N Node) (p c : N) : Prop :=
  ∃ n, m !! p = Some n ∧ c ∈ child_ids n
       ∧ match n with Tabs t => active_child t = Some c | _ => True end.
Definition visible_from (m : gmap N Node) (r i : N) : Prop := rtc (visible_edge m) r i.

Definition below (st : ServerState) (r i : N) : Prop := reach (layout (nodes st)) r i.

#[export] Instance visible_from_preorder m : PreOrder (visible_from m).
Proof. apply rtc_po. Qed.
#[export] Instance below_preorder st : PreOrder (below st).
Proof. apply rtc_po. Qed.

(** [i] is drawn: it is visible from its session's root or from the root of a
    popup that is shown. *)
Definition on_screen (st : ServerState) (sid i : N) : Prop :=
  ∃ r, visible_from (nodes st) r i
       ∧ ((∃ s, sessions st !! sid = Some s ∧ s_root_node s = r)
          ∨ (∃ fid w, floating st !! fid = Some w ∧ f_session_id w = sid
                      ∧ f_root_node w = r ∧ f_visible w = true)).

(** A leaf [i] can be a focus candidate below [r]. *)
Definition view_below (st : ServerState) (r i : N) : Prop :=
  below st r i ∧ ∃ v, nodes st !! i = Some (BufferView v).

Lemma node_Ok st i n : nodes st !! i = Some n → node st i = Ok n.
Proof. unfold node. by intros ->. Qed.
Lemma node_returns st i :
  returns (node st i) (λ n, nodes st !! i = Some n) (λ e, e = NotFound ∧ nodes st !! i = None).
Proof. unfold node. by destruct (nodes st !! i). Qed.
Lemma session_returns st i :
  returns (session st i) (λ s, sessions st !! i = Some s)
    (λ e, e = NotFound ∧ sessions st !! i = None).
Proof. unfold session. by destruct (sessions st !! i). Qed.
Lemma buffer_returns st i :
  returns (buffer st i) (λ b, buffers st !! i = Some b)
    (λ e, e = NotFound ∧ buffers st !! i = None).
Proof. unfold buffer. by destruct (buffers st !! i). Qed.
Lemma floating_window_returns st i :
  returns (floating_window st i) (λ w, floating st !! i = Some w)
    (λ e, e = NotFound ∧ floating st !! i = None).
Proof. unfold floating_window. by destruct (floating st !! i). Qed.

Lemma visible_edge_edge m p c : visible_edge m p c → edge (layout m) p c.
Proof. rewrite layout_edge. intros (n & ? & ? & _). eauto. Qed.
Lemma visible_from_reach m r i : visible_from m r i → reach (layout m) r i.
Proof. apply rtc_subrel. intros ??. apply visible_edge_edge. Qed.

(** Folding a walk over the children that yields an optional result. *)
Lemma first_some_Some {A B} (f : A → outcome (option B)) (l : list A) (P : B → Prop) :
  (∀ x, x ∈ l → ∃ r, f x = Ok r ∧ match r with Some y => P y | None => True end) →
  ∃ r, first_some f l = Ok r ∧ match r with Some y => P y | None => True end.
Proof.
  intros Hf. destruct (proj1 (returns_ok (first_some f l)
    (λ r, match r with Some y => P y | None => True end))) as (r & ? & ?); [|by exists r].
  eapply returns_mono; [apply (first_some_returns f l P (λ _, True) (λ _, False))| |done].
  - intros x Hx. apply returns_ok. destruct (Hf x Hx) as (r & ? & ?). exists r. by destruct r.
  - by intros [].
Qed.

Lemma any_ok_Ok {A} (f : A → outcome bool) (l : list A) (P : A → Prop) :
  (∀ x, x ∈ l → ∃ b, f x = Ok b ∧ (b = true ↔ P x)) →
  ∃ b, any_ok f l = Ok b ∧ (b = true ↔ ∃ x, x ∈ l ∧ P x).
Proof.
  intros Hf. apply (returns_ok _ (λ b, b = true ↔ ∃ x, x ∈ l ∧ P x)), any_ok_returns.
  intros x Hx. by apply returns_ok, Hf.
Qed.

Lemma tc_inv_r (R : N → N → Prop) x z : tc R x z → ∃ y, rtc R x y ∧ R y z.
Proof.
  induction 1 as [x z Hxz|x y z Hxy _ (w & ? & ?)].
  - exists x. split; [reflexivity|done].
  - exists w. split; [by eapply rtc_l|done].
Qed.

Section walks.
Context {st : ServerState} (F : forest (layout (nodes st))).

Lemma walk_down (P : nat → N → Prop) :
  (∀ fuel i n, nodes st !! i = Some n → (∀ c, c ∈ child_ids n → P fuel c) → P (S fuel) i) →
  ∀ i, is_Some (nodes st !! i) → P (budget st) i.
Proof.
  intros Hstep i Hi. unfold budget. rewrite <-layout_size.
  apply (down_ind F); [|by apply layout_dom].
  intros fuel j x (n & Hn & ->)%layout_Some. by apply Hstep.
Qed.

Lemma walk_up (P : nat → N → Prop) :
  (∀ fuel i n, nodes st !! i = Some n → (∀ p, parent n = Some p → P fuel p) → P (S fuel) i) →
  ∀ i, is_Some (nodes st !! i) → P (budget st) i.
Proof.
  intros Hstep i Hi. unfold budget. rewrite <-layout_size.
  apply (up_ind F); [|by apply layout_dom].
  intros fuel j x (n & Hn & ->)%layout_Some. by apply Hstep.
Qed.

Lemma child_exists p n c :
  nodes st !! p = Some n → c ∈ child_ids n →
  ∃ m, nodes st !! c = Some m ∧ parent m = Some p ∧ node_session m = node_session n.
Proof.
  intros Hp Hc. destruct (fo_down _ F p (shape_of n) c) as (y & Hy & Hpar & Hs); [|done|].
  - by rewrite layout_lookup, Hp.
  - apply layout_Some in Hy as (m & ? & ->). eauto.
Qed.

Lemma parent_exists i n p :
  nodes st !! i = Some n → parent n = Some p →
  ∃ m, nodes st !! p = Some m ∧ i ∈ child_ids m.
Proof.
  intros Hi Hp. destruct (fo_up _ F i (shape_of n) p) as (y & Hy & Hc); [|done|].
  - by rewrite layout_lookup, Hi.
  - apply layout_Some in Hy as (m & ? & ->). eauto.
Qed.

Lemma parent_edge i n p :
  nodes st !! i = Some n → parent n = Some p → edge (layout (nodes st)) p i.
Proof. intros. rewrite layout_edge. by eapply parent_exists. Qed.

Lemma edge_parent_node p i n :
  nodes st !! i = Some n → edge (layout (nodes st)) p i → parent n = Some p.
Proof.
  intros Hi (m & Hm & Hc)%layout_edge. destruct (child_exists _ _ _ Hm Hc) as (? & ? & ? & _).
  congruence.
Qed.

Lemma below_exists r i : is_Some (nodes st !! r) → below st r i → is_Some (nodes st !! i).
Proof. rewrite <-!layout_dom. by apply reach_dom. Qed.

Lemma below_step r p n i :
  nodes st !! p = Some n → below st r p → i ∈ child_ids n → below st r i.
Proof. intros. eapply rtc_r; [done|]. apply layout_edge. eauto. Qed.

Lemma below_session r i n m :
  nodes st !! r = Some n → nodes st !! i = Some m → below st r i →
  node_session m = node_session n.
Proof.
  intros Hr Hi. apply (reach_session F r i (shape_of n) (shape_of m));
    by rewrite layout_lookup, ?Hr, ?Hi.
Qed.

(** A node below [r] is [r] or below one of its children. *)
Lemma below_inv r n i :
  nodes st !! r = Some n → below st r i → i = r ∨ ∃ c, c ∈ child_ids n ∧ below st c i.
Proof.
  intros Hr Hb. apply rtc_inv in Hb as [->|(c & (m & Hm & Hc)%layout_edge & ?)]; [by left|].
  right. exists c. split; [|done]. congruence.
Qed.

(** ... and it is [r] or its parent is below [r]. *)
Lemma below_parent r i n :
  nodes st !! i = Some n → below st r i →
  i = r ∨ ∃ p, parent n = Some p ∧ below st r p.
Proof.
  intros Hi Hb. apply rtc_inv_r in Hb as [->|(p & ? & He)]; [by left|].
  right. exists p. split; [|done]. by eapply edge_parent_node.
Qed.

Lemma top_root_spec i :
  is_Some (nodes st !! i) →
  ∃ r n, top_root_for_node st i = Ok r ∧ below st r i
         ∧ nodes st !! r = Some n ∧ parent n = None.
Proof.
  apply (walk_up (λ fuel i, ∃ r n, top_root_in fuel st i = Ok r ∧ below st r i
                                   ∧ nodes st !! r = Some n ∧ parent n = None)).
  intros fuel j n Hj IH. simpl. unfold node_parent. rewrite (node_Ok _ _ _ Hj). simpl.
  destruct (parent n) as [p|] eqn:Hp.
  - destruct (IH p eq_refl) as (r & m & -> & Hrp & ?). exists r, m. split; [done|].
    split; [|done]. eapply rtc_r; [done|]. by eapply parent_edge.
  - exists j, n. by split_and!.
Qed.

Lemma subtree_contains_spec r i :
  is_Some (nodes st !! r) →
  ∃ b, subtree_contains st r i = Ok b ∧ (b = true ↔ below st r i).
Proof.
  apply (walk_down (λ fuel r, ∃ b, subtree_contains_in fuel st r i = Ok b
                                   ∧ (b = true ↔ below st r i))).
  intros fuel j n Hj IH. simpl. destruct (N.eqb_spec j i) as [->|Hne].
  { exists true. split; [done|]. split; [|done]. reflexivity. }
  rewrite (node_Ok _ _ _ Hj). simpl.
  destruct (any_ok_Ok (λ child, subtree_contains_in fuel st child i) (child_ids n)
    (λ c, below st c i) IH) as (b & -> & Hb). exists b. split; [done|]. rewrite Hb. split.
  - intros (c & Hc & Hci). eapply rtc_l; [|done]. apply layout_edge. eauto.
  - intros [->|?]%(below_inv _ n _ Hj); done.
Qed.

Lemma visible_parent r p i n m :
  nodes st !! i = Some n → nodes st !! p = Some m → parent n = Some p → i ≠ r →
  visible_from (nodes st) r i ↔
    visible_from (nodes st) r p ∧ match m with Tabs t => active_child t = Some i | _ => True end.
Proof.
  intros Hi Hm Hp Hne. split.
  - intros [->|(q & Hrq & Hqi)]%rtc_inv_r; [done|].
    assert (q = p) as ->.
    { apply visible_edge_edge in Hqi. pose proof (edge_parent_node _ _ _ Hi Hqi). congruence. }
    destruct Hqi as (m' & ? & _ & ?). simplify_eq. done.
  - intros [Hrp Hact]. eapply rtc_r; [done|]. exists m. split_and!; [done| |done].
    destruct (parent_exists _ _ _ Hi Hp) as (? & ? & ?). congruence.
Qed.

Lemma shown_up_to_spec r i :
  is_Some (nodes st !! i) → below st r i →
  ∃ b, shown_up_to (budget st) st r i = Ok b ∧ (b = true ↔ visible_from (nodes st) r i).
Proof.
  intros Hi. revert i Hi.
  apply (walk_up (λ fuel i, below st r i → ∃ b, shown_up_to fuel st r i = Ok b
                                   ∧ (b = true ↔ visible_from (nodes st) r i))).
  intros fuel j n Hj IH Hrj. simpl. destruct (N.eqb_spec j r) as [->|Hne].
  { exists true. split; [done|]. split; [|done]. reflexivity. }
  destruct (below_parent _ _ _ Hj Hrj) as [->|(p & Hp & Hrp)]; [done|].
  destruct (parent_exists _ _ _ Hj Hp) as (m & Hm & Hc).
  unfold node_parent. rewrite (node_Ok _ _ _ Hj). simpl. rewrite Hp. simpl.
  rewrite (node_Ok _ _ _ Hm). simpl.
  destruct (IH p Hp Hrp) as (b & Hb & Hiff). rewrite Hb.
  setoid_rewrite (visible_parent _ _ _ _ _ Hj Hm Hp Hne).
  destruct m as [v|s|t]; [naive_solver..|].
  case_bool_decide; [naive_solver|]. exists false. naive_solver.
Qed.

Lemma is_node_visible_from_spec r i :
  is_Some (nodes st !! r) →
  ∃ b, is_node_visible_from st r i = Ok b ∧ (b = true ↔ visible_from (nodes st) r i).
Proof.
  intros Hr. unfold is_node_visible_from.
  destruct (subtree_contains_spec r i Hr) as (b & -> & Hb). simpl. destruct b; simpl.
  - assert (below st r i) by by apply Hb.
    apply shown_up_to_spec; [by eapply below_exists|done].
  - exists false. split; [done|]. split; [done|].
    intros Hv%visible_from_reach. by apply Hb in Hv.
Qed.

Lemma node_is_descendant_spec i a :
  is_Some (nodes st !! i) →
  ∃ b, node_is_descendant_of st i a = Ok b ∧ (b = true ↔ below st a i).
Proof.
  apply (walk_up (λ fuel i, ∃ b, node_is_descendant_in fuel st i a = Ok b
                                 ∧ (b = true ↔ below st a i))).
  intros fuel j n Hj IH. simpl. destruct (N.eqb_spec j a) as [->|Hne].
  { exists true. split; [done|]. split; [|done]. reflexivity. }
  unfold node_parent. rewrite (node_Ok _ _ _ Hj). simpl.
  destruct (parent n) as [p|] eqn:Hp.
  - destruct (IH p eq_refl) as (b & -> & Hb). exists b. split; [done|]. rewrite Hb. split.
    + intros. eapply rtc_r; [done|]. by eapply parent_edge.
    + intros Haj. destruct (below_parent _ _ _ Hj Haj) as [->|(q & ? & ?)]; congruence.
  - exists false. split; [done|]. split; [done|]. intros Haj.
    destruct (below_parent _ _ _ Hj Haj) as [->|(q & ? & ?)]; congruence.
Qed.

Lemma reach_or_not r i : below st r i ∨ ¬ below st r i.
Proof.
  destruct (nodes st !! i) as [n|] eqn:Hi.
  - destruct (node_is_descendant_spec i r) as ([] & _ & Hb); [by rewrite Hi|..].
    + left. by apply Hb.
    + right. by intros ?%Hb.
  - destruct (decide (r = i)) as [->|Hne]; [by left|]. right.
    intros [->|(p & _ & He)]%rtc_inv_r; [done|].
    apply (edge_dom_r F), layout_dom in He as [??]. congruence.
Qed.

Lemma nearest_tabs_spec i :
  is_Some (nodes st !! i) →
  ∃ o, nearest_tabs_ancestor st (Some i) = Ok o ∧
       match o with
       | Some a => below st a i ∧ ∃ t, nodes st !! a = Some (Tabs t)
       | None => True
       end.
Proof.
  apply (walk_up (λ fuel i, ∃ o, nearest_tabs_ancestor_in fuel st (Some i) = Ok o ∧
    match o with
    | Some a => below st a i ∧ ∃ t, nodes st !! a = Some (Tabs t)
    | None => True
    end)).
  intros fuel j n Hj IH. simpl. rewrite (node_Ok _ _ _ Hj). simpl.
  destruct (is_tabs n) eqn:Ht.
  { exists (Some j). split; [done|]. split; [reflexivity|]. destruct n; naive_solver. }
  destruct (parent n) as [p|] eqn:Hp; cycle 1.
  { exists None. by destruct fuel. }
  destruct (IH p eq_refl) as (o & -> & Ho). exists o. split; [done|].
  destruct o as [a|]; [|done]. destruct Ho as [Hap ?]. split; [|done].
  eapply rtc_r; [done|]. by eapply parent_edge.
Qed.

(** The child of [root] the leaf is in, if any. *)
Lemma window_of_leaf_in_spec root i :
  is_Some (nodes st !! i) →
  ∃ o, window_of_leaf_in (budget st) st root i = Ok o ∧
       match o with
       | Some c => edge (layout (nodes st)) root c ∧ below st c i
       | None => ¬ tc (edge (layout (nodes st))) root i
       end.
Proof.
  apply (walk_up (λ fuel i, ∃ o, window_of_leaf_in fuel st root i = Ok o ∧
    match o with
    | Some c => edge (layout (nodes st)) root c ∧ below st c i
    | None => ¬ tc (edge (layout (nodes st))) root i
    end)).
  intros fuel j n Hj IH. simpl. unfold node_parent. rewrite (node_Ok _ _ _ Hj). simpl.
  destruct (parent n) as [p|] eqn:Hp; cycle 1.
  { exists None. split; [done|]. intros (q & _ & He)%tc_inv_r.
    pose proof (edge_parent_node _ _ _ Hj He). congruence. }
  pose proof (parent_edge _ _ _ Hj Hp) as Hpj.
  destruct (N.eqb_spec p root) as [->|Hne].
  { exists (Some j). split; [done|]. split; [done|reflexivity]. }
  destruct (IH p eq_refl) as (o & -> & Ho). exists o. split; [done|].
  destruct o as [c|].
  - destruct Ho. split; [done|]. by eapply rtc_r.
  - intros (q & Hrq & He)%tc_inv_r. apply Ho.
    pose proof (edge_parent_node _ _ _ Hj He). simplify_eq.
    apply rtc_tc in Hrq as [->|]; [|done]. congruence.
Qed.
End walks.

(** ** Leaves *)

Lemma active_child_elem t c : active_child t = Some c → c ∈ child_ids (Tabs t).
Proof.
  unfold active_child. intros (tab & Htab & ->)%fmap_Some.
  apply list_elem_of_fmap. exists tab. split; [done|]. by eapply list_elem_of_lookup_2.
Qed.

Lemma active_or_first_Some t c :
  active_or_first_child t = Some c →
  c ∈ child_ids (Tabs t) ∧ (node_ok (Tabs t) → active_child t = Some c).
Proof.
  unfold active_or_first_child. destruct (t_tabs t !! t_active t) as [tab|] eqn:Ht.
  - intros [= <-]. assert (active_child t = Some (te_child tab)) as Ha.
    { unfold active_child. by rewrite Ht. }
    split; [by apply active_child_elem|done].
  - destruct (t_tabs t) as [|tab l] eqn:Hl; [done|]. intros [= <-]. simpl. rewrite Hl. split.
    + by left.
    + apply lookup_ge_None in Ht. simpl in *. intros [?|[? _]]; [lia|done].
Qed.

Lemma active_or_first_None t : active_or_first_child t = None → t_tabs t = [].
Proof.
  unfold active_or_first_child. destruct (t_tabs t !! t_active t); [done|].
  by destruct (t_tabs t).
Qed.

Lemma active_or_first_visible st i t c :
  nodes st !! i = Some (Tabs t) → active_or_first_child t = Some c → shaped ∅ st →
  visible_edge (nodes st) i c.
Proof.
  intros Hi Hc Hs. apply active_or_first_Some in Hc as [Hin Hact]. exists (Tabs t).
  split_and!; [done..|]. apply Hact, (Hs i); [done|set_solver].
Qed.

Lemma split_visible st i s c :
  nodes st !! i = Some (Split s) → c ∈ sp_children s → visible_edge (nodes st) i c.
Proof. intros. by exists (Split s). Qed.

Lemma visible_below st r i : visible_from (nodes st) r i → below st r i.
Proof. apply visible_from_reach. Qed.

Lemma view_visible_inv st i v leaf :
  nodes st !! i = Some (BufferView v) → visible_from (nodes st) i leaf → leaf = i.
Proof.
  intros Hi Hv. apply rtc_inv in Hv as [->|(c & (n & Hn & Hc & _) & _)]; [done|].
  simplify_eq. by apply elem_of_nil in Hc.
Qed.

(** Whatever is visible from a container is visible from a visible child. *)
Lemma visible_tabs_inv st i t c leaf :
  nodes st !! i = Some (Tabs t) → active_child t = Some c → leaf ≠ i →
  visible_from (nodes st) i leaf → visible_from (nodes st) c leaf.
Proof.
  intros Hi Hc Hne Hv. apply rtc_inv in Hv as [->|(d & (n & Hn & _ & Hd) & Hv)]; [done|].
  by simplify_eq.
Qed.

Definition is_view (st : ServerState) (i : N) : Prop :=
  ∃ v, nodes st !! i = Some (BufferView v).

Section leaf_walks.
Context {st : ServerState} (F : forest (layout (nodes st))).

(** The common shape of the results of the leaf searches. *)
Definition candidate_ok (i : N) (o : option N) : Prop :=
  match o with
  | Some leaf => is_view st leaf ∧ below st i leaf
                 ∧ (shaped ∅ st → visible_from (nodes st) i leaf)
  | None => shaped ∅ st → ∀ leaf, is_view st leaf → ¬ visible_from (nodes st) i leaf
  end.

Lemma candidate_view i v : nodes st !! i = Some (BufferView v) → candidate_ok i (Some i).
Proof. intros Hi. split; [by exists v|]. split; [done|]. by intros _. Qed.

Lemma candidate_child i c o n :
  nodes st !! i = Some n → c ∈ child_ids n → (shaped ∅ st → visible_edge (nodes st) i c) →
  candidate_ok c o → match o with Some leaf => candidate_ok i (Some leaf) | None => True end.
Proof.
  intros Hi Hc Hv. destruct o as [leaf|]; [|done]. intros (? & ? & Hvis). split; [done|]. split.
  - eapply rtc_l; [|done]. apply layout_edge. eauto.
  - intros Hs. eapply rtc_l; [by apply Hv|by apply Hvis].
Qed.

Lemma candidate_tabs_none i t c :
  nodes st !! i = Some (Tabs t) → active_or_first_child t = Some c →
  candidate_ok c None → candidate_ok i None.
Proof.
  intros Hi Hc Hnone Hs leaf [v Hl] Hv.
  pose proof (proj2 (active_or_first_Some _ _ Hc) (Hs i _ Hi (not_elem_of_empty i))) as Ha.
  apply (Hnone Hs leaf); [by exists v|].
  eapply visible_tabs_inv; [done..| |done]. congruence.
Qed.

Lemma candidate_tabs_empty i t :
  nodes st !! i = Some (Tabs t) → active_or_first_child t = None → candidate_ok i None.
Proof.
  intros Hi Hn%active_or_first_None _ leaf [v Hl] Hv.
  apply rtc_inv in Hv as [->|(d & (n & Hd & Hc & _) & _)]; [congruence|].
  simplify_eq. simpl in Hc. rewrite Hn in Hc. by apply elem_of_nil in Hc.
Qed.

Lemma candidate_split_none i s :
  nodes st !! i = Some (Split s) → (∀ c, c ∈ sp_children s → candidate_ok c None) →
  candidate_ok i None.
Proof.
  intros Hi Hall Hs leaf [v Hl] Hv.
  apply rtc_inv in Hv as [->|(d & (n & Hd & Hc & _) & Hv)]; [congruence|].
  simplify_eq. eapply Hall; [done..| |done]. by exists v.
Qed.

Lemma first_some_candidate f i s :
  nodes st !! i = Some (Split s) →
  (∀ c, c ∈ sp_children s → ∃ o, f c = Ok o ∧ candidate_ok c o) →
  ∃ o, first_some f (sp_children s) = Ok o ∧ candidate_ok i o.
Proof.
  intros Hi Hf. apply (returns_ok _ (candidate_ok i)).
  eapply returns_mono; [apply (first_some_returns f _ (λ leaf, candidate_ok i (Some leaf))
    (λ c, candidate_ok c None) (λ _, False))| |done].
  - intros c Hc. apply returns_ok. destruct (Hf c Hc) as (o & -> & Ho). exists o.
    split; [done|]. destruct o; [|done].
    apply (candidate_child i c (Some _) _ Hi Hc); [|done]. intros _. by eapply split_visible.
  - intros [leaf|]; [done|]. by apply candidate_split_none.
Qed.

Lemma tabs_candidate f i t :
  nodes st !! i = Some (Tabs t) →
  (∀ c, c ∈ child_ids (Tabs t) → ∃ o, f c = Ok o ∧ candidate_ok c o) →
  ∃ o, match active_or_first_child t with Some c => f c | None => Ok None end = Ok o
       ∧ candidate_ok i o.
Proof.
  intros Hi Hf. destruct (active_or_first_child t) as [c|] eqn:Hc.
  - destruct (Hf c) as (o & -> & Ho); [by apply active_or_first_Some|].
    exists o. split; [done|]. destruct o as [leaf|].
    + apply (candidate_child i c (Some leaf) _ Hi); [by apply active_or_first_Some| |done].
      intros. by eapply active_or_first_visible.
    + by eapply candidate_tabs_none.
  - exists None. split; [done|]. by eapply candidate_tabs_empty.
Qed.

Lemma resolve_visible_leaf_spec i :
  is_Some (nodes st !! i) →
  ∃ o, resolve_visible_leaf st i = Ok o ∧ candidate_ok i o.
Proof.
  apply (walk_down F (λ fuel i, ∃ o, resolve_visible_leaf_in fuel st i = Ok o
                                     ∧ candidate_ok i o)).
  intros fuel j n Hj IH. simpl. rewrite (node_Ok _ _ _ Hj). simpl. destruct n as [v|s|t].
  - exists (Some j). split; [done|]. by eapply candidate_view.
  - by apply first_some_candidate.
  - by apply tabs_candidate.
Qed.

Lemma resolve_first_leaf_spec i :
  is_Some (nodes st !! i) →
  ∃ o, resolve_first_leaf st i = Ok o ∧
       match o with Some leaf => is_view st leaf ∧ below st i leaf | None => True end.
Proof.
  apply (walk_down F (λ fuel i, ∃ o, resolve_first_leaf_in fuel st i = Ok o ∧
    match o with Some leaf => is_view st leaf ∧ below st i leaf | None => True end)).
  intros fuel j n Hj IH. simpl. rewrite (node_Ok _ _ _ Hj). simpl.
  assert (∀ c, c ∈ child_ids n → ∀ leaf, below st c leaf → below st j leaf) as Hdown.
  { intros c Hc leaf ?. eapply rtc_l; [|done]. apply layout_edge. eauto. }
  destruct n as [v|s|t].
  - exists (Some j). split; [done|]. split; [by exists v|done].
  - apply first_some_Some. intros c Hc. destruct (IH c Hc) as ([leaf|] & -> & Hleaf);
      eexists; split; naive_solver.
  - apply first_some_Some. intros tab Htab.
    assert (te_child tab ∈ child_ids (Tabs t)) as Hc by (apply list_elem_of_fmap; eauto).
    destruct (IH _ Hc) as ([leaf|] & -> & Hleaf); eexists; split; naive_solver.
Qed.

Lemma visible_last_focused_spec i last :
  is_Some (nodes st !! i) → (∀ leaf, last = Some leaf → leaf_memory st leaf) →
  ∃ o, visible_last_focused st i last = Ok o ∧
       match o with
       | Some leaf => candidate_ok i (Some leaf)
       | None => True
       end.
Proof.
  intros Hi Hmem. unfold visible_last_focused.
  destruct last as [leaf|]; [|by exists None].
  case_bool_decide as Hex; [|by exists None].
  destruct (is_node_visible_from_spec F i leaf Hi) as (b & -> & Hb). simpl.
  destruct b; [|by exists None]. exists (Some leaf). split; [done|].
  assert (visible_from (nodes st) i leaf) as Hv by by apply Hb.
  destruct Hex as [n Hn]. destruct (Hmem leaf eq_refl) as [_ Hview].
  split; [|split; [by apply visible_below|done]].
  specialize (Hview n Hn). destruct n; try done. eexists. done.
Qed.

Lemma resolve_focus_candidate_spec i :
  remembers st → is_Some (nodes st !! i) →
  ∃ o, resolve_focus_candidate st i = Ok o ∧ candidate_ok i o.
Proof.
  intros R. apply (walk_down F (λ fuel i, ∃ o, resolve_focus_candidate_in fuel st i = Ok o
                                     ∧ candidate_ok i o)).
  intros fuel j n Hj IH. simpl. rewrite (node_Ok _ _ _ Hj). simpl. destruct n as [v|s|t].
  - exists (Some j). split; [done|]. by eapply candidate_view.
  - destruct (visible_last_focused_spec j (sp_last_focused_descendant s)) as (o & -> & Ho).
    + by rewrite Hj.
    + intros leaf Hl. by apply (re_node _ R j _ leaf Hj).
    + simpl. destruct o as [leaf|]; [by exists (Some leaf)|]. by apply first_some_candidate.
  - by apply tabs_candidate.
Qed.

(** The leaves drawn below a node are appended in order. *)
Lemma collect_visible_leaves_spec i :
  is_Some (nodes st !! i) →
  ∀ leaves, ∃ l, collect_visible_leaf_ids (budget st) st leaves i = Ok (leaves ++ l)
    ∧ (∀ x, x ∈ l → is_view st x ∧ below st i x)
    ∧ (shaped ∅ st → ∀ x, x ∈ l ↔ is_view st x ∧ visible_from (nodes st) i x).
Proof.
  apply (walk_down F (λ fuel i, ∀ leaves, ∃ l,
    collect_visible_leaf_ids fuel st leaves i = Ok (leaves ++ l)
    ∧ (∀ x, x ∈ l → is_view st x ∧ below st i x)
    ∧ (shaped ∅ st → ∀ x, x ∈ l ↔ is_view st x ∧ visible_from (nodes st) i x))).
  intros fuel j n Hj IH leaves. simpl. rewrite (node_Ok _ _ _ Hj). simpl.
  assert (∀ c, c ∈ child_ids n → ∀ leaf, below st c leaf → below st j leaf) as Hdown.
  { intros c Hc leaf ?. eapply rtc_l; [|done]. apply layout_edge. eauto. }
  destruct n as [v|s|t].
  - exists [j]. split; [done|]. split.
    + intros x ->%list_elem_of_singleton. split; [by exists v|done].
    + intros _ x. rewrite list_elem_of_singleton. split.
      * intros ->. split; [by exists v|done].
      * intros [_ Hv]. by eapply view_visible_inv.
  - assert (∀ cs done, sp_children s = done ++ cs →
      ∀ acc, ∃ l, fold_ok (collect_visible_leaf_ids fuel st) acc cs = Ok (acc ++ l)
        ∧ (∀ x, x ∈ l → is_view st x ∧ below st j x)
        ∧ (shaped ∅ st → ∀ x, x ∈ l ↔ is_view st x ∧ ∃ c, c ∈ cs ∧ visible_from (nodes st) c x))
      as Hfold.
    { induction cs as [|c cs IHcs]; intros dn Heq acc; simpl.
      - exists []. rewrite app_nil_r. split; [done|]. split; [by intros x ?%elem_of_nil|].
        intros _ x. rewrite elem_of_nil. split; [done|]. by intros (_ & c & ?%elem_of_nil & _).
      - assert (c ∈ child_ids (Split s)) as Hc by (simpl; rewrite Heq; set_solver).
        destruct (IH c Hc acc) as (l1 & -> & Hl1 & Hv1). simpl.
        destruct (IHcs (dn ++ [c])) with (acc := acc ++ l1) as (l2 & -> & Hl2 & Hv2).
        { by rewrite <-app_assoc. }
        exists (l1 ++ l2). rewrite app_assoc. split; [done|]. split.
        + intros x [Hx|Hx]%elem_of_app; [|by apply Hl2].
          destruct (Hl1 x Hx) as [? ?]. split; [done|by apply (Hdown c)].
        + intros Hs x. rewrite elem_of_app, (Hv1 Hs), (Hv2 Hs).
          setoid_rewrite elem_of_cons. naive_solver. }
    destruct (Hfold (sp_children s) [] eq_refl leaves) as (l & -> & Hl & Hv).
    exists l. split; [done|]. split; [done|]. intros Hs x. rewrite (Hv Hs). split.
    + intros (Hx & c & Hc & Hcx). split; [done|]. eapply rtc_l; [|done].
      by eapply split_visible.
    + intros ([v Hx] & Hjx). split; [by exists v|].
      apply rtc_inv in Hjx as [->|(c & (n & Hn & Hc & _) & Hcx)]; [congruence|].
      simplify_eq. by exists c.
  - destruct (active_or_first_child t) as [c|] eqn:Hc.
    + destruct (IH c (proj1 (active_or_first_Some _ _ Hc)) leaves) as (l & -> & Hl & Hv).
      exists l. split; [done|]. split.
      * intros x Hx. destruct (Hl x Hx). split; [done|].
        by apply (Hdown c (proj1 (active_or_first_Some _ _ Hc))).
      * intros Hs x. rewrite (Hv Hs). split; intros [[v Hx] Hvis]; (split; [by exists v|]).
        -- eapply rtc_l; [|done]. by eapply active_or_first_visible.
        -- eapply visible_tabs_inv; [done| |congruence|done].
           apply active_or_first_Some; [done|]. apply (Hs j); [done|set_solver].
    + exists []. rewrite app_nil_r. split; [done|]. split; [by intros x ?%elem_of_nil|].
      intros Hs x. rewrite elem_of_nil. split; [done|]. intros [Hx Hv].
      by apply (candidate_tabs_empty j t Hj Hc Hs x).
Qed.
End leaf_walks.

(** ** Whole subtrees and sizes *)

Section subtrees.
Context {st : ServerState} (F : forest (layout (nodes st))).

(** [seen] may already hold whole subtrees. *)
Lemma collect_subtree_spec i :
  is_Some (nodes st !! i) →
  ∀ seen : gset N, (∀ j k, j ∈ seen → below st i j → below st j k → k ∈ seen) →
  ∃ seen', collect_subtree_nodes (budget st) st seen i = Ok seen'
           ∧ ∀ k, k ∈ seen' ↔ k ∈ seen ∨ below st i k.
Proof.
  apply (walk_down F (λ fuel i, ∀ seen : gset N,
    (∀ j k, j ∈ seen → below st i j → below st j k → k ∈ seen) →
    ∃ seen', collect_subtree_nodes fuel st seen i = Ok seen'
             ∧ ∀ k, k ∈ seen' ↔ k ∈ seen ∨ below st i k)).
  intros fuel j n Hj IH seen Hseen. simpl. case_bool_decide as Hin.
  { exists seen. split; [done|]. intros k. split; [by left|]. intros [?|Hk]; [done|].
    by apply (Hseen j k Hin). }
  rewrite (node_Ok _ _ _ Hj). simpl.
  assert (∀ c, c ∈ child_ids n → edge (layout (nodes st)) j c) as Hedge.
  { intros c Hc. apply layout_edge. eauto. }
  assert (∀ cs dn, child_ids n = dn ++ cs →
    ∀ acc : gset N, (∀ x, x ∈ acc ↔ x = j ∨ x ∈ seen ∨ ∃ c, c ∈ dn ∧ below st c x) →
    ∃ seen', fold_ok (collect_subtree_nodes fuel st) acc cs = Ok seen'
      ∧ ∀ k, k ∈ seen' ↔ k = j ∨ k ∈ seen ∨ ∃ c, c ∈ child_ids n ∧ below st c k) as Hfold.
  { induction cs as [|c cs IHcs]; intros dn Heq acc Hacc; simpl.
    { exists acc. split; [done|]. intros k. by rewrite Hacc, Heq, app_nil_r. }
    assert (c ∈ child_ids n) as Hc by (rewrite Heq; set_solver).
    destruct (IH c Hc acc) as (acc' & -> & Hacc').
    { intros x k Hx Hcx Hxk. apply Hacc. apply Hacc in Hx as [->|[Hx|(d & Hd & Hdx)]].
      - exfalso. apply (acyclic F j). eapply tc_rtc_r; [by constructor; apply Hedge|done].
      - right; left. apply (Hseen x k); [done| |done]. eapply rtc_l; [by apply Hedge|done].
      - right; right. exists d. split; [done|]. by etrans. }
    simpl. apply (IHcs (dn ++ [c])); [by rewrite <-app_assoc|].
    intros x. rewrite Hacc', Hacc. setoid_rewrite elem_of_app.
    setoid_rewrite list_elem_of_singleton. naive_solver. }
  destruct (Hfold (child_ids n) [] eq_refl ({[j]} ∪ seen)) as (seen' & -> & Hs').
  { intros x. rewrite elem_of_union, elem_of_singleton. split; [naive_solver|].
    intros [?|[?|(c & ?%elem_of_nil & _)]]; [by left|by right|done]. }
  exists seen'. split; [done|]. intros k. rewrite Hs'. split.
  - intros [->|[?|(c & Hc & ?)]]; [by right|by left|]. right.
    eapply rtc_l; [by apply Hedge|done].
  - intros [?|Hjk]; [auto|]. apply (below_inv _ n) in Hjk as [->|(c & ? & ?)]; eauto.
Qed.

Lemma visible_node_size_spec i :
  is_Some (nodes st !! i) → ∃ o, visible_node_size st i = Ok o.
Proof.
  apply (walk_down F (λ fuel i, ∃ o, visible_node_size_in fuel st i = Ok o)).
  intros fuel j n Hj IH. simpl. rewrite (node_Ok _ _ _ Hj). simpl. destruct n as [v|s|t].
  - eauto.
  - destruct (proj1 (returns_ok (collect (visible_node_size_in fuel st) (sp_children s))
      (Forall2 (λ _ _, True) (sp_children s)))) as (l & -> & _).
    + apply collect_returns. intros c Hc. apply returns_ok.
      destruct (IH c Hc) as [o ?]. by exists o.
    + simpl. destruct (omap _ l); eauto.
  - destruct (active_child t) as [c|] eqn:Hc; [|eauto]. by apply IH, active_child_elem.
Qed.
End subtrees.

Section on_wired.
Context {st : ServerState} (W : wired st).
Let F : forest (layout (nodes st)) := wi_forest _ W.

Definition session_root (i : N) : Prop :=
  ∃ sid s, sessions st !! sid = Some s ∧ s_root_node s = i.

Lemma is_session_root_spec i : is_session_root st i = true ↔ session_root i.
Proof.
  unfold is_session_root, session_root. rewrite existsb_exists.
  setoid_rewrite <-list_elem_of_In. setoid_rewrite elem_of_values_of.
  setoid_rewrite N.eqb_eq. naive_solver.
Qed.

Lemma floating_id_by_root_Some i fid :
  floating_id_by_root st i = Some fid ↔
    ∃ w, floating st !! fid = Some w ∧ f_root_node w = i.
Proof.
  unfold floating_id_by_root. rewrite fmap_Some. split.
  - intros (w & [(fid' & Hw)%elem_of_values_of Hr%N.eqb_eq]%find_first_Some & ->).
    exists w. by rewrite (wo_id _ _ _ (wi_window _ W _ _ Hw)).
  - intros (w & Hw & Hr).
    destruct (find_first _ _) as [w'|] eqn:Hf.
    + exists w'. split; [done|].
      apply find_first_Some in Hf as [(fid' & Hw')%elem_of_values_of Hr'%N.eqb_eq].
      rewrite (wo_id _ _ _ (wi_window _ W _ _ Hw')). apply (wi_roots _ W _ _ w w'); congruence.
    + rewrite find_first_None in Hf. specialize (Hf w).
      rewrite elem_of_values_of in Hf. rewrite N.eqb_neq in Hf. naive_solver.
Qed.

Lemma floating_id_by_root_None i :
  floating_id_by_root st i = None ↔
    ∀ fid w, floating st !! fid = Some w → f_root_node w ≠ i.
Proof.
  destruct (floating_id_by_root st i) as [fid|] eqn:Hf.
  - apply floating_id_by_root_Some in Hf. naive_solver.
  - split; [|done]. intros _ fid w Hw Hr.
    assert (floating_id_by_root st i = Some fid) by (apply floating_id_by_root_Some; eauto).
    congruence.
Qed.

Lemma window_exists fid w :
  floating st !! fid = Some w → is_Some (nodes st !! f_root_node w).
Proof. intros Hw. destruct (wo_root _ _ _ (wi_window _ W _ _ Hw)) as (n & Hn & _). eauto. Qed.

Lemma root_exists sid s :
  sessions st !! sid = Some s → is_Some (nodes st !! s_root_node s).
Proof. intros Hs. destruct (so_root _ _ _ (wi_session _ W _ _ Hs)) as (n & Hn & _). eauto. Qed.

Lemma listed_window sid s fid :
  sessions st !! sid = Some s → fid ∈ s_floating s →
  ∃ w, floating st !! fid = Some w ∧ f_session_id w = sid.
Proof. intros Hs. apply (so_floating _ _ _ (wi_session _ W _ _ Hs)). Qed.

(** Roots are not below anything else. *)
Lemma root_below i j n : nodes st !! i = Some n → parent n = None → below st j i → j = i.
Proof. intros Hi Hp. apply (reach_to_root F). apply layout_is_root. eauto. Qed.

Lemma top_is i r n r' :
  nodes st !! r = Some n → parent n = None → below st r i →
  top_root_for_node st i = Ok r' → r' = r.
Proof.
  intros Hr Hp Hb Htop.
  assert (is_Some (nodes st !! i)) as Hi by (eapply below_exists; eauto).
  destruct (top_root_spec F i Hi) as (q & m & Hq & Hqi & Hqn & Hqp).
  assert (q = r') as <- by congruence.
  apply (top_unique F q r i); [apply layout_is_root; eauto..|done|done].
Qed.

(** [is_node_visible_in_session] decides [on_screen]. *)
Lemma is_node_visible_in_session_spec sid s i n :
  sessions st !! sid = Some s → nodes st !! i = Some n → node_session n = sid →
  ∃ b, is_node_visible_in_session st sid i = Ok b ∧ (b = true ↔ on_screen st sid i).
Proof.
  intros Hs Hi Hn. unfold is_node_visible_in_session, ensure_node_belongs_to.
  rewrite (node_Ok _ _ _ Hi). simpl. rewrite Hn, N.eqb_refl. simpl.
  destruct (top_root_spec F i (mk_is_Some _ _ Hi)) as (r & m & Htop & Hri & Hr & Hp).
  rewrite Htop. simpl. unfold session. rewrite Hs. simpl.
  assert (∀ r', visible_from (nodes st) r' i →
    (∃ n', nodes st !! r' = Some n' ∧ parent n' = None) → r' = r) as Huniq.
  { intros r' Hv (n' & ? & ?). symmetry. eapply top_is; [done..| |done]. by apply visible_below. }
  assert (∀ r' fid w, visible_from (nodes st) r' i → floating st !! fid = Some w →
    f_root_node w = r' → f_root_node w = r) as Hwin.
  { intros r' fid w Hv Hw <-. apply Huniq; [done|].
    destruct (wo_root _ _ _ (wi_window _ W _ _ Hw)) as (? & ? & ? & _). eauto. }
  destruct (so_root _ _ _ (wi_session _ W _ _ Hs)) as (t & Ht & Htp & Hts).
  destruct (N.eqb_spec r (s_root_node s)) as [->|Hne].
  - destruct (is_node_visible_from_spec F (s_root_node s) i) as (b & -> & Hb); [eauto|].
    exists b. split; [done|]. rewrite Hb. split.
    + intros Hv. exists (s_root_node s). split; [done|]. left. eauto.
    + intros (r' & Hv & [(s' & ? & ?)|(fid & w & Hw & Hws & Hwr & _)]); [by simplify_eq|].
      by rewrite <-(Hwin _ _ _ Hv Hw Hwr), Hwr.
  - destruct (floating_id_by_root st r) as [fid|] eqn:Hfid.
    + apply floating_id_by_root_Some in Hfid as (w & Hw & Hwr).
      unfold floating_window. rewrite Hw. simpl.
      assert (f_session_id w = sid) as Hws.
      { destruct (wo_root _ _ _ (wi_window _ W _ _ Hw)) as (m' & Hm' & _ & <-).
        rewrite Hwr in Hm'. rewrite <-Hn. symmetry. by eapply (below_session F). }
      destruct (f_visible w) eqn:Hvis.
      * destruct (is_node_visible_from_spec F r i (mk_is_Some _ _ Hr)) as (b & -> & Hb).
        exists b. split; [done|]. rewrite Hb. split.
        -- intros Hv. exists r. split; [done|]. right. by exists fid, w.
        -- intros (r' & Hv & [(s' & ? & ?)|(fid' & w' & Hw' & Hws' & Hwr' & _)]).
           ++ simplify_eq. exfalso. apply Hne. symmetry. apply Huniq; [done|].
              by exists (Tabs t).
           ++ by rewrite <-(Hwin _ _ _ Hv Hw' Hwr'), Hwr'.
      * exists false. split; [done|]. split; [done|].
        intros (r' & Hv & [(s' & ? & ?)|(fid' & w' & Hw' & Hws' & Hwr' & Hvis')]).
        -- simplify_eq. exfalso. apply Hne. symmetry. apply Huniq; [done|]. by exists (Tabs t).
        -- pose proof (Hwin _ _ _ Hv Hw' Hwr').
           assert (fid' = fid) as -> by (apply (wi_roots _ W _ _ w' w); congruence).
           congruence.
    + rewrite floating_id_by_root_None in Hfid.
      exists false. split; [done|]. split; [done|].
      intros (r' & Hv & [(s' & ? & ?)|(fid' & w' & Hw' & _ & Hwr' & _)]).
      * simplify_eq. exfalso. apply Hne. symmetry. apply Huniq; [done|]. by exists (Tabs t).
      * exfalso. apply (Hfid fid' w' Hw'). by apply (Hwin r' fid' w' Hv).
Qed.

Lemma on_screen_session sid i n :
  nodes st !! i = Some n → on_screen st sid i → node_session n = sid.
Proof.
  intros Hi (r & Hv%visible_below & Hr).
  assert (∃ m, nodes st !! r = Some m ∧ node_session m = sid) as (m & Hm & <-).
  { destruct Hr as [(s & Hs & <-)|(fid & w & Hw & <- & <- & _)].
    - destruct (so_root _ _ _ (wi_session _ W _ _ Hs)) as (t & ? & _ & ?). by exists (Tabs t).
    - destruct (wo_root _ _ _ (wi_window _ W _ _ Hw)) as (m & ? & _ & ?). by exists m. }
  by eapply (below_session F).
Qed.
End on_wired.
