(* ===== verification/FocusSpec.v ===== *)
(** What the focus operations of [Focus.v] do. They change the focus only
    ([refocused]), focus what they were asked to, and never fail after they
    changed something. *)

From stdpp Require Import relations.
From S2P Require Import Prelude Core Model Environment State Queries Buffers Focus.
From S2P Require Import Forest Invariant QueriesSpec.

(** ** Single writes *)

Lemma scrub_leaf_memory st st' leaf :
  scrub st' = scrub st → leaf_memory st leaf → leaf_memory st' leaf.
Proof.
  intros Hs [Hlt Hv]. destruct (scrub_parts Hs) as (_ & _ & _ & _ & _ & _ & E & _).
  split; [by rewrite E|]. intros n' Hn'.
  destruct (scrub_lookup_node (eq_sym Hs) _ _ Hn') as (n & Hn & He).
  apply scrub_node_eq in He as (_ & _ & <-). by apply Hv.
Qed.

Lemma scrub_popup_memory st st' sid fid :
  scrub st' = scrub st → popup_memory st sid fid → popup_memory st' sid fid.
Proof.
  intros Hs [Hlt Hv]. destruct (scrub_parts Hs) as (_ & _ & _ & _ & _ & _ & _ & E).
  split; [by rewrite E|]. intros w' Hw'.
  destruct (scrub_lookup_window (eq_sym Hs) _ _ Hw') as (w & Hw & He).
  apply scrub_window_eq in He as (_ & <- & _). by apply Hv.
Qed.

Lemma fmap_insert_same {A B} (f : A → B) (m : gmap N A) i x y :
  m !! i = Some x → f y = f x → f <$> <[i := y]> m = f <$> m.
Proof.
  intros Hi Hf. rewrite fmap_insert, Hf. apply insert_id. by rewrite lookup_fmap, Hi.
Qed.

Lemma refocused_node st i n n' :
  nodes st !! i = Some n → scrub_node n' = scrub_node n → (node_ok n → node_ok n') →
  (∀ leaf, last_focused_descendant n' = Some leaf →
     last_focused_descendant n = Some leaf ∨ leaf_memory st leaf) →
  refocused st (set_nodes (insert i n') st).
Proof.
  intros Hi Hs Hok Hlast.
  assert (scrub (set_nodes (insert i n') st) = scrub st) as He.
  { unfold scrub. simpl. by rewrite (fmap_insert_same _ _ _ _ _ Hi Hs). }
  split; [done| |].
  - intros j m m' Hm. simpl. rewrite lookup_insert. case_decide; naive_solver.
  - intros [R1 R2 R3 R4]. split; simpl.
    + intros j m leaf. rewrite lookup_insert. case_decide; [|intros; by eapply scrub_leaf_memory, R1].
      intros [= ->] [?|?]%Hlast; eapply scrub_leaf_memory; eauto.
    + intros. eapply scrub_leaf_memory; eauto.
    + intros. eapply scrub_leaf_memory; eauto.
    + intros. eapply scrub_popup_memory; eauto.
Qed.

Lemma refocused_session st sid s s' :
  sessions st !! sid = Some s → scrub_session s' = scrub_session s →
  (∀ leaf, s_focused_leaf s' = Some leaf → s_focused_leaf s = Some leaf ∨ leaf_memory st leaf) →
  (∀ fid, s_focused_floating s' = Some fid →
     s_focused_floating s = Some fid ∨ popup_memory st sid fid) →
  refocused st (set_sessions (insert sid s') st).
Proof.
  intros Hi Hs Hlast Hpop.
  assert (scrub (set_sessions (insert sid s') st) = scrub st) as He.
  { unfold scrub. simpl. by rewrite (fmap_insert_same _ _ _ _ _ Hi Hs). }
  split; [done| |].
  - intros j m m'. simpl. intros. by simplify_eq.
  - intros [R1 R2 R3 R4]. split; simpl.
    + intros. eapply scrub_leaf_memory; eauto.
    + intros. eapply scrub_leaf_memory; eauto.
    + intros j m leaf. rewrite lookup_insert. case_decide; [|intros; by eapply scrub_leaf_memory, R3].
      intros [= ->] [?|?]%Hlast; eapply scrub_leaf_memory; eauto.
    + intros j m fid. rewrite lookup_insert.
      case_decide; [subst j|intros; by eapply scrub_popup_memory, R4].
      intros [= ->] [?|?]%Hpop; eapply scrub_popup_memory; eauto.
Qed.

Lemma refocused_buffer st bid b b' :
  buffers st !! bid = Some b → scrub_buffer b' = scrub_buffer b →
  refocused st (set_buffers (insert bid b') st).
Proof.
  intros Hi Hs.
  assert (scrub (set_buffers (insert bid b') st) = scrub st) as He.
  { unfold scrub. simpl. by rewrite (fmap_insert_same _ _ _ _ _ Hi Hs). }
  split; [done| |].
  - intros j m m'. simpl. intros. by simplify_eq.
  - intros [R1 R2 R3 R4]. split; simpl; intros;
      (eapply scrub_leaf_memory || eapply scrub_popup_memory); eauto.
Qed.

Lemma update_windows_lookup f ids m fid :
  (∀ w, f fid (f fid w) = f fid w) →
  update_windows f ids m !! fid =
    (λ w, if decide (fid ∈ ids) then f fid w else w) <$> m !! fid.
Proof.
  intros Hid. unfold update_windows. revert m. induction ids as [|x ids IH]; intros m; simpl.
  - by destruct (m !! fid).
  - rewrite IH. destruct (decide (fid = x)) as [->|Hne].
    + destruct (m !! x) as [w|] eqn:Hx; rewrite ?lookup_insert_eq, ?Hx; simpl; [|done].
      f_equal. repeat case_decide; rewrite ?Hid; set_solver.
    + replace (match m !! x with Some w => <[x := f x w]> m | None => m end !! fid)
        with (m !! fid) by (destruct (m !! x); rewrite ?lookup_insert_ne; done).
      destruct (m !! fid); simpl; [|done]. f_equal. repeat case_decide; set_solver.
Qed.

Lemma refocused_windows st f ids :
  (∀ fid w, f fid (f fid w) = f fid w) → (∀ fid w, scrub_window (f fid w) = scrub_window w) →
  (∀ fid w leaf, f_last_focused_leaf (f fid w) = Some leaf →
     f_last_focused_leaf w = Some leaf ∨ leaf_memory st leaf) →
  refocused st (set_floating (update_windows f ids) st).
Proof.
  intros Hid Hsc Hlast.
  assert (scrub (set_floating (update_windows f ids) st) = scrub st) as He.
  { unfold scrub. simpl. f_equal. apply map_eq. intros fid.
    rewrite !lookup_fmap, update_windows_lookup by done.
    destruct (floating st !! fid); simpl; [|done]. case_decide; by rewrite ?Hsc. }
  split; [done| |].
  - intros j m m'. simpl. intros. by simplify_eq.
  - intros [R1 R2 R3 R4]. split; simpl.
    + intros. eapply scrub_leaf_memory; eauto.
    + intros fid w leaf. rewrite update_windows_lookup by done.
      intros (w0 & Hw & ->)%fmap_Some Hl. eapply scrub_leaf_memory; [done|].
      case_decide; [|by eauto]. apply Hlast in Hl as [?|?]; eauto.
    + intros. eapply scrub_leaf_memory; eauto.
    + intros. eapply scrub_popup_memory; eauto.
Qed.

(** ** Visibility under local changes *)

(** Only the nodes below the start of a path matter. *)
Lemma visible_from_agree m m' r i :
  (∀ x, reach (layout m) r x → m' !! x = m !! x) →
  visible_from m r i → visible_from m' r i.
Proof.
  intros Hag Hv. unfold visible_from in *. induction Hv as [r|r c i Hrc _ IH]; [reflexivity|].
  eapply rtc_l.
  - destruct Hrc as (n & Hn & Hc). exists n. rewrite Hag; [done|]. reflexivity.
  - apply IH. intros x Hx. apply Hag. eapply rtc_l; [|done]. by apply visible_edge_edge.
Qed.

Lemma visible_from_subrel m m' r i :
  (∀ p c, visible_edge m p c → visible_edge m' p c) →
  visible_from m r i → visible_from m' r i.
Proof. intros Hsub. apply rtc_subrel, Hsub. Qed.

(** [on_screen] only depends on the visible edges, the session roots and the
    shown popups' roots. *)
Lemma on_screen_change st st' sid :
  scrub st' = scrub st →
  (∀ r n i, nodes st !! r = Some n → parent n = None → node_session n = sid →
     visible_from (nodes st) r i → visible_from (nodes st') r i) →
  wired st → ∀ i, on_screen st sid i → on_screen st' sid i.
Proof.
  intros Hs Hv W i (r & Hri & Hr).
  assert (∃ n, nodes st !! r = Some n ∧ parent n = None ∧ node_session n = sid)
    as (n & Hn & Hp & Hsid).
  { destruct Hr as [(s & Hss & <-)|(fid & w & Hw & <- & <- & _)].
    - destruct (so_root _ _ _ (wi_session _ W _ _ Hss)) as (t & ? & ? & ?). by exists (Tabs t).
    - destruct (wo_root _ _ _ (wi_window _ W _ _ Hw)) as (m & ? & ? & ?). by exists m. }
  exists r. split; [by eapply Hv|].
  destruct Hr as [(s & Hss & Hr)|(fid & w & Hw & Hws & Hr & Hvis)].
  - left. destruct (scrub_lookup_session Hs _ _ Hss) as (s' & ? & He).
    apply scrub_session_eq in He as (_ & ? & _). exists s'. split; congruence.
  - right. destruct (scrub_lookup_window Hs _ _ Hw) as (w' & ? & He).
    apply scrub_window_eq in He as (_ & ? & ? & ?). exists fid, w'. split_and!; congruence.
Qed.

(** ** Frames of the focus operations *)

Definition node_active (n : Node) : nat := match n with Tabs t => t_active t | _ => 0 end.
Definition actives (st : ServerState) : gmap N nat := node_active <$> nodes st.

(** Focus moved within the session [sid] only. *)
Record focus_frame (sid : N) (st st' : ServerState) : Prop := {
  ff_refocused : refocused st st';
  ff_sessions : ∀ sid', sid' ≠ sid → sessions st' !! sid' = sessions st !! sid';
  ff_tabs : ∀ i t, nodes st !! i = Some (Tabs t) → t_session_id t ≠ sid →
    nodes st' !! i = Some (Tabs t)
}.

Lemma focus_frame_refl sid st : focus_frame sid st st.
Proof. by split. Qed.
Lemma focus_frame_trans sid st1 st2 st3 :
  focus_frame sid st1 st2 → focus_frame sid st2 st3 → focus_frame sid st1 st3.
Proof.
  intros [R1 S1 T1] [R2 S2 T2]. split; [by etrans| |eauto].
  intros sid' ?. rewrite S2, S1; done.
Qed.
#[export] Instance focus_frame_preorder sid : PreOrder (focus_frame sid).
Proof. split; [exact (focus_frame_refl sid)|exact (focus_frame_trans sid)]. Qed.

Lemma budget_scrub st st' : scrub st' = scrub st → budget st' = budget st.
Proof.
  intros (_ & _ & Hn & _)%scrub_parts. unfold budget. f_equal.
  by rewrite <-(map_size_fmap scrub_node (nodes st')), Hn, map_size_fmap.
Qed.

Lemma same_actives_visible st st' p c :
  scrub st' = scrub st → actives st' = actives st →
  visible_edge (nodes st) p c → visible_edge (nodes st') p c.
Proof.
  intros Hs Ha (n & Hn & Hc & Hact). destruct (scrub_lookup_node Hs _ _ Hn) as (n' & Hn' & He).
  exists n'. split; [done|]. pose proof (scrub_node_eq _ _ He) as (_ & Hsh & _).
  injection Hsh as _ _ Hch. split; [by rewrite Hch|].
  destruct n' as [v|s|t']; [done..|]. destruct n as [v|s|t]; [done..|].
  apply (f_equal (lookup p)) in Ha. unfold actives in Ha. rewrite !lookup_fmap, Hn, Hn' in Ha.
  injection Ha as Ha. apply scrub_tabs_eq in He as (? & [= <-] & _ & _ & _ & Ht).
  unfold active_child. by rewrite Ha, Ht.
Qed.

Lemma frame_on_screen_other sid sid' st st' i :
  focus_frame sid st st' → wired st → sid' ≠ sid → on_screen st sid' i → on_screen st' sid' i.
Proof.
  intros [R _ T] W Hne. apply on_screen_change; [apply R| |done].
  intros r n j Hr _ Hn Hrj.
  assert (∀ x m, nodes st !! x = Some m → below st r x → node_session m ≠ sid) as Hbelow.
  { intros x m Hx Hrx. rewrite (below_session (wi_forest _ W) r x n m Hr Hx Hrx). congruence. }
  clear Hr Hn. unfold visible_from in *. induction Hrj as [r|r c j Hrc _ IH]; [reflexivity|].
  eapply rtc_l; [|apply IH].
  - destruct Hrc as (m & Hm & Hc & Hact).
    destruct (scrub_lookup_node (rf_scrub _ _ R) _ _ Hm) as (m' & Hm' & He).
    pose proof (scrub_node_eq _ _ He) as (_ & Hsh & _). injection Hsh as _ _ Hch.
    exists m'. split_and!; [done|by rewrite Hch|].
    destruct m as [v|s|t]; [destruct m'; done..|].
    assert (nodes st' !! r = Some (Tabs t)) as Ht.
    { apply T; [done|]. apply (Hbelow r _ Hm). reflexivity. }
    by simplify_eq.
  - intros x m Hx Hcx. apply (Hbelow x m Hx). eapply rtc_l; [|done].
    by apply visible_edge_edge.
Qed.

Lemma actives_node st i n n' :
  nodes st !! i = Some n → node_active n' = node_active n →
  actives (set_nodes (insert i n') st) = actives st.
Proof. intros. unfold actives. simpl. by apply (fmap_insert_same _ _ _ n). Qed.

Lemma frame_node sid st i n n' :
  nodes st !! i = Some n → node_session n = sid → refocused st (set_nodes (insert i n') st) →
  focus_frame sid st (set_nodes (insert i n') st).
Proof.
  intros Hi Hs R. split; [done..|]. simpl. intros j t Hj Hne.
  rewrite lookup_insert. case_decide; [|done]. simplify_eq/=.
Qed.

Lemma frame_session sid st s' :
  refocused st (set_sessions (insert sid s') st) →
  focus_frame sid st (set_sessions (insert sid s') st).
Proof.
  intros R. split; [done| |done]. simpl. intros sid' ?. by rewrite lookup_insert_ne.
Qed.

(** A view of any session can be flagged: flags do not matter to the frame. *)
Lemma frame_view sid st i v v' :
  nodes st !! i = Some (BufferView v) → refocused st (set_nodes (insert i (BufferView v')) st) →
  focus_frame sid st (set_nodes (insert i (BufferView v')) st).
Proof.
  intros Hi R. split; [done..|]. simpl. intros j t Hj Hne.
  rewrite lookup_insert. case_decide; [|done]. by simplify_eq/=.
Qed.

Lemma view_memory st i :
  wired st → is_view st i → leaf_memory st i.
Proof.
  intros W [v Hv]. split; [apply (fi_nodes _ (wi_fresh _ W)); eauto|]. by intros n ?; simplify_eq.
Qed.

(** ** Clearing and flagging *)

Lemma set_leaf_focus_spec sid st leaf f v :
  wired st → nodes st !! leaf = Some (BufferView v) →
  wp (set_leaf_focus leaf f)
    (λ _ st', focus_frame sid st st' ∧ actives st' = actives st ∧ sessions st' = sessions st
              ∧ floating st' = floating st ∧ buffers st' = buffers st
              ∧ nodes st' !! leaf = Some (BufferView (v_set_focused f v)))
    (λ _ _, False) st.
Proof.
  intros W Hv. unfold set_leaf_focus. wp_step. eapply wp_reads_ok; [by apply node_Ok|].
  unfold insert_node. apply wp_modify. split_and!; simpl; try done.
  - eapply frame_view; [done|]. eapply refocused_node; [done..|].
    simpl. destruct f; [|done]. intros leaf' [= <-]. right.
    pose proof (wi_node_id _ W _ _ Hv) as Hid. simpl in Hid. rewrite Hid.
    apply view_memory; [done|by exists v].
  - by eapply actives_node.
  - by rewrite lookup_insert_eq.
Qed.

Lemma clear_session_focus_spec sid st s :
  wired st → sessions st !! sid = Some s →
  wp (clear_session_focus sid)
    (λ _ st', focus_frame sid st st' ∧ actives st' = actives st ∧ buffers st' = buffers st
              ∧ sessions st' = <[sid := s_set_focus None None s]> (sessions st))
    (λ _ _, False) st.
Proof.
  intros W Hs. unfold clear_session_focus. wp_step.
  eapply wp_reads_ok; [by unfold session; rewrite Hs|]. wp_step.
  apply wp_mono with (Q := λ _ st', focus_frame sid st st' ∧ actives st' = actives st
    ∧ sessions st' = sessions st ∧ buffers st' = buffers st) (E := λ _ _, False); [| |done].
  - destruct (s_focused_leaf s) as [leaf|]; [|by split_and!]. wp_step.
    destruct (nodes st !! leaf) as [n|] eqn:Hn.
    + destruct n as [v|sp|t].
      * eapply wp_mono; [by apply (set_leaf_focus_spec sid)| |done]. naive_solver.
      * unfold set_leaf_focus. wp_step. eapply wp_reads_ok; [by apply node_Ok|]. by wp_step.
      * unfold set_leaf_focus. wp_step. eapply wp_reads_ok; [by apply node_Ok|]. by wp_step.
    + unfold set_leaf_focus. wp_step. eapply (wp_reads_err _ _ NotFound); [|by split_and!].
      unfold node. by rewrite Hn.
  - intros _ st1 (Hf & Ha & Hs1 & Hb). wp_step.
    eapply wp_reads_ok; [by unfold session; rewrite Hs1, Hs|]. wp_step.
    apply wp_modify.
    assert (focus_frame sid st (set_floating
      (update_windows (λ _ w, f_set_focus false (f_last_focused_leaf w) w) (s_floating s)) st1))
      as Hf2.
    { etrans; [done|]. split; [|done..]. apply refocused_windows; [done|by intros _ []|by left]. }
    eapply wp_session_mut; [by simpl; rewrite Hs1|]. simpl. split_and!; [|done..|by rewrite Hs1].
    etrans; [done|]. apply frame_session. eapply refocused_session; [by simpl; rewrite Hs1|..].
    + by destruct s.
    + done.
    + done.
Qed.

(** ** The path to the root *)

Lemma position_elem (f : TabEntry → N) l i x :
  NoDup (f <$> l) → l !! i = Some x → position (λ y, f y =? f x)%N l = Some i.
Proof.
  intros Hnd Hi. destruct (position _ l) as [j|] eqn:Hj.
  - destruct (position_Some _ _ _ Hj) as (y & Hy & He%N.eqb_eq & _). f_equal.
    eapply NoDup_lookup; [done|..]; rewrite list_lookup_fmap; [by rewrite Hy|].
    by rewrite Hi; simpl; rewrite He.
  - rewrite position_None in Hj. specialize (Hj x (list_elem_of_lookup_2 _ _ _ Hi)).
    by rewrite N.eqb_refl in Hj.
Qed.

Lemma children_nodup st i n : wired st → nodes st !! i = Some n → NoDup (child_ids n).
Proof.
  intros W Hi. apply (fo_nodup _ (wi_forest _ W) i (shape_of n)). by rewrite layout_lookup, Hi.
Qed.

Lemma mark_focused_scrub leaf child n : scrub_node (mark_focused leaf child n) = scrub_node n.
Proof. destruct n as [v|s|t]; simpl; [done..|]. by destruct (position _ _). Qed.

Lemma mark_focused_ok leaf child n : node_ok n → node_ok (mark_focused leaf child n).
Proof.
  destruct n as [v|s|t]; simpl; [done..|]. destruct (position _ _) as [i|] eqn:Hp; simpl; [|done].
  intros _. left. destruct (position_Some _ _ _ Hp) as (x & Hx & _). by eapply lookup_lt_Some.
Qed.

Lemma mark_focused_shows leaf child n :
  child ∈ child_ids n →
  match mark_focused leaf child n with Tabs t => active_child t = Some child | _ => True end.
Proof.
  destruct n as [v|s|t]; simpl; [done..|]. intros Hc.
  destruct (position _ _) as [i|] eqn:Hp.
  - destruct (position_Some _ _ _ Hp) as (x & Hx & He%N.eqb_eq & _).
    unfold active_child. simpl. by rewrite Hx; simpl; rewrite He.
  - rewrite position_None in Hp. apply list_elem_of_fmap in Hc as (tab & -> & Htab).
    specialize (Hp tab Htab). by rewrite N.eqb_refl in Hp.
Qed.

(** Marking the active child changes nothing. *)
Lemma mark_focused_active leaf child n :
  NoDup (child_ids n) →
  match n with Tabs t => active_child t = Some child | _ => True end →
  node_active (mark_focused leaf child n) = node_active n.
Proof.
  destruct n as [v|s|t]; simpl; [done..|]. intros Hnd (tab & Htab & ->)%fmap_Some.
  by rewrite (position_elem te_child _ _ _ Hnd Htab).
Qed.

Lemma refocused_mark st i n leaf child :
  wired st → is_view st leaf → nodes st !! i = Some n →
  refocused st (set_nodes (insert i (mark_focused leaf child n)) st).
Proof.
  intros W Hv Hi. eapply refocused_node; [done| | |].
  - apply mark_focused_scrub.
  - apply mark_focused_ok.
  - intros leaf' Hl. destruct n as [v|s|t]; simpl in Hl; [by left|..].
    + right. simplify_eq. by apply view_memory.
    + right. simplify_eq. by apply view_memory.
Qed.

(** The visible path to a leaf passes through every node between. *)
Lemma visible_split st r c leaf :
  forest (layout (nodes st)) → visible_from (nodes st) r leaf → below st r c → below st c leaf →
  visible_from (nodes st) r c ∧ visible_from (nodes st) c leaf.
Proof.
  intros F Hv Hrc. revert leaf Hv. apply (rtc_ind_r (λ leaf, below st c leaf →
    visible_from (nodes st) r c ∧ visible_from (nodes st) c leaf) r); [|intros x y Hrx Hxy IH];
    intros Hcl.
  - assert (c = r) as -> by by apply (reach_antisym F). split; reflexivity.
  - apply rtc_inv_r in Hcl as [->|(q & Hcq & Hqy)].
    + split; [|reflexivity]. by eapply rtc_r.
    + assert (q = x) as ->. { eapply (edge_fun F); [done|]. by apply visible_edge_edge. }
      destruct (IH Hcq). split; [done|]. by eapply rtc_r.
Qed.

Definition root_of (st : ServerState) (r i : N) : Prop :=
  below st r i ∧ ∃ n, nodes st !! r = Some n ∧ parent n = None.

Lemma scrub_below st st' r i : scrub st' = scrub st → below st' r i ↔ below st r i.
Proof. intros Hs. unfold below. by rewrite (scrub_layout Hs). Qed.

Lemma scrub_root_of st st' r i : scrub st' = scrub st → root_of st r i → root_of st' r i.
Proof.
  intros Hs (Hb & n & Hn & Hp). split; [by apply (scrub_below _ _ _ _ Hs)|].
  destruct (scrub_lookup_node Hs _ _ Hn) as (n' & ? & He).
  apply scrub_node_eq in He as (_ & [= _ He _] & _). exists n'. split; congruence.
Qed.

Lemma refocused_view st st' i : refocused st st' → is_view st i → is_view st' i.
Proof.
  intros [Hs _ _] [v Hv]. destruct (scrub_lookup_node Hs _ _ Hv) as (n & Hn & He).
  apply scrub_view_eq in He as (v' & -> & _). by exists v'.
Qed.

Definition path_post (sid leaf r : N) (st st' : ServerState) : Prop :=
  focus_frame sid st st' ∧ sessions st' = sessions st ∧ buffers st' = buffers st
  ∧ floating st' = floating st
  ∧ (∀ i v, nodes st !! i = Some (BufferView v) → nodes st' !! i = Some (BufferView v))
  ∧ visible_from (nodes st') r leaf
  ∧ (visible_from (nodes st) r leaf → actives st' = actives st).

(** One step of the walk: [parent] shows [child] afterwards. *)
Lemma mark_step sid st leaf r child n p m :
  wired st → is_view st leaf → root_of st r child → below st child leaf →
  nodes st !! child = Some n → node_session n = sid → parent n = Some p →
  nodes st !! p = Some m → visible_from (nodes st) child leaf →
  let st' := set_nodes (insert p (mark_focused leaf child m)) st in
  focus_frame sid st st' ∧ visible_from (nodes st') p leaf
  ∧ (visible_from (nodes st) r leaf → actives st' = actives st).
Proof.
  intros W Hv [Hrc (nr & Hr & Hrp)] Hcl Hc Hsid Hp Hm Hvis st'. pose proof (wi_forest _ W) as F.
  destruct (parent_exists F _ _ _ Hc Hp) as (m' & Hm' & Hin). simplify_eq.
  destruct (child_exists F _ _ _ Hm Hin) as (n' & Hn' & _ & Hns). simplify_eq.
  assert (edge (layout (nodes st)) p child) as Hpc by (apply layout_edge; eauto).
  split_and!.
  - eapply frame_node; [done|by rewrite Hns|]. by apply refocused_mark.
  - eapply rtc_l.
    + exists (mark_focused leaf child m). simpl. rewrite lookup_insert_eq. split; [done|].
      split; [|by apply mark_focused_shows].
      pose proof (scrub_node_eq _ _ (mark_focused_scrub leaf child m)) as (_ & Hsh & _).
      injection Hsh as _ _ ->. done.
    + eapply visible_from_agree; [|done]. intros x Hx. simpl. apply lookup_insert_ne.
      intros <-. apply (acyclic F p). by eapply tc_rtc_r; [by constructor|].
  - intros Hrl. apply (actives_node _ _ m); [done|]. apply mark_focused_active.
    { by eapply children_nodup. }
    destruct (visible_split st r child leaf F Hrl Hrc Hcl) as [Hrv _].
    assert (child ≠ r) as Hne by congruence.
    by apply (visible_parent F r p child _ m Hc Hm Hp Hne) in Hrv as [_ ?].
Qed.

Lemma mark_focus_path_spec sid st leaf r child n :
  wired st → is_view st leaf → nodes st !! child = Some n → node_session n = sid →
  root_of st r child → below st child leaf → visible_from (nodes st) child leaf →
  wp (mark_focus_path (budget st) leaf child) (λ _ st', path_post sid leaf r st st')
    (λ _ _, False) st.
Proof.
  intros W. revert n. pose proof (wi_forest _ W) as F.
  assert (∀ child, is_Some (nodes st !! child) → ∀ st1, focus_frame sid st st1 →
    is_view st1 leaf → (∀ n, nodes st !! child = Some n → node_session n = sid) →
    root_of st r child → below st child leaf → visible_from (nodes st1) child leaf →
    wp (mark_focus_path (budget st) leaf child) (λ _ st', path_post sid leaf r st1 st')
      (λ _ _, False) st1) as Hgen; cycle 1.
  { intros n Hv Hc Hs Hr Hb Hvis. apply Hgen; [eauto|done..| |done|done|done].
    intros; by simplify_eq. }
  clear child. apply (walk_up F (λ fuel child, ∀ st1, focus_frame sid st st1 →
    is_view st1 leaf → (∀ n, nodes st !! child = Some n → node_session n = sid) →
    root_of st r child → below st child leaf → visible_from (nodes st1) child leaf →
    wp (mark_focus_path fuel leaf child) (λ _ st', path_post sid leaf r st1 st')
      (λ _ _, False) st1)).
  intros fuel child n Hn IH st1 Hf Hv Hsid Hr Hb Hvis. cbn [mark_focus_path].
  pose proof (ff_refocused _ _ _ Hf) as Hrf. pose proof (rf_scrub _ _ Hrf) as Hs.
  destruct (scrub_lookup_node Hs _ _ Hn) as (n1 & Hn1 & He).
  pose proof (scrub_node_eq _ _ He) as (_ & [= Hns Hnp _] & _).
  assert (wired st1) as W1 by by eapply refocused_wired.
  wp_step. eapply (wp_reads_ok _ _ (parent n)).
  { unfold node_parent. by rewrite (node_Ok _ _ _ Hn1), <-Hnp. }
  destruct (parent n) as [p|] eqn:Hp; cycle 1.
  { apply wp_ret. assert (child = r) as ->.
    { destruct Hr as [Hrc _]. destruct (below_parent F _ _ _ Hn Hrc) as [|(? & ? & _)]; congruence. }
    by split_and!. }
  destruct (parent_exists (wi_forest _ W1) _ _ _ Hn1 Hnp) as (m1 & Hm1 & _).
  destruct (mark_step sid st1 leaf r child n1 p m1) as (Hf2 & Hvis2 & Hact); try done.
  { by eapply scrub_root_of. }
  { by apply (scrub_below _ _ _ _ Hs). }
  { rewrite Hns. by apply Hsid. }
  destruct (parent_exists F _ _ _ Hn Hp) as (m & Hm & Hin).
  wp_step. eapply wp_node_mut; [done|].
  eapply wp_mono; [apply (IH p eq_refl)| |done].
  - by etrans.
  - by eapply refocused_view; [apply Hf2|].
  - intros m' Hm'. simplify_eq. destruct (child_exists F _ _ _ Hm Hin) as (? & ? & _ & ?).
    simplify_eq. rewrite <-(Hsid n); congruence.
  - destruct Hr as [Hrc ?]. split; [|done].
    destruct (below_parent F _ _ _ Hn Hrc) as [->|(? & ? & ?)]; [|by simplify_eq].
    naive_solver congruence.
  - eapply rtc_l; [|done]. apply layout_edge. eauto.
  - done.
  - intros _ st' (Hf3 & E1 & E2 & E3 & Hviews & Hv3 & Hact3). simpl in *.
    split_and!; [by etrans|done..| |done|].
    { intros i v Hi. apply Hviews. rewrite lookup_insert. case_decide; [|done]. by simplify_eq. }
    intros Hrl. rewrite Hact3; [by apply Hact|].
    assert (actives (set_nodes (insert p (mark_focused leaf child m1)) st1) = actives st1) as Ha
      by by apply Hact.
    apply (visible_from_subrel (nodes st1)); [|done].
    intros x y. change (<[p:=mark_focused leaf child m1]> (nodes st1)) with
      (nodes (set_nodes (insert p (mark_focused leaf child m1)) st1)).
    apply same_actives_visible; [|done]. apply Hf2.
Qed.

(** ** Acknowledging activity *)

(** Only activity marks changed. *)
Record acked (st st' : ServerState) : Prop := {
  ak_refocused : refocused st st';
  ak_sessions : sessions st' = sessions st;
  ak_nodes : nodes st' = nodes st;
  ak_floating : floating st' = floating st
}.
Lemma acked_refl st : acked st st.
Proof. by split. Qed.
Lemma acked_trans st1 st2 st3 : acked st1 st2 → acked st2 st3 → acked st1 st3.
Proof. intros [R1 ? ? ?] [R2 ? ? ?]. split; [by etrans|congruence..]. Qed.
#[export] Instance acked_preorder : PreOrder acked.
Proof. split; [exact acked_refl|exact acked_trans]. Qed.

Lemma acked_frame sid st st' : acked st st' → focus_frame sid st st'.
Proof. intros [R Es En _]. split; [done|by rewrite Es|by rewrite En]. Qed.
Lemma acked_actives st st' : acked st st' → actives st' = actives st.
Proof. intros [_ _ En _]. unfold actives. by rewrite En. Qed.

Lemma acked_buffer st bid b a :
  buffers st !! bid = Some b →
  acked st (set_buffers (insert bid (b_set_activity a (b_last_snapshot_seq b) b)) st).
Proof. intros Hb. split; [|done..]. by eapply refocused_buffer; [done|destruct b]. Qed.

Definition idle (st : ServerState) (bid : N) : Prop :=
  ∃ b, buffers st !! bid = Some b ∧ b_activity b = Idle.

Lemma set_buffer_activity_spec st bid a :
  is_Some (buffers st !! bid) →
  wp (set_buffer_activity bid a)
    (λ _ st', acked st st' ∧ (∃ b, buffers st' !! bid = Some b ∧ b_activity b = a)
              ∧ ∀ bid', bid' ≠ bid → buffers st' !! bid' = buffers st !! bid')
    (λ _ _, False) st.
Proof.
  intros [b Hb]. eapply wp_buffer_mut; [done|]. split; [by apply acked_buffer|]. simpl. split.
  - exists (b_set_activity a (b_last_snapshot_seq b) b). by rewrite lookup_insert_eq.
  - intros bid' ?. by rewrite lookup_insert_ne.
Qed.

(** The buffer a view shows. *)
Definition shows (st : ServerState) (i bid : N) : Prop :=
  ∃ v, nodes st !! i = Some (BufferView v) ∧ v_buffer_id v = bid.
Definition backed (st : ServerState) : Prop :=
  ∀ i v, nodes st !! i = Some (BufferView v) → is_Some (buffers st !! v_buffer_id v).

Lemma acked_backed st st' : acked st st' → backed st → backed st'.
Proof.
  intros [R _ En _] B i v. rewrite En. intros Hi. destruct (B i v Hi) as [b Hb].
  destruct (scrub_lookup_buffer (rf_scrub _ _ R) _ _ Hb) as (b' & ? & _). eauto.
Qed.

Lemma acknowledge_leaves_spec st leaves changed :
  backed st → (∀ i, i ∈ leaves → is_view st i) →
  wp (fold_st (λ changed leaf,
      bid ← reads (λ st, buffer_view_buffer_id st leaf);
      b ← reads (λ st, buffer st bid);
      if bool_decide (b_activity b ≠ Idle) then set_buffer_activity bid Idle ;; mret true
      else mret changed) changed leaves)
    (λ _ st', acked st st'
              ∧ (∀ i bid, i ∈ leaves → shows st i bid → idle st' bid)
              ∧ (∀ bid, idle st bid → idle st' bid)) (λ _ _, False) st.
Proof.
  revert st changed. induction leaves as [|i leaves IH]; intros st changed B Hl; cbn [fold_st].
  { apply wp_ret. split; [done|]. split; [by intros ?? ?%elem_of_nil|done]. }
  destruct (Hl i) as [v Hv]; [by left|]. destruct (B i v Hv) as [b Hb].
  do 2 wp_step. eapply wp_reads_ok.
  { unfold buffer_view_buffer_id. by rewrite (node_Ok _ _ _ Hv). }
  wp_step. eapply wp_reads_ok; [by unfold buffer; rewrite Hb|].
  assert (∀ st1 c, acked st st1 → idle st1 (v_buffer_id v) → (∀ bid, idle st bid → idle st1 bid) →
    wp (fold_st (λ changed leaf,
      bid ← reads (λ st, buffer_view_buffer_id st leaf);
      b ← reads (λ st, buffer st bid);
      if bool_decide (b_activity b ≠ Idle) then set_buffer_activity bid Idle ;; mret true
      else mret changed) c leaves)
    (λ _ st', acked st st' ∧ (∀ j bid, j ∈ i :: leaves → shows st j bid → idle st' bid)
              ∧ (∀ bid, idle st bid → idle st' bid)) (λ _ _, False) st1) as Hrest.
  { intros st1 c Hak Hidle Hold. eapply wp_mono; [apply IH| |done].
    - by eapply acked_backed.
    - intros j Hj. eapply refocused_view; [apply Hak|]. apply Hl. by right.
    - intros _ st' (Hak' & Hnew & Hkeep). split; [by etrans|]. split; [|by auto].
      intros j bid [->|Hj]%elem_of_cons (v' & Hv' & <-).
      + simplify_eq. auto.
      + apply (Hnew j); [done|]. exists v'. by rewrite (ak_nodes _ _ Hak). }
  case_bool_decide as Ha.
  - wp_step. eapply wp_mono; [apply set_buffer_activity_spec; eauto| |done].
    intros _ st1 (Hak & Hidle & Hrestb). wp_step. apply Hrest; [done..|].
    intros bid (b' & Hb' & Hi'). destruct (decide (bid = v_buffer_id v)) as [->|]; [done|].
    exists b'. by rewrite Hrestb.
  - wp_step. apply Hrest; [done| |done]. by exists b.
Qed.

(** Every leaf on the session's screen shows an idle buffer afterwards. *)
Lemma acknowledge_shown_activity_spec sid st s :
  wired st → backed st → sessions st !! sid = Some s →
  wp (acknowledge_shown_activity sid)
    (λ _ st', acked st st' ∧ (∀ bid, idle st bid → idle st' bid)
      ∧ (shaped ∅ st → ∀ i bid, on_screen st sid i → shows st i bid → idle st' bid))
    (λ _ _, False) st.
Proof.
  intros W B Hs. pose proof (wi_forest _ W) as F. unfold acknowledge_shown_activity. wp_step.
  eapply wp_reads_ok; [by unfold session; rewrite Hs|]. wp_step.
  destruct (collect_visible_leaves_spec F (s_root_node s) (root_exists W _ _ Hs) [])
    as (l0 & Hl0 & Hv0 & Hc0).
  eapply wp_reads_ok; [exact Hl0|]. simpl. wp_step.
  set (f := λ leaves fid,
    match floating st !! fid with
    | Some w => if f_visible w then collect_visible_leaf_ids (budget st) st leaves (f_root_node w)
                else Ok leaves
    | None => Ok leaves
    end).
  assert (∀ fids acc, ∃ l, fold_ok f acc fids = Ok (acc ++ l)
    ∧ (∀ x, x ∈ l → is_view st x)
    ∧ (shaped ∅ st → ∀ fid w x, fid ∈ fids → floating st !! fid = Some w → f_visible w = true →
        is_view st x → visible_from (nodes st) (f_root_node w) x → x ∈ l)) as Hfold.
  { induction fids as [|fid fids IH]; intros acc; simpl.
    { exists []. rewrite app_nil_r. split; [done|]. split; [by intros x ?%elem_of_nil|].
      by intros _ fid w x ?%elem_of_nil. }
    assert (∃ l, f acc fid = Ok (acc ++ l) ∧ (∀ x, x ∈ l → is_view st x)
      ∧ (shaped ∅ st → ∀ w x, floating st !! fid = Some w → f_visible w = true →
          is_view st x → visible_from (nodes st) (f_root_node w) x → x ∈ l)) as (l1 & -> & Hl1 & Hc1).
    { unfold f. destruct (floating st !! fid) as [w|] eqn:Hw; cycle 1.
      { exists []. rewrite app_nil_r. split; [done|]. split; [by intros x ?%elem_of_nil|]. by intros. }
      destruct (f_visible w) eqn:Hvis; cycle 1.
      { exists []. rewrite app_nil_r. split; [done|]. split; [by intros x ?%elem_of_nil|].
        intros. congruence. }
      destruct (collect_visible_leaves_spec F (f_root_node w) (window_exists W _ _ Hw) acc)
        as (l & Hl & Hv & Hc).
      exists l. split; [done|]. split; [by intros x [? _]%Hv|]. intros Hsh w' x [= <-] _ ? ?.
      by apply (Hc Hsh). }
    simpl. destruct (IH (acc ++ l1)) as (l2 & -> & Hl2 & Hc2). exists (l1 ++ l2).
    rewrite app_assoc. split; [done|]. split; [intros x [?|?]%elem_of_app; auto|].
    intros Hsh fid' w x [->|Hin]%elem_of_cons Hw Hvis Hx Hvx; apply elem_of_app; eauto. }
  destruct (Hfold (s_floating s) l0) as (l & Hl & Hv & Hc).
  eapply wp_reads_ok; [exact Hl|].
  eapply wp_mono; [apply acknowledge_leaves_spec| |done]; [done| |].
  { intros x [?%Hv0|?]%elem_of_app; naive_solver. }
  intros _ st' (Hak & Hnew & Hold). split; [done|]. split; [done|].
  intros Hsh i bid (r & Hvis & Hr) Hsi. apply (Hnew i); [|done].
  assert (is_view st i) as Hi by (destruct Hsi as (v & ? & _); by exists v).
  apply elem_of_app. destruct Hr as [(s' & ? & <-)|(fid & w & Hw & Hws & <- & Hwv)].
  - simplify_eq. left. by apply (Hc0 Hsh).
  - right. eapply Hc; [done| |done..].
    destruct (wo_listed _ _ _ (wi_window _ W _ _ Hw)) as (s' & ? & ? & _). congruence.
Qed.

(** ** Focusing a leaf *)

(** The leaf [leaf] of the session [sid], in the tree of root [r], can be
    focused: [r] is the session's root or a popup that is shown. *)
Record focusable (st : ServerState) (sid leaf r : N) : Prop := {
  fc_view : ∃ v, nodes st !! leaf = Some (BufferView v) ∧ v_session_id v = sid;
  fc_session : is_Some (sessions st !! sid);
  fc_root : root_of st r leaf;
  fc_shown : (∃ s, sessions st !! sid = Some s ∧ s_root_node s = r)
             ∨ ∃ fid w, floating st !! fid = Some w ∧ f_root_node w = r ∧ f_visible w = true
}.

Lemma root_session st sid leaf r :
  wired st → focusable st sid leaf r → ∃ n, nodes st !! r = Some n ∧ node_session n = sid.
Proof.
  intros W [(v & Hv & <-) _ [Hb (n & Hn & _)] _]. exists n. split; [done|].
  symmetry. by apply (below_session (wi_forest _ W) r leaf n (BufferView v)).
Qed.

Lemma focus_guards st sid leaf :
  wired st →
  returns (ensure_leaf_belongs_to st leaf sid ;; ensure_leaf_is_focusable st sid leaf)
    (λ _, ∃ r, focusable st sid leaf r) (λ _, ∀ r, ¬ focusable st sid leaf r).
Proof.
  intros W. pose proof (wi_forest _ W) as F.
  unfold ensure_leaf_belongs_to, ensure_node_belongs_to, ensure_leaf, node.
  destruct (nodes st !! leaf) as [n|] eqn:Hn; simpl; cycle 1.
  { intros r [(v & Hv & _) _ _ _]. congruence. }
  destruct (N.eqb_spec (node_session n) sid) as [Hs|Hs]; simpl; cycle 1.
  { intros r [(v & Hv & ?) _ _ _]. simplify_eq/=. }
  destruct n as [v|s|t]; simpl; [|by intros r [(? & ? & _) _ _ _]; simplify_eq..].
  unfold ensure_leaf_is_focusable.
  destruct (top_root_spec F leaf (mk_is_Some _ _ Hn)) as (r & nr & Htop & Hb & Hr & Hp).
  rewrite Htop. simpl. unfold session.
  destruct (sessions st !! sid) as [s|] eqn:Hsid; simpl; cycle 1.
  { intros q [_ [? ?] _ _]. congruence. }
  assert (∀ q, root_of st q leaf → q = r) as Huniq.
  { intros q [Hq (nq & ? & ?)]. symmetry. by eapply (top_is W leaf q nq). }
  assert (root_of st r leaf) as Hroot by (split; eauto).
  destruct (N.eqb_spec r (s_root_node s)) as [->|Hne]; simpl.
  { exists (s_root_node s). split; eauto. }
  destruct (floating_id_by_root st r) as [fid|] eqn:Hfid; simpl.
  - apply (floating_id_by_root_Some W) in Hfid as (w & Hw & Hwr).
    unfold floating_window. rewrite Hw. simpl. destruct (f_visible w) eqn:Hvis; simpl.
    + exists r. split; eauto. right. eauto.
    + intros q [_ _ Hq%Huniq [(s' & ? & ?)|(fid' & w' & Hw' & ? & ?)]]; simplify_eq.
      assert (fid' = fid) as -> by (apply (wi_roots _ W _ _ w' w); congruence). congruence.
  - rewrite (floating_id_by_root_None W) in Hfid.
    intros q [_ _ Hq%Huniq [(s' & ? & ?)|(fid' & w' & Hw' & ? & ?)]]; simplify_eq. naive_solver.
Qed.

Record focus_post (sid leaf r : N) (st st' : ServerState) : Prop := {
  fp_frame : focus_frame sid st st';
  fp_session : ∃ s s', sessions st !! sid = Some s ∧ sessions st' !! sid = Some s'
    ∧ s_focused_leaf s' = Some leaf
    ∧ s_focused_floating s' = floating_id_by_root st r
    ∧ s_focus_history s' =
        match s_focused_leaf s with
        | Some previous =>
            if (previous =? leaf)%N then s_focus_history s
            else push_history (λ id, bool_decide (is_Some (nodes st !! id))) previous
                   (s_focus_history s)
        | None => s_focus_history s
        end;
  fp_flag : ∃ v, nodes st' !! leaf = Some (BufferView v) ∧ focused (v_view v) = true;
  fp_shown : on_screen st' sid leaf;
  fp_stable : on_screen st sid leaf → actives st' = actives st;
  fp_idle : shaped ∅ st → ∀ i bid, on_screen st' sid i → shows st' i bid → idle st' bid
}.

Lemma focusable_on_screen st sid leaf r :
  wired st → focusable st sid leaf r → visible_from (nodes st) r leaf → on_screen st sid leaf.
Proof.
  intros W Hf Hv. destruct (root_session _ _ _ _ W Hf) as (n & Hn & Hns).
  exists r. split; [done|].
  destruct (fc_shown _ _ _ _ Hf) as [?|(fid & w & Hw & Hwr & Hvis)]; [by left|].
  right. exists fid, w. split_and!; try done.
  destruct (wo_root _ _ _ (wi_window _ W _ _ Hw)) as (m & Hm & _ & <-). congruence.
Qed.

Lemma on_screen_focusable st sid leaf :
  wired st → on_screen st sid leaf → is_view st leaf → is_Some (sessions st !! sid) →
  ∃ r, focusable st sid leaf r ∧ visible_from (nodes st) r leaf.
Proof.
  intros W Hos [v Hv] Hs. pose proof (on_screen_session W _ _ _ Hv Hos) as Hns.
  destruct Hos as (r & Hvis & Hr). exists r. split; [|done]. split; [by exists v|done| |].
  - split; [by apply visible_below|]. destruct Hr as [(s & Hsid & <-)|(fid & w & Hw & _ & <- & _)].
    + destruct (so_root _ _ _ (wi_session _ W _ _ Hsid)) as (t & ? & ? & _). by exists (Tabs t).
    + destruct (wo_root _ _ _ (wi_window _ W _ _ Hw)) as (n & ? & ? & _). by exists n.
  - destruct Hr as [?|(fid & w & ? & _ & ? & ?)]; [by left|]. right. eauto.
Qed.

Lemma focusable_scrub st st' sid leaf r :
  scrub st' = scrub st → focusable st sid leaf r → focusable st' sid leaf r.
Proof.
  intros Hs [(v & Hv & Hvs) [s Hss] Hr Hshown]. split.
  - destruct (scrub_lookup_node Hs _ _ Hv) as (n & ? & He).
    apply scrub_view_eq in He as (v' & -> & _ & ? & _). exists v'. split; congruence.
  - destruct (scrub_lookup_session Hs _ _ Hss) as (s' & ? & _). eauto.
  - by eapply scrub_root_of.
  - destruct Hshown as [(s0 & Hs0 & ?)|(fid & w & Hw & ? & ?)].
    + left. destruct (scrub_lookup_session Hs _ _ Hs0) as (s' & ? & He).
      apply scrub_session_eq in He as (_ & ? & _). exists s'. split; congruence.
    + right. destruct (scrub_lookup_window Hs _ _ Hw) as (w' & ? & He).
      apply scrub_window_eq in He as (_ & _ & ? & ?). exists fid, w'. split_and!; congruence.
Qed.

Lemma focusable_unique st sid leaf r q :
  wired st → focusable st sid leaf r → root_of st q leaf → q = r.
Proof.
  intros W Hf [Hq (n & ? & ?)]. destruct (fc_root _ _ _ _ Hf) as [Hb (m & ? & ?)].
  apply (top_unique (wi_forest _ W) q r leaf); [apply layout_is_root; eauto..|done|done].
Qed.

Lemma wp_reads2 {B} st (g1 g2 : ServerState → outcome unit) (k : SM B) P R Q E :
  returns (g1 st ;; g2 st) P R → (∀ u, P u → wp k Q E st) → (∀ e, R e → E e st) →
  wp (reads g1 ;; reads g2 ;; k) Q E st.
Proof.
  intros Hg Hk HE. wp_step. apply wp_reads. destruct (g1 st) as [[]|e| |]; simpl in *; auto.
  wp_step. apply wp_reads. destruct (g2 st) as [u|e| |]; simpl in *; eauto.
Qed.

(** [s] with its history and focus replaced. *)
Lemma remember_focus_spec sid st s previous :
  wired st → sessions st !! sid = Some s →
  wp (remember_focus sid previous)
    (λ _ st', st' = set_sessions (insert sid (s_set_focus_history
        (push_history (λ id, bool_decide (is_Some (nodes st !! id))) previous
           (s_focus_history s)) s)) st)
    (λ _ _, False) st.
Proof.
  intros W Hs. unfold remember_focus. wp_step.
  eapply wp_reads_ok; [by unfold session; rewrite Hs|]. wp_step. apply wp_gets.
  by eapply wp_session_mut.
Qed.

Lemma frame_session_write sid st s s' :
  sessions st !! sid = Some s → scrub_session s' = scrub_session s →
  (∀ leaf, s_focused_leaf s' = Some leaf → s_focused_leaf s = Some leaf ∨ leaf_memory st leaf) →
  (∀ fid, s_focused_floating s' = Some fid →
     s_focused_floating s = Some fid ∨ popup_memory st sid fid) →
  focus_frame sid st (set_sessions (insert sid s') st).
Proof. intros. by eapply frame_session, refocused_session. Qed.

Lemma scrub_focusing_roots st st' r :
  wired st → wired st' → scrub st' = scrub st →
  floating_id_by_root st' r = floating_id_by_root st r.
Proof.
  intros W W' Hs. destruct (floating_id_by_root st r) as [fid|] eqn:Hf.
  - apply (floating_id_by_root_Some W) in Hf as (w & Hw & Hr).
    apply (floating_id_by_root_Some W').
    destruct (scrub_lookup_window Hs _ _ Hw) as (w' & ? & He).
    apply scrub_window_eq in He as (_ & _ & ? & _). exists w'. split; congruence.
  - rewrite (floating_id_by_root_None W) in Hf. apply (floating_id_by_root_None W').
    intros fid w' Hw'. destruct (scrub_lookup_window (eq_sym Hs) _ _ Hw') as (w & Hw & He).
    apply scrub_window_eq in He as (_ & _ & ? & _). specialize (Hf fid w Hw). congruence.
Qed.

Lemma push_history_ext e e' leaf h :
  (∀ id, e id = e' id) → push_history e leaf h = push_history e' leaf h.
Proof.
  intros He. unfold push_history.
  assert (base.filter (λ entry, (negb (entry =? leaf)%N && e entry) = true) h
          = base.filter (λ entry, (negb (entry =? leaf)%N && e' entry) = true) h) as ->; [|done].
  apply list_filter_iff. intros id. by rewrite He.
Qed.

(** The popup a focusable leaf is in belongs to the leaf's session. *)
Lemma owner_popup st sid leaf r fid :
  wired st → focusable st sid leaf r → floating_id_by_root st r = Some fid →
  popup_memory st sid fid.
Proof.
  intros W Hf (w & Hw & Hwr)%(floating_id_by_root_Some W).
  split; [apply (fi_floating _ (wi_fresh _ W)); eauto|]. intros w' Hw'. simplify_eq.
  destruct (root_session _ _ _ _ W Hf) as (n & Hn & Hns).
  destruct (wo_root _ _ _ (wi_window _ W _ _ Hw)) as (m & Hm & _ & <-). congruence.
Qed.

(** The writes of [focus_leaf] before it walks up: afterwards the session
    record is final and the flags are set. *)
Lemma focus_writes_spec sid leaf r st s {B} (k : SM B) Q E :
  wired st → focusable st sid leaf r → sessions st !! sid = Some s →
  (∀ st', focus_frame sid st st' → actives st' = actives st → buffers st' = buffers st →
     (∃ s', sessions st' !! sid = Some s' ∧ s_focused_leaf s' = Some leaf
        ∧ s_focused_floating s' = floating_id_by_root st r
        ∧ s_focus_history s' =
            match s_focused_leaf s with
            | Some previous =>
                if (previous =? leaf)%N then s_focus_history s
                else push_history (λ id, bool_decide (is_Some (nodes st !! id))) previous
                       (s_focus_history s)
            | None => s_focus_history s
            end) →
     (∃ v, nodes st' !! leaf = Some (BufferView v) ∧ focused (v_view v) = true) →
     wp k Q E st') →
  wp (clear_session_focus sid ;;
      set_leaf_focus leaf true ;;
      match s_focused_leaf s with
      | Some previous => when (negb (previous =? leaf)%N) (remember_focus sid previous)
      | None => mret ()
      end ;;
      owner ← reads (λ st, floating_id_for_node st leaf);
      session_mut sid (s_set_focus (Some leaf) owner) ;;
      s ← reads (λ st, session st sid);
      modify (set_floating (update_windows (λ fid w,
          let focused := bool_decide (Some fid = owner) in
          f_set_focus focused (if focused then Some leaf else f_last_focused_leaf w) w)
        (s_floating s))) ;;
      k) Q E st.
Proof.
  intros W Hf Hs Hk. wp_step.
  eapply wp_mono; [by apply clear_session_focus_spec| |done].
  intros _ st1 (F1 & A1 & B1 & S1). pose proof (ff_refocused _ _ _ F1) as R1.
  assert (wired st1) as W1 by by eapply refocused_wired.
  pose proof (focusable_scrub _ _ _ _ _ (rf_scrub _ _ R1) Hf) as Hf1.
  destruct (fc_view _ _ _ _ Hf1) as (v1 & Hv1 & Hvs1). wp_step.
  eapply wp_mono; [by apply (set_leaf_focus_spec sid)| |done].
  intros _ st2 (F2 & A2 & S2 & _ & B2 & Hv2). pose proof (ff_refocused _ _ _ F2) as R2.
  assert (wired st2) as W2 by by eapply refocused_wired.
  assert (∀ id, is_Some (nodes st2 !! id) ↔ is_Some (nodes st !! id)) as Hdom.
  { intros id. rewrite <-!layout_dom.
    by rewrite (scrub_layout (rf_scrub _ _ R2)), (scrub_layout (rf_scrub _ _ R1)). }
  set (h := match s_focused_leaf s with
            | Some previous =>
                if (previous =? leaf)%N then s_focus_history s
                else push_history (λ id, bool_decide (is_Some (nodes st !! id))) previous
                       (s_focus_history s)
            | None => s_focus_history s
            end).
  wp_step. apply wp_mono with (E := λ _ _, False) (Q := λ _ st3,
    focus_frame sid st2 st3 ∧ actives st3 = actives st2 ∧ buffers st3 = buffers st2
    ∧ nodes st3 = nodes st2
    ∧ sessions st3 !! sid = Some (s_set_focus_history h (s_set_focus None None s))); [| |done].
  { assert (sessions st2 !! sid = Some (s_set_focus None None s)) as Hs2.
    { by rewrite S2, S1, lookup_insert_eq. }
    assert (h = s_focus_history s → focus_frame sid st2 st2 ∧ actives st2 = actives st2
      ∧ buffers st2 = buffers st2 ∧ nodes st2 = nodes st2
      ∧ sessions st2 !! sid = Some (s_set_focus_history h (s_set_focus None None s))) as Hsame.
    { by intros ->. }
    destruct (s_focused_leaf s) as [previous|]; [|by apply wp_ret, Hsame]. wp_step.
    { intros Hne. apply negb_true_iff in Hne. subst h. rewrite Hne.
      eapply wp_mono; [by apply remember_focus_spec| |done].
      intros _ st3 ->. split_and!; try done.
      - eapply frame_session_write; [done|by destruct s|done|done].
      - simpl. rewrite lookup_insert_eq. do 2 f_equal. simpl.
        apply push_history_ext. intros id. apply bool_decide_ext, Hdom. }
    intros He. apply negb_false_iff in He. apply Hsame. subst h. by rewrite He. }
  intros _ st3 (F3 & A3 & B3 & N3 & S3). pose proof (ff_refocused _ _ _ F3) as R3.
  assert (wired st3) as W3 by by eapply refocused_wired.
  assert (scrub st3 = scrub st) as Sc3.
  { by rewrite (rf_scrub _ _ R3), (rf_scrub _ _ R2), (rf_scrub _ _ R1). }
  pose proof (focusable_scrub _ _ _ _ _ Sc3 Hf) as Hf3.
  wp_step. eapply (wp_reads_ok _ _ (floating_id_by_root st r)).
  { unfold floating_id_for_node. destruct (fc_root _ _ _ _ Hf3) as [Hb (n & Hn & Hp)].
    destruct (fc_view _ _ _ _ Hf3) as (v3 & Hv3 & _).
    destruct (top_root_spec (wi_forest _ W3) leaf (mk_is_Some _ _ Hv3)) as (q & m & Hq & _).
    rewrite Hq. pose proof (top_is W3 _ _ _ _ Hn Hp Hb Hq) as ->. simpl. f_equal.
    by apply scrub_focusing_roots. }
  wp_step. eapply wp_session_mut; [done|]. wp_step.
  assert (leaf_memory st3 leaf) as Hmem3.
  { apply view_memory; [done|]. destruct (fc_view _ _ _ _ Hf3) as (v3 & ? & _). by exists v3. }
  assert (focus_frame sid st3 (set_sessions (insert sid (s_set_focus (Some leaf)
    (floating_id_by_root st r) (s_set_focus_history h (s_set_focus None None s)))) st3)) as F4.
  { eapply frame_session_write; [done|by destruct s| |].
    - intros leaf' [= <-]. by right.
    - intros fid Hfid. right. eapply scrub_popup_memory; [exact Sc3|].
      by apply (owner_popup st sid leaf r). }
  eapply wp_reads_ok; [by unfold session; simpl; rewrite lookup_insert_eq|]. wp_step.
  apply wp_modify. apply Hk.
  - etrans; [exact F1|]. etrans; [exact F2|]. etrans; [exact F3|]. etrans; [exact F4|].
    split; [|done..]. apply refocused_windows.
    + intros fid w. simpl. by destruct (bool_decide _).
    + by intros fid [].
    + intros fid w leaf'. simpl. case_bool_decide; [|by left]. intros [= <-]. right.
      eapply scrub_leaf_memory; [apply F4|done].
  - change (actives st3 = actives st). congruence.
  - simpl. congruence.
  - eexists. simpl. rewrite lookup_insert_eq. split; [done|]. by destruct s.
  - eexists. simpl. rewrite N3, Hv2. done.
Qed.

(** [focus_leaf]: the guards hold exactly when the leaf is focusable; then it
    succeeds and the leaf has the focus and is on the screen. *)
Lemma focus_leaf_wp sid leaf st :
  wired st → backed st →
  wp (focus_leaf sid leaf)
    (λ _ st', ∃ r, focusable st sid leaf r ∧ focus_post sid leaf r st st')
    (λ _ st', st' = st ∧ ∀ r, ¬ focusable st sid leaf r) st.
Proof.
  intros W B. unfold focus_leaf.
  apply (wp_reads2 _ _ _ _ _ _ _ _ (focus_guards st sid leaf W)); [|done].
  intros _ (r & Hf). destruct (fc_view _ _ _ _ Hf) as (v & Hv & Hvs).
  destruct (fc_session _ _ _ _ Hf) as [s Hs]. wp_step.
  eapply wp_reads_ok. { unfold buffer_view_buffer_id. by rewrite (node_Ok _ _ _ Hv). }
  wp_step. eapply wp_reads_ok; [by unfold session; rewrite Hs|]. cbn beta zeta.
  apply (focus_writes_spec sid leaf r st s); [done..|].
  intros st1 F1 A1 B1 (s1 & Hs1 & Hl1 & Hw1 & Hh1) (v1 & Hv1 & Hfl1).
  pose proof (ff_refocused _ _ _ F1) as R1. pose proof (rf_scrub _ _ R1) as Sc1.
  assert (wired st1) as W1 by by eapply refocused_wired.
  pose proof (focusable_scrub _ _ _ _ _ Sc1 Hf) as Hf1.
  assert (v_session_id v1 = sid) as Hvs1.
  { destruct (fc_view _ _ _ _ Hf1) as (? & ? & ?). congruence. }
  wp_step. apply wp_gets. wp_step.
  eapply wp_mono; [eapply (mark_focus_path_spec sid st1 leaf r)| |done].
  { done. } { by exists v1. } { done. } { done. } { apply Hf1. } { reflexivity. } { reflexivity. }
  intros _ st2 (F2 & S2 & B2 & _ & V2 & Hvis2 & A2).
  pose proof (ff_refocused _ _ _ F2) as R2.
  assert (wired st2) as W2 by by eapply refocused_wired.
  wp_step. eapply wp_mono; [apply set_buffer_activity_spec| |done].
  { rewrite B2, B1. by apply (B leaf). }
  intros _ st3 (K3 & Hidle & _). wp_step.
  assert (wired st3) as W3 by by eapply refocused_wired; [apply K3|].
  eapply wp_mono; [eapply (acknowledge_shown_activity_spec sid st3 s1)| |done].
  { done. }
  { eapply acked_backed; [done|]. intros i vi Hi.
    assert (scrub st2 = scrub st) as Sc2 by by rewrite (rf_scrub _ _ R2).
    destruct (scrub_lookup_node (eq_sym Sc2) _ _ Hi) as (n & Hn & He).
    apply scrub_view_eq in He as (vi' & -> & _ & _ & _ & <-). rewrite B2, B1. by apply (B i). }
  { by rewrite (ak_sessions _ _ K3), S2. }
  intros _ st4 (K4 & _ & Hshown). apply wp_ret. exists r. split; [done|].
  assert (acked st2 st4) as K by by etrans.
  assert (focus_frame sid st st4) as F4.
  { etrans; [exact F1|]. etrans; [exact F2|]. by apply acked_frame. }
  split; [done|..].
  - exists s, s1. rewrite (ak_sessions _ _ K), S2. done.
  - exists v1. rewrite (ak_nodes _ _ K). split; [by apply V2|done].
  - apply (focusable_on_screen st4 sid leaf r).
    + by eapply refocused_wired; [apply K4|].
    + eapply focusable_scrub; [apply F4|done].
    + by rewrite (ak_nodes _ _ K).
  - intros Hos. rewrite (acked_actives _ _ K), A2; [done|].
    destruct (on_screen_focusable st sid leaf W Hos) as (q & Hq & Hvis); [by exists v|eauto|].
    assert (q = r) as -> by (by eapply focusable_unique; [..|apply Hq]).
    apply (visible_from_subrel (nodes st)); [|done].
    intros x y. by apply same_actives_visible.
  - intros Hsh i bid Hos Hsi. apply (Hshown) with (i := i).
    + eapply refocused_shaped; [|done]. etrans; [exact R1|]. etrans; [exact R2|apply K3].
    + revert Hos. unfold on_screen.
      by rewrite (ak_nodes _ _ K4), (ak_sessions _ _ K4), (ak_floating _ _ K4).
    + revert Hsi. unfold shows. by rewrite (ak_nodes _ _ K4).
Qed.
