(* ===== verification/Settle.v ===== *)
(** Settled states: every session's focus is on a visible leaf and its zoomed
    node is visible. Healing the focus and normalizing the zoom settle a
    session; changes local to one session leave the others settled. *)

From stdpp Require Import relations.
From S2P Require Import Prelude Core Model Environment State Queries Buffers Focus.
From S2P Require Import Forest Invariant QueriesSpec FocusSpec.

Definition focus_ok (st : ServerState) (sid : N) (s : Session) : Prop :=
  ∀ leaf, s_focused_leaf s = Some leaf → is_view st leaf ∧ on_screen st sid leaf.
Definition zoom_ok (st : ServerState) (sid : N) (s : Session) : Prop :=
  ∀ id, s_zoomed_node s = Some id → is_Some (nodes st !! id) ∧ on_screen st sid id.

Definition focus_settled (st : ServerState) : Prop :=
  ∀ sid s, sessions st !! sid = Some s → focus_ok st sid s.
Definition zoom_settled (st : ServerState) : Prop :=
  ∀ sid s, sessions st !! sid = Some s → zoom_ok st sid s.
Definition settled (st : ServerState) : Prop := focus_settled st ∧ zoom_settled st.

(** ** Changes local to a session *)

(** The children of a container that are drawn. *)
Definition drawn_children (n : Node) : list N :=
  match n with
  | BufferView _ => []
  | Split s => sp_children s
  | Tabs t => match active_child t with Some c => [c] | None => [] end
  end.

Lemma visible_edge_drawn m p c :
  visible_edge m p c ↔ ∃ n, m !! p = Some n ∧ c ∈ drawn_children n.
Proof.
  split.
  - intros (n & Hn & Hc & Ha). exists n. split; [done|]. destruct n as [v|s|t]; simpl; [done..|].
    rewrite Ha. by left.
  - intros (n & Hn & Hc). exists n. split; [done|]. destruct n as [v|s|t]; simpl in *; [done..|].
    destruct (active_child t) as [d|] eqn:Hd; [|by apply elem_of_nil in Hc].
    apply list_elem_of_singleton in Hc as ->. split; [|done]. by apply (active_child_elem t).
Qed.

Record local_to (sid : N) (st st' : ServerState) : Prop := {
  lo_sessions : ∀ sid', sid' ≠ sid → sessions st' !! sid' = sessions st !! sid';
  lo_nodes : ∀ i n, nodes st !! i = Some n → node_session n ≠ sid →
    ∃ n', nodes st' !! i = Some n' ∧ node_session n' = node_session n
          ∧ drawn_children n' = drawn_children n ∧ is_buffer_view n' = is_buffer_view n;
  lo_windows : ∀ fid w, floating st !! fid = Some w → f_session_id w ≠ sid →
    ∃ w', floating st' !! fid = Some w' ∧ f_session_id w' = f_session_id w
          ∧ f_root_node w' = f_root_node w ∧ f_visible w' = f_visible w
}.

Lemma local_refl sid st : local_to sid st st.
Proof. split; eauto. Qed.
Lemma local_trans sid st1 st2 st3 :
  local_to sid st1 st2 → local_to sid st2 st3 → local_to sid st1 st3.
Proof.
  intros [S1 N1 W1] [S2 N2 W2]. split.
  - intros. rewrite S2, S1; done.
  - intros i n Hn Hne. destruct (N1 i n Hn Hne) as (n2 & Hn2 & E1 & E2 & E3).
    destruct (N2 i n2 Hn2) as (n3 & ? & ? & ? & ?); [congruence|].
    exists n3. split_and!; congruence.
  - intros fid w Hw Hne. destruct (W1 fid w Hw Hne) as (w2 & Hw2 & E1 & E2 & E3).
    destruct (W2 fid w2 Hw2) as (w3 & ? & ? & ? & ?); [congruence|].
    exists w3. split_and!; congruence.
Qed.
#[export] Instance local_preorder sid : PreOrder (local_to sid).
Proof. split; [exact (local_refl sid)|exact (local_trans sid)]. Qed.

Lemma frame_local sid st st' : focus_frame sid st st' → local_to sid st st'.
Proof.
  intros [R Hs Ht]. pose proof (rf_scrub _ _ R) as Hsc. split; [done|..].
  - intros i n Hn Hne. destruct (scrub_lookup_node Hsc _ _ Hn) as (n' & Hn' & He).
    exists n'. split; [done|].
    pose proof (scrub_node_eq _ _ He) as (_ & [= Hns _ Hch] & Hbv). split_and!; try done.
    destruct n as [v|s|t]; [by destruct n'..|]. specialize (Ht i t Hn Hne). by simplify_eq.
  - intros fid w Hw _. destruct (scrub_lookup_window Hsc _ _ Hw) as (w' & Hw' & He).
    apply scrub_window_eq in He as (_ & ? & ? & ?). eauto.
Qed.

Lemma local_on_screen sid sid' st st' i :
  wired st → local_to sid st st' → sid' ≠ sid → on_screen st sid' i → on_screen st' sid' i.
Proof.
  intros W [Ls Ln Lw] Hne (r & Hri & Hr).
  assert (∃ n, nodes st !! r = Some n ∧ node_session n = sid') as (n & Hn & Hns).
  { destruct Hr as [(s & Hss & <-)|(fid & w & Hw & <- & <- & _)].
    - destruct (so_root _ _ _ (wi_session _ W _ _ Hss)) as (t & ? & _ & ?). by exists (Tabs t).
    - destruct (wo_root _ _ _ (wi_window _ W _ _ Hw)) as (m & ? & _ & ?). by exists m. }
  exists r. split.
  - assert (∀ x m, nodes st !! x = Some m → below st r x → node_session m ≠ sid) as Hbelow.
    { intros x m Hx Hrx. rewrite (below_session (wi_forest _ W) r x n m Hn Hx Hrx). congruence. }
    clear Hr Hn Hns. unfold visible_from in *.
    induction Hri as [r|r c j Hrc _ IH]; [reflexivity|].
    eapply rtc_l; [|apply IH].
    + apply visible_edge_drawn in Hrc as (m & Hm & Hc). apply visible_edge_drawn.
      destruct (Ln r m Hm) as (m' & Hm' & _ & Hd & _); [apply (Hbelow r m Hm); reflexivity|].
      exists m'. by rewrite Hd.
    + intros x m Hx Hcx. apply (Hbelow x m Hx). eapply rtc_l; [|done]. by apply visible_edge_edge.
  - destruct Hr as [(s & Hss & Hr)|(fid & w & Hw & Hws & Hr & Hvis)].
    + left. exists s. by rewrite Ls.
    + right. destruct (Lw fid w Hw) as (w' & ? & ? & ? & ?); [congruence|].
      exists fid, w'. split_and!; congruence.
Qed.

Lemma local_focus_ok sid sid' st st' s :
  wired st → local_to sid st st' → sid' ≠ sid → focus_ok st sid' s → focus_ok st' sid' s.
Proof.
  intros W L Hne Hf leaf Hl. destruct (Hf leaf Hl) as [[v Hv] Hos].
  pose proof (on_screen_session W _ _ _ Hv Hos) as Hs. simpl in Hs. split.
  - destruct (lo_nodes _ _ _ L leaf _ Hv) as (n' & ? & _ & _ & ?); [simpl; congruence|].
    destruct n'; try done. by eexists.
  - by eapply local_on_screen.
Qed.

Lemma local_zoom_ok sid sid' st st' s :
  wired st → local_to sid st st' → sid' ≠ sid → zoom_ok st sid' s → zoom_ok st' sid' s.
Proof.
  intros W L Hne Hf id Hl. destruct (Hf id Hl) as [[n Hn] Hos].
  pose proof (on_screen_session W _ _ _ Hn Hos) as Hs. split.
  - destruct (lo_nodes _ _ _ L id _ Hn) as (n' & ? & _); [congruence|]. eauto.
  - by eapply local_on_screen.
Qed.

(** Settling the session a change was local to settles the state. *)
Lemma local_focus_settled sid st st' :
  wired st → local_to sid st st' → focus_settled st →
  (∀ s, sessions st' !! sid = Some s → focus_ok st' sid s) → focus_settled st'.
Proof.
  intros W L Hst Hsid sid' s Hs. destruct (decide (sid' = sid)) as [->|Hne]; [auto|].
  eapply local_focus_ok; [done..|]. apply Hst. by rewrite <-(lo_sessions _ _ _ L).
Qed.
Lemma local_zoom_settled sid st st' :
  wired st → local_to sid st st' → zoom_settled st →
  (∀ s, sessions st' !! sid = Some s → zoom_ok st' sid s) → zoom_settled st'.
Proof.
  intros W L Hst Hsid sid' s Hs. destruct (decide (sid' = sid)) as [->|Hne]; [auto|].
  eapply local_zoom_ok; [done..|]. apply Hst. by rewrite <-(lo_sessions _ _ _ L).
Qed.

(** A focus change that switches no tab shows what was shown. *)
Lemma stable_on_screen st st' sid i :
  wired st → scrub st' = scrub st → actives st' = actives st →
  on_screen st sid i → on_screen st' sid i.
Proof.
  intros W Hs Ha. apply on_screen_change; [done| |done]. intros r n j _ _ _.
  apply visible_from_subrel. intros. by eapply same_actives_visible.
Qed.

Lemma stable_zoom_ok sid st st' s s' :
  wired st → scrub st' = scrub st → actives st' = actives st →
  sessions st !! sid = Some s → sessions st' !! sid = Some s' →
  zoom_ok st sid s → zoom_ok st' sid s'.
Proof.
  intros W Hsc Ha Hs Hs' Hz id Hid.
  destruct (scrub_lookup_session Hsc _ _ Hs) as (s1 & Hs1 & He).
  apply scrub_session_eq in He as (_ & _ & _ & He). assert (s1 = s') as -> by congruence.
  destruct (Hz id) as [[n Hn] Hos]; [congruence|]. split.
  - destruct (scrub_lookup_node Hsc _ _ Hn) as (n' & ? & _). eauto.
  - by eapply stable_on_screen.
Qed.

(** ** Focus candidates in popups *)

Lemma resolve_floating_focus_spec st fid w :
  wired st → remembers st → floating st !! fid = Some w →
  ∃ o, resolve_floating_focus st fid = Ok o ∧
       match o with
       | Some leaf => f_visible w = true ∧ candidate_ok (st:=st) (f_root_node w) (Some leaf)
       | None => f_visible w = true → candidate_ok (st:=st) (f_root_node w) None
       end.
Proof.
  intros W R Hw. pose proof (wi_forest _ W) as F.
  destruct (window_exists W _ _ Hw) as [nr Hnr].
  unfold resolve_floating_focus, floating_window. rewrite Hw. simpl.
  destruct (f_visible w) eqn:Hvis; simpl; [|exists None; split; [done|by intros]].
  assert (∃ o, (match f_last_focused_leaf w with
           | Some leaf =>
               if bool_decide (is_Some (nodes st !! leaf)) then
                 root ← top_root_for_node st leaf;
                 if (root =? f_root_node w)%N then
                   visible ← is_node_visible_from st (f_root_node w) leaf;
                   Ok (if visible : bool then Some leaf else None)
                 else Ok None
               else Ok None
           | None => Ok None
           end) = Ok o ∧ match o with
                         | Some leaf => candidate_ok (st:=st) (f_root_node w) (Some leaf)
                         | None => True end) as (o & -> & Ho).
  { destruct (f_last_focused_leaf w) as [leaf|] eqn:Hl; [|by exists None].
    case_bool_decide as Hex; [|by exists None].
    destruct (top_root_spec F leaf Hex) as (r & n & -> & Hb & Hr & Hp). simpl.
    destruct (N.eqb_spec r (f_root_node w)) as [->|]; [|by exists None].
    destruct (is_node_visible_from_spec F (f_root_node w) leaf (mk_is_Some _ _ Hnr))
      as (b & -> & Hv). simpl. destruct b; [|by exists None]. exists (Some leaf).
    split; [done|]. destruct (re_window _ R _ _ _ Hw Hl) as [_ Hmem]. destruct Hex as [m Hm].
    specialize (Hmem m Hm). split; [|split; [done|by intros _; apply Hv]].
    destruct m; try done. by eexists. }
  simpl. destruct o as [leaf|]; [by exists (Some leaf)|].
  destruct (resolve_focus_candidate_spec F (f_root_node w) R (mk_is_Some _ _ Hnr)) as (o & -> & Ho').
  exists o. split; [done|]. by destruct o.
Qed.

Lemma candidate_focusable_root sid st s leaf :
  wired st → sessions st !! sid = Some s → candidate_ok (st:=st) (s_root_node s) (Some leaf) →
  focusable st sid leaf (s_root_node s).
Proof.
  intros W Hs ([v Hv] & Hb & _). destruct (so_root _ _ _ (wi_session _ W _ _ Hs)) as (t & Ht & Hp & Hts).
  split; [|eauto| |eauto].
  - exists v. split; [done|].
    pose proof (below_session (wi_forest _ W) _ _ _ _ Ht Hv Hb). simpl in *. congruence.
  - split; [done|]. by exists (Tabs t).
Qed.

Lemma candidate_focusable_window st fid w leaf :
  wired st → floating st !! fid = Some w → f_visible w = true →
  candidate_ok (st:=st) (f_root_node w) (Some leaf) →
  focusable st (f_session_id w) leaf (f_root_node w).
Proof.
  intros W Hw Hvis ([v Hv] & Hb & _).
  destruct (wo_root _ _ _ (wi_window _ W _ _ Hw)) as (n & Hn & Hp & Hns).
  destruct (wo_listed _ _ _ (wi_window _ W _ _ Hw)) as (s & Hs & _).
  split; [|eauto| |eauto 6].
  - exists v. split; [done|].
    pose proof (below_session (wi_forest _ W) _ _ _ _ Hn Hv Hb). simpl in *. congruence.
  - split; eauto.
Qed.

(** ** Healing the focus *)

Record healed (sid : N) (st st' : ServerState) : Prop := {
  he_frame : focus_frame sid st st';
  he_actives : actives st' = actives st;
  he_focus : ∃ s', sessions st' !! sid = Some s' ∧ focus_ok st' sid s'
    ∧ (s_focused_leaf s' = None → ∀ leaf, is_view st leaf → ¬ on_screen st sid leaf)
}.

Lemma focus_visible_wp sid st leaf r :
  wired st → backed st → focusable st sid leaf r → visible_from (nodes st) r leaf →
  wp (focus_leaf sid leaf)
    (λ _ st', healed sid st st' ∧ ∃ s', sessions st' !! sid = Some s'
                                        ∧ s_focused_leaf s' = Some leaf)
    (λ _ _, False) st.
Proof.
  intros W B Hf Hv. eapply wp_mono; [by apply focus_leaf_wp|..].
  - intros _ st' (q & Hq & [Hfr (s & s' & Hs & Hs' & Hl & _) (v & Hfl & _) Hos Hst _]).
    split; [|by exists s']. split; [done| |].
    + by apply Hst, (focusable_on_screen _ _ _ r).
    + exists s'. split; [done|]. split; [|congruence]. intros leaf' ?. simplify_eq.
      split; [by exists v|done].
  - intros e st' [_ Hno]. by apply (Hno r).
Qed.

Lemma clear_focus_wp sid st s :
  wired st → sessions st !! sid = Some s →
  (∀ leaf, is_view st leaf → ¬ on_screen st sid leaf) →
  wp (clear_session_focus sid) (λ _ st', healed sid st st') (λ _ _, False) st.
Proof.
  intros W Hs Hnone. eapply wp_mono; [by apply clear_session_focus_spec| |done].
  intros _ st' (Hf & Ha & _ & Hs'). split; [done..|].
  exists (s_set_focus None None s). rewrite Hs', lookup_insert_eq. by split_and!.
Qed.

(** No leaf is on the screen of a session whose candidates are all [None]. *)
Lemma nothing_on_screen sid st s :
  wired st → shaped ∅ st → sessions st !! sid = Some s →
  candidate_ok (st:=st) (s_root_node s) None →
  (∀ fid w, fid ∈ s_floating s → floating st !! fid = Some w → f_visible w = true →
     candidate_ok (st:=st) (f_root_node w) None) →
  ∀ leaf, is_view st leaf → ¬ on_screen st sid leaf.
Proof.
  intros W Sh Hs Hroot Hfl leaf Hl (r & Hv & [(s' & ? & <-)|(fid & w & Hw & Hws & <- & Hvis)]).
  - simplify_eq. by apply (Hroot Sh leaf Hl).
  - destruct (wo_listed _ _ _ (wi_window _ W _ _ Hw)) as (s' & Hs' & Hin & _).
    rewrite Hws, Hs in Hs'. simplify_eq. by apply (Hfl fid w Hin Hw Hvis Sh leaf Hl).
Qed.

Lemma heal_focus_wp U sid st s :
  inv_but ∅ U st → sessions st !! sid = Some s →
  wp (heal_focus sid) (λ _ st', healed sid st st') (λ _ _, False) st.
Proof.
  intros [W Sh A R] Hs. assert (backed st) as B by exact (at_backed _ _ A).
  pose proof (wi_forest _ W) as F. unfold heal_focus. wp_step.
  assert (session st sid = Ok s) as HS by (by unfold session; rewrite Hs).
  eapply wp_reads_ok; [exact HS|]. wp_step.
  assert (∃ o, match s_focused_floating s with
      | Some fid => if bool_decide (is_Some (floating st !! fid))
                    then resolve_floating_focus st fid else Ok None
      | None => Ok None
      end = Ok o ∧ match o with
                   | Some leaf => ∃ r, focusable st sid leaf r ∧ visible_from (nodes st) r leaf
                   | None => True end) as (o & Ho & Hpop).
  { destruct (s_focused_floating s) as [fid|] eqn:Hfid; [|by exists None].
    case_bool_decide as Hex; [|by exists None]. destruct Hex as [w Hw].
    destruct (resolve_floating_focus_spec st fid w W R Hw) as (o & -> & Ho).
    exists o. split; [done|]. destruct o as [leaf|]; [|done]. destruct Ho as [Hvis Hc].
    exists (f_root_node w). split; [|by apply Hc].
    rewrite <-(proj2 (re_popup _ R _ _ _ Hs Hfid) w Hw). by apply (candidate_focusable_window _ fid). }
  eapply wp_reads_ok; [exact Ho|]. destruct o as [leaf|].
  { destruct Hpop as (r & Hf & Hv).
    eapply wp_mono; [by eapply focus_visible_wp| |done]. by intros ?? [? _]. }
  wp_step. eapply (wp_reads_ok _ _ (s_root_node s)); [unfold root_node; by rewrite HS|].
  destruct (resolve_focus_candidate_spec F (s_root_node s) R (root_exists W _ _ Hs))
    as (o2 & Ho2 & Hc2).
  wp_step. eapply wp_reads_ok; [exact Ho2|]. destruct o2 as [leaf|].
  { eapply wp_mono; [eapply focus_visible_wp| |done]; [done..| | |by intros ?? [? _]].
    - by apply candidate_focusable_root.
    - by apply Hc2. }
  wp_step. eapply wp_reads_ok; [exact HS|]. wp_step.
  apply (wp_reads_returns _ _
    (λ o, match o with
     | Some leaf => ∃ r, focusable st sid leaf r ∧ visible_from (nodes st) r leaf
     | None => ∀ fid, fid ∈ s_floating s → ∀ w, floating st !! fid = Some w →
         f_visible w = true → candidate_ok (st:=st) (f_root_node w) None end) (λ _, False)).
  { apply (first_some_returns _ _
      (λ leaf, ∃ r, focusable st sid leaf r ∧ visible_from (nodes st) r leaf)
      (λ fid, ∀ w, floating st !! fid = Some w → f_visible w = true →
         candidate_ok (st:=st) (f_root_node w) None)).
    intros fid Hin. destruct (listed_window W _ _ _ Hs Hin) as (w & Hw & <-).
    destruct (resolve_floating_focus_spec st fid w W R Hw) as (o3 & -> & Ho3). simpl.
    destruct o3 as [leaf|].
    - destruct Ho3 as [Hvis Hc]. exists (f_root_node w).
      split; [by apply (candidate_focusable_window _ fid)|by apply Hc].
    - intros w' ? ?. by simplify_eq; apply Ho3. }
  - intros [leaf|] Hl.
    + destruct Hl as (r & Hf & Hv).
      eapply wp_mono; [by eapply focus_visible_wp| |done]. by intros ?? [? _].
    + apply (clear_focus_wp _ _ s); [done..|]. eapply nothing_on_screen; eauto.
  - done.
Qed.

(** ** Zoom *)

Lemma normalize_zoomed_node_wp sid st s :
  wired st → sessions st !! sid = Some s →
  wp (normalize_zoomed_node sid)
    (λ _ st', ∃ z, st' = set_sessions (insert sid (s_set_zoomed_node z s)) st
                   ∧ zoom_ok st sid (s_set_zoomed_node z s)
                   ∧ (zoom_ok st sid s → z = s_zoomed_node s))
    (λ _ _, False) st.
Proof.
  intros W Hs. unfold normalize_zoomed_node. wp_step.
  eapply wp_reads_ok; [by unfold session; rewrite Hs|]. wp_step.
  assert (∃ z, match s_zoomed_node s with
      | Some id =>
          match nodes st !! id with
          | Some n =>
              if (node_session n =? sid)%N then
                visible ← is_node_visible_in_session st sid id;
                Ok (if visible : bool then Some id else None)
              else Ok None
          | None => Ok None
          end
      | None => Ok None
      end = Ok z ∧ zoom_ok st sid (s_set_zoomed_node z s)
      ∧ (zoom_ok st sid s → z = s_zoomed_node s)) as (z & Hz & Hok & Hkeep); cycle 1.
  { eapply wp_reads_ok; [exact Hz|]. eapply wp_session_mut; [done|]. by exists z. }
  unfold zoom_ok. simpl. destruct (s_zoomed_node s) as [id|]; [|by exists None].
  destruct (nodes st !! id) as [n|] eqn:Hn; cycle 1.
  { exists None. split; [done|]. split; [done|]. intros Hz.
    destruct (Hz id eq_refl) as [[? ?] _]. congruence. }
  destruct (N.eqb_spec (node_session n) sid) as [Hns|Hns]; cycle 1.
  { exists None. split; [done|]. split; [done|]. intros Hz.
    destruct (Hz id eq_refl) as [_ Hos]. by apply (on_screen_session W _ _ _ Hn) in Hos. }
  destruct (is_node_visible_in_session_spec W sid s id n Hs Hn Hns) as (b & -> & Hb). simpl.
  destruct b.
  - exists (Some id). split; [done|]. split; [|done]. intros id' [= <-].
    split; [eauto|by apply Hb].
  - exists None. split; [done|]. split; [done|]. intros Hz.
    destruct (Hz id eq_refl) as [_ Hos]. by apply Hb in Hos.
Qed.

(** ** The consistency every request keeps *)

Record consistent (st : ServerState) : Prop := {
  cs_inv : inv st;
  cs_compact : compact st;
  cs_anchored : anchored st;
  cs_focus : focus_settled st
}.

Lemma consistent_backed st : consistent st → backed st.
Proof. intros [[_ _ A _] _ _ _]. exact (at_backed _ _ A). Qed.

Lemma frame_settled sid st st' :
  wired st → focus_frame sid st st' → focus_settled st →
  (∀ s, sessions st' !! sid = Some s → focus_ok st' sid s) → focus_settled st'.
Proof. intros W Hf. by apply (local_focus_settled sid), frame_local. Qed.

Lemma focus_post_consistent sid leaf r st st' :
  consistent st → focus_post sid leaf r st st' → consistent st'.
Proof.
  intros [I C A S] [Hf (s & s' & Hs & Hs' & Hl & _) (v & Hv & _) Hos _ _].
  pose proof (ff_refocused _ _ _ Hf) as R. split.
  - by eapply refocused_inv.
  - by eapply refocused_compact.
  - by eapply refocused_anchored.
  - eapply frame_settled; [apply I|done..|]. intros s0 ? leaf0 ?. simplify_eq.
    split; [by exists v|done].
Qed.

Lemma healed_consistent sid st st' :
  inv st → compact st → anchored st → (∀ sid' s, sid' ≠ sid → sessions st !! sid' = Some s →
    focus_ok st sid' s) → healed sid st st' → consistent st'.
Proof.
  intros I C A S [Hf Ha (s' & Hs' & Hok & _)]. pose proof (ff_refocused _ _ _ Hf) as R. split.
  - by eapply refocused_inv.
  - by eapply refocused_compact.
  - by eapply refocused_anchored.
  - intros sid' s Hsid'. destruct (decide (sid' = sid)) as [->|Hne]; [by simplify_eq|].
    eapply local_focus_ok; [apply I|by apply frame_local|done|]. apply S; [done|].
    by rewrite <-(ff_sessions _ _ _ Hf).
Qed.

(** Only the focus moved. *)
Definition refocus_kept (st st' : ServerState) : Prop := consistent st' ∧ scrub st' = scrub st.

Lemma focus_leaf_consistent sid leaf st :
  consistent st →
  wp (focus_leaf sid leaf) (λ _, refocus_kept st) (λ _ st', st' = st) st.
Proof.
  intros C. eapply wp_mono; [apply focus_leaf_wp|..].
  - apply C.
  - by apply consistent_backed.
  - intros _ st' (r & _ & Hp). split; [by eapply focus_post_consistent|].
    apply (fp_frame _ _ _ _ _ Hp).
  - by intros e st' [-> _].
Qed.

(** ** Requests that move the focus *)

Lemma show_node_consistent sid i st :
  consistent st → wp (show_node sid i) (λ _, refocus_kept st) (λ _, refocus_kept st) st.
Proof.
  intros C. unfold show_node. wp_step.
  apply wp_reads. destruct (ensure_node_belongs_to st i sid) as [[]|e| |] eqn:Hg; simpl; try done.
  2,3: unfold ensure_node_belongs_to, node in Hg; destruct (nodes st !! i); simpl in Hg;
    [destruct (_ =? _)%N|]; done.
  assert (is_Some (nodes st !! i)) as Hi.
  { unfold ensure_node_belongs_to, node in Hg. by destruct (nodes st !! i). }
  destruct (resolve_focus_candidate_spec (wi_forest _ (in_wired _ _ _ (cs_inv _ C))) i
    (in_remembers _ _ _ (cs_inv _ C)) Hi) as (o & Ho & _).
  wp_step. eapply wp_reads_ok; [exact Ho|]. wp_step. apply wp_lift.
  destruct o as [leaf|]; simpl; [|done].
  eapply wp_mono; [by apply focus_leaf_consistent|done|]. by intros ?? ->.
Qed.

Lemma focus_floating_consistent fid st :
  consistent st → wp (focus_floating fid) (λ _, refocus_kept st) (λ _, refocus_kept st) st.
Proof.
  intros C. unfold focus_floating. wp_step.
  eapply wp_reads_returns; [apply floating_window_returns| |done]. intros w Hw.
  destruct (resolve_floating_focus_spec st fid w (in_wired _ _ _ (cs_inv _ C))
    (in_remembers _ _ _ (cs_inv _ C)) Hw) as (o & Ho & _).
  wp_step. eapply wp_reads_ok; [exact Ho|]. destruct o as [leaf|]; [|done].
  eapply wp_mono; [by apply focus_leaf_consistent|done|]. by intros ?? ->.
Qed.

(** The newest pane of the history that is another pane of the same window. *)
Lemma window_of_leaf_spec st sid s i :
  wired st → sessions st !! sid = Some s → is_Some (nodes st !! i) →
  ∃ o, window_of_leaf st sid i = Ok o ∧
       match o with
       | Some c => edge (layout (nodes st)) (s_root_node s) c ∧ below st c i
       | None => ¬ tc (edge (layout (nodes st))) (s_root_node s) i
       end.
Proof.
  intros W Hs Hi. unfold window_of_leaf, session. rewrite Hs. simpl.
  by apply window_of_leaf_in_spec; [apply wi_forest|].
Qed.

Lemma last_pane_spec sid st :
  wired st → focus_settled st →
  returns (last_pane st sid)
    (λ o, ∀ leaf, o = Some leaf →
       ∃ s focused window, sessions st !! sid = Some s ∧ s_focused_leaf s = Some focused
         ∧ leaf ∈ s_focus_history s ∧ leaf ≠ focused ∧ is_view st leaf
         ∧ edge (layout (nodes st)) (s_root_node s) window
         ∧ below st window leaf ∧ below st window focused)
    (λ e, e = NotFound ∧ sessions st !! sid = None) .
Proof.
  intros W Hset. unfold last_pane, session. destruct (sessions st !! sid) as [s|] eqn:Hs; [|done].
  simpl. destruct (s_focused_leaf s) as [f|] eqn:Hf; [|done].
  destruct (Hset sid s Hs f Hf) as [[vf Hvf] _].
  destruct (window_of_leaf_spec st sid s f W Hs (mk_is_Some _ _ Hvf)) as (o & -> & Ho). simpl.
  destruct o as [window|]; [|done]. destruct Ho as [Hw Hwf].
  eapply returns_mono; [apply (first_some_returns _ _
    (λ leaf, leaf ∈ s_focus_history s ∧ leaf ≠ f ∧ is_view st leaf ∧ below st window leaf)
    (λ _, True) (λ _, False))| |done].
  - intros c Hc. destruct (N.eqb_spec c f) as [->|Hne]; simpl; [done|].
    destruct (nodes st !! c) as [[v|sp|t]|] eqn:Hn; simpl; try done.
    destruct (window_of_leaf_spec st sid s c W Hs (mk_is_Some _ _ Hn)) as (o & -> & Ho). simpl.
    case_bool_decide as He; [|done]. subst o. destruct Ho as [_ ?].
    rewrite elem_of_reverse in Hc. split_and!; [done|done|by exists v|done].
  - intros o Ho leaf ->. destruct Ho as (? & ? & ? & ?). by exists s, f, window.
Qed.

Lemma focus_last_pane_consistent sid st :
  consistent st → wp (focus_last_pane sid) (λ _, refocus_kept st) (λ _, refocus_kept st) st.
Proof.
  intros C. unfold focus_last_pane. wp_step.
  eapply wp_reads_returns; [apply last_pane_spec; [apply (cs_inv _ C)|apply C]| |done]. intros [leaf|] _; [|done].
  eapply wp_mono; [by apply focus_leaf_consistent|done|]. by intros ?? ->.
Qed.

(** ** Selecting a pane of a window in the background *)

(** Only what is visible matters to visibility. *)
Lemma visible_from_kept m m' r i :
  (∀ x n, visible_from m r x → m !! x = Some n →
     ∃ n', m' !! x = Some n' ∧ drawn_children n' = drawn_children n) →
  visible_from m r i → visible_from m' r i.
Proof.
  intros Hk. revert i. apply (rtc_ind_r (λ i, visible_from m' r i) r); [reflexivity|].
  intros x y Hrx Hxy IH. eapply rtc_r; [done|].
  apply visible_edge_drawn in Hxy as (n & Hn & Hy). apply visible_edge_drawn.
  destruct (Hk x n Hrx Hn) as (n' & ? & Hd). exists n'. by rewrite Hd.
Qed.

Lemma mark_pane_path_wp sid st leaf window child :
  wired st → is_view st leaf → below st window child →
  (∀ n, nodes st !! child = Some n → node_session n = sid) → is_Some (nodes st !! child) →
  wp (mark_pane_path (budget st) leaf window child)
    (λ _ st', focus_frame sid st st' ∧ sessions st' = sessions st
              ∧ ∀ x, ¬ below st window x → nodes st' !! x = nodes st !! x)
    (λ _ _, False) st.
Proof.
  intros W Hv Hb Hsid Hex. pose proof (wi_forest _ W) as F. revert Hex Hb Hsid.
  cut (∀ child, is_Some (nodes st !! child) →
    ∀ st1, below st window child → (∀ n, nodes st !! child = Some n → node_session n = sid) →
    focus_frame sid st st1 →
    wp (mark_pane_path (budget st) leaf window child)
      (λ _ st', focus_frame sid st1 st' ∧ sessions st' = sessions st1
              ∧ ∀ x, ¬ below st window x → nodes st' !! x = nodes st1 !! x) (λ _ _, False) st1).
  { intros Hgen ???. by apply Hgen. }
  clear child. apply (walk_up F (λ fuel child,
    ∀ st1, below st window child → (∀ n, nodes st !! child = Some n → node_session n = sid) →
    focus_frame sid st st1 →
    wp (mark_pane_path fuel leaf window child)
      (λ _ st', focus_frame sid st1 st' ∧ sessions st' = sessions st1
              ∧ ∀ x, ¬ below st window x → nodes st' !! x = nodes st1 !! x) (λ _ _, False) st1)).
  intros fuel child n Hn IH st1 Hb Hsid Hf. cbn [mark_pane_path].
  destruct (N.eqb_spec child window) as [->|Hne]; [by apply wp_ret|].
  destruct (below_parent F _ _ _ Hn Hb) as [|(p & Hp & Hwp)]; [done|].
  pose proof (ff_refocused _ _ _ Hf) as R. pose proof (rf_scrub _ _ R) as Hs.
  assert (wired st1) as W1 by by eapply refocused_wired.
  destruct (scrub_lookup_node Hs _ _ Hn) as (n1 & Hn1 & He).
  apply scrub_node_eq in He as (_ & [= Hns Hnp _] & _).
  destruct (parent_exists F _ _ _ Hn Hp) as (m & Hm & Hin).
  destruct (child_exists F _ _ _ Hm Hin) as (n' & Hn' & _ & Hms).
  assert (node_session m = sid) as Hmsid.
  { rewrite <-Hms. apply Hsid. congruence. }
  destruct (scrub_lookup_node Hs _ _ Hm) as (m1 & Hm1 & He).
  apply scrub_node_eq in He as (_ & [= Hms1 _ _] & _).
  wp_step. eapply (wp_reads_ok _ _ (Some p)).
  { unfold node_parent. rewrite (node_Ok _ _ _ Hn1). simpl. congruence. }
  wp_step. apply wp_lift. simpl. wp_step. eapply wp_node_mut; [done|].
  assert (focus_frame sid st1 (set_nodes (insert p (mark_focused leaf child m1)) st1)) as F1.
  { eapply frame_node; [done|congruence|]. apply refocused_mark; [done| |done].
    by eapply refocused_view. }
  eapply wp_mono; [apply (IH p Hp)| |done].
  - done.
  - intros; congruence.
  - by etrans.
  - intros _ st' (F2 & E2 & K2). split; [by etrans|]. split; [done|].
    intros x Hx. rewrite K2 by done. simpl. apply lookup_insert_ne. congruence.
Qed.

Lemma select_pane_consistent sid leaf st :
  consistent st → wp (select_pane sid leaf) (λ _, refocus_kept st) (λ _, refocus_kept st) st.
Proof.
  intros C. pose proof (in_wired _ _ _ (cs_inv _ C)) as W. pose proof (wi_forest _ W) as F.
  unfold select_pane. apply (wp_reads2 _ _ _ _ _ _ _ _ (focus_guards st sid leaf W)); [|done].
  intros _ (r & Hf). destruct (fc_view _ _ _ _ Hf) as (v & Hv & Hvs).
  destruct (fc_session _ _ _ _ Hf) as [s Hs]. wp_step.
  eapply wp_reads_ok; [by unfold session; rewrite Hs|]. wp_step.
  destruct (window_of_leaf_spec st sid s leaf W Hs (mk_is_Some _ _ Hv)) as (o & Ho & Hw).
  eapply wp_reads_ok; [exact Ho|]. wp_step.
  apply wp_mono with (E := λ _ _, False)
    (Q := λ h st', st' = st ∧ ∀ w, h = Some w → o = Some w
            ∧ ¬ visible_from (nodes st) (s_root_node s) w); [| |done].
  { destruct o as [w|]; [|by apply wp_ret]. destruct (negb _); [|by apply wp_ret].
    destruct (is_node_visible_from_spec F (s_root_node s) w (root_exists W _ _ Hs)) as (b & Hb & Hvis).
    wp_step. eapply wp_reads_ok; [exact Hb|]. apply wp_ret. split; [done|].
    intros w' Hw'. destruct b; [done|]. simplify_eq. split; [done|]. by intros ?%Hvis. }
  intros [w|] st1 [-> Hh]; cycle 1.
  { eapply wp_mono; [by apply focus_leaf_consistent|done|]. by intros ?? ->. }
  destruct (Hh w eq_refl) as [-> Hhid]. destruct Hw as [Hrw Hwl].
  wp_step. apply wp_gets. eapply wp_mono; [eapply (mark_pane_path_wp sid)| |done].
  { done. } { by exists v. } { done. } { intros; simplify_eq/=; done. } { eauto. }
  intros _ st' (Hfr & Es & Hk). pose proof (ff_refocused _ _ _ Hfr) as R.
  split; [|apply R]. split.
  - eapply refocused_inv; [done|apply C].
  - eapply refocused_compact; [done|apply C].
  - eapply refocused_anchored; [done|apply C].
  - eapply frame_settled; [done..|apply C|]. intros s' Hs' leaf' Hl'. rewrite Es in Hs'.
    destruct (cs_focus _ C sid s' Hs' leaf' Hl') as [Hview Hos]. simplify_eq.
    split; [by eapply refocused_view|]. revert Hos. apply on_screen_change; [apply R| |done].
    intros q nq i Hq Hqp Hqs. apply visible_from_kept. intros x n Hqx Hx.
    exists n. split; [|done]. rewrite Hk; [done|]. intros Hwx. apply Hhid.
    destruct (so_root _ _ _ (wi_session _ W _ _ Hs)) as (t & Ht & Htp & _).
    assert (below st (s_root_node s) w) as Hrw' by by apply rtc_once.
    assert (q = s_root_node s) as ->.
    { apply (top_unique F q (s_root_node s) x); [apply layout_is_root; eauto..| |].
      - by apply visible_below.
      - by etrans. }
    by destruct (visible_split st _ w x F Hqx Hrw' Hwx).
Qed.

