(* ===== verification/Surgery.v ===== *)
(** Which panes exist, which buffers they show and what is recorded of the
    buffers: what rearranging a layout leaves alone. *)

From stdpp Require Import relations.
From S2P Require Import Prelude Core Model Environment State Queries Buffers Focus.
From S2P Require Import Tree Forest Invariant QueriesSpec FocusSpec Settle.

(** The session and the buffer of every pane. *)
Definition pane (n : Node) : option (N * N) := (λ bid, (node_session n, bid)) <$> view_buffer n.
Definition views (st : ServerState) : gmap N (N * N) := omap pane (nodes st).

(** A buffer's record, without its view and its activity. *)
Definition bare (b : Buffer) : Buffer :=
  b_set_attachment Detached (b_ever_attached b) (scrub_buffer b).
Definition records (st : ServerState) : gmap N Buffer := bare <$> buffers st.

Definition allocators (st : ServerState) : N * N * N * N :=
  (session_ids st, buffer_ids st, node_ids st, floating_ids st).

(** No pane came or went, and no id was handed out. *)
Record calm (st st' : ServerState) : Prop := {
  ca_views : views st' = views st;
  ca_records : records st' = records st;
  ca_sessions : dom (sessions st') = dom (sessions st);
  ca_ids : allocators st' = allocators st
}.

Lemma calm_refl st : calm st st.
Proof. done. Qed.
Lemma calm_trans st1 st2 st3 : calm st1 st2 → calm st2 st3 → calm st1 st3.
Proof. intros [] []. split; congruence. Qed.
#[export] Instance calm_preorder : PreOrder calm.
Proof. split; [exact calm_refl|exact calm_trans]. Qed.

Lemma views_lookup st i : views st !! i = nodes st !! i ≫= pane.
Proof. apply lookup_omap. Qed.

Lemma views_Some st i sid bid :
  views st !! i = Some (sid, bid) ↔
    ∃ v, nodes st !! i = Some (BufferView v) ∧ v_session_id v = sid ∧ v_buffer_id v = bid.
Proof.
  rewrite views_lookup. destruct (nodes st !! i) as [[v|s|t]|]; simpl; [|naive_solver..].
  unfold pane, view_buffer. simpl. naive_solver.
Qed.

Lemma view_pane st i v :
  nodes st !! i = Some (BufferView v) → views st !! i = Some (v_session_id v, v_buffer_id v).
Proof. intros Hv. apply views_Some. eauto. Qed.

Lemma views_None st i :
  views st !! i = None ↔ ∀ v, nodes st !! i ≠ Some (BufferView v).
Proof.
  rewrite views_lookup. destruct (nodes st !! i) as [[v|s|t]|]; simpl; [|naive_solver..].
  unfold pane, view_buffer. simpl. naive_solver.
Qed.

Lemma calm_nodes st m' :
  (∀ i, m' !! i ≫= pane = nodes st !! i ≫= pane) →
  calm st (set_nodes (λ _, m') st).
Proof.
  intros Hm. split; try done. apply map_eq. intros i. rewrite !views_lookup. apply Hm.
Qed.

Lemma calm_insert st i n n' :
  nodes st !! i = Some n → pane n' = pane n →
  calm st (set_nodes (insert i n') st).
Proof.
  intros Hi He. apply (calm_nodes st (<[i:=n']> (nodes st))). intros j. rewrite lookup_insert.
  case_decide; [|done]. subst. by rewrite Hi.
Qed.

Lemma calm_delete st i n :
  nodes st !! i = Some n → is_buffer_view n = false → calm st (set_nodes (delete i) st).
Proof.
  intros Hi He. apply (calm_nodes st (delete i (nodes st))). intros j. rewrite lookup_delete.
  case_decide; [|done]. subst. rewrite Hi. by destruct n.
Qed.

Lemma calm_scrub st st' : scrub st' = scrub st → calm st st'.
Proof.
  intros Hs. destruct (scrub_parts Hs) as (Es & Eb & En & _ & E1 & E2 & E3 & E4). split.
  - apply map_eq. intros i. rewrite !views_lookup. apply (f_equal (lookup i)) in En.
    rewrite !lookup_fmap in En. destruct (nodes st' !! i) as [n'|], (nodes st !! i) as [n|]; try done.
    injection En as En. destruct n as [v|s|t], n' as [v'|s'|t']; try done. simpl.
    unfold pane, view_buffer. simpl. by injection En as _ -> _ ->.
  - apply map_eq. intros i. apply (f_equal (lookup i)) in Eb. unfold records.
    rewrite !lookup_fmap in *. destruct (buffers st' !! i) as [b'|], (buffers st !! i) as [b|]; try done.
    simpl in Eb. apply (inj Some) in Eb. pose proof (f_equal b_ever_attached Eb) as He.
    simpl in *. unfold bare. by rewrite Eb, He.
  - by rewrite <-(dom_fmap_L scrub_session (sessions st')), Es, dom_fmap_L.
  - unfold allocators. congruence.
Qed.

(** The panes in [D] went, with no other change to panes and records; the
    layout may have taken up to [k] new ids for its containers. *)
Record removed (D : N → Prop) (k : N) (st st' : ServerState) : Prop := {
  rm_views : ∀ i, ¬ D i → views st' !! i = views st !! i;
  rm_gone : ∀ i, D i → views st' !! i = None;
  rm_records : records st' = records st;
  rm_ids : session_ids st' = session_ids st ∧ buffer_ids st' = buffer_ids st
    ∧ (node_ids st ≤ node_ids st' ≤ node_ids st + k)%N ∧ floating_ids st' = floating_ids st
}.

Lemma removed_calm D k st st1 st2 : removed D k st st1 → calm st1 st2 → removed D k st st2.
Proof.
  intros [V G R (? & ? & ? & ?)] [V' R' _ [=]].
  split; [by rewrite V'..|congruence|]. split_and!; lia || congruence.
Qed.

Lemma calm_removed D k st st1 st2 : calm st st1 → removed D k st1 st2 → removed D k st st2.
Proof.
  intros [V' R' _ [=]] [V G R (? & ? & ? & ?)]. split; [|done|congruence|].
  - intros i Hi. rewrite V by done. by rewrite V'.
  - split_and!; lia || congruence.
Qed.

Lemma removed_ext D D' k st st' : (∀ i, D i ↔ D' i) → removed D k st st' → removed D' k st st'.
Proof.
  intros He [V G R I]. split; [| |done|done].
  - intros i Hi. apply V. by rewrite He.
  - intros i Hi. apply G. by rewrite He.
Qed.

Lemma removed_more D k k' st st' : (k ≤ k')%N → removed D k st st' → removed D k' st st'.
Proof. intros He [V G R (? & ? & ? & ?)]. split; [done..|]. split_and!; lia || done. Qed.

(** The tree surgery of [Tree.v] on forests: what unlinking, pruning, linking
    and splicing do to the node map, and that they keep it a forest. *)

(** ** Pruning *)

Definition detached (b : Buffer) : Buffer := b_set_attachment Detached (b_ever_attached b) b.

(** The buffer loses its view when the nodes in [D] go. *)
Definition dropped (D : N → Prop) (st : ServerState) (bid : N) (b : Buffer) : Prop :=
  ∃ i, D i ∧ shows st i bid ∧ b_attachment b = Attached i.

(** [st'] is [st] without the nodes in [D]; their buffers are detached. *)
Record pruned (D : N → Prop) (st st' : ServerState) : Prop := {
  pr_gone : ∀ i, D i → nodes st' !! i = None;
  pr_kept : ∀ i, ¬ D i → nodes st' !! i = nodes st !! i;
  pr_buffer : ∀ bid b, buffers st !! bid = Some b →
    ∃ b', buffers st' !! bid = Some b'
          ∧ (dropped D st bid b ∧ b' = detached b ∨ ¬ dropped D st bid b ∧ b' = b);
  pr_no_buffer : ∀ bid, buffers st !! bid = None → buffers st' !! bid = None;
  pr_frame : ∃ bs ns, st' = set_buffers (λ _, bs) (set_nodes (λ _, ns) st)
}.

Lemma pruned_ext D D' st st' : (∀ i, D i ↔ D' i) → pruned D st st' → pruned D' st st'.
Proof.
  intros He [G K B N0 Fr]. split.
  - intros i Hi. by apply G, He.
  - intros i Hi. apply K. by rewrite He.
  - intros bid b Hb. destruct (B bid b Hb) as (b' & Hb' & Hor). exists b'. split; [done|].
    unfold dropped in *. setoid_rewrite <-He. done.
  - done.
  - done.
Qed.

Lemma pruned_nothing st : pruned (λ _, False) st st.
Proof.
  split; [done|done| |done|].
  - intros bid b Hb. exists b. split; [done|]. right. split; [|done]. by intros (? & ? & _).
  - exists (buffers st), (nodes st). by destruct st.
Qed.

Lemma pruned_trans D1 D2 st st1 st2 :
  (∀ i, D1 i → D2 i → False) → pruned D1 st st1 → pruned D2 st1 st2 →
  pruned (λ i, D1 i ∨ D2 i) st st2.
Proof.
  intros Hdis [G1 K1 B1 N1 (bs1 & ns1 & E1)] [G2 K2 B2 N2 (bs2 & ns2 & E2)]. split.
  - intros i [Hi|Hi]; [|by apply G2]. rewrite K2; [by apply G1|]. intros ?. by eapply Hdis.
  - intros i Hi. rewrite K2 by naive_solver. apply K1. naive_solver.
  - intros bid b Hb. destruct (B1 bid b Hb) as (b1 & Hb1 & Hor1).
    destruct (B2 bid b1 Hb1) as (b2 & Hb2 & Hor2). exists b2. split; [done|].
    assert (dropped (λ i, D1 i ∨ D2 i) st bid b ↔ dropped D1 st bid b ∨ dropped D2 st bid b)
      as Hor by (unfold dropped; naive_solver).
    assert (dropped D2 st1 bid b ↔ dropped D2 st bid b) as H12.
    { assert (∀ i, D2 i → shows st1 i bid ↔ shows st i bid) as Hsh.
      { intros i Hi. unfold shows. rewrite K1; [done|]. intros ?. by eapply Hdis. }
      split; intros (i & Hi & Hs & Ha); exists i; (split; [done|split; [by apply Hsh|done]]). }
    rewrite Hor. destruct Hor1 as [[Hd1 ->]|[Hd1 ->]].
    + destruct Hor2 as [[(i & _ & _ & [=]) _]|[_ ->]]. left. auto.
    + rewrite H12 in Hor2. destruct Hor2 as [[? ->]|[? ->]]; [left; auto|right].
      split; [|done]. naive_solver.
  - intros bid Hb. by apply N2, N1.
  - exists bs2, ns2. by rewrite E2, E1.
Qed.

Lemma detach_if_spec st i v :
  wp (detach_buffer_if_attached_to (v_buffer_id v) i)
    (λ _ st', nodes st' = nodes st
       ∧ (∀ bid b, buffers st !! bid = Some b → buffers st' !! bid =
            Some (if bool_decide (bid = v_buffer_id v ∧ b_attachment b = Attached i)
                  then detached b else b))
       ∧ (∀ bid, buffers st !! bid = None → buffers st' !! bid = None)
       ∧ ∃ bs, st' = set_buffers (λ _, bs) st) (λ _ _, False) st.
Proof.
  unfold detach_buffer_if_attached_to. wp_step. apply wp_gets.
  assert (st = set_buffers (λ _, buffers st) st) as Hst by by destruct st.
  destruct (buffers st !! v_buffer_id v) as [b|] eqn:Hb.
  - wp_step.
    + intros Ha%bool_decide_eq_true. eapply wp_buffer_mut; [done|]. simpl.
      split_and!; [done|..|eauto].
      * intros bid b' Hb'. rewrite lookup_insert. case_decide as He.
        -- subst. simplify_eq. rewrite bool_decide_true; done.
        -- rewrite Hb', bool_decide_false; [done|]. by intros [-> _].
      * intros bid Hbid. rewrite lookup_insert_ne; [done|]. congruence.
    + intros Ha%bool_decide_eq_false. split_and!; [done| |done|eauto].
      intros bid b' Hb'. rewrite bool_decide_false; [done|]. intros [-> ?]. congruence.
  - wp_step. split_and!; [done| |done|eauto].
    intros bid b' Hb'. rewrite bool_decide_false; [done|]. intros [-> ?]. congruence.
Qed.

(** Removing one node whose children are gone. *)
Lemma remove_one_wp st i n :
  wired st ∨ (∀ v, n = BufferView v → v_id v = i) → nodes st !! i = Some n →
  wp (match n with
      | BufferView v => detach_buffer_if_attached_to (v_buffer_id v) (v_id v)
      | _ => mret ()
      end ;; remove_node i) (λ _ st', pruned (λ j, j = i) st st') (λ _ _, False) st.
Proof.
  intros Hid Hi. wp_step.
  assert (∀ v, n = BufferView v → v_id v = i) as Hv.
  { destruct Hid as [W|?]; [|done]. intros v ->. by apply (wi_node_id _ W) in Hi. }
  apply wp_mono with (E := λ _ _, False) (Q := λ _ st1, nodes st1 = nodes st
    ∧ (∀ bid b, buffers st !! bid = Some b → ∃ b', buffers st1 !! bid = Some b'
         ∧ (dropped (λ j, j = i) st bid b ∧ b' = detached b
            ∨ ¬ dropped (λ j, j = i) st bid b ∧ b' = b))
    ∧ (∀ bid, buffers st !! bid = None → buffers st1 !! bid = None)
    ∧ ∃ bs, st1 = set_buffers (λ _, bs) st); [| |done].
  - assert (∀ bid b, (∀ v, n ≠ BufferView v) → ¬ dropped (λ j, j = i) st bid b) as Hnd.
    { intros bid b Hn (j & -> & (v & Hj & _) & _). apply (Hn v). congruence. }
    destruct n as [v|s|t].
    + rewrite (Hv v eq_refl). eapply wp_mono; [apply detach_if_spec| |done].
      intros _ st1 (En & Hb & Hnb & Hbs). split_and!; [done| |done|done].
      intros bid b Hbid. rewrite (Hb bid b Hbid). eexists. split; [done|].
      case_bool_decide as Hc.
      * left. split; [|done]. destruct Hc as [-> ?]. exists i. split_and!; [done| |done]. by exists v.
      * right. split; [|done]. intros (j & -> & (v' & Hj & <-) & ?). simplify_eq. by apply Hc.
    + apply wp_ret. split_and!; [done| |done|exists (buffers st); by destruct st].
      intros bid b Hb. exists b. split; [done|]. right. split; [|done]. by apply Hnd.
    + apply wp_ret. split_and!; [done| |done|exists (buffers st); by destruct st].
      intros bid b Hb. exists b. split; [done|]. right. split; [|done]. by apply Hnd.
  - intros _ st1 (En & Hb & Hnb & bs & ->). apply wp_modify. simpl in *. split; simpl; try done.
    + intros j ->. apply lookup_delete_eq.
    + intros j Hj. by apply lookup_delete_ne.
    + exists bs, (delete i (nodes st)). done.
Qed.

Lemma remove_subtree_in_wp st0 i :
  wired st0 → is_Some (nodes st0 !! i) →
  ∀ st, (∀ j, below st0 i j → nodes st !! j = nodes st0 !! j) →
  wp (remove_subtree_nodes_in (budget st0) i) (λ _ st', pruned (below st0 i) st st')
    (λ _ _, False) st.
Proof.
  intros W. pose proof (wi_forest _ W) as F.
  apply (walk_down F (λ fuel i, ∀ st, (∀ j, below st0 i j → nodes st !! j = nodes st0 !! j) →
    wp (remove_subtree_nodes_in fuel i) (λ _ st', pruned (below st0 i) st st') (λ _ _, False) st)).
  intros fuel j n Hj IH st Hag. cbn [remove_subtree_nodes_in].
  assert (nodes st !! j = Some n) as Hj' by (by rewrite Hag).
  wp_step. eapply wp_reads_ok; [by apply node_Ok|]. wp_step.
  assert (∀ c, c ∈ child_ids n → edge (layout (nodes st0)) j c) as Hedge.
  { intros c Hc. apply layout_edge. eauto. }
  assert (∀ c k, c ∈ child_ids n → below st0 c k → below st0 j k) as Hdown.
  { intros c k Hc ?. eapply rtc_l; [by apply Hedge|done]. }
  assert (∀ c k, c ∈ child_ids n → below st0 c k → k ≠ j) as Hnotj.
  { intros c k Hc Hck ->. apply (acyclic F j). eapply tc_rtc_r; [constructor; by apply Hedge|done]. }
  apply wp_mono with (E := λ _ _, False)
    (Q := λ _ st1, pruned (λ k, ∃ c, c ∈ child_ids n ∧ below st0 c k) st st1); [| |done].
  - apply (wp_for_each _ _ (λ dn st1, pruned (λ k, ∃ c, c ∈ dn ∧ below st0 c k) st st1)).
    + intros dn c rest st1 Heq Hp. assert (c ∈ child_ids n) as Hc by (rewrite Heq; set_solver).
      pose proof (children_nodup _ _ _ W Hj) as Hnd. rewrite Heq in Hnd.
      assert (∀ k d, d ∈ dn → below st0 d k → ¬ below st0 c k) as Hdis.
      { intros k d Hd Hdk Hck. assert (d ∈ child_ids n) as Hdn by (rewrite Heq; set_solver).
        assert (d ≠ c) as Hne.
        { intros ->. apply NoDup_app in Hnd as (_ & Hnd & _). apply (Hnd c Hd). by left. }
        destruct (reach_comparable F d c k Hdk Hck) as [Hdc|Hcd].
        - destruct (child_exists F _ _ _ Hj Hc) as (mc & Hmc & Hpc & _).
          destruct (below_parent F _ _ _ Hmc Hdc) as [|(q & Hq & Hdq)]; [congruence|].
          simplify_eq. by apply (Hnotj d j Hdn Hdq).
        - destruct (child_exists F _ _ _ Hj Hdn) as (md & Hmd & Hpd & _).
          destruct (below_parent F _ _ _ Hmd Hcd) as [|(q & Hq & Hcq)]; [congruence|].
          simplify_eq. by apply (Hnotj c j Hc Hcq). }
      eapply wp_mono; [apply (IH c Hc)| |done].
      * intros k Hck. rewrite (pr_kept _ _ _ Hp), Hag; [done|by eapply Hdown|].
        intros (d & Hd & Hdk). by eapply Hdis.
      * intros [] st2 Hp2. eapply pruned_ext; [|eapply (pruned_trans _ _ _ _ _ _ Hp Hp2)].
        intros k. simpl. setoid_rewrite elem_of_app. setoid_rewrite list_elem_of_singleton.
        naive_solver.
        Unshelve. intros k (d & Hd & Hdk) Hck. by eapply Hdis.
    + eapply pruned_ext; [|apply pruned_nothing]. intros k. split; [done|].
      by intros (c & ?%elem_of_nil & _).
  - intros _ st1 Hp. wp_step.
    assert (nodes st1 !! j = Some n) as Hj1.
    { rewrite (pr_kept _ _ _ Hp); [done|]. intros (c & Hc & Hck). by eapply Hnotj. }
    eapply wp_reads_ok; [by apply node_Ok|].
    eapply wp_mono; [apply (remove_one_wp st1 j n); [|done]| |done].
    + right. intros v ->. by apply (wi_node_id _ W _ _ Hj).
    + intros [] st2 Hp2.
      eapply pruned_ext; [|eapply (pruned_trans _ _ _ _ _ _ Hp Hp2)].
      intros k. simpl. split.
      * intros [(c & Hc & ?)| ->]; [by eapply Hdown|reflexivity].
      * intros Hjk. apply (below_inv _ n) in Hjk; [|done]. naive_solver.
      Unshelve. intros k (c & Hc & Hck) ->. by eapply Hnotj.
Qed.

Lemma remove_subtree_wp st i :
  wired st → is_Some (nodes st !! i) →
  wp (remove_subtree_nodes i) (λ _ st', pruned (below st i) st st') (λ _ _, False) st.
Proof.
  intros W Hi. unfold remove_subtree_nodes. wp_step. apply wp_gets.
  by apply remove_subtree_in_wp.
Qed.

(** ** Dropping a tree nobody owns *)

Section prune_facts.
Context {st st' : ServerState} {r : N} {nr : Node}.
Context (W : wired st) (Hr : nodes st !! r = Some nr) (Hp : parent nr = None).
Context (Hfree : ¬ owned_root st r) (P : pruned (below st r) st st').
Let F : forest (layout (nodes st)) := wi_forest _ W.

Lemma prune_parts :
  sessions st' = sessions st ∧ floating st' = floating st ∧ session_ids st' = session_ids st
  ∧ buffer_ids st' = buffer_ids st ∧ node_ids st' = node_ids st
  ∧ floating_ids st' = floating_ids st.
Proof. by destruct (pr_frame _ _ _ P) as (bs & ns & ->). Qed.

Lemma prune_node i n : nodes st' !! i = Some n → nodes st !! i = Some n ∧ ¬ below st r i.
Proof.
  intros Hi. destruct (reach_or_not F r i) as [Hb|Hb].
  - by rewrite (pr_gone _ _ _ P) in Hi.
  - by rewrite <-(pr_kept _ _ _ P).
Qed.

Lemma prune_buffer bid b' :
  buffers st' !! bid = Some b' →
  ∃ b, buffers st !! bid = Some b ∧ b_id b' = b_id b
       ∧ (b' = b ∧ ¬ dropped (below st r) st bid b ∨ b_attachment b' = Detached).
Proof.
  intros Hb'. destruct (buffers st !! bid) as [b|] eqn:Hb; cycle 1.
  { apply (pr_no_buffer _ _ _ P) in Hb. congruence. }
  destruct (pr_buffer _ _ _ P bid b Hb) as (b2 & Hb2 & Hor). simplify_eq.
  exists b. split; [done|]. destruct Hor as [[? ->]|[? ->]]; [|by auto].
  split; [by destruct b|]. by right.
Qed.

(** Roots that are owned are not in the tree. *)
Lemma owned_kept q n :
  nodes st !! q = Some n → parent n = None → owned_root st q → nodes st' !! q = Some n.
Proof.
  intros Hq Hqp Ho. rewrite (pr_kept _ _ _ P); [done|]. intros Hb.
  pose proof (root_below W q q n Hq Hqp). apply Hfree.
  assert (r = q) as ->; [|done]. apply (reach_to_root F); [|done]. apply layout_is_root. eauto.
Qed.

Lemma prune_wired : wired st'.
Proof.
  destruct prune_parts as (Es & Ef & E1 & E2 & E3 & E4). split.
  - apply (forest_prune F r).
    + apply layout_is_root. eauto.
    + intros i Hi. by rewrite layout_lookup, (pr_gone _ _ _ P).
    + intros i Hi. by rewrite !layout_lookup, (pr_kept _ _ _ P).
    + intros i. apply (reach_or_not F r i).
  - intros i n [Hi _]%prune_node. by apply (wi_node_id _ W).
  - intros i b' (b & Hb & -> & _)%prune_buffer. by apply (wi_buffer_id _ W).
  - intros sid s. rewrite Es. intros Hs.
    destruct (wi_session _ W _ _ Hs) as [Sid (t & Ht & Htp & Hts) Snd Sfl].
    split; [done| |done|by rewrite Ef]. exists t. split; [|done].
    apply owned_kept; [done..|]. left. eauto.
  - intros fid w. rewrite Ef. intros Hw.
    destruct (wi_window _ W _ _ Hw) as [Wid (n & Hn & Hnp & Hns) Wl Wv].
    split; [done| |by rewrite Es|done]. exists n. split; [|done].
    apply owned_kept; [done..|]. right. eauto.
  - rewrite Ef. apply W.
  - destruct (wi_fresh _ W) as [F1 F2 F3 F4]. split; intros i; rewrite ?Es, ?Ef, ?E1, ?E2, ?E3, ?E4.
    + apply F1.
    + intros [b' (b & Hb & _)%prune_buffer]. apply F2. eauto.
    + intros [n [Hn _]%prune_node]. apply F3. eauto.
    + apply F4.
Qed.

Lemma prune_shaped D : shaped D st → shaped D st'.
Proof. intros S i n [Hi _]%prune_node. by apply S. Qed.

Lemma prune_attached U : attached_but U st → attached_but U st'.
Proof.
  intros A. split.
  - intros i v [Hi _]%prune_node. destruct (at_backed _ _ A i v Hi) as [b Hb].
    destruct (pr_buffer _ _ _ P _ _ Hb) as (b' & ? & _). eauto.
  - intros i v [Hi Hb]%prune_node HU. destruct (at_view _ _ A i v Hi HU) as (b & Hbid & Ha).
    destruct (pr_buffer _ _ _ P _ _ Hbid) as (b' & Hb' & [[(j & Hj & _ & Hja) _]|[_ ->]]).
    + assert (j = i) as -> by congruence. done.
    + eauto.
  - intros bid b' i Hb' Ha. destruct (prune_buffer _ _ Hb') as (b & Hb & _ & [[-> Hnd]|?]);
      [|congruence].
    destruct (at_buffer _ _ A bid b i Hb Ha) as (v & Hv & Hvb). exists v. split; [|done].
    rewrite (pr_kept _ _ _ P); [done|]. intros Hri. apply Hnd. exists i. split_and!; [done| |done].
    by exists v.
Qed.

Lemma prune_remembers : remembers st → remembers st'.
Proof.
  destruct prune_parts as (Es & Ef & _ & _ & E3 & E4).
  assert (∀ leaf, leaf_memory st leaf → leaf_memory st' leaf) as Hm.
  { intros leaf [Hlt Hv]. split; [by rewrite E3|]. intros n [Hn _]%prune_node. by apply Hv. }
  intros [R1 R2 R3 R4]. split.
  - intros i n leaf [Hn _]%prune_node Hl. by eapply Hm, R1.
  - rewrite Ef. intros. by eapply Hm, R2.
  - rewrite Es. intros. by eapply Hm, R3.
  - rewrite Es. unfold popup_memory. rewrite Ef, E4. apply R4.
Qed.

Lemma prune_inv D U : inv_but D U st → inv_but D U st'.
Proof.
  intros [_ S A R]. split; [apply prune_wired|by apply prune_shaped|by apply prune_attached|].
  by apply prune_remembers.
Qed.

Lemma prune_compact D : compact_but D st → compact_but D st'.
Proof. intros C i t [Hi _]%prune_node. by apply C. Qed.

Lemma prune_owned q : owned_root st' q ↔ owned_root st q.
Proof. destruct prune_parts as (Es & Ef & _). unfold owned_root. by rewrite Es, Ef. Qed.

Lemma prune_anchored X : anchored_but ({[r]} ∪ X) st → anchored_but X st'.
Proof.
  intros A i n [Hi Hb]%prune_node Hn HX. apply prune_owned. apply (A i n Hi Hn).
  rewrite elem_of_union, elem_of_singleton. intros [->|?]; [|done]. by apply Hb.
Qed.

Lemma prune_local sid : node_session nr = sid → local_to sid st st'.
Proof.
  intros Hsid. destruct prune_parts as (Es & Ef & _). split.
  - by rewrite Es.
  - intros i n Hi Hne. exists n. split; [|done]. rewrite (pr_kept _ _ _ P); [done|].
    intros Hb. apply Hne. by rewrite (below_session F _ _ _ _ Hr Hi Hb).
  - rewrite Ef. eauto.
Qed.
Lemma prune_records : records st' = records st.
Proof.
  apply map_eq. intros bid. unfold records. rewrite !lookup_fmap.
  destruct (buffers st !! bid) as [b|] eqn:Hb.
  - destruct (pr_buffer _ _ _ P bid b Hb) as (b' & -> & [[_ ->]|[_ ->]]); [|done]. by destruct b.
  - by rewrite (pr_no_buffer _ _ _ P).
Qed.

Lemma prune_removed : removed (below st r) 0 st st'.
Proof.
  destruct prune_parts as (Es & _ & E1 & E2 & E3 & E4).
  split; [| |apply prune_records|].
  - intros i Hi. by rewrite !views_lookup, (pr_kept _ _ _ P).
  - intros i Hi. by rewrite views_lookup, (pr_gone _ _ _ P).
  - split_and!; lia || done.
Qed.
End prune_facts.

(** ** Rewriting the node map

    [same_kind n n']: [n'] is [n] with other links. *)

Definition same_kind (n n' : Node) : Prop :=
  node_id n' = node_id n ∧ node_session n' = node_session n
  ∧ view_buffer n' = view_buffer n ∧ is_tabs n' = is_tabs n.

Lemma same_kind_refl n : same_kind n n.
Proof. by split_and!. Qed.
Lemma same_kind_trans n1 n2 n3 : same_kind n1 n2 → same_kind n2 n3 → same_kind n1 n3.
Proof. intros (?&?&?&?) (?&?&?&?). repeat split; congruence. Qed.
Lemma same_kind_parent p n : same_kind n (node_set_parent p n).
Proof. by destruct n. Qed.
Lemma same_kind_view n n' : same_kind n n' → is_buffer_view n' = is_buffer_view n.
Proof. intros (_ & _ & Hv & _). by destruct n, n'. Qed.
Lemma same_kind_buffer n n' v' :
  same_kind n n' → n' = BufferView v' → ∃ v, n = BufferView v ∧ v_buffer_id v = v_buffer_id v'.
Proof. intros (_ & _ & Hv & _) ->. destruct n as [v|s|t]; try done. injection Hv. eauto. Qed.
Lemma same_kind_tabs n n' : same_kind n n' → is_tabs n = true → ∃ t', n' = Tabs t'.
Proof. intros (_ & _ & _ & Ht) Hn. rewrite Hn in Ht. destruct n'; try done. eauto. Qed.
Lemma same_kind_pane n n' : same_kind n n' → pane n' = pane n.
Proof. intros (_ & Hs & Hv & _). unfold pane. by rewrite Hs, Hv. Qed.
#[export] Hint Resolve same_kind_refl same_kind_parent : mux.

Section reshape.
Context {st : ServerState} {m' : gmap N Node} (W : wired st) (Hf : forest (layout m')).
Context (Hk : ∀ i n', m' !! i = Some n' → ∃ n, nodes st !! i = Some n ∧ same_kind n n').
Context (Hown : ∀ i, owned_root st i → ∃ n', m' !! i = Some n' ∧ parent n' = None).
Let st' : ServerState := set_nodes (λ _, m') st.

Lemma reshape_wired : wired st'.
Proof.
  split; simpl.
  - done.
  - intros i n' Hi. destruct (Hk i n' Hi) as (n & Hn & -> & _). by apply (wi_node_id _ W).
  - apply W.
  - intros sid s Hs. destruct (wi_session _ W _ _ Hs) as [Sid (t & Ht & Htp & Hts) Snd Sfl].
    split; try done. destruct (Hown (s_root_node s)) as (n' & Hn' & Hp'); [left; eauto|].
    destruct (Hk _ _ Hn') as (n & Hn & Hsk). simplify_eq.
    destruct (same_kind_tabs _ _ Hsk eq_refl) as (t' & ->). exists t'. split_and!; [done..|].
    destruct Hsk as (_ & Hsk & _). simpl in Hsk. congruence.
  - intros fid w Hw. destruct (wi_window _ W _ _ Hw) as [Wid (n & Hn & Hnp & Hns) Wl Wv].
    split; try done. destruct (Hown (f_root_node w)) as (n' & Hn' & Hp'); [right; eauto|].
    destruct (Hk _ _ Hn') as (n0 & Hn0 & Hsk). simplify_eq. exists n'. split_and!; [done..|].
    destruct Hsk as (_ & ? & _). simpl in *. congruence.
  - apply W.
  - destruct (wi_fresh _ W) as [F1 F2 F3 F4]. split; try done. simpl.
    intros i [n' Hi]. destruct (Hk i n' Hi) as (n & Hn & _). eauto.
Qed.

Lemma reshape_attached U :
  (∀ i v, nodes st !! i = Some (BufferView v) → is_Some (m' !! i)) →
  attached_but U st → attached_but U st'.
Proof.
  intros Hv A. assert (∀ i v', m' !! i = Some (BufferView v') →
    ∃ v, nodes st !! i = Some (BufferView v) ∧ v_buffer_id v = v_buffer_id v') as Hback.
  { intros i v' Hi. destruct (Hk i _ Hi) as (n & Hn & Hs).
    destruct (same_kind_buffer _ _ _ Hs eq_refl) as (v & -> & ?). eauto. }
  split; simpl.
  - intros i v' Hi. destruct (Hback _ _ Hi) as (v & Hn & <-). by apply (at_backed _ _ A i).
  - intros i v' Hi HU. destruct (Hback _ _ Hi) as (v & Hn & <-). by apply (at_view _ _ A i).
  - intros bid b i Hb Ha. destruct (at_buffer _ _ A bid b i Hb Ha) as (v & Hn & Hvb).
    destruct (Hv i v Hn) as [n' Hn']. destruct (Hk i n' Hn') as (n & Hn0 & Hs). simplify_eq.
    pose proof (same_kind_view _ _ Hs) as Hbv. destruct n' as [v'|s|t]; try done.
    destruct (same_kind_buffer _ _ _ Hs eq_refl) as (v0 & [= ->] & ?). exists v'. split; congruence.
Qed.

Lemma reshape_leaf_memory leaf : leaf_memory st leaf → leaf_memory st' leaf.
Proof.
  intros [Hlt Hv]. split; [done|]. simpl. intros n' Hn'.
  destruct (Hk _ _ Hn') as (n & Hn & Hs). rewrite (same_kind_view _ _ Hs). by apply Hv.
Qed.

Lemma reshape_remembers :
  (∀ i n' leaf, m' !! i = Some n' → last_focused_descendant n' = Some leaf →
     leaf_memory st leaf) → remembers st → remembers st'.
Proof.
  intros Hl [R1 R2 R3 R4]. split; simpl.
  - intros i n' leaf Hi Hlast. by eapply reshape_leaf_memory, Hl.
  - intros. by eapply reshape_leaf_memory, R2.
  - intros. by eapply reshape_leaf_memory, R3.
  - done.
Qed.
End reshape.

(** Nodes of the session [sid] were rewritten only. *)
Lemma reshape_local sid st m' :
  (∀ i n, nodes st !! i = Some n → node_session n ≠ sid → m' !! i = Some n) →
  local_to sid st (set_nodes (λ _, m') st).
Proof.
  intros Hk. split; [done| |eauto]. simpl. intros i n Hi Hne. exists n. split; [|done]. by apply Hk.
Qed.

(** Two writes: the links of [p] and the parent pointer of [c]. *)
Definition relink (c : N) (m : Node) (par : option N) (p : N) (n' : Node) (ns : gmap N Node)
    : gmap N Node :=
  <[c := node_set_parent par m]> (<[p := n']> ns).

Lemma relink_lookup c m par p n' ns i :
  c ≠ p → ns !! c = Some m →
  relink c m par p n' ns !! i =
    if decide (i = c) then Some (node_set_parent par m)
    else if decide (i = p) then Some n' else ns !! i.
Proof.
  intros Hne Hc. unfold relink. rewrite !lookup_insert. repeat case_decide; congruence.
Qed.

Lemma relink_layout c m par p n n' ns :
  c ≠ p → ns !! c = Some m → ns !! p = Some n →
  node_session n' = node_session n → parent n' = parent n →
  layout (relink c m par p n' ns) = g_edit c par p (child_ids n') (layout ns).
Proof.
  intros Hne Hc Hp Hs Hpar. apply map_eq. intros i.
  rewrite g_edit_lookup, !layout_lookup, relink_lookup by done.
  repeat case_decide; subst; simplify_eq/=; rewrite ?Hc, ?Hp; simpl.
  - unfold shape_of. by destruct m.
  - unfold shape_of. congruence.
  - by destruct (ns !! i) as [[]|].
Qed.

(** ** Unlinking a child *)

Lemma delete_perm {A} (l : list A) i x : l !! i = Some x → l ≡ₚ x :: delete i l.
Proof. intros. by apply delete_Permutation. Qed.

Lemma active_after_removal_bound active index len :
  active < S len → active_after_removal active index len < len ∨ len = 0 ∧ active_after_removal active index len = 0.
Proof.
  intros Ha. unfold active_after_removal. destruct (Nat.eqb_spec len 0); [by right|]. left.
  destruct (Nat.ltb_spec index active); [lia|]. destruct (Nat.leb_spec len active); lia.
Qed.

(** [n'] is [n] without the child [c]. *)
Record unlinked (c : N) (n n' : Node) : Prop := {
  ul_kind : same_kind n n';
  ul_parent : parent n' = parent n;
  ul_children : child_ids n ≡ₚ c :: child_ids n';
  ul_last : ∀ leaf, last_focused_descendant n' = Some leaf → last_focused_descendant n = Some leaf;
  ul_ok : node_ok n → node_ok n' ∨ is_tabs n = false ∧ length (child_ids n') = 1
}.

Lemma remove_child_in_spec c n :
  c ∈ child_ids n → ∃ n', remove_child_in c n = Some n' ∧ unlinked c n n'.
Proof.
  destruct n as [v|s|t]; simpl; [by intros ?%elem_of_nil|..].
  - intros Hc. destruct (position _ _) as [i|] eqn:Hp; cycle 1.
    { rewrite position_None in Hp. specialize (Hp c Hc). by rewrite N.eqb_refl in Hp. }
    destruct (position_Some _ _ _ Hp) as (x & Hx & ->%N.eqb_eq & _).
    eexists. split; [done|]. split; try done; simpl; [by apply delete_perm|].
    intros [Hl Hs]. pose proof (lookup_lt_Some _ _ _ Hx).
    assert (length (delete i (sp_children s)) = length (sp_children s) - 1) as ->.
    { apply length_delete. by eexists. }
    assert (length (delete i (sp_sizes s)) = length (sp_sizes s) - 1) as ->.
    { apply length_delete, lookup_lt_is_Some. by rewrite Hs. }
    destruct (decide (length (sp_children s) = 2)) as [->|]; [by right|left]. lia.
  - intros Hc. destruct (position _ _) as [i|] eqn:Hp; cycle 1.
    { rewrite position_None in Hp. apply list_elem_of_fmap in Hc as (tab & -> & Htab).
      specialize (Hp tab Htab). by rewrite N.eqb_refl in Hp. }
    destruct (position_Some _ _ _ Hp) as (x & Hx & He%N.eqb_eq & _).
    eexists. split; [done|]. split; try done; simpl.
    + rewrite list_fmap_delete. rewrite <-He. apply delete_perm. by rewrite list_lookup_fmap, Hx.
    + intros Ha. left. pose proof (lookup_lt_Some _ _ _ Hx) as Hi.
      assert (t_active t < length (t_tabs t)) as Hlt.
      { destruct Ha as [|[Ht _]]; [done|]. rewrite Ht in Hi. simpl in Hi. lia. }
      assert (length (t_tabs t) = S (length (delete i (t_tabs t)))) as Hlen.
      { rewrite length_delete; [lia|by eexists]. }
      destruct (active_after_removal_bound (t_active t) i (length (delete i (t_tabs t))))
        as [|[H0 ?]]; [lia|by left|right]. split; [|done]. by apply nil_length_inv.
Qed.

Section unlink.
Context {st : ServerState} {p c : N} {n n' m : Node}.
Context (W : wired st) (Hp : nodes st !! p = Some n) (Hc : nodes st !! c = Some m).
Context (Hin : c ∈ child_ids n) (Hu : unlinked c n n').
Let F : forest (layout (nodes st)) := wi_forest _ W.
Let m' : gmap N Node := relink c m None p n' (nodes st).
Let st' : ServerState := set_nodes (λ _, m') st.

Lemma unlink_edge : edge (layout (nodes st)) p c.
Proof. apply layout_edge. eauto. Qed.

Lemma unlink_ne : c ≠ p.
Proof. intros He. apply (edge_irrefl F p). rewrite <-He at 2. apply unlink_edge. Qed.

Lemma unlink_parent : parent m = Some p.
Proof. destruct (child_exists F _ _ _ Hp Hin) as (? & ? & ? & _). congruence. Qed.

Lemma unlink_lookup i :
  m' !! i = if decide (i = c) then Some (node_set_parent None m)
            else if decide (i = p) then Some n' else nodes st !! i.
Proof. apply relink_lookup; [apply unlink_ne|done]. Qed.

Lemma unlink_kind i n2 : m' !! i = Some n2 → ∃ n1, nodes st !! i = Some n1 ∧ same_kind n1 n2.
Proof.
  rewrite unlink_lookup. repeat case_decide; intros; simplify_eq; eauto with mux.
  exists n. split; [done|apply Hu].
Qed.

Lemma unlink_not_owned : ¬ owned_root st c.
Proof.
  pose proof unlink_parent as Hpar. intros [(sid & s & Hs & Hr)|(fid & w & Hw & Hr)].
  - destruct (so_root _ _ _ (wi_session _ W _ _ Hs)) as (t & Ht & Htp & _).
    rewrite Hr in Ht. by simplify_eq/=.
  - destruct (wo_root _ _ _ (wi_window _ W _ _ Hw)) as (x & Hx & Hxp & _). congruence.
Qed.

Lemma owned_parent i x : owned_root st i → nodes st !! i = Some x → parent x = None.
Proof.
  intros [(sid & s & Hs & Hr)|(fid & w & Hw & Hr)] Hi.
  - destruct (so_root _ _ _ (wi_session _ W _ _ Hs)) as (t & Ht & Htp & _). by simplify_eq.
  - destruct (wo_root _ _ _ (wi_window _ W _ _ Hw)) as (y & Hy & Hyp & _). by simplify_eq.
Qed.

Lemma owned_exists i : owned_root st i → is_Some (nodes st !! i).
Proof.
  intros [(sid & s & Hs & <-)|(fid & w & Hw & <-)].
  - by apply (root_exists W sid).
  - by apply (window_exists W fid).
Qed.

Lemma unlink_forest : forest (layout m').
Proof.
  destruct (ul_kind _ _ _ Hu) as (_ & Hs & _). unfold m'.
  rewrite (relink_layout c m None p n n' (nodes st) unlink_ne Hc Hp Hs (ul_parent _ _ _ Hu)).
  apply (forest_detach F p c (shape_of n)).
  - by rewrite layout_lookup, Hp.
  - apply Hu.
Qed.

Lemma unlink_owned i : owned_root st i → ∃ n2, m' !! i = Some n2 ∧ parent n2 = None.
Proof.
  intros Ho. destruct (owned_exists i Ho) as [x Hx]. rewrite unlink_lookup.
  pose proof (owned_parent i x Ho Hx). repeat case_decide; subst.
  - by destruct (unlink_not_owned Ho).
  - exists n'. split; [done|]. rewrite (ul_parent _ _ _ Hu). congruence.
  - eauto.
Qed.

Lemma unlink_inv D U : inv_but D U st → inv_but ({[p]} ∪ D) U st'.
Proof.
  intros [_ S A R]. split.
  - apply reshape_wired; [done|apply unlink_forest|exact unlink_kind|exact unlink_owned].
  - intros i x. simpl. rewrite unlink_lookup. repeat case_decide; intros; simplify_eq.
    + assert (node_ok m) as Hok by (apply (S c); [done|set_solver]). by destruct m.
    + set_solver.
    + apply (S i); [done|set_solver].
  - apply reshape_attached; [exact unlink_kind| |done].
    intros i v Hi. rewrite unlink_lookup. repeat case_decide; eauto.
  - apply reshape_remembers; [exact unlink_kind| |done].
    intros i x leaf. rewrite unlink_lookup. repeat case_decide; intros; simplify_eq.
    + apply (re_node _ R c m leaf Hc). by destruct m.
    + apply (re_node _ R p n leaf Hp). by apply Hu.
    + by apply (re_node _ R i x).
Qed.

Lemma unlink_compact D : compact_but D st → compact_but ({[p]} ∪ D) st'.
Proof.
  intros C i t. simpl. rewrite unlink_lookup. repeat case_decide; intros; simplify_eq.
  - destruct m as [v|s|t0]; simplify_eq/=.
  - set_solver.
  - apply (C i); [done..|set_solver].
Qed.

Lemma unlink_anchored X : anchored_but X st → anchored_but ({[c]} ∪ X) st'.
Proof.
  intros A i x. simpl. rewrite unlink_lookup. repeat case_decide; intros Hx Hpar HX; simplify_eq.
  - set_solver.
  - apply (A p n Hp); [by rewrite <-(ul_parent _ _ _ Hu)|set_solver].
  - apply (A i x Hx Hpar). set_solver.
Qed.

Lemma unlink_local sid : node_session n = sid → local_to sid st st'.
Proof.
  intros Hs. apply reshape_local. intros i x Hi Hne. rewrite unlink_lookup.
  destruct (child_exists F _ _ _ Hp Hin) as (? & ? & _ & ?). simplify_eq.
  repeat case_decide; simplify_eq; congruence.
Qed.
Lemma unlink_calm : calm st st'.
Proof.
  apply calm_nodes. intros j. fold m'. rewrite unlink_lookup.
  repeat case_decide; subst; rewrite ?Hc, ?Hp; simpl; [by destruct m| |done].
  apply same_kind_pane, Hu.
Qed.

Lemma unlink_not_below : ¬ below st c p.
Proof.
  intros Hb. apply (acyclic F p). eapply tc_rtc_r; [apply tc_once, unlink_edge|exact Hb].
Qed.

Lemma unlink_edges a b : a ≠ p → edge (layout m') a b ↔ edge (layout (nodes st)) a b.
Proof.
  intros Ha. rewrite !layout_edge. setoid_rewrite unlink_lookup.
  split; intros (x & Hx & Hb); revert Hx; repeat case_decide; subst; intros; simplify_eq; try done.
  - exists m. split; [done|]. by destruct m.
  - eauto.
  - exists (node_set_parent None m). split; [done|]. by destruct m.
  - eauto.
Qed.

Lemma unlink_sub i j : below st' i j → below st i j.
Proof.
  destruct (ul_kind _ _ _ Hu) as (_ & Hs & _). apply rtc_subrel. intros a b Hab.
  simpl in Hab. unfold m' in Hab.
  rewrite (relink_layout c m None p n n' (nodes st) unlink_ne Hc Hp Hs (ul_parent _ _ _ Hu)) in Hab.
  revert Hab. apply (detach_edges c p (shape_of n)); [by rewrite layout_lookup, Hp|apply Hu].
Qed.

Lemma unlink_below j : below st' c j ↔ below st c j.
Proof.
  split; [apply unlink_sub|].
  revert j. apply (rtc_ind_r (λ j, below st' c j)); [constructor|]. intros a b Ha Hab IH.
  eapply rtc_r; [exact IH|]. apply unlink_edges; [|done]. intros ->. by apply unlink_not_below.
Qed.
End unlink.
