(* ===== verification/Owners.v ===== *)
(** Popups as owners of trees: taking a popup off a session, opening one on a
    free tree, and giving one another root. *)

From stdpp Require Import relations.
From S2P Require Import Prelude Core Model Environment State Queries Buffers Focus.
From S2P Require Import Tree Forest Invariant QueriesSpec FocusSpec Settle Surgery.

Lemma remember_same st st' :
  nodes st' = nodes st → node_ids st' = node_ids st →
  ∀ leaf, leaf_memory st leaf → leaf_memory st' leaf.
Proof. intros En Ei leaf [Hlt Hv]. split; [by rewrite Ei|by rewrite En]. Qed.

(** ** Closing a popup *)

(** The session record without the popup [fid]. *)
Definition unlist (fid : N) (s : Session) : Session :=
  let s := s_set_floating (base.filter (λ id, id ≠ fid) (s_floating s)) s in
  if bool_decide (s_focused_floating s = Some fid) then s_set_focus (s_focused_leaf s) None s else s.

Lemma unlist_fields fid s :
  s_id (unlist fid s) = s_id s ∧ s_root_node (unlist fid s) = s_root_node s
  ∧ s_floating (unlist fid s) = base.filter (λ id, id ≠ fid) (s_floating s)
  ∧ s_focused_leaf (unlist fid s) = s_focused_leaf s
  ∧ s_zoomed_node (unlist fid s) = s_zoomed_node s
  ∧ (∀ fid', s_focused_floating (unlist fid s) = Some fid' → s_focused_floating s = Some fid').
Proof. unfold unlist. by case_bool_decide. Qed.

Definition without_window (fid : N) (w : FloatingWindow) (st : ServerState) : ServerState :=
  set_sessions (alter (unlist fid) (f_session_id w)) (set_floating (delete fid) st).

Lemma remove_floating_window_wp st fid w :
  floating st !! fid = Some w →
  wp (remove_floating_window fid) (λ w' st', w' = w ∧ st' = without_window fid w st)
    (λ _ _, False) st.
Proof.
  intros Hw. unfold remove_floating_window. wp_step.
  eapply wp_reads_ok; [by unfold floating_window; rewrite Hw|].
  wp_step. apply wp_modify. wp_step. apply wp_modify. by wp_step.
Qed.

Section close_window.
Context {st : ServerState} {fid : N} {w : FloatingWindow}.
Context (W : wired st) (Hw : floating st !! fid = Some w).
Let st' : ServerState := without_window fid w st.

Lemma without_session sid s' :
  sessions st' !! sid = Some s' →
  ∃ s, sessions st !! sid = Some s
       ∧ s' = if decide (sid = f_session_id w) then unlist fid s else s.
Proof.
  simpl. rewrite lookup_alter. destruct (decide (f_session_id w = sid)), (decide (sid = f_session_id w));
    try congruence; [|by eauto].
  intros (s & Hs & ->)%fmap_Some. exists s. split; [congruence|done].
Qed.

Lemma without_session_fields sid s' :
  sessions st' !! sid = Some s' →
  ∃ s, sessions st !! sid = Some s ∧ s_id s' = s_id s ∧ s_root_node s' = s_root_node s
       ∧ s_focused_leaf s' = s_focused_leaf s ∧ s_zoomed_node s' = s_zoomed_node s
       ∧ (NoDup (s_floating s) → NoDup (s_floating s'))
       ∧ (∀ f, f ∈ s_floating s' ↔ f ∈ s_floating s ∧ f ≠ fid)
       ∧ (∀ f, s_focused_floating s' = Some f → s_focused_floating s = Some f).
Proof.
  intros Hs'. destruct (without_session _ _ Hs') as (s & Hs & ->). exists s. split; [done|].
  destruct (wi_session _ W _ _ Hs) as [_ _ _ Sfl].
  case_decide as He.
  - destruct (unlist_fields fid s) as (-> & -> & -> & -> & -> & Hf). split_and!; try done.
    + apply NoDup_filter.
    + intros f. rewrite list_elem_of_filter. naive_solver.
  - split_and!; try done. intros f. split; [|naive_solver]. intros Hin. split; [done|].
    intros ->. destruct (Sfl fid Hin) as (w' & Hw' & ?). simplify_eq.
Qed.

Lemma without_session_back sid s :
  sessions st !! sid = Some s → ∃ s', sessions st' !! sid = Some s'.
Proof. intros Hs. simpl. rewrite lookup_alter. case_decide as He; [rewrite He, Hs; simpl|]; eauto. Qed.

Lemma without_wired : wired st'.
Proof.
  split; try apply W.
  - intros sid s' Hs'.
    destruct (without_session_fields _ _ Hs') as (s & Hs & E1 & E2 & _ & _ & Hnd & Hfl & _).
    destruct (wi_session _ W _ _ Hs) as [Sid Sr Snd Sfl].
    split; [congruence|by rewrite E2|by apply Hnd|].
    intros f [Hin Hne]%Hfl. destruct (Sfl f Hin) as (w' & ? & ?). exists w'.
    simpl. by rewrite lookup_delete_ne.
  - intros f w'. simpl. rewrite lookup_delete. case_decide as Hne; [done|]. intros Hw'.
    destruct (wi_window _ W _ _ Hw') as [Wid Wr (s & Hs & Hin & Hr) Wv]. split; [done..| |done].
    destruct (without_session_back _ _ Hs) as [s' Hs'].
    destruct (without_session_fields _ _ Hs') as (s0 & Hs0 & _ & E2 & _ & _ & _ & Hfl & _).
    simplify_eq. exists s'. split_and!; [done|by apply Hfl|congruence].
  - intros f f' w1 w2. simpl. rewrite !lookup_delete. repeat case_decide; try done. apply W.
  - destruct (wi_fresh _ W) as [F1 F2 F3 F4]. split; simpl; try done.
    + intros i [s' Hs']. destruct (without_session _ _ Hs') as (s & ? & _). eauto.
    + intros i. rewrite lookup_delete. case_decide; [by intros [? ?]|]. apply F4.
Qed.

Lemma without_inv D U : inv_but D U st → inv_but D U st'.
Proof.
  intros [_ S A [R1 R2 R3 R4]]. split; [apply without_wired|done|by destruct A|].
  split; simpl.
  - apply R1.
  - intros f w' leaf. rewrite lookup_delete. case_decide; [done|]. apply R2.
  - intros sid s' leaf Hs' Hl.
    destruct (without_session_fields _ _ Hs') as (s & Hs & _ & _ & E & _).
    apply (R3 sid s); congruence.
  - intros sid s' f Hs' Hf.
    destruct (without_session_fields _ _ Hs') as (s & Hs & _ & _ & _ & _ & _ & _ & Ef).
    destruct (R4 sid s f Hs (Ef _ Hf)) as [Hlt Hv]. split; [done|]. simpl. intros w'.
    rewrite lookup_delete. case_decide; [done|]. apply Hv.
Qed.

Lemma without_owned i : owned_root st' i ↔ owned_root st i ∧ i ≠ f_root_node w.
Proof.
  destruct (wi_window _ W _ _ Hw) as [_ (n & Hn & Hnp & Hns) (sw & Hsw & _ & Hne)]. split.
  - intros [(sid & s' & Hs' & Hr)|(f & w' & Hw' & Hr)].
    + destruct (without_session_fields _ _ Hs') as (s & Hs & _ & E & _). split.
      * left. exists sid, s. split; congruence.
      * intros ->. destruct (so_root _ _ _ (wi_session _ W _ _ Hs)) as (t & Ht & _ & Hts).
        rewrite E in Hr. rewrite Hr in Ht. simplify_eq/=. congruence.
    + simpl in Hw'. rewrite lookup_delete in Hw'. case_decide as Hf; [done|]. split.
      * right. eauto.
      * intros ->. apply Hf. symmetry. by apply (wi_roots _ W _ _ w' w).
  - intros [[(sid & s & Hs & Hr)|(f & w' & Hw' & Hr)] Hi].
    + left. destruct (without_session_back _ _ Hs) as [s' Hs'].
      destruct (without_session_fields _ _ Hs') as (s0 & Hs0 & _ & E & _). simplify_eq.
      exists sid, s'. by rewrite E.
    + right. exists f, w'. simpl. rewrite lookup_delete. case_decide; [|done]. by simplify_eq.
Qed.

Lemma without_anchored X : anchored_but X st → anchored_but ({[f_root_node w]} ∪ X) st'.
Proof.
  intros A i n Hi Hn HX. apply without_owned. split; [apply (A i n Hi Hn)|]; set_solver.
Qed.

Lemma without_local : local_to (f_session_id w) st st'.
Proof.
  split; simpl.
  - intros sid Hne. by rewrite lookup_alter_ne.
  - eauto.
  - intros f w' Hw' Hne. exists w'. split; [|done]. rewrite lookup_delete_ne; [done|]. congruence.
Qed.
Lemma without_calm : calm st st'.
Proof. split; try done. simpl. by rewrite dom_alter_L. Qed.
End close_window.

(** ** Giving a popup another root *)

Section reroot.
Context {st : ServerState} {fid : N} {w : FloatingWindow} {c : N} {m : Node}.
Context (W : wired st) (Hw : floating st !! fid = Some w).
Context (Hc : nodes st !! c = Some m) (Hp : parent m = None) (Hs : node_session m = f_session_id w).
Context (Hfree : ¬ owned_root st c).
Let st' : ServerState := set_floating (insert fid (f_set_root_node c w)) st.

Lemma reroot_window f w' :
  floating st' !! f = Some w' →
  f = fid ∧ w' = f_set_root_node c w ∨ f ≠ fid ∧ floating st !! f = Some w'.
Proof. simpl. rewrite lookup_insert. case_decide; naive_solver. Qed.

Lemma reroot_wired : wired st'.
Proof.
  destruct (wi_window _ W _ _ Hw) as [Wid Wr (sw & Hsw & Hin & Hne) Wv].
  split; try apply W.
  - intros sid s Hsid. destruct (wi_session _ W _ _ Hsid) as [Sid Sr Snd Sfl].
    split; try done. intros f Hf. destruct (Sfl f Hf) as (w' & Hw' & Hws). simpl.
    rewrite lookup_insert. case_decide; [|eauto]. simplify_eq. eauto.
  - intros f w' [[-> ->]|[Hf Hw']]%reroot_window; [|by destruct (wi_window _ W _ _ Hw')].
    split; simpl; [done|by exists m| |done]. exists sw. split_and!; [done..|].
    intros ->. apply Hfree. left. eauto.
  - intros f f' w1 w2 [[-> ->]|[Hf Hw1]]%reroot_window [[-> ->]|[Hf' Hw2]]%reroot_window Hr;
      simpl in *; try done.
    + exfalso. apply Hfree. right. eauto.
    + exfalso. apply Hfree. right. eauto.
    + by apply (wi_roots _ W _ _ w1 w2).
  - destruct (wi_fresh _ W) as [F1 F2 F3 F4]. split; simpl; try done.
    intros i. rewrite lookup_insert. case_decide; [|apply F4]. intros _. subst. apply F4. eauto.
Qed.

Lemma reroot_inv D U : inv_but D U st → inv_but D U st'.
Proof.
  intros [_ S A [R1 R2 R3 R4]]. split; [apply reroot_wired|done|by destruct A|].
  split; simpl.
  - apply R1.
  - intros f w' leaf [[-> ->]|[Hf Hw']]%reroot_window; [|by apply (R2 f w')]. by apply (R2 fid w).
  - apply R3.
  - intros sid s f Hsid Hf. destruct (R4 sid s f Hsid Hf) as [Hlt Hv]. split; [done|].
    intros w' [[-> ->]|[Hf' Hw']]%reroot_window; [|by apply Hv]. by apply (Hv w).
Qed.

Lemma reroot_owned i :
  owned_root st' i ↔ i = c ∨ owned_root st i ∧ i ≠ f_root_node w.
Proof.
  destruct (wi_window _ W _ _ Hw) as [_ (n & Hn & Hnp & Hns) (sw & Hsw & _ & Hne)]. split.
  - intros [(sid & s & Hsid & Hr)|(f & w' & Hw' & Hr)].
    + right. split; [left; eauto|]. intros ->.
      destruct (so_root _ _ _ (wi_session _ W _ _ Hsid)) as (t & Ht & _ & Hts).
      rewrite Hr in Ht. simplify_eq/=. congruence.
    + apply reroot_window in Hw' as [[-> ->]|[Hf Hw']]; [by left|]. right. split; [right; eauto|].
      intros ->. apply Hf. by apply (wi_roots _ W _ _ w' w).
  - intros [->|[[(sid & s & Hsid & Hr)|(f & w' & Hw' & Hr)] Hi]].
    + right. exists fid, (f_set_root_node c w). simpl. by rewrite lookup_insert_eq.
    + left. eauto.
    + right. exists f, w'. simpl. rewrite lookup_insert_ne; [done|]. congruence.
Qed.

Lemma reroot_anchored X :
  anchored_but ({[c]} ∪ X) st → anchored_but ({[f_root_node w]} ∪ X) st'.
Proof.
  intros A i n Hi Hn HX. apply reroot_owned. destruct (decide (i = c)) as [|Hic]; [by left|right].
  split; [apply (A i n Hi Hn)|]; set_solver.
Qed.

Lemma reroot_local : local_to (f_session_id w) st st'.
Proof.
  split; [done|eauto|]. intros f w' Hw' Hne. exists w'. simpl.
  rewrite lookup_insert_ne; [done|]. congruence.
Qed.
End reroot.
