(* ===== verification/Cosmetic.v ===== *)
(** Requests that leave the layout alone: names, titles, sizes, geometry, the
    base index, the viewport, and the lifecycle of buffers. *)

From S2P Require Import Prelude Core Model Environment State Queries Buffers Focus.
From S2P Require Import Tree Layout Forest Invariant QueriesSpec FocusSpec Settle.

(** ** Cosmetic changes *)

Definition alike_session (s s' : Session) : Prop :=
  same_session s s' ∧ s_focused_leaf s' = s_focused_leaf s
  ∧ s_focused_floating s' = s_focused_floating s ∧ s_zoomed_node s' = s_zoomed_node s.
Definition alike_node (n n' : Node) : Prop :=
  same_node n n' ∧ last_focused_descendant n' = last_focused_descendant n
  ∧ drawn_children n' = drawn_children n ∧ (node_ok n → node_ok n').
Definition alike_window (w w' : FloatingWindow) : Prop :=
  same_window w w' ∧ f_last_focused_leaf w' = f_last_focused_leaf w.

Record cosmetic (st st' : ServerState) : Prop := {
  cm_like : like st st';
  cm_session : ∀ i s s', sessions st !! i = Some s → sessions st' !! i = Some s' →
    alike_session s s';
  cm_node : ∀ i n n', nodes st !! i = Some n → nodes st' !! i = Some n' → alike_node n n';
  cm_window : ∀ i w w', floating st !! i = Some w → floating st' !! i = Some w' →
    alike_window w w'
}.

Lemma alike_session_refl s : alike_session s s. Proof. by split_and!. Qed.
Lemma alike_node_refl n : alike_node n n. Proof. by split_and!. Qed.
Lemma alike_window_refl w : alike_window w w. Proof. by split_and!. Qed.

Section cosmetic_facts.
Context {st st' : ServerState} (H : cosmetic st st').
Let L : like st st' := cm_like _ _ H.

Lemma cosmetic_inv D U : inv_but D U st → inv_but D U st'.
Proof.
  intros [W S A [R1 R2 R3 R4]]. pose proof (lk_bwd _ _ L) as Eb. split.
  - by apply (like_wired L).
  - intros i n' Hn' Hi. destruct (em_node _ _ Eb _ _ Hn') as (n & Hn & _).
    apply (cm_node _ _ H _ _ _ Hn Hn'). by apply (S i).
  - by apply (like_attached L).
  - split.
    + intros i n' leaf Hn' Hl. destruct (em_node _ _ Eb _ _ Hn') as (n & Hn & _).
      destruct (cm_node _ _ H _ _ _ Hn Hn') as (_ & He & _).
      apply (like_leaf_memory L), (R1 i n); congruence.
    + intros i w' leaf Hw' Hl. destruct (em_window _ _ Eb _ _ Hw') as (w & Hw & _).
      destruct (cm_window _ _ H _ _ _ Hw Hw') as (_ & He).
      apply (like_leaf_memory L), (R2 i w); congruence.
    + intros i s' leaf Hs' Hl. destruct (em_session _ _ Eb _ _ Hs') as (s & Hs & _).
      destruct (cm_session _ _ H _ _ _ Hs Hs') as (_ & He & _).
      apply (like_leaf_memory L), (R3 i s); congruence.
    + intros i s' leaf Hs' Hl. destruct (em_session _ _ Eb _ _ Hs') as (s & Hs & _).
      destruct (cm_session _ _ H _ _ _ Hs Hs') as (_ & _ & He & _).
      apply (like_popup_memory L), (R4 i s); congruence.
Qed.

Lemma cosmetic_visible r i :
  visible_from (nodes st) r i → visible_from (nodes st') r i.
Proof.
  apply visible_from_kept. intros x n _ Hx.
  destruct (em_node _ _ (lk_fwd _ _ L) _ _ Hx) as (n' & Hn' & _). exists n'. split; [done|].
  by destruct (cm_node _ _ H _ _ _ Hx Hn') as (_ & _ & ? & _).
Qed.

Lemma cosmetic_on_screen sid i : on_screen st sid i → on_screen st' sid i.
Proof.
  intros (r & Hv & Hr). exists r. split; [by apply cosmetic_visible|].
  destruct Hr as [(s & Hs & Hr)|(fid & w & Hw & Hws & Hr & Hvis)].
  - left. destruct (em_session _ _ (lk_fwd _ _ L) _ _ Hs) as (s' & ? & _ & ? & _).
    exists s'. split; congruence.
  - right. destruct (em_window _ _ (lk_fwd _ _ L) _ _ Hw) as (w' & ? & _ & ? & ? & ?).
    exists fid, w'. split_and!; congruence.
Qed.

Lemma cosmetic_view i : is_view st i → is_view st' i.
Proof.
  intros [v Hv]. destruct (em_node _ _ (lk_fwd _ _ L) _ _ Hv) as (n' & Hn' & Hs).
  destruct (same_view _ _ _ Hs eq_refl) as (v' & -> & _). by exists v'.
Qed.

Lemma cosmetic_consistent : consistent st → consistent st'.
Proof.
  intros [I C A S]. split.
  - by apply cosmetic_inv.
  - by apply (like_compact L).
  - by apply (like_anchored L).
  - intros sid s' Hs' leaf Hl. destruct (em_session _ _ (lk_bwd _ _ L) _ _ Hs') as (s & Hs & _).
    destruct (cm_session _ _ H _ _ _ Hs Hs') as (_ & He & _).
    destruct (S sid s Hs leaf) as [Hv Ho]; [congruence|].
    split; [by apply cosmetic_view|by apply cosmetic_on_screen].
Qed.

Lemma cosmetic_zoom : zoom_settled st → zoom_settled st'.
Proof.
  intros Z sid s' Hs' id Hid. destruct (em_session _ _ (lk_bwd _ _ L) _ _ Hs') as (s & Hs & _).
  destruct (cm_session _ _ H _ _ _ Hs Hs') as (_ & _ & _ & He).
  destruct (Z sid s Hs id) as [[n Hn] Ho]; [congruence|]. split.
  - destruct (em_node _ _ (lk_fwd _ _ L) _ _ Hn) as (n' & ? & _). eauto.
  - by apply cosmetic_on_screen.
Qed.
End cosmetic_facts.

(** ** Single writes *)

Lemma embeds_session st sid s s' :
  sessions st !! sid = Some s → same_session s s' →
  embeds st (set_sessions (insert sid s') st) ∧ embeds (set_sessions (insert sid s') st) st.
Proof.
  intros Hs He. split; (split; [|intros; eexists; by split_and!..]); simpl; intros i x Hi.
  - rewrite lookup_insert. case_decide; [|eexists; by split_and!]. naive_solver.
  - rewrite lookup_insert in Hi. case_decide; [|eexists; by split_and!]. simplify_eq.
    exists s. split; [done|]. destruct He as (? & ? & ?). by split_and!.
Qed.
Lemma embeds_buffer st bid b b' :
  buffers st !! bid = Some b → same_buffer b b' →
  embeds st (set_buffers (insert bid b') st) ∧ embeds (set_buffers (insert bid b') st) st.
Proof.
  intros Hs He. split; (split; [intros; eexists; by split_and!| |intros; eexists; by split_and!..]);
    simpl; intros i x Hi.
  - rewrite lookup_insert. case_decide; [|eexists; by split_and!]. naive_solver.
  - rewrite lookup_insert in Hi. case_decide; [|eexists; by split_and!]. simplify_eq.
    exists b. split; [done|]. destruct He as (? & ?). by split_and!.
Qed.
Lemma embeds_node st i n n' :
  nodes st !! i = Some n → same_node n n' →
  embeds st (set_nodes (insert i n') st) ∧ embeds (set_nodes (insert i n') st) st.
Proof.
  intros Hs He. split; (split; [intros; eexists; by split_and!..| |intros; eexists; by split_and!]);
    simpl; intros j x Hi.
  - rewrite lookup_insert. case_decide; [|eexists; by split_and!]. naive_solver.
  - rewrite lookup_insert in Hi. case_decide; [|eexists; by split_and!]. simplify_eq.
    exists n. split; [done|]. destruct He as (? & ? & ? & ?). by split_and!.
Qed.
Lemma embeds_window st fid w w' :
  floating st !! fid = Some w → same_window w w' →
  embeds st (set_floating (insert fid w') st) ∧ embeds (set_floating (insert fid w') st) st.
Proof.
  intros Hs He. split; (split; [intros; eexists; by split_and!..|]); simpl; intros j x Hi.
  - rewrite lookup_insert. case_decide; [|eexists; by split_and!]. naive_solver.
  - rewrite lookup_insert in Hi. case_decide; [|eexists; by split_and!]. simplify_eq.
    exists w. split; [done|]. destruct He as (? & ? & ? & ?). by split_and!.
Qed.

Lemma cosmetic_session st sid s s' :
  sessions st !! sid = Some s → alike_session s s' →
  cosmetic st (set_sessions (insert sid s') st).
Proof.
  intros Hs He. destruct (embeds_session st sid s s' Hs) as [Ef Eb]; [apply He|].
  split; [by split| |..]; simpl.
  - intros i x x' Hx. rewrite lookup_insert. case_decide; intros; simplify_eq; [done|].
    apply alike_session_refl.
  - intros; simplify_eq. apply alike_node_refl.
  - intros; simplify_eq. apply alike_window_refl.
Qed.
Lemma cosmetic_buffer st bid b b' :
  buffers st !! bid = Some b → same_buffer b b' → cosmetic st (set_buffers (insert bid b') st).
Proof.
  intros Hs He. destruct (embeds_buffer st bid b b' Hs He) as [Ef Eb].
  split; [by split|..]; simpl; intros; simplify_eq;
    [apply alike_session_refl|apply alike_node_refl|apply alike_window_refl].
Qed.
Lemma cosmetic_node st i n n' :
  nodes st !! i = Some n → alike_node n n' → cosmetic st (set_nodes (insert i n') st).
Proof.
  intros Hs He. destruct (embeds_node st i n n' Hs) as [Ef Eb]; [apply He|].
  split; [by split|..]; simpl.
  - intros; simplify_eq. apply alike_session_refl.
  - intros j x x' Hx. rewrite lookup_insert. case_decide; intros; simplify_eq; [done|].
    apply alike_node_refl.
  - intros; simplify_eq. apply alike_window_refl.
Qed.
Lemma cosmetic_window st fid w w' :
  floating st !! fid = Some w → alike_window w w' →
  cosmetic st (set_floating (insert fid w') st).
Proof.
  intros Hs He. destruct (embeds_window st fid w w' Hs) as [Ef Eb]; [apply He|].
  split; [by split|..]; simpl.
  - intros; simplify_eq. apply alike_session_refl.
  - intros; simplify_eq. apply alike_node_refl.
  - intros j x x' Hx. rewrite lookup_insert. case_decide; intros; simplify_eq; [done|].
    apply alike_window_refl.
Qed.

(** Changing fields the invariant does not read. *)
Lemma cosmetic_maps st st' :
  sessions st' = sessions st → buffers st' = buffers st → nodes st' = nodes st →
  floating st' = floating st → session_ids st' = session_ids st → buffer_ids st' = buffer_ids st →
  node_ids st' = node_ids st → floating_ids st' = floating_ids st → cosmetic st st'.
Proof.
  intros Es Eb En Ef ????.
  assert (∀ a b : ServerState, sessions b = sessions a → buffers b = buffers a →
    nodes b = nodes a → floating b = floating a → embeds a b) as Hem.
  { intros a b E1 E2 E3 E4. split; rewrite ?E1, ?E2, ?E3, ?E4; intros; eexists; by split_and!. }
  split; [split; auto; by split_and!|..]; rewrite ?Es, ?En, ?Ef; intros; simplify_eq;
    [apply alike_session_refl|apply alike_node_refl|apply alike_window_refl].
Qed.

Lemma cosmetic_all_buffers st (f : Buffer → Buffer) :
  (∀ b, same_buffer b (f b)) → cosmetic st (set_buffers (fmap f) st).
Proof.
  intros Hf. split; [split; [split|split|by split_and!]|..]; simpl; try (intros; eexists; by split_and!).
  - intros i b Hb. exists (f b). by rewrite lookup_fmap, Hb.
  - intros i b' (b & <- & Hb)%lookup_fmap_Some. exists b. split; [done|].
    destruct (Hf b) as [E1 E2]. by split.
  - intros; simplify_eq. apply alike_session_refl.
  - intros; simplify_eq. apply alike_node_refl.
  - intros; simplify_eq. apply alike_window_refl.
Qed.

#[export] Hint Resolve alike_session_refl alike_node_refl alike_window_refl : mux.

Lemma cosmetic_refl st : cosmetic st st.
Proof. by apply cosmetic_maps. Qed.

Lemma cosmetic_trans st1 st2 st3 : cosmetic st1 st2 → cosmetic st2 st3 → cosmetic st1 st3.
Proof.
  intros [[F1 B1 I1] S1 N1 W1] [[F2 B2 I2] S2 N2 W2].
  assert (∀ a b c, embeds a b → embeds b c → embeds a c) as Hem.
  { intros a b c [E1 E2 E3 E4] [G1 G2 G3 G4]. split.
    - intros i x Hx. destruct (E1 i x Hx) as (y & Hy & ? & ? & ?).
      destruct (G1 i y Hy) as (z & Hz & ? & ? & ?). exists z. repeat split; congruence.
    - intros i x Hx. destruct (E2 i x Hx) as (y & Hy & ? & ?).
      destruct (G2 i y Hy) as (z & Hz & ? & ?). exists z. repeat split; congruence.
    - intros i x Hx. destruct (E3 i x Hx) as (y & Hy & ? & ? & ? & ?).
      destruct (G3 i y Hy) as (z & Hz & ? & ? & ? & ?). exists z. repeat split; congruence.
    - intros i x Hx. destruct (E4 i x Hx) as (y & Hy & ? & ? & ? & ?).
      destruct (G4 i y Hy) as (z & Hz & ? & ? & ? & ?). exists z. repeat split; congruence. }
  split.
  - split; [by eapply Hem|by eapply Hem|]. destruct I1 as (? & ? & ? & ?), I2 as (? & ? & ? & ?).
    repeat split; congruence.
  - intros i s s3 Hs Hs3. destruct (em_session _ _ F1 i s Hs) as (s2 & Hs2 & _).
    destruct (S1 i s s2 Hs Hs2) as ((? & ? & ?) & ? & ? & ?).
    destruct (S2 i s2 s3 Hs2 Hs3) as ((? & ? & ?) & ? & ? & ?). repeat split; congruence.
  - intros i n n3 Hn Hn3. destruct (em_node _ _ F1 i n Hn) as (n2 & Hn2 & _).
    destruct (N1 i n n2 Hn Hn2) as ((? & ? & ? & ?) & ? & ? & ?).
    destruct (N2 i n2 n3 Hn2 Hn3) as ((? & ? & ? & ?) & ? & ? & ?). repeat split; try congruence. auto.
  - intros i w w3 Hw Hw3. destruct (em_window _ _ F1 i w Hw) as (w2 & Hw2 & _).
    destruct (W1 i w w2 Hw Hw2) as ((? & ? & ? & ?) & ?).
    destruct (W2 i w2 w3 Hw2 Hw3) as ((? & ? & ? & ?) & ?). repeat split; congruence.
Qed.
#[export] Instance cosmetic_preorder : PreOrder cosmetic.
Proof. split; [exact cosmetic_refl|exact cosmetic_trans]. Qed.

(** [m] makes a cosmetic change or fails without any change. *)
Definition is_cosmetic {A} (m : SM A) : Prop :=
  ∀ st, wp m (λ _ st', cosmetic st st') (λ _ st', st' = st) st.

Lemma cosmetic_session_mut sid f :
  (∀ s, alike_session s (f s)) → is_cosmetic (session_mut sid f).
Proof.
  intros Hf st. apply wp_session_mut_any; [|done]. intros s Hs. by eapply cosmetic_session.
Qed.
Lemma cosmetic_buffer_mut bid f : (∀ b, same_buffer b (f b)) → is_cosmetic (buffer_mut bid f).
Proof.
  intros Hf st. apply wp_buffer_mut_any; [|done]. intros b Hb. by eapply cosmetic_buffer.
Qed.
Lemma cosmetic_floating_mut fid f :
  (∀ w, alike_window w (f w)) → is_cosmetic (floating_mut fid f).
Proof.
  intros Hf st. apply wp_floating_mut_any; [|done]. intros w Hw. by eapply cosmetic_window.
Qed.

(** ** Sessions and popups *)

Lemma rename_session_cosmetic sid name : is_cosmetic (rename_session sid name).
Proof.
  intros st. unfold rename_session. case_bool_decide; [done|].
  by apply cosmetic_session_mut; intros []; split_and!.
Qed.

Lemma set_session_base_index_cosmetic sid b : is_cosmetic (set_session_base_index sid b).
Proof.
  intros st. unfold set_session_base_index. wp_step.
  eapply wp_mono; [apply (cosmetic_session_mut sid (s_set_base_index b))| |done].
  - by intros []; split_and!.
  - intros [] st' Hc. apply wp_modify. etrans; [done|]. by apply cosmetic_maps.
Qed.

Lemma set_session_viewport_cosmetic sid v t : is_cosmetic (set_session_viewport sid v t).
Proof.
  intros st. unfold set_session_viewport. wp_step.
  eapply wp_mono; [apply (cosmetic_session_mut sid (s_set_viewport (Some v) t))| |done].
  - by intros []; split_and!.
  - intros [] st' Hc. apply wp_modify. etrans; [done|]. by apply cosmetic_maps.
Qed.

Lemma move_floating_cosmetic fid g : is_cosmetic (move_floating fid g).
Proof. by apply cosmetic_floating_mut; intros []; split_and!. Qed.
Lemma set_floating_border_cosmetic fid b : is_cosmetic (set_floating_border fid b).
Proof. by apply cosmetic_floating_mut; intros []; split_and!. Qed.

(** ** Tabs and splits *)

Lemma alike_tabs t ts :
  (te_child <$> ts) = (te_child <$> t_tabs t) →
  alike_node (Tabs t) (Tabs (t_set_tabs ts (t_active t) t)).
Proof.
  intros He. unfold alike_node, same_node, shape_of. simpl. rewrite He. split_and!; try done.
  - unfold active_child. simpl. by rewrite <-!list_lookup_fmap, He.
  - assert (length ts = length (t_tabs t)) as Hl.
    { by rewrite <-(length_fmap te_child ts), He, length_fmap. }
    rewrite Hl. intros [?|[Ht ?]]; [by left|right]. split; [|done].
    by rewrite Ht in Hl; apply nil_length_inv.
Qed.

Lemma insert_tab_children (ts : list TabEntry) i tab tab' :
  ts !! i = Some tab → te_child tab' = te_child tab →
  te_child <$> <[i := tab']> ts = te_child <$> ts.
Proof.
  intros Hi He. rewrite list_fmap_insert, He. apply list_insert_id.
  by rewrite list_lookup_fmap, Hi.
Qed.

Lemma tabs_of_returns st i :
  returns (tabs_of st i) (λ t, nodes st !! i = Some (Tabs t))
    (λ _, ∀ t, nodes st !! i ≠ Some (Tabs t)).
Proof. unfold tabs_of, node. by destruct (nodes st !! i) as [[]|]; simpl. Qed.

Lemma root_tabs_returns st sid :
  returns (root_tabs st sid)
    (λ i, ∃ s t, sessions st !! sid = Some s ∧ s_root_node s = i ∧ nodes st !! i = Some (Tabs t))
    (λ _, True).
Proof.
  unfold root_tabs, root_node, session, node.
  destruct (sessions st !! sid) as [s|] eqn:Hs; simpl; [|done].
  destruct (nodes st !! s_root_node s) as [[]|] eqn:Hn; simpl; eauto.
Qed.

Lemma rename_tab_cosmetic i index title : is_cosmetic (rename_tab i index title).
Proof.
  intros st. unfold rename_tab. read_by tabs_of_returns; [|done].
  intros t Ht.
  destruct (t_tabs t !! index) as [tab|] eqn:Htab; [|done].
  apply wp_modify. eapply cosmetic_node; [done|]. apply alike_tabs.
  by eapply insert_tab_children.
Qed.

Lemma rename_root_tab_cosmetic sid index title : is_cosmetic (rename_root_tab sid index title).
Proof.
  intros st. unfold rename_root_tab. read_by root_tabs_returns; [|done].
  intros. apply rename_tab_cosmetic.
Qed.

Lemma set_root_tab_synchronize_cosmetic sid index e :
  is_cosmetic (set_root_tab_synchronize_panes sid index e).
Proof.
  intros st. unfold set_root_tab_synchronize_panes. read_by root_tabs_returns; [|done].
  intros i _.
  read_by tabs_of_returns; [|done]. intros t Ht.
  destruct (t_tabs t !! index) as [tab|] eqn:Htab; [|done].
  wp_step. apply wp_modify, wp_ret. eapply cosmetic_node; [done|]. apply alike_tabs.
  by eapply insert_tab_children.
Qed.

Lemma resize_split_children_cosmetic i sizes : is_cosmetic (resize_split_children i sizes).
Proof.
  intros st. unfold resize_split_children. read_by node_returns; [|done].
  intros [v|s|t] Hn; try done.
  destruct (Nat.eqb_spec (length sizes) (length (sp_children s))) as [Hl|]; simpl; [|done].
  destruct (existsb _ _); [done|]. apply wp_modify.
  eapply cosmetic_node; [done|]. split_and!; try done. simpl. intros [? ?]. by split.
Qed.

(** ** Buffers *)

Lemma mark_buffer_running_cosmetic bid pid : is_cosmetic (mark_buffer_running bid pid).
Proof.
  intros st. unfold mark_buffer_running. read_by buffer_returns; [|done].
  intros b Hb.
  destruct (is_exited _); [done|]. by apply cosmetic_buffer_mut; intros [].
Qed.
Lemma mark_buffer_interrupted_cosmetic bid pid : is_cosmetic (mark_buffer_interrupted bid pid).
Proof.
  intros st. unfold mark_buffer_interrupted. read_by buffer_returns; [|done].
  intros b Hb.
  destruct (is_exited _); [by apply wp_ret|]. by apply cosmetic_buffer_mut; intros [].
Qed.
Lemma mark_buffer_exited_cosmetic now bid c : is_cosmetic (mark_buffer_exited now bid c).
Proof. by apply cosmetic_buffer_mut; intros []. Qed.
Lemma set_buffer_placement_cosmetic bid p : is_cosmetic (set_buffer_placement bid p).
Proof. by apply cosmetic_buffer_mut; intros []. Qed.
Lemma set_buffer_size_cosmetic bid sz : is_cosmetic (set_buffer_size bid sz).
Proof. by apply cosmetic_buffer_mut; intros []. Qed.
Lemma set_buffer_title_cosmetic bid t : is_cosmetic (set_buffer_title bid t).
Proof. by apply cosmetic_buffer_mut; intros []. Qed.
Lemma set_buffer_activity_cosmetic bid a : is_cosmetic (set_buffer_activity bid a).
Proof. by apply cosmetic_buffer_mut; intros []. Qed.

Lemma note_buffer_output_cosmetic bid : is_cosmetic (note_buffer_output bid).
Proof.
  intros st. unfold note_buffer_output. read_by buffer_returns; [|done].
  intros b Hb. wp_step.
  eapply wp_mono; [apply (cosmetic_buffer_mut bid); by intros []|done|done].
Qed.

Lemma interrupt_unrecoverable_cosmetic : is_cosmetic interrupt_unrecoverable_buffers.
Proof. intros st. apply wp_modify, cosmetic_all_buffers. by intros []. Qed.

Lemma sync_buffer_view_size_cosmetic bid : is_cosmetic (sync_buffer_view_size bid).
Proof.
  intros st. unfold sync_buffer_view_size. read_by buffer_returns; [|done].
  intros b Hb.
  destruct (b_attachment b) as [view|]; [|by apply wp_ret]. read_by node_returns; [|done]. intros [v|s|t] Hn; try by apply wp_ret.
  case_bool_decide; [|by apply wp_ret]. wp_step. apply wp_modify, wp_ret.
  eapply cosmetic_node; [done|]. by split_and!.
Qed.
