(* ===== verification/Normalize.v ===== *)
(** Normalization after a removal ([normalize_upwards]): a container left with
    one child is replaced by the child, an empty popup is closed, and nothing
    else changes. The walk ends within its budget. *)

From stdpp Require Import relations.
From S2P Require Import Prelude Core Model Environment State Queries Buffers Focus.
From S2P Require Import Tree Layout Forest Invariant QueriesSpec FocusSpec Settle.
From S2P Require Import Surgery Owners Cosmetic.

(** ** Replacing a child in place *)

Lemma insert_perm {A} (l : list A) k x y :
  l !! k = Some x → <[k := y]> l ≡ₚ y :: delete k l.
Proof.
  intros Hk. pose proof (lookup_lt_Some _ _ _ Hk) as Hlt.
  rewrite insert_take_drop, delete_take_drop by done. by rewrite Permutation_middle.
Qed.

Lemma update_first_insert {A} (p : A → bool) f l i x :
  position p l = Some i → l !! i = Some x → update_first p f l = <[i := f x]> l.
Proof.
  revert i. induction l as [|y l IH]; intros i; simpl; [done|]. destruct (p y) eqn:Hy.
  - intros [= <-] [= ->]. done.
  - intros (j & Hj & ->)%fmap_Some Hi. simpl in *. by rewrite (IH j).
Qed.

(** [n'] is [n] with the child [new] in the place of [old]. *)
Record replaced (old new : N) (n n' : Node) : Prop := {
  rp_kind : same_kind n n';
  rp_parent : parent n' = parent n;
  rp_place : ∃ k, child_ids n !! k = Some old ∧ child_ids n' = <[k := new]> (child_ids n);
  rp_last : last_focused_descendant n' = last_focused_descendant n;
  rp_active : node_active n' = node_active n;
  rp_ok : node_ok n → node_ok n'
}.

Lemma replace_child_in_spec old new n :
  old ∈ child_ids n → ∃ n', replace_child_in old new n = Some n' ∧ replaced old new n n'.
Proof.
  destruct n as [v|s|t]; simpl; [by intros ?%elem_of_nil|..].
  - intros Hc. destruct (position _ _) as [i|] eqn:Hp; cycle 1.
    { rewrite position_None in Hp. specialize (Hp old Hc). by rewrite N.eqb_refl in Hp. }
    destruct (position_Some _ _ _ Hp) as (x & Hx & ->%N.eqb_eq & _).
    eexists. split; [done|]. split; try done; simpl; [by exists i|]. by rewrite length_insert.
  - intros Hc. destruct (position _ _) as [i|] eqn:Hp; cycle 1.
    { rewrite position_None in Hp. apply list_elem_of_fmap in Hc as (tab & -> & Htab).
      specialize (Hp tab Htab). by rewrite N.eqb_refl in Hp. }
    destruct (position_Some _ _ _ Hp) as (x & Hx & He%N.eqb_eq & _).
    rewrite (update_first_insert _ _ _ _ _ Hp Hx).
    eexists. split; [done|]. split; try done; simpl.
    + exists i. rewrite list_fmap_insert, list_lookup_fmap, Hx. simpl. by rewrite He.
    + rewrite length_insert. intros [?|[Ht _]]; [by left|]. by rewrite Ht in Hx.
Qed.

Lemma replaced_perm old new n n' :
  replaced old new n n' → ∃ rest, child_ids n ≡ₚ old :: rest ∧ child_ids n' ≡ₚ new :: rest.
Proof.
  intros Hr. destruct (rp_place _ _ _ _ Hr) as (k & Hk & ->). exists (delete k (child_ids n)).
  split; [by apply delete_Permutation|by eapply insert_perm].
Qed.

Lemma replaced_length old new n n' :
  replaced old new n n' → length (child_ids n') = length (child_ids n).
Proof. intros Hr. destruct (rp_place _ _ _ _ Hr) as (k & _ & ->). by rewrite length_insert. Qed.

(** Setting the remembered leaf changes nothing else. *)
Lemma replaced_last old new n n' leaf :
  replaced old new n n' →
  let n2 := set_last_focused_descendant leaf n' in
  same_kind n n2 ∧ parent n2 = parent n ∧ child_ids n2 = child_ids n'
  ∧ (node_ok n → node_ok n2)
  ∧ (last_focused_descendant n2 = leaf ∨ last_focused_descendant n2 = last_focused_descendant n).
Proof.
  intros [Hk Hp _ Hl _ Hok]. destruct n' as [v|s|t]; simpl in *; split_and!; auto.
Qed.

(** ** Taking a container with one child out of its parent *)

Section splice.
Context {st : ServerState} {p i c : N} {np ni mc np' : Node}.
Context (W : wired st) (Hp : nodes st !! p = Some np) (Hi : nodes st !! i = Some ni).
Context (Hc : nodes st !! c = Some mc) (Hpar : parent ni = Some p).
Context (Hch : child_ids ni = [c]).
Context (Hkind : same_kind np np') (Hpp : parent np' = parent np).
Context (Hperm : ∃ rest, child_ids np ≡ₚ i :: rest ∧ child_ids np' ≡ₚ c :: rest).
Context (m' : gmap N Node).
Context (Hm : ∀ j, m' !! j = if decide (j = i) then None
                   else if decide (j = c) then Some (node_set_parent (Some p) mc)
                   else if decide (j = p) then Some np' else nodes st !! j).
Let F : forest (layout (nodes st)) := wi_forest _ W.
Let st' : ServerState := set_nodes (λ _, m') st.

Lemma splice_in : i ∈ child_ids np.
Proof. destruct Hperm as (rest & -> & _). by left. Qed.
Lemma splice_child : c ∈ child_ids ni.
Proof. rewrite Hch. by left. Qed.

Lemma splice_sessions : node_session ni = node_session np ∧ node_session mc = node_session np.
Proof.
  destruct (child_exists F _ _ _ Hp splice_in) as (x & Hx & _ & Es).
  destruct (child_exists F _ _ _ Hi splice_child) as (y & Hy & _ & Es').
  simplify_eq. split; congruence.
Qed.

Lemma splice_parent_c : parent mc = Some i.
Proof. destruct (child_exists F _ _ _ Hi splice_child) as (y & ? & ? & _). congruence. Qed.

Lemma splice_container : ∀ v, ni ≠ BufferView v.
Proof. intros v He. pose proof splice_child as Hx. rewrite He in Hx. by apply elem_of_nil in Hx. Qed.

Lemma splice_forest : forest (layout m').
Proof.
  destruct Hperm as (rest & Hpr & Hpr').
  apply (forest_splice F (p:=p) (i:=i) (c:=c) (x:=shape_of np) (y:=shape_of ni)
    (z:=shape_of mc) (rest:=rest)) with (cs := child_ids np').
  - by rewrite layout_lookup, Hp.
  - by rewrite layout_lookup, Hi.
  - by rewrite layout_lookup, Hc.
  - done.
  - done.
  - done.
  - intros j. rewrite layout_lookup, Hm. repeat case_decide; simpl; [done|..].
    + unfold shape_of. by destruct mc.
    + destruct Hkind as (_ & Hs & _). unfold shape_of. simpl. by rewrite Hs, Hpp.
    + by rewrite layout_lookup.
Qed.

Lemma splice_kind j n' : m' !! j = Some n' → ∃ n, nodes st !! j = Some n ∧ same_kind n n'.
Proof. rewrite Hm. repeat case_decide; intros; simplify_eq; eauto with mux. Qed.

Lemma splice_owned j : owned_root st j → ∃ n', m' !! j = Some n' ∧ parent n' = None.
Proof.
  intros Ho. destruct (owned_exists W j Ho) as [x Hx]. pose proof (owned_parent W j x Ho Hx) as Hn.
  pose proof splice_parent_c. rewrite Hm. repeat case_decide; simplify_eq; try congruence; eauto.
  exists np'. split; congruence.
Qed.

Lemma splice_inv D U :
  inv_but D U st → i ∈ D → (node_ok np → node_ok np') →
  (∀ leaf, last_focused_descendant np' = Some leaf → leaf_memory st leaf) →
  inv_but (D ∖ {[i]}) U st'.
Proof.
  intros [_ S A R] HiD Hok Hlast. split.
  - apply reshape_wired; [done|apply splice_forest|exact splice_kind|exact splice_owned].
  - intros j x. simpl. rewrite Hm. repeat case_decide; intros Hx HD; simplify_eq.
    + assert (node_ok mc) as Hmc by (apply (S c); [done|set_solver]). by destruct mc.
    + apply Hok, (S p); [done|]. set_solver.
    + apply (S j); [done|]. set_solver.
  - apply reshape_attached; [exact splice_kind| |done].
    intros j v Hj. rewrite Hm. repeat case_decide; simplify_eq; eauto.
  - apply reshape_remembers; [exact splice_kind| |done].
    intros j x leaf. rewrite Hm. repeat case_decide; intros Hx Hl; simplify_eq.
    + apply (re_node _ R c mc leaf Hc). by destruct mc.
    + by apply Hlast.
    + by apply (re_node _ R j x).
Qed.

Lemma splice_compact D :
  compact_but D st → i ∈ D → compact_but (D ∖ {[i]}) st'.
Proof.
  pose proof splice_parent_c as Hpc. intros C HiD j t. simpl. rewrite Hm.
  repeat case_decide; intros Hx Hn HD; simplify_eq.
  - destruct mc as [v|s|t0]; simplify_eq/=. apply (C c t0 Hc); [congruence|set_solver].
  - destruct Hperm as (rest & Hpr & Hpr'). destruct Hkind as (_ & _ & _ & Ht).
    destruct np as [v|s|t0]; try done. apply Permutation_length in Hpr, Hpr'. simpl in *.
    rewrite !length_fmap in *. assert (2 ≤ length (t_tabs t0)); [|lia].
    apply (C p t0 Hp); [congruence|set_solver].
  - apply (C j t Hx Hn). set_solver.
Qed.

Lemma splice_anchored X : anchored_but X st → anchored_but X st'.
Proof.
  intros A j x. simpl. rewrite Hm. repeat case_decide; intros Hx Hn HX; simplify_eq.
  - by destruct mc.
  - apply (A p np Hp); [congruence|done].
  - by apply (A j x).
Qed.

Lemma splice_local : local_to (node_session np) st st'.
Proof.
  destruct splice_sessions. apply reshape_local. intros j x Hj Hne. rewrite Hm.
  repeat case_decide; simplify_eq; congruence.
Qed.

Lemma splice_calm : calm st st'.
Proof.
  apply calm_nodes. intros j. rewrite Hm. pose proof splice_container.
  repeat case_decide; subst; rewrite ?Hi, ?Hc, ?Hp; try done; simpl.
  - by destruct ni.
  - by destruct mc.
  - by apply same_kind_pane.
Qed.
End splice.

(** What a step of the normalization keeps, for a walk started in [sid]. *)
Record tidied (D U : gset N) (sid : N) (st st' : ServerState) : Prop := {
  td_inv : inv_but D U st';
  td_compact : compact_but D st';
  td_anchored : anchored st';
  td_local : local_to sid st st';
  td_calm : calm st st'
}.

Lemma ensure_belongs_Ok st i n sid :
  nodes st !! i = Some n → node_session n = sid → ensure_node_belongs_to st i sid = Ok ().
Proof. intros Hi Hs. unfold ensure_node_belongs_to. rewrite (node_Ok _ _ _ Hi). simpl. by rewrite Hs, N.eqb_refl. Qed.

Lemma set_parent_wp st i p n (Q : unit → ServerState → Prop) E :
  nodes st !! i = Some n → Q () (set_nodes (insert i (node_set_parent p n)) st) →
  wp (set_parent i p) Q E st.
Proof. apply wp_node_mut. Qed.

(** [replace_child parent old new] on existing nodes of one session. *)
Lemma replace_child_wp st p i c np ni mc (Q : unit → ServerState → Prop) E :
  p ≠ i → p ≠ c → i ≠ c →
  nodes st !! p = Some np → nodes st !! i = Some ni → nodes st !! c = Some mc →
  node_session ni = node_session np → node_session mc = node_session np → i ∈ child_ids np →
  (∀ np', replaced i c np np' →
     Q () (set_nodes (λ ns, <[c := node_set_parent (Some p) mc]>
             (<[i := node_set_parent None ni]> (<[p := np']> ns))) st)) →
  wp (replace_child p i c) Q E st.
Proof.
  intros N1 N2 N3 Hp Hi Hc Hs1 Hs2 Hin HQ. unfold replace_child.
  destruct (replace_child_in_spec i c np Hin) as (np' & Hr & Hrep).
  wp_step. eapply wp_reads_ok; [by unfold node_session_id; rewrite (node_Ok _ _ _ Hp)|].
  wp_step. eapply wp_reads_ok; [by eapply ensure_belongs_Ok|].
  wp_step. eapply wp_reads_ok; [by eapply ensure_belongs_Ok|].
  wp_step. eapply wp_reads_ok; [by apply node_Ok|]. wp_step.
  assert (∀ (A : Type) (x y : A), match np with BufferView _ => x | _ => y end = y) as Hmatch.
  { intros A x y. by destruct np. }
  rewrite Hmatch, Hr. apply wp_modify. wp_step.
  eapply set_parent_wp; [simpl; by rewrite lookup_insert_ne|].
  eapply set_parent_wp; [simpl; by rewrite !lookup_insert_ne|]. by apply HQ.
Qed.

Lemma size_delete_lt {A} (m : gmap N A) i : is_Some (m !! i) → size (delete i m) < size m.
Proof. intros [x Hx]. rewrite <-(insert_delete_id m i x Hx) at 2. rewrite map_size_insert_None; [lia|]. apply lookup_delete_eq. Qed.

Lemma splice_wp D U st p i c ni :
  inv_but D U st → compact_but D st → anchored st → i ∈ D →
  nodes st !! i = Some ni → parent ni = Some p → child_ids ni = [c] →
  wp (replace_node_in_owner i c ;; remove_node i)
    (λ _ st', tidied (D ∖ {[i]}) U (node_session ni) st st'
              ∧ (∃ m, nodes st' !! c = Some m ∧ node_session m = node_session ni)
              ∧ size (nodes st') < size (nodes st))
    (λ _ _, False) st.
Proof.
  intros I C A HiD Hi Hpar Hch. pose proof (in_wired _ _ _ I) as W. pose proof (wi_forest _ W) as F.
  destruct (parent_exists F _ _ _ Hi Hpar) as (np & Hp & Hin).
  assert (c ∈ child_ids ni) as Hcin by (rewrite Hch; by left).
  destruct (child_exists F _ _ _ Hi Hcin) as (mc & Hc & Hpc & Hsc).
  destruct (child_exists F _ _ _ Hp Hin) as (ni' & Hni' & _ & Hsi). simplify_eq.
  assert (edge (layout (nodes st)) p i) as Epi by (apply layout_edge; eauto).
  assert (edge (layout (nodes st)) i c) as Eic by (apply layout_edge; eauto).
  assert (p ≠ i) as N1. { intros ->. by apply (edge_irrefl F i). }
  assert (i ≠ c) as N3. { intros ->. by apply (edge_irrefl F c). }
  assert (p ≠ c) as N2. { intros ->. apply (acyclic F c). eapply tc_l; [done|by constructor]. }
  destruct (resolve_focus_candidate_spec F c (in_remembers _ _ _ I) (mk_is_Some _ _ Hc))
    as (o & Ho & Hcand).
  wp_step. unfold replace_node_in_owner. wp_step.
  eapply wp_reads_ok; [by unfold node_session_id; rewrite (node_Ok _ _ _ Hi)|].
  wp_step. eapply wp_reads_ok; [by unfold node_parent; rewrite (node_Ok _ _ _ Hi); simpl; rewrite Hpar|].
  wp_step. eapply wp_reads_ok; [exact Ho|]. wp_step. eapply wp_reads_ok; [by apply node_Ok|].
  wp_step. apply wp_mono with (E := λ _ _, False) (Q := λ _ st1, st1 = st); [| |done].
  { apply wp_reads. destruct (last_focused_descendant np) as [leaf|]; [|done].
    case_bool_decide; [|done].
    destruct (subtree_contains_spec F i leaf (mk_is_Some _ _ Hi)) as (b & -> & _). done. }
  intros b st1 ->. wp_step.
  apply (replace_child_wp _ p i c np ni mc); try done; [congruence|].
  intros np' Hrep. set (st1 := set_nodes _ st).
  (* the final node map, whichever leaf [p] remembers *)
  assert (∀ np2, same_kind np np2 → parent np2 = parent np → child_ids np2 = child_ids np' →
    (node_ok np → node_ok np2) →
    (∀ leaf, last_focused_descendant np2 = Some leaf → leaf_memory st leaf) →
    ∀ st2, st2 = set_nodes (λ _, nodes st2) st →
      (∀ j, nodes st2 !! j = if decide (j = i) then None
                 else if decide (j = c) then Some (node_set_parent (Some p) mc)
                 else if decide (j = p) then Some np2 else nodes st !! j) →
    tidied (D ∖ {[i]}) U (node_session ni) st st2
    ∧ (∃ m, nodes st2 !! c = Some m ∧ node_session m = node_session ni)
    ∧ size (nodes st2) < size (nodes st)) as Hfin.
  { intros np2 Hk2 Hp2 Hc2 Hok2 Hl2 st2 Est2 Hm'. rewrite Est2. simpl.
    set (m' := nodes st2) in *. clearbody m'. clear Est2.
    assert (∃ rest, child_ids np ≡ₚ i :: rest ∧ child_ids np2 ≡ₚ c :: rest) as Hperm.
    { rewrite Hc2. by eapply replaced_perm. }
    split_and!.
    - split.
      + by apply (splice_inv W Hp Hi Hc Hpar Hch Hk2 Hp2 Hperm m' Hm').
      + by apply (splice_compact W Hp Hi Hc Hpar Hch Hk2 Hp2 Hperm m' Hm').
      + by apply (splice_anchored Hp Hc Hk2 Hp2 Hperm m' Hm').
      + rewrite Hsi. by apply (splice_local W Hp Hi Hc Hch Hperm m' Hm').
      + by apply (splice_calm Hp Hi Hc Hpar Hch Hk2 m' Hm').
    - exists (node_set_parent (Some p) mc). rewrite Hm', decide_False, decide_True by done.
      split; [done|]. rewrite <-Hsc. by destruct mc.
    - assert (dom m' = dom (delete i (nodes st))) as Hdom.
      { apply set_eq. intros j. rewrite !elem_of_dom, Hm', lookup_delete.
        repeat case_decide; subst; try done; rewrite ?Hc, ?Hp; by split. }
      rewrite <-(size_dom m'), Hdom, size_dom. apply size_delete_lt. eauto. }
  assert (∀ leaf, last_focused_descendant np = Some leaf → leaf_memory st leaf) as Hlastp.
  { intros leaf. by apply (re_node _ (in_remembers _ _ _ I) p). }
  wp_step.
  - (* the remembered leaf is replaced *)
    intros ->. eapply wp_node_mut.
    { unfold st1. simpl. by rewrite lookup_insert_ne, lookup_insert_ne, lookup_insert_eq. }
    apply wp_modify. destruct (replaced_last i c np np' o Hrep) as (K1 & K2 & K3 & K4 & K5).
    apply (Hfin (set_last_focused_descendant o np') K1 K2 K3 K4); [|done|].
    + intros leaf Hl. destruct K5 as [He|He]; [|apply Hlastp; congruence].
      rewrite He in Hl. subst o. destruct Hcand as (Hv & _ & _). by apply view_memory.
    + intros j. unfold st1. simpl. rewrite lookup_delete, !lookup_insert.
      repeat case_decide; congruence.
  - intros ->. apply wp_modify. destruct Hrep as [K1 K2 K3 K4 K5 K6].
    apply (Hfin np' K1 K2 eq_refl K6); [|done|].
    + intros leaf. rewrite K4. apply Hlastp.
    + intros j. unfold st1. simpl. rewrite lookup_delete, !lookup_insert.
      repeat case_decide; congruence.
Qed.

(** ** Dropping a container without children *)

Lemma childless_below st i n :
  nodes st !! i = Some n → child_ids n = [] → ∀ j, below st i j ↔ j = i.
Proof.
  intros Hi Hc j. split; [|intros ->; reflexivity].
  intros [|(c & Hcin & _)]%(below_inv _ n _ Hi); [done|]. rewrite Hc in Hcin.
  by apply elem_of_nil in Hcin.
Qed.

Lemma pruned_delete st i n :
  nodes st !! i = Some n → child_ids n = [] → is_buffer_view n = false →
  pruned (below st i) st (set_nodes (delete i) st).
Proof.
  intros Hi Hc Hn. apply (pruned_ext (λ j, j = i)).
  { intros j. symmetry. by eapply childless_below. }
  split; simpl; try done.
  - intros j ->. apply lookup_delete_eq.
  - intros j Hj. apply lookup_delete_ne. congruence.
  - intros bid b Hb. exists b. split; [done|]. right. split; [|done].
    intros (j & -> & (v & Hv & _) & _). by simplify_eq.
  - exists (buffers st), (delete i (nodes st)). done.
Qed.

Lemma delete_root_tidied U st i n :
  inv_but {[i]} U st → compact_but {[i]} st → anchored_but {[i]} st →
  nodes st !! i = Some n → parent n = None → child_ids n = [] → is_buffer_view n = false →
  ¬ owned_root st i → tidied ∅ U (node_session n) st (set_nodes (delete i) st).
Proof.
  intros I C A Hi Hp Hc Hv Hfree. pose proof (in_wired _ _ _ I) as W.
  pose proof (pruned_delete st i n Hi Hc Hv) as P.
  assert (inv_but {[i]} U (set_nodes (delete i) st)) as I'.
  { by eapply (prune_inv W Hi Hp Hfree P). }
  split.
  - destruct I' as [W' S' A' R']. split; [done| |done|done]. intros j x Hj _. apply (S' j x Hj).
    rewrite elem_of_singleton. intros ->. simpl in Hj. by rewrite lookup_delete_eq in Hj.
  - intros j t Hj Hn _. simpl in Hj. apply lookup_delete_Some in Hj as [Hne Hj].
    apply (C j t Hj Hn). set_solver.
  - apply (prune_anchored W P). intros j x Hj Hx HX. apply (A j x Hj Hx). set_solver.
  - by apply (prune_local W Hi P).
  - by eapply calm_delete.
Qed.

Lemma owned_root_cases st i n :
  wired st → nodes st !! i = Some n → owned_root st i →
  (is_session_root st i = true ∧ is_tabs n = true)
  ∨ ∃ fid w, floating st !! fid = Some w ∧ f_root_node w = i
             ∧ floating_id_by_root st i = Some fid ∧ is_session_root st i = false.
Proof.
  intros W Hi. destruct (is_session_root st i) eqn:Hr.
  - intros _. left. split; [done|]. apply is_session_root_spec in Hr as (sid & s & Hs & Hsr).
    destruct (so_root _ _ _ (wi_session _ W _ _ Hs)) as (t & Ht & _). by simplify_eq.
  - intros [Ho|(fid & w & Hw & Hwr)].
    + exfalso. apply not_true_iff_false in Hr. by apply Hr, is_session_root_spec.
    + right. exists fid, w. split_and!; try done. apply (floating_id_by_root_Some W). eauto.
Qed.

Lemma unroot_wp U st i c ni fid w :
  inv_but {[i]} U st → compact_but {[i]} st → anchored st →
  nodes st !! i = Some ni → parent ni = None → child_ids ni = [c] → is_tabs ni = false →
  floating st !! fid = Some w → f_root_node w = i →
  wp (replace_node_in_owner i c ;; remove_node i)
    (λ _ st', tidied ∅ U (node_session ni) st st'
              ∧ (∃ m, nodes st' !! c = Some m ∧ node_session m = node_session ni)
              ∧ size (nodes st') < size (nodes st))
    (λ _ _, False) st.
Proof.
  intros I C A Hi Hpar Hch Hnt Hw Hwr. pose proof (in_wired _ _ _ I) as W.
  pose proof (wi_forest _ W) as F.
  assert (c ∈ child_ids ni) as Hcin by (rewrite Hch; by left).
  destruct (child_exists F _ _ _ Hi Hcin) as (mc & Hc & Hpc & Hsc).
  assert (c ≠ i) as Hne. { intros ->. apply (edge_irrefl F i), layout_edge. eauto. }
  destruct (wo_root _ _ _ (wi_window _ W _ _ Hw)) as (ni' & Hni' & _ & Hws).
  rewrite Hwr, Hi in Hni'. injection Hni' as <-.
  destruct (owned_root_cases st i ni W Hi) as [[_ ?]|(fid' & w' & Hw' & Hwr' & Hfid & Hroot)];
    [by right; eauto|congruence|].
  assert (fid' = fid) as -> by (apply (wi_roots _ W _ _ w' w); congruence).
  destruct (resolve_focus_candidate_spec F c (in_remembers _ _ _ I) (mk_is_Some _ _ Hc))
    as (o & Ho & _).
  wp_step. unfold replace_node_in_owner. wp_step.
  eapply wp_reads_ok; [by unfold node_session_id; rewrite (node_Ok _ _ _ Hi)|].
  wp_step. eapply wp_reads_ok; [by unfold node_parent; rewrite (node_Ok _ _ _ Hi); simpl; rewrite Hpar|].
  wp_step. eapply wp_reads_ok; [exact Ho|]. wp_step. apply wp_gets. rewrite Hroot.
  wp_step. apply wp_gets. rewrite Hfid. wp_step. eapply wp_floating_mut; [exact Hw|].
  wp_step. eapply set_parent_wp; [done|].
  eapply set_parent_wp; [simpl; by rewrite lookup_insert_ne|]. apply wp_modify.
  (* the same state by unlinking, giving the popup its new root and dropping [i] *)
  destruct (remove_child_in_spec c ni Hcin) as (ni2 & _ & Hu).
  set (stA := set_nodes (λ _, relink c mc None i ni2 (nodes st)) st).
  assert (inv_but {[i]} U stA) as IA.
  { replace ({[i]} : gset N) with ({[i]} ∪ {[i]} : gset N) by set_solver.
    by apply (unlink_inv W Hi Hc Hcin Hu). }
  assert (compact_but {[i]} stA) as CA.
  { replace ({[i]} : gset N) with ({[i]} ∪ {[i]} : gset N) by set_solver.
    by apply (unlink_compact W Hi Hc Hcin). }
  assert (anchored_but ({[c]} ∪ ∅) stA) as AA by by apply (unlink_anchored W Hi Hc Hcin Hu).
  assert (¬ owned_root stA c) as Hfree by exact (unlink_not_owned W Hi Hc Hcin Hu).
  assert (nodes stA !! c = Some (node_set_parent None mc)) as HcA.
  { simpl. by rewrite (unlink_lookup W Hi Hc Hcin), decide_True. }
  assert (nodes stA !! i = Some ni2) as HiA.
  { simpl. by rewrite (unlink_lookup W Hi Hc Hcin), decide_False, decide_True. }
  assert (node_session (node_set_parent None mc) = f_session_id w) as HsA.
  { rewrite <-Hws, <-Hsc. by destruct mc. }
  assert (parent (node_set_parent None mc) = None) as HpA by by destruct mc.
  set (stB := set_floating (insert fid (f_set_root_node c w)) stA).
  assert (inv_but {[i]} U stB) as IB.
  { by apply (reroot_inv (st:=stA) (in_wired _ _ _ IA) Hw HcA HpA HsA Hfree). }
  assert (anchored_but {[i]} stB) as AB.
  { replace ({[i]} : gset N) with ({[f_root_node w]} ∪ ∅ : gset N) by set_solver.
    by apply (reroot_anchored (st:=stA) (in_wired _ _ _ IA) Hw HcA HpA HsA Hfree). }
  assert (¬ owned_root stB i) as HfreeB.
  { intros Hown%(reroot_owned (st:=stA) (in_wired _ _ _ IA) Hw). naive_solver. }
  assert (child_ids ni2 = []) as Hch2.
  { pose proof (ul_children _ _ _ Hu) as Hperm. rewrite Hch in Hperm.
    apply Permutation_length in Hperm. simpl in Hperm. apply nil_length_inv. lia. }
  assert (parent ni2 = None) as Hpar2 by (rewrite (ul_parent _ _ _ Hu); congruence).
  destruct (ul_kind _ _ _ Hu) as (_ & Hs2 & Hv2 & _).
  assert (is_buffer_view ni2 = false) as Hbv2.
  { rewrite (same_kind_view _ _ (ul_kind _ _ _ Hu)). destruct ni; try done. }
  pose proof (delete_root_tidied U stB i ni2 IB CA AB HiA Hpar2 Hch2 Hbv2 HfreeB) as T.
  set (stC := set_nodes (delete i) stB).
  assert (set_nodes (delete i) (set_nodes (insert i (node_set_parent None ni))
    (set_nodes (insert c (node_set_parent None mc))
       (set_floating (insert fid (f_set_root_node c w)) st))) = stC) as ->.
  { unfold stC, stB, stA, set_nodes, set_floating. simpl. f_equal. apply map_eq. intros j.
    rewrite !lookup_delete. case_decide; [done|]. unfold relink.
    rewrite !lookup_insert. repeat case_decide; congruence. }
  rewrite Hs2 in T. destruct T as [T1 T2 T3 T4 T5]. split_and!.
  - split; try done. etrans; [|exact T4]. etrans.
    + apply (unlink_local (n':=ni2) W Hi Hc Hcin _ eq_refl).
    + rewrite Hws. by apply (reroot_local (st:=stA) Hw HsA).
    + etrans; [|exact T5]. etrans; [by apply (unlink_calm (n':=ni2) W Hi Hc Hcin Hu)|done].
  - exists (node_set_parent None mc). unfold stC. simpl. rewrite lookup_delete_ne by done.
    split; [done|]. by rewrite HsA, Hws.
  - unfold stC. simpl. unfold relink.
    assert (dom (delete i (<[c:=node_set_parent None mc]> (<[i:=ni2]> (nodes st))))
            = dom (delete i (nodes st))) as Hdom.
    { apply set_eq. intros j. rewrite !elem_of_dom, !lookup_delete, !lookup_insert.
      repeat case_decide; subst; try done; rewrite Hc; by split. }
    rewrite <-size_dom, Hdom, size_dom. apply size_delete_lt. eauto.
Qed.

(** ** One step *)

(** What a container may look like after one of its children went. *)
Definition thinned (n : Node) : Prop :=
  (node_ok n ∨ is_tabs n = false ∧ length (child_ids n) = 1)
  ∧ (is_buffer_view n = false → parent n ≠ None → child_ids n ≠ []).

(** Where the walk goes next: up, to the child that took the node's place, or
    nowhere. *)
Definition goes_on (n : Node) (st st' : ServerState) (next : option N) : Prop :=
  next = parent n ∧ layout (nodes st') = layout (nodes st)
  ∨ (length (child_ids n) = 1 ∧ (is_tabs n = true → parent n ≠ None)
     ∧ ∃ c m, next = Some c ∧ nodes st' !! c = Some m ∧ node_session m = node_session n
              ∧ size (nodes st') < size (nodes st))
  ∨ next = None.

Definition step_post (U : gset N) (n : Node) (st : ServerState) (next : option N)
    (st' : ServerState) : Prop :=
  tidied ∅ U (node_session n) st st' ∧ goes_on n st st' next.

Lemma clean_inv U st i n :
  inv_but {[i]} U st → nodes st !! i = Some n → node_ok n → inv_but ∅ U st.
Proof.
  intros [W S A R] Hi Hok. split; try done. intros j m Hj _.
  destruct (decide (j = i)) as [->|]; [congruence|]. apply (S j m Hj). set_solver.
Qed.

Lemma clean_compact st i n :
  compact_but {[i]} st → nodes st !! i = Some n →
  (∀ t, n = Tabs t → parent n ≠ None → 2 ≤ length (t_tabs t)) → compact st.
Proof.
  intros C Hi Hn j t Hj Hp _. destruct (decide (j = i)) as [->|].
  - simplify_eq. by apply Hn.
  - apply (C j t Hj Hp). set_solver.
Qed.

Lemma unchanged_step U st i n :
  inv_but {[i]} U st → compact_but {[i]} st → anchored st → nodes st !! i = Some n → node_ok n →
  (∀ t, n = Tabs t → parent n ≠ None → 2 ≤ length (t_tabs t)) →
  step_post U n st (parent n) st.
Proof.
  intros I C A Hi Hok Hc. split; [|by left]. split.
  - by eapply clean_inv.
  - by eapply clean_compact.
  - exact A.
  - reflexivity.
  - reflexivity.
Qed.

Lemma normalize_split_wp U st i s :
  inv_but {[i]} U st → compact_but {[i]} st → anchored st →
  nodes st !! i = Some (Split s) → thinned (Split s) →
  wp (normalize_split_node i) (step_post U (Split s) st) (λ _ _, False) st.
Proof.
  intros I C A Hi [Hok _]. pose proof (in_wired _ _ _ I) as W. unfold normalize_split_node.
  wp_step. eapply wp_reads_ok; [by apply node_Ok|]. cbn [child_ids node_ok is_tabs] in Hok.
  cbn beta iota. destruct (sp_children s) as [|c [|c' cs]] eqn:Hch.
  - simpl in Hok. lia.
  - (* the only child takes the place of the split *)
    apply (wp_assoc (replace_node_in_owner i c) (λ _, remove_node i)).
    apply wp_bind. destruct (sp_parent s) as [p|] eqn:Hp.
    + eapply wp_mono; [apply (splice_wp {[i]} U st p i c (Split s) I C A)| |done].
      { set_solver. }
      { exact Hi. }
      { exact Hp. }
      { simpl. by rewrite Hch. }
      intros [] st' (T & (mc & Hmc & Hsm) & Hsz). apply wp_ret. split.
      * by rewrite difference_diag_L in T.
      * right; left. simpl. rewrite Hch. split_and!; [done|done|by exists c, mc].
    + assert (owned_root st i) as Ho by (apply (A i _ Hi); [done|set_solver]).
      destruct (owned_root_cases st i _ W Hi Ho) as [[_ ?]|(fid & w & Hw & Hwr & _)]; [done|].
      eapply wp_mono; [apply (unroot_wp U st i c (Split s) fid w I C A Hi Hp)| |done].
      { simpl. by rewrite Hch. }
      { reflexivity. }
      { exact Hw. }
      { exact Hwr. }
      intros [] st' (T & (mc & Hmc & Hsm) & Hsz). apply wp_ret. split; [done|].
      right; left. simpl. rewrite Hch. split_and!; [done|done|by exists c, mc].
  - rewrite <-Hch. destruct Hok as [[Hlen Hsz]|[_ ?]]; [|done]. wp_step. wp_step.
    + intros _. apply wp_modify, wp_ret.
      set (n' := Split (sp_set_children (sp_children s) (replicate (length (sp_children s)) 1%N) s)).
      assert (cosmetic st (set_nodes (insert i n') st)) as Hcos.
      { eapply cosmetic_node; [done|]. split_and!; try done. simpl.
        rewrite length_replicate, Hch. intros _. split; [done|by rewrite <-Hch]. }
      split; [split|].
      * apply (cosmetic_inv Hcos). eapply clean_inv; [done..|]. simpl. by rewrite Hch.
      * apply (like_compact (cm_like _ _ Hcos)). by eapply clean_compact.
      * by apply (like_anchored (cm_like _ _ Hcos)).
      * apply reshape_local. intros j n Hj Hne. rewrite lookup_insert_ne; [done|].
        intros ->. simplify_eq/=.
      * by eapply calm_insert.
      * left. split; [done|]. by eapply layout_insert_same.
    + intros _. apply wp_ret. apply (unchanged_step U st i (Split s)); try done.
      simpl. by rewrite Hch.
Qed.

(** Writing the tabs node [i] with other focus fields only. *)
Lemma refocused_step U st i t t' :
  inv_but {[i]} U st → compact_but {[i]} st → anchored st →
  nodes st !! i = Some (Tabs t) → scrub_node (Tabs t') = scrub_node (Tabs t) →
  node_ok (Tabs t) → node_ok (Tabs t') →
  (∀ leaf, t_last_focused_descendant t' = Some leaf → t_last_focused_descendant t = Some leaf) →
  (t_parent t ≠ None → 2 ≤ length (t_tabs t)) →
  step_post U (Tabs t) st (t_parent t) (set_nodes (insert i (Tabs t')) st).
Proof.
  intros I C A Hi Hs Hok Hok' Hl Hc.
  assert (refocused st (set_nodes (insert i (Tabs t')) st)) as R.
  { eapply refocused_node; [done..|]. intros leaf ?. left. by apply Hl. }
  split; [split|].
  - eapply refocused_inv; [exact R|]. by eapply clean_inv.
  - eapply refocused_compact; [exact R|]. eapply clean_compact; [exact C|exact Hi|].
    intros t0 [= <-]. exact Hc.
  - by eapply refocused_anchored.
  - by eapply frame_local, frame_node.
  - apply calm_scrub, R.
  - left. split; [done|]. apply scrub_layout, R.
Qed.

Lemma empty_popup_step U st i t fid w :
  inv_but {[i]} U st → compact_but {[i]} st → anchored st →
  nodes st !! i = Some (Tabs t) → t_parent t = None → t_tabs t = [] →
  floating st !! fid = Some w → f_root_node w = i →
  tidied ∅ U (t_session_id t) st (set_nodes (delete i) (without_window fid w st)).
Proof.
  intros I C A Hi Hp Ht Hw Hwr. pose proof (in_wired _ _ _ I) as W.
  destruct (wo_root _ _ _ (wi_window _ W _ _ Hw)) as (n & Hn & _ & Hns).
  rewrite Hwr, Hi in Hn. injection Hn as <-. simpl in Hns.
  set (stB := without_window fid w st).
  assert (inv_but {[i]} U stB) as IB by by apply without_inv.
  assert (compact_but {[i]} stB) as CB by exact C.
  assert (anchored_but {[i]} stB) as AB.
  { intros j x Hj Hx HX. apply (without_anchored W Hw ∅ A j x Hj Hx). set_solver. }
  assert (¬ owned_root stB i) as Hfree.
  { intros Ho%(without_owned W Hw). naive_solver. }
  pose proof (delete_root_tidied U stB i (Tabs t) IB CB AB Hi Hp) as T.
  destruct T as [T1 T2 T3 T4 T5]; [simpl; by rewrite Ht|done|done|].
  split; [done..| |].
  - etrans; [|exact T4]. simpl. rewrite Hns. by apply without_local.
  - etrans; [|exact T5]. by apply without_calm.
Qed.

Lemma normalize_tabs_wp U st i t :
  inv_but {[i]} U st → compact_but {[i]} st → anchored st →
  nodes st !! i = Some (Tabs t) → thinned (Tabs t) →
  wp (normalize_tabs_node i) (step_post U (Tabs t) st) (λ _ _, False) st.
Proof.
  intros I C A Hi [Hok Hne]. pose proof (in_wired _ _ _ I) as W.
  destruct Hok as [Hok|[[=] _]]. unfold normalize_tabs_node.
  wp_step. eapply wp_reads_ok; [by apply node_Ok|]. cbn beta iota.
  wp_step. apply wp_gets. wp_step. apply wp_gets. cbn [parent child_ids] in Hne.
  destruct (t_tabs t) as [|tab rest] eqn:Ht.
  - assert (t_parent t = None) as Hp.
    { destruct (t_parent t) eqn:Hp; [|done]. exfalso. by apply Hne. }
    destruct (owned_root_cases st i _ W Hi) as [[-> _]|(fid & w & Hw & Hwr & -> & ->)].
    { by apply (A i _ Hi Hp), not_elem_of_empty. }
    + wp_step. apply wp_modify, wp_ret.
      apply (refocused_step U st i t _ I C A Hi).
      * unfold scrub_node, t_set_last, t_set_tabs. simpl. by rewrite Ht.
      * done.
      * by right.
      * done.
      * done.
    + wp_step. eapply wp_mono; [by apply remove_floating_window_wp| |done].
      intros w' st' [-> ->]. wp_step. apply wp_modify, wp_ret. rewrite Hwr.
      split; [|right; by right]. by apply (empty_popup_step U st i t fid w).
  - destruct (bool_decide (rest = []) && bool_decide (floating_id_by_root st i = None)
              && negb (is_session_root st i)) eqn:Hc.
    + apply andb_prop in Hc as [[->%bool_decide_eq_true Hf%bool_decide_eq_true]%andb_prop
        Hr%negb_true_iff].
      destruct (t_parent t) as [p|] eqn:Hp; cycle 1.
      { exfalso. destruct (owned_root_cases st i _ W Hi) as [[? _]|(fid & w & _ & _ & ? & _)].
        - by apply (A i _ Hi Hp), not_elem_of_empty.
        - congruence.
        - congruence. }
      apply (wp_assoc (replace_node_in_owner i (te_child tab)) (λ _, remove_node i)). apply wp_bind.
      eapply wp_mono; [apply (splice_wp {[i]} U st p i (te_child tab) (Tabs t) I C A)| |done].
      { set_solver. }
      { exact Hi. }
      { exact Hp. }
      { simpl. by rewrite Ht. }
      intros [] st' (T & (mc & Hmc & Hsm) & Hsz). apply wp_ret. split.
      * by rewrite difference_diag_L in T.
      * right; left. simpl. rewrite Ht, Hp. split_and!; [done|done|by exists (te_child tab), mc].
    + assert (t_parent t ≠ None → 2 ≤ length (t_tabs t)) as Hlen.
      { intros Hp. rewrite Ht. simpl. destruct rest as [|? ?]; [|simpl; lia]. exfalso.
        assert (¬ owned_root st i) as Hno.
        { intros Ho. by pose proof (owned_parent W i _ Ho Hi). }
        rewrite (bool_decide_true (@nil TabEntry = []) eq_refl) in Hc. simpl in Hc.
        apply andb_false_iff in Hc as [Hf%bool_decide_eq_false|Hr%negb_false_iff].
        - destruct (floating_id_by_root st i) as [fid|] eqn:Hfid; [|done].
          apply (floating_id_by_root_Some W) in Hfid as (w & ? & ?). apply Hno. right. eauto.
        - apply Hno. left. by apply is_session_root_spec. }
      rewrite <-Ht. wp_step. wp_step.
      * intros Hle%Nat.leb_le. exfalso. destruct Hok as [Hok|[Hok _]]; [lia|congruence].
      * intros _. apply wp_ret. apply (unchanged_step U st i (Tabs t)); try done.
        by intros ? [= <-].
Qed.

(** ** The whole walk *)

Lemma tidied_trans U sid st st1 st2 :
  tidied ∅ U sid st st1 → tidied ∅ U sid st1 st2 → tidied ∅ U sid st st2.
Proof.
  intros [_ _ _ L1 S1] [I2 C2 A2 L2 S2]. split; [done..|by etrans|by etrans].
Qed.

Lemma tidied_refl U sid st :
  inv_but ∅ U st → compact st → anchored st → tidied ∅ U sid st st.
Proof. intros. split; [done..|reflexivity|reflexivity]. Qed.

Lemma normalize_one_wp U st i n :
  inv_but {[i]} U st → compact_but {[i]} st → anchored st → nodes st !! i = Some n → thinned n →
  wp (match n with
      | BufferView _ => reads (λ st, node_parent st i)
      | Split _ => normalize_split_node i
      | Tabs _ => normalize_tabs_node i
      end) (step_post U n st) (λ _ _, False) st.
Proof.
  intros I C A Hi Hth. destruct n as [v|s|t].
  - eapply wp_reads_ok; [by unfold node_parent; rewrite (node_Ok _ _ _ Hi)|].
    by eapply (unchanged_step U st i (BufferView v)).
  - by apply normalize_split_wp.
  - by apply normalize_tabs_wp.
Qed.

Lemma clean_thinned U st i n :
  inv_but ∅ U st → compact st → nodes st !! i = Some n → thinned n.
Proof.
  intros I C Hi. assert (node_ok n) as Hok by (apply (in_shaped _ _ _ I i n Hi); set_solver).
  split; [by left|]. intros Hv Hp. destruct n as [v|s|t]; simpl in *; [done|..].
  - intros He. rewrite He in Hok. simpl in Hok. lia.
  - intros He%fmap_nil_inv. assert (2 ≤ length (t_tabs t)) as Hl.
    { apply (C i t Hi Hp). set_solver. }
    rewrite He in Hl. simpl in Hl. lia.
Qed.

Lemma clean_step U st i n next st' :
  inv_but ∅ U st → compact st → nodes st !! i = Some n → step_post U n st next st' →
  next = None ∨ next = parent n ∧ layout (nodes st') = layout (nodes st).
Proof.
  intros I C Hi [_ [?|[(Hl & Hp & _)|?]]]; [by right| |by left]. exfalso.
  assert (node_ok n) as Hok by (apply (in_shaped _ _ _ I i n Hi); set_solver).
  destruct n as [v|s|t]; simpl in *; [done|lia|]. rewrite length_fmap in Hl.
  assert (2 ≤ length (t_tabs t)); [|lia]. apply (C i t Hi); [by apply Hp|set_solver].
Qed.

(** From a node of a clean state the walk only goes up. *)
Lemma normalize_clean_wp U sid st i :
  inv_but ∅ U st → compact st → anchored st →
  (∀ n, nodes st !! i = Some n → node_session n = sid) → is_Some (nodes st !! i) →
  wp (normalize_upwards_in (budget st) (Some i)) (λ _ st', tidied ∅ U sid st st')
    (λ _ _, False) st.
Proof.
  intros I C A Hsid Hi. pose proof (wi_forest _ (in_wired _ _ _ I)) as F.
  revert i Hi Hsid.
  cut (∀ i, is_Some (nodes st !! i) → ∀ st1, inv_but ∅ U st1 → compact st1 → anchored st1 →
    layout (nodes st1) = layout (nodes st) →
    (∀ n, nodes st1 !! i = Some n → node_session n = sid) →
    wp (normalize_upwards_in (budget st) (Some i)) (λ _ st', tidied ∅ U sid st1 st')
      (λ _ _, False) st1).
  { intros Hgen i Hi Hsid. by apply Hgen. }
  apply (walk_up F (λ fuel i, ∀ st1, inv_but ∅ U st1 → compact st1 → anchored st1 →
    layout (nodes st1) = layout (nodes st) →
    (∀ n, nodes st1 !! i = Some n → node_session n = sid) →
    wp (normalize_upwards_in fuel (Some i)) (λ _ st', tidied ∅ U sid st1 st')
      (λ _ _, False) st1)).
  intros fuel i n0 Hn0 IH st1 I1 C1 A1 L1 Hsid. cbn [normalize_upwards_in].
  assert (∃ n, nodes st1 !! i = Some n ∧ parent n = parent n0) as (n & Hn & Hpar).
  { apply (f_equal (lookup i)) in L1. rewrite !layout_lookup, Hn0 in L1.
    destruct (nodes st1 !! i) as [n|]; [|done]. injection L1 as _ Hp _. eauto. }
  pose proof (wi_forest _ (in_wired _ _ _ I1)) as F1.
  wp_step. apply wp_gets. rewrite Hn. wp_step.
  eapply wp_mono; [apply (normalize_one_wp U st1 i n)| |done].
  { apply (inv_weaken ∅ U); [set_solver|set_solver|done]. }
  { intros j t Hj Hp _. apply (C1 j t Hj Hp). set_solver. }
  { done. } { done. } { by eapply clean_thinned. }
  intros next st2 Hpost. destruct (clean_step U st1 i n next st2 I1 C1 Hn Hpost) as [->|[-> L2]].
  { rewrite <-(Hsid n Hn). destruct fuel; apply wp_ret, Hpost. }
  destruct Hpost as [T _]. rewrite (Hsid n Hn) in T. pose proof T as [I2 C2 A2 _ _].
  destruct (parent n) as [p|] eqn:Hp; [|by destruct fuel; apply wp_ret].
  eapply wp_mono; [apply (IH p); [by rewrite <-Hpar|done..| |]| |done].
  - by rewrite L2.
  - intros m Hm. destruct (parent_exists F1 _ _ _ Hn Hp) as (m1 & Hm1 & Hin).
    destruct (child_exists F1 _ _ _ Hm1 Hin) as (n' & Hn' & _ & Hs). simplify_eq.
    apply (f_equal (lookup p)) in L2. rewrite !layout_lookup, Hm, Hm1 in L2.
    injection L2 as Hsm _ _. rewrite Hsm, <-Hs. by apply Hsid.
  - intros [] st' T'. by eapply tidied_trans.
Qed.

(** More budget does not change the result. *)
Lemma normalize_more_fuel fuel fuel' o st Q E :
  fuel ≤ fuel' → wp (normalize_upwards_in fuel o) Q E st →
  wp (normalize_upwards_in fuel' o) Q E st.
Proof.
  revert fuel' o st. induction fuel as [|fuel IH]; intros fuel' o st Hle.
  - destruct o as [i|]; simpl; [done|]. by destruct fuel'.
  - destruct fuel' as [|fuel']; [lia|]. destruct o as [i|]; [|done]. simpl.
    unfold wp, mbind, ST_bind. simpl. destruct (nodes st !! i) as [n|]; [|done].
    set (m := match n with BufferView _ => _ | _ => _ end). clearbody m.
    destruct (m st) as [[next| | |] st1]; try done. apply IH. lia.
Qed.

Lemma normalize_upwards_wp U st i n :
  inv_but {[i]} U st → compact_but {[i]} st → anchored st → nodes st !! i = Some n → thinned n →
  wp (normalize_upwards i) (λ _ st', tidied ∅ U (node_session n) st st') (λ _ _, False) st.
Proof.
  intros I C A Hi Hth. unfold normalize_upwards. wp_step. apply wp_gets.
  assert (∃ fuel, 2 * budget st = S fuel ∧ budget st ≤ fuel) as (fuel & -> & Hfuel).
  { unfold budget. exists (2 * size (nodes st) + 1). split; [lia|].
    assert (size (nodes st) ≠ 0); [|lia]. apply map_size_ne_0_lookup. eauto. }
  cbn [normalize_upwards_in]. wp_step. apply wp_gets. rewrite Hi. wp_step.
  eapply wp_mono; [by apply (normalize_one_wp U st i n)| |done].
  intros next st1 [T Hgo]. pose proof T as [I1 C1 A1 _ _].
  assert (∀ c, is_Some (nodes st1 !! c) → size (nodes st1) ≤ size (nodes st) →
    (∀ m, nodes st1 !! c = Some m → node_session m = node_session n) →
    wp (normalize_upwards_in fuel (Some c)) (λ _ st', tidied ∅ U (node_session n) st st')
      (λ _ _, False) st1) as Hwalk.
  { intros c Hc Hb Hs. apply (normalize_more_fuel (budget st1)); [unfold budget in *; lia|].
    eapply wp_mono; [by apply (normalize_clean_wp U (node_session n))| |done].
    intros [] st' T'. by eapply tidied_trans. }
  destruct Hgo as [[-> L]|[(_ & _ & c & m & -> & Hc & Hs & Hsz)| ->]].
  - destruct (parent n) as [p|] eqn:Hp; [|by destruct fuel; apply wp_ret].
    pose proof (wi_forest _ (in_wired _ _ _ I)) as F.
    destruct (parent_exists F _ _ _ Hi Hp) as (m & Hm & Hin).
    destruct (child_exists F _ _ _ Hm Hin) as (n' & Hn' & _ & Hs).
    assert (n' = n) as -> by congruence. apply Hwalk.
    + rewrite <-layout_dom, L, layout_dom. eauto.
    + by rewrite <-(layout_size (nodes st1)), L, layout_size.
    + intros m1 Hm1. apply (f_equal (lookup p)) in L. rewrite !layout_lookup, Hm, Hm1 in L.
      injection L as Hsm _ _. congruence.
  - apply Hwalk; [eauto|lia|]. intros m' Hm'. congruence.
  - by destruct fuel; apply wp_ret.
Qed.
