(* ===== verification/Closing.v ===== *)
(** Closing panes, tabs and sessions: what goes and what stays, and nodes handed out
    afresh. *)

From stdpp Require Import relations.
From S2P Require Import Prelude Core Model Environment State Queries Buffers Focus.
From S2P Require Import Tree Layout Forest Invariant QueriesSpec FocusSpec Settle.
From S2P Require Import Surgery Owners Cosmetic Normalize.

(** Closing nodes, tabs, popups and sessions: what is left is consistent, the
    other sessions are not affected, and nothing is left half done. *)

(** ** After the surgery: zoom and focus *)

Section rezoom.
Context {st : ServerState} {sid : N} {s : Session} (z : option N).
Context (Hs : sessions st !! sid = Some s).
Let st' : ServerState := set_sessions (insert sid (s_set_zoomed_node z s)) st.

Lemma rezoom_like : like st st'.
Proof. destruct (embeds_session st sid s (s_set_zoomed_node z s) Hs); [by split_and!|by split]. Qed.

Lemma rezoom_inv D U : inv_but D U st → inv_but D U st'.
Proof.
  intros [W S A [R1 R2 R3 R4]]. split.
  - by apply (like_wired rezoom_like).
  - exact S.
  - by destruct A.
  - split; simpl; [exact R1|exact R2|..].
    + intros i s' leaf. rewrite lookup_insert. case_decide as He; [|apply (R3 i s')].
      subst i. intros [= <-]. apply (R3 sid s leaf Hs).
    + intros i s' fid. rewrite lookup_insert. case_decide as He; [|apply (R4 i s')].
      subst i. intros [= <-]. apply (R4 sid s fid Hs).
Qed.

Lemma rezoom_on_screen sid' i : on_screen st' sid' i ↔ on_screen st sid' i.
Proof.
  unfold on_screen. simpl.
  assert (∀ r, (∃ s', <[sid := s_set_zoomed_node z s]> (sessions st) !! sid' = Some s'
                      ∧ s_root_node s' = r)
               ↔ ∃ s', sessions st !! sid' = Some s' ∧ s_root_node s' = r) as He.
  { intros r. rewrite lookup_insert. case_decide as E; [subst sid'|done]. naive_solver. }
  by setoid_rewrite He.
Qed.

Lemma rezoom_local : local_to sid st st'.
Proof.
  split; [|eauto..]. simpl. intros sid' Hne. by rewrite lookup_insert_ne.
Qed.
Lemma rezoom_calm : calm st st'.
Proof. split; try done. simpl. apply dom_insert_lookup_L. eauto. Qed.
End rezoom.

(** The session [sid] lost the panes in [D]; its layout is well formed again,
    with up to [k] new containers. The focus and the zoom may be stale. *)
Record cleared (D : N → Prop) (k : N) (U : gset N) (sid : N) (st st' : ServerState) : Prop := {
  cl_inv : inv_but ∅ U st';
  cl_compact : compact st';
  cl_anchored : anchored st';
  cl_local : local_to sid st st';
  cl_sessions : dom (sessions st') = dom (sessions st);
  cl_removed : removed D k st st'
}.

(** ... and the focus and the zoom are up to date. *)
Record rearranged (D : N → Prop) (k : N) (U : gset N) (sid : N) (st st' : ServerState)
    : Prop := {
  ra_cleared : cleared D k U sid st st';
  ra_focus : ∀ s, sessions st' !! sid = Some s → focus_ok st' sid s;
  ra_zoom : ∀ s, sessions st' !! sid = Some s → zoom_ok st' sid s
}.

Lemma cleared_calm D k U sid st st1 st2 :
  inv_but ∅ U st2 → compact st2 → anchored st2 → local_to sid st1 st2 → calm st1 st2 →
  cleared D k U sid st st1 → cleared D k U sid st st2.
Proof.
  intros I C A L K [_ _ _ L' S R]. split; [done..|by etrans| |by eapply removed_calm].
  by rewrite (ca_sessions _ _ K).
Qed.

Lemma rearranged_focus D k U sid st st' :
  wired st → focus_settled st → rearranged D k U sid st st' → focus_settled st'.
Proof. intros W S [R F _]. by eapply (local_focus_settled sid), F; [|apply R|]. Qed.

Lemma rearranged_zoom D k U sid st st' :
  wired st → zoom_settled st → rearranged D k U sid st st' → zoom_settled st'.
Proof. intros W S [R _ Z]. by eapply (local_zoom_settled sid), Z; [|apply R|]. Qed.

Lemma rearranged_consistent D k sid st st' :
  consistent st → rearranged D k ∅ sid st st' → consistent st'.
Proof.
  intros [I C A S] R. split; [apply R..|]. eapply rearranged_focus; [apply I|done|done].
Qed.

Lemma heal_settles_wp D k U sid st0 st s :
  cleared D k U sid st0 st → sessions st !! sid = Some s → zoom_ok st sid s →
  wp (heal_focus sid) (λ _ st', rearranged D k U sid st0 st' ∧ like st st') (λ _ _, False) st.
Proof.
  intros R Hs Hz. pose proof R as [I C A _ _ _].
  eapply wp_mono; [by eapply (heal_focus_wp U)| |done].
  intros [] st' [Hf Ha (s2 & Hs2 & Hok & _)]. pose proof (ff_refocused _ _ _ Hf) as Rf.
  split; [|by apply scrub_like, Rf]. split.
  - eapply cleared_calm; [..|exact R].
    + by eapply refocused_inv.
    + by eapply refocused_compact.
    + by eapply refocused_anchored.
    + by apply frame_local.
    + apply calm_scrub, Rf.
  - intros s' Hs'. by assert (s' = s2) as -> by congruence.
  - intros s' Hs'. by eapply (stable_zoom_ok sid st st'); [apply I|apply Rf|done|exact Hs|exact Hs'|].
Qed.

Lemma rezoom_cleared D k U sid st0 st s z :
  cleared D k U sid st0 st → sessions st !! sid = Some s →
  cleared D k U sid st0 (set_sessions (insert sid (s_set_zoomed_node z s)) st).
Proof.
  intros R Hs. pose proof R as [I C A _ _ _]. eapply cleared_calm; [..|exact R].
  - by apply rezoom_inv.
  - by apply (like_compact (rezoom_like z Hs)).
  - by apply (like_anchored (rezoom_like z Hs)).
  - by apply (rezoom_local (s:=s) z).
  - by apply rezoom_calm.
Qed.

Lemma settle_wp D k U sid st0 st :
  cleared D k U sid st0 st → is_Some (sessions st !! sid) →
  wp (normalize_zoomed_node sid ;; heal_focus sid)
    (λ _ st', rearranged D k U sid st0 st' ∧ like st st') (λ _ _, False) st.
Proof.
  intros R [s Hs]. pose proof R as [I C A _ _ _]. pose proof (in_wired _ _ _ I) as W. wp_step.
  eapply wp_mono; [by apply normalize_zoomed_node_wp| |done].
  intros _ st1 (z & -> & Hz & _).
  eapply wp_mono; [eapply heal_settles_wp|..|done].
  - by apply rezoom_cleared.
  - simpl. apply lookup_insert_eq.
  - intros id Hid. destruct (Hz id Hid) as [Hex Hos]. split; [done|]. by apply rezoom_on_screen.
  - intros [] st' [R' L]. split; [done|]. etrans; [|exact L]. by apply (rezoom_like z Hs).
Qed.

(** ** Closing a node below a container *)

Lemma unlinked_thinned n n' c :
  unlinked c n n' → node_ok n →
  (∀ t, n = Tabs t → parent n ≠ None → 2 ≤ length (t_tabs t)) → thinned n'.
Proof.
  intros Hu Hok Hc. split.
  { destruct (ul_kind _ _ _ Hu) as (_ & _ & _ & ->). by apply (ul_ok _ _ _ Hu). } intros Hv Hp He.
  pose proof (Permutation_length (ul_children _ _ _ Hu)) as Hl. rewrite He in Hl. simpl in Hl.
  rewrite (ul_parent _ _ _ Hu) in Hp. destruct n as [v|s|t]; simpl in *.
  - lia.
  - destruct Hok. lia.
  - rewrite length_fmap in Hl. specialize (Hc t eq_refl Hp). lia.
Qed.

(** Unlinking [c] from [p], dropping its tree and normalizing. *)
Lemma cut_wp U st p c n m n' :
  inv_but ∅ U st → compact st → anchored st →
  nodes st !! p = Some n → nodes st !! c = Some m → c ∈ child_ids n → unlinked c n n' →
  wp (remove_subtree_nodes c ;; normalize_upwards p)
    (λ _ st', cleared (below st c) 0 U (node_session n) st st') (λ _ _, False)
    (set_nodes (λ ns, relink c m None p n' ns) st).
Proof.
  intros I C A Hp Hc Hin Hu. pose proof (in_wired _ _ _ I) as W.
  set (st1 := set_nodes _ st).
  assert (inv_but {[p]} U st1) as I1.
  { pose proof (unlink_inv W Hp Hc Hin Hu ∅ U I) as I1. by rewrite union_empty_r_L in I1. }
  assert (compact_but {[p]} st1) as C1.
  { pose proof (unlink_compact W Hp Hc Hin Hu ∅ C) as C1. by rewrite union_empty_r_L in C1. }
  pose proof (unlink_anchored W Hp Hc Hin Hu ∅ A) as A1. fold st1 in A1.
  pose proof (unlink_lookup (n':=n') W Hp Hc Hin) as Hlk.
  pose proof (unlink_ne W Hp Hin) as Hne.
  assert (nodes st1 !! c = Some (node_set_parent None m)) as Hc1.
  { simpl. by rewrite Hlk, decide_True. }
  assert (nodes st1 !! p = Some n') as Hp1.
  { simpl. by rewrite Hlk, decide_False, decide_True. }
  assert (¬ owned_root st1 c) as Hfree by exact (unlink_not_owned W Hp Hc Hin Hu).
  assert (parent (node_set_parent None m) = None) as Hpc by by destruct m.
  destruct (child_exists (wi_forest _ W) _ _ _ Hp Hin) as (m' & Hm' & _ & Hms).
  assert (m' = m) as -> by congruence.
  assert (node_session (node_set_parent None m) = node_session n) as Hs1 by by destruct m.
  wp_step. eapply wp_mono; [apply (remove_subtree_wp st1 c (in_wired _ _ _ I1)); eauto| |done].
  intros [] st2 P. pose proof (in_wired _ _ _ I1) as W1.
  assert (nodes st2 !! p = Some n') as Hp2.
  { rewrite (pr_kept _ _ _ P); [done|]. intros Hb%(unlink_below W Hp Hc Hin Hu).
    by apply (unlink_not_below W Hp Hin) in Hb. }
  eapply wp_mono; [apply (normalize_upwards_wp U st2 p n')| |done].
  - by eapply (prune_inv W1 Hc1 Hpc Hfree P).
  - by eapply (prune_compact W1 P).
  - by eapply (prune_anchored W1 P).
  - done.
  - eapply unlinked_thinned; [done|apply (in_shaped _ _ _ I p n Hp); set_solver|].
    intros t -> Hpar. apply (C p t Hp Hpar). set_solver.
  - destruct (ul_kind _ _ _ Hu) as (_ & Hsn & _). rewrite Hsn.
    intros [] st3 [I3 C3 A3 L3 K3]. split; [done..| | |].
    + etrans; [by apply (unlink_local (n':=n') W Hp Hc Hin)|].
      etrans; [by apply (prune_local W1 Hc1 P)|]. done.
    + rewrite (ca_sessions _ _ K3). by destruct (prune_parts P) as (-> & _).
    + eapply removed_calm; [|exact K3]. apply (removed_ext (below st1 c)).
      { intros i. by apply (unlink_below W Hp Hc Hin Hu). }
      eapply calm_removed; [by apply (unlink_calm (n':=n') W Hp Hc Hin Hu)|].
      by apply (prune_removed P).
Qed.

(** Fresh nodes: the allocator never hands out a node that exists, and adding a
    node without links keeps the state well formed. *)

(** No allocator is about to wrap around. *)
Record has_room (k : N) (st : ServerState) : Prop := {
  hr_sessions : (session_ids st + k < u64_modulus)%N;
  hr_buffers : (buffer_ids st + k < u64_modulus)%N;
  hr_nodes : (node_ids st + k < u64_modulus)%N;
  hr_floating : (floating_ids st + k < u64_modulus)%N
}.

Definition bump_nodes (st : ServerState) : ServerState :=
  mkServerState (sessions st) (buffers st) (nodes st) (floating st) (environment st)
    (last_viewport st) (last_pane_titles st) (last_base_index st) (remain_on_exit st)
    (session_ids st) (buffer_ids st) (node_ids st + 1)%N (floating_ids st).

Lemma next_node_id_wp st (Q : N → ServerState → Prop) E :
  (node_ids st + 1 < u64_modulus)%N → Q (node_ids st) (bump_nodes st) → wp next_node_id Q E st.
Proof.
  intros Hr HQ. unfold wp, next_node_id, IdAllocator_next. by rewrite wrap_succ64_small.
Qed.

Section fresh_node.
Context {st : ServerState} {n : Node}.
Let k : N := node_ids st.
Context (Hid : node_id n = k) (Hp : parent n = None) (Hc : child_ids n = []).
Context (Hl : last_focused_descendant n = None) (Hok : node_ok n).
Let st' : ServerState := set_nodes (insert k n) (bump_nodes st).

Lemma fresh_none : wired st → nodes st !! k = None.
Proof.
  intros W. destruct (nodes st !! k) eqn:Hk; [|done]. exfalso.
  assert (k < k)%N; [|lia]. apply (fi_nodes _ (wi_fresh _ W)). eauto.
Qed.

Lemma fresh_lookup i m : wired st →
  nodes st' !! i = Some m ↔ i = k ∧ m = n ∨ i ≠ k ∧ nodes st !! i = Some m.
Proof. clear Hok. intros W. simpl. rewrite lookup_insert. case_decide; naive_solver. Qed.

Lemma fresh_old i m : wired st → nodes st !! i = Some m → i ≠ k ∧ nodes st' !! i = Some m.
Proof.
  clear Hok.
  intros W Hi. assert (i ≠ k) as Hne by (intros ->; by rewrite fresh_none in Hi).
  split; [done|]. apply fresh_lookup; auto.
Qed.

Lemma fresh_wired : wired st → wired st'.
Proof.
  clear Hok.
  intros W. assert (∀ i m, nodes st !! i = Some m → nodes st' !! i = Some m) as Hold.
  { intros. by apply fresh_old. }
  split.
  - simpl. rewrite fmap_insert.
    assert (shape_of n = mkShape (node_session n) None []) as ->.
    { unfold shape_of. by rewrite Hp, Hc. }
    apply (forest_leaf (wi_forest _ W)). rewrite layout_lookup, fresh_none; done.
  - intros i m [[-> ->]|[_ Hi]]%fresh_lookup; [done|by apply (wi_node_id _ W)|done].
  - apply W.
  - intros sid s Hs. destruct (wi_session _ W _ _ Hs) as [Sid (t & Ht & ?) Snd Sfl].
    split; [done| |done|done]. exists t. split; [by apply Hold|done].
  - intros fid w Hw. destruct (wi_window _ W _ _ Hw) as [Wid (m & Hm & ?) Wl Wv].
    split; [done| |done|done]. exists m. split; [by apply Hold|done].
  - apply W.
  - destruct (wi_fresh _ W) as [F1 F2 F3 F4]. split; try done.
    intros i [m [[-> _]|[_ Hi]]%fresh_lookup]; [simpl; unfold k; lia| |done].
    assert (i < node_ids st)%N by eauto. simpl. lia.
Qed.

Lemma fresh_memory leaf : wired st → leaf_memory st leaf → leaf_memory st' leaf.
Proof.
  clear Hok.
  intros W [Hlt Hv]. split; [simpl; lia|].
  intros m [[-> _]|[_ Hi]]%fresh_lookup; [unfold k in Hlt; lia|by apply Hv|done].
Qed.

Lemma fresh_inv D U :
  (∀ v, n = BufferView v → is_Some (buffers st !! v_buffer_id v)) →
  inv_but D U st → inv_but D (match n with BufferView _ => {[k]} ∪ U | _ => U end) st'.
Proof.
  intros Hb [W S A [R1 R2 R3 R4]]. split.
  - by apply fresh_wired.
  - intros i m [[-> ->]|[_ Hi]]%fresh_lookup HD; [done|by apply (S i)|done].
  - split.
    + intros i v [[-> He]|[_ Hi]]%fresh_lookup; [|by apply (at_backed _ _ A i)|done].
      by apply Hb.
    + intros i v [[-> He]|[_ Hi]]%fresh_lookup HU; [| |done].
      * rewrite <-He in HU. set_solver.
      * apply (at_view _ _ A i v Hi). destruct n; set_solver.
    + intros bid b i Hbid Ha. destruct (at_buffer _ _ A bid b i Hbid Ha) as (v & Hv & ?).
      exists v. split; [by apply fresh_old|done].
  - split.
    + intros i m leaf [[-> ->]|[_ Hi]]%fresh_lookup Hlf; [congruence| |done].
      by eapply fresh_memory, R1.
    + intros. by eapply fresh_memory, R2.
    + intros. by eapply fresh_memory, R3.
    + exact R4.
Qed.

(** The same for a container that is still to get its children. *)
Lemma fresh_hollow_inv D U :
  is_buffer_view n = false → inv_but D U st → inv_but ({[k]} ∪ D) U st'.
Proof.
  clear Hok.
  intros Hn [W S A [R1 R2 R3 R4]]. split.
  - by apply fresh_wired.
  - intros i m [[-> ->]|[_ Hi]]%fresh_lookup HD; [set_solver|apply (S i); [done|set_solver]|done].
  - split.
    + intros i v [[-> He]|[_ Hi]]%fresh_lookup; [by subst|by apply (at_backed _ _ A i)|done].
    + intros i v [[-> He]|[_ Hi]]%fresh_lookup HU; [by subst| |done]. by apply (at_view _ _ A i v Hi).
    + intros bid b i Hbid Ha. destruct (at_buffer _ _ A bid b i Hbid Ha) as (v & Hv & ?).
      exists v. split; [by apply fresh_old|done].
  - split.
    + intros i m leaf [[-> ->]|[_ Hi]]%fresh_lookup Hlf; [congruence| |done].
      by eapply fresh_memory, R1.
    + intros. by eapply fresh_memory, R2.
    + intros. by eapply fresh_memory, R3.
    + exact R4.
Qed.

Lemma fresh_container_inv D U :
  is_buffer_view n = false → inv_but D U st → inv_but D U st'.
Proof.
  intros Hn I. pose proof (fresh_inv D U) as H. destruct n as [v|s|t]; [done|by apply H..].
Qed.

Lemma fresh_views : wired st → is_buffer_view n = false → views st' = views st.
Proof.
  clear Hok.
  intros W Hn. apply map_eq. intros i. rewrite !views_lookup. simpl. rewrite lookup_insert.
  case_decide as He; [|done]. rewrite <-He, (fresh_none W). simpl. by destruct n.
Qed.

Lemma fresh_below i j : wired st → i ≠ k → below st' i j ↔ below st i j.
Proof.
  clear Hok.
  intros W Hi. assert (∀ a b, edge (layout (nodes st')) a b ↔ edge (layout (nodes st)) a b) as He.
  { intros a b. rewrite !layout_edge. split; intros (x & Hx & Hb).
    - apply fresh_lookup in Hx as [[-> ->]|[_ Hx]]; [|by eauto|done].
      rewrite Hc in Hb. by apply elem_of_nil in Hb.
    - exists x. split; [by apply fresh_old|done]. }
  split; apply rtc_subrel; intros a b; apply He.
Qed.

Lemma fresh_compact D : wired st → compact_but D st → compact_but D st'.
Proof.
  clear Hok.
  intros W C i t [[-> He]|[_ Hi]]%fresh_lookup Hn; [|by apply (C i t)|done].
  rewrite <-He in Hp. simpl in Hp. done.
Qed.

Lemma fresh_anchored X : wired st → anchored_but X st → anchored_but ({[k]} ∪ X) st'.
Proof.
  clear Hok.
  intros W A i m [[-> He]|[_ Hi]]%fresh_lookup Hn HX; [set_solver| |done].
  apply (A i m Hi Hn). set_solver.
Qed.

Lemma fresh_local sid : wired st → local_to sid st st'.
Proof.
  clear Hok.
  intros W. split; [done| |eauto]. intros i m Hi _. exists m. split; [by apply fresh_old|done].
Qed.

Lemma fresh_not_owned : wired st → ¬ owned_root st' k.
Proof.
  clear Hok. intros W Ho. destruct (owned_exists W k Ho) as [m Hm]. by rewrite fresh_none in Hm. Qed.
End fresh_node.

(** ** Giving a session another root *)

Section new_root.
Context {st : ServerState} {sid : N} {s : Session} {k : N} {t : TabsNode}.
Context (W : wired st) (Hs : sessions st !! sid = Some s).
Context (Hk : nodes st !! k = Some (Tabs t)) (Hp : t_parent t = None) (Ht : t_session_id t = sid).
Context (Hfree : ¬ owned_root st k).
Let s' : Session := s_set_root_node k s.
Let st' : ServerState := set_sessions (insert sid s') st.

Lemma new_root_session i x :
  sessions st' !! i = Some x → i = sid ∧ x = s' ∨ i ≠ sid ∧ sessions st !! i = Some x.
Proof. simpl. rewrite lookup_insert. case_decide; naive_solver. Qed.

Lemma new_root_wired : wired st'.
Proof.
  destruct (wi_session _ W _ _ Hs) as [Sid Sr Snd Sfl]. split; try apply W.
  - intros i x [[-> ->]|[_ Hx]]%new_root_session; [|by destruct (wi_session _ W _ _ Hx)].
    split; [done|by exists t|done|done].
  - intros fid w Hw. destruct (wi_window _ W _ _ Hw) as [Wid Wr (sw & Hsw & Hin & Hne) Wv].
    split; [done..| |done]. simpl. rewrite lookup_insert. case_decide as He; [|eauto].
    exists s'. assert (sw = s) as -> by congruence. split_and!; [done..|]. simpl. intros Heq.
    apply Hfree. right. eauto.
  - destruct (wi_fresh _ W) as [F1 F2 F3 F4]. split; try done.
    intros i [x [[-> _]|[_ Hx]]%new_root_session]; apply F1; eauto.
Qed.

Lemma new_root_inv D U : inv_but D U st → inv_but D U st'.
Proof.
  intros [_ S A [R1 R2 R3 R4]]. split; [apply new_root_wired|exact S|by destruct A|].
  split; simpl; [exact R1|exact R2|..].
  - intros i x leaf [[-> ->]|[_ Hx]]%new_root_session; [apply (R3 sid s leaf Hs)|by apply (R3 i x)].
  - intros i x fid [[-> ->]|[_ Hx]]%new_root_session; [apply (R4 sid s fid Hs)|by apply (R4 i x)].
Qed.

Lemma new_root_owned i :
  owned_root st' i ↔ i = k ∨ owned_root st i ∧ i ≠ s_root_node s.
Proof.
  destruct (so_root _ _ _ (wi_session _ W _ _ Hs)) as (t0 & Ht0 & _ & Hts0). split.
  - intros [(j & x & Hx & Hr)|(fid & w & Hw & Hr)].
    + apply new_root_session in Hx as [[-> ->]|[Hne Hx]]; [by left|]. right.
      split; [left; eauto|]. intros ->.
      destruct (so_root _ _ _ (wi_session _ W _ _ Hx)) as (t1 & Ht1 & _ & Hts1). congruence.
    + right. split; [right; eauto|]. intros ->.
      destruct (wi_window _ W _ _ Hw) as [_ (n & Hn & _ & Hns) (sw & Hsw & _ & Hne)].
      rewrite Hr, Ht0 in Hn. injection Hn as <-. simpl in Hns.
      apply Hne. rewrite Hr. congruence.
  - intros [->|[[(j & x & Hx & Hr)|(fid & w & Hw & Hr)] Hi]].
    + left. exists sid, s'. simpl. by rewrite lookup_insert_eq.
    + left. exists j, x. simpl. rewrite lookup_insert_ne; [done|]. congruence.
    + right. eauto.
Qed.

Lemma new_root_anchored X :
  anchored_but ({[k]} ∪ X) st → anchored_but ({[s_root_node s]} ∪ X) st'.
Proof.
  intros A i n Hi Hn HX. apply new_root_owned. destruct (decide (i = k)) as [|Hik]; [by left|right].
  split; [apply (A i n Hi Hn)|]; set_solver.
Qed.

Lemma new_root_local : local_to sid st st'.
Proof. split; [|eauto..]. simpl. intros j Hne. by rewrite lookup_insert_ne. Qed.
End new_root.

(** [close_node] and [clear_session_root]: closing any node of a consistent
    state succeeds, removes exactly the panes below it, and leaves the state
    consistent with its focus and zoom up to date. *)

Lemma root_of_node st i n :
  wired st → nodes st !! i = Some n →
  ∃ r nr, nodes st !! r = Some nr ∧ parent nr = None ∧ below st r i
          ∧ node_session nr = node_session n.
Proof.
  intros W Hi. pose proof (wi_forest _ W) as F.
  destruct (top_exists F i) as (r & Hr & Hri); [apply layout_dom; eauto|].
  apply layout_is_root in Hr as (nr & Hnr & Hp). exists r, nr. split_and!; try done.
  pose proof (reach_session F r i (shape_of nr) (shape_of n)) as Hs. simpl in Hs.
  rewrite !layout_lookup, Hnr, Hi in Hs. symmetry. by apply Hs.
Qed.

(** Every node belongs to a session that exists. *)
Lemma node_session_exists st i n :
  wired st → anchored st → nodes st !! i = Some n → is_Some (sessions st !! node_session n).
Proof.
  intros W A Hi. destruct (root_of_node st i n W Hi) as (r & nr & Hr & Hp & _ & <-).
  destruct (A r nr Hr Hp) as [(sid & s & Hs & Hsr)|(fid & w & Hw & Hwr)]; [set_solver|..].
  - destruct (so_root _ _ _ (wi_session _ W _ _ Hs)) as (t & Ht & _ & Hts).
    assert (nr = Tabs t) as -> by congruence. simpl. rewrite Hts. eauto.
  - destruct (wi_window _ W _ _ Hw) as [_ (m & Hm & _ & Hms) (s & Hs & _)].
    assert (m = nr) as -> by congruence. rewrite Hms. eauto.
Qed.

(** ** A popup's tree *)

Lemma popup_tree_wp U st fid w :
  inv_but ∅ U st → compact st → anchored st → floating st !! fid = Some w →
  let r := f_root_node w in
  wp (remove_subtree_nodes r)
    (λ _ st', cleared (below st r) 0 U (f_session_id w) st st'
              ∧ pruned (below st r) (without_window fid w st) st')
    (λ _ _, False) (without_window fid w st).
Proof.
  intros I C A Hw r. pose proof (in_wired _ _ _ I) as W.
  destruct (wo_root _ _ _ (wi_window _ W _ _ Hw)) as (n & Hn & Hp & Hns).
  pose proof (without_inv W Hw ∅ U I) as I1. pose proof (in_wired _ _ _ I1) as W1.
  pose proof (without_anchored W Hw ∅ A) as A1.
  assert (¬ owned_root (without_window fid w st) r) as Hfree.
  { intros Ho%(without_owned W Hw). naive_solver. }
  eapply wp_mono; [apply (remove_subtree_wp _ _ W1); eauto| |done]. intros [] st2 P.
  split; [|exact P]. split.
  - by eapply (prune_inv W1 Hn Hp Hfree P).
  - by eapply (prune_compact W1 P).
  - by eapply (prune_anchored W1 P).
  - etrans; [by apply (without_local Hw)|]. by apply (prune_local W1 Hn P).
  - destruct (prune_parts P) as (-> & _). simpl. by rewrite dom_alter_L.
  - eapply calm_removed; [by apply (without_calm (fid:=fid) (w:=w))|]. apply (prune_removed P).
Qed.

Lemma close_floating_wp U st fid w :
  inv_but ∅ U st → compact st → anchored st → floating st !! fid = Some w →
  wp (close_floating fid)
    (λ _ st', rearranged (below st (f_root_node w)) 0 U (f_session_id w) st st'
       ∧ ∃ st1, pruned (below st (f_root_node w)) (without_window fid w st) st1 ∧ like st1 st')
    (λ _ _, False) st.
Proof.
  intros I C A Hw. pose proof (in_wired _ _ _ I) as W.
  destruct (wo_listed _ _ _ (wi_window _ W _ _ Hw)) as (s & Hs & _).
  unfold close_floating. wp_step.
  eapply wp_mono; [by apply remove_floating_window_wp| |done]. intros w' st1 [-> ->].
  wp_step. eapply wp_mono; [by apply (popup_tree_wp U)| |done]. intros [] st2 [R P].
  eapply wp_mono; [apply (settle_wp _ _ _ _ _ _ R)| |done].
  { apply elem_of_dom. rewrite (cl_sessions _ _ _ _ _ _ R). apply elem_of_dom. eauto. }
  intros [] st' [R' L]. eauto.
Qed.

(** ** A session's root *)

(** [st] with the node [n] added and the session [sid] rooted at it. *)
Definition regrown (sid k : N) (s : Session) (n : Node) (st : ServerState) : ServerState :=
  set_sessions (insert sid (s_set_root_node k s)) (set_nodes (insert k n) (bump_nodes st)).

Lemma pruned_regrown D sid k s n st st' :
  ¬ D k → (∀ v, n ≠ BufferView v) →
  pruned D st st' → pruned D (regrown sid k s n st) (regrown sid k s n st').
Proof.
  intros Hk Hn [G K B N0 (bs & ns & E)].
  assert (∀ bid b, dropped D (regrown sid k s n st) bid b ↔ dropped D st bid b) as Hd.
  { intros bid b. unfold dropped, shows. simpl. split; intros (i & Hi & (v & Hv & ?) & ?);
      exists i; (split; [done|]); (split; [exists v|done]); revert Hv;
      rewrite lookup_insert_ne by (intros ->; done); done. }
  split; simpl.
  - intros i Hi. rewrite lookup_insert_ne by (intros ->; done). by apply G.
  - intros i Hi. rewrite !lookup_insert. case_decide; [done|]. by apply K.
  - intros bid b Hb. destruct (B bid b Hb) as (b' & Hb' & Hor). exists b'. rewrite Hd. done.
  - exact N0.
  - exists bs, (<[k := n]> ns). rewrite E. done.
Qed.

Lemma clear_session_root_wp U st sid s :
  inv_but ∅ U st → compact st → anchored st → has_room 1 st → sessions st !! sid = Some s →
  wp (clear_session_root sid) (λ _ st', rearranged (below st (s_root_node s)) 1 U sid st st')
    (λ _ _, False) st.
Proof.
  intros I C A [_ _ Hroom _] Hs. pose proof (in_wired _ _ _ I) as W.
  destruct (so_root _ _ _ (wi_session _ W _ _ Hs)) as (t & Ht & Htp & Hts).
  set (r := s_root_node s) in *. set (k := node_ids st). set (e := empty_tabs k sid).
  set (stA := set_nodes (insert k e) (bump_nodes st)). set (stB := regrown sid k s e st).
  assert (node_ok e) as He by by right.
  assert (inv_but ∅ U stA) as IA by by apply (fresh_container_inv (n:=e)).
  assert (anchored_but ({[k]} ∪ ∅) stA) as AA by by apply (fresh_anchored (n:=e)).
  assert (compact stA) as CA by by apply (fresh_compact (n:=e)).
  pose proof (in_wired _ _ _ IA) as WA.
  assert (¬ owned_root stA k) as Hfree by by apply (fresh_not_owned (n:=e)).
  assert (nodes stA !! k = Some e) as Hk by apply lookup_insert_eq.
  assert (sessions stA !! sid = Some s) as HsA by done.
  pose proof (new_root_inv WA HsA Hk eq_refl eq_refl Hfree ∅ U IA) as IB.
  pose proof (new_root_anchored WA HsA Hk eq_refl eq_refl Hfree ∅ AA) as AB.
  pose proof (in_wired _ _ _ IB) as WB. change (set_sessions _ stA) with stB in IB, AB, WB.
  assert (r ≠ k ∧ nodes stB !! r = Some (Tabs t)) as [Hne HrB].
  { by apply (fresh_old (n:=e)). }
  assert (¬ owned_root stB r) as HfreeB.
  { intros [->|[_ ?]]%(new_root_owned (k:=k) WA HsA Hts); done. }
  assert (∀ j, below stB r j ↔ below st r j) as Hbelow.
  { intros j. by apply (fresh_below (n:=e)). }
  unfold clear_session_root. wp_step. eapply wp_reads_ok.
  { unfold root_node, session. by rewrite Hs. }
  wp_step. eapply wp_mono; [apply (remove_subtree_wp st r W); eauto| |done]. intros [] st1 P.
  destruct (prune_parts P) as (Es & _ & _ & _ & En & _).
  wp_step. apply next_node_id_wp; [by rewrite En|]. rewrite En. fold k.
  wp_step. apply wp_modify. wp_step. eapply wp_session_mut; [simpl; by rewrite Es|].
  wp_step. eapply wp_session_mut; [simpl; apply lookup_insert_eq|].
  change (set_sessions _ (set_nodes _ (bump_nodes st1))) with (regrown sid k s e st1).
  assert (pruned (below stB r) stB (regrown sid k s e st1)) as PB.
  { apply (pruned_ext (below st r)); [intros j; by rewrite Hbelow|].
    apply pruned_regrown; [|done|done]. intros Hb.
    destruct (below_exists (wi_forest _ W) r k (mk_is_Some _ _ Ht) Hb) as [m Hm].
    pose proof (fresh_none (n:=e) eq_refl W) as Hfk. fold k in Hfk. congruence. }
  assert (cleared (below st r) 1 U sid st (regrown sid k s e st1)) as R.
  { split.
    - by eapply (prune_inv WB HrB Htp HfreeB PB).
    - by eapply (prune_compact WB PB).
    - by eapply (prune_anchored WB PB).
    - etrans; [by apply (fresh_local (n:=e) eq_refl eq_refl eq_refl eq_refl sid)|].
      etrans; [by apply (new_root_local (k:=k) (s:=s))|]. by apply (prune_local WB HrB PB).
    - simpl. rewrite Es. apply dom_insert_lookup_L. eauto.
    - destruct (prune_removed PB) as [V G R0 (E1 & E2 & E3 & E4)]. split.
      + intros i Hi. rewrite V by by rewrite Hbelow.
        exact (f_equal (lookup i)
          (fresh_views (n:=e) eq_refl eq_refl eq_refl eq_refl W eq_refl)).
      + intros i Hi. apply G. by rewrite Hbelow.
      + exact R0.
      + simpl in *. split_and!; [done|done|lia|lia|done]. }
  eapply wp_mono; [eapply heal_settles_wp|by intros [] st' [? _]|done].
  - apply (rezoom_cleared _ _ _ _ _ _ _ None R), lookup_insert_eq.
  - simpl. apply lookup_insert_eq.
  - done.
Qed.

(** ** Any node *)

Lemma cleared_more D k k' U sid st st' :
  (k ≤ k')%N → cleared D k U sid st st' → cleared D k' U sid st st'.
Proof. intros Hk [I C A L S R]. split; [done..|]. by eapply removed_more. Qed.

Lemma cleared_ext D D' k U sid st st' :
  (∀ i, D i ↔ D' i) → cleared D k U sid st st' → cleared D' k U sid st st'.
Proof. intros Hk [I C A L S R]. split; [done..|]. by eapply removed_ext. Qed.

Lemma remove_child_wp st p c n m (Q : unit → ServerState → Prop) E :
  wired st → nodes st !! p = Some n → c ∈ child_ids n → nodes st !! c = Some m →
  (∀ n', remove_child_in c n = Some n' → unlinked c n n' →
    Q () (set_nodes (λ ns, relink c m None p n' ns) st)) →
  wp (remove_child p c) Q E st.
Proof.
  intros W Hp Hin Hc HQ. unfold remove_child. wp_step.
  eapply wp_reads_ok; [by apply node_Ok|].
  destruct (remove_child_in_spec c n Hin) as (n' & Hr & Hu).
  assert (c ≠ p) as Hne by exact (unlink_ne W Hp Hin).
  destruct n as [v|s|t]; [by apply elem_of_nil in Hin|..]; wp_step; rewrite Hr;
    apply wp_modify; (eapply set_parent_wp; [simpl; by rewrite lookup_insert_ne|]);
    by apply HQ.
Qed.

(** Closing a node that is not a session's root hands out no id. *)
Lemma close_child_wp U st id n :
  inv_but ∅ U st → compact st → anchored st → nodes st !! id = Some n →
  is_session_root st id = false →
  wp (close_node id) (λ _ st', rearranged (below st id) 0 U (node_session n) st st')
    (λ _ _, False) st.
Proof.
  intros I C A Hn Hroot. pose proof (in_wired _ _ _ I) as W.
  destruct (node_session_exists st id n W A Hn) as [s Hs].
  unfold close_node. wp_step.
  eapply wp_reads_ok; [by unfold node_session_id; rewrite (node_Ok _ _ _ Hn)|].
  wp_step. apply wp_gets. rewrite Hroot.
  wp_step. eapply wp_reads_ok; [by unfold node_parent; rewrite (node_Ok _ _ _ Hn)|].
  assert (∀ st', cleared (below st id) 0 U (node_session n) st st' →
    wp (normalize_zoomed_node (node_session n) ;; heal_focus (node_session n))
      (λ _ st', rearranged (below st id) 0 U (node_session n) st st') (λ _ _, False) st') as Hset.
  { intros st' R. eapply wp_mono; [eapply settle_wp|by intros [] st2 [? _]|done]; [exact R|].
    apply elem_of_dom. rewrite (cl_sessions _ _ _ _ _ _ R). apply elem_of_dom. eauto. }
  destruct (parent n) as [p|] eqn:Hp.
  - destruct (parent_exists (wi_forest _ W) _ _ _ Hn Hp) as (m & Hm & Hin).
    destruct (child_exists (wi_forest _ W) _ _ _ Hm Hin) as (n' & Hn' & _ & Hns).
    assert (n' = n) as -> by congruence. rewrite Hns in *.
    wp_step. wp_step. eapply remove_child_wp; [done..|]. intros m' _ Hu.
    eapply wp_mono; [by eapply cut_wp| |done]. intros [] st'. apply Hset.
  - destruct (owned_root_cases st id n W Hn) as [[? _]|(fid & w & Hw & Hwr & Hfid & _)];
      [by apply (A id n Hn Hp), not_elem_of_empty|congruence|].
    wp_step. wp_step. apply wp_gets. rewrite Hfid.
    destruct (wo_root _ _ _ (wi_window _ W _ _ Hw)) as (n' & Hn' & _ & Hns).
    assert (n' = n) as -> by congruence.
    wp_step. eapply wp_mono; [by apply remove_floating_window_wp| |done]. intros w' st1 [-> ->].
    eapply wp_mono; [by apply (popup_tree_wp U)| |done]. intros [] st' [R _].
    rewrite Hwr, <-Hns in R. by apply Hset.
Qed.

Lemma rearranged_more D k k' U sid st st' :
  (k ≤ k')%N → rearranged D k U sid st st' → rearranged D k' U sid st st'.
Proof. intros Hk [R F Z]. split; [by eapply cleared_more|done..]. Qed.

(** Closing a node removes exactly the panes below it. *)
Lemma close_node_wp U st id n :
  inv_but ∅ U st → compact st → anchored st → has_room 1 st → nodes st !! id = Some n →
  wp (close_node id) (λ _ st', rearranged (below st id) 1 U (node_session n) st st')
    (λ _ _, False) st.
Proof.
  intros I C A Hr Hn. pose proof (in_wired _ _ _ I) as W.
  destruct (is_session_root st id) eqn:Hroot; cycle 1.
  { eapply wp_mono; [by apply (close_child_wp U)| |done]. intros [] st' R.
    apply (rearranged_more _ 0); [lia|exact R]. }
  pose proof Hroot as (sid & s & Hs & Hsr)%is_session_root_spec.
  destruct (so_root _ _ _ (wi_session _ W _ _ Hs)) as (t & Ht & _ & Hts).
  rewrite Hsr in Ht. assert (n = Tabs t) as -> by congruence. unfold close_node. wp_step.
  eapply wp_reads_ok; [by unfold node_session_id; rewrite (node_Ok _ _ _ Hn)|].
  wp_step. apply wp_gets. rewrite Hroot. simpl. rewrite Hts, <-Hsr. by apply clear_session_root_wp.
Qed.

Lemma close_node_consistent st id n :
  consistent st → has_room 1 st → nodes st !! id = Some n →
  wp (close_node id) (λ _ st', consistent st' ∧ (zoom_settled st → zoom_settled st'))
    (λ _ _, False) st.
Proof.
  intros Hc Hr Hn. pose proof Hc as [I C A _].
  eapply wp_mono; [exact (close_node_wp ∅ st id n I C A Hr Hn)| |done].
  intros [] st' R. split; [by eapply rearranged_consistent|].
  intros Z. eapply rearranged_zoom; [apply (in_wired _ _ _ I)|exact Z|exact R].
Qed.

(** ** Tabs *)

Lemma unlinked_tab t i tab last :
  t_tabs t !! i = Some tab →
  (∀ leaf, last = Some leaf → t_last_focused_descendant t = Some leaf) →
  let tabs := delete i (t_tabs t) in
  unlinked (te_child tab) (Tabs t) (Tabs (t_set_last last
    (t_set_tabs tabs (active_after_removal (t_active t) i (length tabs)) t))).
Proof.
  intros Hi Hlast tabs. pose proof (lookup_lt_Some _ _ _ Hi) as Hlt.
  assert (length (t_tabs t) = S (length tabs)) as Hlen.
  { unfold tabs. rewrite length_delete; [lia|by eexists]. }
  split; try done; simpl.
  - unfold tabs. rewrite list_fmap_delete. apply delete_perm. by rewrite list_lookup_fmap, Hi.
  - intros [Ha|[Ht _]]; [left|rewrite Ht in Hlt; simpl in Hlt; lia].
    destruct (active_after_removal_bound (t_active t) i (length tabs)) as [|[H0 ?]];
      [lia|by left|right]. split; [|done]. by apply nil_length_inv.
Qed.

Lemma close_tab_wp U st p i t :
  inv_but ∅ U st → compact st → anchored st → nodes st !! p = Some (Tabs t) →
  wp (close_tab p i)
    (λ _ st', ∃ tab, t_tabs t !! i = Some tab
       ∧ rearranged (below st (te_child tab)) 0 U (t_session_id t) st st')
    (λ e st', e = NotFound ∧ st' = st ∧ t_tabs t !! i = None) st.
Proof.
  intros I C A Hp. pose proof (in_wired _ _ _ I) as W. unfold close_tab. wp_step.
  eapply wp_reads_ok; [by unfold node_session_id; rewrite (node_Ok _ _ _ Hp)|].
  wp_step. eapply wp_reads_ok; [by unfold tabs_of; rewrite (node_Ok _ _ _ Hp)|].
  wp_step. destruct (t_tabs t !! i) as [tab|] eqn:Hi; [|by apply wp_throw].
  set (c := te_child tab).
  assert (c ∈ child_ids (Tabs t)) as Hin.
  { simpl. apply list_elem_of_fmap. exists tab. split; [done|]. by eapply list_elem_of_lookup_2. }
  destruct (child_exists (wi_forest _ W) _ _ _ Hp Hin) as (m & Hm & _ & Hms).
  assert (c ≠ p) as Hne by exact (unlink_ne W Hp Hin).
  destruct (node_session_exists st p _ W A Hp) as [s Hs].
  wp_step. apply wp_modify. apply wp_ret. wp_step.
  eapply set_parent_wp; [simpl; by rewrite lookup_insert_ne|].
  set (last := if length (delete i (t_tabs t)) =? 0 then None else t_last_focused_descendant t).
  pose proof (unlinked_tab t i tab last Hi) as Hu.
  assert (∀ leaf, last = Some leaf → t_last_focused_descendant t = Some leaf) as Hlast.
  { intros leaf. unfold last. by case_match. }
  specialize (Hu Hlast). apply (wp_assoc (remove_subtree_nodes c) (λ _ : unit, normalize_upwards p)).
  apply wp_bind. eapply wp_mono; [exact (cut_wp U st p c _ m _ I C A Hp Hm Hin Hu)| |done].
  intros [] st1 R. eapply wp_mono; [apply (settle_wp _ _ _ _ _ _ R)| |done].
  { apply elem_of_dom. rewrite (cl_sessions _ _ _ _ _ _ R). apply elem_of_dom. eauto. }
  intros [] st' [R' _]. eauto.
Qed.

(** ** A whole session *)

Section drop_session.
Context {st : ServerState} {sid : N} {s : Session}.
Context (W : wired st) (Hs : sessions st !! sid = Some s) (Hnone : s_floating s = []).
Let st' : ServerState := set_sessions (delete sid) st.

Lemma drop_owned i : owned_root st' i ↔ owned_root st i ∧ i ≠ s_root_node s.
Proof.
  destruct (so_root _ _ _ (wi_session _ W _ _ Hs)) as (t & Ht & _ & Hts). split.
  - intros [(j & x & Hx & Hr)|(fid & w & Hw & Hr)].
    + simpl in Hx. apply lookup_delete_Some in Hx as [Hne Hx]. split; [left; eauto|]. intros ->.
      destruct (so_root _ _ _ (wi_session _ W _ _ Hx)) as (t1 & Ht1 & _ & Hts1). congruence.
    + split; [right; eauto|]. intros ->. simpl in Hw.
      destruct (wi_window _ W _ _ Hw) as [_ (n & Hn & _ & Hns) (sw & Hsw & _ & Hne)].
      rewrite Hr, Ht in Hn. injection Hn as <-. simpl in Hns. congruence.
  - intros [[(j & x & Hx & Hr)|(fid & w & Hw & Hr)] Hi].
    + left. exists j, x. simpl. rewrite lookup_delete_ne; [done|]. congruence.
    + right. eauto.
Qed.

Lemma drop_wired : wired st'.
Proof.
  split; try apply W.
  - intros i x Hx. simpl in Hx. apply lookup_delete_Some in Hx as [_ Hx].
    by destruct (wi_session _ W _ _ Hx).
  - intros fid w Hw. destruct (wi_window _ W _ _ Hw) as [Wid Wr (sw & Hsw & Hin & Hne) Wv].
    split; [done..| |done]. exists sw. simpl. rewrite lookup_delete_ne; [done|]. intros He.
    rewrite <-He in Hsw. simplify_eq. rewrite Hnone in Hin. by apply elem_of_nil in Hin.
  - destruct (wi_fresh _ W) as [F1 F2 F3 F4]. split; try done.
    intros i [x Hx]. simpl in Hx. apply lookup_delete_Some in Hx as [_ Hx]. apply F1. eauto.
Qed.

Lemma drop_inv D U : inv_but D U st → inv_but D U st'.
Proof.
  intros [_ S A [R1 R2 R3 R4]]. split; [apply drop_wired|exact S|by destruct A|].
  split; simpl; [exact R1|exact R2|..]; intros i x y Hx; apply lookup_delete_Some in Hx as [_ Hx].
  - by apply (R3 i x).
  - by apply (R4 i x).
Qed.

Lemma drop_anchored X : anchored_but X st → anchored_but ({[s_root_node s]} ∪ X) st'.
Proof.
  intros A i n Hi Hn HX. apply drop_owned. split; [apply (A i n Hi Hn)|]; set_solver.
Qed.

Lemma drop_local : local_to sid st st'.
Proof. split; [|eauto..]. simpl. intros j Hne. by rewrite lookup_delete_ne. Qed.
End drop_session.

(** Taking the popups of a session away, one by one: [l] is left. *)
Record purged (U : gset N) (sid root : N) (l : list N) (st0 st : ServerState) : Prop := {
  pu_inv : inv_but ∅ U st;
  pu_compact : compact st;
  pu_anchored : anchored st;
  pu_local : local_to sid st0 st;
  pu_session : ∃ s, sessions st !! sid = Some s ∧ s_floating s = l ∧ s_root_node s = root;
  pu_sessions : dom (sessions st) = dom (sessions st0);
  pu_old : ∀ i n, nodes st !! i = Some n →
    ∃ n0, nodes st0 !! i = Some n0 ∧ node_session n0 = node_session n;
  pu_views : ∀ i bid, views st !! i = Some bid → views st0 !! i = Some bid;
  pu_records : records st = records st0;
  pu_ids : allocators st = allocators st0
}.

Lemma purge_step_wp U sid root fid l st0 st :
  purged U sid root (fid :: l) st0 st →
  wp (close_floating fid) (λ _ st', purged U sid root l st0 st') (λ _ _, False) st.
Proof.
  intros P. pose proof P as [I C A L (s & Hs & Hfl & Hroot) Hdom Old V Rec Ids].
  pose proof (in_wired _ _ _ I) as W.
  destruct (listed_window W sid s fid Hs) as (w & Hw & Hws); [rewrite Hfl; by left|].
  eapply wp_mono; [by apply (close_floating_wp U)| |done].
  intros [] st' [[[I' C' A' L' Hdom' [V' G' Rec' (E1 & E2 & E3 & E4)]] _ _] (st1 & Pr & Lk)].
  rewrite Hws in L'. split; [done..|by etrans| | | | | |].
  - destruct (unlist_fields fid s) as (_ & Er & Ef & _).
    assert (sessions st1 !! sid = Some (unlist fid s)) as Hs1.
    { destruct (pr_frame _ _ _ Pr) as (bs & ns & ->). simpl. by rewrite Hws, lookup_alter_eq, Hs. }
    destruct (em_session _ _ (lk_fwd _ _ Lk) _ _ Hs1) as (s' & Hs' & _ & Er' & Ef').
    exists s'. split_and!; [done| |congruence]. rewrite Ef', Ef, Hfl.
    pose proof (so_nodup _ _ _ (wi_session _ W _ _ Hs)) as Hnd. rewrite Hfl in Hnd.
    apply NoDup_cons in Hnd as [Hnin _]. rewrite filter_cons_False by naive_solver.
    apply filter_all. intros x Hx ->. done.
  - congruence.
  - intros i n Hi. destruct (em_node _ _ (lk_bwd _ _ Lk) _ _ Hi) as (n1 & Hn1 & _ & [= Es _ _] & _).
    assert (nodes st !! i = Some n1) as Hn.
    { destruct (reach_or_not (wi_forest _ W) (f_root_node w) i) as [Hb|Hb].
      - rewrite (pr_gone _ _ _ Pr i Hb) in Hn1. done.
      - rewrite (pr_kept _ _ _ Pr i Hb) in Hn1. done. }
    destruct (Old i n1 Hn) as (n0 & ? & ?). exists n0. split; congruence.
  - intros i bid Hi. apply V. destruct (reach_or_not (wi_forest _ W) (f_root_node w) i) as [Hb|Hb].
    + by rewrite (G' i Hb) in Hi.
    + by rewrite <-(V' i Hb).
  - congruence.
  - rewrite <-Ids. unfold allocators. assert (node_ids st' = node_ids st) as -> by lia.
    by rewrite E1, E2, E4.
Qed.

Lemma purge_all_wp U sid root l st0 st :
  purged U sid root l st0 st →
  wp (for_each close_floating l) (λ _ st', purged U sid root [] st0 st') (λ _ _, False) st.
Proof.
  revert st. induction l as [|fid l IH]; intros st P; [by apply wp_ret|]. cbn [for_each].
  apply wp_bind. eapply wp_mono; [by apply purge_step_wp|auto|done].
Qed.

(** The session and all its panes are gone, the others are as they were. *)
Record session_gone (U : gset N) (sid : N) (st st' : ServerState) : Prop := {
  sg_inv : inv_but ∅ U st';
  sg_compact : compact st';
  sg_anchored : anchored st';
  sg_local : local_to sid st st';
  sg_sessions : dom (sessions st') = dom (sessions st) ∖ {[sid]};
  sg_nodes : ∀ i n, nodes st' !! i = Some n →
    node_session n ≠ sid ∧ ∃ n0, nodes st !! i = Some n0 ∧ node_session n0 = node_session n;
  sg_views : ∀ i bid, views st' !! i = Some bid → views st !! i = Some bid;
  sg_records : records st' = records st;
  sg_ids : allocators st' = allocators st
}.

Lemma close_session_wp U st sid s :
  inv_but ∅ U st → compact st → anchored st → sessions st !! sid = Some s →
  wp (close_session sid) (λ _ st', session_gone U sid st st') (λ _ _, False) st.
Proof.
  intros I C A Hs. unfold close_session. wp_step.
  eapply wp_reads_ok; [by unfold session; rewrite Hs|]. wp_step.
  eapply wp_mono; [apply (purge_all_wp U sid (s_root_node s) (s_floating s) st st)| |done].
  { split; try done; eauto. }
  intros [] st1 [I1 C1 A1 L1 (s1 & Hs1 & Hf1 & Hr1) D1 Old V1 Rec1 Ids1]. rewrite <-Hr1.
  pose proof (in_wired _ _ _ I1) as W1.
  destruct (so_root _ _ _ (wi_session _ W1 _ _ Hs1)) as (t & Ht & Htp & Hts).
  set (r := s_root_node s1) in *. wp_step.
  eapply wp_mono; [apply (remove_subtree_wp st1 r W1); eauto| |done]. intros [] st2 P.
  apply wp_modify. set (stA := set_sessions (delete sid) st1).
  pose proof (drop_inv W1 Hs1 Hf1 ∅ U I1) as IA. pose proof (in_wired _ _ _ IA) as WA.
  pose proof (drop_anchored W1 Hs1 Hf1 ∅ A1) as AA. fold stA in IA, WA, AA.
  assert (¬ owned_root stA r) as Hfree by (intros [_ ?]%(drop_owned W1 Hs1); done).
  set (stB := set_sessions (delete sid) st2).
  assert (pruned (below stA r) stA stB) as PB.
  { destruct P as [G K B N0 (bs & ns & E)]. split; [exact G|exact K|exact B|exact N0|].
    exists bs, ns. unfold stB. by rewrite E. }
  assert (nodes stA !! r = Some (Tabs t)) as HrA by exact Ht.
  assert (inv_but ∅ U stB) as IB by by eapply (prune_inv WA HrA Htp Hfree PB).
  assert (anchored stB) as AB by by eapply (prune_anchored WA PB).
  destruct (prune_parts PB) as (Es & _ & E1 & E2 & E3 & E4).
  assert (∀ i n, nodes stB !! i = Some n → nodes st1 !! i = Some n) as Hsub.
  { intros i n Hi. by apply (prune_node WA PB) in Hi as [Hi _]. }
  split; try done.
  - by eapply (prune_compact WA PB).
  - etrans; [exact L1|]. etrans; [by apply (drop_local (sid:=sid))|]. by apply (prune_local WA HrA PB).
  - rewrite Es. simpl. by rewrite dom_delete_L, D1.
  - intros i n Hi. split; [|by apply Old, Hsub]. intros Hn.
    destruct (node_session_exists stB i n (in_wired _ _ _ IB) AB Hi) as [x Hx].
    rewrite Hn, Es in Hx. simpl in Hx. by rewrite lookup_delete_eq in Hx.
  - intros i [x y] Hi. apply V1. apply views_Some in Hi as (v & Hv & Hb). apply views_Some.
    exists v. split; [by apply Hsub|done].
  - rewrite <-Rec1. exact (prune_records PB).
  - rewrite <-Ids1. unfold allocators. by rewrite E1, E2, E3, E4.
Qed.

Lemma close_session_consistent st sid s :
  consistent st → sessions st !! sid = Some s →
  wp (close_session sid) (λ _ st', consistent st' ∧ session_gone ∅ sid st st'
    ∧ (zoom_settled st → zoom_settled st')) (λ _ _, False) st.
Proof.
  intros [I C A S] Hs. pose proof (in_wired _ _ _ I) as W.
  eapply wp_mono; [exact (close_session_wp ∅ st sid s I C A Hs)| |done]. intros [] st' G.
  assert (sessions st' !! sid = None) as Hnone.
  { apply not_elem_of_dom. rewrite (sg_sessions _ _ _ _ G). set_solver. }
  split; [split; [apply G..|]|split; [done|]].
  - eapply (local_focus_settled sid); [exact W|apply G|exact S|]. intros s' Hs'. congruence.
  - intros Z. eapply (local_zoom_settled sid); [exact W|apply G|exact Z|]. intros s' Hs'. congruence.
Qed.
