(* ===== verification/Opening.v ===== *)
(** Opening panes: buffer records and the views attached to them, linking a free tree
    below a container, and the operations that show a buffer in a new pane. *)

From stdpp Require Import relations.
From S2P Require Import Prelude Core Model Environment State Queries Buffers Focus.
From S2P Require Import Tree Layout Forest Invariant QueriesSpec FocusSpec Settle.
From S2P Require Import Surgery Owners Cosmetic Normalize Closing.

(** Buffers and their views: creating and removing buffer records, handing out
    ids, and making a view attached to a buffer. *)

(** ** Handing out ids *)

(** Only ids were handed out. *)
Record spent (st st' : ServerState) : Prop := {
  sp_maps : sessions st' = sessions st ∧ buffers st' = buffers st ∧ nodes st' = nodes st
            ∧ floating st' = floating st;
  sp_ids : (session_ids st ≤ session_ids st')%N ∧ (buffer_ids st ≤ buffer_ids st')%N
           ∧ (node_ids st ≤ node_ids st')%N ∧ (floating_ids st ≤ floating_ids st')%N
}.

Section spent.
Context {st st' : ServerState} (H : spent st st').

Lemma spent_wired : wired st → wired st'.
Proof.
  destruct H as [(Es & Eb & En & Ef) (L1 & L2 & L3 & L4)]. intros W.
  assert (∀ i s, session_ok st i s → session_ok st' i s) as Hs.
  { intros i s [? ? ? ?]. split; try done; by rewrite ?En, ?Ef. }
  assert (∀ i w, window_ok st i w → window_ok st' i w) as Hw.
  { intros i w [? ? ? ?]. split; try done; by rewrite ?En, ?Es. }
  destruct W as [F N1 B1 S1 W1 R1 [F1 F2 F3 F4]].
  split; rewrite ?Es, ?Eb, ?En, ?Ef; auto.
  split; intros i; rewrite ?Es, ?Eb, ?En, ?Ef; intros Hi.
  - specialize (F1 i Hi). lia.
  - specialize (F2 i Hi). lia.
  - specialize (F3 i Hi). lia.
  - specialize (F4 i Hi). lia.
Qed.

Lemma spent_inv D U : inv_but D U st → inv_but D U st'.
Proof.
  intros [W S [A1 A2 A3] [R1 R2 R3 R4]]. pose proof (spent_wired W) as W'.
  destruct H as [(Es & Eb & En & Ef) (L1 & L2 & L3 & L4)].
  assert (∀ leaf, leaf_memory st leaf → leaf_memory st' leaf) as Hl.
  { intros leaf [Hlt Hv]. split; [lia|by rewrite En]. }
  split; [done| |split; by rewrite ?En, ?Eb|].
  - unfold shaped. by rewrite En.
  - split; rewrite ?Es, ?En, ?Ef; eauto.
    intros i s fid Hs Hf. destruct (R4 i s fid Hs Hf) as [Hlt Hv]. split; [lia|by rewrite Ef].
Qed.

Lemma spent_compact D : compact_but D st → compact_but D st'.
Proof. destruct H as [(_ & _ & En & _) _]. unfold compact_but. by rewrite En. Qed.

Lemma spent_anchored X : anchored_but X st → anchored_but X st'.
Proof.
  destruct H as [(Es & _ & En & Ef) _]. unfold anchored_but, owned_root. by rewrite Es, En, Ef.
Qed.

Lemma spent_local sid : local_to sid st st'.
Proof.
  destruct H as [(Es & _ & En & Ef) _]. split; rewrite ?Es, ?En, ?Ef; eauto.
Qed.

Lemma spent_focus : focus_settled st → focus_settled st'.
Proof.
  destruct H as [(Es & _ & En & Ef) _].
  unfold focus_settled, focus_ok, is_view, on_screen. by rewrite Es, En, Ef.
Qed.

Lemma spent_zoom : zoom_settled st → zoom_settled st'.
Proof.
  destruct H as [(Es & _ & En & Ef) _].
  unfold zoom_settled, zoom_ok, on_screen. by rewrite Es, En, Ef.
Qed.

Lemma spent_consistent : consistent st → consistent st'.
Proof.
  intros [I C A S]. split; [by apply spent_inv|by apply spent_compact|by apply spent_anchored|].
  by apply spent_focus.
Qed.
End spent.

Lemma spent_bump st : spent st (bump_nodes st).
Proof. split; [done|]. simpl. split_and!; lia. Qed.

(** ** Buffer records *)

(** A buffer that no view shows came or went. *)
Lemma buffer_map_inv D U st bs k :
  (∀ bid b, bs !! bid = Some b → b_id b = bid) →
  (∀ bid, is_Some (bs !! bid) → (bid < k)%N) → (buffer_ids st ≤ k)%N →
  (∀ i v, nodes st !! i = Some (BufferView v) →
     bs !! v_buffer_id v = buffers st !! v_buffer_id v) →
  (∀ bid b i, bs !! bid = Some b → b_attachment b = Attached i →
     buffers st !! bid = Some b) →
  inv_but D U st →
  inv_but D U (mkServerState (sessions st) bs (nodes st) (floating st) (environment st)
    (last_viewport st) (last_pane_titles st) (last_base_index st) (remain_on_exit st)
    (session_ids st) k (node_ids st) (floating_ids st)).
Proof.
  intros Hid Hfr Hk Hv Ha [W S [A1 A2 A3] [R1 R2 R3 R4]].
  split.
  - destruct W as [F N1 B1 S1 W1 R [F1 F2 F3 F4]]. split; simpl; auto.
    + intros i s Hs. by destruct (S1 i s Hs).
    + intros fid w Hw. by destruct (W1 fid w Hw).
    + by split.
  - done.
  - split; simpl.
    + intros i v Hi. rewrite (Hv i v Hi). by eapply A1.
    + intros i v Hi HU. rewrite (Hv i v Hi). by apply A2.
    + intros bid b i Hb Hat. eapply A3; [by eapply Ha|done].
  - split; simpl; [exact R1|exact R2|exact R3|exact R4].
Qed.

(** Changing the buffer map only leaves the layout alone. *)
Lemma same_layout_settled st st' :
  sessions st' = sessions st → nodes st' = nodes st → floating st' = floating st →
  (focus_settled st → focus_settled st') ∧ (zoom_settled st → zoom_settled st')
  ∧ (compact st → compact st') ∧ (anchored st → anchored st').
Proof.
  intros Es En Ef. unfold focus_settled, focus_ok, zoom_settled, zoom_ok, is_view, on_screen,
    compact_but, anchored_but, owned_root. by rewrite Es, En, Ef.
Qed.

Definition add_buffer (b : Buffer) (st : ServerState) : ServerState :=
  mkServerState (sessions st) (<[buffer_ids st := b]> (buffers st)) (nodes st) (floating st)
    (environment st) (last_viewport st) (last_pane_titles st) (last_base_index st)
    (remain_on_exit st) (session_ids st) (buffer_ids st + 1) (node_ids st) (floating_ids st).

Lemma no_fresh_buffer st : wired st → buffers st !! buffer_ids st = None.
Proof.
  intros W. destruct (buffers st !! buffer_ids st) eqn:Hb; [|done]. exfalso.
  assert (buffer_ids st < buffer_ids st)%N; [|lia]. apply (fi_buffers _ (wi_fresh _ W)). eauto.
Qed.

Lemma add_buffer_consistent st b :
  b_id b = buffer_ids st → b_attachment b = Detached → consistent st →
  consistent (add_buffer b st).
Proof.
  intros Hid Hdet [I C A S]. pose proof (in_wired _ _ _ I) as W.
  pose proof (no_fresh_buffer st W) as Hnone.
  destruct (same_layout_settled st (add_buffer b st)) as (Sf & _ & Sc & Sa); [done..|].
  split; [|auto..]. apply buffer_map_inv; [..|done].
  - intros i x. rewrite lookup_insert. case_decide as He; [|apply (wi_buffer_id _ W)].
    by intros [= <-]; subst.
  - intros i [x Hx]. rewrite lookup_insert in Hx. case_decide as He; [lia|].
    assert (i < buffer_ids st)%N; [|lia]. apply (fi_buffers _ (wi_fresh _ W)). eauto.
  - lia.
  - intros i v Hi. destruct (at_backed _ _ (in_attached _ _ _ I) i v Hi) as [x Hx].
    rewrite lookup_insert_ne; [done|]. congruence.
  - intros i x j. rewrite lookup_insert. case_decide as He; [|done]. intros [= <-]. congruence.
Qed.

Lemma next_buffer_wp st b (Q : N → ServerState → Prop) E :
  has_room 1 st → Q (buffer_ids st) (add_buffer (b (buffer_ids st)) st) →
  wp (id ← next_buffer_id; modify (set_buffers (insert id (b id))) ;; mret id) Q E st.
Proof.
  intros [_ Hr _ _] HQ. unfold wp, mbind, ST_bind, next_buffer_id, IdAllocator_next.
  by rewrite wrap_succ64_small.
Qed.

Lemma create_buffer_with_env_wp st now title command cwd env :
  consistent st → has_room 1 st →
  wp (create_buffer_with_env now title command cwd env)
    (λ id st', consistent st' ∧ (zoom_settled st → zoom_settled st')
       ∧ id = buffer_ids st ∧ st' = add_buffer (Buffer_new now id title command cwd env) st)
    (λ _ _, False) st.
Proof.
  intros C Hr. apply (next_buffer_wp st (λ id, Buffer_new now id title command cwd env)); [done|].
  split; [by apply add_buffer_consistent|]. by split; [apply same_layout_settled|].
Qed.

Lemma create_helper_buffer_wp st now title source scope cwd lines :
  consistent st → has_room 1 st →
  wp (create_helper_buffer now title source scope cwd lines)
    (λ id st', consistent st' ∧ (zoom_settled st → zoom_settled st') ∧ id = buffer_ids st
       ∧ ∃ src b, buffers st !! source = Some src ∧ st' = add_buffer b st ∧ b_id b = id
          ∧ b_kind b = KHelper (mkHelperBuffer source scope lines)
          ∧ b_pty_size b = b_pty_size src ∧ b_attachment b = Detached)
    (λ e st', e = NotFound ∧ st' = st ∧ buffers st !! source = None) st.
Proof.
  intros C Hr. unfold create_helper_buffer. wp_step.
  eapply wp_reads_returns; [apply (buffer_returns st source)|..]; cycle 1.
  { intros e [-> Hn]. done. }
  intros src Hsrc. apply (next_buffer_wp st (λ id, b_set_helper (mkHelperBuffer source scope lines)
    (b_set_pty_size (b_pty_size src) (Buffer_new now id title [] cwd ∅)))); [done|].
  split; [by apply add_buffer_consistent|]. split; [by apply same_layout_settled|].
  split; [done|]. eexists src, _. by split_and!.
Qed.

Lemma remove_buffer_wp st id :
  consistent st →
  wp (remove_buffer id)
    (λ b st', consistent st' ∧ (zoom_settled st → zoom_settled st')
       ∧ buffers st !! id = Some b ∧ b_attachment b = Detached
       ∧ st' = set_buffers (delete id) st)
    (λ e st', st' = st ∧ match buffers st !! id with
                         | None => e = NotFound
                         | Some b => e = Conflict ∧ b_attachment b ≠ Detached
                         end) st.
Proof.
  intros [I C A S]. pose proof (in_wired _ _ _ I) as W. unfold remove_buffer. wp_step.
  eapply wp_reads_returns; [apply (buffer_returns st id)|..]; cycle 1.
  { intros e [-> Hn]. by rewrite Hn. }
  intros b Hb. case_bool_decide as Hd; [|by apply wp_throw; rewrite Hb].
  wp_step. apply wp_modify, wp_ret.
  destruct (same_layout_settled st (set_buffers (delete id) st)) as (Sf & Sz & Sc & Sa); [done..|].
  split; [|done]. split; [|auto..].
  apply (buffer_map_inv ∅ ∅ st (delete id (buffers st)) (buffer_ids st)); [..|done].
  - intros i x [_ Hx]%lookup_delete_Some. by apply (wi_buffer_id _ W).
  - intros i [x [_ Hx]%lookup_delete_Some]. apply (fi_buffers _ (wi_fresh _ W)). eauto.
  - lia.
  - intros i v Hi. rewrite lookup_delete_ne; [done|]. intros He.
    destruct (at_view _ _ (in_attached _ _ _ I) i v Hi) as (x & Hx & Hat); [set_solver|].
    rewrite <-He in Hx. congruence.
  - intros i x j [_ Hx]%lookup_delete_Some. done.
Qed.

(** ** Views *)

Definition view_node (k sid bid : N) (sz : PtySize) : Node :=
  BufferView (mkBufferViewNode k sid None bid (mkBufferViewState false false true sz)).

Definition add_view (sid bid : N) (sz : PtySize) (st : ServerState) : ServerState :=
  set_nodes (insert (node_ids st) (view_node (node_ids st) sid bid sz)) (bump_nodes st).

Definition attach_to (k bid : N) (b : Buffer) (st : ServerState) : ServerState :=
  set_buffers (insert bid (b_set_attachment (Attached k) true b)) st.

Lemma ensure_session_returns st sid :
  returns (ensure_session_exists st sid) (λ _, is_Some (sessions st !! sid))
    (λ e, e = NotFound ∧ sessions st !! sid = None).
Proof. unfold ensure_session_exists, session. destruct (sessions st !! sid); simpl; eauto. Qed.

Lemma create_unattached_view_wp st sid bid :
  has_room 1 st →
  wp (create_unattached_buffer_view sid bid)
    (λ k st', k = node_ids st ∧ ∃ s b, sessions st !! sid = Some s ∧ buffers st !! bid = Some b
       ∧ st' = add_view sid bid (b_pty_size b) st)
    (λ e st', e = NotFound ∧ st' = st
       ∧ (sessions st !! sid = None ∨ buffers st !! bid = None)) st.
Proof.
  intros [_ _ Hr _]. unfold create_unattached_buffer_view. wp_step.
  eapply wp_reads_returns; [apply ensure_session_returns| |intros e [-> Hn]; auto].
  intros _ [s Hs]. wp_step. eapply wp_reads_returns; [apply (buffer_returns st bid)|..].
  - intros b Hb. wp_step. apply next_node_id_wp; [done|]. wp_step. apply wp_modify, wp_ret.
    split; [done|]. by exists s, b.
  - intros e [-> Hb]. auto.
Qed.

(** The view [k] gets its buffer, which no other view shows. *)
Lemma attach_to_inv D U st k v b :
  nodes st !! k = Some (BufferView v) → buffers st !! v_buffer_id v = Some b →
  b_attachment b = Detached ∨ b_attachment b = Attached k →
  inv_but D ({[k]} ∪ U) st → inv_but D U (attach_to k (v_buffer_id v) b st).
Proof.
  intros Hk Hb Hat [W S [A1 A2 A3] R]. unfold attach_to. set (bid := v_buffer_id v) in *.
  assert (∀ i x, <[bid := b_set_attachment (Attached k) true b]> (buffers st) !! i = Some x →
    i = bid ∧ x = b_set_attachment (Attached k) true b ∨ i ≠ bid ∧ buffers st !! i = Some x) as Hi.
  { intros i x. rewrite lookup_insert. case_decide as He; [left|right; split; congruence].
    split; congruence. }
  split; [|done| |].
  - destruct W as [F N1 B1 S1 W1 R1 [F1 F2 F3 F4]]. split; simpl; auto.
    + intros i x [[-> ->]|[_ Hx]]%Hi; [by apply (B1 bid b)|by apply B1].
    + intros i s Hs. by destruct (S1 i s Hs).
    + intros fid w Hw. by destruct (W1 fid w Hw).
    + split; simpl; auto. intros i [x [[-> _]|[_ Hx]]%Hi]; apply F2; eauto.
  - split; simpl.
    + intros i v' Hv'. rewrite lookup_insert. case_decide; [eauto|by eapply A1].
    + intros i v' Hv' HU. rewrite lookup_insert. case_decide as He.
      * eexists. split; [done|]. simpl. f_equal. destruct (decide (i = k)) as [->|Hne]; [done|].
        destruct (A2 i v' Hv') as (x & Hx & Hxa); [set_solver|]. rewrite <-He, Hb in Hx.
        simplify_eq. destruct Hat; congruence.
      * apply A2; [done|]. rewrite elem_of_union, elem_of_singleton. intros [->|?]; [|done].
        simplify_eq.
    + intros i x j [[-> ->]|[_ Hx]]%Hi; [|by apply A3]. simpl. intros [= <-]. by exists v.
  - destruct R as [R1 R2 R3 R4]. split; simpl; [exact R1|exact R2|exact R3|exact R4].
Qed.

Lemma attach_to_local k bid b st sid : local_to sid st (attach_to k bid b st).
Proof. split; eauto. Qed.

Section new_view.
Context {st : ServerState} (sid bid : N) (sz : PtySize) (b : Buffer).
Context (W : wired st) (Hb : buffers st !! bid = Some b).
Let k : N := node_ids st.
Let st' : ServerState := add_view sid bid sz st.

Lemma add_view_inv D U : inv_but D U st → inv_but D ({[k]} ∪ U) st'.
Proof.
  apply (fresh_inv (n:=view_node k sid bid sz)); try done. intros v [= <-]. simpl. eauto.
Qed.
Lemma add_view_compact D : compact_but D st → compact_but D st'.
Proof. by apply (fresh_compact (n:=view_node k sid bid sz)). Qed.
Lemma add_view_anchored X : anchored_but X st → anchored_but ({[k]} ∪ X) st'.
Proof. by apply (fresh_anchored (n:=view_node k sid bid sz)). Qed.
Lemma add_view_local sid' : local_to sid' st st'.
Proof. by apply (fresh_local (n:=view_node k sid bid sz)). Qed.
Lemma add_view_free : ¬ owned_root st' k.
Proof. by apply (fresh_not_owned (n:=view_node k sid bid sz)). Qed.
Lemma add_view_old i n : nodes st !! i = Some n → i ≠ k ∧ nodes st' !! i = Some n.
Proof. by apply (fresh_old (n:=view_node k sid bid sz)). Qed.
End new_view.

Definition made_view (sid bid : N) (b : Buffer) (st : ServerState) : ServerState :=
  attach_to (node_ids st) bid b (add_view sid bid (b_pty_size b) st).

(** A view is made exactly for a detached buffer of a session that exists. *)
Lemma create_buffer_view_wp U st sid bid :
  inv_but ∅ U st → has_room 1 st →
  wp (create_buffer_view sid bid)
    (λ k st', k = node_ids st ∧ ∃ s b, sessions st !! sid = Some s ∧ buffers st !! bid = Some b
       ∧ b_attachment b = Detached ∧ st' = made_view sid bid b st)
    (λ e st', spent st st' ∧
       (e = NotFound ∧ (sessions st !! sid = None ∨ buffers st !! bid = None)
        ∨ e = Conflict ∧ ∃ b, buffers st !! bid = Some b ∧ b_attachment b ≠ Detached)) st.
Proof.
  intros I Hr. pose proof (in_wired _ _ _ I) as W. unfold create_buffer_view. wp_step.
  eapply wp_mono; [by apply create_unattached_view_wp|..]; cycle 1.
  { intros e st' (-> & -> & Hn). split; [|by left]. split; [done|]. split_and!; lia. }
  intros k st1 (-> & s & b & Hs & Hb & ->). set (st1 := add_view sid bid (b_pty_size b) st).
  assert (nodes st1 !! node_ids st = Some (view_node (node_ids st) sid bid (b_pty_size b))) as Hk
    by apply lookup_insert_eq.
  wp_step. wp_step. unfold attach_buffer. wp_step.
  eapply wp_reads_ok; [unfold buffer; simpl; by rewrite Hb|]. wp_step.
  destruct (b_attachment b) as [existing|] eqn:Hat.
  - destruct (at_buffer _ _ (in_attached _ _ _ I) bid b existing Hb Hat) as (v & Hv & _).
    assert (existing ≠ node_ids st) as Hne.
    { intros He. assert (existing < node_ids st)%N; [|lia].
      apply (fi_nodes _ (wi_fresh _ W)). eauto. }
    rewrite (proj2 (N.eqb_neq _ _) Hne). apply wp_throw. wp_step. apply wp_modify, wp_throw.
    assert (set_nodes (delete (node_ids st)) st1 = bump_nodes st) as ->.
    { unfold st1, add_view, set_nodes. simpl. unfold bump_nodes. f_equal.
      rewrite delete_insert_eq. apply delete_id.
      by apply (fresh_none (n:=view_node (node_ids st) sid bid (b_pty_size b))). }
    split; [apply spent_bump|]. right. split; [done|]. exists b. split; [done|]. congruence.
  - apply wp_ret. wp_step.
    eapply wp_reads_ok; [by unfold buffer_view_buffer_id; rewrite (node_Ok _ _ _ Hk)|].
    cbn [v_buffer_id]. rewrite N.eqb_refl. cbn [negb when]. wp_step. apply wp_ret.
    eapply wp_buffer_mut; [exact Hb|]. apply wp_ret. split; [done|]. by exists s, b.
Qed.

Section made_view.
Context {st : ServerState} (sid bid : N) (b : Buffer).
Context (Hb : buffers st !! bid = Some b) (Hd : b_attachment b = Detached).
Let k : N := node_ids st.
Let st' : ServerState := made_view sid bid b st.

Lemma made_view_inv D U : inv_but D U st → inv_but D U st'.
Proof.
  intros I. pose proof (in_wired _ _ _ I) as W. unfold st', made_view.
  apply (attach_to_inv D U (add_view sid bid (b_pty_size b) st) (node_ids st)
    (mkBufferViewNode (node_ids st) sid None bid (mkBufferViewState false false true (b_pty_size b)))).
  - apply lookup_insert_eq.
  - exact Hb.
  - by left.
  - by eapply add_view_inv.
Qed.
Lemma made_view_node :
  nodes st' !! k = Some (view_node k sid bid (b_pty_size b)).
Proof. apply lookup_insert_eq. Qed.
Lemma made_view_old i n : wired st → nodes st !! i = Some n → i ≠ k ∧ nodes st' !! i = Some n.
Proof. intros W. by apply (add_view_old sid bid (b_pty_size b)). Qed.
Lemma made_view_compact D : wired st → compact_but D st → compact_but D st'.
Proof. intros W. by apply (add_view_compact sid bid (b_pty_size b)). Qed.
Lemma made_view_anchored X : wired st → anchored_but X st → anchored_but ({[k]} ∪ X) st'.
Proof. intros W. by apply (add_view_anchored sid bid (b_pty_size b)). Qed.
Lemma made_view_local sid' : wired st → local_to sid' st st'.
Proof. intros W. etrans; [by apply (add_view_local sid bid (b_pty_size b))|apply attach_to_local]. Qed.
Lemma made_view_free : wired st → ¬ owned_root st' k.
Proof. intros W. by apply (add_view_free sid bid (b_pty_size b)). Qed.
Lemma made_view_below j : below st' k j → j = k.
Proof.
  intros [|(c & Hc & _)]%(below_inv _ _ _ made_view_node); [done|]. by apply elem_of_nil in Hc.
Qed.
End made_view.

(** Linking a free tree below a container: the state stays well formed, and the
    panes of the tree come to belong to the container's session. *)

(** [n'] is [n] with the further child [c]. *)
Record linked (c : N) (n n' : Node) : Prop := {
  li_kind : same_kind n n';
  li_parent : parent n' = parent n;
  li_children : child_ids n' ≡ₚ c :: child_ids n;
  li_last : ∀ leaf, last_focused_descendant n' = Some leaf → last_focused_descendant n = Some leaf;
  li_ok : node_ok n → node_ok n'
}.

(** The free tree at [c], of the session of [p], may be linked below [p]. *)
Record linkable (st : ServerState) (p c : N) (n m n' : Node) : Prop := {
  lb_wired : wired st;
  lb_container : nodes st !! p = Some n;
  lb_child : nodes st !! c = Some m;
  lb_root : parent m = None;
  lb_session : node_session m = node_session n;
  lb_free : ¬ owned_root st c;
  lb_apart : ¬ below st c p;
  lb_linked : linked c n n'
}.

Section link.
Context {st : ServerState} {p c : N} {n m n' : Node} (L : linkable st p c n m n').
Let W : wired st := lb_wired _ _ _ _ _ _ L.
Let Hp : nodes st !! p = Some n := lb_container _ _ _ _ _ _ L.
Let Hc : nodes st !! c = Some m := lb_child _ _ _ _ _ _ L.
Let Hroot : parent m = None := lb_root _ _ _ _ _ _ L.
Let Hs : node_session m = node_session n := lb_session _ _ _ _ _ _ L.
Let Hfree : ¬ owned_root st c := lb_free _ _ _ _ _ _ L.
Let Hnb : ¬ below st c p := lb_apart _ _ _ _ _ _ L.
Let Hl : linked c n n' := lb_linked _ _ _ _ _ _ L.
Let F : forest (layout (nodes st)) := wi_forest _ W.
Let m' : gmap N Node := relink c m (Some p) p n' (nodes st).
Let st' : ServerState := set_nodes (λ _, m') st.

Lemma link_ne : c ≠ p.
Proof. intros Heq. apply Hnb. rewrite Heq. reflexivity. Qed.

Lemma link_lookup i :
  m' !! i = if decide (i = c) then Some (node_set_parent (Some p) m)
            else if decide (i = p) then Some n' else nodes st !! i.
Proof. unfold m'. apply relink_lookup; [exact link_ne|done]. Qed.

Lemma link_kind i n2 : m' !! i = Some n2 → ∃ n1, nodes st !! i = Some n1 ∧ same_kind n1 n2.
Proof.
  rewrite link_lookup. repeat case_decide; intros; simplify_eq; eauto with mux.
  exists n. split; [done|apply Hl].
Qed.

Lemma link_forest : forest (layout m').
Proof.
  destruct (li_kind _ _ _ Hl) as (_ & Hsn & _). unfold m'.
  rewrite (relink_layout c m (Some p) p n n' (nodes st) link_ne Hc Hp Hsn (li_parent _ _ _ Hl)).
  apply (forest_attach F p c (shape_of n) (shape_of m)).
  - by rewrite layout_lookup, Hp.
  - by rewrite layout_lookup, Hc.
  - done.
  - done.
  - exact Hnb.
  - apply Hl.
Qed.

Lemma link_owned i : owned_root st i → ∃ n2, m' !! i = Some n2 ∧ parent n2 = None.
Proof.
  intros Ho. destruct (owned_exists W i Ho) as [x Hx]. rewrite link_lookup.
  pose proof (owned_parent W i x Ho Hx). repeat case_decide; subst; [done| |eauto].
  exists n'. split; [done|]. rewrite (li_parent _ _ _ Hl). congruence.
Qed.

Lemma link_inv D U : inv_but D U st → inv_but D U st'.
Proof.
  intros [_ S A R]. split.
  - apply reshape_wired; [done|apply link_forest|exact link_kind|exact link_owned].
  - intros i x. simpl. rewrite link_lookup. repeat case_decide; intros Hx HD; simplify_eq.
    + assert (node_ok m) as Hm by by apply (S c). by destruct m.
    + by apply Hl, (S p).
    + by apply (S i).
  - apply reshape_attached; [exact link_kind| |done].
    intros i v Hi. rewrite link_lookup. repeat case_decide; simplify_eq; eauto.
  - apply reshape_remembers; [exact link_kind| |done].
    intros i x leaf. rewrite link_lookup. repeat case_decide; intros Hx Hlf; simplify_eq.
    + apply (re_node _ R c m leaf Hc). by destruct m.
    + apply (re_node _ R p n leaf Hp). by apply Hl.
    + by apply (re_node _ R i x).
Qed.

Lemma link_compact D :
  (∀ t, m = Tabs t → 2 ≤ length (t_tabs t)) → compact_but D st → compact_but D st'.
Proof.
  intros Hm C i t. simpl. rewrite link_lookup.
  repeat case_decide; intros Hx Hn HD; simplify_eq.
  - destruct m as [v|s|t0]; simplify_eq/=. by apply Hm.
  - destruct (li_kind _ _ _ Hl) as (_ & _ & _ & Ht). pose proof (li_children _ _ _ Hl) as Hpm.
    pose proof (li_parent _ _ _ Hl) as Hpar.
    destruct n as [v|s|t0]; try done. apply Permutation_length in Hpm. simpl in *.
    rewrite !length_fmap in Hpm. assert (2 ≤ length (t_tabs t0)); [|lia].
    apply (C p t0 Hp); [congruence|done].
  - by apply (C i t).
Qed.

Lemma link_anchored X : anchored_but ({[c]} ∪ X) st → anchored_but X st'.
Proof.
  intros A i x. simpl. rewrite link_lookup. repeat case_decide; intros Hx Hpar HX; simplify_eq.
  - by destruct m.
  - rewrite (li_parent _ _ _ Hl) in Hpar. apply (A p n Hp Hpar).
    rewrite elem_of_union, elem_of_singleton. naive_solver.
  - apply (A i x Hx Hpar). set_solver.
Qed.

Lemma link_local sid : node_session n = sid → local_to sid st st'.
Proof.
  intros Hsn. apply reshape_local. intros i x Hi Hne. rewrite link_lookup.
  repeat case_decide; simplify_eq; congruence.
Qed.

Lemma link_calm : calm st st'.
Proof.
  apply calm_nodes. intros j. fold m'. rewrite link_lookup.
  repeat case_decide; subst; rewrite ?Hc, ?Hp; simpl; [by destruct m| |done].
  apply same_kind_pane, Hl.
Qed.

(** What is below a node after the link was there before, or is in the tree
    that was linked. *)
Lemma link_below i j : below st' i j → below st i j ∨ below st i p ∧ below st c j.
Proof.
  revert j. apply (rtc_ind_r (λ j, below st i j ∨ below st i p ∧ below st c j)).
  { left. reflexivity. }
  intros a b _ Hab IH.
  assert (edge (layout (nodes st)) a b ∨ a = p ∧ b = c) as [He|[-> ->]].
  { apply layout_edge in Hab as (x & Hx & Hb). fold m' in Hx. rewrite link_lookup in Hx.
    revert Hx. repeat case_decide; intros; simplify_eq.
    - left. apply layout_edge. exists m. split; [done|]. by destruct m.
    - rewrite (li_children _ _ _ Hl) in Hb. apply elem_of_cons in Hb as [->|Hb]; [by right|].
      left. apply layout_edge. eauto.
    - left. apply layout_edge. eauto. }
  - destruct IH as [IH|[IH1 IH2]]; [left|right; split; [done|]]; by eapply rtc_r.
  - right. split; [|reflexivity]. by destruct IH as [IH|[IH1 IH2]].
Qed.
End link.

(** Nodes that were exempt meanwhile and are in order again. *)
Lemma inv_restore D U st :
  inv_but D U st → (∀ i n, i ∈ D → nodes st !! i = Some n → node_ok n) → inv_but ∅ U st.
Proof.
  intros [W S A R] Hok. split; [done| |done|done]. intros i n Hi _.
  destruct (decide (i ∈ D)); [by eapply Hok|by apply (S i)].
Qed.

Lemma compact_restore D st :
  compact_but D st →
  (∀ i t, i ∈ D → nodes st !! i = Some (Tabs t) → t_parent t ≠ None → 2 ≤ length (t_tabs t)) →
  compact st.
Proof.
  intros C Hok i t Hi Hn _. destruct (decide (i ∈ D)); [by eapply Hok|by apply (C i)].
Qed.

(** ** Before the focus moves

    [st'] is well formed; the panes below the roots in [X] belong to no window
    yet, and the focus of [sid] may be stale. *)
Record staged (U X : gset N) (sid : N) (st st' : ServerState) : Prop := {
  ss_inv : inv_but ∅ U st';
  ss_compact : compact st';
  ss_anchored : anchored_but X st';
  ss_local : local_to sid st st'
}.

Lemma staged_trans U X sid st st1 st' :
  local_to sid st st1 → staged U X sid st1 st' → staged U X sid st st'.
Proof. intros L [I C A L']. split; [done..|]. by etrans. Qed.

Lemma staged_focusable U X sid st st' leaf i n :
  staged U X sid st st' → nodes st' !! i = Some n → node_session n = sid →
  is_Some (sessions st' !! sid) → candidate_ok (st:=st') i (Some leaf) →
  (∀ r, r ∈ X → ¬ below st' r i) → ∃ r, focusable st' sid leaf r.
Proof.
  intros [I C A L] Hi Hs Hex ([v Hv] & Hb & _) HX. pose proof (in_wired _ _ _ I) as W.
  pose proof (wi_forest _ W) as F.
  destruct (root_of_node st' i n W Hi) as (r & nr & Hr & Hpr & Hri & Hsr).
  exists r. split.
  - exists v. split; [done|].
    pose proof (below_session F i leaf n (BufferView v) Hi Hv Hb) as He. simpl in He. congruence.
  - done.
  - split; [by etrans|]. by exists nr.
  - destruct (A r nr Hr Hpr) as [(j & s & Hj & Hsr')|(fid & w & Hw & Hwr)].
    + intros HrX. by apply (HX r HrX).
    + left. exists s. split; [|done].
      destruct (so_root _ _ _ (wi_session _ W _ _ Hj)) as (t & Ht & _ & Hts).
      rewrite Hsr', Hr in Ht. simplify_eq/=. by rewrite Hsr in Hj.
    + right. exists fid, w. split_and!; [done..|]. apply (wo_visible _ _ _ (wi_window _ W _ _ Hw)).
Qed.

(** Focusing what a new tree shows, or healing the focus, ends in a consistent
    state. *)
Lemma refocus_wp sid st st' i n :
  consistent st → staged ∅ ∅ sid st st' → nodes st' !! i = Some n → node_session n = sid →
  is_Some (sessions st' !! sid) →
  wp (candidate ← reads (λ st, resolve_focus_candidate st i);
      match candidate with
      | Some leaf => focus_leaf sid leaf
      | None => heal_focus sid
      end)
    (λ _ st'', consistent st'' ∧ refocused st' st''
       ∧ (is_buffer_view n = true → ∃ s, sessions st'' !! sid = Some s ∧ s_focused_leaf s = Some i))
    (λ _ _, False) st'.
Proof.
  intros Cst Sg Hi Hs [s Hses]. pose proof Sg as [I C A L]. pose proof (in_wired _ _ _ I) as W.
  assert (∀ sid' s, sid' ≠ sid → sessions st' !! sid' = Some s → focus_ok st' sid' s) as Hother.
  { intros sid' s' Hne Hs'. eapply (local_focus_ok sid); [apply Cst|done|done|].
    apply (cs_focus _ Cst). by rewrite <-(lo_sessions _ _ _ L). }
  destruct (resolve_focus_candidate_spec (wi_forest _ W) i (in_remembers _ _ _ I)
    (mk_is_Some _ _ Hi)) as (o & Ho & Hcand).
  assert (is_buffer_view n = true → o = Some i) as Hview.
  { intros Hv. unfold resolve_focus_candidate, budget in Ho. simpl in Ho.
    rewrite (node_Ok _ _ _ Hi) in Ho. destruct n; [|done..]. by injection Ho. }
  wp_step. eapply wp_reads_ok; [exact Ho|]. destruct o as [leaf|].
  - destruct (staged_focusable ∅ ∅ sid st st' leaf i n Sg Hi Hs (mk_is_Some _ _ Hses) Hcand)
      as (r & Hf); [set_solver|].
    eapply wp_mono; [exact (focus_leaf_wp sid leaf st' W (at_backed _ _ (in_attached _ _ _ I)))|..].
    + intros _ st'' (q & _ & Hpost). pose proof Hpost as [Hfr (s0 & s1 & Hs0 & Hs1 & Hl & _)
        (v & Hv & _) Hos _ _].
      pose proof (ff_refocused _ _ _ Hfr) as R. split; [|split; [done|]]; cycle 1.
      { intros Hvn. specialize (Hview Hvn). simplify_eq. eauto. }
      split.
      * by eapply refocused_inv.
      * by eapply refocused_compact.
      * by eapply refocused_anchored.
      * intros sid' s' Hs'. destruct (decide (sid' = sid)) as [->|Hne].
        { intros leaf0 ?. simplify_eq. split; [by exists v|done]. }
        eapply local_focus_ok; [exact W|by apply frame_local|done|]. apply Hother; [done|].
        by rewrite <-(ff_sessions _ _ _ Hfr).
    + intros e st'' [_ Hno]. by apply (Hno r).
  - eapply wp_mono; [by eapply (heal_focus_wp ∅)| |done]. intros [] st'' H.
    split; [by eapply healed_consistent|]. split; [apply (ff_refocused _ _ _ (he_frame _ _ _ H))|].
    intros Hv. by specialize (Hview Hv).
Qed.

(** The same for a pane, which shows itself. *)
Lemma refocus_view_wp sid st st' i v :
  consistent st → staged ∅ ∅ sid st st' → nodes st' !! i = Some (BufferView v) →
  v_session_id v = sid → is_Some (sessions st' !! sid) →
  wp (focus_leaf sid i)
    (λ _ st'', consistent st'' ∧ refocused st' st''
       ∧ ∃ s, sessions st'' !! sid = Some s ∧ s_focused_leaf s = Some i)
    (λ _ _, False) st'.
Proof.
  intros Cst Sg Hi Hs Hses. pose proof (refocus_wp sid st st' i _ Cst Sg Hi Hs Hses) as H.
  assert (resolve_focus_candidate st' i = Ok (Some i)) as Hc.
  { unfold resolve_focus_candidate, budget. simpl. by rewrite (node_Ok _ _ _ Hi). }
  unfold wp, mbind, ST_bind, reads in H. rewrite Hc in H.
  eapply wp_mono; [exact H| |by intros]. intros _ st'' (C'' & R & Hf).
  split; [exact C''|]. split; [exact R|]. by apply Hf.
Qed.

(** Opening panes: tabs, splits and popups on a buffer, and new sessions. Each
    request ends in a consistent state, also when it is refused. *)

(** ** Adding a tab *)

Lemma insert_at_perm {A} i (x : A) l : i ≤ length l → insert_at i x l ≡ₚ x :: l.
Proof.
  intros Hi. unfold insert_at. rewrite <-Permutation_middle. by rewrite take_drop.
Qed.

Definition with_tab (index : nat) (title : rstring) (c : N) (t : TabsNode) : TabsNode :=
  t_set_tabs (insert_at index (TabEntry_new title c) (t_tabs t)) index t.

Lemma linked_tab index title c t :
  index ≤ length (t_tabs t) → linked c (Tabs t) (Tabs (with_tab index title c t)).
Proof.
  intros Hi. pose proof (insert_at_perm index (TabEntry_new title c) (t_tabs t) Hi) as Hp.
  split; try done; simpl.
  - by rewrite Hp.
  - intros _. left. rewrite Hp. simpl. lia.
Qed.

Lemma add_tab_wp st p c t m index title do_focus (Q : nat → ServerState → Prop) E :
  wired st → nodes st !! p = Some (Tabs t) → nodes st !! c = Some m → parent m = None →
  node_session m = t_session_id t → ¬ owned_root st c → c ≠ p →
  (length (t_tabs t) < index → E NotFound st) →
  (index ≤ length (t_tabs t) →
     let st1 := set_nodes (λ ns, relink c m (Some p) p (Tabs (with_tab index title c t)) ns) st in
     if do_focus : bool then
       wp (candidate ← reads (λ st, resolve_focus_candidate st c);
           match candidate with
           | Some leaf => focus_leaf (t_session_id t) leaf
           | None => heal_focus (t_session_id t)
           end) (λ _, Q index) E st1
     else Q index st1) →
  wp (add_tab_sibling_at_with_focus p index title c do_focus) Q E st.
Proof.
  intros W Hp Hc Hpar Hs Hfree Hne HE HQ. unfold add_tab_sibling_at_with_focus. wp_step.
  assert (tabs_of st p = Ok t) as Htabs by (unfold tabs_of; by rewrite (node_Ok _ _ _ Hp)).
  eapply wp_reads_ok; [by unfold node_session_id; rewrite (node_Ok _ _ _ Hp)|]. wp_step.
  eapply wp_reads_ok; [by eapply ensure_belongs_Ok|]. wp_step.
  apply wp_passes; [by rewrite (proj2 (N.eqb_neq c p) Hne)|]. wp_step.
  eapply wp_reads_ok; [exact Htabs|]. wp_step.
  eapply wp_reads_ok; [by unfold node_parent; rewrite (node_Ok _ _ _ Hc); simpl; rewrite Hpar|].
  wp_step. apply wp_passes; [done|]. wp_step. apply wp_gets.
  assert (is_session_root st c = false) as ->.
  { apply not_true_iff_false. rewrite is_session_root_spec. intros ?. apply Hfree. by left. }
  wp_step. apply wp_passes; [done|]. wp_step. apply wp_gets.
  assert (floating_id_by_root st c = None) as ->.
  { apply (floating_id_by_root_None W). intros fid w Hw Hr. apply Hfree. right. eauto. }
  wp_step. apply wp_passes; [done|]. wp_step. eapply wp_reads_ok; [exact Htabs|]. wp_step.
  destruct (Nat.leb_spec index (length (t_tabs t))) as [Hi|Hi]; [|by apply wp_lift, HE].
  apply wp_passes; [done|]. wp_step. eapply set_parent_wp; [exact Hc|]. wp_step.
  eapply wp_reads_ok.
  { unfold tabs_of. by rewrite (node_Ok _ p (Tabs t)) by by simpl; rewrite lookup_insert_ne. }
  wp_step. eapply wp_lift_ok; [by unfold vec_insert; rewrite (proj2 (Nat.leb_le _ _) Hi)|].
  wp_step. apply wp_modify. specialize (HQ Hi). cbn zeta in HQ.
  assert (∀ x, set_nodes (insert p x) (set_nodes (insert c (node_set_parent (Some p) m)) st)
    = set_nodes (λ ns, relink c m (Some p) p x ns) st) as Heq.
  { intros x. unfold set_nodes, relink. simpl. f_equal. by apply insert_insert_ne. }
  rewrite Heq. wp_step. destruct do_focus.
  - eapply wp_mono; [exact HQ| |done]. intros [] st' H. by apply wp_ret.
  - by apply wp_ret, wp_ret.
Qed.

(** The new pane [k] shows [bid] in the session [sid], and has the focus. *)
Record opened (sid bid k : N) (st st' : ServerState) : Prop := {
  op_consistent : consistent st';
  op_views : views st' = <[k := (sid, bid)]> (views st);
  op_focus : ∃ s, sessions st' !! sid = Some s ∧ s_focused_leaf s = Some k
}.

Lemma made_view_views st sid bid b :
  views (made_view sid bid b st) = <[node_ids st := (sid, bid)]> (views st).
Proof.
  apply map_eq. intros i. rewrite lookup_insert, !views_lookup. simpl.
  rewrite lookup_insert. by case_decide.
Qed.

(** A view that was made and dropped again. *)
Lemma touch_detached_consistent st bid b b' :
  consistent st → buffers st !! bid = Some b → b_attachment b = Detached →
  b_attachment b' = Detached → b_id b' = b_id b →
  consistent (set_buffers (insert bid b') st).
Proof.
  intros [I C A S] Hb Hd Hd' Hid. pose proof (in_wired _ _ _ I) as W.
  destruct (same_layout_settled st (set_buffers (insert bid b') st)) as (Sf & _ & Sc & Sa); [done..|].
  split; [|auto..].
  apply (buffer_map_inv ∅ ∅ st (<[bid := b']> (buffers st)) (buffer_ids st)); [..|done].
  - intros i x. rewrite lookup_insert. case_decide as He; [|apply (wi_buffer_id _ W)].
    intros [= <-]. rewrite Hid, <-He. by apply (wi_buffer_id _ W).
  - intros i [x Hx]. rewrite lookup_insert in Hx. apply (fi_buffers _ (wi_fresh _ W)).
    case_decide as He; [rewrite <-He|]; eauto.
  - lia.
  - intros i v Hi. rewrite lookup_insert_ne; [done|]. intros He.
    destruct (at_view _ _ (in_attached _ _ _ I) i v Hi) as (x & Hx & Hat); [set_solver|].
    rewrite <-He in Hx. congruence.
  - intros i x j. rewrite lookup_insert. case_decide as He; [|done]. intros [= <-]. congruence.
Qed.

Lemma discard_made_wp st sid bid b :
  consistent st → buffers st !! bid = Some b → b_attachment b = Detached →
  wp (discard_buffer_view (node_ids st))
    (λ _ st', consistent st' ∧ views st' = views st ∧ nodes st' = nodes st
              ∧ sessions st' = sessions st ∧ floating st' = floating st)
    (λ _ _, False) (made_view sid bid b st).
Proof.
  intros C Hb Hd. pose proof (in_wired _ _ _ (cs_inv _ C)) as W.
  pose proof (made_view_node (st:=st) sid bid b) as Hk. set (k := node_ids st) in *.
  unfold discard_buffer_view. wp_step. apply wp_gets. rewrite Hk. cbn [parent view_node v_parent].
  wp_step. apply wp_ret. cbn beta iota zeta. wp_step. apply wp_gets. rewrite Hk.
  cbn [view_node v_buffer_id v_id]. wp_step. apply wp_ignore. unfold detach_buffer_if_attached_to.
  wp_step. apply wp_gets. simpl. rewrite lookup_insert_eq. simpl.
  rewrite bool_decide_eq_true_2 by done. cbn [when]. unfold detach_buffer_raw.
  eapply wp_buffer_mut; [simpl; apply lookup_insert_eq|]. apply wp_modify.
  set (b' := b_set_attachment _ _ _).
  set (st2 := set_nodes _ _).
  assert (st2 = bump_nodes (set_buffers (insert bid b') st)) as ->.
  { unfold st2, bump_nodes, set_nodes, set_buffers. simpl. f_equal.
    - by rewrite insert_insert_eq.
    - fold k. rewrite delete_insert_eq. apply delete_id.
      by apply (fresh_none (n:=view_node k sid bid (b_pty_size b))). }
  split; [|split; [reflexivity|split; [reflexivity|split; reflexivity]]].
  eapply spent_consistent; [apply spent_bump|].
  exact (touch_detached_consistent st bid b b' C Hb Hd eq_refl eq_refl).
Qed.

(** ** A tab on a buffer *)

Lemma tabs_of_Ok st p t : nodes st !! p = Some (Tabs t) → tabs_of st p = Ok t.
Proof. intros Hp. unfold tabs_of. by rewrite (node_Ok _ _ _ Hp). Qed.

(** Adding the view just made as a tab, and dropping it when that fails. *)
Lemma add_made_tab_wp st p t bid b index title :
  consistent st → has_room 1 st → nodes st !! p = Some (Tabs t) →
  buffers st !! bid = Some b → b_attachment b = Detached →
  let k := node_ids st in
  wp (or_discard k (add_tab_sibling_at_with_focus p index title k true))
    (λ i st', i = index ∧ index ≤ length (t_tabs t) ∧ opened (t_session_id t) bid k st st'
       ∧ ∃ t', nodes st' !! p = Some (Tabs t')
               ∧ t_tabs t' = insert_at index (TabEntry_new title k) (t_tabs t))
    (λ e st', e = NotFound ∧ length (t_tabs t) < index ∧ consistent st' ∧ nodes st' = nodes st)
    (made_view (t_session_id t) bid b st).
Proof.
  intros Cst Hroom Hp Hb Hd k. pose proof Cst as [I C A S]. pose proof (in_wired _ _ _ I) as W.
  set (sid := t_session_id t). set (st1 := made_view sid bid b st).
  pose proof (made_view_inv sid bid b Hb Hd ∅ ∅ I) as I1. fold st1 in I1.
  pose proof (in_wired _ _ _ I1) as W1.
  destruct (made_view_old sid bid b p _ W Hp) as [Hne Hp1]. fold k st1 in Hne, Hp1.
  pose proof (made_view_node (st:=st) sid bid b) as Hk. fold k st1 in Hk.
  pose proof (made_view_free (st:=st) sid bid b W) as Hfree. fold k st1 in Hfree.
  assert (¬ below st1 k p) as Hnb by (intros Hbl%(made_view_below sid bid b); done).
  destruct (node_session_exists st p _ W A Hp) as [s Hs]. simpl in Hs.
  unfold or_discard. wp_step. apply wp_attempt.
  eapply (add_tab_wp st1 p k t _ index title true); [done..|by apply not_eq_sym| |].
  { intros Hlt. wp_step. eapply wp_mono; [by apply discard_made_wp| |done].
    intros [] st' (C' & _ & Hn & _). apply wp_throw. by split_and!. }
  intros Hle. cbn zeta. set (st2 := set_nodes _ st1).
  pose proof (linked_tab index title k t Hle) as Hl.
  assert (linkable st1 p k (Tabs t) (view_node k sid bid (b_pty_size b))
    (Tabs (with_tab index title k t))) as L by by split.
  assert (staged ∅ ∅ sid st st2) as Sg.
  { split.
    - by apply (link_inv L).
    - apply (link_compact L); [done|]. by apply made_view_compact.
    - apply (link_anchored L). by apply made_view_anchored.
    - etrans; [by apply (made_view_local sid bid b)|]. by apply (link_local L). }
  assert (nodes st2 !! k = Some (node_set_parent (Some p) (view_node k sid bid (b_pty_size b))))
    as Hk2.
  { simpl. by rewrite (relink_lookup k _ _ p) by done; rewrite decide_True. }
  assert (nodes st2 !! p = Some (Tabs (with_tab index title k t))) as Hp2.
  { simpl. by rewrite (relink_lookup k _ _ p), decide_False, decide_True by done. }
  eapply wp_mono; [apply (refocus_wp sid st st2 k _ Cst Sg Hk2)| |done].
  { done. }
  { simpl. eauto. }
  intros _ st' (C' & R & Hf). wp_step. split_and!; [done|done| |].
  - split; [done| |by apply Hf].
    rewrite (ca_views _ _ (calm_scrub _ _ (rf_scrub _ _ R))).
    etrans; [exact (ca_views _ _ (link_calm L))|]. apply made_view_views.
  - destruct (scrub_lookup_node (rf_scrub _ _ R) _ _ Hp2) as (n' & Hn' & He).
    apply scrub_tabs_eq in He as (t' & -> & _ & _ & _ & Ht). eauto.
Qed.

Lemma add_tab_from_buffer_at_wp st p index title bid :
  consistent st → has_room 1 st →
  wp (add_tab_from_buffer_at p index title bid)
    (λ i st', ∃ t, nodes st !! p = Some (Tabs t) ∧ i = index ∧ index ≤ length (t_tabs t)
       ∧ opened (t_session_id t) bid (node_ids st) st st'
       ∧ ∃ t', nodes st' !! p = Some (Tabs t')
               ∧ t_tabs t' = insert_at index (TabEntry_new title (node_ids st)) (t_tabs t))
    (λ e st', consistent st' ∧ nodes st' = nodes st) st.
Proof.
  intros C Hr. unfold add_tab_from_buffer_at. wp_step.
  eapply wp_reads_returns; [apply tabs_of_returns|..]; [|by intros].
  intros t Hp. wp_step.
  eapply wp_reads_ok; [by unfold node_session_id; rewrite (node_Ok _ _ _ Hp)|]. wp_step.
  eapply wp_mono; [by apply (create_buffer_view_wp ∅); [apply C|]|..].
  - intros k st1 (-> & s & b & _ & Hb & Hd & ->).
    eapply wp_mono; [by apply (add_made_tab_wp st p t bid b index title)|..].
    + intros i st' (-> & ? & ? & ?). exists t. by split_and!.
    + by intros e st' (_ & _ & ? & ?).
  - intros e st' [Hsp _]. split; [by eapply spent_consistent|]. apply Hsp.
Qed.

Lemma add_tab_from_buffer_wp st p title bid :
  consistent st → has_room 1 st →
  wp (add_tab_from_buffer p title bid)
    (λ i st', ∃ t, nodes st !! p = Some (Tabs t) ∧ i = length (t_tabs t)
       ∧ opened (t_session_id t) bid (node_ids st) st st')
    (λ e st', consistent st' ∧ nodes st' = nodes st) st.
Proof.
  intros C Hr. unfold add_tab_from_buffer. wp_step.
  eapply wp_reads_returns; [apply tabs_of_returns|..]; [|by intros].
  intros t Hp. eapply wp_mono; [by apply add_tab_from_buffer_at_wp| |done].
  intros i st' (t' & Hp' & -> & _ & Ho & _). assert (t' = t) as -> by congruence.
  exists t. exact (conj Hp (conj eq_refl Ho)).
Qed.

Lemma or_discard_same {A} k (m m' : SM A) Q E st :
  m st = m' st → wp (or_discard k m) Q E st → wp (or_discard k m') Q E st.
Proof. intros He. unfold wp, or_discard, attempt, mbind, ST_bind. by rewrite He. Qed.

Lemma add_root_tab_from_buffer_wp st sid title bid :
  consistent st → has_room 1 st →
  wp (add_root_tab_from_buffer sid title bid)
    (λ i st', ∃ s t, sessions st !! sid = Some s ∧ nodes st !! s_root_node s = Some (Tabs t)
       ∧ i = length (t_tabs t) ∧ opened sid bid (node_ids st) st st'
       ∧ ∃ t', nodes st' !! s_root_node s = Some (Tabs t')
               ∧ t_tabs t' = t_tabs t ++ [TabEntry_new title (node_ids st)])
    (λ e st', consistent st' ∧ nodes st' = nodes st) st.
Proof.
  intros C Hr. pose proof (in_wired _ _ _ (cs_inv _ C)) as W.
  unfold add_root_tab_from_buffer. wp_step.
  eapply wp_reads_returns; [apply root_tabs_returns|..]; [|by intros].
  intros p (s & t & Hs & Hroot & Hp). wp_step.
  destruct (so_root _ _ _ (wi_session _ W _ _ Hs)) as (t0 & Ht0 & _ & Hts).
  rewrite Hroot in Ht0. assert (t0 = t) as -> by congruence. subst p sid.
  eapply wp_mono; [by apply (create_buffer_view_wp ∅); [apply C|]|..].
  - intros k st1 (-> & s' & b & _ & Hb & Hd & ->).
    pose proof (add_made_tab_wp st _ t bid b (length (t_tabs t)) title C Hr Hp Hb Hd) as H.
    destruct (made_view_old (t_session_id t) bid b _ _ W Hp) as [_ Hp1].
    eapply or_discard_same.
    { unfold add_tab_sibling, mbind, ST_bind, reads. by rewrite (tabs_of_Ok _ _ _ Hp1). }
    eapply wp_mono; [exact H|..].
    + intros i st' (-> & _ & Ho & t' & Ht' & Htt). exists s, t.
      refine (conj Hs (conj Hp (conj eq_refl (conj Ho _)))). exists t'. split; [exact Ht'|]. rewrite Htt. unfold insert_at. by rewrite take_ge, drop_ge.
    + intros e st' (_ & _ & C' & Hn). exact (conj C' Hn).
  - intros e st' [Hsp _]. split; [by eapply spent_consistent|]. apply Hsp.
Qed.
