(* ===== verification/Popups.v ===== *)
(** Switching between the tabs of a container, and the life of popups. *)

From stdpp Require Import relations.
From S2P Require Import Prelude Core Model Environment State Queries Buffers Focus.
From S2P Require Import Tree Layout Forest Invariant QueriesSpec FocusSpec Settle.
From S2P Require Import Surgery Owners Cosmetic Normalize Closing Opening.

(** Switching windows and tabs, and starting a session. *)

(** ** Switching *)

Section set_active.
Context {st : ServerState} {p : N} {t : TabsNode} {i : nat}.
Context (W : wired st) (Hp : nodes st !! p = Some (Tabs t)) (Hi : i < length (t_tabs t)).
Let t' : TabsNode := t_set_tabs (t_tabs t) i t.
Let st' : ServerState := set_nodes (insert p (Tabs t')) st.

Lemma set_active_refocused : refocused st st'.
Proof. eapply refocused_node; [exact Hp|done|by left|by left]. Qed.

Lemma set_active_visible r : visible_from (nodes st) r p → visible_from (nodes st') r p.
Proof.
  intros Hv. unfold visible_from in *. revert Hv.
  apply (rtc_ind_l (λ r, rtc (visible_edge (nodes st')) r p) p); [reflexivity|].
  intros x y Hxy _ IH. destruct (decide (x = p)) as [->|Hne]; [reflexivity|].
  eapply rtc_l; [|exact IH]. destruct Hxy as (n & Hn & Hc). exists n. simpl.
  by rewrite lookup_insert_ne.
Qed.

(** Switching the tabs of a node that is not shown hides nothing. *)
Lemma set_active_hidden sid j :
  ¬ on_screen st' sid p → on_screen st sid j → on_screen st' sid j.
Proof.
  intros Hno (r & Hv & Hr). exists r. split; [|exact Hr].
  revert Hv. apply visible_from_kept. intros x n Hrx Hx. exists n. split; [|done].
  simpl. rewrite lookup_insert_ne; [done|]. intros <-. apply Hno. exists r.
  split; [by apply set_active_visible|exact Hr].
Qed.
End set_active.

Lemma node_session_returns st i :
  returns (node_session_id st i) (λ sid, ∃ n, nodes st !! i = Some n ∧ node_session n = sid)
    (λ e, e = NotFound ∧ nodes st !! i = None).
Proof. unfold node_session_id, node. destruct (nodes st !! i); simpl; eauto. Qed.

Lemma switch_tab_wp st p i :
  consistent st →
  wp (switch_tab p i)
    (λ _ st', consistent st' ∧ refocused st st'
       ∧ ∃ t, nodes st !! p = Some (Tabs t) ∧ i < length (t_tabs t))
    (λ e st', st' = st ∧ ∀ t, nodes st !! p = Some (Tabs t) → length (t_tabs t) ≤ i) st.
Proof.
  intros Cst. pose proof Cst as [I C A S]. pose proof (in_wired _ _ _ I) as W.
  unfold switch_tab. wp_step.
  eapply wp_reads_returns; [apply (node_session_returns st p)|..]; cycle 1.
  { intros e [_ Hn]. split; [done|]. intros t. congruence. }
  intros sid (n & Hn & Hs). wp_step. eapply wp_reads_returns; [apply tabs_of_returns|..]; cycle 1.
  { intros e Hno. split; [done|]. intros t Ht. by destruct (Hno t). }
  intros t Hp. assert (n = Tabs t) as -> by congruence. simpl in Hs.
  wp_step. destruct (t_tabs t !! i) as [tab|] eqn:Htab; cycle 1.
  { apply wp_throw. split; [done|]. intros t' ?. simplify_eq. by apply lookup_ge_None. }
  pose proof (lookup_lt_Some _ _ _ Htab) as Hi.
  pose proof (set_active_refocused Hp Hi) as R. set (st1 := set_nodes _ st) in R.
  assert (is_Some (sessions st !! sid)) as [s Hses].
  { rewrite <-Hs. by apply (node_session_exists st p (Tabs t)). }
  wp_step. apply wp_modify, wp_ret. cbn beta iota zeta. fold st1. wp_step.
  assert (nodes st1 !! p = Some (Tabs (t_set_tabs (t_tabs t) i t))) as Hp1 by apply lookup_insert_eq.
  pose proof (refocused_inv R ∅ ∅ I) as I1. pose proof (in_wired _ _ _ I1) as W1.
  destruct (is_node_visible_in_session_spec W1 sid s p _ Hses Hp1 Hs) as (b & Hb & Hvis).
  eapply wp_reads_ok; [exact Hb|]. destruct b; simpl.
  - destruct (child_exists (wi_forest _ W1) p _ (te_child tab) Hp1) as (m & Hm & _ & Hms).
    { simpl. apply list_elem_of_fmap. exists tab. split; [done|]. by eapply list_elem_of_lookup_2. }
    eapply wp_mono; [apply (refocus_wp sid st st1 (te_child tab) m Cst)| |done].
    + split; [done|by eapply refocused_compact|by eapply refocused_anchored|].
      by eapply frame_local, frame_node.
    + done.
    + rewrite Hms. exact Hs.
    + simpl. eauto.
    + intros _ st' (C' & R' & _). split; [done|]. split; [by etrans|]. eauto.
  - apply wp_ret. split; [|split; [exact R|eauto]]. split; [done| | |].
    + by eapply refocused_compact.
    + by eapply refocused_anchored.
    + intros sid' s' Hs' leaf Hl. destruct (S sid' s' Hs' leaf Hl) as [Hv Hos].
      split; [by eapply refocused_view|]. destruct (decide (sid' = sid)) as [->|Hne].
      * eapply set_active_hidden; try eassumption. intros Ho. by apply Hvis in Ho.
      * eapply (local_on_screen sid); [exact W| |exact Hne|exact Hos].
        by eapply frame_local, frame_node.
Qed.

Lemma select_root_tab_wp st sid i :
  consistent st →
  wp (select_root_tab sid i)
    (λ _ st', consistent st' ∧ refocused st st') (λ _ st', st' = st) st.
Proof.
  intros C. unfold select_root_tab. wp_step.
  eapply wp_reads_returns; [apply root_tabs_returns|..]; [|by intros].
  intros p _. eapply wp_mono; [by apply switch_tab_wp|..].
  - by intros _ st' (? & ? & _).
  - by intros e st' [? _].
Qed.

(** ** Starting a session *)

Definition add_session (now : Timestamp) (name : rstring) (st : ServerState) : ServerState :=
  let sid := session_ids st in
  let root := node_ids st in
  mkServerState
    (<[sid := mkSession sid name root [] None None None (last_viewport st) (last_pane_titles st)
                (last_base_index st) [] now]> (sessions st))
    (buffers st) (<[root := empty_tabs root sid]> (nodes st)) (floating st) (environment st)
    (last_viewport st) (last_pane_titles st) (last_base_index st) (remain_on_exit st)
    (session_ids st + 1) (buffer_ids st) (node_ids st + 1) (floating_ids st).

Section add_session.
Context {st : ServerState} (now : Timestamp) (name : rstring).
Let sid : N := session_ids st.
Let root : N := node_ids st.
Let e : Node := empty_tabs root sid.
Let st0 : ServerState := set_nodes (insert root e) (bump_nodes st).
Let st' : ServerState := add_session now name st.

Lemma no_fresh_session : wired st → sessions st !! sid = None.
Proof.
  intros W. destruct (sessions st !! sid) eqn:Hs; [|done]. exfalso.
  assert (sid < sid)%N; [|lia]. apply (fi_sessions _ (wi_fresh _ W)). eauto.
Qed.

Lemma add_session_lookup i s :
  sessions st' !! i = Some s →
  i = sid ∧ s_id s = sid ∧ s_root_node s = root ∧ s_floating s = [] ∧ s_focused_leaf s = None
    ∧ s_focused_floating s = None ∧ s_zoomed_node s = None
  ∨ i ≠ sid ∧ sessions st !! i = Some s.
Proof.
  simpl. rewrite lookup_insert. case_decide; [|by right]. intros [= <-]. left. by split_and!.
Qed.

Lemma add_session_inv : consistent st → inv st'.
Proof.
  intros [I C A S]. pose proof (in_wired _ _ _ I) as W.
  assert (inv st0) as I0 by (apply (fresh_container_inv (n:=e)); try done; by right).
  destruct I0 as [[F N1 B1 S1 W1 R1 [F1 F2 F3 F4]] Sh [A1 A2 A3] [M1 M2 M3 M4]].
  pose proof (no_fresh_session W) as Hnone.
  split.
  - split; [exact F|exact N1|exact B1| | |exact R1|].
    + intros i s [(-> & Hid & Hr & Hf & _)|[_ Hs]]%add_session_lookup.
      * split; [done| |rewrite Hf; constructor|rewrite Hf; by intros ? ?%elem_of_nil].
        exists (mkTabsNode root sid None [] 0 None). rewrite Hr. split; [apply lookup_insert_eq|done].
      * by destruct (S1 i s Hs).
    + intros fid w Hw. destruct (W1 fid w Hw) as [Wid Wr (s & Hs & Hl) Wv]. split; [done|done| |done].
      exists s. split; [|done]. simpl in *. rewrite lookup_insert_ne; [done|]. intros He. fold sid in He.
      by rewrite <-He, Hnone in Hs.
    + split; [|exact F2|exact F3|exact F4]. intros i [s Hs].
      apply add_session_lookup in Hs as [(-> & _)|[_ Hs]]; simpl; [unfold sid; lia|].
      assert (i < session_ids st)%N; [|lia]. apply F1. eauto.
  - exact Sh.
  - by split.
  - split; [exact M1|exact M2|..]; intros i s x Hs;
      apply add_session_lookup in Hs as [(_ & _ & _ & _ & Hl & Hf & _)|[_ Hs]].
    + congruence.
    + by apply (M3 i s).
    + congruence.
    + by apply (M4 i s).
Qed.

Lemma add_session_kept i s : wired st → sessions st !! i = Some s → sessions st' !! i = Some s.
Proof.
  intros W Hs. simpl. rewrite lookup_insert_ne; [done|]. intros He.
  pose proof (no_fresh_session W) as Hn. fold sid in He. rewrite He in Hn. congruence.
Qed.

Lemma add_session_owned i : wired st → owned_root st i → owned_root st' i.
Proof.
  intros W [(j & s & Hs & Hr)|(fid & w & Hw & Hr)]; [left|right; eauto].
  exists j, s. split; [by apply add_session_kept|done].
Qed.

Lemma add_session_node i n : wired st → nodes st !! i = Some n → nodes st' !! i = Some n.
Proof.
  intros W Hi. pose proof (fresh_none (n:=e) eq_refl W) as Hn. simpl.
  rewrite lookup_insert_ne; [done|]. intros He. fold root in He, Hn.
  rewrite He in Hn. congruence.
Qed.

Lemma add_session_on_screen i j : wired st → on_screen st i j → on_screen st' i j.
Proof.
  intros W (r & Hv & Hr). exists r. split.
  - revert Hv. apply visible_from_subrel. intros a b (n & Hn & Hb). exists n.
    split; [by apply add_session_node|done].
  - destruct Hr as [(s & Hs & Hr)|Hr]; [left|by right]. exists s.
    split; [by apply add_session_kept|done].
Qed.

Lemma add_session_consistent : consistent st → consistent st'.
Proof.
  intros Cst. pose proof Cst as [I C A S]. pose proof (in_wired _ _ _ I) as W. split.
  - by apply add_session_inv.
  - exact (fresh_compact (n:=e) eq_refl eq_refl eq_refl eq_refl
             ∅ W C).
  - intros i n Hi Hp _. destruct (decide (i = root)) as [->|Hne].
    + left. eexists sid, _. split; [apply lookup_insert_eq|done].
    + apply add_session_owned; [done|]. simpl in Hi. rewrite lookup_insert_ne in Hi by done.
      apply (A i n Hi Hp). set_solver.
  - intros i s Hs leaf Hl. apply add_session_lookup in Hs as [(_ & _ & _ & _ & Hf & _)|[_ Hs]];
      [congruence|]. destruct (S i s Hs leaf Hl) as [[v Hv] Hos].
    split; [exists v; by apply add_session_node|by apply add_session_on_screen].
Qed.

Lemma add_session_zoom : consistent st → zoom_settled st → zoom_settled st'.
Proof.
  intros [I _ _ _] Z i s Hs x Hx. pose proof (in_wired _ _ _ I) as W.
  apply add_session_lookup in Hs as [(_ & _ & _ & _ & _ & _ & Hf)|[_ Hs]]; [congruence|].
  destruct (Z i s Hs x Hx) as [[n Hn] Hos].
  split; [exists n; by apply add_session_node|by apply add_session_on_screen].
Qed.
End add_session.

Lemma create_session_wp st now name :
  consistent st → has_room 1 st →
  wp (create_session now name)
    (λ sid st', consistent st' ∧ (zoom_settled st → zoom_settled st') ∧ sid = session_ids st
       ∧ sessions st !! sid = None ∧ st' = add_session now name st)
    (λ _ _, False) st.
Proof.
  intros C [Hr1 _ Hr3 _]. pose proof (in_wired _ _ _ (cs_inv _ C)) as W.
  assert (create_session now name st = (Ok (session_ids st), add_session now name st)) as He.
  { unfold create_session, mbind, ST_bind, next_session_id, next_node_id, IdAllocator_next. simpl.
    rewrite !wrap_succ64_small by done. done. }
  unfold wp. rewrite He. split; [by apply add_session_consistent|].
  split; [by apply add_session_zoom|]. split; [done|]. split; [by apply no_fresh_session|done].
Qed.

(** Popups: opening one on a free tree or on a buffer. *)

Definition bump_floating (st : ServerState) : ServerState :=
  mkServerState (sessions st) (buffers st) (nodes st) (floating st) (environment st)
    (last_viewport st) (last_pane_titles st) (last_base_index st) (remain_on_exit st)
    (session_ids st) (buffer_ids st) (node_ids st) (floating_ids st + 1).

(** [st] with the popup [w] under the next id, listed by the session [s]. *)
Definition with_window (w : FloatingWindow) (s : Session) (st : ServerState) : ServerState :=
  let fid := floating_ids st in
  mkServerState
    (<[f_session_id w := s_set_floating (s_floating s ++ [fid]) s]> (sessions st))
    (buffers st) (nodes st) (<[fid := w]> (floating st)) (environment st)
    (last_viewport st) (last_pane_titles st) (last_base_index st) (remain_on_exit st)
    (session_ids st) (buffer_ids st) (node_ids st) (floating_ids st + 1).

Section list_window.
Context {st : ServerState} {w : FloatingWindow} {s : Session} {n : Node}.
Context (W : wired st) (Hs : sessions st !! f_session_id w = Some s).
Context (Hid : f_id w = floating_ids st) (Hvis : f_visible w = true).
Context (Hlast : f_last_focused_leaf w = None).
Context (Hr : nodes st !! f_root_node w = Some n) (Hp : parent n = None).
Context (Hns : node_session n = f_session_id w) (Hfree : ¬ owned_root st (f_root_node w)).
Let fid : N := floating_ids st.
Let st' : ServerState := with_window w s st.

Lemma no_fresh_window : floating st !! fid = None.
Proof.
  destruct (floating st !! fid) eqn:Hf; [|done]. exfalso.
  assert (fid < fid)%N; [|lia]. apply (fi_floating _ (wi_fresh _ W)). eauto.
Qed.

Lemma list_window_window i x :
  floating st' !! i = Some x → i = fid ∧ x = w ∨ i ≠ fid ∧ floating st !! i = Some x.
Proof.
  simpl. rewrite lookup_insert. fold fid. case_decide as He.
  - intros [= <-]. by left.
  - intros Hx. right. split; [|exact Hx]. intros ->. by apply He.
Qed.

Lemma list_window_session i x :
  sessions st' !! i = Some x →
  i = f_session_id w ∧ x = s_set_floating (s_floating s ++ [fid]) s
  ∨ i ≠ f_session_id w ∧ sessions st !! i = Some x.
Proof.
  simpl. rewrite lookup_insert. case_decide as He.
  - intros [= <-]. by left.
  - intros Hx. right. split; [|exact Hx]. intros ->. by apply He.
Qed.

Lemma list_window_old i x : floating st !! i = Some x → i ≠ fid ∧ floating st' !! i = Some x.
Proof.
  intros Hx. assert (i ≠ fid) as Hne by (intros ->; by rewrite no_fresh_window in Hx).
  split; [done|]. simpl. by rewrite lookup_insert_ne.
Qed.

Lemma list_window_fresh : fid ∉ s_floating s.
Proof.
  intros Hin. destruct (so_floating _ _ _ (wi_session _ W _ _ Hs) fid Hin) as (x & Hx & _).
  by rewrite no_fresh_window in Hx.
Qed.

Lemma list_window_wired : wired st'.
Proof.
  split; try apply W.
  - intros i x [[-> ->]|[Hne Hx]]%list_window_session.
    + destruct (wi_session _ W _ _ Hs) as [Sid Sr Snd Sfl]. split; [done|done| |].
      * apply NoDup_app. split; [done|]. split; [|apply NoDup_singleton].
        intros y Hy ->%list_elem_of_singleton. by apply list_window_fresh.
      * intros y [Hy| ->%list_elem_of_singleton]%elem_of_app.
        -- destruct (Sfl y Hy) as (x & Hx & ?). exists x. split; [by apply list_window_old|done].
        -- exists w. split; [apply lookup_insert_eq|done].
    + destruct (wi_session _ W _ _ Hx) as [Sid Sr Snd Sfl]. split; [done..|].
      intros y Hy. destruct (Sfl y Hy) as (z & Hz & ?). exists z. split; [by apply list_window_old|done].
  - intros i x [[-> ->]|[Hne Hx]]%list_window_window.
    + split; [done|by exists n| |done].
      exists (s_set_floating (s_floating s ++ [fid]) s). split; [apply lookup_insert_eq|].
      split; [by apply elem_of_app; right; left|]. simpl. intros He. apply Hfree. left.
      exists (f_session_id w), s. by split.
    + destruct (wi_window _ W _ _ Hx) as [Wid Wr (sx & Hsx & Hin & Hne') Wv].
      split; [done|done| |done]. simpl. rewrite lookup_insert. case_decide as He; [|by exists sx].
      rewrite <-He in Hsx. assert (sx = s) as -> by congruence.
      eexists. split; [done|]. split; [by apply elem_of_app; left|done].
  - intros i j x y [[-> ->]|[Hi Hx]]%list_window_window [[-> ->]|[Hj Hy]]%list_window_window Hxy.
    + done.
    + exfalso. apply Hfree. right. exists j, y. by split.
    + exfalso. apply Hfree. right. exists i, x. by split.
    + by apply (wi_roots _ W i j x y).
  - destruct (wi_fresh _ W) as [F1 F2 F3 F4]. split; [|done|done|].
    + intros i [x [[-> _]|[_ Hx]]%list_window_session]; apply F1; eauto.
    + intros i [x [[-> _]|[_ Hx]]%list_window_window]; simpl; [unfold fid; lia|].
      assert (i < floating_ids st)%N; [|lia]. apply F4. eauto.
Qed.

Lemma list_window_inv D U : inv_but D U st → inv_but D U st'.
Proof.
  intros [_ S [A1 A2 A3] [R1 R2 R3 R4]].
  split; [apply list_window_wired|exact S|by split|].
  assert (∀ i y, popup_memory st i y → popup_memory st' i y) as Hpm.
  { intros i y [Hlt Hy]. split; [simpl; lia|].
    intros x [[-> ->]|[_ Hx]]%list_window_window; [unfold fid in Hlt; lia|by apply Hy]. }
  split; simpl.
  - exact R1.
  - intros i x leaf [[-> ->]|[_ Hx]]%list_window_window; [congruence|by apply (R2 i x)].
  - intros i x leaf [[-> ->]|[_ Hx]]%list_window_session; [by apply (R3 (f_session_id w) s)|].
    by apply (R3 i x).
  - intros i x y [[-> ->]|[_ Hx]]%list_window_session Hy; apply Hpm; [by apply (R4 _ s)|].
    by apply (R4 i x).
Qed.

Lemma list_window_anchored X :
  anchored_but ({[f_root_node w]} ∪ X) st → anchored_but X st'.
Proof.
  intros A i x Hi Hx HX. destruct (decide (i = f_root_node w)) as [->|Hne].
  - right. exists fid, w. split; [apply lookup_insert_eq|done].
  - destruct (A i x Hi Hx) as [(j & y & Hy & Hyr)|(j & y & Hy & Hyr)]; [set_solver|..].
    + left. destruct (decide (j = f_session_id w)) as [->|].
      * eexists _, _. split; [apply lookup_insert_eq|]. simpl. congruence.
      * exists j, y. split; [|done]. simpl. by rewrite lookup_insert_ne.
    + right. exists j, y. split; [by apply list_window_old|done].
Qed.

Lemma list_window_local : local_to (f_session_id w) st st'.
Proof.
  split.
  - intros i Hne. simpl. by rewrite lookup_insert_ne.
  - eauto.
  - intros i x Hx _. exists x. split; [by apply list_window_old|done].
Qed.

Lemma list_window_calm : views st' = views st ∧ records st' = records st.
Proof. done. Qed.
End list_window.

Lemma list_window_on_screen {st : ServerState} {w : FloatingWindow} {s : Session} i j :
  wired st → sessions st !! f_session_id w = Some s → on_screen st i j →
  on_screen (with_window w s st) i j.
Proof.
  intros W Hs (r & Hv & Hr). exists r. split; [exact Hv|].
  destruct Hr as [(x & Hx & Hxr)|(fid & x & Hx & ?)]; [left|right].
  - destruct (decide (i = f_session_id w)) as [->|Hne].
    + eexists. split; [apply lookup_insert_eq|]. simpl. congruence.
    + exists x. split; [|exact Hxr]. simpl. by rewrite lookup_insert_ne by by apply not_eq_sym.
  - exists fid, x. split; [|done]. simpl. rewrite lookup_insert_ne; [done|]. intros <-.
    assert (floating_ids st < floating_ids st)%N; [|lia].
    apply (fi_floating _ (wi_fresh _ W)). eauto.
Qed.

Definition popup (fid sid root : N) (title : option rstring) (g : FloatGeometry) (close : bool)
    : FloatingWindow :=
  mkFloatingWindow fid sid root title g false true close true None.

Lemma next_floating_id_wp st (Q : N → ServerState → Prop) E :
  (floating_ids st + 1 < u64_modulus)%N → Q (floating_ids st) (bump_floating st) →
  wp next_floating_id Q E st.
Proof.
  intros Hr HQ. unfold wp, next_floating_id, IdAllocator_next. by rewrite wrap_succ64_small.
Qed.

(** The guards: the tree is free and of the session. *)
Lemma create_popup_guarded st sid root geometry title focus close Q E :
  wired st → (floating_ids st + 1 < u64_modulus)%N →
  (∀ s n, sessions st !! sid = Some s → nodes st !! root = Some n → parent n = None →
     node_session n = sid → ¬ owned_root st root →
     wp (when focus (focus_or_rollback sid (floating_ids st)) ;; mret (floating_ids st)) Q E
       (with_window (popup (floating_ids st) sid root title geometry close) s st)) →
  (∀ e, E e st) →
  wp (create_floating_window_with_options sid root geometry title focus close) Q E st.
Proof.
  intros W Hroom HQ HE. unfold create_floating_window_with_options. wp_step.
  eapply wp_reads_returns; [apply ensure_session_returns|..]; [|intros; apply HE].
  intros _ [s Hs]. wp_step. unfold ensure_node_belongs_to.
  destruct (nodes st !! root) as [n|] eqn:Hn; cycle 1.
  { eapply wp_reads_err; [unfold node_session_id, node; by rewrite Hn|]. apply HE. }
  apply wp_reads. unfold node_session_id. rewrite (node_Ok _ _ _ Hn). simpl.
  destruct (node_session n =? sid)%N eqn:Hsn; simpl; [|apply HE].
  apply N.eqb_eq in Hsn.
  wp_step. eapply wp_reads_ok; [by unfold node_parent; rewrite (node_Ok _ _ _ Hn)|].
  wp_step. apply wp_ensure; [|intros; apply HE]. intros Hp%bool_decide_eq_true.
  wp_step. apply wp_gets. wp_step. apply wp_ensure; [|intros; apply HE].
  intros Hr%negb_true_iff. wp_step. apply wp_gets. wp_step.
  apply wp_ensure; [|intros; apply HE]. intros Hf%bool_decide_eq_true.
  assert (¬ owned_root st root) as Hfree.
  { intros [Hsr|(fid & w & Hw & Hwr)].
    - apply is_session_root_spec in Hsr. congruence.
    - by eapply (proj1 (floating_id_by_root_None W root) Hf). }
  specialize (HQ s n Hs eq_refl Hp Hsn Hfree).
  wp_step. apply next_floating_id_wp; [exact Hroom|]. wp_step. apply wp_modify.
  wp_step. eapply wp_session_mut; [exact Hs|]. exact HQ.
Qed.

(** A popup is never made on a tree that is in use, and every tree of a
    consistent state is. *)
Lemma create_floating_window_wp st sid root geometry title focus close :
  consistent st → has_room 1 st →
  wp (create_floating_window_with_options sid root geometry title focus close)
    (λ _ _, False) (λ _ st', st' = st) st.
Proof.
  intros [I C A S] [_ _ _ Hr]. pose proof (in_wired _ _ _ I) as W.
  apply create_popup_guarded; [exact W|exact Hr| |done].
  intros s n _ Hn Hp _ Hfree. destruct Hfree. by apply (A root n).
Qed.

(** Focusing the popup of a view. *)
Lemma focus_view_window_wp st0 st fid w v :
  consistent st0 → staged ∅ ∅ (f_session_id w) st0 st → floating st !! fid = Some w →
  f_last_focused_leaf w = None → nodes st !! f_root_node w = Some (BufferView v) →
  wp (focus_or_rollback (f_session_id w) fid)
    (λ _ st', consistent st' ∧ refocused st st'
       ∧ ∃ s, sessions st' !! f_session_id w = Some s ∧ s_focused_leaf s = Some (f_root_node w))
    (λ _ _, False) st.
Proof.
  intros C0 Sg Hw Hl Hv. pose proof (in_wired _ _ _ (ss_inv _ _ _ _ _ Sg)) as W.
  destruct (wo_root _ _ _ (wi_window _ W _ _ Hw)) as (n & Hn & _ & Hns).
  assert (n = BufferView v) as -> by congruence.
  destruct (wo_listed _ _ _ (wi_window _ W _ _ Hw)) as (s & Hs & _).
  pose proof (wo_visible _ _ _ (wi_window _ W _ _ Hw)) as Hvis.
  unfold focus_or_rollback, focus_floating. wp_step. apply wp_attempt. wp_step.
  eapply wp_reads_ok; [unfold floating_window; by rewrite Hw|]. wp_step.
  eapply wp_reads_ok.
  { unfold resolve_floating_focus, floating_window. rewrite Hw. simpl. rewrite Hvis, Hl.
    unfold resolve_focus_candidate, budget. simpl. by rewrite (node_Ok _ _ _ Hv). }
  cbn beta iota. eapply wp_mono; [exact (refocus_view_wp _ st0 st _ v C0 Sg Hv Hns (mk_is_Some _ _ Hs))|..].
  - intros [] st' H. apply wp_ret. exact H.
  - by intros.
Qed.

(** ** A popup on a buffer *)

Section new_popup.
Context {st : ServerState} (sid bid : N) (b : Buffer) (s : Session).
Context (title : option rstring) (g : FloatGeometry) (close : bool).
Context (C : consistent st) (Hs : sessions st !! sid = Some s).
Context (Hb : buffers st !! bid = Some b) (Hd : b_attachment b = Detached).
Let k : N := node_ids st.
Let st1 : ServerState := made_view sid bid b st.
Let w : FloatingWindow := popup (floating_ids st) sid k title g close.
Let st2 : ServerState := with_window w s st1.

Lemma new_popup_staged : staged ∅ ∅ sid st st2.
Proof.
  pose proof C as [I Cp A S]. pose proof (in_wired _ _ _ I) as W.
  pose proof (made_view_inv sid bid b Hb Hd ∅ ∅ I) as I1. fold st1 in I1.
  pose proof (in_wired _ _ _ I1) as W1.
  pose proof (made_view_node (st:=st) sid bid b) as Hk. fold k st1 in Hk.
  pose proof (made_view_free (st:=st) sid bid b W) as Hfree. fold k st1 in Hfree.
  split.
  - exact (list_window_inv (w:=w) W1 Hs eq_refl eq_refl eq_refl Hk eq_refl eq_refl Hfree ∅ ∅ I1).
  - by apply made_view_compact.
  - apply (list_window_anchored (w:=w) W1 Hs eq_refl eq_refl eq_refl Hk eq_refl eq_refl Hfree).
    by apply made_view_anchored.
  - etrans; [by apply (made_view_local sid bid b)|]. 
    exact (list_window_local (w:=w) (n:=view_node k sid bid (b_pty_size b)) W1 eq_refl eq_refl).
Qed.

Lemma new_popup_consistent : consistent st2.
Proof.
  pose proof C as [I Cp A S]. pose proof (in_wired _ _ _ I) as W.
  pose proof new_popup_staged as [I2 C2 A2 L]. split; [exact I2|exact C2|exact A2|].
  intros i x Hx leaf Hl.
  assert (∃ y, sessions st !! i = Some y ∧ s_focused_leaf y = Some leaf) as (y & Hy & Hyl).
  { apply list_window_session in Hx as [[-> ->]|[_ Hx]]; eauto. }
  destruct (S i y Hy leaf Hyl) as [[v Hv] Hos]. split.
  - exists v. by apply (made_view_old sid bid b).
  - apply list_window_on_screen; [by eapply in_wired, (made_view_inv sid bid b Hb Hd ∅ ∅)|done|].
    destruct Hos as (r & Hr & Hvis). exists r. split; [|exact Hvis]. revert Hr.
    apply visible_from_subrel. intros a c (n & Hn & Hc). exists n.
    split; [by apply (made_view_old sid bid b)|done].
Qed.
End new_popup.

Lemma create_floating_from_buffer_wp st sid bid g title focus close :
  consistent st → has_room 1 st →
  wp (create_floating_from_buffer_with_options sid bid g title focus close)
    (λ fid st', consistent st' ∧ fid = floating_ids st
       ∧ views st' = <[node_ids st := (sid, bid)]> (views st)
       ∧ (∃ w, floating st' !! fid = Some w ∧ f_session_id w = sid ∧ f_root_node w = node_ids st)
       ∧ (focus = true → ∃ s, sessions st' !! sid = Some s
                              ∧ s_focused_leaf s = Some (node_ids st)))
    (λ _ st', consistent st' ∧ nodes st' = nodes st ∧ floating st' = floating st) st.
Proof.
  intros C Hr. pose proof (in_wired _ _ _ (cs_inv _ C)) as W.
  unfold create_floating_from_buffer_with_options. wp_step.
  eapply wp_mono; [by apply (create_buffer_view_wp ∅); [apply C|]|..]; cycle 1.
  { intros e st' [Hsp _]. split; [by eapply spent_consistent|]. split; apply Hsp. }
  intros k st1 (-> & s & b & Hs & Hb & Hd & ->). unfold or_discard. wp_step. apply wp_attempt.
  pose proof (in_wired _ _ _ (made_view_inv sid bid b Hb Hd ∅ ∅ (cs_inv _ C))) as W1.
  set (k := node_ids st). set (w := popup (floating_ids st) sid k title g close).
  apply create_popup_guarded; [exact W1|apply Hr| |]; cycle 1.
  { intros e. wp_step. eapply wp_mono; [by apply discard_made_wp| |by intros].
    intros [] st' (C' & _ & Hn & _ & Hf). apply wp_throw. exact (conj C' (conj Hn Hf)). }
  intros s' n Hs' _ _ _ _. assert (s' = s) as -> by (simpl in Hs'; congruence).
  set (st2 := with_window _ s _).
  pose proof (new_popup_staged sid bid b s title g close C Hs Hb Hd) as Sg.
  pose proof (new_popup_consistent sid bid b s title g close C Hs Hb Hd) as C2.
  change (staged ∅ ∅ sid st st2) in Sg. change (consistent st2) in C2.
  assert (floating st2 !! floating_ids st = Some w) as Hw by apply lookup_insert_eq.
  assert (views st2 = <[k := (sid, bid)]> (views st)) as Hviews by apply made_view_views.
  destruct focus; simpl; wp_step.
  - eapply wp_mono; [apply (focus_view_window_wp st st2 (floating_ids st) w
      (mkBufferViewNode k sid None bid (mkBufferViewState false false true (b_pty_size b))) C Sg Hw)|..].
    + done.
    + apply lookup_insert_eq.
    + intros [] st' (C' & R & Hf). apply wp_ret. wp_step.
      split; [exact C'|]. split; [done|]. split; [|split; [|by intros _]].
      * rewrite (ca_views _ _ (calm_scrub _ _ (rf_scrub _ _ R))). exact Hviews.
      * destruct (scrub_lookup_window (rf_scrub _ _ R) _ _ Hw) as (w' & Hw' & He).
        apply scrub_window_eq in He as (_ & Hsw & Hrw & _). exists w'.
        split; [exact Hw'|]. by split.
    + by intros.
  - apply wp_ret, wp_ret. wp_step.
    split; [exact C2|]. split; [done|]. split; [exact Hviews|]. split; [|done].
    exists w. by split.
Qed.
