(* ===== verification/Splitting.v ===== *)
(** Wrapping a node in a new split next to a free tree, and the handlers that do:
    splitting a pane with a new buffer. *)

From stdpp Require Import relations.
From S2P Require Import Prelude Core Model Environment State Queries Buffers Focus.
From S2P Require Import Tree Layout Forest Invariant QueriesSpec FocusSpec Settle.
From S2P Require Import Surgery Owners Cosmetic Normalize Closing Opening.

(** The split [k] of equal children [cs]. *)
Definition split_of (k sid : N) (par : option N) (d : SplitDirection) (cs : list N)
    (last : option N) : Node :=
  Split (mkSplitNode k sid par d cs (replicate (length cs) 1%N) last).

Lemma split_of_linked k sid par d cs cs' last c :
  cs' ≡ₚ c :: cs → length cs < 2 →
  linked c (split_of k sid par d cs last) (split_of k sid par d cs' last).
Proof. intros Hp Hlt. split; try done. simpl. lia. Qed.

(** ** Giving an empty split its two children *)

Section adopt.
Context {st : ServerState} {k sid id sib : N} {d : SplitDirection} {m ms : Node} {cs : list N}.
Context {D U : gset N} (I : inv_but D U st).
Context (Hk : nodes st !! k = Some (split_of k sid None d [] None)).
Context (Hid : nodes st !! id = Some m) (Hpm : parent m = None) (Hsm : node_session m = sid).
Context (Hsib : nodes st !! sib = Some ms) (Hps : parent ms = None) (Hss : node_session ms = sid).
Context (Hfid : ¬ owned_root st id) (Hfsib : ¬ owned_root st sib) (Hne : id ≠ sib).
Context (Hik : id ≠ k) (Hsk : sib ≠ k) (Hcs : cs ≡ₚ [sib; id]).
Let e0 : Node := split_of k sid None d [] None.
Let e1 : Node := split_of k sid None d [id] None.
Let e2 : Node := split_of k sid None d cs None.
Let stA : ServerState := set_nodes (λ _, relink id m (Some k) k e1 (nodes st)) st.
Let st' : ServerState := set_nodes (λ _, relink sib ms (Some k) k e2 (nodes stA)) stA.

Lemma adopt_root x : inv_but D U x → ∀ i n, nodes x !! k = Some n → parent n = None →
  below x i k → i = k.
Proof.
  intros Ix i n Hn Hp. apply (reach_to_root (wi_forest _ (in_wired _ _ _ Ix))).
  apply layout_is_root. eauto.
Qed.

Lemma adopt_first : linkable st k id e0 m e1.
Proof.
  split; [by eapply in_wired|exact Hk|exact Hid|exact Hpm|exact Hsm|exact Hfid| |].
  - intros Hb. by apply Hik, (adopt_root st I id _ Hk).
  - apply split_of_linked; [done|simpl; lia].
Qed.

Lemma adopt_second : linkable stA k sib e1 ms e2.
Proof.
  pose proof (link_inv adopt_first D U I) as IA.
  assert (nodes stA !! k = Some e1) as HkA.
  { simpl. by rewrite (link_lookup adopt_first), decide_False, decide_True by done. }
  split; [exact (in_wired _ _ _ IA)|exact HkA| |exact Hps|exact Hss|exact Hfsib| |].
  - simpl. by rewrite (link_lookup adopt_first), !decide_False by done.
  - intros Hb. by apply Hsk, (adopt_root stA IA sib _ HkA).
  - apply split_of_linked; [done|simpl; lia].
Qed.

Lemma adopt_lookup i :
  nodes st' !! i =
    if decide (i = k) then Some e2
    else if decide (i = sib) then Some (node_set_parent (Some k) ms)
    else if decide (i = id) then Some (node_set_parent (Some k) m) else nodes st !! i.
Proof.
  unfold st'. simpl. rewrite (link_lookup adopt_second). unfold stA. simpl.
  rewrite (link_lookup adopt_first). repeat case_decide; congruence.
Qed.

(** The wrapped trees stay away from what they were away from. *)
Lemma adopt_not_below j : j ≠ k → ¬ below st id j → ¬ below st sib j → ¬ below st' k j.
Proof.
  intros Hj H1 H2 Hb.
  apply (link_below adopt_second) in Hb as [Hb|[_ Hb]];
    apply (link_below adopt_first) in Hb as [Hb|[Hb1 Hb2]]; try done.
  apply (below_inv _ _ _ Hk) in Hb as [?|(c & Hc & _)]; [done|]. by apply elem_of_nil in Hc.
Qed.

(** All of it, for a state that only differs in its nodes. *)
Lemma adopt_spec :
  (∀ t, m = Tabs t → 2 ≤ length (t_tabs t)) → (∀ t, ms = Tabs t → 2 ≤ length (t_tabs t)) →
  ∃ m2, let st2 := set_nodes (λ _, m2) st in
    inv_but D U st2 ∧ (∀ D', compact_but D' st → compact_but D' st2)
    ∧ (∀ X, anchored_but ({[id]} ∪ ({[sib]} ∪ X)) st → anchored_but X st2)
    ∧ local_to sid st st2 ∧ calm st st2
    ∧ (∀ j, j ≠ k → ¬ below st id j → ¬ below st sib j → ¬ below st2 k j)
    ∧ (∀ i, m2 !! i = if decide (i = k) then Some e2
         else if decide (i = sib) then Some (node_set_parent (Some k) ms)
         else if decide (i = id) then Some (node_set_parent (Some k) m) else nodes st !! i).
Proof.
  intros Hm Hms. exists (nodes st').
  assert (set_nodes (λ _, nodes st') st = st') as He by done. cbn zeta. rewrite He. split_and!.
  - exact (link_inv adopt_second D U (link_inv adopt_first D U I)).
  - intros D' C. apply (link_compact adopt_second); [exact Hms|].
    by apply (link_compact adopt_first).
  - intros X A. apply (link_anchored adopt_second), (link_anchored adopt_first), A.
  - etrans; [by apply (link_local adopt_first)|by apply (link_local adopt_second)].
  - etrans; [apply (link_calm adopt_first)|apply (link_calm adopt_second)].
  - exact adopt_not_below.
  - exact adopt_lookup.
Qed.
End adopt.

(** ** Wrapping a node and a free tree *)

Lemma remove_child_in_last c n n' :
  remove_child_in c n = Some n' → last_focused_descendant n' = last_focused_descendant n.
Proof.
  destruct n as [v|s|t]; simpl; [done|..]; destruct (position _ _); simpl; try done;
    by intros [= <-].
Qed.

(** Taking out a child and linking another is replacing it. *)
Lemma replaced_linked id k n n1 n' :
  unlinked id n n1 → last_focused_descendant n1 = last_focused_descendant n → replaced id k n n' →
  (node_ok n1 → node_ok n) → linked k n1 n'.
Proof.
  intros Hu Hl Hr Hok. destruct (ul_kind _ _ _ Hu) as (K1 & K2 & K3 & K4).
  destruct (rp_kind _ _ _ _ Hr) as (J1 & J2 & J3 & J4).
  destruct (replaced_perm _ _ _ _ Hr) as (rest & P1 & P2). split.
  - split_and!; congruence.
  - rewrite (rp_parent _ _ _ _ Hr). by rewrite (ul_parent _ _ _ Hu).
  - rewrite P2. apply perm_skip, (Permutation_cons_inv (a:=id)). by rewrite <-P1, (ul_children _ _ _ Hu).
  - intros leaf. rewrite (rp_last _ _ _ _ Hr). congruence.
  - intros H. by apply (rp_ok _ _ _ _ Hr), Hok.
Qed.

(** [st'] is [st] with a new split [k] around the panes it already had. *)
Record wrapped (U : gset N) (sid : N) (st st' : ServerState) : Prop := {
  wr_staged : staged U ∅ sid st st';
  wr_views : views st' = views st;
  wr_records : records st' = records st;
  wr_ids : allocators st' = allocators (bump_nodes st)
}.

(** The node [id] and the free tree [sib] of the session [sid] may be wrapped. *)
Record wrappable (U : gset N) (st : ServerState) (sid id sib : N) (m ms : Node) : Prop := {
  wb_inv : inv_but ∅ U st;
  wb_compact : compact st;
  wb_anchored : anchored_but {[sib]} st;
  wb_node : nodes st !! id = Some m;
  wb_session : node_session m = sid;
  wb_sibling : nodes st !! sib = Some ms;
  wb_sibling_root : parent ms = None;
  wb_sibling_session : node_session ms = sid;
  wb_free : ¬ owned_root st sib;
  wb_ne : id ≠ sib;
  wb_apart : ¬ below st sib id;
  wb_tabs : ∀ t, m = Tabs t → 2 ≤ length (t_tabs t);
  wb_sibling_tabs : ∀ t, ms = Tabs t → 2 ≤ length (t_tabs t)
}.

Section wrap.
Context {U : gset N} {st : ServerState} {sid id sib : N} {m ms : Node}.
Context (B : wrappable U st sid id sib m ms).
Context {d : SplitDirection} {cs : list N} {last : option N}.
Context (Hcs : cs ≡ₚ [sib; id]) (Hlast : ∀ leaf, last = Some leaf → is_view st leaf).
Let k : N := node_ids st.
Let I : inv_but ∅ U st := wb_inv _ _ _ _ _ _ _ B.
Let C : compact st := wb_compact _ _ _ _ _ _ _ B.
Let A : anchored_but {[sib]} st := wb_anchored _ _ _ _ _ _ _ B.
Let Hid : nodes st !! id = Some m := wb_node _ _ _ _ _ _ _ B.
Let Hsm : node_session m = sid := wb_session _ _ _ _ _ _ _ B.
Let Hsib : nodes st !! sib = Some ms := wb_sibling _ _ _ _ _ _ _ B.
Let Hps : parent ms = None := wb_sibling_root _ _ _ _ _ _ _ B.
Let Hss : node_session ms = sid := wb_sibling_session _ _ _ _ _ _ _ B.
Let Hfsib : ¬ owned_root st sib := wb_free _ _ _ _ _ _ _ B.
Let Hne : id ≠ sib := wb_ne _ _ _ _ _ _ _ B.
Let Hapart : ¬ below st sib id := wb_apart _ _ _ _ _ _ _ B.
Let Hm : ∀ t, m = Tabs t → 2 ≤ length (t_tabs t) := wb_tabs _ _ _ _ _ _ _ B.
Let Hms : ∀ t, ms = Tabs t → 2 ≤ length (t_tabs t) := wb_sibling_tabs _ _ _ _ _ _ _ B.
Let e0 : Node := split_of k sid None d [] None.
Let st0 : ServerState := set_nodes (insert k e0) (bump_nodes st).
Let W : wired st := in_wired _ _ _ I.

Lemma wrap_hollow :
  inv_but {[k]} U st0 ∧ compact st0 ∧ anchored_but ({[k]} ∪ {[sib]}) st0 ∧ local_to sid st st0
  ∧ views st0 = views st ∧ ¬ owned_root st0 k ∧ id ≠ k ∧ sib ≠ k
  ∧ (∀ i j, i ≠ k → below st0 i j ↔ below st i j).
Proof.
  assert (∀ i n, nodes st !! i = Some n → i ≠ k) as Hnk.
  { intros i n Hi. by apply (fresh_old (n:=e0) (st:=st)) in Hi as [? _]. }
  split_and!.
  - replace ({[k]} : gset N) with ({[k]} ∪ ∅ : gset N) by set_solver.
    by apply (fresh_hollow_inv (n:=e0)).
  - intros i t [[-> He]|[_ Hi]]%(fresh_lookup (n:=e0)) Hn; [done|by apply (C i t)|done..].
  - by apply (fresh_anchored (n:=e0)).
  - by apply (fresh_local (n:=e0)).
  - by apply (fresh_views (n:=e0)).
  - by apply (fresh_not_owned (n:=e0)).
  - by eapply Hnk.
  - by eapply Hnk.
  - intros i j Hi. by apply (fresh_below (n:=e0)).
Qed.

Lemma wrap_length : length cs = 2.
Proof. by rewrite Hcs. Qed.

(** Remembering the leaf is the last write. *)
Lemma wrap_finish st1 par :
  inv_but ∅ U st1 → compact st1 → anchored st1 → local_to sid st st1 →
  views st1 = views st → records st1 = records st → allocators st1 = allocators (bump_nodes st) →
  nodes st1 !! k = Some (split_of k sid par d cs None) →
  wrapped U sid st (set_nodes (insert k (split_of k sid par d cs last)) st1).
Proof.
  intros I1 C1 A1 L1 V1 R1 N1 Hk1.
  assert (refocused st1 (set_nodes (insert k (split_of k sid par d cs last)) st1)) as R.
  { eapply refocused_node; [exact Hk1|done|done|]. simpl. intros leaf Hl. right.
    apply view_memory; [by eapply in_wired|]. destruct (Hlast leaf Hl) as [v Hv].
    assert (views st1 !! leaf = Some (v_session_id v, v_buffer_id v)) as Hx.
    { rewrite V1. by apply view_pane. }
    apply views_Some in Hx as (v' & Hv' & _). by exists v'. }
  pose proof (calm_scrub _ _ (rf_scrub _ _ R)) as [Cv Cr Cd Ci].
  split; [split|..].
  - by eapply refocused_inv.
  - by eapply refocused_compact.
  - by eapply refocused_anchored.
  - etrans; [exact L1|]. eapply frame_local, frame_node; [exact Hk1|done|exact R].
  - by rewrite Cv.
  - by rewrite Cr.
  - by rewrite Ci.
Qed.

(** The node has a parent, whose link moves to the split. *)
Section below_parent.
Context {p : N} {n n' : Node} {m' : gmap N Node}.
Context (Hpm : parent m = Some p) (Hp : nodes st !! p = Some n) (Hr : replaced id k n n').
Context (Hm' : ∀ i, m' !! i =
  if decide (i = k) then Some (split_of k sid (Some p) d cs last)
  else if decide (i = sib) then Some (node_set_parent (Some k) ms)
  else if decide (i = id) then Some (node_set_parent (Some k) m)
  else if decide (i = p) then Some n' else nodes st !! i).

(** First the node is taken out of its parent, which becomes [n1]. *)
Lemma wrap_cut : ∃ n1 mU, let stU := set_nodes (λ _, mU) (bump_nodes st) in
  inv_but ({[p]} ∪ {[k]}) U stU ∧ compact_but ({[p]} ∪ ∅) stU
  ∧ anchored_but ({[id]} ∪ ({[k]} ∪ {[sib]})) stU ∧ local_to sid st stU
  ∧ views stU = views st ∧ ¬ owned_root stU id ∧ ¬ owned_root stU k
  ∧ ¬ below stU id p ∧ ¬ below stU sib p
  ∧ mU !! k = Some e0 ∧ mU !! id = Some (node_set_parent None m) ∧ mU !! sib = Some ms
  ∧ mU !! p = Some n1 ∧ unlinked id n n1
  ∧ last_focused_descendant n1 = last_focused_descendant n ∧ node_session n1 = sid
  ∧ p ≠ k ∧ sib ≠ p ∧ id ≠ p
  ∧ (∀ i, i ≠ k → i ≠ id → i ≠ p → mU !! i = nodes st !! i).
Proof.
  destruct wrap_hollow as (I0 & C0 & A0 & L0 & V0 & Hf0 & Hik & Hsk & Hb0).
  pose proof (in_wired _ _ _ I0) as W0. pose proof (wi_forest _ W) as F.
  destruct (parent_exists F _ _ _ Hid Hpm) as (n0 & Hn0 & Hin). assert (n0 = n) as -> by congruence.
  assert (p ≠ k) as Hpk by by apply (fresh_old (n:=e0) (st:=st)) in Hp as [? _].
  destruct (child_exists F _ _ _ Hp Hin) as (m0 & Hm0 & _ & Hsn).
  assert (m0 = m) as -> by congruence.
  assert (∀ i x, i ≠ k → nodes st !! i = Some x → nodes st0 !! i = Some x) as H0.
  { intros i x Hi Hx. simpl. by rewrite lookup_insert_ne by by apply not_eq_sym. }
  pose proof (H0 _ _ Hpk Hp) as Hp0. pose proof (H0 _ _ Hik Hid) as Hid0.
  destruct (remove_child_in_spec id n Hin) as (n1 & Hrm & Hu).
  pose proof (unlink_lookup W0 Hp0 Hid0 Hin (n':=n1)) as HlU.
  assert (¬ below st id p) as Hidp by apply (unlink_not_below W Hp Hin).
  assert (sib ≠ p) as Hsp. { intros ->. apply Hapart, rtc_once, layout_edge. eauto. }
  assert (id ≠ p) as Hidne. { intros ->. apply Hidp. reflexivity. }
  exists n1, (relink id m None p n1 (nodes st0)). cbn zeta.
  change (set_nodes (λ _, ?x) (bump_nodes st)) with (set_nodes (λ _, x) st0).
  split_and!.
  - by apply (unlink_inv W0 Hp0 Hid0 Hin Hu).
  - by apply (unlink_compact W0 Hp0 Hid0 Hin Hu).
  - by apply (unlink_anchored W0 Hp0 Hid0 Hin Hu).
  - etrans; [exact L0|]. apply (unlink_local W0 Hp0 Hid0 Hin). congruence.
  - etrans; [exact (ca_views _ _ (unlink_calm W0 Hp0 Hid0 Hin Hu))|exact V0].
  - exact (unlink_not_owned W0 Hp0 Hid0 Hin Hu).
  - exact Hf0.
  - by intros Hb%(unlink_sub W0 Hp0 Hid0 Hin Hu)%Hb0.
  - intros Hb%(unlink_sub W0 Hp0 Hid0 Hin Hu)%Hb0; [|done]. apply Hapart.
    eapply rtc_r; [exact Hb|]. apply layout_edge. eauto.
  - rewrite HlU, !decide_False by congruence. apply lookup_insert_eq.
  - by rewrite HlU, decide_True.
  - rewrite HlU, !decide_False by congruence. by apply H0.
  - by rewrite HlU, decide_False, decide_True by congruence.
  - done.
  - by apply (remove_child_in_last id).
  - destruct (ul_kind _ _ _ Hu) as (_ & Hs1 & _). congruence.
  - done.
  - done.
  - done.
  - intros i H1 H2 H3. rewrite HlU, !decide_False by done. simpl.
    by rewrite lookup_insert_ne by by apply not_eq_sym.
Qed.

Lemma wrap_child : wrapped U sid st (set_nodes (λ _, m') (bump_nodes st)).
Proof.
  destruct wrap_hollow as (_ & _ & _ & _ & _ & _ & Hik & Hsk & _).
  destruct wrap_cut as (n1 & mU & IU & CU & AU & LU & VU & HfU & HfkU & Hb1 & Hb2 & HkU & HidU
    & HsibU & HpU & Hu & Hl1 & Hs1 & Hpk & Hsp & Hidp & HoU).
  set (stU := set_nodes (λ _, mU) (bump_nodes st)) in *.
  assert (∀ t, node_set_parent None m = Tabs t → 2 ≤ length (t_tabs t)) as HmU.
  { intros t Ht. destruct m as [v|s|t0]; try done. injection Ht as <-. by apply (Hm t0). }
  assert (parent (node_set_parent None m) = None) as HpmU by by destruct m.
  assert (node_session (node_set_parent None m) = sid) as HsmU by by destruct m.
  destruct (adopt_spec (st:=stU) IU HkU HidU HpmU HsmU HsibU Hps Hss HfU Hfsib Hne Hik Hsk Hcs
    HmU Hms) as (m2 & IA & CA & AA & LA & KA & NA & HlA).
  set (stA := set_nodes (λ _, m2) stU) in *.
  assert (node_ok n) as Hokn by by apply (in_shaped _ _ _ I p n Hp).
  assert (m2 !! k = Some (split_of k sid None d cs None)) as HkA by by rewrite HlA, decide_True.
  assert (m2 !! p = Some n1) as HpA by by rewrite HlA, !decide_False by congruence.
  assert (linkable stA p k n1 (split_of k sid None d cs None) n') as L.
  { split; [exact (in_wired _ _ _ IA)|exact HpA|exact HkA|done|done|exact HfkU| |].
    - by apply NA.
    - by apply (replaced_linked id k n). }
  set (mF := relink k (split_of k sid None d cs None) (Some p) p n' m2).
  set (stF := set_nodes (λ _, mF) stA).
  assert (∀ i, mF !! i = if decide (i = k) then Some (split_of k sid (Some p) d cs None)
    else if decide (i = p) then Some n' else m2 !! i) as HlF by exact (link_lookup L).
  assert (wrapped U sid st (set_nodes (insert k (split_of k sid (Some p) d cs last)) stF)) as Hw.
  { apply (wrap_finish stF (Some p)).
    - apply (inv_restore ({[p]} ∪ {[k]})); [by apply (link_inv L)|]. intros i x Hi Hx.
      simpl in Hx. rewrite HlF in Hx. revert Hx. repeat case_decide; intros; simplify_eq.
      + split; simpl; [rewrite wrap_length; lia|apply length_replicate].
      + by apply (rp_ok _ _ _ _ Hr).
      + set_solver.
    - apply (compact_restore ({[p]} ∪ ∅)); [by apply (link_compact L); [|apply CA]|].
      intros i t Hi. simpl. rewrite HlF. repeat case_decide; intros Hx Ht; simplify_eq.
      + pose proof (replaced_length _ _ _ _ Hr) as Hlen. pose proof (rp_parent _ _ _ _ Hr) as Hpar.
        destruct (rp_kind _ _ _ _ Hr) as (_ & _ & _ & Htabs).
        destruct n as [v|s|t0]; try done. simpl in *. rewrite !length_fmap in Hlen.
        rewrite Hlen. apply (C p t0 Hp); [congruence|done].
      + set_solver.
    - apply (link_anchored L). apply AA. intros i x Hi Hx HX. apply (AU i x Hi Hx). set_solver.
    - etrans; [exact LU|]. etrans; [exact LA|]. by apply (link_local L).
    - rewrite <-VU. etrans; [exact (ca_views _ _ (link_calm L))|exact (ca_views _ _ KA)].
    - etrans; [exact (ca_records _ _ (link_calm L))|exact (ca_records _ _ KA)].
    - etrans; [exact (ca_ids _ _ (link_calm L))|exact (ca_ids _ _ KA)].
    - simpl. by rewrite HlF, decide_True. }
  assert (set_nodes (insert k (split_of k sid (Some p) d cs last)) stF
    = set_nodes (λ _, m') (bump_nodes st)) as <-; [|exact Hw].
  unfold stF, stA, stU, set_nodes. simpl. f_equal. apply map_eq. intros i.
  rewrite Hm', lookup_insert, HlF, HlA. repeat case_decide; try congruence.
  - by destruct m.
  - by apply HoU.
Qed.
End below_parent.

(** The node is the root of a popup, which gets the split as its root. *)
Section at_popup.
Context {fid : N} {w : FloatingWindow} {m' : gmap N Node}.
Context (Hpm : parent m = None) (Hw : floating st !! fid = Some w) (Hroot : f_root_node w = id).
Context (Hm' : ∀ i, m' !! i =
  if decide (i = k) then Some (split_of k sid None d cs last)
  else if decide (i = sib) then Some (node_set_parent (Some k) ms)
  else if decide (i = id) then Some (node_set_parent (Some k) m) else nodes st !! i).

Lemma wrap_popup :
  wrapped U sid st
    (set_floating (insert fid (f_set_root_node k w)) (set_nodes (λ _, m') (bump_nodes st))).
Proof.
  destruct wrap_hollow as (I0 & C0 & A0 & L0 & V0 & Hf0 & Hik & Hsk & _).
  pose proof (in_wired _ _ _ I0) as W0.
  destruct (wo_root _ _ _ (wi_window _ W _ _ Hw)) as (x & Hx & _ & Hxs).
  assert (x = m) as -> by congruence.
  assert (nodes st0 !! k = Some e0) as Hk0 by apply lookup_insert_eq.
  assert (node_session e0 = f_session_id w) as Hs0 by (simpl; congruence).
  set (stR := set_floating (insert fid (f_set_root_node k w)) st0).
  pose proof (reroot_inv (st:=st0) W0 Hw Hk0 eq_refl Hs0 Hf0 {[k]} U I0 : inv_but {[k]} U stR) as IR.
  assert (anchored_but ({[id]} ∪ {[sib]}) stR) as AR.
  { rewrite <-Hroot. by apply (reroot_anchored (st:=st0) W0 Hw Hk0 eq_refl Hs0 Hf0). }
  assert (¬ owned_root stR id) as HfR.
  { intros [?|[_ Hn]]%(reroot_owned (st:=st0) W0 Hw); [done|]. by apply Hn. }
  assert (¬ owned_root stR sib) as HfsR.
  { by intros [?|[Hn _]]%(reroot_owned (st:=st0) W0 Hw). }
  assert (∀ i y, i ≠ k → nodes st !! i = Some y → nodes stR !! i = Some y) as H0.
  { intros i y Hi Hy. simpl. by rewrite lookup_insert_ne by by apply not_eq_sym. }
  destruct (adopt_spec (st:=stR) IR Hk0 (H0 _ _ Hik Hid) Hpm Hsm (H0 _ _ Hsk Hsib) Hps Hss HfR HfsR
    Hne Hik Hsk Hcs Hm Hms) as (m2 & IA & CA & AA & LA & KA & _ & HlA).
  set (stA := set_nodes (λ _, m2) stR) in *.
  assert (wrapped U sid st (set_nodes (insert k (split_of k sid None d cs last)) stA)) as Hwr.
  { apply (wrap_finish stA None).
    - apply (inv_restore {[k]}); [done|]. intros i y ->%elem_of_singleton. simpl.
      rewrite HlA, decide_True by done. intros [= <-]. split; simpl; [by rewrite wrap_length|].
      apply length_replicate.
    - by apply CA.
    - apply AA. intros i y Hi Hy HX. apply (AR i y Hi Hy). set_solver.
    - etrans; [exact L0|]. etrans; [|exact LA]. rewrite <-Hsm, Hxs.
      by apply (reroot_local (st:=st0) Hw Hs0).
    - rewrite <-V0. exact (ca_views _ _ KA).
    - exact (ca_records _ _ KA).
    - exact (ca_ids _ _ KA).
    - simpl. by rewrite HlA, decide_True. }
  assert (set_nodes (insert k (split_of k sid None d cs last)) stA
    = set_floating (insert fid (f_set_root_node k w)) (set_nodes (λ _, m') (bump_nodes st)))
    as <-; [|exact Hwr].
  unfold stA, stR, set_nodes. simpl. unfold set_floating. simpl. f_equal. apply map_eq. intros i.
  rewrite Hm', lookup_insert, HlA. repeat case_decide; try congruence.
  simpl. by rewrite lookup_insert_ne by by apply not_eq_sym.
Qed.
End at_popup.
End wrap.

(** ** Pointing the owner at the split *)

Lemma popup_not_session_root st fid w :
  wired st → floating st !! fid = Some w → is_session_root st (f_root_node w) = false.
Proof.
  intros W Hw. apply not_true_is_false. intros (sid & s & Hs & Hr)%is_session_root_spec.
  destruct (wi_window _ W _ _ Hw) as [_ (n & Hn & _ & Hns) (sw & Hsw & _ & Hne) _].
  destruct (so_root _ _ _ (wi_session _ W _ _ Hs)) as (t & Ht & _ & Hts).
  rewrite Hr, Hn in Ht. injection Ht as ->. simpl in Hns. congruence.
Qed.

Lemma insert_insert_map (m : gmap N Node) i x y : <[i := x]> (<[i := y]> m) = <[i := x]> m.
Proof. apply insert_insert_eq. Qed.

Section repoint.
Context {U : gset N} {st : ServerState} {sid id sib : N} {m ms : Node}.
Context (B : wrappable U st sid id sib m ms).
Context {d : SplitDirection} {cs : list N} {last : option N}.
Context (Hcs : cs ≡ₚ [sib; id]) (Hlast : ∀ leaf, last = Some leaf → is_view st leaf).
Let k : N := node_ids st.
Let e (par : option N) : Node := split_of k sid par d cs last.

(** The new split and its children are written; the owner is not. *)
Let linked_up : ServerState :=
  set_nodes (insert sib (node_set_parent (Some k) ms))
    (set_nodes (insert id (node_set_parent (Some k) m))
      (set_nodes (insert k (e (parent m))) (bump_nodes st))).

Lemma linked_up_old i n :
  nodes st !! i = Some n → i ≠ k.
Proof.
  intros Hi ->. assert (k < k)%N; [|lia].
  apply (fi_nodes _ (wi_fresh _ (in_wired _ _ _ (wb_inv _ _ _ _ _ _ _ B)))). eauto.
Qed.

Lemma repoint_wp :
  is_session_root st id = false →
  wp (repoint_owner_reference sid (parent m) id k)
    (λ _ st', wrapped U sid st st' ∧ (∃ par, nodes st' !! k = Some (e par))
       ∧ nodes st' !! sib = Some (node_set_parent (Some k) ms)) (λ _ _, False) linked_up.
Proof.
  pose proof B as [I C A Hid Hsm Hsib Hps Hss Hfs Hne Hap Hm Hms]. intros Hroot.
  pose proof (in_wired _ _ _ I) as W. pose proof (wi_forest _ W) as F.
  pose proof (linked_up_old _ _ Hid) as Hik. pose proof (linked_up_old _ _ Hsib) as Hsk.
  unfold repoint_owner_reference, linked_up. destruct (parent m) as [p|] eqn:Hpm.
  - destruct (parent_exists F _ _ _ Hid Hpm) as (n & Hp & Hin).
    pose proof (linked_up_old _ _ Hp) as Hpk.
    assert (p ≠ id) as Hpid. { intros ->. apply (edge_irrefl F id), layout_edge. eauto. }
    assert (p ≠ sib) as Hpsib. { intros ->. apply Hap, rtc_once, layout_edge. eauto. }
    destruct (replace_child_in_spec id k n Hin) as (n' & Hr & Hrep).
    wp_step. eapply wp_reads_ok; [apply node_Ok; simpl; by rewrite !lookup_insert_ne by congruence|].
    assert (∀ A (x y : A), match n with BufferView _ => x | _ => y end = y) as Hmatch by by destruct n.
    wp_step. rewrite Hmatch, Hr. apply wp_modify. eapply set_parent_wp.
    { simpl. rewrite !(lookup_insert_ne _ _ k) by congruence. apply lookup_insert_eq. }
    split_and!.
    + apply (wrap_child B (d:=d) Hcs Hlast Hpm Hp Hrep (m' := <[k := e (Some p)]> (<[p := n']>
        (<[sib := node_set_parent (Some k) ms]> (<[id := node_set_parent (Some k) m]>
          (<[k := e (Some p)]> (nodes st))))))).
      intros i. fold k. rewrite !lookup_insert. repeat case_decide; first [reflexivity|congruence].
    + exists (Some p). apply lookup_insert_eq.
    + simpl. rewrite !(lookup_insert_ne _ _ sib) by congruence. apply lookup_insert_eq.
  - destruct (A id m Hid Hpm) as [Hs|(fid & w & Hw & Hwr)]; [set_solver|..].
    { apply is_session_root_spec in Hs. congruence. }
    wp_step. apply wp_gets. change (is_session_root _ id) with (is_session_root st id).
    rewrite Hroot. wp_step. apply wp_gets.
    change (floating_id_by_root _ id) with (floating_id_by_root st id).
    rewrite (proj2 (floating_id_by_root_Some W id fid)) by eauto.
    wp_step. eapply wp_floating_mut; [exact Hw|]. eapply set_parent_wp.
    { simpl. rewrite !(lookup_insert_ne _ _ k) by congruence. apply lookup_insert_eq. }
    split_and!.
    + pose proof (wrap_popup B (d:=d) Hcs Hlast Hpm Hw Hwr (m' := <[k := e None]>
        (<[sib := node_set_parent (Some k) ms]> (<[id := node_set_parent (Some k) m]>
          (<[k := e None]> (nodes st)))))) as H.
      unfold set_floating, set_nodes in H |- *. simpl in H |- *. apply H.
      intros i. fold k. rewrite !lookup_insert. repeat case_decide; first [reflexivity|congruence].
    + exists None. apply lookup_insert_eq.
    + simpl. rewrite !(lookup_insert_ne _ _ sib) by congruence. apply lookup_insert_eq.
Qed.
End repoint.

(** ** Splitting a pane *)

Lemma ensure_leaf_returns st leaf :
  returns (ensure_leaf st leaf) (λ _, ∃ v, nodes st !! leaf = Some (BufferView v))
    (λ _, ¬ is_view st leaf).
Proof.
  unfold ensure_leaf, node, is_view. destruct (nodes st !! leaf) as [[v|s|t]|]; simpl.
  2-4: intros [v' Hv]; congruence.
  by exists v.
Qed.

Lemma scrub_split_eq s n :
  scrub_node n = scrub_node (Split s) →
  ∃ s', n = Split s' ∧ sp_children s' = sp_children s ∧ sp_sizes s' = sp_sizes s
        ∧ sp_direction s' = sp_direction s.
Proof. destruct n as [v|s'|t]; try done. intros [= ? ? ? ? ? ?]. eauto. Qed.

(** The new view next to an old node of a consistent state. *)
Lemma made_view_wrappable st sid bid b id m :
  consistent st → buffers st !! bid = Some b → b_attachment b = Detached →
  nodes st !! id = Some m → node_session m = sid → (∀ t, m = Tabs t → 2 ≤ length (t_tabs t)) →
  wrappable ∅ (made_view sid bid b st) sid id (node_ids st) m
    (view_node (node_ids st) sid bid (b_pty_size b)).
Proof.
  intros [I C A S] Hb Hd Hid Hs Hm. pose proof (in_wired _ _ _ I) as W.
  destruct (made_view_old sid bid b _ _ W Hid) as [Hne Hid1]. split.
  - by apply (made_view_inv sid bid b Hb Hd).
  - by apply made_view_compact.
  - intros i x Hi Hx HX. apply (made_view_anchored sid bid b ∅ W A i x Hi Hx). set_solver.
  - exact Hid1.
  - exact Hs.
  - apply made_view_node.
  - reflexivity.
  - reflexivity.
  - by apply made_view_free.
  - exact Hne.
  - intros Hbl%(made_view_below sid bid b). exact (Hne Hbl).
  - exact Hm.
  - intros t He. discriminate He.
Qed.

(** The buffer is unknown or already shown. *)
Definition cannot_show (st : ServerState) (bid : N) : Prop :=
  ∀ b, buffers st !! bid = Some b → b_attachment b ≠ Detached.
Lemma split_leaf_wp st leaf d bid :
  consistent st → has_room 2 st →
  wp (split_leaf_with_new_buffer leaf d bid)
    (λ k st', (∃ b, buffers st !! bid = Some b ∧ b_attachment b = Detached)
       ∧ ∃ v, nodes st !! leaf = Some (BufferView v)
       ∧ opened (v_session_id v) bid (node_ids st) st st'
       ∧ ∃ s, nodes st' !! k = Some (Split s) ∧ sp_children s = [leaf; node_ids st]
              ∧ sp_sizes s = [1%N; 1%N] ∧ sp_direction s = d)
    (λ _ st', consistent st' ∧ nodes st' = nodes st
       ∧ (¬ is_view st leaf ∨ cannot_show st bid)) st.
Proof.
  intros Cst Hr. pose proof Cst as [I C A S]. pose proof (in_wired _ _ _ I) as W.
  unfold split_leaf_with_new_buffer. wp_step.
  eapply wp_reads_returns; [apply ensure_leaf_returns| |by intros e Hn; split_and!; [exact Cst|done|left]].
  intros _ [v Hv]. set (sid := v_session_id v). wp_step.
  eapply wp_reads_ok; [by unfold node_session_id; rewrite (node_Ok _ _ _ Hv)|]. wp_step.
  eapply wp_reads_ok; [by unfold node_parent; rewrite (node_Ok _ _ _ Hv)|]. wp_step.
  eapply wp_mono; [apply (create_buffer_view_wp ∅); [exact I|]|..].
  { destruct Hr. split; lia. }
  - intros n1 st1 (-> & s & b & Hs & Hb & Hd & ->). simpl.
    assert (∀ t, BufferView v = Tabs t → 2 ≤ length (t_tabs t)) as Hnt by by intros.
    pose proof (made_view_wrappable st sid bid b leaf _ Cst Hb Hd Hv eq_refl Hnt) as B.
    set (n1 := node_ids st) in *. set (st1 := made_view sid bid b st) in *.
    pose proof (made_view_node (st:=st) sid bid b : nodes st1 !! n1 = _) as Hn1.
    destruct (made_view_old sid bid b _ _ W Hv) as [Hne Hv1]. fold n1 st1 in Hne, Hv1.
    wp_step. apply next_node_id_wp; [simpl; destruct Hr; lia|]. set (k := node_ids st1).
    assert ([leaf; n1] ≡ₚ [n1; leaf]) as Hcs by apply perm_swap.
    assert (∀ l, Some n1 = Some l → is_view st1 l) as Hlast by (intros l [= <-]; eexists; exact Hn1).
    pose proof (linked_up_old B _ _ Hv1) as Hlk. pose proof (linked_up_old B _ _ Hn1) as Hnk.
    fold k in Hlk, Hnk.
    wp_step. apply wp_modify. wp_step. eapply set_parent_wp.
    { simpl. rewrite lookup_insert_ne by by apply not_eq_sym. exact Hv1. }
    wp_step. eapply set_parent_wp.
    { simpl. rewrite !lookup_insert_ne by (by apply not_eq_sym || done). exact Hn1. }
    wp_step. eapply wp_mono; [apply (repoint_wp B (d:=d) Hcs Hlast)|..]; [|cbn beta|by intros].
    { apply not_true_is_false. intros (x & y & Hy & Hyr)%is_session_root_spec.
      destruct (so_root _ _ _ (wi_session _ W _ _ Hy)) as (t & Ht & _). congruence. }
    intros [] st2 (Hw & (par & Hk2) & Hn2). pose proof Hw as [Sg V2 R2 N2]. wp_step.
    assert (staged ∅ ∅ sid st st2) as Sg'.
    { eapply staged_trans; [by apply (made_view_local sid bid b)|exact Sg]. }
    eapply wp_mono; [eapply (refocus_view_wp sid st st2 n1); [exact Cst|exact Sg'|exact Hn2|done|]|..].
    { apply (node_session_exists st2 n1 _ (in_wired _ _ _ (ss_inv _ _ _ _ _ Sg))
        (ss_anchored _ _ _ _ _ Sg) Hn2). }
    + intros [] st3 (C3 & R3 & Hf). wp_step. split; [by exists b|]. exists v. split; [exact Hv|]. split.
      * split; [exact C3| |exact Hf].
        rewrite (ca_views _ _ (calm_scrub _ _ (rf_scrub _ _ R3))), V2. apply made_view_views.
      * destruct (scrub_lookup_node (rf_scrub _ _ R3) _ _ Hk2) as (x & Hx & He).
        apply scrub_split_eq in He as (s' & -> & E1 & E2 & E3). exists s'. by split_and!.
    + by intros.
  - intros e st' [Hsp Hw]. split; [by eapply spent_consistent|]. split; [apply Hsp|right].
    destruct (node_session_exists st leaf _ W A Hv) as [s Hs].
    intros b Hb. destruct Hw as [[_ [Hn|Hn]]|(_ & b' & Hb' & Hd)]; congruence.
Qed.
