(* ===== verification/Moving.v ===== *)
(** Rearranging panes: the order of siblings, and moving a buffer to another pane. *)

From stdpp Require Import relations.
From S2P Require Import Prelude Core Model Environment State Queries Buffers Focus.
From S2P Require Import Tree Layout Moves Forest Invariant QueriesSpec FocusSpec.
From S2P Require Import Settle Surgery Owners Cosmetic Normalize Closing Opening.
From S2P Require Import Splitting.

(** Reordering the children of a container: swapping two siblings and moving one
    next to another. Each child keeps its size or its tab, and what is on screen
    stays on screen. *)

(** ** Lists *)

(** Decide every comparison of indices in the goal. *)
Ltac cases_eqb :=
  repeat match goal with
  | |- context [Nat.eqb ?u ?v] => destruct (Nat.eqb_spec u v)
  | |- context [Nat.ltb ?u ?v] => destruct (Nat.ltb_spec u v)
  | |- context [Nat.leb ?u ?v] => destruct (Nat.leb_spec u v)
  end; simpl.

Section lists.
Context {A : Type}.
Implicit Types (l : list A) (i j k : nat).

(** The transposition of [i] and [j]. *)
Definition transpose i j k : nat := if k =? i then j else if k =? j then i else k.

Lemma transpose_lookup i j x y l k :
  l !! i = Some x → l !! j = Some y →
  <[i := y]> (<[j := x]> l) !! k = l !! transpose i j k.
Proof.
  intros Hx Hy. pose proof (lookup_lt_Some _ _ _ Hx). pose proof (lookup_lt_Some _ _ _ Hy).
  unfold transpose. destruct (Nat.eqb_spec k i) as [->|Hi].
  - rewrite list_lookup_insert_eq by (rewrite length_insert; done). done.
  - rewrite list_lookup_insert_ne by done. destruct (Nat.eqb_spec k j) as [->|Hj].
    + by rewrite list_lookup_insert_eq.
    + by rewrite list_lookup_insert_ne.
Qed.

Lemma transpose_inj i j : Inj (=) (=) (transpose i j).
Proof.
  intros a b. unfold transpose.
  destruct (Nat.eqb_spec a i), (Nat.eqb_spec a j); cases_eqb; lia.
Qed.

Lemma vec_swap_perm i j l l' : vec_swap i j l = Ok l' → l' ≡ₚ l.
Proof.
  unfold vec_swap. destruct (l !! i) as [x|] eqn:Hx; [|done].
  destruct (l !! j) as [y|] eqn:Hy; [|done]. intros [= <-]. apply Permutation_inj. split.
  - by rewrite !length_insert.
  - exists (transpose i j). split; [apply transpose_inj|]. intros k. by apply transpose_lookup.
Qed.

Lemma insert_at_lookup i x l k :
  i ≤ length l →
  insert_at i x l !! k = if k <? i then l !! k else if k =? i then Some x else l !! (k - 1).
Proof.
  intros Hi. unfold insert_at. destruct (Nat.ltb_spec k i).
  - rewrite lookup_app_l by (rewrite length_take; lia). by rewrite lookup_take_lt.
  - rewrite lookup_app_r by (rewrite length_take; lia). rewrite length_take, Nat.min_l by done.
    destruct (Nat.eqb_spec k i) as [->|]; [by rewrite Nat.sub_diag|].
    destruct (k - i) as [|m] eqn:Hm; [lia|]. simpl. rewrite lookup_drop. f_equal. lia.
Qed.

Lemma delete_lookup i l k : delete i l !! k = if k <? i then l !! k else l !! S k.
Proof.
  destruct (Nat.ltb_spec k i).
  - by apply list_lookup_delete_lt.
  - by apply list_lookup_delete_ge.
Qed.

Lemma reorder_perm i k x l :
  l !! i = Some x → k ≤ length (delete i l) → insert_at k x (delete i l) ≡ₚ l.
Proof. intros Hx Hk. rewrite insert_at_perm by done. symmetry. by apply delete_Permutation. Qed.

(** The target of a move, counted without the element that moves. *)
Definition target_index (i j : nat) : nat := if i <? j then j - 1 else j.

Lemma target_lookup i j l y :
  i ≠ j → l !! j = Some y → delete i l !! target_index i j = Some y.
Proof.
  intros Hne Hy. rewrite delete_lookup. unfold target_index.
  destruct (Nat.ltb_spec i j).
  - destruct (Nat.ltb_spec (j - 1) i); [lia|]. rewrite <-Hy. f_equal. lia.
  - destruct (Nat.ltb_spec j i); [done|lia].
Qed.

(** The element ends up next to the target, and the others keep their order. *)
Lemma reorder_next i j x y l before :
  i ≠ j → l !! i = Some x → l !! j = Some y →
  ∃ l1 l2, delete i l = l1 ++ y :: l2 ∧
    insert_at (reorder_index i j before) x (delete i l)
    = if before : bool then l1 ++ x :: y :: l2 else l1 ++ y :: x :: l2.
Proof.
  intros Hne Hx Hy. pose proof (target_lookup i j l y Hne Hy) as Ht.
  pose proof (lookup_lt_Some _ _ _ Ht) as Hlt.
  exists (take (target_index i j) (delete i l)), (drop (S (target_index i j)) (delete i l)).
  pose proof (take_drop_middle _ _ _ Ht) as Hm. split; [done|].
  unfold reorder_index. fold (target_index i j). unfold insert_at. destruct before.
  - f_equal. f_equal. by rewrite <-Hm at 1; rewrite drop_app_length' by (rewrite length_take; lia).
  - rewrite Nat.add_1_r, (take_S_r _ _ _ Ht), <-app_assoc. done.
Qed.
End lists.

(** ** Containers *)

(** A child with what the container keeps for it: its size or its tab. *)
Definition slots (n : Node) : list (N * (N + rstring * bool)) :=
  match n with
  | BufferView _ => []
  | Split s => zip_with (λ c z, (c, inl z)) (sp_children s) (sp_sizes s)
  | Tabs t => (λ tab, (te_child tab, inr (te_title tab, te_synchronize_panes tab))) <$> t_tabs t
  end.

Lemma slots_children n : node_ok n → fst <$> slots n = child_ids n.
Proof.
  destruct n as [v|s|t]; simpl; [done|..].
  - intros [_ Hl]. apply fmap_zip_with_l; [done|lia].
  - intros _. by rewrite <-list_fmap_compose.
Qed.

(** [n'] is [n] with its children in another order. *)
Record permuted (n n' : Node) : Prop := {
  pm_kind : same_kind n n';
  pm_parent : parent n' = parent n;
  pm_last : last_focused_descendant n' = last_focused_descendant n;
  pm_slots : slots n' ≡ₚ slots n;
  pm_ok : node_ok n';
  pm_active : ∀ t t', n = Tabs t → n' = Tabs t' → active_child t' = active_child t
}.

Lemma permuted_children n n' : node_ok n → permuted n n' → child_ids n' ≡ₚ child_ids n.
Proof.
  intros Hok Hp. rewrite <-!slots_children by (done || apply Hp).
  by apply fmap_Permutation, Hp.
Qed.

Lemma permuted_drawn n n' : node_ok n → permuted n n' → drawn_children n' ≡ₚ drawn_children n.
Proof.
  intros Hok Hp. pose proof (permuted_children n n' Hok Hp) as Hc.
  pose proof (pm_active _ _ Hp) as Ha. destruct (pm_kind _ _ Hp) as (_ & _ & Hv & Ht).
  destruct n as [v|s|t], n' as [v'|s'|t']; try done. simpl. by rewrite (Ha t t').
Qed.

Lemma child_position {A} (f : A → N) l c :
  c ∈ f <$> l → ∃ i x, position (λ x, f x =? c)%N l = Some i ∧ l !! i = Some x ∧ f x = c.
Proof.
  intros (x & -> & Hx)%list_elem_of_fmap. destruct (position _ l) as [i|] eqn:Hp.
  - apply position_Some in Hp as Hp'. destruct Hp' as (y & Hy & He%N.eqb_eq & _). eauto.
  - rewrite position_None in Hp. specialize (Hp x Hx). by rewrite N.eqb_refl in Hp.
Qed.

Lemma child_position_id l (c : N) :
  c ∈ l → ∃ i, position (λ x, x =? c)%N l = Some i ∧ l !! i = Some c.
Proof.
  intros Hc. destruct (child_position (λ x, x) l c) as (i & x & Hp & Hx & <-).
  - by rewrite list_fmap_id.
  - eauto.
Qed.

Lemma vec_swap_Ok {A} i j (l : list A) x y :
  l !! i = Some x → l !! j = Some y → vec_swap i j l = Ok (<[i := y]> (<[j := x]> l)).
Proof. unfold vec_swap. by intros -> ->. Qed.

Lemma active_swap_lookup {A} (l : list A) i j x y a :
  l !! i = Some x → l !! j = Some y →
  <[i := y]> (<[j := x]> l) !! active_after_swap a i j = l !! a.
Proof.
  intros Hx Hy. rewrite (transpose_lookup i j x y l _ Hx Hy). f_equal.
  unfold transpose, active_after_swap.
  destruct (Nat.eqb_spec a i), (Nat.eqb_spec a j); cases_eqb; lia.
Qed.

Lemma swap_children_spec a b n :
  node_ok n → a ∈ child_ids n → b ∈ child_ids n →
  ∃ n' i j, swap_children a b n = Ok n' ∧ child_ids n !! i = Some a ∧ child_ids n !! j = Some b
    ∧ vec_swap i j (slots n) = Ok (slots n') ∧ permuted n n'.
Proof.
  intros Hok Ha Hb. destruct n as [v|s|t]; simpl in *; [by apply elem_of_nil in Ha|..].
  - destruct Hok as [H2 Hl].
    destruct (child_position_id _ _ Ha) as (i & Hpi & Hi).
    destruct (child_position_id _ _ Hb) as (j & Hpj & Hj). rewrite Hpi, Hpj. simpl.
    rewrite (vec_swap_Ok _ _ _ _ _ Hi Hj). simpl.
    destruct (lookup_lt_is_Some_2 (sp_sizes s) i) as [zi Hzi]; [rewrite Hl; by eapply lookup_lt_Some|].
    destruct (lookup_lt_is_Some_2 (sp_sizes s) j) as [zj Hzj]; [rewrite Hl; by eapply lookup_lt_Some|].
    rewrite (vec_swap_Ok _ _ _ _ _ Hzi Hzj). simpl. eexists _, i, j. split; [done|].
    assert (vec_swap i j (slots (Split s)) = Ok (slots (Split (sp_set_children
      (<[i := b]> (<[j := a]> (sp_children s))) (<[i := zj]> (<[j := zi]> (sp_sizes s))) s)))) as Hs.
    { simpl. rewrite <-!insert_zip_with. apply vec_swap_Ok; rewrite lookup_zip_with.
      - by rewrite Hi, Hzi.
      - by rewrite Hj, Hzj. }
    split_and!; [done..|]. split; try done.
    + by eapply vec_swap_perm.
    + simpl. by rewrite !length_insert.
  - destruct (child_position te_child _ _ Ha) as (i & x & Hpi & Hi & Hx).
    destruct (child_position te_child _ _ Hb) as (j & y & Hpj & Hj & Hy).
    rewrite Hpi, Hpj. simpl. rewrite (vec_swap_Ok _ _ _ _ _ Hi Hj). simpl.
    eexists _, i, j. split; [done|]. rewrite !list_lookup_fmap, Hi, Hj. simpl.
    assert (vec_swap i j (slots (Tabs t)) = Ok (slots (Tabs (t_set_tabs
      (<[i := y]> (<[j := x]> (t_tabs t))) (active_after_swap (t_active t) i j) t)))) as Hs.
    { simpl. rewrite !list_fmap_insert. apply vec_swap_Ok; by rewrite list_lookup_fmap, ?Hi, ?Hj. }
    split_and!; [by rewrite Hx|by rewrite Hy|done|]. split; try done.
    + by eapply vec_swap_perm.
    + simpl. rewrite !length_insert. destruct Hok as [Hlt|[He _]]; [left|by rewrite He in Hi].
      pose proof (active_swap_lookup _ _ _ _ _ (t_active t) Hi Hj) as Hal.
      destruct (lookup_lt_is_Some_2 _ _ Hlt) as [z Hz]. rewrite Hz in Hal.
      apply lookup_lt_Some in Hal. by rewrite !length_insert in Hal.
    + intros t0 t1 [= <-] [= <-]. unfold active_child. simpl.
      by rewrite (active_swap_lookup _ _ _ _ _ _ Hi Hj).
Qed.

Lemma active_reorder_lookup {A} (l : list A) i k x a :
  l !! i = Some x → k ≤ length (delete i l) →
  insert_at k x (delete i l) !! active_after_reorder a i k = l !! a.
Proof.
  intros Hx Hk. rewrite insert_at_lookup by done. unfold active_after_reorder.
  destruct (Nat.eqb_spec a i) as [->|Hai].
  { destruct (Nat.ltb_spec k k); [lia|]. by rewrite Nat.eqb_refl. }
  destruct (Nat.ltb_spec i a), (Nat.leb_spec a k); simpl.
  - destruct (Nat.ltb_spec (a - 1) k); [|lia]. rewrite delete_lookup.
    destruct (Nat.ltb_spec (a - 1) i); [lia|]. f_equal. lia.
  - destruct (Nat.ltb_spec a i); [lia|]. simpl.
    destruct (Nat.ltb_spec a k); [lia|]. destruct (Nat.eqb_spec a k); [lia|].
    rewrite delete_lookup. destruct (Nat.ltb_spec (a - 1) i); [lia|]. f_equal. lia.
  - destruct (Nat.ltb_spec a i); [|lia]. simpl. destruct (Nat.leb_spec k a).
    + destruct (Nat.ltb_spec (a + 1) k); [lia|]. destruct (Nat.eqb_spec (a + 1) k); [lia|].
      rewrite delete_lookup. destruct (Nat.ltb_spec (a + 1 - 1) i); [|lia]. f_equal. lia.
    + destruct (Nat.ltb_spec a k); [|lia]. rewrite delete_lookup.
      by destruct (Nat.ltb_spec a i); [|lia].
  - destruct (Nat.ltb_spec a i); [|lia]. simpl. destruct (Nat.leb_spec k a); [|lia].
    destruct (Nat.ltb_spec (a + 1) k); [lia|]. destruct (Nat.eqb_spec (a + 1) k); [lia|].
    rewrite delete_lookup. destruct (Nat.ltb_spec (a + 1 - 1) i); [|lia]. f_equal. lia.
Qed.

Lemma reorder_index_bound i j n before :
  i ≠ j → i < n → j < n → reorder_index i j before ≤ n - 1.
Proof.
  intros Hne Hi Hj. unfold reorder_index. destruct (Nat.ltb_spec i j), before; lia.
Qed.

Lemma insert_at_zip {A B C} (f : A → B → C) k x y l l' :
  length l = length l' → insert_at k (f x y) (zip_with f l l')
    = zip_with f (insert_at k x l) (insert_at k y l').
Proof.
  intros Hl. unfold insert_at. rewrite zip_with_app by (rewrite !length_take; lia). simpl.
  by rewrite zip_with_take, zip_with_drop.
Qed.

Lemma delete_zip {A B C} (f : A → B → C) i l l' :
  length l = length l' → delete i (zip_with f l l') = zip_with f (delete i l) (delete i l').
Proof.
  intros Hl. rewrite !delete_take_drop. rewrite zip_with_app by (rewrite !length_take; lia).
  by rewrite zip_with_take, zip_with_drop.
Qed.

Lemma insert_at_fmap {A B} (f : A → B) k x l :
  f <$> insert_at k x l = insert_at k (f x) (f <$> l).
Proof. unfold insert_at. by rewrite fmap_app, fmap_cons, fmap_take, fmap_drop. Qed.

Lemma delete_fmap {A B} (f : A → B) i (l : list A) : f <$> delete i l = delete i (f <$> l).
Proof. by rewrite !delete_take_drop, fmap_app, fmap_take, fmap_drop. Qed.

Lemma length_delete_lt {A} i (l : list A) : i < length l → length (delete i l) = length l - 1.
Proof. intros Hi. apply length_delete. by apply lookup_lt_is_Some_2. Qed.

(** Taking an element out and putting it back, as the source does it. *)
Lemma vec_move_Ok {A} i k (l : list A) x :
  l !! i = Some x → k ≤ length l - 1 →
  vec_remove i l = Ok (x, delete i l)
  ∧ vec_insert k x (delete i l) = Ok (insert_at k x (delete i l)).
Proof.
  intros Hx Hk. unfold vec_remove, vec_insert. rewrite Hx. split; [done|].
  rewrite length_delete_lt by by eapply lookup_lt_Some. by rewrite (proj2 (Nat.leb_le _ _) Hk).
Qed.

Lemma reorder_children_spec a b before n :
  a ≠ b → node_ok n → a ∈ child_ids n → b ∈ child_ids n →
  ∃ n' i j x, reorder_children a b before n = Ok n'
    ∧ child_ids n !! i = Some a ∧ child_ids n !! j = Some b ∧ slots n !! i = Some x
    ∧ slots n' = insert_at (reorder_index i j before) x (delete i (slots n)) ∧ permuted n n'.
Proof.
  intros Hab Hok Ha Hb. destruct n as [v|s|t]; simpl in Ha, Hb; [by apply elem_of_nil in Ha|..].
  - destruct Hok as [H2 Hl].
    destruct (child_position_id _ _ Ha) as (i & Hpi & Hi).
    destruct (child_position_id _ _ Hb) as (j & Hpj & Hj). unfold reorder_children.
    rewrite Hpi, Hpj. assert (i ≠ j) as Hij by congruence.
    pose proof (lookup_lt_Some _ _ _ Hi) as Hil. pose proof (lookup_lt_Some _ _ _ Hj) as Hjl.
    pose proof (reorder_index_bound i j _ before Hij Hil Hjl) as Hk.
    set (k := reorder_index i j before) in *. rewrite <-Hl in Hil.
    destruct (lookup_lt_is_Some_2 (sp_sizes s) i Hil) as [z Hz].
    destruct (vec_move_Ok i k _ _ Hi Hk) as [E1 E2].
    assert (k ≤ length (sp_sizes s) - 1) as Hk' by (rewrite Hl; exact Hk).
    destruct (vec_move_Ok i k _ _ Hz Hk') as [E3 E4].
    cbn [ok_or mbind outcome_bind]. rewrite E1, E3. cbn -[insert_at]. fold k. rewrite E2, E4. simpl.
    eexists _, i, j, (a, inl z). split; [done|].
    assert (slots (Split (sp_set_children (insert_at k a (delete i (sp_children s)))
        (insert_at k z (delete i (sp_sizes s))) s))
      = insert_at k (a, inl z) (delete i (slots (Split s)))) as Hs.
    { simpl. rewrite delete_zip by done. rewrite <-(insert_at_zip (λ c z, (c, inl z))); [done|].
      rewrite !length_delete_lt; [lia|done|lia]. }
    assert (slots (Split s) !! i = Some (a, inl z)) as Hx.
    { simpl. by rewrite lookup_zip_with, Hi, Hz. }
    split_and!; [done..|]. split; try done.
    + rewrite Hs. apply reorder_perm; [done|]. simpl. rewrite length_delete_lt.
      * rewrite length_zip_with. lia.
      * rewrite length_zip_with. lia.
    + simpl. unfold insert_at. rewrite !length_app. simpl.
      rewrite !length_take, !length_drop, !length_delete_lt; lia.
  - destruct (child_position te_child _ _ Ha) as (i & x & Hpi & Hi & Hx).
    destruct (child_position te_child _ _ Hb) as (j & y & Hpj & Hj & Hy). unfold reorder_children.
    rewrite Hpi, Hpj. assert (i ≠ j) as Hij by congruence.
    pose proof (lookup_lt_Some _ _ _ Hi) as Hil. pose proof (lookup_lt_Some _ _ _ Hj) as Hjl.
    pose proof (reorder_index_bound i j _ before Hij Hil Hjl) as Hk.
    set (k := reorder_index i j before) in *.
    destruct (vec_move_Ok i k _ _ Hi Hk) as [E1 E2].
    cbn [ok_or mbind outcome_bind]. rewrite E1. cbn -[insert_at]. fold k. rewrite E2. simpl.
    set (g := λ tab, (te_child tab, inr (te_title tab, te_synchronize_panes tab))
      : N * (N + rstring * bool)).
    eexists _, i, j, (g x). split; [done|]. rewrite !list_lookup_fmap, Hi, Hj. simpl.
    assert (k ≤ length (delete i (t_tabs t))) as Hkd by (rewrite length_delete_lt; lia).
    split_and!; [by rewrite Hx|by rewrite Hy|done| |].
    { rewrite insert_at_fmap, delete_fmap. done. }
    split; try done.
    + simpl. apply fmap_Permutation. by apply reorder_perm.
    + simpl. destruct Hok as [Hlt|[He _]]; [left|by rewrite He in Hi].
      pose proof (active_reorder_lookup _ i k x (t_active t) Hi Hkd) as Hal.
      destruct (lookup_lt_is_Some_2 _ _ Hlt) as [w Hw]. rewrite Hw in Hal.
      by eapply lookup_lt_Some.
    + intros t0 t1 [= <-] [= <-]. unfold active_child. simpl.
      by rewrite (active_reorder_lookup _ i k x (t_active t) Hi Hkd).
Qed.

(** ** Writing the container back *)

Section permute.
Context {st : ServerState} {p : N} {n n' : Node}.
Context (Hp : nodes st !! p = Some n) (Hok : node_ok n) (Hpm : permuted n n').
Let m' : gmap N Node := <[p := n']> (nodes st).
Let st' : ServerState := set_nodes (λ _, m') st.

Lemma permute_kind i x : m' !! i = Some x → ∃ y, nodes st !! i = Some y ∧ same_kind y x.
Proof.
  unfold m'. rewrite lookup_insert. case_decide; intros; simplify_eq; [|eauto with mux].
  exists n. split; [done|apply Hpm].
Qed.

Lemma permute_layout : layout m' = alter (sh_set_children (child_ids n')) p (layout (nodes st)).
Proof.
  apply map_eq. intros i. unfold m'. rewrite layout_lookup, lookup_insert, lookup_alter.
  rewrite !layout_lookup. destruct (pm_kind _ _ Hpm) as (_ & Hs & _).
  repeat case_decide; subst; try done. rewrite Hp. simpl. unfold shape_of, sh_set_children. simpl.
  by rewrite Hs, (pm_parent _ _ Hpm).
Qed.

Lemma permute_inv D U : inv_but D U st → inv_but D U st'.
Proof.
  intros [W S A R]. split.
  - apply (reshape_wired W); [|exact permute_kind|].
    + rewrite permute_layout. apply (forest_permute (wi_forest _ W) p (shape_of n)).
      * by rewrite layout_lookup, Hp.
      * simpl. by apply permuted_children.
    + intros i Ho. destruct (owned_exists W i Ho) as [x Hx]. pose proof (owned_parent W i x Ho Hx).
      unfold m'. rewrite lookup_insert. case_decide; [|by exists x]. exists n'. split; [done|].
      rewrite (pm_parent _ _ Hpm). subst. congruence.
  - intros i x Hx HD. unfold st', m' in Hx. simpl in Hx. rewrite lookup_insert in Hx.
    case_decide; simplify_eq; [apply Hpm|by apply (S i)].
  - apply reshape_attached; [exact permute_kind| |done].
    intros i v Hi. unfold m'. rewrite lookup_insert. case_decide; eauto.
  - apply reshape_remembers; [exact permute_kind| |done].
    intros i x leaf. unfold m'. rewrite lookup_insert. case_decide; intros Hx Hl; simplify_eq.
    + rewrite (pm_last _ _ Hpm) in Hl. by apply (re_node _ R i n leaf Hp).
    + by apply (re_node _ R i x).
Qed.

Lemma permute_compact D : compact_but D st → compact_but D st'.
Proof.
  intros C i t Hi Hpar HD. unfold st', m' in Hi. simpl in Hi. rewrite lookup_insert in Hi.
  case_decide; [|by apply (C i t)]. simplify_eq.
  pose proof (permuted_children _ _ Hok Hpm) as Hlen. apply Permutation_length in Hlen.
  destruct (pm_kind _ _ Hpm) as (_ & _ & _ & Ht). pose proof (pm_parent _ _ Hpm) as Hpp.
  destruct n as [v|s|t0]; try done. simpl in *. rewrite !length_fmap in Hlen. rewrite Hlen.
  apply (C i t0 Hp); [congruence|done].
Qed.

Lemma permute_anchored X : anchored_but X st → anchored_but X st'.
Proof.
  intros A i x Hi Hpar HX. unfold st', m' in Hi. simpl in Hi. rewrite lookup_insert in Hi.
  case_decide; [|by apply (A i x)]. simplify_eq. apply (A i n Hp); [|done].
  by rewrite <-(pm_parent _ _ Hpm).
Qed.

Lemma permute_on_screen sid i : on_screen st sid i → on_screen st' sid i.
Proof.
  intros (r & Hv & Hr). exists r. split; [|exact Hr]. revert Hv. apply visible_from_subrel.
  intros a b (x & Hx & Hb)%visible_edge_drawn. apply visible_edge_drawn.
  unfold st', m'. simpl. destruct (decide (a = p)) as [->|Hne].
  - exists n'. rewrite lookup_insert_eq. split; [done|]. assert (x = n) as -> by congruence.
    by rewrite (permuted_drawn _ _ Hok Hpm).
  - exists x. by rewrite lookup_insert_ne by by apply not_eq_sym.
Qed.

Lemma permute_view i : is_view st i → is_view st' i.
Proof.
  intros [v Hv]. unfold is_view, st', m'. simpl. rewrite lookup_insert. case_decide; [|eauto].
  subst. assert (n = BufferView v) as -> by congruence. destruct (pm_kind _ _ Hpm) as (_ & _ & Hv' & _).
  destruct n' as [v'|s|t]; try done. eauto.
Qed.

Lemma permute_calm : calm st st'.
Proof.
  apply calm_nodes. intros j. unfold m'. rewrite lookup_insert. case_decide; [|done]. subst.
  rewrite Hp. simpl. apply same_kind_pane, Hpm.
Qed.

Lemma permute_consistent : consistent st → consistent st'.
Proof.
  intros [I C A S]. split.
  - by apply permute_inv.
  - by apply permute_compact.
  - by apply permute_anchored.
  - intros sid s Hs leaf Hl. destruct (S sid s Hs leaf Hl) as [Hv Hos].
    split; [by apply permute_view|by apply permute_on_screen].
Qed.

Lemma permute_zoom : zoom_settled st → zoom_settled st'.
Proof.
  intros Z sid s Hs i Hi. destruct (Z sid s Hs i Hi) as [[x Hx] Hos].
  split; [|by apply permute_on_screen]. unfold st', m'. simpl. rewrite lookup_insert.
  case_decide; eauto.
Qed.
End permute.

(** ** The handlers *)

(** [p] is the parent of both nodes. *)
Definition parent_of_both (st : ServerState) (a b p : N) : Prop :=
  (∃ x, nodes st !! a = Some x ∧ parent x = Some p)
  ∧ ∃ y, nodes st !! b = Some y ∧ parent y = Some p.
Lemma shared_parent_returns st a b :
  returns (shared_parent st a b) (λ p, a ≠ b ∧ parent_of_both st a b p)
    (λ _, a = b ∨ ∀ p, ¬ parent_of_both st a b p).
Proof.
  unfold shared_parent, node_parent, node. destruct (N.eqb_spec a b); simpl; [by left|].
  destruct (nodes st !! a) as [x|] eqn:Hx; simpl; [|right; intros p ((? & ? & _) & _); congruence].
  destruct (parent x) as [p|] eqn:Hp; simpl; [|right; intros p ((? & ? & ?) & _); congruence].
  destruct (nodes st !! b) as [y|] eqn:Hy; simpl; [|right; intros q (_ & ? & ? & _); congruence].
  destruct (parent y) as [q|] eqn:Hq; simpl; [|right; intros q (_ & ? & ? & ?); congruence].
  destruct (N.eqb_spec p q) as [->|]; simpl.
  - split; [done|]. split; [by exists x|by exists y].
  - right. intros r ((? & ? & ?) & (? & ? & ?)). congruence.
Qed.

(** What a reordering of the children of [p] leaves: everything but their order. *)
Record rearranged_siblings (st st' : ServerState) (p : N) (n n' : Node) : Prop := {
  rs_before : nodes st !! p = Some n;
  rs_after : nodes st' !! p = Some n';
  rs_permuted : permuted n n';
  rs_rest : st' = set_nodes (insert p n') st;
  rs_consistent : consistent st';
  rs_zoom : zoom_settled st → zoom_settled st'
}.

Lemma permute_rearranged st p n n' :
  consistent st → nodes st !! p = Some n → permuted n n' →
  rearranged_siblings st (set_nodes (insert p n') st) p n n'.
Proof.
  intros Cst Hp Hpm. pose proof (in_shaped _ _ _ (cs_inv _ Cst) p n Hp) as Hok.
  specialize (Hok ltac:(set_solver)). split.
  - exact Hp.
  - apply lookup_insert_eq.
  - exact Hpm.
  - reflexivity.
  - exact (permute_consistent Hp Hok Hpm Cst).
  - exact (permute_zoom Hp Hok Hpm).
Qed.

Lemma swap_sibling_nodes_wp st a b :
  consistent st →
  wp (swap_sibling_nodes a b)
    (λ _ st', a = b ∧ st' = st ∨
       ∃ p n n' i j, rearranged_siblings st st' p n n'
         ∧ child_ids n !! i = Some a ∧ child_ids n !! j = Some b
         ∧ vec_swap i j (slots n) = Ok (slots n'))
    (λ _ st', st' = st ∧ a ≠ b ∧ ∀ p, ¬ parent_of_both st a b p) st.
Proof.
  intros Cst. pose proof (in_wired _ _ _ (cs_inv _ Cst)) as W. pose proof (wi_forest _ W) as F.
  unfold swap_sibling_nodes. destruct (N.eqb_spec a b) as [->|Hab]; [by apply wp_ret; left|].
  wp_step. eapply wp_reads_returns; [apply shared_parent_returns| |by intros e [?|?]].
  intros p (_ & (x & Hx & Hpx) & (y & Hy & Hpy)).
  destruct (parent_exists F _ _ _ Hx Hpx) as (n & Hn & Ha).
  destruct (parent_exists F _ _ _ Hy Hpy) as (n2 & Hn2 & Hb).
  assert (n2 = n) as -> by congruence.
  assert (node_ok n) as Hok by (apply (in_shaped _ _ _ (cs_inv _ Cst) p n Hn); set_solver).
  destruct (swap_children_spec a b n Hok Ha Hb) as (n' & i & j & Hs & Hi & Hj & Hsw & Hpm).
  wp_step. eapply wp_reads_ok; [by apply node_Ok|]. wp_step.
  eapply wp_lift_ok; [exact Hs|]. apply wp_modify. right. exists p, n, n', i, j.
  split; [by apply permute_rearranged|]. by split_and!.
Qed.

Lemma reorder_sibling_node_wp st a b before :
  consistent st →
  wp (reorder_sibling_node a b before)
    (λ _ st', a = b ∧ st' = st ∨
       ∃ p n n' i x l1 y l2, rearranged_siblings st st' p n n'
         ∧ slots n !! i = Some x ∧ x.1 = a ∧ y.1 = b ∧ delete i (slots n) = l1 ++ y :: l2
         ∧ slots n' = if before then l1 ++ x :: y :: l2 else l1 ++ y :: x :: l2)
    (λ _ st', st' = st) st.
Proof.
  intros Cst. pose proof (in_wired _ _ _ (cs_inv _ Cst)) as W. pose proof (wi_forest _ W) as F.
  unfold reorder_sibling_node. destruct (N.eqb_spec a b) as [->|Hab]; [by apply wp_ret; left|].
  wp_step. eapply wp_reads_returns; [apply shared_parent_returns| |by intros].
  intros p (_ & (c & Hc & Hpc) & (d & Hd & Hpd)).
  destruct (parent_exists F _ _ _ Hc Hpc) as (n & Hn & Ha).
  destruct (parent_exists F _ _ _ Hd Hpd) as (n2 & Hn2 & Hb).
  assert (n2 = n) as -> by congruence.
  assert (node_ok n) as Hok by (apply (in_shaped _ _ _ (cs_inv _ Cst) p n Hn); set_solver).
  destruct (reorder_children_spec a b before n Hab Hok Ha Hb)
    as (n' & i & j & x & Hr & Hi & Hj & Hx & Hs & Hpm).
  wp_step. eapply wp_reads_ok; [by apply node_Ok|]. wp_step.
  eapply wp_lift_ok; [exact Hr|]. apply wp_modify. right.
  pose proof (slots_children n Hok) as Hsl. rewrite <-Hsl, list_lookup_fmap, Hx in Hi.
  rewrite <-Hsl, list_lookup_fmap in Hj.
  destruct (slots n !! j) as [y|] eqn:Hy; [|done]. simpl in Hi, Hj.
  destruct (reorder_next i j x y (slots n) before) as (l1 & l2 & E1 & E2); [congruence|done..|].
  exists p, n, n', i, x, l1, y, l2. split; [by apply permute_rearranged|].
  split_and!; [done|congruence|congruence|done|]. by rewrite Hs, E2.
Qed.

(** Moving buffers between panes: detaching one and showing one in another pane. *)

(** ** Panes of a well-formed state *)

Lemma view_not_session_root st i v :
  wired st → nodes st !! i = Some (BufferView v) → is_session_root st i = false.
Proof.
  intros W Hi. apply not_true_is_false. intros (sid & s & Hs & Hr)%is_session_root_spec.
  destruct (so_root _ _ _ (wi_session _ W _ _ Hs)) as (t & Ht & _). congruence.
Qed.

Lemma view_below st i v j : nodes st !! i = Some (BufferView v) → below st i j ↔ j = i.
Proof.
  intros Hi. split; [|intros ->; reflexivity].
  intros [|(c & Hc & _)]%(below_inv _ _ _ Hi); [done|]. by apply elem_of_nil in Hc.
Qed.

(** A buffer names exactly the pane that shows it. *)
Lemma attachment_views st bid b i :
  inv st → buffers st !! bid = Some b → b_attachment b = Attached i ↔ ∃ sid, views st !! i = Some (sid, bid).
Proof.
  intros I Hb. pose proof (in_attached _ _ _ I) as A. setoid_rewrite views_Some. split.
  - intros Hat. destruct (at_buffer _ _ A bid b i Hb Hat) as (v & Hv & Hvb). eauto.
  - intros (sid & v & Hv & _ & Hvb). destruct (at_view _ _ A i v Hv) as (b' & Hb' & Hat); [set_solver|].
    congruence.
Qed.

Lemma view_attached st i v :
  inv st → nodes st !! i = Some (BufferView v) →
  ∃ b, buffers st !! v_buffer_id v = Some b ∧ b_attachment b = Attached i.
Proof. intros I Hi. apply (at_view _ _ (in_attached _ _ _ I) i v Hi). set_solver. Qed.

Lemma records_lookup st st' bid b :
  records st' = records st → buffers st !! bid = Some b →
  ∃ b', buffers st' !! bid = Some b' ∧ bare b' = bare b.
Proof.
  intros Hr Hb. apply (f_equal (lookup bid)) in Hr. unfold records in Hr.
  rewrite !lookup_fmap, Hb in Hr. destruct (buffers st' !! bid) as [b'|]; [|done].
  exists b'. split; [done|]. apply (inj Some). exact Hr.
Qed.

(** Closing a pane takes that pane away, and its buffer becomes detached. *)
Record pane_closed (i : N) (st st' : ServerState) : Prop := {
  pc_consistent : consistent st';
  pc_zoom : zoom_settled st → zoom_settled st';
  pc_views : views st' = delete i (views st);
  pc_records : records st' = records st;
  pc_sessions : dom (sessions st') = dom (sessions st);
  pc_ids : allocators st' = allocators st
}.

Lemma close_view_wp st i v :
  consistent st → nodes st !! i = Some (BufferView v) →
  wp (close_node i) (λ _ st', pane_closed i st st' ∧ local_to (v_session_id v) st st')
    (λ _ _, False) st.
Proof.
  intros Cst Hi. pose proof Cst as [I C A S]. pose proof (in_wired _ _ _ I) as W.
  eapply wp_mono; [exact (close_child_wp ∅ st i _ I C A Hi (view_not_session_root _ _ _ W Hi))| |done].
  intros [] st' R. pose proof (cl_removed _ _ _ _ _ _ (ra_cleared _ _ _ _ _ _ R)) as [V G Rec Ids].
  split; [split|apply (cl_local _ _ _ _ _ _ (ra_cleared _ _ _ _ _ _ R))].
  - by eapply rearranged_consistent.
  - intros Z. eapply rearranged_zoom; [exact W|exact Z|exact R].
  - apply map_eq. intros j. rewrite lookup_delete. case_decide as He.
    + subst. apply G. reflexivity.
    + apply V. by intros ->%(view_below _ _ _ _ Hi).
  - exact Rec.
  - apply (cl_sessions _ _ _ _ _ _ (ra_cleared _ _ _ _ _ _ R)).
  - destruct Ids as (E1 & E2 & E3 & E4). unfold allocators.
    assert (node_ids st' = node_ids st) as -> by lia. by rewrite E1, E2, E4.
Qed.

Lemma pane_closed_detached st st' i bid b :
  inv st → pane_closed i st st' → buffers st !! bid = Some b → b_attachment b = Attached i →
  ∃ b', buffers st' !! bid = Some b' ∧ bare b' = bare b ∧ b_attachment b' = Detached.
Proof.
  intros I P Hb Hat. destruct (records_lookup _ _ _ _ (pc_records _ _ _ P) Hb) as (b' & Hb' & He).
  exists b'. split; [done|]. split; [done|].
  destruct (b_attachment b') as [j|] eqn:Hj; [|done]. exfalso.
  apply (attachment_views st' bid b' j (cs_inv _ (pc_consistent _ _ _ P)) Hb') in Hj as (sid & Hj).
  rewrite (pc_views _ _ _ P) in Hj. apply lookup_delete_Some in Hj as [Hne Hj].
  pose proof (proj2 (attachment_views st bid b j I Hb) (ex_intro _ sid Hj)). congruence.
Qed.

(** ** Detaching a buffer *)

Lemma detach_buffer_wp st bid :
  consistent st →
  wp (detach_buffer bid)
    (λ _ st', ∃ b, buffers st !! bid = Some b ∧
       match b_attachment b with Attached i => pane_closed i st st' | Detached => st' = st end)
    (λ e st', e = NotFound ∧ st' = st ∧ buffers st !! bid = None) st.
Proof.
  intros C. unfold detach_buffer. wp_step.
  eapply wp_reads_returns; [apply (buffer_returns st bid)|..].
  - intros b Hb. destruct (b_attachment b) as [i|] eqn:Hat; cycle 1.
    { apply wp_ret. exists b. rewrite Hat. by split. }
    destruct (at_buffer _ _ (in_attached _ _ _ (cs_inv _ C)) bid b i Hb Hat) as (v & Hv & _).
    eapply wp_mono; [by apply close_view_wp| |done]. intros [] st' [P _].
    exists b. rewrite Hat. exact (conj Hb P).
  - intros e [-> Hn]. by split_and!.
Qed.

(** ** Showing another buffer in a pane *)

(** The pane [i] shows [bid]; the buffer [c] it showed is left detached. *)
Definition retargeted (i bid : N) (v : BufferViewNode) (b c : Buffer) (st : ServerState)
    : ServerState :=
  attach_to i bid b
    (set_nodes (insert i (BufferView (v_set_buffer_id bid v)))
      (set_buffers (insert (v_buffer_id v) (b_set_attachment Detached (b_ever_attached c) c)) st)).

Section retarget.
Context {st : ServerState} {i bid : N} {v : BufferViewNode} {b c : Buffer}.
Context (Hi : nodes st !! i = Some (BufferView v)).
Context (Hb : buffers st !! bid = Some b) (Hd : b_attachment b = Detached).
Context (Hc : buffers st !! v_buffer_id v = Some c) (Hne : v_buffer_id v ≠ bid).
Let v' : BufferViewNode := v_set_buffer_id bid v.
Let c' : Buffer := b_set_attachment Detached (b_ever_attached c) c.
Let stR : ServerState :=
  set_nodes (insert i (BufferView v')) (set_buffers (insert (v_buffer_id v) c') st).
Let st' : ServerState := retargeted i bid v b c st.

Lemma retarget_node j x :
  nodes stR !! j = Some x → j = i ∧ x = BufferView v' ∨ j ≠ i ∧ nodes st !! j = Some x.
Proof.
  simpl. rewrite lookup_insert. case_decide as He; [intros [= <-]; by left|]. intros Hx. right.
  split; [|exact Hx]. intros ->. by apply He.
Qed.

Lemma retarget_buffer j x :
  buffers stR !! j = Some x →
  j = v_buffer_id v ∧ x = c' ∨ j ≠ v_buffer_id v ∧ buffers st !! j = Some x.
Proof.
  simpl. rewrite lookup_insert. case_decide as He; [intros [= <-]; by left|]. intros Hx. right.
  split; [|exact Hx]. intros ->. by apply He.
Qed.

Lemma retarget_kept j x :
  nodes st !! j = Some x → ∃ x', nodes stR !! j = Some x' ∧ shape_of x' = shape_of x
    ∧ is_buffer_view x' = is_buffer_view x ∧ drawn_children x' = drawn_children x
    ∧ (∀ t, x = Tabs t → x' = Tabs t).
Proof.
  intros Hx. simpl. rewrite lookup_insert. case_decide as He; [|by exists x]. subst.
  exists (BufferView v'). assert (x = BufferView v) as -> by congruence. by split_and!.
Qed.

Lemma retarget_wired : wired st → wired stR.
Proof.
  intros W. split.
  - assert (layout (nodes stR) = layout (nodes st)) as ->; [|apply W].
    unfold layout, stR. simpl. by apply (fmap_insert_same _ _ _ _ _ Hi).
  - intros j x [[-> ->]|[_ Hx]]%retarget_node; [|by apply (wi_node_id _ W)].
    exact (wi_node_id _ W _ _ Hi).
  - intros j x [[-> ->]|[_ Hx]]%retarget_buffer; [|by apply (wi_buffer_id _ W)].
    exact (wi_buffer_id _ W _ _ Hc).
  - intros sid s Hs. destruct (wi_session _ W _ _ Hs) as [Sid (t & Ht & Htp) Snd Sfl].
    split; [done| |done|done]. exists t. split; [|done].
    destruct (retarget_kept _ _ Ht) as (x & Hx & _ & _ & _ & He). by rewrite Hx, (He t).
  - intros fid w Hw. destruct (wi_window _ W _ _ Hw) as [Wid (n & Hn & Hnp & Hns) Wl Wv].
    split; [done| |done|done]. destruct (retarget_kept _ _ Hn) as (x & Hx & [= Es Ep _] & _).
    exists x. split_and!; congruence.
  - apply W.
  - destruct (wi_fresh _ W) as [F1 F2 F3 F4]. split; [done| | |done].
    + intros j [x [[-> _]|[_ Hx]]%retarget_buffer]; apply F2; eauto.
    + intros j [x [[-> _]|[_ Hx]]%retarget_node]; apply F3; eauto.
Qed.

Lemma retarget_inv : inv st → inv st'.
Proof.
  intros [W S [A1 A2 A3] [R1 R2 R3 R4]].
  assert (inv_but ∅ ({[i]} ∪ ∅) stR) as IR.
  { split.
    - by apply retarget_wired.
    - intros j x [[-> ->]|[_ Hx]]%retarget_node HD; [done|by apply (S j)].
    - split.
      + intros j x [[_ He]|[_ Hx]]%retarget_node; simpl; rewrite lookup_insert.
        * injection He as ->. simpl. case_decide; [done|eauto].
        * case_decide; [eauto|by apply (A1 j)].
      + intros j x [[-> _]|[Hji Hx]]%retarget_node HU; [set_solver|].
        destruct (A2 j x Hx) as (y & Hy & Hya); [set_solver|]. exists y. split; [|exact Hya].
        simpl. rewrite lookup_insert_ne; [done|]. intros He.
        destruct (A2 i v Hi) as (z & Hz & Hza); [set_solver|]. rewrite He in Hz. congruence.
      + intros j y k [[-> ->]|[Hjv Hy]]%retarget_buffer Hya; [done|].
        destruct (A3 j y k Hy Hya) as (u & Hu & Hub). exists u. split; [|exact Hub].
        simpl. rewrite lookup_insert_ne; [done|]. intros ->. congruence.
    - assert (∀ leaf, leaf_memory st leaf → leaf_memory stR leaf) as Hlm.
      { intros leaf [Hlt Hv]. split; [exact Hlt|].
        intros x [[-> ->]|[_ Hx]]%retarget_node; [done|by apply Hv]. }
      split.
      + intros j x leaf [[-> ->]|[_ Hx]]%retarget_node Hl; [exact (Hlm _ (R1 i _ leaf Hi Hl))|].
        by eapply Hlm, (R1 j).
      + intros j x leaf Hx Hl. by eapply Hlm, (R2 j).
      + intros j x leaf Hx Hl. by eapply Hlm, (R3 j).
      + exact R4. }
  unfold st', retargeted. fold stR.
  apply (attach_to_inv ∅ ∅ stR i v' b); [apply lookup_insert_eq| |by left|done].
  simpl. by rewrite lookup_insert_ne.
Qed.

Lemma retarget_consistent : consistent st → consistent st'.
Proof.
  intros [I C A S]. pose proof (in_wired _ _ _ I) as W. split.
  - by apply retarget_inv.
  - intros j t [[_ He]|[_ Hx]]%retarget_node; [done|by apply (C j t)].
  - intros j x [[-> ->]|[_ Hx]]%retarget_node Hp HX; [|by apply (A j x)]. by apply (A i _ Hi).
  - intros sid s Hs leaf Hl. destruct (S sid s Hs leaf Hl) as [[u Hu] (r & Hv & Hr)]. split.
    + destruct (retarget_kept _ _ Hu) as (x & Hx & _ & Hbv & _). destruct x as [u'|y|y]; try done.
      by exists u'.
    + exists r. split; [|exact Hr]. revert Hv. apply visible_from_kept. intros x n _ Hn.
      destruct (retarget_kept _ _ Hn) as (x' & Hx' & _ & _ & Hd' & _). by exists x'.
Qed.

Lemma retarget_views : views st' = <[i := (v_session_id v, bid)]> (views st).
Proof.
  apply map_eq. intros j. rewrite lookup_insert, !views_lookup. simpl. rewrite lookup_insert.
  by case_decide.
Qed.
End retarget.

Lemma attach_buffer_wp st bid i b v :
  consistent st → buffers st !! bid = Some b → b_attachment b = Detached →
  nodes st !! i = Some (BufferView v) →
  wp (attach_buffer bid i)
    (λ _ st', consistent st' ∧ views st' = <[i := (v_session_id v, bid)]> (views st)
       ∧ nodes st' !! i = Some (BufferView (v_set_buffer_id bid v)))
    (λ _ _, False) st.
Proof.
  intros C Hb Hd Hi. destruct (view_attached st i v (cs_inv _ C) Hi) as (c & Hc & Hcat).
  assert (v_buffer_id v ≠ bid) as Hne by congruence.
  unfold attach_buffer. wp_step. eapply wp_reads_ok; [by unfold buffer; rewrite Hb|].
  wp_step. rewrite Hd. apply wp_ret. wp_step.
  eapply wp_reads_ok; [by unfold buffer_view_buffer_id; rewrite (node_Ok _ _ _ Hi)|].
  rewrite (proj2 (N.eqb_neq _ _) Hne). simpl. wp_step. wp_step. apply wp_modify. wp_step.
  eapply wp_reads_ok; [by apply node_Ok|]. apply wp_modify.
  assert (detach_if_attached (v_buffer_id v) i (buffers st)
    = <[v_buffer_id v := b_set_attachment Detached (b_ever_attached c) c]> (buffers st)) as He.
  { unfold detach_if_attached. by rewrite Hc, bool_decide_eq_true_2. }
  eapply wp_buffer_mut; [simpl; rewrite He; by rewrite lookup_insert_ne|].
  assert (∀ st2, st2 = retargeted i bid v b c st → consistent st2
    ∧ views st2 = <[i := (v_session_id v, bid)]> (views st)
    ∧ nodes st2 !! i = Some (BufferView (v_set_buffer_id bid v))) as Hgo.
  { intros st2 ->. split; [by apply (retarget_consistent Hi Hb Hd Hc Hne)|].
    split; [apply retarget_views|apply lookup_insert_eq]. }
  apply Hgo. unfold retargeted, attach_to, set_nodes, set_buffers. simpl. by rewrite He.
Qed.

(** ** Moving a buffer to a pane *)

Lemma consistent_staged sid st : consistent st → staged ∅ ∅ sid st st.
Proof. intros [I C A S]. split; [done..|reflexivity]. Qed.

(** Every pane of a consistent state can take the focus. *)
Lemma focus_view_wp st i v :
  consistent st → nodes st !! i = Some (BufferView v) →
  wp (focus_leaf (v_session_id v) i)
    (λ _ st', consistent st' ∧ refocused st st'
       ∧ ∃ s, sessions st' !! v_session_id v = Some s ∧ s_focused_leaf s = Some i)
    (λ _ _, False) st.
Proof.
  intros C Hi. eapply (refocus_view_wp _ st st); [exact C|by apply consistent_staged|exact Hi|done|].
  by apply (node_session_exists st i _ (in_wired _ _ _ (cs_inv _ C)) (cs_anchored _ C) Hi).
Qed.

(** The buffer [bid] is shown in the pane [i] of [sid], which has the focus. *)
Record shown_in (bid i sid : N) (st' : ServerState) : Prop := {
  sw_consistent : consistent st';
  sw_view : views st' !! i = Some (sid, bid);
  sw_focus : ∃ s, sessions st' !! sid = Some s ∧ s_focused_leaf s = Some i
}.

Lemma attach_focus_wp st bid i b v :
  consistent st → buffers st !! bid = Some b → b_attachment b = Detached →
  nodes st !! i = Some (BufferView v) →
  wp (attach_buffer bid i ;; focus_leaf (v_session_id v) i)
    (λ _ st', shown_in bid i (v_session_id v) st' ∧ views st' = <[i := (v_session_id v, bid)]> (views st))
    (λ _ _, False) st.
Proof.
  intros C Hb Hd Hi. wp_step.
  eapply wp_mono; [exact (attach_buffer_wp st bid i b v C Hb Hd Hi)| |done].
  intros [] st1 (C1 & V1 & Hi1).
  eapply wp_mono; [exact (focus_view_wp st1 i _ C1 Hi1)| |done].
  intros [] st2 (C2 & R2 & Hf). pose proof (ca_views _ _ (calm_scrub _ _ (rf_scrub _ _ R2))) as V2.
  rewrite V1 in V2. split; [|exact V2]. split; [exact C2| |exact Hf].
  rewrite V2. apply lookup_insert_eq.
Qed.

Lemma move_buffer_to_leaf_wp st bid i :
  consistent st →
  wp (move_buffer_to_leaf bid i)
    (λ _ st', ∃ v b, nodes st !! i = Some (BufferView v) ∧ buffers st !! bid = Some b
       ∧ shown_in bid i (v_session_id v) st'
       ∧ views st' = <[i := (v_session_id v, bid)]> match b_attachment b with
                                  | Attached j => delete j (views st)
                                  | Detached => views st
                                  end)
    (λ _ st', st' = st) st.
Proof.
  intros C. pose proof (cs_inv _ C) as I. unfold move_buffer_to_leaf. wp_step.
  eapply wp_reads_returns; [apply ensure_leaf_returns| |by intros].
  intros _ [v Hv]. wp_step.
  eapply wp_reads_ok; [by unfold node_session_id; rewrite (node_Ok _ _ _ Hv)|]. wp_step.
  eapply wp_reads_returns; [apply (buffer_returns st bid)| |by intros].
  intros b Hb. destruct (b_attachment b) as [j|] eqn:Hat; cbn beta iota zeta.
  - destruct (at_buffer _ _ (in_attached _ _ _ I) bid b j Hb Hat) as (u & Hu & Hub).
    assert (views st !! j = Some (v_session_id u, bid)) as Hj by (rewrite <-Hub; by apply view_pane).
    destruct (decide (j = i)) as [->|Hji].
    + assert (u = v) as -> by congruence. rewrite bool_decide_eq_true_2 by done.
      eapply wp_mono; [exact (focus_view_wp st i v C Hv)| |by intros].
      intros [] st' (C' & R & Hf). pose proof (ca_views _ _ (calm_scrub _ _ (rf_scrub _ _ R))) as V.
      exists v, b. rewrite Hat. split; [exact Hv|]. split; [exact Hb|].
      split; [split; [exact C'|by rewrite V|exact Hf]|].
      rewrite insert_delete_eq, insert_id by done. exact V.
    + rewrite bool_decide_eq_false_2 by congruence. wp_step. wp_step.
      eapply wp_reads_ok; [by unfold node_session_id; rewrite (node_Ok _ _ _ Hu)|]. wp_step.
      apply wp_ensure; [|done]. intros Hsame%N.eqb_eq.
      eapply wp_mono; [exact (close_view_wp st j u C Hu)| |done]. intros [] st1 [P L].
      destruct (pane_closed_detached _ _ _ _ _ I P Hb Hat) as (b1 & Hb1 & _ & Hd1).
      assert (views st1 !! i = Some (v_session_id v, v_buffer_id v)) as Hi1.
      { rewrite (pc_views _ _ _ P), lookup_delete_ne by done. by apply view_pane. }
      apply views_Some in Hi1 as (v1 & Hv1 & Hs1 & _).
      change (node_session (BufferView v)) with (v_session_id v). rewrite <-Hs1.
      eapply wp_mono; [exact (attach_focus_wp st1 bid i b1 v1 (pc_consistent _ _ _ P) Hb1 Hd1 Hv1)| |by intros].
      intros [] st2 [Sh V2]. exists v, b. rewrite Hs1 in Sh, V2. rewrite Hat, V2, (pc_views _ _ _ P). exact (conj Hv (conj Hb (conj Sh eq_refl))).
  - rewrite bool_decide_eq_false_2 by done. wp_step. wp_step.
    eapply wp_mono; [exact (attach_focus_wp st bid i b v C Hb Hat Hv)| |by intros].
    intros [] st2 [Sh V2]. exists v, b. rewrite Hat. exact (conj Hv (conj Hb (conj Sh V2))).
Qed.
