(* ===== verification/Exits.v ===== *)
(** Disposing of the buffers whose commands have exited: exactly the due ones
    go, with their panes, and nothing else changes. *)

From stdpp Require Import relations.
From S2P Require Import Prelude Core Model Environment State Queries Buffers Focus.
From S2P Require Import Tree Layout Moves Forest Invariant QueriesSpec FocusSpec.
From S2P Require Import Settle Surgery Opening Moving.

(** ** The buffers that are due *)

Definition due_exited (default_ : RemainOnExit) (b : Buffer) : bool :=
  match b_attachment b with
  | Attached _ => negb (remains_on_exit b default_)
  | Detached => b_ever_attached b && negb (b_watched b)
  end.
Definition due (default_ : RemainOnExit) (b : Buffer) : bool :=
  is_closed_helper b || is_exited_pty b && due_exited default_ b.

(** The same, case by case: a history view nothing shows, a pane whose program has
    exited and is not to stay, and a detached program that has exited, was shown
    before and is not watched. [setting] is the buffer's own option or the default. *)
Definition setting (default_ : RemainOnExit) (b : Buffer) : RemainOnExit :=
  match b_user_options b !! lit "remain-on-exit" with
  | Some value => RemainOnExit_parse value
  | None => default_
  end.
Inductive to_go (default_ : RemainOnExit) (b : Buffer) : Prop :=
  | go_helper h : b_kind b = KHelper h → b_attachment b = Detached → to_go default_ b
  | go_shown view code at_ :
      b_kind b = KPty → b_state b = Exited code at_ → b_attachment b = Attached view →
      setting default_ b = RoeOff ∨ setting default_ b = RoeFailed ∧ code = Some 0%Z →
      to_go default_ b
  | go_hidden code at_ :
      b_kind b = KPty → b_state b = Exited code at_ → b_attachment b = Detached →
      b_ever_attached b = true → b_watched b = false → to_go default_ b.
Lemma due_to_go default_ b : due default_ b = true ↔ to_go default_ b.
Proof.
  unfold due, due_exited, is_closed_helper, is_exited_pty.
  assert (∀ code at_, b_state b = Exited code at_ → negb (remains_on_exit b default_) = true ↔
    setting default_ b = RoeOff ∨ setting default_ b = RoeFailed ∧ code = Some 0%Z) as Hs.
  { intros code at_ He. unfold remains_on_exit. rewrite He.
    change (match b_user_options b !! REMAIN_ON_EXIT_OPTION with
            | Some value => RemainOnExit_parse value | None => default_ end) with (setting default_ b).
    destruct (setting default_ b); try case_bool_decide; naive_solver. }
  split.
  - destruct (b_kind b) eqn:Hk, (b_attachment b) eqn:Ha; simpl; intros H; try done;
      try (by eapply go_helper); destruct (b_state b) as [| | |code at_] eqn:Hst; try done; simpl in H.
    + eapply go_shown; try done. by apply (Hs code at_).
    + apply andb_true_iff in H as [He Hw%negb_true_iff]. by eapply go_hidden.
  - intros [h Hk Ha|view code at_ Hk Hst Ha Hr|code at_ Hk Hst Ha He Hw];
      rewrite Hk, ?Ha, ?Hst; simpl; [done|by apply (Hs _ _ Hst)|].
    by rewrite He, Hw.
Qed.

Lemma bare_due default_ b b0 :
  bare b = bare b0 → b_attachment b = b_attachment b0 → due default_ b = due default_ b0.
Proof.
  destruct b, b0. intros [=] [=]. subst. done.
Qed.
Lemma bare_exited b b0 : bare b = bare b0 → is_exited_pty b = is_exited_pty b0.
Proof. destruct b, b0. by intros [=]; subst. Qed.
Lemma bare_due_exited default_ b b0 :
  bare b = bare b0 → b_attachment b = b_attachment b0 →
  due_exited default_ b = due_exited default_ b0.
Proof. destruct b, b0. intros [=] [=]. subst. done. Qed.
Lemma helper_not_exited b : is_closed_helper b = true → is_exited_pty b = false.
Proof. unfold is_closed_helper, is_exited_pty. by destruct (b_kind b). Qed.

(** [st] is [st0] without the buffers disposed of so far and their panes. *)
Record disposing (st0 : ServerState) (d : DisposedBuffers) (st : ServerState) : Prop := {
  dp_consistent : consistent st;
  dp_zoom : zoom_settled st0 → zoom_settled st;
  dp_records : ∀ i, records st !! i = if decide (i ∈ removed_buffers d) then None
                                      else records st0 !! i;
  dp_views : ∀ i, views st !! i = p ← views st0 !! i;
                                  if decide (p.2 ∈ removed_buffers d) then None else Some p;
  dp_changed : ∀ sid, sid ∈ changed_sessions d ↔
    ∃ i bid, views st0 !! i = Some (sid, bid) ∧ bid ∈ removed_buffers d;
  dp_sessions : dom (sessions st) = dom (sessions st0);
  dp_ids : allocators st = allocators st0
}.

Section disposing_facts.
Context {st0 st : ServerState} {d : DisposedBuffers} (C0 : consistent st0).
Context (Dp : disposing st0 d st).

(** A buffer that is left is as it was. *)
Lemma disposing_kept bid b0 :
  buffers st0 !! bid = Some b0 → bid ∉ removed_buffers d →
  ∃ b, buffers st !! bid = Some b ∧ bare b = bare b0 ∧ b_attachment b = b_attachment b0.
Proof.
  intros Hb0 Hni. pose proof (dp_records _ _ _ Dp bid) as Hr.
  rewrite decide_False in Hr by done. unfold records in Hr. rewrite !lookup_fmap, Hb0 in Hr.
  destruct (buffers st !! bid) as [b|] eqn:Hb; [|done]. exists b. split; [done|].
  split; [by apply (inj Some)|].
  assert (∀ i, b_attachment b = Attached i ↔ b_attachment b0 = Attached i) as Hat.
  { intros i. rewrite (attachment_views st bid b i (cs_inv _ (dp_consistent _ _ _ Dp)) Hb).
    rewrite (attachment_views st0 bid b0 i (cs_inv _ C0) Hb0). setoid_rewrite (dp_views _ _ _ Dp i).
    split; intros [sid Hv].
    - destruct (views st0 !! i) as [p|]; [|done]. simpl in Hv. case_decide; [done|]. by exists sid.
    - exists sid. rewrite Hv. simpl. by rewrite decide_False. }
  destruct (b_attachment b) as [i|], (b_attachment b0) as [j|]; try done.
  - by apply Hat.
  - by destruct (proj1 (Hat i) eq_refl).
  - by destruct (proj2 (Hat j) eq_refl).
Qed.

Lemma disposing_left bid b :
  buffers st !! bid = Some b → bid ∉ removed_buffers d ∧ is_Some (buffers st0 !! bid).
Proof.
  intros Hb. pose proof (dp_records _ _ _ Dp bid) as Hr. unfold records in Hr.
  rewrite !lookup_fmap, Hb in Hr. case_decide; [done|].
  destruct (buffers st0 !! bid); [eauto|done].
Qed.

(** One more buffer goes, with its pane. *)
Lemma disposing_step bid b0 st' changed :
  buffers st0 !! bid = Some b0 → bid ∉ removed_buffers d →
  consistent st' → (zoom_settled st → zoom_settled st') →
  (∀ i, records st' !! i = if decide (i = bid) then None else records st !! i) →
  (match b_attachment b0 with
   | Attached i => views st' = delete i (views st)
       ∧ ∃ sid, views st0 !! i = Some (sid, bid) ∧ changed = {[sid]} ∪ changed_sessions d
   | Detached => views st' = views st ∧ changed = changed_sessions d
   end) →
  dom (sessions st') = dom (sessions st) → allocators st' = allocators st →
  disposing st0 (mkDisposedBuffers (removed_buffers d ++ [bid]) changed) st'.
Proof.
  intros Hb0 Hni C' Z' R' V' S' A'. pose proof Dp as [_ Z R V Ch S A].
  pose proof (λ i, attachment_views st0 bid b0 i (cs_inv _ C0) Hb0) as Hat.
  split; simpl; [done|auto| | | |congruence|congruence].
  - intros i. rewrite R', R. destruct (decide (i = bid)) as [->|Hne].
    + rewrite decide_True; [done|]. apply elem_of_app. right. by left.
    + destruct (decide (i ∈ removed_buffers d)) as [Hin|Hin].
      * rewrite decide_True; [done|]. apply elem_of_app. by left.
      * rewrite decide_False; [done|]. rewrite elem_of_app, list_elem_of_singleton. naive_solver.
  - intros i. assert (views st' !! i = p ← views st !! i;
        if decide (p.2 = bid) then None else Some p) as ->.
    { assert (∀ p, views st !! i = Some p → p.2 = bid → b_attachment b0 = Attached i) as Hown.
      { intros [sid bid'] Hp He. simpl in He. subst bid'. apply Hat. exists sid.
        rewrite V in Hp. destruct (views st0 !! i) as [q|]; [|done]. simpl in Hp.
        case_decide; [done|]. exact Hp. }
      destruct (b_attachment b0) as [j|].
      - destruct V' as [-> (sid & Hj & _)]. rewrite lookup_delete. case_decide as He.
        + subst j. rewrite V, Hj. simpl. rewrite decide_False by done. simpl.
          by rewrite decide_True.
        + destruct (views st !! i) as [p|] eqn:Hp; [|done]. simpl. rewrite decide_False; [done|].
          intros Hb. specialize (Hown p eq_refl Hb). congruence.
      - destruct V' as [-> _]. destruct (views st !! i) as [p|] eqn:Hp; [|done]. simpl.
        rewrite decide_False; [done|]. intros Hb. by specialize (Hown p eq_refl Hb). }
    rewrite V. destruct (views st0 !! i) as [p|]; [|done]. simpl.
    destruct (decide (p.2 ∈ removed_buffers d)) as [Hin|Hin]; simpl.
    + rewrite decide_True; [done|]. apply elem_of_app. by left.
    + destruct (decide (p.2 = bid)) as [->|Hne].
      * rewrite decide_True; [done|]. apply elem_of_app. right. by left.
      * rewrite decide_False; [done|]. rewrite elem_of_app, list_elem_of_singleton. naive_solver.
  - intros sid. destruct (b_attachment b0) as [j|].
    + destruct V' as [_ (sid' & Hj & ->)]. rewrite elem_of_union, elem_of_singleton, Ch. split.
      * intros [->|(i & bid' & Hi & Hin)].
        -- exists j, bid. split; [done|]. apply elem_of_app. right. by left.
        -- exists i, bid'. split; [done|]. apply elem_of_app. by left.
      * intros (i & bid' & Hi & [Hin|Hin%list_elem_of_singleton]%elem_of_app).
        -- right. by exists i, bid'.
        -- left. subst bid'. destruct (Hat i) as [_ Hi2].
           specialize (Hi2 (ex_intro _ sid Hi)). simplify_eq. congruence.
    + destruct V' as [_ ->]. rewrite Ch. split.
      * intros (i & bid' & Hi & Hin). exists i, bid'. split; [done|]. apply elem_of_app. by left.
      * intros (i & bid' & Hi & [Hin|Hin%list_elem_of_singleton]%elem_of_app).
        -- by exists i, bid'.
        -- subst bid'. by specialize (proj2 (Hat i) (ex_intro _ sid Hi)).
Qed.

Lemma dispose_detached_wp changed bid b0 b :
  buffers st0 !! bid = Some b0 → bid ∉ removed_buffers d → b_attachment b0 = Detached →
  buffers st !! bid = Some b → b_attachment b = Detached → changed = changed_sessions d →
  wp (dispose_record (mkDisposedBuffers (removed_buffers d) changed) bid)
    (λ d' st', removed_buffers d' = removed_buffers d ++ [bid] ∧ disposing st0 d' st'
       ∧ remain_on_exit st' = remain_on_exit st)
    (λ _ _, False) st.
Proof.
  intros Hb0 Hni Hd0 Hb Hd ->. unfold dispose_record. wp_step. apply wp_attempt.
  eapply wp_mono; [exact (remove_buffer_wp st bid (dp_consistent _ _ _ Dp))|..].
  - intros b' st' (C' & Z' & _ & _ & ->). wp_step. simpl. split; [done|].
    split; [|done]. apply (disposing_step bid b0); rewrite ?Hd0; [done..| |done|done|done].
    intros i. unfold records. simpl. rewrite lookup_fmap, lookup_delete.
    destruct (decide (i = bid)) as [->|Hne]; [by rewrite decide_True|].
    rewrite decide_False by done. by rewrite lookup_fmap.
  - intros e st' [_ He]. rewrite Hb in He. by destruct He.
Qed.
End disposing_facts.

(** One exited buffer of the list. *)
Lemma dispose_exited_wp st0 default_ d st b b0 :
  consistent st0 → disposing st0 d st →
  buffers st0 !! b_id b = Some b0 → b_id b ∉ removed_buffers d →
  bare b = bare b0 → b_attachment b = b_attachment b0 →
  wp (dispose_exited default_ d b)
    (λ d' st', disposing st0 d' st'
       ∧ removed_buffers d' = removed_buffers d
           ++ if due_exited default_ b0 then [b_id b] else [])
    (λ _ _, False) st.
Proof.
  intros C0 Dp Hb0 Hni He Hat. rewrite <-(bare_due_exited default_ b b0) by done.
  destruct (disposing_kept C0 Dp _ _ Hb0 Hni) as (b1 & Hb1 & He1 & Hat1).
  unfold dispose_exited, due_exited. destruct (b_attachment b) as [view|].
  - destruct (remains_on_exit b default_).
    { apply wp_ret. simpl. by rewrite app_nil_r. }
    pose proof (dp_consistent _ _ _ Dp) as C.
    destruct (at_buffer _ _ (in_attached _ _ _ (cs_inv _ C)) _ b1 view Hb1) as (v & Hv & Hvb);
      [congruence|].
    wp_step. apply wp_gets. rewrite Hv. wp_step. apply wp_attempt.
    eapply wp_mono; [by apply close_view_wp| |done]. intros [] st1 [P _]. simpl.
    destruct (pane_closed_detached st st1 view _ b1 (cs_inv _ C) P Hb1) as (b2 & Hb2 & _ & Hd2);
      [congruence|].
    unfold dispose_record. wp_step. apply wp_attempt.
    eapply wp_mono; [exact (remove_buffer_wp st1 (b_id b) (pc_consistent _ _ _ P))|..];
      cycle 1.
    { intros e st' [_ Hx]. rewrite Hb2 in Hx. by destruct Hx. }
    intros b' st' (C' & Z' & _ & _ & ->). wp_step. simpl. split; [|done].
    apply (disposing_step C0 Dp _ b0); rewrite <-?Hat; try done.
    + intros Z. apply Z', (pc_zoom _ _ _ P), Z.
    + intros i. unfold records. simpl. rewrite lookup_fmap, lookup_delete.
      destruct (decide (i = b_id b)) as [->|Hne]; [by rewrite decide_True|].
      rewrite decide_False by done. rewrite <-lookup_fmap. apply (f_equal (lookup i)), P.
    + split; [exact (pc_views _ _ _ P)|]. exists (v_session_id v). split; [|done].
      assert (views st !! view = Some (v_session_id v, b_id b)) as Hw
        by (rewrite <-Hvb; by apply view_pane).
      rewrite (dp_views _ _ _ Dp) in Hw. destruct (views st0 !! view) as [p|]; [|done].
      simpl in Hw. case_decide; [done|]. exact Hw.
    + apply (pc_sessions _ _ _ P).
    + apply (pc_ids _ _ _ P).
  - destruct (b_ever_attached b && negb (b_watched b)); cycle 1.
    { apply wp_ret. simpl. by rewrite app_nil_r. }
    destruct d as [rem ch].
    assert (b_attachment b1 = Detached) as Hd1 by congruence.
    assert (b_attachment b0 = Detached) as Hd0 by congruence.
    eapply wp_mono; [exact (dispose_detached_wp C0 Dp ch (b_id b) b0 b1 Hb0 Hni Hd0 Hb1 Hd1 eq_refl)
                    | |by intros].
    intros d' st' (Hr & Dp' & _). split; [exact Dp'|exact Hr].
Qed.

(** ** The loops *)

Lemma dispose_helpers_wp st0 l : ∀ d st,
  consistent st0 → disposing st0 d st → NoDup l → (∀ id, id ∈ l → id ∉ removed_buffers d) →
  (∀ id, id ∈ l → ∃ b, buffers st0 !! id = Some b ∧ b_attachment b = Detached) →
  wp (fold_st dispose_record d l)
    (λ d' st', disposing st0 d' st' ∧ removed_buffers d' = removed_buffers d ++ l
       ∧ remain_on_exit st' = remain_on_exit st)
    (λ _ _, False) st.
Proof.
  induction l as [|id l IH]; intros d st C0 Dp Hnd Hni Hl; simpl.
  { apply wp_ret. rewrite app_nil_r. exact (conj Dp (conj eq_refl eq_refl)). }
  apply NoDup_cons in Hnd as [Hid Hnd]. wp_step.
  destruct (Hl id) as (b0 & Hb0 & Hd0); [by left|].
  destruct (disposing_kept C0 Dp _ _ Hb0 (Hni id ltac:(by left))) as (b & Hb & _ & Hat).
  assert (b_attachment b = Detached) as Hd by congruence.
  destruct d as [rem ch].
  eapply wp_mono; [exact (dispose_detached_wp C0 Dp ch id b0 b Hb0 (Hni id ltac:(by left)) Hd0 Hb Hd
                            eq_refl)| |by intros].
  simpl. intros d' st' (Hr & Dp' & Hroe).
  eapply wp_mono; [apply (IH d' st' C0 Dp' Hnd)| |by intros].
  - intros i Hi. rewrite Hr, elem_of_app, list_elem_of_singleton. intros [Hx| ->]; [|done].
    by apply (Hni i); [right|].
  - intros i Hi. apply Hl. by right.
  - intros d2 st2 (Dp2 & Hr2 & Hroe2). split; [exact Dp2|]. split; [|congruence].
    by rewrite Hr2, Hr, <-app_assoc.
Qed.

Lemma dispose_all_wp st0 default_ l : ∀ d st,
  consistent st0 → disposing st0 d st → NoDup (b_id <$> l) →
  (∀ b, b ∈ l → b_id b ∉ removed_buffers d ∧ ∃ b0, buffers st0 !! b_id b = Some b0
     ∧ bare b = bare b0 ∧ b_attachment b = b_attachment b0) →
  wp (fold_st (dispose_exited default_) d l)
    (λ d' st', disposing st0 d' st' ∧
       ∀ i, i ∈ removed_buffers d' ↔ i ∈ removed_buffers d
         ∨ ∃ b, b ∈ l ∧ b_id b = i ∧ due_exited default_ b = true)
    (λ _ _, False) st.
Proof.
  induction l as [|b l IH]; intros d st C0 Dp Hnd Hl; simpl.
  { apply wp_ret. split; [done|]. intros i. split; [by left|].
    intros [?|(? & ?%elem_of_nil & _)]; done. }
  apply NoDup_cons in Hnd as [Hid Hnd]. wp_step.
  destruct (Hl b) as (Hni & b0 & Hb0 & He & Hat); [by left|].
  eapply wp_mono; [by apply (dispose_exited_wp st0 default_ d st b b0)| |done].
  rewrite <-(bare_due_exited default_ b b0) by done.
  intros d' st' [Dp' Hr]. eapply wp_mono; [apply (IH d' st' C0 Dp' Hnd)| |done].
  - intros x Hx. destruct (Hl x) as [Hnx Hx0]; [by right|]. split; [|done].
    rewrite Hr, elem_of_app. intros [?|Hin]; [done|].
    destruct (due_exited default_ b); [|by apply elem_of_nil in Hin].
    apply list_elem_of_singleton in Hin. apply Hid, list_elem_of_fmap. by exists x.
  - intros d2 st2 [Dp2 Hr2]. split; [exact Dp2|]. intros i. rewrite Hr2, Hr, elem_of_app. split.
    + intros [[?|Hin]|(x & Hx & Hxi & Hdx)]; [by left| |].
      * destruct (due_exited default_ b) eqn:Hdb; [|by apply elem_of_nil in Hin].
        apply list_elem_of_singleton in Hin as ->. right. exists b. split_and!; [by left|done..].
      * right. exists x. split_and!; [by right|done..].
    + intros [?|(x & [->|Hx]%elem_of_cons & Hxi & Hdx)]; [by left; left| |].
      * left. right. rewrite Hdx. subst i. by left.
      * right. exists x. by split_and!.
Qed.

(** ** What disposing does *)

Lemma NoDup_ids (m : gmap N Buffer) (P : Buffer → Prop) `{!∀ b, Decision (P b)} :
  (∀ i b, m !! i = Some b → b_id b = i) → NoDup (b_id <$> base.filter P (values_of m)).
Proof.
  intros Hid.
  assert (b_id <$> values_of m = keys_of m) as He.
  { unfold values_of, keys_of. rewrite <-list_fmap_compose. apply list_fmap_ext.
    intros i [k b] Hk. simpl. apply Hid, elem_of_entries. by eapply list_elem_of_lookup_2. }
  apply (sublist_NoDup _ (b_id <$> values_of m)).
  - rewrite He. apply NoDup_keys_of.
  - apply fmap_sublist, sublist_filter.
Qed.

Lemma dispose_exited_buffers_wp st :
  consistent st →
  wp dispose_exited_buffers
    (λ d st', disposing st d st' ∧
       ∀ i, i ∈ removed_buffers d ↔
         ∃ b, buffers st !! i = Some b ∧ due (remain_on_exit st) b = true)
    (λ _ _, False) st.
Proof.
  intros C. pose proof (in_wired _ _ _ (cs_inv _ C)) as W.
  unfold dispose_exited_buffers. wp_step. apply wp_gets. wp_step.
  set (helpers := b_id <$> _).
  assert (∀ id, id ∈ helpers ↔ ∃ b, buffers st !! id = Some b ∧ is_closed_helper b = true) as Hh.
  { intros id. unfold helpers. rewrite list_elem_of_fmap.
    setoid_rewrite list_elem_of_filter. setoid_rewrite elem_of_values_of. split.
    - intros (b & -> & Hb & i & Hi). exists b. by rewrite (wi_buffer_id _ W _ _ Hi).
    - intros (b & Hb & Hc). exists b. rewrite (wi_buffer_id _ W _ _ Hb). eauto. }
  assert (disposing st (mkDisposedBuffers [] ∅) st) as Dp0.
  { split; simpl; try done.
    - intros i. by destruct (views st !! i).
    - intros sid. split; [by intros ?%elem_of_empty|]. by intros (? & ? & _ & ?%elem_of_nil). }
  eapply wp_mono; [apply (dispose_helpers_wp st helpers _ st C Dp0)| |done].
  { apply NoDup_ids, W. }
  { intros ? _ ?%elem_of_nil. done. }
  { intros id (b & Hb & Hc)%Hh. exists b. split; [done|]. unfold is_closed_helper in Hc.
    destruct (b_kind b); [done|]. by apply bool_decide_eq_true in Hc. }
  intros d st1 (Dp1 & Hr1 & Hroe). simpl in Hr1. wp_step. apply wp_gets. wp_step. apply wp_gets.
  pose proof (in_wired _ _ _ (cs_inv _ (dp_consistent _ _ _ Dp1))) as W1.
  assert (∀ b, b ∈ base.filter (λ b, is_exited_pty b = true) (values_of (buffers st1)) →
    is_exited_pty b = true ∧ buffers st1 !! b_id b = Some b) as Hin.
  { intros b [Hx (i & Hi)%elem_of_values_of]%list_elem_of_filter.
    by rewrite (wi_buffer_id _ W1 _ _ Hi). }
  eapply wp_mono; [apply (dispose_all_wp st _ _ d st1 C Dp1)| |done].
  { apply NoDup_ids, W1. }
  { intros b [Hx Hb]%Hin. destruct (disposing_left Dp1 _ _ Hb) as [Hni [b0 Hb0]].
    split; [done|]. destruct (disposing_kept C Dp1 _ _ Hb0 Hni) as (b' & Hb' & He & Hat).
    assert (b' = b) as -> by congruence. exists b0. exact (conj Hb0 (conj He Hat)). }
  intros d2 st2 [Dp2 Hr2]. split; [exact Dp2|]. intros i. rewrite Hr2, Hr1, Hh. split.
  - intros [(b & Hb & Hc)|(b & [Hx Hb]%Hin & <- & Hd)].
    + exists b. split; [done|]. unfold due. by rewrite Hc.
    + destruct (disposing_left Dp1 _ _ Hb) as [Hni [b0 Hb0]].
      destruct (disposing_kept C Dp1 _ _ Hb0 Hni) as (b' & Hb' & He & Hat).
      assert (b' = b) as -> by congruence.
      exists b0. split; [done|]. rewrite <-(bare_due _ b b0) by done. unfold due.
      rewrite Hx, <-Hroe, Hd. by rewrite orb_true_r.
  - intros (b & Hb & Hd). unfold due in Hd.
    destruct (is_closed_helper b) eqn:Hc; [left; by exists b|right].
    apply andb_true_iff in Hd as [Hx Hd].
    assert (i ∉ removed_buffers d) as Hni.
    { rewrite Hr1, Hh. intros (b' & Hb' & Hc'). congruence. }
    destruct (disposing_kept C Dp1 _ _ Hb Hni) as (b' & Hb' & He & Hat).
    exists b'. rewrite (wi_buffer_id _ W1 _ _ Hb'). split; [|split; [done|]].
    + apply list_elem_of_filter. split; [by rewrite (bare_exited b' b)|].
      apply elem_of_values_of. by exists i.
    + by rewrite Hroe, (bare_due_exited _ b' b).
Qed.
