(* ===== verification/Zooming.v ===== *)
(** Zooming a pane, and the requests a consistent workspace refuses. *)

From stdpp Require Import relations.
From S2P Require Import Prelude Core Model Environment State Queries Buffers Focus.
From S2P Require Import Tree Layout Moves Forest Invariant QueriesSpec FocusSpec.
From S2P Require Import Settle Surgery Owners Cosmetic Closing.

(** Zooming: [zoom_node], [unzoom_session] and [toggle_zoom_node]. Only a node on
    screen is zoomed, and the focus of its session moves inside it. *)

(** ** The guard *)

Lemma ensure_visible_wp st id n s (Q : unit → ServerState → Prop) E :
  wired st → nodes st !! id = Some n → sessions st !! node_session n = Some s →
  (on_screen st (node_session n) id → Q () st) →
  (¬ on_screen st (node_session n) id → E InvalidInput st) →
  wp (reads (λ st, ensure_node_visible_in_session st (node_session n) id)) Q E st.
Proof.
  intros W Hn Hs HQ HE. apply wp_reads. unfold ensure_node_visible_in_session.
  destruct (is_node_visible_in_session_spec W _ s id n Hs Hn eq_refl) as ([] & -> & Hb); simpl.
  - by apply HQ, Hb.
  - apply HE. by intros ?%Hb.
Qed.

(** ** Moving the focus inside *)

Record focused_inside (sid id : N) (st st' : ServerState) : Prop := {
  fi_consistent : consistent st';
  fi_frame : focus_frame sid st st';
  fi_actives : actives st' = actives st;
  fi_focus : ∃ s', sessions st' !! sid = Some s'
    ∧ ∀ leaf, s_focused_leaf s' = Some leaf → below st id leaf
}.

Section inside.
Context {st : ServerState} {id : N} {n : Node} {s : Session}.
Context (C : consistent st) (Hn : nodes st !! id = Some n).
Let sid : N := node_session n.
Context (Hs : sessions st !! sid = Some s) (Hos : on_screen st sid id).

Let W : wired st := in_wired _ _ _ (cs_inv _ C).

Lemma shown_below leaf :
  visible_from (nodes st) id leaf → on_screen st sid leaf.
Proof.
  destruct Hos as (r & Hv & Hr). intros Hl. exists r. split; [|exact Hr]. by etrans.
Qed.

Lemma refocus_inside_wp leaf :
  is_view st leaf → below st id leaf → visible_from (nodes st) id leaf →
  wp (focus_leaf sid leaf) (λ _, focused_inside sid id st) (λ _ _, False) st.
Proof.
  intros Hview Hb Hv.
  destruct (on_screen_focusable _ _ _ W (shown_below leaf Hv) Hview (mk_is_Some _ _ Hs))
    as (r & Hf & Hvis).
  eapply wp_mono; [by apply (focus_visible_wp sid st leaf r W (consistent_backed _ C))| |done].
  intros _ st' (He & s' & Hs' & Hl). split.
  - eapply healed_consistent; [apply C..| |exact He]. intros; by apply (cs_focus _ C).
  - apply He.
  - apply He.
  - exists s'. split; [done|]. intros leaf' ?. by simplify_eq.
Qed.

Lemma clear_inside_wp :
  wp (clear_session_focus sid) (λ _, focused_inside sid id st) (λ _ _, False) st.
Proof.
  eapply wp_mono; [apply (clear_session_focus_spec sid st s W Hs)| |done].
  intros _ st' (Hf & Ha & _ & Hs').
  assert (sessions st' !! sid = Some (s_set_focus None None s)) as Hl
    by by rewrite Hs', lookup_insert_eq.
  pose proof (ff_refocused _ _ _ Hf) as R. split; [|done|done|by exists (s_set_focus None None s)].
  destruct C as [I K A S]. split.
  - by eapply refocused_inv.
  - by eapply refocused_compact.
  - by eapply refocused_anchored.
  - eapply frame_settled; [exact W|exact Hf|exact S|]. intros s' ?. by simplify_eq.
Qed.

Lemma refocus_zoomed_wp :
  wp (refocus_zoomed_subtree sid id) (λ _, focused_inside sid id st) (λ _ _, False) st.
Proof.
  unfold refocus_zoomed_subtree. wp_step. apply (ensure_visible_wp st id n s); [done..|intros _|done].
  wp_step. eapply wp_reads_ok; [by unfold session; rewrite Hs|]. wp_step.
  assert (∃ b, match s_focused_leaf s with
               | Some leaf => node_is_descendant_of st leaf id
               | None => Ok false
               end = Ok b
               ∧ (b = true → ∀ leaf, s_focused_leaf s = Some leaf → below st id leaf))
    as (b & Hb & Hin).
  { destruct (s_focused_leaf s) as [leaf|] eqn:Hl; [|by exists false].
    destruct (cs_focus _ C _ _ Hs leaf Hl) as [[v Hv] _].
    destruct (node_is_descendant_spec (wi_forest _ W) leaf id (mk_is_Some _ _ Hv)) as (b & Hb & Hi).
    exists b. split; [done|]. intros Ht leaf' ?. simplify_eq. by apply Hi. }
  eapply wp_reads_ok; [exact Hb|]. destruct b.
  { apply wp_ret. split; [done|reflexivity|done|]. exists s. split; [done|]. by apply Hin. }
  wp_step.
  destruct (resolve_focus_candidate_spec (wi_forest _ W) id (in_remembers _ _ _ (cs_inv _ C))
    (mk_is_Some _ _ Hn)) as (o & Ho & Hc).
  eapply wp_reads_ok; [exact Ho|]. destruct o as [leaf|]; [|exact clear_inside_wp].
  destruct Hc as (Hview & Hb' & Hv). apply refocus_inside_wp; [done..|].
  apply Hv, C.
Qed.
End inside.

(** ** Zooming *)

Record zoomed_at (sid id : N) (st st' : ServerState) : Prop := {
  za_consistent : consistent st';
  za_calm : calm st st';
  za_local : local_to sid st st';
  za_session : ∃ s', sessions st' !! sid = Some s' ∧ s_zoomed_node s' = Some id
    ∧ zoom_ok st' sid s' ∧ ∀ leaf, s_focused_leaf s' = Some leaf → below st' id leaf
}.

Lemma consistent_rezoom st sid s z :
  consistent st → sessions st !! sid = Some s →
  consistent (set_sessions (insert sid (s_set_zoomed_node z s)) st).
Proof.
  intros [I K A S] Hs. split.
  - by apply rezoom_inv.
  - exact K.
  - eapply like_anchored; [by apply rezoom_like|exact A].
  - intros sid' s'. simpl. intros Hs' leaf Hl.
    assert (∃ s0, sessions st !! sid' = Some s0 ∧ s_focused_leaf s0 = Some leaf)
      as (s0 & Hs0 & Hl0).
    { rewrite lookup_insert in Hs'. case_decide; simplify_eq/=; eauto. }
    destruct (S sid' s0 Hs0 leaf Hl0) as [? ?]. split; [done|]. by apply rezoom_on_screen.
Qed.

Lemma inside_zoomed st st1 id n :
  consistent st → nodes st !! id = Some n → on_screen st (node_session n) id →
  focused_inside (node_session n) id st st1 →
  wp (session_mut (node_session n) (s_set_zoomed_node (Some id)))
    (λ _, zoomed_at (node_session n) id st) (λ _ _, False) st1.
Proof.
  intros C Hn Hos [C1 Hf Ha (s1 & Hs1 & Hl)]. pose proof (in_wired _ _ _ (cs_inv _ C)) as W.
  pose proof (ff_refocused _ _ _ Hf) as R. pose proof (rf_scrub _ _ R) as Hsc.
  eapply wp_session_mut; [done|]. split.
  - by apply consistent_rezoom.
  - etrans; [by apply calm_scrub|by apply rezoom_calm].
  - etrans; [by apply frame_local|by apply rezoom_local].
  - eexists. split; [apply lookup_insert_eq|]. split; [done|]. split.
    + intros ? [= <-]. split.
      * destruct (scrub_lookup_node Hsc _ _ Hn) as (n' & ? & _). eauto.
      * apply rezoom_on_screen; [done|]. by eapply stable_on_screen.
    + intros leaf Hl'. apply (scrub_below _ _ _ _ Hsc). by apply Hl.
Qed.

Lemma zoom_body_wp st id n s :
  consistent st → nodes st !! id = Some n → sessions st !! node_session n = Some s →
  wp (reads (λ st, ensure_node_visible_in_session st (node_session n) id) ;;
      refocus_zoomed_subtree (node_session n) id ;;
      session_mut (node_session n) (s_set_zoomed_node (Some id)))
    (λ _ st', on_screen st (node_session n) id ∧ zoomed_at (node_session n) id st st')
    (λ e st', e = InvalidInput ∧ st' = st ∧ ¬ on_screen st (node_session n) id) st.
Proof.
  intros C Hn Hs. pose proof (in_wired _ _ _ (cs_inv _ C)) as W. wp_step.
  apply (ensure_visible_wp st id n s); [done..|intros Hos|done]. wp_step.
  eapply wp_mono; [by eapply refocus_zoomed_wp| |by intros]. intros [] st1 H1.
  eapply wp_mono; [by eapply inside_zoomed| |by intros]. by intros [] st2 H2.
Qed.

Lemma zoom_node_wp st id :
  consistent st →
  wp (zoom_node id)
    (λ _ st', ∃ n, nodes st !! id = Some n ∧ on_screen st (node_session n) id
                   ∧ zoomed_at (node_session n) id st st')
    (λ _ st', st' = st ∧ ∀ n, nodes st !! id = Some n → ¬ on_screen st (node_session n) id) st.
Proof.
  intros C. pose proof (in_wired _ _ _ (cs_inv _ C)) as W. unfold zoom_node. wp_step.
  apply wp_reads. unfold node_session_id, node. destruct (nodes st !! id) as [n|] eqn:Hn; simpl; [|done].
  destruct (node_session_exists _ _ _ W (cs_anchored _ C) Hn) as [s Hs].
  eapply wp_mono; [by eapply zoom_body_wp|..].
  - intros [] st' [? ?]. by exists n.
  - intros e st' (_ & -> & ?). split; [done|]. intros. by simplify_eq.
Qed.

Lemma unzoom_session_wp st sid :
  consistent st →
  wp (unzoom_session sid)
    (λ _ st', ∃ s, sessions st !! sid = Some s ∧ consistent st' ∧ calm st st'
                   ∧ st' = set_sessions (insert sid (s_set_zoomed_node None s)) st)
    (λ e st', e = NotFound ∧ st' = st ∧ sessions st !! sid = None) st.
Proof.
  intros C. unfold unzoom_session, session_mut. destruct (sessions st !! sid) as [s|] eqn:Hs; cycle 1.
  { wp_step. apply wp_reads. unfold session. by rewrite Hs. }
  wp_step. eapply wp_reads_ok; [by unfold session; rewrite Hs|]. wp_step.
  exists s. split_and!; [done|by apply consistent_rezoom| |done].
  by apply rezoom_calm.
Qed.

Lemma toggle_zoom_node_wp st id :
  consistent st →
  wp (toggle_zoom_node id)
    (λ _ st', ∃ n s, nodes st !! id = Some n ∧ sessions st !! node_session n = Some s ∧
       if decide (s_zoomed_node s = Some id) then
         consistent st' ∧ calm st st'
         ∧ st' = set_sessions (insert (node_session n) (s_set_zoomed_node None s)) st
       else on_screen st (node_session n) id ∧ zoomed_at (node_session n) id st st')
    (λ _ st', st' = st ∧ ∀ n s, nodes st !! id = Some n → sessions st !! node_session n = Some s →
       s_zoomed_node s ≠ Some id ∧ ¬ on_screen st (node_session n) id) st.
Proof.
  intros C. pose proof (in_wired _ _ _ (cs_inv _ C)) as W. unfold toggle_zoom_node. wp_step.
  apply wp_reads. unfold node_session_id, node. destruct (nodes st !! id) as [n|] eqn:Hn; simpl; [|done].
  destruct (node_session_exists _ _ _ W (cs_anchored _ C) Hn) as [s Hs]. wp_step.
  eapply wp_reads_ok; [by unfold session; rewrite Hs|]. case_bool_decide as Hz.
  - eapply wp_session_mut; [done|]. exists n, s. split_and!; [done..|]. rewrite decide_True by done.
    split_and!; [by apply consistent_rezoom|by apply rezoom_calm|done].
  - eapply wp_mono; [by eapply zoom_body_wp|..].
    + intros [] st' [? ?]. exists n, s. by rewrite decide_False.
    + intros e st' (_ & -> & ?). split; [done|]. intros. by simplify_eq.
Qed.

(** Requests on a tree that is in no window. In a consistent state every tree is
    a session's or a popup's, so they are refused and change nothing. *)

(** The guards every such request makes on the tree it is given. *)
Lemma no_free_tree st child m :
  consistent st → nodes st !! child = Some m → parent m = None →
  is_session_root st child = false → floating_id_by_root st child = None → False.
Proof.
  intros [I C A S] Hm Hp Hr Hf. pose proof (in_wired _ _ _ I) as W.
  destruct (A child m Hm Hp) as [Hs|(fid & w & Hw & Hwr)]; [set_solver|..].
  - apply is_session_root_spec in Hs. congruence.
  - by eapply (proj1 (floating_id_by_root_None W child) Hf).
Qed.

(** The guards, run one after the other, never all pass. *)
Lemma free_tree_guards_wp {A} st child e1 e2 e3 (k : SM A) Q :
  consistent st →
  wp (p ← reads (λ st, node_parent st child);
      lift (ensure (bool_decide (p = None)) e1) ;;
      root ← gets (λ st, is_session_root st child);
      lift (ensure (negb root) e2) ;;
      popup ← gets (λ st, floating_id_by_root st child);
      lift (ensure (bool_decide (popup = None)) e3) ;; k)
    Q (λ _ st', st' = st) st.
Proof.
  intros C. wp_step. unfold node_parent.
  destruct (nodes st !! child) as [m|] eqn:Hm; cycle 1.
  { eapply wp_reads_err; [unfold node; by rewrite Hm|done]. }
  eapply wp_reads_ok; [by rewrite (node_Ok _ _ _ Hm)|]. wp_step.
  apply wp_ensure; [|done]. intros Hp%bool_decide_eq_true. wp_step. apply wp_gets. wp_step.
  apply wp_ensure; [|done]. intros Hr%negb_true_iff. wp_step. apply wp_gets. wp_step.
  apply wp_ensure; [|done]. intros Hf%bool_decide_eq_true.
  destruct (no_free_tree st child m C Hm Hp Hr Hf).
Qed.

Lemma belongs_refused st i sid (Q : unit → ServerState → Prop) :
  Q () st → wp (reads (λ st, ensure_node_belongs_to st i sid)) Q (λ _ st', st' = st) st.
Proof.
  intros HQ. apply wp_reads. unfold ensure_node_belongs_to, node_session_id, node.
  destruct (nodes st !! i) as [n|]; simpl; [|done]. by destruct (node_session n =? sid)%N.
Qed.

Lemma node_session_refused st i (Q : SessionId → ServerState → Prop) :
  (∀ n, nodes st !! i = Some n → Q (node_session n) st) →
  wp (reads (λ st, node_session_id st i)) Q (λ _ st', st' = st) st.
Proof.
  intros HQ. apply wp_reads. unfold node_session_id, node. destruct (nodes st !! i); simpl; auto.
Qed.

Lemma add_tab_sibling_at_refused st p index title child :
  consistent st →
  wp (add_tab_sibling_at p index title child) (λ _ _, False) (λ _ st', st' = st) st.
Proof.
  intros C. unfold add_tab_sibling_at, add_tab_sibling_at_with_focus. wp_step.
  apply node_session_refused. intros n _. wp_step. apply belongs_refused. wp_step.
  apply wp_ensure; [|done]. intros _. wp_step. apply wp_reads. unfold tabs_of, node.
  destruct (nodes st !! p) as [[v|s|t]|]; simpl; try done.
  exact (free_tree_guards_wp st child _ _ _ _ _ C).
Qed.

Lemma add_tab_sibling_refused st p title child :
  consistent st → wp (add_tab_sibling p title child) (λ _ _, False) (λ _ st', st' = st) st.
Proof.
  intros C. unfold add_tab_sibling. wp_step. apply wp_reads. unfold tabs_of, node.
  destruct (nodes st !! p) as [[v|s|t]|]; simpl; try done.
  exact (add_tab_sibling_at_refused st p _ title child C).
Qed.

Lemma add_root_tab_from_subtree_refused st sid title child :
  consistent st →
  wp (add_root_tab_from_subtree sid title child) (λ _ _, False) (λ _ st', st' = st) st.
Proof.
  intros C. unfold add_root_tab_from_subtree. wp_step.
  eapply wp_reads_returns; [apply root_tabs_returns| |done].
  intros p _. by apply add_tab_sibling_refused.
Qed.

Lemma wrap_node_in_split_refused st i d sibling before :
  consistent st →
  wp (wrap_node_in_split i d sibling before) (λ _ _, False) (λ _ st', st' = st) st.
Proof.
  intros C. unfold wrap_node_in_split, wrap_node_in_split_with_focus. wp_step.
  apply node_session_refused. intros n _. wp_step. apply belongs_refused. wp_step.
  apply wp_ensure; [|done]. intros _.
  exact (free_tree_guards_wp st sibling _ _ _ _ _ C).
Qed.

Lemma replace_node_refused st i replacement :
  consistent st →
  wp (replace_node i replacement) (λ _ st', st' = st ∧ i = replacement) (λ _ st', st' = st) st.
Proof.
  intros C. unfold replace_node. wp_step.
  apply node_session_refused. intros n _. wp_step. apply belongs_refused.
  destruct (N.eqb_spec i replacement) as [->|Hne]; [by apply wp_ret|]. wp_step. apply wp_gets.
  wp_step. apply wp_ensure; [|done]. intros _.
  exact (free_tree_guards_wp st replacement _ _ _ _ _ C).
Qed.
