(* ===== verification/SnapshotSpec.v ===== *)
(** Snapshots of a consistent state: the nodes and buffers of a session are
    exactly those with its id, and building the snapshot succeeds. Then the
    panes of a state, and the steps an abstract account of panes takes. *)

From stdpp Require Import relations.
From S2P Require Import Prelude Core Model Environment State Queries Protocol Snapshot.
From S2P Require Import Forest Invariant QueriesSpec FocusSpec Settle Surgery.

(** ** The nodes and buffers of a session *)

Definition nodes_of (st : ServerState) (sid : SessionId) : gset N :=
  dom (filter (λ e : N * Node, node_session e.2 = sid) (nodes st)).

Lemma elem_of_nodes_of st sid i :
  i ∈ nodes_of st sid ↔ ∃ n, nodes st !! i = Some n ∧ node_session n = sid.
Proof.
  unfold nodes_of. rewrite elem_of_dom. split.
  - intros [n [? ?]%map_lookup_filter_Some]. by exists n.
  - intros (n & ? & ?). exists n. by apply map_lookup_filter_Some.
Qed.

Definition buffers_of (st : ServerState) (sid : SessionId) : gset N :=
  list_to_set (omap (λ e : N * (N * N), if (e.2.1 =? sid)%N then Some e.2.2 else None)
    (map_to_list (views st))).

Lemma elem_of_buffers_of st sid bid :
  bid ∈ buffers_of st sid ↔ ∃ i, views st !! i = Some (sid, bid).
Proof.
  unfold buffers_of. rewrite elem_of_list_to_set, list_elem_of_omap. split.
  - intros ([i [sid' bid']] & Hin%elem_of_map_to_list & Hb). simpl in *.
    destruct (N.eqb_spec sid' sid) as [->|]; [|done]. injection Hb as ->. by exists i.
  - intros (i & Hi). exists (i, (sid, bid)). rewrite elem_of_map_to_list. simpl.
    by rewrite N.eqb_refl.
Qed.

Definition shows_panes (st : ServerState) (sid : SessionId) : Prop :=
  ∃ i bid, views st !! i = Some (sid, bid).

(** A session's nodes are those below its root and its popups' roots. *)
Section trees.
Context {st : ServerState} (W : wired st) (A : anchored st).

Lemma session_trees sid s i :
  sessions st !! sid = Some s →
  (below st (s_root_node s) i
   ∨ ∃ fid w, fid ∈ s_floating s ∧ floating st !! fid = Some w ∧ below st (f_root_node w) i) ↔
  i ∈ nodes_of st sid.
Proof.
  intros Hs. pose proof (wi_forest _ W) as F. rewrite elem_of_nodes_of. split.
  - assert (∀ r n, nodes st !! r = Some n → node_session n = sid → below st r i →
      ∃ m, nodes st !! i = Some m ∧ node_session m = sid) as Hdown.
    { intros r n Hn Hns Hb.
      destruct (below_exists F r i) as [m Hm]; [by eexists|done|].
      exists m. split; [done|]. by rewrite (below_session F r i n m Hn Hm Hb). }
    intros [Hb|(fid & w & Hin & Hw & Hb)].
    + destruct (so_root _ _ _ (wi_session _ W _ _ Hs)) as (t & Ht & _ & Hts). by apply (Hdown _ _ Ht).
    + destruct (listed_window W _ _ _ Hs Hin) as (w' & Hw' & Hws). simplify_eq.
      destruct (wo_root _ _ _ (wi_window _ W _ _ Hw)) as (n & Hn & _ & Hns).
      by apply (Hdown _ _ Hn).
  - intros (n & Hn & Hns).
    destruct (top_root_spec F i) as (r & m & _ & Hb & Hm & Hp); [by eexists|].
    pose proof (below_session F r i m n Hm Hn Hb) as He.
    destruct (A r m Hm Hp) as [(sid' & s' & Hs' & Hr)|(fid & w & Hw & Hr)]; [done|..].
    + left. destruct (so_root _ _ _ (wi_session _ W _ _ Hs')) as (t & Ht & _ & Hts).
      rewrite Hr, Hm in Ht. simplify_eq/=. congruence.
    + right. destruct (wi_window _ W _ _ Hw) as [_ (m' & Hm' & _ & Hms) (s' & Hs' & Hin & _) _].
      rewrite Hr, Hm in Hm'. simplify_eq.
      assert (f_session_id w = node_session n) as Hws by congruence.
      rewrite Hws, Hs in Hs'. simplify_eq. by exists fid, w.
Qed.
End trees.

(** ** The walks that collect them *)

Section shown.
Context {st : ServerState} (H : consistent st).
Let W : wired st := in_wired _ _ _ (cs_inv _ H).

Lemma collect_popups_spec sid s l : ∀ seen : gset N,
  sessions st !! sid = Some s → (∀ fid, fid ∈ l → fid ∈ s_floating s) →
  (∀ j k, j ∈ seen → below st j k → k ∈ seen) →
  ∃ seen', fold_ok (λ seen fid, w ← floating_window st fid;
                    collect_subtree_nodes (budget st) st seen (f_root_node w)) seen l = Ok seen'
    ∧ ∀ k, k ∈ seen' ↔ k ∈ seen
        ∨ ∃ fid w, fid ∈ l ∧ floating st !! fid = Some w ∧ below st (f_root_node w) k.
Proof.
  pose proof (wi_forest _ W) as F.
  induction l as [|fid l IH]; intros seen Hs Hl Hseen; cbn [fold_ok].
  { exists seen. split; [done|]. intros k. split; [by left|].
    intros [?|(? & ? & ?%elem_of_nil & _)]; done. }
  destruct (listed_window W _ _ fid Hs) as (w & Hw & _); [apply Hl; by left|].
  assert (floating_window st fid = Ok w) as -> by (unfold floating_window; by rewrite Hw).
  cbn [mbind outcome_bind].
  destruct (collect_subtree_spec F (f_root_node w) (window_exists W _ _ Hw) seen) as (s1 & -> & Hs1).
  { intros j k Hj _ Hjk. by apply (Hseen j). }
  cbn [mbind outcome_bind]. destruct (IH s1 Hs) as (s2 & -> & Hs2).
  { intros fid' ?. apply Hl. by right. }
  { intros j k. rewrite !Hs1. intros [Hj|Hj] Hjk; [left; by apply (Hseen j)|right].
    by transitivity j. }
  exists s2. split; [done|]. intros k. rewrite Hs2, Hs1. split.
  - intros [[?|?]|(fid' & w' & ? & ?)]; [by left| |].
    + right. exists fid, w. split_and!; [by left|done|done].
    + right. exists fid', w'. split_and!; [by right|naive_solver..].
  - intros [?|(fid' & w' & [->|?]%elem_of_cons & Hw' & ?)]; [tauto| |].
    + simplify_eq. tauto.
    + right. by exists fid', w'.
Qed.

Lemma session_node_ids_spec sid s :
  sessions st !! sid = Some s →
  session_node_ids st sid = Ok (set_to_sorted (nodes_of st sid)).
Proof.
  intros Hs. pose proof (wi_forest _ W) as F. unfold session_node_ids, session. rewrite Hs.
  cbn [ok_or mbind outcome_bind].
  destruct (collect_subtree_spec F (s_root_node s) (root_exists W _ _ Hs) ∅) as (s1 & -> & Hs1).
  { intros j k ?%elem_of_empty. done. }
  cbn [mbind outcome_bind]. destruct (collect_popups_spec sid s (s_floating s) s1 Hs) as (s2 & -> & Hs2); [done|..].
  { intros j k. rewrite !Hs1. intros [?%elem_of_empty|Hj] Hjk; [done|]. right. by transitivity j. }
  simpl. do 2 f_equal. apply set_eq. intros k. rewrite Hs2, Hs1, <-(session_trees W (cs_anchored _ H) sid s k Hs).
  set_solver.
Qed.

Lemma session_has_panes_spec sid :
  ∃ b, session_has_panes st sid = Ok b
       ∧ (b = true ↔ is_Some (sessions st !! sid) ∧ shows_panes st sid).
Proof.
  unfold session_has_panes. destruct (sessions st !! sid) as [s|] eqn:Hs.
  - rewrite (session_node_ids_spec sid s Hs). simpl. eexists. split; [done|].
    rewrite existsb_exists. split.
    + intros (i & Hin & Hi). split; [by eexists|].
      apply list_elem_of_In, elem_of_set_to_sorted, elem_of_nodes_of in Hin as (n & Hn & Hns).
      rewrite Hn in Hi. destruct n as [v| |]; try done.
      exists i, (v_buffer_id v). apply views_Some. exists v. by split_and!.
    + intros [_ (i & bid & (v & Hv & Hsid & Hb)%views_Some)]. exists i. rewrite Hv. split; [|done].
      apply list_elem_of_In, elem_of_set_to_sorted, elem_of_nodes_of. by exists (BufferView v).
  - unfold session_node_ids, session. rewrite Hs. simpl. exists false. split; [done|].
    split; [done|]. intros [[? ?] _]. done.
Qed.

Lemma sessions_with_panes_spec :
  ∃ l, sessions_with_panes st = Ok l ∧ NoDup l
       ∧ ∀ sid, sid ∈ l ↔ is_Some (sessions st !! sid) ∧ shows_panes st sid.
Proof.
  unfold sessions_with_panes.
  assert (∀ ks, ∃ flags, collect (λ sid, b ← session_has_panes st sid; Ok (sid, b)) ks = Ok flags
    ∧ flags.*1 = ks ∧ ∀ sid b, (sid, b) ∈ flags →
        (b = true ↔ is_Some (sessions st !! sid) ∧ shows_panes st sid)) as Hc.
  { induction ks as [|k ks IH]; simpl.
    { exists []. split_and!; [done..|]. intros ? ? ?%elem_of_nil. done. }
    destruct (session_has_panes_spec k) as (b & -> & Hb). destruct IH as (fl & -> & <- & Hfl).
    simpl. exists ((k, b) :: fl). split_and!; [done..|].
    intros sid b' [[= -> ->]|?]%elem_of_cons; auto. }
  destruct (Hc (keys_of (sessions st))) as (flags & -> & Hk & Hfl). simpl.
  eexists. split; [done|]. assert (NoDup flags.*1) as Hnd by (rewrite Hk; apply NoDup_keys_of).
  split.
  - clear Hc Hk Hfl. induction flags as [|[k b] flags IH]; simpl in *; [constructor|].
    apply NoDup_cons in Hnd as [Hni Hnd]. destruct b; simpl; [|by apply IH].
    constructor; [|by apply IH]. rewrite list_elem_of_omap. intros ([k' b'] & Hin & Heq).
    simpl in Heq. destruct b'; simplify_eq. apply Hni, list_elem_of_fmap. by exists (k, true).
  - intros sid. rewrite list_elem_of_omap. split.
    + intros ([k b] & Hin & Heq). simpl in Heq. destruct b; simplify_eq. by apply (Hfl sid true).
    + intros [Hs Hp]. assert (sid ∈ flags.*1) as Hin by (rewrite Hk; by apply elem_of_keys_of).
      apply list_elem_of_fmap in Hin as ([k b] & -> & Hin). exists (k, b). split; [done|]. simpl.
      rewrite (proj2 (Hfl k b Hin)); [done|]. by split.
Qed.

Lemma session_buffer_ids_spec sid s :
  sessions st !! sid = Some s →
  session_buffer_ids st sid = Ok (set_to_sorted (buffers_of st sid)).
Proof.
  intros Hs. unfold session_buffer_ids. rewrite (session_node_ids_spec sid s Hs). simpl.
  assert (∀ l seen, (∀ i, i ∈ l → is_Some (nodes st !! i)) →
    ∃ seen', fold_ok (λ (seen : gset N) id, n ← node st id;
        Ok match n with BufferView v => {[v_buffer_id v]} ∪ seen | _ => seen end) seen l = Ok seen'
      ∧ ∀ b, b ∈ seen' ↔ b ∈ seen
          ∨ ∃ i v, i ∈ l ∧ nodes st !! i = Some (BufferView v) ∧ v_buffer_id v = b) as Hf.
  { induction l as [|i l IH]; intros seen Hl; cbn [fold_ok].
    { exists seen. split; [done|]. intros b. split; [by left|].
      intros [?|(? & ? & ?%elem_of_nil & _)]; done. }
    destruct (Hl i) as [n Hn]; [by left|]. rewrite (node_Ok st i n Hn). simpl.
    destruct (IH match n with BufferView v => {[v_buffer_id v]} ∪ seen | _ => seen end)
      as (seen' & -> & Hseen). { intros ? ?. apply Hl. by right. }
    exists seen'. split; [done|]. intros b. rewrite Hseen. split.
    - intros [Hb|(j & v & ? & ?)].
      + destruct n as [v|s'|t]; [|by left..].
        apply elem_of_union in Hb as [Hb%elem_of_singleton|?]; [|by left].
        right. exists i, v. split_and!; [by left|done|done].
      + right. exists j, v. split; [by right|done].
    - intros [Hb|(j & v & [->|?]%elem_of_cons & Hv & Hb)].
      + left. destruct n; set_solver.
      + simplify_eq. left. set_solver.
      + right. by exists j, v. }
  destruct (Hf (set_to_sorted (nodes_of st sid)) ∅) as (seen & -> & Hseen).
  { intros i (n & Hn & _)%elem_of_set_to_sorted%elem_of_nodes_of. by eexists. }
  simpl. do 2 f_equal. apply set_eq. intros b. rewrite Hseen, elem_of_buffers_of. split.
  - intros [?%elem_of_empty|(i & v & Hin & Hv & <-)]; [done|].
    apply elem_of_set_to_sorted, elem_of_nodes_of in Hin as (n & Hn & Hns). simplify_eq.
    exists i. apply views_Some. by exists v.
  - intros (i & (v & Hv & Hsid & Hb)%views_Some). right. exists i, v. split_and!; [|done|done].
    apply elem_of_set_to_sorted, elem_of_nodes_of. by exists (BufferView v).
Qed.

(** ** The snapshot *)

(** Fewer than 2^32 node ids handed out: the tab indices fit the protocol. *)
Lemma tabs_fit i t :
  (node_ids st ≤ u32_modulus)%N → nodes st !! i = Some (Tabs t) →
  (N.of_nat (t_active t) < u32_modulus)%N.
Proof.
  intros Hfew Ht. pose proof (in_shaped _ _ _ (cs_inv _ H) i _ Ht (not_elem_of_empty _)) as Hok.
  simpl in Hok. destruct Hok as [Hlt|[_ ->]]; [|done].
  pose proof (children_nodup st i _ W Ht) as Hnd. simpl in Hnd.
  assert (length (te_child <$> t_tabs t) ≤ N.to_nat (node_ids st)) as Hle; cycle 1.
  { rewrite length_fmap in Hle. unfold u32_modulus in *. lia. }
  transitivity (length (N.of_nat <$> seq 0 (N.to_nat (node_ids st))));
    [|by rewrite length_fmap, length_seq].
  apply submseteq_length, NoDup_submseteq; [done|].
  intros c Hc. apply list_elem_of_fmap. exists (N.to_nat c). rewrite N2Nat.id. split; [done|].
  apply elem_of_seq. destruct (child_exists (wi_forest _ W) i (Tabs t) c Ht Hc) as (m & Hm & _).
  pose proof (fi_nodes _ (wi_fresh _ W) c (mk_is_Some _ _ Hm)). lia.
Qed.

Lemma snapshot_node_spec i n :
  (node_ids st ≤ u32_modulus)%N → nodes st !! i = Some n →
  ∃ r o, snapshot_node st i = Ok r ∧ nr_id r = i ∧ nr_session_id r = node_session n
    ∧ nr_parent_id r = parent n ∧ nr_focus_leaf_id r = o ∧ candidate_ok (st:=st) i o
    ∧ node_record n o = Ok r.
Proof.
  intros Hfew Hn. unfold snapshot_node. rewrite (node_Ok st i n Hn). simpl.
  destruct (resolve_focus_candidate_spec (wi_forest _ W) i) as (o & -> & Ho);
    [apply (cs_inv _ H)|by eexists|]. simpl.
  pose proof (wi_node_id _ W i n Hn) as Hid.
  destruct n as [v|s|t]; simpl in *.
  - eexists _, o. by split_and!.
  - eexists _, o. by split_and!.
  - rewrite (proj2 (N.ltb_lt _ _) (tabs_fit i t Hfew Hn)). eexists _, o. by split_and!.
Qed.

Lemma session_snapshot_spec sid s :
  (node_ids st ≤ u32_modulus)%N → sessions st !! sid = Some s →
  ∃ snap, session_snapshot st sid = Ok snap
    ∧ ss_session snap = session_record s
    ∧ nr_id <$> ss_nodes snap = set_to_sorted (nodes_of st sid)
    ∧ (∀ r, r ∈ ss_nodes snap → snapshot_node st (nr_id r) = Ok r)
    ∧ br_id <$> ss_buffers snap = set_to_sorted (buffers_of st sid)
    ∧ (∀ r, r ∈ ss_buffers snap → ∃ b, buffers st !! br_id r = Some b ∧ r = buffer_record b)
    ∧ fr_id <$> ss_floating snap = s_floating s
    ∧ (∀ r, r ∈ ss_floating snap → ∃ w, floating st !! fr_id r = Some w ∧ r = floating_record w).
Proof.
  intros Hfew Hs. unfold session_snapshot, session. rewrite Hs. simpl.
  rewrite (session_node_ids_spec sid s Hs). simpl.
  assert (∃ ns, collect (snapshot_node st) (set_to_sorted (nodes_of st sid)) = Ok ns
    ∧ nr_id <$> ns = set_to_sorted (nodes_of st sid)
    ∧ ∀ r, r ∈ ns → snapshot_node st (nr_id r) = Ok r) as (ns & -> & Hns & Hnr).
  { assert (∀ i, i ∈ set_to_sorted (nodes_of st sid) → is_Some (nodes st !! i)) as Hl.
    { intros i (n & Hn & _)%elem_of_set_to_sorted%elem_of_nodes_of. by eexists. }
    induction (set_to_sorted (nodes_of st sid)) as [|i l IH]; cbn [collect].
    { exists []. split_and!; [done..|]. intros ? ?%elem_of_nil. done. }
    destruct (Hl i) as [n Hn]; [by left|].
    destruct (snapshot_node_spec i n Hfew Hn) as (r & o & Hr & Hid & _). rewrite Hr. simpl.
    destruct IH as (rs & -> & <- & Hrs). { intros ? ?. apply Hl. by right. }
    simpl. exists (r :: rs). split_and!; [done|simpl; by rewrite Hid|].
    intros r' [->|?]%elem_of_cons; [by rewrite Hid|auto]. }
  simpl. rewrite (session_buffer_ids_spec sid s Hs). simpl.
  assert (∃ bs, collect (λ bid, b ← buffer st bid; Ok (buffer_record b))
      (set_to_sorted (buffers_of st sid)) = Ok bs
    ∧ br_id <$> bs = set_to_sorted (buffers_of st sid)
    ∧ ∀ r, r ∈ bs → ∃ b, buffers st !! br_id r = Some b ∧ r = buffer_record b)
    as (bs & -> & Hbs & Hbr).
  { assert (∀ b, b ∈ set_to_sorted (buffers_of st sid) → is_Some (buffers st !! b)) as Hl.
    { intros b (i & (v & Hv & _ & <-)%views_Some)%elem_of_set_to_sorted%elem_of_buffers_of.
      by apply (consistent_backed _ H i). }
    induction (set_to_sorted (buffers_of st sid)) as [|bid l IH]; cbn [collect].
    { exists []. split_and!; [done..|]. intros ? ?%elem_of_nil. done. }
    destruct (Hl bid) as [b Hb]; [by left|]. assert (buffer st bid = Ok b) as -> by (unfold buffer; by rewrite Hb). simpl.
    destruct IH as (rs & -> & <- & Hrs). { intros ? ?. apply Hl. by right. }
    assert (br_id (buffer_record b) = bid) as Hid.
    { rewrite <-(wi_buffer_id _ W bid b Hb). unfold buffer_record.
      by destruct (b_state b), (b_kind b). }
    simpl. exists (buffer_record b :: rs). split_and!; [done|simpl; by rewrite Hid|].
    intros r' [->|?]%elem_of_cons; [exists b; by rewrite Hid|auto]. }
  simpl.
  assert (∃ fs, collect (λ fid, w ← floating_window st fid; Ok (floating_record w)) (s_floating s)
      = Ok fs ∧ fr_id <$> fs = s_floating s
    ∧ ∀ r, r ∈ fs → ∃ w, floating st !! fr_id r = Some w ∧ r = floating_record w)
    as (fs & -> & Hfs & Hfr).
  { assert (∀ fid, fid ∈ s_floating s → ∃ w, floating st !! fid = Some w ∧ f_id w = fid) as Hl.
    { intros fid Hin. destruct (listed_window W _ _ _ Hs Hin) as (w & Hw & _). exists w.
      split; [done|]. apply (wi_window _ W _ _ Hw). }
    induction (s_floating s) as [|fid l IH]; cbn [collect].
    { exists []. split_and!; [done..|]. intros ? ?%elem_of_nil. done. }
    destruct (Hl fid) as (w & Hw & Hid); [by left|]. assert (floating_window st fid = Ok w) as -> by (unfold floating_window; by rewrite Hw). simpl.
    destruct IH as (rs & -> & <- & Hrs). { intros ? ?. apply Hl. by right. }
    assert (fr_id (floating_record w) = fid) as Hid' by done.
    simpl. exists (floating_record w :: rs). split_and!; [done|by rewrite fmap_cons, Hid'|].
    intros r' [->|?]%elem_of_cons; [exists w; by rewrite Hid'|auto]. }
  simpl. assert (existsb (λ n, nr_id n =? s_root_node s)%N ns = true) as ->.
  { apply existsb_exists.
    assert (s_root_node s ∈ nr_id <$> ns) as (r & Hr & Hin)%list_elem_of_fmap.
    { rewrite Hns, elem_of_set_to_sorted, <-(session_trees W (cs_anchored _ H) sid s _ Hs). left. reflexivity. }
    exists r. split; [by apply list_elem_of_In|]. by apply N.eqb_eq. }
  simpl. eexists. split; [done|]. by split_and!.
Qed.
End shown.

(** An abstract account of the workspace: which pane of which session shows which
    buffer. A pane opens on a buffer no pane shows, closes, or shows another
    buffer that no pane shows; it never changes session. The server's operations
    are shown to follow it. *)

(** The panes, by node id: the session and the buffer of each. *)
Abbreviation panes := (gmap N (N * N)).

Definition unused (vs : panes) (bid : N) : Prop := ∀ i p, vs !! i = Some p → p.2 ≠ bid.

Inductive pane_step : panes → panes → Prop :=
  | pane_opens vs i sid bid :
      vs !! i = None → unused vs bid → pane_step vs (<[i := (sid, bid)]> vs)
  | pane_closes vs i : is_Some (vs !! i) → pane_step vs (delete i vs)
  | pane_shows vs i sid old bid :
      vs !! i = Some (sid, old) → unused vs bid → pane_step vs (<[i := (sid, bid)]> vs).

(** A buffer is shown by one pane at most. *)
Definition panes_ok (vs : panes) : Prop :=
  ∀ i j p q, vs !! i = Some p → vs !! j = Some q → p.2 = q.2 → i = j.

Lemma panes_put_ok vs i p : panes_ok vs → unused vs p.2 → panes_ok (<[i := p]> vs).
Proof.
  intros Hok Hu a b x y. rewrite !lookup_insert.
  repeat case_decide; subst; intros Ha Hb He; simplify_eq; try done.
  - by destruct (Hu _ _ Hb).
  - by destruct (Hu _ _ Ha).
  - by apply (Hok a b x y).
Qed.
Lemma pane_step_ok vs vs' : pane_step vs vs' → panes_ok vs → panes_ok vs'.
Proof.
  intros [] Hok; [by apply panes_put_ok| |by apply panes_put_ok].
  intros a b x y [_ Ha]%lookup_delete_Some [_ Hb]%lookup_delete_Some. by apply Hok.
Qed.
Lemma pane_steps_ok vs vs' : rtc pane_step vs vs' → panes_ok vs → panes_ok vs'.
Proof. induction 1; eauto using pane_step_ok. Qed.

(** Panes close one by one. *)
Lemma panes_close vs vs' : vs' ⊆ vs → rtc pane_step vs vs'.
Proof.
  intros Hs. remember (vs ∖ vs') as d eqn:Hd. revert vs Hs Hd.
  induction d as [|i p d Hi IH] using map_ind; intros vs Hs Hd.
  - assert (vs = vs') as ->; [|reflexivity]. apply (anti_symm (⊆)); [|done].
    apply map_subseteq_spec. intros i p Hp. destruct (vs' !! i) as [q|] eqn:Hq.
    + pose proof (lookup_weaken _ _ _ _ Hq Hs). congruence.
    + assert ((vs ∖ vs') !! i = Some p) as H by by apply lookup_difference_Some.
      by rewrite <-Hd, lookup_empty in H.
  - assert ((vs ∖ vs') !! i = Some p) as [Hp Hq]%lookup_difference_Some.
    { rewrite <-Hd. apply lookup_insert_eq. }
    eapply rtc_l; [by apply (pane_closes vs i); eauto|]. apply IH.
    + apply map_subseteq_spec. intros j q Hj. rewrite lookup_delete_ne.
      * by eapply lookup_weaken.
      * intros ->. congruence.
    + apply map_eq. intros j. destruct (decide (j = i)) as [->|Hne].
      * rewrite Hi. symmetry. apply lookup_difference_None. left. apply lookup_delete_eq.
      * apply (f_equal (lookup j)) in Hd. rewrite lookup_insert_ne in Hd by done. rewrite Hd.
        unfold difference, map_difference, difference_with, map_difference_with.
        rewrite !lookup_merge. by rewrite lookup_delete_ne.
Qed.

(** ** The panes of a consistent state *)

Lemma consistent_panes st : consistent st → panes_ok (views st).
Proof.
  intros C i j [s b] [s' b'] (v & Hv & _ & Hb)%views_Some (v' & Hv' & _ & Hb')%views_Some. simpl.
  intros <-. destruct (in_attached _ _ _ (cs_inv _ C)) as [_ A _].
  destruct (A i v Hv (not_elem_of_empty _)) as (x & Hx & Ha).
  destruct (A j v' Hv' (not_elem_of_empty _)) as (x' & Hx' & Ha'). congruence.
Qed.

Lemma fresh_pane st : wired st → views st !! node_ids st = None.
Proof.
  intros W. apply views_None. intros v Hv.
  pose proof (fi_nodes _ (wi_fresh _ W) _ (mk_is_Some _ _ Hv)). lia.
Qed.

(** A pane was put on a buffer, after some panes closed. *)
Lemma panes_put st' vs vs0 i sid bid :
  consistent st' → views st' = <[i := (sid, bid)]> vs0 → vs0 ⊆ vs →
  (∀ p, vs0 !! i = Some p → p.1 = sid) → rtc pane_step vs (views st').
Proof.
  intros C He Hsub Hsid. etrans; [by apply panes_close|]. pose proof (consistent_panes _ C) as Hok.
  rewrite He in Hok |- *.
  destruct (vs0 !! i) as [[s b]|] eqn:Hi.
  - specialize (Hsid _ eq_refl). simpl in Hsid. subst s. destruct (decide (b = bid)) as [->|Hne].
    + rewrite insert_id by done. reflexivity.
    + apply rtc_once. eapply pane_shows; [exact Hi|]. intros j [s' b'] Hj. simpl. intros ->.
      destruct (decide (j = i)) as [->|Hji]; [congruence|]. apply Hji.
      apply (Hok j i (s', bid) (sid, bid)); [by rewrite lookup_insert_ne|by rewrite lookup_insert_eq|done].
  - apply rtc_once. apply pane_opens; [exact Hi|]. intros j [s' b'] Hj. simpl. intros ->.
    assert (j ≠ i) as Hji by congruence. apply Hji.
    apply (Hok j i (s', bid) (sid, bid)); [by rewrite lookup_insert_ne|by rewrite lookup_insert_eq|done].
Qed.
