(* ===== verification/PersistSpec.v ===== *)
(** The check a workspace makes of itself, and saving and loading it. *)

From stdpp Require Import relations.
From S2P Require Import Prelude Core Model Environment State Queries Buffers Focus.
From S2P Require Import Tree Layout Validate Persist Forest Invariant QueriesSpec.
From S2P Require Import FocusSpec Settle Surgery Cosmetic Closing SnapshotSpec.

(** [validate] accepts every consistent state whose zoomed panes are on screen:
    what the server saves from such a state passes the check of a restore. *)

Lemma fold_ok_fmap {A B C} (g : C → A) (f : B → A → outcome B) l b :
  fold_ok f b (g <$> l) = fold_ok (λ b x, f b (g x)) b l.
Proof. revert b. induction l as [|x l IH]; intros b; [done|]. simpl. by destruct (f b (g x)); simpl. Qed.

(** What [validate] looks at: a consistent state without its memory of the panes
    that had the focus, and with its zoomed nodes on screen. *)
Record valid (st : ServerState) : Prop := {
  va_wired : wired st;
  va_shaped : shaped ∅ st;
  va_attached : attached_but ∅ st;
  va_anchored : anchored st;
  va_focus : focus_settled st;
  va_zoom : zoom_settled st
}.

Lemma consistent_valid st : consistent st → zoom_settled st → valid st.
Proof. intros [[] ? ? ?] ?. by split. Qed.

Section valid.
Context {st : ServerState} (C : valid st).
Let W : wired st := va_wired _ C.
Let F : forest (layout (nodes st)) := wi_forest _ W.

(** ** Trees *)

(** Siblings have no node in common below them. *)
Lemma siblings_apart p n c d k :
  nodes st !! p = Some n → c ∈ child_ids n → d ∈ child_ids n →
  below st c k → below st d k → c = d.
Proof.
  intros Hp Hc Hd Hck Hdk.
  assert (∀ a b, a ∈ child_ids n → b ∈ child_ids n → below st a b → a = b) as Hone.
  { intros a b Ha Hb Hab. destruct (child_exists F p n b Hp Hb) as (m & Hm & Hmp & _).
    destruct (below_parent F _ _ _ Hm Hab) as [->|(q & Hq & Haq)]; [done|]. exfalso.
    assert (q = p) as -> by congruence. apply (acyclic F p).
    eapply tc_rtc_r; [|exact Haq]. constructor. apply layout_edge. eauto. }
  destruct (reach_comparable F c d k Hck Hdk); [|symmetry]; by apply Hone.
Qed.

(** The nodes of a tree none of which was seen are added to the seen ones. *)
Definition adds_tree (fuel : nat) (i : N) : Prop := ∀ n (seen : gset N),
  nodes st !! i = Some n → (∀ k, below st i k → k ∉ seen) →
  ∃ seen', validate_subtree_in fuel st (node_session n) (parent n) seen i = Ok seen'
           ∧ ∀ k, k ∈ seen' ↔ k ∈ seen ∨ below st i k.

Lemma adds_children fuel p n : 
  nodes st !! p = Some n → (∀ c, c ∈ child_ids n → adds_tree fuel c) →
  ∀ seen : gset N, (∀ k, below st p k → k ∉ seen) →
  ∃ seen', fold_ok (validate_subtree_in fuel st (node_session n) (Some p)) ({[p]} ∪ seen) (child_ids n)
             = Ok seen'
           ∧ ∀ k, k ∈ seen' ↔ k ∈ seen ∨ below st p k.
Proof.
  intros Hp IH seen Hseen. pose proof (children_nodup st p n W Hp) as Hnd.
  assert (∀ cs dn, child_ids n = dn ++ cs →
    ∀ acc : gset N, (∀ x, x ∈ acc ↔ x = p ∨ x ∈ seen ∨ ∃ c, c ∈ dn ∧ below st c x) →
    ∃ seen', fold_ok (validate_subtree_in fuel st (node_session n) (Some p)) acc cs = Ok seen'
      ∧ ∀ k, k ∈ seen' ↔ k = p ∨ k ∈ seen ∨ ∃ c, c ∈ child_ids n ∧ below st c k) as Hfold.
  { induction cs as [|c cs IHcs]; intros dn Heq acc Hacc; cbn [fold_ok].
    { exists acc. split; [done|]. intros k. by rewrite Hacc, Heq, app_nil_r. }
    assert (c ∈ child_ids n) as Hc by (rewrite Heq; set_solver).
    destruct (child_exists F p n c Hp Hc) as (m & Hm & Hmp & Hms).
    destruct (IH c Hc m acc Hm) as (acc' & Hv & Hacc').
    { intros k Hck Hk. apply Hacc in Hk as [->|[Hk|(d & Hd & Hdk)]].
      - apply (acyclic F p). eapply tc_rtc_r; [|exact Hck]. constructor. apply layout_edge. eauto.
      - apply (Hseen k); [|done]. eapply rtc_l; [|done]. apply layout_edge. eauto.
      - assert (d = c) as ->.
        { apply (siblings_apart p n d c k); [done| |done..]. rewrite Heq. set_solver. }
        rewrite Heq in Hnd. apply NoDup_app in Hnd as (_ & Hnd & _). by apply (Hnd c Hd); left. }
    rewrite <-Hms, <-Hmp. rewrite Hv. cbn [mbind outcome_bind]. rewrite Hms, Hmp.
    apply (IHcs (dn ++ [c])); [by rewrite <-app_assoc|].
    intros x. rewrite Hacc', Hacc. setoid_rewrite elem_of_app.
    setoid_rewrite list_elem_of_singleton. naive_solver. }
  destruct (Hfold (child_ids n) [] eq_refl ({[p]} ∪ seen)) as (seen' & Hf & Hs').
  { intros x. rewrite elem_of_union, elem_of_singleton. split; [naive_solver|].
    intros [?|[?|(c & ?%elem_of_nil & _)]]; [by left|by right|done]. }
  exists seen'. split; [exact Hf|]. intros k. rewrite Hs'. split.
  - intros [->|[?|(c & Hc & ?)]]; [right; reflexivity|by left|]. right.
    eapply rtc_l; [|done]. apply layout_edge. eauto.
  - intros [?|Hk]; [auto|]. apply (below_inv _ n) in Hk as [->|(c & ? & ?)]; eauto.
Qed.

Lemma validate_subtree_spec i n (seen : gset N) :
  nodes st !! i = Some n → (∀ k, below st i k → k ∉ seen) →
  ∃ seen', validate_subtree st (node_session n) (parent n) seen i = Ok seen'
           ∧ ∀ k, k ∈ seen' ↔ k ∈ seen ∨ below st i k.
Proof.
  intros Hi. assert (is_Some (nodes st !! i)) as Hex by eauto. revert i Hex n seen Hi.
  apply (walk_down F adds_tree). intros fuel i n Hi IH n' seen Hn' Hseen. simplify_eq.
  cbn [validate_subtree_in]. rewrite (node_Ok _ _ _ Hi). cbn [mbind outcome_bind].
  rewrite N.eqb_refl, (bool_decide_eq_true_2 (parent n = parent n)) by done.
  cbn [ensure mbind outcome_bind].
  rewrite (bool_decide_eq_false_2 (i ∈ seen)) by (apply Hseen; reflexivity). cbn [negb ensure mbind outcome_bind].
  pose proof (va_shaped _ C i n Hi (not_elem_of_empty _)) as Hok.
  destruct (adds_children fuel i n Hi IH seen Hseen) as (seen' & Hf & Hs').
  destruct n as [v|s|t]; simpl in Hok, Hf.
  - exists ({[i]} ∪ seen). split; [done|]. simplify_eq. intros k. by rewrite Hs'.
  - rewrite (proj2 (Nat.leb_le _ _) (proj1 Hok)), (proj2 (Nat.eqb_eq _ _) (proj2 Hok)).
    cbn [ensure mbind outcome_bind]. by exists seen'.
  - rewrite (fold_ok_fmap te_child) in Hf.
    assert (match t_tabs t with [] => t_active t =? 0 | _ => t_active t <? length (t_tabs t) end
            = true) as ->; [|by exists seen'].
    destruct Hok as [Hlt|[Htabs Hact]].
    + destruct (t_tabs t); [simpl in Hlt; lia|]. by apply Nat.ltb_lt.
    + rewrite Htabs. by apply Nat.eqb_eq.
Qed.

(** ** Sessions *)

Lemma validate_windows sid s l : ∀ seen : gset N,
  sessions st !! sid = Some s → NoDup l → (∀ fid, fid ∈ l → fid ∈ s_floating s) →
  (∀ fid w k, fid ∈ l → floating st !! fid = Some w → below st (f_root_node w) k → k ∉ seen) →
  ∃ seen', fold_ok (validate_window st s) seen l = Ok seen'
    ∧ ∀ k, k ∈ seen' ↔ k ∈ seen
        ∨ ∃ fid w, fid ∈ l ∧ floating st !! fid = Some w ∧ below st (f_root_node w) k.
Proof.
  induction l as [|fid l IH]; intros seen Hs Hnd Hl Hseen; cbn [fold_ok].
  { exists seen. split; [done|]. intros k. split; [by left|].
    intros [?|(? & ? & ?%elem_of_nil & _)]; done. }
  apply NoDup_cons in Hnd as [Hni Hnd].
  destruct (listed_window W _ _ fid Hs) as (w & Hw & Hws); [apply Hl; by left|].
  destruct (wi_window _ W _ _ Hw) as [_ (n & Hn & Hp & Hns) (s' & Hs' & _ & Hne) _].
  assert (s' = s) as -> by congruence.
  pose proof (so_id _ _ _ (wi_session _ W _ _ Hs)) as Hid.
  assert (∀ k, below st (f_root_node w) k → k ∉ seen) as Hfree.
  { intros k Hk. by apply (Hseen fid w k (list_elem_of_here _ _)). }
  destruct (validate_subtree_spec (f_root_node w) n seen Hn Hfree) as (s1 & Hv & Hs1).
  assert (validate_window st s seen fid = Ok s1) as ->.
  { unfold validate_window, floating_window. rewrite Hw. cbn [ok_or mbind outcome_bind].
    rewrite Hws, Hid, N.eqb_refl. cbn [ensure mbind outcome_bind].
    rewrite (proj2 (N.eqb_neq _ _) Hne). cbn [negb ensure mbind outcome_bind].
    unfold node_parent. rewrite (node_Ok _ _ _ Hn). cbn [mbind outcome_bind].
    rewrite Hp. rewrite (bool_decide_eq_true_2 (None = None)) by done.
    cbn [ensure mbind outcome_bind]. rewrite <-Hv. f_equal; congruence. }
  cbn [mbind outcome_bind]. destruct (IH s1 Hs Hnd) as (s2 & Hf & Hs2).
  { intros fid' ?. apply Hl. by right. }
  { intros fid' w' k Hin Hw' Hk Hseen1. apply Hs1 in Hseen1 as [Hin1|Hk1].
    - by apply (Hseen fid' w' k (list_elem_of_further _ _ _ Hin) Hw' Hk).
    - destruct (wo_root _ _ _ (wi_window _ W _ _ Hw')) as (n' & Hn' & Hp' & _).
      assert (f_root_node w = f_root_node w') as He.
      { apply (top_unique F _ _ k); [apply layout_is_root; eauto..|done|done]. }
      assert (fid = fid') as <- by by eapply (wi_roots _ W). done. }
  exists s2. split; [exact Hf|]. intros k. rewrite Hs2, Hs1. split.
  - intros [[?|?]|(fid' & w' & ? & ?)]; [by left| |].
    + right. exists fid, w. split_and!; [by left|done|done].
    + right. exists fid', w'. split_and!; [by right|naive_solver..].
  - intros [?|(fid' & w' & [->|?]%elem_of_cons & Hw' & ?)]; [tauto| |].
    + simplify_eq. tauto.
    + right. by exists fid', w'.
Qed.

Lemma validate_shown sid s id n :
  sessions st !! sid = Some s → nodes st !! id = Some n → on_screen st sid id →
  (visible ← is_node_visible_in_session st (s_id s) id; ensure visible Conflict) = Ok ().
Proof.
  intros Hs Hn Hos. rewrite (so_id _ _ _ (wi_session _ W _ _ Hs)).
  pose proof (on_screen_session W _ _ _ Hn Hos) as Hns.
  destruct (is_node_visible_in_session_spec W sid s id n Hs Hn Hns) as (b & -> & Hb).
  by rewrite (proj2 Hb Hos).
Qed.

Lemma validate_session_spec sid s (seen : gset N) :
  sessions st !! sid = Some s → (∀ k, k ∈ nodes_of st sid → k ∉ seen) →
  ∃ seen', validate_session st seen s = Ok seen'
           ∧ ∀ k, k ∈ seen' ↔ k ∈ seen ∨ k ∈ nodes_of st sid.
Proof.
  intros Hs Hseen. pose proof (wi_session _ W _ _ Hs) as So.
  destruct (so_root _ _ _ So) as (t & Ht & Htp & Hts).
  pose proof (session_trees W (va_anchored _ C) sid s) as Htrees.
  destruct (validate_subtree_spec (s_root_node s) (Tabs t) seen Ht) as (s1 & Hv & Hs1).
  { intros k Hk. apply Hseen, (Htrees k Hs). by left. }
  destruct (validate_windows sid s (s_floating s) s1 Hs (so_nodup _ _ _ So)) as (s2 & Hf & Hs2); [done|..].
  { intros fid w k Hin Hw Hk Hk1. apply Hs1 in Hk1 as [Hk1|Hk1].
    - apply (Hseen k); [|done]. apply (Htrees k Hs). right. eauto.
    - destruct (wi_window _ W _ _ Hw) as [_ (n & Hn & Hp & _) (s' & Hs' & _ & Hne) _].
      destruct (listed_window W _ _ fid Hs Hin) as (w' & Hw' & Hws).
      assert (s' = s) as -> by congruence. simplify_eq.
      apply Hne. by apply (top_unique F _ _ k); [apply layout_is_root; eauto..|done|]. }
  exists s2. split.
  - unfold validate_session. rewrite (node_Ok _ _ _ Ht). cbn [mbind outcome_bind].
    simpl parent. rewrite Htp. rewrite (bool_decide_eq_true_2 (None = None)) by done. cbn [is_tabs ensure mbind outcome_bind].
    simpl in Hv. rewrite Hts, Htp in Hv. rewrite (so_id _ _ _ So), Hv. cbn [mbind outcome_bind].
    rewrite Hf. cbn [mbind outcome_bind].
    assert (validate_focus st s = Ok ()) as ->.
    { unfold validate_focus. destruct (s_focused_leaf s) as [leaf|] eqn:Hl; [|done].
      destruct (va_focus _ C sid s Hs leaf Hl) as [[v Hvw] Hos].
      rewrite (node_Ok _ _ _ Hvw). cbn [mbind outcome_bind is_buffer_view ensure].
      by apply (validate_shown sid s leaf (BufferView v)). }
    cbn [mbind outcome_bind].
    assert (validate_zoom st s = Ok ()) as ->; [|done].
    unfold validate_zoom. destruct (s_zoomed_node s) as [id|] eqn:Hz; [|done].
    destruct (va_zoom _ C sid s Hs id Hz) as [[n Hn] Hos].
    rewrite bool_decide_eq_true_2 by eauto. cbn [ensure mbind outcome_bind].
    rewrite (node_Ok _ _ _ Hn). cbn [mbind outcome_bind].
    rewrite (on_screen_session W _ _ _ Hn Hos), (so_id _ _ _ So), N.eqb_refl.
    cbn [ensure mbind outcome_bind]. rewrite <-(so_id _ _ _ So).
    by apply (validate_shown sid s id n).
  - intros k. rewrite Hs2, Hs1, <-(Htrees k Hs). tauto.
Qed.

Lemma validate_sessions l : ∀ seen : gset N,
  NoDup l.*1 → (∀ e, e ∈ l → sessions st !! e.1 = Some e.2) →
  (∀ e k, e ∈ l → k ∈ nodes_of st e.1 → k ∉ seen) →
  ∃ seen', fold_ok (validate_session st) seen l.*2 = Ok seen'
    ∧ ∀ k, k ∈ seen' ↔ k ∈ seen ∨ ∃ e, e ∈ l ∧ k ∈ nodes_of st e.1.
Proof.
  induction l as [|[sid s] l IH]; intros seen Hnd Hl Hseen; cbn [fold_ok fmap list_fmap].
  { exists seen. split; [done|]. intros k. split; [by left|]. intros [?|(e & ?%elem_of_nil & _)]; done. }
  apply NoDup_cons in Hnd as [Hni Hnd].
  destruct (validate_session_spec sid s seen) as (s1 & Hv & Hs1).
  { by apply (Hl (sid, s)); left. }
  { intros k. by apply (Hseen (sid, s)); left. }
  simpl. rewrite Hv. cbn [mbind outcome_bind]. destruct (IH s1 Hnd) as (s2 & Hf & Hs2).
  { intros e ?. apply Hl. by right. }
  { intros e k He Hk Hk1. apply Hs1 in Hk1 as [Hk1|Hk1].
    - apply (Hseen e k); [by right|done|done].
    - apply elem_of_nodes_of in Hk as (n & Hn & Hns), Hk1 as (n' & Hn' & Hns').
      apply Hni, list_elem_of_fmap. exists e. split; [|done]. simpl in *. congruence. }
  exists s2. split; [exact Hf|]. intros k. rewrite Hs2, Hs1. split.
  - intros [[?|?]|(e & ? & ?)]; [by left|right; exists (sid, s); split; [by left|done]|].
    right. exists e. split; [by right|done].
  - intros [?|(e & [->|?]%elem_of_cons & ?)]; [tauto|tauto|]. right. eauto.
Qed.

Lemma fold_ok_unit {A} (f : A → outcome unit) l :
  (∀ x, x ∈ l → f x = Ok ()) → fold_ok (λ _, f) () l = Ok ().
Proof.
  induction l as [|x l IH]; intros Hf; [done|]. simpl. rewrite Hf by (by left). simpl.
  apply IH. intros y ?. apply Hf. by right.
Qed.

Lemma validate_attachment_ok bid b :
  buffers st !! bid = Some b → validate_attachment st (bid, b) = Ok ().
Proof.
  intros Hb. unfold validate_attachment. simpl. destruct (b_attachment b) as [i|] eqn:Ha; [|done].
  destruct (at_buffer _ _ (va_attached _ C) bid b i Hb Ha) as (v & Hv & <-).
  rewrite (node_Ok _ _ _ Hv). cbn [mbind outcome_bind]. by rewrite N.eqb_refl.
Qed.

Lemma validate_view_ok i n : nodes st !! i = Some n → validate_view st n = Ok ().
Proof.
  intros Hn. destruct n as [v|s|t]; [|done..]. simpl.
  destruct (at_view _ _ (va_attached _ C) i v Hn (not_elem_of_empty _))
    as (b & Hb & Ha).
  unfold buffer. rewrite Hb. cbn [ok_or mbind outcome_bind].
  pose proof (wi_node_id _ W i _ Hn) as Hid. simpl in Hid. rewrite Hid, Ha.
  by rewrite bool_decide_eq_true_2.
Qed.

Lemma validate_valid : validate st = Ok ().
Proof.
  unfold validate, values_of.
  destruct (validate_sessions (entries (sessions st)) ∅) as (seen & Hf & Hseen).
  { exact (NoDup_keys_of (sessions st)). }
  { intros [sid s] He. by apply elem_of_entries. }
  { intros e k _ _ ?%elem_of_empty. done. }
  rewrite Hf. cbn [mbind outcome_bind].
  assert (forallb (λ id, bool_decide (id ∈ seen) || is_detached_empty_tabs_node st id)
            (keys_of (nodes st)) = true) as ->.
  { apply forallb_forall. intros i Hi%list_elem_of_In%elem_of_keys_of. destruct Hi as [n Hn].
    rewrite bool_decide_eq_true_2; [done|]. apply Hseen. right.
    destruct (node_session_exists st i n W (va_anchored _ C) Hn) as [s Hs].
    exists (node_session n, s). split; [by apply elem_of_entries|].
    apply elem_of_nodes_of. by exists n. }
  cbn [ensure mbind outcome_bind]. rewrite (fold_ok_unit (validate_attachment st)).
  - cbn [mbind outcome_bind]. apply (fold_ok_unit (validate_view st)).
    intros n (i & Hi)%elem_of_values_of. by apply (validate_view_ok i).
  - intros [bid b] Hb%elem_of_entries. by apply validate_attachment_ok.
Qed.
End valid.

(** A saved workspace loads again: the state [load_workspace] rebuilds from
    [to_persisted] is the saved one, apart from what the format leaves out. *)

(** ** What a save keeps *)

(** A time, to the millisecond. *)
Definition kept_time (t : Timestamp) : Timestamp :=
  (Z.of_N (timestamp_to_millis t) * nanos_per_milli)%Z.

(** The focus history starts afresh. *)
Definition kept_session (s : Session) : Session :=
  mkSession (s_id s) (s_name s) (s_root_node s) (s_floating s) (s_focused_leaf s)
    (s_focused_floating s) (s_zoomed_node s) (s_viewport s) (s_pane_titles s) (s_base_index s)
    [] (kept_time (s_created_at s)).

(** A running buffer is interrupted until its runtime is taken up again; the
    lines of a helper, the pipe and the counters of the runtime are not saved. *)
Definition kept_buffer_state (s : BufferState) : BufferState :=
  match s with
  | Created => Created
  | Running pid => Interrupted pid
  | Interrupted pid => Interrupted pid
  | Exited exit_code exited_at => Exited exit_code (kept_time exited_at)
  end.
Definition kept_buffer (b : Buffer) : Buffer := {|
  b_id := b_id b; b_title := b_title b; b_command := b_command b; b_cwd := b_cwd b;
  b_env := b_env b; b_user_options := b_user_options b;
  b_foreground_command := b_foreground_command b; b_placement := b_placement b;
  b_state := kept_buffer_state (b_state b); b_attachment := b_attachment b;
  b_pty_size := b_pty_size b; b_activity := b_activity b; b_last_snapshot_seq := 0;
  b_kind := match b_kind b with
            | KPty => KPty
            | KHelper h => KHelper (mkHelperBuffer (source_buffer_id h) (scope h) [])
            end;
  b_pipe := None; b_created_at := kept_time (b_created_at b); b_ever_attached := true;
  b_runtime_bell_sequence := 0; b_watched := false
|}.

(** Pane synchronization is off again. *)
Definition kept_node (n : Node) : Node :=
  match n with
  | BufferView v => BufferView v
  | Split s => Split s
  | Tabs t => Tabs (t_set_tabs (te_set_synchronize false <$> t_tabs t) (t_active t) t)
  end.

(** ** The records *)

Lemma time_roundtrip t : timestamp_from_millis (timestamp_to_millis t) = Ok (kept_time t).
Proof.
  unfold timestamp_from_millis.
  assert (timestamp_to_millis t / 1000 <= u64_max / 1000)%N as H.
  { apply N.Div0.div_le_mono. unfold timestamp_to_millis. lia. }
  rewrite (proj2 (N.leb_le _ _)); [done|]. etrans; [exact H|]. vm_compute. discriminate.
Qed.

Lemma session_roundtrip s : restored_session (persisted_session s) = Ok (kept_session s).
Proof. unfold restored_session. simpl. by rewrite time_roundtrip. Qed.

Lemma buffer_roundtrip b : restored_buffer (persisted_buffer b) = Ok (kept_buffer b).
Proof.
  unfold restored_buffer. simpl.
  assert (restored_buffer_state (persisted_buffer_state (b_state b))
    = Ok (kept_buffer_state (b_state b))) as ->.
  { destruct (b_state b); simpl; [done..|]. by rewrite time_roundtrip. }
  cbn [mbind outcome_bind]. rewrite time_roundtrip. cbn [mbind outcome_bind].
  unfold kept_buffer. do 2 f_equal.
  - by destruct (b_placement b).
  - by destruct (b_attachment b).
  - by destruct (b_kind b).
Qed.

Lemma node_roundtrip n : restored_node (persisted_node n) = kept_node n.
Proof.
  destruct n as [[? ? ? ? []]|[]|[? ? ? tabs ? ?]]; [done..|]. simpl. do 2 f_equal.
  rewrite <-list_fmap_compose. done.
Qed.

Lemma floating_roundtrip w : restored_floating (persisted_floating w) = w.
Proof. by destruct w. Qed.

(** ** The maps *)

Definition of_entries {V} (l : list (N * V)) : gmap N V := list_to_map l.

Lemma restore_values {P V} (restore : P → outcome V) (key : V → N) (save : V → P) (f : V → V)
    (m : gmap N V) :
  (∀ k x, m !! k = Some x → restore (save x) = Ok (f x) ∧ key (f x) = k) →
  restore_all restore key (save <$> values_of m) = Ok (f <$> m).
Proof.
  intros Hr. unfold restore_all, values_of.
  assert (∀ l acc, NoDup l.*1 → (∀ e, e ∈ l → m !! e.1 = Some e.2) →
    (∀ e, e ∈ l → acc !! e.1 = None) →
    fold_ok (λ m p, x ← restore p;
        match m !! key x with Some _ => Err Internal | None => Ok (<[key x := x]> m) end)
      acc (save <$> l.*2)
    = Ok ((f <$> of_entries l) ∪ acc)) as Hf.
  { induction l as [|[k x] l IH]; intros acc Hnd Hm Hacc; cbn [fold_ok fmap list_fmap fst snd].
    { unfold of_entries. simpl. by rewrite fmap_empty, (left_id_L ∅ (∪)). }
    apply NoDup_cons in Hnd as [Hni Hnd]. simpl in Hni.
    destruct (Hr k x) as [-> Hk]; [by apply (Hm (k, x)); left|]. cbn [mbind outcome_bind].
    pose proof (Hacc (k, x) (list_elem_of_here _ _)) as Hk'. simpl in Hk'.
    rewrite Hk, Hk'. simpl. rewrite IH; [|done|..].
    - f_equal. unfold of_entries. cbn [list_to_map foldr]. rewrite fmap_insert. rewrite <-insert_union_l, <-insert_union_r; [done|].
      rewrite lookup_fmap, not_elem_of_list_to_map_1; done.
    - intros e ?. apply Hm. by right.
    - intros e He. rewrite lookup_insert_ne; [apply Hacc; by right|]. intros ->.
      apply Hni, list_elem_of_fmap. eauto. }
  rewrite Hf.
  - rewrite (right_id_L ∅ (∪)). do 2 f_equal. unfold of_entries. apply map_eq. intros k.
    apply option_eq. intros x. rewrite <-elem_of_list_to_map by exact (NoDup_keys_of m).
    apply elem_of_entries.
  - exact (NoDup_keys_of m).
  - intros [k x] ?. by apply elem_of_entries.
  - intros e _. apply lookup_empty.
Qed.

(** ** The id allocators *)

Lemma max_list_N_elem l i : i ∈ l → (i ≤ max_list_N l)%N.
Proof.
  induction l as [|x l IH]; [by intros ?%elem_of_nil|].
  intros [->|Hi]%elem_of_cons; simpl; [|specialize (IH Hi)]; lia.
Qed.
Lemma max_list_N_bound l k : (∀ i, i ∈ l → (i < k)%N) → l ≠ [] → (max_list_N l < k)%N.
Proof.
  induction l as [|x l IH]; [done|]. intros Hl _. simpl.
  pose proof (Hl x (list_elem_of_here _ _)).
  destruct l as [|y l]; [simpl; lia|].
  assert (max_list_N (y :: l) < k)%N; [|lia]. apply IH; [|done]. intros i ?. apply Hl. by right.
Qed.

Lemma max_list_N_le l k : (∀ i, i ∈ l → (i ≤ k)%N) → (max_list_N l ≤ k)%N.
Proof.
  induction l as [|x l IH]; intros Hl; simpl; [lia|].
  pose proof (Hl x (list_elem_of_here _ _)).
  assert (max_list_N l ≤ k)%N; [|lia]. apply IH. intros i ?. apply Hl. by right.
Qed.
Lemma next_id_ext l1 l2 : (∀ i, i ∈ l1 ↔ i ∈ l2) → next_id_after_max l1 = next_id_after_max l2.
Proof.
  intros He. assert (max_list_N l1 = max_list_N l2) as Hm.
  { apply N.le_antisymm; apply max_list_N_le; intros i ?; apply max_list_N_elem; by apply He. }
  destruct l1 as [|x l1], l2 as [|y l2]; simpl.
  - done.
  - exfalso. by apply (elem_of_nil y), He; left.
  - exfalso. by apply (elem_of_nil x), He; left.
  - simpl in Hm. by rewrite Hm.
Qed.
Lemma next_id_fmap {V X} (f : V → X) (m : gmap N V) :
  next_id_after_max (keys_of (f <$> m)) = next_id_after_max (keys_of m).
Proof.
  apply next_id_ext. intros i. rewrite !elem_of_keys_of, lookup_fmap. by rewrite fmap_is_Some.
Qed.

(** The next id of a restore: above every id in use. *)
Definition restored_next {V} (m : gmap N V) : N := default 1%N (next_id_after_max (keys_of m)).

Lemma next_id_ok {V} (m : gmap N V) limit :
  (∀ i, is_Some (m !! i) → (i < limit)%N) → (limit ≤ u64_max)%N →
  next_id_after_max (keys_of m) = Some (restored_next m)
  ∧ (∀ i, is_Some (m !! i) → (i < restored_next m)%N).
Proof.
  intros Hm Hl. unfold restored_next. setoid_rewrite <-elem_of_keys_of in Hm.
  setoid_rewrite <-elem_of_keys_of. destruct (keys_of m) as [|k l] eqn:Hk.
  { split; [done|]. intros i ?%elem_of_nil. done. }
  assert (max_list_N (k :: l) < u64_max)%N as Hlt.
  { eapply N.lt_le_trans; [|exact Hl]. by apply max_list_N_bound. }
  assert (next_id_after_max (k :: l) = Some (max_list_N (k :: l) + 1)%N) as ->.
  { unfold next_id_after_max, checked_succ64. by rewrite (proj2 (N.ltb_lt _ _) Hlt). }
  split; [done|]. cbn [default from_option]. intros i Hi%max_list_N_elem. unfold id. lia.
Qed.

(** ** The restored state *)

Definition restored (st : ServerState) : ServerState :=
  mkServerState (kept_session <$> sessions st) (kept_buffer <$> buffers st)
    (kept_node <$> nodes st) (floating st) EnvironmentStore_default None false None RoeOff
    (restored_next (sessions st)) (restored_next (buffers st)) (restored_next (nodes st))
    (restored_next (floating st)).

(** The same records, with the allocators of the saved state. *)
Definition trimmed (st : ServerState) : ServerState :=
  mkServerState (kept_session <$> sessions st) (kept_buffer <$> buffers st)
    (kept_node <$> nodes st) (floating st) EnvironmentStore_default None false None RoeOff
    (session_ids st) (buffer_ids st) (node_ids st) (floating_ids st).

Lemma kept_node_alike n : alike_node n (kept_node n).
Proof.
  destruct n as [v|s|t]; [apply alike_node_refl..|].
  assert (te_child <$> (te_set_synchronize false <$> t_tabs t) = te_child <$> t_tabs t) as He.
  { rewrite <-list_fmap_compose. done. }
  by apply alike_tabs.
Qed.

Lemma trimmed_cosmetic st : cosmetic st (trimmed st).
Proof.
  split; [split; [split|split|done]|..]; simpl.
  - intros i s Hs. exists (kept_session s). by rewrite lookup_fmap, Hs.
  - intros i b Hb. exists (kept_buffer b). by rewrite lookup_fmap, Hb.
  - intros i n Hn. exists (kept_node n). rewrite lookup_fmap, Hn. split; [done|].
    apply kept_node_alike.
  - intros i w Hw. by exists w.
  - intros i s' (s & <- & Hs)%lookup_fmap_Some. by exists s.
  - intros i b' (b & <- & Hb)%lookup_fmap_Some. by exists b.
  - intros i n' (n & <- & Hn)%lookup_fmap_Some. exists n. split; [done|].
    destruct (kept_node_alike n) as ((? & ? & ? & ?) & _). by repeat split.
  - intros i w Hw. by exists w.
  - intros i s s' Hs. rewrite lookup_fmap, Hs. intros [= <-]. by repeat split.
  - intros i n n' Hn. rewrite lookup_fmap, Hn. intros [= <-]. apply kept_node_alike.
  - intros i w w' Hw Hw'. simplify_eq. apply alike_window_refl.
Qed.

(** Handing out other ids than the saved ones changes nothing [validate] looks at. *)
Lemma restored_valid st :
  valid (trimmed st) →
  (∀ i, is_Some (sessions st !! i) → (i < restored_next (sessions st))%N) →
  (∀ i, is_Some (buffers st !! i) → (i < restored_next (buffers st))%N) →
  (∀ i, is_Some (nodes st !! i) → (i < restored_next (nodes st))%N) →
  (∀ i, is_Some (floating st !! i) → (i < restored_next (floating st))%N) →
  valid (restored st).
Proof.
  intros [W S A X Fo Z] H1 H2 H3 H4. destruct W as [F N1 B1 S1 W1 R1 _].
  assert (wired (restored st)) as W'.
  { split; [exact F|exact N1|exact B1| | |exact R1|].
    - intros sid s Hs. by destruct (S1 sid s Hs).
    - intros fid w Hw. by destruct (W1 fid w Hw).
    - split; simpl.
      + intros i [? (s & _ & Hs)%lookup_fmap_Some]. eauto.
      + intros i [? (b & _ & Hb)%lookup_fmap_Some]. eauto.
      + intros i [? (n & _ & Hn)%lookup_fmap_Some]. eauto.
      + exact H4. }
  split; [exact W'|exact S| |exact X|exact Fo|exact Z].
  destruct A as [A1 A2 A3]. by split.
Qed.

Section load.
Context {st : ServerState} (C : consistent st) (Z : zoom_settled st) (R : has_room 0 st).
Let W : wired st := in_wired _ _ _ (cs_inv _ C).

Lemma restored_is_valid : valid (restored st).
Proof.
  pose proof (trimmed_cosmetic st) as Hc. destruct (wi_fresh _ W) as [F1 F2 F3 F4].
  destruct R as [R1 R2 R3 R4]. unfold u64_modulus in *.
  apply restored_valid.
  - apply consistent_valid; [exact (cosmetic_consistent Hc C)|exact (cosmetic_zoom Hc Z)].
  - apply (next_id_ok _ _ F1). unfold u64_max. lia.
  - apply (next_id_ok _ _ F2). unfold u64_max. lia.
  - apply (next_id_ok _ _ F3). unfold u64_max. lia.
  - apply (next_id_ok _ _ F4). unfold u64_max. lia.
Qed.

Lemma checked_next {V X} (f : V → X) (m : gmap N V) limit :
  (∀ i, is_Some (m !! i) → (i < limit)%N) → (limit + 0 < u64_modulus)%N →
  checked_next_id (keys_of (f <$> m)) = Ok (restored_next m).
Proof.
  intros Hm Hl. unfold checked_next_id. rewrite next_id_fmap.
  destruct (next_id_ok m limit Hm) as [-> _]; [|done]. unfold u64_modulus, u64_max in *. lia.
Qed.
Lemma hinted_next {V} (m : gmap N V) limit :
  (∀ i, is_Some (m !! i) → (i < limit)%N) → (limit + 0 < u64_modulus)%N →
  default u64_max (next_id_after_max (keys_of m)) = restored_next m.
Proof.
  intros Hm Hl. destruct (next_id_ok m limit Hm) as [-> _]; [|done].
  unfold u64_modulus, u64_max in *. lia.
Qed.

Lemma no_untabbed : untabbed_roots (restored st) = [].
Proof.
  unfold untabbed_roots. simpl.
  assert (∀ l : list Session, (∀ s, s ∈ l → ∃ s0 sid, sessions st !! sid = Some s0
            ∧ s_root_node s = s_root_node s0) →
    omap (λ s, match (kept_node <$> nodes st) !! s_root_node s with
               | Some (Tabs _) | None => None
               | Some _ => Some (s_root_node s)
               end) l = []) as Hl.
  { induction l as [|s l IH]; intros Hs; [done|]. simpl.
    destruct (Hs s) as (s0 & sid & Hs0 & ->); [by left|].
    destruct (so_root _ _ _ (wi_session _ W _ _ Hs0)) as (t & Ht & _).
    rewrite lookup_fmap, Ht. simpl. apply IH. intros s' ?. apply Hs. by right. }
  apply Hl. intros s (sid & Hs)%elem_of_values_of.
  apply lookup_fmap_Some in Hs as (s0 & <- & Hs0). by exists s0, sid.
Qed.

Lemma windows_listed :
  fold_ok (λ _ entry, check_window_listed (kept_session <$> sessions st) entry) ()
    (entries (floating st)) = Ok ().
Proof.
  apply fold_ok_unit. intros [fid w] Hw%elem_of_entries. unfold check_window_listed. simpl.
  destruct (wo_listed _ _ _ (wi_window _ W _ _ Hw)) as (s & Hs & Hin & _).
  rewrite lookup_fmap, Hs. simpl. by rewrite bool_decide_eq_true_2.
Qed.

Lemma load_saved : load_workspace (to_persisted st) = Ok (restored st).
Proof.
  destruct (wi_fresh _ W) as [F1 F2 F3 F4]. destruct R as [R1 R2 R3 R4].
  change (load_workspace (to_persisted st)) with (from_persisted (to_persisted st)).
  unfold from_persisted.
  cbn [to_persisted pw_sessions pw_buffers pw_nodes pw_floating pw_next_session_id
    pw_next_buffer_id pw_next_node_id pw_next_floating_id].
  rewrite (restore_values restored_session s_id persisted_session kept_session); cycle 1.
  { intros i s Hs. split; [apply session_roundtrip|]. simpl. by apply (wi_session _ W). }
  cbn [mbind outcome_bind].
  rewrite (restore_values restored_buffer b_id persisted_buffer kept_buffer); cycle 1.
  { intros i b Hb. split; [apply buffer_roundtrip|]. simpl. by apply (wi_buffer_id _ W). }
  cbn [mbind outcome_bind].
  rewrite (restore_values _ node_id persisted_node kept_node); cycle 1.
  { intros i n Hn. split; [by rewrite node_roundtrip|].
    rewrite <-(wi_node_id _ W i n Hn). by destruct n. }
  cbn [mbind outcome_bind].
  rewrite (restore_values _ f_id persisted_floating (λ w, w)); cycle 1.
  { intros i w Hw. split; [by rewrite floating_roundtrip|]. by apply (wi_window _ W). }
  cbn [mbind outcome_bind]. rewrite map_fmap_id.
  rewrite windows_listed. cbn [mbind outcome_bind].
  rewrite (checked_next _ _ _ F1 R1). cbn [mbind outcome_bind].
  rewrite (checked_next _ _ _ F2 R2). cbn [mbind outcome_bind].
  rewrite (checked_next _ _ _ F3 R3). cbn [mbind outcome_bind].
  pose proof (checked_next (λ w : FloatingWindow, w) _ _ F4 R4) as H4.
  rewrite map_fmap_id in H4. rewrite H4. cbn [mbind outcome_bind].
  rewrite (hinted_next _ _ F1 R1), (hinted_next _ _ F2 R2), (hinted_next _ _ F3 R3),
    (hinted_next _ _ F4 R4), !N.max_id.
  fold (restored st). unfold wrap_untabbed_session_roots.
  change ((untabbed ← gets untabbed_roots; for_each _ untabbed) (restored st))
    with (for_each (λ root, title ← reads (λ st, default_tab_title st root);
             wrap_node_in_tabs root title ;; mret ()) (untabbed_roots (restored st)) (restored st)).
  rewrite no_untabbed. cbn [for_each mret ST_ret].
  by rewrite (validate_valid restored_is_valid).
Qed.
End load.
