(* ===== verification/Keeps.v ===== *)
(** What every operation run by a request keeps: a consistent state stays
    consistent, whether the operation succeeds or fails, only a few ids are handed
    out, and no buffer that has ended runs again. [keeps] composes like a typing
    judgement, over the state and over anything that holds one. *)

From stdpp Require Import relations.
From S2P Require Import Prelude Core Model Environment State Queries Buffers Focus.
From S2P Require Import Tree Layout Moves Snapshot Ids Forest Invariant QueriesSpec.
From S2P Require Import FocusSpec Settle Surgery Owners Cosmetic Normalize Closing.
From S2P Require Import Opening Popups Splitting Moving Exits Zooming SnapshotSpec.

(** A component that holds a server state. *)
Class HasState (S : Type) : Type := state_of : S → ServerState.
#[export] Instance state_has_state : HasState ServerState := λ st, st.
Arguments state_of {S _} !s /.

(** Room for [k] more ids of each kind, in the allocators and in the protocol's
    32-bit tab indices. *)
Record roomy (k : N) (st : ServerState) : Prop := {
  ro_room : has_room k st;
  ro_few : (node_ids st + k ≤ u32_modulus)%N
}.

Lemma roomy_few k st : roomy k st → (node_ids st ≤ u32_modulus)%N.
Proof. intros [_ H]. lia. Qed.
Lemma roomy_within k1 k2 st st' : roomy (k1 + k2) st → ids_within k1 st st' → roomy k2 st'.
Proof. intros [[] ?] []. repeat split; lia. Qed.
Lemma roomy_less k k' st : (k' ≤ k)%N → roomy k st → roomy k' st.
Proof. intros ? [[] ?]. repeat split; lia. Qed.

Section keeps.
Context {S : Type} `{HasState S}.

Definition kept (k : N) (s s' : S) : Prop :=
  consistent (state_of s') ∧ ids_within k (state_of s) (state_of s')
  ∧ rtc pane_step (views (state_of s)) (views (state_of s')).

(** Run from a consistent state with room for [k] ids, [m] gives a [Result], in a
    consistent state with at most [k] ids more, and the panes went there as
    [pane_step] allows. *)
Definition keeps {A} (k : N) (m : ST S A) : Prop := ∀ s,
  consistent (state_of s) → roomy k (state_of s) → wp m (λ _, kept k s) (λ _, kept k s) s.

Lemma kept_refl k s : consistent (state_of s) → kept k s s.
Proof. intros. split_and!; [done|apply ids_within_refl|reflexivity]. Qed.
Lemma kept_same k s s' :
  consistent (state_of s') → allocators (state_of s') = allocators (state_of s) →
  (∀ id, ended (state_of s) id → ended (state_of s') id) →
  rtc pane_step (views (state_of s)) (views (state_of s')) → kept k s s'.
Proof.
  intros C E L V. injection E as E1 E2 E3 E4.
  split_and!; [exact C|by apply ids_within_same|exact V].
Qed.
Lemma kept_trans k1 k2 s1 s2 s3 : kept k1 s1 s2 → kept k2 s2 s3 → kept (k1 + k2) s1 s3.
Proof.
  intros (_ & I1 & V1) (C2 & I2 & V2). split_and!; [exact C2|by eapply ids_within_trans|by etrans].
Qed.
Lemma kept_weaken k k' s s' : (k ≤ k')%N → kept k s s' → kept k' s s'.
Proof. intros ? (? & ? & ?). split_and!; [done|by eapply ids_within_weaken|done]. Qed.

Section rules.
Context {A B : Type}.
Implicit Types (m : ST S A) (f : A → ST S B).

Lemma keeps_weaken k k' m : keeps k m → (k ≤ k')%N → keeps k' m.
Proof.
  intros Hm Hk s C R. eapply wp_mono.
  - apply (Hm s C). by apply (roomy_less k').
  - intros a s' Hs. exact (kept_weaken _ _ _ _ Hk Hs).
  - intros e s' Hs. exact (kept_weaken _ _ _ _ Hk Hs).
Qed.

Lemma keeps_bind k1 k2 m f : keeps k1 m → (∀ a, keeps k2 (f a)) → keeps (k1 + k2) (m ≫= f).
Proof.
  intros Hm Hf s C R. wp_step. eapply wp_mono.
  - apply (Hm s C). apply (roomy_less (k1 + k2)); [lia|exact R].
  - intros a s1 K1. eapply wp_mono.
    + apply (Hf a s1); [apply K1|]. exact (roomy_within _ _ _ _ R (proj1 (proj2 K1))).
    + intros b s2 K2. exact (kept_trans _ _ _ _ _ K1 K2).
    + intros e s2 K2. exact (kept_trans _ _ _ _ _ K1 K2).
  - intros e s1 K1. eapply kept_weaken; [|exact K1]. lia.
Qed.

Lemma keeps_pay k1 k m f :
  (k1 ≤ k)%N → keeps k1 m → (∀ a, keeps (k - k1) (f a)) → keeps k (m ≫= f).
Proof. intros Hk Hm Hf. replace k with (k1 + (k - k1))%N by lia. by apply keeps_bind. Qed.
Lemma keeps_free k m f : keeps 0 m → (∀ a, keeps k (f a)) → keeps k (m ≫= f).
Proof. intros Hm Hf. replace k with (0 + k)%N by lia. by apply keeps_bind. Qed.

Lemma keeps_ret k (a : A) : keeps k (mret a : ST S A).
Proof. intros s C _. by apply kept_refl. Qed.
Lemma keeps_throw k e : keeps k (throw e : ST S A).
Proof. intros s C _. by apply kept_refl. Qed.
Lemma keeps_gets k (g : S → A) : keeps k (gets g).
Proof. intros s C _. by apply kept_refl. Qed.
Lemma keeps_lift k (o : outcome A) : safe o → keeps k (lift o : ST S A).
Proof.
  intros Ho s C _. apply wp_lift. eapply returns_mono; [exact Ho|..]; intros; by apply kept_refl.
Qed.
Lemma keeps_reads k (g : S → outcome A) :
  (∀ s, consistent (state_of s) → (node_ids (state_of s) ≤ u32_modulus)%N → safe (g s)) →
  keeps k (reads g).
Proof.
  intros Hg s C R. apply wp_reads.
  eapply returns_mono; [exact (Hg s C (roomy_few _ _ R))|..]; intros; by apply kept_refl.
Qed.
Lemma keeps_attempt k m : keeps k m → keeps k (attempt m).
Proof. intros Hm s C R. apply wp_attempt. by apply Hm. Qed.
End rules.

Lemma keeps_ignore {A} k (m : ST S A) : keeps k m → keeps k (ignore m).
Proof. intros Hm s C R. apply wp_ignore. by apply Hm. Qed.
Lemma keeps_when k b (m : ST S unit) : keeps k m → keeps k (when b m).
Proof. intros Hm. destruct b; [exact Hm|apply keeps_ret]. Qed.
Lemma keeps_modify k (f : S → S) :
  (∀ s, consistent (state_of s) → kept k s (f s)) → keeps k (modify f).
Proof. intros Hf s C _. by apply Hf. Qed.
Lemma keeps_modify_same k (f : S → S) :
  (∀ s, state_of (f s) = state_of s) → keeps k (modify f).
Proof.
  intros Hf. apply keeps_modify. intros s C. apply kept_same; rewrite Hf; done.
Qed.
Lemma keeps_for_each {A} (f : A → ST S unit) l : (∀ x, keeps 0 (f x)) → keeps 0 (for_each f l).
Proof.
  intros Hf. induction l as [|x l IH]; [apply keeps_ret|].
  apply (keeps_free 0); [apply Hf|intros; exact IH].
Qed.
Lemma keeps_fold {A B} (f : B → A → ST S B) l :
  (∀ b x, keeps 0 (f b x)) → ∀ b, keeps 0 (fold_st f b l).
Proof.
  intros Hf. induction l as [|x l IH]; intros b; [apply keeps_ret|].
  apply (keeps_free 0); [apply Hf|intros; apply IH].
Qed.
End keeps.

(** ** Code that cannot fail *)

Section runs.
Context {S : Type} `{HasState S}.

(** [m] gives a value satisfying [P], never an error. *)
Definition runs {A} (k : N) (m : ST S A) (P : A → Prop) : Prop := ∀ s,
  consistent (state_of s) → roomy k (state_of s) →
  wp m (λ a s', P a ∧ kept k s s') (λ _ _, False) s.

Lemma runs_keeps {A} k (m : ST S A) P : runs k m P → keeps k m.
Proof.
  intros Hm s C R. eapply wp_mono; [by apply Hm|..]; cbn beta; [|by intros].
  intros a s' [_ K]. exact K.
Qed.
Lemma runs_ret {A} k (a : A) (P : A → Prop) : P a → runs k (mret a : ST S A) P.
Proof. intros HP s C _. split; [exact HP|by apply kept_refl]. Qed.
Lemma runs_weaken {A} k k' (m : ST S A) (P P' : A → Prop) :
  runs k m P → (k ≤ k')%N → (∀ a, P a → P' a) → runs k' m P'.
Proof.
  intros Hm Hk HP s C R. eapply wp_mono; [apply (Hm s C); by apply (roomy_less k')|..]; cbn beta.
  - intros a s' [Ha K]. split; [by apply HP|exact (kept_weaken _ _ _ _ Hk K)].
  - by intros.
Qed.
Lemma runs_bind {A B} k1 k2 (m : ST S A) (f : A → ST S B) P Q :
  runs k1 m P → (∀ a, P a → runs k2 (f a) Q) → runs (k1 + k2) (m ≫= f) Q.
Proof.
  intros Hm Hf s C R. wp_step. eapply wp_mono.
  - apply (Hm s C). apply (roomy_less (k1 + k2)); [lia|exact R].
  - intros a s1 [Ha K1]. eapply wp_mono.
    + apply (Hf a Ha s1); [apply K1|]. exact (roomy_within _ _ _ _ R (proj1 (proj2 K1))).
    + intros b s2 [Hb K2]. split; [exact Hb|exact (kept_trans _ _ _ _ _ K1 K2)].
    + by intros.
  - by intros.
Qed.
Lemma runs_free {A B} k (m : ST S A) (f : A → ST S B) P Q :
  runs 0 m P → (∀ a, P a → runs k (f a) Q) → runs k (m ≫= f) Q.
Proof. intros Hm Hf. replace k with (0 + k)%N by lia. by apply (runs_bind _ _ _ _ P). Qed.
Lemma runs_pay {A B} k1 k (m : ST S A) (f : A → ST S B) P Q :
  (k1 ≤ k)%N → runs k1 m P → (∀ a, P a → runs (k - k1) (f a) Q) → runs k (m ≫= f) Q.
Proof. intros Hk Hm Hf. replace k with (k1 + (k - k1))%N by lia. by apply (runs_bind _ _ _ _ P). Qed.
Lemma runs_sure {A} k (m : ST S A) (P : A → Prop) :
  keeps k m →
  (∀ s, consistent (state_of s) → match (m s).1 with Ok a => P a | Err _ => False | _ => True end) →
  runs k m P.
Proof.
  intros Hm Hs s C R. specialize (Hm s C R). specialize (Hs s C). unfold wp in *.
  by destruct (m s) as [[a|e| |] s'].
Qed.
Lemma runs_gets {A} k (g : S → A) : runs k (gets g) (λ _, True).
Proof. by apply runs_sure; [apply keeps_gets|]. Qed.
Lemma runs_attempt {A} k (m : ST S A) : keeps k m → runs k (attempt m) (λ _, True).
Proof.
  intros Hm. apply runs_sure; [by apply keeps_attempt|]. intros s _. unfold attempt.
  by destruct (m s) as [[] ?].
Qed.
Lemma runs_modify k (f : S → S) : keeps k (modify f) → runs k (modify f) (λ _, True).
Proof. intros Hm. by apply runs_sure. Qed.
Lemma runs_fold {A B} (P : B → Prop) (f : B → A → ST S B) l :
  (∀ b x, P b → runs 0 (f b x) P) → ∀ b, P b → runs 0 (fold_st f b l) P.
Proof.
  intros Hf. induction l as [|x l IH]; intros b Hb; [by apply runs_ret|].
  apply (runs_free 0 _ _ P); [by apply Hf|intros; by apply IH].
Qed.
Lemma runs_for_each {A} (f : A → ST S unit) l :
  (∀ x, runs 0 (f x) (λ _, True)) → runs 0 (for_each f l) (λ _, True).
Proof.
  intros Hf. induction l as [|x l IH]; [by apply runs_ret|].
  apply (runs_free 0 _ _ (λ _, True)); [by apply Hf|intros; by apply IH].
Qed.
End runs.

Create HintDb keeps.

Ltac safely :=
  intros;
  lazymatch goal with
  | |- safe (match ?x with _ => _ end) => destruct x; safely
  | |- safe (Ok _) => exact I
  | |- safe (Err _) => exact I
  | |- _ => solve [eauto with keeps]
  end.

(** [keep] proves [keeps k m] from the hints of [keeps] on the operations [m]
    runs; a step of a sequence is tried for free, then for one id and more. *)
Ltac keep :=
  cbn beta iota zeta;
  lazymatch goal with
  | |- ∀ _, _ => intro; keep
  | |- keeps _ (mret _) => apply keeps_ret
  | |- keeps _ (throw _) => apply keeps_throw
  | |- keeps _ (gets _) => apply keeps_gets
  | |- keeps _ (reads _) => apply keeps_reads; safely
  | |- keeps _ (lift _) => apply keeps_lift; safely
  | |- keeps _ (attempt _) => apply keeps_attempt; keep
  | |- keeps _ (ignore _) => apply keeps_ignore; keep
  | |- keeps _ (when _ _) => apply keeps_when; keep
  | |- keeps 0 (for_each _ _) => apply keeps_for_each; keep
  | |- keeps 0 (fold_st _ _ _) => apply keeps_fold; keep
  | |- keeps _ (mbind _ _) =>
      first
        [ apply keeps_free; [solve [keep]|keep]
        | apply (keeps_pay 1); [lia|solve [keep]|cbn; keep]
        | apply (keeps_pay 2); [lia|solve [keep]|cbn; keep]
        | apply (keeps_pay 3); [lia|solve [keep]|cbn; keep] ]
  | |- keeps _ (match ?x with _ => _ end) => destruct x; keep
  | |- _ => eapply keeps_weaken; [solve [eauto with keeps]|lia]
  end.

Lemma keeps_after {A} k (m : SM A) st :
  keeps k m → consistent st → roomy k st → consistent (m st).2.
Proof.
  intros Hm C R. specialize (Hm st C R). unfold wp in Hm.
  destruct (m st) as [[a|e| |] st']; [apply Hm|apply Hm|destruct Hm|destruct Hm].
Qed.

(** ** The operations *)

(** The state an operation leads to, and the panes on the way. *)
Definition fine (st st' : ServerState) : Prop :=
  consistent st' ∧ rtc pane_step (views st) (views st').

Lemma keeps_from {A} k (m : SM A) :
  spends k m →
  (∀ st, consistent st → has_room k st → wp m (λ _, fine st) (λ _, fine st) st) →
  keeps k m.
Proof.
  intros Hs Hm st C R. specialize (Hm st C (ro_room _ _ R)). specialize (Hs st).
  unfold wp in *. destruct (m st) as [[a|e| |] st'];
    [destruct Hm as [H1 H2]; exact (conj H1 (conj Hs H2))..|exact Hm|exact Hm].
Qed.

Section fine.
Context {st st' : ServerState} (C : consistent st').

Lemma fine_views : views st' = views st → fine st st'.
Proof. intros He. split; [exact C|]. by rewrite He. Qed.
Lemma fine_calm : calm st st' → fine st st'.
Proof. intros H. apply fine_views, H. Qed.
Lemma fine_scrub : scrub st' = scrub st → fine st st'.
Proof. intros H. by apply fine_calm, calm_scrub. Qed.
Lemma fine_nodes : nodes st' = nodes st → fine st st'.
Proof. intros H. apply fine_views. unfold views. by rewrite H. Qed.
Lemma fine_sub : views st' ⊆ views st → fine st st'.
Proof. intros H. split; [exact C|by apply panes_close]. Qed.
Lemma fine_put i sid bid vs0 :
  views st' = <[i := (sid, bid)]> vs0 → vs0 ⊆ views st →
  (∀ p, vs0 !! i = Some p → p.1 = sid) → fine st st'.
Proof. intros He Hs Hp. split; [exact C|]. by eapply panes_put. Qed.
Lemma fine_opened sid bid :
  wired st → views st' = <[node_ids st := (sid, bid)]> (views st) → fine st st'.
Proof. intros W He. eapply fine_put; [exact He|done|]. intros p. by rewrite fresh_pane. Qed.
Lemma fine_removed D k : removed D k st st' → fine st st'.
Proof.
  intros [H1 H2 _ _]. apply fine_sub, map_subseteq_spec. intros i p Hi.
  rewrite <-(H1 i); [done|]. intros HD. rewrite H2 in Hi; done.
Qed.
End fine.

Lemma same_fine st st' : consistent st → st' = st → fine st st'.
Proof. intros C ->. by split. Qed.
Lemma refocused_fine st st' : refocus_kept st st' → fine st st'.
Proof. intros [C H]. by apply fine_scrub. Qed.
Lemma rearranged_fine D k sid st st' : consistent st → rearranged D k ∅ sid st st' → fine st st'.
Proof.
  intros C H. eapply fine_removed; [by eapply rearranged_consistent|]. apply H.
Qed.
Lemma opened_fine sid bid st st' : wired st → opened sid bid (node_ids st) st st' → fine st st'.
Proof. intros W H. eapply fine_opened; [apply H|exact W|]. exact (op_views _ _ _ _ _ H). Qed.
Lemma cosmetic_views st st' : cosmetic st st' → views st' = views st.
Proof.
  intros [[[_ _ F _] [_ _ B _] _] _ _ _]. apply map_eq. intros i. rewrite !views_lookup.
  destruct (nodes st !! i) as [n|] eqn:Hn.
  - destruct (F i n Hn) as (n' & -> & (_ & Hs & Hv & _)). simpl. unfold pane.
    injection Hs as -> _ _. by rewrite Hv.
  - destruct (nodes st' !! i) as [n'|] eqn:Hn'; [|done].
    destruct (B i n' Hn') as (n & ? & _). congruence.
Qed.
Lemma cosmetic_fine st st' : consistent st → cosmetic st st' → fine st st'.
Proof.
  intros C H. apply fine_views; [exact (cosmetic_consistent H C)|by apply cosmetic_views].
Qed.

Lemma cosmetic_keeps {A} (m : SM A) : is_cosmetic m → spends 0 m → keeps 0 m.
Proof.
  intros Hm Hs. apply keeps_from; [exact Hs|]. intros st C _.
  eapply wp_mono; [apply Hm|..]; cbn beta.
  - intros a st' Hc. by apply cosmetic_fine.
  - intros e st'. by apply same_fine.
Qed.

Lemma room_less k k' st : (k' ≤ k)%N → has_room k st → has_room k' st.
Proof. intros ? []. split; lia. Qed.

(** [keeps] from a triple of the library: [start_keep C R] names the consistency
    and the room it starts from. *)
Ltac start_keep C R :=
  apply keeps_from; [eauto with ids nocore|]; intros ? C R; eapply wp_mono.

Lemma add_tabs_views now name st : wired st → views (add_session now name st) = views st.
Proof.
  intros W. apply map_eq. intros i. rewrite !views_lookup. simpl. rewrite lookup_insert.
  case_decide as E; [|done]. subst i.
  destruct (nodes st !! node_ids st) eqn:Hn; [|done].
  pose proof (fi_nodes _ (wi_fresh _ W) _ (mk_is_Some _ _ Hn)). lia.
Qed.
Lemma siblings_fine st st' p n n' : rearranged_siblings st st' p n n' → fine st st'.
Proof.
  intros H. apply fine_calm; [apply H|]. rewrite (rs_rest _ _ _ _ _ H).
  exact (permute_calm (rs_before _ _ _ _ _ H) (rs_permuted _ _ _ _ _ H)).
Qed.

(** *** Focus and zoom *)

Lemma focus_leaf_keeps sid leaf : keeps 0 (focus_leaf sid leaf).
Proof.
  start_keep C R; [by apply focus_leaf_consistent|..]; cbn beta.
  - intros _ st'. apply refocused_fine.
  - intros e st'. by apply same_fine.
Qed.
Lemma show_node_keeps sid i : keeps 0 (show_node sid i).
Proof. start_keep C R; [by apply show_node_consistent|by intros; apply refocused_fine..]. Qed.
Lemma focus_floating_keeps fid : keeps 0 (focus_floating fid).
Proof. start_keep C R; [by apply focus_floating_consistent|by intros; apply refocused_fine..]. Qed.
Lemma focus_last_pane_keeps sid : keeps 0 (focus_last_pane sid).
Proof. start_keep C R; [by apply focus_last_pane_consistent|by intros; apply refocused_fine..]. Qed.
Lemma select_pane_keeps sid i : keeps 0 (select_pane sid i).
Proof. start_keep C R; [by apply select_pane_consistent|by intros; apply refocused_fine..]. Qed.
Lemma zoom_node_keeps id : keeps 0 (zoom_node id).
Proof.
  start_keep C R; [by apply zoom_node_wp|..]; cbn beta.
  - intros _ st' (n & _ & _ & Hz). apply fine_calm; apply Hz.
  - intros e st' [E _]. by eapply same_fine.
Qed.
Lemma unzoom_session_keeps sid : keeps 0 (unzoom_session sid).
Proof.
  start_keep C R; [by apply unzoom_session_wp|..]; cbn beta.
  - intros _ st' (s & _ & Hz & Hc & _). by apply fine_calm.
  - intros e st' (_ & E & _). by eapply same_fine.
Qed.
Lemma toggle_zoom_node_keeps id : keeps 0 (toggle_zoom_node id).
Proof.
  start_keep C R; [by apply toggle_zoom_node_wp|..]; cbn beta.
  - intros _ st' (n & s & _ & _ & Hz). case_decide.
    + apply fine_calm; apply Hz.
    + destruct Hz as [_ Hz]. apply fine_calm; apply Hz.
  - intros e st' [-> _]. by apply same_fine.
Qed.
Lemma acknowledge_shown_keeps sid : keeps 0 (acknowledge_shown_activity sid).
Proof.
  apply keeps_from; [eauto with ids nocore|]. intros st C _.
  destruct (sessions st !! sid) as [s|] eqn:Hs; cycle 1.
  { unfold acknowledge_shown_activity. wp_step. apply wp_reads. unfold session. rewrite Hs.
    by apply same_fine. }
  eapply wp_mono; [apply (acknowledge_shown_activity_spec sid st s); [apply C| |exact Hs]|..].
  - by apply consistent_backed.
  - intros _ st' (Ha & _). destruct C as [I K A S]. pose proof (ak_refocused _ _ Ha) as Rf.
    apply fine_scrub; [split|apply Rf].
    + by eapply refocused_inv.
    + by eapply refocused_compact.
    + by eapply refocused_anchored.
    + eapply frame_settled; [apply I|by apply (acked_frame sid)|exact S|].
      intros s' Hs'. rewrite (ak_sessions _ _ Ha) in Hs'. intros leaf Hl.
      destruct (S sid s' Hs' leaf Hl) as [Hv Hos]. split; [by eapply refocused_view|].
      eapply stable_on_screen; [apply I|apply Rf|by apply acked_actives|done].
  - by intros.
Qed.
#[export] Hint Resolve focus_leaf_keeps show_node_keeps focus_floating_keeps focus_last_pane_keeps
  select_pane_keeps zoom_node_keeps unzoom_session_keeps toggle_zoom_node_keeps
  acknowledge_shown_keeps : keeps.

(** *** Cosmetic operations *)

Ltac cosmetic H := apply cosmetic_keeps; [apply H|eauto with ids nocore].

Lemma rename_session_keeps sid name : keeps 0 (rename_session sid name).
Proof. cosmetic rename_session_cosmetic. Qed.
Lemma set_base_index_keeps sid b : keeps 0 (set_session_base_index sid b).
Proof. cosmetic set_session_base_index_cosmetic. Qed.
Lemma set_viewport_keeps sid v t : keeps 0 (set_session_viewport sid v t).
Proof. cosmetic set_session_viewport_cosmetic. Qed.
Lemma move_floating_keeps fid g : keeps 0 (move_floating fid g).
Proof. cosmetic move_floating_cosmetic. Qed.
Lemma set_floating_border_keeps fid b : keeps 0 (set_floating_border fid b).
Proof. cosmetic set_floating_border_cosmetic. Qed.
Lemma rename_root_tab_keeps sid i title : keeps 0 (rename_root_tab sid i title).
Proof. cosmetic rename_root_tab_cosmetic. Qed.
Lemma set_synchronize_keeps sid i e : keeps 0 (set_root_tab_synchronize_panes sid i e).
Proof. cosmetic set_root_tab_synchronize_cosmetic. Qed.
Lemma resize_split_keeps i sizes : keeps 0 (resize_split_children i sizes).
Proof. cosmetic resize_split_children_cosmetic. Qed.
Lemma mark_running_keeps bid pid : keeps 0 (mark_buffer_running bid pid).
Proof. cosmetic mark_buffer_running_cosmetic. Qed.
Lemma mark_interrupted_keeps bid pid : keeps 0 (mark_buffer_interrupted bid pid).
Proof. cosmetic mark_buffer_interrupted_cosmetic. Qed.
Lemma mark_exited_keeps now bid c : keeps 0 (mark_buffer_exited now bid c).
Proof. cosmetic mark_buffer_exited_cosmetic. Qed.
Lemma set_placement_keeps bid p : keeps 0 (set_buffer_placement bid p).
Proof. cosmetic set_buffer_placement_cosmetic. Qed.
Lemma set_size_keeps bid sz : keeps 0 (set_buffer_size bid sz).
Proof. cosmetic set_buffer_size_cosmetic. Qed.
Lemma set_title_keeps bid t : keeps 0 (set_buffer_title bid t).
Proof. cosmetic set_buffer_title_cosmetic. Qed.
Lemma sync_view_size_keeps bid : keeps 0 (sync_buffer_view_size bid).
Proof. cosmetic sync_buffer_view_size_cosmetic. Qed.
#[export] Hint Resolve rename_session_keeps set_base_index_keeps set_viewport_keeps
  move_floating_keeps set_floating_border_keeps rename_root_tab_keeps set_synchronize_keeps
  resize_split_keeps mark_running_keeps mark_interrupted_keeps mark_exited_keeps
  set_placement_keeps set_size_keeps set_title_keeps sync_view_size_keeps : keeps.

(** *** Opening and moving panes *)

Lemma create_session_keeps now name : keeps 1 (create_session now name).
Proof.
  start_keep C R; [by apply create_session_wp|..]; cbn beta; [|by intros].
  intros a st' (H & _ & _ & _ & ->). apply fine_views; [exact H|].
  apply add_tabs_views, C.
Qed.
Lemma add_tab_from_buffer_at_keeps p i title bid : keeps 2 (add_tab_from_buffer_at p i title bid).
Proof.
  start_keep C R; [apply add_tab_from_buffer_at_wp; [exact C|]|..]; cbn beta.
  - apply (room_less 2); [lia|exact R].
  - intros a st' (t & _ & _ & _ & H & _). eapply opened_fine; [apply C|exact H].
  - intros e st' [H E]. by apply fine_nodes.
Qed.
Lemma add_root_tab_from_buffer_keeps sid title bid : keeps 2 (add_root_tab_from_buffer sid title bid).
Proof.
  start_keep C R; [apply add_root_tab_from_buffer_wp; [exact C|]|..]; cbn beta.
  - apply (room_less 2); [lia|exact R].
  - intros a st' (s & t & _ & _ & _ & H & _). eapply opened_fine; [apply C|exact H].
  - intros e st' [H E]. by apply fine_nodes.
Qed.
Lemma split_leaf_keeps leaf d bid : keeps 2 (split_leaf_with_new_buffer leaf d bid).
Proof.
  start_keep C R; [by apply split_leaf_wp|..]; cbn beta.
  - intros a st' (_ & v & _ & H & _). eapply opened_fine; [apply C|exact H].
  - intros e st' (H & E & _). by apply fine_nodes.
Qed.
Lemma create_floating_from_buffer_keeps sid bid g title f c :
  keeps 3 (create_floating_from_buffer_with_options sid bid g title f c).
Proof.
  start_keep C R; [apply create_floating_from_buffer_wp; [exact C|]|..]; cbn beta.
  - apply (room_less 3); [lia|exact R].
  - intros a st' (H & _ & V & _). eapply fine_opened; [exact H|apply C|exact V].
  - intros e st' (H & E & _). by apply fine_nodes.
Qed.
Lemma create_floating_window_keeps sid root g title f c :
  keeps 1 (create_floating_window_with_options sid root g title f c).
Proof.
  start_keep C R; [by apply create_floating_window_wp|..]; cbn beta; [by intros|].
  intros e st'. by apply same_fine.
Qed.
Lemma move_buffer_to_leaf_keeps bid i : keeps 1 (move_buffer_to_leaf bid i).
Proof.
  apply keeps_from; [eauto with ids nocore|]. intros st C R.
  eapply wp_mono; [by apply move_buffer_to_leaf_wp|..]; cbn beta.
  - intros _ st' (v & b & Hv & _ & H & V). eapply fine_put; [apply H|exact V|..].
    + destruct (b_attachment b); [apply delete_subseteq|done].
    + intros p Hp. assert (views st !! i = Some p) as Hi.
      { destruct (b_attachment b) as [j|]; [|done].
        by apply lookup_delete_Some in Hp as [_ ?]. }
      rewrite (view_pane _ _ _ Hv) in Hi. by simplify_eq.
  - intros e st'. by apply same_fine.
Qed.
Lemma swap_siblings_keeps a b : keeps 0 (swap_sibling_nodes a b).
Proof.
  start_keep C R; [by apply swap_sibling_nodes_wp|..]; cbn beta.
  - intros _ st' [[_ E]|(p & n & n' & i & j & H & _)]; [by eapply same_fine|].
    by eapply siblings_fine.
  - intros e st' [-> _]. by apply same_fine.
Qed.
Lemma reorder_sibling_keeps a b before : keeps 0 (reorder_sibling_node a b before).
Proof.
  start_keep C R; [by apply reorder_sibling_node_wp|..]; cbn beta.
  - intros _ st' [[_ E]|(p & n & n' & i & x & l1 & y & l2 & H & _)];
      [by eapply same_fine|by eapply siblings_fine].
  - intros e st'. by apply same_fine.
Qed.
Lemma switch_tab_keeps p i : keeps 0 (switch_tab p i).
Proof.
  start_keep C R; [by apply switch_tab_wp|..]; cbn beta.
  - intros _ st' (H & Rf & _). apply fine_scrub; [exact H|apply Rf].
  - intros e st' [E _]. by eapply same_fine.
Qed.
Lemma select_root_tab_keeps sid i : keeps 0 (select_root_tab sid i).
Proof.
  start_keep C R; [by apply select_root_tab_wp|..]; cbn beta.
  - intros _ st' (H & Rf). apply fine_scrub; [exact H|apply Rf].
  - intros e st'. by apply same_fine.
Qed.
#[export] Hint Resolve create_session_keeps add_tab_from_buffer_at_keeps
  add_root_tab_from_buffer_keeps split_leaf_keeps create_floating_from_buffer_keeps
  create_floating_window_keeps move_buffer_to_leaf_keeps swap_siblings_keeps
  reorder_sibling_keeps switch_tab_keeps select_root_tab_keeps : keeps.

(** *** Moving a tree of one's own: refused, as every tree of a consistent state
    is a session's or a popup's *)

Lemma add_tab_sibling_at_keeps p i title child : keeps 0 (add_tab_sibling_at p i title child).
Proof.
  start_keep C R; [by apply add_tab_sibling_at_refused|..]; cbn beta; [by intros|].
  intros e st'. by apply same_fine.
Qed.
Lemma add_root_tab_from_subtree_keeps sid title child :
  keeps 0 (add_root_tab_from_subtree sid title child).
Proof.
  start_keep C R; [by apply add_root_tab_from_subtree_refused|..]; cbn beta; [by intros|].
  intros e st'. by apply same_fine.
Qed.
Lemma wrap_in_split_keeps i d sibling before : keeps 1 (wrap_node_in_split i d sibling before).
Proof.
  start_keep C R; [by apply wrap_node_in_split_refused|..]; cbn beta; [by intros|].
  intros e st'. by apply same_fine.
Qed.
Lemma replace_node_keeps i r : keeps 0 (replace_node i r).
Proof.
  start_keep C R; [by apply replace_node_refused|..]; cbn beta.
  - intros _ st' [E _]. by eapply same_fine.
  - intros e st'. by apply same_fine.
Qed.
#[export] Hint Resolve add_tab_sibling_at_keeps add_root_tab_from_subtree_keeps
  wrap_in_split_keeps replace_node_keeps : keeps.

(** *** Closing *)

Lemma close_node_keeps id : keeps 1 (close_node id).
Proof.
  apply keeps_from; [eauto with ids nocore|]. intros st C R.
  destruct (nodes st !! id) as [n|] eqn:Hn.
  - eapply wp_mono; [by eapply close_node_wp; [apply C..|exact R|exact Hn]|..]; cbn beta; [|by intros].
    intros _ st'. by apply rearranged_fine.
  - unfold close_node. wp_step. apply wp_reads. unfold node_session_id, node. rewrite Hn.
    by apply same_fine.
Qed.
Lemma close_floating_keeps fid : keeps 0 (close_floating fid).
Proof.
  apply keeps_from; [eauto with ids nocore|]. intros st C R.
  destruct (floating st !! fid) as [w|] eqn:Hw.
  - eapply wp_mono; [eapply close_floating_wp; [apply C..|exact Hw]|..]; cbn beta; [|by intros].
    intros _ st' (H & _). by eapply rearranged_fine.
  - unfold close_floating, remove_floating_window. do 2 wp_step. apply wp_reads.
    unfold floating_window. rewrite Hw. by apply same_fine.
Qed.
Lemma close_session_keeps sid : keeps 0 (close_session sid).
Proof.
  apply keeps_from; [eauto with ids nocore|]. intros st C R.
  destruct (sessions st !! sid) as [s|] eqn:Hs.
  - eapply wp_mono; [by eapply close_session_consistent|..]; cbn beta; [|by intros].
    intros _ st' (H & G & _). apply fine_sub; [exact H|]. apply map_subseteq_spec, G.
  - unfold close_session. wp_step. apply wp_reads. unfold session. rewrite Hs. by apply same_fine.
Qed.
Lemma close_tab_keeps p i : keeps 0 (close_tab p i).
Proof.
  apply keeps_from; [eauto with ids nocore|]. intros st C R.
  destruct (nodes st !! p) as [[v|sp|t]|] eqn:Hp.
  1,2,4: unfold close_tab; wp_step; apply wp_reads; unfold node_session_id, node; rewrite Hp;
    simpl; try (by apply same_fine); wp_step; apply wp_reads; unfold tabs_of, node;
    rewrite Hp; by apply same_fine.
  eapply wp_mono; [eapply close_tab_wp; [apply C..|exact Hp]|..]; cbn beta.
  - intros _ st' (tab & _ & H). by eapply rearranged_fine.
  - intros e st' (_ & E & _). by eapply same_fine.
Qed.
#[export] Hint Resolve close_node_keeps close_floating_keeps close_session_keeps
  close_tab_keeps : keeps.

(** *** Buffers *)

Lemma create_buffer_env_keeps now title command cwd env :
  keeps 1 (create_buffer_with_env now title command cwd env).
Proof.
  start_keep C R; [by apply create_buffer_with_env_wp|..]; cbn beta; [|by intros].
  intros a st' (H & _ & _ & ->). by apply fine_nodes.
Qed.
#[export] Hint Resolve create_buffer_env_keeps : keeps.
Lemma create_buffer_keeps now title command cwd : keeps 1 (create_buffer now title command cwd).
Proof. unfold create_buffer. keep. Qed.
Lemma create_helper_keeps now title source scope cwd lines :
  keeps 1 (create_helper_buffer now title source scope cwd lines).
Proof.
  start_keep C R; [by apply create_helper_buffer_wp|..]; cbn beta.
  - intros a st' (H & _ & _ & src & b & _ & -> & _). by apply fine_nodes.
  - intros e st' (_ & E & _). by eapply same_fine.
Qed.
Lemma remove_buffer_keeps id : keeps 0 (remove_buffer id).
Proof.
  start_keep C R; [by apply remove_buffer_wp|..]; cbn beta.
  - intros a st' (H & _ & _ & _ & ->). by apply fine_nodes.
  - intros e st' (E & _). by eapply same_fine.
Qed.
Lemma detach_buffer_keeps bid : keeps 1 (detach_buffer bid).
Proof.
  apply keeps_from; [unfold detach_buffer; spend|]. intros st C R.
  eapply wp_mono; [by apply detach_buffer_wp|..]; cbn beta.
  - intros _ st' (b & _ & H). destruct (b_attachment b); [|by eapply same_fine].
    apply fine_sub; [apply H|]. rewrite (pc_views _ _ _ H). apply delete_subseteq.
  - intros e st' (_ & E & _). by eapply same_fine.
Qed.
Lemma set_activity_keeps bid a : keeps 0 (set_buffer_activity bid a).
Proof. cosmetic set_buffer_activity_cosmetic. Qed.
#[export] Hint Resolve create_buffer_keeps create_helper_keeps remove_buffer_keeps
  detach_buffer_keeps set_activity_keeps : keeps.

(** A small workspace, built by running the operations of the server from its
    empty state: a session with a split window, a second window and a popup, a
    session without panes, and a detached buffer. The theorems about consistent
    states are applied to it. *)

(** ** The empty state *)

Lemma new_lookup i : nodes ServerState_new !! i = None.
Proof. apply lookup_empty. Qed.

Lemma new_forest : forest (layout (nodes ServerState_new)).
Proof.
  assert (∀ i, layout (nodes ServerState_new) !! i = None) as Hn.
  { intros i. rewrite layout_lookup. by rewrite new_lookup. }
  split.
  - intros p x c Hx. by rewrite Hn in Hx.
  - intros c y p Hy. by rewrite Hn in Hy.
  - intros p x Hx. by rewrite Hn in Hx.
  - intros i. constructor. intros j (x & Hx & _). by rewrite Hn in Hx.
Qed.

Lemma new_consistent : consistent ServerState_new.
Proof.
  split; [split|..].
  - split; try (by intros i x Hx; simpl in Hx; rewrite lookup_empty in Hx).
    + exact new_forest.
    + by intros i j w w' Hw; simpl in Hw; rewrite lookup_empty in Hw.
    + split; intros i [x Hx]; simpl in Hx; by rewrite lookup_empty in Hx.
  - intros i n Hn. by rewrite new_lookup in Hn.
  - split; intros i x; [intros Hn|intros Hn|intros j Hn];
      simpl in Hn; by rewrite lookup_empty in Hn.
  - split; intros i x j Hn; simpl in Hn; by rewrite lookup_empty in Hn.
  - intros i t Ht. by rewrite new_lookup in Ht.
  - intros i n Hn. by rewrite new_lookup in Hn.
  - intros sid s Hs. simpl in Hs. by rewrite lookup_empty in Hs.
Qed.

(** ** A workspace *)

Definition demo_script : SM unit :=
  main ← create_session 0%Z (lit "main");
  shell ← create_buffer 0%Z (lit "shell") [lit "sh"] None;
  add_root_tab_from_buffer main (lit "work") shell ;;
  editor ← create_buffer 0%Z (lit "editor") [lit "vi"] None;
  split_leaf_with_new_buffer 2%N Vertical editor ;;
  logs ← create_buffer 0%Z (lit "logs") [lit "tail"] None;
  add_root_tab_from_buffer main (lit "logs") logs ;;
  picker ← create_buffer 0%Z (lit "picker") [lit "fzf"] None;
  create_floating_from_buffer_with_options main picker (mkFloatGeometry 1 1 20 10) None true true ;;
  create_session 0%Z (lit "spare") ;;
  create_buffer 0%Z (lit "job") [lit "make"] None ;;
  mret ().
Definition demo : ServerState := (demo_script ServerState_new).2.

Lemma new_roomy k : (k ≤ 1000000)%N → roomy k ServerState_new.
Proof. intros. repeat split; simpl; unfold u64_modulus, u32_modulus; lia. Qed.
Lemma demo_script_keeps : keeps 20 demo_script.
Proof. unfold demo_script. keep. Qed.
Lemma demo_consistent : consistent demo.
Proof.
  exact (keeps_after 20 demo_script _ demo_script_keeps new_consistent (new_roomy 20 ltac:(lia))).
Qed.
Lemma demo_sessions_used : session_ids demo = 3%N. Proof. vm_compute. reflexivity. Qed.
Lemma demo_buffers_used : buffer_ids demo = 6%N. Proof. vm_compute. reflexivity. Qed.
Lemma demo_nodes_used : node_ids demo = 8%N. Proof. vm_compute. reflexivity. Qed.
Lemma demo_floating_used : floating_ids demo = 2%N. Proof. vm_compute. reflexivity. Qed.
#[global] Opaque demo.

Lemma demo_roomy k : (k ≤ 1000000)%N → roomy k demo.
Proof.
  intros. repeat split; rewrite ?demo_sessions_used, ?demo_buffers_used, ?demo_nodes_used,
    ?demo_floating_used; unfold u64_modulus, u32_modulus; lia.
Qed.
Lemma demo_room k : (k ≤ 1000000)%N → has_room k demo.
Proof. intros. by apply demo_roomy. Qed.

(** No pane is zoomed. *)
Lemma demo_zoom : zoom_settled demo.
Proof.
  assert (map_Forall (λ _ s, s_zoomed_node s = None) (sessions demo)) as H.
  { refine (bool_decide_eq_true_1 _ _). vm_compute. reflexivity. }
  intros sid s Hs id Hid. specialize (H sid s Hs). simpl in H. congruence.
Qed.
