(* ===== verification/Serves.v ===== *)
(** Handlers on a consistent workspace: the records they answer with, and the rules by
    which their sections keep it consistent. *)

From S2P Require Import Prelude Core Model Environment State Queries Buffers Focus.
From S2P Require Import Tree Layout Moves Protocol Snapshot Runtimes Server Dispatch.
From S2P Require Import Ids Forest Invariant QueriesSpec FocusSpec Settle Surgery.
From S2P Require Import Cosmetic Exits SnapshotSpec Keeps.

(** Answering requests keeps the state consistent: every handler of
    [Dispatch], on every request outside the layout-assembly ones, gives a reply
    that carries the request's id. *)

(** ** The queries the handlers run give a [Result] *)

Lemma safe_bind {A B} (o : outcome A) (f : A → outcome B) :
  safe o → (∀ a, o = Ok a → safe (f a)) → safe (o ≫= f).
Proof. destruct o; simpl; naive_solver. Qed.
Lemma safe_ensure b e : safe (ensure b e).
Proof. by destruct b. Qed.
Lemma safe_ok_or {A} (o : option A) e : safe (ok_or o e).
Proof. by destruct o. Qed.
Lemma safe_node st i : safe (node st i).
Proof. apply safe_ok_or. Qed.
Lemma safe_session st i : safe (session st i).
Proof. apply safe_ok_or. Qed.
Lemma safe_floating_window st i : safe (floating_window st i).
Proof. apply safe_ok_or. Qed.
Lemma safe_floating_session st i : safe (floating_session st i).
Proof. apply safe_bind; [apply safe_ok_or|done]. Qed.
Lemma safe_session_of st i : safe (session_of st i).
Proof. apply safe_bind; [apply safe_ok_or|done]. Qed.
Lemma safe_root_tabs st sid : safe (root_tabs st sid).
Proof.
  apply safe_bind.
  - apply safe_bind; [apply safe_ok_or|done].
  - intros r _. apply safe_bind; [apply safe_ok_or|]. intros n _. by destruct (is_tabs n).
Qed.
Lemma safe_layout_events st sid : safe (layout_changed_events st sid).
Proof. apply safe_bind; [apply safe_ok_or|done]. Qed.
Lemma safe_tab_index i : safe (protocol_tab_index i).
Proof. unfold protocol_tab_index. by destruct (_ <=? _)%N. Qed.
Lemma safe_env_set sid name value env : safe (env_set sid name value env).
Proof.
  apply safe_bind.
  - unfold validate_name. by destruct (_ || _).
  - intros _ _. apply safe_bind; [apply safe_ensure|done].
Qed.
#[export] Hint Resolve safe_ensure safe_ok_or safe_node safe_session safe_floating_window
  safe_floating_session safe_session_of safe_root_tabs safe_layout_events safe_tab_index
  safe_env_set : keeps.

Section safe_queries.
Context {st : ServerState} (C : consistent st) (Hfew : (node_ids st ≤ u32_modulus)%N).

Lemma safe_snapshot sid : safe (session_snapshot st sid).
Proof.
  destruct (sessions st !! sid) as [s|] eqn:Hs.
  - by destruct (session_snapshot_spec C sid s Hfew Hs) as (snap & -> & _).
  - unfold session_snapshot, session. by rewrite Hs.
Qed.
Lemma safe_floating_id i : safe (floating_id_for_node st i).
Proof.
  unfold floating_id_for_node. destruct (nodes st !! i) as [n|] eqn:Hi.
  - destruct (top_root_spec (wi_forest _ (in_wired _ _ _ (cs_inv _ C))) i (mk_is_Some _ _ Hi))
      as (r & m & -> & _). done.
  - unfold top_root_for_node. cbn [top_root_in budget]. unfold budget. simpl.
    unfold node_parent, node. by rewrite Hi.
Qed.
Lemma safe_focus_target i : safe (focus_target st i).
Proof.
  pose proof (wi_forest _ (in_wired _ _ _ (cs_inv _ C))) as F.
  unfold focus_target, node. destruct (nodes st !! i) as [n|] eqn:Hi; [|done]. simpl.
  destruct (resolve_visible_leaf_spec F i (mk_is_Some _ _ Hi)) as (o & -> & _).
  by destruct n.
Qed.
Lemma safe_has_panes sid : safe (session_has_panes st sid).
Proof. by destruct (session_has_panes_spec C sid) as (b & -> & _). Qed.
Lemma safe_with_panes : safe (sessions_with_panes st).
Proof. by destruct (sessions_with_panes_spec C) as (l & -> & _). Qed.
End safe_queries.
#[export] Hint Resolve safe_snapshot safe_floating_id safe_focus_target safe_has_panes
  safe_with_panes : keeps.

(** ** Handlers of the state alone *)

(** The reply answers the request [rid]. *)
Definition carries (rid : RequestId) (r : reply) : Prop :=
  ServerResponse_request_id r.1 = Some rid.

Section answers.
Context {S : Type} `{HasState S} {A : Type}.
Implicit Types (m : ST S A) (f : A → ST S reply).

Lemma answer_runs rid k m f :
  keeps k m → (∀ a, runs 0 (f a) (carries rid)) → runs k (answer rid m f) (carries rid).
Proof.
  intros Hm Hf. unfold answer. replace k with (k + 0)%N by lia.
  apply (runs_bind _ _ _ _ (λ _, True)); [by apply runs_attempt|].
  intros [a|e] _; [apply Hf|by apply runs_ret].
Qed.
Lemma answer_read_runs rid k m f :
  keeps 0 m → (∀ a, runs k (f a) (carries rid)) → runs k (answer rid m f) (carries rid).
Proof.
  intros Hm Hf. unfold answer. apply (runs_free _ _ _ (λ _, True)); [by apply runs_attempt|].
  intros [a|e] _; [apply Hf|by apply runs_ret].
Qed.
End answers.

(** A handler: its reads are free, the operation it runs pays. *)
Ltac handle :=
  cbn beta iota zeta;
  lazymatch goal with
  | |- ∀ _, _ => intro; handle
  | |- runs _ (answer _ _ _) _ =>
      first [ apply answer_read_runs; [solve [keep]|handle]
            | apply answer_runs; [solve [keep]|handle] ]
  | |- runs _ (mret _) _ => apply runs_ret; first [done|assumption]
  | |- runs _ (mbind _ (gets _)) _ => eapply runs_free; [apply runs_gets|handle]
  | |- runs _ (mbind _ _) _ => eapply runs_free; [solve [handle]|handle]
  | |- runs _ (gets _) _ => apply runs_gets
  | |- runs _ (match ?x with _ => _ end) _ => destruct x; handle
  | |- runs _ _ _ => eapply runs_weaken; [solve [eauto with keeps]|lia|by intros]
  | |- _ => keep
  end.

Lemma layout_ok_runs rid sid : runs 0 (layout_ok_response rid sid) (carries rid).
Proof. unfold layout_ok_response. handle. Qed.
Lemma layout_snapshot_runs rid sid : runs 0 (layout_snapshot_response rid sid) (carries rid).
Proof. unfold layout_snapshot_response. handle. Qed.
Lemma focus_snapshot_runs rid sid : runs 0 (focus_snapshot_response rid sid) (carries rid).
Proof. unfold focus_snapshot_response. handle. Qed.
Lemma snapshot_runs rid sid : runs 0 (snapshot_response rid sid) (carries rid).
Proof. unfold snapshot_response. handle. Qed.
#[export] Hint Resolve layout_ok_runs layout_snapshot_runs focus_snapshot_runs snapshot_runs
  : keeps.
Lemma layout_floating_runs rid sid id moved :
  runs 0 (layout_floating_response rid sid id moved) (carries rid).
Proof. unfold layout_floating_response. handle. Qed.
#[export] Hint Resolve layout_floating_runs : keeps.

(** The requests that take a layout apart and put it together again by hand. *)
Definition assembles (r : NodeRequest) : bool :=
  match r with
  | NrCreateSplit _ _ _ _ _ | NrCreateTabs _ _ _ _ _ | NrWrapInTabs _ _ _ | NrBreakNode _ _ _
  | NrJoinBufferAtNode _ _ _ _ => true
  | _ => false
  end.

Lemma dispatch_node_runs r :
  assembles r = false → runs 2 (dispatch_node r) (carries (NodeRequest_request_id r)).
Proof.
  destruct r; try done; intros _; cbn [dispatch_node NodeRequest_request_id];
    unfold move_node_before, move_node_after; handle.
Qed.

Lemma dispatch_floating_runs r :
  runs 3 (dispatch_floating r) (carries (FloatingRequest_request_id r)).
Proof. destruct r; cbn [dispatch_floating FloatingRequest_request_id]; handle. Qed.

(** What a sequence of server sections keeps: whatever runs between its sections,
    and whatever the runtimes answer, each section finds a consistent state, leaves
    one, and does not fail. [serves] lifts [runs] from sections to sequences. *)

(** ** Sections of the whole server *)

Section server_keeps.
Context {C : Type}.

#[export] Instance runtime_has_state : HasState (Runtime C) := rt_state.

Lemma on_state_keeps {A} k (m : SM A) : keeps k m → keeps k (on_state m : RT C A).
Proof.
  intros Hm rt Hc R. specialize (Hm (rt_state rt) Hc R). unfold wp, on_state in *.
  by destruct (m (rt_state rt)) as [[] st'].
Qed.
Lemma read_state_keeps {A} k (g : ServerState → outcome A) :
  (∀ st, consistent st → (node_ids st ≤ u32_modulus)%N → safe (g st)) →
  keeps k (read_state g : RT C A).
Proof. intros Hg. apply keeps_reads. intros rt. apply Hg. Qed.

Lemma on_state_runs {A} k (m : SM A) P : runs k m P → runs k (on_state m : RT C A) P.
Proof.
  intros Hm rt Hc R. specialize (Hm (rt_state rt) Hc R). unfold wp, on_state in *.
  by destruct (m (rt_state rt)) as [[] st'].
Qed.
Lemma read_state_runs {A} k (g : ServerState → outcome A) (P : A → Prop) :
  (∀ st, consistent st → ∃ a, g st = Ok a ∧ P a) → runs k (read_state g : RT C A) P.
Proof.
  intros Hg rt Hc R. destruct (Hg (rt_state rt) Hc) as (a & Ha & HP).
  unfold read_state, wp, reads. rewrite Ha.
  split; [exact HP|by apply kept_refl].
Qed.
End server_keeps.

Lemma runs_ignore {S A} `{HasState S} k (m : ST S A) : keeps k m → runs k (ignore m) (λ _, True).
Proof.
  intros Hm. unfold ignore. replace k with (k + 0)%N by lia.
  eapply runs_bind; [by apply runs_attempt|]. intros. by apply runs_ret.
Qed.
Lemma runs_then {S A B} `{HasState S} k (m : ST S A) (f : A → ST S B) Q :
  runs 0 m (λ _, True) → (∀ a, runs k (f a) Q) → runs k (m ≫= f) Q.
Proof. intros Hm Hf. apply (runs_free _ _ _ (λ _, True)); auto. Qed.
Lemma runs_spend {S A B} `{HasState S} k1 k (m : ST S A) (f : A → ST S B) Q :
  (k1 ≤ k)%N → runs k1 m (λ _, True) → (∀ a, runs (k - k1) (f a) Q) → runs k (m ≫= f) Q.
Proof. intros Hk Hm Hf. apply (runs_pay k1 k _ _ (λ _, True)); auto. Qed.
Lemma ok_option_runs {S A} `{HasState S} k (g : S → outcome A) :
  (∀ s, consistent (state_of s) → safe (g s)) →
  runs k (reads (λ s, ok_option (g s))) (λ _, True).
Proof.
  intros Hg s C R. specialize (Hg s C). unfold wp, reads.
  by destruct (g s); [split; [|apply kept_refl]..| |].
Qed.

(** ** Sequences *)

Abbreviation always := (λ _, True) (only parsing).

Section serves.
Context {S : Type} `{HasState S}.

(** [p] hands out at most [k] ids of each kind, sends no reply, and ends in a value
    satisfying [P]. The state may change between sections, as long as it stays
    consistent. *)
Fixpoint serves {A} (k : N) (p : proc HostCall S A) (P : A → Prop) : Prop :=
  match p with
  | Done a => P a
  | Locked m next => ∃ k1 Q, (k1 ≤ k)%N ∧ runs k1 m Q ∧ ∀ b, Q b → serves (k - k1) (next b) P
  | Await c next => reply_of c = None ∧ ∀ b, serves k (next b) P
  end.

Lemma serves_weaken {A} (p : proc HostCall S A) : ∀ k k' (P P' : A → Prop),
  serves k p P → (k ≤ k')%N → (∀ a, P a → P' a) → serves k' p P'.
Proof.
  induction p as [a|B m next IH|B c next IH]; simpl; intros k k' P P' Hp Hk HP.
  - by apply HP.
  - destruct Hp as (k1 & Q & Hk1 & Hm & Hn). exists k1, Q. split_and!; [lia|exact Hm|].
    intros b Hb. apply (IH b (k - k1)%N _ P); [by apply Hn|lia|exact HP].
  - split; [apply Hp|]. intros b. apply (IH b k _ P); [apply Hp|done..].
Qed.

Lemma serves_bind {A B} (p : proc HostCall S A) (f : A → proc HostCall S B) : ∀ k1 k2 P Q,
  serves k1 p P → (∀ a, P a → serves k2 (f a) Q) → serves (k1 + k2) (p ≫= f) Q.
Proof.
  induction p as [a|D m next IH|D c next IH]; simpl; intros k1 k2 P Q Hp Hf.
  - apply (serves_weaken _ k2 _ Q); [by apply Hf|lia|done].
  - destruct Hp as (k & R & Hk & Hm & Hn). exists k, R. split_and!; [lia|exact Hm|].
    intros b Hb. replace (k1 + k2 - k)%N with (k1 - k + k2)%N by lia.
    apply (IH b _ _ P); [by apply Hn|exact Hf].
  - split; [apply Hp|]. intros b. apply (IH b _ _ P); [apply Hp|done].
Qed.
Lemma serves_free {A B} k (p : proc HostCall S A) (f : A → proc HostCall S B) P Q :
  serves 0 p P → (∀ a, P a → serves k (f a) Q) → serves k (p ≫= f) Q.
Proof. intros Hp Hf. by apply (serves_bind p f 0 k P). Qed.
Lemma serves_then {A B} k (p : proc HostCall S A) (f : A → proc HostCall S B) Q :
  serves 0 p always → (∀ a, serves k (f a) Q) → serves k (p ≫= f) Q.
Proof. intros Hp Hf. apply (serves_free _ _ _ always); auto. Qed.
Lemma serves_pay {A B} k1 k (p : proc HostCall S A) (f : A → proc HostCall S B) Q :
  (k1 ≤ k)%N → serves k1 p always → (∀ a, serves (k - k1) (f a) Q) → serves k (p ≫= f) Q.
Proof.
  intros Hk Hp Hf. replace k with (k1 + (k - k1))%N by lia.
  apply (serves_bind _ _ _ _ always); auto.
Qed.

Lemma serves_ret {A} k (a : A) (P : A → Prop) : P a → serves k (mret a : proc HostCall S A) P.
Proof. exact id. Qed.
Lemma serves_locked {A} k (m : ST S A) P : runs k m P → serves k (locked m) P.
Proof. intros Hm. exists k, P. split_and!; [lia|exact Hm|exact (λ _, id)]. Qed.
Lemma serves_section {A} k (m : ST S A) : keeps k m → serves k (section m) always.
Proof. intros Hm. by apply serves_locked, runs_attempt. Qed.
Lemma serves_await {A} k (c : HostCall A) :
  reply_of c = None → serves k (await c : proc HostCall S A) always.
Proof. by split. Qed.
Lemma serves_fold {A B} (P : B → Prop) (f : B → A → proc HostCall S B) l :
  (∀ b x, P b → serves 0 (f b x) P) → ∀ b, P b → serves 0 (fold_proc f b l) P.
Proof.
  intros Hf. induction l as [|x l IH]; intros b Hb; [exact Hb|].
  apply (serves_free _ _ _ P); [by apply Hf|intros; by apply IH].
Qed.
Lemma serves_for_all {A B} (f : B → A → proc HostCall S B) l :
  (∀ b x, serves 0 (f b x) always) → ∀ b, serves 0 (fold_proc f b l) always.
Proof. intros Hf b. by apply serves_fold. Qed.

(** A fallible sequence whose value, if it has one, satisfies [P]. *)
Definition good {A} (P : A → Prop) (r : result A) : Prop :=
  match r with inl a => P a | inr _ => True end.

Lemma serves_try {A B} k1 k2 (p : proc HostCall S (result A)) (f : A → proc HostCall S (result B)) P Q :
  serves k1 p (good P) → (∀ a, P a → serves k2 (f a) (good Q)) →
  serves (k1 + k2) (try p f) (good Q).
Proof. intros Hp Hf. apply (serves_bind _ _ _ _ (good P)); [exact Hp|]. by intros [a|e]; [apply Hf|]. Qed.
Lemma serves_attempt {A B} k1 k (p : proc HostCall S (result A)) (f : A → proc HostCall S (result B)) Q :
  (k1 ≤ k)%N → serves k1 p always → (∀ a, serves (k - k1) (f a) (good Q)) →
  serves k (try p f) (good Q).
Proof.
  intros Hk Hp Hf. apply (serves_pay k1); [exact Hk|exact Hp|].
  by intros [a|e]; [apply Hf|].
Qed.
Lemma serves_attempt_any {A B} k1 k (p : proc HostCall S (result A)) (f : A → proc HostCall S (result B)) :
  (k1 ≤ k)%N → serves k1 p always → (∀ a, serves (k - k1) (f a) always) → serves k (try p f) always.
Proof. intros Hk Hp Hf. apply (serves_pay k1); [exact Hk|exact Hp|]. by intros [a|e]. Qed.
Lemma serves_good {A} k (p : proc HostCall S (result A)) : serves k p always → serves k p (good always).
Proof. intros Hp. apply (serves_weaken p k k always); [exact Hp|lia|by intros [] ?]. Qed.

(** [p] answers the request [rid] of the connection [id]: it sends one reply, which
    carries them, before it ends. *)
Fixpoint answers {A} (id : ClientId) (rid : RequestId) (k : N) (p : proc HostCall S A) : Prop :=
  match p with
  | Done a => False
  | Locked m next =>
      ∃ k1 Q, (k1 ≤ k)%N ∧ runs k1 m Q ∧ ∀ b, Q b → answers id rid (k - k1) (next b)
  | Await c next =>
      match reply_of c with
      | Some r => r.1 = id ∧ ServerResponse_request_id r.2 = Some rid
                  ∧ ∀ b, serves k (next b) always
      | None => ∀ b, answers id rid k (next b)
      end
  end.

Lemma answers_weaken {A} id rid (p : proc HostCall S A) : ∀ k k',
  answers id rid k p → (k ≤ k')%N → answers id rid k' p.
Proof.
  induction p as [a|B m next IH|B c next IH]; simpl; intros k k' Hp Hk; [done|..].
  - destruct Hp as (k1 & Q & Hk1 & Hm & Hn). exists k1, Q. split_and!; [lia|exact Hm|].
    intros b Hb. apply (IH b (k - k1)%N); [by apply Hn|lia].
  - destruct (reply_of c).
    + split_and!; [apply Hp..|]. intros b. eapply serves_weaken; [apply Hp|exact Hk|done].
    + intros b. by apply (IH b k).
Qed.
Lemma answers_bind {A B} id rid (p : proc HostCall S A) (f : A → proc HostCall S B) : ∀ k1 k2 P,
  serves k1 p P → (∀ a, P a → answers id rid k2 (f a)) → answers id rid (k1 + k2) (p ≫= f).
Proof.
  induction p as [a|D m next IH|D c next IH]; simpl; intros k1 k2 P Hp Hf.
  - apply (answers_weaken _ _ _ k2); [by apply Hf|lia].
  - destruct Hp as (k & R & Hk & Hm & Hn). exists k, R. split_and!; [lia|exact Hm|].
    intros b Hb. replace (k1 + k2 - k)%N with (k1 - k + k2)%N by lia.
    apply (IH b _ _ P); [by apply Hn|exact Hf].
  - destruct Hp as [-> Hn]. intros b. by apply (IH b _ _ P).
Qed.
Lemma answers_reply {A} id rid k response (f : bool → proc HostCall S A) :
  ServerResponse_request_id response = Some rid → (∀ b, serves k (f b) always) →
  answers id rid k (await (HcReply id response) ≫= f).
Proof. intros Hr Hf. split; [done|]. split; [exact Hr|exact Hf]. Qed.
Lemma answers_then {A B} id rid k (p : proc HostCall S A) (f : A → proc HostCall S B) :
  answers id rid k p → (∀ a, serves 0 (f a) always) → answers id rid k (p ≫= f).
Proof.
  intros Hp Hf. revert k Hp.
  induction p as [a|D m next IH|D c next IH]; simpl; intros k Hp; [done|..].
  - destruct Hp as (k1 & Q & Hk1 & Hm & Hn). exists k1, Q. split_and!; [lia|exact Hm|].
    intros b Hb. by apply IH, Hn.
  - destruct (reply_of c).
    + split_and!; [apply Hp..|]. intros b. replace k with (k + 0)%N by lia.
      apply (serves_bind _ _ _ _ always); [apply Hp|auto].
    + intros b. apply IH, Hp.
Qed.
End serves.

Lemma serves_respond {C} {A} k1 k rid (p : PT C (result A)) (f : A → PT C reply) P :
  (k1 ≤ k)%N → serves k1 p (good P) → (∀ a, P a → serves (k - k1) (f a) (carries rid)) →
  serves k (respond rid p f) (carries rid).
Proof.
  intros Hk Hp Hf. unfold respond. replace k with (k1 + (k - k1))%N by lia.
  apply (serves_bind _ _ _ _ (good P)); [exact Hp|]. by intros [a|e]; [apply Hf|].
Qed.

(** What is left of a budget. *)
Ltac settle_budget :=
  lazymatch goal with
  | |- context [(?a - ?b)%N] => let v := eval vm_compute in (a - b)%N in change (a - b)%N with v
  end.

(** [handle] with the operations of the server. *)
Ltac handle_rt :=
  cbn beta iota zeta;
  lazymatch goal with
  | |- ∀ _, _ => intro; handle_rt
  | |- keeps _ (on_state _) => apply on_state_keeps; handle_rt
  | |- keeps _ (read_state _) => apply read_state_keeps; safely
  | |- keeps _ (modify _) => first [apply keeps_modify_same; solve [by intros []] | keep]
  | |- keeps _ (attempt _) => apply keeps_attempt; handle_rt
  | |- keeps 0 (for_each _ _) => apply keeps_for_each; handle_rt
  | |- keeps _ (mbind _ _) => apply keeps_free; [solve [handle_rt]|handle_rt]
  | |- keeps _ (match ?x with _ => _ end) => destruct x; handle_rt
  | |- runs _ (on_state _) _ => apply on_state_runs; handle_rt
  | |- runs _ (modify _) _ => apply runs_modify; handle_rt
  | |- runs _ (gets _) _ => apply runs_gets
  | |- runs _ (attempt _) _ => apply runs_attempt; handle_rt
  | |- runs _ (ignore _) _ => apply runs_ignore; handle_rt
  | |- runs 0 (for_each _ _) _ => apply runs_for_each; handle_rt
  | |- runs _ (answer _ _ _) _ =>
      first [ apply answer_read_runs; [solve [handle_rt]|handle_rt]
            | apply answer_runs; [solve [handle_rt]|handle_rt] ]
  | |- runs _ (mret _) _ => apply runs_ret; first [done|assumption|by case_match]
  | |- runs _ (mbind _ _) _ =>
      first [ apply runs_then; [solve [handle_rt]|handle_rt]
            | apply (runs_spend 1); [lia|solve [handle_rt]|intro; settle_budget; handle_rt] ]
  | |- runs _ (match ?x with _ => _ end) _ => destruct x; handle_rt
  | |- runs _ _ _ =>
      first [ solve [eauto with keeps]
            | eapply runs_weaken; [solve [eauto with keeps]|lia|by intros] ]
  | |- _ => keep
  end.

(** [serve] proves [serves k p P] section by section. *)
Ltac serve :=
  cbn beta iota zeta;
  lazymatch goal with
  | |- ∀ _, _ => intro; serve
  | |- serves _ (mret _) _ => apply serves_ret; first [done|assumption|by case_match]
  | |- serves _ (locked _) _ => apply serves_locked; handle_rt
  | |- serves _ (section _) (good _) => apply serves_good, serves_section; handle_rt
  | |- serves _ (section _) _ => apply serves_section; handle_rt
  | |- serves _ (await _) (good _) => apply serves_good, serves_await; reflexivity
  | |- serves _ (await _) _ => apply serves_await; reflexivity
  | |- serves _ (respond _ _ _) (carries _) =>
      first [ apply (serves_respond 0 _ _ _ _ (λ _, True)); [lia|solve [serve]|serve]
            | apply (serves_respond 1 _ _ _ _ (λ _, True)); [lia|solve [serve]|intro; settle_budget; serve]
            | apply (serves_respond 5 _ _ _ _ (λ _, True)); [lia|solve [serve]|intro; settle_budget; serve] ]
  | |- serves 0 (fold_proc _ _ _) _ => apply serves_for_all; serve
  | |- serves _ (try _ _) (good _) =>
      first [ apply (serves_attempt 0); [lia|solve [serve]|serve]
            | apply (serves_attempt 1); [lia|solve [serve]|intro; settle_budget; serve]
            | apply (serves_attempt 4); [lia|solve [serve]|intro; settle_budget; serve] ]
  | |- serves _ (try _ _) _ =>
      first [ apply (serves_attempt_any 0); [lia|solve [serve]|serve]
            | apply (serves_attempt_any 1); [lia|solve [serve]|intro; settle_budget; serve]
            | apply (serves_attempt_any 4); [lia|solve [serve]|intro; settle_budget; serve] ]
  | |- serves _ (mbind _ _) _ =>
      first [ apply serves_then; [solve [serve]|serve]
            | apply (serves_pay 1); [lia|solve [serve]|intro; settle_budget; serve] ]
  | |- serves _ (match ?x with _ => _ end) _ => destruct x; serve
  | |- serves _ _ (good _) => first [apply serves_good; solve [eauto with keeps]|solve [eauto with keeps]]
  | |- serves _ _ _ => eapply serves_weaken; [solve [eauto with keeps]|lia|by intros]
  | |- _ => handle_rt
  end.
