(* ===== verification/Serving.v ===== *)
(** The server around the state keeps it consistent: the handlers of session and
    client requests, the cleanup around every request, and the end of a
    connection. A request gets its answer, whatever the state. *)

From S2P Require Import Prelude Core Model Environment State Queries Buffers Focus.
From S2P Require Import Tree Layout Moves Protocol Snapshot Runtimes Restore Server.
From S2P Require Import RuntimeEvents Dispatch BufferRequests Requests Startup Ids.
From S2P Require Import Forest Invariant QueriesSpec FocusSpec Settle Surgery Cosmetic.
From S2P Require Import Closing Exits SnapshotSpec Keeps Serves.

Lemma environment_keeps env st : consistent st → consistent (set_environment env st).
Proof.
  assert (cosmetic st (set_environment env st)) as Hc by by apply cosmetic_maps.
  by apply cosmetic_consistent.
Qed.
Lemma set_session_environment_keeps sid name value :
  keeps 0 (set_session_environment sid name value).
Proof.
  unfold set_session_environment. apply keeps_free.
  - apply keeps_modify. intros st Hc.
    apply kept_same; [by apply environment_keeps|done|done|reflexivity].
  - intros _. apply keeps_free; [keep|]. intros env. apply keeps_modify. intros st Hc.
    apply kept_same; [by apply environment_keeps|done|done|reflexivity].
Qed.
#[export] Hint Resolve set_session_environment_keeps : keeps.

Lemma create_session_runs now name : runs 1 (create_session now name) always.
Proof. by apply runs_sure; [apply create_session_keeps|]. Qed.
#[export] Hint Resolve create_session_runs runs_keeps : keeps.

(** ** Disposing of exited buffers *)

Lemma disposed_ended st d st' : disposing st d st' → ∀ id, ended st id → ended st' id.
Proof.
  intros H id. pose proof (dp_records _ _ _ H id) as Hr. unfold ended, records in *.
  rewrite !lookup_fmap in Hr. destruct (buffers st' !! id) as [b'|]; [|done].
  case_decide; [done|]. destruct (buffers st !! id) as [b|]; [|done].
  apply (inj Some) in Hr. intros He. change (is_exited (b_state (bare b')) = true). by rewrite Hr.
Qed.
Lemma dispose_exited_runs : runs 0 dispose_exited_buffers always.
Proof.
  intros st Hc R. eapply wp_mono; [by apply dispose_exited_buffers_wp|..]; cbn beta; [|by intros].
  intros d st' [H _]. split; [done|]. apply kept_same; [apply H|exact (dp_ids _ _ _ H)|by apply (disposed_ended _ _ _ H)|].
  apply panes_close, map_subseteq_spec. intros i p Hi. change (views st !! i = Some p).
  change (views st' !! i = Some p) in Hi. rewrite (dp_views _ _ _ H) in Hi. destruct (views st !! i) as [q|]; [|done].
  simpl in Hi. case_decide; [done|exact Hi].
Qed.
Lemma watched_cosmetic watched ids : ∀ st,
  cosmetic st (set_buffers (λ bs, foldl (sync_watched watched) bs ids) st).
Proof.
  induction ids as [|id ids IH]; intros st; [by apply cosmetic_maps|].
  transitivity (set_buffers (λ bs, sync_watched watched bs id) st); [|apply IH].
  unfold sync_watched. destruct (buffers st !! id) as [b|] eqn:Hb.
  - replace (set_buffers _ st) with (set_buffers
      (insert id (b_set_watched (bool_decide (id ∈ watched)) b)) st).
    + by apply (cosmetic_buffer st id b).
    + unfold set_buffers. f_equal. apply map_eq. intros i.
      rewrite lookup_alter, lookup_insert. case_decide; [|done]. subst. by rewrite Hb.
  - apply cosmetic_maps; try done. simpl. apply map_eq. intros i. rewrite lookup_alter.
    case_decide; [|done]. subst. by rewrite Hb.
Qed.
Lemma watched_ended watched ids : ∀ st id,
  ended st id → ended (set_buffers (λ bs, foldl (sync_watched watched) bs ids) st) id.
Proof.
  unfold ended, set_buffers. simpl. intros st id. generalize (buffers st). clear st.
  induction ids as [|i ids IH]; intros bs He; [exact He|]. apply IH.
  unfold sync_watched. rewrite lookup_alter. case_decide; [|exact He]. subst. by destruct (bs !! id).
Qed.
Lemma watched_keeps watched ids :
  keeps 0 (modify (set_buffers (λ bs, foldl (sync_watched watched) bs ids))).
Proof.
  apply keeps_modify. intros st Hc. apply kept_same; [|done|apply watched_ended|reflexivity].
  exact (cosmetic_consistent (watched_cosmetic watched ids st) Hc).
Qed.
#[export] Hint Resolve dispose_exited_runs watched_keeps : keeps.

Section server_handlers.
Context {C : Type} {channel : Channel C}.

(** ** Sections *)

Lemma acknowledge_runs sid : runs 0 (acknowledge sid : RT C bool) always.
Proof. unfold acknowledge. handle_rt. Qed.
Lemma mark_dirty_runs : runs 0 (mark_workspace_dirty : RT C unit) always.
Proof. unfold mark_workspace_dirty. handle_rt. Qed.
Lemma mark_metadata_dirty_runs : runs 0 (mark_workspace_metadata_dirty : RT C unit) always.
Proof. unfold mark_workspace_metadata_dirty. handle_rt. Qed.
Lemma drop_subscriptions_runs id : runs 0 (drop_subscriptions id : RT C unit) always.
Proof. unfold drop_subscriptions. handle_rt. Qed.
Lemma clear_client_session_runs sid : runs 0 (clear_client_session sid : RT C _) always.
Proof. unfold clear_client_session. handle_rt. Qed.
Lemma broadcast_runs events sids : runs 0 (broadcast events sids : RT C unit) always.
Proof.
  apply runs_modify, keeps_modify_same. intros rt. by destruct (if bool_decide _ then _ else _).
Qed.
Lemma send_to_clients_runs ids e : runs 0 (send_to_clients ids e : RT C unit) always.
Proof. unfold send_to_clients. handle_rt. Qed.
#[local] Hint Resolve acknowledge_runs mark_dirty_runs mark_metadata_dirty_runs
  drop_subscriptions_runs clear_client_session_runs broadcast_runs send_to_clients_runs : keeps.
Lemma show_session_keeps id sid : keeps 0 (show_session id sid : RT C _).
Proof. unfold show_session. handle_rt. Qed.
Lemma safe_message_clients (rt : Runtime C) id sid : safe (message_clients rt id sid).
Proof. unfold message_clients. destruct id, sid; try case_bool_decide; done. Qed.
#[local] Hint Resolve show_session_keeps safe_message_clients : keeps.

Lemma session_has_panes_runs sid :
  runs 0 (read_state (λ st, session_has_panes st sid) : RT C bool) always.
Proof.
  apply read_state_runs. intros st Hc. destruct (session_has_panes_spec Hc sid) as (b & Hb & _).
  by exists b.
Qed.
Lemma sessions_with_panes_if_runs b : runs 0 (sessions_with_panes_if b : RT C _) always.
Proof.
  unfold sessions_with_panes_if. destruct b; [|handle_rt]. apply read_state_runs. intros st Hc.
  destruct (sessions_with_panes_spec Hc) as (l & Hl & _). by exists l.
Qed.
#[local] Hint Resolve session_has_panes_runs sessions_with_panes_if_runs : keeps.
Lemma destroy_if_emptied_runs acc sid : runs 0 (destroy_if_emptied acc sid : RT C _) always.
Proof. unfold destroy_if_emptied. handle_rt. Qed.
Lemma destroy_all_runs acc l : runs 0 (fold_st destroy_if_emptied acc l : RT C _) always.
Proof. apply runs_fold; [|done]. intros. apply destroy_if_emptied_runs. Qed.
Lemma dispose_section_runs events : runs 0 (dispose_section events : RT C _) always.
Proof. unfold dispose_section. handle_rt. Qed.
#[local] Hint Resolve destroy_all_runs dispose_section_runs : keeps.

Lemma subscribe_runs id rid sid : runs 0 (subscribe id rid sid : RT C reply) (carries rid).
Proof. unfold subscribe. handle_rt. Qed.
Lemma unsubscribe_runs id rid sub : runs 0 (unsubscribe id rid sub : RT C reply) (carries rid).
Proof. unfold unsubscribe. handle_rt. Qed.

Lemma alone_runs k m rid :
  runs k (m : RT C reply) (carries rid) → runs k (alone m) (λ r, carries rid r.1).
Proof.
  intros Hm. unfold alone. replace k with (k + 0)%N by lia. eapply runs_bind; [exact Hm|].
  intros r Hr. by apply runs_ret.
Qed.
Lemma session_section_runs limits now r :
  runs 2 (session_section limits now r : RT C _) (λ a, carries (SessionRequest_request_id r) a.1).
Proof.
  destruct r; cbn [session_section SessionRequest_request_id];
    lazymatch goal with |- runs _ (alone _) _ => apply alone_runs | _ => idtac end;
    unfold close_root_tab, check_session; handle_rt.
Qed.

(** ** Sequences *)

Lemma client_changed_serves changed : serves 0 (client_changed_events changed : PT C _) always.
Proof. unfold client_changed_events. serve. Qed.
Lemma sync_host_graphics_serves : serves 0 (sync_host_graphics : PT C unit) always.
Proof. unfold sync_host_graphics. serve. Qed.
Lemma detach_client_serves id : serves 0 (detach_client id : PT C _) always.
Proof. unfold detach_client. serve. Qed.
Lemma set_client_session_serves id sid : serves 0 (set_client_session id sid : PT C _) always.
Proof. unfold set_client_session. serve. Qed.
Lemma display_message_serves id sid e : serves 0 (display_message id sid e : PT C _) always.
Proof. unfold display_message. serve. Qed.
#[local] Hint Resolve client_changed_serves sync_host_graphics_serves detach_client_serves
  set_client_session_serves display_message_serves : keeps.

Lemma switch_node_serves target sid id : serves 0 (switch_node target sid id : PT C _) always.
Proof. unfold switch_node. serve. Qed.
Lemma destroy_emptied_serves had events :
  serves 0 (destroy_emptied_sessions had events : PT C _) always.
Proof. unfold destroy_emptied_sessions. serve. Qed.
#[local] Hint Resolve switch_node_serves destroy_emptied_serves : keeps.
Lemma runtime_dispose_serves events :
  serves 0 (Runtime_dispose_exited_buffers events : PT C _) always.
Proof. unfold Runtime_dispose_exited_buffers. serve. Qed.
#[local] Hint Resolve runtime_dispose_serves : keeps.
Lemma sync_watched_serves ids events : serves 0 (sync_watched_buffers ids events : PT C _) always.
Proof. unfold sync_watched_buffers. serve. Qed.
#[local] Hint Resolve sync_watched_serves : keeps.
Lemma cleanup_connection_serves id : serves 0 (cleanup_connection id : PT C unit) always.
Proof. unfold cleanup_connection. serve. Qed.
Lemma clients_showing_serves bid : serves 0 (clients_showing_buffer bid : PT C _) always.
Proof. unfold clients_showing_buffer. serve. Qed.
#[local] Hint Resolve clients_showing_serves : keeps.
Lemma forward_clipboard_serves bid sel text :
  serves 0 (forward_clipboard bid sel text : PT C unit) always.
Proof. unfold forward_clipboard. serve. Qed.
Lemma forward_passthrough_serves bid writes :
  serves 0 (forward_passthrough bid writes : PT C unit) always.
Proof. unfold forward_passthrough. serve. Qed.

(** ** Requests *)

Lemma dispatch_session_serves limits r :
  serves 2 (dispatch_session limits r : PT C reply) (carries (SessionRequest_request_id r)).
Proof.
  unfold dispatch_session. apply serves_then; [serve|]. intros now.
  apply (serves_bind _ _ 2 0 (λ a, carries (SessionRequest_request_id r) a.1)).
  - apply serves_locked, session_section_runs.
  - intros a Ha. apply serves_then; [serve|]. intros events. exact Ha.
Qed.
Lemma stays_serves k (p : PT C reply) rid :
  serves k p (carries rid) → serves k (stays p) (λ r, carries rid r.1).
Proof.
  intros Hp. unfold stays. replace k with (k + 0)%N by lia.
  eapply serves_bind; [exact Hp|]. intros r Hr. exact Hr.
Qed.
Lemma dispatch_client_serves id r :
  serves 0 (dispatch_client id r : PT C (reply * bool))
    (λ a, carries (ClientRequest_request_id r) a.1).
Proof.
  destruct r; cbn [dispatch_client ClientRequest_request_id];
    lazymatch goal with |- serves _ (stays _) _ => apply stays_serves | _ => idtac end; serve.
Qed.

Lemma with_cleanup_serves k closes (m : PT C reply) rid :
  serves k m (carries rid) → serves k (with_cleanup closes m) (carries rid).
Proof.
  intros Hm. unfold with_cleanup. apply serves_then; [serve|]. intros had.
  replace k with (k + 0)%N by lia. eapply serves_bind; [exact Hm|]. intros r Hr.
  apply serves_then; [serve|]. intros events. apply serves_then; [serve|]. intros events'. exact Hr.
Qed.
End server_handlers.
#[export] Hint Resolve acknowledge_runs mark_dirty_runs mark_metadata_dirty_runs
  drop_subscriptions_runs clear_client_session_runs broadcast_runs send_to_clients_runs
  subscribe_runs unsubscribe_runs client_changed_serves sync_host_graphics_serves
  runtime_dispose_serves destroy_emptied_serves sync_watched_serves : keeps.

(** Requests about buffers, and the reports of their runtimes, keep the state
    consistent, whatever the runtimes answer. *)

(** ** Records of buffers *)

Lemma alter_buffer_cosmetic bid f st :
  (∀ b, same_buffer b (f b)) → cosmetic st (set_buffers (alter f bid) st).
Proof.
  intros Hf. destruct (buffers st !! bid) as [b|] eqn:Hb.
  - replace (set_buffers (alter f bid) st) with (set_buffers (insert bid (f b)) st);
      [by eapply cosmetic_buffer|].
    unfold set_buffers. f_equal. apply map_eq. intros i.
    rewrite lookup_alter, lookup_insert. case_decide; [|done]. subst. by rewrite Hb.
  - apply cosmetic_maps; try done. simpl. apply map_eq. intros i. rewrite lookup_alter.
    case_decide; [|done]. subst. by rewrite Hb.
Qed.
Definition keeps_end (f : Buffer → Buffer) : Prop :=
  ∀ b, is_exited (b_state b) = true → is_exited (b_state (f b)) = true.
Lemma alter_ended bid f st id :
  keeps_end f → ended st id → ended (set_buffers (alter f bid) st) id.
Proof.
  intros He. unfold ended. simpl. rewrite lookup_alter. case_decide; [|done]. subst.
  destruct (buffers st !! id) as [b|]; [exact (He b)|done].
Qed.
Lemma alter_buffer_keeps bid f :
  (∀ b, same_buffer b (f b)) → keeps_end f → keeps 0 (modify (set_buffers (alter f bid))).
Proof.
  intros Hf He. apply keeps_modify. intros st Hc.
  destruct (cosmetic_fine _ _ Hc (alter_buffer_cosmetic bid f st Hf)) as [Hc' Hv].
  apply kept_same; [exact Hc'|done|by intros; apply alter_ended|exact Hv].
Qed.
Lemma buffer_mut_keeps bid f :
  (∀ b, same_buffer b (f b)) → keeps_end f → keeps 0 (buffer_mut bid f).
Proof.
  intros Hf He. unfold buffer_mut. intros st Hc R. wp_step. apply wp_reads. unfold buffer.
  destruct (buffers st !! bid) as [b|] eqn:Hb; simpl; [|by apply kept_refl].
  destruct (cosmetic_fine _ _ Hc (cosmetic_buffer st bid b (f b) Hb (Hf b))) as [Hc' Hv].
  apply wp_modify. split_and!; [exact Hc'|apply (set_buffer_spends st bid b); auto|exact Hv].
Qed.

(** A record with the same attachment and state. *)
Definition same_record (b b' : Buffer) : Prop := same_buffer b b' ∧ b_state b' = b_state b.

Lemma status_record_same status b : same_record b (status_record status b).
Proof. done. Qed.
Lemma stop_pipe_same b reason code : same_record b (stop_pipe_record b reason code).1.
Proof. unfold stop_pipe_record. by repeat case_match. Qed.

Lemma record_bell_same shown u r : same_record (rec_buffer r) (rec_buffer (record_bell shown u r)).
Proof. unfold record_bell. by destruct (_ <? _)%N, shown. Qed.
Lemma record_output_same shown u r :
  same_record (rec_buffer r) (rec_buffer (record_output shown u r)).
Proof. unfold record_output. by destruct (up_title u); [case_bool_decide|]. Qed.
Lemma record_cwd_same u r : same_record (rec_buffer r) (rec_buffer (record_cwd u r)).
Proof. unfold record_cwd. by destruct (up_cwd u) as [[]|]; try case_bool_decide. Qed.
Lemma record_foreground_same u r :
  same_record (rec_buffer r) (rec_buffer (record_foreground u r)).
Proof. unfold record_foreground. by destruct (up_foreground_command u); try case_bool_decide. Qed.
Lemma record_pipe_same u r : same_record (rec_buffer r) (rec_buffer (record_pipe u r)).
Proof. unfold record_pipe. by destruct (up_pipe u); try case_bool_decide. Qed.
Lemma record_options_same u r : same_record (rec_buffer r) (rec_buffer (record_options u r)).
Proof. unfold record_options. by repeat case_match. Qed.
Lemma same_record_trans a b c : same_record a b → same_record b c → same_record a c.
Proof. intros [[??] ?] [[??] ?]. repeat split; congruence. Qed.
Lemma apply_update_same shown u b : same_record b (rec_buffer (apply_update shown u b)).
Proof.
  unfold apply_update. set (r := record_bell _ _ _).
  assert (same_record b (rec_buffer r)) as Hr by apply record_bell_same. clearbody r.
  assert (same_record b (rec_buffer (record_output shown u r))) as Hr'.
  { eapply same_record_trans; [exact Hr|apply record_output_same]. }
  set (r' := if (_ <? _)%N then record_output shown u r else r).
  assert (same_record b (rec_buffer r')) as Hb by (subst r'; by destruct (_ <? _)%N).
  clearbody r'. destruct (_ <=? _)%N; [|done].
  eapply same_record_trans; [|apply record_options_same].
  eapply same_record_trans; [|apply record_pipe_same].
  eapply same_record_trans; [|apply record_foreground_same].
  eapply same_record_trans; [exact Hb|apply record_cwd_same].
Qed.
Lemma same_record_buffer f : (∀ b, same_record b (f b)) → ∀ b, same_buffer b (f b).
Proof. intros Hf b. apply Hf. Qed.
Lemma same_record_end f : (∀ b, same_record b (f b)) → keeps_end f.
Proof. intros Hf b. by destruct (Hf b) as [_ ->]. Qed.
#[export] Hint Resolve status_record_same stop_pipe_same apply_update_same : keeps.
#[export] Hint Extern 1 (keeps _ (modify (set_buffers (alter _ _)))) =>
  apply alter_buffer_keeps;
  solve [apply same_record_buffer; by auto with keeps|apply same_record_end; by auto with keeps] : keeps.
#[export] Hint Extern 1 (keeps _ (buffer_mut _ _)) =>
  apply buffer_mut_keeps;
  solve [apply same_record_buffer; by auto with keeps|apply same_record_end; by auto with keeps] : keeps.
#[export] Hint Extern 2 (same_record _ _) => done : keeps.

(** ** Queries *)

Section safe_queries.
Context {st : ServerState} (Hc : consistent st).
Let W : wired st := in_wired _ _ _ (cs_inv _ Hc).

Lemma safe_buffer bid : safe (buffer st bid).
Proof. apply safe_ok_or. Qed.
Lemma safe_buffer_session b : safe (buffer_session st b).
Proof. unfold buffer_session. destruct (b_attachment b); [|done]. by apply safe_bind; [apply safe_node|]. Qed.
Lemma safe_pipe_event bid : safe (buffer_pipe_changed_event st bid).
Proof.
  apply safe_bind; [apply safe_buffer|]. intros b _.
  by apply safe_bind; [apply safe_buffer_session|].
Qed.
Lemma safe_ok_option {A} (o : outcome A) : safe o → safe (ok_option o).
Proof. by destruct o. Qed.
Lemma safe_showing bid : safe (session_showing_buffer st bid).
Proof.
  unfold session_showing_buffer. destruct (buffers st !! bid) as [b|]; [|done].
  destruct (b_attachment b) as [i|]; [|done]. destruct (nodes st !! i) as [n|] eqn:Hi; [|done].
  destruct (node_session_exists st i n W (cs_anchored _ Hc) Hi) as [s Hs].
  destruct (is_node_visible_in_session_spec W _ s i n Hs Hi eq_refl) as (v & -> & _).
  by destruct v.
Qed.
Lemma safe_location bid : safe (buffer_location st bid).
Proof.
  apply safe_bind; [apply safe_buffer|]. intros b _. destruct (b_attachment b); [|done].
  apply safe_bind; [apply safe_node|]. intros n _.
  by apply safe_bind; [apply (safe_floating_id Hc)|].
Qed.
Lemma safe_at_root location : safe (location_is_root_tab st location).
Proof.
  unfold location_is_root_tab. destruct (loc_attachment location); try done.
  apply safe_bind; [apply safe_root_tabs|]. intros r _. by apply safe_bind; [apply safe_node|].
Qed.
Lemma safe_history_source bid scope : safe (history_source st bid scope).
Proof.
  apply safe_bind; [apply safe_buffer|]. intros b _. by apply safe_bind; [apply safe_location|].
Qed.
Lemma safe_default_geometry sid : safe (default_floating_geometry st sid).
Proof.
  unfold default_floating_geometry, session. destruct (sessions st !! sid) as [s|] eqn:Hs; [|done].
  pose proof (root_exists W sid s Hs) as Hr. cbn [mbind outcome_bind ok_or].
  destruct (resolve_visible_leaf_spec (wi_forest _ W) _ Hr) as (v & -> & _).
  destruct (resolve_first_leaf_spec (wi_forest _ W) _ Hr) as (f & -> & _).
  destruct (visible_node_size_spec (wi_forest _ W) _ Hr) as (d & ->).
  cbn [mbind outcome_bind]. apply safe_bind; [|done].
  destruct (match s_focused_leaf s with Some _ => _ | None => _ end); [|done].
  apply safe_bind; [apply safe_node|]. by intros [].
Qed.
End safe_queries.
Lemma safe_accepts_input st bid : safe (ensure_buffer_accepts_input st bid).
Proof. by apply safe_bind; [apply safe_ok_or|intros; apply safe_ensure]. Qed.
Lemma safe_accepts_pipe st bid : safe (ensure_buffer_accepts_pipe st bid).
Proof.
  apply safe_bind; [apply safe_ok_or|]. intros b _.
  by apply safe_bind; [apply safe_ensure|intros; apply safe_ensure].
Qed.
Lemma safe_set_user_option key value options : safe (set_user_option key value options).
Proof.
  unfold set_user_option. destruct value; [|done].
  do 3 (apply safe_bind; [apply safe_ensure|]; intros _ _). by case_bool_decide.
Qed.
#[export] Hint Resolve safe_buffer safe_buffer_session safe_pipe_event safe_ok_option safe_showing
  safe_location safe_at_root safe_history_source safe_default_geometry safe_accepts_input
  safe_accepts_pipe safe_set_user_option : keeps.
#[export] Hint Extern 0 (safe (Ok _)) => exact I : keeps.
#[export] Hint Extern 2 (safe (_ ≫= _)) => apply safe_bind : keeps.

(** ** Runtime reports *)

Lemma apply_status_keeps now bid status : keeps 0 (apply_runtime_status now bid status).
Proof. unfold apply_runtime_status. keep. Qed.
Lemma set_pid_keeps bid pid : keeps 0 (ignore (mark_buffer_interrupted bid pid)).
Proof. keep. Qed.
#[export] Hint Resolve apply_status_keeps : keeps.
Lemma apply_status_runs now bid status :
  runs 0 (apply_runtime_status now bid status) always.
Proof. unfold apply_runtime_status. handle_rt. Qed.
Lemma end_section_runs now bid b code : runs 0 (end_section now bid b code) always.
Proof. unfold end_section. handle_rt. Qed.
#[export] Hint Resolve apply_status_runs end_section_runs : keeps.

Section runtime_events.
Context {C : Type} {channel : Channel C}.

Lemma option_state_runs {A} (g : ServerState → outcome A) :
  (∀ st, consistent st → safe (g st)) →
  runs 0 (read_state (λ st, ok_option (g st)) : RT C _) always.
Proof. intros Hg. apply ok_option_runs. intros rt. apply Hg. Qed.
Lemma showing_runs bid :
  runs 0 (read_state (λ st, session_showing_buffer st bid) : RT C _) always.
Proof.
  intros rt Hc R. pose proof (safe_showing Hc bid) as Hs. unfold wp, read_state, reads.
  unfold session_showing_buffer in *. change (state_of rt) with (rt_state rt) in *.
  repeat (case_match; try done); simpl in *; try (split; [done|by apply kept_refl]);
    destruct (is_node_visible_in_session _ _ _); done || (split; [done|by apply kept_refl]).
Qed.
#[local] Hint Resolve showing_runs : keeps.
#[local] Hint Extern 1 (runs 0 (read_state (λ _, ok_option _)) _) =>
  apply option_state_runs; intros; solve [eauto with keeps] : keeps.

Lemma update_section_runs bid u shown : runs 0 (update_section bid u shown : RT C _) always.
Proof. unfold update_section. handle_rt. Qed.
#[local] Hint Resolve update_section_runs : keeps.

Lemma record_update_serves bid u : serves 0 (record_buffer_update bid u : PT C unit) always.
Proof. unfold record_buffer_update. serve. Qed.
Lemma record_end_serves bid e : serves 0 (record_buffer_end bid e : PT C unit) always.
Proof. unfold record_buffer_end. serve. Qed.
#[local] Hint Resolve record_update_serves record_end_serves : keeps.
Lemma sync_status_serves bid : serves 0 (sync_buffer_runtime_status bid : PT C _) always.
Proof. unfold sync_buffer_runtime_status. serve. Qed.
Lemma taken_up_serves bid status : serves 0 (record_buffer_taken_up bid status : PT C unit) always.
Proof. unfold record_buffer_taken_up. serve. Qed.
Lemma restore_placement_serves l b : serves 0 (restore_placement l b : PT C _) always.
Proof. unfold restore_placement. serve. Qed.
Lemma record_restored_serves hints bid r :
  serves 0 (record_restored hints bid r : PT C unit) always.
Proof. unfold record_restored. serve. Qed.
#[local] Hint Resolve restore_placement_serves record_restored_serves : keeps.
Lemma restore_runtimes_serves : serves 0 (restore_runtimes : PT C unit) always.
Proof. unfold restore_runtimes. serve. Qed.
End runtime_events.
#[export] Hint Resolve record_update_serves record_end_serves sync_status_serves : keeps.

(** ** Buffer requests *)

Lemma started_keeps {C} now bid command cwd started :
  keeps 0 (started_section now bid command cwd started : RT C _).
Proof. unfold started_section. handle_rt. Qed.
Lemma kill_section_keeps now bid : keeps 0 (kill_section now bid).
Proof. unfold kill_section. keep. Qed.
Lemma pipe_section_keeps bid pipe : keeps 0 (pipe_section bid pipe).
Proof. unfold pipe_section. keep. Qed.
Lemma user_option_keeps bid key value : keeps 0 (user_option_section bid key value).
Proof. unfold user_option_section. keep. Qed.
Lemma create_section_keeps limits now title command cwd env sz sid host :
  keeps 1 (create_section limits now title command cwd env sz sid host).
Proof. unfold create_section, check_session. keep. Qed.
Lemma watch_section_keeps bid : keeps 0 (watch_section bid).
Proof. unfold watch_section. keep. Qed.
Lemma resize_section_keeps bid sz : keeps 0 (resize_section bid sz).
Proof. unfold resize_section. keep. Qed.
Lemma open_helper_keeps limits now title bid scope cwd lines sid placement :
  keeps 4 (open_helper limits now title bid scope cwd lines sid placement).
Proof. unfold open_helper, create_floating_from_buffer. keep. Qed.
Lemma close_helper_keeps bid : keeps 1 (close_helper bid).
Proof. unfold close_helper. keep. Qed.
#[export] Hint Resolve started_keeps kill_section_keeps pipe_section_keeps user_option_keeps
  create_section_keeps watch_section_keeps resize_section_keeps open_helper_keeps
  close_helper_keeps : keeps.

Section buffer_requests.
Context {C : Type} {channel : Channel C}.

Lemma safe_resolve_client (rt : Runtime C) connection requested :
  safe (resolve_reveal_client_id rt connection requested).
Proof.
  unfold resolve_reveal_client_id. destruct requested; [by case_bool_decide|].
  case_bool_decide; [done|]. by destruct (attached_clients rt) as [|? []].
Qed.
#[local] Hint Resolve safe_resolve_client : keeps.
Lemma focus_revealed_keeps bid client : keeps 0 (focus_revealed_section bid client : RT C _).
Proof. unfold focus_revealed_section. handle_rt. Qed.
Lemma history_section_keeps location : keeps 0 (history_section location : RT C _).
Proof. unfold history_section. handle_rt. Qed.
#[local] Hint Resolve focus_revealed_keeps history_section_keeps : keeps.

Lemma buffer_runtime_serves bid : serves 0 (buffer_runtime bid : PT C _) always.
Proof. unfold buffer_runtime. serve. Qed.
#[local] Hint Resolve buffer_runtime_serves : keeps.
Lemma spawn_with_serves bid command cwd :
  serves 0 (spawn_buffer_runtime_with bid command cwd : PT C _) always.
Proof. unfold spawn_buffer_runtime_with. serve. Qed.
#[local] Hint Resolve spawn_with_serves : keeps.
Lemma spawn_serves bid : serves 0 (spawn_buffer_runtime bid : PT C _) always.
Proof. unfold spawn_buffer_runtime. serve. Qed.
Lemma kill_buffer_serves bid : serves 0 (kill_buffer bid : PT C _) always.
Proof. unfold kill_buffer. serve. Qed.
Lemma start_pipe_serves bid command cwd env :
  serves 0 (start_buffer_pipe bid command cwd env : PT C _) always.
Proof. unfold start_buffer_pipe. serve. Qed.
Lemma stop_pipe_serves bid : serves 0 (stop_buffer_pipe bid : PT C _) always.
Proof. unfold stop_buffer_pipe. serve. Qed.
Lemma set_user_option_serves bid key value :
  serves 0 (set_buffer_user_option bid key value : PT C _) always.
Proof. unfold set_buffer_user_option. serve. Qed.
#[local] Hint Resolve spawn_serves kill_buffer_serves start_pipe_serves stop_pipe_serves
  set_user_option_serves : keeps.
Lemma cwd_after_serves bid before : serves 0 (cwd_after bid before : PT C _) always.
Proof. unfold cwd_after. serve. Qed.
Lemma resolve_optional_serves connection requested :
  serves 0 (resolve_optional_reveal_client_id connection requested : PT C _) always.
Proof. unfold resolve_optional_reveal_client_id. serve. Qed.
Lemma focus_revealed_serves bid client :
  serves 0 (focus_revealed_buffer bid client : PT C _) always.
Proof. unfold focus_revealed_buffer. serve. Qed.
#[local] Hint Resolve cwd_after_serves resolve_optional_serves focus_revealed_serves : keeps.
Lemma reveal_buffer_serves connection requested bid :
  serves 0 (reveal_buffer connection requested bid : PT C _) always.
Proof. unfold reveal_buffer. serve. Qed.
Lemma create_runtime_serves limits title command cwd env sz sid host :
  serves 1 (create_buffer_runtime limits title command cwd env sz sid host : PT C _) always.
Proof. unfold create_buffer_runtime. serve. Qed.
#[local] Hint Resolve reveal_buffer_serves create_runtime_serves : keeps.

(** A capture names the request it answers. *)
Lemma capture_snapshot_serves rid bid :
  serves 0 (capture_snapshot rid bid : PT C _) (good (λ r, sn_request_id r = rid)).
Proof. unfold capture_snapshot. serve. Qed.
Lemma capture_visible_serves rid bid :
  serves 0 (capture_visible_snapshot rid bid : PT C _) (good (λ r, vs_request_id r = rid)).
Proof. unfold capture_visible_snapshot. serve. Qed.
Lemma capture_slice_serves rid bid start count :
  serves 0 (capture_scrollback_slice rid bid start count : PT C _)
    (good (λ r, sl_request_id r = rid)).
Proof. unfold capture_scrollback_slice. serve. Qed.

Lemma history_session_serves location target :
  serves 0 (history_session location target : PT C _) always.
Proof. unfold history_session. serve. Qed.
Lemma history_lines_serves bid scope ls : serves 0 (history_lines bid scope ls : PT C _) always.
Proof.
  unfold history_lines. destruct ls; [serve|].
  destruct scope; (eapply (serves_attempt_any 0); [lia| |serve]);
    eapply serves_weaken; [apply capture_snapshot_serves|lia|done|
                           apply capture_visible_serves|lia|done].
Qed.
#[local] Hint Resolve history_session_serves history_lines_serves : keeps.
Lemma open_history_serves limits connection requested bid scope placement :
  serves 5 (open_history_buffer limits connection requested bid scope placement : PT C _) always.
Proof. unfold open_history_buffer. serve. Qed.
#[local] Hint Resolve open_history_serves : keeps.

Lemma located_carries rid r location at_root events :
  carries rid (located rid r location at_root events).
Proof.
  unfold located, BufferWithLocationResponse_new. repeat (case_match; simplify_eq); done.
Qed.
Lemma inspect_section_runs rid bid : runs 0 (inspect_section rid bid) (carries rid).
Proof.
  unfold inspect_section. apply answer_read_runs; [keep|]. intros [[r l] a].
  apply runs_ret, located_carries.
Qed.
Lemma detach_section_runs rid bid : runs 1 (detach_section rid bid) (carries rid).
Proof. unfold detach_section. handle_rt. Qed.

Lemma respond_id {A} k rid (p : PT C (result A)) (wrap : A → ServerResponse) (id : A → RequestId) :
  serves k p (good (λ a, id a = rid)) → (∀ a, ServerResponse_request_id (wrap a) = Some (id a)) →
  serves k (respond rid p (λ a, mret (wrap a, []))) (carries rid).
Proof.
  intros Hp Hw. apply (serves_respond k _ _ _ _ (λ a, id a = rid)); [lia|exact Hp|].
  intros a <-. apply Hw.
Qed.

Lemma dispatch_buffer_serves limits connection r :
  serves 5 (dispatch_buffer limits connection r : PT C reply)
    (carries (BufferRequest_request_id r)).
Proof.
  destruct r; cbn [dispatch_buffer BufferRequest_request_id].
  - repeat case_match; serve.
  - serve.
  - serve.
  - eapply serves_weaken; [apply serves_locked, on_state_runs, inspect_section_runs|lia|done].
  - serve.
  - serve.
  - eapply serves_weaken; [apply serves_locked, on_state_runs, detach_section_runs|lia|done].
  - serve.
  - eapply serves_weaken; [|apply N.le_0_l|done].
    by apply (respond_id _ _ _ _ sn_request_id); [apply capture_snapshot_serves|].
  - eapply serves_weaken; [|apply N.le_0_l|done].
    by apply (respond_id _ _ _ _ vs_request_id); [apply capture_visible_serves|].
  - eapply serves_weaken; [|apply N.le_0_l|done].
    by apply (respond_id _ _ _ _ sl_request_id); [apply capture_slice_serves|].
  - serve.
  - serve.
  - apply (serves_respond 5 _ _ _ _ (λ _, True)); [lia|serve|]. intros [location events] _.
    settle_budget. apply (serves_respond 0 _ _ _ _ (λ _, True)); [lia|serve|].
    intros [record at_root] _. apply located_carries.
  - serve.
  - serve.
  - serve.
Qed.
Lemma dispatch_input_serves r :
  serves 0 (dispatch_input r : PT C reply) (carries (InputRequest_request_id r)).
Proof. destruct r; cbn [dispatch_input InputRequest_request_id]; serve. Qed.
End buffer_requests.

(** ** Requests *)

Section requests.
Context {C : Type} {channel : Channel C} (version : rstring).

(** The requests that do not put a layout together by hand. *)
Definition plain_request (m : ClientMessage) : bool :=
  match m with CmNode r => negb (assembles r) | _ => true end.

Lemma with_dispose_serves k (m : PT C reply) rid :
  serves k m (carries rid) → serves k (with_dispose m) (carries rid).
Proof.
  intros Hm. unfold with_dispose. replace k with (k + 0)%N by lia.
  eapply serves_bind; [exact Hm|]. intros r Hr. apply serves_then; [serve|]. intros events. exact Hr.
Qed.

Lemma dispatch_request_serves limits connection m :
  plain_request m = true →
  serves 5 (dispatch_request version limits connection m : PT C (reply * bool))
    (λ r, carries (ClientMessage_request_id m) r.1).
Proof.
  intros Hp. destruct m; cbn [dispatch_request ClientMessage_request_id];
    lazymatch goal with
    | |- serves _ (stays _) _ => apply stays_serves
    | _ => idtac
    end; try serve.
  - eapply (serves_weaken _ 2); [apply with_cleanup_serves, dispatch_session_serves|lia|done].
  - apply with_dispose_serves, dispatch_buffer_serves.
  - eapply (serves_weaken _ 2); [apply with_cleanup_serves, serves_locked, on_state_runs|lia|done].
    apply dispatch_node_runs. simpl in Hp. by apply negb_true_iff.
  - eapply (serves_weaken _ 3); [apply with_cleanup_serves, serves_locked, on_state_runs|lia|done].
    apply dispatch_floating_runs.
  - eapply serves_weaken; [apply dispatch_input_serves|lia|done].
  - eapply serves_weaken; [apply dispatch_client_serves|lia|done].
Qed.

Lemma handle_request_answers limits connection m :
  plain_request m = true →
  answers connection (ClientMessage_request_id m) 5
    (handle_request version limits connection m : PT C (option ConnectionExit)).
Proof.
  intros Hp. unfold handle_request. replace 5%N with (5 + 0)%N by done.
  eapply answers_bind; [by apply dispatch_request_serves|].
  intros [[response events] stop] Hr. apply answers_reply; [exact Hr|]. serve.
Qed.
End requests.

(** The sections run while a server starts keep the state consistent and do not
    fail. *)

Section startup.
Context {C : Type} {channel : Channel C}.

Lemma forget_vim_keeps bid : keeps 0 (modify (set_buffers (alter forget_vim bid))).
Proof. apply alter_buffer_keeps; [by apply same_record_buffer|by apply same_record_end]. Qed.
#[local] Hint Resolve forget_vim_keeps restore_runtimes_serves spawn_with_serves
  buffer_runtime_serves : keeps.

Lemma interrupted_runs : runs 0 (interrupted_section : RT C _) always.
Proof. unfold interrupted_section. handle_rt. Qed.
#[local] Hint Resolve interrupted_runs : keeps.
Lemma restart_interrupted_serves :
  serves 0 (restart_interrupted_buffers : PT C unit) always.
Proof. unfold restart_interrupted_buffers. serve. Qed.
#[local] Hint Resolve restart_interrupted_serves : keeps.
Lemma start_server_serves restore : serves 0 (start_server restore : PT C unit) always.
Proof. unfold start_server. serve. Qed.
Lemma restart_buffer_serves restore is_dir shell bid :
  serves 0 (restart_buffer restore is_dir shell bid : PT C _) always.
Proof. unfold restart_buffer. serve. Qed.
Lemma type_when_ready_serves looks bid bytes :
  serves 0 (type_when_ready looks bid bytes : PT C unit) always.
Proof. induction looks as [|looks IH]; cbn [type_when_ready]; serve. Qed.
Lemma type_command_serves bid line :
  serves 0 (type_restored_command bid line : PT C unit) always.
Proof. apply type_when_ready_serves. Qed.
End startup.
#[export] Hint Resolve start_server_serves restart_buffer_serves type_command_serves : keeps.
