(* ===== verification/ConcurrencySpec.v ===== *)
(** Whatever order the tasks of the server run in: every request gets exactly one
    reply, its own, and as long as no request puts a layout together by hand, the
    state stays consistent, no task gets stuck and panes change as [pane_step]
    allows. *)

From stdpp Require Import relations.
From S2P Require Import Prelude Core Model Environment State Queries Buffers Focus.
From S2P Require Import Tree Layout Moves Protocol Snapshot Runtimes Restore Server.
From S2P Require Import RuntimeEvents Dispatch BufferRequests Requests Startup.
From S2P Require Import Concurrency Ids Forest Invariant QueriesSpec FocusSpec Settle.
From S2P Require Import Surgery Cosmetic Closing Exits SnapshotSpec Keeps Serves.
From S2P Require Import Serving.

(** ** Answering, whatever the state *)

(** What [m] gives, when it gives a value, satisfies [P]. *)
Definition gives {S A} (m : ST S A) (P : A → Prop) : Prop := ∀ s a s', m s = (Ok a, s') → P a.

Lemma gives_any {S A} (m : ST S A) : gives m always.
Proof. by intros s a s' _. Qed.
Lemma gives_ret {S A} (a : A) (P : A → Prop) : P a → gives (mret a : ST S A) P.
Proof. by intros Ha s a' s' [= <- _]. Qed.
Lemma gives_bind {S A B} (m : ST S A) (f : A → ST S B) P Q :
  gives m P → (∀ a, P a → gives (f a) Q) → gives (m ≫= f) Q.
Proof.
  intros Hm Hf s b s'. unfold mbind, ST_bind. destruct (m s) as [[a| | |] s1] eqn:Hs; try done.
  apply Hf. by eapply Hm.
Qed.
Lemma gives_then {S A B} (m : ST S A) (f : A → ST S B) Q :
  (∀ a, gives (f a) Q) → gives (m ≫= f) Q.
Proof. intros Hf. apply (gives_bind m f always); [apply gives_any|auto]. Qed.
Lemma gives_answer {S A} rid (m : ST S A) (f : A → ST S reply) :
  (∀ a, gives (f a) (carries rid)) → gives (answer rid m f) (carries rid).
Proof. intros Hf. apply gives_then. intros [a|e]; [apply Hf|by apply gives_ret]. Qed.
Lemma gives_on_state {C A} (m : SM A) P : gives m P → gives (on_state m : RT C A) P.
Proof.
  intros Hm rt a rt'. unfold on_state. destruct (m (rt_state rt)) as [o st] eqn:Hs.
  intros [= -> _]. by eapply Hm.
Qed.

(** [p] sends no reply, and ends in a value satisfying [P]. *)
Fixpoint mute {S A} (p : proc HostCall S A) (P : A → Prop) : Prop :=
  match p with
  | Done a => P a
  | Locked m next => ∃ Q, gives m Q ∧ ∀ b, Q b → mute (next b) P
  | Await c next => reply_of c = None ∧ ∀ b, mute (next b) P
  end.
(** [p] sends one reply, to [rid] of [id], before it ends. *)
Fixpoint replies {S A} (id : ClientId) (rid : RequestId) (p : proc HostCall S A) : Prop :=
  match p with
  | Done a => False
  | Locked m next => ∃ Q, gives m Q ∧ ∀ b, Q b → replies id rid (next b)
  | Await c next =>
      match reply_of c with
      | Some r => r.1 = id ∧ ServerResponse_request_id r.2 = Some rid ∧ ∀ b, mute (next b) always
      | None => ∀ b, replies id rid (next b)
      end
  end.

Section mute.
Context {S : Type}.

Lemma mute_ret {A} (a : A) (P : A → Prop) : P a → mute (mret a : proc HostCall S A) P.
Proof. exact id. Qed.
Lemma mute_locked {A} (m : ST S A) P : gives m P → mute (locked m) P.
Proof. intros Hm. by exists P. Qed.
Lemma mute_section {A} (m : ST S A) : mute (section m) always.
Proof. apply mute_locked, gives_any. Qed.
Lemma mute_await {A} (c : HostCall A) : reply_of c = None → mute (await c : proc HostCall S A) always.
Proof. by split. Qed.
Lemma mute_weaken {A} (p : proc HostCall S A) (P P' : A → Prop) :
  mute p P → (∀ a, P a → P' a) → mute p P'.
Proof.
  intros Hp HP. induction p as [a|B m next IH|B c next IH]; simpl in *; [by apply HP|..].
  - destruct Hp as (Q & Hm & Hn). exists Q. split; [exact Hm|]. intros b Hb. by apply IH, Hn.
  - destruct Hp as [? Hn]. split; [done|]. intros b. apply IH, Hn.
Qed.
Lemma mute_bind {A B} (p : proc HostCall S A) (f : A → proc HostCall S B) P Q :
  mute p P → (∀ a, P a → mute (f a) Q) → mute (p ≫= f) Q.
Proof.
  intros Hp Hf. induction p as [a|D m next IH|D c next IH]; simpl in *; [by apply Hf|..].
  - destruct Hp as (R & Hm & Hn). exists R. split; [exact Hm|]. intros b Hb. by apply IH, Hn.
  - destruct Hp as [? Hn]. split; [done|]. intros b. apply IH, Hn.
Qed.
Lemma mute_then {A B} (p : proc HostCall S A) (f : A → proc HostCall S B) Q :
  mute p always → (∀ a, mute (f a) Q) → mute (p ≫= f) Q.
Proof. intros Hp Hf. by apply (mute_bind p f always). Qed.
Lemma mute_fold {A B} (f : B → A → proc HostCall S B) l :
  (∀ b x, mute (f b x) always) → ∀ b, mute (fold_proc f b l) always.
Proof. intros Hf. induction l as [|x l IH]; intros b; [done|]. by apply mute_then. Qed.
Lemma mute_try {A B} (p : proc HostCall S (result A)) (f : A → proc HostCall S (result B)) P Q :
  mute p (good P) → (∀ a, P a → mute (f a) (good Q)) → mute (try p f) (good Q).
Proof. intros Hp Hf. apply (mute_bind _ _ (good P)); [exact Hp|]. by intros [a|e]; [apply Hf|]. Qed.
Lemma mute_attempt {A B} (p : proc HostCall S (result A)) (f : A → proc HostCall S (result B)) Q :
  mute p always → (∀ a, mute (f a) (good Q)) → mute (try p f) (good Q).
Proof. intros Hp Hf. apply mute_then; [exact Hp|]. by intros [a|e]; [apply Hf|]. Qed.
Lemma mute_attempt_any {A B} (p : proc HostCall S (result A)) (f : A → proc HostCall S (result B)) :
  mute p always → (∀ a, mute (f a) always) → mute (try p f) always.
Proof. intros Hp Hf. apply mute_then; [exact Hp|]. by intros [a|e]. Qed.
Lemma mute_good {A} (p : proc HostCall S (result A)) : mute p always → mute p (good always).
Proof. intros Hp. apply (mute_weaken p always); [exact Hp|by intros [] ?]. Qed.

Lemma replies_bind {A B} id rid (p : proc HostCall S A) (f : A → proc HostCall S B) P :
  mute p P → (∀ a, P a → replies id rid (f a)) → replies id rid (p ≫= f).
Proof.
  intros Hp Hf. induction p as [a|D m next IH|D c next IH]; simpl in *; [by apply Hf|..].
  - destruct Hp as (R & Hm & Hn). exists R. split; [exact Hm|]. intros b Hb. by apply IH, Hn.
  - destruct Hp as [-> Hn]. intros b. apply IH, Hn.
Qed.
Lemma replies_reply {A} id rid response (f : bool → proc HostCall S A) :
  ServerResponse_request_id response = Some rid → (∀ b, mute (f b) always) →
  replies id rid (await (HcReply id response) ≫= f).
Proof. intros Hr Hf. split; [done|]. split; [exact Hr|exact Hf]. Qed.
Lemma replies_then {A B} id rid (p : proc HostCall S A) (f : A → proc HostCall S B) :
  replies id rid p → (∀ a, mute (f a) always) → replies id rid (p ≫= f).
Proof.
  intros Hp Hf. induction p as [a|D m next IH|D c next IH]; simpl in *; [done|..].
  - destruct Hp as (Q & Hm & Hn). exists Q. split; [exact Hm|]. intros b Hb. by apply IH, Hn.
  - destruct (reply_of c).
    + split_and!; [apply Hp..|]. intros b. apply mute_then; [apply Hp|exact Hf].
    + intros b. apply IH, Hp.
Qed.
End mute.
Lemma mute_respond {C A} rid (p : PT C (result A)) (f : A → PT C reply) P :
  mute p (good P) → (∀ a, P a → mute (f a) (carries rid)) → mute (respond rid p f) (carries rid).
Proof.
  intros Hp Hf. apply (mute_bind _ _ (good P)); [exact Hp|]. by intros [a|e]; [apply Hf|].
Qed.

Create HintDb mute.
Ltac giving :=
  cbn beta iota zeta;
  lazymatch goal with
  | |- ∀ _, _ => intro; giving
  | |- gives _ (λ _, True) => apply gives_any
  | |- gives (answer _ _ _) _ => apply gives_answer; giving
  | |- gives (on_state _) _ => apply gives_on_state; giving
  | |- gives (mret _) _ => apply gives_ret; first [done|assumption|by case_match]
  | |- gives (mbind _ _) _ =>
      first [eapply gives_bind; [solve [eauto with mute]|giving] | apply gives_then; giving]
  | |- gives (match ?x with _ => _ end) _ => destruct x; giving
  | |- gives _ _ => solve [eauto with mute]
  end.
Ltac muted :=
  cbn beta iota zeta;
  lazymatch goal with
  | |- ∀ _, _ => intro; muted
  | |- mute (mret _) _ => apply mute_ret; first [done|assumption|by case_match]
  | |- mute (locked _) _ => apply mute_locked; giving
  | |- mute (section _) (good _) => apply mute_good, mute_section
  | |- mute (section _) _ => apply mute_section
  | |- mute (await _) (good _) => apply mute_good, mute_await; reflexivity
  | |- mute (await _) _ => apply mute_await; reflexivity
  | |- mute (respond _ _ _) (carries _) => apply (mute_respond _ _ _ (λ _, True)); [solve [muted]|muted]
  | |- mute (fold_proc _ _ _) _ => apply mute_fold; muted
  | |- mute (try _ _) (good _) => apply mute_attempt; [solve [muted]|muted]
  | |- mute (try _ _) _ => apply mute_attempt_any; [solve [muted]|muted]
  | |- mute (mbind _ _) _ => apply mute_then; [solve [muted]|muted]
  | |- mute (match ?x with _ => _ end) _ => destruct x; muted
  | |- mute _ (good _) => first [apply mute_good; solve [eauto with mute]|solve [eauto with mute]]
  | |- mute _ _ => solve [eauto with mute]
  | |- _ => giving
  end.

(** ** The handlers answer the request they got *)

Lemma layout_ok_gives rid sid : gives (layout_ok_response rid sid) (carries rid).
Proof. unfold layout_ok_response. giving. Qed.
Lemma layout_snapshot_gives rid sid : gives (layout_snapshot_response rid sid) (carries rid).
Proof. unfold layout_snapshot_response. giving. Qed.
Lemma focus_snapshot_gives rid sid : gives (focus_snapshot_response rid sid) (carries rid).
Proof. unfold focus_snapshot_response. giving. Qed.
Lemma snapshot_gives rid sid : gives (snapshot_response rid sid) (carries rid).
Proof. unfold snapshot_response. giving. Qed.
#[export] Hint Resolve layout_ok_gives layout_snapshot_gives focus_snapshot_gives snapshot_gives : mute.
Lemma layout_floating_gives rid sid id moved :
  gives (layout_floating_response rid sid id moved) (carries rid).
Proof. unfold layout_floating_response. giving. Qed.
#[export] Hint Resolve layout_floating_gives : mute.
Lemma dispatch_node_gives r : gives (dispatch_node r) (carries (NodeRequest_request_id r)).
Proof. destruct r; cbn [dispatch_node NodeRequest_request_id]; unfold move_node_before, move_node_after; giving. Qed.
Lemma dispatch_floating_gives r :
  gives (dispatch_floating r) (carries (FloatingRequest_request_id r)).
Proof. destruct r; cbn [dispatch_floating FloatingRequest_request_id]; giving. Qed.
Lemma inspect_section_gives rid bid : gives (inspect_section rid bid) (carries rid).
Proof.
  unfold inspect_section. apply gives_answer. intros [[r l] a]. apply gives_ret, located_carries.
Qed.
Lemma detach_section_gives rid bid : gives (detach_section rid bid) (carries rid).
Proof. unfold detach_section. giving. Qed.
#[export] Hint Resolve dispatch_node_gives dispatch_floating_gives inspect_section_gives
  detach_section_gives : mute.

Section replies.
Context {C : Type} {channel : Channel C} (version : rstring).

Lemma subscribe_gives id rid sid : gives (subscribe id rid sid : RT C reply) (carries rid).
Proof. unfold subscribe. giving. Qed.
Lemma unsubscribe_gives id rid sub : gives (unsubscribe id rid sub : RT C reply) (carries rid).
Proof. unfold unsubscribe. giving. Qed.
#[local] Hint Resolve subscribe_gives unsubscribe_gives : mute.
Lemma alone_gives (m : RT C reply) rid :
  gives m (carries rid) → gives (alone m) (λ r, carries rid r.1).
Proof. intros Hm. unfold alone. eapply gives_bind; [exact Hm|]. intros r Hr. by apply gives_ret. Qed.
Lemma session_section_gives limits now r :
  gives (session_section limits now r : RT C _) (λ a, carries (SessionRequest_request_id r) a.1).
Proof.
  destruct r; cbn [session_section SessionRequest_request_id];
    lazymatch goal with |- gives (alone _) _ => apply alone_gives | _ => idtac end;
    unfold close_root_tab, check_session; giving.
Qed.

Lemma client_changed_mute changed : mute (client_changed_events changed : PT C _) always.
Proof. unfold client_changed_events. muted. Qed.
Lemma sync_host_graphics_mute : mute (sync_host_graphics : PT C unit) always.
Proof. unfold sync_host_graphics. muted. Qed.
Lemma detach_client_mute id : mute (detach_client id : PT C _) always.
Proof. unfold detach_client. muted. Qed.
#[local] Hint Resolve client_changed_mute sync_host_graphics_mute detach_client_mute : mute.
Lemma set_client_session_mute id sid : mute (set_client_session id sid : PT C _) always.
Proof. unfold set_client_session. muted. Qed.
Lemma display_message_mute id sid e : mute (display_message id sid e : PT C _) always.
Proof. unfold display_message. muted. Qed.
Lemma switch_node_mute target sid id : mute (switch_node target sid id : PT C _) always.
Proof. unfold switch_node. muted. Qed.
Lemma destroy_emptied_mute had events :
  mute (destroy_emptied_sessions had events : PT C _) always.
Proof. unfold destroy_emptied_sessions. muted. Qed.
#[local] Hint Resolve set_client_session_mute display_message_mute switch_node_mute
  destroy_emptied_mute : mute.
Lemma runtime_dispose_mute events : mute (Runtime_dispose_exited_buffers events : PT C _) always.
Proof. unfold Runtime_dispose_exited_buffers. muted. Qed.
#[local] Hint Resolve runtime_dispose_mute : mute.
Lemma sync_watched_mute ids events : mute (sync_watched_buffers ids events : PT C _) always.
Proof. unfold sync_watched_buffers. muted. Qed.
#[local] Hint Resolve sync_watched_mute : mute.
Lemma cleanup_connection_mute id : mute (cleanup_connection id : PT C unit) always.
Proof. unfold cleanup_connection. muted. Qed.
Lemma clients_showing_mute bid : mute (clients_showing_buffer bid : PT C _) always.
Proof. unfold clients_showing_buffer. muted. Qed.
#[local] Hint Resolve clients_showing_mute : mute.
Lemma forward_clipboard_mute bid sel text : mute (forward_clipboard bid sel text : PT C unit) always.
Proof. unfold forward_clipboard. muted. Qed.
Lemma forward_passthrough_mute bid writes : mute (forward_passthrough bid writes : PT C unit) always.
Proof. unfold forward_passthrough. muted. Qed.

(** *** What the runtimes report, and the start of the server *)

Lemma record_update_mute bid u : mute (record_buffer_update bid u : PT C unit) always.
Proof. unfold record_buffer_update. muted. Qed.
Lemma record_end_mute bid e : mute (record_buffer_end bid e : PT C unit) always.
Proof. unfold record_buffer_end. muted. Qed.
#[local] Hint Resolve record_update_mute record_end_mute : mute.
Lemma sync_status_mute bid : mute (sync_buffer_runtime_status bid : PT C _) always.
Proof. unfold sync_buffer_runtime_status. muted. Qed.
Lemma taken_up_mute bid status : mute (record_buffer_taken_up bid status : PT C unit) always.
Proof. unfold record_buffer_taken_up. muted. Qed.
#[local] Hint Resolve sync_status_mute taken_up_mute : mute.
Lemma restore_placement_mute l b : mute (restore_placement l b : PT C _) always.
Proof. unfold restore_placement. muted. Qed.
Lemma record_restored_mute hints bid r : mute (record_restored hints bid r : PT C unit) always.
Proof. unfold record_restored. muted. Qed.
#[local] Hint Resolve restore_placement_mute record_restored_mute : mute.
Lemma restore_runtimes_mute : mute (restore_runtimes : PT C unit) always.
Proof. unfold restore_runtimes. muted. Qed.
Lemma buffer_runtime_mute bid : mute (buffer_runtime bid : PT C _) always.
Proof. unfold buffer_runtime. muted. Qed.
#[local] Hint Resolve restore_runtimes_mute buffer_runtime_mute : mute.
Lemma spawn_with_mute bid command cwd :
  mute (spawn_buffer_runtime_with bid command cwd : PT C _) always.
Proof. unfold spawn_buffer_runtime_with. muted. Qed.
#[local] Hint Resolve spawn_with_mute : mute.
Lemma spawn_mute bid : mute (spawn_buffer_runtime bid : PT C _) always.
Proof. unfold spawn_buffer_runtime. muted. Qed.
#[local] Hint Resolve spawn_mute : mute.
Lemma restart_interrupted_mute : mute (restart_interrupted_buffers : PT C unit) always.
Proof. unfold restart_interrupted_buffers. muted. Qed.
#[local] Hint Resolve restart_interrupted_mute : mute.
Lemma start_server_mute restore : mute (start_server restore : PT C unit) always.
Proof. unfold start_server. muted. Qed.
Lemma restart_buffer_mute restore is_dir shell bid :
  mute (restart_buffer restore is_dir shell bid : PT C _) always.
Proof. unfold restart_buffer. muted. Qed.
Lemma type_when_ready_mute looks bid bytes : mute (type_when_ready looks bid bytes : PT C unit) always.
Proof. induction looks as [|looks IH]; cbn [type_when_ready]; muted. Qed.

(** *** Requests about buffers *)

Lemma kill_buffer_mute bid : mute (kill_buffer bid : PT C _) always.
Proof. unfold kill_buffer. muted. Qed.
Lemma start_pipe_mute bid command cwd env :
  mute (start_buffer_pipe bid command cwd env : PT C _) always.
Proof. unfold start_buffer_pipe. muted. Qed.
Lemma stop_pipe_mute bid : mute (stop_buffer_pipe bid : PT C _) always.
Proof. unfold stop_buffer_pipe. muted. Qed.
Lemma set_user_option_mute bid key value : mute (set_buffer_user_option bid key value : PT C _) always.
Proof. unfold set_buffer_user_option. muted. Qed.
Lemma cwd_after_mute bid before : mute (cwd_after bid before : PT C _) always.
Proof. unfold cwd_after. muted. Qed.
Lemma resolve_optional_mute connection requested :
  mute (resolve_optional_reveal_client_id connection requested : PT C _) always.
Proof. unfold resolve_optional_reveal_client_id. muted. Qed.
Lemma focus_revealed_mute bid client : mute (focus_revealed_buffer bid client : PT C _) always.
Proof. unfold focus_revealed_buffer. muted. Qed.
#[local] Hint Resolve kill_buffer_mute start_pipe_mute stop_pipe_mute set_user_option_mute
  cwd_after_mute resolve_optional_mute focus_revealed_mute : mute.
Lemma reveal_buffer_mute connection requested bid :
  mute (reveal_buffer connection requested bid : PT C _) always.
Proof. unfold reveal_buffer. muted. Qed.
Lemma create_runtime_mute limits title command cwd env sz sid host :
  mute (create_buffer_runtime limits title command cwd env sz sid host : PT C _) always.
Proof. unfold create_buffer_runtime. muted. Qed.
Lemma capture_snapshot_mute rid bid :
  mute (capture_snapshot rid bid : PT C _) (good (λ r, sn_request_id r = rid)).
Proof. unfold capture_snapshot. muted. Qed.
Lemma capture_visible_mute rid bid :
  mute (capture_visible_snapshot rid bid : PT C _) (good (λ r, vs_request_id r = rid)).
Proof. unfold capture_visible_snapshot. muted. Qed.
Lemma capture_slice_mute rid bid start count :
  mute (capture_scrollback_slice rid bid start count : PT C _) (good (λ r, sl_request_id r = rid)).
Proof. unfold capture_scrollback_slice. muted. Qed.
Lemma history_session_mute location target : mute (history_session location target : PT C _) always.
Proof. unfold history_session. muted. Qed.
Lemma history_lines_mute bid scope ls : mute (history_lines bid scope ls : PT C _) always.
Proof.
  unfold history_lines. destruct ls; [muted|].
  destruct scope; (apply mute_attempt_any; [|muted]); eapply mute_weaken;
    [apply capture_snapshot_mute|done|apply capture_visible_mute|done].
Qed.
#[local] Hint Resolve reveal_buffer_mute create_runtime_mute history_session_mute history_lines_mute : mute.
Lemma open_history_mute limits connection requested bid scope placement :
  mute (open_history_buffer limits connection requested bid scope placement : PT C _) always.
Proof. unfold open_history_buffer. muted. Qed.
#[local] Hint Resolve open_history_mute : mute.

Lemma mute_respond_id {A} rid (p : PT C (result A)) (wrap : A → ServerResponse) (id : A → RequestId) :
  mute p (good (λ a, id a = rid)) → (∀ a, ServerResponse_request_id (wrap a) = Some (id a)) →
  mute (respond rid p (λ a, mret (wrap a, []))) (carries rid).
Proof. intros Hp Hw. apply (mute_respond _ _ _ (λ a, id a = rid)); [exact Hp|]. intros a <-. apply Hw. Qed.
Lemma dispatch_buffer_mute limits connection r :
  mute (dispatch_buffer limits connection r : PT C reply) (carries (BufferRequest_request_id r)).
Proof.
  destruct r; cbn [dispatch_buffer BufferRequest_request_id];
    first [ apply (mute_respond_id _ _ _ sn_request_id); [apply capture_snapshot_mute|done]
          | apply (mute_respond_id _ _ _ vs_request_id); [apply capture_visible_mute|done]
          | apply (mute_respond_id _ _ _ sl_request_id); [apply capture_slice_mute|done]
          | solve [muted] | idtac ].
  apply (mute_respond _ _ _ (λ _, True)); [muted|]. intros [location events] _.
  apply (mute_respond _ _ _ (λ _, True)); [muted|]. intros [record at_root] _. apply located_carries.
Qed.

(** *** All requests, and all tasks *)

Lemma stays_mute (p : PT C reply) rid :
  mute p (carries rid) → mute (stays p) (λ r, carries rid r.1).
Proof. intros Hp. unfold stays. eapply mute_bind; [exact Hp|]. intros r Hr. exact Hr. Qed.
Lemma with_cleanup_mute closes (m : PT C reply) rid :
  mute m (carries rid) → mute (with_cleanup closes m) (carries rid).
Proof.
  intros Hm. unfold with_cleanup. apply mute_then; [muted|]. intros had.
  eapply mute_bind; [exact Hm|]. intros r Hr.
  apply mute_then; [muted|]. intros events. apply mute_then; [muted|]. intros events'. exact Hr.
Qed.
Lemma with_dispose_mute (m : PT C reply) rid :
  mute m (carries rid) → mute (with_dispose m) (carries rid).
Proof.
  intros Hm. unfold with_dispose. eapply mute_bind; [exact Hm|]. intros r Hr.
  apply mute_then; [muted|]. intros events. exact Hr.
Qed.
Lemma dispatch_session_mute limits r :
  mute (dispatch_session limits r : PT C reply) (carries (SessionRequest_request_id r)).
Proof.
  unfold dispatch_session. apply mute_then; [muted|]. intros now.
  eapply mute_bind; [apply mute_locked, session_section_gives|].
  intros a Ha. apply mute_then; [muted|]. intros events. exact Ha.
Qed.
Lemma dispatch_client_mute id r :
  mute (dispatch_client id r : PT C (reply * bool)) (λ a, carries (ClientRequest_request_id r) a.1).
Proof.
  destruct r; cbn [dispatch_client ClientRequest_request_id];
    lazymatch goal with |- mute (stays _) _ => apply stays_mute | _ => idtac end; muted.
Qed.
Lemma dispatch_input_mute r :
  mute (dispatch_input r : PT C reply) (carries (InputRequest_request_id r)).
Proof. destruct r; cbn [dispatch_input InputRequest_request_id]; muted. Qed.
Lemma dispatch_request_mute limits connection m :
  mute (dispatch_request version limits connection m : PT C (reply * bool))
    (λ r, carries (ClientMessage_request_id m) r.1).
Proof.
  destruct m; cbn [dispatch_request ClientMessage_request_id];
    lazymatch goal with |- mute (stays _) _ => apply stays_mute | _ => idtac end; try muted.
  - apply with_cleanup_mute, dispatch_session_mute.
  - apply with_dispose_mute, dispatch_buffer_mute.
  - apply with_cleanup_mute, mute_locked, gives_on_state, dispatch_node_gives.
  - apply with_cleanup_mute, mute_locked, gives_on_state, dispatch_floating_gives.
  - apply dispatch_input_mute.
  - apply dispatch_client_mute.
Qed.
Lemma handle_request_replies limits connection m :
  replies connection (ClientMessage_request_id m)
    (handle_request version limits connection m : PT C (option ConnectionExit)).
Proof.
  unfold handle_request. eapply replies_bind; [apply dispatch_request_mute|].
  intros [[response events] stop] Hr. apply replies_reply; [exact Hr|]. muted.
Qed.

(** A task that has a request to answer replies to it once; the others never reply. *)
Definition honest (t : task C) : Prop :=
  match tk_request t with
  | Some (id, rid) => replies id rid (tk_proc t)
  | None => mute (tk_proc t) always
  end.
Lemma start_honest limits a :
  honest (mkTask (start_task version limits a : PT C unit) (request_of a)).
Proof.
  destruct a; unfold honest; cbn [tk_request tk_proc request_of start_task].
  - apply start_server_mute.
  - apply mute_then; [apply restart_buffer_mute|done].
  - apply type_when_ready_mute.
  - muted.
  - apply replies_then; [apply handle_request_replies|done].
  - apply cleanup_connection_mute.
  - apply record_update_mute.
  - apply record_end_mute.
  - apply taken_up_mute.
  - apply forward_clipboard_mute.
  - apply forward_passthrough_mute.
Qed.
Lemma honest_step t rt reply rt' p : honest t → task_step rt (tk_proc t) reply rt' p →
  honest (mkTask p (answered t reply))
  ∧ match reply with
    | Some r => Some (r.1, ServerResponse_request_id r.2) = prod_map id Some <$> tk_request t
    | None => True
    end.
Proof.
  intros Hs Hstep. destruct t as [q req]. unfold honest, answered in *. simpl in *.
  destruct Hstep as [rt rt' B m next b Hm|rt B call next b]; simpl in *.
  - split; [|done]. destruct req as [[id rid]|]; destruct Hs as (Q & Hg & Hn); eapply Hn, Hg, Hm.
  - destruct req as [[id rid]|].
    + destruct (reply_of call) as [r|]; [|by split].
      destruct Hs as (-> & -> & Hn). by split.
    + destruct Hs as [-> Hn]. by split.
Qed.
Lemma honest_over t : honest t → tk_proc t = Done () → tk_request t = None.
Proof. unfold honest. destruct (tk_request t) as [[]|]; [|done]. intros H He. by rewrite He in H. Qed.

(** *** Every request has one answer *)

Definition same_id (r : ClientId * ServerResponse) : ClientId * option RequestId :=
  (r.1, ServerResponse_request_id r.2).
Definition pending (c : config C) : list (ClientId * RequestId) := omap tk_request (cf_tasks c).

Lemma pending_step (c : config C) l1 t l2 reply p rt rs :
  cf_tasks c = l1 ++ t :: l2 →
  match reply with
  | Some r => Some (same_id r) = prod_map id Some <$> tk_request t
  | None => True
  end →
  prod_map id Some <$> cf_requests c
    ≡ₚ (same_id <$> cf_replies c) ++ (prod_map id Some <$> pending c) →
  prod_map id Some <$> cf_requests c
    ≡ₚ (same_id <$> cf_replies c ++ option_list reply)
       ++ (prod_map id Some <$>
             pending (mkConfig rt (l1 ++ mkTask p (answered t reply) :: l2) rs
                        (cf_replies c ++ option_list reply))).
Proof.
  intros Ht Hr ->. unfold pending. simpl. rewrite Ht, !omap_app, !fmap_app. simpl.
  unfold answered. destruct reply as [r|]; simpl.
  - destruct (tk_request t) as [q|] eqn:Hq; [|done]. apply (inj Some) in Hr.
    simpl. rewrite Hr. solve_Permutation.
  - rewrite app_nil_r. destruct (tk_request t); done.
Qed.

Definition all_answered (c : config C) : Prop :=
  prod_map id Some <$> cf_requests c
    ≡ₚ (same_id <$> cf_replies c) ++ (prod_map id Some <$> pending c).
Lemma reaches_answered adm limits st0 n (c : config C) :
  reaches version adm limits (started st0) n c → Forall honest (cf_tasks c) ∧ all_answered c.
Proof.
  intros Hr. induction Hr as [|n c a Hr [Hh Hp] Ha|n c l1 t l2 reply rt p Hr [Hh Hp] Ht Hstep].
  - split; [by apply Forall_nil|apply perm_nil].
  - split; [apply Forall_app; split; [exact Hh|constructor; [apply start_honest|constructor]]|].
    unfold all_answered, pending in *. simpl. rewrite fmap_app, omap_app, fmap_app. simpl.
    rewrite Hp. destruct (request_of a); simpl; solve_Permutation.
  - rewrite Ht in Hh. apply Forall_app in Hh as [H1 [H2 H3]%Forall_cons].
    destruct (honest_step _ _ _ _ _ H2 Hstep) as [H2' Hreq]. split.
    + apply Forall_app. split; [exact H1|]. by constructor.
    + apply (pending_step c l1 t l2 reply p rt (cf_requests c)); [exact Ht|by destruct reply|exact Hp].
Qed.
End replies.

(** ** Consistency, and progress *)

Section tasks.
Context {C : Type} {channel : Channel C} (version : rstring).

(** The requests the tools for putting layouts together by hand make are left out:
    the limits in [WorkspaceTheorems] show what they can do. *)
Definition admitted (a : arrival C) : Prop :=
  match a with ArRequest _ m => plain_request m = true | _ => True end.

(** What a task has left to hand out, and whom it still has to answer. *)
Definition served (k : N) (t : task C) : Prop :=
  match tk_request t with
  | Some (id, rid) => answers id rid k (tk_proc t)
  | None => serves k (tk_proc t) always
  end.

Lemma connect_runs id outbound : runs 0 (connect id outbound : RT C unit) always.
Proof. unfold connect, register_client. handle_rt. Qed.
Lemma start_served limits a :
  admitted a → served 5 (mkTask (start_task version limits a : PT C unit) (request_of a)).
Proof.
  intros Ha.
  destruct a as [r|r d sh bid|bid line|id ch|id m|id|bid u|bid e|bid s|bid sel text|bid ws]; unfold served;
    cbn [tk_request tk_proc request_of start_task].
  - eapply serves_weaken; [apply start_server_serves|lia|done].
  - apply serves_then; [apply restart_buffer_serves|intros; by apply serves_ret].
  - eapply serves_weaken; [apply type_command_serves|lia|done].
  - apply serves_locked. eapply runs_weaken; [apply connect_runs|lia|done].
  - apply answers_then; [by apply handle_request_answers|serve].
  - eapply serves_weaken; [apply cleanup_connection_serves|lia|done].
  - eapply serves_weaken; [apply record_update_serves|lia|done].
  - eapply serves_weaken; [apply record_end_serves|lia|done].
  - eapply serves_weaken; [apply taken_up_serves|lia|done].
  - eapply serves_weaken; [apply forward_clipboard_serves|lia|done].
  - eapply serves_weaken; [apply forward_passthrough_serves|lia|done].
Qed.

Lemma served_unfinished k t : served k t → tk_proc t = Done () → tk_request t = None.
Proof. unfold served. destruct (tk_request t) as [[]|]; [|done]. intros H He. by rewrite He in H. Qed.

(** The state allows [k] more ids, and one step of a task spends some of its own. *)
Lemma served_step k extra t rt reply rt' p :
  served k t → consistent (rt_state rt) → roomy (k + extra) (rt_state rt) →
  task_step rt (tk_proc t) reply rt' p →
  ∃ k', served k' (mkTask p (answered t reply)) ∧ consistent (rt_state rt')
        ∧ roomy (k' + extra) (rt_state rt')
        ∧ (∃ k1, ids_within k1 (rt_state rt) (rt_state rt') ∧ k1 ≤ k)%N
        ∧ rtc pane_step (views (rt_state rt)) (views (rt_state rt')).
Proof.
  intros Hs Hc R Hstep. destruct t as [q req]. simpl in *.
  destruct Hstep as [rt rt' B m next b Hm|rt B call next b]; unfold served, answered in *; simpl in *.
  - assert (∃ k1 (Q : B → Prop), (k1 ≤ k)%N ∧ runs k1 m Q ∧ ∀ b, Q b →
      match req with Some (id, rid) => answers id rid (k - k1) (next b)
                | None => serves (k - k1) (next b) always end) as (k1 & Q & Hk & Hr & Hn).
    { destruct req as [[id rid]|]; exact Hs. }
    assert (roomy k1 (rt_state rt)) as R1 by (eapply roomy_less; [|exact R]; lia).
    specialize (Hr rt Hc R1). unfold wp in Hr. rewrite Hm in Hr. destruct Hr as [Hb (Hc' & Hi & Hv)].
    exists (k - k1)%N. split_and!; [by apply Hn|exact Hc'| |by exists k1|exact Hv].
    apply (roomy_within k1 _ (rt_state rt)); [|exact Hi].
    replace (k1 + (k - k1 + extra))%N with (k + extra)%N by lia. exact R.
  - assert (∃ k1, ids_within k1 (rt_state rt) (rt_state rt) ∧ k1 ≤ k)%N as Hi
      by (exists 0%N; split; [apply ids_within_refl|lia]).
    destruct req as [[id rid]|].
    + destruct (reply_of call) as [r|] eqn:Hr.
      * destruct Hs as (_ & _ & Hn). exists k. by split_and!; [apply Hn|..].
      * exists k. by split_and!; [apply Hs|..].
    + destruct Hs as [-> Hn]. exists k. by split_and!; [apply Hn|..].
Qed.

(** *** Every reachable configuration *)

(** With room for [K] ids at the start, of which the [n] arrivals so far take five
    each. *)
Record orderly (vs0 : panes) (K n : N) (c : config C) : Prop := {
  od_consistent : consistent (rt_state (cf_runtime c));
  od_served : ∃ ks, Forall2 served ks (cf_tasks c)
                    ∧ roomy (sum_N ks + (K - 5 * n)) (rt_state (cf_runtime c));
  od_views : rtc pane_step vs0 (views (rt_state (cf_runtime c)))
}.

Lemma sum_N_app l1 l2 : sum_N (l1 ++ l2) = (sum_N l1 + sum_N l2)%N.
Proof. induction l1 as [|x l1 IH]; simpl; [done|]. rewrite IH. lia. Qed.

Lemma reaches_trans adm limits c0 n1 n2 (c1 c2 : config C) :
  reaches version adm limits c0 n1 c1 → reaches version adm limits c1 n2 c2 →
  reaches version adm limits c0 (n1 + n2) c2.
Proof.
  intros H1 H2. induction H2 as [|n c a H IH Ha|n c l1 t l2 reply rt p H IH Ht Hs].
  - by rewrite N.add_0_r.
  - rewrite N.add_assoc. by apply reach_arrival.
  - by eapply reach_step.
Qed.

Lemma reaches_orderly limits st0 K n (c : config C) :
  consistent st0 → roomy K st0 → reaches version admitted limits (started st0) n c →
  (5 * n ≤ K)%N → orderly (views st0) K n c.
Proof.
  intros Hc0 R0 Hr. induction Hr as [|n c a Hr IH Ha|n c l1 t l2 reply rt p Hr IH Ht Hstep];
    intros Hn.
  - split; simpl; [exact Hc0| |reflexivity]. exists []. split; [constructor|].
    simpl. eapply roomy_less; [|exact R0]. lia.
  - destruct IH as [Hc (ks & Hks & R) Hv]; [lia|]. split; simpl; [exact Hc| |exact Hv].
    exists (ks ++ [5%N]). split.
    + apply Forall2_app; [exact Hks|]. constructor; [by apply start_served|constructor].
    + rewrite sum_N_app. simpl. eapply roomy_less; [|exact R]. lia.
  - destruct IH as [Hc (ks & Hks & R) Hv]; [done|].
    rewrite Ht in Hks. apply Forall2_app_inv_r in Hks as (ks1 & ks2 & H1 & H2 & ->).
    apply Forall2_cons_inv_r in H2 as (k & ks2' & Hk & H2 & ->).
    rewrite sum_N_app in R. simpl in R.
    destruct (served_step k (sum_N ks1 + sum_N ks2' + (K - 5 * n)) t (cf_runtime c) reply rt p Hk Hc)
      as (k' & Hk' & Hc' & R' & _ & Hv'); [|exact Hstep|].
    { eapply roomy_less; [|exact R]. lia. }
    split; simpl; [exact Hc'| |by etrans]. exists (ks1 ++ k' :: ks2'). split.
    + apply Forall2_app; [exact H1|]. by constructor.
    + rewrite sum_N_app. simpl. eapply roomy_less; [|exact R']. lia.
Qed.

(** A step of a task ends no program twice, and hands out no id again. *)
Lemma step_ended limits st0 K n (c : config C) l1 t l2 reply rt p id :
  consistent st0 → roomy K st0 → reaches version admitted limits (started st0) n c →
  (5 * n ≤ K)%N → cf_tasks c = l1 ++ t :: l2 →
  task_step (cf_runtime c) (tk_proc t) reply rt p →
  (buffer_ids (rt_state (cf_runtime c)) ≤ buffer_ids (rt_state rt))%N
  ∧ ((id < buffer_ids (rt_state (cf_runtime c)))%N →
     ended (rt_state (cf_runtime c)) id → ended (rt_state rt) id).
Proof.
  intros Hc0 R0 Hr Hn Ht Hs.
  destruct (reaches_orderly limits st0 K n c Hc0 R0 Hr Hn) as [Hc (ks & Hks & R) _].
  rewrite Ht in Hks. apply Forall2_app_inv_r in Hks as (ks1 & ks2 & _ & H2 & ->).
  apply Forall2_cons_inv_r in H2 as (k & ks2' & Hk & _ & ->).
  rewrite sum_N_app in R. simpl in R.
  destruct (served_step k 0 t (cf_runtime c) reply rt p Hk Hc) as
    (_ & _ & _ & _ & (k1 & Hi & Hk1) & _); [|exact Hs|].
  { eapply roomy_less; [|exact R]. lia. }
  destruct R as [[] _]. destruct (iw_ended _ _ _ Hi) as [Hle He]; [lia|]. auto.
Qed.
Lemma reaches_ended limits st0 n c m (c' : config C) id :
  consistent st0 → roomy (5 * (n + m)) st0 →
  reaches version admitted limits (started st0) n c → reaches version admitted limits c m c' →
  (buffer_ids (rt_state (cf_runtime c)) ≤ buffer_ids (rt_state (cf_runtime c')))%N
  ∧ ((id < buffer_ids (rt_state (cf_runtime c)))%N →
     ended (rt_state (cf_runtime c)) id → ended (rt_state (cf_runtime c')) id).
Proof.
  intros Hc0 R0 H1 H2. set (K := (5 * (n + m))%N) in *. assert (5 * (n + m) ≤ K)%N as HK by lia.
  clearbody K. induction H2 as [|m c' a H2 IH Ha|m c' l1 t l2 reply rt p H2 IH Ht Hs]; [auto|..].
  - apply IH. lia.
  - destruct (IH HK) as [Hle He].
    destruct (step_ended limits st0 K (n + m) c' l1 t l2 reply rt p id Hc0 R0
                (reaches_trans _ _ _ _ _ _ _ H1 H2) HK Ht Hs) as [Hle' He'].
    simpl. split; [lia|]. intros Hi Hd. apply He'; [lia|auto].
Qed.

(** A task that has not ended can take its next step. *)
Lemma served_progress k t rt :
  served k t → consistent (rt_state rt) → roomy k (rt_state rt) →
  tk_proc t = Done () ∨ ∃ reply rt' p, task_step rt (tk_proc t) reply rt' p.
Proof.
  intros Hs Hc R. destruct t as [q req]. destruct q as [[]|B m next|B call next]; [by left|..].
  - right. assert (∃ k1 (Q : B → Prop), (k1 ≤ k)%N ∧ runs k1 m Q) as (k1 & Q & Hk & Hm).
    { unfold served in Hs. simpl in Hs.
      destruct req as [[]|]; destruct Hs as (k1 & Q & ? & ? & _); eauto. }
    specialize (Hm rt Hc). unfold wp in Hm. destruct (m rt) as [[b|e| |] rt'] eqn:Hrun;
      try (destruct Hm; by eapply roomy_less).
    exists None, rt', (next b). by constructor.
  - right. eexists _, _, _. apply (ts_call rt B call next (any_answer call)).
Qed.
Lemma section_step_inv {B} rt (m : RT C B) next reply rt' p :
  task_step rt (Locked m next) reply rt' p →
  ∃ b, m rt = (Ok b, rt') ∧ p = next b ∧ reply = None.
Proof.
  intros H. refine (match H in task_step rt q reply rt' p return
    match q with Locked m next => ∃ b, m rt = (Ok b, rt') ∧ p = next b ∧ reply = None
            | _ => True end with
    | ts_section rt rt' B m next b Hm => _ | ts_call _ _ _ _ _ => I end).
  by exists b.
Qed.
Lemma call_step_inv {B} (rt : Runtime C) (call : HostCall B) next reply rt' p :
  task_step rt (Await call next) reply rt' p → ∃ b, p = next b.
Proof.
  intros H. refine (match H in task_step rt q reply rt' p return
    match q with Await call next => ∃ b, p = next b | _ => True end with
    | ts_section _ _ _ _ _ _ _ => I | ts_call rt B call next b => _ end).
  by exists b.
Qed.
Lemma task_progress limits st0 n (c : config C) l1 t l2 :
  consistent st0 → roomy (5 * n) st0 → reaches version admitted limits (started st0) n c →
  cf_tasks c = l1 ++ t :: l2 →
  tk_proc t = Done () ∨ ∃ reply rt' p, task_step (cf_runtime c) (tk_proc t) reply rt' p.
Proof.
  intros Hc0 R0 Hr Ht.
  destruct (reaches_orderly limits st0 (5 * n) n c Hc0 R0 Hr) as [Hc (ks & Hks & R) _]; [lia|].
  rewrite Ht in Hks. apply Forall2_app_inv_r in Hks as (ks1 & ks2 & H1 & H2 & ->).
  apply Forall2_cons_inv_r in H2 as (k & ks2' & Hk & H2 & ->).
  apply (served_progress k); [exact Hk|exact Hc|]. eapply roomy_less; [|exact R].
  rewrite sum_N_app. simpl. lia.
Qed.
End tasks.
