(* ===== verification/EnvironmentSpec.v ===== *)
(** What the environment store promises: which names and values it takes, what
    a change reads back as, and how the layers overlay. *)

From S2P Require Import Prelude Core Environment.

Section environment.
Implicit Types (store : EnvironmentStore) (name : rstring).

Definition good_name name : Prop := name ≠ [] ∧ 61%N ∉ name ∧ 0%N ∉ name.
Definition good_value (value : option rstring) : Prop :=
  ∀ v, value = Some v → 0%N ∉ v.

Lemma contains_char_true c (s : rstring) : contains_char c s = true ↔ c ∈ s.
Proof.
  unfold contains_char. rewrite existsb_exists. setoid_rewrite N.eqb_eq.
  setoid_rewrite <-list_elem_of_In. naive_solver.
Qed.

Lemma contains_char_false c (s : rstring) : contains_char c s = false ↔ c ∉ s.
Proof. rewrite <-contains_char_true. by destruct (contains_char c s). Qed.

Lemma validate_name_spec name :
  validate_name name = Ok () ∧ good_name name ∨
  validate_name name = Err InvalidInput ∧ ¬ good_name name.
Proof.
  unfold validate_name, good_name. case_bool_decide; [right; naive_solver|].
  destruct (contains_char 61 name) eqn:H1; [apply contains_char_true in H1; right; naive_solver|].
  destruct (contains_char 0 name) eqn:H0; [apply contains_char_true in H0; right; naive_solver|].
  apply contains_char_false in H0, H1. by left.
Qed.

Lemma value_spec value :
  ensure (negb match value with Some value => contains_char 0 value | None => false end)
    InvalidInput = Ok () ∧ good_value value ∨
  ensure (negb match value with Some value => contains_char 0 value | None => false end)
    InvalidInput = Err InvalidInput ∧ ¬ good_value value.
Proof.
  unfold good_value. destruct value as [v|]; [|by left].
  destruct (contains_char 0 v) eqn:H0.
  - apply contains_char_true in H0. right. naive_solver.
  - apply contains_char_false in H0. left. naive_solver.
Qed.

Lemma apply_variable_lookup name (value : option rstring) (env : gmap rstring rstring) x :
  apply_variable name value env !! x = if decide (x = name) then value else env !! x.
Proof.
  destruct value as [v|]; simpl.
  - rewrite lookup_insert. repeat case_decide; congruence.
  - rewrite lookup_delete. repeat case_decide; congruence.
Qed.

(** C21: setting or unsetting an environment variable is refused exactly for an
    empty name, a name holding ['='] or NUL and a value holding NUL; otherwise
    the variable has the value that was set, or none when it was unset, in the one
    layer that was named; every other variable there, and every variable of the other
    layers, reads as before, and no session is left with an empty environment. *)
Theorem environment_set store sid name value :
  env_wf store →
  match env_set sid name value store with
  | Ok store' =>
      good_name name ∧ good_value value ∧ env_wf store' ∧
      ∀ layer x, env_get store' layer !! x =
        if decide (layer = sid ∧ x = name) then value else env_get store layer !! x
  | Err e => e = InvalidInput ∧ ¬ (good_name name ∧ good_value value)
  | Panic | OutOfFuel => False
  end.
Proof.
  intros Hwf. unfold env_set.
  destruct (validate_name_spec name) as [[-> Hn]|[-> Hn]]; [|simpl; tauto]. cbn [mbind outcome_bind].
  destruct (value_spec value) as [[-> Hv]|[-> Hv]]; [|simpl; tauto]. cbn [mbind outcome_bind].
  split; [done|]. split; [done|]. destruct sid as [sid|]; cbn [env_get env_sessions global].
  - set (env := apply_variable _ _ _).
    assert (∀ x, env !! x = if decide (x = name) then value
      else default ∅ (env_sessions store !! sid) !! x) as Henv by apply apply_variable_lookup.
    clearbody env. case_bool_decide as He.
    + split.
      * intros i e. simpl. rewrite lookup_delete_Some, lookup_insert_Some.
        intros [? [[? He2]|[? He2]]]; [by subst|by eapply Hwf].
      * intros [i|] x; cbn [env_get env_sessions global]; [|by rewrite decide_False by naive_solver].
        destruct (decide (i = sid)) as [->|Hi].
        -- rewrite lookup_delete_eq. cbn [default]. rewrite <-He, Henv.
           repeat case_decide; naive_solver.
        -- rewrite lookup_delete_ne, lookup_insert_ne by congruence. by rewrite decide_False by naive_solver.
    + split.
      * intros i e. simpl. rewrite lookup_insert_Some.
        intros [[? He2]|[? He2]]; [by subst|by eapply Hwf].
      * intros [i|] x; cbn [env_get env_sessions global]; [|by rewrite decide_False by naive_solver].
        destruct (decide (i = sid)) as [->|Hi].
        -- rewrite lookup_insert_eq. cbn [default]. rewrite Henv. repeat case_decide; naive_solver.
        -- rewrite lookup_insert_ne by congruence. by rewrite decide_False by naive_solver.
  - split; [done|]. intros [i|] x; cbn [env_get env_sessions global]; [by rewrite decide_False by naive_solver|].
    rewrite apply_variable_lookup. repeat case_decide; naive_solver.
Qed.

(** A new buffer of a session gets the global environment with the
    session's own variables laid over it; a session without variables gets
    the global environment, and dropping dead sessions changes nothing for
    the live ones. *)
Theorem environment_layers store sid x is_live :
  for_new_buffer store (Some sid) !! x =
    match env_get store (Some sid) !! x with
    | Some v => Some v
    | None => env_get store None !! x
    end ∧
  for_new_buffer store None = env_get store None ∧
  for_new_buffer (retain_sessions is_live store) (Some sid) =
    (if is_live sid then for_new_buffer store (Some sid) else env_get store None).
Proof.
  unfold for_new_buffer, env_get, retain_sessions. simpl.
  split; [|split; [done|]].
  - destruct (env_sessions store !! sid) as [env|]; simpl; [|by rewrite lookup_empty].
    rewrite lookup_union. by destruct (env !! x), (global store !! x).
  - rewrite map_lookup_filter. destruct (env_sessions store !! sid) as [env|]; simpl.
    + by destruct (is_live sid).
    + by destruct (is_live sid).
Qed.
End environment.

Lemma environment_set_witness :
  let store := mkEnvironmentStore ∅ {[ 1%N := {[ lit "A" := lit "1" ]} ]} in
  env_wf store
  ∧ match env_set (Some 1%N) (lit "A") None store with
    | Ok store' => env_get store' (Some 1%N) !! lit "A" = None
    | _ => False
    end
  ∧ match env_set (Some 1%N) (lit "A") (Some (lit "2")) store with
    | Ok store' => env_get store' (Some 1%N) !! lit "A" = Some (lit "2")
    | _ => False
    end.
Proof.
  intros store. assert (env_wf store) as Hwf.
  { intros i e. unfold store. simpl. rewrite lookup_singleton_Some. intros [_ <-]. done. }
  split; [exact Hwf|].
  split.
  - pose proof (environment_set store (Some 1%N) (lit "A") None Hwf) as H.
    destruct (env_set (Some 1%N) (lit "A") None store) as [store'| | |] eqn:E;
      [|vm_compute in E; discriminate E..].
    destruct H as (_ & _ & _ & H). rewrite H. by rewrite decide_True.
  - pose proof (environment_set store (Some 1%N) (lit "A") (Some (lit "2")) Hwf) as H.
    destruct (env_set (Some 1%N) (lit "A") (Some (lit "2")) store) as [store'| | |] eqn:E;
      [|vm_compute in E; discriminate E..].
    destruct H as (_ & _ & _ & H). rewrite H. by rewrite decide_True.
Defined.
