(* ===== verification/LayoutTheorems.v ===== *)
(** What the operations on the layout do to a consistent workspace: what opens,
    what closes, what moves, and what refuses. [views] lists the panes: the
    session and the buffer of each; [records] the buffers without their
    attachment and activity. *)

From S2P Require Import Prelude Core Model Environment State Queries Buffers Focus.
From S2P Require Import Tree Layout Moves Snapshot Ids Forest Invariant QueriesSpec.
From S2P Require Import FocusSpec Settle Surgery Owners Cosmetic Normalize Closing.
From S2P Require Import Opening Popups Splitting Moving Exits Zooming SnapshotSpec.
From S2P Require Import Keeps.

(** ** Closing *)

(** The panes in [D] have gone, and no other; their buffers live on, detached. *)
Record panes_closed (D : N → Prop) (st st' : ServerState) : Prop := {
  su_consistent : consistent st';
  su_zoom : zoom_settled st → zoom_settled st';
  su_gone : ∀ i, D i → views st' !! i = None;
  su_kept : ∀ i, ¬ D i → views st' !! i = views st !! i;
  su_records : records st' = records st;
  su_detached : ∀ bid b i, buffers st !! bid = Some b → b_attachment b = Attached i →
    D i → ∃ b', buffers st' !! bid = Some b' ∧ b_attachment b' = Detached
}.

Lemma gone_detached D st st' bid b i :
  consistent st → consistent st' → records st' = records st →
  (∀ j p, views st' !! j = Some p → ¬ D j ∧ views st !! j = Some p) →
  buffers st !! bid = Some b → b_attachment b = Attached i → D i →
  ∃ b', buffers st' !! bid = Some b' ∧ b_attachment b' = Detached.
Proof.
  intros C C' R V Hb Ha HD. destruct (records_lookup st st' bid b R Hb) as (b' & Hb' & _).
  exists b'. split; [exact Hb'|]. destruct (b_attachment b') as [j|] eqn:Ha'; [|done]. exfalso.
  apply (attachment_views st' bid b' j (cs_inv _ C') Hb') in Ha' as (sid & Hj).
  apply V in Hj as [Hn Hj].
  pose proof (proj2 (attachment_views st bid b j (cs_inv _ C) Hb) (ex_intro _ sid Hj)) as Ha''.
  congruence.
Qed.

Lemma removed_closed D k st st' :
  (∀ i, D i ∨ ¬ D i) → consistent st → consistent st' → (zoom_settled st → zoom_settled st') →
  removed D k st st' → panes_closed D st st'.
Proof.
  intros Dec C C' Z [V G R _]. split; [exact C'|exact Z|exact G|exact V|exact R|].
  intros bid b i. apply (gone_detached D st st'); [exact C|exact C'|exact R|].
  intros j p Hj. destruct (Dec j) as [Hd|Hd].
  - by rewrite (G j Hd) in Hj.
  - split; [exact Hd|]. by rewrite <-(V j Hd).
Qed.

(** C11: [close_node] on any node of a consistent state closes exactly the panes of
    the subtree below it. It never fails; every buffer record is kept, the
    buffers of the closed panes become detached, and focus and zoom still name
    panes on screen. *)
Theorem close_node_closes st id :
  consistent st → has_room 1 st → is_Some (nodes st !! id) →
  wp (close_node id) (λ _ st', panes_closed (below st id) st st') (λ _ _, False) st.
Proof.
  intros C Room [n Hn]. pose proof C as [I Cm A _]. pose proof (in_wired _ _ _ I) as W.
  eapply wp_mono; [exact (close_node_wp ∅ st id n I Cm A Room Hn)| |done].
  intros [] st' R. eapply (removed_closed _ 1); [|exact C|..].
  - intros i. exact (reach_or_not (wi_forest _ W) id i).
  - by eapply rearranged_consistent.
  - intros Z. by eapply rearranged_zoom.
  - apply (cl_removed _ _ _ _ _ _ (ra_cleared _ _ _ _ _ _ R)).
Qed.
Lemma close_node_closes_witness :
  wp (close_node 4%N) (λ _ st', panes_closed (below demo 4%N) demo st') (λ _ _, False) demo.
Proof.
  apply (close_node_closes demo 4%N).
  - exact demo_consistent.
  - apply demo_room. lia.
  - refine (bool_decide_eq_true_1 (is_Some (nodes demo !! 4%N)) _). vm_compute. reflexivity.
Defined.

(** [close_tab] with an index in range closes exactly the panes of that tab;
    with an index out of range, or on a node that is not a tabs node, it reports
    an error and changes nothing. *)
Theorem close_tab_closes st p i :
  consistent st →
  wp (close_tab p i)
    (λ _ st', ∃ t tab, nodes st !! p = Some (Tabs t) ∧ t_tabs t !! i = Some tab
       ∧ panes_closed (below st (te_child tab)) st st')
    (λ _ st', st' = st ∧ ∀ t, nodes st !! p = Some (Tabs t) → length (t_tabs t) ≤ i) st.
Proof.
  intros C. pose proof C as [I Cm A _]. pose proof (in_wired _ _ _ I) as W.
  destruct (nodes st !! p) as [[v|s|t]|] eqn:Hp.
  3: {
    eapply wp_mono; [exact (close_tab_wp ∅ st p i t I Cm A Hp)|..]; cbn beta.
    - intros [] st' (tab & Htab & R). exists t, tab. split; [done|]. split; [done|].
      eapply (removed_closed _ 0); [|exact C|..].
      + intros j. exact (reach_or_not (wi_forest _ W) _ j).
      + by eapply rearranged_consistent.
      + intros Z. by eapply rearranged_zoom.
      + apply (cl_removed _ _ _ _ _ _ (ra_cleared _ _ _ _ _ _ R)).
    - intros e st' (_ & -> & Hnone). split; [reflexivity|]. intros t' [= <-].
      by apply lookup_ge_None. }
  all: unfold close_tab, wp, mbind, ST_bind, reads, node_session_id, tabs_of, node; rewrite Hp.
  all: simpl; rewrite ?Hp; by split.
Qed.
Lemma close_tab_closes_witness :
  wp (close_tab 1%N 1)
    (λ _ st', ∃ t tab, nodes demo !! 1%N = Some (Tabs t) ∧ t_tabs t !! 1 = Some tab
       ∧ panes_closed (below demo (te_child tab)) demo st')
    (λ _ st', st' = demo ∧ ∀ t, nodes demo !! 1%N = Some (Tabs t) → length (t_tabs t) ≤ 1) demo.
Proof. apply (close_tab_closes demo 1%N 1). exact demo_consistent. Defined.

(** The session is gone, with every node, popup and pane of it; other sessions
    are untouched, and no buffer is lost: those it showed are detached. *)
Record session_closed (sid : N) (st st' : ServerState) : Prop := {
  sc_consistent : consistent st';
  sc_zoom : zoom_settled st → zoom_settled st';
  sc_sessions : ∀ i, sessions st' !! i = if decide (i = sid) then None else sessions st !! i;
  sc_nodes : ∀ i n, nodes st' !! i = Some n → node_session n ≠ sid;
  sc_popups : ∀ i w, floating st' !! i = Some w → f_session_id w ≠ sid;
  sc_panes : ∀ i s b, views st' !! i = Some (s, b) ↔ views st !! i = Some (s, b) ∧ s ≠ sid;
  sc_records : records st' = records st;
  sc_detached : ∀ bid b i, buffers st !! bid = Some b → b_attachment b = Attached i →
    (∃ bid', views st !! i = Some (sid, bid')) →
    ∃ b', buffers st' !! bid = Some b' ∧ b_attachment b' = Detached
}.

(** C12: [close_session] on an existing session removes it with all of its nodes,
    popups and panes, leaves the other sessions as they were, and loses no
    buffer. On an unknown session it reports an error and changes nothing. *)
Theorem close_session_closes st sid :
  consistent st →
  wp (close_session sid) (λ _ st', session_closed sid st st')
    (λ e st', e = NotFound ∧ st' = st ∧ sessions st !! sid = None) st.
Proof.
  intros C. destruct (sessions st !! sid) as [s|] eqn:Hs.
  2: { unfold close_session, wp, mbind, ST_bind, reads, session. by rewrite Hs. }
  eapply wp_mono; [exact (close_session_consistent st sid s C Hs)| |done].
  intros [] st' (C' & [I Cm A L S N V R _] & Z).
  assert (sessions st' !! sid = None) as Hgone.
  { apply not_elem_of_dom. rewrite S. set_solver. }
  assert (∀ i x b, views st' !! i = Some (x, b) ↔ views st !! i = Some (x, b) ∧ x ≠ sid) as Vw.
  { intros i x b. split.
    - intros Hi. split; [by apply V|]. apply views_Some in Hi as (v & Hv & <- & _).
      apply (N i _ Hv).
    - intros [Hi Hne]. pose proof Hi as (v & Hv & Hsid & _)%views_Some.
      destruct (lo_nodes _ _ _ L i _ Hv) as (n' & Hn' & _ & _ & Hview); [simpl; congruence|].
      destruct n' as [v'|?|?]; try done. pose proof (view_pane _ _ _ Hn') as Hp.
      rewrite Hp. rewrite <-Hi. symmetry. by apply V. }
  split; [exact C'|exact Z|..].
  - intros i. case_decide as He; [by subst|]. by apply (lo_sessions _ _ _ L).
  - intros i n Hn. apply (N i n Hn).
  - intros i w Hw He. destruct (wo_listed _ _ _ (wi_window _ (in_wired _ _ _ I) i w Hw))
      as (x & Hx & _). congruence.
  - exact Vw.
  - exact R.
  - intros bid b i.
    apply (gone_detached (λ i, ∃ bid', views st !! i = Some (sid, bid')) st st');
      [exact C|exact C'|exact R|].
    intros j [x c] Hj. apply Vw in Hj as [Hj Hne]. split; [|exact Hj].
    intros [bid' Hb']. congruence.
Qed.
Lemma close_session_closes_witness :
  wp (close_session 1%N) (λ _ st', session_closed 1%N demo st')
    (λ e st', e = NotFound ∧ st' = demo ∧ sessions demo !! 1%N = None) demo.
Proof. apply (close_session_closes demo 1%N). exact demo_consistent. Defined.


(** ** Opening *)

(** C14: [split_leaf_with_new_buffer] puts a pane and a new one on the buffer side by
    side in a new two-way split, equally sized, and focuses the new pane; no other
    pane changes. It does so for every pane and every detached buffer; otherwise (the
    node is no pane, or the buffer is unknown or shown already) it fails, and no node
    has changed. *)
Theorem split_leaf_opens st leaf direction bid :
  consistent st → has_room 2 st →
  wp (split_leaf_with_new_buffer leaf direction bid)
    (λ k st', (∃ b, buffers st !! bid = Some b ∧ b_attachment b = Detached)
       ∧ ∃ v, nodes st !! leaf = Some (BufferView v)
       ∧ opened (v_session_id v) bid (node_ids st) st st'
       ∧ ∃ s, nodes st' !! k = Some (Split s) ∧ sp_children s = [leaf; node_ids st]
              ∧ sp_sizes s = [1%N; 1%N] ∧ sp_direction s = direction)
    (λ _ st', consistent st' ∧ nodes st' = nodes st
       ∧ ((∀ v, nodes st !! leaf ≠ Some (BufferView v))
          ∨ ∀ b, buffers st !! bid = Some b → b_attachment b ≠ Detached)) st.
Proof.
  intros C R. eapply wp_mono; [by apply split_leaf_wp|auto|].
  intros e st' (C' & N & [Hv|Hb]); split_and!; try done; [left|by right].
  intros v Hn. apply Hv. by exists v.
Qed.
Lemma split_leaf_opens_witness :
  ∃ k st', split_leaf_with_new_buffer 2%N Horizontal 5%N demo = (Ok k, st')
    ∧ views st' !! node_ids demo = Some (1%N, 5%N)
    ∧ ∃ s, nodes st' !! k = Some (Split s) ∧ sp_children s = [2%N; node_ids demo].
Proof.
  pose proof (split_leaf_opens demo 2%N Horizontal 5%N demo_consistent (demo_room 2 ltac:(lia))) as H.
  unfold wp in H.
  assert (is_ok (split_leaf_with_new_buffer 2%N Horizontal 5%N demo).1 = true) as Hok
    by (vm_compute; reflexivity).
  destruct (split_leaf_with_new_buffer 2%N Horizontal 5%N demo) as [[k|e| |] st'];
    [|discriminate Hok..].
  destruct H as (_ & v & Hv & [_ V _] & s & Hs & Hc & _).
  exists k, st'. split; [reflexivity|]. split.
  - rewrite V, lookup_insert_eq. f_equal. f_equal.
    assert ((v_session_id <$> (nodes demo !! 2%N ≫= λ n, match n with BufferView v => Some v | _ => None end))
            = Some 1%N) as E by (vm_compute; reflexivity).
    rewrite Hv in E. simpl in E. congruence.
  - exists s. exact (conj Hs Hc).
Defined.

(** [add_root_tab_from_buffer] appends a window to the session, a new pane on
    the buffer, and focuses it; the windows before it keep their order. When it
    fails, no node has changed. *)
Theorem root_tab_opens st sid title bid :
  consistent st → has_room 1 st →
  wp (add_root_tab_from_buffer sid title bid)
    (λ i st', ∃ s t, sessions st !! sid = Some s ∧ nodes st !! s_root_node s = Some (Tabs t)
       ∧ i = length (t_tabs t) ∧ opened sid bid (node_ids st) st st'
       ∧ ∃ t', nodes st' !! s_root_node s = Some (Tabs t')
               ∧ t_tabs t' = t_tabs t ++ [TabEntry_new title (node_ids st)])
    (λ _ st', consistent st' ∧ nodes st' = nodes st) st.
Proof. apply add_root_tab_from_buffer_wp. Qed.
Lemma root_tab_opens_witness :
  wp (add_root_tab_from_buffer 2%N (lit "job") 5%N)
    (λ i st', ∃ s t, sessions demo !! 2%N = Some s ∧ nodes demo !! s_root_node s = Some (Tabs t)
       ∧ i = length (t_tabs t) ∧ opened 2%N 5%N (node_ids demo) demo st'
       ∧ ∃ t', nodes st' !! s_root_node s = Some (Tabs t')
               ∧ t_tabs t' = t_tabs t ++ [TabEntry_new (lit "job") (node_ids demo)])
    (λ _ st', consistent st' ∧ nodes st' = nodes demo) demo.
Proof.
  apply (root_tab_opens demo 2%N (lit "job") 5%N); [exact demo_consistent|apply demo_room; lia].
Defined.

(** [create_floating_from_buffer] opens a popup of the session on a new pane
    showing the buffer, focused when asked; no other pane changes. When it fails,
    neither a node nor a popup has changed. *)
Theorem popup_opens st sid bid g title focus close :
  consistent st → has_room 1 st →
  wp (create_floating_from_buffer_with_options sid bid g title focus close)
    (λ fid st', consistent st' ∧ fid = floating_ids st
       ∧ views st' = <[node_ids st := (sid, bid)]> (views st)
       ∧ (∃ w, floating st' !! fid = Some w ∧ f_session_id w = sid ∧ f_root_node w = node_ids st)
       ∧ (focus = true → ∃ s, sessions st' !! sid = Some s
                              ∧ s_focused_leaf s = Some (node_ids st)))
    (λ _ st', consistent st' ∧ nodes st' = nodes st ∧ floating st' = floating st) st.
Proof. apply create_floating_from_buffer_wp. Qed.
Lemma popup_opens_witness :
  let g := mkFloatGeometry 0 0 10 10 in
  wp (create_floating_from_buffer_with_options 1%N 5%N g None true true)
    (λ fid st', consistent st' ∧ fid = floating_ids demo
       ∧ views st' = <[node_ids demo := (1%N, 5%N)]> (views demo)
       ∧ (∃ w, floating st' !! fid = Some w ∧ f_session_id w = 1%N ∧ f_root_node w = node_ids demo)
       ∧ (true = true → ∃ s, sessions st' !! 1%N = Some s
                             ∧ s_focused_leaf s = Some (node_ids demo)))
    (λ _ st', consistent st' ∧ nodes st' = nodes demo ∧ floating st' = floating demo) demo.
Proof.
  intros g. apply (popup_opens demo 1%N 5%N g None true true);
    [exact demo_consistent|apply demo_room; lia].
Defined.

(** [move_buffer_to_leaf] shows the buffer in the pane and focuses it: the pane
    that showed the buffer before closes, the buffer the target showed is
    detached, and no other pane changes. When it fails nothing has changed. *)
Theorem move_buffer_moves st bid leaf :
  consistent st →
  wp (move_buffer_to_leaf bid leaf)
    (λ _ st', ∃ v b, nodes st !! leaf = Some (BufferView v) ∧ buffers st !! bid = Some b
       ∧ shown_in bid leaf (v_session_id v) st'
       ∧ views st' = <[leaf := (v_session_id v, bid)]> match b_attachment b with
                                  | Attached old => delete old (views st)
                                  | Detached => views st
                                  end)
    (λ _ st', st' = st) st.
Proof. apply move_buffer_to_leaf_wp. Qed.
Lemma move_buffer_moves_witness :
  wp (move_buffer_to_leaf 1%N 5%N)
    (λ _ st', ∃ v b, nodes demo !! 5%N = Some (BufferView v) ∧ buffers demo !! 1%N = Some b
       ∧ shown_in 1%N 5%N (v_session_id v) st'
       ∧ views st' = <[5%N := (v_session_id v, 1%N)]> match b_attachment b with
                                  | Attached old => delete old (views demo)
                                  | Detached => views demo
                                  end)
    (λ _ st', st' = demo) demo.
Proof. apply (move_buffer_moves demo 1%N 5%N). exact demo_consistent. Defined.

(** ** Moving panes among their siblings *)

(** C15: [swap_sibling_nodes] exchanges the places of two children of one container,
    each with its size or its title, and keeps the others, the active tab's
    content, and every other node. It does so for any two such children (and nothing
    for a node and itself); it fails on two nodes without a common parent, and only
    there, changing nothing. *)
Theorem swap_exchanges_siblings st a b :
  consistent st →
  wp (swap_sibling_nodes a b)
    (λ _ st', a = b ∧ st' = st ∨
       ∃ p n n' i j x y, rearranged_siblings st st' p n n'
         ∧ slots n !! i = Some x ∧ x.1 = a ∧ slots n !! j = Some y ∧ y.1 = b
         ∧ slots n' = <[i := y]> (<[j := x]> (slots n)))
    (λ _ st', st' = st ∧ a ≠ b ∧ ∀ p x y, nodes st !! a = Some x → nodes st !! b = Some y →
       parent x = Some p → parent y ≠ Some p) st.
Proof.
  intros C. eapply wp_mono; [by apply swap_sibling_nodes_wp| |]; cycle 1.
  { intros e st' (-> & Hne & Hp). split_and!; [done..|]. intros p x y Hx Hy Hpx Hpy.
    apply (Hp p). split; [by exists x|by exists y]. }
  intros _ st' [H|(p & n & n' & i & j & R & Hi & Hj & E)]; [by left|right].
  assert (node_ok n) as Hok.
  { apply (in_shaped _ _ _ (cs_inv _ C) p n (rs_before _ _ _ _ _ R)). set_solver. }
  rewrite <-(slots_children n Hok), list_lookup_fmap in Hi, Hj.
  destruct (slots n !! i) as [x|] eqn:Ex; [|done]. destruct (slots n !! j) as [y|] eqn:Ey; [|done].
  rewrite (vec_swap_Ok _ _ _ _ _ Ex Ey) in E. injection E as E. injection Hi as Hi.
  injection Hj as Hj. exists p, n, n', i, j, x, y. by rewrite Ex, Ey.
Qed.
Lemma swap_exchanges_siblings_witness :
  ∃ st' p n n', swap_sibling_nodes 2%N 3%N demo = (Ok (), st')
    ∧ rearranged_siblings demo st' p n n'
    ∧ ∃ i j x y, x.1 = 2%N ∧ y.1 = 3%N ∧ slots n' = <[i := y]> (<[j := x]> (slots n)).
Proof.
  pose proof (swap_exchanges_siblings demo 2%N 3%N demo_consistent) as H. unfold wp in H.
  assert (is_ok (swap_sibling_nodes 2%N 3%N demo).1 = true) as Hok by (vm_compute; reflexivity).
  destruct (swap_sibling_nodes 2%N 3%N demo) as [[[]|e| |] st']; [|discriminate Hok..].
  destruct H as [[He _]|(p & n & n' & i & j & x & y & R & _ & Hx & _ & Hy & E)]; [discriminate He|].
  exists st', p, n, n'. split; [reflexivity|]. split; [exact R|]. exists i, j, x, y.
  exact (conj Hx (conj Hy E)).
Defined.

(** [reorder_sibling_node] takes a child, with its size or title, out of its
    container and puts it right before or right after a sibling; the others keep
    their order, the active tab's content stays active. On nodes without a
    common parent it reports an error and changes nothing. *)
Theorem reorder_moves_sibling st a b before :
  consistent st →
  wp (reorder_sibling_node a b before)
    (λ _ st', a = b ∧ st' = st ∨
       ∃ p n n' i x l1 y l2, rearranged_siblings st st' p n n'
         ∧ slots n !! i = Some x ∧ x.1 = a ∧ y.1 = b ∧ delete i (slots n) = l1 ++ y :: l2
         ∧ slots n' = if before then l1 ++ x :: y :: l2 else l1 ++ y :: x :: l2)
    (λ _ st', st' = st) st.
Proof. apply reorder_sibling_node_wp. Qed.
Lemma reorder_moves_sibling_witness :
  wp (reorder_sibling_node 4%N 5%N false)
    (λ _ st', 4%N = 5%N ∧ st' = demo ∨
       ∃ p n n' i x l1 y l2, rearranged_siblings demo st' p n n'
         ∧ slots n !! i = Some x ∧ x.1 = 4%N ∧ y.1 = 5%N ∧ delete i (slots n) = l1 ++ y :: l2
         ∧ slots n' = if false then l1 ++ x :: y :: l2 else l1 ++ y :: x :: l2)
    (λ _ st', st' = demo) demo.
Proof. apply (reorder_moves_sibling demo 4%N 5%N false). exact demo_consistent. Defined.

(** ** Zoom *)


(** ** Sessions and buffers *)

(** [create_session] makes a session under an id no session has, empty, with
    the base index, viewport and name asked for; the rest of the state is kept,
    but for one session id and one node id. It never fails. *)
Theorem create_session_creates st now name :
  consistent st → has_room 1 st →
  wp (create_session now name)
    (λ sid st', consistent st' ∧ (zoom_settled st → zoom_settled st')
       ∧ sid = session_ids st ∧ sessions st !! sid = None ∧ views st' = views st
       ∧ buffers st' = buffers st ∧ floating st' = floating st
       ∧ (∀ i, i ≠ sid → sessions st' !! i = sessions st !! i)
       ∧ ∃ s, sessions st' !! sid = Some s ∧ s_name s = name ∧ s_floating s = []
              ∧ s_focused_leaf s = None ∧ s_base_index s = last_base_index st
              ∧ ∃ t, nodes st' !! s_root_node s = Some (Tabs t) ∧ t_tabs t = [])
    (λ _ _, False) st.
Proof.
  intros C R. eapply wp_mono; [by apply create_session_wp| |done].
  intros sid st' (C' & Z & -> & Hnew & ->). split; [exact C'|]. split; [exact Z|].
  split; [done|]. split; [exact Hnew|].
  pose proof (in_wired _ _ _ (cs_inv _ C)) as W.
  assert (nodes st !! node_ids st = None) as Hn.
  { destruct (nodes st !! node_ids st) eqn:H; [|done].
    pose proof (fi_nodes _ (wi_fresh _ W) _ (mk_is_Some _ _ H)). lia. }
  split_and!; try done.
  - apply map_eq. intros i. rewrite !views_lookup. simpl. rewrite lookup_insert.
    case_decide; [subst; by rewrite Hn|done].
  - intros i Hi. simpl. by rewrite lookup_insert_ne.
  - eexists. split; [apply lookup_insert_eq|]. split_and!; try done.
    eexists. split; [apply lookup_insert_eq|done].
Qed.
Lemma create_session_creates_witness :
  wp (create_session 5%Z (lit "new"))
    (λ sid st', consistent st' ∧ (zoom_settled demo → zoom_settled st')
       ∧ sid = session_ids demo ∧ sessions demo !! sid = None ∧ views st' = views demo
       ∧ buffers st' = buffers demo ∧ floating st' = floating demo
       ∧ (∀ i, i ≠ sid → sessions st' !! i = sessions demo !! i)
       ∧ ∃ s, sessions st' !! sid = Some s ∧ s_name s = lit "new" ∧ s_floating s = []
              ∧ s_focused_leaf s = None ∧ s_base_index s = last_base_index demo
              ∧ ∃ t, nodes st' !! s_root_node s = Some (Tabs t) ∧ t_tabs t = [])
    (λ _ _, False) demo.
Proof.
  apply (create_session_creates demo 5%Z (lit "new")); [exact demo_consistent|apply demo_room; lia].
Defined.

(** C18: [remove_buffer] takes a detached buffer's record away and returns it, and
    nothing else; it refuses a buffer some pane shows ([Conflict]) and an unknown
    one ([NotFound]), changing nothing. *)
Theorem remove_buffer_removes st id :
  consistent st →
  wp (remove_buffer id)
    (λ b st', consistent st' ∧ (zoom_settled st → zoom_settled st')
       ∧ buffers st !! id = Some b ∧ b_attachment b = Detached
       ∧ st' = set_buffers (delete id) st)
    (λ e st', st' = st ∧ match buffers st !! id with
                         | None => e = NotFound
                         | Some b => e = Conflict ∧ b_attachment b ≠ Detached
                         end) st.
Proof. apply remove_buffer_wp. Qed.
Lemma remove_buffer_removes_witness :
  wp (remove_buffer 5%N)
    (λ b st', consistent st' ∧ (zoom_settled demo → zoom_settled st')
       ∧ buffers demo !! 5%N = Some b ∧ b_attachment b = Detached
       ∧ st' = set_buffers (delete 5%N) demo)
    (λ e st', st' = demo ∧ match buffers demo !! 5%N with
                           | None => e = NotFound
                           | Some b => e = Conflict ∧ b_attachment b ≠ Detached
                           end) demo.
Proof. apply (remove_buffer_removes demo 5%N). exact demo_consistent. Defined.

(** What the operations on focus do to a consistent workspace. *)

(** [leaf] has the focus of [sid]: the session and the pane say so, the pane is on
    screen, and everything on screen counts as seen. Only the focus has changed. *)
Record focused_on (sid leaf : N) (st st' : ServerState) : Prop := {
  fo_kept : refocus_kept st st';
  fo_session : ∃ s, sessions st' !! sid = Some s ∧ s_focused_leaf s = Some leaf;
  fo_flag : ∃ v, nodes st' !! leaf = Some (BufferView v) ∧ focused (v_view v) = true;
  fo_shown : on_screen st' sid leaf;
  fo_stable : on_screen st sid leaf → actives st' = actives st;
  fo_seen : ∀ i bid, on_screen st' sid i → shows st' i bid → idle st' bid;
  fo_others : ∀ other, other ≠ sid → sessions st' !! other = sessions st !! other
}.

Lemma post_focused_on sid leaf r st st' :
  consistent st → focus_post sid leaf r st st' → focused_on sid leaf st st'.
Proof.
  intros C P. split; [|..|apply P].
  - split; [by eapply focus_post_consistent|apply (fp_frame _ _ _ _ _ P)].
  - destruct (fp_session _ _ _ _ _ P) as (s & s' & _ & Hs' & Hf & _). by exists s'.
  - apply P.
  - apply P.
  - apply P.
  - apply (fp_idle _ _ _ _ _ P). apply C.
Qed.

(** C16: [focus_leaf] on a pane of the session focuses it: the session records it,
    the tabs above it switch so that it is on screen (none does when it already
    was), every buffer now on screen loses its activity mark, and other sessions
    are untouched. It fails exactly when the node is not a pane of the session,
    and then changes nothing. *)
Theorem focus_leaf_focuses st sid leaf :
  consistent st →
  wp (focus_leaf sid leaf)
    (λ _ st', focused_on sid leaf st st')
    (λ _ st', st' = st ∧
       ∀ v, nodes st !! leaf = Some (BufferView v) → v_session_id v ≠ sid) st.
Proof.
  intros C. pose proof (focus_leaf_wp sid leaf st (in_wired _ _ _ (cs_inv _ C))
                          (consistent_backed _ C)) as H.
  assert (∀ v, nodes st !! leaf = Some (BufferView v) → v_session_id v = sid →
            ∃ a st', focus_leaf sid leaf st = (Ok a, st')) as Hview.
  { intros v Hv <-. pose proof (focus_view_wp st leaf v C Hv) as Hok. unfold wp in Hok.
    destruct (focus_leaf (v_session_id v) leaf st) as [[a|e| |] st'];
      [by exists a, st'|destruct Hok..]. }
  unfold wp in *. destruct (focus_leaf sid leaf st) as [[a|e| |] st'];
    [| |exact H|exact H].
  - destruct H as (r & _ & P). exact (post_focused_on sid leaf r st st' C P).
  - split; [apply H|]. intros v Hv Hsid. destruct (Hview v Hv Hsid) as (a & x & E). discriminate E.
Qed.
Lemma focus_leaf_focuses_witness :
  wp (focus_leaf 1%N 2%N)
    (λ _ st', focused_on 1%N 2%N demo st')
    (λ _ st', st' = demo ∧
       ∀ v, nodes demo !! 2%N = Some (BufferView v) → v_session_id v ≠ 1%N) demo.
Proof. apply (focus_leaf_focuses demo 1%N 2%N). exact demo_consistent. Defined.

(** [focus_last_pane] goes back to the pane focused before the present one: the
    pane it focuses is another pane of the same window, taken from the session's
    focus history. When there is none it reports [NotFound] and changes nothing. *)
Theorem focus_last_pane_returns st sid :
  consistent st →
  wp (focus_last_pane sid)
    (λ _ st', ∃ s leaf present window,
       sessions st !! sid = Some s ∧ s_focused_leaf s = Some present
       ∧ leaf ∈ s_focus_history s ∧ leaf ≠ present
       ∧ edge (layout (nodes st)) (s_root_node s) window
       ∧ below st window leaf ∧ below st window present
       ∧ focused_on sid leaf st st')
    (λ _ st', st' = st) st.
Proof.
  intros C. pose proof (in_wired _ _ _ (cs_inv _ C)) as W. unfold focus_last_pane. wp_step.
  eapply wp_reads_returns; [by apply last_pane_spec; [|apply C]| |done].
  intros [leaf|] H; [|done].
  destruct (H leaf eq_refl) as (s & present & window & Hs & Hp & Hh & Hne & _ & He & Hl & Hb).
  eapply wp_mono; [by apply focus_leaf_wp; [|apply consistent_backed]|..]; cbn beta.
  - intros _ st' (r & _ & P). exists s, leaf, present, window.
    repeat match goal with H : ?P |- ?P ∧ _ => split; [exact H|] end.
    exact (post_focused_on sid leaf r st st' C P).
  - intros _ st' [E _]. exact E.
Qed.
Lemma focus_last_pane_returns_witness :
  wp (focus_last_pane 1%N)
    (λ _ st', ∃ s leaf present window,
       sessions demo !! 1%N = Some s ∧ s_focused_leaf s = Some present
       ∧ leaf ∈ s_focus_history s ∧ leaf ≠ present
       ∧ edge (layout (nodes demo)) (s_root_node s) window
       ∧ below demo window leaf ∧ below demo window present
       ∧ focused_on 1%N leaf demo st')
    (λ _ st', st' = demo) demo.
Proof. apply (focus_last_pane_returns demo 1%N). exact demo_consistent. Defined.

(** [heal_focus] never fails on an existing session: it leaves the session's
    focus on a pane that is on screen, or on none when no pane of the session is
    on screen, without switching any tab. *)
Theorem heal_focus_heals st sid :
  consistent st → is_Some (sessions st !! sid) →
  wp (heal_focus sid)
    (λ _ st', actives st' = actives st ∧ scrub st' = scrub st ∧
       ∃ s, sessions st' !! sid = Some s ∧
         match s_focused_leaf s with
         | Some leaf => is_view st' leaf ∧ on_screen st' sid leaf
         | None => ∀ leaf, is_view st leaf → ¬ on_screen st sid leaf
         end)
    (λ _ _, False) st.
Proof.
  intros C [s Hs]. eapply wp_mono; [exact (heal_focus_wp ∅ sid st s (cs_inv _ C) Hs)| |done].
  intros _ st' [F A (s' & Hs' & Hf & Hn)]. split; [exact A|].
  split; [apply (ff_refocused _ _ _ F)|]. exists s'. split; [exact Hs'|].
  destruct (s_focused_leaf s') as [leaf|] eqn:E; [by apply Hf|by apply Hn].
Qed.
Lemma heal_focus_heals_witness :
  wp (heal_focus 1%N)
    (λ _ st', actives st' = actives demo ∧ scrub st' = scrub demo ∧
       ∃ s, sessions st' !! 1%N = Some s ∧
         match s_focused_leaf s with
         | Some leaf => is_view st' leaf ∧ on_screen st' 1%N leaf
         | None => ∀ leaf, is_view demo leaf → ¬ on_screen demo 1%N leaf
         end)
    (λ _ _, False) demo.
Proof.
  apply (heal_focus_heals demo 1%N); [exact demo_consistent|].
  refine (bool_decide_eq_true_1 (is_Some (sessions demo !! 1%N)) _). vm_compute. reflexivity.
Defined.

(** ** The focus history *)

Lemma drop_sublist {A} n (l : list A) : drop n l `sublist_of` l.
Proof. rewrite <-(take_drop n l) at 2. by apply sublist_inserts_l. Qed.

(** [push_history] keeps the history of focused panes free of duplicates and
    within 64 entries, puts the pane last, drops the panes that no longer exist
    and, only when full, the oldest ones; the order of the rest is kept. *)
Theorem push_history_bounded exists_ leaf history :
  let h := push_history exists_ leaf history in
  length h ≤ FOCUS_HISTORY_LIMIT ∧ last h = Some leaf
  ∧ (NoDup history → NoDup h)
  ∧ h `sublist_of` base.filter (λ x, x ≠ leaf) history ++ [leaf]
  ∧ (∀ x, x ∈ h → x = leaf ∨ exists_ x = true)
  ∧ (length history < FOCUS_HISTORY_LIMIT → ∀ x, x ∈ history → exists_ x = true → x ∈ h).
Proof.
  unfold push_history. set (kept := base.filter _ history). set (n := _ - FOCUS_HISTORY_LIMIT).
  assert (∀ x, x ∈ kept ↔ x ∈ history ∧ x ≠ leaf ∧ exists_ x = true) as Hk.
  { intros x. unfold kept. rewrite list_elem_of_filter, andb_true_iff, negb_true_iff, N.eqb_neq.
    tauto. }
  assert (n ≤ length kept) as Hn.
  { unfold n. rewrite length_app. simpl. unfold FOCUS_HISTORY_LIMIT. lia. }
  rewrite drop_app_le by done.
  split_and!.
  - rewrite length_app, length_drop. unfold n. rewrite length_app. unfold FOCUS_HISTORY_LIMIT.
    simpl. lia.
  - by rewrite last_snoc.
  - intros Hd. apply NoDup_app. split_and!.
    + eapply sublist_NoDup; [|apply drop_sublist]. by apply NoDup_filter.
    + intros x Hx%(sublist_subseteq _ _ (drop_sublist n kept)) ->%list_elem_of_singleton.
      by apply Hk in Hx as (_ & ? & _).
    + apply NoDup_singleton.
  - apply sublist_app; [|done]. etrans; [apply drop_sublist|].
    unfold kept. clear. induction history as [|x l IH]; [done|].
    rewrite !filter_cons. destruct (N.eqb_spec x leaf) as [->|Hne]; simpl.
    + destruct (decide (false = true)); [done|]. by destruct (decide (leaf ≠ leaf)).
    + destruct (decide (x ≠ leaf)); [|done]. case_decide; [by constructor|by constructor].
  - intros x [Hx|Hx%list_elem_of_singleton]%elem_of_app; [right|by left].
    apply (sublist_subseteq _ _ (drop_sublist n kept)) in Hx. by apply Hk in Hx as (_ & _ & ?).
  - intros Hl x Hx He. assert (n = 0) as ->.
    { unfold n. rewrite length_app. simpl.
      assert (length kept ≤ length history) as Hlen by apply length_filter.
      lia. }
    rewrite drop_0. apply elem_of_app. destruct (decide (x = leaf)) as [->|Hne].
    + right. by apply list_elem_of_singleton.
    + left. by apply Hk.
Qed.
Lemma push_history_bounded_witness :
  let h := push_history (λ x, negb (x =? 7)%N) 2%N [1%N; 2%N; 7%N; 3%N] in
  h = [1%N; 3%N; 2%N] ∧ NoDup h.
Proof.
  split; [reflexivity|].
  apply (push_history_bounded (λ x, negb (x =? 7)%N) 2%N [1%N; 2%N; 7%N; 3%N]).
  refine (bool_decide_eq_true_1 (NoDup _) _). vm_compute. reflexivity.
Defined.
