(* ===== verification/Delivery.v ===== *)
(** Delivery of events: what reaches a client's queue, and that a client whose
    queue is full or closed loses its own subscription only. *)

From S2P Require Import Prelude Core Model Environment State Queries Layout Moves Protocol Server.

Section delivery.
Context {C : Type} {channel : Channel C}.
Implicit Types (chans : gmap N C) (sub : Subscription) (events : list ServerEvent).

(** The queue [ch] took [events], in order, and became [ch']. *)
Inductive takes : C → list ServerEvent → C → Prop :=
  | takes_nil ch : takes ch [] ch
  | takes_cons ch e ch1 es ch2 :
      try_send e ch = (Sent, ch1) → takes ch1 es ch2 → takes ch (e :: es) ch2.

Lemma takes_app ch es1 ch1 es2 ch2 :
  takes ch es1 ch1 → takes ch1 es2 ch2 → takes ch (es1 ++ es2) ch2.
Proof. induction 1; [done|]. intros. econstructor; eauto. Qed.

(** The events a subscription asked for. *)
Definition wanted sub events : list ServerEvent :=
  base.filter (λ e, matches e sub = true) events.

Lemma wanted_cons sub e events :
  wanted sub (e :: events) = if matches e sub then e :: wanted sub events else wanted sub events.
Proof. unfold wanted. rewrite filter_cons. by destruct (matches e sub). Qed.

(** One subscription: all the events it wants were taken; or some were, and then
    the queue refused one; or there is no queue. *)
Definition delivered chans sub events (ok : bool) chans' : Prop :=
  match chans !! connection_id sub with
  | None => chans' = chans ∧ ok = bool_decide (wanted sub events = [])
  | Some ch =>
      if ok then ∃ ch', takes ch (wanted sub events) ch' ∧ chans' = <[connection_id sub := ch']> chans
      else ∃ es1 e es2 ch1, wanted sub events = es1 ++ e :: es2 ∧ takes ch es1 ch1
             ∧ (try_send e ch1).1 ≠ Sent
             ∧ chans' = <[connection_id sub := (try_send e ch1).2]> chans
  end.

Lemma deliver_spec sub events : ∀ chans,
  delivered chans sub events (deliver chans sub events).1 (deliver chans sub events).2.
Proof.
  induction events as [|e events IH]; intros chans; unfold delivered; simpl.
  - destruct (chans !! connection_id sub) as [ch|] eqn:Hc; [|done].
    exists ch. split; [constructor|]. by rewrite insert_id.
  - rewrite wanted_cons. destruct (matches e sub); [|exact (IH chans)].
    destruct (chans !! connection_id sub) as [ch|] eqn:Hc;
      [|by rewrite bool_decide_eq_false_2].
    destruct (try_send e ch) as [r ch1] eqn:Hsend. destruct r.
    2, 3: exists [], e, (wanted sub events), ch; rewrite Hsend; by repeat (split; [constructor|]).
    specialize (IH (<[connection_id sub := ch1]> chans)). unfold delivered in IH.
    rewrite lookup_insert_eq in IH. destruct (deliver _ _ _) as [[|] chans'] eqn:Hd; simpl in *.
    + destruct IH as (ch' & Ht & ->). exists ch'. rewrite insert_insert_eq. split; [|done].
      by econstructor.
    + destruct IH as (es1 & e' & es2 & ch2 & Hw & Ht & Hr & ->).
      exists (e :: es1), e', es2, ch2. rewrite insert_insert_eq, Hw.
      split; [done|]. split; [by econstructor|done].
Qed.

Lemma deliver_other chans sub events c :
  c ≠ connection_id sub → (deliver chans sub events).2 !! c = chans !! c.
Proof.
  intros Hc. pose proof (deliver_spec sub events chans) as H. unfold delivered in H.
  destruct (chans !! connection_id sub); [|by destruct H as [-> _]].
  destruct (deliver chans sub events) as [[|] chans']; simpl in *.
  - destruct H as (ch' & _ & ->). by rewrite lookup_insert_ne.
  - destruct H as (? & ? & ? & ? & _ & _ & _ & ->). by rewrite lookup_insert_ne.
Qed.

(** What [deliver] does depends on the connection's own queue only. *)
Lemma deliver_local sub events : ∀ chans1 chans2,
  chans1 !! connection_id sub = chans2 !! connection_id sub →
  (deliver chans1 sub events).1 = (deliver chans2 sub events).1
  ∧ (deliver chans1 sub events).2 !! connection_id sub
    = (deliver chans2 sub events).2 !! connection_id sub.
Proof.
  induction events as [|e events IH]; intros chans1 chans2 H; simpl; [done|].
  destruct (matches e sub); [|by apply IH]. rewrite <-H.
  destruct (chans1 !! connection_id sub) as [ch|] eqn:Hc; [|simpl; by rewrite Hc].
  destruct (try_send e ch) as [[] ch1]; simpl; rewrite ?lookup_insert_eq; [|done..].
  apply IH. by rewrite !lookup_insert_eq.
Qed.
End delivery.

Section delivery_all.
Context {C : Type} {channel : Channel C}.
Implicit Types (chans : gmap N C) (sub : Subscription) (events : list ServerEvent)
  (kept : gmap N Subscription) (subs : list (N * Subscription)).

Abbreviation mine c subs := (base.filter (λ s : N * Subscription, connection_id s.2 = c) subs).

Lemma deliver_all_alone events c subs : ∀ chans1 chans2 kept1 kept2,
  chans1 !! c = chans2 !! c →
  (deliver_all chans1 kept1 subs events).2 !! c
    = (deliver_all chans2 kept2 (mine c subs) events).2 !! c
  ∧ ∀ id, (∀ sub, (id, sub) ∈ subs → connection_id sub = c) → kept1 !! id = kept2 !! id →
      (deliver_all chans1 kept1 subs events).1 !! id
        = (deliver_all chans2 kept2 (mine c subs) events).1 !! id.
Proof.
  induction subs as [|[i sub] subs IH]; intros chans1 chans2 kept1 kept2 Hc; [by split|].
  rewrite filter_cons. simpl. destruct (decide (connection_id sub = c)) as [Hm|Hm].
  - simpl. subst c. destruct (deliver_local sub events _ _ Hc) as [Hr Hch].
    destruct (deliver chans1 sub events) as [r1 d1], (deliver chans2 sub events) as [r2 d2].
    simpl in *. subst r2. split; [by apply IH|]. intros id Hid Hk. apply IH; [done| |].
    + intros x Hx. apply Hid. by right.
    + destruct r1; [done|]. rewrite !lookup_delete. by case_decide.
  - assert ((deliver chans1 sub events).2 !! c = chans2 !! c) as Hd.
    { rewrite deliver_other; [done|]. by intros ->. }
    destruct (deliver chans1 sub events) as [r1 d1]. simpl in *. split; [by apply IH|].
    intros id Hid Hk. apply IH; [done| |].
    + intros x Hx. apply Hid. by right.
    + destruct r1; [done|]. rewrite lookup_delete_ne; [done|]. intros ->. apply Hm, Hid. by left.
Qed.

Lemma deliver_all_subset events subs : ∀ chans kept,
  (deliver_all chans kept subs events).1 ⊆ kept.
Proof.
  induction subs as [|[i sub] subs IH]; intros chans kept; simpl; [done|].
  destruct (deliver chans sub events) as [[|] d]; [apply IH|].
  etrans; [apply IH|]. apply delete_subseteq.
Qed.

(** With queues that never refuse, every client gets all the events it asked for. *)
Lemma deliver_all_taken events subs : 
  (∀ e ch, (try_send e ch).1 = Sent) → ∀ chans kept,
  (∀ i sub, (i, sub) ∈ subs → is_Some (chans !! connection_id sub)) →
  (deliver_all chans kept subs events).1 = kept
  ∧ ∀ c ch, chans !! c = Some ch →
      ∃ ch', (deliver_all chans kept subs events).2 !! c = Some ch'
             ∧ takes ch (mine c subs ≫= λ s, wanted s.2 events) ch'.
Proof.
  intros Hopen. induction subs as [|[i sub] subs IH]; intros chans kept Hs; simpl.
  { split; [done|]. intros c ch Hc. exists ch. split; [done|constructor]. }
  destruct (Hs i sub) as [ch0 Hch0]; [by left|].
  pose proof (deliver_spec sub events chans) as H. unfold delivered in H. rewrite Hch0 in H.
  destruct (deliver chans sub events) as [r d]. simpl in H. destruct r.
  2: { destruct H as (? & e & ? & ch1 & _ & _ & Hr & _). by destruct (Hr (Hopen e ch1)). }
  destruct H as (ch' & Ht & ->).
  destruct (IH (<[connection_id sub := ch']> chans) kept) as [IHk IHc].
  { intros j x Hx. rewrite lookup_insert. case_decide; [done|]. apply (Hs j x). by right. }
  split; [exact IHk|]. intros c ch Hc. rewrite filter_cons. simpl.
  destruct (decide (connection_id sub = c)) as [<-|Hne].
  - simplify_eq. destruct (IHc (connection_id sub) ch') as (ch2 & H2 & T2).
    { apply lookup_insert_eq. }
    exists ch2. split; [exact H2|]. simpl. by eapply takes_app.
  - apply IHc. by rewrite lookup_insert_ne.
Qed.
End delivery_all.

#[local] Instance entry_le_trans {V} : Transitive (@entry_le V).
Proof. intros x y z. unfold entry_le. lia. Qed.
#[local] Instance entry_le_total {V} : Total (@entry_le V).
Proof. intros x y. unfold entry_le. lia. Qed.

Lemma entries_sorted {V} (m : gmap N V) : StronglySorted entry_le (entries m).
Proof. apply Sorted_StronglySorted; [apply _|]. apply (Sorted_merge_sort _). Qed.

Lemma filter_sorted {A} (R : A → A → Prop) (P : A → Prop) `{!∀ x, Decision (P x)} (l : list A) :
  StronglySorted R l → StronglySorted R (base.filter P l).
Proof.
  induction 1 as [|x l _ IH Hx]; [constructor|]. rewrite filter_cons. case_decide; [|done].
  constructor; [done|]. rewrite Forall_forall in Hx |- *.
  intros y [_ Hy]%list_elem_of_filter. by apply Hx.
Qed.

Lemma entries_filter {V} (P : N * V → Prop) `{!∀ x, Decision (P x)} (m : gmap N V) :
  entries (filter P m) = base.filter P (entries m).
Proof.
  apply (StronglySorted_unique_strong entry_le).
  - intros [k1 x1] [k2 x2] H1%elem_of_entries [_ H2%elem_of_entries]%list_elem_of_filter.
    apply map_lookup_filter_Some in H1 as [H1 _]. unfold entry_le. simpl. intros.
    assert (k1 = k2) as -> by lia. congruence.
  - apply entries_sorted.
  - apply filter_sorted, entries_sorted.
  - apply NoDup_Permutation.
    + rewrite entries_perm. apply NoDup_map_to_list.
    + apply NoDup_filter. rewrite entries_perm. apply NoDup_map_to_list.
    + intros [k x]. rewrite list_elem_of_filter, !elem_of_entries, map_lookup_filter_Some. tauto.
Qed.

Lemma map_filter_swap {V} (P Q : N * V → Prop) `{!∀ x, Decision (P x), !∀ x, Decision (Q x)}
    (m : gmap N V) : filter P (filter Q m) = filter Q (filter P m).
Proof.
  apply map_eq. intros i. apply option_eq. intros x. rewrite !map_lookup_filter_Some. tauto.
Qed.

(** ** What [broadcast] does *)

Section broadcast.
Context {C : Type} {channel : Channel C}.

(** The subscriptions of the connection [c]. *)
Definition subscriptions_of (c : N) (rt : Runtime C) : gmap N Subscription :=
  filter (λ s : N * Subscription, connection_id s.2 = c) (rt_subscriptions rt).
Definition only (c : N) (rt : Runtime C) : Runtime C :=
  set_rt_subscriptions (subscriptions_of c rt) (rt_channels rt) (next_subscription_id rt) rt.

Lemma broadcast_parts events retired_ids (rt : Runtime C) :
  let d := if bool_decide (events = []) then (rt_subscriptions rt, rt_channels rt)
           else deliver_all (rt_channels rt) (rt_subscriptions rt)
                  (entries (rt_subscriptions rt)) events in
  (broadcast events retired_ids rt).2
  = set_rt_subscriptions (filter (λ entry, retired retired_ids entry.2 = false) d.1) d.2
      (next_subscription_id rt) rt.
Proof. unfold broadcast, modify. simpl. by destruct (if bool_decide _ then _ else _). Qed.

(** C20: a client that reads too slowly, or has hung up, costs nobody else anything:
    what [broadcast] puts in a client's queue, and which of its subscriptions it
    keeps, is what it would do were that client the only subscriber. *)
Theorem slow_clients_alone events retired_ids (rt : Runtime C) c :
  let all := (broadcast events retired_ids rt).2 in
  let alone := (broadcast events retired_ids (only c rt)).2 in
  rt_channels all !! c = rt_channels alone !! c
  ∧ subscriptions_of c all = rt_subscriptions alone.
Proof.
  cbn zeta. rewrite !broadcast_parts. unfold subscriptions_of at 1. simpl.
  case_bool_decide as He; simpl.
  { split; [done|]. apply map_filter_swap. }
  assert (entries (subscriptions_of c rt)
          = base.filter (λ s : N * Subscription, connection_id s.2 = c)
              (entries (rt_subscriptions rt))) as -> by apply entries_filter.
  destruct (deliver_all_alone events c (entries (rt_subscriptions rt)) (rt_channels rt)
    (rt_channels rt) (rt_subscriptions rt) (subscriptions_of c rt) eq_refl) as [H1 H2].
  split; [exact H1|]. rewrite map_filter_swap. f_equal.
  pose proof (deliver_all_subset events (entries (rt_subscriptions rt)) (rt_channels rt)
    (rt_subscriptions rt)) as Hall.
  pose proof (deliver_all_subset events
    (base.filter (λ s : N * Subscription, connection_id s.2 = c) (entries (rt_subscriptions rt)))
    (rt_channels rt) (subscriptions_of c rt)) as Halone.
  apply map_eq. intros id. apply option_eq. intros sub.
  rewrite map_lookup_filter_Some. simpl. split.
  - intros [Hid Hc]. rewrite <-H2; [exact Hid|..].
    + intros x Hx%elem_of_entries. pose proof (lookup_weaken _ _ _ _ Hid Hall). congruence.
    + pose proof (lookup_weaken _ _ _ _ Hid Hall) as Hs. rewrite Hs. symmetry.
      by apply map_lookup_filter_Some.
  - intros Hid. pose proof (lookup_weaken _ _ _ _ Hid Halone) as [Hs Hc]%map_lookup_filter_Some.
    simpl in Hc. split; [|exact Hc]. rewrite H2; [exact Hid|..].
    + intros x Hx%elem_of_entries. congruence.
    + rewrite Hs. symmetry. by apply map_lookup_filter_Some.
Qed.

(** When no queue refuses and every subscriber has one, [broadcast] puts in each
    client's queue, in order, the events its subscriptions asked for, and drops
    only the subscriptions to the sessions being retired; the workspace and the
    clients are untouched. *)
Theorem broadcast_delivers events retired_ids (rt : Runtime C) :
  (∀ e ch, (try_send e ch).1 = Sent) →
  (∀ id sub, rt_subscriptions rt !! id = Some sub →
     is_Some (rt_channels rt !! connection_id sub)) →
  let rt' := (broadcast events retired_ids rt).2 in
  rt_state rt' = rt_state rt ∧ rt_clients rt' = rt_clients rt
  ∧ rt_subscriptions rt' =
      filter (λ entry, retired retired_ids entry.2 = false) (rt_subscriptions rt)
  ∧ ∀ c ch, rt_channels rt !! c = Some ch →
      ∃ ch', rt_channels rt' !! c = Some ch'
        ∧ takes ch (values_of (subscriptions_of c rt) ≫= λ s, wanted s events) ch'.
Proof.
  intros Hopen Hch. cbn zeta. rewrite broadcast_parts. simpl. split; [done|]. split; [done|].
  case_bool_decide as He; simpl.
  - split; [done|]. intros c ch Hc. exists ch. split; [exact Hc|]. subst events.
    assert (∀ l : list Subscription, (l ≫= λ s, wanted s []) = []) as ->; [|constructor].
    induction l as [|s l IH]; [done|exact IH].
  - destruct (deliver_all_taken events (entries (rt_subscriptions rt)) Hopen (rt_channels rt)
      (rt_subscriptions rt)) as [-> Ht].
    { intros i sub Hi%elem_of_entries. by apply (Hch i). }
    split; [done|]. intros c ch Hc. destruct (Ht c ch Hc) as (ch' & Hch' & T).
    exists ch'. split; [exact Hch'|]. unfold subscriptions_of, values_of.
    rewrite entries_filter, list_fmap_bind. exact T.
Qed.
End broadcast.

(** A queue that takes everything. *)
#[local] Instance open_channel : Channel (list ServerEvent) := λ e ch, (Sent, ch ++ [e]).

Definition two_readers : Runtime (list ServerEvent) :=
  mkRuntime ServerState_new ∅
    {[ 1%N := mkSubscription 1%N (Some 1%N); 2%N := mkSubscription 2%N None ]}
    {[ 1%N := []; 2%N := [] ]} 3%N false false false false.

Lemma broadcast_delivers_witness :
  let events := [EvSessionRenamed 2%N (lit "two"); EvSessionRenamed 1%N (lit "one")] in
  ∃ ch', rt_channels (broadcast events [1%N] two_readers).2 !! 2%N = Some ch'
         ∧ takes [] events ch'.
Proof.
  intros events.
  destruct (broadcast_delivers events [1%N] two_readers) as (_ & _ & _ & H).
  - reflexivity.
  - intros id sub Hs.
    assert (map_Forall (λ _ s, is_Some (rt_channels two_readers !! connection_id s))
      (rt_subscriptions two_readers)) as Hall.
    { refine (bool_decide_eq_true_1 _ _). vm_compute. reflexivity. }
    exact (Hall id sub Hs).
  - destruct (H 2%N [] eq_refl) as (ch' & Hc & T). exists ch'. split; [exact Hc|exact T].
Defined.
