(* ===== verification/Frames.v ===== *)
(** Frames on a connection, [crates/embers-protocol/src/framing.rs]: a length, a type
    and a request id, then the payload. Bytes are numbers below 256. *)

From S2P Require Import Prelude Core.

Definition MAX_FRAME_LEN : N := 8 * 1024 * 1024.
Definition FRAME_HEADER_LEN : nat := 13.

Inductive FrameType : Type := FrameRequest | FrameResponse | FrameEvent.
#[export] Instance FrameType_eq_dec : EqDecision FrameType.
Proof. solve_decision. Defined.
Definition FrameType_byte (t : FrameType) : N :=
  match t with FrameRequest => 1 | FrameResponse => 2 | FrameEvent => 3 end.

(** The errors of this file, of [ProtocolError]. *)
Inductive FrameError : Type :=
  | FrameIo
  | UnexpectedEof
  | FrameTooLarge (length : N)
  | InvalidFrameType (value : N).

(** [TryFrom<u8>] *)
Definition FrameType_of_byte (value : N) : FrameType + FrameError :=
  if (value =? 1)%N then inl FrameRequest
  else if (value =? 2)%N then inl FrameResponse
  else if (value =? 3)%N then inl FrameEvent
  else inr (InvalidFrameType value).

Record RawFrame : Type := mkRawFrame {
  frame_type : FrameType;
  frame_request_id : N;
  payload : list N
}.

(** [to_le_bytes] and [from_le_bytes], of [n] bytes. *)
Fixpoint le_bytes (n : nat) (x : N) : list N :=
  match n with
  | 0 => []
  | S n => (x mod 256)%N :: le_bytes n (x / 256)
  end.
Fixpoint le_value (bs : list N) : N :=
  match bs with
  | [] => 0
  | b :: bs => (b + 256 * le_value bs)%N
  end.

(** A reader: the bytes that still arrive, and whether the connection then breaks, or
    ends. *)
Record reader : Type := mkReader { rd_bytes : list N; rd_breaks : bool }.

(** [AsyncReadExt::read_exact] *)
Definition read_exact (n : nat) (r : reader) : (list N + FrameError) * reader :=
  if n <=? length (rd_bytes r) then
    (inl (take n (rd_bytes r)), mkReader (drop n (rd_bytes r)) (rd_breaks r))
  else (inr (if rd_breaks r then FrameIo else UnexpectedEof), mkReader [] (rd_breaks r)).

Definition read_frame (r : reader) : (option RawFrame + FrameError) * reader :=
  match read_exact FRAME_HEADER_LEN r with
  | (inr UnexpectedEof, r) => (inl None, r)
  | (inr e, r) => (inr e, r)
  | (inl header, r) =>
      let len := le_value (take 4 header) in
      if (MAX_FRAME_LEN <? len)%N then (inr (FrameTooLarge len), r)
      else
        match FrameType_of_byte (nth 4 header 0%N) with
        | inr e => (inr e, r)
        | inl t =>
            let id := le_value (drop 5 header) in
            match read_exact (N.to_nat len) r with
            | (inr e, r) => (inr e, r)
            | (inl payload, r) => (inl (Some (mkRawFrame t id payload)), r)
            end
        end
  end.

(** [write_frame_inner], as the bytes it writes. [payload.len() as u32] keeps the
    lower 32 bits. *)
Definition write_frame (f : RawFrame) : list N + FrameError :=
  let len := N.of_nat (length (payload f)) in
  if (MAX_FRAME_LEN <? len)%N then inr (FrameTooLarge len)
  else
    inl (le_bytes 4 (len mod u32_modulus) ++ [FrameType_byte (frame_type f)]
         ++ le_bytes 8 (frame_request_id f) ++ payload f).

(** How reading frame after frame ends, as [handle_connection] and the client's reader
    task do: the connection closed between frames, or an error. *)
Inductive reading_end : Type :=
  | ReadClosed
  | ReadFailed (e : FrameError)
  | ReadFuel.
Fixpoint read_frames (fuel : nat) (r : reader) : list RawFrame * reading_end :=
  match fuel with
  | 0 => ([], ReadFuel)
  | S fuel =>
      match read_frame r with
      | (inr e, _) => ([], ReadFailed e)
      | (inl None, _) => ([], ReadClosed)
      | (inl (Some f), r) => let '(fs, e) := read_frames fuel r in (f :: fs, e)
      end
  end.
Fixpoint write_frames (fs : list RawFrame) : list N + FrameError :=
  match fs with
  | [] => inl []
  | f :: fs =>
      match write_frame f, write_frames fs with
      | inl b, inl bs => inl (b ++ bs)
      | inr e, _ => inr e
      | _, inr e => inr e
      end
  end.

(** Frames read back as they were written, however the connection is cut. *)

(** A frame whose fields fit their types, and its payload the limit. *)
Record frame_ok (f : RawFrame) : Prop := {
  fk_id : (frame_request_id f < u64_modulus)%N;
  fk_len : (N.of_nat (length (payload f)) ≤ MAX_FRAME_LEN)%N
}.

Lemma le_bytes_length n : ∀ x, length (le_bytes n x) = n.
Proof. induction n; intros x; simpl; auto. Qed.
Lemma le_value_bytes n : ∀ x, (x < 256 ^ N.of_nat n)%N → le_value (le_bytes n x) = x.
Proof.
  induction n as [|n IH]; intros x Hx; [simpl in *; lia|].
  cbn [le_bytes le_value]. rewrite IH.
  - pose proof (N.div_mod' x 256). lia.
  - rewrite Nat2N.inj_succ, N.pow_succ_r' in Hx. apply N.Div0.div_lt_upper_bound. lia.
Qed.
Lemma le_bytes_small n x : Forall (λ b, (b < 256)%N) (le_bytes n x).
Proof.
  revert x. induction n as [|n IH]; intros x; constructor; [|apply IH].
  by apply N.mod_lt.
Qed.

(** The header and the payload of a frame. *)
Definition frame_bytes (f : RawFrame) : list N :=
  le_bytes 4 (N.of_nat (length (payload f))) ++ [FrameType_byte (frame_type f)]
  ++ le_bytes 8 (frame_request_id f) ++ payload f.
Definition frame_size (f : RawFrame) : nat := FRAME_HEADER_LEN + length (payload f).

Lemma write_frame_bytes f : frame_ok f → write_frame f = inl (frame_bytes f).
Proof.
  intros [_ Hl]. unfold write_frame. rewrite (proj2 (N.ltb_ge _ _) Hl).
  rewrite N.mod_small; [done|]. unfold MAX_FRAME_LEN, u32_modulus in *. lia.
Qed.
Lemma frame_bytes_length f : length (frame_bytes f) = frame_size f.
Proof. unfold frame_bytes. rewrite !length_app, !le_bytes_length. done. Qed.
Lemma write_frames_bytes fs : Forall frame_ok fs → write_frames fs = inl (concat (frame_bytes <$> fs)).
Proof. induction 1 as [|f fs Hf _ IH]; [done|]. simpl. by rewrite write_frame_bytes, IH. Qed.

Lemma type_of_byte t : FrameType_of_byte (FrameType_byte t) = inl t.
Proof. by destruct t. Qed.
Lemma read_exact_app bs rest b :
  read_exact (length bs) (mkReader (bs ++ rest) b) = (inl bs, mkReader rest b).
Proof.
  unfold read_exact. simpl. rewrite (proj2 (Nat.leb_le _ _)) by (rewrite length_app; lia).
  by rewrite take_app_length, drop_app_length.
Qed.

(** What a header says is left to read, with the frame's type and id. *)
Lemma read_frame_header f rest b : frame_ok f →
  read_frame (mkReader (take FRAME_HEADER_LEN (frame_bytes f) ++ rest) b)
  = match read_exact (length (payload f)) (mkReader rest b) with
    | (inr e, r) => (inr e, r)
    | (inl p, r) => (inl (Some (mkRawFrame (frame_type f) (frame_request_id f) p)), r)
    end.
Proof.
  intros [Hi Hl]. unfold frame_bytes.
  assert (le_value (le_bytes 4 (N.of_nat (length (payload f)))) = N.of_nat (length (payload f))) as V4.
  { apply le_value_bytes. unfold MAX_FRAME_LEN in Hl. change (256 ^ N.of_nat 4)%N with 4294967296%N. lia. }
  pose proof (le_value_bytes 8 _ Hi) as V8.
  pose proof (le_bytes_length 4 (N.of_nat (length (payload f)))) as H4.
  pose proof (le_bytes_length 8 (frame_request_id f)) as H8.
  revert V4 V8 H4 H8. generalize (le_bytes 4 (N.of_nat (length (payload f)))) as l4.
  generalize (le_bytes 8 (frame_request_id f)) as i8. intros i8 l4 V4 V8 H4 H8.
  assert (take FRAME_HEADER_LEN (l4 ++ [FrameType_byte (frame_type f)] ++ i8 ++ payload f)
          = l4 ++ [FrameType_byte (frame_type f)] ++ i8) as ->.
  { rewrite !(assoc_L (++)). apply take_app_length'. rewrite !length_app, H4, H8. done. }
  unfold read_frame.
  replace FRAME_HEADER_LEN with (length (l4 ++ [FrameType_byte (frame_type f)] ++ i8))
    by (rewrite !length_app, H4, H8; done).
  rewrite read_exact_app. cbv zeta.
  rewrite take_app_length' by done. rewrite V4, (proj2 (N.ltb_ge _ _) Hl), app_nth2 by lia.
  rewrite H4. cbn [app nth Nat.sub]. rewrite type_of_byte, Nat2N.id.
  destruct (read_exact _ _) as [[p|e] r]; [|done].
  rewrite (drop_app_ge l4) by lia. rewrite H4. simpl. by rewrite drop_0, V8.
Qed.

(** A frame that arrives whole is read, and the rest left. *)
Lemma read_frame_whole f rest b : frame_ok f →
  read_frame (mkReader (frame_bytes f ++ rest) b) = (inl (Some f), mkReader rest b).
Proof.
  intros Hf. rewrite <-(take_drop FRAME_HEADER_LEN (frame_bytes f)) at 1.
  rewrite <-app_assoc, read_frame_header by done.
  assert (drop FRAME_HEADER_LEN (frame_bytes f) = payload f) as ->.
  { unfold frame_bytes. rewrite !(assoc_L (++)). apply drop_app_length'.
    rewrite !length_app, !le_bytes_length. done. }
  rewrite read_exact_app. by destruct f.
Qed.
Lemma read_frames_whole fuel f rest b : frame_ok f →
  read_frames (S fuel) (mkReader (frame_bytes f ++ rest) b)
  = let '(fs, e) := read_frames fuel (mkReader rest b) in (f :: fs, e).
Proof. intros Hf. cbn [read_frames]. by rewrite read_frame_whole. Qed.
(** A frame cut short is not. *)
Definition cut_end (n : nat) (b : bool) : reading_end :=
  if b then ReadFailed FrameIo else if n <? FRAME_HEADER_LEN then ReadClosed else ReadFailed UnexpectedEof.
Lemma read_frames_cut fuel f n b : frame_ok f → n < frame_size f →
  read_frames (S fuel) (mkReader (take n (frame_bytes f)) b) = ([], cut_end n b).
Proof.
  intros Hf Hn. cbn [read_frames]. unfold cut_end. destruct (Nat.ltb_spec n FRAME_HEADER_LEN) as [Hs|Hs].
  - unfold read_frame, read_exact. cbn [rd_bytes rd_breaks].
    rewrite (proj2 (Nat.leb_gt _ _)); [by destruct b|]. rewrite length_take. lia.
  - assert (take n (frame_bytes f)
            = take FRAME_HEADER_LEN (frame_bytes f)
              ++ take (n - FRAME_HEADER_LEN) (drop FRAME_HEADER_LEN (frame_bytes f))) as ->.
    { rewrite take_drop_commute. rewrite <-(take_drop FRAME_HEADER_LEN (take n _)) at 1.
      rewrite take_take. do 2 f_equal; [lia|]. f_equal. lia. }
    rewrite read_frame_header by done. unfold read_exact. cbn [rd_bytes rd_breaks].
    rewrite (proj2 (Nat.leb_gt _ _)); [by destruct b|].
    rewrite length_take, length_drop, frame_bytes_length. unfold frame_size in *. lia.
Qed.

(** C33: Frames within the limits are written, and read back one by one as they were;
    wherever the connection is cut, the frames sent whole before that, all of them, are read,
    and nothing else: reading then ends without an error if the connection ended within
    the 13 bytes of a header, and with one if it broke or ended later. *)
Theorem frames_read_back fs n b :
  Forall frame_ok fs →
  ∃ bs, write_frames fs = inl bs
  ∧ (∀ fuel, length bs ≤ fuel → read_frames (S fuel) (mkReader bs false) = (fs, ReadClosed))
  ∧ (n < length bs → ∃ k f, fs !! k = Some f
     ∧ sum_list (frame_size <$> take k fs) ≤ n < sum_list (frame_size <$> take k fs) + frame_size f
     ∧ ∀ fuel, k ≤ fuel → read_frames (S fuel) (mkReader (take n bs) b)
       = (take k fs, cut_end (n - sum_list (frame_size <$> take k fs)) b)).
Proof.
  intros Hfs. exists (concat (frame_bytes <$> fs)). split_and!; [by apply write_frames_bytes|..].
  - induction Hfs as [|f fs Hf _ IH]; intros fuel Hfuel; [done|]. cbn [fmap list_fmap concat] in *.
    rewrite length_app, frame_bytes_length in Hfuel. destruct fuel as [|fuel]; [unfold frame_size, FRAME_HEADER_LEN in *; lia|].
    rewrite read_frames_whole by done. rewrite IH; [done|]. unfold frame_size, FRAME_HEADER_LEN in *. lia.
  - revert n. induction Hfs as [|f fs Hf _ IH]; intros n Hn; cbn [fmap list_fmap concat] in *; [simpl in *; lia|].
    rewrite length_app, frame_bytes_length in Hn. destruct (decide (n < frame_size f)) as [Hs|Hs].
    + exists 0, f. cbn [firstn take fmap list_fmap sum_list foldr id].
      split_and!; [done|lia|lia|]. intros fuel _. rewrite take_app_le by (rewrite frame_bytes_length; lia).
      rewrite read_frames_cut by done. simpl. by rewrite Nat.sub_0_r.
    + destruct (IH (n - frame_size f)) as (k & g & Hk & Hb & He); [lia|]. exists (S k), g.
      cbn [firstn take fmap list_fmap sum_list foldr id].
      split_and!; [done|lia|lia|].
      intros fuel Hfuel. destruct fuel as [|fuel]; [lia|].
      rewrite take_app_ge by (rewrite frame_bytes_length; lia).
      rewrite read_frames_whole, frame_bytes_length, He by (done || lia).
      by rewrite Nat.sub_add_distr.
Qed.

(** A request of two bytes, and an empty event. *)
Definition two_frames : list RawFrame :=
  [mkRawFrame FrameRequest 7 [104; 105]%N; mkRawFrame FrameEvent 0 []].
Lemma frames_read_back_witness :
  Forall frame_ok two_frames
  ∧ ∃ bs, write_frames two_frames = inl bs
  ∧ (∀ fuel, length bs ≤ fuel →
     read_frames (S fuel) (mkReader bs false) = (two_frames, ReadClosed))
  ∧ (20 < length bs → ∃ k f, two_frames !! k = Some f
     ∧ sum_list (frame_size <$> take k two_frames) ≤ 20
       < sum_list (frame_size <$> take k two_frames) + frame_size f
     ∧ ∀ fuel, k ≤ fuel → read_frames (S fuel) (mkReader (take 20 bs) true)
       = (take k two_frames, ReadFailed FrameIo)).
Proof.
  assert (Forall frame_ok two_frames) as H by (repeat constructor; vm_compute; done).
  split; [exact H|exact (frames_read_back two_frames 20 true H)].
Defined.
