(* ===== verification/ReplyHold.v ===== *)
(** A pane's query replies, kept in order behind its kitty graphics queries,
    [crates/embers-server/src/reply_hold.rs]. Bytes are numbers below 256, instants
    nanoseconds. *)

From S2P Require Import Prelude.

Definition REPLY_HOLD_TIMEOUT : N := 500000000.
Definition MAX_HELD_REPLY_BYTES : N := 64 * 1024.

Inductive GraphicsId : Type :=
  | GraphicsImage (id : N)
  | GraphicsNumber (number : N).
#[export] Instance GraphicsId_eq_dec : EqDecision GraphicsId.
Proof. solve_decision. Defined.

Record ReplyHold : Type := mkReplyHold {
  rh_enabled : bool;
  rh_pending : list GraphicsId;
  rh_deadline : option N;
  rh_held : list N
}.
Definition ReplyHold_default : ReplyHold := mkReplyHold false [] None [].

(** ** Reading graphics commands *)

Fixpoint starts_with (needle s : list N) : bool :=
  match needle, s with
  | [], _ => true
  | c :: needle, d :: s => (c =? d)%N && starts_with needle s
  | _, [] => false
  end.
Fixpoint find_bytes (needle s : list N) : option nat :=
  if starts_with needle s then Some 0
  else match s with
       | [] => None
       | _ :: s => S <$> find_bytes needle s
       end.

(** [ESC _ G] and [ESC \ ]. *)
Definition COMMAND_START : list N := [27; 95; 71]%N.
Definition COMMAND_END : list N := [27; 92]%N.

Fixpoint graphics_commands_in (fuel : nat) (rest : list N) : list (list N) :=
  match fuel with
  | 0 => []
  | S fuel =>
      match find_bytes COMMAND_START rest with
      | None => []
      | Some start =>
          let rest := drop (start + 3) rest in
          match find_bytes COMMAND_END rest with
          | None => []
          | Some length =>
              let command := take length rest in
              default command (head (split_where (N.eqb 59) command))
              :: graphics_commands_in fuel (drop (length + 2) rest)
          end
      end
  end.
Definition graphics_commands (bytes : list N) : list (list N) :=
  graphics_commands_in (S (length bytes)) bytes.

(** A pair is split at its first equals sign. *)
Fixpoint split_pair (s : list N) : option (list N * list N) :=
  match s with
  | [] => None
  | c :: s => if (c =? 61)%N then Some ([], s) else prod_map (cons c) id <$> split_pair s
  end.
Definition control_keys (control : list N) : list (list N * list N) :=
  omap split_pair (split_where (N.eqb 44) control).

(** One pair of the loop of [is_answered_query]; [None] once it has returned false. *)
Definition answered_pair (query : option bool) (kv : list N * list N) : option bool :=
  query ← query;
  if bool_decide (kv.1 = [97]%N) then Some (bool_decide (kv.2 = [113]%N))
  else if bool_decide (kv.1 = [113]%N) && negb (bool_decide (kv.2 = [48]%N)) then None
  else Some query.
Definition is_answered_query (control : list N) : bool :=
  default false (foldl answered_pair (Some false) (control_keys control)).

Definition graphics_id_of (kv : list N * list N) : option GraphicsId :=
  if bool_decide (kv.1 = [105]%N) then GraphicsImage <$> parse_u32 kv.2
  else if bool_decide (kv.1 = [73]%N) then GraphicsNumber <$> parse_u32 kv.2
  else None.
Definition graphics_ids (control : list N) : list GraphicsId :=
  omap graphics_id_of (control_keys control).

(** ** Operations *)

(** [release]: what was held, and the hold without it. *)
Definition release_held (h : ReplyHold) : list N * ReplyHold :=
  (rh_held h, mkReplyHold (rh_enabled h) [] None []).

Definition hold_set_enabled (enabled : bool) (h : ReplyHold) : list N * ReplyHold :=
  let h := mkReplyHold enabled (rh_pending h) (rh_deadline h) (rh_held h) in
  if enabled then ([], h) else release_held h.

Definition hold_forwarded (write : list N) (now : N) (h : ReplyHold) : ReplyHold :=
  if negb (rh_enabled h) then h
  else
    let queries := omap (λ control, head (graphics_ids control))
                     (base.filter (λ control, is_answered_query control = true)
                        (graphics_commands write)) in
    mkReplyHold (rh_enabled h) (rh_pending h ++ queries)
      (match queries with [] => rh_deadline h | _ => Some (now + REPLY_HOLD_TIMEOUT)%N end)
      (rh_held h).

Definition hold_replies (replies : list N) (h : ReplyHold) : list N * ReplyHold :=
  match rh_pending h with
  | [] => (replies, h)
  | _ =>
      let h := mkReplyHold (rh_enabled h) (rh_pending h) (rh_deadline h) (rh_held h ++ replies) in
      if (MAX_HELD_REPLY_BYTES <? N.of_nat (length (rh_held h)))%N then release_held h else ([], h)
  end.

(** The first occurrence of [x] goes. *)
Fixpoint remove_first {A} `{EqDecision A} (x : A) (l : list A) : list A :=
  match l with
  | [] => []
  | y :: l => if decide (y = x) then l else y :: remove_first x l
  end.
Definition hold_input (input : list N) (h : ReplyHold) : list N * ReplyHold :=
  match rh_pending h with
  | [] => ([], h)
  | _ =>
      let answered := concat (graphics_ids <$> graphics_commands input) in
      let pending := foldl (λ pending id, remove_first id pending) (rh_pending h) answered in
      let h := mkReplyHold (rh_enabled h) pending (rh_deadline h) (rh_held h) in
      match pending with [] => release_held h | _ => ([], h) end
  end.

Definition hold_expire (now : N) (h : ReplyHold) : list N * ReplyHold :=
  match rh_deadline h with
  | Some deadline => if (deadline <=? now)%N then release_held h else ([], h)
  | None => ([], h)
  end.

(** Replies leave a hold in the order they came, none lost, and soon: a query's answer
    lets the replies after it go. *)

(** ** Whatever is done to a hold *)

Inductive hold_op : Type :=
  | HoldEnable (enabled : bool)
  | HoldForwarded (write : list N) (now : N)
  | HoldReplies (replies : list N)
  | HoldInput (input : list N)
  | HoldExpire (now : N).
Definition hold_step (op : hold_op) (h : ReplyHold) : list N * ReplyHold :=
  match op with
  | HoldEnable enabled => hold_set_enabled enabled h
  | HoldForwarded write now => ([], hold_forwarded write now h)
  | HoldReplies replies => hold_replies replies h
  | HoldInput input => hold_input input h
  | HoldExpire now => hold_expire now h
  end.
Definition replies_of (op : hold_op) : list N :=
  match op with HoldReplies replies => replies | _ => [] end.
Fixpoint hold_run (ops : list hold_op) (h : ReplyHold) : list N * ReplyHold :=
  match ops with
  | [] => ([], h)
  | op :: ops =>
      let '(out, h) := hold_step op h in
      let '(outs, h) := hold_run ops h in
      (out ++ outs, h)
  end.

(** Something is held only while a query waits for its answer, for a while, and within
    a bound. *)
Record hold_ok (h : ReplyHold) : Prop := {
  hk_bound : (N.of_nat (length (rh_held h)) ≤ MAX_HELD_REPLY_BYTES)%N;
  hk_waits : rh_pending h ≠ [] → rh_enabled h = true ∧ is_Some (rh_deadline h);
  hk_idle : rh_pending h = [] → rh_held h = [] ∧ rh_deadline h = None
}.
Lemma default_hold_ok : hold_ok ReplyHold_default.
Proof. by split. Qed.
Lemma released_ok enabled : hold_ok (mkReplyHold enabled [] None []).
Proof. by split. Qed.

(** What a step holds and lets go is what was held and came in, in order. *)
Lemma hold_step_keeps op h : hold_ok h →
  (hold_step op h).1 ++ rh_held (hold_step op h).2 = rh_held h ++ replies_of op
  ∧ hold_ok (hold_step op h).2.
Proof.
  intros [Hb Hw Hi]. destruct op as [enabled|write now|replies|input|now]; simpl.
  - unfold hold_set_enabled, release_held. destruct enabled; simpl; rewrite ?app_nil_r;
      (split; [done|]); [|apply released_ok]. split; simpl; [done| |done].
    intros Hp. split; [done|by apply Hw].
  - rewrite app_nil_r. unfold hold_forwarded. destruct (rh_enabled h) eqn:He; simpl; [|split; [done|by split; rewrite ?He]].
    split; [done|]. destruct (omap _ _) as [|q qs] eqn:Hq.
    + rewrite app_nil_r. split; [exact Hb| |exact Hi]. simpl. intros Hp. split; [done|by apply Hw].
    + split; simpl; [exact Hb|by eauto|]. by intros [_ ?]%app_eq_nil.
  - unfold hold_replies, release_held. destruct (rh_pending h) as [|q qs] eqn:Hp.
    + simpl. destruct (Hi eq_refl) as [Hh Hd]. rewrite Hh, app_nil_r. split; [done|].
      by split; rewrite ?Hp.
    + simpl. destruct (N.ltb_spec MAX_HELD_REPLY_BYTES (N.of_nat (length (rh_held h ++ replies)))) as [Hl|Hl];
        simpl; rewrite ?app_nil_r; (split; [done|]); [apply released_ok|]. by split; simpl; [lia|auto|].
  - rewrite app_nil_r. unfold hold_input, release_held. destruct (rh_pending h) as [|q qs] eqn:Hp.
    + simpl. split; [done|]. by split; rewrite ?Hp.
    + simpl. destruct (foldl _ _ _) as [|q' qs']; simpl; rewrite ?app_nil_r; (split; [done|]);
        [apply released_ok|]. by split; simpl; [done|auto|].
  - rewrite app_nil_r. unfold hold_expire, release_held. destruct (rh_deadline h) as [d|] eqn:Hd.
    + destruct (d <=? now)%N; simpl; rewrite ?app_nil_r; (split; [done|]); [apply released_ok|].
      by split; simpl; rewrite ?Hd.
    + simpl. split; [done|]. by split; rewrite ?Hd.
Qed.
Lemma hold_run_keeps ops : ∀ h, hold_ok h →
  (hold_run ops h).1 ++ rh_held (hold_run ops h).2 = rh_held h ++ concat (replies_of <$> ops)
  ∧ hold_ok (hold_run ops h).2.
Proof.
  induction ops as [|op ops IH]; intros h Hh; simpl; [by rewrite app_nil_r|].
  destruct (hold_step_keeps op h Hh) as [He Hh']. destruct (hold_step op h) as [out h']. simpl in *.
  specialize (IH h' Hh') as [He' Hh'']. destruct (hold_run ops h') as [outs h'']. simpl in *.
  split; [|exact Hh'']. by rewrite <-app_assoc, He', app_assoc, He, <-app_assoc.
Qed.

(** C37: Whatever arrives, in whatever order, the replies a hold lets go and those it
    still holds are together the replies it was given, in order; it holds no more than
    the limit, only while it is enabled and a forwarded query waits, and nothing once
    the deadline has passed. *)
Theorem replies_in_order ops :
  let '(out, h) := hold_run ops ReplyHold_default in
  out ++ rh_held h = concat (replies_of <$> ops)
  ∧ (N.of_nat (length (rh_held h)) ≤ MAX_HELD_REPLY_BYTES)%N
  ∧ (rh_held h ≠ [] → rh_enabled h = true ∧ rh_pending h ≠ [] ∧ ∃ deadline,
       rh_deadline h = Some deadline
       ∧ ∀ now, (deadline ≤ now)%N → hold_expire now h = (rh_held h, mkReplyHold true [] None [])).
Proof.
  pose proof (hold_run_keeps ops ReplyHold_default default_hold_ok) as [He [Hb Hw Hi]].
  destruct (hold_run ops ReplyHold_default) as [out h]. simpl in *. split_and!; [exact He|exact Hb|].
  intros Hheld. destruct (decide (rh_pending h = [])) as [Hp|Hp]; [by destruct (Hi Hp)|].
  destruct (Hw Hp) as [Hen [d Hd]]. split_and!; [done|done|]. exists d. split; [done|].
  intros now Hnow. unfold hold_expire, release_held. by rewrite Hd, (proj2 (N.leb_le _ _) Hnow), Hen.
Qed.

(** ** A query and its answer *)

Lemma find_end body : 27%N ∉ body →
  find_bytes COMMAND_END (body ++ COMMAND_END) = Some (length body).
Proof.
  induction body as [|c body IH]; intros Hb; [done|]. apply not_elem_of_cons in Hb as [Hc Hb].
  cbn [app find_bytes COMMAND_END starts_with]. rewrite (proj2 (N.eqb_neq 27 c)) by done.
  cbn [andb]. by rewrite IH.
Qed.

(** [ESC _ G control ; payload ESC \ ] *)
Definition graphics_command (control payload : list N) : list N :=
  COMMAND_START ++ (control ++ 59%N :: payload) ++ COMMAND_END.
Lemma graphics_command_read control payload :
  27%N ∉ control → 59%N ∉ control → 27%N ∉ payload →
  graphics_commands (graphics_command control payload) = [control].
Proof.
  intros Hc Hs Hp. unfold graphics_commands, graphics_command.
  assert (27%N ∉ control ++ 59%N :: payload) as Hb.
  { rewrite elem_of_app, elem_of_cons. by intros [?|[?|?]]. }
  assert (head (split_where (N.eqb 59) (control ++ 59%N :: payload)) = Some control) as Hh.
  { rewrite split_where_app; [done| |done]. apply Forall_forall. intros x Hx. apply N.eqb_neq. congruence. }
  revert Hb Hh. generalize (control ++ 59%N :: payload). intros body Hb Hh.
  assert (find_bytes COMMAND_START (COMMAND_START ++ body ++ COMMAND_END) = Some 0) as Hstart by done.
  cbn [graphics_commands_in]. rewrite Hstart. cbv zeta.
  change (drop (0 + 3) (COMMAND_START ++ body ++ COMMAND_END)) with (body ++ COMMAND_END).
  rewrite find_end by done. rewrite take_app_length, Hh. cbn [default]. f_equal.
  rewrite drop_app_ge by lia. replace (length body + 2 - length body) with 2 by lia.
  by destruct (length _).
Qed.

(** A query as programs send it, and the terminal's answer: both name the image. *)
Definition query_control (i : N) : list N := lit "i=" ++ decimal i ++ lit ",a=q".
Definition answer_control (i : N) : list N := lit "i=" ++ decimal i.
Lemma decimal_free c n : (c < 48 ∨ 57 < c)%N → c ∉ decimal n.
Proof.
  intros Hc Hin. pose proof (proj1 (Forall_forall _ _) (decimal_digits n) c Hin) as [? ?]. lia.
Qed.
Lemma id_pair_free c i : (c < 48 ∨ 57 < c)%N → c ∉ lit "i=" → c ∉ lit "i=" ++ decimal i.
Proof. intros Hc Hi. rewrite elem_of_app. intros [?|?]; [done|by eapply decimal_free]. Qed.
Lemma not_in_lit c s : bool_decide (c ∉ lit s) = true → c ∉ lit s.
Proof. apply bool_decide_eq_true. Qed.
Lemma query_free c i : (c < 48 ∨ 57 < c)%N → c ∉ lit "i=" → c ∉ lit ",a=q" → c ∉ query_control i.
Proof.
  intros Hc Hi Hq. unfold query_control. rewrite app_assoc, elem_of_app.
  intros [?|?]; [by eapply id_pair_free|done].
Qed.
Lemma comma_free w : 44%N ∉ w → Forall (λ c, (44 =? c)%N = false) w.
Proof. intros Hw. apply Forall_forall. intros c Hc. apply N.eqb_neq. congruence. Qed.
Lemma answer_keys i : control_keys (answer_control i) = [(lit "i", decimal i)].
Proof.
  unfold control_keys. rewrite split_where_none; [done|]. apply comma_free.
  apply id_pair_free; [lia|by apply not_in_lit].
Qed.
Lemma query_keys i : control_keys (query_control i) = [(lit "i", decimal i); (lit "a", lit "q")].
Proof.
  unfold control_keys, query_control. rewrite app_assoc.
  change (lit ",a=q") with (44%N :: lit "a=q"). rewrite split_where_app; [done| |done].
  apply comma_free. apply id_pair_free; [lia|by apply not_in_lit].
Qed.

Lemma query_read i payload : 27%N ∉ payload →
  graphics_commands (graphics_command (query_control i) payload) = [query_control i].
Proof. intros Hp. apply graphics_command_read; [..|exact Hp]; apply query_free; (lia || by apply not_in_lit). Qed.
Lemma answer_read i msg : 27%N ∉ msg →
  graphics_commands (graphics_command (answer_control i) msg) = [answer_control i].
Proof.
  intros Hp. apply graphics_command_read; [..|exact Hp]; apply id_pair_free; (lia || by apply not_in_lit).
Qed.

Definition ready : ReplyHold := mkReplyHold true [] None [].
Definition waiting_for (i : N) (until : N) (held : list N) : ReplyHold :=
  mkReplyHold true [GraphicsImage i] (Some until) held.
Lemma forwarded_waits i payload now : (i < u32_modulus)%N → 27%N ∉ payload →
  hold_forwarded (graphics_command (query_control i) payload) now ready
  = waiting_for i (now + REPLY_HOLD_TIMEOUT) [].
Proof.
  intros Hi Hp. unfold hold_forwarded. rewrite query_read by done. cbn [negb rh_enabled ready].
  assert (is_answered_query (query_control i) = true) as Hq
    by (unfold is_answered_query; by rewrite query_keys).
  rewrite filter_cons_True by done. rewrite filter_nil. cbn [omap list_omap].
  unfold graphics_ids. rewrite query_keys. cbn [omap list_omap]. unfold graphics_id_of.
  cbn [fst snd]. rewrite bool_decide_eq_true_2 by done. by unfold parse_u32; rewrite parse_decimal.
Qed.
Lemma waiting_replies i until rs : ∀ held,
  (N.of_nat (length (held ++ concat rs)) ≤ MAX_HELD_REPLY_BYTES)%N →
  hold_run (HoldReplies <$> rs) (waiting_for i until held) = ([], waiting_for i until (held ++ concat rs)).
Proof.
  induction rs as [|r rs IH]; intros held Hl; [by rewrite app_nil_r|].
  cbn [concat] in *. rewrite app_assoc, length_app in Hl.
  assert (hold_replies r (waiting_for i until held) = ([], waiting_for i until (held ++ r))) as Hr.
  { unfold hold_replies. cbn [rh_pending waiting_for rh_held]. by rewrite (proj2 (N.ltb_ge _ _)) by lia. }
  cbn [fmap list_fmap hold_run hold_step]. rewrite Hr, IH by (rewrite length_app; lia).
  by rewrite <-app_assoc.
Qed.

(** After a graphics query is forwarded, the replies to what follows it, up to the
    limit, are held until the terminal's answer to it is written to the pane, and then
    go right after it, all of them in order; the hold is then as it was before. *)
Theorem answer_lets_replies_go i payload msg rs now :
  (i < u32_modulus)%N → 27%N ∉ payload → 27%N ∉ msg →
  (N.of_nat (length (concat rs)) ≤ MAX_HELD_REPLY_BYTES)%N →
  let query := graphics_command (query_control i) payload in
  let answer := graphics_command (answer_control i) msg in
  ∃ h, hold_run (HoldForwarded query now :: (HoldReplies <$> rs)) ready = ([], h)
       ∧ hold_input answer h = (concat rs, ready).
Proof.
  intros Hi Hp Hm Hl. exists (waiting_for i (now + REPLY_HOLD_TIMEOUT) (concat rs)). split.
  - cbn [hold_run hold_step]. rewrite forwarded_waits, waiting_replies by done. done.
  - unfold hold_input. cbn [rh_pending waiting_for]. rewrite answer_read by done.
    cbn [fmap list_fmap concat]. unfold graphics_ids. rewrite answer_keys.
    cbn [omap list_omap]. unfold graphics_id_of. cbn [fst snd].
    rewrite bool_decide_eq_true_2 by done. unfold parse_u32; rewrite parse_decimal by done.
    cbn [fmap option_fmap option_map app foldl remove_first rh_pending].
    rewrite decide_True by done. done.
Qed.

Lemma answer_lets_replies_go_witness :
  (31 < u32_modulus)%N ∧ 27%N ∉ lit "AAAA" ∧ 27%N ∉ lit "OK"
  ∧ ∃ h, hold_run (HoldForwarded (graphics_command (query_control 31) (lit "AAAA")) 5
                     :: (HoldReplies <$> [[1; 2]%N; [3]%N])) ready = ([], h)
         ∧ hold_input (graphics_command (answer_control 31) (lit "OK")) h = (concat [[1; 2]%N; [3]%N], ready).
Proof.
  assert ((31 < u32_modulus)%N ∧ 27%N ∉ lit "AAAA" ∧ 27%N ∉ lit "OK") as (H1 & H2 & H3).
  { split; [done|]. apply (bool_decide_eq_true_1 _). vm_compute. reflexivity. }
  split_and!; [exact H1|exact H2|exact H3|].
  exact (answer_lets_replies_go 31 (lit "AAAA") (lit "OK") [[1; 2]%N; [3]%N] 5 H1 H2 H3 ltac:(done)).
Defined.
