(* ===== verification/ClientSpec.v ===== *)
(** The client's copy of a session is the server's: applying a snapshot makes it so,
    whatever the client had, and leaves the other sessions alone. *)

From S2P Require Import Prelude Core Model Environment State Queries Protocol Snapshot.
From S2P Require Import ClientState Forest Invariant QueriesSpec FocusSpec Settle.
From S2P Require Import Surgery SnapshotSpec.

(** ** Maps filled from lists *)

Section insert_all.
Context {A : Type} (key : A → N).
Lemma insert_all_other l : ∀ (m : gmap N A) k, k ∉ key <$> l → insert_all key l m !! k = m !! k.
Proof.
  induction l as [|x l IH]; intros m k Hk; [done|]. apply not_elem_of_cons in Hk as [Hx Hk].
  unfold insert_all in *. cbn [foldl]. rewrite IH by done. by rewrite lookup_insert_ne.
Qed.
Lemma insert_all_in l : ∀ (m : gmap N A) x, NoDup (key <$> l) → x ∈ l →
  insert_all key l m !! key x = Some x.
Proof.
  induction l as [|y l IH]; intros m x Hn Hx; [by apply elem_of_nil in Hx|].
  apply NoDup_cons in Hn as [Hy Hn]. apply elem_of_cons in Hx as [->|Hx].
  - change (insert_all key l (<[key y:=y]> m) !! key y = Some y).
    rewrite insert_all_other by done. by rewrite lookup_insert_eq.
  - by apply IH.
Qed.
Lemma insert_all_inv l : ∀ (m : gmap N A) k x,
  insert_all key l m !! k = Some x → (x ∈ l ∧ key x = k) ∨ (k ∉ key <$> l ∧ m !! k = Some x).
Proof.
  induction l as [|y l IH]; intros m k x Hx; [right; split; [by apply not_elem_of_nil|done]|].
  apply (IH (<[key y:=y]> m)) in Hx as [[Hx Hk]|[Hk Hx]]; [left; split; [by right|done]|].
  rewrite lookup_insert in Hx. case_decide as Hy.
  - simplify_eq. left. split; [by left|done].
  - right. split; [|done]. by apply not_elem_of_cons.
Qed.
End insert_all.

(** ** What syncing views leaves alone *)

Definition same_copy (c c' : ClientState) : Prop :=
  cl_sessions c' = cl_sessions c ∧ cl_buffers c' = cl_buffers c ∧ cl_nodes c' = cl_nodes c
  ∧ cl_floating c' = cl_floating c ∧ cl_snapshots c' = cl_snapshots c
  ∧ cl_dirty_sessions c' = cl_dirty_sessions c ∧ cl_invalidated_buffers c' = cl_invalidated_buffers c
  ∧ cl_drawn_rows c' = cl_drawn_rows c.
#[export] Instance same_copy_preorder : PreOrder same_copy.
Proof.
  split; [by intros c|]. intros c1 c2 c3 H1 H2. unfold same_copy in *.
  destruct_and!. split_and!; by etrans.
Qed.
(** The pane [i] shows [bid], as the client has it. *)
Definition pane_of (c : ClientState) (i : N) (bv : BufferViewRecord) : Prop :=
  ∃ n, cl_nodes c !! i = Some n ∧ nr_kind n = NkBufferView ∧ nr_buffer_view n = Some bv.

Lemma sync_view_copy hints c i : same_copy c (sync_view hints c i).
Proof. unfold sync_view. repeat case_match; by repeat split. Qed.
Lemma sync_views_copy hints c l : same_copy c (foldl (sync_view hints) c l).
Proof.
  revert c. induction l as [|i l IH]; intros c; [done|]. cbn [foldl].
  etrans; [apply (sync_view_copy hints c i)|apply IH].
Qed.
Lemma sync_view_other hints c i j : i ≠ j →
  cl_view_state (sync_view hints c i) !! j = cl_view_state c !! j.
Proof. intros Hij. unfold sync_view. repeat case_match; try done. all: simpl; by rewrite lookup_insert_ne. Qed.
Lemma resync_view_buffer hints snap visible total v :
  pv_buffer_id (resync_view hints snap visible total v) = pv_buffer_id v.
Proof. unfold resync_view. by repeat case_match. Qed.
Lemma sync_view_shows hints c i bv : pane_of c i bv →
  ∃ v, cl_view_state (sync_view hints c i) !! i = Some v ∧ pv_buffer_id v = bv_buffer_id bv.
Proof.
  intros (n & Hn & Hk & Hb). unfold sync_view. rewrite Hn, Hk, Hb. simpl. rewrite lookup_insert_eq.
  eexists. split; [done|]. destruct (cl_view_state c !! i) as [v|]; [|done].
  destruct (N.eqb_spec (pv_buffer_id v) (bv_buffer_id bv)); [|done]. by rewrite resync_view_buffer.
Qed.
Lemma sync_views_other hints l : ∀ c j, j ∉ l →
  cl_view_state (foldl (sync_view hints) c l) !! j = cl_view_state c !! j.
Proof.
  induction l as [|i l IH]; intros c j Hj; [done|]. apply not_elem_of_cons in Hj as [? Hj].
  cbn [foldl]. rewrite IH by done. by apply sync_view_other.
Qed.
Lemma pane_of_copy c c' i bv : same_copy c c' → pane_of c i bv → pane_of c' i bv.
Proof. intros (_ & _ & Hn & _) (n & ?). exists n. by rewrite Hn. Qed.
Lemma sync_views_show hints l : ∀ c i bv, NoDup l → i ∈ l → pane_of c i bv →
  ∃ v, cl_view_state (foldl (sync_view hints) c l) !! i = Some v ∧ pv_buffer_id v = bv_buffer_id bv.
Proof.
  induction l as [|j l IH]; intros c i bv Hd Hi Hp; [by apply elem_of_nil in Hi|].
  apply NoDup_cons in Hd as [Hj Hd]. cbn [foldl]. apply elem_of_cons in Hi as [->|Hi].
  - rewrite sync_views_other by done. by apply sync_view_shows.
  - apply IH; [done|done|]. eapply pane_of_copy; [apply sync_view_copy|done].
Qed.

(** ** A client that keeps its maps by id *)

Record keyed (c : ClientState) : Prop := {
  ky_nodes : ∀ i n, cl_nodes c !! i = Some n → nr_id n = i;
  ky_buffers : ∀ i b, cl_buffers c !! i = Some b → br_id b = i
}.

Lemma elem_of_client_session c sid i : keyed c →
  i ∈ client_session_node_ids c sid ↔ ∃ n, cl_nodes c !! i = Some n ∧ nr_session_id n = sid.
Proof.
  intros K. unfold client_session_node_ids. rewrite elem_of_list_to_set, list_elem_of_fmap. split.
  - intros (n & -> & [Hs Hn]%list_elem_of_filter). apply elem_of_values_of in Hn as [k Hn].
    exists n. split; [|done]. by rewrite (ky_nodes _ K _ _ Hn).
  - intros (n & Hn & Hs). exists n. split; [by rewrite (ky_nodes _ K _ _ Hn)|].
    apply list_elem_of_filter. split; [done|]. apply elem_of_values_of. by exists i.
Qed.

Lemma retain_listed_Some {A} (f : A → N) sid ids (m : gmap N A) k x :
  retain_listed f sid ids m !! k = Some x ↔ m !! k = Some x ∧ (f x ≠ sid ∨ k ∈ ids).
Proof. unfold retain_listed. by rewrite map_lookup_filter_Some. Qed.
Lemma retain_current_Some {A} previous current (m : gmap N A) k x :
  retain_current previous current m !! k = Some x ↔
  m !! k = Some x ∧ (k ∉ previous ∨ k ∈ current).
Proof. unfold retain_current. by rewrite map_lookup_filter_Some. Qed.

(** Detaching the buffers that a snapshot no longer shows. *)
Lemma detach_all_lookup ids l : ∀ (m : gmap N BufferRecord) k,
  foldl (λ bs bid, alter (detach_from ids) bid bs) m l !! k
  = if bool_decide (k ∈ l) then detach_from ids <$> m !! k else m !! k.
Proof.
  assert (∀ b, detach_from ids (detach_from ids b) = detach_from ids b) as Hidem.
  { intros b. unfold detach_from. destruct (attached_to ids b) eqn:Ha; [done|by rewrite Ha]. }
  induction l as [|bid l IH]; intros m k; [done|]. cbn [foldl]. rewrite IH.
  destruct (decide (k = bid)) as [->|Hk].
  - rewrite lookup_alter_eq, (bool_decide_eq_true_2 (bid ∈ bid :: l)) by by left.
    destruct (bool_decide (bid ∈ l)); [|done]. destruct (m !! bid); simpl; [by rewrite Hidem|done].
  - rewrite lookup_alter_ne by done.
    rewrite (bool_decide_ext (k ∈ bid :: l) (k ∈ l)); [done|]. rewrite elem_of_cons. naive_solver.
Qed.

(** ** Applying a snapshot *)

Section snapshot.
Context (snap : SessionSnapshot) (c : ClientState) (K : keyed c).
Let sid := sr_id (ss_session snap).
Let previous := client_session_node_ids c sid.
Let current : gset N := list_to_set (nr_id <$> ss_nodes snap).
Let c' := apply_session_snapshot snap c.

Lemma applied_copy :
  cl_sessions c' = <[sid := ss_session snap]> (cl_sessions c)
  ∧ cl_nodes c' = insert_all nr_id (ss_nodes snap) (retain_listed nr_session_id sid current (cl_nodes c))
  ∧ cl_floating c' = insert_all fr_id (ss_floating snap)
      (retain_listed fr_session_id sid (list_to_set (fr_id <$> ss_floating snap)) (cl_floating c))
  ∧ cl_dirty_sessions c' = cl_dirty_sessions c ∖ {[sid]}.
Proof.
  unfold c', apply_session_snapshot. cbv zeta. unfold sync_view_states_for_nodes.
  match goal with |- context [foldl (sync_view false) ?c0 ?l] =>
    destruct (sync_views_copy false c0 l) as (Hs & _ & Hn & Hf & _ & Hd & _) end.
  cbn [cl_set_dirty cl_sessions cl_nodes cl_floating cl_dirty_sessions].
  rewrite Hs, Hn, Hf, Hd. done.
Qed.
Lemma applied_buffers :
  cl_buffers c' = foldl (λ bs bid, alter (detach_from previous) bid bs)
    (insert_all br_id (ss_buffers snap) (cl_buffers c))
    (set_to_sorted (attached_buffers_for_nodes c previous ∖ list_to_set (br_id <$> ss_buffers snap))).
Proof.
  unfold c', apply_session_snapshot. cbv zeta. unfold sync_view_states_for_nodes.
  match goal with |- context [foldl (sync_view false) ?c0 ?l] =>
    destruct (sync_views_copy false c0 l) as (_ & Hb & _) end.
  cbn [cl_set_dirty cl_buffers]. by rewrite Hb.
Qed.

Lemma applied_nodes_in r : NoDup (nr_id <$> ss_nodes snap) → r ∈ ss_nodes snap →
  cl_nodes c' !! nr_id r = Some r.
Proof. intros Hd Hr. destruct applied_copy as (_ & -> & _). by apply insert_all_in. Qed.
Lemma applied_nodes_of i r : cl_nodes c' !! i = Some r → nr_session_id r = sid →
  i ∈ nr_id <$> ss_nodes snap.
Proof.
  destruct applied_copy as (_ & -> & _). intros Hr Hs.
  apply insert_all_inv in Hr as [[Hr <-]|[_ [_ [?|Hi]]%retain_listed_Some]];
    [by apply list_elem_of_fmap_2|done|]. by apply elem_of_list_to_set in Hi.
Qed.
Lemma applied_nodes_other i r : nr_session_id r ≠ sid → i ∉ nr_id <$> ss_nodes snap →
  cl_nodes c' !! i = Some r ↔ cl_nodes c !! i = Some r.
Proof.
  intros Hs Hi. destruct applied_copy as (_ & -> & _). rewrite insert_all_other by done.
  rewrite retain_listed_Some. naive_solver.
Qed.

(** A buffer the snapshot shows is as there; another keeps no attachment to a pane
    the session had. *)
Lemma applied_buffer_in b : NoDup (br_id <$> ss_buffers snap) → b ∈ ss_buffers snap →
  cl_buffers c' !! br_id b = Some b.
Proof.
  intros Hd Hb. rewrite applied_buffers, detach_all_lookup, bool_decide_eq_false_2.
  - by apply insert_all_in.
  - rewrite elem_of_set_to_sorted, elem_of_difference, elem_of_list_to_set.
    intros [_ Hn]. apply Hn. by apply list_elem_of_fmap_2.
Qed.
Lemma applied_buffer_other b bid i : bid ∉ br_id <$> ss_buffers snap →
  cl_buffers c' !! bid = Some b → br_attachment_node_id b = Some i → i ∉ previous.
Proof.
  intros Hbid. rewrite applied_buffers, detach_all_lookup, insert_all_other by done.
  destruct (cl_buffers c !! bid) as [b0|] eqn:Hb0; [|by case_bool_decide].
  assert (bid ∈ set_to_sorted (attached_buffers_for_nodes c previous
            ∖ list_to_set (br_id <$> ss_buffers snap)) ↔ attached_to previous b0 = true) as Hin.
  { rewrite elem_of_set_to_sorted, elem_of_difference, elem_of_list_to_set.
    unfold attached_buffers_for_nodes. rewrite elem_of_list_to_set, list_elem_of_fmap. split.
    - intros [(b1 & -> & [Ha Hb1]%list_elem_of_filter) _].
      apply elem_of_values_of in Hb1 as [k Hb1]. pose proof (ky_buffers _ K _ _ Hb1) as Hk.
      rewrite Hk in Hb0. by simplify_eq.
    - intros Ha. split; [|done]. exists b0. split; [by rewrite (ky_buffers _ K _ _ Hb0)|].
      apply list_elem_of_filter. split; [done|]. apply elem_of_values_of. by exists bid. }
  intros Hb Hi Hprev. case_bool_decide as Hd.
  - apply Hin in Hd. simpl in Hb. unfold detach_from in Hb. rewrite Hd in Hb. by simplify_eq.
  - apply Hd, Hin. simplify_eq. unfold attached_to. rewrite Hi. by apply bool_decide_eq_true.
Qed.

(** Each pane of the session has a view of the buffer it shows; a dropped pane has
    none. *)
Lemma applied_views i bv : i ∈ nr_id <$> ss_nodes snap → pane_of c' i bv →
  ∃ v, cl_view_state c' !! i = Some v ∧ pv_buffer_id v = bv_buffer_id bv.
Proof.
  intros Hi Hp. unfold c', apply_session_snapshot in *. cbv zeta in *.
  unfold sync_view_states_for_nodes in *. cbn [cl_set_dirty cl_view_state].
  apply sync_views_show.
  - apply NoDup_set_to_sorted.
  - by apply elem_of_set_to_sorted, elem_of_list_to_set.
  - destruct Hp as (n & Hn & ?). exists n. split; [|done].
    match type of Hn with context [foldl (sync_view false) ?c0 ?l] =>
      destruct (sync_views_copy false c0 l) as (_ & _ & He & _) end.
    cbn [cl_set_dirty cl_nodes] in Hn. by rewrite He in Hn.
Qed.
Lemma applied_views_dropped i : i ∈ previous → i ∉ nr_id <$> ss_nodes snap →
  cl_view_state c' !! i = None.
Proof.
  intros Hp Hi. unfold c', apply_session_snapshot. cbv zeta. unfold sync_view_states_for_nodes.
  cbn [cl_set_dirty cl_view_state]. rewrite sync_views_other.
  - cbn. apply eq_None_not_Some. intros [v [_ [Hv|Hv]]%retain_current_Some]; [done|].
    by apply elem_of_list_to_set in Hv.
  - by rewrite elem_of_set_to_sorted, elem_of_list_to_set.
Qed.
Lemma applied_keyed : keyed c'.
Proof.
  split.
  - destruct applied_copy as (_ & -> & _). intros i n Hn.
    apply insert_all_inv in Hn as [[_ Hi]|[_ [Hn _]%retain_listed_Some]]; [done|].
    by apply (ky_nodes _ K).
  - intros i b. rewrite applied_buffers, detach_all_lookup.
    assert (∀ b, insert_all br_id (ss_buffers snap) (cl_buffers c) !! i = Some b → br_id b = i) as Hk.
    { intros b0 [[_ Hi]|[_ Hb]]%insert_all_inv; [done|by apply (ky_buffers _ K)]. }
    case_bool_decide; [|by apply Hk]. destruct (insert_all _ _ _ !! i) as [b0|]; [|done].
    intros [= <-]. specialize (Hk b0 eq_refl). unfold detach_from. by case_match.
Qed.
End snapshot.

(** ** The client's copy of a session of the server *)

Record mirrors (st : ServerState) (sid : SessionId) (s : Session) (c : ClientState) : Prop := {
  mr_session : cl_sessions c !! sid = Some (session_record s);
  mr_node : ∀ i n, nodes st !! i = Some n → node_session n = sid →
    ∃ o r, cl_nodes c !! i = Some r ∧ node_record n o = Ok r;
  mr_only : ∀ i r, cl_nodes c !! i = Some r → nr_session_id r = sid →
    ∃ n, nodes st !! i = Some n ∧ node_session n = sid;
  mr_pane : ∀ i bid, views st !! i = Some (sid, bid) →
    (∃ b, buffers st !! bid = Some b ∧ cl_buffers c !! bid = Some (buffer_record b))
    ∧ ∃ v, cl_view_state c !! i = Some v ∧ pv_buffer_id v = bid;
  mr_popup : ∀ fid, fid ∈ s_floating s →
    ∃ w, floating st !! fid = Some w ∧ cl_floating c !! fid = Some (floating_record w)
}.

Section copy.
Context {st : ServerState} (H : consistent st) (Few : (node_ids st ≤ u32_modulus)%N).
Context (sid : SessionId) (s : Session) (Hs : sessions st !! sid = Some s).

Lemma snapshot_mirrors snap c : keyed c → session_snapshot st sid = Ok snap →
  mirrors st sid s (apply_session_snapshot snap c).
Proof.
  intros K Esnap. pose proof (in_wired _ _ _ (cs_inv _ H)) as W.
  destruct (session_snapshot_spec H sid s Few Hs) as (snap' & E & Hss & Hns & Hnr & Hbs & Hbr & Hfs & Hfr).
  rewrite Esnap in E. injection E as <-.
  assert (sr_id (ss_session snap) = sid) as Hsid.
  { rewrite Hss. simpl. apply (so_id _ _ _ (wi_session _ W _ _ Hs)). }
  assert (NoDup (nr_id <$> ss_nodes snap)) as Dn by (rewrite Hns; apply NoDup_set_to_sorted).
  assert (NoDup (br_id <$> ss_buffers snap)) as Db by (rewrite Hbs; apply NoDup_set_to_sorted).
  destruct (applied_copy snap c) as (Es & En & Ef & _).
  assert (∀ i n, nodes st !! i = Some n → node_session n = sid →
    ∃ o r, cl_nodes (apply_session_snapshot snap c) !! i = Some r ∧ node_record n o = Ok r
           ∧ i ∈ nr_id <$> ss_nodes snap) as Hnode.
  { intros i n Hn Hsn. assert (i ∈ nr_id <$> ss_nodes snap) as Hi.
    { rewrite Hns. apply elem_of_set_to_sorted, elem_of_nodes_of. by exists n. }
    apply list_elem_of_fmap in Hi as (r & Hir & Hr). subst i.
    destruct (snapshot_node_spec H (nr_id r) n Few Hn) as (r' & o & Er & _ & _ & _ & _ & _ & Hrec).
    rewrite (Hnr r Hr) in Er. injection Er as <-. exists o, r.
    split_and!; [by apply applied_nodes_in|exact Hrec|by apply list_elem_of_fmap_2]. }
  split.
  - rewrite Es, Hsid, Hss. apply lookup_insert_eq.
  - intros i n Hn Hsn. destruct (Hnode i n Hn Hsn) as (o & r & ? & ? & _). eauto.
  - intros i r Hr Hsr. rewrite <-Hsid in Hsr. apply (applied_nodes_of snap c) in Hr; [|done].
    rewrite Hns in Hr. by apply elem_of_set_to_sorted, elem_of_nodes_of in Hr.
  - intros i bid Hv. pose proof Hv as (v & Hview & Hvs & Hvb)%views_Some. split.
    + assert (bid ∈ br_id <$> ss_buffers snap) as (r & Hbid & Hr)%list_elem_of_fmap.
      { rewrite Hbs. apply elem_of_set_to_sorted, elem_of_buffers_of. by exists i. }
      destruct (Hbr r Hr) as (b & Hb & Er). exists b. rewrite Hbid. split; [exact Hb|].
      rewrite <-Er. by apply applied_buffer_in.
    + destruct (Hnode i (BufferView v) Hview Hvs) as (o & r & Hr & Hrec & Hi). simpl in Hrec.
      injection Hrec as <-. apply (applied_views snap c i (mkBufferViewRecord (v_buffer_id v)
        (focused (v_view v)) (zoomed (v_view v)) (follow_output (v_view v)) (last_render_size (v_view v)))) in Hi.
      * destruct Hi as (v' & Hv' & Hbv). exists v'. split; [done|]. by rewrite Hbv.
      * eexists. split; [exact Hr|done].
  - intros fid Hfid. assert (fid ∈ fr_id <$> ss_floating snap) as (r & -> & Hr)%list_elem_of_fmap
      by by rewrite Hfs.
    destruct (Hfr r Hr) as (w & Hw & Er). exists w. split; [exact Hw|]. rewrite <-Er, Ef.
    apply insert_all_in; [|exact Hr]. rewrite Hfs. apply (so_nodup _ _ _ (wi_session _ W _ _ Hs)).
Qed.
End copy.
