(* ===== verification/ProjectSpec.v ===== *)
(** What a projection draws: dividing a length by weights, rectangles inside and apart,
    and that panes and tab bars lie in the rectangle they were given, apart from the
    others. *)

From S2P Require Import Prelude Core Protocol ClientState Presentation.

(** Splits divide a rectangle: the lengths add up, the parts lie inside and apart, and
    lengths drawn once are drawn again. *)

(** ** Lengths *)

Definition total_of (l : list N) : N := foldr N.add 0%N l.
Lemma total_app l1 l2 : total_of (l1 ++ l2) = (total_of l1 + total_of l2)%N.
Proof. unfold total_of. induction l1; simpl; lia. Qed.
Lemma total_repeat n : total_of (repeat 0%N n) = 0%N.
Proof. induction n; [done|]. unfold total_of in *. cbn [repeat foldr]. by rewrite IHn. Qed.

(** What is handed out never exceeds the share of the weights seen. *)
Lemma share_lengths_total total W : (total ≤ u16_max)%N → (0 < W)%N →
  ∀ ws used before, ws ≠ [] → (before + total_of ws ≤ W)%N → (used * W ≤ total * before)%N →
  total_of (share_lengths total W ws used) = (total - used)%N
  ∧ length (share_lengths total W ws used) = length ws.
Proof.
  intros Ht HW. induction ws as [|w ws IH]; intros used before Hne Hsum Hused; [done|].
  destruct ws as [|w' ws]; [simpl; split; [lia|done]|].
  change (total_of (w :: w' :: ws)) with (w + total_of (w' :: ws))%N in Hsum.
  assert (total * w / W * W ≤ total * w)%N as Hdiv.
  { rewrite N.mul_comm. apply N.Div0.mul_div_le. }
  assert ((used + total * w / W) * W ≤ total * (before + w))%N as Hused' by nia.
  assert (used + total * w / W ≤ total)%N as Hle.
  { apply (N.mul_le_mono_pos_r _ _ W); [done|]. etrans; [exact Hused'|]. apply N.mul_le_mono_l. lia. }
  assert ((total * w / W) mod (u16_max + 1) = total * w / W)%N as Hmod.
  { apply N.mod_small. unfold u16_max in *. lia. }
  assert (sat_add16 used (total * w / W) = used + total * w / W)%N as Hsat.
  { unfold sat_add16. lia. }
  change (share_lengths total W (w :: w' :: ws) used)
    with (((total * w / W) mod (u16_max + 1))%N
          :: share_lengths total W (w' :: ws) (sat_add16 used ((total * w / W) mod (u16_max + 1))%N)).
  rewrite Hmod, Hsat.
  destruct (IH (used + total * w / W)%N (before + w)%N) as [IHt IHl]; [done|lia|done|].
  change (total_of (?x :: ?l)) with (x + total_of l)%N. cbn [length].
  rewrite IHt, IHl. split; [|done]. revert Hle. generalize (total * w / W)%N. lia.
Qed.

Lemma checked_sum_Ok bound l s : checked_sum bound l = Ok s → s = total_of l ∧ (s ≤ bound)%N.
Proof.
  unfold checked_sum. destruct (N.leb_spec (foldr N.add 0%N l) bound); intros [= <-]. done.
Qed.
Lemma checked_sum_fits bound l : (total_of l ≤ bound)%N → checked_sum bound l = Ok (total_of l).
Proof. intros Hl. unfold checked_sum. fold (total_of l). by rewrite (proj2 (N.leb_le _ _)). Qed.
Lemma split_weights_length sizes n : length (split_weights sizes n) = n.
Proof.
  unfold split_weights. destruct (Nat.eqb_spec (length sizes) n); simpl; [|apply repeat_length].
  destruct (existsb _ _); [done|apply repeat_length].
Qed.

(** The lengths of a split add up to the cells it has. *)
Lemma proportional_lengths_total total sizes n ls :
  (total ≤ u16_max)%N → 0 < n → proportional_lengths total sizes n = Ok ls →
  total_of ls = total ∧ length ls = n.
Proof.
  intros Ht Hn. unfold proportional_lengths. destruct n as [|n]; [lia|]. cbn [Nat.eqb].
  destruct (N.eqb_spec total 0) as [->|H0].
  { intros [= <-]. split; [apply (total_repeat (S n))|apply (repeat_length 0%N (S n))]. }
  cbv zeta. intros Hls. apply bind_Ok in Hls as (W & HW & Hls). apply checked_sum_Ok in HW as [HW _].
  destruct (share_lengths_total total (N.max W 1) Ht ltac:(lia) (split_weights sizes (S n)) 0 0)
    as [Htot Hlen]; [|lia|lia|].
  { intros Hnil. pose proof (split_weights_length sizes (S n)) as Hl. by rewrite Hnil in Hl. }
  apply bind_Ok in Hls as (used & Hu & Hls). apply checked_sum_Ok in Hu as [Hu _].
  rewrite Hu, Htot, N.sub_0_r, N.sub_diag in Hls. injection Hls as <-.
  rewrite split_weights_length in Hlen. split; [|exact Hlen]. by rewrite N.sub_0_r in Htot.
Qed.
Lemma proportional_lengths_fit total sizes n :
  (total ≤ u16_max)%N → (total_of (split_weights sizes n) < u32_modulus)%N →
  ∃ ls, proportional_lengths total sizes n = Ok ls.
Proof.
  intros Ht Hw. unfold proportional_lengths. destruct (Nat.eqb_spec n 0) as [|Hn]; [by eexists|].
  destruct (N.eqb_spec total 0) as [->|H0]; [by eexists|]. cbv zeta.
  rewrite checked_sum_fits by lia. cbn [mbind outcome_bind].
  destruct (share_lengths_total total (N.max (total_of (split_weights sizes n)) 1) Ht ltac:(lia)
    (split_weights sizes n) 0 0) as [Htot _]; [|lia|lia|].
  { intros Hnil. pose proof (split_weights_length sizes n) as Hl. rewrite Hnil in Hl. simpl in Hl. lia. }
  rewrite checked_sum_fits by lia. by eexists.
Qed.

(** Weights that are lengths drawn before give those lengths. *)
Lemma share_lengths_same total : (0 < total)%N → (total ≤ u16_max)%N → ∀ ws used,
  ws ≠ [] → (used + total_of ws = total)%N → share_lengths total total ws used = ws.
Proof.
  intros H0 Ht. induction ws as [|w ws IH]; intros used Hne Hsum; [done|].
  destruct ws as [|w' ws]; [simpl in *; f_equal; lia|].
  change (total_of (w :: w' :: ws)) with (w + total_of (w' :: ws))%N in Hsum.
  change (share_lengths total total (w :: w' :: ws) used)
    with (((total * w / total) mod (u16_max + 1))%N
          :: share_lengths total total (w' :: ws) (sat_add16 used ((total * w / total) mod (u16_max + 1))%N)).
  assert ((total * w / total) mod (u16_max + 1) = w)%N as ->.
  { rewrite N.mul_comm, N.div_mul by lia. apply N.mod_small. unfold u16_max in *. lia. }
  assert (sat_add16 used w = used + w)%N as -> by (unfold sat_add16; lia).
  by rewrite IH by (done || lia).
Qed.
Lemma total_positive l : (0 < total_of l)%N → existsb (λ w, 0 <? w)%N l = true.
Proof.
  induction l as [|x l IH]; [done|]. change (total_of (x :: l)) with (x + total_of l)%N. simpl. intros Hl.
  destruct (N.ltb_spec 0 x); [done|]. simpl. apply IH. lia.
Qed.
Lemma proportional_lengths_same total sizes :
  (0 < total)%N → (total ≤ u16_max)%N → total_of sizes = total →
  proportional_lengths total sizes (length sizes) = Ok sizes.
Proof.
  intros H0 Ht Hs. unfold proportional_lengths.
  destruct (Nat.eqb_spec (length sizes) 0) as [Hl|Hl].
  { destruct sizes; [|done]. unfold total_of in Hs. simpl in Hs. lia. }
  rewrite (proj2 (N.eqb_neq total 0)) by lia. cbv zeta.
  assert (split_weights sizes (length sizes) = sizes) as ->.
  { unfold split_weights. rewrite Nat.eqb_refl, total_positive by lia. done. }
  rewrite checked_sum_fits by (unfold u32_modulus, u16_max in *; lia). cbn [mbind outcome_bind].
  rewrite Hs, N.max_l by lia. rewrite share_lengths_same; [|done|done|by intros ->|lia].
  rewrite checked_sum_fits by lia. cbn [mbind outcome_bind]. by rewrite Hs, N.sub_diag.
Qed.

(** ** Rectangles inside and apart *)

Definition right_of (r : Rect) : Z := px (origin r) + Z.of_N (width (size_ r)).
Definition bottom_of (r : Rect) : Z := py (origin r) + Z.of_N (height (size_ r)).
Definition inside (a b : Rect) : Prop :=
  (px (origin b) ≤ px (origin a) ∧ py (origin b) ≤ py (origin a)
   ∧ right_of a ≤ right_of b ∧ bottom_of a ≤ bottom_of b)%Z.
Definition apart (a b : Rect) : Prop :=
  (right_of a ≤ px (origin b) ∨ right_of b ≤ px (origin a)
   ∨ bottom_of a ≤ py (origin b) ∨ bottom_of b ≤ py (origin a))%Z.
Definition empty_rect (r : Rect) : Prop := width (size_ r) = 0%N ∨ height (size_ r) = 0%N.

#[export] Instance inside_preorder : PreOrder inside.
Proof. unfold inside. split; [intros r; lia|intros a b c; lia]. Qed.
#[export] Instance apart_sym : Symmetric apart.
Proof. intros a b. unfold apart. lia. Qed.
Lemma apart_inside a b a' b' : apart a' b' → inside a a' → inside b b' → apart a b.
Proof. unfold apart, inside. lia. Qed.

(** Rectangles inside [r] and apart from one another. *)
Definition tiled (r : Rect) (ts : list Rect) : Prop :=
  Forall (λ t, inside t r) ts ∧ ForallOrdPairs apart ts.

Lemma apart_pairs_perm l1 l2 : l1 ≡ₚ l2 → ForallOrdPairs apart l1 → ForallOrdPairs apart l2.
Proof.
  induction 1 as [|x l1 l2 Hp IH|x y l|l1 l2 l3 _ IH1 _ IH2]; [done|..|by auto].
  - intros H. inversion H; subst. apply FOP_cons; [|auto]. by rewrite <-Hp.
  - intros H. inversion H as [|? ? Hx Hr]; subst. inversion Hr; subst.
    apply Forall_cons in Hx as [Hxy Hx]. apply FOP_cons; [|by apply FOP_cons].
    apply Forall_cons. split; [by symmetry|done].
Qed.
#[export] Instance apart_pairs_proper : Proper ((≡ₚ) ==> iff) (ForallOrdPairs apart).
Proof. intros l1 l2 Hp. split; by apply apart_pairs_perm. Qed.
#[export] Instance tiled_proper r : Proper ((≡ₚ) ==> iff) (tiled r).
Proof. intros l1 l2 Hp. unfold tiled. by rewrite Hp. Qed.
Lemma tiled_nil r : tiled r [].
Proof. by split; constructor. Qed.
Lemma tiled_one r t : inside t r → tiled r [t].
Proof. intros. split; [by apply Forall_singleton|]. apply FOP_cons; [done|apply FOP_nil]. Qed.
Lemma tiled_inside r r' ts : tiled r ts → inside r r' → tiled r' ts.
Proof.
  intros [Hi Ha] Hr. split; [|done]. eapply Forall_impl; [exact Hi|]. intros t Ht. exact (transitivity Ht Hr).
Qed.
Lemma apart_pairs_app l1 l2 : ForallOrdPairs apart l1 → ForallOrdPairs apart l2 →
  (∀ a b, a ∈ l1 → b ∈ l2 → apart a b) → ForallOrdPairs apart (l1 ++ l2).
Proof.
  intros H1 H2 H12. induction H1 as [|x l1 Hx _ IH]; [done|]. simpl. constructor.
  - apply Forall_app. split; [done|]. apply Forall_forall. intros b Hb. apply H12; [by left|done].
  - apply IH. intros a b Ha. apply H12. by right.
Qed.
Lemma tiled_app r r1 r2 l1 l2 : tiled r1 l1 → tiled r2 l2 → inside r1 r → inside r2 r → apart r1 r2 →
  tiled r (l1 ++ l2).
Proof.
  intros [I1 A1] [I2 A2] Hr1 Hr2 Hap. split.
  - apply Forall_app. split; (eapply Forall_impl; [eassumption|]); intros t Ht;
      [exact (transitivity Ht Hr1)|exact (transitivity Ht Hr2)].
  - apply apart_pairs_app; [done..|]. intros a b Ha Hb. rewrite Forall_forall in I1, I2.
    by eapply apart_inside; [|apply I1|apply I2].
Qed.

(** ** Splitting a rectangle *)

Record rect_ok (r : Rect) : Prop := {
  rk_width : (width (size_ r) ≤ u16_max)%N;
  rk_height : (height (size_ r) ≤ u16_max)%N
}.
Lemma i32_of_Ok z z' : i32_of z = Ok z' → z' = z.
Proof. unfold i32_of. destruct (i32_in_range z); [by intros [= <-]|done]. Qed.
Lemma i32_fits z : (-2147483648 ≤ z ≤ 2147483647)%Z → i32_of z = Ok z.
Proof.
  intros Hz. unfold i32_of, i32_in_range. rewrite (proj2 (Z.leb_le _ _)), (proj2 (Z.leb_le _ _)) by lia. done.
Qed.

(** [len] cells along [d] from [x], [y], as wide or high as [r]. *)
Definition strip (r : Rect) (d : SplitDirection) (x y : Z) (len : N) : Rect :=
  mkRect (mkPoint x y)
    match d with
    | Horizontal => mkSize (width (size_ r)) len
    | Vertical => mkSize len (height (size_ r))
    end.
Lemma strip_self r d : strip r d (px (origin r)) (py (origin r)) (axis_length r d) = r.
Proof. by destruct r as [[] []], d. Qed.
Lemma strip_length r d x y len : axis_length (strip r d x y len) d = len.
Proof. by destruct d. Qed.
Lemma place_rects_cons r d x y len ls :
  place_rects r d x y (len :: ls)
  = x' ← match d with Horizontal => Ok x | Vertical => i32_plus x (len + 1) end;
    y' ← match d with Horizontal => i32_plus y (len + 1) | Vertical => Ok y end;
    rest ← place_rects r d x' y' ls;
    Ok (strip r d x y len :: rest).
Proof. by destruct d. Qed.

Lemma place_rects_tiled r d ls : ∀ x y rs, place_rects r d x y ls = Ok rs →
  ((λ t, axis_length t d) <$> rs) = ls
  ∧ tiled (strip r d x y (total_of ls + N.of_nat (length ls - 1))) rs.
Proof.
  induction ls as [|len ls IH]; intros x y rs Hrs; [injection Hrs as <-; split; [done|apply tiled_nil]|].
  rewrite place_rects_cons in Hrs. apply bind_Ok in Hrs as (x' & Hx & Hrs).
  apply bind_Ok in Hrs as (y' & Hy & Hrs). apply bind_Ok in Hrs as (rest & Hrest & [= <-]).
  destruct (IH x' y' rest Hrest) as [Hl Ht]. split; [by rewrite fmap_cons, strip_length, Hl|].
  change (total_of (len :: ls)) with (len + total_of ls)%N. cbn [length].
  destruct ls as [|len' ls].
  { destruct rest; [|done]. apply tiled_one. destruct d; unfold inside, right_of, bottom_of; simpl; lia. }
  apply (tiled_app _ (strip r d x y len) (strip r d x' y' (total_of (len' :: ls)
           + N.of_nat (length (len' :: ls) - 1))) [strip r d x y len] rest); [by apply tiled_one|exact Ht|..];
    destruct d; simplify_eq/=; apply i32_of_Ok in Hx || apply i32_of_Ok in Hy; subst;
    unfold inside, apart, right_of, bottom_of; simpl; lia.
Qed.

Lemma split_rects_tiled r d sizes n rs : rect_ok r → split_rects r d sizes n = Ok rs →
  length rs = n ∧ ForallOrdPairs apart rs
  ∧ Forall (λ t, rect_ok t ∧ (empty_rect t ∨ inside t r)) rs.
Proof.
  intros [Hw Hh] Hrs. unfold split_rects in Hrs.
  destruct (Nat.eqb_spec n 0) as [->|Hn]; [injection Hrs as <-; by repeat constructor|].
  apply bind_Ok in Hrs as (ls & Hls & Hrs).
  assert (axis_length r d ≤ u16_max)%N as Hax by (by destruct d).
  apply proportional_lengths_total in Hls as [Htot Hlen]; [|lia|lia].
  apply place_rects_tiled in Hrs as [Hal Ht].
  assert (length rs = n) as Hrn by (by rewrite <-Hlen, <-Hal, length_fmap).
  split; [exact Hrn|]. split; [apply Ht|]. apply Forall_forall. intros t Hin.
  assert (axis_length t d ∈ ls) as Htl by (rewrite <-Hal; by apply (list_elem_of_fmap_2 (λ t, axis_length t d))).
  assert (axis_length t d ≤ total_of ls)%N as Hle.
  { clear -Htl. induction ls as [|x ls IH]; [by apply elem_of_nil in Htl|].
    change (total_of (x :: ls)) with (x + total_of ls)%N.
    apply elem_of_cons in Htl as [->|?]; [lia|]. specialize (IH H). lia. }
  destruct Ht as [Hi _]. rewrite Forall_forall in Hi. specialize (Hi t Hin).
  assert (rect_ok t) as Hok.
  { clear -Hi Hle Htot Hax Hw Hh. unfold inside, right_of, bottom_of, strip in Hi.
    destruct d; simpl in *; split; lia. }
  split; [exact Hok|]. unfold divider_count in Htot. cbv zeta in Htot. rewrite Hlen in Hi.
  destruct (N.eq_dec (axis_length t d) 0%N) as [Hz|Hz].
  { left. destruct d; [by right|by left]. }
  right. assert (N.of_nat (n - 1) ≤ axis_length r d)%N as Hroom.
  { destruct (N.leb_spec (N.of_nat (n - 1)) u16_max); lia. }
  rewrite (proj2 (N.leb_le _ _)) in Htot by lia.
  replace (total_of ls + N.of_nat (n - 1))%N with (axis_length r d) in Hi by lia.
  by rewrite strip_self in Hi.
Qed.

(** What a projection draws does not overlap: every pane and tab bar lies in the
    rectangle it was given and apart from the others. *)

(** ** Parts of a rectangle *)

Lemma inset_top_Ok r n r' : inset_top r n = Ok r' →
  r' = mkRect (mkPoint (px (origin r)) (py (origin r) + Z.of_N (N.min n (height (size_ r)))))
         (mkSize (width (size_ r)) (height (size_ r) - n)).
Proof.
  unfold inset_top. intros Hr. apply bind_Ok in Hr as (y & Hy & [= <-]). apply i32_of_Ok in Hy as ->.
  do 2 f_equal. lia.
Qed.
Ltac rect_lia := unfold inside, apart, right_of, bottom_of, inset_bottom, inset_border in *; simpl in *; lia.

Lemma tab_bar_rects_Ok layout r root bar content : height (size_ r) ≠ 0%N →
  tab_bar_rects layout r root = Ok (bar, content) →
  inside bar r ∧ inside content r ∧ apart bar content ∧ (rect_ok r → rect_ok content)
  ∧ width (size_ bar) = width (size_ r) ∧ width (size_ content) = width (size_ r)
  ∧ (height (size_ bar) + height (size_ content))%N = height (size_ r).
Proof.
  intros Hh. unfold tab_bar_rects. cbv zeta. set (rows := u16_of_bool _).
  assert (rows ≤ 1)%N as Hrows by (unfold rows, u16_of_bool; case_match; lia). clearbody rows.
  destruct (root && _); intros Hr.
  - apply bind_Ok in Hr as (y & Hy & [= <- <-]). apply i32_of_Ok in Hy as ->.
    split_and!; [rect_lia..|intros [? ?]; split; simpl; lia|done|done|simpl; lia].
  - apply bind_Ok in Hr as (c & Hc & [= <- <-]). apply inset_top_Ok in Hc as ->.
    split_and!; [rect_lia..|intros [? ?]; split; simpl; lia|done|done|simpl; lia].
Qed.

(** A pane's title row and content are its rectangle, one above the other. *)
Definition leaf_parts (r content : Rect) (title : option Rect) : Prop :=
  inside content r ∧ width (size_ content) = width (size_ r)
  ∧ match title with
    | Some t => inside t r ∧ apart t content ∧ width (size_ t) = width (size_ r)
                ∧ height (size_ t) = 1%N ∧ (height (size_ content) + 1)%N = height (size_ r)
    | None => content = r
    end.
Lemma split_title_row_Ok r t rects : height (size_ r) ≠ 0%N →
  split_title_row r t = Ok rects → leaf_parts r rects.2 rects.1.
Proof.
  intros Hh. unfold leaf_parts. destruct t; simpl; intros Hr.
  - injection Hr as <-. by split_and!.
  - apply bind_Ok in Hr as (c & Hc & [= <-]). apply inset_top_Ok in Hc as ->. simpl.
    split_and!; [rect_lia|done|rect_lia|rect_lia|done|done|lia].
  - apply bind_Ok in Hr as (y & Hy & [= <-]). apply i32_of_Ok in Hy as ->. simpl.
    split_and!; [rect_lia|done|rect_lia|rect_lia|done|done|lia].
Qed.

(** ** What projecting adds *)

Definition leaf_ok (fl : option FloatingId) (l : LeafFrame) : Prop :=
  lf_floating_id l = fl ∧ ¬ empty_rect (lf_rect l)
  ∧ leaf_parts (lf_rect l) (lf_content_rect l) (lf_title_rect l).

(** The panes and tab bars added between two projections. *)
Record grown (fl : option FloatingId) (R : list Rect) (p p' : Projection)
    (ls : list LeafFrame) (bs : list TabsFrame) : Prop := {
  gr_leaves : pj_leaves p' = pj_leaves p ++ ls;
  gr_bars : pj_tab_bars p' = pj_tab_bars p ++ bs;
  gr_floating : pj_floating p' = pj_floating p;
  gr_leaf : Forall (leaf_ok fl) ls;
  gr_bar : Forall (λ b, tf_floating_id b = fl) bs;
  gr_within : Forall (λ t, ∃ r, r ∈ R ∧ inside t r) ((lf_rect <$> ls) ++ (tf_rect <$> bs));
  gr_apart : ForallOrdPairs apart ((lf_rect <$> ls) ++ (tf_rect <$> bs))
}.
Definition grows (fl : option FloatingId) (R : list Rect) (p p' : Projection) : Prop :=
  ∃ ls bs, grown fl R p p' ls bs.

Lemma grows_same fl p p' :
  pj_leaves p' = pj_leaves p → pj_tab_bars p' = pj_tab_bars p → pj_floating p' = pj_floating p →
  grows fl [] p p'.
Proof. intros Hl Hb Hf. exists [], []. split; rewrite ?app_nil_r; simpl; try done; constructor. Qed.
Lemma grows_weaken fl R R' p p' : grows fl R p p' →
  (∀ r, r ∈ R → ∃ r', r' ∈ R' ∧ inside r r') → grows fl R' p p'.
Proof.
  intros (ls & bs & [? ? ? ? ? Hw ?]) HR. exists ls, bs. split; try done.
  eapply Forall_impl; [exact Hw|]. intros t (r & Hr & Ht). destruct (HR r Hr) as (r' & ? & ?).
  exists r'. split; [done|]. by etrans.
Qed.
Lemma grows_trans fl R1 R2 p p1 p2 : grows fl R1 p p1 → grows fl R2 p1 p2 →
  (∀ a b, a ∈ R1 → b ∈ R2 → apart a b) → grows fl (R1 ++ R2) p p2.
Proof.
  intros (l1 & b1 & [L1 B1 F1 O1 T1 W1 A1]) (l2 & b2 & [L2 B2 F2 O2 T2 W2 A2]) Hap.
  exists (l1 ++ l2), (b1 ++ b2).
  assert ((lf_rect <$> l1 ++ l2) ++ (tf_rect <$> b1 ++ b2)
    ≡ₚ ((lf_rect <$> l1) ++ (tf_rect <$> b1)) ++ ((lf_rect <$> l2) ++ (tf_rect <$> b2))) as Hp.
  { rewrite !fmap_app. solve_Permutation. }
  split.
  - by rewrite L2, L1, app_assoc.
  - by rewrite B2, B1, app_assoc.
  - by rewrite F2.
  - by apply Forall_app.
  - by apply Forall_app.
  - rewrite Hp. apply Forall_app. split; (eapply Forall_impl; [eassumption|]);
      intros t (r & Hr & Ht); exists r; (split; [|done]); apply elem_of_app; auto.
  - rewrite Hp. apply apart_pairs_app; [done..|]. intros a b Ha Hb.
    rewrite Forall_forall in W1, W2. destruct (W1 a Ha) as (r1 & ? & ?), (W2 b Hb) as (r2 & ? & ?).
    eapply apart_inside; [by apply Hap|done|done].
Qed.
Lemma grows_then fl R p p1 p2 : grows fl R p p1 →
  pj_leaves p2 = pj_leaves p1 → pj_tab_bars p2 = pj_tab_bars p1 → pj_floating p2 = pj_floating p1 →
  grows fl R p p2.
Proof.
  intros H Hl Hb Hf. rewrite <-(app_nil_r R). eapply grows_trans; [exact H|by apply grows_same|].
  by intros a b _ ?%elem_of_nil.
Qed.
Lemma grows_after fl R p p1 p2 :
  pj_leaves p1 = pj_leaves p → pj_tab_bars p1 = pj_tab_bars p → pj_floating p1 = pj_floating p →
  grows fl R p1 p2 → grows fl R p p2.
Proof.
  intros Hl Hb Hf H. change R with ([] ++ R). eapply grows_trans; [by apply grows_same|exact H|].
  by intros a b ?%elem_of_nil.
Qed.

Section project.
Context (c : ClientState) (session : SessionRecord) (layout : LayoutOptions).

Lemma tab_items_grow fl active tabs : ∀ acc acc',
  fold_ok (tab_item c session active) acc tabs = Ok acc' → grows fl [] acc.2 acc'.2.
Proof.
  induction tabs as [|t tabs IH]; intros acc acc' H; [injection H as <-; by apply grows_same|].
  cbn [fold_ok] in H. apply bind_Ok in H as (acc1 & H1 & H). apply IH in H.
  destruct acc as [items p]. unfold tab_item in H1. apply bind_Ok in H1 as (a & _ & H1).
  apply bind_Ok in H1 as (n & _ & H1). apply bind_Ok in H1 as (pane & _ & [= <-]).
  eapply grows_after; [..|exact H]; done.
Qed.

Definition node_grows (project : NodeId → Rect → option FloatingId → bool → list NodeId → Projection →
    outcome Projection) : Prop :=
  ∀ id r fl is_root path p p', rect_ok r → project id r fl is_root path p = Ok p' →
    grows fl (if decide (empty_rect r) then [] else [r]) p p'.
#[export] Instance empty_rect_dec r : Decision (empty_rect r).
Proof. unfold empty_rect. solve_decision. Defined.

Lemma view_grows n r fl path p p' : ¬ empty_rect r →
  project_view c session layout n r fl path p = Ok p' → grows fl [r] p p'.
Proof.
  intros He H. unfold project_view in H. apply bind_Ok in H as (bv & _ & H).
  apply bind_Ok in H as (b & _ & H). apply bind_Ok in H as (rects & Hr & [= <-]).
  assert (height (size_ r) ≠ 0%N) as Hh by (intros ?; apply He; by right).
  apply split_title_row_Ok in Hr; [|done]. eexists [_], []. split; simpl.
  - done.
  - by rewrite app_nil_r.
  - done.
  - apply Forall_singleton. by split_and!.
  - constructor.
  - apply Forall_singleton. exists r. split; [by left|reflexivity].
  - apply FOP_cons; [constructor|constructor].
Qed.

Section children.
Context (project : NodeId → Rect → option FloatingId → bool → list NodeId → Projection →
  outcome Projection) (IH : node_grows project).

Lemma tabs_grow n r fl is_root path p p' : rect_ok r → ¬ empty_rect r →
  project_tabs c session layout project n r fl is_root path p = Ok p' → grows fl [r] p p'.
Proof.
  intros Hk He H. unfold project_tabs in H. apply bind_Ok in H as (t & _ & H).
  cbv zeta in H. apply bind_Ok in H as (child & _ & H). apply bind_Ok in H as ([bar content] & Hr & H).
  apply bind_Ok in H as ([items p1] & Hi & H). simpl in H.
  assert (height (size_ r) ≠ 0%N) as Hh by (intros ?; apply He; by right).
  apply tab_bar_rects_Ok in Hr as (Hbar & Hcon & Hap & Hck & _); [|done].
  apply (tab_items_grow fl) in Hi. simpl in Hi.
  apply IH in H; [|auto]. eapply grows_weaken.
  - eapply (grows_trans fl [bar]); [|exact H|].
    + change [bar] with ([] ++ [bar]). eapply grows_trans; [exact Hi| |by intros a b ?%elem_of_nil].
      eexists [], [_]. split; simpl; rewrite ?app_nil_r.
      * done.
      * done.
      * done.
      * constructor.
      * by apply Forall_singleton.
      * apply Forall_singleton. exists bar. split; [by left|reflexivity].
      * apply FOP_cons; [constructor|constructor].
    + intros a b Ha%list_elem_of_singleton Hb. subst. case_decide; [by apply elem_of_nil in Hb|].
      by apply list_elem_of_singleton in Hb as ->.
  - intros q Hq. exists r. split; [by left|]. apply elem_of_app in Hq as [->%list_elem_of_singleton|Hq]; [done|].
    case_decide; [by apply elem_of_nil in Hq|]. by apply list_elem_of_singleton in Hq as ->.
Qed.

Lemma children_grow s n fl path : ∀ l p p',
  ForallOrdPairs apart (l.*2.*2) → Forall (λ e, rect_ok e.2.2) l →
  fold_ok (project_child project s n fl path) p l = Ok p' →
  grows fl (base.filter (λ r, ¬ empty_rect r) (l.*2.*2)) p p'.
Proof.
  induction l as [|[i [id r]] l IHl]; intros p p' Ha Hk H; [injection H as <-; by apply grows_same|].
  cbn [fold_ok] in H. apply bind_Ok in H as (p1 & H1 & H).
  inversion Ha as [|? ? Hr Ha']; subst. apply Forall_cons in Hk as [Hkr Hk].
  apply IHl in H; [|done|done]. unfold project_child in H1. apply bind_Ok in H1 as (p0 & H0 & H1).
  apply IH in H0; [|done]. apply bind_Ok in H1 as (divider & _ & [= <-]).
  assert (grows fl (if decide (empty_rect r) then [] else [r]) p
    (match divider with Some d => push_divider (mkDividerFrame (spr_direction s) d fl (nr_id n) i) p0
     | None => p0 end)) as H1.
  { eapply grows_then; [exact H0|..]; by destruct divider. }
  simpl. rewrite filter_cons. destruct (decide (empty_rect r)) as [He|He].
  - rewrite decide_False by (by intros ?). change (base.filter ?P ?l) with ([] ++ base.filter P l).
    eapply grows_trans; [exact H1|exact H|by intros a b ?%elem_of_nil].
  - rewrite decide_True by done. change (r :: ?l) with ([r] ++ l).
    eapply grows_trans; [exact H1|exact H|]. intros a b ->%list_elem_of_singleton [_ Hb]%list_elem_of_filter.
    rewrite Forall_forall in Hr. by apply Hr.
Qed.
Lemma split_grows n r fl path p p' : rect_ok r → ¬ empty_rect r →
  project_split c layout project n r fl path p = Ok p' → grows fl [r] p p'.
Proof.
  intros Hk He H. unfold project_split in H. apply bind_Ok in H as (s & _ & H). cbv zeta in H.
  case_bool_decide.
  { injection H as <-. eapply grows_weaken; [by apply grows_same|by intros ? ?%elem_of_nil]. }
  apply bind_Ok in H as (rects & Hr & H). apply bind_Ok in H as (mins & _ & H).
  apply split_rects_tiled in Hr as (Hlen & Hap & Hall); [|done].
  assert ((zip (seq 0 (length (spr_child_ids s))) (zip (spr_child_ids s) rects)).*2.*2 = rects) as Hz.
  { rewrite snd_zip, snd_zip; [done|lia|]. rewrite length_zip_with, length_seq. lia. }
  apply children_grow in H; [|by rewrite Hz|].
  - rewrite Hz in H. eapply grows_after; [..|eapply grows_weaken; [exact H|]]; [done..|].
    intros q [Hq Hin]%list_elem_of_filter. exists r. split; [by left|].
    rewrite Forall_forall in Hall. by destruct (Hall q Hin) as [_ [?|?]].
  - apply Forall_forall. intros e Hin. rewrite Forall_forall in Hall. apply Hall. rewrite <-Hz.
    by apply list_elem_of_fmap_2, list_elem_of_fmap_2.
Qed.
End children.

Lemma project_node_grows fuel : node_grows (project_node c session layout fuel).
Proof.
  induction fuel as [|fuel IH]; intros id r fl is_root path p p' Hk H; [done|]. cbn [project_node] in H.
  destruct (N.eqb_spec (width (size_ r)) 0) as [Hw|Hw].
  { injection H as <-. rewrite decide_True by by left. by apply grows_same. }
  destruct (N.eqb_spec (height (size_ r)) 0) as [Hh|Hh].
  { injection H as <-. rewrite decide_True by by right. by apply grows_same. }
  assert (¬ empty_rect r) as He by (by intros [?|?]). rewrite decide_False by done.
  simpl in H. apply bind_Ok in H as (n & _ & H). destruct (nr_kind n).
  - by eapply view_grows.
  - by eapply split_grows.
  - by eapply tabs_grow.
Qed.
End project.

(** ** A whole session *)

(** The panes and tab bars drawn in the popup [fl], or outside any. *)
Definition tiles_of (fl : option FloatingId) (ls : list LeafFrame) (bs : list TabsFrame) : list Rect :=
  (lf_rect <$> base.filter (λ l, lf_floating_id l = fl) ls)
  ++ (tf_rect <$> base.filter (λ b, tf_floating_id b = fl) bs).
(** A popup is drawn inside the screen, with what it shows inside it. *)
Definition popup_frame_ok (bounds : Rect) (f : FloatingFrame) : Prop :=
  inside (ff_rect f) bounds ∧ inside (ff_content_rect f) (ff_rect f).

Record drawn (bounds : Rect) (seen : list (option FloatingId)) (p : Projection) : Prop := {
  dr_tiled : ∀ fl, tiled bounds (tiles_of fl (pj_leaves p) (pj_tab_bars p));
  dr_leaf : Forall (λ l, leaf_ok (lf_floating_id l) l ∧ lf_floating_id l ∈ seen) (pj_leaves p);
  dr_bar : Forall (λ b, tf_floating_id b ∈ seen) (pj_tab_bars p);
  dr_popup : Forall (popup_frame_ok bounds) (pj_floating p);
  dr_in_popup : ∀ l fid, l ∈ pj_leaves p → lf_floating_id l = Some fid →
    ∃ f, f ∈ pj_floating p ∧ ff_floating_id f = fid ∧ inside (lf_rect l) (ff_content_rect f)
}.

Lemma filter_none {A} (P : A → Prop) `{!∀ x, Decision (P x)} l :
  Forall (λ x, ¬ P x) l → base.filter P l = [].
Proof. induction 1 as [|x l Hx _ IH]; [done|]. by rewrite filter_cons_False. Qed.
Lemma filter_every {A} (P : A → Prop) `{!∀ x, Decision (P x)} l : Forall P l → base.filter P l = l.
Proof. induction 1 as [|x l Hx _ IH]; [done|]. by rewrite filter_cons_True, IH. Qed.

Lemma drawn_start bounds : drawn bounds [] Projection_default.
Proof.
  split; simpl; try constructor; try constructor. by intros l fid ?%elem_of_nil.
Qed.
(** Adding what one popup, or the part outside any, shows. *)
Lemma drawn_grows bounds seen fl R p p' : drawn bounds seen p → fl ∉ seen → grows fl R p p' →
  (∀ r, r ∈ R → inside r bounds) →
  (∀ fid, fl = Some fid → ∃ f, f ∈ pj_floating p ∧ ff_floating_id f = fid
     ∧ ∀ r, r ∈ R → inside r (ff_content_rect f)) →
  drawn bounds (fl :: seen) p'.
Proof.
  intros [Dt Dl Db Dp Di] Hfl (ls & bs & [L B F O T W A]) HR Hf.
  assert (Forall (λ l, lf_floating_id l = fl) ls) as Hls.
  { eapply Forall_impl; [exact O|]. by intros l [? _]. }
  split.
  - intros fl'. rewrite L, B. unfold tiles_of. rewrite !filter_app, !fmap_app.
    destruct (decide (fl' = fl)) as [->|Hne].
    + rewrite (filter_none _ (pj_leaves p)), (filter_none _ (pj_tab_bars p)).
      * rewrite (filter_every _ ls), (filter_every _ bs) by done. split; [|exact A].
        eapply Forall_impl; [exact W|]. intros t (r & Hr & Ht). etrans; [exact Ht|by apply HR].
      * eapply Forall_impl; [exact Db|]. intros b Hb. cbn beta in *. by intros <-.
      * eapply Forall_impl; [exact Dl|]. intros l [_ Hl]. cbn beta in *. by intros <-.
    + rewrite (filter_none _ ls), (filter_none _ bs).
      * rewrite !app_nil_r. apply Dt.
      * eapply Forall_impl; [exact T|]. intros b Hb'. cbn beta in *. congruence.
      * eapply Forall_impl; [exact Hls|]. intros l Hl'. cbn beta in *. congruence.
  - rewrite L. apply Forall_app.
    split; [eapply Forall_impl; [exact Dl|]|eapply Forall_impl; [exact O|]].
    + intros l [? ?]. split; [done|by right].
    + intros l Hl. cbn beta. rewrite (proj1 Hl). split; [exact Hl|by left].
  - rewrite B. apply Forall_app. split; (eapply Forall_impl; [eassumption|]).
    + intros b ?. by right.
    + intros b ->. by left.
  - by rewrite F.
  - rewrite L, F. intros l fid [Hl|Hl]%elem_of_app Hfid; [by apply Di|].
    rewrite Forall_forall in Hls. pose proof (Hls l Hl) as He.
    destruct (Hf fid) as (f & Hin & Hff & Hr); [congruence|]. exists f. split_and!; [done|done|].
    rewrite Forall_forall in W. destruct (W (lf_rect l)) as (r & Hrr & Hlr).
    + apply elem_of_app. left. by apply list_elem_of_fmap_2.
    + etrans; [exact Hlr|by apply Hr].
Qed.
Lemma drawn_seen bounds seen fl p : drawn bounds seen p → drawn bounds (fl :: seen) p.
Proof.
  intros [Dt Dl Db Dp Di]. split; try done.
  - eapply Forall_impl; [exact Dl|]. intros l [? ?]. split; [done|by right].
  - eapply Forall_impl; [exact Db|]. intros b ?. by right.
Qed.
Lemma drawn_frame bounds seen f p : drawn bounds seen p → popup_frame_ok bounds f →
  drawn bounds seen (push_floating f p).
Proof.
  intros [Dt Dl Db Dp Di] Hf. split; simpl; try done.
  - apply Forall_app. split; [done|by apply Forall_singleton].
  - intros l fid Hl Hfid. destruct (Di l fid Hl Hfid) as (f' & ? & ?). exists f'.
    split; [by apply elem_of_app; left|done].
Qed.

Lemma u16_or_zero_small z : (0 ≤ z ≤ 65535)%Z → Z.of_N (u16_or_zero z) = z ∧ (u16_or_zero z ≤ u16_max)%N.
Proof.
  intros Hz. unfold u16_or_zero, u16_max.
  rewrite (proj2 (Z.leb_le _ _)), (proj2 (Z.leb_le _ _)) by lia. simpl. lia.
Qed.
Lemma clip_rect_Ok r bounds r' : rect_ok bounds → clip_rect r bounds = Ok r' →
  rect_ok r' ∧ (empty_rect r' ∨ inside r' bounds).
Proof.
  intros [Hbw Hbh] H. unfold clip_rect in H. cbv zeta in H.
  apply bind_Ok in H as (rr & Hrr & H). apply bind_Ok in H as (br & Hbr & H).
  apply bind_Ok in H as (rb & Hrb & H). apply bind_Ok in H as (bb & Hbb & [= <-]).
  apply i32_of_Ok in Hrr, Hbr, Hrb, Hbb. unfold u16_max in *.
  destruct (_ || _) eqn:He; [by split; [|left; left]|].
  apply orb_false_iff in He as [Hw Hh]. apply Z.leb_gt in Hw, Hh.
  set (left := Z.max _ _) in *. set (right := Z.min _ _) in *.
  set (top := Z.max (py _) _) in *. set (bottom := Z.min rb _) in *.
  destruct (u16_or_zero_small (right - left)) as [Ew Lw]; [lia|].
  destruct (u16_or_zero_small (bottom - top)) as [Eh Lh]; [lia|].
  split; [by split|]. right. unfold inside, right_of, bottom_of. simpl. rewrite Ew, Eh. lia.
Qed.
Lemma inset_border_Ok r r' : ¬ empty_rect r → inset_border r = Ok r' →
  inside r' r ∧ (rect_ok r → rect_ok r').
Proof.
  intros He H. unfold inset_border in H. apply bind_Ok in H as (x & Hx & H).
  apply bind_Ok in H as (y & Hy & [= <-]). apply i32_of_Ok in Hx as ->. apply i32_of_Ok in Hy as ->.
  assert (width (size_ r) ≠ 0%N) by (intros ?; apply He; by left).
  assert (height (size_ r) ≠ 0%N) by (intros ?; apply He; by right).
  split; [rect_lia|]. intros [? ?]. split; simpl; lia.
Qed.

Section session.
Context (c : ClientState) (session : SessionRecord) (layout : LayoutOptions).
Context (bounds : Rect) (Hb : rect_ok bounds).

Lemma popup_drawn seen w id p p' : drawn bounds seen p → Some (fr_id w) ∉ seen →
  project_floating_window c session layout w bounds id p = Ok p' →
  drawn bounds (Some (fr_id w) :: seen) p'.
Proof.
  intros D Hs H. unfold project_floating_window in H.
  destruct (fr_visible w); [|injection H as <-; by apply drawn_seen]. cbn [negb] in H.
  apply bind_Ok in H as (r & Hr & H). destruct (_ || _) eqn:He; [injection H as <-; by apply drawn_seen|].
  apply orb_false_iff in He as [Hw%N.eqb_neq Hh%N.eqb_neq].
  assert (¬ empty_rect r) as Hne by (by intros [?|?]).
  apply clip_rect_Ok in Hr as (Hk & [?|Hin]); [done| |done].
  apply bind_Ok in H as (content & Hc & H).
  assert (inside content r ∧ rect_ok content) as [Hcr Hck].
  { destruct (fr_border w); [apply inset_border_Ok in Hc as [? ?]; auto|].
    injection Hc as <-. split; [reflexivity|done]. }
  apply project_node_grows in H; [|done]. eapply drawn_grows; [|exact Hs|exact H|..].
  - apply drawn_frame; [exact D|]. by split.
  - intros q Hq. case_decide; [by apply elem_of_nil in Hq|]. apply list_elem_of_singleton in Hq as ->.
    by etrans.
  - intros fid [= <-]. eexists. split; [apply elem_of_app; right; by left|]. split; [done|].
    intros q Hq. simpl. case_decide; [by apply elem_of_nil in Hq|]. by apply list_elem_of_singleton in Hq as ->.
Qed.
Lemma root_drawn id is_root p p' fuel path : drawn bounds [] p →
  project_node c session layout fuel id bounds None is_root path p = Ok p' → drawn bounds [None] p'.
Proof.
  intros D H. apply project_node_grows in H; [|done].
  eapply drawn_grows; [exact D|by apply not_elem_of_nil|exact H| |done].
  intros q Hq. case_decide; [by apply elem_of_nil in Hq|]. by apply list_elem_of_singleton in Hq as ->.
Qed.
Lemma popups_drawn fids : (∀ fid w, cl_floating c !! fid = Some w → fr_id w = fid) → NoDup fids →
  ∀ seen p p', drawn bounds seen p → (∀ fid, fid ∈ fids → Some fid ∉ seen) →
  fold_ok (project_popup c session layout bounds) p fids = Ok p' → ∃ seen', drawn bounds seen' p'.
Proof.
  intros Hk. induction 1 as [|fid fids Hn _ IH]; intros seen p p' D Hs H.
  { injection H as <-. eauto. }
  cbn [fold_ok] in H. apply bind_Ok in H as (p1 & H1 & H).
  assert (drawn bounds (Some fid :: seen) p1) as D1.
  { unfold project_popup in H1. destruct (cl_floating c !! fid) as [w|] eqn:Hw; [|injection H1 as <-; by apply drawn_seen].
    apply bind_Ok in H1 as (belongs & _ & H1). destruct belongs; [|injection H1 as <-; by apply drawn_seen].
    rewrite <-(Hk fid w Hw). eapply popup_drawn; [exact D| |exact H1]. rewrite (Hk fid w Hw). apply Hs. by left. }
  apply (IH _ _ _ D1); [|exact H]. intros fid' Hin. apply not_elem_of_cons. split; [by intros [= ->]|].
  apply Hs. by right.
Qed.
Lemma session_drawn p : (∀ fid w, cl_floating c !! fid = Some w → fr_id w = fid) →
  NoDup (sr_floating_ids session) → project_session c session layout bounds = Ok p →
  ∃ seen, drawn bounds seen p.
Proof.
  intros Hk Hn H. unfold project_session in H. cbv zeta in H. apply bind_Ok in H as (zoomed & _ & H).
  destruct zoomed as [id|].
  - apply bind_Ok in H as (window & _ & H). destruct window as [w|].
    + eexists. eapply popup_drawn; [apply drawn_start|by apply not_elem_of_nil|exact H].
    + eexists. eapply root_drawn; [apply drawn_start|exact H].
  - apply bind_Ok in H as (p1 & H1 & H).
    eapply popups_drawn; [exact Hk|exact Hn| | |exact H].
    + eapply root_drawn; [apply drawn_start|exact H1].
    + intros fid _. by intros [?|?%elem_of_nil]%elem_of_cons.
Qed.
End session.
