(* ===== verification/DrawSpec.v ===== *)
(** The walks over a client's copy of a session end: what tabs show, which pane a tab
    stands for, and the room a subtree needs; so the whole session can
    be drawn. *)

From stdpp Require Import relations.
From S2P Require Import Prelude Core Model Environment State Queries Protocol Snapshot.
From S2P Require Import ClientState Presentation Forest Invariant QueriesSpec.
From S2P Require Import FocusSpec Settle Surgery SnapshotSpec ClientSpec ProjectSpec.

(** The record of a node whose active tab fits the protocol. *)
Definition record_of (n : Node) (o : option NodeId) : NodeRecord :=
  match n with
  | BufferView v =>
      mkNodeRecord (v_id v) (v_session_id v) (v_parent v) NkBufferView
        (Some (mkBufferViewRecord (v_buffer_id v) (focused (v_view v)) (zoomed (v_view v))
                 (follow_output (v_view v)) (last_render_size (v_view v)))) None None o
  | Split s =>
      mkNodeRecord (sp_id s) (sp_session_id s) (sp_parent s) NkSplit
        None (Some (mkSplitRecord (sp_direction s) (sp_children s) (sp_sizes s))) None o
  | Tabs t =>
      mkNodeRecord (t_id t) (t_session_id t) (t_parent t) NkTabs None None
        (Some (mkTabsRecord (N.of_nat (t_active t))
                 ((λ tab, mkTabRecord (te_title tab) (te_child tab) (te_synchronize_panes tab))
                    <$> t_tabs t))) o
  end.
Lemma node_record_of n o r : node_record n o = Ok r → r = record_of n o.
Proof. destruct n; simpl; [by intros [= <-]..|]. destruct (_ <? _)%N; [by intros [= <-]|done]. Qed.
Lemma record_children n o : nr_children (record_of n o) = child_ids n.
Proof. destruct n; simpl; [done..|]. unfold nr_children. simpl. by rewrite <-list_fmap_compose. Qed.

Section mirrored.
Context {st : ServerState} (H : consistent st).
Context {sid : SessionId} {s : Session} (Hs : sessions st !! sid = Some s).
Context {c : ClientState} (M : mirrors st sid s c).
Let W : wired st := in_wired _ _ _ (cs_inv _ H).
Let F : forest (layout (nodes st)) := wi_forest _ W.

Definition in_session (i : N) : Prop := ∃ n, nodes st !! i = Some n ∧ node_session n = sid.

Lemma client_node i : in_session i →
  ∃ n o, nodes st !! i = Some n ∧ node_session n = sid ∧ cl_nodes c !! i = Some (record_of n o).
Proof.
  intros (n & Hn & Hsn). destruct (mr_node _ _ _ _ M i n Hn Hsn) as (o & r & Hr & Hrec).
  exists n, o. split_and!; [done|done|]. by rewrite Hr, (node_record_of n o r Hrec).
Qed.
Lemma session_child i n ch : nodes st !! i = Some n → node_session n = sid → ch ∈ child_ids n →
  in_session ch.
Proof.
  intros Hn Hsn Hch. destruct (child_exists F i n ch Hn Hch) as (m & Hm & _ & Hms).
  exists m. split; [done|congruence].
Qed.
Lemma session_parent i n p : nodes st !! i = Some n → node_session n = sid → parent n = Some p →
  in_session p.
Proof.
  intros Hn Hsn Hp. destruct (fo_up _ F i (shape_of n) p) as (x & Hx & Hin); [by rewrite layout_lookup, Hn|by destruct n|].
  apply layout_Some in Hx as (m & Hm & ->). exists m. split; [done|].
  destruct (child_exists F p m i Hm Hin) as (n' & Hn' & _ & Hs'). congruence.
Qed.

(** Recursion toward the leaves and toward the root, within the nodes the client has. *)
Definition session_edge (x y : N) : Prop :=
  edge (layout (nodes st)) x y ∧ in_session x ∧ in_session y.
Lemma session_edge_acyclic x : ¬ tc session_edge x x.
Proof.
  intros Hx. apply (acyclic F x). revert Hx. generalize x at 1 3. generalize x. intros y x' Hx.
  induction Hx as [x1 y1 [? _]|x1 y1 z1 [? _] _ IH]; [by apply tc_once|by apply (tc_l _ x1 y1 z1)].
Qed.
Lemma in_session_dom i : in_session i → i ∈ dom (cl_nodes c).
Proof. intros (n & o & _ & _ & Hr)%client_node. apply elem_of_dom. eauto. Qed.
Lemma client_walk (R : N → N → Prop) (P : nat → N → Prop) :
  (∀ x y, R x y → in_session y) → (∀ x, ¬ tc R x x) →
  (∀ fuel i, in_session i → (∀ y, R i y → P fuel y) → P (S fuel) i) →
  ∀ i, in_session i → P (client_budget c) i.
Proof.
  intros HR Hac Hstep i Hi. unfold client_budget. rewrite <-size_dom.
  refine (budget_ind (dom (cl_nodes c)) R _ Hac (λ f x, in_session x → P f x) _ i (in_session_dom i Hi) Hi).
  - intros x y Hxy. apply in_session_dom. by eapply HR.
  - intros fuel j _ IH Hj. apply Hstep; [done|]. intros y Hy. apply IH; [done|by eapply HR].
Qed.
Lemma client_down (P : nat → N → Prop) :
  (∀ fuel i n o, nodes st !! i = Some n → node_session n = sid →
     cl_nodes c !! i = Some (record_of n o) → (∀ ch, ch ∈ child_ids n → in_session ch ∧ P fuel ch) →
     P (S fuel) i) →
  ∀ i, in_session i → P (client_budget c) i.
Proof.
  intros Hstep. apply (client_walk session_edge); [by intros x y (_ & _ & Hy)|apply session_edge_acyclic|].
  intros fuel j Hj IH. destruct (client_node j Hj) as (n & o & Hn & Hsn & Hr).
  apply (Hstep fuel j n o Hn Hsn Hr). intros ch Hch. pose proof (session_child j n ch Hn Hsn Hch) as Hc.
  split; [done|]. apply IH. split_and!; [|done|done]. apply layout_edge. eauto.
Qed.
Lemma client_up (P : nat → N → Prop) :
  (∀ fuel i n o, nodes st !! i = Some n → node_session n = sid →
     cl_nodes c !! i = Some (record_of n o) → (∀ p, parent n = Some p → in_session p ∧ P fuel p) →
     P (S fuel) i) →
  ∀ i, in_session i → P (client_budget c) i.
Proof.
  intros Hstep. apply (client_walk (flip session_edge)); [by intros x y (_ & Hx & _)| |].
  { intros x Hx%tc_flip. by apply session_edge_acyclic in Hx. }
  intros fuel j Hj IH. destruct (client_node j Hj) as (n & o & Hn & Hsn & Hr).
  apply (Hstep fuel j n o Hn Hsn Hr). intros p Hp. pose proof (session_parent j n p Hn Hsn Hp) as Hps.
  split; [done|]. apply IH. split_and!; [|done|done].
  apply (edge_parent F). exists (shape_of n). split; [by rewrite layout_lookup, Hn|by destruct n].
Qed.
Lemma record_parent n o : nr_parent_id (record_of n o) = parent n.
Proof. by destruct n. Qed.
Lemma record_session n o : nr_session_id (record_of n o) = node_session n.
Proof. by destruct n. Qed.

(** ** What tabs show *)

Lemma fold_ok_total {A B} (f : B → A → outcome B) l : (∀ b x, x ∈ l → ∃ b', f b x = Ok b') →
  ∀ b, ∃ b', fold_ok f b l = Ok b'.
Proof.
  induction l as [|x l IH]; intros Hf b; [by eexists|]. cbn [fold_ok].
  destruct (Hf b x) as [b' ->]; [by left|]. cbn [mbind outcome_bind]. apply IH.
  intros b0 y Hy. apply Hf. by right.
Qed.
Lemma activity_total i : in_session i →
  ∀ cache, ∃ r, subtree_activity_cached c (client_budget c) i cache = Ok r.
Proof.
  apply (client_down (λ fuel i, ∀ cache, ∃ r, subtree_activity_cached c fuel i cache = Ok r)).
  intros fuel j n o Hn Hsn Hr IH cache. cbn [subtree_activity_cached].
  destruct (cache !! j); [by eexists|]. rewrite Hr, record_children.
  assert (∃ r, fold_ok (λ (acc : ActivityState * gmap N ActivityState) child,
      r ← subtree_activity_cached c fuel child acc.2;
      Ok (client_max_activity acc.1 r.1, r.2)) (Idle, cache) (child_ids n) = Ok r) as [r Hf].
  { apply fold_ok_total. intros [a m] ch Hch. destruct (IH ch Hch) as [_ IHc].
    destruct (IHc m) as [r Hr']. simpl. rewrite Hr'. by eexists. }
  rewrite Hf. destruct n; cbn [nr_kind record_of mbind outcome_bind]; by eexists.
Qed.
Lemma buffer_count_total i : in_session i →
  ∀ cache, ∃ r, subtree_buffer_count_cached c (client_budget c) i cache = Ok r.
Proof.
  apply (client_down (λ fuel i, ∀ cache, ∃ r, subtree_buffer_count_cached c fuel i cache = Ok r)).
  intros fuel j n o Hn Hsn Hr IH cache. cbn [subtree_buffer_count_cached].
  destruct (cache !! j); [by eexists|]. rewrite Hr, record_children.
  assert (∃ r, fold_ok (λ (acc : N * gmap N N) child,
      r ← subtree_buffer_count_cached c fuel child acc.2;
      Ok (acc.1 + r.1, r.2)%N) (0%N, cache) (child_ids n) = Ok r) as [r Hf].
  { apply fold_ok_total. intros [a m] ch Hch. destruct (IH ch Hch) as [_ IHc].
    destruct (IHc m) as [r Hr']. simpl. rewrite Hr'. by eexists. }
  rewrite Hf. destruct n; cbn [nr_kind record_of mbind outcome_bind]; by eexists.
Qed.
Lemma holds_focus_total ch i : in_session i → ∃ b, holds_focus c (client_budget c) ch i = Ok b.
Proof.
  apply (client_up (λ fuel i, ∃ b, holds_focus c fuel ch i = Ok b)).
  intros fuel j n o Hn Hsn Hr IH. cbn [holds_focus]. destruct (_ =? _)%N; [by eexists|].
  rewrite Hr. cbn [mbind option_bind]. rewrite record_parent.
  destruct (parent n) as [p|]; [apply (IH p eq_refl)|by eexists].
Qed.
Lemma focus_in_session leaf : s_focused_leaf s = Some leaf → in_session leaf.
Proof.
  intros Hl. destruct (cs_focus _ H sid s Hs leaf Hl) as [[v Hv] Hon].
  exists (BufferView v). split; [done|]. destruct Hon as (r & Hvis & Hr).
  apply visible_from_reach in Hvis.
  destruct Hr as [(s' & Hs' & <-)|(fid & w & Hw & <- & <- & _)].
  - simplify_eq. destruct (so_root _ _ _ (wi_session _ W _ _ Hs)) as (t & Ht & _ & Hts).
    by rewrite (below_session F _ _ _ _ Ht Hv Hvis).
  - destruct (wo_root _ _ _ (wi_window _ W _ _ Hw)) as (n & Hn & _ & Hns).
    by rewrite (below_session F _ _ _ _ Hn Hv Hvis).
Qed.
Lemma tab_pane_total ch : ∃ o, tab_pane c ch (s_focused_leaf s) = Ok o.
Proof.
  unfold tab_pane. destruct (s_focused_leaf s) as [leaf|] eqn:Hl; [|by eexists].
  destruct (holds_focus_total ch leaf (focus_in_session leaf Hl)) as [b ->]. by eexists.
Qed.

(** ** The room a subtree needs

    Every pane needs at most two rows and every node at most one divider or tab bar
    more, so a session of fewer than 21845 nodes does not reach the end of [u16]. *)

Lemma below_set i : is_Some (nodes st !! i) → ∃ B : gset N, ∀ k, k ∈ B ↔ below st i k.
Proof.
  intros Hi. destruct (collect_subtree_spec F i Hi ∅) as (B & _ & HB); [by intros j k ?%elem_of_empty|].
  exists B. intros k. rewrite HB. set_solver.
Qed.
Lemma child_trees_apart j n c1 c2 k : nodes st !! j = Some n → c1 ∈ child_ids n → c2 ∈ child_ids n →
  below st c1 k → below st c2 k → c1 = c2.
Proof.
  intros Hn H1 H2. assert (∀ a b, edge (layout (nodes st)) j a → edge (layout (nodes st)) j b →
    below st a b → a = b) as Hw.
  { intros a b Ha Hb Hab. apply rtc_inv_r in Hab as [|(z & Haz & Hzb)]; [done|].
    rewrite (edge_fun F z j b Hzb Hb) in Haz. destruct (acyclic F j).
    eapply tc_rtc_r; [apply (tc_once _ _ _ Ha)|exact Haz]. }
  intros Hk1 Hk2. destruct (reach_comparable F c1 c2 k Hk1 Hk2); [|symmetry]; apply Hw; try done;
    apply layout_edge; eauto.
Qed.

Definition extent_within (i m : N) : Prop :=
  ∃ B : gset N, (∀ k, k ∈ B ↔ below st i k) ∧ (m + 1 ≤ 3 * N.of_nat (size B))%N.
Lemma roomy_children j n : nodes st !! j = Some n → ∀ cs ms, cs ⊆ child_ids n → NoDup cs →
  Forall2 extent_within cs ms →
  ∃ B : gset N, (∀ k, k ∈ B ↔ ∃ ch, ch ∈ cs ∧ below st ch k)
    ∧ (total_of ms + N.of_nat (length ms) ≤ 3 * N.of_nat (size B))%N.
Proof.
  intros Hn cs ms Hsub Hd HF. induction HF as [|ch m cs ms (B1 & HB1 & Hm) _ IH].
  { exists ∅. split; [|rewrite size_empty; simpl; lia]. intros k. split; [by intros ?%elem_of_empty|].
    by intros (ch & ?%elem_of_nil & _). }
  apply NoDup_cons in Hd as [Hch Hd]. destruct IH as (B2 & HB2 & Hms); [set_solver|done|].
  exists (B1 ∪ B2). split.
  - intros k. rewrite elem_of_union, HB1, HB2. split.
    + intros [Hk|(c2 & Hc2 & Hk)]; [exists ch; split; [by left|done]|exists c2; split; [by right|done]].
    + intros (c2 & [->|Hc2]%elem_of_cons & Hk); [by left|right; eauto].
  - rewrite size_union; [change (total_of (m :: ms)) with (m + total_of ms)%N; cbn [length]; lia|].
    intros k Hk1%HB1 (c2 & Hc2 & Hk2)%HB2. apply Hch.
    rewrite (child_trees_apart j n ch c2 k Hn); [done|apply Hsub; by left|apply Hsub; by right|done|done].
Qed.
(** The node and the subtrees of some of its children. *)
Lemma roomy_node j n cs ms x : nodes st !! j = Some n → cs ⊆ child_ids n → NoDup cs →
  Forall2 extent_within cs ms → (x ≤ total_of ms + N.of_nat (length ms) + 2)%N → extent_within j x.
Proof.
  intros Hn Hsub Hd HF Hx. destruct (roomy_children j n Hn cs ms Hsub Hd HF) as (B & HB & Hms).
  destruct (below_set j) as [B' HB']; [eauto|]. exists B'. split; [done|].
  assert (j ∉ B) as Hj.
  { intros (ch & Hch & Hjc)%HB. destruct (acyclic F j). assert (edge (layout (nodes st)) j ch) as He by (apply layout_edge; eauto).
    eapply tc_rtc_r; [apply (tc_once _ _ _ He)|exact Hjc]. }
  assert (size ({[j]} ∪ B) ≤ size B') as Hsz.
  { apply subseteq_size. intros k [->%elem_of_singleton|(ch & Hch & Hk)%HB]%elem_of_union.
    - apply HB'. reflexivity.
    - apply HB'. eapply rtc_l; [|exact Hk]. apply layout_edge. eauto. }
  rewrite size_union, size_singleton in Hsz by set_solver. lia.
Qed.
Lemma roomy_small i m : is_Some (nodes st !! i) → (3 * N.of_nat (size (nodes st)) ≤ u16_max)%N → extent_within i m → (m < u16_max)%N.
Proof.
  intros Hi Hsmall (B & HB & Hm). assert (size B ≤ size (nodes st)); [|lia].
  rewrite <-size_dom. apply subseteq_size. intros k Hk%HB. apply elem_of_dom.
  by eapply (below_exists F i).
Qed.

Lemma Forall2_collect {A B} (f : A → outcome B) (Q : A → B → Prop) l :
  (∀ x, x ∈ l → ∃ y, f x = Ok y ∧ Q x y) → ∃ ys, collect f l = Ok ys ∧ Forall2 Q l ys.
Proof.
  induction l as [|x l IH]; intros Hf; [by exists []|].
  destruct (Hf x) as (y & Hy & Hq); [by left|]. destruct IH as (ys & Hys & HQ); [intros; apply Hf; by right|].
  exists (y :: ys). cbn [collect]. rewrite Hy. cbn [mbind outcome_bind]. rewrite Hys. split; [done|by constructor].
Qed.
Lemma divider_count_le n : (divider_count n ≤ N.of_nat n)%N.
Proof. unfold divider_count. cbv zeta. destruct (N.leb_spec (N.of_nat (n - 1)) u16_max); lia. Qed.
Lemma foldl_sat_le ls : ∀ a, (foldl sat_add16 a ls ≤ a + total_of ls)%N.
Proof.
  induction ls as [|x ls IH]; intros a; [simpl; lia|]. cbn [foldl].
  change (total_of (x :: ls)) with (x + total_of ls)%N. specialize (IH (sat_add16 a x)).
  unfold sat_add16 in *. lia.
Qed.
Lemma foldr_max_le ls : (foldr N.max 0 ls ≤ total_of ls)%N.
Proof.
  induction ls as [|x ls IH]; [simpl; lia|]. change (total_of (x :: ls)) with (x + total_of ls)%N.
  cbn [foldr]. lia.
Qed.
Lemma min_extent_roomy d titles : (3 * N.of_nat (size (nodes st)) ≤ u16_max)%N →
  ∀ i, in_session i → ∃ m, min_extent c (client_budget c) i d titles = Ok m ∧ extent_within i m.
Proof.
  intros Hsmall. apply (client_down (λ fuel i, ∃ m, min_extent c fuel i d titles = Ok m ∧ extent_within i m)).
  intros fuel j n o Hn Hsn Hr IH. cbn [min_extent]. rewrite Hr.
  pose proof (children_nodup st j n W Hn) as Hd. destruct n as [v|sp|t]; cbn [nr_kind record_of].
  - eexists. split; [done|]. eapply (roomy_node j _ [] []); [exact Hn|apply list_subseteq_nil|constructor|constructor|].
    unfold u16_of_bool. repeat case_match; simpl; lia.
  - cbn [nr_split record_of spr_child_ids spr_direction]. case_bool_decide as Hl.
    { eexists. split; [done|]. eapply (roomy_node j _ [] []); [exact Hn|apply list_subseteq_nil|constructor|constructor|simpl; lia]. }
    destruct (Forall2_collect (λ ch, min_extent c fuel ch d titles) extent_within (sp_children sp)) as (ms & -> & HF).
    { intros ch Hch. destruct (IH ch Hch) as [_ (m & ? & ?)]. eauto. }
    cbn [mbind outcome_bind]. eexists. split; [done|].
    eapply (roomy_node j _ (sp_children sp) ms); [exact Hn|done|exact Hd|exact HF|].
    rewrite <-(Forall2_length _ _ _ HF). pose proof (foldr_max_le ms).
    pose proof (foldl_sat_le ms (divider_count (length (sp_children sp)))).
    pose proof (divider_count_le (length (sp_children sp))). destruct (decide _); lia.
  - cbn [nr_tabs record_of mbind option_bind tsr_tabs tsr_active]. rewrite list_lookup_fmap, Nat2N.id.
    destruct (t_tabs t !! t_active t) as [te|] eqn:Hte; cbn [fmap option_fmap option_map tr_child_id].
    + assert (te_child te ∈ child_ids (Tabs t)) as Hin
        by (apply list_elem_of_fmap_2; by eapply list_elem_of_lookup_2).
      destruct (IH (te_child te) Hin) as [(nc & Hnc & _) (m & -> & Hm)]. cbn [mbind outcome_bind].
      pose proof (roomy_small (te_child te) m ltac:(eauto) Hsmall Hm) as Hlt.
      unfold u16_plus. rewrite (proj2 (N.leb_le _ _)) by (destruct d; lia). eexists. split; [done|].
      eapply (roomy_node j _ [te_child te] [m]); [exact Hn| |apply NoDup_singleton|by repeat constructor|].
      * intros x ->%list_elem_of_singleton. done.
      * unfold total_of. simpl. destruct d; lia.
    + cbn [mbind outcome_bind]. unfold u16_plus. rewrite (proj2 (N.leb_le _ _)) by (destruct d; done).
      eexists. split; [done|]. eapply (roomy_node j _ [] []); [exact Hn|apply list_subseteq_nil|constructor|constructor|].
      destruct d; simpl; lia.
Qed.
End mirrored.

(** A client that has the server's copy of a session can draw it: every walk of the
    projection ends, nothing it looks up is missing, and no sum overflows. *)

(** ** Rectangles whose corners are far from the ends of [i32] *)

Record fits (r : Rect) : Prop := {
  fi_ok : rect_ok r;
  fi_x : (0 ≤ px (origin r) ≤ 1048576)%Z;
  fi_y : (0 ≤ py (origin r) ≤ 1048576)%Z;
  fi_end : empty_rect r ∨ (right_of r ≤ 65535 ∧ bottom_of r ≤ 65535)%Z
}.
Ltac fits_lia :=
  repeat match goal with H : fits _ |- _ => destruct H as [[? ?] ? ? ?] end;
  unfold inside, right_of, bottom_of, u16_max in *; simpl in *; lia.
Lemma fits_nonempty r : fits r → ¬ empty_rect r → (right_of r ≤ 65535 ∧ bottom_of r ≤ 65535)%Z.
Proof. intros [_ _ _ [?|?]] ?; done. Qed.
Lemma fits_inside r r' : fits r → ¬ empty_rect r → rect_ok r' → inside r' r → fits r'.
Proof.
  intros Hf He Hk Hi. pose proof (fits_nonempty r Hf He) as [Hr Hb]. split; [done|fits_lia|fits_lia|].
  right. fits_lia.
Qed.
Lemma i32_plus_fits z n : (0 ≤ z ≤ 1048576)%Z → (n ≤ 1048576)%N → i32_plus z n = Ok (z + Z.of_N n)%Z.
Proof. intros Hz Hn. apply i32_fits. lia. Qed.

Lemma inset_top_total r n : fits r → ∃ r', inset_top r n = Ok r'.
Proof.
  intros [[? ?] ? ? ?]. unfold inset_top. rewrite i32_plus_fits by (unfold u16_max in *; lia). by eexists.
Qed.
Lemma split_title_row_total r t : fits r → ∃ rects, split_title_row r t = Ok rects.
Proof.
  intros Hf. unfold split_title_row. destruct t; [by eexists|..].
  - destruct (inset_top_total r 1 Hf) as [r' ->]. by eexists.
  - cbv zeta. rewrite i32_plus_fits; [by eexists|fits_lia..].
Qed.
Lemma tab_bar_rects_total layout r root : fits r → ∃ rects, tab_bar_rects layout r root = Ok rects.
Proof.
  intros Hf. unfold tab_bar_rects. cbv zeta. destruct (root && _).
  - rewrite i32_plus_fits; [by eexists|fits_lia..].
  - destruct (inset_top_total r (u16_of_bool (negb root || bar_visible (lo_tab_bar layout))) Hf) as [r' ->].
    by eexists.
Qed.
Lemma divider_rect_total d r i n : fits r → ∃ o, divider_rect_for d r i n = Ok o.
Proof.
  intros Hf. unfold divider_rect_for. destruct (_ =? _); [by eexists|].
  destruct d; (rewrite i32_plus_fits; [by eexists|fits_lia..]).
Qed.
Lemma inset_border_total r : fits r → ∃ r', inset_border r = Ok r'.
Proof.
  intros Hf. unfold inset_border. rewrite !i32_plus_fits by (done || fits_lia). by eexists.
Qed.
Lemma clip_rect_total g bounds : fits bounds → (fx g ≤ u16_max)%N → (fy g ≤ u16_max)%N →
  (fwidth g ≤ u16_max)%N → (fheight g ≤ u16_max)%N →
  ∃ r, clip_rect (geometry_rect g) bounds = Ok r.
Proof.
  intros Hf Hx Hy Hw Hh. unfold clip_rect, geometry_rect. simpl.
  rewrite !i32_plus_fits by fits_lia. by eexists.
Qed.
Lemma clip_rect_fits g bounds r : fits bounds →
  clip_rect (geometry_rect g) bounds = Ok r → ¬ empty_rect r → fits r.
Proof.
  intros Hf Hr He. apply clip_rect_Ok in Hr as [Hk [?|Hi]]; [done| |by destruct Hf].
  apply (fits_inside bounds); [done| |done..].
  intros Hb. apply He. unfold empty_rect, inside, right_of, bottom_of in *. lia.
Qed.

(** Room for the rectangles of a split. *)
Lemma place_rects_fit r d ls : rect_ok r → Forall (λ len, len ≤ u16_max)%N ls → ∀ x y,
  (0 ≤ x)%Z → (0 ≤ y)%Z →
  (x + Z.of_N (total_of ls) + Z.of_nat (length ls) ≤ 1048576)%Z →
  (y + Z.of_N (total_of ls) + Z.of_nat (length ls) ≤ 1048576)%Z →
  ∃ rs, place_rects r d x y ls = Ok rs
    ∧ Forall (λ t, rect_ok t ∧ 0 ≤ px (origin t) ≤ 1048576 ∧ 0 ≤ py (origin t) ≤ 1048576)%Z rs.
Proof.
  intros [Hw Hh]. induction 1 as [|len ls Hlen _ IH]; intros x y Hx Hy Ex Ey; [by eexists|].
  rewrite place_rects_cons. change (total_of (len :: ls)) with (len + total_of ls)%N in Ex, Ey.
  cbn [length] in Ex, Ey.
  destruct (IH (match d with Horizontal => x | Vertical => x + Z.of_N (len + 1) end)%Z
               (match d with Horizontal => y + Z.of_N (len + 1) | Vertical => y end)%Z) as (rs & Hrs & HF);
    [destruct d; lia..|].
  assert (match d with Horizontal => Ok x | Vertical => i32_plus x (len + 1) end
    = Ok (match d with Horizontal => x | Vertical => x + Z.of_N (len + 1) end)%Z) as ->.
  { destruct d; [done|]. apply i32_fits. lia. }
  assert (match d with Horizontal => i32_plus y (len + 1) | Vertical => Ok y end
    = Ok (match d with Horizontal => y + Z.of_N (len + 1) | Vertical => y end)%Z) as ->.
  { destruct d; [|done]. apply i32_fits. lia. }
  cbn [mbind outcome_bind]. rewrite Hrs. eexists. split; [done|]. apply Forall_cons. split; [|exact HF].
  destruct d; (split; [split; simpl; lia|simpl; lia]).
Qed.
Lemma total_of_each ls : Forall (λ len, len ≤ total_of ls)%N ls.
Proof.
  induction ls as [|x ls IH]; [constructor|]. change (total_of (x :: ls)) with (x + total_of ls)%N.
  apply Forall_cons. split; [lia|]. eapply Forall_impl; [exact IH|]. intros y ?. cbn beta in *. lia.
Qed.
Lemma total_of_bound b ls : Forall (λ x, x ≤ b)%N ls → (total_of ls ≤ b * N.of_nat (length ls))%N.
Proof.
  induction 1 as [|x ls Hx _ IH]; [simpl; lia|]. change (total_of (x :: ls)) with (x + total_of ls)%N.
  cbn [length]. lia.
Qed.
Lemma split_rects_fit r d sizes n : fits r → ¬ empty_rect r → (N.of_nat n ≤ u16_max)%N →
  Forall (λ x, x ≤ u16_max)%N sizes → length sizes = n →
  ∃ rs, split_rects r d sizes n = Ok rs ∧ Forall fits rs.
Proof.
  intros Hf He Hn Hs Hl. pose proof (fits_nonempty r Hf He) as [Hr Hb].
  destruct (decide (n = 0)) as [->|Hn0]; [by eexists|].
  unfold split_rects. rewrite (proj2 (Nat.eqb_neq n 0)) by done.
  assert (axis_length r d ≤ u16_max)%N as Hax by (destruct Hf as [[? ?] _ _ _]; by destruct d).
  assert (∃ ls, proportional_lengths (axis_length r d - divider_count n)%N sizes n = Ok ls) as [ls Hls].
  { apply proportional_lengths_fit; [lia|]. unfold split_weights. rewrite Hl, Nat.eqb_refl. simpl.
    destruct (existsb _ sizes); cbn [andb].
    - pose proof (total_of_bound _ _ Hs). rewrite Hl in H. unfold u16_max, u32_modulus in *. nia.
    - pose proof (total_of_bound 1 (repeat 1%N n)) as Ht. rewrite repeat_length in Ht.
      assert (total_of (repeat 1%N n) ≤ 1 * N.of_nat n)%N; [|unfold u16_max, u32_modulus in *; lia].
      apply Ht. clear. induction n as [|n IH]; [by constructor|by apply Forall_cons]. }
  assert (∃ rs, split_rects r d sizes n = Ok rs ∧ Forall (λ t, rect_ok t
    ∧ 0 ≤ px (origin t) ≤ 1048576 ∧ 0 ≤ py (origin t) ≤ 1048576)%Z rs) as (rs & Hrs & HF).
  { unfold split_rects. rewrite (proj2 (Nat.eqb_neq n 0)) by done. rewrite Hls. cbn [mbind outcome_bind].
    apply proportional_lengths_total in Hls as [Htot Hlen]; [|lia|lia].
    apply place_rects_fit; [by destruct Hf| |fits_lia..].
    eapply Forall_impl; [apply total_of_each|]. intros x Hx. cbn beta in *. lia. }
  pose proof (split_rects_tiled r d sizes n rs ltac:(by destruct Hf) Hrs) as (_ & _ & Ht).
  unfold split_rects in Hrs. rewrite (proj2 (Nat.eqb_neq n 0)) in Hrs by done. rewrite Hrs.
  exists rs. split; [done|]. rewrite Forall_forall in HF, Ht. apply Forall_forall. intros t Hin.
  destruct (HF t Hin) as (? & ? & ?), (Ht t Hin) as (_ & Hi). split; [done..|].
  destruct Hi as [?|Hi]; [by left|right]. fits_lia.
Qed.

(** ** Drawing a copied session *)

(** What drawing needs. The code's types keep split sizes and popup geometry to [u16].
    The number of nodes in the workspace (at most three cells each) is to stay within
    [u16], and every tabs node of the session is to have a tab: a session has a root
    without one when it is created, and until its first window. *)
Record drawable (st : ServerState) (sid : SessionId) : Prop := {
  dw_few : (3 * N.of_nat (size (nodes st)) ≤ u16_max)%N;
  dw_sizes : ∀ i sp, nodes st !! i = Some (Split sp) → Forall (λ x, x ≤ u16_max)%N (sp_sizes sp);
  dw_popup : ∀ fid w, floating st !! fid = Some w →
    Forall (λ x, x ≤ u16_max)%N [fx (f_geometry w); fy (f_geometry w); fwidth (f_geometry w); fheight (f_geometry w)];
  dw_tabs : ∀ i t, nodes st !! i = Some (Tabs t) → t_session_id t = sid → t_tabs t ≠ []
}.

Section draw.
Context {st : ServerState} (H : consistent st).
Context {sid : SessionId} {s : Session} (Hs : sessions st !! sid = Some s).
Context {c : ClientState} (M : mirrors st sid s c) (D : drawable st sid) (layout : LayoutOptions).
Let W : wired st := in_wired _ _ _ (cs_inv _ H).
Let F : forest (Invariant.layout (nodes st)) := wi_forest _ W.

(** A pane drawn for the tree of [i]: one of the tree's that its tabs show, with the
    buffer the server has there, marked when it has the focus. *)
Definition pane_below (i : N) (l : LeafFrame) : Prop :=
  visible_from (nodes st) i (lf_node_id l)
  ∧ (∃ v, nodes st !! lf_node_id l = Some (BufferView v) ∧ v_buffer_id v = lf_buffer_id l)
  ∧ lf_focused l = bool_decide (s_focused_leaf s = Some (lf_node_id l)).
Definition adds (P : LeafFrame → Prop) (p p' : Projection) : Prop :=
  ∃ ls, pj_leaves p' = pj_leaves p ++ ls ∧ Forall P ls.
Lemma adds_none P p p' : pj_leaves p' = pj_leaves p → adds P p p'.
Proof. exists []. split; [by rewrite app_nil_r|constructor]. Qed.
Lemma adds_trans P p1 p2 p3 : adds P p1 p2 → adds P p2 p3 → adds P p1 p3.
Proof.
  intros (l1 & E1 & F1) (l2 & E2 & F2). exists (l1 ++ l2).
  split; [by rewrite E2, E1, app_assoc|by apply Forall_app].
Qed.
Lemma adds_weaken (P Q : LeafFrame → Prop) p p' : adds P p p' → (∀ l, P l → Q l) → adds Q p p'.
Proof. intros (l & E & HF) HPQ. exists l. split; [done|]. eapply Forall_impl; [exact HF|exact HPQ]. Qed.
Lemma fold_ok_adds {A} (P : LeafFrame → Prop) (f : Projection → A → outcome Projection) l :
  (∀ x, x ∈ l → ∀ p, ∃ p', f p x = Ok p' ∧ adds P p p') →
  ∀ p, ∃ p', fold_ok f p l = Ok p' ∧ adds P p p'.
Proof.
  induction l as [|x l IH]; intros Hf p; [exists p; split; [done|by apply adds_none]|]. cbn [fold_ok].
  destruct (Hf x) with (p := p) as (p1 & -> & H1); [by left|]. cbn [mbind outcome_bind].
  destruct (IH (λ y Hy, Hf y (list_elem_of_further _ _ _ Hy)) p1) as (p2 & -> & H2).
  exists p2. split; [done|by eapply adds_trans].
Qed.

Definition node_drawn (fuel : nat) (i : N) : Prop := ∀ r fl is_root path p, fits r →
  ∃ p', project_node c (session_record s) layout fuel i r fl is_root path p = Ok p'
        ∧ adds (pane_below i) p p'.

Lemma view_drawn j v o r fl path p : nodes st !! j = Some (BufferView v) → v_session_id v = sid →
  fits r → ∃ p', project_view c (session_record s) layout (record_of (BufferView v) o) r fl path p = Ok p'
                 ∧ adds (pane_below j) p p'.
Proof.
  intros Hn Hsn Hf. pose proof (wi_node_id _ W _ _ Hn) as Hid. simpl in Hid.
  destruct (mr_pane _ _ _ _ M j (v_buffer_id v)) as [(b & Hb & Hcb) _].
  { unfold views. rewrite lookup_omap, Hn. cbn. by rewrite Hsn. }
  unfold project_view. cbn [nr_buffer_view record_of ok_or mbind outcome_bind bv_buffer_id].
  rewrite Hcb. cbn [ok_or mbind outcome_bind].
  destruct (split_title_row_total r (pane_titles_in c layout fl) Hf) as [rects ->]. cbn [mbind outcome_bind].
  eexists. split; [done|]. eexists [_]. split; [done|]. apply Forall_singleton.
  cbn [lf_node_id lf_buffer_id lf_focused nr_id record_of br_id buffer_record pane_below].
  rewrite Hid. split_and!; [reflexivity| |done]. exists v. split; [done|].
  rewrite <-(wi_buffer_id _ W _ _ Hb). cbn [lf_buffer_id]. unfold buffer_record. by destruct (b_state b), (b_kind b).
Qed.

Lemma tab_item_total active t acc : in_session (st:=st) (sid:=sid) (tr_child_id t.2) →
  ∃ acc', tab_item c (session_record s) active acc t = Ok acc' ∧ pj_leaves acc'.2 = pj_leaves acc.2.
Proof.
  intros Hin. destruct acc as [items p]. unfold tab_item. cbv zeta.
  destruct (activity_total H M (tr_child_id t.2) Hin (pj_activity p)) as [a ->].
  cbn [mbind outcome_bind].
  destruct (buffer_count_total H M (tr_child_id t.2) Hin (pj_buffer_count p)) as [n ->].
  cbn [mbind outcome_bind].
  destruct (tab_pane_total H Hs M (tr_child_id t.2)) as [o Ho].
  change (sr_focused_leaf_id (session_record s)) with (s_focused_leaf s). rewrite Ho. by eexists.
Qed.
Lemma tab_items_total active tabs : (∀ t, t ∈ tabs → in_session (st:=st) (sid:=sid) (tr_child_id t.2)) →
  ∀ acc, ∃ acc', fold_ok (tab_item c (session_record s) active) acc tabs = Ok acc'
                 ∧ pj_leaves acc'.2 = pj_leaves acc.2.
Proof.
  induction tabs as [|t tabs IH]; intros Hin acc; [by exists acc|]. cbn [fold_ok].
  destruct (tab_item_total active t acc (Hin t ltac:(by left))) as (acc1 & -> & <-).
  apply (IH (λ y Hy, Hin y (list_elem_of_further _ _ _ Hy))).
Qed.

Lemma tabs_drawn fuel j t o r fl is_root path p : nodes st !! j = Some (Tabs t) → t_session_id t = sid →
  (∀ ch, ch ∈ child_ids (Tabs t) → in_session (st:=st) (sid:=sid) ch ∧ node_drawn fuel ch) →
  fits r → ¬ empty_rect r →
  ∃ p', project_tabs c (session_record s) layout (project_node c (session_record s) layout fuel)
          (record_of (Tabs t) o) r fl is_root path p = Ok p' ∧ adds (pane_below j) p p'.
Proof.
  intros Hn Hsn IH Hf He. pose proof (in_shaped _ _ _ (cs_inv _ H) j _ Hn (not_elem_of_empty _)) as Hok.
  destruct Hok as [Hok|[Hemp _]]; [|by destruct (dw_tabs _ _ D j t Hn Hsn)].
  apply lookup_lt_is_Some in Hok as [te Hte].
  assert (active_child t = Some (te_child te)) as Hac by (unfold active_child; by rewrite Hte).
  destruct (IH (te_child te) (active_child_elem _ _ Hac)) as [_ Hch].
  unfold project_tabs. cbn [nr_tabs record_of ok_or mbind outcome_bind tsr_active tsr_tabs]. cbv zeta.
  rewrite Nat2N.id, list_lookup_fmap, Hte. cbn [fmap option_fmap option_map ok_or mbind outcome_bind].
  destruct (tab_bar_rects_total layout r (is_root && bool_decide (fl = None)) Hf) as [[bar content] Hrects].
  rewrite Hrects. cbn [mbind outcome_bind].
  match goal with |- context [fold_ok (tab_item _ _ ?a) ?a0 ?l] =>
    destruct (tab_items_total a l) with (acc := a0) as ([items p1] & -> & Hl) end.
  { intros [k tr] Hk. apply elem_of_zip_r, list_elem_of_fmap in Hk as (te' & -> & Hin).
    apply IH. by apply (list_elem_of_fmap_2 te_child). }
  cbn [mbind outcome_bind]. cbn [fst snd] in *.
  assert (fits content) as Hfc.
  { apply tab_bar_rects_Ok in Hrects as (_ & Hin & _ & Hk & _); [|intros ?; apply He; by right].
    by apply (fits_inside r); [..|apply Hk; destruct Hf|]. }
  match goal with |- context [project_node _ _ _ _ _ _ _ _ ?path ?q] =>
    destruct (Hch content fl false path q Hfc) as (p' & Hp & Had) end.
  exists p'. split; [exact Hp|]. eapply adds_trans; [apply (adds_none _ p)|].
  2: { eapply adds_weaken; [exact Had|]. intros l (Hv & Hl'). split; [|exact Hl'].
       eapply rtc_l; [|exact Hv]. exists (Tabs t). split_and!; [done|by apply active_child_elem|done]. }
  exact Hl.
Qed.
Lemma split_drawn fuel j sp o r fl path p : nodes st !! j = Some (Split sp) → sp_session_id sp = sid →
  (∀ ch, ch ∈ child_ids (Split sp) → in_session (st:=st) (sid:=sid) ch ∧ node_drawn fuel ch) →
  fits r → ¬ empty_rect r →
  ∃ p', project_split c layout (project_node c (session_record s) layout fuel)
          (record_of (Split sp) o) r fl path p = Ok p' ∧ adds (pane_below j) p p'.
Proof.
  intros Hn Hsn IH Hf He. pose proof (in_shaped _ _ _ (cs_inv _ H) j _ Hn (not_elem_of_empty _)) as [_ Hlen].
  unfold project_split. cbn [nr_split record_of ok_or mbind outcome_bind]. cbv zeta.
  cbn [spr_child_ids spr_sizes spr_direction]. case_bool_decide; [exists p; split; [done|by apply adds_none]|].
  assert (N.of_nat (length (sp_children sp)) ≤ u16_max)%N as Hfew.
  { pose proof (dw_few _ _ D) as Hsm. assert (length (sp_children sp) ≤ size (nodes st)) as Hl; [|unfold u16_max in *; lia].
    assert (NoDup (sp_children sp)) as Hd by exact (children_nodup st j _ W Hn).
    rewrite <-(size_list_to_set (C:=gset N) _ Hd), <-size_dom. apply subseteq_size.
    intros ch Hch%elem_of_list_to_set. destruct (IH ch Hch) as [(n & Hnc & _) _]. apply elem_of_dom. eauto. }
  destruct (split_rects_fit r (sp_direction sp) (sp_sizes sp) (length (sp_children sp)) Hf He Hfew
              (dw_sizes _ _ D j sp Hn) Hlen) as (rects & -> & Hrects). cbn [mbind outcome_bind].
  destruct (Forall2_collect (λ id, min_extent c (client_budget c) id (sp_direction sp) (pane_titles_in c layout fl))
    (λ _ _, True) (sp_children sp)) as (mins & -> & _).
  { intros ch Hch. destruct (min_extent_roomy H Hs M (sp_direction sp) (pane_titles_in c layout fl)
      (dw_few _ _ D) ch (proj1 (IH ch Hch))) as (m & ? & _). eauto. }
  cbn [mbind outcome_bind].
  match goal with |- context [fold_ok ?f ?q ?l] =>
    destruct (fold_ok_adds (pane_below j) f l) with (p := q) as (p' & -> & Had) end.
  - intros [k [ch rc]] Hin q. apply elem_of_zip_r in Hin.
    pose proof (elem_of_zip_l _ _ _ _ Hin) as Hch. apply elem_of_zip_r in Hin as Hrc.
    rewrite Forall_forall in Hrects. unfold project_child.
    destruct (IH ch Hch) as [_ Hd]. destruct (Hd rc fl false path q (Hrects _ Hrc)) as (q1 & -> & Had).
    cbn [mbind outcome_bind].
    match goal with |- context [divider_rect_for ?d ?r ?i ?n] =>
      destruct (divider_rect_total d r i n (Hrects _ Hrc)) as [dv ->] end.
    cbn [mbind outcome_bind]. eexists. split; [done|]. eapply adds_trans.
    + eapply adds_weaken; [exact Had|]. intros l (Hv & Hl'). split; [|exact Hl'].
      eapply rtc_l; [|exact Hv]. exists (Split sp). by split_and!.
    + apply adds_none. by destruct dv.
  - exists p'. split; [done|exact Had].
Qed.
Lemma session_node_drawn i : in_session (st:=st) (sid:=sid) i → node_drawn (client_budget c) i.
Proof.
  apply (client_down H M node_drawn). intros fuel j n o Hn Hsn Hr IH r fl is_root path p Hf.
  cbn [project_node].
  destruct (N.eqb_spec (width (size_ r)) 0) as [Hw|Hw]; [exists p; split; [done|by apply adds_none]|].
  destruct (N.eqb_spec (height (size_ r)) 0) as [Hh|Hh]; [exists p; split; [done|by apply adds_none]|].
  assert (¬ empty_rect r) as He by (by intros [?|?]). cbn [orb]. rewrite Hr. cbn [ok_or mbind outcome_bind].
  destruct n as [v|sp|t]; cbn [nr_kind record_of].
  - by apply view_drawn.
  - by apply split_drawn.
  - by apply tabs_drawn.
Qed.

(** ** The whole session *)

Lemma popup_record fid w : cl_floating c !! fid = Some w → fid ∈ s_floating s →
  ∃ w0, floating st !! fid = Some w0 ∧ w = floating_record w0.
Proof.
  intros Hw Hin. destruct (mr_popup _ _ _ _ M fid Hin) as (w0 & Hw0 & Hc). exists w0. split; [done|congruence].
Qed.
Lemma window_for_root_known root w :
  floating_window_for_root c (session_record s) root = Some w →
  ∃ fid w0, fid ∈ s_floating s ∧ floating st !! fid = Some w0 ∧ w = floating_record w0.
Proof.
  intros [Hin _]%find_first_Some. apply list_elem_of_omap in Hin as (fid & Hfid & Hw).
  destruct (popup_record fid w Hw Hfid) as (w0 & ? & ?). eauto.
Qed.
Lemma belongs_total i : ∃ b, node_belongs_to_session c (session_record s) (client_budget c) i = Ok b
  ∧ (b = true → in_session (st:=st) (sid:=sid) i).
Proof.
  assert (s_id s = sid) as Hid by exact (so_id _ _ _ (wi_session _ W _ _ Hs)).
  assert (in_session (st:=st) (sid:=sid) i →
    ∃ b, node_belongs_to_session c (session_record s) (client_budget c) i = Ok b) as Hin.
  { apply (client_up H M (λ fuel i, ∃ b, node_belongs_to_session c (session_record s) fuel i = Ok b)).
    intros fuel j n o Hn Hsn Hr IH. cbn [node_belongs_to_session]. rewrite Hr, record_session, record_parent.
    destruct (negb _); [by eexists|]. destruct (_ =? _)%N; [by eexists|].
    destruct (floating_window_for_root _ _ _); [by eexists|].
    destruct (parent n) as [q|]; [apply (IH q eq_refl)|by eexists]. }
  unfold client_budget in *. cbn [node_belongs_to_session] in *.
  destruct (cl_nodes c !! i) as [n|] eqn:Hn; [|by exists false].
  destruct (N.eqb_spec (nr_session_id n) (sr_id (session_record s))) as [Hsn|Hsn]; [|by exists false].
  assert (in_session (st:=st) (sid:=sid) i) as Hi.
  { apply (mr_only _ _ _ _ M i n Hn). rewrite Hsn. exact Hid. }
  destruct (Hin Hi) as [b Hb]. by exists b.
Qed.
Lemma ancestor_total i : in_session (st:=st) (sid:=sid) i →
  ∃ o, floating_ancestor_for_node c (session_record s) (client_budget c) i = Ok o
    ∧ ∀ w, o = Some w → ∃ fid w0, fid ∈ s_floating s ∧ floating st !! fid = Some w0 ∧ w = floating_record w0.
Proof.
  apply (client_up H M (λ fuel i, ∃ o, floating_ancestor_for_node c (session_record s) fuel i = Ok o
    ∧ ∀ w, o = Some w → ∃ fid w0, fid ∈ s_floating s ∧ floating st !! fid = Some w0 ∧ w = floating_record w0)).
  intros fuel j n o Hn Hsn Hr IH. cbn [floating_ancestor_for_node].
  destruct (floating_window_for_root c (session_record s) j) as [w|] eqn:Hw.
  { exists (Some w). split; [done|]. intros w' [= <-]. by eapply window_for_root_known. }
  rewrite Hr. cbn [mbind option_bind]. rewrite record_parent.
  destruct (parent n) as [q|]; [apply (IH q eq_refl)|by exists None].
Qed.

Definition pane_of_session (l : LeafFrame) : Prop :=
  ∃ r, pane_below r l
    ∧ (r = s_root_node s ∨ s_zoomed_node s = Some r
       ∨ ∃ fid w, fid ∈ s_floating s ∧ floating st !! fid = Some w ∧ r = f_root_node w).

Section bounds.
Context (bounds : Rect) (Hb : fits bounds).
Lemma window_drawn fid w i p : floating st !! fid = Some w → in_session (st:=st) (sid:=sid) i →
  ∃ p', project_floating_window c (session_record s) layout (floating_record w) bounds i p = Ok p'
        ∧ adds (pane_below i) p p'.
Proof.
  intros Hw Hi. unfold project_floating_window.
  destruct (fr_visible _); [|exists p; split; [done|by apply adds_none]]. cbn [negb].
  pose proof (dw_popup _ _ D fid w Hw) as Hg. apply Forall_cons in Hg as [Hx Hg].
  apply Forall_cons in Hg as [Hy Hg]. apply Forall_cons in Hg as [Hwd Hg]. apply Forall_cons in Hg as [Hht _].
  destruct (clip_rect_total (f_geometry w) bounds Hb Hx Hy Hwd Hht) as [r Hr].
  change (fr_geometry (floating_record w)) with (f_geometry w). rewrite Hr. cbn [mbind outcome_bind].
  destruct (N.eqb_spec (width (size_ r)) 0) as [Hz|Hz]; [exists p; split; [done|by apply adds_none]|].
  destruct (N.eqb_spec (height (size_ r)) 0) as [Hh|Hh]; [exists p; split; [done|by apply adds_none]|].
  assert (¬ empty_rect r) as Hne by (by intros [?|?]). cbn [orb].
  pose proof (clip_rect_fits _ _ _ Hb Hr Hne) as Hfr.
  assert (∃ content, (if fr_border (floating_record w) then inset_border r else Ok r) = Ok content
    ∧ fits content) as (content & -> & Hfc).
  { destruct (fr_border _); [|by exists r]. destruct (inset_border_total r Hfr) as [r' Hr']. exists r'.
    split; [done|]. apply inset_border_Ok in Hr' as [Hin Hk]; [|done].
    apply (fits_inside r); [done|done|apply Hk; by destruct Hfr|done]. }
  cbn [mbind outcome_bind].
  match goal with |- context [project_node _ _ _ _ _ _ ?fl ?root ?path ?q] =>
    destruct (session_node_drawn i Hi content fl root path q Hfc) as (p' & Hp & Had) end.
  exists p'. split; [exact Hp|exact Had].
Qed.
Lemma root_in_session : in_session (st:=st) (sid:=sid) (s_root_node s).
Proof.
  destruct (so_root _ _ _ (wi_session _ W _ _ Hs)) as (t & Ht & _ & Hts). by exists (Tabs t).
Qed.
Lemma popup_total fid p : fid ∈ s_floating s →
  ∃ p', project_popup c (session_record s) layout bounds p fid = Ok p' ∧ adds pane_of_session p p'.
Proof.
  intros Hin. unfold project_popup. destruct (cl_floating c !! fid) as [w|] eqn:Hw;
    [|exists p; split; [done|by apply adds_none]].
  destruct (popup_record fid w Hw Hin) as (w0 & Hw0 & ->).
  destruct (belongs_total (fr_root_node_id (floating_record w0))) as ([] & -> & Hbel); cbn [mbind outcome_bind];
    [|exists p; split; [done|by apply adds_none]].
  destruct (window_drawn fid w0 _ p Hw0 (Hbel eq_refl)) as (p' & Hp & Had). exists p'. split; [exact Hp|].
  eapply adds_weaken; [exact Had|]. intros l Hl. exists (f_root_node w0). split; [exact Hl|].
  right. right. eauto.
Qed.
Lemma session_is_drawn : ∃ p, project_session c (session_record s) layout bounds = Ok p
  ∧ Forall pane_of_session (pj_leaves p).
Proof.
  assert (∃ p, project_session c (session_record s) layout bounds = Ok p
    ∧ adds pane_of_session Projection_default p) as (p & Hp & ls & Hl & HF);
    [|exists p; split; [done|by rewrite Hl]].
  unfold project_session, projected_zoom. cbv zeta.
  change (sr_zoomed_node_id (session_record s)) with (s_zoomed_node s).
  assert (∃ z, match s_zoomed_node s with
    | Some id => belongs ← node_belongs_to_session c (session_record s) (client_budget c) id;
                 Ok (if belongs : bool then Some id else None)
    | None => Ok None end = Ok z
    ∧ ∀ i, z = Some i → s_zoomed_node s = Some i ∧ in_session (st:=st) (sid:=sid) i) as (z & -> & Hz).
  { destruct (s_zoomed_node s) as [i|]; [|by exists None].
    destruct (belongs_total i) as ([] & -> & Hbel); cbn [mbind outcome_bind]; [|by exists None].
    exists (Some i). split; [done|]. intros i' [= <-]. auto. }
  cbn [mbind outcome_bind]. destruct z as [i|].
  - destruct (Hz i eq_refl) as [Hzi Hi]. destruct (ancestor_total i Hi) as (o & -> & Ho).
    cbn [mbind outcome_bind]. assert (∀ p, adds (pane_below i) Projection_default p →
      adds pane_of_session Projection_default p) as Hweak.
    { intros p Hp. eapply adds_weaken; [exact Hp|]. intros l Hl. exists i. auto. }
    destruct o as [w|].
    + destruct (Ho w eq_refl) as (fid & w0 & _ & Hw0 & ->).
      destruct (window_drawn fid w0 i Projection_default Hw0 Hi) as (p & Hp & Had). eauto.
    + match goal with |- context [project_node _ _ _ _ _ _ ?fl ?root ?path ?q] =>
        destruct (session_node_drawn i Hi bounds fl root path q Hb) as (p & Hp & Had) end. eauto.
  - match goal with |- context [project_node _ _ _ _ _ _ ?fl ?root ?path ?q] =>
      destruct (session_node_drawn _ root_in_session bounds fl root path q Hb) as (p & Hp & Had) end.
    change (sr_root_node_id (session_record s)) with (s_root_node s). rewrite Hp. cbn [mbind outcome_bind].
    destruct (fold_ok_adds pane_of_session (project_popup c (session_record s) layout bounds) (s_floating s))
      with (p := p) as (p' & Hp' & Had'); [intros fid Hfid q; by apply popup_total|].
    exists p'. split; [exact Hp'|]. eapply adds_trans; [|exact Had'].
    eapply adds_weaken; [exact Had|]. intros l Hl. exists (s_root_node s). auto.
Qed.
End bounds.
End draw.

(** A session without a window cannot be drawn. *)
Lemma empty_root_refused st sid s c t viewport layout :
  consistent st → sessions st !! sid = Some s → mirrors st sid s c →
  nodes st !! s_root_node s = Some (Tabs t) → t_tabs t = [] → s_zoomed_node s = None →
  (0 < width viewport)%N → (0 < height viewport)%N →
  project_with c sid viewport layout = Err Protocol.
Proof.
  intros H Hs M Hn Ht Hz Hw Hh. pose proof (in_wired _ _ _ (cs_inv _ H)) as W.
  destruct (so_root _ _ _ (wi_session _ W _ _ Hs)) as (t' & Ht' & _ & Hsid).
  assert (t' = t) as -> by congruence.
  destruct (mr_node _ _ _ _ M _ _ Hn Hsid) as (o & r & Hr & Hrec).
  unfold project_with. rewrite (mr_session _ _ _ _ M). cbn [ok_or mbind outcome_bind].
  unfold project_session, projected_zoom. cbv zeta.
  change (sr_zoomed_node_id (session_record s)) with (s_zoomed_node s). rewrite Hz.
  cbn [mbind outcome_bind]. change (sr_root_node_id (session_record s)) with (s_root_node s).
  unfold client_budget. cbn [project_node size_].
  rewrite (proj2 (N.eqb_neq (width viewport) 0)), (proj2 (N.eqb_neq (height viewport) 0)) by lia.
  cbn [orb]. rewrite Hr. cbn [ok_or mbind outcome_bind]. unfold node_record in Hrec.
  destruct (_ <? u32_modulus)%N; [|done]. injection Hrec as <-. cbn [nr_kind].
  unfold project_tabs. cbn [nr_tabs ok_or mbind outcome_bind tsr_tabs tsr_active]. by rewrite Ht.
Qed.
