(* ===== verification/ResizeSpec.v ===== *)
(** Moving a divider keeps the split's length: what the panes on one side give up,
    nearest first, the pane on the other side gets. *)

From S2P Require Import Prelude Core Protocol ClientState Presentation Resize.
From S2P Require Import ProjectSpec DrawSpec.

(** What a pane can give up: down to its minimum, and never to nothing. *)
Definition spare (ls mins : list N) (k : nat) : N :=
  default 0%N (ls !! k) - N.max (default 1%N (mins !! k)) 1.
Definition spare_of (ls mins : list N) (ds : list nat) : N := total_of (spare ls mins <$> ds).

Lemma total_alter (f : N → N) k l x : l !! k = Some x → (total_of (alter f k l) + x = total_of l + f x)%N.
Proof.
  revert k. induction l as [|y l IH]; intros [|k] Hk; simplify_eq/=.
  - unfold total_of. simpl. lia.
  - specialize (IH k Hk). change (alter f (S k) (y :: l)) with (y :: alter f k l).
    change (total_of (y :: ?l)) with (y + total_of l)%N. lia.
Qed.
Lemma total_lookup k l x : l !! k = Some x → (x ≤ total_of l)%N.
Proof. intros Hk. pose proof (total_alter (λ _, 0%N) k l x Hk) as H. cbn beta in H. lia. Qed.

(** What the donors give when [n] is asked for: each what is still needed after the
    donors before it, as far as it can. *)
Record given (ls mins : list N) (n : N) (ds : list nat) (ls' : list N) (rest moved : N) : Prop := {
  gv_moved : moved = N.min n (spare_of ls mins ds);
  gv_rest : (rest + moved = n)%N;
  gv_total : (total_of ls' + moved = total_of ls)%N;
  gv_length : length ls' = length ls;
  gv_same : ∀ k, k ∉ ds → ls' !! k = ls !! k;
  gv_donor : ∀ ds1 d ds2, ds = ds1 ++ d :: ds2 →
    ls' !! d = (λ len, len - N.min (n - spare_of ls mins ds1) (spare ls mins d))%N <$> ls !! d
}.
Lemma total_of_cons x l : total_of (x :: l) = (x + total_of l)%N.
Proof. done. Qed.
Lemma take_from_given mins ds : ∀ ls n moved0, NoDup ds → (∀ d, d ∈ ds → is_Some (ls !! d)) →
  ∃ ls' rest moved, foldl (take_from mins) (ls, n, moved0) ds = (ls', rest, (moved0 + moved)%N)
    ∧ given ls mins n ds ls' rest moved.
Proof.
  induction ds as [|d ds IH]; intros ls n moved0 Hd Hin.
  { exists ls, n, 0%N. split; [simpl; f_equal; lia|]. split; [unfold spare_of; simpl; lia|lia|lia|done|done|].
    by intros [|] ? ?. }
  apply NoDup_cons in Hd as [Hnd Hd]. cbn [foldl].
  set (t := N.min (spare ls mins d) n).
  assert (take_from mins (ls, n, moved0) d = (alter (λ len, len - t)%N d ls, n - t, moved0 + t)%N) as ->.
  { unfold take_from. destruct (N.eqb_spec n 0) as [Hn|Hn]; [|done].
    assert (t = 0%N) as -> by lia. f_equal; [f_equal; [|lia]|lia].
    symmetry. rewrite <-(list_alter_id (λ len, len - 0)%N ls d) at 2; [done|]. intros; lia. }
  set (ls1 := alter (λ len, len - t)%N d ls).
  assert (∀ k, k ≠ d → ls1 !! k = ls !! k) as Hother by (intros k Hk; by apply list_lookup_alter_ne).
  assert (∀ ks, d ∉ ks → spare_of ls1 mins ks = spare_of ls mins ks) as Hspare.
  { intros ks Hks. unfold spare_of. f_equal. apply list_fmap_ext. intros i k Hk. unfold spare.
    rewrite Hother; [done|]. intros ->. apply Hks. by eapply list_elem_of_lookup_2. }
  destruct (Hin d) as [x Hx]; [by left|].
  destruct (IH ls1 (n - t)%N (moved0 + t)%N Hd) as (ls' & rest & moved & -> & [Hm Hr Ht Hl Hs Hdo]).
  { intros e He. rewrite Hother by (intros ->; done). apply Hin. by right. }
  exists ls', rest, (t + moved)%N. split; [f_equal; lia|]. rewrite Hspare in Hm by done.
  assert (t ≤ x)%N as Htx by (unfold t, spare; rewrite Hx; simpl; lia).
  split.
  - unfold spare_of in *. cbn [fmap list_fmap]. rewrite total_of_cons. unfold t in *. lia.
  - lia.
  - pose proof (total_alter (λ len, len - t)%N d ls x Hx) as Ha. fold ls1 in Ha. cbn beta in Ha. lia.
  - rewrite Hl. apply length_alter.
  - intros k [Hk1 Hk2]%not_elem_of_cons. rewrite Hs by done. by apply Hother.
  - intros [|d1 ds1] e ds2 [= -> He].
    + subst. rewrite Hs by done. unfold ls1. rewrite list_lookup_alter_eq, Hx. simpl. f_equal.
      unfold spare_of, t. simpl. lia.
    + subst. assert (d1 ∉ ds1) as Hn1 by (intros ?; apply Hnd; apply elem_of_app; by left).
      assert (e ≠ d1) as Hne by (intros ->; apply Hnd; apply elem_of_app; right; by left).
      rewrite (Hdo ds1 e ds2 eq_refl), Hother, Hspare by done.
      assert (spare ls1 mins e = spare ls mins e) as -> by (unfold spare; by rewrite Hother).
      unfold spare_of at 2. cbn [fmap list_fmap]. rewrite total_of_cons. fold (spare_of ls mins ds1).
      destruct (ls !! e); simpl; [|done]. f_equal. unfold t. lia.
Qed.

Section moved.
Context (ls mins : list N) (n : N) (ds : list nat) (ls1 : list N) (rest moved : N).
Context (G : given ls mins n ds ls1 rest moved).
Context (Pos : Forall (λ x, 1 ≤ x)%N ls) (Fit : (total_of ls ≤ u16_max)%N).

Lemma given_positive : Forall (λ x, 1 ≤ x)%N ls1.
Proof.
  apply Forall_lookup. intros k x Hx. rewrite Forall_lookup in Pos. destruct (decide (k ∈ ds)) as [Hk|Hk].
  - apply list_elem_of_split in Hk as (ds1 & ds2 & ->).
    rewrite (gv_donor _ _ _ _ _ _ _ G ds1 k ds2 eq_refl) in Hx. apply fmap_Some in Hx as (len & Hlen & ->).
    specialize (Pos k len Hlen). cbn beta in Pos. unfold spare. rewrite Hlen. cbn [default from_option]. unfold id. lia.
  - rewrite (gv_same _ _ _ _ _ _ _ G k Hk) in Hx. by apply (Pos k).
Qed.
Lemma received r x : r ∉ ds → ls !! r = Some x →
  N.max 1 <$> alter (λ len, sat_add16 len moved) r ls1 = alter (λ len, len + moved)%N r ls1
  ∧ total_of (alter (λ len, len + moved)%N r ls1) = total_of ls
  ∧ Forall (λ x, x ≤ u16_max)%N (alter (λ len, len + moved)%N r ls1).
Proof.
  intros Hr Hx. pose proof given_positive as P1. rewrite <-(gv_same _ _ _ _ _ _ _ G r Hr) in Hx.
  pose proof (total_alter (λ len, len + moved)%N r ls1 x Hx) as Ht. cbn beta in Ht.
  pose proof (gv_total _ _ _ _ _ _ _ G) as Htot.
  assert (total_of (alter (λ len, len + moved)%N r ls1) = total_of ls) as He by lia.
  assert (∀ k y, alter (λ len, len + moved)%N r ls1 !! k = Some y → (1 ≤ y ≤ u16_max)%N) as Hb.
  { intros k y Hy. pose proof (total_lookup k _ y Hy). split; [|lia].
    rewrite list_lookup_alter in Hy. rewrite Forall_lookup in P1. destruct (decide (k = r)) as [->|Hk].
    - rewrite decide_True, Hx in Hy by done. simplify_eq/=. specialize (P1 r x Hx). cbn beta in P1. lia.
    - rewrite decide_False in Hy by done. by apply (P1 k). }
  split_and!; [|exact He|].
  - apply list_eq. intros k. rewrite list_lookup_fmap.
    assert (alter (λ len, sat_add16 len moved) r ls1 = alter (λ len, len + moved)%N r ls1) as ->.
    { apply list_eq. intros j. rewrite !list_lookup_alter. destruct (decide (r = j)) as [<-|]; [|done].
      rewrite Hx. simpl. f_equal. pose proof (Hb r (x + moved)%N) as Hb'.
      rewrite list_lookup_alter_eq, Hx in Hb'. specialize (Hb' eq_refl). unfold sat_add16. lia. }
    destruct (alter _ r ls1 !! k) as [y|] eqn:Hy; [|done]. simpl. f_equal. specialize (Hb k y Hy). lia.
  - apply Forall_lookup. intros k y Hy. by apply (Hb k).
Qed.
End moved.

(** ** The theorem *)

(** The panes that shrink, nearest the divider first, and the one that grows. *)
Definition givers (n index : nat) (delta : Z) : list nat :=
  if (0 <? delta)%Z then seq (S index) (n - S index) else reverse (seq 0 (S index)).
Definition taker (index : nat) (delta : Z) : nat := if (0 <? delta)%Z then index else S index.
Definition cells_asked (delta : Z) : N := N.min (Z.to_N (Z.abs delta)) u16_max.

Lemma elem_of_givers n index delta k : S index < n →
  k ∈ givers n index delta ↔ k < n ∧ if (0 <? delta)%Z then index < k else k ≤ index.
Proof.
  intros Hi. unfold givers. destruct (0 <? delta)%Z; [|rewrite elem_of_reverse]; rewrite elem_of_seq; lia.
Qed.
Lemma givers_nodup n index delta : NoDup (givers n index delta).
Proof. unfold givers. destruct (0 <? delta)%Z; rewrite ?reverse_Permutation; apply NoDup_seq. Qed.
Lemma move_divider_given ls mins index delta : S index < length ls → delta ≠ 0%Z →
  ∃ ls1 rest moved, given ls mins (cells_asked delta) (givers (length ls) index delta) ls1 rest moved
  ∧ move_divider ls mins index delta
    = if (moved =? 0)%N then None
      else Some (N.max 1 <$> alter (λ len, sat_add16 len moved) (taker index delta) ls1).
Proof.
  intros Hi Hd.
  destruct (take_from_given mins (givers (length ls) index delta) ls (cells_asked delta) 0) as (ls1 & rest & moved & E & G).
  - apply givers_nodup.
  - intros k [Hk _]%elem_of_givers; [|done]. by apply lookup_lt_is_Some.
  - exists ls1, rest, moved. split; [exact G|]. unfold move_divider.
    rewrite (proj2 (Nat.leb_gt _ _)) by lia. rewrite (proj2 (Z.eqb_neq _ _)) by done. cbn [orb].
    fold (cells_asked delta). unfold givers, taker in *. destruct (0 <? delta)%Z; by rewrite E.
Qed.

(** Where the divider ends up. *)
Lemma total_take_drop k l : total_of l = (total_of (take k l) + total_of (drop k l))%N.
Proof. rewrite <-(take_drop k l) at 1. apply total_app. Qed.
Lemma divider_moved (ls ls' : list N) index delta (moved : N) : S index < length ls → delta ≠ 0%Z →
  total_of ls' = total_of ls →
  ls' !! taker index delta = (λ len, len + moved)%N <$> ls !! taker index delta →
  (∀ k, k ∉ givers (length ls) index delta → k ≠ taker index delta → ls' !! k = ls !! k) →
  length ls' = length ls →
  (Z.of_N (total_of (take (S index) ls'))
   = Z.of_N (total_of (take (S index) ls)) + Z.sgn delta * Z.of_N moved)%Z.
Proof.
  intros Hi Hd Htot Htk Hsame Hlen. unfold taker in *. destruct (Z.ltb_spec 0 delta) as [Hp|Hp].
  - destruct (lookup_lt_is_Some_2 ls index) as [x Hx]; [lia|].
    assert (take (S index) ls' = alter (λ len, len + moved)%N index (take (S index) ls)) as ->.
    { apply list_eq. intros k. destruct (decide (S index ≤ k)) as [Hk|Hk].
      - rewrite lookup_ge_None_2, lookup_ge_None_2; [done|rewrite length_alter|]; rewrite length_take; lia.
      - rewrite list_lookup_alter, !lookup_take.
        rewrite (decide_True (P:=k < S index)) by lia.
        destruct (decide (index = k)) as [<-|Hne]; [by rewrite decide_True by lia|].
        rewrite decide_True by lia. apply Hsame; [|done].
        rewrite elem_of_givers by done. rewrite (proj2 (Z.ltb_lt _ _)) by done. lia. }
    pose proof (total_alter (λ len, len + moved)%N index (take (S index) ls) x) as Ha. cbn beta in Ha.
    rewrite lookup_take, decide_True in Ha by lia. specialize (Ha Hx). lia.
  - destruct (lookup_lt_is_Some_2 ls (S index)) as [x Hx]; [lia|].
    assert (drop (S index) ls' = alter (λ len, len + moved)%N 0 (drop (S index) ls)) as Hdrop.
    { apply list_eq. intros k. rewrite list_lookup_alter, !lookup_drop.
      destruct (decide (0 = k)) as [<-|Hne]; [by rewrite Nat.add_0_r|]. apply Hsame; [|lia].
      rewrite elem_of_givers by done. rewrite (proj2 (Z.ltb_ge _ _)) by done. lia. }
    pose proof (total_alter (λ len, len + moved)%N 0 (drop (S index) ls) x) as Ha. cbn beta in Ha.
    rewrite lookup_drop, Nat.add_0_r in Ha. specialize (Ha Hx). rewrite <-Hdrop in Ha.
    rewrite (total_take_drop (S index) ls'), (total_take_drop (S index) ls) in Htot. lia.
Qed.

(** Weights that add up to the cells of the split are drawn as they are. *)
Lemma drawn_again r d n sizes rs ls' : fits r → ¬ empty_rect r → 0 < n → split_rects r d sizes n = Ok rs →
  length ls' = n → total_of ls' = total_of ((λ t, axis_length t d) <$> rs) →
  Forall (λ x, 1 ≤ x)%N ls' → Forall (λ x, x ≤ u16_max)%N ls' →
  ∃ rs', split_rects r d ls' n = Ok rs' ∧ (λ t, axis_length t d) <$> rs' = ls'.
Proof.
  intros Hf He Hn Hrs Hl Htot Hpos Hmax. unfold split_rects in Hrs. rewrite (proj2 (Nat.eqb_neq n 0)) in Hrs by lia.
  apply bind_Ok in Hrs as (ls & Hls & Hrs). apply place_rects_tiled in Hrs as [Hal _]. rewrite Hal in Htot.
  assert (axis_length r d ≤ u16_max)%N as Hax by (destruct Hf as [[? ?] _ _ _]; by destruct d).
  apply proportional_lengths_total in Hls as [Ht _]; [|lia|lia].
  assert (N.of_nat n ≤ total_of ls')%N as Hnt.
  { rewrite <-Hl. clear -Hpos. induction Hpos as [|x l Hx _ IH]; [done|]. rewrite total_of_cons. cbn [length]. lia. }
  destruct (split_rects_fit r d ls' n Hf He ltac:(lia) Hmax Hl) as (rs' & Hrs' & _).
  exists rs'. split; [exact Hrs'|]. unfold split_rects in Hrs'. rewrite (proj2 (Nat.eqb_neq n 0)) in Hrs' by lia.
  apply bind_Ok in Hrs' as (ls2 & Hls2 & Hrs'). apply place_rects_tiled in Hrs' as [-> _].
  rewrite <-Ht, <-Htot, <-Hl, proportional_lengths_same in Hls2 by lia. by injection Hls2.
Qed.

(** The lengths a split is drawn with. *)
Lemma drawn_lengths r d sizes n rs : fits r → split_rects r d sizes n = Ok rs →
  Forall (λ t, ¬ empty_rect t) rs → let ls := (λ t, axis_length t d) <$> rs in
  length ls = n ∧ Forall (λ x, 1 ≤ x)%N ls ∧ (total_of ls ≤ u16_max)%N.
Proof.
  intros Hf Hrs Hne. pose proof (split_rects_tiled r d sizes n rs ltac:(by destruct Hf) Hrs) as (Hn & _ & _).
  cbv zeta. split_and!; [by rewrite length_fmap|..].
  - apply Forall_fmap. eapply Forall_impl; [exact Hne|]. intros t Ht. unfold empty_rect in Ht.
    unfold compose. destruct d; simpl; lia.
  - unfold split_rects in Hrs. destruct (Nat.eqb_spec n 0) as [->|Hn0]; [by injection Hrs as <-|].
    apply bind_Ok in Hrs as (ls2 & Hls2 & Hrs). apply place_rects_tiled in Hrs as [-> _].
    assert (axis_length r d ≤ u16_max)%N by (destruct Hf as [[? ?] _ _ _]; by destruct d).
    apply proportional_lengths_total in Hls2 as [-> _]; lia.
Qed.

(** C25: Moving a divider by keys or the mouse, planned for a split as it is drawn with at
    least one cell for every pane (in a split too small for that, what is planned need
    not be what is drawn), takes cells from the panes on the shrinking side, nearest the
    divider first and none below its minimum, and gives them to the pane on the other
    side: the split keeps its length, the other panes theirs, and the divider moves by
    just that many cells. The weights sent draw exactly the lengths planned. Nothing is
    planned only when there is no such divider, no way to go, or nothing to take. *)
Theorem divider_moves_by_cells r d sizes n rs mins index delta :
  fits r → ¬ empty_rect r → split_rects r d sizes n = Ok rs → Forall (λ t, ¬ empty_rect t) rs →
  let ls := (λ t, axis_length t d) <$> rs in
  let ds := givers n index delta in
  let moved := N.min (cells_asked delta) (spare_of ls mins ds) in
  match move_divider ls mins index delta with
  | None => n ≤ S index ∨ delta = 0%Z ∨ moved = 0%N
  | Some ls' =>
      (0 < moved)%N ∧ length ls' = n ∧ total_of ls' = total_of ls
      ∧ (Z.of_N (total_of (take (S index) ls'))
         = Z.of_N (total_of (take (S index) ls)) + Z.sgn delta * Z.of_N moved)%Z
      ∧ ls' !! taker index delta = (λ len, len + moved)%N <$> ls !! taker index delta
      ∧ (∀ ds1 k ds2, ds = ds1 ++ k :: ds2 →
         ls' !! k = (λ len, len - N.min (cells_asked delta - spare_of ls mins ds1) (spare ls mins k))%N
                      <$> ls !! k)
      ∧ (∀ k, k ∉ ds → k ≠ taker index delta → ls' !! k = ls !! k)
      ∧ ∃ rs', split_rects r d ls' n = Ok rs' ∧ (λ t, axis_length t d) <$> rs' = ls'
  end.
Proof.
  intros Hf He Hrs Hne. destruct (drawn_lengths r d sizes n rs Hf Hrs Hne) as (Hl & Pos & Fit).
  cbv zeta. set (ls := (λ t, axis_length t d) <$> rs) in *.
  destruct (decide (n ≤ S index)) as [Hi|Hi].
  { unfold move_divider. rewrite (proj2 (Nat.leb_le _ _)) by lia. by left. }
  destruct (decide (delta = 0%Z)) as [->|Hd].
  { unfold move_divider. rewrite orb_true_r. auto. }
  destruct (move_divider_given ls mins index delta ltac:(lia) Hd) as (ls1 & rest & moved & G & ->).
  rewrite Hl in G. rewrite <-(gv_moved _ _ _ _ _ _ _ G).
  destruct (N.eqb_spec moved 0) as [Hm|Hm]; [auto|].
  assert (taker index delta ∉ givers n index delta) as Hout.
  { rewrite elem_of_givers by lia. unfold taker. destruct (0 <? delta)%Z; lia. }
  destruct (lookup_lt_is_Some_2 ls (taker index delta)) as [x Hx]; [unfold taker; case_match; lia|].
  destruct (received _ _ _ _ _ _ _ G Pos Fit _ x Hout Hx) as (-> & Htot & Hmax).
  set (ls' := alter _ _ ls1) in *.
  assert (∀ k, k ≠ taker index delta → ls' !! k = ls1 !! k) as Hsame
    by (intros k Hk; unfold ls'; by apply list_lookup_alter_ne).
  assert (length ls' = n) as Hl' by (unfold ls'; rewrite length_alter; by rewrite (gv_length _ _ _ _ _ _ _ G)).
  assert (ls' !! taker index delta = (λ len, len + moved)%N <$> ls !! taker index delta) as Htk.
  { unfold ls'. rewrite list_lookup_alter_eq. by rewrite (gv_same _ _ _ _ _ _ _ G _ Hout). }
  assert (∀ k, k ∉ givers n index delta → k ≠ taker index delta → ls' !! k = ls !! k) as Hkeep.
  { intros k Hk Hkt. rewrite Hsame by done. by apply (gv_same _ _ _ _ _ _ _ G). }
  split_and!; [lia|done|done| |done| |done|].
  - rewrite <-Hl in Hkeep. apply divider_moved; [lia|done|done|done|done|by rewrite Hl].
  - intros ds1 k ds2 Hds. rewrite Hsame; [by apply (gv_donor _ _ _ _ _ _ _ G ds1 k ds2)|].
    intros ->. apply Hout. rewrite Hds. apply elem_of_app. right. by left.
  - apply (drawn_again r d n sizes rs ls'); try done; [lia|].
    apply Forall_lookup. intros k y Hy. pose proof (given_positive _ _ _ _ _ _ _ G Pos Fit) as P1.
    rewrite Forall_lookup in P1. destruct (decide (k = taker index delta)) as [->|Hk].
    + rewrite Htk, Hx in Hy. simplify_eq/=. rewrite Forall_lookup in Pos. specialize (Pos _ _ Hx). cbn beta in Pos. lia.
    + rewrite Hsame in Hy by done. by apply (P1 k).
Qed.

(** Three panes side by side in 80 columns, the last divider pulled 30 cells left. *)
Lemma divider_moves_by_cells_witness :
  let r := mkRect (mkPoint 0 1) (mkSize 80 23) in
  ∃ rs, split_rects r Vertical [1; 1; 1]%N 3 = Ok rs
    ∧ (λ t, axis_length t Vertical) <$> rs = [26; 26; 26]%N
    ∧ move_divider [26; 26; 26]%N [1; 1; 1]%N 1 (-30) = Some [21; 1; 56]%N
    ∧ ∃ rs', split_rects r Vertical [21; 1; 56]%N 3 = Ok rs'
       ∧ (λ t, axis_length t Vertical) <$> rs' = [21; 1; 56]%N.
Proof.
  intros r. eexists. split; [vm_compute; reflexivity|]. split; [reflexivity|]. split; [reflexivity|].
  assert (fits r) as Hf by (split; [by split|simpl; lia..|by right]).
  pose proof (divider_moves_by_cells r Vertical [1; 1; 1]%N 3 _ [1; 1; 1]%N 1 (-30) Hf
    ltac:(by intros [?|?]) eq_refl ltac:(repeat constructor; by intros [?|?])) as Hm.
  exact (proj2 (proj2 (proj2 (proj2 (proj2 (proj2 (proj2 Hm))))))).
Defined.
