(* ===== verification/ClientTheorems.v ===== *)
(** What a client shows is what the server has: its copy of a session is the server's,
    it can always be drawn, and what is drawn does not overlap. *)

From S2P Require Import Prelude Core Model Environment State Queries Layout Protocol.
From S2P Require Import Snapshot ClientState Presentation Forest Invariant QueriesSpec.
From S2P Require Import FocusSpec Settle Surgery SnapshotSpec Keeps ClientSpec.
From S2P Require Import ProjectSpec DrawSpec.

Section dropped.
Context {st : ServerState} (H : consistent st) (Few : (node_ids st ≤ u32_modulus)%N).
Context {sid : SessionId} {s : Session} (Hs : sessions st !! sid = Some s).
Context {snap : SessionSnapshot} (E : session_snapshot st sid = Ok snap) {c : ClientState} (K : keyed c).
Let W : wired st := in_wired _ _ _ (cs_inv _ H).

(** The server still has [i] as a node of the session. *)
Definition still_there (i : N) : Prop := ∃ n, nodes st !! i = Some n ∧ node_session n = sid.
Lemma snapshot_ids : sr_id (ss_session snap) = sid
  ∧ (∀ i, i ∈ nr_id <$> ss_nodes snap ↔ still_there i)
  ∧ NoDup (br_id <$> ss_buffers snap)
  ∧ (∀ r, r ∈ ss_buffers snap → ∃ b, buffers st !! br_id r = Some b ∧ r = buffer_record b
       ∧ ∃ i, views st !! i = Some (sid, br_id r)).
Proof.
  destruct (session_snapshot_spec H sid s Few Hs) as (snap' & E' & Hss & Hns & _ & Hbs & Hbr & _).
  rewrite E in E'. injection E' as <-. split_and!.
  - rewrite Hss. exact (so_id _ _ _ (wi_session _ W _ _ Hs)).
  - intros i. by rewrite Hns, elem_of_set_to_sorted, elem_of_nodes_of.
  - rewrite Hbs. apply NoDup_set_to_sorted.
  - intros r Hr. destruct (Hbr r Hr) as (b & Hb & Er). exists b. split_and!; [done|done|].
    apply elem_of_buffers_of, elem_of_set_to_sorted. rewrite <-Hbs. by apply list_elem_of_fmap_2.
Qed.
Let c' := apply_session_snapshot snap c.

(** A pane that the session no longer has leaves nothing behind. *)
Lemma dropped_pane i : i ∈ client_session_node_ids c sid → ¬ still_there i →
  cl_nodes c' !! i = None ∧ cl_view_state c' !! i = None
  ∧ ∀ bid b, cl_buffers c' !! bid = Some b → br_attachment_node_id b ≠ Some i.
Proof.
  intros Hi Hgone. destruct snapshot_ids as (Hsid & Hns & Hd & Hbs).
  assert (i ∉ nr_id <$> ss_nodes snap) as Hout by by rewrite Hns. split_and!.
  - destruct (cl_nodes c' !! i) as [r|] eqn:Hr; [|done]. exfalso.
    destruct (decide (nr_session_id r = sid)) as [Hrs|Hrs].
    + apply Hout. apply (applied_nodes_of snap c i r Hr). by rewrite Hsid.
    + apply (applied_nodes_other snap c) in Hr; [|by rewrite Hsid|done].
      apply (elem_of_client_session c sid i K) in Hi as (n & Hn & ?). congruence.
  - apply applied_views_dropped; [by rewrite Hsid|done].
  - intros bid b Hb Ha. destruct (decide (bid ∈ br_id <$> ss_buffers snap)) as [Hin|Hin].
    + apply list_elem_of_fmap in Hin as (r & -> & Hr).
      pose proof (applied_buffer_in snap c r Hd Hr) as Hb'. fold c' in Hb'. rewrite Hb' in Hb. injection Hb as <-.
      destruct (Hbs r Hr) as (b0 & Hb0 & Er & j & Hj).
      assert (b_attachment b0 = Attached i) as Hat.
      { rewrite Er in Ha. unfold buffer_record in Ha. destruct (b_state b0), (b_kind b0); simpl in Ha;
          destruct (b_attachment b0); simpl in Ha; congruence. }
      apply views_Some in Hj as (v & Hv & Hvs & Hvb).
      destruct (at_view _ _ (in_attached _ _ _ (cs_inv _ H)) j v Hv (not_elem_of_empty _)) as (b1 & Hb1 & Hat1).
      rewrite Hvb, Hb0 in Hb1. injection Hb1 as <-. rewrite Hat in Hat1. injection Hat1 as ->.
      apply Hgone. by exists (BufferView v).
    + eapply (applied_buffer_other snap c K); [exact Hin|exact Hb|exact Ha|]. by rewrite Hsid.
Qed.
Lemma other_session_kept i r : nr_session_id r ≠ sid → ¬ still_there i →
  cl_nodes c' !! i = Some r ↔ cl_nodes c !! i = Some r.
Proof.
  intros Hr Hi. destruct snapshot_ids as (Hsid & Hns & _).
  apply applied_nodes_other; [by rewrite Hsid|by rewrite Hns].
Qed.
End dropped.

(** C22: Applying a session's snapshot makes the client's copy of it the server's, whatever
    the client had: the same nodes, with the buffers their panes show, a view for each
    pane and the session's popups. A pane the session no longer has is forgotten, with
    its view and what was attached to it; other sessions' nodes are as before. *)
Theorem session_is_copied st sid s :
  consistent st → (node_ids st ≤ u32_modulus)%N → sessions st !! sid = Some s →
  ∃ snap, session_snapshot st sid = Ok snap ∧ ∀ c, keyed c →
  let c' := apply_session_snapshot snap c in
  mirrors st sid s c' ∧ keyed c'
  ∧ (∀ i, i ∈ client_session_node_ids c sid → ¬ still_there (st:=st) (sid:=sid) i →
     cl_nodes c' !! i = None ∧ cl_view_state c' !! i = None
     ∧ ∀ bid b, cl_buffers c' !! bid = Some b → br_attachment_node_id b ≠ Some i)
  ∧ (∀ i r, nr_session_id r ≠ sid → ¬ still_there (st:=st) (sid:=sid) i →
     cl_nodes c' !! i = Some r ↔ cl_nodes c !! i = Some r).
Proof.
  intros H Few Hs. destruct (session_snapshot_spec H sid s Few Hs) as (snap & E & _).
  exists snap. split; [exact E|]. intros c K. cbv zeta. split_and!.
  - exact (snapshot_mirrors H Few sid s Hs snap c K E).
  - exact (applied_keyed snap c K).
  - exact (dropped_pane H Few Hs E K).
  - exact (other_session_kept H Few Hs E).
Qed.

(** The demo session, copied by a client that had nothing. *)
Lemma demo_session : is_Some (sessions demo !! 1%N).
Proof. vm_compute. eauto. Qed.
Lemma default_keyed : keyed ClientState_default.
Proof. split; intros i x Hx; cbn in Hx; by rewrite lookup_empty in Hx. Qed.
Definition demo_copy : ClientState :=
  match session_snapshot demo 1%N with
  | Ok snap => apply_session_snapshot snap ClientState_default
  | _ => ClientState_default
  end.
Lemma session_is_copied_witness :
  ∃ s, sessions demo !! 1%N = Some s ∧ mirrors demo 1%N s demo_copy.
Proof.
  destruct demo_session as [s Hs]. exists s. split; [exact Hs|].
  destruct (session_is_copied demo 1%N s demo_consistent ltac:(rewrite demo_nodes_used; done) Hs)
    as (snap & E & Hc).
  unfold demo_copy. rewrite E. exact (proj1 (Hc ClientState_default default_keyed)).
Defined.


(** C24: What a client draws does not overlap: in each popup, and outside them, panes and
    tab bars lie inside the screen and apart from one another. No pane is empty, and
    each is its title row, where it has one, beside its content. A popup lies inside
    the screen with its content, and the panes in it, inside that. *)
Theorem projected_panes_tile c sid s viewport layout m :
  cl_sessions c !! sid = Some s → NoDup (sr_floating_ids s) →
  (∀ fid w, cl_floating c !! fid = Some w → fr_id w = fid) →
  (width viewport ≤ u16_max)%N → (height viewport ≤ u16_max)%N →
  project_with c sid viewport layout = Ok m →
  let screen := mkRect (mkPoint 0 0) viewport in
  (∀ fl, tiled screen (tiles_of fl (pm_leaves m) (pm_tab_bars m)))
  ∧ Forall (λ l, ¬ empty_rect (lf_rect l)
                 ∧ leaf_parts (lf_rect l) (lf_content_rect l) (lf_title_rect l)) (pm_leaves m)
  ∧ Forall (popup_frame_ok screen) (pm_floating m)
  ∧ ∀ l fid, l ∈ pm_leaves m → lf_floating_id l = Some fid →
      ∃ f, f ∈ pm_floating m ∧ ff_floating_id f = fid ∧ inside (lf_rect l) (ff_content_rect f).
Proof.
  intros Hs Hd Hk Hw Hh Hm. unfold project_with in Hm. rewrite Hs in Hm. cbn [ok_or mbind outcome_bind] in Hm.
  apply bind_Ok in Hm as (p & Hp & [= <-]). cbv zeta. cbn [pm_leaves pm_tab_bars pm_floating].
  destruct (session_drawn c s layout (mkRect (mkPoint 0 0) viewport) ltac:(by split) p Hk Hd Hp)
    as (seen & [T L _ P I]). split_and!; [exact T| |exact P|exact I].
  eapply Forall_impl; [exact L|]. intros l [(_ & ? & ?) _]. by split.
Qed.
(** The demo session with its first window in front, on a terminal of 80 by 24. *)
Definition front_copy : ClientState :=
  match session_snapshot (switch_tab 1 0 demo).2 1%N with
  | Ok snap => apply_session_snapshot snap ClientState_default
  | _ => ClientState_default
  end.
Definition front_model : PresentationModel :=
  match project front_copy 1%N (mkSize 80 24) with
  | Ok m => m
  | _ => mkPresentationModel 1 (mkSize 80 24) None [] [] [] [] []
  end.
Lemma projected_panes_tile_witness :
  (length (pm_leaves front_model) = 3 ∧ length (pm_floating front_model) = 1)
  ∧ ∀ fl, tiled (mkRect (mkPoint 0 0) (mkSize 80 24)) (tiles_of fl (pm_leaves front_model) (pm_tab_bars front_model)).
Proof.
  split; [vm_compute; by split|].
  assert (∃ s, cl_sessions front_copy !! 1%N = Some s ∧ NoDup (sr_floating_ids s)) as (s & Hs & Hd).
  { eexists. split; [vm_compute; reflexivity|]. eapply bool_decide_unpack. vm_compute. exact I. }
  assert (map_Forall (λ fid w, fr_id w = fid) (cl_floating front_copy)) as Hk.
  { eapply bool_decide_unpack. vm_compute. exact I. }
  assert (project_with front_copy 1%N (mkSize 80 24) LayoutOptions_default = Ok front_model) as Hm
    by (vm_compute; reflexivity).
  exact (proj1 (projected_panes_tile front_copy 1%N s (mkSize 80 24) LayoutOptions_default front_model
    Hs Hd Hk ltac:(done) ltac:(done) Hm)).
Defined.
