(* ===== verification/Pickers.v ===== *)
(** Picking things on the screen: the numbers of windows ([crates/embers-client/src/numbering.rs]),
    labels to jump to links and paths ([hints.rs]), and the tree of sessions, windows and panes
    ([chooser.rs], with [handle_chooser_key] of [configured_client.rs]), and the formats that
    name them ([format.rs]). With what picking relies on: labels are told apart by what is
    typed, matches shown do not overlap, a filtered tree shows what matches with what is above
    it, and a format names the window a pane is in. *)

From S2P Require Import Prelude Core Model Environment State Queries Protocol Snapshot.
From S2P Require Import ClientState Presentation Keys Prompt Forest Invariant QueriesSpec.
From S2P Require Import FocusSpec Settle Keeps SnapshotSpec ClientSpec DrawSpec ClientTheorems.

(** ** Numbers of windows *)

Definition MAX_BASE_INDEX : N := 1000000.
Definition parse_base_index (value : rstring) : option N :=
  n ← parse_u32 (trim value);
  if (n <=? MAX_BASE_INDEX)%N then Some n else None.
(** [base_index_from_env]: the value of [EMBERS_BASE_INDEX], if it is set. *)
Definition base_index_from_env (var : option rstring) : option N := var ≫= parse_base_index.
Definition window_number (position : nat) (base_index : option N) : N :=
  (N.of_nat position + default 0 base_index)%N.
Definition window_position (number : N) (count : nat) (base_index : N) : option nat :=
  if (number <? base_index)%N then None
  else
    let position := N.to_nat (number - base_index) in
    if position <? count then Some position else None.

(** ** Hints *)

Definition HINT_ALPHABET : rstring := lit "asdfghjkl;qwertyuiopzxcvbnm".
Definition assign_labels (count : nat) : list rstring :=
  let n := length HINT_ALPHABET in
  if count <=? n then (λ ch, [ch]) <$> take count HINT_ALPHABET
  else
    (* Pairs in order, until there are [count] of them. *)
    take count (concat ((λ first, (λ second, [first; second]) <$> HINT_ALPHABET) <$> HINT_ALPHABET)).

(** A match, from the character where it starts to where it ends. *)
Definition Span : Type := nat * nat.
(** Earliest start first, then latest end. *)
Definition span_le (a b : Span) : Prop := a.1 < b.1 ∨ (a.1 = b.1 ∧ b.2 ≤ a.2).
#[export] Instance span_le_dec : RelDecision span_le.
Proof. intros a b. unfold span_le. apply _. Defined.
(** Left to right, without those that overlap the last one kept. *)
Definition keep_span (kept : list Span) (s : Span) : list Span :=
  match last kept with
  | Some k => if s.1 <? k.2 then kept else kept ++ [s]
  | None => kept ++ [s]
  end.
Definition kept_spans (spans : list Span) : list Span := foldl keep_span [] (merge_sort span_le spans).
Definition slice (s : rstring) (span : Span) : rstring := take (span.2 - span.1) (drop span.1 s).

Section scan.
(** The crates [regex] and [unicode_width]. *)
Context (patterns : list (rstring → list Span)) (str_width : rstring → N).
Definition line_spans (text : rstring) : list Span :=
  kept_spans (concat ((λ find_iter, find_iter text) <$> patterns)).
Record Found : Type := mkFound { fd_line : N; fd_start : N; fd_end : N; fd_text : rstring }.
Definition line_found (line : N) (text : rstring) : list Found :=
  (λ s : Span,
     let start_col := str_width (take s.1 text) in
     let end_col := (start_col + str_width (slice text s))%N in
     mkFound line (N.min start_col u16_max) (N.min end_col u16_max) (slice text s)) <$> line_spans text.
Definition all_found (lines : list rstring) (top_line : N) : list Found :=
  concat (imap (λ row text, line_found (sat_add64 top_line (N.of_nat row)) text) lines).
Definition scan (lines : list rstring) (top_line : N) : outcome (list HintMatch) :=
  let spans := all_found lines top_line in
  let labels := assign_labels (length spans) in
  let shown := drop (length spans - length labels) spans in
  collect (λ e : nat * Found,
    if length labels <? 1 + e.1 then Panic
    else
      label ← vec_index (length labels - 1 - e.1) labels;
      Ok (mkHintMatch label (fd_text e.2) (fd_line e.2) (fd_start e.2) (fd_end e.2)))
    (imap pair shown).
End scan.

(** ** The tree *)

Inductive ChooserScope : Set := ScopeTree | ScopeWindows | ScopeSessions.
Inductive ChooserItem : Set :=
  | CiSession (session_id : SessionId)
  | CiWindow (session_id : SessionId) (node_id : NodeId)
  | CiPane (session_id : SessionId) (node_id : NodeId).
#[export] Instance ChooserItem_eq_dec : EqDecision ChooserItem.
Proof. solve_decision. Defined.
Definition ci_session_id (i : ChooserItem) : SessionId :=
  match i with CiSession sid | CiWindow sid _ | CiPane sid _ => sid end.
Definition ci_kind (i : ChooserItem) : rstring :=
  match i with CiSession _ => lit "session" | CiWindow _ _ => lit "window" | CiPane _ _ => lit "pane" end.

Definition root_tabs_of (c : ClientState) (root_id : NodeId) : option TabsRecord :=
  root ← cl_nodes c !! root_id;
  match nr_kind root with NkTabs => nr_tabs root | _ => None end.
Definition chooser_window_position (c : ClientState) (sid : SessionId) (window_id : NodeId) : option nat :=
  session ← cl_sessions c !! sid;
  tabs ← root_tabs_of c (sr_root_node_id session);
  position (λ tab, tr_child_id tab =? window_id)%N (tsr_tabs tabs).
Definition ci_exists (c : ClientState) (i : ChooserItem) : bool :=
  match i with
  | CiSession sid => bool_decide (is_Some (cl_sessions c !! sid))
  | CiWindow sid window_id => bool_decide (is_Some (chooser_window_position c sid window_id))
  | CiPane sid node_id =>
      match cl_nodes c !! node_id with
      | Some n => (nr_session_id n =? sid)%N && match nr_kind n with NkBufferView => true | _ => false end
      | None => false
      end
  end.

Record ChooserRow : Type := mkChooserRow {
  row_item : ChooserItem;
  row_depth : nat;
  row_label : rstring;
  row_has_children : bool;
  row_expanded : bool;
  row_current : bool
}.
Definition row_set_expanded (expanded : bool) (r : ChooserRow) : ChooserRow :=
  mkChooserRow (row_item r) (row_depth r) (row_label r) (row_has_children r) expanded (row_current r).
Inductive TreeNode : Type := mkTreeNode (row : ChooserRow) (children : list TreeNode).
Definition tn_row (n : TreeNode) : ChooserRow := match n with mkTreeNode row _ => row end.
Definition tn_children (n : TreeNode) : list TreeNode := match n with mkTreeNode _ children => children end.

Section tree.
Context (c : ClientState).

(** The panes under a node; the source pushes them onto a vector. *)
Fixpoint collect_leaves (fuel : nat) (id : NodeId) : outcome (list NodeId) :=
  match fuel with
  | 0 => OutOfFuel
  | S fuel =>
      match cl_nodes c !! id with
      | None => Ok []
      | Some n =>
          let below children := ls ← collect (collect_leaves fuel) children; Ok (concat ls) in
          match nr_kind n with
          | NkBufferView => Ok [id]
          | NkSplit => below (from_option spr_child_ids [] (nr_split n))
          | NkTabs => below (tr_child_id <$> from_option tsr_tabs [] (nr_tabs n))
          end
      end
  end.
Definition pane_label (leaf_id : NodeId) : rstring :=
  match (n ← cl_nodes c !! leaf_id; view ← nr_buffer_view n; cl_buffers c !! bv_buffer_id view) with
  | Some b =>
      decimal leaf_id ++ lit ": " ++ br_title b ++ lit " [" ++ default [] (process_name b) ++ lit "]"
  | None => decimal leaf_id
  end.
Definition plural (count : nat) : rstring := if count =? 1 then [] else lit "s".
Definition window_node (sid : SessionId) (position : nat) (title : rstring) (child_id : NodeId)
    (is_current : bool) (focused_leaf : option NodeId) (base_index : option N) : outcome TreeNode :=
  leaves ← collect_leaves (client_budget c) child_id;
  let panes :=
    (λ leaf_id, mkTreeNode
       (mkChooserRow (CiPane sid leaf_id) 2 (pane_label leaf_id) false false
          (is_current && bool_decide (focused_leaf = Some leaf_id))) []) <$> leaves in
  let count := length panes in
  Ok (mkTreeNode
    (mkChooserRow (CiWindow sid child_id) 1
       (decimal (window_number position base_index) ++ lit ": " ++ title ++ lit " (" ++
        decimal (N.of_nat count) ++ lit " pane" ++ plural count ++ lit ")")
       (0 <? count) false is_current) panes).
Definition session_tree (current_session : option SessionId) (base_index : option N) (s : SessionRecord)
    : outcome TreeNode :=
  let is_current_session := bool_decide (current_session = Some (sr_id s)) in
  windows ←
    match root_tabs_of c (sr_root_node_id s) with
    | Some tabs =>
        collect (λ e : nat * TabRecord,
            window_node (sr_id s) e.1 (tr_title e.2) (tr_child_id e.2)
              (is_current_session && (N.of_nat e.1 =? tsr_active tabs)%N) (sr_focused_leaf_id s) base_index)
          (imap pair (tsr_tabs tabs))
    | None => Ok []
    end;
  let count := length windows in
  Ok (mkTreeNode
    (mkChooserRow (CiSession (sr_id s)) 0
       (sr_name s ++ lit ": " ++ decimal (N.of_nat count) ++ lit " window" ++ plural count)
       (0 <? count) false is_current_session) windows).
Definition build_tree (current_session : option SessionId) (base_index : option N) : outcome (list TreeNode) :=
  collect (session_tree current_session base_index) (values_of (cl_sessions c)).
End tree.

(** ** The picker *)

Record Chooser : Type := mkChooser {
  ch_scope : ChooserScope;
  ch_expanded : list ChooserItem;
  ch_selected : option ChooserItem;
  ch_filter : rstring;
  ch_editing_filter : bool;
  ch_confirm_kill : option ChooserItem;
  ch_scroll : nat;
  ch_return_mode : rstring
}.
Definition ch_set_expanded (items : list ChooserItem) (h : Chooser) : Chooser :=
  mkChooser (ch_scope h) items (ch_selected h) (ch_filter h) (ch_editing_filter h) (ch_confirm_kill h)
    (ch_scroll h) (ch_return_mode h).
Definition ch_set_selected (item : option ChooserItem) (h : Chooser) : Chooser :=
  mkChooser (ch_scope h) (ch_expanded h) item (ch_filter h) (ch_editing_filter h) (ch_confirm_kill h)
    (ch_scroll h) (ch_return_mode h).
Definition ch_set_filter (filter : rstring) (editing : bool) (h : Chooser) : Chooser :=
  mkChooser (ch_scope h) (ch_expanded h) (ch_selected h) filter editing (ch_confirm_kill h)
    (ch_scroll h) (ch_return_mode h).
Definition ch_set_confirm_kill (item : option ChooserItem) (h : Chooser) : Chooser :=
  mkChooser (ch_scope h) (ch_expanded h) (ch_selected h) (ch_filter h) (ch_editing_filter h) item
    (ch_scroll h) (ch_return_mode h).
Definition ch_set_scroll (scroll : nat) (h : Chooser) : Chooser :=
  mkChooser (ch_scope h) (ch_expanded h) (ch_selected h) (ch_filter h) (ch_editing_filter h)
    (ch_confirm_kill h) scroll (ch_return_mode h).

Fixpoint flatten (expanded : list ChooserItem) (n : TreeNode) : list ChooserRow :=
  match n with
  | mkTreeNode row children =>
      let shown := bool_decide (row_item row ∈ expanded) in
      row_set_expanded (shown && row_has_children row) row
        :: (if shown then concat (map (flatten expanded) children) else [])
  end.

Section picker.
(** [str::to_lowercase]: the lower case of Unicode. *)
Context (to_lowercase : rstring → rstring).

(** [haystack.contains(needle)] *)
Fixpoint contains (needle haystack : rstring) : bool :=
  bool_decide (take (length needle) haystack = needle) ||
  match haystack with [] => false | _ :: rest => contains needle rest end.
Definition row_matches (filter : rstring) (r : ChooserRow) : bool :=
  contains filter (to_lowercase (row_label r)).
(** Whether the node or one below matches, and its rows. *)
Fixpoint flatten_matching (filter : rstring) (n : TreeNode) : bool * list ChooserRow :=
  match n with
  | mkTreeNode row children =>
      let below := map (flatten_matching filter) children in
      let child_matches := existsb fst below in
      if negb (row_matches filter row) && negb child_matches then (false, [])
      else (true, row_set_expanded child_matches row :: concat (map snd below))
  end.
Definition chooser_rows (c : ClientState) (current_session : option SessionId) (base_index : option N)
    (h : Chooser) : outcome (list ChooserRow) :=
  tree ← build_tree c current_session base_index;
  let filter := to_lowercase (ch_filter h) in
  Ok (match filter with
      | [] => concat (map (flatten (ch_expanded h)) tree)
      | _ => concat (map (λ n, (flatten_matching filter n).2) tree)
      end).

(** [iter().max_by_key(key)]: the last of the largest. *)
Definition max_by_key {A} (key : A → nat) (l : list A) : option A :=
  foldl (λ best x, match best with
                   | Some b => if key b <=? key x then Some x else best
                   | None => Some x
                   end) None l.
Definition Chooser_open (scope : ChooserScope) (c : ClientState) (current_session : option SessionId)
    (base_index : option N) (return_mode : rstring) : outcome Chooser :=
  tree ← build_tree c current_session base_index;
  let expanded :=
    concat ((λ session,
      match scope with
      | ScopeSessions => []
      | ScopeWindows => [row_item (tn_row session)]
      | ScopeTree => row_item (tn_row session) :: ((λ w, row_item (tn_row w)) <$> tn_children session)
      end) <$> tree) in
  let h := mkChooser scope expanded None [] false None 0 return_mode in
  rows ← chooser_rows c current_session base_index h;
  Ok (ch_set_selected (row_item <$> max_by_key row_depth (base.filter (λ r, row_current r = true) rows)) h).

Definition selected_index (rows : list ChooserRow) (h : Chooser) : option nat :=
  match rows with
  | [] => None
  | _ => Some (default 0 (item ← ch_selected h; position (λ r, bool_decide (row_item r = item)) rows))
  end.
Definition chooser_selected (rows : list ChooserRow) (h : Chooser) : outcome (option ChooserItem) :=
  match selected_index rows h with
  | None => Ok None
  | Some index => r ← vec_index index rows; Ok (Some (row_item r))
  end.
Definition chooser_target (c : ClientState) (rows : list ChooserRow) (h : Chooser)
    : outcome (option ChooserItem) :=
  match ch_selected h with
  | Some item => if negb (ci_exists c item) then Ok (Some item) else chooser_selected rows h
  | None => chooser_selected rows h
  end.
Definition move_by (rows : list ChooserRow) (delta : Z) (h : Chooser) : outcome Chooser :=
  match selected_index rows h with
  | None => Ok h
  | Some index =>
      let last := (Z.of_nat (length rows) - 1)%Z in
      let next := Z.to_nat (Z.max 0 (Z.min last (Z.of_nat index + delta))) in
      r ← vec_index next rows;
      Ok (ch_set_selected (Some (row_item r)) h)
  end.
Definition select_first (rows : list ChooserRow) (h : Chooser) : Chooser :=
  ch_set_selected (row_item <$> head rows) h.
Definition select_last (rows : list ChooserRow) (h : Chooser) : Chooser :=
  ch_set_selected (row_item <$> last rows) h.
Definition chooser_expand (rows : list ChooserRow) (h : Chooser) : outcome Chooser :=
  match selected_index rows h with
  | None => Ok h
  | Some index =>
      row ← vec_index index rows;
      if negb (row_has_children row) then Ok h
      else if row_expanded row then move_by rows 1 h
      else Ok (ch_set_expanded (row_item row :: ch_expanded h) h)
  end.
Definition chooser_collapse (rows : list ChooserRow) (h : Chooser) : outcome Chooser :=
  match selected_index rows h with
  | None => Ok h
  | Some index =>
      row ← vec_index index rows;
      if row_expanded row
      then Ok (ch_set_expanded (base.filter (λ i, i ≠ row_item row) (ch_expanded h)) h)
      else
        match find_first (λ r, row_depth r <? row_depth row) (reverse (take index rows)) with
        | Some parent => Ok (ch_set_selected (Some (row_item parent)) h)
        | None => Ok h
        end
  end.
(** What drawing does to the picker: the selection is scrolled into view. *)
Definition chooser_scroll (list_height : nat) (rows : list ChooserRow) (h : Chooser) : Chooser :=
  let scroll :=
    match selected_index rows h with
    | Some selected =>
        if selected <? ch_scroll h then selected
        else if ch_scroll h + list_height <=? selected then selected + 1 - list_height
        else ch_scroll h
    | None => ch_scroll h
    end in
  ch_set_scroll (Nat.min scroll (length rows - list_height)) h.
Definition chooser_area (viewport : Size) : Rect :=
  let w := N.min (N.max (sat_mul16 (width viewport) 4 / 5) (N.min (width viewport) 40)) (width viewport) in
  let h := N.min (N.max (sat_mul16 (height viewport) 4 / 5) (N.min (height viewport) 10)) (height viewport) in
  mkRect (mkPoint (Z.of_N ((width viewport - w) / 2)) (Z.of_N ((height viewport - h) / 2))) (mkSize w h).
End picker.

(** ** Keys of the picker *)

(** What a key asks of the client: nothing, to kill an item, to say that one is gone, or to
    switch to one, which [choose_item] looks up again. *)
Inductive ChooserEffect : Type :=
  | CeNone | CeKill (item : ChooserItem) | CeGone (item : ChooserItem) | CeChoose (item : ChooserItem).
(** The picker after a key, if still open, and the mode of keys if it closed. *)
Record ChooserAfter : Type := mkChooserAfter {
  ca_chooser : option Chooser; ca_mode : option rstring; ca_effect : ChooserEffect }.

Section keys.
Context (to_lowercase : rstring → rstring) (c : ClientState).
Context (current_session : option SessionId) (base_index : option N) (viewport : Size).

Definition keeps_open (h : Chooser) : ChooserAfter := mkChooserAfter (Some h) None CeNone.
Definition closes (h : Chooser) (e : ChooserEffect) : ChooserAfter :=
  mkChooserAfter None (Some (ch_return_mode h)) e.
Definition push_filter (text : rstring) (editing : bool) (h : Chooser) : Chooser :=
  ch_set_filter (ch_filter h ++ text) editing h.
Definition moved (rows : list ChooserRow) (delta : Z) (h : Chooser) : outcome ChooserAfter :=
  h ← move_by rows delta h; Ok (keeps_open h).
Definition filter_key (rows : list ChooserRow) (key : KeyEvent) (h : Chooser) : outcome ChooserAfter :=
  let backspace :=
    match ch_filter h with
    | [] => ch_set_filter [] false h
    | f => ch_set_filter (removelast f) true h
    end in
  match key with
  | EChar ch => Ok (keeps_open (push_filter [ch] true h))
  | EBytes bytes => Ok (keeps_open (push_filter (from_utf8_lossy bytes) true h))
  | EBackspace => Ok (keeps_open backspace)
  | EEscape => Ok (keeps_open (ch_set_filter [] false h))
  | EUp => moved rows (-1) h
  | EDown => moved rows 1 h
  | EEnter | ETab => Ok (keeps_open (ch_set_filter (ch_filter h) false h))
  | ECtrl ch =>
      Ok (keeps_open (if (ch =? 104)%N then backspace else if (ch =? 117)%N then ch_set_filter [] true h else h))
  | _ => Ok (keeps_open h)
  end.
Definition picker_key (rows : list ChooserRow) (key : KeyEvent) (h : Chooser) : outcome ChooserAfter :=
  let page := Z.of_N (N.max (height (size_ (chooser_area viewport)) - 3) 1) in
  let expand := h ← chooser_expand rows h; Ok (keeps_open h) in
  let collapse := h ← chooser_collapse rows h; Ok (keeps_open h) in
  let kill :=
    item ← chooser_target c rows h;
    Ok (match item with
        | Some item =>
            if negb (ci_exists c item) then mkChooserAfter (Some h) None (CeGone item)
            else keeps_open (ch_set_confirm_kill (Some item) h)
        | None => keeps_open (ch_set_confirm_kill None h)
        end) in
  match key with
  | EDown => moved rows 1 h
  | EUp => moved rows (-1) h
  | EPageDown => moved rows page h
  | EPageUp => moved rows (- page) h
  | EHome => Ok (keeps_open (select_first rows h))
  | EEnd => Ok (keeps_open (select_last rows h))
  | ERight => expand
  | ELeft => collapse
  | EEscape =>
      Ok (match ch_filter h with [] => closes h CeNone | _ => keeps_open (ch_set_filter [] (ch_editing_filter h) h) end)
  | EEnter =>
      item ← chooser_target c rows h;
      Ok (closes h (match item with
                    | Some item => if ci_exists c item then CeChoose item else CeGone item
                    | None => CeNone
                    end))
  | ECtrl ch =>
      match ch with
      | 110 => moved rows 1 h
      | 112 => moved rows (-1) h
      | 100 => moved rows page h
      | 117 => moved rows (- page) h
      | 99 => Ok (closes h CeNone)
      | _ => Ok (keeps_open h)
      end%N
  | EChar ch =>
      match ch with
      | 106 => moved rows 1 h
      | 107 => moved rows (-1) h
      | 103 => Ok (keeps_open (select_first rows h))
      | 71 => Ok (keeps_open (select_last rows h))
      | 108 | 43 => expand
      | 104 | 45 => collapse
      | 47 => Ok (keeps_open (ch_set_filter (ch_filter h) true h))
      | 120 => kill
      | 113 => Ok (closes h CeNone)
      | _ => Ok (keeps_open (if is_control ch then h else push_filter [ch] true h))
      end%N
  | _ => Ok (keeps_open h)
  end.
Definition handle_chooser_key (key : KeyEvent) (h : Chooser) : outcome ChooserAfter :=
  rows ← chooser_rows to_lowercase c current_session base_index h;
  match ch_confirm_kill h with
  | Some item =>
      let h := ch_set_confirm_kill None h in
      Ok (match key with
          | EChar 121 | EChar 89 =>
              mkChooserAfter (Some h) None (if ci_exists c item then CeKill item else CeGone item)
          | _ => keeps_open h
          end%N)
  | None => if ch_editing_filter h then filter_key rows key h else picker_key rows key h
  end.
End keys.

(** ** Labels *)

Definition label_pairs : list rstring :=
  concat ((λ first, (λ second, [first; second]) <$> HINT_ALPHABET) <$> HINT_ALPHABET).
Definition label_capacity : nat := 729.
Lemma label_pairs_ok :
  NoDup label_pairs ∧ NoDup ((λ ch, [ch]) <$> HINT_ALPHABET) ∧ length label_pairs = label_capacity
  ∧ length HINT_ALPHABET = 27 ∧ Forall (λ l, length l = 2) label_pairs.
Proof. split_and!; try (vm_compute; reflexivity); eapply bool_decide_unpack; vm_compute; exact I. Qed.
Lemma assign_labels_spec count :
  NoDup (assign_labels count) ∧ length (assign_labels count) = Nat.min count label_capacity
  ∧ ∃ n, Forall (λ l, length l = n) (assign_labels count).
Proof.
  destruct label_pairs_ok as (Hpairs & Hones & Hlen & Halpha & Htwo). unfold assign_labels. rewrite Halpha.
  fold label_pairs. destruct (Nat.leb_spec count 27) as [Hle|Hgt].
  - rewrite fmap_take. split_and!.
    + eapply sublist_NoDup; [exact Hones|]. apply sublist_take.
    + rewrite length_take, length_fmap, Halpha. unfold label_capacity. lia.
    + exists 1. apply Forall_take, Forall_fmap, Forall_true. done.
  - split_and!.
    + eapply sublist_NoDup; [exact Hpairs|]. apply sublist_take.
    + by rewrite length_take, Hlen.
    + exists 2. by apply Forall_take.
Qed.

(** ** Matches shown *)

(** Each ends before the later ones start. *)
Definition apart_spans (l : list Span) : Prop :=
  ∀ i j a b, i < j → l !! i = Some a → l !! j = Some b → a.2 ≤ b.1.
Definition covered (kept : list Span) (s : Span) : Prop := s ∈ kept ∨ ∃ k, k ∈ kept ∧ k.1 ≤ s.1 < k.2.
#[local] Instance span_le_trans : Transitive span_le.
Proof. intros a b d. unfold span_le. lia. Qed.
#[local] Instance span_le_total : Total span_le.
Proof. intros a b. unfold span_le. lia. Qed.

Lemma apart_last l k a : apart_spans l → last l = Some k → a ∈ l → a = k ∨ a.2 ≤ k.1.
Proof.
  intros Hl Hk [i Hi]%list_elem_of_lookup. rewrite last_lookup in Hk.
  destruct (decide (i = pred (length l))) as [->|]; [left; congruence|right].
  apply (Hl i (pred (length l))); [|done|done]. apply lookup_lt_Some in Hi. lia.
Qed.
Lemma apart_snoc l s : apart_spans l → (∀ a, a ∈ l → a.2 ≤ s.1) → apart_spans (l ++ [s]).
Proof.
  intros Hl Hs i j a b Hij Ha Hb. apply lookup_app_Some in Hb as [Hb|[Hge Hb]].
  - apply (Hl i j); [done| |done]. apply lookup_lt_Some in Hb. by rewrite lookup_app_l in Ha by lia.
  - apply list_lookup_singleton_Some in Hb as [Hz <-]. apply Hs. rewrite lookup_app_l in Ha by lia.
    by eapply list_elem_of_lookup_2.
Qed.
Lemma keep_spans_spec l acc :
  StronglySorted span_le l → Forall (λ s, s.1 ≤ s.2) (acc ++ l) → apart_spans acc →
  (∀ a s, a ∈ acc → s ∈ l → a.1 ≤ s.1) →
  let kept := foldl keep_span acc l in
  apart_spans kept ∧ (∀ s, s ∈ kept → s ∈ acc ∨ s ∈ l) ∧ (∀ s, s ∈ acc → s ∈ kept)
  ∧ ∀ s, s ∈ l → covered kept s.
Proof.
  cbv zeta. revert acc. induction l as [|s l IH]; intros acc Hs Hwf Hap Hbefore.
  { split_and!; [done|by left|done|by intros s ?%elem_of_nil]. }
  apply StronglySorted_inv in Hs as [Hs Hle]. cbn [foldl].
  assert (∀ t, t ∈ l → s.1 ≤ t.1) as Hst.
  { intros t Ht. rewrite Forall_forall in Hle. destruct (Hle t Ht); lia. }
  assert (keep_span acc s = acc ++ [s] ∧ (∀ a, a ∈ acc → a.2 ≤ s.1)
    ∨ keep_span acc s = acc ∧ ∃ k, k ∈ acc ∧ k.1 ≤ s.1 < k.2) as [[-> Hafter]|[-> (k & Hk & Hks)]].
  { unfold keep_span. destruct (last acc) as [k|] eqn:Hl.
    - pose proof (last_Some_elem_of _ _ Hl) as Hk. destruct (Nat.ltb_spec s.1 k.2) as [Hlt|Hge].
      + right. split; [done|]. exists k. split; [done|]. split; [|done]. apply Hbefore; [done|by left].
      + left. split; [done|]. intros a Ha. destruct (apart_last acc k a Hap Hl Ha) as [->|]; [done|].
        assert (k.1 ≤ k.2); [|lia]. rewrite Forall_forall in Hwf. apply Hwf. apply elem_of_app. by left.
    - left. split; [done|]. apply last_None in Hl as ->. by intros a ?%elem_of_nil. }
  - destruct (IH (acc ++ [s])) as (H1 & H2 & H3 & H4); [done|by rewrite <-app_assoc|by apply apart_snoc| |].
    { intros a t Ha Ht. apply elem_of_app in Ha as [Ha|Ha%list_elem_of_singleton]; [|subst a; by apply Hst].
      apply Hbefore; [done|by right]. }
    assert (s ∈ foldl keep_span (acc ++ [s]) l) by (apply H3, elem_of_app; right; by apply list_elem_of_singleton).
    split_and!; [done| | |].
    + intros t Ht. rewrite elem_of_cons. destruct (H2 t Ht) as [[?|?%list_elem_of_singleton]%elem_of_app|?]; auto.
    + intros t Ht. apply H3, elem_of_app. by left.
    + intros t [->|Ht]%elem_of_cons; [by left|by apply H4].
  - destruct (IH acc) as (H1 & H2 & H3 & H4); [done| |done| |].
    { apply Forall_app in Hwf as [? [_ ?]%Forall_cons]. by apply Forall_app. }
    { intros a t Ha Ht. apply Hbefore; [done|by right]. }
    split_and!; [done| |done|].
    + intros t Ht. rewrite elem_of_cons. destruct (H2 t Ht); auto.
    + intros t [->|Ht]%elem_of_cons; [|by apply H4]. right. exists k. split; [by apply H3|done].
Qed.
Lemma kept_spans_spec spans :
  Forall (λ s, s.1 ≤ s.2) spans →
  apart_spans (kept_spans spans) ∧ (∀ s, s ∈ kept_spans spans → s ∈ spans)
  ∧ ∀ s, s ∈ spans → covered (kept_spans spans) s.
Proof.
  intros Hwf. pose proof (merge_sort_Permutation span_le spans) as Hp.
  destruct (keep_spans_spec (merge_sort span_le spans) []) as (H1 & H2 & _ & H4).
  - apply StronglySorted_merge_sort; apply _.
  - cbn. by rewrite Hp.
  - by intros i j a b _ [=].
  - by intros a s ?%elem_of_nil.
  - split_and!; [exact H1| |].
    + intros s Hs. destruct (H2 s Hs) as [?%elem_of_nil|Hin]; [done|]. by rewrite <-Hp.
    + intros s Hs. apply H4. by rewrite Hp.
Qed.

Lemma collect_map {A B} (f : A → outcome B) (g : A → B) l :
  (∀ x, x ∈ l → f x = Ok (g x)) → collect f l = Ok (g <$> l).
Proof.
  induction l as [|x l IH]; intros Hf; [done|]. cbn. rewrite Hf by by left. cbn.
  rewrite IH by (intros; apply Hf; by right). done.
Qed.
Lemma elem_of_concat {A} (x : A) (ls : list (list A)) : x ∈ concat ls ↔ ∃ l, x ∈ l ∧ l ∈ ls.
Proof.
  rewrite list_elem_of_In, in_concat. setoid_rewrite list_elem_of_In. naive_solver.
Qed.
Definition found_of (m : HintMatch) : Found := mkFound (hm_line m) (hm_start_col m) (hm_end_col m) (hm_text m).

Lemma scan_labels patterns str_width lines top :
  let found := all_found patterns str_width lines top in
  ∃ hints, scan patterns str_width lines top = Ok hints
    ∧ found_of <$> hints = drop (length found - label_capacity) found
    ∧ hm_label <$> hints = reverse (assign_labels (length found)).
Proof.
  cbv zeta. unfold scan. set (found := all_found patterns str_width lines top).
  destruct (assign_labels_spec (length found)) as (_ & Hlen & _).
  set (labels := assign_labels (length found)) in *.
  assert (length found - length labels = length found - label_capacity) as -> by lia.
  set (shown := drop (length found - label_capacity) found).
  assert (length shown = length labels) as Hshown by (subst shown; rewrite length_drop; lia).
  rewrite (collect_map _ (λ e : nat * Found, mkHintMatch (default [] (labels !! (length labels - 1 - e.1)))
    (fd_text e.2) (fd_line e.2) (fd_start e.2) (fd_end e.2))).
  - eexists. split; [done|]. rewrite <-!list_fmap_compose. split.
    + apply list_eq. intros i. rewrite list_lookup_fmap, list_lookup_imap.
      destruct (shown !! i) as [[]|] eqn:Hi; done.
    + apply list_eq. intros i. rewrite list_lookup_fmap, list_lookup_imap.
      destruct (shown !! i) as [f|] eqn:Hi; cbn.
      * apply lookup_lt_Some in Hi. rewrite reverse_lookup by lia.
        replace (length labels - S i) with (length labels - 1 - i) by lia.
        destruct (labels !! (length labels - 1 - i)) as [l|] eqn:Hl; [done|].
        exfalso. apply (lookup_ge_None labels) in Hl. lia.
      * symmetry. apply lookup_ge_None. rewrite length_reverse. apply lookup_ge_None in Hi. lia.
  - intros [i f] Hin. apply elem_of_lookup_imap in Hin as (j & f' & [= -> ->] & Hj).
    apply lookup_lt_Some in Hj. cbn [fst snd]. rewrite (proj2 (Nat.ltb_ge _ _)) by lia.
    unfold vec_index.
    destruct (labels !! (length labels - 1 - j)) as [l|] eqn:Hl; [done|].
    exfalso. apply (lookup_ge_None labels) in Hl. lia.
Qed.

(** A match of the line [row] of the screen that starts at the line [top] of the history: its
    columns are the widths of the text before it and up to its end, within 16 bits. *)
Definition places (str_width : rstring → N) (top : N) (row : nat) (text : rstring) (s : Span) : Found :=
  let before := str_width (take s.1 text) in
  let inside := take (s.2 - s.1) (drop s.1 text) in
  mkFound (N.min u64_max (top + N.of_nat row)) (N.min before u16_max)
    (N.min (before + str_width inside) u16_max) inside.

(** C31: a scan of the screen never fails. On each line the matches kept are matches of some
    pattern, left to right, that do not overlap, and any match left out begins inside one that
    is kept. What the scan shows are the matches kept, line by line, from the last one up, as
    many as there are labels, each with its text, line and columns; no label starts another,
    so that typing one is never taken for the beginning of another. *)
Theorem hints_are_told_apart patterns str_width lines top :
  (∀ find_iter text s, find_iter ∈ patterns → s ∈ find_iter text → s.1 ≤ s.2 ≤ length text) →
  let found := concat (imap (λ row text, places str_width top row text <$> line_spans patterns text) lines) in
  ∃ hints, scan patterns str_width lines top = Ok hints
    ∧ found_of <$> hints = drop (length found - 27 * 27) found
    ∧ (∀ i j a b, hints !! i = Some a → hints !! j = Some b →
         hm_label a `prefix_of` hm_label b → i = j)
    ∧ ∀ text, apart_spans (line_spans patterns text)
        ∧ (∀ s, s ∈ line_spans patterns text → ∃ find_iter, find_iter ∈ patterns ∧ s ∈ find_iter text)
        ∧ ∀ find_iter s, find_iter ∈ patterns → s ∈ find_iter text → covered (line_spans patterns text) s.
Proof.
  intros Hwf. cbv zeta. change (concat (imap _ lines)) with (all_found patterns str_width lines top).
  change (27 * 27) with label_capacity. destruct (scan_labels patterns str_width lines top) as (hints & Hscan & Hfound & Hlabels).
  exists hints. split_and!; [done|done| |].
  - intros i j a b Ha Hb Hp. destruct (assign_labels_spec (length (all_found patterns str_width lines top)))
      as (Hnd & _ & n & Hsame).
    rewrite <-reverse_Permutation, <-Hlabels in Hnd. rewrite <-reverse_Permutation, <-Hlabels, Forall_fmap in Hsame.
    rewrite Forall_lookup in Hsame. pose proof (Hsame i a Ha) as Hla. pose proof (Hsame j b Hb) as Hlb. cbn in *.
    apply prefix_length_eq in Hp; [|lia]. rewrite NoDup_alt in Hnd.
    apply (Hnd i j (hm_label a)); rewrite list_lookup_fmap; [by rewrite Ha|by rewrite Hb, Hp].
  - intros text. destruct (kept_spans_spec (concat ((λ find_iter, find_iter text) <$> patterns))) as (H1 & H2 & H3).
    { apply Forall_forall. intros s (l & Hs & (f & -> & Hf)%list_elem_of_fmap)%elem_of_concat.
      by destruct (Hwf f text s Hf Hs). }
    split_and!; [exact H1| |].
    { intros s (l & Hs & (f & -> & Hf)%list_elem_of_fmap)%H2%elem_of_concat. by exists f. }
    intros f s Hf Hs. apply H3, elem_of_concat. exists (f text).
    split; [done|]. apply list_elem_of_fmap. by exists f.
Qed.
(** Two patterns that match the same words. *)
Definition demo_patterns : list (rstring → list Span) :=
  [λ text, if 4 <=? length text then [(0, 4)] else [];
   λ text, if 4 <=? length text then [(2, 4); (3, 3)] else []].
Lemma hints_are_told_apart_witness :
  (∀ find_iter text s, find_iter ∈ demo_patterns → s ∈ find_iter text → s.1 ≤ s.2 ≤ length text)
  ∧ ∃ hints, scan demo_patterns (λ s, N.of_nat (length s)) [lit "/tmp/x"; lit "/var"] 7 = Ok hints
    ∧ found_of <$> hints = [mkFound 7 0 4 (lit "/tmp"); mkFound 8 0 4 (lit "/var")].
Proof.
  assert (∀ find_iter text s, find_iter ∈ demo_patterns → s ∈ find_iter text → s.1 ≤ s.2 ≤ length text) as Hwf.
  { intros f text s Hf Hs. unfold demo_patterns in Hf.
    apply elem_of_cons in Hf as [->|[->|[]%elem_of_nil]%elem_of_cons];
      (destruct (Nat.leb_spec 4 (length text)); [|by apply elem_of_nil in Hs]);
      repeat (apply elem_of_cons in Hs as [->|Hs]; [cbn; lia|]); by apply elem_of_nil in Hs. }
  split; [exact Hwf|].
  destruct (hints_are_told_apart demo_patterns (λ s, N.of_nat (length s)) [lit "/tmp/x"; lit "/var"] 7 Hwf)
    as (hints & Hscan & Hfound & _).
  exists hints. split; [exact Hscan|exact Hfound].
Defined.

(** ** The tree filtered *)

Section tree_ind.
Context (P : TreeNode → Prop) (Hnode : ∀ row children, Forall P children → P (mkTreeNode row children)).
Fixpoint tree_ind (n : TreeNode) : P n :=
  match n with
  | mkTreeNode row children =>
      Hnode row children
        ((fix all l : Forall P l :=
            match l with
            | [] => Forall_nil_2 P
            | n :: l => Forall_cons_2 P n l (tree_ind n) (all l)
            end) children)
  end.
End tree_ind.
(** The nodes of a tree, each before those below it. *)
Fixpoint preorder (n : TreeNode) : list TreeNode :=
  match n with mkTreeNode _ children => n :: concat (map preorder children) end.

Section filtered.
Context (to_lowercase : rstring → rstring) (filter : rstring).
Notation flatten_matching := (flatten_matching to_lowercase filter).
Definition node_matches (n : TreeNode) : bool := row_matches to_lowercase filter (tn_row n).
(** It or something below it matches. *)
Definition leads_to_match (n : TreeNode) : bool := existsb node_matches (preorder n).
Definition tree_items (ns : list TreeNode) : list ChooserItem := (λ n, row_item (tn_row n)) <$> ns.

Lemma existsb_concat {A} (p : A → bool) ls : existsb p (concat ls) = existsb (existsb p) ls.
Proof. induction ls as [|l ls IH]; [done|]. cbn. by rewrite existsb_app, IH. Qed.
Lemma existsb_map {A B} (p : B → bool) (f : A → B) l : existsb p (map f l) = existsb (p ∘ f) l.
Proof. induction l as [|x l IH]; [done|]. cbn. by rewrite IH. Qed.
Lemma existsb_ext_in {A} (p q : A → bool) l : Forall (λ x, p x = q x) l → existsb p l = existsb q l.
Proof. induction 1 as [|x l Hx _ IH]; [done|]. cbn. by rewrite Hx, IH. Qed.

Lemma flatten_matching_none n : (flatten_matching n).1 = false → (flatten_matching n).2 = [].
Proof. destruct n as [row children]. cbn. by destruct (_ && _). Qed.
Lemma flatten_matching_spec n :
  (flatten_matching n).1 = leads_to_match n
  ∧ row_item <$> (flatten_matching n).2
    = tree_items (base.filter (λ m, leads_to_match m = true) (preorder n)).
Proof.
  revert n. apply tree_ind. intros row children IH. cbn [Pickers.flatten_matching preorder].
  assert (existsb fst (map flatten_matching children) = existsb node_matches (concat (map preorder children))) as Hbelow.
  { rewrite existsb_concat, !existsb_map. apply existsb_ext_in. eapply Forall_impl; [exact IH|].
    intros m [Hm _]. exact Hm. }
  assert (leads_to_match (mkTreeNode row children)
    = row_matches to_lowercase filter row || existsb fst (map flatten_matching children)) as Hself.
  { unfold leads_to_match. cbn [preorder existsb]. by rewrite <-Hbelow. }
  assert (row_item <$> concat (map snd (map flatten_matching children))
    = tree_items (base.filter (λ m, leads_to_match m = true) (concat (map preorder children)))) as Hitems.
  { clear -IH. induction IH as [|m l [_ Hm] _ IHl]; [done|]. cbn [map concat].
    unfold tree_items in *. by rewrite fmap_app, filter_app, fmap_app, Hm, IHl. }
  rewrite filter_cons, Hself.
  destruct (row_matches to_lowercase filter row), (existsb fst (map flatten_matching children)) eqn:He; cbn [negb andb orb fst snd].
  1-3: split; [done|]; rewrite decide_True by done; cbn; by rewrite Hitems.
  split; [done|]. rewrite decide_False by done. cbn.
  rewrite <-Hitems. clear -He. induction children as [|m l IHl]; [done|].
  cbn [map existsb concat] in *. apply orb_false_iff in He as [Hm He].
  rewrite (flatten_matching_none m Hm). by apply IHl.
Qed.
End filtered.

Section filtered_rows.
Context (to_lowercase : rstring → rstring).

(** With a filter the rows are those that match, and those above them, in the order of the tree. *)
Lemma filtered_rows c current_session base_index h tree :
  build_tree c current_session base_index = Ok tree → to_lowercase (ch_filter h) ≠ [] →
  ∃ rows, chooser_rows to_lowercase c current_session base_index h = Ok rows
    ∧ row_item <$> rows
      = tree_items (base.filter (λ m, leads_to_match to_lowercase (to_lowercase (ch_filter h)) m = true)
          (concat (map preorder tree))).
Proof.
  intros Ht Hf. unfold chooser_rows. rewrite Ht. cbn [mbind outcome_bind].
  destruct (to_lowercase (ch_filter h)) as [|ch f] eqn:E; [done|]. eexists. split; [done|].
  clear. induction tree as [|n tree IH]; [done|]. cbn [map concat]. unfold tree_items in *.
  destruct (flatten_matching_spec to_lowercase (ch :: f) n) as [_ Hn].
  by rewrite fmap_app, filter_app, fmap_app, Hn, IH.
Qed.
End filtered_rows.

(** ** The selection *)

Lemma selected_index_lt rows h i : selected_index rows h = Some i → i < length rows.
Proof.
  unfold selected_index. destruct rows as [|r rows]; [done|]. intros [= <-].
  match goal with |- default 0 ?o < _ => destruct o as [j|] eqn:Hj end; [|cbn; lia].
  apply bind_Some in Hj as (item & _ & Hj).
  change (position (λ x, bool_decide (row_item x = item)) (r :: rows) = Some j) in Hj.
  apply position_Some in Hj as (x & Hx & _). by eapply lookup_lt_Some.
Qed.
(** Drawing keeps the selection, and scrolls it into view. *)
Lemma chooser_scroll_shows list_height rows h i :
  0 < list_height → selected_index rows h = Some i →
  let h' := chooser_scroll list_height rows h in
  selected_index rows h' = Some i ∧ ch_scroll h' ≤ i < ch_scroll h' + list_height
  ∧ ch_scroll h' ≤ length rows - list_height.
Proof.
  intros Hl Hi. cbv zeta. pose proof (selected_index_lt rows h i Hi). unfold chooser_scroll. rewrite Hi.
  split; [exact Hi|]. cbn [ch_scroll ch_set_scroll].
  destruct (Nat.ltb_spec i (ch_scroll h)); [lia|].
  destruct (Nat.leb_spec (ch_scroll h + list_height) i); lia.
Qed.
(** Moving stops at the first and the last row. *)
Lemma move_by_moves rows delta h i :
  selected_index rows h = Some i → NoDup (row_item <$> rows) →
  ∃ h', move_by rows delta h = Ok h'
    ∧ selected_index rows h' = Some (Z.to_nat (Z.max 0 (Z.min (Z.of_nat (length rows) - 1) (Z.of_nat i + delta)))).
Proof.
  intros Hi Hnd. pose proof (selected_index_lt rows h i Hi) as Hlt. unfold move_by. rewrite Hi.
  set (next := Z.to_nat _). assert (next < length rows) as Hn by (subst next; lia).
  destruct (lookup_lt_is_Some_2 rows next Hn) as [r Hr]. unfold vec_index. rewrite Hr.
  eexists. split; [done|]. unfold selected_index. destruct rows as [|r0 rows]; [cbn in Hlt; lia|].
  f_equal. match goal with |- default 0 ?o = _ => destruct o as [j|] eqn:Hj end;
    match type of Hj with _ = ?o =>
      change (position (λ x, bool_decide (row_item x = row_item r)) (r0 :: rows) = o) in Hj end.
  - apply position_Some in Hj as (x & Hx & He%bool_decide_eq_true & _). rewrite NoDup_alt in Hnd.
    apply (Hnd j next (row_item r)); rewrite list_lookup_fmap; [by rewrite Hx, <-He|by rewrite Hr].
  - rewrite position_None in Hj. specialize (Hj r). rewrite bool_decide_true in Hj by done.
    discriminate Hj. by eapply list_elem_of_lookup_2.
Qed.

(** *** No key fails *)

Definition settles (o : outcome ChooserAfter) : Prop := ∃ a, o = Ok a.
Lemma move_by_total rows delta h : ∃ h', move_by rows delta h = Ok h'.
Proof.
  unfold move_by. destruct (selected_index rows h) as [i|] eqn:Hi; [|by eexists].
  pose proof (selected_index_lt rows h i Hi). unfold vec_index.
  set (next := Z.to_nat _). assert (next < length rows) as Hn by (subst next; lia).
  destruct (lookup_lt_is_Some_2 rows next Hn) as [r ->]. by eexists.
Qed.
Lemma selected_row rows h i : selected_index rows h = Some i → ∃ r, vec_index i rows = Ok r.
Proof.
  intros [r Hr]%selected_index_lt%lookup_lt_is_Some_2. exists r. unfold vec_index. by rewrite Hr.
Qed.
Lemma chooser_target_total c rows h : ∃ item, chooser_target c rows h = Ok item.
Proof.
  assert (∃ item, chooser_selected rows h = Ok item) as Hs.
  { unfold chooser_selected. destruct (selected_index rows h) as [i|] eqn:Hi; [|by eexists].
    destruct (selected_row rows h i Hi) as [r ->]. by eexists. }
  unfold chooser_target. destruct (ch_selected h) as [item|]; [destruct (negb _); [by eexists|]|]; exact Hs.
Qed.
Lemma chooser_fold_total rows h :
  (∃ h', chooser_expand rows h = Ok h') ∧ ∃ h', chooser_collapse rows h = Ok h'.
Proof.
  unfold chooser_expand, chooser_collapse. destruct (selected_index rows h) as [i|] eqn:Hi; [|split; by eexists].
  destruct (selected_row rows h i Hi) as [r ->]. cbn [mbind outcome_bind]. split.
  - destruct (negb _); [by eexists|]. destruct (row_expanded r); [apply move_by_total|by eexists].
  - destruct (row_expanded r); [by eexists|]. destruct (find_first _ _); by eexists.
Qed.
Lemma handle_chooser_key_total to_lowercase c current_session base_index viewport key h rows :
  chooser_rows to_lowercase c current_session base_index h = Ok rows →
  settles (handle_chooser_key to_lowercase c current_session base_index viewport key h).
Proof.
  intros Hrows. unfold handle_chooser_key, settles. rewrite Hrows. cbn [mbind outcome_bind].
  destruct (ch_confirm_kill h); [by eexists|].
  assert (∀ delta, ∃ a, moved rows delta h = Ok a) as Hmoved.
  { intros delta. unfold moved. destruct (move_by_total rows delta h) as [h' ->]. by eexists. }
  destruct (ch_editing_filter h).
  - unfold filter_key. destruct key; try apply Hmoved; by eexists.
  - destruct (chooser_target_total c rows h) as [item Hitem].
    destruct (chooser_fold_total rows h) as [[he Hexpand] [hc Hcollapse]].
    unfold picker_key. cbv zeta. rewrite Hitem, Hexpand, Hcollapse. cbn [mbind outcome_bind].
    destruct key; try apply Hmoved; try (by eexists); repeat (case_match; try apply Hmoved; try (by eexists)).
Qed.

(** ** The panes listed *)

Section listed.
Context {st : ServerState} (H : consistent st).
Context {sid : SessionId} {s : Session} (Hs : sessions st !! sid = Some s).
Context {c : ClientState} (M : mirrors st sid s c).
Let W : wired st := in_wired _ _ _ (cs_inv _ H).

Definition pane_under (i x : NodeId) : Prop := is_view st x ∧ below st i x.
Lemma below_children i n x :
  nodes st !! i = Some n → (∀ v, n ≠ BufferView v) →
  pane_under i x ↔ ∃ ch, ch ∈ child_ids n ∧ pane_under ch x.
Proof.
  intros Hn Hnv. split.
  - intros [Hx Hb]. destruct (below_inv i n x Hn Hb) as [->|(ch & Hch & Hbc)]; [|by exists ch].
    destruct Hx as [v Hv]. rewrite Hn in Hv. injection Hv as ->. by destruct (Hnv v).
  - intros (ch & Hch & Hx & Hb). split; [done|]. etransitivity; [|exact Hb].
    by apply (below_step i i n ch).
Qed.
Lemma collect_leaves_panes i :
  in_session (st:=st) (sid:=sid) i →
  ∃ l, collect_leaves c (client_budget c) i = Ok l ∧ ∀ x, x ∈ l ↔ pane_under i x.
Proof.
  apply (client_down H M (λ fuel i, ∃ l, collect_leaves c fuel i = Ok l ∧ ∀ x, x ∈ l ↔ pane_under i x)).
  intros fuel j n o Hn Hsn Hr IH. cbn [collect_leaves]. rewrite Hr.
  destruct (Forall2_collect (collect_leaves c fuel) (λ ch l, ∀ x, x ∈ l ↔ pane_under ch x) (child_ids n))
    as (ls & Hls & Hf).
  { intros ch Hch. by destruct (IH ch Hch). }
  assert (∀ x, x ∈ concat ls ↔ ∃ ch, ch ∈ child_ids n ∧ pane_under ch x) as Hconcat.
  { clear -Hf. induction Hf as [|ch l chs ls Hl _ IHf]; intros x; cbn [concat].
    - split; [by intros ?%elem_of_nil|by intros (? & ?%elem_of_nil & _)].
    - rewrite elem_of_app, Hl, IHf. setoid_rewrite elem_of_cons. naive_solver. }
  destruct n as [v|sp|t]; cbn [record_of nr_kind nr_split nr_tabs from_option spr_child_ids tsr_tabs].
  - exists [j]. split; [done|]. intros x. rewrite list_elem_of_singleton. split.
    + intros ->. split; [by exists v|done].
    + intros [_ Hb]. destruct (below_inv j _ x Hn Hb) as [->|(ch & Hch & _)]; [done|].
      by apply elem_of_nil in Hch.
  - cbn [child_ids] in Hls. rewrite Hls. eexists. split; [done|]. intros x.
    by rewrite Hconcat, (below_children j _ x Hn).
  - rewrite <-list_fmap_compose. cbn [child_ids] in Hls. 
    match goal with |- context [collect _ ?l] => change l with (te_child <$> t_tabs t) end.
    rewrite Hls. eexists. split; [done|]. intros x. by rewrite Hconcat, (below_children j _ x Hn).
Qed.

(** A window in the tree, for its tab. *)
Definition window_listed (tab : TabEntry) (w : TreeNode) : Prop :=
  row_item (tn_row w) = CiWindow sid (te_child tab)
  ∧ Forall (λ p, tn_children p = [] ∧ ∃ x, row_item (tn_row p) = CiPane sid x) (tn_children w)
  ∧ ∀ x, CiPane sid x ∈ tree_items (tn_children w) ↔ pane_under (te_child tab) x.
Lemma window_node_listed position title tab is_current focused_leaf base_index :
  in_session (st:=st) (sid:=sid) (te_child tab) →
  ∃ w, window_node c sid position title (te_child tab) is_current focused_leaf base_index = Ok w
    ∧ window_listed tab w.
Proof.
  intros Hin. destruct (collect_leaves_panes _ Hin) as (l & Hl & Hx). unfold window_node. rewrite Hl.
  eexists. split; [done|]. split_and!; [done| |].
  - apply Forall_fmap, Forall_true. intros x. split; [done|]. by exists x.
  - intros x. rewrite <-Hx. unfold tree_items. cbn [tn_children]. rewrite <-list_fmap_compose.
    rewrite list_elem_of_fmap. split.
    + by intros (y & [= ->] & Hy).
    + intros Hy. by exists x.
Qed.
Lemma session_listed current_session base_index :
  ∃ n t, nodes st !! s_root_node s = Some (Tabs t)
    ∧ session_tree c current_session base_index (session_record s) = Ok n
    ∧ row_item (tn_row n) = CiSession sid
    ∧ Forall2 window_listed (t_tabs t) (tn_children n).
Proof.
  pose proof (wi_session _ W _ _ Hs) as Hok. destruct (so_root _ _ _ Hok) as (t & Ht & _ & Hts).
  assert (in_session (st:=st) (sid:=sid) (s_root_node s)) as Hroot by by exists (Tabs t).
  destruct (client_node M _ Hroot) as (n & o & Hn & _ & Hr). rewrite Ht in Hn. injection Hn as <-.
  unfold session_tree, root_tabs_of. cbn [sr_root_node_id session_record]. rewrite Hr.
  cbn [record_of mbind option_bind nr_kind nr_tabs tsr_tabs tsr_active sr_id session_record].
  rewrite (so_id _ _ _ Hok).
  set (tabs := _ <$> t_tabs t). set (window := λ e : nat * TabRecord, _).
  destruct (Forall2_collect window (λ e w, ∃ tab, t_tabs t !! e.1 = Some tab ∧ window_listed tab w)
    (imap pair tabs)) as (ws & -> & Hws).
  { intros e (i & tab & -> & Htab)%elem_of_lookup_imap. subst tabs.
    apply list_lookup_fmap_Some in Htab as (entry & -> & Hentry). subst window. cbn [fst snd tr_title tr_child_id].
    edestruct (window_node_listed i (te_title entry) entry) as (w & Hw & Hlisted).
    - apply (session_child H _ (Tabs t) _ Ht Hts). cbn. apply list_elem_of_fmap.
      exists entry. split; [done|]. by eapply list_elem_of_lookup_2.
    - exists w. split; [exact Hw|]. by exists entry. }
  eexists _, t. split; [done|]. split; [done|]. split; [done|]. cbn [tn_children].
  apply Forall2_same_length_lookup in Hws as [Hlen Hws]. rewrite length_imap in Hlen. subst tabs.
  rewrite length_fmap in Hlen. apply Forall2_same_length_lookup. split; [done|].
  intros i tab w Htab Hw. edestruct (Hws i) as (tab' & Htab' & Hl); [|exact Hw|].
  - rewrite list_lookup_imap, list_lookup_fmap, Htab. reflexivity.
  - cbn in Htab'. by simplify_eq.
Qed.
End listed.

(** A session in the tree: its windows in order, each with its panes. *)
Definition session_shown (st : ServerState) (sid : SessionId) (n : TreeNode) : Prop :=
  ∃ s t, sessions st !! sid = Some s ∧ nodes st !! s_root_node s = Some (Tabs t)
    ∧ row_item (tn_row n) = CiSession sid
    ∧ Forall2 (window_listed (st:=st) (sid:=sid)) (t_tabs t) (tn_children n).

(** C32: the picker of a client with the server's copy of its sessions lists each session with
    its windows in order, and below each window the panes that are in it, those of hidden
    tabs too; a filter leaves the rows that match and those above them, in the order of the
    tree; and no key fails. *)
Theorem picker_lists_sessions st c to_lowercase current_session base_index :
  consistent st →
  (∀ sid r, cl_sessions c !! sid = Some r → ∃ s, sessions st !! sid = Some s ∧ mirrors st sid s c) →
  ∃ tree, build_tree c current_session base_index = Ok tree
    ∧ Forall2 (session_shown st) (keys_of (cl_sessions c)) tree
    ∧ (∀ h, to_lowercase (ch_filter h) ≠ [] →
         ∃ rows, chooser_rows to_lowercase c current_session base_index h = Ok rows
           ∧ row_item <$> rows
             = tree_items (base.filter (λ m, leads_to_match to_lowercase (to_lowercase (ch_filter h)) m = true)
                 (concat (map preorder tree))))
    ∧ ∀ viewport key h, settles (handle_chooser_key to_lowercase c current_session base_index viewport key h).
Proof.
  intros H Hall. unfold build_tree.
  destruct (Forall2_collect (session_tree c current_session base_index)
    (λ r n, ∀ sid, cl_sessions c !! sid = Some r → session_shown st sid n) (values_of (cl_sessions c)))
    as (tree & Htree & Hf).
  { intros r (sid & Hr)%elem_of_values_of. destruct (Hall sid r Hr) as (s & Hs & M).
    rewrite (mr_session _ _ _ _ M) in Hr. injection Hr as <-.
    destruct (session_listed H Hs M current_session base_index) as (n & _ & _ & Hn & _).
    exists n. split; [exact Hn|]. intros sid' Hr'. destruct (Hall sid' _ Hr') as (s' & Hs' & M').
    rewrite (mr_session _ _ _ _ M') in Hr'. apply (inj Some) in Hr'. rewrite <-Hr' in Hn.
    destruct (session_listed H Hs' M' current_session base_index) as (n' & t & Ht & Hn' & Hrow & Hw).
    exists s', t. split; [done|]. split; [done|]. assert (n' = n) as <- by congruence. by split. }
  exists tree. split; [exact Htree|]. split; [|split].
  - unfold values_of in Hf. rewrite Forall2_fmap_l in Hf. unfold keys_of. rewrite Forall2_fmap_l.
    apply Forall2_same_length_lookup in Hf as [Hlen Hf]. apply Forall2_same_length_lookup. split; [done|].
    intros i [sid r] n Hi Hn. apply (Hf i _ n Hi Hn). apply elem_of_entries. by eapply list_elem_of_lookup_2.
  - intros h Hh. by apply filtered_rows.
  - intros viewport key h.
    assert (∃ rows, chooser_rows to_lowercase c current_session base_index h = Ok rows) as [rows Hrows].
    { unfold chooser_rows, build_tree. rewrite Htree. by eexists. }
    by eapply handle_chooser_key_total.
Qed.
Lemma ok_is {A} (o : outcome A) : match o with Ok _ => true | _ => false end = true → ∃ a, o = Ok a.
Proof. destruct o as [a| | |]; [by exists a|discriminate..]. Qed.
Lemma demo_snapshot : ∃ snap, session_snapshot demo 1%N = Ok snap.
Proof. apply ok_is. vm_compute. reflexivity. Qed.
Lemma demo_mirrored sid r : cl_sessions demo_copy !! sid = Some r →
  ∃ s, sessions demo !! sid = Some s ∧ mirrors demo sid s demo_copy.
Proof.
  intros Hr. assert (map_Forall (λ k _, k = 1%N) (cl_sessions demo_copy)) as Hone
    by (eapply bool_decide_unpack; vm_compute; exact I).
  rewrite (Hone sid r Hr). destruct demo_session as [s Hs]. exists s. split; [done|].
  destruct demo_snapshot as [snap E]. unfold demo_copy. rewrite E.
  refine (snapshot_mirrors demo_consistent _ 1%N s Hs snap ClientState_default default_keyed E).
  rewrite demo_nodes_used. discriminate.
Qed.
Lemma picker_lists_sessions_witness :
  ∃ tree, build_tree demo_copy (Some 1%N) None = Ok tree
    ∧ Forall2 (session_shown demo) [1%N] tree
    ∧ ∀ h, ch_filter h ≠ [] → ∃ rows, chooser_rows id demo_copy (Some 1%N) None h = Ok rows.
Proof.
  destruct (picker_lists_sessions demo demo_copy id (Some 1%N) None demo_consistent demo_mirrored)
    as (tree & Htree & Hshown & Hrows & _).
  exists tree. split; [exact Htree|]. split; [exact Hshown|].
  intros h Hh. destruct (Hrows h Hh) as (rows & Hr & _). exists rows. exact Hr.
Defined.

(** The demo session, and what a filter leaves of it. *)
Example demo_tree :
  let items f := match chooser_rows id demo_copy (Some 1%N) None
      (mkChooser ScopeTree [CiSession 1; CiWindow 1 5] None f false None 0 []) with
    | Ok rows => (λ r, (row_item r, row_depth r)) <$> rows | _ => [] end in
  items [] = [(CiSession 1, 0); (CiWindow 1 4, 1); (CiWindow 1 5, 1); (CiPane 1 5, 2)]
  ∧ items (lit "edit") = [(CiSession 1, 0); (CiWindow 1 4, 1); (CiPane 1 3, 2)].
Proof. vm_compute. split; reflexivity. Qed.
Example window_numbers :
  window_position 3 3 1 = Some 2 ∧ window_position 4 3 1 = None ∧ window_position 0 3 1 = None
  ∧ window_number 2 (Some 1%N) = 3%N ∧ parse_base_index (lit " 1 ") = Some 1%N
  ∧ parse_base_index (lit "1000001") = None.
Proof. vm_compute. by split_and!. Qed.
(** A window is found again by its number. *)
Lemma window_position_number position count base_index :
  window_position (window_number position (Some base_index)) count base_index =
    (if position <? count then Some position else None).
Proof.
  unfold window_position, window_number. change (default 0%N (Some base_index)) with base_index.
  rewrite (proj2 (N.ltb_ge _ _)) by lia.
  replace (N.to_nat (N.of_nat position + base_index - base_index)) with position by lia. done.
Qed.

(** ** Formats

    What [display-message] and prompts expand: the values of variables for a pane, and
    [expand_format]. *)

Record FormatContext : Type := mkFormatContext {
  fc_session_name : rstring;
  fc_window_index : N;
  fc_window_name : rstring;
  fc_pane_id : option NodeId;
  fc_pane_title : rstring;
  fc_pane_current_path : rstring;
  fc_pane_current_command : rstring;
  fc_pane_host : rstring;
  fc_session_id : option SessionId;
  fc_window_id : option NodeId;
  fc_window_active : bool;
  fc_window_panes : nat;
  fc_session_windows : nat;
  fc_buffer_id : option BufferId;
  fc_pane_index : option nat;
  fc_pane_active : bool;
  fc_pane_pid : option N;
  fc_pane_width : N;
  fc_pane_height : N;
  fc_pane_dead : bool;
  fc_pane_dead_status : option Z;
  fc_user_options : gmap rstring rstring;
  fc_extra : gmap rstring rstring
}.

Section format_context.
Context (c : ClientState).

Fixpoint visible_leaves (fuel : nat) (id : NodeId) : outcome (list NodeId) :=
  match fuel with
  | 0 => OutOfFuel
  | S fuel =>
      match cl_nodes c !! id with
      | None => Ok []
      | Some n =>
          match nr_kind n with
          | NkBufferView => Ok [id]
          | NkSplit =>
              ls ← collect (visible_leaves fuel) (from_option spr_child_ids [] (nr_split n)); Ok (concat ls)
          | NkTabs =>
              match (tabs ← nr_tabs n; tsr_tabs tabs !! N.to_nat (tsr_active tabs)) with
              | Some tab => visible_leaves fuel (tr_child_id tab)
              | None => Ok []
              end
          end
      end
  end.
(** From a node up to one that a root tab holds. *)
Fixpoint tab_holding (fuel : nat) (tabs : list TabRecord) (current : NodeId) : outcome (option nat) :=
  match fuel with
  | 0 => OutOfFuel
  | S fuel =>
      match position (λ tab, tr_child_id tab =? current)%N tabs with
      | Some position => Ok (Some position)
      | None =>
          match cl_nodes c !! current ≫= nr_parent_id with
          | Some parent => tab_holding fuel tabs parent
          | None => Ok None
          end
      end
  end.
Definition root_tab_position (root_id node_id : NodeId) : outcome (option nat) :=
  match cl_nodes c !! root_id ≫= nr_tabs with
  | Some tabs => tab_holding (client_budget c) (tsr_tabs tabs) node_id
  | None => Ok None
  end.

Definition from_state (sid : SessionId) (pane : option NodeId) (base_index : option N)
    : outcome (option FormatContext) :=
  match cl_sessions c !! sid with
  | None => Ok None
  | Some session =>
      let pane_id := match pane with Some id => Some id | None => sr_focused_leaf_id session end in
      let buffer :=
        id ← pane_id; n ← cl_nodes c !! id; view ← nr_buffer_view n; cl_buffers c !! bv_buffer_id view in
      '(position_, name) ←
        match root_tabs_of c (sr_root_node_id session) with
        | Some tabs =>
            held ← match pane_id with
                   | Some id => root_tab_position (sr_root_node_id session) id
                   | None => Ok None
                   end;
            let position_ := default (N.to_nat (tsr_active tabs)) held in
            Ok (position_, from_option tr_title [] (tsr_tabs tabs !! position_))
        | None => Ok (0, [])
        end;
      let root_tabs := cl_nodes c !! sr_root_node_id session ≫= nr_tabs in
      let window_id := tabs ← root_tabs; tab ← tsr_tabs tabs !! position_; Some (tr_child_id tab) in
      leaves ← match window_id with Some id => visible_leaves (client_budget c) id | None => Ok [] end;
      let of_buffer {A} (f : BufferRecord → option A) := buffer ≫= f in
      Ok (Some {|
        fc_session_name := sr_name session;
        fc_window_index := window_number position_ base_index;
        fc_window_name := name;
        fc_pane_id := pane_id;
        fc_pane_title := from_option br_title [] buffer;
        fc_pane_current_path := default [] (buffer ≫= br_cwd);
        fc_pane_current_command := default [] (buffer ≫= process_name);
        fc_pane_host := default [] (buffer ≫= br_host);
        fc_session_id := Some sid;
        fc_window_id := window_id;
        fc_window_active :=
          match root_tabs with Some tabs => N.to_nat (tsr_active tabs) =? position_ | None => false end;
        fc_window_panes := length leaves;
        fc_session_windows := match root_tabs with Some tabs => length (tsr_tabs tabs) | None => 0 end;
        fc_buffer_id := br_id <$> buffer;
        fc_pane_index := id ← pane_id; position (λ leaf, leaf =? id)%N leaves;
        fc_pane_active := bool_decide (is_Some pane_id) && bool_decide (pane_id = sr_focused_leaf_id session);
        fc_pane_pid := buffer ≫= br_pid;
        fc_pane_width := from_option (λ b, cols (br_pty_size b)) 0%N buffer;
        fc_pane_height := from_option (λ b, rows (br_pty_size b)) 0%N buffer;
        fc_pane_dead := match buffer with
                        | Some b => match br_state b with RExited => true | _ => false end | None => false end;
        fc_pane_dead_status := buffer ≫= br_exit_code;
        fc_user_options := from_option br_user_options ∅ buffer;
        fc_extra := ∅
      |})
  end.
End format_context.

Definition flag (value : bool) : rstring := if value then lit "1" else lit "0".
Definition signed_decimal (z : Z) : rstring :=
  if (z <? 0)%Z then lit "-" ++ decimal (Z.to_N (- z)) else decimal (Z.to_N z).
Definition format_lookup (name : rstring) (f : FormatContext) : option rstring :=
  let number (o : option N) := from_option decimal [] o in
  match name with
  | 64%N :: option_name => Some (default [] (fc_user_options f !! option_name))
  | _ =>
      let named s := bool_decide (name = lit s) in
      if named "session_name" then Some (fc_session_name f)
      else if named "window_index" then Some (decimal (fc_window_index f))
      else if named "window_name" then Some (fc_window_name f)
      else if named "pane_id" then Some (from_option (λ id, lit "%" ++ decimal id) [] (fc_buffer_id f))
      else if named "node_id" then Some (number (fc_pane_id f))
      else if named "pane_title" then Some (fc_pane_title f)
      else if named "pane_current_path" then Some (fc_pane_current_path f)
      else if named "pane_current_command" then Some (fc_pane_current_command f)
      else if named "pane_host" then Some (fc_pane_host f)
      else if named "session_id" then Some (from_option (λ id, lit "$" ++ decimal id) [] (fc_session_id f))
      else if named "window_id" then Some (from_option (λ id, lit "@" ++ decimal id) [] (fc_window_id f))
      else if named "window_active" then Some (flag (fc_window_active f))
      else if named "window_panes" then Some (decimal (N.of_nat (fc_window_panes f)))
      else if named "session_windows" then Some (decimal (N.of_nat (fc_session_windows f)))
      else if named "buffer_id" then Some (number (fc_buffer_id f))
      else if named "pane_index" then Some (from_option (λ i, decimal (N.of_nat i)) [] (fc_pane_index f))
      else if named "pane_active" then Some (flag (fc_pane_active f))
      else if named "pane_pid" then Some (number (fc_pane_pid f))
      else if named "pane_width" then Some (decimal (fc_pane_width f))
      else if named "pane_height" then Some (decimal (fc_pane_height f))
      else if named "pane_dead" then Some (flag (fc_pane_dead f))
      else if named "pane_dead_status" then Some (from_option signed_decimal [] (fc_pane_dead_status f))
      else fc_extra f !! name
  end.
Definition short_alias (ch : N) : option rstring :=
  match ch with
  | 83 => Some (lit "session_name")
  | 73 => Some (lit "window_index")
  | 87 => Some (lit "window_name")
  | 68 => Some (lit "pane_id")
  | 84 => Some (lit "pane_title")
  | _ => None
  end%N.
(** The name up to the closing brace and what follows it, or [None] if it is not closed. *)
Fixpoint braced (s : rstring) : option (rstring * rstring) :=
  match s with
  | [] => None
  | ch :: s => if (ch =? 125)%N then Some ([], s) else '(name, rest) ← braced s; Some (ch :: name, rest)
  end.
Fixpoint expand_in (fuel : nat) (s : rstring) (f : FormatContext) : rstring :=
  let value name := default [] (format_lookup name f) in
  match fuel, s with
  | 0, _ | _, [] => []
  | S fuel, ch :: s =>
      if negb (ch =? 35)%N then ch :: expand_in fuel s f
      else
        match s with
        | [] => [35%N]
        | next :: rest =>
            if (next =? 35)%N then 35%N :: expand_in fuel rest f
            else if (next =? 123)%N then
              match braced rest with
              | Some (name, rest) => value name ++ expand_in fuel rest f
              | None => 35%N :: 123%N :: rest
              end
            else
              match short_alias next with
              | Some name => value name ++ expand_in fuel rest f
              | None => 35%N :: expand_in fuel s f
              end
        end
  end.
Definition expand_format (template : rstring) (f : FormatContext) : rstring :=
  expand_in (length template) template f.

(** *** Signs escaped *)

(** A text with each # doubled. *)
Definition escape_format (s : rstring) : rstring :=
  concat ((λ ch, if (ch =? 35)%N then [35; 35]%N else [ch]) <$> s).
Lemma braced_length s name rest : braced s = Some (name, rest) → length rest < length s.
Proof.
  revert name. induction s as [|ch s IH]; intros name Hb; cbn in Hb; [done|].
  destruct (ch =? 125)%N; [injection Hb as <- <-; cbn; lia|].
  destruct (braced s) as [[n r]|] eqn:Hs; cbn in Hb; [|done]. injection Hb as <- <-.
  specialize (IH n eq_refl). cbn. lia.
Qed.
Lemma expand_fuel f n m s : length s ≤ n → length s ≤ m → expand_in n s f = expand_in m s f.
Proof.
  revert m s. induction n as [|n IH]; intros m s Hn Hm.
  { destruct s; [|cbn in Hn; lia]. by destruct m. }
  destruct s as [|ch s]; [by destruct m|]. destruct m as [|m]; [cbn in Hm; lia|]. cbn in Hn, Hm. cbn [expand_in].
  destruct (negb (ch =? 35)%N); [f_equal; apply IH; lia|]. destruct s as [|next rest]; [done|]. cbn in Hn, Hm.
  destruct (next =? 35)%N; [f_equal; apply IH; lia|].
  destruct (next =? 123)%N.
  - destruct (braced rest) as [[name r]|] eqn:Hb; [|done]. apply braced_length in Hb. f_equal. apply IH; lia.
  - destruct (short_alias next); [f_equal; apply IH; lia|]. f_equal. apply IH; cbn; lia.
Qed.
(** Escaped text stands for itself, before any template. *)
Lemma expand_escaped s template f :
  expand_format (escape_format s ++ template) f = s ++ expand_format template f.
Proof.
  unfold expand_format. induction s as [|ch s IH]; [done|].
  unfold escape_format. cbn [fmap list_fmap concat]. fold (escape_format s). rewrite <-app_assoc.
  set (u := escape_format s ++ template) in *. destruct (ch =? 35)%N eqn:Hch.
  - apply N.eqb_eq in Hch as ->.
    change (35%N :: expand_in (S (length u)) u f = 35%N :: (s ++ expand_in (length template) template f)).
    rewrite <-IH. f_equal. apply expand_fuel; lia.
  - change (expand_in (S (length u)) (ch :: u) f = ch :: (s ++ expand_in (length template) template f)).
    rewrite <-IH. cbn [expand_in]. by rewrite Hch.
Qed.

(** *** The window of a pane *)

Section formats.
Context {st : ServerState} (H : consistent st).
Context {sid : SessionId} {s : Session} (Hs : sessions st !! sid = Some s).
Context {c : ClientState} (M : mirrors st sid s c).
Let W : wired st := in_wired _ _ _ (cs_inv _ H).
Let F : forest (layout (nodes st)) := wi_forest _ W.
Context (t : TabsNode) (Ht : nodes st !! s_root_node s = Some (Tabs t)).
Let tabs : list TabRecord :=
  (λ tab, mkTabRecord (te_title tab) (te_child tab) (te_synchronize_panes tab)) <$> t_tabs t.

Lemma visible_leaves_total i :
  in_session (st:=st) (sid:=sid) i → ∃ l, visible_leaves c (client_budget c) i = Ok l.
Proof.
  apply (client_down H M (λ fuel i, ∃ l, visible_leaves c fuel i = Ok l)).
  intros fuel j n o Hn Hsn Hr IH. cbn [visible_leaves]. rewrite Hr.
  destruct n as [v|sp|tn]; cbn [record_of nr_kind nr_split nr_tabs from_option spr_child_ids]; [by eexists| |].
  - destruct (Forall2_collect (visible_leaves c fuel) (λ _ _, True) (sp_children sp)) as (ls & -> & _); [|by eexists].
    intros ch Hch. destruct (IH ch Hch) as [_ [l Hl]]. by exists l.
  - cbn [mbind option_bind tsr_tabs tsr_active].
    match goal with |- context [?l !! N.to_nat ?k] =>
      destruct (l !! N.to_nat k) as [tab|] eqn:Htab end; [|by eexists].
    apply list_lookup_fmap_Some in Htab as (entry & -> & Hentry). apply (IH (te_child entry)).
    cbn. apply list_elem_of_fmap. exists entry. split; [done|]. by eapply list_elem_of_lookup_2.
Qed.
Lemma tab_position i :
  match position (λ tab, tr_child_id tab =? i)%N tabs with
  | Some p => ∃ tab, t_tabs t !! p = Some tab ∧ te_child tab = i
  | None => i ∉ child_ids (Tabs t)
  end.
Proof.
  subst tabs. destruct (position _ _) as [p|] eqn:Hp.
  - apply position_Some in Hp as (x & Hx & He%N.eqb_eq & _).
    apply list_lookup_fmap_Some in Hx as (tab & -> & Htab). by exists tab.
  - rewrite position_None in Hp. intros (tab & -> & Htab)%list_elem_of_fmap.
    assert (true = false); [|done]. rewrite <-(Hp (mkTabRecord (te_title tab) (te_child tab) (te_synchronize_panes tab))).
    + cbn. by rewrite N.eqb_refl.
    + apply list_elem_of_fmap. by exists tab.
Qed.
Lemma tab_holding_finds i :
  in_session (st:=st) (sid:=sid) i → below st (s_root_node s) i → i ≠ s_root_node s →
  ∃ p tab, tab_holding c (client_budget c) tabs i = Ok (Some p)
    ∧ t_tabs t !! p = Some tab ∧ below st (te_child tab) i.
Proof.
  revert i. apply (client_up H M (λ fuel i, below st (s_root_node s) i → i ≠ s_root_node s →
    ∃ p tab, tab_holding c fuel tabs i = Ok (Some p) ∧ t_tabs t !! p = Some tab ∧ below st (te_child tab) i)).
  intros fuel i n o Hn Hsn Hr IH Hb Hne. cbn [tab_holding]. pose proof (tab_position i) as Hp.
  destruct (position _ tabs) as [p|].
  { destruct Hp as (tab & Htab & Hi). exists p, tab. split; [done|]. split; [done|]. by rewrite Hi. }
  rewrite Hr. cbn [mbind option_bind]. rewrite record_parent.
  destruct (below_parent F _ i n Hn Hb) as [->|(p & Hpar & Hbp)]; [done|]. rewrite Hpar.
  destruct (IH p Hpar) as [_ IHp].
  assert (p ≠ s_root_node s) as Hpr.
  { intros ->. apply Hp. destruct (parent_exists F i n _ Hn Hpar) as (m & Hm & Hin). by simplify_eq. }
  destruct (IHp Hbp Hpr) as (q & tab & Hq & Htab & Hbt). exists q, tab. split; [done|]. split; [done|].
  etransitivity; [exact Hbt|].
  destruct (parent_exists F i n _ Hn Hpar) as (m & Hm & Hin).
  by apply (below_step p p m i).
Qed.

(** A format for a pane of a window names the window that holds the pane, by the tab that
    has it, also when the window is not the one shown. *)
Theorem format_names_window base_index pane v :
  nodes st !! pane = Some (BufferView v) → below st (s_root_node s) pane →
  ∃ f p tab, from_state c sid (Some pane) base_index = Ok (Some f)
    ∧ t_tabs t !! p = Some tab ∧ below st (te_child tab) pane
    ∧ fc_session_name f = s_name s ∧ fc_pane_id f = Some pane
    ∧ fc_window_id f = Some (te_child tab) ∧ fc_window_name f = te_title tab
    ∧ fc_window_index f = window_number p base_index.
Proof.
  intros Hv Hb. destruct (so_root _ _ _ (wi_session _ W _ _ Hs)) as (t' & Ht' & _ & Hts).
  rewrite Ht in Ht'. injection Ht' as <-.
  assert (in_session (st:=st) (sid:=sid) pane) as Hin.
  { exists (BufferView v). split; [done|]. rewrite (below_session F _ _ _ _ Ht Hv Hb). done. }
  assert (pane ≠ s_root_node s) as Hne by (intros ->; congruence).
  destruct (tab_holding_finds pane Hin Hb Hne) as (p & tab & Hheld & Htab & Hbelow).
  assert (in_session (st:=st) (sid:=sid) (te_child tab)) as Hchild.
  { apply (session_child H _ (Tabs t) _ Ht Hts). cbn. apply list_elem_of_fmap. exists tab.
    split; [done|]. by eapply list_elem_of_lookup_2. }
  destruct (visible_leaves_total _ Hchild) as [leaves Hleaves].
  destruct (client_node M _ (ex_intro _ (Tabs t) (conj Ht Hts))) as (n & o & Hn & _ & Hr).
  rewrite Ht in Hn. injection Hn as <-.
  assert (tabs !! p = Some (mkTabRecord (te_title tab) (te_child tab) (te_synchronize_panes tab))) as Hlook
    by (subst tabs; by rewrite list_lookup_fmap, Htab).
  unfold from_state. rewrite (mr_session _ _ _ _ M). cbn [sr_root_node_id session_record].
  unfold root_tabs_of, root_tab_position. rewrite Hr.
  cbn [mbind option_bind record_of nr_kind nr_tabs tsr_tabs tsr_active]. fold tabs. rewrite Hheld.
  cbn [mbind outcome_bind default from_option id]. rewrite Hlook. cbn [mbind option_bind tr_child_id].
  rewrite Hleaves. eexists _, p, tab. split; [reflexivity|]. by split_and!.
Qed.
End formats.
Example formats :
  let f := match from_state demo_copy 1%N None (Some 1%N) with Ok (Some f) => Some f | _ => None end in
  (expand_format (lit "#S:#I #{window_name} ##S #{nothing}#x #{open") <$> f)
  = Some (lit "main:2 logs #S #x #{open").
Proof. vm_compute. reflexivity. Qed.
