(* ===== verification/KeysSpec.v ===== *)
(** Bindings: every key typed is resolved once, with the ones before it, and the key a
    binding names is the key it answers to. Names of keys are read back as the keys they
    spell. *)

From S2P Require Import Prelude Keys.

(** ** Resolving what is typed *)

Section resolve.
Context {T : Type} (bindings : gmap rstring (list (BindingSpec T))) (modes : gmap rstring ModeSpec).

(** The keys an answer is about; one that waits for more is about none yet. *)
Definition answered_keys (r : InputResolution T) : list KeyToken :=
  match r with
  | ExactMatch m => match_sequence m
  | PrefixMatch => []
  | Unmatched _ sequence _ => sequence
  end.
Fixpoint type_keys (s : InputState) (keys : list KeyToken) : list (InputResolution T) * InputState :=
  match keys with
  | [] => ([], s)
  | key :: keys =>
      let '(r, s) := resolve_key bindings modes s key in
      let '(rs, s) := type_keys s keys in (r :: rs, s)
  end.

Definition in_mode (mode : rstring) : list (BindingSpec T) := default [] (bindings !! mode).
(** What an answer says is so: an exact match is the first binding with those keys, and
    keys match nothing only when no binding of the mode begins with them. *)
Definition answer_ok (mode : rstring) (r : InputResolution T) : Prop :=
  match r with
  | ExactMatch m => match_mode m = mode ∧ ∃ l1 b l2, in_mode mode = l1 ++ b :: l2
      ∧ bind_sequence b = match_sequence m ∧ bind_target b = match_target m
      ∧ ∀ b', b' ∈ l1 → bind_sequence b' ≠ match_sequence m
  | PrefixMatch => True
  | Unmatched mode' sequence policy => mode' = mode
      ∧ (∀ b, b ∈ in_mode mode → ¬ sequence `prefix_of` bind_sequence b)
      ∧ policy = match modes !! mode with Some m => fallback_policy m | None => Ignore end
  end.
(** Keys wait only for a binding that goes on with them, and is not complete. *)
Definition waiting (s : InputState) : Prop :=
  pending_sequence s = []
  ∨ (∃ b, b ∈ in_mode (current_mode s) ∧ pending_sequence s `prefix_of` bind_sequence b)
    ∧ ∀ b, b ∈ in_mode (current_mode s) → bind_sequence b ≠ pending_sequence s.

Lemma find_first_split (p : BindingSpec T → bool) l b : find_first p l = Some b →
  ∃ l1 l2, l = l1 ++ b :: l2 ∧ p b = true ∧ ∀ b', b' ∈ l1 → p b' = false.
Proof.
  induction l as [|x l IH]; [done|]. simpl. destruct (p x) eqn:Hx.
  - intros [= ->]. exists [], l. split_and!; [done|done|]. by intros b' ?%elem_of_nil.
  - intros (l1 & l2 & -> & Hb & Hl)%IH. exists (x :: l1), l2. split_and!; [done|done|].
    intros b' [->|?]%elem_of_cons; auto.
Qed.
Lemma resolve_one s key : let '(r, s') := resolve_key bindings modes s key in
  current_mode s' = current_mode s
  ∧ answered_keys r ++ pending_sequence s' = pending_sequence s ++ [key]
  ∧ answer_ok (current_mode s) r ∧ waiting s' ∧ (r ≠ PrefixMatch → pending_sequence s' = []).
Proof.
  unfold resolve_key. cbn [push_pending current_mode pending_sequence clear_pending].
  fold (in_mode (current_mode s)). set (pending := pending_sequence s ++ [key]).
  destruct (find_first _ _) as [b|] eqn:Hf.
  { apply find_first_split in Hf as (l1 & l2 & Hl & Hb & Hl1). apply bool_decide_eq_true in Hb.
    cbn [answered_keys match_sequence current_mode pending_sequence].
    split_and!; [done|by rewrite app_nil_r| |by left|done]. split; [done|]. exists l1, b, l2.
    split_and!; [done|done|done|]. intros b' Hb'. cbn [match_sequence]. rewrite Hb.
    by eapply bool_decide_eq_false, Hl1. }
  rewrite find_first_None in Hf.
  destruct (existsb _ _) eqn:He.
  { apply existsb_exists in He as (b & Hin & Hb). apply bool_decide_eq_true in Hb.
    cbn [answered_keys current_mode pending_sequence]. split_and!; try done. right. split.
    - exists b. split; [by apply list_elem_of_In|done].
    - intros b' Hb'. by eapply bool_decide_eq_false, Hf. }
  cbn [answered_keys current_mode pending_sequence].
  split_and!; [done|by rewrite app_nil_r| |by left|done].
  split_and!; [done| |done]. intros b Hb Hp.
  assert (existsb (λ b, bool_decide (pending `prefix_of` bind_sequence b))
    (in_mode (current_mode s)) = true) as Ht; [|by rewrite Ht in He].
  apply existsb_exists. exists b. split; [by apply list_elem_of_In|by apply bool_decide_eq_true].
Qed.
Lemma type_keys_ok keys : ∀ s, waiting s → let '(rs, s') := type_keys s keys in
  current_mode s' = current_mode s ∧ length rs = length keys
  ∧ concat (answered_keys <$> rs) ++ pending_sequence s' = pending_sequence s ++ keys
  ∧ Forall (answer_ok (current_mode s)) rs ∧ waiting s'.
Proof.
  induction keys as [|key keys IH]; intros s Hw; cbn [type_keys].
  - split_and!; [done|done|by rewrite app_nil_r|constructor|done].
  - pose proof (resolve_one s key) as H1. destruct (resolve_key _ _ _ _) as [r s1].
    destruct H1 as (Hm & Hk & Hok & Hw1 & _). specialize (IH s1 Hw1).
    destruct (type_keys s1 keys) as [rs s2]. destruct IH as (Hm2 & Hl & Hk2 & Hrs & Hw2).
    rewrite Hm in Hm2, Hrs. split_and!; [done|by f_equal/=| |by constructor|done].
    cbn [fmap list_fmap concat]. rewrite <-app_assoc, Hk2, app_assoc, Hk. by rewrite <-app_assoc.
Qed.

(** Typing the keys of a binding from the start, no shorter part of which is bound. *)
Lemma type_binding mode done_keys : ∀ keys, keys ≠ [] →
  (∃ b, b ∈ in_mode mode ∧ bind_sequence b = done_keys ++ keys) →
  (∀ b, b ∈ in_mode mode → bind_sequence b `prefix_of` done_keys ++ keys →
     bind_sequence b = done_keys ++ keys ∨ bind_sequence b `prefix_of` done_keys) →
  ∃ m, type_keys (mkInputState mode done_keys) keys
         = (replicate (length keys - 1) PrefixMatch ++ [ExactMatch m], mkInputState mode [])
       ∧ match_sequence m = done_keys ++ keys ∧ answer_ok mode (ExactMatch m).
Proof.
  intros keys. revert done_keys. induction keys as [|key keys IH]; intros done_keys Hne (b & Hb & Hs) Hno.
  { done. }
  cbn [type_keys]. pose proof (resolve_one (mkInputState mode done_keys) key) as H1.
  destruct (resolve_key _ _ _ _) as [r s1] eqn:Hr.
  cbn [current_mode pending_sequence] in H1. destruct H1 as (Hm & Hk & Hok & Hw & Hclear).
  assert (Hpre : (done_keys ++ [key]) ++ keys = done_keys ++ key :: keys) by (by rewrite <-app_assoc).
  destruct r as [m| |mode' sequence policy]; cbn [answered_keys] in Hk.
  - rewrite (Hclear ltac:(done)), app_nil_r in Hk.
    destruct keys as [|key' keys].
    + exists m. cbn. destruct s1 as [mode1 p1]; cbn in Hm, Hclear. subst mode1.
      by rewrite (Hclear ltac:(done)).
    + destruct Hok as (_ & l1 & b' & l2 & Hl & Hb' & _).
      destruct (Hno b') as [Heq|Hp].
      * rewrite Hl. set_solver.
      * rewrite Hb', Hk, <-Hpre. by apply prefix_app_r.
      * rewrite Hb', Hk, <-Hpre in Heq. apply (f_equal length) in Heq. rewrite !length_app in Heq.
        simpl in Heq. lia.
      * rewrite Hb', Hk in Hp. apply prefix_length in Hp. rewrite length_app in Hp. simpl in Hp. lia.
  - destruct s1 as [mode1 p1]; cbn in Hm, Hk. subst mode1 p1.
    destruct keys as [|key' keys].
    { destruct Hw as [Hp|[_ Hn]]; cbn [pending_sequence current_mode] in *.
      - by apply app_eq_nil in Hp as [_ ?].
      - exfalso. by apply (Hn b). }
    destruct (IH (done_keys ++ [key])) as (m & -> & Hmk & Hmok).
    + done.
    + exists b. by rewrite Hpre.
    + rewrite Hpre. intros b' Hin [Heq|Hp]%(Hno b'); [by left| |done].
      right. by apply prefix_app_r.
    + exists m. split_and!; [|by rewrite <-Hpre|done].
      replace (length (key :: key' :: keys) - 1) with (S (length (key' :: keys) - 1)) by (simpl; lia).
      done.
  - exfalso. destruct Hok as (_ & Hn & _). rewrite (Hclear ltac:(done)), app_nil_r in Hk. subst sequence.
    apply (Hn b); [done|]. rewrite Hs, <-Hpre. by apply prefix_app_r.
Qed.
End resolve.
Arguments answered_keys {T} _.


(** ** Spelling keys *)

Lemma named_distinct {A} (p : rstring → bool) (table : list (string * A)) s :
  forallb (λ row, negb (p (lit row.1))) table = true → p s = true → named table s = None.
Proof.
  intros Ht Hs. induction table as [|[name v] table IH]; [done|]. simpl in *.
  apply andb_true_iff in Ht as [Hn Ht]. case_bool_decide as He; [|by apply IH].
  by rewrite <-He, Hs in Hn.
Qed.
Lemma named_elem {A} (table : list (string * A)) s v : named table s = Some v →
  ∃ name, (name, v) ∈ table ∧ s = lit name.
Proof.
  induction table as [|[name v'] table IH]; [done|]. cbn [named]. case_bool_decide as He.
  - intros [= <-]. exists name. split; [by left|done].
  - intros (name' & Hin & ->)%IH. exists name'. split; [by right|done].
Qed.
Lemma named_value {A} (P : A → bool) (table : list (string * A)) s v :
  forallb (λ row, P row.2) table = true → named table s = Some v → P v = true.
Proof.
  intros Ht (name & Hin & _)%named_elem.
  rewrite forallb_forall in Ht. apply (Ht (name, v)). by apply list_elem_of_In.
Qed.

Definition one_char (s : rstring) : bool := length s =? 1.
Definition dashed (s : rstring) : bool := match s !! 1 with Some c => (c =? 45)%N | None => false end.
Lemma lowercase_length s : length (to_ascii_lowercase s) = length s.
Proof. apply length_fmap. Qed.
Lemma one_char_unnamed c : named TOKENS (to_ascii_lowercase [c]) = None
  ∧ named BASE_KEYS (to_ascii_lowercase [c]) = None.
Proof.
  split; apply (named_distinct one_char);
    [by vm_compute| |by vm_compute|]; unfold one_char; by rewrite lowercase_length.
Qed.
Lemma dashed_unnamed c s : named TOKENS (to_ascii_lowercase (c :: 45%N :: s)) = None.
Proof. apply (named_distinct dashed); by vm_compute. Qed.
Lemma base_keys_are_tokens s v : named BASE_KEYS s = Some v → named TOKENS s ≠ None.
Proof.
  intros (name & Hin & ->)%named_elem Hn.
  assert (forallb (λ row, match named TOKENS (lit row.1) with Some _ => true | None => false end)
    BASE_KEYS = true) as Ht by by vm_compute.
  rewrite forallb_forall in Ht. specialize (Ht (name, v)). cbn [fst] in Ht. rewrite Hn in Ht.
  by specialize (Ht (proj1 (list_elem_of_In _ _) Hin)).
Qed.

(** How a key is spelled in a binding: [Ctrl-Alt-x] is [<C-A-x>]. *)
Definition spell_modifiers (m : Modifiers) : rstring :=
  (if md_ctrl m then lit "C-" else []) ++ (if md_alt m then lit "A-" else [])
  ++ (if md_shift m then lit "S-" else []) ++ (if md_super m then lit "D-" else []).
Definition spell_code (code : KeyCode) : rstring :=
  match code with
  | KChar ch => if (ch =? 32)%N then lit "space" else [ch]
  | KEnter => lit "enter" | KTab => lit "tab" | KBackspace => lit "backspace" | KEscape => lit "escape"
  | KUp => lit "up" | KDown => lit "down" | KLeft => lit "left" | KRight => lit "right"
  | KHome => lit "home" | KEnd => lit "end" | KInsert => lit "insert" | KDelete => lit "delete"
  | KPageUp => lit "pageup" | KPageDown => lit "pagedown"
  | KFunction n => 102%N :: decimal n
  end.
Definition key_name (t : KeyToken) : rstring :=
  match t with
  | TLeader => lit "leader"
  | TSpace => lit "space"
  | TChar ch => [ch]
  | _ => match token_key t with
         | Some (code, mods) => spell_modifiers mods ++ spell_code code
         | None => []
         end
  end.
Definition spell (t : KeyToken) : rstring :=
  match t with
  | TChar ch => if (ch =? 60)%N || (ch =? 32)%N then 60%N :: ch :: [62%N] else [ch]
  | _ => 60%N :: key_name t ++ [62%N]
  end.
Definition folded_key (ch : N) : bool := negb (is_ascii_uppercase ch) && negb (ch =? 62)%N.
(** The keys a binding can name. *)
Definition bindable (t : KeyToken) : bool :=
  match t with
  | TCtrl ch => folded_key ch && (ch <? 128)%N
  | TAlt ch => folded_key ch
  | TKey (KChar ch) mods =>
      folded_key ch && negb (mods_empty mods) && negb (bool_decide (mods = only_ctrl))
      && negb (bool_decide (mods = only_alt)) && (negb (md_ctrl mods) || (ch <? 128)%N)
  | TKey (KFunction n) _ => (1 <=? n)%N && (n <=? 12)%N
  | TKey _ mods => negb (mods_empty mods)
  | _ => true
  end.

Lemma twelve n : ((1 <=? n) && (n <=? 12))%N = true →
  n ∈ [1; 2; 3; 4; 5; 6; 7; 8; 9; 10; 11; 12]%N.
Proof.
  intros [H1 H2]%andb_true_iff. apply N.leb_le in H1, H2. rewrite !elem_of_cons.
  assert (n = 1 ∨ n = 2 ∨ n = 3 ∨ n = 4 ∨ n = 5 ∨ n = 6 ∨ n = 7 ∨ n = 8 ∨ n = 9
    ∨ n = 10 ∨ n = 11 ∨ n = 12)%N by lia. naive_solver.
Qed.
Lemma forall_twelve (P : N → bool) n : ((1 <=? n) && (n <=? 12))%N = true →
  forallb P [1; 2; 3; 4; 5; 6; 7; 8; 9; 10; 11; 12]%N = true → P n = true.
Proof. intros Hn%twelve HP. rewrite forallb_forall in HP. by apply HP, list_elem_of_In. Qed.

Definition spellable_code (code : KeyCode) : bool :=
  match code with KFunction n => (1 <=? n)%N && (n <=? 12)%N | _ => true end.
Lemma parse_spelled_code code : spellable_code code = true →
  parse_base_key (spell_code code) = Some code.
Proof.
  destruct code as [ch| | | | | | | | | | | | | | |n]; try (intros _; by vm_compute).
  - intros _. cbn [spell_code]. destruct (N.eqb_spec ch 32) as [->|Hs]; [by vm_compute|].
    unfold parse_base_key. rewrite (proj2 (one_char_unnamed ch)).
    assert (function_key (to_ascii_lowercase [ch]) = None) as ->; [|done].
    unfold to_ascii_lowercase. cbn [fmap list_fmap function_key]. by destruct (_ =? 102)%N.
  - intros Hn. apply (forall_twelve (λ n, bool_decide
      (parse_base_key (spell_code (KFunction n)) = Some (KFunction n)))) in Hn; [|by vm_compute].
    by apply bool_decide_eq_true in Hn.
Qed.
(** The name of a key holds no dash that could end a modifier. *)
Lemma spelled_code_undashed code : spellable_code code = true →
  split_once 45 (spell_code code) = None ∨ ∃ s, split_once 45 (spell_code code) = Some ([], s).
Proof.
  destruct code as [ch| | | | | | | | | | | | | | |n]; try (intros _; by left).
  - intros _. cbn [spell_code]. destruct (ch =? 32)%N; [by left|]. simpl.
    destruct (ch =? 45)%N; [right; eauto|by left].
  - intros Hn. left. apply (forall_twelve (λ n, bool_decide
      (split_once 45 (spell_code (KFunction n)) = None))) in Hn; [|by vm_compute].
    by apply bool_decide_eq_true in Hn.
Qed.
Lemma take_no_modifier fuel token mods had key :
  split_once 45 key = None ∨ (∃ s, split_once 45 key = Some ([], s)) →
  take_modifiers fuel token mods had key = inl (mods, had, key).
Proof. destruct fuel; [done|]. simpl. by intros [->|[s ->]]. Qed.
Lemma take_one fuel token mods had c m key :
  (c =? 45)%N = false → named MODIFIERS (to_ascii_lowercase [c]) = Some m →
  take_modifiers (S fuel) token mods had (c :: 45%N :: key)
  = take_modifiers fuel token (add_modifier m mods) true key.
Proof. intros Hc Hm. cbn [take_modifiers split_once]. rewrite Hc.
  cbn -[named to_ascii_lowercase]. by rewrite Hm. Qed.
Lemma take_spelled fuel token mods key : length (spell_modifiers mods) ≤ fuel →
  split_once 45 key = None ∨ (∃ s, split_once 45 key = Some ([], s)) →
  take_modifiers fuel token NO_MODIFIERS false (spell_modifiers mods ++ key)
  = inl (mods, negb (mods_empty mods), key).
Proof.
  intros Hf Hkey. destruct mods as [[] [] [] []]; vm_compute in Hf;
    repeat (destruct fuel as [|fuel]; [lia|]); clear Hf;
    unfold spell_modifiers; cbn [md_ctrl md_alt md_shift md_super lit app];
    repeat (erewrite take_one; [|done|by vm_compute]); by rewrite (take_no_modifier _ _ _ _ key Hkey).
Qed.

Lemma key_name_token t code mods : token_key t = Some (code, mods) → mods_empty mods = false →
  key_name t = spell_modifiers mods ++ spell_code code.
Proof. destruct t; intros [= <- <-]; done. Qed.
Lemma dashed_modifiers mods key : mods_empty mods = false →
  ∃ c s, spell_modifiers mods ++ key = c :: 45%N :: s.
Proof. destruct mods as [[] [] [] []]; intros He; try done; eexists _, _; reflexivity. Qed.
Lemma lowercase_folded ch : is_ascii_uppercase ch = false → char_to_ascii_lowercase ch = ch.
Proof. unfold char_to_ascii_lowercase. by intros ->. Qed.
(** A name with modifiers. *)
Lemma parse_modified_name code mods : mods_empty mods = false → spellable_code code = true →
  parse_token (spell_modifiers mods ++ spell_code code)
  = if md_ctrl mods && match code with KChar ch => (128 <=? ch)%N | _ => false end
    then inr (NonAsciiControl (spell_modifiers mods ++ spell_code code))
    else inl (modified_token code mods).
Proof.
  intros Hm Hcode. unfold parse_token.
  assert (named TOKENS (to_ascii_lowercase (spell_modifiers mods ++ spell_code code)) = None) as ->.
  { destruct (dashed_modifiers mods (spell_code code) Hm) as (c & s & ->). apply dashed_unnamed. }
  unfold parse_modified_token. rewrite take_spelled; [|rewrite length_app; lia|by apply spelled_code_undashed].
  rewrite parse_spelled_code by done. rewrite Hm. done.
Qed.
Lemma parse_key_name t : bindable t = true → parse_token (key_name t) = inl t.
Proof.
  intros Hb. destruct (token_key t) as [[code mods]|] eqn:Hk; [|by destruct t; vm_compute].
  destruct (mods_empty mods) eqn:Hm.
  { destruct t as [ch| | | | | | | | | | | | | | | | | | |code' mods']; try done;
      try (by injection Hk as <- <-); try by vm_compute.
    - unfold parse_token, parse_modified_token. cbn [key_name]. rewrite (proj1 (one_char_unnamed ch)).
      rewrite take_no_modifier; [|simpl; destruct (ch =? 45)%N; eauto].
      pose proof (parse_spelled_code (KChar ch) eq_refl) as Hp. cbn [spell_code] in Hp.
      destruct (N.eqb_spec ch 32) as [->|]; [by vm_compute|]. by rewrite Hp.
    - injection Hk as -> ->. destruct mods as [[] [] [] []]; try done.
      destruct code as [ch| | | | | | | | | | | | | | |n]; try done.
      { cbn in Hb. by rewrite andb_false_r in Hb. }
      apply (forall_twelve (λ n, match parse_token (key_name (TKey (KFunction n) NO_MODIFIERS)) with
        | inl t => bool_decide (t = TKey (KFunction n) NO_MODIFIERS) | inr _ => false end)) in Hb;
        [|by vm_compute].
      unfold NO_MODIFIERS in *. destruct (parse_token _) as [t|]; [|done].
      by apply bool_decide_eq_true in Hb as ->. }
  rewrite (key_name_token t code mods Hk Hm). rewrite parse_modified_name; [|done|].
  2: { destruct t; try done; injection Hk as <- <-; try done. by destruct code0. }
  destruct t as [ch|ch|ch| | | | | | | | | | | | | | | | |code' mods']; try done; injection Hk as <- <-; try done.
  - cbn in Hb |- *. apply andb_true_iff in Hb as [[Hu _]%andb_true_iff Ha].
    rewrite N.leb_antisym, Ha. cbn. apply negb_true_iff in Hu. by rewrite Hu.
  - cbn in Hb |- *. apply andb_true_iff in Hb as [Hu _]. apply negb_true_iff in Hu. by rewrite Hu.
  - destruct code' as [ch| | | | | | | | | | | | | | |n]; try by rewrite andb_false_r.
    cbn [bindable] in Hb. rewrite !andb_true_iff in Hb. destruct Hb as [[[[Hf _] Hc] Ha] Hasc].
    unfold folded_key in Hf. apply andb_true_iff in Hf as [Hu _].
    assert (md_ctrl mods' && (128 <=? ch)%N = false) as ->.
    { destruct (md_ctrl mods'); [|done]. rewrite N.leb_antisym. cbn in Hasc |- *. by rewrite Hasc. }
    unfold modified_token. apply negb_true_iff in Hu, Hc, Ha. rewrite Hc, Ha.
    by rewrite lowercase_folded.
Qed.

Lemma split_once_app c s rest : Forall (λ d, d ≠ c) s → split_once c (s ++ c :: rest) = Some (s, rest).
Proof.
  induction 1 as [|d s Hd _ IH]; simpl; [by rewrite N.eqb_refl|].
  rewrite (proj2 (N.eqb_neq d c) Hd), IH. done.
Qed.
Lemma split_once_spec c s l r : split_once c s = Some (l, r) → s = l ++ c :: r ∧ Forall (λ d, d ≠ c) l.
Proof.
  revert l. induction s as [|d s IH]; intros l; simpl; [done|].
  destruct (N.eqb_spec d c) as [->|Hd]; [by intros [= <- <-]|].
  destruct (split_once c s) as [[l' r']|]; [|done]. intros [= <- <-]. simpl.
  destruct (IH l' eq_refl) as [-> ?]. split; [done|by constructor].
Qed.

Lemma spelled_modifiers_open mods : Forall (λ d, d ≠ 62%N) (spell_modifiers mods).
Proof. destruct mods as [[] [] [] []]; repeat (constructor; [done|]); constructor. Qed.
Lemma spelled_code_open code : code ≠ KChar 62 → Forall (λ d, d ≠ 62%N) (spell_code code).
Proof.
  intros Hc. destruct code as [ch| | | | | | | | | | | | | | |n];
    try solve [repeat (constructor; [done|]); constructor].
  - cbn [spell_code]. destruct (ch =? 32)%N; [repeat (constructor; [done|]); constructor|].
    constructor; [by intros ->|constructor].
  - constructor; [done|]. eapply Forall_impl; [apply decimal_digits|]. intros d [? ?]. lia.
Qed.
Lemma key_name_open t : bindable t = true → t ≠ TChar 62 → Forall (λ d, d ≠ 62%N) (key_name t).
Proof.
  intros Hb Ht. destruct (token_key t) as [[code mods]|] eqn:Hk;
    [|destruct t; try done; repeat (constructor; [done|]); constructor].
  destruct t as [ch|ch|ch| | | | | | | | | | | | | | | | |code' mods'];
    try (apply Forall_app; split; [apply spelled_modifiers_open|apply spelled_code_open; done]);
    try solve [repeat (constructor; [done|]); constructor].
  - constructor; [by intros ->|constructor].
  - apply Forall_app; split; [apply spelled_modifiers_open|apply spelled_code_open]. by intros [= ->].
  - apply Forall_app; split; [apply spelled_modifiers_open|apply spelled_code_open]. by intros [= ->].
  - apply Forall_app; split; [apply spelled_modifiers_open|apply spelled_code_open].
    intros [= ->]. by cbn in Hb.
Qed.
Lemma parse_keys_spelled ts : Forall (λ t, bindable t = true) ts → ∀ fuel notation sequence,
  length (concat (spell <$> ts)) ≤ fuel →
  parse_keys fuel notation (concat (spell <$> ts)) sequence = inl (sequence ++ ts).
Proof.
  induction 1 as [|t ts Ht _ IH]; intros fuel notation sequence Hf.
  { destruct fuel; simpl; by rewrite app_nil_r. }
  cbn [fmap list_fmap concat] in Hf |- *. rewrite length_app in Hf.
  assert (Hlong : spell t = 60%N :: key_name t ++ [62%N] → t ≠ TChar 62 →
    parse_keys fuel notation (spell t ++ concat (spell <$> ts)) sequence = inl (sequence ++ t :: ts)).
  { intros Hs H62. rewrite Hs in Hf |- *. simpl in Hf. destruct fuel as [|fuel]; [lia|].
    cbn [app parse_keys]. rewrite <-app_assoc, N.eqb_refl. cbn [app].
    rewrite split_once_app by (by apply key_name_open).
    rewrite parse_key_name, IH by (done || rewrite length_app in Hf; simpl in Hf; lia).
    by rewrite <-app_assoc. }
  destruct t as [ch| | | | | | | | | | | | | | | | | | |]; try (by apply Hlong).
  cbn [spell] in *. destruct ((ch =? 60) || (ch =? 32))%N eqn:Hc.
  { apply Hlong; [done|]. by intros [= ->]. }
  apply orb_false_iff in Hc as [H60 H32]. simpl in Hf. destruct fuel as [|fuel]; [lia|].
  cbn [app parse_keys]. rewrite H60, H32, IH by lia. by rewrite <-app_assoc.
Qed.

(** ** What a binding can name *)

Lemma add_modifier_some m mods : mods_empty (add_modifier m mods) = false.
Proof. destruct m, mods as [[] [] [] []]; done. Qed.
Lemma take_modifiers_spec fuel token mods had key mods' had' key' :
  take_modifiers fuel token mods had key = inl (mods', had', key') →
  Forall (λ d, d ≠ 62%N) key → had = negb (mods_empty mods) → (had = false → key = token) →
  Forall (λ d, d ≠ 62%N) key' ∧ had' = negb (mods_empty mods') ∧ (had' = false → key' = token).
Proof.
  revert mods had key. induction fuel as [|fuel IH]; intros mods had key; cbn [take_modifiers].
  { by intros [= <- <- <-]. }
  destruct (split_once 45 key) as [[[|c head] tail]|] eqn:Hs; [by intros [= <- <- <-]| |by intros [= <- <- <-]].
  destruct (named MODIFIERS _) as [m|]; [|done]. intros Ht Hkey _ _.
  apply (IH _ _ _ Ht).
  - apply split_once_spec in Hs as [-> _]. apply Forall_app in Hkey as [_ Hkey]. by apply Forall_cons in Hkey as [_ ?].
  - by rewrite add_modifier_some.
  - done.
Qed.
Lemma function_key_spec s n : function_key s = Some n → ((1 <=? n) && (n <=? 12))%N = true.
Proof.
  destruct s as [|c s]; [done|]. cbn [function_key]. destruct (c =? 102)%N; [|done].
  destruct (parse_u8 s) as [m|]; [|done]. cbn. destruct ((1 <=? m) && (m <=? 12))%N eqn:Hm; [|done].
  by intros [= <-].
Qed.
(** A code a name stands for: a function key there is, or a character it can show. *)
Definition nameable (code : KeyCode) : bool :=
  match code with
  | KChar ch => negb (ch =? 62)%N
  | KFunction n => (1 <=? n)%N && (n <=? 12)%N
  | _ => true
  end.
Lemma parse_base_key_spec key code : parse_base_key key = Some code →
  Forall (λ d, d ≠ 62%N) key → nameable code = true.
Proof.
  unfold parse_base_key. intros Hp Hkey. destruct (named BASE_KEYS _) as [code'|] eqn:Hn.
  { injection Hp as <-. eapply named_value; [|exact Hn]. by vm_compute. }
  destruct (function_key _) as [n|] eqn:Hf; [injection Hp as <-; by apply function_key_spec in Hf|].
  destruct key as [|c [|? ?]]; try done. injection Hp as <-. apply Forall_cons in Hkey as [Hc _].
  cbn. by rewrite (proj2 (N.eqb_neq c 62) Hc).
Qed.
Lemma unnamed_base_key token code : named TOKENS (to_ascii_lowercase token) = None →
  parse_base_key token = Some code → is_char code = true ∨ ∃ n, code = KFunction n.
Proof.
  intros Ht. unfold parse_base_key. destruct (named BASE_KEYS _) as [c|] eqn:Hn.
  { by apply base_keys_are_tokens in Hn. }
  destruct (function_key _) as [n|]; [intros [= <-]; eauto|].
  destruct token as [|c [|? ?]]; try done. intros [= <-]. by left.
Qed.
Lemma lowercase_not_upper ch : is_ascii_uppercase (char_to_ascii_lowercase ch) = false.
Proof.
  unfold char_to_ascii_lowercase, is_ascii_uppercase.
  destruct ((65 <=? ch) && (ch <=? 90))%N eqn:H; [|done].
  apply andb_true_iff in H as [H1 H2]. apply N.leb_le in H1, H2.
  rewrite (proj2 (N.leb_gt (ch + 32) 90)) by lia. by rewrite andb_false_r.
Qed.
Lemma lowercase_folded_key ch : ch ≠ 62%N → folded_key (char_to_ascii_lowercase ch) = true.
Proof.
  intros Hc. unfold folded_key. rewrite lowercase_not_upper. cbn.
  unfold char_to_ascii_lowercase, is_ascii_uppercase.
  destruct ((65 <=? ch) && (ch <=? 90))%N eqn:H.
  - apply andb_true_iff in H as [H1 _]. apply N.leb_le in H1.
    by rewrite (proj2 (N.eqb_neq (ch + 32) 62)) by lia.
  - by rewrite (proj2 (N.eqb_neq ch 62) Hc).
Qed.
Lemma lowercase_ascii ch : (char_to_ascii_lowercase ch <? 128)%N = (ch <? 128)%N.
Proof.
  unfold char_to_ascii_lowercase, is_ascii_uppercase.
  destruct ((65 <=? ch) && (ch <=? 90))%N eqn:H; [|done].
  apply andb_true_iff in H as [H1 H2]. apply N.leb_le in H1, H2.
  rewrite !(proj2 (N.ltb_lt _ _)) by lia. done.
Qed.
(** Folding makes a key a binding can name, whatever the modifiers. *)
Lemma folded_bindable code mods : nameable code = true → mods_empty mods = false →
  md_ctrl mods && match code with KChar ch => (128 <=? ch)%N | _ => false end = false →
  (is_char code = true → mods ≠ only_ctrl ∧ mods ≠ only_alt) →
  bindable (TKey match code with KChar ch => KChar (char_to_ascii_lowercase ch) | other => other end mods)
  = true.
Proof.
  intros Hn Hm Ha Hc. destruct code as [ch| | | | | | | | | | | | | | |n]; cbn in *; try (by rewrite Hm); [|done].
  destruct (Hc eq_refl) as [Hc1 Hc2]. apply negb_true_iff, N.eqb_neq in Hn.
  rewrite lowercase_folded_key, Hm, lowercase_ascii by done.
  rewrite !bool_decide_eq_false_2 by done. cbn.
  destruct (md_ctrl mods); [|done]. cbn in Ha |- *. by rewrite N.ltb_antisym, Ha.
Qed.
Lemma modified_bindable code mods : nameable code = true → mods_empty mods = false →
  md_ctrl mods && match code with KChar ch => (128 <=? ch)%N | _ => false end = false →
  bindable (modified_token code mods) = true.
Proof.
  intros Hn Hm Ha. unfold modified_token.
  destruct code as [ch| | | | | | | | | | | | | | |n];
    try (apply (folded_bindable _ _ Hn Hm Ha); done).
  assert (Hu : ∀ ch, nameable (KChar ch) = true → is_ascii_uppercase ch = false → folded_key ch = true).
  { intros d Hd Hu. unfold folded_key. rewrite Hu. exact Hd. }
  case_bool_decide as Hc; [|case_bool_decide as Hal].
  - subst mods. cbn in Ha. destruct (is_ascii_uppercase ch) eqn:Hup.
    + apply (folded_bindable (KChar ch) (mkModifiers true false true false)); [done..|].
      intros _. by split.
    + cbn. rewrite (Hu ch Hn Hup). by rewrite N.ltb_antisym, Ha.
  - subst mods. destruct (is_ascii_uppercase ch) eqn:Hup.
    + apply (folded_bindable (KChar ch) (mkModifiers true true false false)); [done..|].
      intros _. by split.
    + cbn. by apply Hu.
  - by apply (folded_bindable (KChar ch) mods).
Qed.
Lemma parse_token_bindable token t : parse_token token = inl t →
  Forall (λ d, d ≠ 62%N) token → bindable t = true.
Proof.
  unfold parse_token. destruct (named TOKENS _) as [t'|] eqn:Hn.
  { intros [= <-] _. eapply named_value; [|exact Hn]. by vm_compute. }
  unfold parse_modified_token. intros Hp Htok.
  destruct (take_modifiers _ _ _ _ _) as [[[mods had] key]|] eqn:Ht; [|done].
  apply take_modifiers_spec in Ht as (Hkey & -> & Htk); [|done..].
  destruct (parse_base_key key) as [code|] eqn:Hc; [|done].
  pose proof (parse_base_key_spec _ _ Hc Hkey) as Hname.
  destruct (md_ctrl mods && _) eqn:Ha; [done|]. rewrite negb_involutive in Hp.
  destruct (mods_empty mods) eqn:Hm; injection Hp as <-.
  - rewrite (Htk eq_refl) in Hc. destruct (unnamed_base_key _ _ Hn Hc) as [?|[n ->]]; [|done].
    by destruct code.
  - by apply modified_bindable.
Qed.
Lemma parse_keys_bindable fuel notation chars sequence ts :
  parse_keys fuel notation chars sequence = inl ts → Forall (λ t, bindable t = true) sequence →
  Forall (λ t, bindable t = true) ts.
Proof.
  revert chars sequence. induction fuel as [|fuel IH]; intros chars sequence; cbn [parse_keys].
  { by intros [= <-]. }
  destruct chars as [|c rest]; [by intros [= <-]|]. destruct (c =? 60)%N.
  - destruct (split_once 62 rest) as [[token rest']|] eqn:Hs; [|done].
    destruct (parse_token token) as [t|] eqn:Ht; [|done]. intros Hp Hseq. apply (IH _ _ Hp).
    apply Forall_app; split; [done|]. apply Forall_singleton.
    apply (parse_token_bindable token); [done|]. by apply split_once_spec in Hs as [_ ?].
  - destruct (c =? 32)%N; intros Hp Hseq; apply (IH _ _ Hp);
      (apply Forall_app; split; [done|by apply Forall_singleton]).
Qed.

(** The key that an event reports, with the modifiers held: letters are small when a modifier is
    held, and a capital with Alt is the letter with Shift. *)
Definition reported_key (e : KeyEvent) : option (KeyCode * Modifiers) :=
  match e with
  | EChar ch => Some (KChar ch, NO_MODIFIERS)
  | EBytes _ => None
  | EEnter => Some (KEnter, NO_MODIFIERS) | ETab => Some (KTab, NO_MODIFIERS)
  | EBackspace => Some (KBackspace, NO_MODIFIERS) | EEscape => Some (KEscape, NO_MODIFIERS)
  | ECtrl ch => Some (KChar (char_to_ascii_lowercase ch), only_ctrl)
  | EAlt ch => Some (KChar (char_to_ascii_lowercase ch), mkModifiers (is_ascii_uppercase ch) true false false)
  | EUp => Some (KUp, NO_MODIFIERS) | EDown => Some (KDown, NO_MODIFIERS)
  | ELeft => Some (KLeft, NO_MODIFIERS) | ERight => Some (KRight, NO_MODIFIERS)
  | EHome => Some (KHome, NO_MODIFIERS) | EEnd => Some (KEnd, NO_MODIFIERS)
  | EInsert => Some (KInsert, NO_MODIFIERS) | EDelete => Some (KDelete, NO_MODIFIERS)
  | EPageUp => Some (KPageUp, NO_MODIFIERS) | EPageDown => Some (KPageDown, NO_MODIFIERS)
  | EKey (KChar ch) mods =>
      Some (KChar (if decide (mods = NO_MODIFIERS) then ch else char_to_ascii_lowercase ch), mods)
  | EKey code mods => Some (code, mods)
  end.
(** The keys a terminal reports that no binding can name: [>] with modifiers, characters
    outside ASCII with Ctrl, function keys there are not, and one of ten named keys without
    modifiers, when it is reported in the form reports with modifiers have. *)
Definition moves_or_edits (code : KeyCode) : bool :=
  match code with
  | KUp | KDown | KLeft | KRight | KHome | KEnd | KInsert | KDelete | KPageUp | KPageDown => true
  | _ => false
  end.
Definition unbindable (e : KeyEvent) : Prop :=
  (∃ mods, reported_key e = Some (KChar 62, mods) ∧ mods ≠ NO_MODIFIERS)
  ∨ (∃ ch mods, reported_key e = Some (KChar ch, mods) ∧ md_ctrl mods = true ∧ (128 ≤ ch)%N)
  ∨ (∃ n mods, e = EKey (KFunction n) mods ∧ ((n < 1)%N ∨ (12 < n)%N))
  ∨ ∃ code, e = EKey code NO_MODIFIERS ∧ moves_or_edits code = true.
Lemma mods_empty_spec mods : mods_empty mods = true ↔ mods = NO_MODIFIERS.
Proof. destruct mods as [[] [] [] []]; split; done. Qed.
Lemma folded_key_lowercase ch :
  folded_key (char_to_ascii_lowercase ch) = true ↔ char_to_ascii_lowercase ch ≠ 62%N.
Proof. unfold folded_key. rewrite lowercase_not_upper. cbn. by rewrite negb_true_iff, N.eqb_neq. Qed.
(** With modifiers, a character other than [>] can be named, if it is ASCII or without Ctrl. *)
Lemma bindable_character ch mods : mods ≠ NO_MODIFIERS → ∃ t,
  normalize_key_token (KChar ch) mods = t ∧ token_key t = Some (KChar (char_to_ascii_lowercase ch), mods)
  ∧ (bindable t = true ↔ char_to_ascii_lowercase ch ≠ 62%N
      ∧ (md_ctrl mods = true → (char_to_ascii_lowercase ch < 128)%N)).
Proof.
  intros Hm. eexists. split; [reflexivity|]. unfold normalize_key_token.
  case_bool_decide as Hc; [|case_bool_decide as Ha].
  - subst mods. split; [done|]. cbn [bindable]. rewrite andb_true_iff, folded_key_lowercase, N.ltb_lt. cbn. naive_solver.
  - subst mods. split; [done|]. cbn [bindable]. rewrite folded_key_lowercase. cbn. naive_solver.
  - split; [done|]. cbn [bindable]. rewrite !andb_true_iff, folded_key_lowercase, !bool_decide_eq_false_2 by done.
    rewrite orb_true_iff, N.ltb_lt, !negb_true_iff, <-not_true_iff_false, mods_empty_spec.
    destruct (md_ctrl mods); naive_solver.
Qed.
Lemma unbindable_character e ch mods : reported_key e = Some (KChar ch, mods) → mods ≠ NO_MODIFIERS →
  (¬ unbindable e ↔ ch ≠ 62%N ∧ (md_ctrl mods = true → (ch < 128)%N)).
Proof.
  intros He Hm. unfold unbindable. rewrite He. split.
  - intros Hno. split; [intros ->; apply Hno; left; by exists mods|].
    intros Hc. apply N.lt_nge. intros Hge. apply Hno. right; left. by exists ch, mods.
  - intros [H1 H2] [(? & [= -> ->] & ?)|[(? & ? & [= <- <-] & Hc & ?)|[(n & mods' & -> & _)|(code & -> & Hcode)]]];
      [done|specialize (H2 Hc); lia|done|]. by destruct code.
Qed.
(** Other keys of the form reports with modifiers have. *)
Lemma bindable_named code mods : is_char code = false →
  normalize_text_key (EKey code mods) = EKey code mods →
  bindable (normalize_key_token code mods) = true ↔ ¬ unbindable (EKey code mods).
Proof.
  intros Hchar Hsame. unfold unbindable.
  assert (∀ c m, reported_key (EKey code mods) ≠ Some (KChar c, m)) as Hno by (intros c m; by destruct code).
  split.
  - intros Hb [(? & ? & _)|[(? & ? & ? & _)|[(n & ? & [= -> ->] & Hn)|(code' & [= -> ->] & Hcode)]]];
      [by eapply Hno|by eapply Hno| |by destruct code'].
    cbn in Hb. apply andb_true_iff in Hb as [H1%N.leb_le H2%N.leb_le]. lia.
  - intros Hn. destruct (mods_empty mods) eqn:Hm.
    + apply mods_empty_spec in Hm as ->. destruct code; try done; try (destruct Hn; do 3 right; by eexists).
      cbn. apply andb_true_iff. rewrite !N.leb_le. destruct (decide (n < 1 ∨ 12 < n)%N) as [Hr|]; [|lia].
      destruct Hn. right; right; left. by eexists _, _.
    + destruct code as [| | | | | | | | | | | | | | |n]; try done; try (cbn; by rewrite Hm).
      cbn. apply andb_true_iff. rewrite !N.leb_le. destruct (decide (n < 1 ∨ 12 < n)%N) as [Hr|]; [|lia].
      destruct Hn. right; right; left. by eexists _, _.
Qed.
(** A key without modifiers, reported as itself. *)
Lemma bindable_plain e code : reported_key e = Some (code, NO_MODIFIERS) →
  (∀ c mods, e = EKey c mods → moves_or_edits c = false ∧ ∀ n, c ≠ KFunction n) → ¬ unbindable e.
Proof.
  intros He Hk [(mods & Hm & Hne)|[(ch & mods & Hm & Hc & _)|[(n & mods & -> & _)|(c & -> & Hc)]]].
  - rewrite He in Hm. injection Hm as -> <-. done.
  - rewrite He in Hm. by injection Hm as -> <-.
  - by destruct (Hk _ _ eq_refl) as [_ Hf]; destruct (Hf n).
  - destruct (Hk _ _ eq_refl) as [Hf _]. by rewrite Hf in Hc.
Qed.
Lemma reported_token e key : reported_key e = Some key → ∃ t,
  key_event_to_token (normalize_text_key e) = Ok t ∧ token_key t = Some key
  ∧ (bindable t = true ↔ ¬ unbindable e).
Proof.
  intros He. destruct e as [ch|bytes| | | | |ch|ch| | | | | | | | | | |code mods]; cbn [reported_key] in He; try discriminate He;
    try (injection He as <-);
    try (eexists; split; [reflexivity|]; split; [reflexivity|];
         split; [intros _; eapply bindable_plain; [reflexivity|done]|done]; done).
  - eexists. split; [reflexivity|]. split; [by destruct (N.eqb_spec ch 32) as [->|]|].
    split; [intros _; by eapply bindable_plain|]. by destruct (_ =? _)%N.
  - destruct (bindable_character ch only_ctrl) as (t & <- & Hk & Hb); [done|]. eexists. split; [reflexivity|].
    split; [done|]. by rewrite (unbindable_character (ECtrl ch) _ _ eq_refl).
  - set (mods := mkModifiers (is_ascii_uppercase ch) true false false).
    assert (mods ≠ NO_MODIFIERS) as Hm by done.
    destruct (bindable_character ch mods) as (t & Ht & Hk & Hb); [done|]. exists t.
    split; [|split; [done|by rewrite (unbindable_character (EAlt ch) _ mods eq_refl)]].
    subst t mods. cbn [normalize_text_key key_event_to_token]. f_equal. unfold normalize_key_token.
    destruct (is_ascii_uppercase ch) eqn:Hu; [done|].
    unfold char_to_ascii_lowercase. by rewrite Hu.
  - destruct (decide (is_char code = true)) as [Hchar|Hchar%not_true_iff_false].
    + destruct code as [ch| | | | | | | | | | | | | | |n]; try discriminate Hchar. cbn [reported_key] in He.
      injection He as <-. destruct (decide (mods = NO_MODIFIERS)) as [->|Hm].
      * eexists. split; [reflexivity|]. split; [by cbn; destruct (N.eqb_spec ch 32) as [->|]|].
        split; [intros _; eapply bindable_plain; [reflexivity|by intros ? ? [= <- <-]]|].
        cbn. by destruct (_ =? _)%N.
      * destruct (bindable_character ch mods) as (t & <- & Hk & Hb); [done|].
        exists (normalize_key_token (KChar ch) mods). split.
        { cbn [normalize_text_key]. destruct (mods_empty mods) eqn:Hmm; [by apply mods_empty_spec in Hmm|done]. }
        split; [done|]. rewrite (unbindable_character (EKey (KChar ch) mods) (char_to_ascii_lowercase ch) mods);
          [done| |done]. cbn [reported_key]. by rewrite decide_False.
    + assert (key = (code, mods)) as -> by (destruct code; [done|cbn in He; congruence..]). clear He.
      assert (normalize_text_key (EKey code mods) = EKey code mods
        ∨ mods = NO_MODIFIERS ∧ code ∈ [KTab; KEnter; KBackspace; KEscape]) as [Hsame|[-> Hcode]].
      { cbn [normalize_text_key]. destruct (mods_empty mods) eqn:Hm; [|by left].
        apply mods_empty_spec in Hm. destruct code; try done; try (by left); right; (split; [done|set_solver]). }
      * rewrite Hsame. exists (normalize_key_token code mods). split_and!; [done|by destruct code|].
        by apply bindable_named.
      * destruct code; try (by set_solver);
          (eexists; split; [reflexivity|]; split; [reflexivity|]; split; [|done];
           intros _; eapply bindable_plain; [reflexivity|by intros ? ? [= <- <-]]).
Qed.

(** C40: Whatever keys are typed in a mode, every one is answered for once and in order:
    the keys of the answers so far and the ones still waiting are the keys typed. An exact
    match is the first binding of the mode with just those keys, keys are given up only when
    no binding begins with them, and keys wait only while a binding goes on with them. The
    keys of a binding no shorter part of which is bound wait, all but the last, and then
    match, leaving nothing behind. *)
Theorem typed_keys_resolve {T} (bindings : gmap rstring (list (BindingSpec T)))
    (modes : gmap rstring ModeSpec) :
  (∀ s keys, waiting bindings s → let '(answers, s') := type_keys bindings modes s keys in
     current_mode s' = current_mode s ∧ length answers = length keys
     ∧ concat (answered_keys <$> answers) ++ pending_sequence s' = pending_sequence s ++ keys
     ∧ Forall (answer_ok bindings modes (current_mode s)) answers ∧ waiting bindings s')
  ∧ ∀ mode keys, keys ≠ [] → (∃ b, b ∈ in_mode bindings mode ∧ bind_sequence b = keys) →
     (∀ b, b ∈ in_mode bindings mode → bind_sequence b `prefix_of` keys →
        bind_sequence b = keys ∨ bind_sequence b = []) →
     ∃ m, type_keys bindings modes (mkInputState mode []) keys
         = (replicate (length keys - 1) PrefixMatch ++ [ExactMatch m], mkInputState mode [])
       ∧ match_sequence m = keys ∧ answer_ok bindings modes mode (ExactMatch m).
Proof.
  split; [intros s keys; by apply type_keys_ok|].
  intros mode keys Hne Hex Hno. apply (type_binding bindings modes mode []); [done|done|].
  intros b Hb [Heq|Heq]%(Hno b Hb); [by left|right]. rewrite Heq. apply prefix_nil.
Qed.

Definition some_bindings : gmap rstring (list (BindingSpec N)) :=
  {[ NORMAL_MODE := [mkBindingSpec (lit "gx") [TChar 103; TChar 120] 1%N;
                     mkBindingSpec (lit "<C-a>gg") [TCtrl 97; TChar 103; TChar 103] 2%N] ]}.
Lemma typed_keys_resolve_witness :
  (let '(answers, s') := type_keys some_bindings builtin_modes InputState_default
     [TChar 103; TChar 103; TCtrl 97; TChar 103] in
   answers = [PrefixMatch; Unmatched NORMAL_MODE [TChar 103; TChar 103] Passthrough; PrefixMatch; PrefixMatch]
   ∧ concat (answered_keys <$> answers) ++ pending_sequence s' = [TChar 103; TChar 103; TCtrl 97; TChar 103])
  ∧ ∃ m, type_keys some_bindings builtin_modes InputState_default [TCtrl 97; TChar 103; TChar 103]
           = (replicate 2 PrefixMatch ++ [ExactMatch m], InputState_default) ∧ match_target m = 2%N.
Proof.
  pose proof (typed_keys_resolve some_bindings builtin_modes) as [Hany Hbound]. split.
  - specialize (Hany InputState_default [TChar 103; TChar 103; TCtrl 97; TChar 103] ltac:(by left)).
    destruct (type_keys _ _ _ _) as [answers s'] eqn:He. destruct Hany as (_ & _ & Hc & _).
    split; [|exact Hc]. vm_compute in He. by injection He as <- _.
  - destruct (Hbound NORMAL_MODE [TCtrl 97; TChar 103; TChar 103]%N) as (m & Hm & _ & _).
    + done.
    + eexists. split; [right; left|]; reflexivity.
    + intros b Hb Hp. rewrite (eq_refl : in_mode some_bindings NORMAL_MODE
        = [mkBindingSpec (lit "gx") [TChar 103; TChar 120] 1%N;
           mkBindingSpec (lit "<C-a>gg") [TCtrl 97; TChar 103; TChar 103] 2%N]%N) in Hb.
      apply elem_of_cons in Hb as [->|Hb%list_elem_of_singleton]; [|subst b; by left].
      cbn [bind_sequence] in Hp. destruct Hp as [k Hp]. discriminate Hp.
    + exists m. split; [exact Hm|]. vm_compute in Hm. by injection Hm as <-.
Defined.

(** C39: Keys that can be named in a binding, spelled one after the other, are read back as
    those keys, and only keys that can be named are ever read. Every key the terminal reports,
    text that came as bytes apart, is made the key with its code and its modifiers; it can be
    named unless it is [>] with modifiers, a character outside ASCII with Ctrl, a function key
    outside of F1 to F12, or one of the arrow, Home, End, Insert, Delete and page keys reported
    without modifiers in the form of keys with modifiers, and those cannot be. *)
Theorem keys_can_be_bound :
  (∀ ts, ts ≠ [] → Forall (λ t, bindable t = true) ts →
     parse_key_sequence (concat (spell <$> ts)) = inl ts)
  ∧ (∀ notation ts, parse_key_sequence notation = inl ts → Forall (λ t, bindable t = true) ts)
  ∧ ∀ e key, reported_key e = Some key → ∃ t,
      key_event_to_token (normalize_text_key e) = Ok t ∧ token_key t = Some key
      ∧ (bindable t = true ↔ ¬ unbindable e).
Proof.
  split_and!; [| |exact reported_token].
  - intros ts Hne Hts. pose proof (parse_keys_spelled ts Hts) as Hp.
    unfold parse_key_sequence. destruct (concat (spell <$> ts)) as [|c s] eqn:He; [|by apply Hp].
    destruct ts as [|t ts]; [done|]. destruct t; try done. by cbn in He; destruct (_ || _).
  - intros notation ts. unfold parse_key_sequence. destruct notation as [|c s]; [done|].
    intros Hp. by apply (parse_keys_bindable _ _ _ _ _ Hp).
Qed.
Lemma keys_can_be_bound_witness :
  (let ts := [TCtrl 97; TKey (KChar 110) (mkModifiers true false true false); TChar 60; TSpace;
              TKey (KFunction 5) NO_MODIFIERS]%N in
   concat (spell <$> ts) = lit "<C-a><C-S-n><<><space><f5>" ∧ parse_key_sequence (concat (spell <$> ts)) = inl ts)
  ∧ ∃ t, key_event_to_token (normalize_text_key (EKey KUp only_ctrl)) = Ok t
      ∧ token_key t = Some (KUp, only_ctrl) ∧ bindable t = true.
Proof.
  split.
  - intros ts. split; [by vm_compute|]. apply (proj1 keys_can_be_bound); [done|].
    repeat (constructor; [by vm_compute|]). constructor.
  - destruct (proj2 (proj2 keys_can_be_bound) (EKey KUp only_ctrl) _ eq_refl) as (t & Ht & Hk & Hb).
    exists t. split_and!; [exact Ht|exact Hk|]. apply Hb.
    intros [(? & ? & _)|[(? & ? & ? & _)|[(? & ? & ? & _)|(? & ? & _)]]]; discriminate.
Defined.
