(* ===== verification/TerminalSpec.v ===== *)
(** Keys sent to a program are the keys a terminal of the same program reads: encoding,
    [input/encoding.rs], against decoding, [embers-cli/src/interactive.rs]. *)

From S2P Require Import Prelude Keys TerminalInput KeysSpec.

(** ** Characters in UTF-8 *)

Ltac decide_N := repeat match goal with
  | |- context [(?a <? ?b)%N] =>
      first [rewrite (proj2 (N.ltb_lt a b)) by lia | rewrite (proj2 (N.ltb_ge a b)) by lia]
  | |- context [(?a <=? ?b)%N] =>
      first [rewrite (proj2 (N.leb_le a b)) by lia | rewrite (proj2 (N.leb_gt a b)) by lia]
  | |- context [(?a =? ?b)%N] =>
      first [rewrite (proj2 (N.eqb_eq a b)) by lia | rewrite (proj2 (N.eqb_neq a b)) by lia]
  end.
Lemma sextets ch : ∃ a b c d, (ch / 64 = a * 4096 + b * 64 + c ∧ ch mod 64 = d
  ∧ (ch / 64) mod 64 = c ∧ ch / 4096 = a * 64 + b ∧ (ch / 4096) mod 64 = b ∧ ch / 262144 = a
  ∧ ch = a * 262144 + b * 4096 + c * 64 + d ∧ b < 64 ∧ c < 64 ∧ d < 64)%N.
Proof.
  exists (ch / 262144)%N, ((ch / 4096) mod 64)%N, ((ch / 64) mod 64)%N, (ch mod 64)%N.
  replace (ch / 4096)%N with (ch / 64 / 64)%N by (rewrite N.Div0.div_div; done).
  replace (ch / 262144)%N with (ch / 64 / 64 / 64)%N by (rewrite !N.Div0.div_div; done).
  pose proof (N.div_mod' ch 64). pose proof (N.div_mod' (ch / 64) 64).
  pose proof (N.div_mod' (ch / 64 / 64) 64).
  pose proof (N.mod_lt ch 64). pose proof (N.mod_lt (ch / 64) 64). pose proof (N.mod_lt (ch / 64 / 64) 64).
  generalize dependent (ch / 64 / 64 / 64)%N. generalize dependent ((ch / 64 / 64) mod 64)%N.
  generalize dependent (ch / 64 / 64)%N. generalize dependent ((ch / 64) mod 64)%N.
  generalize dependent (ch / 64)%N. generalize dependent (ch mod 64)%N. intros. split_and!; lia.
Qed.
(** A character beyond ASCII: its first byte tells its length, and its bytes give it back. *)
Lemma encoded_character ch : is_scalar ch = true → (128 ≤ ch)%N → ∃ b bs,
  encode_utf8 ch = b :: bs ∧ (128 ≤ b)%N ∧ utf8_width b = S (length bs) ∧ bs ≠ []
  ∧ decode_utf8 (b :: bs) = Some [ch].
Proof.
  intros Hs Hch. unfold is_scalar in Hs. apply orb_true_iff in Hs.
  assert (ch < 55296 ∨ 57344 ≤ ch ∧ ch ≤ 1114111)%N as Hscalar.
  { destruct Hs as [H%N.ltb_lt|[H1%N.leb_le H2%N.leb_le]%andb_true_iff]; lia. }
  clear Hs. unfold encode_utf8.
  destruct (sextets ch) as (a & b & c & d & E1 & E2 & E3 & E4 & E5 & E6 & E7 & Hb & Hc & Hd).
  rewrite E5, E3, E6, E4, E2, E1. rewrite (proj2 (N.ltb_ge ch 128)) by lia.
  destruct (N.ltb_spec ch 2048); [|destruct (N.ltb_spec ch 65536)];
    eexists _, _; (split; [reflexivity|]); (split; [lia|]);
    unfold utf8_width, decode_utf8, continuation, is_scalar; cbn [length fmap option_fmap option_map];
    decide_N; cbn [andb].
  - split_and!; [done|done|]. do 3 f_equal. lia.
  - destruct Hscalar; decide_N; cbn [andb orb]; (split_and!; [done|done|]); do 3 f_equal; lia.
  - decide_N; cbn [andb orb]. split_and!; [done|done|]. do 3 f_equal; lia.
Qed.

(** ** Bytes that arrive together *)

(** Bytes that arrive each without the pause that ends a key. *)
Definition arrives (bytes : list N) (inp : input) : Prop :=
  inp.*2 = bytes ∧ Forall (λ d, (d.1 < KEY_SEQUENCE_CONTINUATION_TIMEOUT)%N) inp.
Lemma arrives_cons b bytes inp : arrives (b :: bytes) inp → ∃ delay inp',
  inp = (delay, b) :: inp' ∧ (delay < KEY_SEQUENCE_CONTINUATION_TIMEOUT)%N ∧ arrives bytes inp'.
Proof.
  intros [Hb Hd]. destruct inp as [|[delay c] inp]; [done|]. injection Hb as -> Hb.
  apply Forall_cons in Hd as [? ?]. by exists delay, inp.
Qed.
(** The bytes of a key arrive together: the first after any time, and the others without the
    pause that ends a key. *)
Definition key_arrives (bytes : list N) (inp : input) : Prop :=
  inp.*2 = bytes ∧ Forall (λ d, (d.1 < KEY_SEQUENCE_CONTINUATION_TIMEOUT)%N) (tail inp).
Lemma key_arrives_cons b bytes inp : key_arrives (b :: bytes) inp → ∃ delay inp',
  inp = (delay, b) :: inp' ∧ arrives bytes inp'.
Proof.
  intros [Hb Hd]. destruct inp as [|[delay c] inp]; [done|]. injection Hb as -> Hb. by exists delay, inp.
Qed.
Lemma arrives_key bytes inp : arrives bytes inp → key_arrives bytes inp.
Proof. intros [Hb Hd]. split; [done|]. destruct Hd; [constructor|done]. Qed.
Lemma read_optional_in_time timeout delay b inp :
  (delay < KEY_SEQUENCE_CONTINUATION_TIMEOUT)%N → (KEY_SEQUENCE_CONTINUATION_TIMEOUT ≤ timeout)%N →
  read_optional_byte timeout ((delay, b) :: inp) = (Some b, inp).
Proof. intros. cbn. by rewrite (proj2 (N.ltb_lt delay timeout)) by lia. Qed.
Lemma read_until_arrives stop last bytes acc inp rest :
  arrives (bytes ++ [last]) inp → stop (acc ++ bytes ++ [last]) = true →
  (∀ bs, bs `prefix_of` bytes → bs ≠ [] → stop (acc ++ bs) = false) →
  read_until KEY_SEQUENCE_CONTINUATION_TIMEOUT stop acc (inp ++ rest) = (acc ++ bytes ++ [last], rest).
Proof.
  revert acc inp. induction bytes as [|b bytes IH]; intros acc inp Hin Hstop Hno;
    apply arrives_cons in Hin as (delay & inp' & -> & Hdelay & Hin);
    cbn [app read_until]; rewrite (proj2 (N.ltb_lt _ _) Hdelay).
  - destruct Hin as [Hin _]. destruct inp'; [|done]. cbn [app] in Hstop; by rewrite Hstop.
  - rewrite (Hno [b]); [|by apply prefix_cons, prefix_nil|done].
    rewrite (IH (acc ++ [b])); [by rewrite <-app_assoc|done|by rewrite <-app_assoc|].
    intros bs Hbs Hne. rewrite <-app_assoc. apply Hno; [by apply prefix_cons|done].
Qed.
Lemma ends_csi_snoc bs b : ends_csi (bs ++ [b]) = is_csi_final_byte b.
Proof. unfold ends_csi. by rewrite last_snoc. Qed.
(** A control sequence is read whole, to its final byte. *)
Lemma read_csi params final inp rest event : key_arrives (csi params final) inp →
  Forall (λ c, (c < 64)%N) params → is_csi_final_byte final = true →
  csi params final ≠ CSI ++ lit "200~" → parse_csi_event (csi params final) = Ok (Some event) →
  read_terminal_event (inp ++ rest) = (Ok (Some event), rest).
Proof.
  intros Hin Hparams Hfinal Hpaste Hparse.
  apply key_arrives_cons in Hin as (d1 & inp1 & -> & Hin).
  apply arrives_cons in Hin as (d2 & inp2 & -> & Hd2 & Hin).
  unfold read_terminal_event. cbn [app read_byte]. unfold ESC. cbn [N.eqb Pos.eqb orb].
  unfold read_escape_event. rewrite read_optional_in_time by done. rewrite N.eqb_refl.
  unfold read_csi_event. rewrite (read_until_arrives _ _ _ _ _ _ Hin).
  - change (CSI ++ params ++ [final]) with (csi params final).
    rewrite bool_decide_eq_false_2 by done. rewrite Hparse. done.
  - by rewrite app_assoc, ends_csi_snoc.
  - intros bs Hbs Hne. destruct bs as [|b bs _] using rev_ind; [done|].
    rewrite app_assoc, ends_csi_snoc. unfold is_csi_final_byte.
    destruct Hbs as [k ->]. rewrite !Forall_app, Forall_singleton in Hparams.
    destruct Hparams as [[_ Hb] _]. by rewrite (proj2 (N.leb_gt 64 b) Hb).
Qed.
(** Plain characters and control bytes. *)
Lemma read_single b inp rest : key_arrives [b] inp →
  ∃ delay, inp = [(delay, b)] ∧ read_byte (inp ++ rest) = (Some b, rest).
Proof.
  intros Hin. apply key_arrives_cons in Hin as (delay & inp' & -> & [Hin _]).
  destruct inp'; [|done]. by exists delay.
Qed.
Lemma read_character_arrives n bytes acc inp rest : arrives bytes inp → length bytes = n →
  read_character n acc (inp ++ rest) = ((acc ++ bytes, true), rest).
Proof.
  revert bytes acc inp. induction n as [|n IH]; intros [|b bytes] acc inp Hin Hl; try done.
  - destruct Hin as [Hin _]. destruct inp; [|done]. by rewrite app_nil_r.
  - apply arrives_cons in Hin as (delay & inp' & -> & _ & Hin). cbn [app read_character read_byte].
    rewrite (IH bytes) by (done || by injection Hl). by rewrite <-app_assoc.
Qed.
Lemma read_utf8 ch inp rest : is_scalar ch = true → (128 ≤ ch)%N → key_arrives (encode_utf8 ch) inp →
  read_terminal_event (inp ++ rest) = (Ok (Some (TeKey (EChar ch))), rest).
Proof.
  intros Hs Hch Hin. destruct (encoded_character ch Hs Hch) as (b & bs & He & Hb & Hw & Hne & Hd).
  rewrite He in Hin. apply key_arrives_cons in Hin as (delay & inp' & -> & Hin).
  unfold read_terminal_event. cbn [app read_byte]. decide_N. cbn [orb].
  unfold decode_utf8_key. rewrite Hw. destruct bs as [|c bs]; [done|]. cbn [length Nat.leb].
  rewrite (read_character_arrives _ (c :: bs)); [|done|simpl; lia].
  cbn [app]. by rewrite Hd.
Qed.

(** ** Keys sent as reports *)

Definition all_modifiers : list Modifiers :=
  s ← [false; true]; a ← [false; true]; c ← [false; true]; d ← [false; true]; [mkModifiers s a c d].
Lemma forall_modifiers (P : Modifiers → bool) m : forallb P all_modifiers = true → P m = true.
Proof.
  intros HP. rewrite forallb_forall in HP. apply HP.
  destruct m as [[] [] [] []]; vm_compute; tauto.
Qed.
Lemma kitty_code_decodes m : decode_kitty_mods (kitty_code m) = Some m.
Proof. destruct m as [[] [] [] []]; by vm_compute. Qed.
Lemma kitty_code_bound m : (kitty_code m < u32_modulus)%N.
Proof. destruct m as [[] [] [] []]; by vm_compute. Qed.
Lemma kitty_code_one m : (kitty_code m =? 1)%N = mods_empty m.
Proof. destruct m as [[] [] [] []]; by vm_compute. Qed.
Lemma digits_not c w : (c < 48)%N ∨ (57 < c)%N → Forall is_digit w → Forall (λ d, (c =? d)%N = false) w.
Proof.
  intros Hc Hw. eapply Forall_impl; [exact Hw|]. intros d [? ?]. apply N.eqb_neq. lia.
Qed.
Lemma split_last_snoc s c : split_last (s ++ [c]) = Some (c, s).
Proof. unfold split_last. by rewrite reverse_snoc, reverse_involutive. Qed.
Lemma split_last_Some s c r : split_last s = Some (c, r) → s = r ++ [c].
Proof.
  unfold split_last. destruct (reverse s) as [|d q] eqn:Hq; [done|]. intros [= <- <-].
  by rewrite <-(reverse_involutive s), Hq, reverse_cons.
Qed.
Lemma strip_prefix_app p s : strip_prefix p (p ++ s) = Some s.
Proof. induction p as [|c p IH]; [done|]. simpl. by rewrite N.eqb_refl. Qed.
Lemma strip_prefix_Some p : ∀ s s', strip_prefix p s = Some s' → s = p ++ s'.
Proof.
  induction p as [|c p IH]; intros [|d s] s'; simpl; try (by intros [= ->]).
  destruct (N.eqb_spec c d) as [->|]; [|done]. by intros ->%IH.
Qed.
Lemma not_modify_other_keys params : modify_other_keys_as_kitty (csi params 117) = None.
Proof.
  unfold modify_other_keys_as_kitty. destruct (strip_prefix _ _) as [s|] eqn:Hs; [|done].
  apply strip_prefix_Some in Hs. cbn [mbind option_bind].
  destruct s as [|c s _] using rev_ind; [done|].
  assert (c = 117%N) as ->.
  { change (csi params 117) with ((CSI ++ params) ++ [117%N]) in Hs.
    rewrite (app_assoc (CSI ++ lit "27;") s [c]) in Hs. by apply app_inj_2 in Hs as [_ [= <-]]. }
  unfold strip_suffix_byte. by rewrite split_last_snoc.
Qed.
Definition report_params (number : N) (mods : Modifiers) : list N :=
  if (kitty_code mods =? 1)%N then decimal number
  else decimal number ++ 59%N :: decimal (kitty_code mods).
Lemma parse_report_params number mods : (number < u32_modulus)%N →
  parse_extended_params (report_params number mods) = Some (number, kitty_code mods, None).
Proof.
  intros Hn. unfold parse_extended_params, report_params.
  pose proof (digits_not 59 _ ltac:(right; lia) (decimal_digits number)) as Hd.
  destruct (N.eqb_spec (kitty_code mods) 1) as [->|_].
  - rewrite split_where_none by done. unfold parse_u32. by rewrite parse_decimal.
  - rewrite split_where_app by done.
    rewrite split_where_none by (apply digits_not; [right; lia|apply decimal_digits]).
    unfold parse_u32. rewrite parse_decimal by done. cbn [mbind option_bind].
    rewrite split_where_none by (apply digits_not; [right; lia|apply decimal_digits]).
    by rewrite parse_decimal by apply kitty_code_bound.
Qed.
Lemma parse_report number mods code : extended_code 117 number = Some code →
  (number < u32_modulus)%N →
  parse_csi_event (csi (report_params number mods) 117) = Ok (Some (TeKey (EKey code mods))).
Proof.
  intros Hcode Hn. unfold parse_csi_event.
  change (csi (report_params number mods) 117) with (CSI ++ report_params number mods ++ [117%N]) at 1.
  rewrite strip_prefix_app. cbn [mbind option_bind].
  rewrite (named_distinct (λ s, match last s with Some c => (c =? 117)%N | None => false end));
    [|by vm_compute|by rewrite last_snoc].
  unfold parse_extended_key. rewrite not_modify_other_keys. cbn [default].
  unfold parse_plain_extended.
  change (csi (report_params number mods) 117) with (CSI ++ report_params number mods ++ [117%N]).
  rewrite strip_prefix_app. cbn [mbind option_bind]. rewrite split_last_snoc. cbn [mbind option_bind fst snd].
  rewrite parse_report_params by done. cbn [mbind option_bind]. rewrite Hcode. cbn [mbind option_bind].
  by rewrite kitty_code_decodes.
Qed.
Lemma report_params_low number mods : Forall (λ c, (c < 64)%N) (report_params number mods).
Proof.
  unfold report_params. assert (∀ n, Forall (λ c, (c < 64)%N) (decimal n)) as Hlow.
  { intros n. eapply Forall_impl; [apply decimal_digits|]. intros d [? ?]. lia. }
  destruct (_ =? 1)%N; [done|]. apply Forall_app; split; [done|]. by constructor.
Qed.
Lemma read_report number mods code inp rest : extended_code 117 number = Some code →
  (number < u32_modulus)%N → key_arrives (csi (report_params number mods) 117) inp →
  read_terminal_event (inp ++ rest) = (Ok (Some (TeKey (EKey code mods))), rest).
Proof.
  intros Hcode Hn Hin. eapply read_csi; [exact Hin|apply report_params_low|done| |by apply parse_report].
  intros He. change (csi (report_params number mods) 117) with ((CSI ++ report_params number mods) ++ [117%N]) in He.
  change (CSI ++ lit "200~") with ((CSI ++ lit "200") ++ [126%N]) in He.
  by apply app_inj_2 in He as [_ ?].
Qed.

(** ** Keys that come back *)

(** The bytes are read as one key, whatever comes next, and the key has that token. *)
Definition reads_as (bytes : list N) (t : KeyToken) : Prop :=
  ∃ e, key_event_to_token (normalize_text_key e) = Ok t
    ∧ ∀ inp rest, key_arrives bytes inp →
        read_terminal_event (inp ++ rest) = (Ok (Some (TeKey e)), rest).

Definition token_is (o : outcome (option TerminalEvent)) (t : KeyToken) : bool :=
  match o with
  | Ok (Some (TeKey e)) =>
      match key_event_to_token (normalize_text_key e) with Ok t' => bool_decide (t' = t) | _ => false end
  | _ => false
  end.
Lemma token_is_spec o t : token_is o t = true →
  ∃ e, o = Ok (Some (TeKey e)) ∧ key_event_to_token (normalize_text_key e) = Ok t.
Proof.
  destruct o as [[[e| | | | | | | |]|]| | |]; try done. cbn. intros H. exists e. split; [done|].
  destruct (key_event_to_token _); try done. by apply bool_decide_eq_true in H as ->.
Qed.
Definition csi_reads_as (bytes : list N) (t : KeyToken) : bool :=
  match strip_prefix CSI bytes ≫= split_last with
  | Some (final, params) =>
      bool_decide (bytes = csi params final) && forallb (λ c, c <? 64)%N params && is_csi_final_byte final
      && negb (bool_decide (bytes = CSI ++ lit "200~")) && token_is (parse_csi_event bytes) t
  | None => false
  end.
Lemma csi_reads_as_spec bytes t : csi_reads_as bytes t = true → reads_as bytes t.
Proof.
  unfold csi_reads_as. destruct (_ ≫= _) as [[final params]|]; [|done].
  rewrite !andb_true_iff. intros [[[[Hb Hp] Hf] Hn] Ht]. apply bool_decide_eq_true in Hb as ->.
  apply token_is_spec in Ht as (e & Ht & He). exists e. split; [done|]. intros inp rest Hin.
  eapply read_csi; [exact Hin| |done| |exact Ht].
  - apply Forall_forall. intros c Hc. rewrite forallb_forall in Hp.
    apply N.ltb_lt, Hp. by apply list_elem_of_In.
  - by apply negb_true_iff, bool_decide_eq_false in Hn.
Qed.

(** The token of a key as it is typed. *)
Definition typed_token (code : KeyCode) (mods : Modifiers) : KeyToken :=
  if mods_empty mods then
    match code with
    | KChar ch => if (ch =? 32)%N then TSpace else TChar ch
    | KEnter => TEnter | KTab => TTab | KBackspace => TBackspace | KEscape => TEscape
    | KUp => TUp | KDown => TDown | KLeft => TLeft | KRight => TRight | KHome => THome | KEnd => TEnd
    | KInsert => TInsert | KDelete => TDelete | KPageUp => TPageUp | KPageDown => TPageDown
    | KFunction n => TKey (KFunction n) mods
    end
  else normalize_key_token code mods.
(** Whether a key that has no control sequence of its own is sent as a report. *)
Definition sent_as_report (mode : N) (code : KeyCode) (mods : Modifiers) : bool :=
  (mode_disambiguates mode || mode_reports_all_keys mode)
  && negb ((mods_empty mods || (is_char code && bool_decide (mods = only_shift)))
           && negb (mode_reports_all_keys mode)).
Definition reportable_char (ch : N) : bool :=
  is_scalar ch && negb (existsb (N.eqb ch) [9; 13; 27; 127]%N)
  && negb ((57344 <=? ch) && (ch <=? 63743))%N.
Definition lowercase_letters : list N := lit "abcdefghijklmnopqrstuvwxyz".
(** Without reports: text, the control characters that are no key of their own, and with
    Alt what does not begin a sequence. *)
Definition clear_char (ch : N) (mods : Modifiers) : bool :=
  if mods_empty mods then is_scalar ch && (32 <=? ch)%N && negb (ch =? 127)%N
  else if bool_decide (mods = only_ctrl) then
    existsb (N.eqb ch) (lit "abcdefghklnopqrstuvwxyz\]^_@")
  else if bool_decide (mods = only_alt) then
    (ch <? 128)%N && negb (is_ascii_uppercase ch) && negb (existsb (N.eqb ch) (lit "[_]"))
  else bool_decide (mods = mkModifiers true true false false)
    && existsb (N.eqb ch) (lit "abcdefghijklmnqrstuvwxyz").
Definition clear_key (mode : N) (code : KeyCode) (mods : Modifiers) : bool :=
  let report := sent_as_report mode code mods in
  match code with
  | KChar ch => if report then reportable_char ch else clear_char ch mods
  | KEnter | KBackspace => report || mods_empty mods
  | KTab => report || mods_empty mods || bool_decide (mods = only_shift)
  | KEscape => report
  | KFunction n => (1 <=? n)%N && (n <=? 12)%N
  | _ => true
  end.

Lemma read_letter c delay inp rest :
  (delay < KEY_SEQUENCE_CONTINUATION_TIMEOUT)%N → arrives [c] inp →
  ∃ delay', read_escape_event ((delay, 79%N) :: inp ++ rest)
            = (Ok (fst (read_ss3_event ((delay', c) :: rest))), rest)
    ∧ (delay' < KEY_SEQUENCE_CONTINUATION_TIMEOUT)%N.
Proof.
  intros Hd Hin. apply arrives_cons in Hin as (delay' & inp' & -> & Hd' & [Hin _]).
  destruct inp'; [|done]. exists delay'. split; [|done]. unfold read_escape_event.
  rewrite read_optional_in_time by done. cbn [N.eqb Pos.eqb app].
  unfold read_ss3_event. by rewrite read_optional_in_time by done.
Qed.
Lemma read_function_letter n inp rest : (n < 4)%N → key_arrives [ESC; 79; 80 + n]%N inp →
  read_terminal_event (inp ++ rest)
  = (Ok (Some (TeKey (EKey (KFunction (n + 1)) NO_MODIFIERS))), rest).
Proof.
  intros Hn Hin. apply key_arrives_cons in Hin as (d1 & inp1 & -> & Hin).
  apply arrives_cons in Hin as (d2 & inp2 & -> & Hd2 & Hin).
  destruct (read_letter _ d2 inp2 rest Hd2 Hin) as (d3 & He & Hd3).
  unfold read_terminal_event. cbn [app read_byte]. unfold ESC. cbn [N.eqb Pos.eqb orb]. rewrite He.
  unfold read_ss3_event. rewrite read_optional_in_time by done. cbn [fst]. decide_N. cbn [andb].
  by replace (80 + n - 80 + 1)%N with (n + 1)%N by lia.
Qed.

(** Keys with a control sequence of their own are sent by it in every mode. *)
Definition has_sequence (code : KeyCode) : bool :=
  match code with
  | KChar _ | KEnter | KTab | KBackspace | KEscape => false
  | _ => true
  end.
Lemma encode_functional code mods mode seq : functional_csi code mods = Some seq →
  encode_key code mods mode = seq.
Proof.
  intros Hs. unfold encode_key, encode_kitty, encode_legacy. rewrite Hs. by destruct (_ || _).
Qed.
Definition sequence_reads_as (code : KeyCode) (mods : Modifiers) : bool :=
  match functional_csi code mods with
  | Some seq => csi_reads_as seq (typed_token code mods)
  | None => false
  end.
Lemma functional_reads code mods mode : has_sequence code = true → spellable_code code = true →
  reads_as (encode_key code mods mode) (typed_token code mods).
Proof.
  intros Hh Hs.
  assert (sequence_reads_as code mods = true
    ∨ ∃ n, (n < 4)%N ∧ code = KFunction (n + 1) ∧ mods = NO_MODIFIERS) as [Hr|(n & Hn & -> & ->)].
  { destruct code as [ch| | | | | | | | | | | | | | |n]; try discriminate Hh;
      lazymatch goal with
      | _ : has_sequence (KFunction _) = true |- _ => idtac
      | |- _ => left; apply (forall_modifiers (sequence_reads_as _)); vm_compute; reflexivity
      end.
    destruct (mods_empty mods) eqn:Hm.
    - assert (mods = NO_MODIFIERS) as -> by by destruct mods as [[] [] [] []].
      pose proof (forall_twelve (λ n, sequence_reads_as (KFunction n) NO_MODIFIERS || (n <=? 4)%N) n Hs
        ltac:(by vm_compute)) as Hr. cbn beta in Hr. apply orb_true_iff in Hr as [Hr|Hr%N.leb_le]; [by left|right].
      cbn in Hs. apply andb_true_iff in Hs as [Hs%N.leb_le _]. exists (n - 1)%N.
      split_and!; [lia|f_equal; lia|done].
    - left. apply (forall_twelve (λ n, forallb (λ mods, mods_empty mods || sequence_reads_as (KFunction n) mods)
        all_modifiers)) in Hs; [|by vm_compute].
      pose proof (forall_modifiers (λ mods, mods_empty mods || sequence_reads_as (KFunction n) mods) mods Hs)
        as Hr. cbn beta in Hr. by rewrite Hm in Hr. }
  - unfold sequence_reads_as in Hr. destruct (functional_csi code mods) as [seq|] eqn:Hf; [|done].
    rewrite (encode_functional _ _ _ _ Hf). by apply csi_reads_as_spec.
  - exists (EKey (KFunction (n + 1)) NO_MODIFIERS). split; [done|]. intros inp rest Hin.
    apply read_function_letter; [done|].
    erewrite encode_functional in Hin; [|unfold functional_csi, function_key_csi; cbn [kitty_code]; decide_N; reflexivity].
    cbn in Hin. by replace (80 + n)%N with (79 + (n + 1))%N by lia.
Qed.

(** The bytes of a key that is no sequence: one byte, or [ESC] and one byte. *)
Definition event_reads_as (bytes : list N) (t : KeyToken) : bool :=
  match bytes with
  | [b] => negb (b =? ESC)%N && (b <? 128)%N && token_is (fst (read_terminal_event [(0%N, b)])) t
  | [e; b] =>
      (e =? ESC)%N && (b <? 128)%N && negb (existsb (N.eqb b) (lit "[OP_]"))
      && token_is (Ok (Some (TeKey (EAlt b)))) t
  | _ => false
  end.
Lemma event_reads_as_spec bytes t : event_reads_as bytes t = true → reads_as bytes t.
Proof.
  destruct bytes as [|b [|c [|? ?]]]; try done; unfold event_reads_as; rewrite !andb_true_iff.
  - intros [[Hesc Hlow] Ht]. apply token_is_spec in Ht as (e & Ht & He). exists e. split; [done|].
    intros inp rest Hin. apply (read_single _ _ []) in Hin as (delay & -> & _). revert Ht.
    apply negb_true_iff in Hesc. unfold ESC in Hesc. apply N.ltb_lt in Hlow.
    unfold read_terminal_event. cbn [app read_byte]. rewrite Hesc.
    destruct (_ || _)%N; [by intros [= <-]|]. destruct (b =? 9)%N; [by intros [= <-]|].
    destruct (N.eqb_spec b 127) as [->|Hb]; [by intros [= <-]|].
    destruct (b <=? 31)%N; [by intros [= <-]|]. decide_N. by intros [= <-].
  - intros [[[Hesc Hlow] Hno] Ht]. apply N.eqb_eq in Hesc as ->.
    apply token_is_spec in Ht as (e & [= <-] & He). exists (EAlt c). split; [done|]. intros inp rest Hin.
    apply key_arrives_cons in Hin as (d1 & inp1 & -> & Hin).
    pose proof (read_single _ _ [] (arrives_key _ _ Hin)) as Hone. destruct Hone as (d2 & -> & _).
    apply arrives_cons in Hin as (d & ? & [= <- <-] & Hd & _).
    unfold read_terminal_event. cbn [app read_byte]. unfold ESC. cbn [N.eqb Pos.eqb orb].
    unfold read_escape_event. rewrite read_optional_in_time by done.
    apply negb_true_iff in Hno. change (lit "[OP_]") with [91; 79; 80; 95; 93]%N in Hno.
    cbn [existsb] in Hno. rewrite !orb_false_iff in Hno.
    destruct Hno as (H91 & H79 & H80 & H95 & H93 & _). rewrite H91, H79.
    change (lit "P_]") with [80; 95; 93]%N. cbn [existsb]. by rewrite H80, H95, H93, Hlow.
Qed.

Lemma existsb_forall (P : N → bool) l ch : existsb (N.eqb ch) l = true → forallb P l = true → P ch = true.
Proof.
  intros (c & Hc & ->%N.eqb_eq)%existsb_exists HP. rewrite forallb_forall in HP. by apply HP.
Qed.
Lemma scalar_ascii ch : (ch < 128)%N → is_scalar ch = true.
Proof. intros. unfold is_scalar. decide_N. done. Qed.
Lemma clear_char_reads ch mods : clear_char ch mods = true →
  reads_as (encode_legacy (KChar ch) mods) (typed_token (KChar ch) mods).
Proof.
  unfold clear_char. destruct (mods_empty mods) eqn:Hm.
  { assert (mods = NO_MODIFIERS) as -> by by destruct mods as [[] [] [] []].
    rewrite !andb_true_iff. intros [[Hs H32%N.leb_le] H127%negb_true_iff%N.eqb_neq].
    change (encode_legacy (KChar ch) NO_MODIFIERS) with (encode_utf8 ch).
    destruct (N.lt_ge_cases ch 128) as [Hlow|Hhigh].
    - unfold encode_utf8. decide_N. exists (EChar ch). split; [done|]. intros inp rest Hin.
      apply (read_single _ _ []) in Hin as (delay & -> & _).
      unfold read_terminal_event. cbn [app read_byte]. by decide_N.
    - exists (EChar ch). split; [done|]. intros inp rest. by apply read_utf8. }
  case_bool_decide as Hc; [subst mods|case_bool_decide as Ha; [subst mods|]].
  - intros Hch. apply event_reads_as_spec.
    apply (existsb_forall (λ ch, event_reads_as (encode_legacy (KChar ch) only_ctrl)
      (typed_token (KChar ch) only_ctrl)) _ ch Hch). by vm_compute.
  - rewrite !andb_true_iff. intros [[Hlow%N.ltb_lt Hu] Hno].
    assert (encode_legacy (KChar ch) only_alt = [ESC; ch]) as ->.
    { cbn. unfold encode_utf8. by decide_N. }
    apply event_reads_as_spec. unfold event_reads_as. rewrite N.eqb_refl. decide_N. cbn [andb].
    apply negb_true_iff in Hu, Hno. rewrite andb_true_iff. split.
    + change (lit "[_]") with [91; 95; 93]%N in Hno. change (lit "[OP_]") with [91; 79; 80; 95; 93]%N.
      cbn [existsb] in Hno |- *. rewrite !orb_false_iff in Hno. destruct Hno as (-> & -> & -> & _).
      unfold is_ascii_uppercase in Hu. apply andb_false_iff in Hu as [Hu|Hu]; apply N.leb_gt in Hu;
        by decide_N.
    + cbn. rewrite Hu. cbn. apply bool_decide_eq_true. unfold normalize_key_token. cbn.
      by rewrite (lowercase_folded ch Hu).
  - intros [Hs Hch]%andb_true_iff. apply bool_decide_eq_true in Hs as ->. apply event_reads_as_spec.
    apply (existsb_forall (λ ch, event_reads_as (encode_legacy (KChar ch) (mkModifiers true true false false))
      (typed_token (KChar ch) (mkModifiers true true false false))) _ ch Hch). by vm_compute.
Qed.

Lemma encode_plain code mods mode : has_sequence code = false → ∃ number,
  kitty_key_number code = Some number
  ∧ encode_key code mods mode = if sent_as_report mode code mods
      then csi (report_params number mods) 117 else encode_legacy code mods.
Proof.
  intros Hh. assert (∃ number, kitty_key_number code = Some number) as [number Hn]
    by (destruct code; try done; by eexists).
  exists number. split; [done|]. unfold encode_key, sent_as_report. destruct (_ || _); [|done].
  unfold encode_kitty. rewrite Hn. cbn [andb].
  assert (functional_csi code mods = None) as -> by by destruct code.
  destruct (_ && _); [done|]. cbn [negb]. unfold report_params. by destruct (_ =? 1)%N.
Qed.
Lemma key_event_typed code mods : has_sequence code = false →
  key_event_to_token (normalize_text_key (EKey code mods)) = Ok (typed_token code mods).
Proof.
  intros Hh. unfold typed_token. cbn [normalize_text_key]. destruct (mods_empty mods); [|done].
  by destruct code.
Qed.
Lemma clear_key_reads mode code mods : clear_key mode code mods = true →
  reads_as (encode_key code mods mode) (typed_token code mods).
Proof.
  intros Hc. destruct (has_sequence code) eqn:Hh.
  { apply functional_reads; [done|]. by destruct code. }
  destruct (encode_plain code mods mode Hh) as (number & Hn & ->).
  destruct (sent_as_report mode code mods) eqn:Hr.
  - exists (EKey code mods). split; [by apply key_event_typed|]. intros inp rest Hin.
    eapply read_report; [| |exact Hin]; destruct code as [ch| | | | | | | | | | | | | | |n];
      try discriminate Hh; injection Hn as <-; try done; unfold clear_key in Hc; rewrite Hr in Hc;
      unfold reportable_char in Hc; rewrite !andb_true_iff in Hc; destruct Hc as [[Hs Hno] Hp].
    + unfold extended_code. apply negb_true_iff in Hno, Hp. cbn [existsb] in Hno.
      rewrite !orb_false_iff in Hno. destruct Hno as (-> & -> & -> & -> & _). by rewrite Hp, Hs.
    + unfold is_scalar in Hs. apply orb_true_iff in Hs. unfold u32_modulus.
      destruct Hs as [Hs%N.ltb_lt|[_ Hs%N.leb_le]%andb_true_iff]; lia.
  - destruct code as [ch| | | | | | | | | | | | | | |n]; try discriminate Hh;
      unfold clear_key in Hc; rewrite Hr in Hc; [by apply clear_char_reads|..]; cbn [orb] in Hc;
      try (assert (mods = NO_MODIFIERS) as -> by (by destruct mods as [[] [] [] []]);
           by apply event_reads_as_spec).
    + apply orb_true_iff in Hc as [Hc|Hc%bool_decide_eq_true].
      * assert (mods = NO_MODIFIERS) as -> by (by destruct mods as [[] [] [] []]).
        by apply event_reads_as_spec.
      * subst mods. apply csi_reads_as_spec. by vm_compute.
Qed.

(** A key that is read as itself from the bytes sent for it. *)
Definition clear (mode : N) (t : KeyToken) : bool :=
  match token_key t with
  | Some (code, mods) => bool_decide (t = typed_token code mods) && clear_key mode code mods
  | None => false
  end.
Lemma sent_and_read mode ts : Forall (λ t, clear mode t = true) ts →
  ∃ sent, Forall2 (λ t bytes, sequence_to_bytes [t] mode = Ok bytes) ts sent
    ∧ sequence_to_bytes ts mode = Ok (concat sent)
    ∧ ∀ inps, Forall2 key_arrives sent inps → ∃ es,
        Forall2 (λ e t, key_event_to_token (normalize_text_key e) = Ok t) es ts
        ∧ ∀ fuel, length ts < fuel →
            input_thread fuel (concat inps) = Ok ((TeKey <$> es) ++ [TeInputClosed]).
Proof.
  induction 1 as [|t ts Ht _ (sent & Hsent & Hbytes & IH)].
  - exists []. split_and!; [done|done|]. intros inps ->%Forall2_nil_inv_l. exists [].
    split; [constructor|]. intros [|fuel] ?; [lia|done].
  - unfold clear in Ht. destruct (token_key t) as [[code mods]|] eqn:Hk; [|done].
    apply andb_true_iff in Ht as [Hcanon%bool_decide_eq_true Hclear].
    destruct (clear_key_reads _ _ _ Hclear) as (e & He & Hread).
    exists (encode_key code mods mode :: sent). cbn [sequence_to_bytes]. rewrite Hk, Hbytes.
    split_and!; [constructor; [|done]; cbn; by rewrite Hk; cbn; rewrite app_nil_r|done|].
    intros inps (inp1 & inp2 & Hin1 & Hin2 & ->)%Forall2_cons_inv_l. cbn [concat].
    destruct (IH inp2 Hin2) as (es & Hes & Hthread). exists (e :: es).
    split; [by constructor; [rewrite Hcanon|]|].
    intros [|fuel] Hf; [lia|]. cbn [input_thread]. rewrite (Hread inp1 (concat inp2) Hin1). cbn [mbind outcome_bind].
    rewrite Hthread by (simpl in Hf; lia). done.
Qed.
Lemma clear_takes_bytes mode ts bytes : Forall (λ t, clear mode t = true) ts →
  sequence_to_bytes ts mode = Ok bytes → length ts ≤ length bytes.
Proof.
  intros Hts. revert bytes. induction Hts as [|t ts Ht _ IH]; intros bytes; [simpl; lia|].
  unfold clear in Ht. cbn [sequence_to_bytes]. destruct (token_key t) as [[code mods]|]; [|done].
  apply andb_true_iff in Ht as [_ Hclear]. cbn [ok_or mbind outcome_bind].
  destruct (sequence_to_bytes ts mode) as [bs| | |]; try done. intros [= <-].
  specialize (IH bs eq_refl). rewrite length_app. cbn [length fst snd].
  destruct (clear_key_reads _ _ _ Hclear) as (e & _ & Hread).
  destruct (encode_key code mods mode) as [|b bs']; [|simpl; lia].
  specialize (Hread [] [] (conj eq_refl (Forall_nil_2 _))). done.
Qed.

(** ** The thread ends *)

(** What is left to read is the end of what was there; its first delay may have shrunk. *)
Definition rest_of (inp' inp : input) : Prop := inp'.*2 `suffix_of` inp.*2.
#[local] Instance rest_of_preorder : PreOrder rest_of.
Proof. split; [by intros inp; unfold rest_of|intros a b c Hab Hbc; unfold rest_of in *; by etrans]. Qed.
Lemma rest_of_cons d inp : rest_of inp (d :: inp).
Proof. by apply suffix_cons_r. Qed.
Lemma rest_of_delay d d' b inp : rest_of ((d, b) :: inp) ((d', b) :: inp).
Proof. unfold rest_of. by cbn. Qed.
Lemma read_optional_rest timeout inp : rest_of (read_optional_byte timeout inp).2 inp.
Proof.
  destruct inp as [|[d b] inp]; [done|]. cbn. destruct (_ <? _)%N; [apply rest_of_cons|apply rest_of_delay].
Qed.
Lemma read_until_bytes timeout stop acc inp :
  ∃ taken, (read_until timeout stop acc inp).1 = acc ++ taken
    ∧ inp.*2 = taken ++ (read_until timeout stop acc inp).2.*2.
Proof.
  revert acc. induction inp as [|[d b] inp IH]; intros acc.
  { exists []. by rewrite app_nil_r. }
  cbn [read_until]. destruct (_ <? _)%N; [|exists []; by rewrite app_nil_r].
  cbn zeta. destruct (stop _); [by exists [b]|].
  destruct (IH (acc ++ [b])) as (taken & -> & Hi). exists (b :: taken). split; [by rewrite <-app_assoc|].
  cbn [fmap list_fmap snd app]. by f_equal.
Qed.
Lemma read_until_rest timeout stop acc inp : rest_of (read_until timeout stop acc inp).2 inp.
Proof. destruct (read_until_bytes timeout stop acc inp) as (taken & _ & Hi). by exists taken. Qed.
Lemma read_character_rest n acc inp : rest_of (read_character n acc inp).2 inp.
Proof.
  revert acc inp. induction n as [|n IH]; intros acc inp; [done|]. cbn [read_character].
  destruct inp as [|[d b] inp]; [done|]. cbn [read_byte]. etrans; [apply IH|apply rest_of_cons].
Qed.
Lemma read_paste_rest acc inp : rest_of (read_bracketed_paste acc inp).2 inp.
Proof.
  revert acc. induction inp as [|[d b] inp IH]; intros acc; [done|].
  cbn [read_bracketed_paste]. cbn zeta. destruct (ends_with _ _); [apply rest_of_cons|].
  etrans; [apply IH|apply rest_of_cons].
Qed.
Lemma read_ss3_rest inp : rest_of (read_ss3_event inp).2 inp.
Proof.
  unfold read_ss3_event. pose proof (read_optional_rest KEY_SEQUENCE_CONTINUATION_TIMEOUT inp) as H.
  by destruct (read_optional_byte _ _) as [[b|] inp'].
Qed.
Lemma read_string_rest introducer inp : rest_of (read_string_event introducer inp).2 inp.
Proof.
  unfold read_string_event. pose proof (read_optional_rest KEY_SEQUENCE_CONTINUATION_TIMEOUT inp) as H.
  destruct (read_optional_byte _ _) as [[b|] inp']; [|done]. cbn zeta. destruct (_ || _); [done|].
  pose proof (λ t s a, read_until_rest t s a inp') as H'. destruct (read_until _ _ _ _) eqn:Hr.
  eapply (f_equal snd) in Hr. cbn [snd] in *. subst. etrans; [apply H'|done].
Qed.
(** What begins as a report of the mouse, [ESC [ <], and goes on with characters in UTF-8, the
    last one beyond ASCII. *)
Definition stops_thread (bytes : list N) : Prop :=
  ∃ body b, bytes = [27; 91; 60]%N ++ body ++ [b] ∧ (128 ≤ b)%N ∧ decode_utf8 bytes ≠ None.
Lemma sgr_mouse_outcome bytes :
  parse_sgr_mouse bytes = Panic ∧ stops_thread bytes ∨ ∃ mouse, parse_sgr_mouse bytes = Ok mouse.
Proof.
  unfold parse_sgr_mouse. destruct (decode_utf8 bytes) as [text|] eqn:Hd; [|right; by eexists].
  destruct (strip_prefix _ bytes) as [body|] eqn:Hs; [|right; by eexists]. apply strip_prefix_Some in Hs.
  destruct (split_last body) as [[suffix payload]|] eqn:Hl; [|right; by eexists].
  destruct (N.leb_spec 128 suffix); [|right; destruct (_ || _); by eexists].
  left. split; [done|]. exists payload, suffix. apply split_last_Some in Hl. subst. by rewrite Hd.
Qed.
Lemma csi_event_outcome bytes : parse_csi_event bytes = Panic ∧ stops_thread bytes
  ∨ ∃ event, parse_csi_event bytes = Ok event.
Proof.
  unfold parse_csi_event. destruct (_ ≫= _); [right; by eexists|].
  destruct (parse_extended_key bytes) as [[]|]; [right; by eexists..|].
  destruct (sgr_mouse_outcome bytes) as [[-> Hs]|[mouse ->]]; [by left|right; by eexists].
Qed.


(** What reading after the bytes [before] gives: an event, or a report that stops the
    thread; and the end of what there was to read. *)
Definition reads_or_stops {A} (before : list N) (r : outcome A * input) (inp : input) : Prop :=
  rest_of r.2 inp
  ∧ ((∃ event, r.1 = Ok event)
     ∨ r.1 = Panic ∧ ∃ bytes, stops_thread bytes ∧ bytes `prefix_of` before ++ inp.*2).
Lemma read_csi_or_stops inp : reads_or_stops CSI (read_csi_event inp) inp.
Proof.
  unfold read_csi_event.
  destruct (read_until_bytes KEY_SEQUENCE_CONTINUATION_TIMEOUT ends_csi CSI inp) as (taken & Hb & Hi).
  destruct (read_until _ _ _ _) as [bytes inp']. cbn [fst snd] in Hb, Hi. subst bytes.
  assert (Hrest : rest_of inp' inp) by by exists taken.
  case_bool_decide.
  - pose proof (read_paste_rest [] inp') as H'. destruct (read_bracketed_paste _ _) as [bytes inp''].
    split; [by etrans|]. left. by eexists.
  - split; [done|]. cbn [fst].
    destruct (csi_event_outcome (CSI ++ taken)) as [[-> Hs]|[event ->]]; [right|left; by eexists].
    split; [done|]. exists (CSI ++ taken). split; [done|]. rewrite Hi, app_assoc. by apply prefix_app_r.
Qed.
Lemma read_escape_or_stops inp : reads_or_stops [ESC] (read_escape_event inp) inp.
Proof.
  unfold read_escape_event. pose proof (read_optional_rest KEY_SEQUENCE_TIMEOUT inp) as H.
  destruct (read_optional_byte _ _) as [[next|] inp'] eqn:Hr; [|split; [done|left; by eexists]].
  cbn [snd] in H.
  assert (Hi : inp.*2 = next :: inp'.*2).
  { destruct inp as [|[d b] inp]; [done|]. cbn in Hr. destruct (_ <? _)%N; [|done]. by injection Hr as -> ->. }
  destruct (N.eqb_spec next 91) as [->|].
  { destruct (read_csi_or_stops inp') as [Hrest Hout]. split; [by etrans|]. by rewrite Hi. }
  destruct (next =? 79)%N.
  { pose proof (read_ss3_rest inp') as H'. destruct (read_ss3_event inp').
    split; [by etrans|left; by eexists]. }
  destruct (existsb _ _).
  { pose proof (read_string_rest next inp') as H'. destruct (read_string_event next inp').
    split; [by etrans|left; by eexists]. }
  destruct (next <? 128)%N; [split; [done|left; by eexists]|].
  pose proof (λ t s a, read_until_rest t s a inp') as H'. destruct (read_until _ _ _ _) eqn:Hu.
  specialize (H' KEY_SEQUENCE_CONTINUATION_TIMEOUT (λ _, false) [ESC; next]). rewrite Hu in H'.
  split; [by etrans|left; by eexists].
Qed.
Lemma read_event_or_stops delay b inp : reads_or_stops [b] (read_terminal_event ((delay, b) :: inp)) inp.
Proof.
  unfold read_terminal_event. cbn [read_byte].
  destruct (_ || _)%N; [split; [done|left; by eexists]|].
  destruct (b =? 9)%N; [split; [done|left; by eexists]|].
  destruct (b =? 127)%N; [split; [done|left; by eexists]|].
  destruct (N.eqb_spec b 27) as [->|].
  { destruct (read_escape_or_stops inp) as [Hrest Hout]. destruct (read_escape_event inp) as [event inp'].
    split; [done|]. cbn [fst] in *. destruct Hout as [[e ->]|[-> Hs]]; [left; by eexists|by right]. }
  destruct (b <=? 31)%N; [split; [done|left; by eexists]|].
  destruct (b <=? 126)%N; [split; [done|left; by eexists]|].
  unfold decode_utf8_key. destruct (utf8_width b <=? 1); [split; [done|left; by eexists]|].
  pose proof (read_character_rest (utf8_width b - 1) [b] inp) as H.
  destruct (read_character _ _ _) as [[bytes whole] inp'].
  split; [done|left; by eexists].
Qed.
Lemma read_event_some delay b inp event inp' :
  read_terminal_event ((delay, b) :: inp) = (Ok event, inp') → event ≠ None.
Proof.
  unfold read_terminal_event. cbn [read_byte].
  repeat (match goal with |- context [if ?c then _ else _] => destruct c end; [by intros [= <- <-]|]).
  destruct (b =? 27)%N.
  { destruct (read_escape_event inp) as [[e| | |] i]; by intros [= <- <-]. }
  repeat (match goal with |- context [if ?c then _ else _] => destruct c end; try by intros [= <- <-]).
  all: destruct (decode_utf8_key b inp); by intros [= <- <-].
Qed.
Lemma thread_ends inp : ∀ fuel, length inp < fuel →
  (∃ events, input_thread fuel inp = Ok (events ++ [TeInputClosed]) ∧ length events ≤ length inp)
  ∨ input_thread fuel inp = Panic
    ∧ ∃ l bytes r, inp.*2 = l ++ bytes ++ r ∧ stops_thread bytes.
Proof.
  remember (length inp) as n eqn:Hn. assert (length inp ≤ n) as Hle by lia. clear Hn.
  revert inp Hle. induction n as [|n IH]; intros inp Hle [|fuel] Hf; try lia.
  { destruct inp; [|simpl in Hle; lia]. left. by exists []. }
  destruct inp as [|[delay b] inp]; [left; exists []; split; [done|simpl; lia]|].
  cbn [input_thread]. destruct (read_event_or_stops delay b inp) as [Hrest Hout].
  pose proof (read_event_some delay b inp) as Hsome.
  destruct (read_terminal_event ((delay, b) :: inp)) as [o inp']. cbn [fst snd] in *.
  destruct Hout as [[event ->]|[-> (bytes & Hs & r & Hb)]].
  2: { right. split; [done|]. exists [], bytes, r. split; [|done]. by cbn in Hb |- *. }
  specialize (Hsome event inp' eq_refl). destruct event as [event|]; [|done]. cbn [mbind outcome_bind].
  assert (length inp' ≤ length inp) as Hl.
  { destruct Hrest as [k Hk]. apply (f_equal length) in Hk. rewrite length_app, !length_fmap in Hk. lia. }
  simpl in Hle. destruct (IH inp' ltac:(lia) fuel ltac:(lia)) as [(events & -> & He)|[-> (l & bytes & r & Hi & Hs)]].
  - left. exists (event :: events). split; [done|]. simpl. lia.
  - right. split; [done|]. destruct Hrest as [k Hk]. exists (b :: k ++ l), bytes, r. split; [|done].
    cbn [fmap list_fmap snd app]. by rewrite Hk, Hi, <-app_assoc.
Qed.

(** The bytes that arrived are those of the keys. *)
Lemma keys_arrived sent inps : Forall2 key_arrives sent inps → (concat inps).*2 = concat sent.
Proof.
  induction 1 as [|bytes inp sent inps [<- _] _ IH]; [done|]. cbn [concat]. by rewrite fmap_app, IH.
Qed.

(** C38: Keys that are clear in a mode can all be sent, one after the other, and the terminal
    of this program makes of the bytes just those keys, when the bytes of each key arrive
    together, however long the pauses between the keys. Whatever else arrives, the input
    thread ends, after no more events than bytes, with the word that the input has closed,
    unless the bytes have a part that begins as a report of the mouse, [ESC [ <], is UTF-8 and
    ends in a character beyond ASCII. Clear are: keys with a sequence of their own
    (arrows, Home, End, Insert, Delete, pages, F1 to F12) with any modifiers; a key sent as a
    report, but for control characters and private ones; otherwise plain text, Tab, Enter and
    Backspace plain, Shift-Tab, and those characters with Ctrl or Alt that no other key or
    sequence begins with ([clear_char] lists them); each named as the token it is reported as. *)
Theorem keys_sent_are_read_back mode :
  (∀ ts, Forall (λ t, clear mode t = true) ts →
     ∃ sent, Forall2 (λ t bytes, sequence_to_bytes [t] mode = Ok bytes) ts sent
       ∧ sequence_to_bytes ts mode = Ok (concat sent)
       ∧ ∀ inps, Forall2 key_arrives sent inps → ∃ es,
           Forall2 (λ e t, key_event_to_token (normalize_text_key e) = Ok t) es ts
           ∧ input_thread (S (length (concat inps))) (concat inps)
             = Ok ((TeKey <$> es) ++ [TeInputClosed]))
  ∧ ∀ inp,
     (∃ events, input_thread (S (length inp)) inp = Ok (events ++ [TeInputClosed])
        ∧ length events ≤ length inp)
     ∨ input_thread (S (length inp)) inp = Panic
       ∧ ∃ l bytes r, inp.*2 = l ++ bytes ++ r ∧ stops_thread bytes.
Proof.
  split; [|intros inp; apply thread_ends; lia].
  intros ts Hts. destruct (sent_and_read mode ts Hts) as (sent & Hsent & Hbytes & Hread).
  exists sent. split_and!; [done|done|]. intros inps Hin. destruct (Hread inps Hin) as (es & Hes & Hthread).
  exists es. split; [done|]. apply Hthread. pose proof (clear_takes_bytes mode ts _ Hts Hbytes).
  rewrite <-(length_fmap snd), (keys_arrived _ _ Hin). lia.
Qed.
Definition some_keys : list KeyToken :=
  [TChar 233; TCtrl 113; TAlt 120; TKey KTab only_shift; TUp; TEscape;
   TKey (KFunction 3) (mkModifiers true false true false)]%N.
(** Each key a second after the one before it. *)
Definition slowly (sent : list (list N)) : list input :=
  (λ bytes, match bytes with b :: bytes => (1000, b)%N :: ((λ b, (0%N, b)) <$> bytes) | [] => [] end) <$> sent.
Lemma keys_sent_are_read_back_witness :
  ∃ sent, sequence_to_bytes some_keys 8 = Ok (concat sent)
    ∧ concat sent = CSI ++ lit "233u" ++ CSI ++ lit "113;5u" ++ CSI ++ lit "120;3u" ++ CSI ++ lit "9;2u"
        ++ CSI ++ lit "A" ++ CSI ++ lit "27u" ++ CSI ++ lit "13;6~"
    ∧ ∃ es, Forall2 (λ e t, key_event_to_token (normalize_text_key e) = Ok t) es some_keys
        ∧ input_thread (S (length (concat (slowly sent)))) (concat (slowly sent))
          = Ok ((TeKey <$> es) ++ [TeInputClosed]).
Proof.
  destruct (keys_sent_are_read_back 8) as [Hsent _].
  destruct (Hsent some_keys) as (sent & _ & Hbytes & Hread).
  { repeat (constructor; [by vm_compute|]). constructor. }
  exists sent. split; [exact Hbytes|].
  split; [apply (f_equal (λ o, match o with Ok bytes => bytes | _ => [] end)) in Hbytes; by rewrite <-Hbytes|].
  apply Hread. clear. induction sent as [|[|b bytes] sent IH]; constructor; try exact IH; [done|].
  split; cbn [fmap list_fmap snd tail].
  - f_equal. by rewrite <-list_fmap_compose, list_fmap_id.
  - by apply Forall_fmap, Forall_true.
Defined.

(** A mouse report cut off inside a character stops the thread; unmodified keys reported
    with the lock state are other keys than those a binding names. *)
Example cut_off_mouse_report :
  input_thread 6 [(0, 27); (0, 91); (0, 60); (0, 195); (0, 169)]%N = Panic.
Proof. reflexivity. Qed.
Example caps_lock_changes_the_key :
  (event ← input_thread 9 ((λ b, (0%N, b)) <$> CSI ++ lit "1;65A");
   match event with TeKey e :: _ => key_event_to_token (normalize_text_key e) | _ => Err NotFound end)
  = Ok (TKey KUp NO_MODIFIERS)
  ∧ parse_key_sequence (lit "<up>") = inl [TUp].
Proof. by vm_compute. Qed.
