(* ===== verification/SavingSpec.v ===== *)
(** Keepers are let go once the workspace file does without them: whatever the
    server, its runtimes and its saves do, and wherever they are stopped, the file
    shows the programs of such keepers as ended, so that the next server does not
    run them again. One case is left out, of a write that reports a failure after it
    has replaced the file. *)

From S2P Require Import Prelude Core Model Environment State Queries Buffers Focus.
From S2P Require Import Tree Layout Validate Persist Protocol Runtimes Restore Keepers.
From S2P Require Import Saving Server RuntimeEvents BufferRequests Requests Startup.
From S2P Require Import Concurrency Ids Forest Invariant QueriesSpec FocusSpec Settle.
From S2P Require Import Surgery SnapshotSpec Keeps Serves ConcurrencySpec.

(** ** What a workspace file records *)

Definition has_exited (s : PersistedBufferState) : bool :=
  match s with PExited _ _ => true | _ => false end.
(** The program of [bid] is over, as the file [w] has it. *)
Definition exit_recorded (w : PersistedWorkspace) (bid : BufferId) : Prop :=
  ∀ b, b ∈ pw_buffers w → pb_id b = bid → has_exited (pb_state b) = true.

Lemma saved_recorded st bid : consistent st → ended st bid → exit_recorded (to_persisted st) bid.
Proof.
  intros C He pb Hpb Hid. simpl in Hpb.
  apply list_elem_of_fmap in Hpb as (b & -> & (k & Hb)%elem_of_values_of).
  pose proof (wi_buffer_id _ (in_wired _ _ _ (cs_inv _ C)) _ _ Hb) as Hk. simpl in Hid.
  assert (k = bid) as -> by congruence. unfold ended in He. rewrite Hb in He.
  simpl. by destruct (b_state b).
Qed.

Lemma recorded_saved st bid : consistent st → is_Some (buffers st !! bid) →
  exit_recorded (to_persisted st) bid → ended st bid.
Proof.
  intros C [b Hb] Hr. unfold ended. rewrite Hb.
  specialize (Hr (persisted_buffer b)
    ltac:(simpl; apply list_elem_of_fmap; exists b; split; [done|]; apply elem_of_values_of; by exists bid)
    (wi_buffer_id _ (in_wired _ _ _ (cs_inv _ C)) _ _ Hb)).
  simpl in Hr. by destruct (b_state b).
Qed.

Lemma zip_same : ∀ l1 l2 : list PersistedBuffer,
  length l1 = length l2 →
  forallb (λ p, bool_decide (pb_set_activity (pb_activity p.2) p.1 = p.2)) (zip l1 l2) = true →
  ∀ b1, b1 ∈ l1 → ∃ b2, b2 ∈ l2 ∧ pb_set_activity (pb_activity b2) b1 = b2.
Proof.
  induction l1 as [|x l1 IH]; intros [|y l2] Hl Hz b1 Hb; try done; [by apply elem_of_nil in Hb|].
  cbn [zip zip_with forallb] in Hz. apply andb_true_iff in Hz as [Hxy Hz].
  apply bool_decide_eq_true in Hxy.
  apply elem_of_cons in Hb as [->|Hb]; [exists y; split; [by left|exact Hxy]|].
  destruct (IH l2 ltac:(simpl in Hl; lia) Hz b1 Hb) as (b2 & ? & ?). exists b2. by split; [right|].
Qed.
Lemma same_saved_recorded a b bid :
  same_saved_state a b = true → exit_recorded b bid → exit_recorded a bid.
Proof.
  unfold same_saved_state. intros Hs Hr pb Hpb Hid.
  apply andb_true_iff in Hs as [Hs Hz]. apply andb_true_iff in Hs as [_ Hl].
  apply Nat.eqb_eq in Hl. destruct (zip_same _ _ Hl Hz pb Hpb) as (pb' & Hpb' & He).
  change (pb_state pb) with (pb_state (pb_set_activity (pb_activity pb') pb)). rewrite He.
  apply Hr; [exact Hpb'|]. by rewrite <-He.
Qed.

Lemma same_saved_in a b bid : same_saved_state a b = true →
  (∃ pb, pb ∈ pw_buffers b ∧ pb_id pb = bid) → ∃ pb, pb ∈ pw_buffers a ∧ pb_id pb = bid.
Proof.
  unfold same_saved_state. intros Hs (pb & Hpb & Hid).
  apply andb_true_iff in Hs as [Hs Hz]. apply andb_true_iff in Hs as [_ Hl].
  apply Nat.eqb_eq in Hl. apply list_elem_of_lookup in Hpb as [i Hi].
  destruct (pw_buffers a !! i) as [pa|] eqn:Ha.
  2:{ apply lookup_ge_None in Ha. apply lookup_lt_Some in Hi. lia. }
  exists pa. split; [by eapply list_elem_of_lookup_2|].
  rewrite forallb_forall in Hz. specialize (Hz (pa, pb)).
  assert (pb_set_activity (pb_activity pb) pa = pb) as He.
  { apply (bool_decide_eq_true (pb_set_activity (pb_activity (pa, pb).2) (pa, pb).1 = (pa, pb).2)), Hz.
    apply list_elem_of_In, list_elem_of_lookup. exists i. apply lookup_zip_with_Some. by exists pa, pb. }
  rewrite <-Hid, <-He. done.
Qed.

(** ** Loading keeps what is recorded *)

Lemma restore_all_from {P V} (restore : P → outcome V) (key : V → N) l : ∀ m m' : gmap N V,
  fold_ok (λ m p, x ← restore p;
    match m !! key x with Some _ => Err Internal | None => Ok (<[key x := x]> m) end) m l = Ok m' →
  ∀ k x, m' !! k = Some x → m !! k = Some x ∨ ∃ p, p ∈ l ∧ restore p = Ok x ∧ key x = k.
Proof.
  induction l as [|p l IH]; intros m m' Hf k x Hx; [left; by simplify_eq/=|].
  cbn [fold_ok] in Hf. destruct (restore p) as [y| | |] eqn:Hp; try done.
  cbn [mbind outcome_bind] in Hf. destruct (m !! key y); [done|].
  cbn [mbind outcome_bind] in Hf. destruct (IH _ _ Hf k x Hx) as [Hk|(q & Hq & ? & ?)].
  - rewrite lookup_insert in Hk. case_decide; [|by left]. right. exists p. subst.
    split; [by left|]. split; [congruence|]. congruence.
  - right. exists q. split; [by right|done].
Qed.

(** Operations that leave the buffers alone. *)
Definition quiet {A} (m : SM A) : Prop := ∀ st, buffers (m st).2 = buffers st.
Lemma quiet_bind {A B} (m : SM A) (f : A → SM B) :
  quiet m → (∀ a, quiet (f a)) → quiet (m ≫= f).
Proof.
  intros Hm Hf st. unfold mbind, ST_bind. specialize (Hm st). destruct (m st) as [[] st']; [|exact Hm..].
  etrans; [apply Hf|exact Hm].
Qed.
Lemma quiet_for_each {A} (f : A → SM unit) l : (∀ x, quiet (f x)) → quiet (for_each f l).
Proof. intros Hf. induction l; [done|]. apply quiet_bind; [apply Hf|done]. Qed.
Ltac be_quiet :=
  cbn beta iota zeta;
  lazymatch goal with
  | |- ∀ _, _ => intro; be_quiet
  | |- quiet (mbind _ _) => apply quiet_bind; be_quiet
  | |- quiet (match ?x with _ => _ end) => destruct x; be_quiet
  | |- quiet _ => by intros ?
  end.
Lemma wrap_in_tabs_quiet id title : quiet (wrap_node_in_tabs id title).
Proof.
  unfold wrap_node_in_tabs, repoint_owner_reference, set_parent, insert_node, node_mut, session_mut,
    floating_mut. be_quiet.
Qed.
Lemma wrap_roots_quiet : quiet wrap_untabbed_session_roots.
Proof.
  unfold wrap_untabbed_session_roots. apply quiet_bind; [by intros ?|]. intros l.
  apply quiet_for_each. intros root.
  apply quiet_bind; [by intros ?|]. intros title. apply quiet_bind; [apply wrap_in_tabs_quiet|by intros ? ?].
Qed.

Lemma loaded_ended w st bid : load_workspace w = Ok st → exit_recorded w bid → ended st bid.
Proof.
  unfold load_workspace. intros Hl Hr. apply bind_Ok in Hl as (w' & Hw & Hf).
  assert (pw_buffers w' = pw_buffers w) as Eb.
  { unfold load_current_workspace, migrate_workspace in Hw. repeat case_match; simplify_eq/=; try done.
    by apply bind_Ok in Hw as (ss & _ & [= <-]). }
  unfold from_persisted in Hf.
  apply bind_Ok in Hf as (ss & _ & Hf). apply bind_Ok in Hf as (bs & Hbs & Hf).
  apply bind_Ok in Hf as (ns & _ & Hf). apply bind_Ok in Hf as (fs & _ & Hf).
  do 5 (apply bind_Ok in Hf as (? & _ & Hf)). cbv zeta in Hf.
  destruct (wrap_untabbed_session_roots _) as [[[]| | |] st'] eqn:Hwrap; try done.
  apply bind_Ok in Hf as (? & _ & [= <-]).
  match type of Hwrap with _ ?st0 = _ => pose proof (wrap_roots_quiet st0) as Hq end.
  rewrite Hwrap in Hq. simpl in Hq. unfold ended. rewrite Hq.
  destruct (bs !! bid) as [b|] eqn:Hb; [|done].
  destruct (restore_all_from _ _ _ _ _ Hbs _ _ Hb) as [He|(pb & Hpb & Hres & Hid)];
    [by rewrite lookup_empty in He|].
  unfold restored_buffer in Hres. apply bind_Ok in Hres as (s & Hs & Hres).
  apply bind_Ok in Hres as (t & _ & [= <-]). simpl in *. rewrite Eb in Hpb.
  specialize (Hr pb Hpb Hid). destruct (pb_state pb); try done.
  simpl in Hs. by apply bind_Ok in Hs as (? & _ & [= <-]).
Qed.

(** ** The server, its runtimes and its saves together *)

Section world.
Context {C : Type} {channel : Channel C} (version : rstring) (limits : ResourceLimits).

(** The save that runs goes with the state it saves. [w_told] lists the keepers let
    go, each with the state whose save let it go. *)
Record world : Type := mkWorld {
  w_config : config C;
  w_arrivals : N;
  w_inner : Inner;
  w_last_saved : option PersistedWorkspace;
  w_save : option (ServerState * PS (result unit));
  w_file : option PersistedWorkspace;
  w_told : list (BufferId * ServerState)
}.
Definition w_state (w : world) : ServerState := rt_state (cf_runtime (w_config w)).
Definition saver_of (w : world) : Saver := mkSaver (w_state w) (w_inner w) (w_last_saved w).

Definition with_save (save : option (ServerState * PS (result unit))) (w : world) : world :=
  mkWorld (w_config w) (w_arrivals w) (w_inner w) (w_last_saved w) save (w_file w) (w_told w).
Definition with_saver (s : Saver) (w : world) : world :=
  mkWorld (w_config w) (w_arrivals w) (sv_inner s) (last_saved s) (w_save w) (w_file w) (w_told w).
Definition with_file (f : PersistedWorkspace) (w : world) : world :=
  mkWorld (w_config w) (w_arrivals w) (w_inner w) (w_last_saved w) (w_save w) (Some f) (w_told w).
Definition with_told (t : BufferId * ServerState) (w : world) : world :=
  mkWorld (w_config w) (w_arrivals w) (w_inner w) (w_last_saved w) (w_save w) (w_file w)
    (t :: w_told w).

(** A step of the save: a section, or a call with its answer. A write succeeds and
    leaves the new file, or fails and leaves either: [write_workspace] fails after the
    rename when the directory cannot be opened or synced. *)
Definition save_step (w : world) (st : ServerState) (p : PS (result unit)) (w' : world) : Prop :=
  match p with
  | Done _ => w' = with_save None w
  | Locked m next =>
      ∃ b s, m (saver_of w) = (Ok b, s) ∧ w' = with_save (Some (st, next b)) (with_saver s w)
  | Await call next =>
      match call in KeeperCall B return (B → PS (result unit)) → Prop with
      | KcWriteWorkspace f => λ next,
          w' = with_save (Some (st, next (inl ()))) (with_file f w)
          ∨ ∃ e, w' = with_save (Some (st, next (inr e))) w
                 ∨ w' = with_save (Some (st, next (inr e))) (with_file f w)
      | KcAcknowledge bid _ => λ next,
          ∃ r, w' = with_save (Some (st, next r)) (with_told (bid, st) w)
      | _ => λ next, ∃ r, w' = with_save (Some (st, next r)) w
      end next
  end.

(** Runtimes, starting, ending or let go, may change in any way, but keepers only wait
    for a save of buffers the server has made. *)
Definition allocated (st : ServerState) (i : Inner) : Prop :=
  ∀ bid, is_Some (awaiting i !! bid) → (bid < buffer_ids st)%N.
Inductive world_step : world → world → Prop :=
  | ws_server w n c :
      reaches version admitted limits (w_config w) n c →
      world_step w (mkWorld c (w_arrivals w + n) (w_inner w) (w_last_saved w) (w_save w)
                      (w_file w) (w_told w))
  | ws_runtimes w i :
      allocated (w_state w) i →
      world_step w (mkWorld (w_config w) (w_arrivals w) i (w_last_saved w) (w_save w)
                      (w_file w) (w_told w))
  | ws_save w :
      w_save w = None →
      world_step w (with_save (Some (w_state w, after_snapshot (snapshot_of (saver_of w)))) w)
  | ws_save_step w st p w' :
      w_save w = Some (st, p) → save_step w st p w' → world_step w w'.

Definition world_start (st : ServerState) (env : gmap rstring rstring)
    (file : option PersistedWorkspace) : world :=
  mkWorld (started st) 0 (Inner_new env) None None file [].
Definition world_reaches (st : ServerState) (env : gmap rstring rstring)
    (file : option PersistedWorkspace) : world → Prop :=
  rtc world_step (world_start st env file).

(** *** Where a save is *)

Definition telling (keepers : list (BufferId * Handle)) : PS (result unit) :=
  fold_proc (λ _ k, await (KcAcknowledge k.1 k.2) ;; mret ()) () keepers ;; mret (inl ()).
Definition releasing (ids : list BufferId) : PS (result unit) := tell_saved ids ;; mret (inl ()).

(** The file has the program of [bid] as ended. *)
Definition file_shows (f : option PersistedWorkspace) (bid : BufferId) : Prop :=
  ∃ p, f = Some p ∧ exit_recorded p bid.
(** It does, unless [st] no longer has the buffer and the last write that reached the
    file reported a failure. *)
Definition shows_end (last file : option PersistedWorkspace) (st : ServerState) (bid : BufferId) : Prop :=
  (buffers st !! bid = None → last = file) → file_shows file bid.
Definition shows_ends (last file : option PersistedWorkspace) (st : ServerState) : Prop :=
  ∀ bid, (bid < buffer_ids st)%N → ended st bid → shows_end last file st bid.

(** What has ended in [st], among the buffers it has made, has ended in [st']. *)
Definition lasts (st st' : ServerState) : Prop :=
  (buffer_ids st ≤ buffer_ids st')%N
  ∧ ∀ bid, (bid < buffer_ids st)%N → ended st bid → ended st' bid.
Lemma lasts_refl st : lasts st st.
Proof. by split. Qed.
Lemma lasts_trans st1 st2 st3 : lasts st1 st2 → lasts st2 st3 → lasts st1 st3.
Proof. intros [L1 H1] [L2 H2]. split; [lia|]. intros bid Hb He. apply H2; [lia|auto]. Qed.

(** What was last saved is an earlier state than [st], and the file is at least as new. *)
Definition kept_up (last file : option PersistedWorkspace) (st : ServerState) : Prop :=
  last = None
  ∨ ∃ old, last = Some (to_persisted old) ∧ consistent old ∧ lasts old st
           ∧ ∀ bid, (bid < buffer_ids old)%N → ended old bid → file_shows file bid.
Lemma kept_up_later last file st st' : kept_up last file st → lasts st st' → kept_up last file st'.
Proof.
  intros [->|(old & ? & ? & ? & ?)] Hl; [by left|right]. exists old.
  split_and!; try done. by eapply lasts_trans.
Qed.
Lemma kept_up_saved last file st : kept_up last file st → consistent st →
  kept_up last (Some (to_persisted st)) st.
Proof.
  intros [->|(old & ? & ? & [? Hl] & _)] Hc; [by left|right]. exists old.
  split_and!; try done. intros bid Hb He. eexists. split; [done|]. apply saved_recorded; auto.
Qed.
Lemma just_saved st : consistent st →
  kept_up (Some (to_persisted st)) (Some (to_persisted st)) st.
Proof.
  intros Hc. right. exists st. split_and!; [done|exact Hc|apply lasts_refl|].
  intros bid _ He. eexists. split; [done|]. by apply saved_recorded.
Qed.

(** Buffers the server has made, whose keepers it does without. *)
Definition unneeded (st : ServerState) (bid : BufferId) : Prop :=
  (bid < buffer_ids st)%N ∧ keeper_unneeded st bid = true.
Definition made (st : ServerState) (ids : list BufferId) : Prop := Forall (unneeded st) ids.
Inductive phase (st : ServerState) (last file : option PersistedWorkspace)
    : PS (result unit) → Prop :=
  | ph_writing snap :
      kept_up last file st → snap_workspace snap = to_persisted st →
      made st (snap_released snap) → snap_unchanged snap = false →
      phase st last file (after_snapshot snap)
  | ph_written ids snap :
      file = Some (to_persisted st) → snap = to_persisted st → made st ids →
      phase st last file
        (Locked (modify (λ s, mkSaver (sv_state s) (sv_inner s) (Some snap))) (λ _, releasing ids))
  | ph_releasing ids :
      kept_up last file st → shows_ends last file st → made st ids →
      phase st last file (releasing ids)
  | ph_telling keepers :
      kept_up last file st → shows_ends last file st → made st keepers.*1 →
      phase st last file (telling keepers)
  | ph_over r :
      kept_up last file st → phase st last file (Done r).

(** *** The invariant *)

(** A keeper let go: its buffer's end lasts in [st]. *)
Definition told_in (st : ServerState) (t : BufferId * ServerState) : Prop :=
  unneeded t.2 t.1 ∧ lasts t.2 st.
Record sound (st0 : ServerState) (w : world) : Prop := {
  sd_reached : reaches version admitted limits (started st0) (w_arrivals w) (w_config w);
  sd_allocated : allocated (w_state w) (w_inner w);
  sd_file : ∀ t, t ∈ w_told w → ended t.2 t.1 → shows_end (w_last_saved w) (w_file w) t.2 t.1;
  sd_told : Forall (told_in (w_state w)) (w_told w);
  sd_save : match w_save w with
            | Some (st, p) =>
                consistent st ∧ lasts st (w_state w) ∧ Forall (told_in st) (w_told w)
                ∧ phase st (w_last_saved w) (w_file w) p
            | None => kept_up (w_last_saved w) (w_file w) (w_state w)
            end
}.

Lemma unneeded_ended st bid : keeper_unneeded st bid = true →
  ended st bid ∨ ∃ b, buffers st !! bid = Some b ∧ Placement_socket_path (b_placement b) = None.
Proof.
  unfold keeper_unneeded, ended. destruct (buffers st !! bid) as [b|]; [|by left].
  intros [H|H%bool_decide_eq_true]%orb_true_iff; [by left|right]. by exists b.
Qed.
Lemma told_later st st' told : lasts st st' → Forall (told_in st) told → Forall (told_in st') told.
Proof.
  intros Hl Ht. eapply Forall_impl; [exact Ht|]. intros t [Hm Hl'].
  split; [exact Hm|by eapply lasts_trans].
Qed.

Lemma take_awaiting_ids ids : ∀ waiting k, k ∈ (take_awaiting ids waiting).1.*1 → k ∈ ids.
Proof.
  induction ids as [|id ids IH]; intros waiting k; simpl; [by intros ?%elem_of_nil|].
  specialize (IH (delete id waiting) k). destruct (take_awaiting ids _) as [taken rest].
  destruct (waiting !! id); simpl in *; rewrite ?elem_of_cons; naive_solver.
Qed.
Lemma take_awaiting_rest ids : ∀ waiting, (take_awaiting ids waiting).2 ⊆ waiting.
Proof.
  induction ids as [|id ids IH]; intros waiting; [done|]. simpl.
  specialize (IH (delete id waiting)). destruct (take_awaiting ids _) as [taken rest].
  etrans; [exact IH|apply delete_subseteq].
Qed.

(** A section of the save leaves the file and what was told alone. *)
Lemma released_made w : allocated (w_state w) (w_inner w) →
  made (w_state w) (exits_recorded_in (w_inner w) (w_state w)).
Proof.
  intros Ha. apply Forall_forall. intros bid [Hu Hb]%list_elem_of_filter.
  split; [|exact Hu]. apply Ha. by apply elem_of_keys_of in Hb.
Qed.
Lemma unchanged_shows w : consistent (w_state w) →
  kept_up (w_last_saved w) (w_file w) (w_state w) →
  snap_unchanged (snapshot_of (saver_of w)) = true →
  shows_ends (w_last_saved w) (w_file w) (w_state w).
Proof.
  intros Hc Hk. unfold snapshot_of. simpl.
  destruct Hk as [->|(old & -> & Ho & _ & Hf)]; [done|]. intros Hs bid _ He Hgone.
  pose proof (same_saved_recorded _ _ _ Hs (saved_recorded _ _ Hc He)) as Hrec.
  destruct (buffers (w_state w) !! bid) as [b|] eqn:Hb.
  2:{ rewrite <-Hgone by done. by eexists. }
  assert (is_Some (buffers old !! bid)) as Hin.
  { destruct (same_saved_in _ _ bid Hs) as (pb & Hpb & Hid).
    - exists (persisted_buffer b). split.
      + apply list_elem_of_fmap. exists b. split; [done|]. apply elem_of_values_of. by exists bid.
      + by apply (wi_buffer_id _ (in_wired _ _ _ (cs_inv _ Hc))).
    - apply list_elem_of_fmap in Hpb as (b' & -> & (k & Hb')%elem_of_values_of).
      pose proof (wi_buffer_id _ (in_wired _ _ _ (cs_inv _ Ho)) _ _ Hb') as Hk.
      simpl in Hid. exists b'. congruence. }
  apply Hf; [by apply (fi_buffers _ (wi_fresh _ (in_wired _ _ _ (cs_inv _ Ho))))|by apply recorded_saved].
Qed.

(** Whatever was let go before is shown in the file of a save. *)
Lemma told_saved st told t : consistent st → Forall (told_in st) told → t ∈ told →
  ended t.2 t.1 → file_shows (Some (to_persisted st)) t.1.
Proof.
  intros Hc Hts Hin He. eexists. split; [done|].
  pose proof (proj1 (Forall_forall _ _) Hts t Hin) as [[Hmade _] [_ Hlast]].
  apply saved_recorded; auto.
Qed.

(** Each step of a save, from where the save is. *)
Lemma writing_step st0 w st snap w' : sound st0 w → w_save w = Some (st, after_snapshot snap) →
  kept_up (w_last_saved w) (w_file w) st → snap_workspace snap = to_persisted st →
  made st (snap_released snap) → snap_unchanged snap = false →
  save_step w st (after_snapshot snap) w' → sound st0 w'.
Proof.
  intros [Hr Ha Hf Ht Hs] Hsave Hl Hw Hm Hu. rewrite Hsave in Hs. destruct Hs as (Hc & Hls & Hts & _).
  unfold after_snapshot, write_snapshot. rewrite Hu.
  intros [->|[e [->| ->]]]; (split; [exact Hr|exact Ha| |exact Ht|]).
  - intros t Hin He _. simpl. rewrite Hw. by eapply told_saved.
  - split_and!; [exact Hc|exact Hls|exact Hts|].
    apply ph_written; [by rewrite <-Hw|exact Hw|exact Hm].
  - exact Hf.
  - split_and!; [exact Hc|exact Hls|exact Hts|]. by apply ph_over.
  - intros t Hin He _. simpl. rewrite Hw. by eapply told_saved.
  - split_and!; [exact Hc|exact Hls|exact Hts|]. apply ph_over. simpl. rewrite Hw.
    by eapply kept_up_saved.
Qed.
Lemma telling_step st0 w st keepers w' : sound st0 w → w_save w = Some (st, telling keepers) →
  kept_up (w_last_saved w) (w_file w) st → shows_ends (w_last_saved w) (w_file w) st →
  made st keepers.*1 → save_step w st (telling keepers) w' → sound st0 w'.
Proof.
  intros [Hr Ha Hf Ht Hs] Hsave Hl Hrec Hm. rewrite Hsave in Hs. destruct Hs as (Hc & Hls & Hts & _).
  destruct keepers as [|k keepers].
  - intros ->. split; [exact Hr|exact Ha|exact Hf|exact Ht|]. by eapply kept_up_later.
  - intros [r ->]. apply Forall_cons in Hm as [Hk Hm]. split; [exact Hr|exact Ha|..].
    + intros t [->|Hin]%elem_of_cons He; [|by apply Hf]. apply Hrec; [apply Hk|exact He].
    + apply Forall_cons. split; [by split|exact Ht].
    + split_and!; [exact Hc|exact Hls| |].
      * apply Forall_cons. split; [split; [exact Hk|apply lasts_refl]|exact Hts].
      * by apply (ph_telling _ _ _ keepers).
Qed.
Lemma releasing_step st0 w st ids w' : sound st0 w → w_save w = Some (st, releasing ids) →
  kept_up (w_last_saved w) (w_file w) st → shows_ends (w_last_saved w) (w_file w) st →
  made st ids → save_step w st (releasing ids) w' → sound st0 w'.
Proof.
  intros [Hr Ha Hf Ht Hs] Hsave Hl Hrec Hm. rewrite Hsave in Hs. destruct Hs as (Hc & Hls & Hts & _).
  intros (b & s & [= <- <-] & ->). split; [exact Hr| |exact Hf|exact Ht|].
  - intros bid [h Hh]. apply Ha. exists h.
    eapply lookup_weaken; [exact Hh|apply take_awaiting_rest].
  - split_and!; [exact Hc|exact Hls|exact Hts|].
    apply ph_telling; [exact Hl|exact Hrec|]. apply Forall_forall. intros k Hk.
    apply (proj1 (Forall_forall _ _) Hm). by eapply take_awaiting_ids.
Qed.
Lemma save_step_sound st0 w st p w' :
  sound st0 w → w_save w = Some (st, p) → save_step w st p w' → sound st0 w'.
Proof.
  intros S Hsave. pose proof (sd_save _ _ S) as Hs. rewrite Hsave in Hs.
  destruct Hs as (Hc & Hls & Hts & Hph). revert Hsave. destruct Hph as [| |ids|keepers|r Hk]; intros Hsave.
  - by eapply writing_step.
  - destruct S as [Hr Ha _ Ht _]. intros (b & s & [= <- <-] & ->). subst snap.
    split; [exact Hr|exact Ha| |exact Ht|].
    + intros t Hin He _. simpl. rewrite H. by eapply told_saved.
    + split_and!; [exact Hc|exact Hls|exact Hts|]. simpl. rewrite H.
      apply ph_releasing; [by apply just_saved| |done].
      intros bid _ He _. eexists. split; [done|]. by apply saved_recorded.
  - by eapply releasing_step.
  - by eapply telling_step.
  - intros ->. destruct S as [Hr Ha Hf Ht _]. split; [exact Hr|exact Ha|exact Hf|exact Ht|].
    by eapply kept_up_later.
Qed.

Lemma world_step_sound st0 w w' : consistent st0 → roomy (5 * w_arrivals w') st0 →
  sound st0 w → world_step w w' → sound st0 w'.
Proof.
  intros C0 R0 S Hstep. destruct Hstep as [w n c Hr|w i Hi|w Hn|w st p w' Hsave Hp].
  - destruct S as [Hr0 Ha Hf Ht Hs]. simpl in R0.
    assert (lasts (w_state w) (rt_state (cf_runtime c))) as Hl.
    { split; [by apply (reaches_ended version limits st0 _ _ _ _ 0 C0 R0 Hr0 Hr)|].
      intros bid. by apply (reaches_ended version limits st0 _ _ _ _ bid C0 R0 Hr0 Hr). }
    split; [by eapply reaches_trans| |exact Hf|by eapply told_later|].
    + intros bid Hb. simpl. eapply N.lt_le_trans; [by apply Ha|apply Hl].
    + destruct (w_save w) as [[st p]|] eqn:Hsave; simpl; rewrite ?Hsave; [|by eapply kept_up_later].
      destruct Hs as (? & ? & ? & ?). split_and!; try done. by eapply lasts_trans.
  - destruct S. by split.
  - pose proof S as [Hr Ha Hf Ht Hs]. rewrite Hn in Hs.
    assert (consistent (w_state w)) as Hc.
    { eapply od_consistent, (reaches_orderly version limits st0 _ _ _ C0 R0 Hr). done. }
    split; [exact Hr|exact Ha|exact Hf|exact Ht|]. simpl.
    split_and!; [exact Hc|apply lasts_refl|exact Ht|].
    destruct (snap_unchanged (snapshot_of (saver_of w))) eqn:Hu.
    + unfold after_snapshot, write_snapshot. rewrite Hu.
      apply ph_releasing; [exact Hs|by apply unchanged_shows|by apply released_made].
    + by apply ph_writing; [exact Hs| |apply released_made|].
  - by eapply save_step_sound.
Qed.
Lemma world_sound st0 env file w : consistent st0 → roomy (5 * w_arrivals w) st0 →
  world_reaches st0 env file w → sound st0 w.
Proof.
  intros C0 R0 H. revert R0. apply (rtc_ind_r (R:=world_step) (λ w, roomy (5 * w_arrivals w) st0 → sound st0 w)
    (world_start st0 env file)); [| |exact H].
  - intros _. split; [constructor| |by intros t ?%elem_of_nil|constructor|by left].
    intros bid [h Hh]. change (@lookup N Handle (gmap N Handle) _ bid ∅ = Some h) in Hh.
    by rewrite lookup_empty in Hh.
  - intros w1 w2 _ Hs IH R. eapply world_step_sound; [exact C0|exact R| |exact Hs].
    apply IH. eapply roomy_less; [|exact R].
    destruct Hs as [? ? ? ?|? ? ?|? ?|? st p w' ? Hp]; simpl; try lia.
    destruct p as [r|B m next|B call next]; simpl in Hp; [by subst|by destruct Hp as (? & ? & ? & ->)|].
    destruct call; naive_solver lia.
Qed.
End world.
