(* ===== verification/ServerTheorems.v ===== *)
(** What holds of the server in whatever order the tasks that handle its arrivals
    run: each request gets one reply, its own; and as long as no client sends a
    request that puts a layout together by hand, the workspace stays consistent,
    panes change as the abstract account allows, no task gets stuck, and what has
    ended stays ended.

    [admitted] leaves out five requests: [NodeRequest::CreateSplit], [CreateTabs],
    [WrapInTabs], [BreakNode] and [JoinBufferAtNode]. [WorkspaceTheorems] shows for
    each how it makes the workspace inconsistent. *)

From stdpp Require Import relations.
From S2P Require Import Prelude Core Model Environment State Queries Buffers Persist.
From S2P Require Import Protocol Snapshot Runtimes Keepers Saving Server RuntimeEvents.
From S2P Require Import Dispatch BufferRequests Requests Concurrency Ids Forest.
From S2P Require Import Invariant QueriesSpec FocusSpec Settle Surgery SnapshotSpec.
From S2P Require Import Keeps Serves Serving ConcurrencySpec SavingSpec.

(** ** A small run: a client connects and pings *)

#[local] Instance unbounded : Channel (list ServerEvent) := λ e queue, (Sent, queue ++ [e]).

Definition ping : arrival (list ServerEvent) := ArRequest 1 (Ping 7 (lit "hello")).
Definition release : rstring := lit "0.1.0".
Definition few : ResourceLimits := mkResourceLimits 8 8.
Definition pinged : config (list ServerEvent) :=
  arrive release few ping (started demo).
Lemma ping_reached (c : config (list ServerEvent)) :
  reaches release admitted few c 1 (arrive release few ping c).
Proof. by apply (reach_arrival _ _ _ _ 0); [constructor|]. Qed.
Lemma pinged_reached : reaches release admitted few (started demo) 1 pinged.
Proof. apply ping_reached. Qed.

Section server.
Context {C : Type} {channel : Channel C} (version : rstring).

(** C1: From a consistent workspace, as long as no client sends [CreateSplit],
    [CreateTabs], [WrapInTabs], [BreakNode] or [JoinBufferAtNode] (each of which can
    break the workspace) and ids do not run out (every arrival takes at most five of
    each kind, of 2^32 for nodes and 2^64 for the others): after any arrivals, any interleaving of the tasks they started and any
    answers of the runtimes, the workspace is consistent, no buffer is shown by two
    panes, and the panes went there by opening, closing and showing as [pane_step]
    allows. *)
Theorem server_stays_consistent limits st0 n (c : config C) :
  consistent st0 → roomy (5 * n) st0 → reaches version admitted limits (started st0) n c →
  consistent (rt_state (cf_runtime c)) ∧ panes_ok (views (rt_state (cf_runtime c)))
  ∧ rtc pane_step (views st0) (views (rt_state (cf_runtime c))).
Proof.
  intros Hc R Hr.
  destruct (reaches_orderly version limits st0 (5 * n) n c Hc R Hr) as [Hc' _ Hv]; [lia|].
  split_and!; [exact Hc'|by apply consistent_panes|exact Hv].
Qed.

(** C2: Requests and replies match one to one, up to order: whatever the server starts
    from, whatever arrives (any request included) and however the tasks interleave,
    each request received was answered once, on its connection and under its id, or
    belongs to a task that has not ended and has not answered. *)
Theorem requests_answered_once adm limits st0 n (c : config C) :
  reaches version adm limits (started st0) n c →
  prod_map id Some <$> cf_requests c
    ≡ₚ (same_id <$> cf_replies c) ++ (prod_map id Some <$> omap tk_request (cf_tasks c))
  ∧ ∀ t, t ∈ cf_tasks c → tk_proc t = Done () → tk_request t = None.
Proof.
  intros Hr. destruct (reaches_answered version adm limits st0 n c Hr) as [Hh Hp].
  split; [exact Hp|]. intros t Ht. apply honest_over. by apply (proj1 (Forall_forall _ _) Hh).
Qed.


(** C7: A program that has ended stays ended: in a server started from a consistent
    workspace, to which no client sends [CreateSplit], [CreateTabs], [WrapInTabs],
    [BreakNode] or [JoinBufferAtNode] and whose ids do not run out, once a buffer has
    exited or is gone, no other request, no report of a runtime and no restart makes
    it run again, and no new buffer gets its id, however the tasks interleave. *)
Theorem ended_stays_ended limits st0 n m (c c' : config C) bid :
  consistent st0 → roomy (5 * (n + m)) st0 →
  reaches version admitted limits (started st0) n c → reaches version admitted limits c m c' →
  (bid < buffer_ids (rt_state (cf_runtime c)))%N →
  ended (rt_state (cf_runtime c)) bid → ended (rt_state (cf_runtime c')) bid.
Proof. intros Hc R H1 H2. by apply (reaches_ended version limits st0 n c m c' bid Hc R H1 H2). Qed.

End server.

Lemma server_stays_consistent_witness :
  consistent (rt_state (cf_runtime pinged)) ∧ panes_ok (views (rt_state (cf_runtime pinged)))
  ∧ rtc pane_step (views demo) (views (rt_state (cf_runtime pinged))).
Proof.
  exact (server_stays_consistent release few demo 1 pinged demo_consistent
           (demo_roomy 5 ltac:(lia)) pinged_reached).
Defined.
Lemma requests_answered_once_witness :
  cf_requests pinged = [(1, 7)]%N
  ∧ prod_map id Some <$> cf_requests pinged
    ≡ₚ (same_id <$> cf_replies pinged) ++ (prod_map id Some <$> omap tk_request (cf_tasks pinged)).
Proof.
  split; [reflexivity|].
  exact (proj1 (requests_answered_once release admitted few demo 1 pinged pinged_reached)).
Defined.

(** The workspace after the shell of buffer 1 has exited, in its pane. *)
Definition stopped : ServerState := (mark_buffer_exited 0%Z 1%N (Some 0%Z) demo).2.
Lemma stopped_consistent : consistent stopped.
Proof.
  exact (keeps_after 0 _ _ (mark_exited_keeps 0%Z 1%N (Some 0%Z)) demo_consistent (demo_roomy 0 ltac:(lia))).
Qed.
Lemma stopped_roomy : roomy 5 stopped.
Proof.
  exact (roomy_within 0 5 demo stopped (demo_roomy 5 ltac:(lia))
           (mark_buffer_exited_spends 0%Z 1%N (Some 0%Z) demo)).
Qed.
Lemma ended_stays_ended_witness :
  ended (rt_state (cf_runtime (arrive release few ping (started stopped)))) 1.
Proof.
  exact (ended_stays_ended release few stopped 0 1 (started stopped) _ 1 stopped_consistent
    stopped_roomy (reach_start _ _ _ _) (ping_reached _)
    ltac:(vm_compute; reflexivity) ltac:(vm_compute; reflexivity)).
Defined.

