(* ===== verification/WorkspaceTheorems.v ===== *)
(** What a consistent workspace promises as a whole: its own check accepts it, a
    saved copy loads back, snapshots and queries tell all of it, exited buffers
    go, and ids are not handed out twice. And what it does not: requests, run on concrete
    workspaces, after which the check refuses it. *)

From S2P Require Import Prelude Core Model Environment State Queries Buffers Focus.
From S2P Require Import Tree Layout Moves Validate Persist Protocol Snapshot Ids.
From S2P Require Import Forest Invariant QueriesSpec FocusSpec Settle Surgery Owners.
From S2P Require Import Cosmetic Normalize Closing Exits SnapshotSpec PersistSpec.
From S2P Require Import Keeps Protocol Runtimes Keepers Saving.

(** C5: [validate] accepts every consistent state whose zoomed panes are on
    screen: it walks the whole workspace without an error, a panic, or running
    out of nodes. *)
Theorem validate_accepts st : consistent st → zoom_settled st → validate st = Ok ().
Proof. intros C Z. apply validate_valid. by apply consistent_valid. Qed.
Lemma validate_accepts_witness : consistent demo ∧ validate demo = Ok ().
Proof.
  split; [exact demo_consistent|].
  exact (validate_accepts demo demo_consistent demo_zoom).
Defined.

(** C6: A saved workspace loads back, when it is consistent, its zoomed panes are on
    screen and it is within the allocators' ranges: every session, buffer, node and
    popup returns under its id, but for what the format leaves out or truncates
    ([restored]: focus histories, snapshots and helper lines, broadcast flags,
    sub-millisecond times), and the state loaded passes [validate]. (The condition on
    zoomed panes matters: [zoom_survives_window_switch] reaches a state without it,
    whose file does not load.) *)
Theorem saved_workspace_loads st :
  consistent st → zoom_settled st → has_room 0 st →
  load_workspace (to_persisted st) = Ok (restored st) ∧ validate (restored st) = Ok ().
Proof.
  intros C Z R. split; [exact (load_saved C Z R)|].
  apply validate_valid. exact (restored_is_valid C Z R).
Qed.
Lemma saved_workspace_loads_witness :
  load_workspace (to_persisted demo) = Ok (restored demo) ∧ validate (restored demo) = Ok ().
Proof.
  apply (saved_workspace_loads demo); [exact demo_consistent|exact demo_zoom|apply demo_room; lia].
Defined.

(** C19: a session's snapshot is complete and exact: it lists every node of the
    session and every buffer its panes show, each once and in id order, and its
    popups in stacking order; each record is the record of that object, and the
    focus leaf it names for a node is a pane below it. *)
Theorem snapshot_is_exact st sid s :
  consistent st → (node_ids st ≤ u32_modulus)%N → sessions st !! sid = Some s →
  ∃ snap, session_snapshot st sid = Ok snap
    ∧ ss_session snap = session_record s
    ∧ (∀ i, i ∈ (nr_id <$> ss_nodes snap) ↔ ∃ n, nodes st !! i = Some n ∧ node_session n = sid)
    ∧ (∀ bid, bid ∈ (br_id <$> ss_buffers snap) ↔ ∃ i, views st !! i = Some (sid, bid))
    ∧ NoDup (nr_id <$> ss_nodes snap) ∧ NoDup (br_id <$> ss_buffers snap)
    ∧ fr_id <$> ss_floating snap = s_floating s
    ∧ (∀ r, r ∈ ss_nodes snap → ∃ n, nodes st !! nr_id r = Some n
         ∧ node_record n (nr_focus_leaf_id r) = Ok r
         ∧ match nr_focus_leaf_id r with
           | Some leaf => is_view st leaf ∧ below st (nr_id r) leaf
           | None => True
           end)
    ∧ (∀ r, r ∈ ss_buffers snap → ∃ b, buffers st !! br_id r = Some b ∧ r = buffer_record b)
    ∧ (∀ r, r ∈ ss_floating snap → ∃ w, floating st !! fr_id r = Some w ∧ r = floating_record w).
Proof.
  intros C Few Hs.
  destruct (session_snapshot_spec C sid s Few Hs) as (snap & E & H1 & H2 & H3 & H4 & H5 & H6 & H7).
  exists snap. split; [exact E|]. split; [exact H1|].
  split; [intros i; by rewrite H2, elem_of_set_to_sorted, elem_of_nodes_of|].
  split; [intros i; by rewrite H4, elem_of_set_to_sorted, elem_of_buffers_of|].
  split; [rewrite H2; apply NoDup_set_to_sorted|].
  split; [rewrite H4; apply NoDup_set_to_sorted|].
  split; [exact H6|]. split; [|split; [exact H5|exact H7]].
  intros r Hr. assert (nr_id r ∈ nodes_of st sid) as (n & Hn & _)%elem_of_nodes_of.
  { apply elem_of_set_to_sorted. rewrite <-H2. by apply list_elem_of_fmap_2. }
  exists n. split; [exact Hn|].
  destruct (snapshot_node_spec C (nr_id r) n Few Hn) as (r' & o & Er & _ & _ & _ & Ho & Hc & Hrec).
  rewrite (H3 r Hr) in Er. injection Er as <-. rewrite Ho. split; [exact Hrec|].
  destruct o as [leaf|]; [|exact I]. split; [apply Hc|apply Hc].
Qed.
Lemma snapshot_is_exact_witness :
  ∃ s snap, sessions demo !! 1%N = Some s ∧ session_snapshot demo 1%N = Ok snap
    ∧ fr_id <$> ss_floating snap = s_floating s.
Proof.
  assert (is_Some (sessions demo !! 1%N)) as [s Hs].
  { refine (bool_decide_eq_true_1 (is_Some (sessions demo !! 1%N)) _). vm_compute. reflexivity. }
  assert (node_ids demo ≤ u32_modulus)%N as Few.
  { rewrite demo_nodes_used. unfold u32_modulus. lia. }
  destruct (snapshot_is_exact demo 1%N s demo_consistent Few Hs)
    as (snap & E & _ & _ & _ & _ & _ & F & _).
  exists s, snap. split; [exact Hs|]. split; [exact E|exact F].
Defined.

(** C10: in a consistent state every walk over the layout ends and is right: the
    root above a node, whether one node is below another, whether a pane is on
    screen, and the pane a subtree would show, which exists unless the subtree
    shows none. *)
Theorem walks_end st i n :
  consistent st → nodes st !! i = Some n →
  (∃ r m, top_root_for_node st i = Ok r ∧ below st r i ∧ nodes st !! r = Some m
          ∧ parent m = None)
  ∧ (∀ a, ∃ b, node_is_descendant_of st i a = Ok b ∧ (b = true ↔ below st a i))
  ∧ (∃ b, is_node_visible_in_session st (node_session n) i = Ok b
          ∧ (b = true ↔ on_screen st (node_session n) i))
  ∧ (∃ o, resolve_visible_leaf st i = Ok o ∧
       match o with
       | Some leaf => is_view st leaf ∧ visible_from (nodes st) i leaf
       | None => ∀ leaf, is_view st leaf → ¬ visible_from (nodes st) i leaf
       end)
  ∧ (∃ o, resolve_focus_candidate st i = Ok o ∧
       match o with
       | Some leaf => is_view st leaf ∧ visible_from (nodes st) i leaf
       | None => ∀ leaf, is_view st leaf → ¬ visible_from (nodes st) i leaf
       end).
Proof.
  intros C Hi. pose proof C as [I _ A _]. pose proof (in_wired _ _ _ I) as W.
  pose proof (wi_forest _ W) as F. pose proof (in_shaped _ _ _ I) as Sh.
  assert (is_Some (nodes st !! i)) as Hex by by exists n.
  destruct (node_session_exists st i n W A Hi) as [s Hs].
  split_and!.
  - exact (top_root_spec F i Hex).
  - intros a. exact (node_is_descendant_spec F i a Hex).
  - exact (is_node_visible_in_session_spec W (node_session n) s i n Hs Hi eq_refl).
  - destruct (resolve_visible_leaf_spec F i Hex) as (o & E & H). exists o. split; [exact E|].
    destruct o; [split; [apply H|by apply H]|by apply H].
  - destruct (resolve_focus_candidate_spec F i (in_remembers _ _ _ I) Hex) as (o & E & H).
    exists o. split; [exact E|]. destruct o; [split; [apply H|by apply H]|by apply H].
Qed.
Lemma walks_end_witness :
  ∃ r, top_root_for_node demo 4%N = Ok r ∧ below demo r 4%N.
Proof.
  assert (is_Some (nodes demo !! 4%N)) as [n Hn].
  { refine (bool_decide_eq_true_1 (is_Some (nodes demo !! 4%N)) _). vm_compute. reflexivity. }
  destruct (walks_end demo 4%N n demo_consistent Hn) as ((r & m & E & B & _) & _).
  exists r. exact (conj E B).
Defined.

(** C13: [dispose_exited_buffers] removes exactly the buffers that are to go: history
    views nothing shows; panes whose program has exited, with the pane, unless the
    buffer's remain-on-exit option, or else the server's, has them stay; and detached
    programs that have exited, were shown before and are not watched. It reports
    those buffers and the sessions that lost a pane. Every other buffer and pane
    stays (also a detached program that exited before it was ever shown), and no id
    is taken. *)
Theorem dispose_removes_due st :
  consistent st →
  wp dispose_exited_buffers
    (λ d st', consistent st' ∧ (zoom_settled st → zoom_settled st')
       ∧ (∀ i, i ∈ removed_buffers d ↔
            ∃ b, buffers st !! i = Some b ∧ to_go (remain_on_exit st) b)
       ∧ (∀ i, records st' !! i = if decide (i ∈ removed_buffers d) then None
                                  else records st !! i)
       ∧ (∀ i, views st' !! i = p ← views st !! i;
                                if decide (p.2 ∈ removed_buffers d) then None else Some p)
       ∧ (∀ sid, sid ∈ changed_sessions d ↔
            ∃ i bid, views st !! i = Some (sid, bid) ∧ bid ∈ removed_buffers d)
       ∧ dom (sessions st') = dom (sessions st) ∧ allocators st' = allocators st)
    (λ _ _, False) st.
Proof.
  intros C. eapply wp_mono; [by apply dispose_exited_buffers_wp| |done].
  intros d st' [H Hd]. split; [apply H|]. split; [apply H|].
  split; [intros i; setoid_rewrite <-due_to_go; apply Hd|].
  split; [apply H|]. split; [apply H|]. split; [apply H|]. split; apply H.
Qed.
Lemma dispose_removes_due_witness :
  let st := (mark_buffer_exited 9%Z 3%N (Some 0%Z) demo).2 in
  ∃ d st', dispose_exited_buffers st = (Ok d, st') ∧ removed_buffers d = [3%N]
    ∧ changed_sessions d = {[1%N]} ∧ views st !! 5%N = Some (1%N, 3%N) ∧ views st' !! 5%N = None.
Proof.
  intros st.
  assert (consistent st) as C.
  { exact (keeps_after 0 _ demo (mark_exited_keeps 9%Z 3%N (Some 0%Z)) demo_consistent
             (demo_roomy 0 ltac:(lia))). }
  assert (views st !! 5%N = Some (1%N, 3%N)) as V by (vm_compute; reflexivity).
  assert (match (dispose_exited_buffers st).1 with
          | Ok d => removed_buffers d = [3%N] ∧ changed_sessions d = {[1%N]}
          | _ => False
          end) as E by (vm_compute; split; reflexivity).
  pose proof (dispose_removes_due st C) as H. unfold wp in H.
  destruct (dispose_exited_buffers st) as [[d|e| |] st']; [|destruct H..].
  exists d, st'. split; [reflexivity|]. destruct E as [E1 E2]. split; [exact E1|].
  split; [exact E2|]. split; [exact V|].
  destruct H as (_ & _ & _ & _ & Hv & _). rewrite (Hv 5%N), V. simpl. rewrite E1.
  vm_compute. reflexivity.
Defined.

(** Where the guarantees stop: runs of the operations, from the empty state, that
    leave the workspace in a state its own [validate] rejects, or that fail half
    way. Each is a script of requests a client can send. *)

Section scripts.
Definition new_buffer : SM BufferId := create_buffer 0%Z (lit "b") [] None.

(** Session 1 with a window on a new buffer: the root is node 1, the pane node 2. *)
Definition one_window : SM unit :=
  sid ← create_session 0%Z (lit "main");
  b ← new_buffer;
  add_root_tab_from_buffer sid (lit "one") b ;;
  mret ().
(** A second window, pane 3, in front. *)
Definition two_windows : SM unit :=
  one_window ;;
  b ← new_buffer;
  add_root_tab_from_buffer 1%N (lit "two") b ;;
  mret ().
(** The first window split into panes 2 and 3 by the split node 4. *)
Definition split_window : SM unit :=
  one_window ;;
  b ← new_buffer;
  split_leaf_with_new_buffer 2%N Vertical b ;;
  mret ().

(** What a script ends with, and whether [validate] accepts the state it leaves. *)
Definition outcome_of {A} (m : SM A) : outcome A := (m ServerState_new).1.
Definition validated {A} (m : SM A) : outcome unit := validate (m ServerState_new).2.
End scripts.

(** Zooming a pane and then selecting another window leaves the zoom on a hidden
    pane: the state fails [validate], and the workspace saved from it cannot be
    loaded again. *)
Theorem zoom_survives_window_switch :
  let script := two_windows ;; zoom_node 3%N ;; select_root_tab 1%N 0 in
  outcome_of script = Ok () ∧ validated script = Err Conflict
  ∧ is_ok (load_workspace (to_persisted (script ServerState_new).2)) = false.
Proof. vm_compute. split_and!; reflexivity. Qed.

(** Breaking a pane of a hidden window out to a window of its own switches the
    session's active window although the focus is to stay: the focused pane is
    then hidden, and the state fails [validate]. *)
Theorem break_of_hidden_pane_hides_focus :
  let script := split_window ;; b ← new_buffer; add_root_tab_from_buffer 1%N (lit "two") b ;;
                break_node 2%N false in
  is_ok (outcome_of script) = true ∧ validated script = Err Conflict.
Proof. vm_compute. split; reflexivity. Qed.

(** Joining a buffer as a tab next to a hidden window does the same. *)
Theorem join_next_to_hidden_window_hides_focus :
  let script := two_windows ;; b ← new_buffer; join_buffer_at_node 2%N b JTabAfter in
  is_ok (outcome_of script) = true ∧ validated script = Err Conflict.
Proof. vm_compute. split; reflexivity. Qed.

(** Closing a pane that was wrapped in tabs inside a split: the emptied tabs node
    is dropped from the node map but stays a child of its parent. [close_node]
    reports [NotFound], and the state fails [validate]. *)
Theorem close_of_wrapped_pane_dangles :
  let script := split_window ;; wrap_node_in_tabs 2%N (lit "x") ;; close_node 2%N in
  outcome_of script = Err NotFound ∧ is_ok (validated script) = false.
Proof. vm_compute. split; reflexivity. Qed.

(** [create_tabs_node] makes a tree of its own, which [add_tab_sibling_at] accepts
    below itself: the layout is then a cycle, and the walk after it never ends. *)
Theorem tabs_can_be_nested_in_themselves :
  let script := one_window ;; a ← create_tabs_node 1%N [] 0;
                b ← create_tabs_node 1%N [TabEntry_new (lit "t") a] 0;
                add_tab_sibling_at a 0 (lit "u") b in
  outcome_of script = OutOfFuel.
Proof. vm_compute. reflexivity. Qed.

(** [create_split_node] accepts the session's own root as a child: the root is then
    below another node, and the state fails [validate]. *)
Theorem session_root_can_become_a_child :
  let script := one_window ;; a ← create_tabs_node 1%N [] 0;
                create_split_node 1%N Vertical [1%N; a] in
  is_ok (outcome_of script) = true ∧ is_ok (validated script) = false.
Proof. vm_compute. split; reflexivity. Qed.

(** A split keeps naming a closed pane as its last focused one. Ids restart after a
    restore, so the name can be reused by a container: selecting the window then
    fails, although the same requests succeed without the restart. *)
Theorem stale_focus_after_restore :
  let before := two_windows ;;
    b ← new_buffer; split_leaf_with_new_buffer 2%N Vertical b ;;
    b ← new_buffer; split_leaf_with_new_buffer 4%N Vertical b ;;
    b ← new_buffer; split_leaf_with_new_buffer 6%N Vertical b ;;
    select_root_tab 1%N 1 ;; close_node 8%N in
  let after := wrap_node_in_tabs 2%N (lit "x") ;; reads validate ;; select_root_tab 1%N 0 in
  let st := (before ServerState_new).2 in
  (after st).1 = Ok () ∧
  match load_workspace (to_persisted st) with
  | Ok st' => (after st').1 = Err InvalidInput
  | _ => False
  end.
Proof. vm_compute. split; reflexivity. Qed.

(** A failing wrap is not undone: wrapping a tree no session shows reports an error
    and leaves a new container behind. *)
Theorem failed_wrap_leaves_a_node :
  let before := one_window ;; a ← create_tabs_node 1%N [] 0; mret a in
  let script := a ← before; wrap_node_in_tabs a (lit "x") in
  is_ok (outcome_of script) = false
  ∧ (node_ids (before ServerState_new).2 + 1)%N = node_ids (script ServerState_new).2
  ∧ size (nodes (script ServerState_new).2) = S (size (nodes (before ServerState_new).2)).
Proof. vm_compute. split_and!; reflexivity. Qed.

(** A program is started in a window of its own, and its workspace written, in place,
    by a write that reports a failure; the program ends, and its window goes. The
    server takes what it saved before for what the file has, and skips the save: the
    keeper is let go, and the file still has the program as running. *)
Theorem late_failure_forgets_exit :
  let start := b ← new_buffer; mark_buffer_running b None ;;
    set_buffer_placement b (Local (Some (lit "keeper"))) ;;
    add_root_tab_from_buffer 1%N (lit "new") b in
  let before := (one_window ServerState_new).2 in
  let during := (start before).2 in
  let after := ((mark_buffer_exited 0%Z 2%N (Some 0%Z) ;; dispose_exited_buffers) during).2 in
  same_saved_state (to_persisted before) (to_persisted after) = true
  ∧ keeper_unneeded after 2%N = true
  ∧ match load_workspace (to_persisted during) with
    | Ok st => ∃ b, buffers st !! 2%N = Some b ∧ is_exited (b_state b) = false
                    ∧ Placement_socket_path (b_placement b) = Some (lit "keeper")
    | _ => False
    end.
Proof. vm_compute. split_and!; [reflexivity..|]. eexists. split_and!; reflexivity. Qed.

(** Machine-width numbers: ids are handed out once until 2^64 calls, and pixel
    sizes saturate at 16 bits. *)

(** The ids [n] successive calls of the allocator hand out. *)
Fixpoint take_ids (n : nat) (a : IdAllocator) : list N :=
  match n with
  | 0 => []
  | S n => let '(id, a) := IdAllocator_next a in id :: take_ids n a
  end.

Lemma take_ids_elem n : ∀ a x, (a < u64_modulus)%N →
  x ∈ take_ids n a → ∃ k, (k < N.of_nat n)%N ∧ x = ((a + k) mod u64_modulus)%N.
Proof.
  induction n as [|n IH]; intros a x Ha Hx; [by apply elem_of_nil in Hx|].
  simpl in Hx. apply elem_of_cons in Hx as [->|Hx].
  - exists 0%N. rewrite N.add_0_r, N.mod_small by done. split; [lia|done].
  - apply IH in Hx as (k & Hk & ->); [|by apply N.mod_lt].
    exists (k + 1)%N. split; [lia|]. unfold wrap_succ64.
    rewrite N.Div0.add_mod_idemp_l. f_equal. lia.
Qed.

(** The allocator hands out ids from its start upwards, and none twice in 2^64
    calls, wrap-around included. *)
Theorem ids_are_distinct n a :
  (a < u64_modulus)%N → (N.of_nat n ≤ u64_modulus)%N →
  NoDup (take_ids n a)
  ∧ ∀ k, k < n → take_ids n a !! k = Some ((a + N.of_nat k) mod u64_modulus)%N.
Proof.
  intros Ha Hn. split.
  - revert a Ha Hn. induction n as [|n IH]; intros a Ha Hn; [constructor|]. simpl. constructor.
    + intros (k & Hk & E)%take_ids_elem; [|by apply N.mod_lt].
      unfold wrap_succ64 in E. rewrite N.Div0.add_mod_idemp_l in E.
      destruct (N.lt_ge_cases (a + 1 + k) u64_modulus).
      * rewrite N.mod_small in E by done. lia.
      * rewrite <-(N.mod_unique (a + 1 + k) u64_modulus 1 (a + 1 + k - u64_modulus)) in E; lia.
    + apply IH; [by apply N.mod_lt|lia].
  - intros k. revert a k Ha. induction n as [|n IH]; intros a k Ha Hk; [lia|].
    destruct k as [|k]; simpl.
    + by rewrite N.add_0_r, N.mod_small.
    + rewrite IH; [|lia|by apply N.mod_lt|lia]. unfold wrap_succ64.
      rewrite N.Div0.add_mod_idemp_l. do 2 f_equal. lia.
Qed.
Lemma ids_are_distinct_witness : NoDup (take_ids 3 18446744073709551614%N).
Proof. apply (ids_are_distinct 3 18446744073709551614%N); unfold u64_modulus; lia. Defined.

(** A terminal size given pixels by [with_cell_size] never exceeds 16 bits, and
    unless it saturates [cell_size] recovers the cell it was given. *)
Theorem cell_size_roundtrip s w h :
  let s' := with_cell_size s (Some (mkCellSize w h)) in
  cols s' = cols s ∧ rows s' = rows s
  ∧ (pixel_width s' ≤ u16_max)%N ∧ (pixel_height s' ≤ u16_max)%N
  ∧ ((0 < cols s)%N → (0 < rows s)%N → (0 < w)%N → (0 < h)%N →
     (cols s * w ≤ u16_max)%N → (rows s * h ≤ u16_max)%N →
     cell_size s' = Some (mkCellSize w h))
  ∧ (cols s = 0%N ∨ rows s = 0%N ∨ w = 0%N ∨ h = 0%N → cell_size s' = None).
Proof.
  cbn zeta. unfold with_cell_size, cell_size, of_text_area, checked_div, sat_mul16. simpl.
  split_and!; try done; [lia|lia|..].
  - intros Hc Hr Hw Hh Ew Eh.
    rewrite (proj2 (N.eqb_neq (cols s) 0)), (proj2 (N.eqb_neq (rows s) 0)) by lia. simpl.
    rewrite !N.min_r, !(N.mul_comm _ w), !(N.mul_comm _ h), !N.div_mul by lia.
    by rewrite (proj2 (N.ltb_lt 0 w)), (proj2 (N.ltb_lt 0 h)).
  - intros Hz. destruct (N.eqb_spec (cols s) 0); [done|].
    destruct (N.eqb_spec (rows s) 0); [done|]. simpl.
    destruct Hz as [?|[?|[-> | ->]]]; [done|done|..].
    + rewrite N.mul_0_r, N.min_r, N.Div0.div_0_l by lia. done.
    + rewrite N.mul_0_r, (N.min_r _ 0), N.Div0.div_0_l by lia. by rewrite andb_false_r.
Qed.
Lemma cell_size_roundtrip_witness :
  cell_size (with_cell_size (PtySize_new 80 24) (Some (mkCellSize 9 18))) = Some (mkCellSize 9 18).
Proof.
  apply (cell_size_roundtrip (PtySize_new 80 24) 9 18); vm_compute; done.
Defined.
