(* ===== verification/RestoreSpec.v ===== *)
(** The line typed into a restored shell reads back as the words it was made from.
    The reader is the shell's, of which only the quoting rules are known: those of
    POSIX.1-2017, Shell Command Language, 2.2, as far as zsh and fish share them. *)

From S2P Require Import Prelude Core Model Buffers Restore.

(** ** How shells read a line *)

Definition equals : N := 61.

(** The quoting rules POSIX shells, zsh and fish share. Bare words of plain characters
    stand for themselves, unless an equals sign or a percent sign begins them (zsh
    and fish give those a meaning). Inside single quotes, printable characters but
    the quote and the backslash stand for themselves (fish reads the backslash there,
    and a line editor control characters); outside, a backslash makes a quote or a
    backslash stand for itself. *)
Definition inside_quotes (c : N) : Prop := (32 ≤ c)%N ∧ c ≠ 127%N ∧ c ≠ quote ∧ c ≠ backslash.
Inductive text_reads : rstring → rstring → Prop :=
  | tr_end : text_reads [] []
  | tr_escaped c s w :
      c = quote ∨ c = backslash → text_reads s w → text_reads (backslash :: c :: s) (c :: w)
  | tr_quoted cs s w :
      Forall inside_quotes cs → text_reads s w → text_reads (quote :: cs ++ quote :: s) (cs ++ w).
Definition begins_plainly (w : rstring) : Prop := head w ≠ Some equals ∧ head w ≠ Some 37%N.
Inductive word_reads : rstring → rstring → Prop :=
  | wr_bare w :
      w ≠ [] → Forall (λ c, c ∈ lit "_-./:=@%+," ∨ is_ascii_alphanumeric c = true) w →
      begins_plainly w → word_reads w w
  | wr_quoted s w : s ≠ [] → text_reads s w → word_reads s w.

(** [shell] reads lines by these rules: words with spaces between them are a command
    with its arguments, unless the command is a word [reserved] by the shell's
    grammar or an assignment. *)
Definition shares_quoting (shell : rstring → option (list rstring)) (reserved : rstring → Prop)
    : Prop :=
  ∀ texts program args,
    Forall2 word_reads texts (program :: args) → equals ∉ program → ¬ reserved program →
    shell (join_with 32 texts) = Some (program :: args).

(** ** What is typed *)

Definition printable (w : rstring) : Prop := Forall (λ c, (32 ≤ c)%N ∧ c ≠ 127%N) w.
Lemma quoted_text_reads arg : printable arg → ∃ cs s w,
  concat (escaped <$> arg) ++ [quote] = cs ++ quote :: s ∧ arg = cs ++ w
  ∧ Forall inside_quotes cs ∧ text_reads s w.
Proof.
  induction 1 as [|c arg [Hc Hd] _ (cs & s & w & He & -> & Hcs & Hs)].
  { exists [], [], []. split_and!; [done|done|constructor|constructor]. }
  change (concat (escaped <$> c :: cs ++ w)) with (escaped c ++ concat (escaped <$> (cs ++ w))).
  rewrite <-app_assoc, He. unfold escaped. destruct (_ || _) eqn:Hq.
  - exists [], ([backslash; c; quote] ++ cs ++ quote :: s), (c :: cs ++ w).
    split_and!; [done|done|constructor|]. simpl. constructor; [|by constructor].
    apply orb_true_iff in Hq as [?%N.eqb_eq|?%N.eqb_eq]; auto.
  - apply orb_false_iff in Hq as [?%N.eqb_neq ?%N.eqb_neq].
    exists (c :: cs), s, w. split_and!; [done|done|by repeat constructor|done].
Qed.
Lemma shell_word_reads arg : printable arg → begins_plainly arg → word_reads (shell_word arg) arg.
Proof.
  intros Hp Hb. unfold shell_word. destruct (_ && _) eqn:Hq.
  - apply andb_true_iff in Hq as [Hn%negb_true_iff%bool_decide_eq_false Hf].
    rewrite forallb_forall in Hf.
    apply wr_bare; [exact Hn| |exact Hb]. apply Forall_forall. intros c Hc.
    apply list_elem_of_In, Hf in Hc. unfold plain_char in Hc. apply orb_true_iff in Hc as [?|?%bool_decide_eq_true]; auto.
  - apply wr_quoted; [done|]. destruct (quoted_text_reads arg Hp) as (cs & s & w & -> & -> & Hcs & Hs).
    by constructor.
Qed.

(** C9: The line typed into a restored shell is read back as the words it was made
    from, by every shell that follows the quoting rules POSIX shells, zsh and fish
    share (not csh, nu, elvish, xonsh or pwsh, which the code types into as well):
    whatever printable characters the words hold, unless one begins with an equals
    or a percent sign, the program's name has an equals sign, or it is a reserved
    word of the shell. *)
Theorem typed_line_reads_back shell reserved program args :
  shares_quoting shell reserved →
  Forall (λ w, printable w ∧ begins_plainly w) (program :: args) →
  equals ∉ program → ¬ reserved program →
  shell (shell_command_line (program :: args)) = Some (program :: args).
Proof.
  intros Hshell Hw He Hr. apply Hshell; [|exact He|exact Hr].
  induction Hw as [|w ws [Hp Hb] _ IH]; [constructor|]. constructor; [by apply shell_word_reads|exact IH].
Qed.

(** ** A reader that follows the rules *)

Definition is_blank (c : N) : bool := (c =? 32)%N || (c =? 9)%N.
(** Characters a shell gives a meaning of their own, outside quotes: operators,
    expansions, patterns and comments. *)
Definition shell_special (c : N) : bool :=
  (c =? 10)%N || (c =? 34)%N || bool_decide (c ∈ lit "|&;<>()$`*?[]#~{}!^").

(** Reading a simple command: the word so far, [None] between words, and whether a
    single quote is open. [first]: the word is the command's name, where an equals
    sign would make an assignment. A line that means more than its words is not
    read. *)
Fixpoint read_words (first : bool) (word : option rstring) (quoted : bool) (s : rstring)
    : option (list rstring) :=
  match s with
  | [] =>
      if quoted then None
      else match word with Some w => Some [w] | None => Some [] end
  | c :: s =>
      if quoted then
        if (c =? quote)%N then read_words first word false s
        else read_words first (Some (default [] word ++ [c])) true s
      else if (c =? quote)%N then read_words first (Some (default [] word)) true s
      else if (c =? backslash)%N then
        match s with
        | [] => None
        | c :: s =>
            if (c =? 10)%N then read_words first word false s
            else read_words first (Some (default [] word ++ [c])) false s
        end
      else if is_blank c then
        match word with
        | Some w => cons w <$> read_words false None false s
        | None => read_words first None false s
        end
      else if shell_special c || (first && (c =? equals)%N) then None
      else read_words first (Some (default [] word ++ [c])) false s
  end.
(** A reserved word begins a compound command. *)
Definition RESERVED_WORDS : list rstring :=
  lit <$> ["!"; "{"; "}"; "case"; "do"; "done"; "elif"; "else"; "esac"; "fi"; "for"; "if"; "in";
           "then"; "until"; "while"]%string.
Definition shell_words (s : rstring) : option (list rstring) :=
  ws ← read_words true None false s;
  match ws with
  | w :: _ => if bool_decide (w ∈ RESERVED_WORDS) then None else Some ws
  | [] => Some []
  end.

Lemma lit_elem c s : c ∈ lit s → (c < 256)%N.
Proof.
  induction s as [|a s IH]; simpl; [by intros ?%elem_of_nil|]. rewrite elem_of_cons.
  intros [->|?]; [apply Ascii.N_ascii_bounded|auto].
Qed.
Section reading.
Context (first : bool).

Lemma plain_reads c : c ∈ lit "_-./:=@%+," ∨ is_ascii_alphanumeric c = true →
  c ≠ quote ∧ c ≠ backslash ∧ is_blank c = false ∧ shell_special c = false.
Proof.
  intros Hp. assert (c < 256)%N as Hc.
  { destruct Hp as [Hp|Hp]; [by apply lit_elem in Hp|].
    unfold is_ascii_alphanumeric in Hp. rewrite !orb_true_iff, !andb_true_iff, !N.leb_le in Hp. lia. }
  assert (Forall (λ n, (N.of_nat n ∈ lit "_-./:=@%+," ∨ is_ascii_alphanumeric (N.of_nat n) = true) →
    N.of_nat n ≠ quote ∧ N.of_nat n ≠ backslash ∧ is_blank (N.of_nat n) = false
    ∧ shell_special (N.of_nat n) = false) (seq 0 256)) as Hall.
  { apply (bool_decide_eq_true_1 _). vm_compute. reflexivity. }
  rewrite Forall_forall in Hall. specialize (Hall (N.to_nat c)).
  rewrite N2Nat.id in Hall. apply Hall; [|exact Hp]. apply elem_of_seq. lia.
Qed.
Lemma read_bare rest cs : ∀ w,
  Forall (λ c, c ∈ lit "_-./:=@%+," ∨ is_ascii_alphanumeric c = true) cs →
  (first = true → equals ∉ cs) → cs ≠ [] ∨ is_Some w →
  read_words first w false (cs ++ rest) = read_words first (Some (default [] w ++ cs)) false rest.
Proof.
  induction cs as [|c cs IH]; intros w Hp He Hw.
  { destruct Hw as [?|[w' ->]]; [done|]. simpl. by rewrite app_nil_r. }
  apply Forall_cons in Hp as [Hc Hp]. destruct (plain_reads c Hc) as (Hq & Hb & Hbl & Hs).
  cbn [app read_words]. rewrite (proj2 (N.eqb_neq c quote) Hq), (proj2 (N.eqb_neq c backslash) Hb), Hbl, Hs.
  assert (first && (c =? equals)%N = false) as ->.
  { destruct first; [|done]. apply N.eqb_neq. intros ->. apply He; [done|]. by left. }
  cbn [orb]. rewrite IH; [simpl; by rewrite <-app_assoc|exact Hp| |right; by eexists].
  intros Hf Hin. apply He; [done|]. by right.
Qed.
Lemma read_inside rest cs : ∀ w, Forall inside_quotes cs →
  read_words first (Some w) true (cs ++ quote :: rest) = read_words first (Some (w ++ cs)) false rest.
Proof.
  induction cs as [|c cs IH]; intros w Hcs; [by rewrite app_nil_r|].
  apply Forall_cons in Hcs as [(_ & _ & Hq & _) Hcs]. cbn [app read_words].
  rewrite (proj2 (N.eqb_neq c quote) Hq), IH by done. simpl. by rewrite <-app_assoc.
Qed.
Lemma read_text rest s w : text_reads s w → ∀ acc, s ≠ [] ∨ is_Some acc →
  read_words first acc false (s ++ rest) = read_words first (Some (default [] acc ++ w)) false rest.
Proof.
  induction 1 as [|c s w Hc _ IH|cs s w Hcs _ IH]; intros acc Ha.
  - destruct Ha as [?|[a ->]]; [done|]. simpl. by rewrite app_nil_r.
  - cbn [app read_words]. change (backslash =? quote)%N with false. cbn iota.
    change (backslash =? backslash)%N with true. cbn iota.
    assert ((c =? 10)%N = false) as -> by by destruct Hc as [-> | ->].
    rewrite IH by (right; by eexists). simpl. by rewrite <-app_assoc.
  - rewrite app_comm_cons. cbn [app read_words]. change (quote =? quote)%N with true. cbn iota.
    rewrite <-app_assoc. cbn [app]. rewrite read_inside by done.
    rewrite IH by (right; by eexists). simpl. by rewrite <-!app_assoc.
Qed.
Lemma read_word rest text w : word_reads text w → (first = true → equals ∉ w) →
  read_words first None false (text ++ rest) = read_words first (Some w) false rest.
Proof.
  intros [w' Hn Hp _|s w' Hn Hs] He; [by apply (read_bare rest w' None); auto|].
  by apply (read_text rest s w' Hs None); auto.
Qed.
End reading.

Lemma read_line texts words : Forall2 word_reads texts words → ∀ first,
  words ≠ [] → (first = true → ∀ w, head words = Some w → equals ∉ w) →
  read_words first None false (join_with 32 texts) = Some words.
Proof.
  induction 1 as [|t w ts ws Htw Hts IH]; intros first Hn He; [done|].
  assert (first = true → equals ∉ w) as Ha by (intros ?; by apply He).
  destruct Hts as [|t' w' ts ws Htw' Hts].
  - change (join_with 32 [t]) with t. rewrite <-(app_nil_r t). by rewrite (read_word _ _ _ w).
  - change (join_with 32 (t :: t' :: ts)) with (t ++ 32%N :: join_with 32 (t' :: ts)).
    rewrite (read_word _ _ _ w) by done. cbn [read_words]. change (32 =? quote)%N with false.
    change (32 =? backslash)%N with false. change (is_blank 32) with true. cbn iota.
    rewrite (IH false); done.
Qed.
Lemma shell_words_shares : shares_quoting shell_words (λ w, w ∈ RESERVED_WORDS).
Proof.
  intros texts program args Ht He Hr. unfold shell_words. rewrite (read_line _ _ Ht); [|done|].
  - cbn [mbind option_bind]. by rewrite bool_decide_eq_false_2.
  - intros _ arg Ha. simpl in Ha. by simplify_eq.
Qed.

Lemma typed_line_reads_back_witness :
  shares_quoting shell_words (λ w, w ∈ RESERVED_WORDS)
  ∧ shell_words (shell_command_line [lit "less"; lit "it's a $HOME\file"; []])
    = Some [lit "less"; lit "it's a $HOME\file"; []].
Proof.
  split; [exact shell_words_shares|].
  assert (equals ∉ lit "less" ∧ lit "less" ∉ RESERVED_WORDS
    ∧ Forall (λ w, Forall (λ c, (32 ≤ c)%N ∧ c ≠ 127%N) w
              ∧ head w ≠ Some equals ∧ head w ≠ Some 37%N)
        [lit "less"; lit "it's a $HOME\file"; []]) as (H1 & H2 & H3)
    by (apply (bool_decide_eq_true_1 _); vm_compute; reflexivity).
  exact (typed_line_reads_back shell_words _ (lit "less") [lit "it's a $HOME\file"; []]
    shell_words_shares H3 H1 H2).
Defined.

(** zsh replaces a word that an equals sign begins by the path of the program it
    names, and such words are typed bare. *)
Theorem equals_words_are_typed_bare :
  shell_command_line [lit "less"; lit "=ls"] = lit "less =ls".
Proof. reflexivity. Qed.
